(* ===== verification/_CoqProject ===== *)
-Q . S2P
Prelude.v
Hash.v
DList.v
RA.v
RARep.v
RAGeo.v
RAInv.v
RAOps.v
RAAlloc.v
RAImport.v
RATop.v
RALife.v
RAProps.v
RASys.v
Mmu.v
MmuRep.v
MmuOps.v
MmuTab.v
MmuMap.v
MmuUnmap.v
MmuCtx.v
MmuLife.v
MmuHeap.v
MmuVm.v
MmuVmOps.v
MmuTop.v
MmuDevice.v
MmuProps.v
Handle.v
HandleRep.v
HandleInv.v
HandleOps.v
HandleFree.v
HandleAlloc.v
HandleTake.v
HandleApi.v
HandleSub.v
HandleLook.v
HandleBatch.v
HandleLife.v
HandleSys.v
HandleProps.v
HandlePurge.v
HandleKernel.v
Lists.v
ResMan.v
ResManRep.v
ResManOps.v
ResManApi.v
ResManQuiet.v
ResManProps.v
PerProc.v
PerProcRep.v
PerProcTop.v
PerProcApi.v
PerProcProps.v
Resource.v
Sim.v
Power.v
PowerRep.v
PowerSim.v
PowerOps.v
PowerTop.v
PowerStage.v
PowerQuiet.v
PowerProps.v
Queue.v
QueueRep.v
QueueMem.v
QueueInsert.v
QueueLaw.v
QueueSend.v
QueueRun.v
QueueProcess.v
QueueDrain.v
QueueCreate.v
QueueTop.v
QueueSafe.v
QueueReg.v
QueueProps.v
