(* ===== verification/Prelude.v ===== *)
(** * Verification of the SGX545 kernel services (pvrsrvkm)

    The repository is a Linux kernel driver for the PowerVR SGX545.  Its
    core, [services4/srvkm/common], is a layer of portable components: a hash
    table, a resource allocator, handle tables, intrusive lists, a resource
    manager, a power manager and command queues; on the allocator sits the
    memory management unit of the device, [devices/sgx/mmu.c].  User processes call it through the bridge
    (an ioctl), after they connected, which gives each of them a handle base
    and a resource manager context; the resource manager frees what a process leaves behind, the
    handle tables name kernel objects to user space, the allocator hands out
    the device addresses of each heap of the MMU, which makes their page
    tables and is called back by the allocator when a range is given back; the
    power manager takes the devices through the
    system's power transitions under a lock, and the command queues order the
    display driver's commands by the synchronisation objects they read and
    write.

    The development models these components as they are written, pointers,
    32-bit wrap-around and error paths included, and proves that each does
    what its interface promises.  The configuration is the release build for
    x86_64 Linux: no DEBUG, no PDUMP, no SUPPORT_SID_INTERFACE, assertions
    empty, [IMG_SIZE_T] of 32 bits, the system [ce5300].

    ** The model

    A routine is a function of type [M S A], from a state to an [outcome]:
    a result and a state, [Fault] (undefined behaviour: a wild or freed
    pointer, an index out of bounds), or [OutOfFuel] (a loop that did not
    finish).  [wp m Q s] is total correctness: no fault, no lack of fuel, and
    [Q] at the end; so every theorem stated with [wp] also says that the
    loops end.  Heaps are finite maps from addresses to records; an address
    that was freed is not in the map.  [OSAllocMem] is the kernel's choice,
    read from a script, so every allocation may fail; [os_live] counts the
    blocks not given back.

    ** The files

    - Prelude: integers, programs, [wp] and its tactic [wp_step], errors,
      memory, lists.
    - Hash: hash.c, from [HASH_Create_Extended] to [HASH_Iterate], one
      definition per C function of the same name; the table as a bag of
      pairs, and as a map when keys are distinct.
    - DList: intrusive doubly linked lists, used by the allocator.
    - RA: ra.c.  RARep, RAGeo, RAInv: the segment list in address order, the
      free lists by logarithm, the hash table of live tags; RAOps, RAAlloc,
      RAImport, RATop, RALife: every routine keeps the invariant; RAProps,
      RASys: the properties and whole runs.
    - Mmu, MmuHeap: mmu.c, and the part of BM_CreateContext that makes a
      context.  MmuRep: page tables as tables ([tables]), how the pointers and
      words of the driver represent them ([rep]), the walk of the device;
      MmuOps, MmuTab, MmuMap, MmuUnmap, MmuCtx, MmuLife: every
      routine on [rep]; MmuVm, MmuVmOps: heaps with their arenas ([vrep]);
      MmuTop: clients; MmuDevice: what the device sees ([device]); MmuProps:
      properties.
    - Handle: handle.c.  HandleRep, HandleInv: the array of entries, its free
      list, the tree of sub-handles and the hash table by key; HandleOps,
      HandleFree, HandleAlloc, HandleTake, HandleApi, HandleSub, HandleLook,
      HandleBatch, HandleLife: the routines; HandleSys, HandleProps: runs and
      properties.  HandlePurge, HandleKernel: the same for the kernel's own
      base, with purging.
    - Lists: the macros of lists.h, generic in the node type.
    - ResMan: resman.c, on Lists.  ResManRep, ResManOps, ResManApi: contexts
      as lists of items; ResManQuiet: free functions that do not call back;
      ResManProps: properties.
    - PerProc: perproc.c, with the private data of osperproc.c, the check of
      the caller of pvr_bridge_k.c, and the start and the end in pvrsrv.c; on
      Hash, Handle and ResMan, over one memory.  PerProcRep: what each
      connected process owns ([owns]), and how each part is made and freed;
      PerProcTop: connecting, stage by stage, and freeing; PerProcApi: the
      abstract state, its steps and the routines on it; PerProcProps: from
      start to end, properties.
    - Resource: the resource locks of osfunc.c, used by the next two.
    - Sim: simulation of programs by programs on abstract states.
    - Power: power.c.  PowerRep: the abstract state, a list of devices with a
      lock, and its operations; PowerSim, PowerOps: every routine simulates
      its abstract operation; PowerTop: clients, invariants; PowerStage: a
      system transition as a sequence of calls; PowerQuiet: unpowered
      systems and polling; PowerProps: concrete devices, properties.
    - Queue: queue.c with the inline functions of servicesint.h, the macro
      LOOP_UNTIL_TIMEOUT of srvkm.h, and the clock of osfunc.c.
      QueueRep: the abstract state, a log of commands that wait, run or are
      done; QueueMem, QueueInsert, QueueSend: the ring buffer and the
      timeouts; QueueLaw: the steps of the abstract state and the laws of
      the code elsewhere; QueueRun, QueueProcess, QueueDrain: processing and
      completion; QueueCreate: queues; QueueTop: clients; QueueSafe: safety
      and progress; QueueReg: registration; QueueProps: two display
      drivers that keep the laws, properties.

    ** The theorems

    For each component there is a refinement theorem: any run of its
    operations, chosen by the client within the rules the component has for
    its callers, neither faults nor loops, and answers as an abstract version
    does ([RA_refines_arena], [mmu_refines],
    [handle_ops_refine], [kernel_handles_refine], [perproc_refines],
    [queue_refines], [resman_refines], [power_refines], [HASH_refines_map],
    [lists_refine]).
    The rules are predicates on the operations and the state they are called
    in ([vm_pre], [hop_pre], [call_op], [pp_pre], [q_pre], [rm_pre],
    [op_paired], [run_safe]): what the code assumes of its callers, and in a
    few cases what keeps clear of the defects listed below, with which it
    faults.
    The processes are the composition of hash table, handle bases and
    resource manager: what one does never shows to another
    ([perproc_refines], [perproc_access]), a connection is all or nothing
    ([perproc_connect]) and leaves nothing behind
    ([perproc_connect_disconnect]).
    For the MMU the answers include those of the device: after each operation
    its walk of the words in memory finds what the tables say, for every
    context and address ([mmu_map_device], [mmu_free_device],
    [mmu_delete_device], [mmu_context_shares], [mmu_query_device]).
    Around it: what each operation does on every branch, errors included;
    what is never leaked or lost ([handle_base_memory],
    [RA_bytes_conserved], [HASH_Insert_bag]); what can be relied on
    ([mmu_ranges_disjoint], [mmu_alloc_backed], [mmu_new_heap_serves]); order and concurrency
    ([queue_serial], [queue_progress], [resman_disconnect_order],
    [power_lock_grant], [power_transition]); bounds
    ([NearestPower2_least], [pvr_log2_is_log2], [handle_table_invariant]);
    and the places where the code does not do what it means to
    ([null_buckets_wraps], [RA_TestDelete_diverges], [handle_batch_loses_free_list],
    [resman_dissociate_unheld], [failed_insert_forgets_zero], [register_out_of_memory],
    [power_clock_handlers], [power_failed_resume_leaks], [mmu_last_table],
    [mmu_initialise_leaks] and others).

    ** Interfaces

    What other code does is a class with laws: the source of imports of an
    arena ([ImportSource], with the callback for its backing store, which for a
    heap is the MMU itself, [vm_source]), the kernel's choice of physical pages
    ([MmuEnv] with [MmuLaw]: a page it hands out is free and within the 32 bits
    of the device; it may always refuse), the free functions of the resource manager
    ([FreeLaw]: they may call back into it), the power functions of devices
    and board ([PowerEnv]: they may change their world as they like, and are
    only assumed to return, [PowerTotal]; [PowerWaitLaw]: while a caller polls
    for the power lock, other threads run), the display driver and the other
    threads ([QueueLaw]: a driver may complete commands at once or
    later, refuse some, and while a routine sleeps other threads start and
    complete commands).  Each law has concrete instances, used by the
    witnesses.

    ** Fuel

    A loop over a list takes as fuel the number of nodes of the store, which
    bounds any list without repetition; loops over an array its length;
    the list of MMU contexts the number of contexts; mapping loops a turn per
    page and one more; NearestPower2 32 turns, for 32 bits; a queue as many turns as it has
    bytes, a command having at least 56; LOOP_UNTIL_TIMEOUT one turn per
    millisecond and three more, each turn sleeping at least one.  The
    theorems show that the fuel is enough.  The power lock is polled a million
    times, as in power.c, so its loop needs no fuel of its own;
    SYS_NO_POWER_LOCK_TIMEOUT, which ce5300/sysconfig.h defines to turn this
    limit off, is read nowhere.  The wait for the lock of
    PVRSRVProcessQueues has no bound in the code and takes its caller's
    patience; the theorems call it with the lock free.

    ** Bounds

    Runs and tables are bounded by 2^27 entries (134217728) wherever a hash
    table is behind them: a table of 2^28 entries holds that many before it
    grows, and the array of a table of 2^29 entries has a size that wraps in
    32 bits ([null_buckets]).

    ** Not modelled

    The bridge (argument copying, but for who may call), the other SGX
    device files (register and microkernel programming; sgxpower.c is behind [PowerEnv]), the Linux
    environment but for the functions named above, pdump, the debug driver, the
    board files and third-party display drivers: input and output, or hardware
    whose behaviour the repository does not state.  The buffer manager but for
    its use of the MMU in BM_CreateContext, the device memory calls and the
    display class: they combine the modelled components with the
    areas of linux/mm.c, with user memory and with the display driver's own
    functions, whose state this development does not have.

    Of mmu.c the paths with device-local memory (psLocalDevMemArena, null on
    this system) and those of other configurations are left out;
    [MMU_BIFResetPDAlloc] and [MMU_BIFResetPDFree] are modelled without
    theorems, and so is [MMU_Alloc] at an address of the caller's choice.  A
    client of the MMU keeps the rules of [vm_pre]: it maps only pages that are
    not mapped and whose page tables exist, which the code only asserts, or
    does not check.  That the arena of a heap has room for any range that would
    fit between the live ones is not proved, only that a refusal means no free
    tag had room, and that a new heap has.  The blocks of the arenas themselves
    are counted by the theorems on ra.c, not by those on the MMU.  The
    free functions of resources act on the resource manager and the memory
    only, not on the handle bases of the processes, and a process's calls on
    its base are all but the opening of batches.  A
    base with purging is treated without sub-handles and batches, of which
    the driver makes none in the kernel's base, the only one with purging. *)

From stdpp Require Export base numbers list gmap.
From Stdlib Require Export ZArith Lia.

Set Default Proof Using "Type".
#[global] Open Scope Z_scope.

(** ** C integers *)

(** [IMG_UINT32] and, on every supported target, [IMG_SIZE_T]
    (img_types.h keeps it 32 bits wide even on LP64). *)
Definition u32 (x : Z) : Z := x mod 4294967296.

(** [IMG_UINTPTR_T] on x86_64. *)
Definition u64 (x : Z) : Z := x mod 18446744073709551616.

Definition is_u32 (x : Z) : Prop := 0 ≤ x < 4294967296.
Definition is_u64 (x : Z) : Prop := 0 ≤ x < 18446744073709551616.

(** The null pointer. *)
Definition IMG_NULL : Z := 0.

Lemma u32_small x : is_u32 x → u32 x = x.
Proof. intros ?. apply Z.mod_small. done. Qed.

Lemma u64_small x : is_u64 x → u64 x = x.
Proof. intros ?. apply Z.mod_small. done. Qed.

Lemma u32_range x : is_u32 (u32 x).
Proof. apply Z.mod_pos_bound. lia. Qed.

Lemma u64_range x : is_u64 (u64 x).
Proof. apply Z.mod_pos_bound. lia. Qed.

Create HintDb cint.
#[export] Hint Resolve u32_range u64_range : cint.

(** Removes every wrap-around whose argument is in range. *)
Ltac nowrap :=
  repeat first
    [ rewrite u32_small by (unfold is_u32 in *; lia)
    | rewrite u64_small by (unfold is_u64 in *; lia) ].

(** ** Programs

    A C routine is a function from the state it runs in to an [outcome].
    [Fault] is undefined behaviour (a dereference of a dangling or null
    pointer, an index out of bounds, a division by zero).  [OutOfFuel] is
    the answer of a loop that did not finish within its fuel. *)

Inductive outcome (S A : Type) : Type :=
| Done (a : A) (s : S)
| Fault
| OutOfFuel.
Arguments Done {S A} a s.
Arguments Fault {S A}.
Arguments OutOfFuel {S A}.

Definition M (S A : Type) : Type := S → outcome S A.

#[export] Instance M_ret S : MRet (M S) := λ A a s, Done a s.
#[export] Instance M_bind S : MBind (M S) := λ A B f m s,
  match m s with
  | Done a s' => f a s'
  | Fault => Fault
  | OutOfFuel => OutOfFuel
  end.

Definition fault {S A} : M S A := λ _, Fault.
Definition out_of_fuel {S A} : M S A := λ _, OutOfFuel.
Definition get {S} : M S S := λ s, Done s s.
Definition put {S} (s : S) : M S unit := λ _, Done tt s.
Definition gets {S A} (f : S → A) : M S A := λ s, Done (f s) s.
Definition modify {S} (f : S → S) : M S unit := λ s, Done tt (f s).

(** A read that is undefined behaviour when there is nothing to read. *)
Definition deref {S A} (o : option A) : M S A :=
  match o with Some a => mret a | None => fault end.

(** Runs [m] on a component of a larger state. *)
Definition zoom {S T A} (prj : S → T) (upd : T → S → S) (m : M T A) : M S A := λ s,
  match m (prj s) with
  | Done a t => Done a (upd t s)
  | Fault => Fault
  | OutOfFuel => OutOfFuel
  end.

(** ** Total-correctness weakest precondition

    [wp m Q s]: run from [s], [m] neither faults nor runs out of fuel, and
    its result and final state satisfy [Q]. *)

Definition wp {S A} (m : M S A) (Q : A → S → Prop) (s : S) : Prop :=
  match m s with
  | Done a s' => Q a s'
  | Fault => False
  | OutOfFuel => False
  end.

Section wp_rules.
Context {S : Type}.

Lemma wp_ret {A} (a : A) Q (s : S) : Q a s → wp (mret a) Q s.
Proof. done. Qed.

Lemma wp_bind {A B} (m : M S A) (f : A → M S B) Q s :
  wp m (λ a, wp (f a) Q) s → wp (m ≫= f) Q s.
Proof.
  unfold wp. change ((m ≫= f) s) with
    (match m s with Done a s' => f a s' | Fault => Fault | OutOfFuel => OutOfFuel end).
  by destruct (m s).
Qed.

Lemma wp_bind_inv {A B} (m : M S A) (f : A → M S B) Q s :
  wp (m ≫= f) Q s → wp m (λ a, wp (f a) Q) s.
Proof.
  unfold wp. change ((m ≫= f) s) with
    (match m s with Done a s' => f a s' | Fault => Fault | OutOfFuel => OutOfFuel end).
  by destruct (m s).
Qed.

Lemma wp_bind_assoc {A B C} (m : M S A) (f : A → M S B) (g : B → M S C) Q s :
  wp ((m ≫= f) ≫= g) Q s → wp (m ≫= λ x, f x ≫= g) Q s.
Proof.
  unfold wp. intros H. change (match m s with
    | Done a s' => match f a s' with Done b s'' => g b s'' | Fault => Fault | OutOfFuel => OutOfFuel end
    | Fault => Fault | OutOfFuel => OutOfFuel end) with ((m ≫= λ x, f x ≫= g) s).
  change (((m ≫= f) ≫= g) s) with (match (m ≫= f) s with Done b s'' => g b s'' | Fault => Fault | OutOfFuel => OutOfFuel end) in H.
  change ((m ≫= f) s) with (match m s with Done a s' => f a s' | Fault => Fault | OutOfFuel => OutOfFuel end) in H.
  change ((m ≫= λ x, f x ≫= g) s) with (match m s with Done a s' => (f a ≫= g) s' | Fault => Fault | OutOfFuel => OutOfFuel end).
  by destruct (m s).
Qed.

Lemma wp_mono {A} (m : M S A) (Q Q' : A → S → Prop) s :
  wp m Q s → (∀ a s', Q a s' → Q' a s') → wp m Q' s.
Proof. unfold wp. destruct (m s); naive_solver. Qed.

Lemma wp_gets {A} (f : S → A) Q s : Q (f s) s → wp (gets f) Q s.
Proof. done. Qed.

Lemma wp_get Q (s : S) : Q s s → wp get Q s.
Proof. done. Qed.

Lemma wp_put (s' : S) Q s : Q tt s' → wp (put s') Q s.
Proof. done. Qed.

Lemma wp_modify (f : S → S) Q s : Q tt (f s) → wp (modify f) Q s.
Proof. done. Qed.

Lemma wp_deref {A} (o : option A) (a : A) (Q : A → S → Prop) s :
  o = Some a → Q a s → wp (deref o) Q s.
Proof. by intros ->. Qed.

Lemma wp_zoom {T A} (prj : S → T) upd (m : M T A) Q s :
  wp m (λ a t, Q a (upd t s)) (prj s) → wp (zoom prj upd m) Q s.
Proof. unfold wp, zoom. by destruct (m (prj s)). Qed.

Lemma wp_Done {A} (m : M S A) Q s :
  wp m Q s ↔ ∃ a s', m s = Done a s' ∧ Q a s'.
Proof.
  unfold wp. destruct (m s) as [a s'| |]; [|by split; [|intros (?&?&?&?)]..].
  split; [by eauto|]. by intros (?&?&[= <- <-]&?).
Qed.
End wp_rules.

(** One step of symbolic execution. *)
Ltac wp_step :=
  lazymatch goal with
  | |- wp (mret _) _ _ => apply wp_ret
  | |- wp (deref (Some ?a)) _ _ => apply (wp_ret a)
  | |- wp (_ ≫= _) _ _ => apply wp_bind
  | |- wp (gets _) _ _ => apply wp_gets
  | |- wp get _ _ => apply wp_get
  | |- wp (put _) _ _ => apply wp_put
  | |- wp (modify _) _ _ => apply wp_modify
  | |- wp (zoom _ _ _) _ _ => apply wp_zoom
  end; cbn beta.
Ltac wp_steps := repeat wp_step.

(** ** Error codes

    The [PVRSRV_ERROR] values the modelled files return. *)

Inductive PVRSRV_ERROR :=
| PVRSRV_OK
| PVRSRV_ERROR_OUT_OF_MEMORY
| PVRSRV_ERROR_INVALID_PARAMS
| PVRSRV_ERROR_NOT_OWNER
| PVRSRV_ERROR_FAILED_DEPENDENCIES
| PVRSRV_ERROR_CMD_NOT_PROCESSED
| PVRSRV_ERROR_CMD_TOO_BIG
| PVRSRV_ERROR_NOT_SUPPORTED
| PVRSRV_ERROR_CANNOT_FLUSH_QUEUE
| PVRSRV_ERROR_CANNOT_GET_QUEUE_SPACE
| PVRSRV_ERROR_HANDLE_INDEX_OUT_OF_RANGE
| PVRSRV_ERROR_HANDLE_NOT_ALLOCATED
| PVRSRV_ERROR_HANDLE_TYPE_MISMATCH
| PVRSRV_ERROR_HANDLE_NOT_SHAREABLE
| PVRSRV_ERROR_HANDLE_NOT_FOUND
| PVRSRV_ERROR_INVALID_SUBHANDLE
| PVRSRV_ERROR_HANDLE_BATCH_IN_USE
| PVRSRV_ERROR_HANDLE_BATCH_COMMIT_FAILURE
| PVRSRV_ERROR_UNABLE_TO_ADD_HANDLE
| PVRSRV_ERROR_UNABLE_TO_CREATE_HASH_TABLE
| PVRSRV_ERROR_UNABLE_TO_LOCK_RESOURCE
| PVRSRV_ERROR_INVALID_LOCK_ID
| PVRSRV_ERROR_RESOURCE_NOT_LOCKED
| PVRSRV_ERROR_RETRY
| PVRSRV_ERROR_UNKNOWN_INIT_SERVER_STATE
| PVRSRV_ERROR_BAD_MAPPING
| PVRSRV_ERROR_FAILED_TO_ALLOC_PAGES
| PVRSRV_ERROR_INVALID_CPU_ADDR
| PVRSRV_ERROR_INIT_FAILURE
| PVRSRV_ERROR_INSERT_HASH_TABLE_DATA_FAILED
| PVRSRV_ERROR_OTHER (n : Z).

#[export] Instance PVRSRV_ERROR_eq_dec : EqDecision PVRSRV_ERROR.
Proof. solve_decision. Defined.

(** [eError == PVRSRV_OK] *)
Definition is_OK (e : PVRSRV_ERROR) : bool :=
  match e with PVRSRV_OK => true | _ => false end.

Lemma is_OK_true e : is_OK e = true ↔ e = PVRSRV_OK.
Proof. by destruct e. Qed.

(** ** Kernel memory

    [OSAllocMem] (env/linux/osfunc.c) answers [PVRSRV_OK] and a block or
    [PVRSRV_ERROR_OUT_OF_MEMORY]: which one is the kernel allocator's choice,
    read from [os_script] (an exhausted script always succeeds).  [os_live]
    counts the blocks that are allocated and not yet freed. *)

Record os := { os_script : list bool; os_live : Z }.

Definition OSAllocMem : M os bool := λ s,
  match os_script s with
  | [] => Done true {| os_script := []; os_live := os_live s + 1 |}
  | true :: r => Done true {| os_script := r; os_live := os_live s + 1 |}
  | false :: r => Done false {| os_script := r; os_live := os_live s |}
  end.

Definition OSFreeMem : M os unit := λ s,
  Done tt {| os_script := os_script s; os_live := os_live s - 1 |}.

(** An [os] in which no allocation ever fails. *)
Definition os_plenty : os := {| os_script := []; os_live := 0 |}.

(** No allocation will fail any more. *)
Definition plenty (s : os) : Prop := os_script s = [].

Lemma wp_OSAllocMem Q s :
  (∀ b s', os_live s' = os_live s + (if b : bool then 1 else 0) →
     (plenty s → b = true ∧ plenty s') → Q b s') →
  wp OSAllocMem Q s.
Proof.
  intros HQ. unfold wp, OSAllocMem, plenty in *.
  destruct (os_script s) as [|[] r]; apply HQ; simpl; (lia || naive_solver).
Qed.

Lemma wp_OSFreeMem Q s :
  Q tt {| os_script := os_script s; os_live := os_live s - 1 |} →
  wp OSFreeMem Q s.
Proof. done. Qed.

(** ** Lists *)

Lemma concat_insert_perm {A} (ll : list (list A)) i c c' :
  ll !! i = Some c → concat (<[i:=c']> ll) ++ c ≡ₚ c' ++ concat ll.
Proof.
  revert i. induction ll as [|l ll IH]; intros [|i] Hi; simplify_eq/=.
  - rewrite <- (assoc_L app). apply Permutation_app_head, Permutation_app_comm.
  - rewrite <- (assoc_L app), (IH i Hi), !(assoc_L app).
    apply Permutation_app_tail, Permutation_app_comm.
Qed.

Lemma concat_replicate_nil {A} n : concat (replicate n ([] : list A)) = [].
Proof. by induction n. Qed.

Lemma list_elem_of_concat {A} (ll : list (list A)) x :
  x ∈ concat ll ↔ ∃ i l, ll !! i = Some l ∧ x ∈ l.
Proof.
  induction ll as [|l ll IH]; simpl.
  - split; [set_solver|]. by intros (i&l&?&?).
  - rewrite elem_of_app, IH. split.
    + intros [?|(i&l'&?&?)]; [by exists O, l|by exists (S i), l'].
    + intros ([|i]&l'&?&?); simplify_eq/=; eauto.
Qed.

Lemma concat_insert_cons {A} (ll : list (list A)) i c x :
  ll !! i = Some c → concat (<[i:=x :: c]> ll) ≡ₚ x :: concat ll.
Proof.
  intros Hi. pose proof (concat_insert_perm _ _ _ (x :: c) Hi) as Hp. simpl in Hp.
  apply (Permutation_app_inv_r c). rewrite Hp. simpl. by rewrite (comm app).
Qed.

Lemma concat_insert_uncons {A} (ll : list (list A)) i xs x ys :
  ll !! i = Some (xs ++ x :: ys) → concat ll ≡ₚ x :: concat (<[i:=xs ++ ys]> ll).
Proof.
  intros Hi. pose proof (concat_insert_perm _ _ _ (xs ++ ys) Hi) as Hp.
  apply (Permutation_app_inv_l (xs ++ ys)). rewrite <- Hp.
  solve_Permutation.
Qed.

Lemma NoDup_concat_disjoint {A} (ll : list (list A)) i j c d x :
  NoDup (concat ll) → ll !! i = Some c → ll !! j = Some d → x ∈ c → x ∈ d → i = j.
Proof.
  revert i j. induction ll as [|l ll IH]; intros i j Hnd Hi Hj Hc Hd; [done|].
  simpl in Hnd. apply NoDup_app in Hnd as (_&Hdis&Hnd).
  destruct i as [|i], j as [|j]; simplify_eq/=; [done|..].
  - destruct (Hdis x Hc). apply list_elem_of_concat. eauto.
  - destruct (Hdis x Hd). apply list_elem_of_concat. eauto.
  - f_equal. eauto.
Qed.

(** Distinct keys of a map are at most as many as its entries. *)
Lemma NoDup_keys_length `{Countable K} {A} (m : gmap K A) (l : list K) :
  NoDup l → (∀ x, x ∈ l → is_Some (m !! x)) → (length l ≤ size m)%nat.
Proof.
  intros Hnd Hin. rewrite <- (size_list_to_set (C:=gset K)) by done.
  rewrite <- size_dom. apply subseteq_size. intros x. rewrite elem_of_list_to_set, elem_of_dom. auto.
Qed.
