(* ===== verification/Hash.v ===== *)
(** * The chained hash table of the kernel services (srvkm/common/hash.c)

    The table is an array of singly linked chains of buckets.  A chain is
    owned by its array slot and by nothing else, so it is a list; the array is
    a list indexed with bounds checks.  A key is the list of its
    [IMG_UINTPTR_T] words.  The operations run in [M hash_st]: the kernel
    allocator and the table pointer, null or not.  Abstractly a table is the
    bag of the (key, value) pairs of its buckets ([contents]). *)

From S2P Require Import Prelude.

(** ** Data *)

Record BUCKET := mkBUCKET { bkt_v : Z; bkt_k : list Z }.

Definition HASH_FUNC : Type := Z → list Z → Z → Z.
Definition HASH_KEY_COMP : Type := Z → list Z → list Z → bool.

Record HASH_TABLE := mkHASH_TABLE {
  ppBucketTable : list (list BUCKET);
  uSize : Z;
  uCount : Z;
  uMinimumSize : Z;
  uKeySize : Z;
  pfnHashFunc : HASH_FUNC;
  pfnKeyComp : HASH_KEY_COMP
}.

(** [sizeof (IMG_UINTPTR_T)] *)
Definition sizeof_UINTPTR : Z := 8.

Definition set_uCount (c : Z) (h : HASH_TABLE) : HASH_TABLE :=
  mkHASH_TABLE (ppBucketTable h) (uSize h) c (uMinimumSize h) (uKeySize h)
    (pfnHashFunc h) (pfnKeyComp h).
Definition set_buckets (t : list (list BUCKET)) (h : HASH_TABLE) : HASH_TABLE :=
  mkHASH_TABLE t (uSize h) (uCount h) (uMinimumSize h) (uKeySize h)
    (pfnHashFunc h) (pfnKeyComp h).
Definition set_uSize (n : Z) (h : HASH_TABLE) : HASH_TABLE :=
  mkHASH_TABLE (ppBucketTable h) n (uCount h) (uMinimumSize h) (uKeySize h)
    (pfnHashFunc h) (pfnKeyComp h).

Record hash_st := mk_hash_st { hs_os : os; hs_tab : option HASH_TABLE }.

Definition with_os {A} (m : M os A) : M hash_st A :=
  zoom hs_os (λ o st, mk_hash_st o (hs_tab st)) m.
(** A write through the table pointer. *)
Definition upd_tab (f : HASH_TABLE → HASH_TABLE) : M hash_st unit :=
  modify (λ st, mk_hash_st (hs_os st) (f <$> hs_tab st)).

(** ** Hashing and comparison of keys *)

(** The mixing of one key word, every step in 32 bits. *)
Definition hash_part (p : Z) : Z :=
  let x := u32 p in
  let x := u32 (x + u32 (Z.shiftl x 12)) in
  let x := Z.lxor x (Z.shiftr x 22) in
  let x := u32 (x + u32 (Z.shiftl x 4)) in
  let x := Z.lxor x (Z.shiftr x 9) in
  let x := u32 (x + u32 (Z.shiftl x 10)) in
  let x := Z.lxor x (Z.shiftr x 2) in
  let x := u32 (x + u32 (Z.shiftl x 7)) in
  Z.lxor x (Z.shiftr x 12).

Definition key_words (uKeySize : Z) : nat := Z.to_nat (uKeySize / sizeof_UINTPTR).

Definition HASH_Func_Default : HASH_FUNC := λ uKeySize pKey _,
  fold_left (λ uHashKey p, u32 (uHashKey + hash_part p))
    (take (key_words uKeySize) pKey) 0.

Fixpoint key_comp_loop (n : nat) (p1 p2 : list Z) : bool :=
  match n, p1, p2 with
  | S n, x1 :: r1, x2 :: r2 =>
      if negb (x1 =? x2) then false else key_comp_loop n r1 r2
  | _, _, _ => true
  end.

Definition HASH_Key_Comp_Default : HASH_KEY_COMP := λ uKeySize pKey1 pKey2,
  key_comp_loop (key_words uKeySize) pKey1 pKey2.

(** [KEY_TO_INDEX]: undefined for an empty table ([% 0]). *)
Definition KEY_TO_INDEX (pHash : HASH_TABLE) (key : list Z) (sz : Z) : option nat :=
  if sz =? 0 then None
  else Some (Z.to_nat (pfnHashFunc pHash (uKeySize pHash) key sz mod sz)).

Definition KEY_COMPARE (pHash : HASH_TABLE) (k1 k2 : list Z) : bool :=
  pfnKeyComp pHash (uKeySize pHash) k1 k2.

(** ** Insertion into a bucket array, rehashing, resizing *)

(** [_ChainInsert]: the new array is returned, since callers pass either the
    table's array or one that is still private to [_Resize]. *)
Definition _ChainInsert {S} (pHash : HASH_TABLE) (pBucket : BUCKET)
    (tab : list (list BUCKET)) (sz : Z)
    : M S (PVRSRV_ERROR * list (list BUCKET)) :=
  if sz =? 0 then mret (PVRSRV_ERROR_INVALID_PARAMS, tab)
  else
    uIndex ← deref (KEY_TO_INDEX pHash (bkt_k pBucket) sz);
    chain ← deref (tab !! uIndex);
    mret (PVRSRV_OK, <[uIndex := pBucket :: chain]> tab).

Fixpoint rehash_chain {S} (pHash : HASH_TABLE) (chain : list BUCKET)
    (tab : list (list BUCKET)) (sz : Z)
    : M S (PVRSRV_ERROR * list (list BUCKET)) :=
  match chain with
  | [] => mret (PVRSRV_OK, tab)
  | pBucket :: pNextBucket =>
      '(eError, tab') ← _ChainInsert pHash pBucket tab sz;
      if is_OK eError then rehash_chain pHash pNextBucket tab' sz
      else mret (eError, tab')
  end.

Fixpoint rehash_from {S} (n uIndex : nat) (pHash : HASH_TABLE)
    (old : list (list BUCKET)) (tab : list (list BUCKET)) (sz : Z)
    : M S (PVRSRV_ERROR * list (list BUCKET)) :=
  match n with
  | O => mret (PVRSRV_OK, tab)
  | Datatypes.S n =>
      chain ← deref (old !! uIndex);
      '(eError, tab') ← rehash_chain pHash chain tab sz;
      if is_OK eError
      then rehash_from n (Datatypes.S uIndex) pHash old tab' sz
      else mret (eError, tab')
  end.

Definition _Rehash {S} (pHash : HASH_TABLE) (old : list (list BUCKET)) (uOldSize : Z)
    (new : list (list BUCKET)) (uNewSize : Z)
    : M S (PVRSRV_ERROR * list (list BUCKET)) :=
  rehash_from (Z.to_nat uOldSize) 0 pHash old new uNewSize.

(** The new array of a table.  Its size, [n] pointers, is handed to
    [OSAllocMem] as an [IMG_SIZE_T] of 32 bits, so from 2^29 entries on the
    block granted is smaller than the [n] entries the loop then sets to null:
    a write out of bounds. *)
Definition null_buckets {S} (n : Z) : M S (list (list BUCKET)) :=
  let slots := u32 (sizeof_UINTPTR * n) / sizeof_UINTPTR in
  if n <=? slots then mret (replicate (Z.to_nat n) []) else fault.

Definition _Resize (uNewSize : Z) : M hash_st bool :=
  pHash ← (st ← get; deref (hs_tab st));
  if negb (uNewSize =? uSize pHash) then
    ok ← with_os OSAllocMem;
    if negb ok then mret false
    else
      ppNewTable ← null_buckets uNewSize;
      '(eError, ppNewTable) ←
        _Rehash pHash (ppBucketTable pHash) (uSize pHash) ppNewTable uNewSize;
      if negb (is_OK eError) then
        with_os OSFreeMem;; mret false
      else
        with_os OSFreeMem;;
        upd_tab (set_buckets ppNewTable);;
        upd_tab (set_uSize uNewSize);;
        mret true
  else mret true.

(** ** Creation and deletion *)

Definition HASH_Create_Extended (uInitialLen sz : Z) (hf : HASH_FUNC)
    (kc : HASH_KEY_COMP) : M os (option HASH_TABLE) :=
  ok ← OSAllocMem;
  if negb ok then mret None
  else
    ok ← OSAllocMem;
    if negb ok then OSFreeMem;; mret None
    else
      ppBucketTable ← null_buckets uInitialLen;
      mret (Some (mkHASH_TABLE ppBucketTable uInitialLen 0 uInitialLen (u32 sz) hf kc)).

Definition HASH_Create (uInitialLen : Z) : M os (option HASH_TABLE) :=
  HASH_Create_Extended uInitialLen sizeof_UINTPTR HASH_Func_Default HASH_Key_Comp_Default.

(** The buckets of a table deleted while it still holds entries are not
    freed: the code only reports them. *)
Definition HASH_Delete (pHash : option HASH_TABLE) : M os unit :=
  match pHash with
  | None => mret tt
  | Some _ => OSFreeMem;; OSFreeMem
  end.

(** ** The operations *)

Definition HASH_Insert_Extended (pKey : list Z) (v : Z) : M hash_st bool :=
  st ← get;
  match hs_tab st with
  | None => mret false
  | Some pHash =>
      ok ← with_os OSAllocMem;
      if negb ok then mret false
      else
        let pBucket := mkBUCKET v (take (key_words (uKeySize pHash)) pKey) in
        '(eError, tab) ← _ChainInsert pHash pBucket (ppBucketTable pHash) (uSize pHash);
        if negb (is_OK eError) then with_os OSFreeMem;; mret false
        else
          upd_tab (set_buckets tab);;
          let c := u32 (uCount pHash + 1) in
          upd_tab (set_uCount c);;
          (if u32 (Z.shiftl c 1) >? uSize pHash
           then _ ← _Resize (u32 (Z.shiftl (uSize pHash) 1)); mret tt
           else mret tt);;
          mret true
  end.

Definition HASH_Insert (k v : Z) : M hash_st bool := HASH_Insert_Extended [k] v.

(** The walk of [ppBucket] down a chain: the matching bucket's value and the
    chain with that bucket unlinked. *)
Fixpoint chain_remove (pHash : HASH_TABLE) (pKey : list Z) (chain : list BUCKET)
    : option (Z * list BUCKET) :=
  match chain with
  | [] => None
  | b :: r =>
      if KEY_COMPARE pHash (bkt_k b) pKey then Some (bkt_v b, r)
      else
        match chain_remove pHash pKey r with
        | Some (v, r') => Some (v, b :: r')
        | None => None
        end
  end.

Definition HASH_Remove_Extended (pKey : list Z) : M hash_st Z :=
  st ← get;
  match hs_tab st with
  | None => mret 0
  | Some pHash =>
      uIndex ← deref (KEY_TO_INDEX pHash pKey (uSize pHash));
      chain ← deref (ppBucketTable pHash !! uIndex);
      match chain_remove pHash pKey chain with
      | None => mret 0
      | Some (v, chain') =>
          upd_tab (set_buckets (<[uIndex := chain']> (ppBucketTable pHash)));;
          with_os OSFreeMem;;
          let c := u32 (uCount pHash - 1) in
          upd_tab (set_uCount c);;
          (if (uSize pHash >? u32 (Z.shiftl c 2)) && (uSize pHash >? uMinimumSize pHash)
           then _ ← _Resize (Z.max (Z.shiftr (uSize pHash) 1) (uMinimumSize pHash)); mret tt
           else mret tt);;
          mret v
      end
  end.

Definition HASH_Remove (k : Z) : M hash_st Z := HASH_Remove_Extended [k].

Fixpoint chain_find (pHash : HASH_TABLE) (pKey : list Z) (chain : list BUCKET) : option Z :=
  match chain with
  | [] => None
  | b :: r => if KEY_COMPARE pHash (bkt_k b) pKey then Some (bkt_v b)
              else chain_find pHash pKey r
  end.

Definition HASH_Retrieve_Extended {S} (tab : option HASH_TABLE) (pKey : list Z) : M S Z :=
  match tab with
  | None => mret 0
  | Some pHash =>
      uIndex ← deref (KEY_TO_INDEX pHash pKey (uSize pHash));
      chain ← deref (ppBucketTable pHash !! uIndex);
      mret (default 0 (chain_find pHash pKey chain))
  end.

Definition HASH_Retrieve {S} (tab : option HASH_TABLE) (k : Z) : M S Z :=
  HASH_Retrieve_Extended tab [k].

(** [HASH_Iterate]: the callback runs in the caller's state and stops the
    walk with the first error. *)
Fixpoint iterate_chain {S} (cb : Z → Z → M S PVRSRV_ERROR) (chain : list BUCKET)
    : M S PVRSRV_ERROR :=
  match chain with
  | [] => mret PVRSRV_OK
  | b :: pNextBucket =>
      k0 ← deref (head (bkt_k b));
      eError ← cb k0 (bkt_v b);
      if is_OK eError then iterate_chain cb pNextBucket else mret eError
  end.

Fixpoint iterate_from {S} (n uIndex : nat) (tab : list (list BUCKET))
    (cb : Z → Z → M S PVRSRV_ERROR) : M S PVRSRV_ERROR :=
  match n with
  | O => mret PVRSRV_OK
  | Datatypes.S n =>
      chain ← deref (tab !! uIndex);
      eError ← iterate_chain cb chain;
      if is_OK eError then iterate_from n (Datatypes.S uIndex) tab cb
      else mret eError
  end.

Definition HASH_Iterate {S} (tab : option HASH_TABLE) (cb : Z → Z → M S PVRSRV_ERROR)
    : M S PVRSRV_ERROR :=
  pHash ← deref tab;
  iterate_from (Z.to_nat (uSize pHash)) 0 (ppBucketTable pHash) cb.

(** ** Invariant and abstraction *)

Definition bkt_pair (b : BUCKET) : list Z * Z := (bkt_k b, bkt_v b).

(** The (key, value) pairs held, in array and chain order. *)
Definition contents (h : HASH_TABLE) : list (list Z * Z) :=
  bkt_pair <$> concat (ppBucketTable h).

Definition key_ok (h : HASH_TABLE) (k : list Z) : Prop := length k = key_words (uKeySize h).

Definition bucket_at (h : HASH_TABLE) (sz : Z) (i : nat) (b : BUCKET) : Prop :=
  key_ok h (bkt_k b) ∧ KEY_TO_INDEX h (bkt_k b) sz = Some i.

Record tab_ok (h : HASH_TABLE) (sz : Z) (tab : list (list BUCKET)) : Prop := {
  tab_len : length tab = Z.to_nat sz;
  tab_at : ∀ i chain, tab !! i = Some chain → Forall (bucket_at h sz i) chain
}.

(** The comparison function decides equality of keys. *)
Definition comp_ok (h : HASH_TABLE) : Prop :=
  ∀ k1 k2, key_ok h k1 → key_ok h k2 →
    pfnKeyComp h (uKeySize h) k1 k2 = bool_decide (k1 = k2).

Record hash_wf (h : HASH_TABLE) : Prop := {
  wf_size : 0 < uSize h < 536870912;
  wf_min : 0 < uMinimumSize h ≤ uSize h;
  wf_tab : tab_ok h (uSize h) (ppBucketTable h);
  wf_count : uCount h = Z.of_nat (length (contents h));
  wf_bound : uCount h ≤ 134217728;
  wf_comp : comp_ok h
}.

(** The static parameters of a table, which no operation changes. *)
Definition same_params (h h' : HASH_TABLE) : Prop :=
  uKeySize h' = uKeySize h ∧ pfnHashFunc h' = pfnHashFunc h ∧
  pfnKeyComp h' = pfnKeyComp h ∧ uMinimumSize h' = uMinimumSize h.

(** ** Lemmas *)

Lemma key_comp_loop_spec n k1 k2 :
  length k1 = n → length k2 = n → key_comp_loop n k1 k2 = bool_decide (k1 = k2).
Proof.
  revert k1 k2. induction n as [|n IH]; intros [|x1 k1] [|x2 k2] ??; simplify_eq/=; [done|].
  destruct (Z.eqb_spec x1 x2) as [->|]; simpl.
  - rewrite IH by done. apply bool_decide_ext. naive_solver.
  - symmetry. apply bool_decide_eq_false. naive_solver.
Qed.

Lemma comp_ok_default h : pfnKeyComp h = HASH_Key_Comp_Default → comp_ok h.
Proof. intros Hc k1 k2 ??. rewrite Hc. by apply key_comp_loop_spec. Qed.

Lemma KEY_TO_INDEX_lt h k sz i :
  0 < sz → KEY_TO_INDEX h k sz = Some i → (i < Z.to_nat sz)%nat.
Proof.
  unfold KEY_TO_INDEX. intros ?. destruct (Z.eqb_spec sz 0); [done|].
  intros [= <-]. pose proof (Z.mod_pos_bound (pfnHashFunc h (uKeySize h) k sz) sz). lia.
Qed.

Lemma KEY_TO_INDEX_total h k sz : 0 < sz → ∃ i, KEY_TO_INDEX h k sz = Some i.
Proof. unfold KEY_TO_INDEX. intros ?. destruct (Z.eqb_spec sz 0); [lia|eauto]. Qed.

(** Every key has its slot in a well-formed array. *)
Lemma tab_slot h sz tab k :
  0 < sz → tab_ok h sz tab →
  ∃ i chain, KEY_TO_INDEX h k sz = Some i ∧ tab !! i = Some chain ∧
    Forall (bucket_at h sz i) chain.
Proof.
  intros Hsz [Hlen Hat]. destruct (KEY_TO_INDEX_total h k sz Hsz) as [i Hi].
  pose proof (KEY_TO_INDEX_lt _ _ _ _ Hsz Hi).
  destruct (lookup_lt_is_Some_2 tab i) as [chain Hc]; [lia|]. eauto 6.
Qed.

Lemma tab_ok_insert h sz tab i chain :
  tab_ok h sz tab → Forall (bucket_at h sz i) chain → tab_ok h sz (<[i:=chain]> tab).
Proof.
  intros [Hlen Hat] Hc. split; [by rewrite length_insert|].
  intros j c Hj. destruct (decide (i = j)) as [<-|].
  - apply list_lookup_insert_Some in Hj as [(_&->&_)|(?&_)]; [done|done].
  - rewrite list_lookup_insert_ne in Hj by done. by apply Hat.
Qed.

Lemma tab_ok_empty h sz : tab_ok h sz (replicate (Z.to_nat sz) []).
Proof.
  split; [apply length_replicate|].
  intros i c [-> _]%lookup_replicate. constructor.
Qed.

(** Validity of an array depends on the table's static parameters only. *)
Lemma tab_ok_params h h' sz tab :
  same_params h h' → tab_ok h sz tab → tab_ok h' sz tab.
Proof.
  intros (Hk&Hf&_&_) [Hlen Hat]. split; [done|].
  intros i c Hc. eapply Forall_impl; [by eapply Hat|].
  intros b. unfold bucket_at, key_ok, KEY_TO_INDEX. by rewrite Hk, Hf.
Qed.

Lemma comp_ok_params h h' : same_params h h' → comp_ok h → comp_ok h'.
Proof. intros (Hk&_&Hc&_) H k1 k2. unfold key_ok. rewrite Hk, Hc. apply H. Qed.

Section array.
Context {St : Type} (h : HASH_TABLE) (sz : Z) (Hsz : 0 < sz).

(** What inserting the buckets [bs] into the array [tab] achieves. *)
Definition inserted (s : St) (tab : list (list BUCKET)) (bs : list BUCKET)
    (r : PVRSRV_ERROR * list (list BUCKET)) (s' : St) : Prop :=
  s' = s ∧ r.1 = PVRSRV_OK ∧ tab_ok h sz r.2 ∧ concat r.2 ≡ₚ bs ++ concat tab.

Lemma wp_ChainInsert b tab (s : St) :
  tab_ok h sz tab → key_ok h (bkt_k b) →
  wp (_ChainInsert h b tab sz) (inserted s tab [b]) s.
Proof using Hsz.
  intros Htab Hk. destruct (tab_slot h sz tab (bkt_k b) Hsz Htab) as (i&c&Hi&Hc&Hf).
  unfold _ChainInsert. destruct (Z.eqb_spec sz 0); [lia|]. rewrite Hi. simpl.
  wp_step. apply wp_ret. wp_step. rewrite Hc. apply wp_ret, wp_ret.
  split_and!; [done..| |]; simpl.
  - apply tab_ok_insert; [done|]. by constructor; [split|].
  - apply (Permutation_app_inv_r c). rewrite (concat_insert_perm _ _ _ _ Hc). simpl.
    constructor. apply Permutation_app_comm.
Qed.

Lemma wp_rehash_chain chain tab (s : St) :
  tab_ok h sz tab → Forall (λ b, key_ok h (bkt_k b)) chain →
  wp (rehash_chain h chain tab sz) (inserted s tab chain) s.
Proof using Hsz.
  intros Htab Hch. revert tab Htab. induction Hch as [|b chain Hb _ IH]; intros tab Htab.
  - by apply wp_ret.
  - simpl. wp_step. eapply wp_mono; [by apply wp_ChainInsert|].
    intros [e tab1] s1 (->&He&Htab1&Hp1); simpl in *. subst e.
    eapply wp_mono; [by apply IH|].
    intros [e2 tab2] s2 (->&?&?&Hp2); simpl in *. split_and!; [done..|]. simpl.
    by rewrite Hp2, Hp1, <- Permutation_middle.
Qed.

Lemma wp_rehash_from n j old tab (s : St) :
  tab_ok h sz tab → (n + j = length old)%nat →
  (∀ i c, old !! i = Some c → Forall (λ b, key_ok h (bkt_k b)) c) →
  wp (rehash_from n j h old tab sz) (inserted s tab (concat (drop j old))) s.
Proof using Hsz.
  intros Htab Hn Hold. revert j tab Htab Hn. induction n as [|n IH]; intros j tab Htab Hn.
  - rewrite drop_ge by lia. by apply wp_ret.
  - simpl. destruct (lookup_lt_is_Some_2 old j) as [c Hc]; [lia|].
    rewrite Hc. wp_step. apply wp_ret. wp_step.
    eapply wp_mono; [apply wp_rehash_chain; eauto|].
    intros [e tab1] s1 (->&He&Htab1&Hp1); simpl in *. subst e.
    eapply wp_mono; [apply IH; [done|lia]|].
    intros [e2 tab2] s2 (->&?&?&Hp2); simpl in *. split_and!; [done..|]. simpl.
    rewrite (drop_S _ _ _ Hc). simpl. rewrite Hp2, Hp1, !(assoc_L app).
    apply Permutation_app_tail, Permutation_app_comm.
Qed.
End array.

(** [st'] is [st] after an operation that changed the number of live kernel
    blocks by [d] and, when memory was plentiful, left it so. *)
Definition os_step (d : Z) (o o' : os) : Prop :=
  os_live o' = os_live o + d ∧ (plenty o → plenty o').

Lemma same_params_refl h : same_params h h.
Proof. by split_and!. Qed.

Lemma os_step_refl o : os_step 0 o o.
Proof. split; [lia|done]. Qed.

Lemma os_step_trans d d' o o' o'' :
  os_step d o o' → os_step d' o' o'' → os_step (d + d') o o''.
Proof. intros [? ?] [? ?]. split; [lia|auto]. Qed.

Lemma os_step_alloc (b : bool) o o' :
  os_live o' = os_live o + (if b then 1 else 0) → (plenty o → b = true ∧ plenty o') →
  os_step (if b then 1 else 0) o o'.
Proof. intros ? H. split; [done|]. intros ?. by apply H. Qed.

Lemma os_step_free d o o' :
  os_step d o o' →
  os_step (d - 1) o {| os_script := os_script o'; os_live := os_live o' - 1 |}.
Proof. intros [? ?]. split; simpl; [lia|auto]. Qed.

Lemma os_step_eq d d' o o' : os_step d o o' → d = d' → os_step d' o o'.
Proof. by intros ? <-. Qed.

Create HintDb hash.
#[export] Hint Resolve same_params_refl os_step_refl os_step_alloc wf_size wf_min
  wf_tab wf_count wf_comp : hash.

(** Below 2^29 entries the size of the array fits its 32 bits. *)
Lemma wp_null_buckets {St} n Q (s : St) :
  0 < n < 536870912 → Q (replicate (Z.to_nat n) []) s → wp (null_buckets n) Q s.
Proof.
  intros Hn HQ. unfold null_buckets, sizeof_UINTPTR. rewrite u32_small by (unfold is_u32; lia).
  rewrite Z.mul_comm, Z.div_mul by lia. rewrite (proj2 (Z.leb_le n n)) by lia. by apply wp_ret.
Qed.

(** From 2^29 entries on it does not: the loop writes past the block. *)
Lemma null_buckets_wraps {St} n (s : St) :
  536870912 ≤ n → is_u32 n → null_buckets n s = Fault.
Proof.
  unfold is_u32. intros Hn Hu. unfold null_buckets, sizeof_UINTPTR.
  destruct (Z.leb_spec n (u32 (8 * n) / 8)) as [H|H]; [|done].
  pose proof (u32_range (8 * n)) as Hr. unfold is_u32 in Hr.
  pose proof (Z.div_lt_upper_bound (u32 (8 * n)) 8 536870912). lia.
Qed.

(** [_Resize] keeps the contents whatever the allocator does, and reaches the
    requested size when the allocator grants the new array. *)
Lemma wp_Resize n h o :
  hash_wf h → 0 < n < 536870912 → uMinimumSize h ≤ n →
  wp (_Resize n) (λ r st', ∃ h' o', st' = mk_hash_st o' (Some h') ∧
      hash_wf h' ∧ same_params h h' ∧ uCount h' = uCount h ∧
      contents h' ≡ₚ contents h ∧ os_step 0 o o' ∧
      uSize h' = (if r : bool then n else uSize h) ∧ (plenty o → r = true))
    (mk_hash_st o (Some h)).
Proof.
  intros Hwf Hn Hmin. unfold _Resize. wp_steps. apply wp_ret.
  destruct (Z.eqb_spec n (uSize h)) as [->|Hne]; simpl.
  { apply wp_ret. eexists _, _. split_and!; eauto with hash. }
  unfold with_os. wp_steps. apply wp_OSAllocMem. intros r o1 Ho1 Hp1.
  pose proof (os_step_alloc _ _ _ Ho1 Hp1) as Hos. destruct r; simpl.
  2:{ apply wp_ret. eexists _, _. split_and!; eauto with hash. tauto. }
  wp_step. apply wp_null_buckets; [done|]. wp_step. eapply wp_mono.
  { apply (wp_rehash_from h n ltac:(lia) _ 0 (ppBucketTable h)).
    - apply tab_ok_empty.
    - rewrite (tab_len _ _ _ (wf_tab _ Hwf)). lia.
    - intros i c Hc. eapply Forall_impl; [by eapply (tab_at _ _ _ (wf_tab _ Hwf))|].
      by intros b [? _]. }
  intros [e tab] s1 (->&He&Htab&Hperm); simpl in *. subst e. simpl.
  rewrite concat_replicate_nil, app_nil_r in Hperm.
  wp_steps. apply wp_OSFreeMem. wp_steps.
  assert (contents (set_uSize n (set_buckets tab h)) ≡ₚ contents h) as Hc
    by (unfold contents; simpl; by rewrite Hperm).
  eexists _, _. split; [done|]. simpl. split_and!; try done.
  - split; simpl; [lia|pose proof (wf_min _ Hwf); lia| | |apply Hwf|apply Hwf].
    + by eapply tab_ok_params; [|done].
    + unfold contents in *. simpl in *. rewrite Hc. apply Hwf.
  - by apply (os_step_free 1).
Qed.

Lemma wp_HASH_Create_Extended n sz hf kc o :
  0 < n < 536870912 →
  (∀ h, uKeySize h = u32 sz → pfnKeyComp h = kc → comp_ok h) →
  wp (HASH_Create_Extended n sz hf kc) (λ r o',
      os_step (match r with Some _ => 2 | None => 0 end) o o' ∧ (plenty o → is_Some r) ∧
      ∀ h, r = Some h → hash_wf h ∧ contents h = [] ∧ uKeySize h = u32 sz) o.
Proof.
  intros Hn Hkc. unfold HASH_Create_Extended.
  wp_steps. apply wp_OSAllocMem. intros r1 o1 Ho1 Hp1.
  pose proof (os_step_alloc _ _ _ Ho1 Hp1) as H1. destruct r1; simpl.
  2:{ apply wp_ret. split_and!; [done|intros [? _]%Hp1; done|done]. }
  wp_steps. apply wp_OSAllocMem. intros r2 o2 Ho2 Hp2.
  pose proof (os_step_trans _ _ _ _ _ H1 (os_step_alloc _ _ _ Ho2 Hp2)) as H2.
  destruct r2; simpl.
  - wp_step. apply wp_null_buckets; [done|]. apply wp_ret. split_and!; [done|eauto|]. intros h [= <-]. split_and!; [|unfold contents; simpl; by rewrite concat_replicate_nil|done].
    split; simpl; [done|lia|apply tab_ok_empty| |lia|by apply Hkc].
    unfold contents. simpl. by rewrite concat_replicate_nil.
  - wp_steps. apply wp_OSFreeMem, wp_ret.
    split_and!; [by apply (os_step_free 1)| |done].
    intros [_ [? _]%Hp2]%Hp1. done.
Qed.

(** At most one bucket for two slots. *)
Definition load_ok (h : HASH_TABLE) : Prop := 2 * uCount h ≤ uSize h.

Lemma uCount_nonneg h : hash_wf h → 0 ≤ uCount h.
Proof. intros ->%wf_count. lia. Qed.

Lemma wp_HASH_Insert_Extended h o key v :
  hash_wf h → key_ok h key → uCount h < 134217728 →
  wp (HASH_Insert_Extended key v) (λ r st', ∃ h' o', st' = mk_hash_st o' (Some h') ∧
      hash_wf h' ∧ same_params h h' ∧ os_step (if r : bool then 1 else 0) o o' ∧
      (plenty o → r = true ∧ (load_ok h → load_ok h')) ∧
      contents h' ≡ₚ (if r then [(key, v)] else []) ++ contents h)
    (mk_hash_st o (Some h)).
Proof.
  intros Hwf Hkey Hcnt. pose proof (uCount_nonneg _ Hwf). pose proof (wf_size _ Hwf).
  unfold HASH_Insert_Extended. wp_steps. simpl. unfold with_os. wp_steps.
  apply wp_OSAllocMem. intros r o1 Ho1 Hp1.
  pose proof (os_step_alloc _ _ _ Ho1 Hp1) as Hos. destruct r; simpl.
  2:{ apply wp_ret. eexists _, _. split_and!; eauto with hash. tauto. }
  rewrite take_ge by (unfold key_ok in Hkey; lia).
  wp_step. eapply wp_mono; [apply wp_ChainInsert; [lia|apply Hwf|done]|].
  intros [e tab] s1 (->&He&Htab&Hperm); simpl in *. subst e. simpl.
  unfold upd_tab. wp_steps. simpl.
  rewrite (u32_small (uCount h + 1)) by (unfold is_u32; lia).
  rewrite (Z.shiftl_mul_pow2 _ 1), u32_small by (unfold is_u32; lia).
  set (h1 := set_uCount _ _).
  assert (contents h1 ≡ₚ (key, v) :: contents h) as Hc1
    by (unfold contents, h1; simpl; by rewrite Hperm).
  assert (hash_wf h1) as Hwf1.
  { split; simpl; [lia|apply Hwf| | |lia|].
    - by eapply tab_ok_params; [|done].
    - rewrite Hc1. simpl. rewrite (wf_count _ Hwf). lia.
    - by eapply comp_ok_params; [|apply Hwf]. }
  destruct (Z.gtb_spec ((uCount h + 1) * 2 ^ 1) (uSize h)) as [Hgt|Hle].
  - rewrite (Z.shiftl_mul_pow2 _ 1), u32_small by (unfold is_u32; lia).
    wp_steps. eapply wp_mono; [apply wp_Resize; [done|lia|]|].
    { pose proof (wf_min _ Hwf1) as Hm. unfold h1 in *. simpl in *. lia. }
    intros r2 st2 (h2&o2&->&Hwf2&Hsp2&Hn2&Hc2&Hos2&Hu2&Hr2). wp_steps.
    eexists _, _. split_and!; [done..| | |].
    + eapply os_step_eq; [by eapply os_step_trans|lia].
    + intros Hpl. split; [done|]. rewrite (Hr2 (proj2 (Hp1 Hpl))) in Hu2.
      unfold load_ok. rewrite Hu2, Hn2. unfold h1. simpl. lia.
    + by rewrite Hc2, Hc1.
  - wp_steps. eexists _, _. split_and!; [done..| |].
    + intros _. split; [done|]. unfold load_ok, h1. simpl. lia.
    + by rewrite Hc1.
Qed.

(** A chain walk, from the chain's buckets. *)
Lemma chain_find_spec h key chain :
  comp_ok h → key_ok h key → Forall (λ b, key_ok h (bkt_k b)) chain →
  match chain_find h key chain with
  | Some v => (key, v) ∈ bkt_pair <$> chain
  | None => key ∉ bkt_k <$> chain
  end.
Proof.
  intros Hc Hk. induction 1 as [|b chain Hb Hch IH]; simpl; [set_solver|].
  unfold KEY_COMPARE. rewrite Hc by done. case_bool_decide as Heq.
  - subst key. set_solver.
  - destruct (chain_find h key chain); set_solver.
Qed.

Lemma chain_remove_spec h key chain :
  comp_ok h → key_ok h key → Forall (λ b, key_ok h (bkt_k b)) chain →
  match chain_remove h key chain with
  | Some (v, chain') => ∃ b, bkt_pair b = (key, v) ∧ chain ≡ₚ b :: chain'
  | None => key ∉ bkt_k <$> chain
  end.
Proof.
  intros Hc Hk. induction 1 as [|b chain Hb Hch IH]; simpl; [set_solver|].
  unfold KEY_COMPARE. rewrite Hc by done. case_bool_decide as Heq.
  - subst key. by exists b.
  - destruct (chain_remove h key chain) as [[v chain']|]; [|set_solver].
    destruct IH as (b'&?&Hp). exists b'. split; [done|]. rewrite Hp. constructor.
Qed.

Lemma bucket_at_key h sz i chain :
  Forall (bucket_at h sz i) chain → Forall (λ b, key_ok h (bkt_k b)) chain.
Proof. intros. eapply Forall_impl; [done|]. by intros b [? _]. Qed.

(** A key that is not in its own slot's chain is nowhere in the table. *)
Lemma not_in_slot h key i chain :
  hash_wf h → KEY_TO_INDEX h key (uSize h) = Some i →
  ppBucketTable h !! i = Some chain →
  key ∉ bkt_k <$> chain → key ∉ (contents h).*1.
Proof.
  intros Hwf Hi Hc Hn Hin. unfold contents in Hin.
  apply list_elem_of_fmap in Hin as ([k' v']&->&(b&[= -> ->]&Hb)%list_elem_of_fmap).
  apply list_elem_of_concat in Hb as (j&c&Hj&Hb). simpl in *.
  pose proof (proj1 (Forall_forall _ _) (tab_at _ _ _ (wf_tab _ Hwf) _ _ Hj) _ Hb) as [_ Hj'].
  assert (i = j) as -> by congruence. simplify_eq. apply Hn, list_elem_of_fmap. eauto.
Qed.

Lemma wp_HASH_Retrieve_Extended {St} h key (s : St) :
  hash_wf h → key_ok h key →
  wp (HASH_Retrieve_Extended (Some h) key) (λ r s', s' = s ∧
    ((key, r) ∈ contents h ∨ key ∉ (contents h).*1 ∧ r = 0)) s.
Proof.
  intros Hwf Hk. unfold HASH_Retrieve_Extended.
  destruct (tab_slot h _ _ key (proj1 (wf_size _ Hwf)) (wf_tab _ Hwf)) as (i&c&Hi&Hc&Hf).
  rewrite Hi. wp_step. apply wp_ret. wp_step. rewrite Hc. apply wp_ret, wp_ret.
  split; [done|].
  pose proof (chain_find_spec h key c (wf_comp _ Hwf) Hk (bucket_at_key _ _ _ _ Hf)) as Hs.
  destruct (chain_find h key c) as [v|]; simpl.
  - left. apply list_elem_of_fmap in Hs as (b&->&Hb). unfold contents.
    apply list_elem_of_fmap. exists b. split; [done|]. apply list_elem_of_concat. eauto.
  - right. split; [|done]. by eapply not_in_slot.
Qed.

Lemma wp_HASH_Remove_Extended h o key :
  hash_wf h → key_ok h key →
  wp (HASH_Remove_Extended key) (λ r st', ∃ h' o', st' = mk_hash_st o' (Some h') ∧
      hash_wf h' ∧ same_params h h' ∧
      (plenty o → load_ok h → load_ok h') ∧
      (contents h ≡ₚ (key, r) :: contents h' ∧ os_step (-1) o o' ∨
       key ∉ (contents h).*1 ∧ r = 0 ∧ h' = h ∧ o' = o))
    (mk_hash_st o (Some h)).
Proof.
  intros Hwf Hk. pose proof (wf_size _ Hwf) as Hsz. pose proof (wf_bound _ Hwf) as Hbd.
  unfold HASH_Remove_Extended. wp_steps. simpl.
  destruct (tab_slot h _ _ key (proj1 Hsz) (wf_tab _ Hwf)) as (i&c&Hi&Hc&Hf).
  rewrite Hi. wp_steps. rewrite Hc. wp_steps.
  pose proof (chain_remove_spec h key c (wf_comp _ Hwf) Hk (bucket_at_key _ _ _ _ Hf)) as Hs.
  destruct (chain_remove h key c) as [[v c']|].
  2:{ wp_steps. eexists _, _. split_and!; [done..|]. right. split_and!; [|done..].
      by eapply not_in_slot. }
  destruct Hs as (b&Hb&Hperm). unfold upd_tab, with_os. wp_steps. simpl.
  apply wp_OSFreeMem. wp_steps. simpl. set (h1 := set_uCount _ _).
  assert (contents h ≡ₚ (key, v) :: contents h1) as Hc1.
  { unfold contents, h1. simpl. rewrite <- Hb, <- (fmap_cons bkt_pair b).
    apply Permutation_map, (Permutation_app_inv_l c').
    rewrite <- (concat_insert_perm _ _ _ c' Hc), Hperm, <- !Permutation_middle.
    constructor. apply Permutation_app_comm. }
  assert (uCount h = Z.of_nat (length (contents h1)) + 1) as Hlen
    by (rewrite (wf_count _ Hwf), Hc1; simpl; lia).
  assert (uCount h1 = uCount h - 1) as Hcnt
    by (unfold h1; simpl; apply u32_small; unfold is_u32; lia).
  assert (hash_wf h1) as Hwf1.
  { split; [exact Hsz|exact (wf_min _ Hwf)| |lia|lia|].
    - simpl. eapply tab_ok_params; [|apply tab_ok_insert; [apply Hwf|]]; [done|].
      rewrite Hperm in Hf. by apply Forall_cons in Hf as [_ ?].
    - by eapply comp_ok_params; [|apply Hwf]. }
  assert (os_step (-1) o {| os_script := os_script o; os_live := os_live o - 1 |}) as Hos
    by (split; simpl; [lia|done]).
  replace (u32 (uCount h - 1)) with (uCount h1) by done.
  destruct (_ && _) eqn:Hcond.
  - apply andb_true_iff in Hcond as [Hld%Z.gtb_lt Hgt%Z.gtb_lt].
    rewrite Hcnt, Z.shiftl_mul_pow2, u32_small in Hld by (unfold is_u32; lia).
    wp_step. eapply wp_mono; [apply wp_Resize; [done| |]|].
    + pose proof (wf_min _ Hwf). rewrite Z.shiftr_div_pow2 by lia.
      pose proof (Z.div_le_upper_bound (uSize h) (2 ^ 1) 536870911). lia.
    + change (uMinimumSize h1) with (uMinimumSize h). lia.
    + intros r2 st2 (h2&o2&->&Hwf2&Hsp2&Hn2&Hc2&Hos2&Hu2&Hr2). wp_steps.
      eexists _, _. split_and!; [done..| |].
      * intros Hpl _. rewrite (Hr2 Hpl) in Hu2. unfold load_ok. rewrite Hu2, Hn2, Hcnt.
        rewrite Z.shiftr_div_pow2 by lia.
        pose proof (Z.div_le_lower_bound (uSize h) (2 ^ 1) (2 * (uCount h - 1))). lia.
      * left. split; [by rewrite Hc2|].
        eapply os_step_eq; [by eapply os_step_trans|lia].
  - wp_steps. eexists _, _. split_and!; [done..| |by left].
    intros _. unfold load_ok. rewrite Hcnt. simpl. lia.
Qed.

(** ** Tables with distinct keys are finite maps *)

Definition hash_rep (h : HASH_TABLE) (m : gmap (list Z) Z) : Prop :=
  hash_wf h ∧ contents h ≡ₚ map_to_list m.

Lemma hash_rep_count h m : hash_rep h m → uCount h = Z.of_nat (size m).
Proof. intros [Hwf Hc]. rewrite (wf_count _ Hwf), Hc. by rewrite length_map_to_list. Qed.

Lemma hash_rep_elem h m k v : hash_rep h m → (k, v) ∈ contents h ↔ m !! k = Some v.
Proof. intros [_ ->]. apply elem_of_map_to_list. Qed.

Lemma hash_rep_notin h m k : hash_rep h m → k ∉ (contents h).*1 → m !! k = None.
Proof.
  intros Hrep Hk. apply eq_None_not_Some. intros [v Hv]. apply Hk, list_elem_of_fmap.
  exists (k, v). split; [done|]. by apply (hash_rep_elem h m).
Qed.

Lemma hash_rep_empty h : hash_wf h → contents h = [] → hash_rep h ∅.
Proof. intros ? Hc. split; [done|]. by rewrite Hc, map_to_list_empty. Qed.

Lemma hash_rep_wf h m : hash_rep h m → hash_wf h.
Proof. by intros []. Qed.
#[export] Hint Resolve hash_rep_wf hash_rep_empty : hash.

Lemma wp_insert_map h m o key v :
  hash_rep h m → key_ok h key → m !! key = None → Z.of_nat (size m) < 134217728 →
  wp (HASH_Insert_Extended key v) (λ r st', ∃ h' o', st' = mk_hash_st o' (Some h') ∧
      hash_rep h' (if r then <[key := v]> m else m) ∧ same_params h h' ∧
      os_step (if r : bool then 1 else 0) o o' ∧ (plenty o → r = true))
    (mk_hash_st o (Some h)).
Proof.
  intros Hrep Hk Hm Hsz. pose proof (hash_rep_count _ _ Hrep).
  eapply wp_mono; [apply wp_HASH_Insert_Extended; [by eauto with hash|done|lia]|].
  intros r st' (h'&o'&->&Hwf&Hsp&Hos&Hpl&Hc). eexists _, _. split; [done|].
  split; [|split; [done|split; [done|tauto]]].
  split; [done|]. rewrite Hc, (proj2 Hrep). destruct r; [|done].
  by rewrite map_to_list_insert.
Qed.

Lemma wp_remove_map h m o key :
  hash_rep h m → key_ok h key →
  wp (HASH_Remove_Extended key) (λ r st', ∃ h' o', st' = mk_hash_st o' (Some h') ∧
      r = default 0 (m !! key) ∧ hash_rep h' (delete key m) ∧ same_params h h' ∧
      os_step (match m !! key with Some _ => -1 | None => 0 end) o o')
    (mk_hash_st o (Some h)).
Proof.
  intros Hrep Hk.
  eapply wp_mono; [apply wp_HASH_Remove_Extended; [by eauto with hash|done]|].
  intros r st' (h'&o'&->&Hwf&Hsp&_&[[Hc Hos]|(Hn&->&->&->)]); eexists _, _; (split; [done|]).
  - assert (m !! key = Some r) as Hm
      by (apply (hash_rep_elem h m); [done|]; rewrite Hc; by left).
    rewrite Hm. split_and!; [done| |done|done]. split; [done|].
    apply (Permutation_cons_inv (a := (key, r))). rewrite <- Hc, (proj2 Hrep).
    by rewrite map_to_list_delete.
  - pose proof (hash_rep_notin _ _ _ Hrep Hn) as Hm. rewrite Hm, delete_id by done.
    split_and!; [done..|apply os_step_refl].
Qed.

Lemma wp_retrieve_map {St} h m key (s : St) :
  hash_rep h m → key_ok h key →
  wp (HASH_Retrieve_Extended (Some h) key) (λ r s', s' = s ∧ r = default 0 (m !! key)) s.
Proof.
  intros Hrep Hk.
  eapply wp_mono; [apply wp_HASH_Retrieve_Extended; [by eauto with hash|done]|].
  intros r s' [-> [Hin|[Hn ->]]]; (split; [done|]).
  - by rewrite (proj1 (hash_rep_elem h m key r Hrep) Hin).
  - by rewrite (hash_rep_notin h m).
Qed.

(** The walk over the array is the walk over its concatenation. *)
Lemma iterate_chain_app {St} (cb : Z → Z → M St PVRSRV_ERROR) c1 c2 s :
  iterate_chain cb (c1 ++ c2) s =
  (e ← iterate_chain cb c1; if is_OK e then iterate_chain cb c2 else mret e) s.
Proof.
  revert s. induction c1 as [|b c1 IH]; intros s; [done|]. simpl.
  unfold mbind, M_bind, deref. destruct (head (bkt_k b)); [|done]. simpl.
  unfold mret, M_ret. by destruct (cb z (bkt_v b) s) as [[] s'| |]; simpl; rewrite ?IH.
Qed.

Lemma iterate_from_concat {St} (cb : Z → Z → M St PVRSRV_ERROR) n j tab s :
  (n + j = length tab)%nat →
  iterate_from n j tab cb s = iterate_chain cb (concat (drop j tab)) s.
Proof.
  revert j s. induction n as [|n IH]; intros j s Hn; simpl.
  - by rewrite drop_ge by lia.
  - destruct (lookup_lt_is_Some_2 tab j) as [c Hc]; [lia|].
    rewrite Hc, (drop_S _ _ _ Hc). simpl. rewrite iterate_chain_app.
    unfold mbind, M_bind, mret, M_ret. destruct (iterate_chain cb c s) as [[] s'| |]; try done.
    simpl. apply IH. lia.
Qed.

(** ** The table as a dictionary: sequences of operations *)

Inductive hash_op :=
| OpInsert (k v : Z)
| OpRemove (k : Z)
| OpRetrieve (k : Z).

Definition run_op (op : hash_op) : M hash_st Z :=
  match op with
  | OpInsert k v => b ← HASH_Insert k v; mret (Z.b2z b)
  | OpRemove k => HASH_Remove k
  | OpRetrieve k => st ← get; HASH_Retrieve (hs_tab st) k
  end.

Fixpoint run_ops (ops : list hash_op) : M hash_st (list Z) :=
  match ops with
  | [] => mret []
  | op :: ops => r ← run_op op; rs ← run_ops ops; mret (r :: rs)
  end.

(** The specification: a finite map, into which a key may only be inserted
    while it is absent.  [None] is a violation of that contract. *)
Definition spec_op (op : hash_op) (m : gmap (list Z) Z) : option (Z * gmap (list Z) Z) :=
  match op with
  | OpInsert k v =>
      match m !! [k] with Some _ => None | None => Some (1, <[[k] := v]> m) end
  | OpRemove k => Some (default 0 (m !! [k]), delete [k] m)
  | OpRetrieve k => Some (default 0 (m !! [k]), m)
  end.

Fixpoint spec_ops (ops : list hash_op) (m : gmap (list Z) Z)
    : option (list Z * gmap (list Z) Z) :=
  match ops with
  | [] => Some ([], m)
  | op :: ops =>
      match spec_op op m with
      | None => None
      | Some (r, m1) =>
          match spec_ops ops m1 with
          | None => None
          | Some (rs, m2) => Some (r :: rs, m2)
          end
      end
  end.

(** A table for one-word keys. *)
Definition word_rep (h : HASH_TABLE) (m : gmap (list Z) Z) : Prop :=
  hash_rep h m ∧ uKeySize h = sizeof_UINTPTR.

Lemma word_key h m k : word_rep h m → key_ok h [k].
Proof. intros [_ Hk]. unfold key_ok. by rewrite Hk. Qed.

Lemma word_rep_params h h' m m' :
  word_rep h m → hash_rep h' m' → same_params h h' → word_rep h' m'.
Proof. intros [_ Hk] ? (Hk'&_). split; [done|congruence]. Qed.

(** What a client may see when the memory can fail: an insertion also answers
    0 and then leaves the map as it is.  [replay ops rs m] is the map after the
    operations [ops] answered [rs], [None] if they could not have been. *)
Definition replay_op (op : hash_op) (r : Z) (m : gmap (list Z) Z) : option (gmap (list Z) Z) :=
  match op with
  | OpInsert k v => if r =? 1 then Some (<[[k] := v]> m) else if r =? 0 then Some m else None
  | OpRemove k => if r =? default 0 (m !! [k]) then Some (delete [k] m) else None
  | OpRetrieve k => if r =? default 0 (m !! [k]) then Some m else None
  end.

Fixpoint replay (ops : list hash_op) (rs : list Z) (m : gmap (list Z) Z)
    : option (gmap (list Z) Z) :=
  match ops, rs with
  | [], [] => Some m
  | op :: ops, r :: rs => m1 ← replay_op op r m; replay ops rs m1
  | _, _ => None
  end.

Definition tab_step (m m' : gmap (list Z) Z) (o o' : os) : Prop :=
  os_step (Z.of_nat (size m') - Z.of_nat (size m)) o o'.

(** One operation on a table for [m], where the specification is at [ms],
    ahead of [m] by the insertions memory refused. *)
Lemma wp_run_op op h m ms o r ms' :
  word_rep h m → m ⊆ ms → spec_op op ms = Some (r, ms') → Z.of_nat (size ms) < 134217728 →
  wp (run_op op) (λ r' st', ∃ h' o' m', st' = mk_hash_st o' (Some h') ∧ word_rep h' m' ∧
      replay_op op r' m = Some m' ∧ m' ⊆ ms' ∧ tab_step m m' o o' ∧ (size ms' ≤ S (size ms))%nat ∧
      (plenty o → m = ms → r' = r ∧ m' = ms')) (mk_hash_st o (Some h)).
Proof.
  intros Hrep Hsub Hs Hsz. pose proof (λ k, word_key h m k Hrep) as Hkey.
  pose proof (map_subseteq_size _ _ Hsub) as Hle.
  destruct op as [k v|k|k]; simpl in *.
  - destruct (ms !! [k]) eqn:Hm; [done|]. simplify_eq.
    assert (m !! [k] = None) as Hn by (by eapply lookup_weaken_None).
    wp_step. eapply wp_mono; [apply wp_insert_map; [apply Hrep|apply Hkey|done|lia]|].
    intros b st' (h'&o'&->&Hrep'&Hsp&Hos&Hb). wp_steps. eexists _, _, (if b then _ else _).
    split_and!; [done|by eapply word_rep_params|by destruct b| | |by rewrite map_size_insert, Hm|].
    + destruct b; [by apply insert_mono|by apply insert_subseteq_r].
    + unfold tab_step. eapply os_step_eq; [done|]. destruct b; rewrite ?map_size_insert, ?Hn; simpl; lia.
    + intros Hpl ->. by rewrite (Hb Hpl).
  - simplify_eq. eapply wp_mono; [apply wp_remove_map; [apply Hrep|apply Hkey]|].
    intros r' st' (h'&o'&->&->&Hrep'&Hsp&Hos). eexists _, _, _. rewrite Z.eqb_refl.
    split_and!; [done|by eapply word_rep_params|done|by apply delete_mono| | |by intros _ ->].
    + unfold tab_step. eapply os_step_eq; [done|]. rewrite map_size_delete.
      destruct (m !! [k]) eqn:Hm; simpl; [|lia].
      pose proof (map_size_ne_0_lookup_2 m [k] ltac:(eauto)). lia.
    + rewrite map_size_delete. destruct (ms !! [k]); simpl; lia.
  - simplify_eq. wp_step. wp_step. eapply wp_mono.
    { apply wp_retrieve_map; [apply Hrep|apply Hkey]. }
    intros r' st' [-> ->]. eexists _, _, _. rewrite Z.eqb_refl.
    split_and!; [done..| |lia|by intros _ ->]. unfold tab_step. rewrite Z.sub_diag. apply os_step_refl.
Qed.

Lemma tab_step_trans m1 m2 m3 o1 o2 o3 : tab_step m1 m2 o1 o2 → tab_step m2 m3 o2 o3 → tab_step m1 m3 o1 o3.
Proof. intros H1 H2. eapply os_step_eq; [by eapply os_step_trans|lia]. Qed.

Lemma wp_run_ops ops h m ms o rs ms' :
  word_rep h m → m ⊆ ms → spec_ops ops ms = Some (rs, ms') →
  Z.of_nat (size ms + length ops) ≤ 134217728 →
  wp (run_ops ops) (λ rs' st', ∃ h' o' m', st' = mk_hash_st o' (Some h') ∧ word_rep h' m' ∧
      replay ops rs' m = Some m' ∧ tab_step m m' o o' ∧
      (plenty o → m = ms → rs' = rs ∧ m' = ms')) (mk_hash_st o (Some h)).
Proof.
  revert h m ms o rs. induction ops as [|op ops IH]; intros h m ms o rs Hrep Hsub Hs Hsz; simpl in *.
  - simplify_eq. wp_steps. eexists _, _, _. split_and!; [done..| |done].
    unfold tab_step. rewrite Z.sub_diag. apply os_step_refl.
  - destruct (spec_op op ms) as [[r m1]|] eqn:Hop; [|done].
    destruct (spec_ops ops m1) as [[rs1 m2]|] eqn:Hops; [|done]. simplify_eq.
    wp_step. eapply wp_mono; [by apply (wp_run_op op h m ms o r m1); [..|lia]|].
    intros r' st' (h'&o'&m'&->&Hrep'&Hr&Hsub'&Ho&Hsz'&Hp). wp_step.
    eapply wp_mono; [by apply (IH h' m' m1 o' rs1); [..|lia]|].
    intros rs' st'' (h''&o''&m''&->&Hrep''&Hr'&Ho'&Hp'). wp_steps. eexists _, _, _. rewrite Hr.
    split_and!; [done..|by eapply tab_step_trans|]. intros Hpl ->.
    destruct (Hp Hpl eq_refl) as [-> ->]. destruct (Hp' (proj2 Ho Hpl) eq_refl) as [-> ->]. done.
Qed.

(** ** Properties *)

(** C9: a table of initial size between 1 and 2^29 - 1 (from 2^29 on the size
    of its array wraps in 32 bits), whatever allocations are refused.  The
    creation answers a table or null, null only when memory was refused and
    then nothing stays allocated.  For every sequence of at most 2^27
    insertions, removals and lookups of one-word keys that inserts only absent
    keys, the table never faults and every loop ends; each answer and the final
    table are those of a finite map, where an insertion refused for lack of
    memory answers 0 and leaves the map; the blocks held are the table's two
    and one for each entry.  With memory available no insertion is refused. *)
Theorem HASH_refines_map n ops rs m o :
  0 < n < 536870912 → spec_ops ops ∅ = Some (rs, m) → Z.of_nat (length ops) ≤ 134217728 →
  wp (HASH_Create n) (λ r o1, (plenty o → is_Some r) ∧ (r = None → os_live o1 = os_live o) ∧
      ∀ h, r = Some h → wp (run_ops ops) (λ rs' st, ∃ h' o' m', st = mk_hash_st o' (Some h') ∧
        word_rep h' m' ∧ replay ops rs' ∅ = Some m' ∧
        os_live o' = os_live o + 2 + Z.of_nat (size m') ∧
        (plenty o → rs' = rs ∧ m' = m)) (mk_hash_st o1 (Some h))) o.
Proof.
  intros Hn Hs Hlen. eapply wp_mono.
  { apply wp_HASH_Create_Extended; [done|]. intros h _. apply comp_ok_default. }
  intros r o1 ([Hl Hpl]&Hsome&Hh). split_and!; [done|intros ->; lia|]. intros h ->.
  destruct (Hh h eq_refl) as (Hwf&Hc&Hk). eapply wp_mono.
  { eapply wp_run_ops with (m := ∅) (ms := ∅); [|done..|by rewrite map_size_empty].
    split; [by apply hash_rep_empty|done]. }
  intros rs' st (h'&o'&m'&->&Hrep&Hr&[Ho _]&Hp). eexists _, _, _. rewrite map_size_empty in Ho.
  split_and!; [done..|lia|]. intros H. by apply Hp; [apply Hpl|].
Qed.

Lemma HASH_refines_map_witness :
  ∃ m, wp (HASH_Create 2) (λ r o1, (plenty {| os_script := [true; true; true; false]; os_live := 3 |} → is_Some r) ∧
      (r = None → os_live o1 = 3) ∧ ∀ h, r = Some h →
      wp (run_ops [OpInsert 7 70; OpInsert 8 80; OpRemove 7; OpRetrieve 8; OpRetrieve 7])
        (λ rs' st, ∃ h' o' m', st = mk_hash_st o' (Some h') ∧ word_rep h' m' ∧
        replay [OpInsert 7 70; OpInsert 8 80; OpRemove 7; OpRetrieve 8; OpRetrieve 7] rs' ∅ = Some m' ∧
        os_live o' = 5 + Z.of_nat (size m') ∧
        (plenty {| os_script := [true; true; true; false]; os_live := 3 |} → rs' = [1; 1; 70; 80; 0] ∧ m' = m))
        (mk_hash_st o1 (Some h))) {| os_script := [true; true; true; false]; os_live := 3 |}.
Proof.
  eexists. apply (HASH_refines_map 2 _ _ _ {| os_script := [true; true; true; false]; os_live := 3 |});
    [lia|vm_compute; reflexivity|simpl; lia].
Defined.

(** An insertion keeps the table well formed in every case.  If it
    succeeds the pair joins the bag of pairs held, duplicates included; if the
    kernel is out of memory the bag is unchanged and no block leaks, and a
    refused growth is not an error.  With memory available it succeeds and the
    load stays at no more than one bucket for two slots. *)
Theorem HASH_Insert_bag h o key v :
  hash_wf h → key_ok h key → uCount h < 134217728 →
  wp (HASH_Insert_Extended key v) (λ r st, ∃ h' o', st = mk_hash_st o' (Some h') ∧
      hash_wf h' ∧ os_live o' = os_live o + Z.b2z r ∧
      (plenty o → r = true ∧ (load_ok h → load_ok h')) ∧
      contents h' ≡ₚ (if r then [(key, v)] else []) ++ contents h)
    (mk_hash_st o (Some h)).
Proof.
  intros. eapply wp_mono; [by apply wp_HASH_Insert_Extended|].
  intros r st (h'&o'&->&?&?&[Ho _]&?&?). eexists _, _. by split_and!.
Qed.

(** The table made by [HASH_Create n] in plentiful memory. *)
Definition fresh_table (n : Z) : HASH_TABLE :=
  mkHASH_TABLE (replicate (Z.to_nat n) []) n 0 n 8 HASH_Func_Default HASH_Key_Comp_Default.

Lemma fresh_table_wf n : 0 < n < 536870912 → hash_wf (fresh_table n).
Proof.
  intros Hn. split; simpl; [done|lia|apply tab_ok_empty| |lia|by apply comp_ok_default].
  unfold contents. simpl. by rewrite concat_replicate_nil.
Qed.

Lemma HASH_Insert_bag_witness :
  wp (HASH_Insert_Extended [5] 50) (λ r st, ∃ h' o', st = mk_hash_st o' (Some h') ∧
      hash_wf h' ∧ os_live o' = 3 + Z.b2z r ∧
      (plenty {| os_script := [false]; os_live := 3 |} →
         r = true ∧ (load_ok (fresh_table 4) → load_ok h')) ∧
      contents h' ≡ₚ (if r then [([5], 50)] else []) ++ contents (fresh_table 4))
    (mk_hash_st {| os_script := [false]; os_live := 3 |} (Some (fresh_table 4))).
Proof.
  apply (HASH_Insert_bag (fresh_table 4) {| os_script := [false]; os_live := 3 |} [5] 50);
    [apply fresh_table_wf; lia|reflexivity|simpl; lia].
Defined.

(** A removal takes out exactly one pair with the key, returns its value
    and frees its block; when no pair has the key it returns 0 and changes
    nothing.  The load bound is kept by the shrinking of the array. *)
Theorem HASH_Remove_bag h o key :
  hash_wf h → key_ok h key →
  wp (HASH_Remove_Extended key) (λ r st, ∃ h' o', st = mk_hash_st o' (Some h') ∧
      hash_wf h' ∧ (plenty o → load_ok h → load_ok h') ∧
      (contents h ≡ₚ (key, r) :: contents h' ∧ os_live o' = os_live o - 1 ∨
       key ∉ (contents h).*1 ∧ r = 0 ∧ h' = h ∧ o' = o))
    (mk_hash_st o (Some h)).
Proof.
  intros. eapply wp_mono; [by apply wp_HASH_Remove_Extended|].
  intros r st (h'&o'&->&?&?&?&Hc). eexists _, _. split_and!; try done.
  destruct Hc as [[? [? _]]|?]; [left|by right]. split; [done|lia].
Qed.

Lemma HASH_Remove_bag_witness :
  wp (HASH_Remove_Extended [5]) (λ r st, ∃ h' o', st = mk_hash_st o' (Some h') ∧
      hash_wf h' ∧ (plenty os_plenty → load_ok (fresh_table 4) → load_ok h') ∧
      (contents (fresh_table 4) ≡ₚ ([5], r) :: contents h' ∧ os_live o' = 0 - 1 ∨
       [5] ∉ (contents (fresh_table 4)).*1 ∧ r = 0 ∧ h' = fresh_table 4 ∧ o' = os_plenty))
    (mk_hash_st os_plenty (Some (fresh_table 4))).
Proof.
  apply (HASH_Remove_bag (fresh_table 4) os_plenty [5]);
    [apply fresh_table_wf; lia|reflexivity].
Defined.

(** [HASH_Iterate] calls the callback on every pair of the table once, in
    array and chain order, and stops at the first error. *)
Theorem HASH_Iterate_all {St} h (cb : Z → Z → M St PVRSRV_ERROR) s :
  hash_wf h → HASH_Iterate (Some h) cb s = iterate_chain cb (concat (ppBucketTable h)) s.
Proof.
  intros Hwf. unfold HASH_Iterate. simpl.
  apply (iterate_from_concat cb _ 0). rewrite (tab_len _ _ _ (wf_tab _ Hwf)). lia.
Qed.

Lemma HASH_Iterate_all_witness :
  HASH_Iterate (S:=Z) (Some (fresh_table 4)) (λ k _ s, Done PVRSRV_OK (s + k)) 0 =
  iterate_chain (λ k _ s, Done PVRSRV_OK (s + k)) (concat (ppBucketTable (fresh_table 4))) 0.
Proof. apply (HASH_Iterate_all (fresh_table 4)), fresh_table_wf. lia. Defined.

(** Among duplicates of one key the table answers the newest before it
    grows, but growing reverses each chain's duplicates: the same lookup gives
    the second insertion's value with four slots and the first insertion's
    value after the third insertion has doubled the array. *)
Theorem HASH_duplicates_reorder :
  let tab p := match p (mk_hash_st os_plenty (Some (fresh_table 4))) with
               | Done _ st => hs_tab st | _ => None end in
  let find p := match HASH_Retrieve (S:=unit) (tab p) 1 tt with Done v _ => v | _ => -1 end in
  find (HASH_Insert 1 10;; HASH_Insert 1 11) = 11 ∧
  find (HASH_Insert 1 10;; HASH_Insert 1 11;; HASH_Insert 2 20) = 10.
Proof. vm_compute. split; reflexivity. Qed.
