(* ===== verification/DList.v ===== *)
(** * Intrusive doubly linked lists in a store

    A node type [N] with a next and a previous pointer ([links]); [dll] says
    that the nodes of a list of pointers are chained in that order, [dlist]
    that the chain is a whole list (null at both ends, no node twice).  The
    lemmas are the effect of the three pointer manipulations the code uses:
    insertion at the front, insertion after a node, removal. *)

From S2P Require Import Prelude.

Record links (N : Type) := mkLinks { lnext : N → Z; lprev : N → Z }.
Arguments mkLinks {N}.
Arguments lnext {N}.
Arguments lprev {N}.

(** First and last element with a default. *)
Definition hd_or (d : Z) (xs : list Z) : Z := default d (head xs).
Definition last_or (d : Z) (xs : list Z) : Z := default d (last xs).

(** Computes both on explicit lists. *)
Ltac ends := cbn [hd_or last_or head last from_option id app].

Section dlist.
Context {N : Type} (L : links N).
Implicit Types (h : gmap Z N) (xs ys : list Z).

Fixpoint dll h (p : Z) xs (n : Z) : Prop :=
  match xs with
  | [] => True
  | x :: xs => x ≠ 0 ∧ (∃ b, h !! x = Some b ∧ lprev L b = p ∧ lnext L b = hd_or n xs) ∧
               dll h x xs n
  end.

Definition dlist h xs : Prop := dll h 0 xs 0 ∧ NoDup xs.

(** The links stored at a pointer. *)
Definition links_at h (x : Z) : option (Z * Z) := (λ b, (lprev L b, lnext L b)) <$> h !! x.

Lemma hd_or_app d xs ys : hd_or d (xs ++ ys) = hd_or (hd_or d ys) xs.
Proof. by destruct xs. Qed.

Lemma last_or_app d xs ys : last_or d (xs ++ ys) = last_or (last_or d xs) ys.
Proof. unfold last_or. rewrite last_app. by destruct (last ys). Qed.

Lemma last_or_snoc d xs x : last_or d (xs ++ [x]) = x.
Proof. unfold last_or. by rewrite last_snoc. Qed.

Lemma last_or_cons d x xs : last_or d (x :: xs) = last_or x xs.
Proof. apply (last_or_app d [x]). Qed.

Lemma dll_app h p xs ys n :
  dll h p (xs ++ ys) n ↔ dll h p xs (hd_or n ys) ∧ dll h (last_or p xs) ys n.
Proof.
  revert p. induction xs as [|x xs IH]; intros p; simpl.
  - by rewrite (left_id True and).
  - rewrite IH, hd_or_app, last_or_cons. tauto.
Qed.

Lemma dll_cons h p x xs n :
  dll h p (x :: xs) n ↔ x ≠ 0 ∧ links_at h x = Some (p, hd_or n xs) ∧ dll h x xs n.
Proof.
  simpl. unfold links_at. split.
  - intros (?&(b&->&<-&<-)&?). done.
  - intros (?&Hl&?). split_and!; [done| |done].
    apply fmap_Some in Hl as (b&?&[= -> ->]). eauto.
Qed.

Lemma dll_frame h h' p xs n :
  (∀ x, x ∈ xs → links_at h' x = links_at h x) → dll h p xs n → dll h' p xs n.
Proof.
  revert p. induction xs as [|x xs IH]; intros p Hf; [done|].
  rewrite !dll_cons, Hf by set_solver. intros (?&?&?). split_and!; [done..|].
  apply IH; [|done]. intros y ?. apply Hf. set_solver.
Qed.

(** What a node of a list sees. *)
Lemma dll_mid h p xs x ys n :
  dll h p (xs ++ x :: ys) n →
  x ≠ 0 ∧ ∃ b, h !! x = Some b ∧ lprev L b = last_or p xs ∧ lnext L b = hd_or n ys.
Proof. rewrite dll_app. simpl. intros (_&?&?&_). done. Qed.

Lemma dll_in h p xs n x : dll h p xs n → x ∈ xs → x ≠ 0 ∧ is_Some (h !! x).
Proof.
  intros Hd (l1&l2&->)%list_elem_of_split.
  destruct (dll_mid _ _ _ _ _ _ Hd) as (?&b&->&_). eauto.
Qed.

Lemma dlist_in h xs x : dlist h xs → x ∈ xs → x ≠ 0 ∧ is_Some (h !! x).
Proof. intros [? _]. by eapply dll_in. Qed.

Lemma dlist_frame h h' xs :
  (∀ x, x ∈ xs → links_at h' x = links_at h x) → dlist h xs → dlist h' xs.
Proof. intros ? [? ?]. split; [by eapply dll_frame|done]. Qed.

Lemma hd_or_0 h xs : dlist h xs → hd_or 0 xs = 0 → xs = [].
Proof. destruct xs; [done|]. intros [[? _] _]. simpl. done. Qed.


(** The only node that changes is [x]. *)
Lemma links_at_insert_ne h x y b : x ≠ y → links_at (<[x := b]> h) y = links_at h y.
Proof. intros. unfold links_at. by rewrite lookup_insert_ne. Qed.

Lemma links_at_insert h x b : links_at (<[x := b]> h) x = Some (lprev L b, lnext L b).
Proof. unfold links_at. by rewrite lookup_insert_eq. Qed.

(** The heap [h'] has [x] between [p] and [n] and differs from [h], on links,
    in the two ends only as far as their pointers to [x] go. *)
Definition relinked h h' (p n : Z) (newn newp : Z) : Prop :=
  (p ≠ 0 → ∀ q m, links_at h p = Some (q, m) → links_at h' p = Some (q, newn)) ∧
  (n ≠ 0 → ∀ q m, links_at h n = Some (q, m) → links_at h' n = Some (newp, m)).

(** The end of a chain turned to another successor. *)
Lemma dll_retarget_next h h' p xs n n' :
  dll h p xs n → NoDup xs →
  (∀ y q, y ≠ 0 → last xs = Some y → links_at h y = Some (q, n) → links_at h' y = Some (q, n')) →
  (∀ y, y ∈ xs → Some y ≠ last xs → links_at h' y = links_at h y) →
  dll h' p xs n'.
Proof.
  destruct xs as [|y xs _] using rev_ind; [done|].
  rewrite !dll_app, last_snoc, NoDup_app, !dll_cons. intros (Hd&Hy0&Hl&_) (Hnd&Hny&_) Hy Hfr.
  split_and!; [|done|by apply Hy|done].
  eapply dll_frame; [|done]. intros z Hz. apply Hfr; [set_solver|].
  intros [= ->]. apply (Hny y); set_solver.
Qed.

(** The start of a chain turned to another predecessor. *)
Lemma dll_retarget_prev h h' p p' xs n :
  dll h p xs n → NoDup xs →
  (∀ y m, y ≠ 0 → head xs = Some y → links_at h y = Some (p, m) → links_at h' y = Some (p', m)) →
  (∀ y, y ∈ xs → Some y ≠ head xs → links_at h' y = links_at h y) →
  dll h' p' xs n.
Proof.
  destruct xs as [|y xs]; [done|].
  rewrite !dll_cons, NoDup_cons. intros (Hy0&Hl&Hd) (Hny&_) Hy Hfr.
  split_and!; [done|by apply Hy|].
  eapply dll_frame; [|done]. intros z Hz. apply Hfr; [set_solver|].
  simpl. intros [= ->]. done.
Qed.

Lemma last_or_Some d xs y : last xs = Some y → last_or d xs = y.
Proof. unfold last_or. by intros ->. Qed.
Lemma hd_or_Some d xs y : head xs = Some y → hd_or d xs = y.
Proof. unfold hd_or. by intros ->. Qed.

Section relink.
Context (h h' : gmap Z N) (xs ys : list Z).

(** Everywhere but at the two ends [h'] has the links of [h]. *)
Definition unlinked_same : Prop :=
  ∀ y, y ∈ xs ++ ys → (last xs ≠ Some y) → (head ys ≠ Some y) → links_at h' y = links_at h y.

Lemma relink_left n n' np :
  dll h 0 xs n → NoDup (xs ++ ys) →
  relinked h h' (last_or 0 xs) (hd_or 0 ys) n' np → unlinked_same →
  dll h' 0 xs n'.
Proof.
  intros Hd (Hnd&Hdis&_)%NoDup_app [Hp _] Hfr. eapply dll_retarget_next; [done|done| |].
  - intros y q Hy0 Hl Hy. rewrite (last_or_Some _ _ _ Hl) in Hp. by eapply Hp.
  - intros y Hy Hne. apply Hfr; [set_solver|naive_solver|].
    intros Hh. apply (Hdis y Hy). destruct ys; simplify_eq/=. set_solver.
Qed.

Lemma relink_right p np p' :
  dll h p ys 0 → NoDup (xs ++ ys) →
  relinked h h' (last_or 0 xs) (hd_or 0 ys) np p' → unlinked_same →
  dll h' p' ys 0.
Proof.
  intros Hd (_&Hdis&Hnd)%NoDup_app [_ Hn] Hfr. eapply dll_retarget_prev; [done|done| |].
  - intros y m Hy0 Hl Hy. rewrite (hd_or_Some _ _ _ Hl) in Hn. by eapply Hn.
  - intros y Hy Hne. apply Hfr; [set_solver| |naive_solver].
    intros Hl%last_Some_elem_of. by apply (Hdis y).
Qed.

Lemma dlist_insert x :
  dlist h (xs ++ ys) → x ≠ 0 → x ∉ xs ++ ys →
  links_at h' x = Some (last_or 0 xs, hd_or 0 ys) →
  relinked h h' (last_or 0 xs) (hd_or 0 ys) x x → unlinked_same →
  dlist h' (xs ++ x :: ys).
Proof.
  intros [Hd Hnd] Hx0 Hx Hlx Hr Hfr. split.
  2:{ rewrite NoDup_app, NoDup_cons in *. set_solver. }
  rewrite dll_app in Hd. destruct Hd as [Hd1 Hd2]. rewrite dll_app, dll_cons. split_and!.
  - by eapply relink_left.
  - done.
  - done.
  - by eapply relink_right.
Qed.

Lemma dlist_remove x :
  dlist h (xs ++ x :: ys) →
  relinked h h' (last_or 0 xs) (hd_or 0 ys) (hd_or 0 ys) (last_or 0 xs) → unlinked_same →
  dlist h' (xs ++ ys).
Proof.
  intros [Hd Hnd] Hr Hfr.
  assert (NoDup (xs ++ ys)) as Hnd'.
  { rewrite NoDup_app, NoDup_cons in *. set_solver. }
  split; [|done]. rewrite dll_app in Hd |- *. simpl in Hd. destruct Hd as (Hd1&Hx0&_&Hd2).
  split; [by eapply relink_left|by eapply relink_right].
Qed.
End relink.
End dlist.
