(* ===== verification/RA.v ===== *)
(** * The resource allocator (srvkm/common/ra.c): model

    An arena hands out ranges of an address space.  Its boundary tags [BT] are
    heap blocks, linked twice: in the segment list, sorted by address, and, when
    free, in one of 32 free lists indexed by the logarithm of the size.  The
    links are modelled as the code has them: a store [ra_heap] from pointers to
    boundary tags, null being 0; a read or write through a null or dangling
    pointer is a [Fault].  The callbacks of the arena are functions on an
    environment [E] (the state of the buffer manager, which owns the
    [BM_MAPPING] structures), and [map_flags] reads [psMapping->ui32Flags]. *)

From S2P Require Import Prelude Hash.

Definition MINIMUM_HASH_SIZE : Z := 64.
Definition FREE_TABLE_LIMIT : nat := 32.
(** [IMG_UNDEF] as a handle. *)
Definition IMG_UNDEF : Z := 18446744073709551615.

Inductive bt_type := btt_span | btt_free | btt_live.

#[export] Instance bt_type_eq_dec : EqDecision bt_type.
Proof. solve_decision. Defined.

Record BT := mkBT {
  type : bt_type;
  base : Z;
  uBTSize : Z;
  pNextSegment : Z;
  pPrevSegment : Z;
  pNextFree : Z;
  pPrevFree : Z;
  psMapping : Z
}.

(** A tag after [OSMemSet (pBT, 0, sizeof (BT))]. *)
Definition BT_zero : BT := mkBT btt_span 0 0 0 0 0 0 0.

Definition set_type t b := mkBT t (base b) (uBTSize b) (pNextSegment b) (pPrevSegment b) (pNextFree b) (pPrevFree b) (psMapping b).
Definition set_base x b := mkBT (type b) x (uBTSize b) (pNextSegment b) (pPrevSegment b) (pNextFree b) (pPrevFree b) (psMapping b).
Definition set_size x b := mkBT (type b) (base b) x (pNextSegment b) (pPrevSegment b) (pNextFree b) (pPrevFree b) (psMapping b).
Definition set_pNextSegment x b := mkBT (type b) (base b) (uBTSize b) x (pPrevSegment b) (pNextFree b) (pPrevFree b) (psMapping b).
Definition set_pPrevSegment x b := mkBT (type b) (base b) (uBTSize b) (pNextSegment b) x (pNextFree b) (pPrevFree b) (psMapping b).
Definition set_pNextFree x b := mkBT (type b) (base b) (uBTSize b) (pNextSegment b) (pPrevSegment b) x (pPrevFree b) (psMapping b).
Definition set_pPrevFree x b := mkBT (type b) (base b) (uBTSize b) (pNextSegment b) (pPrevSegment b) (pNextFree b) x (psMapping b).
Definition set_psMapping x b := mkBT (type b) (base b) (uBTSize b) (pNextSegment b) (pPrevSegment b) (pNextFree b) (pPrevFree b) x.

Section ra.
Context {E : Type} (map_flags : E → Z → option Z).

(** [imp_alloc handle size flags]: the actual size, the mapping and the base. *)
Definition import_alloc_fn : Type := Z → Z → Z → M E (option (Z * Z * Z)).
Definition import_free_fn : Type := Z → Z → Z → M E unit.
Definition backing_free_fn : Type := Z → Z → Z → Z → M E unit.

Record RA_ARENA := mkARENA {
  uQuantum : Z;
  pImportAlloc : import_alloc_fn;
  pImportFree : option import_free_fn;
  pBackingStoreFree : option backing_free_fn;
  pImportHandle : Z;
  aHeadFree : list Z;
  pHeadSegment : Z;
  pTailSegment : Z;
  pSegmentHash : option HASH_TABLE
}.

Definition set_aHeadFree x a := mkARENA (uQuantum a) (pImportAlloc a) (pImportFree a) (pBackingStoreFree a) (pImportHandle a) x (pHeadSegment a) (pTailSegment a) (pSegmentHash a).
Definition set_pHeadSegment x a := mkARENA (uQuantum a) (pImportAlloc a) (pImportFree a) (pBackingStoreFree a) (pImportHandle a) (aHeadFree a) x (pTailSegment a) (pSegmentHash a).
Definition set_pTailSegment x a := mkARENA (uQuantum a) (pImportAlloc a) (pImportFree a) (pBackingStoreFree a) (pImportHandle a) (aHeadFree a) (pHeadSegment a) x (pSegmentHash a).
Definition set_pSegmentHash x a := mkARENA (uQuantum a) (pImportAlloc a) (pImportFree a) (pBackingStoreFree a) (pImportHandle a) (aHeadFree a) (pHeadSegment a) (pTailSegment a) x.

(** The state the allocator runs in: the kernel allocator, the live boundary
    tags, the next pointer the kernel will hand out, the arena pointer (null or
    not) and the environment of the callbacks. *)
Record ra_st := mk_ra_st {
  ra_os : os;
  ra_heap : gmap Z BT;
  ra_next : Z;
  ra_arena : option RA_ARENA;
  ra_env : E
}.

Definition set_os x s := mk_ra_st x (ra_heap s) (ra_next s) (ra_arena s) (ra_env s).
Definition set_heap x s := mk_ra_st (ra_os s) x (ra_next s) (ra_arena s) (ra_env s).
Definition set_next x s := mk_ra_st (ra_os s) (ra_heap s) x (ra_arena s) (ra_env s).
Definition set_arena x s := mk_ra_st (ra_os s) (ra_heap s) (ra_next s) x (ra_env s).
Definition set_env x s := mk_ra_st (ra_os s) (ra_heap s) (ra_next s) (ra_arena s) x.

(** ** Memory accesses *)

Definition rd {A} (p : Z) (f : BT → A) : M ra_st A :=
  s ← get; b ← deref (ra_heap s !! p); mret (f b).
Definition wr (p : Z) (f : BT → BT) : M ra_st unit :=
  s ← get; b ← deref (ra_heap s !! p); put (set_heap (<[p := f b]> (ra_heap s)) s).

(** The arena, which must not be null. *)
Definition arena {A} (f : RA_ARENA → A) : M ra_st A :=
  s ← get; a ← deref (ra_arena s); mret (f a).
Definition upd_arena (f : RA_ARENA → RA_ARENA) : M ra_st unit :=
  s ← get; a ← deref (ra_arena s); put (set_arena (Some (f a)) s).
(** [pArena == IMG_NULL] *)
Definition arena_null : M ra_st bool :=
  s ← get; mret (match ra_arena s with None => true | Some _ => false end).

Definition with_ra_os {A} (m : M os A) : M ra_st A := zoom ra_os set_os m.
Definition with_env {A} (m : M E A) : M ra_st A := zoom ra_env set_env m.

(** A hash operation on the arena's [pSegmentHash]. *)
Definition with_hash {A} (m : M hash_st A) : M ra_st A :=
  s ← get; a ← deref (ra_arena s);
  zoom (λ s, mk_hash_st (ra_os s) (pSegmentHash a))
       (λ h s, set_os (hs_os h) (set_arena (Some (set_pSegmentHash (hs_tab h) a)) s)) m.

(** [OSAllocMem] of a boundary tag followed by [OSMemSet 0]; null on failure. *)
Definition alloc_BT : M ra_st Z :=
  ok ← with_ra_os OSAllocMem;
  if negb ok then mret IMG_NULL
  else
    s ← get;
    put (set_heap (<[ra_next s := BT_zero]> (ra_heap s)) (set_next (ra_next s + 1) s));;
    mret (ra_next s).

Definition free_BT (p : Z) : M ra_st unit :=
  rd p (λ _, tt);;
  with_ra_os OSFreeMem;;
  modify (λ s, set_heap (delete p (ra_heap s)) s).

(** ** Logarithm *)

Fixpoint log2_loop (fuel : nat) (n l : Z) : Z :=
  match fuel with
  | O => l
  | Datatypes.S fuel => if 0 <? n then log2_loop fuel (Z.shiftr n 1) (l + 1) else l
  end.

(** 32 halvings empty a 32-bit [n]. *)
Definition pvr_log2 (n : Z) : Z := log2_loop 32 (Z.shiftr n 1) 0.

(** ** The segment list *)

Definition _RequestAllocFail : import_alloc_fn := λ _ _ _, mret None.

Definition _SegmentListInsertAfter (pInsertionPoint pBT : Z) : M ra_st PVRSRV_ERROR :=
  n ← arena_null;
  if (pInsertionPoint =? IMG_NULL) || n then mret PVRSRV_ERROR_INVALID_PARAMS
  else
    next ← rd pInsertionPoint pNextSegment;
    wr pBT (set_pNextSegment next);;
    wr pBT (set_pPrevSegment pInsertionPoint);;
    next ← rd pInsertionPoint pNextSegment;
    (if next =? IMG_NULL then upd_arena (set_pTailSegment pBT)
     else wr next (set_pPrevSegment pBT));;
    wr pInsertionPoint (set_pNextSegment pBT);;
    mret PVRSRV_OK.

(** The scan of [_SegmentListInsert] for the insertion point. *)
Fixpoint insert_scan (fuel : nat) (bt_base : Z) (pBTScan : Z) : M ra_st Z :=
  match fuel with
  | O => out_of_fuel
  | Datatypes.S fuel =>
      next ← rd pBTScan pNextSegment;
      if next =? IMG_NULL then mret pBTScan
      else
        nb ← rd next base;
        if bt_base >=? nb then insert_scan fuel bt_base next else mret pBTScan
  end.

Definition _SegmentListInsert (pBT : Z) : M ra_st PVRSRV_ERROR :=
  head ← arena pHeadSegment;
  if head =? IMG_NULL then
    upd_arena (set_pTailSegment pBT);;
    upd_arena (set_pHeadSegment pBT);;
    wr pBT (set_pPrevSegment IMG_NULL);;
    wr pBT (set_pNextSegment IMG_NULL);;
    mret PVRSRV_OK
  else
    bb ← rd pBT base;
    hb ← rd head base;
    if bb <? hb then
      wr pBT (set_pNextSegment head);;
      wr head (set_pPrevSegment pBT);;
      upd_arena (set_pHeadSegment pBT);;
      wr pBT (set_pPrevSegment IMG_NULL);;
      mret PVRSRV_OK
    else
      s ← get;
      scan ← insert_scan (Datatypes.S (size (ra_heap s))) bb head;
      _SegmentListInsertAfter scan pBT.

Definition _SegmentListRemove (pBT : Z) : M ra_st unit :=
  prev ← rd pBT pPrevSegment;
  next ← rd pBT pNextSegment;
  (if prev =? IMG_NULL then upd_arena (set_pHeadSegment next)
   else wr prev (set_pNextSegment next));;
  (if next =? IMG_NULL then upd_arena (set_pTailSegment prev)
   else wr next (set_pPrevSegment prev)).

Definition _SegmentSplit (pBT uSize : Z) : M ra_st Z :=
  n ← arena_null;
  if n : bool then mret IMG_NULL
  else
    pNeighbour ← alloc_BT;
    if pNeighbour =? IMG_NULL then mret IMG_NULL
    else
      wr pNeighbour (set_pPrevSegment pBT);;
      next ← rd pBT pNextSegment;
      wr pNeighbour (set_pNextSegment next);;
      (if next =? IMG_NULL then upd_arena (set_pTailSegment pNeighbour)
       else wr next (set_pPrevSegment pNeighbour));;
      wr pBT (set_pNextSegment pNeighbour);;
      b ← rd pBT id;
      wr pNeighbour (set_type btt_free);;
      wr pNeighbour (set_size (u32 (uBTSize b - uSize)));;
      wr pNeighbour (set_base (u64 (base b + uSize)));;
      wr pNeighbour (set_psMapping (psMapping b));;
      wr pBT (set_size uSize);;
      mret pNeighbour.

(** ** The free lists *)

Definition head_free (uIndex : Z) : M ra_st Z :=
  l ← arena aHeadFree; deref (l !! Z.to_nat uIndex).
Definition set_head_free (uIndex p : Z) : M ra_st unit :=
  head_free uIndex;;
  upd_arena (λ a, set_aHeadFree (<[Z.to_nat uIndex := p]> (aHeadFree a)) a).

Definition _FreeListInsert (pBT : Z) : M ra_st unit :=
  sz ← rd pBT uBTSize;
  let uIndex := pvr_log2 sz in
  wr pBT (set_type btt_free);;
  hd ← head_free uIndex;
  wr pBT (set_pNextFree hd);;
  wr pBT (set_pPrevFree IMG_NULL);;
  (if negb (hd =? IMG_NULL) then wr hd (set_pPrevFree pBT) else mret tt);;
  set_head_free uIndex pBT.

Definition _FreeListRemove (pBT : Z) : M ra_st unit :=
  sz ← rd pBT uBTSize;
  let uIndex := pvr_log2 sz in
  next ← rd pBT pNextFree;
  prev ← rd pBT pPrevFree;
  (if negb (next =? IMG_NULL) then wr next (set_pPrevFree prev) else mret tt);;
  (if prev =? IMG_NULL then set_head_free uIndex next
   else wr prev (set_pNextFree next)).

(** ** Spans and resources *)

Definition _BuildSpanMarker (b sz : Z) : M ra_st Z :=
  pBT ← alloc_BT;
  if pBT =? IMG_NULL then mret IMG_NULL
  else
    wr pBT (set_type btt_span);;
    wr pBT (set_base b);;
    wr pBT (set_size sz);;
    wr pBT (set_psMapping IMG_NULL);;
    mret pBT.

Definition _BuildBT (b sz : Z) : M ra_st Z :=
  pBT ← alloc_BT;
  if pBT =? IMG_NULL then mret IMG_NULL
  else
    wr pBT (set_type btt_free);;
    wr pBT (set_base b);;
    wr pBT (set_size sz);;
    mret pBT.

Definition _InsertResource (b sz : Z) : M ra_st Z :=
  n ← arena_null;
  if n : bool then mret IMG_NULL
  else
    pBT ← _BuildBT b sz;
    if negb (pBT =? IMG_NULL) then
      e ← _SegmentListInsert pBT;
      if negb (is_OK e) then mret IMG_NULL
      else _FreeListInsert pBT;; mret pBT
    else mret pBT.

Definition _InsertResourceSpan (b sz : Z) : M ra_st Z :=
  n ← arena_null;
  if n : bool then mret IMG_NULL
  else
    pSpanStart ← _BuildSpanMarker b sz;
    if pSpanStart =? IMG_NULL then mret IMG_NULL
    else
    pSpanEnd ← _BuildSpanMarker (u64 (b + sz)) 0;
    if pSpanEnd =? IMG_NULL then free_BT pSpanStart;; mret IMG_NULL
    else
    pBT ← _BuildBT b sz;
    if pBT =? IMG_NULL then free_BT pSpanEnd;; free_BT pSpanStart;; mret IMG_NULL
    else
    let fail := free_BT pBT;; free_BT pSpanEnd;; free_BT pSpanStart;; mret IMG_NULL in
    e ← _SegmentListInsert pSpanStart;
    if negb (is_OK e) then fail
    else
    e ← _SegmentListInsertAfter pSpanStart pBT;
    if negb (is_OK e) then fail
    else
    _FreeListInsert pBT;;
    e ← _SegmentListInsertAfter pBT pSpanEnd;
    if negb (is_OK e) then fail
    else mret pBT.

(** ** Freeing *)

(** Coalesce with a free neighbour that ends where [pBT] starts. *)
Definition merge_prev (pBT : Z) : M ra_st unit :=
  pNeighbour ← rd pBT pPrevSegment;
  if pNeighbour =? IMG_NULL then mret tt
  else
    nb ← rd pNeighbour id;
    b ← rd pBT id;
    if bool_decide (type nb = btt_free) && (u64 (base nb + uBTSize nb) =? base b) then
      _FreeListRemove pNeighbour;;
      _SegmentListRemove pNeighbour;;
      nbase ← rd pNeighbour base;
      wr pBT (set_base nbase);;
      nsize ← rd pNeighbour uBTSize;
      wr pBT (λ b, set_size (u32 (uBTSize b + nsize)) b);;
      free_BT pNeighbour
    else mret tt.

(** Coalesce with a free neighbour that starts where [pBT] ends. *)
Definition merge_next (pBT : Z) : M ra_st unit :=
  pNeighbour ← rd pBT pNextSegment;
  if pNeighbour =? IMG_NULL then mret tt
  else
    nb ← rd pNeighbour id;
    b ← rd pBT id;
    if bool_decide (type nb = btt_free) && (u64 (base b + uBTSize b) =? base nb) then
      _FreeListRemove pNeighbour;;
      _SegmentListRemove pNeighbour;;
      nsize ← rd pNeighbour uBTSize;
      wr pBT (λ b, set_size (u32 (uBTSize b + nsize)) b);;
      free_BT pNeighbour
    else mret tt.

(** Give back the quanta of the freed range [uOrigBase, uOrigSize] that lie
    inside the coalesced tag. *)
Definition free_backing_store (pBT uOrigBase uOrigSize : Z) (bFreeBackingStore : bool)
    : M ra_st unit :=
  pfn ← arena pBackingStoreFree;
  match pfn with
  | Some pfnFree =>
      if bFreeBackingStore then
        q ← arena uQuantum;
        h ← arena pImportHandle;
        b ← rd pBT id;
        if q =? 0 then fault
        else
          let uRoundedStart := u64 (uOrigBase / q * q) in
          let uRoundedStart :=
            if uRoundedStart <? base b then u64 (uRoundedStart + q) else uRoundedStart in
          let uRoundedEnd := u64 (u64 (uOrigBase + uOrigSize + q - 1) / q * q) in
          let uRoundedEnd :=
            if uRoundedEnd >? u64 (base b + uBTSize b) then u64 (uRoundedEnd - q)
            else uRoundedEnd in
          if uRoundedStart <? uRoundedEnd
          then with_env (pfnFree h (u32 uRoundedStart) (u32 uRoundedEnd) 0)
          else mret tt
      else mret tt
  | None => mret tt
  end.

Definition is_span (p : Z) : M ra_st bool :=
  if p =? IMG_NULL then mret false else rd p (λ b, bool_decide (type b = btt_span)).

Definition _FreeBT (pBT : Z) (bFreeBackingStore : bool) : M ra_st unit :=
  n ← arena_null;
  if n || (pBT =? IMG_NULL) then mret tt
  else
    uOrigBase ← rd pBT base;
    uOrigSize ← rd pBT uBTSize;
    merge_prev pBT;;
    merge_next pBT;;
    free_backing_store pBT uOrigBase uOrigSize bFreeBackingStore;;
    next ← rd pBT pNextSegment;
    prev ← rd pBT pPrevSegment;
    nspan ← is_span next;
    pspan ← (if nspan : bool then is_span prev else mret false);
    if pspan : bool then
      _SegmentListRemove next;;
      _SegmentListRemove prev;;
      _SegmentListRemove pBT;;
      pfn ← arena pImportFree;
      h ← arena pImportHandle;
      b ← rd pBT id;
      (pfnFree ← deref pfn; with_env (pfnFree h (base b) (psMapping b)));;
      free_BT next;; free_BT prev;; free_BT pBT
    else _FreeListInsert pBT.

(** ** Allocation *)

(** The tag [pBT], in no free list, starts at the allocated base: cut off what
    lies behind [uSize], mark it live and enter it in the hash table.
    [Some (base, mapping)] is [IMG_TRUE]. *)
Definition take_back (pBT uSize : Z) : M ra_st (option (Z * Z)) :=
  sz ← rd pBT uBTSize;
  back ← (if sz >? uSize then
            pNeighbour ← _SegmentSplit pBT uSize;
            if pNeighbour =? IMG_NULL then _FreeListInsert pBT;; mret false
            else _FreeListInsert pNeighbour;; mret true
          else mret true);
  if negb back then mret None
  else
    wr pBT (set_type btt_live);;
    bb ← rd pBT base;
    ok ← with_hash (HASH_Insert bb pBT);
    if negb ok then _FreeBT pBT false;; mret None
    else
      b ← rd pBT id;
      mret (Some (base b, psMapping b)).

(** First fit: the part of [_AttemptAllocAligned] after a tag is found to fit
    and to have the right flags. *)
Definition take_segment (pBT aligned_base uSize : Z) : M ra_st (option (Z * Z)) :=
  _FreeListRemove pBT;;
  b ← rd pBT id;
  front ← (if aligned_base >? base b then
             pNeighbour ← _SegmentSplit pBT (u32 (aligned_base - base b));
             if pNeighbour =? IMG_NULL then _FreeListInsert pBT;; mret None
             else _FreeListInsert pBT;; mret (Some pNeighbour)
           else mret (Some pBT));
  match front with
  | None => mret None
  | Some pBT => take_back pBT uSize
  end.

(** The aligned start inside a tag, in 64 bits. *)
Definition align_base (b uAlignment uAlignmentOffset : Z) : Z :=
  if uAlignment >? 1
  then u64 (u64 (u64 (b + uAlignmentOffset + uAlignment - 1) / uAlignment * uAlignment)
            - uAlignmentOffset)
  else b.

(** [!psMapping || psMapping->ui32Flags == uFlags] *)
Definition flags_match (m uFlags : Z) : M ra_st bool :=
  if m =? IMG_NULL then mret true
  else s ← get; f ← deref (map_flags (ra_env s) m); mret (f =? uFlags).

(** The walk down one free list: [Some r] when a tag was taken (or failed to
    be), [None] when none fits. *)
Fixpoint try_list (fuel : nat) (pBT uSize uFlags uAlignment uAlignmentOffset : Z)
    : M ra_st (option (option (Z * Z))) :=
  if pBT =? IMG_NULL then mret None
  else
  match fuel with
  | O => out_of_fuel
  | Datatypes.S fuel =>
      b ← rd pBT id;
      let aligned_base := align_base (base b) uAlignment uAlignmentOffset in
      fits ← (if u64 (base b + uBTSize b) >=? u64 (aligned_base + uSize)
              then flags_match (psMapping b) uFlags else mret false);
      if fits : bool then r ← take_segment pBT aligned_base uSize; mret (Some r)
      else
        next ← rd pBT pNextFree;
        try_list fuel next uSize uFlags uAlignment uAlignmentOffset
  end.

(** The free lists from [uIndex] on, [n] of them. *)
Fixpoint try_lists (n : nat) (uIndex uSize uFlags uAlignment uAlignmentOffset : Z)
    : M ra_st (option (Z * Z)) :=
  match n with
  | O => mret None
  | Datatypes.S n =>
      hd ← head_free uIndex;
      s ← get;
      r ← try_list (Datatypes.S (size (ra_heap s))) hd uSize uFlags uAlignment uAlignmentOffset;
      match r with
      | Some r => mret r
      | None => try_lists n (uIndex + 1) uSize uFlags uAlignment uAlignmentOffset
      end
  end.

Definition _AttemptAllocAligned (uSize uFlags uAlignment uAlignmentOffset : Z)
    : M ra_st (option (Z * Z)) :=
  n ← arena_null;
  if n : bool then mret None
  else
    let uAlignmentOffset :=
      if uAlignment >? 1 then uAlignmentOffset mod uAlignment else uAlignmentOffset in
    let uIndex := pvr_log2 uSize in
    try_lists (FREE_TABLE_LIMIT - Z.to_nat uIndex) uIndex uSize uFlags uAlignment
      uAlignmentOffset.

Definition round_up (uSize q : Z) : M ra_st Z :=
  if q =? 0 then fault else mret (u32 (u32 (uSize + q - 1) / q * q)).

(** Import a span from the source of the arena and try again. *)
Definition alloc_import (uSize uFlags uAlignment uAlignmentOffset : Z)
    : M ra_st (option (Z * Z)) :=
  q ← arena uQuantum;
  let uImportSize :=
    if uAlignment >? q then u32 (uSize + (uAlignment - 1)) else uSize in
  uImportSize ← round_up uImportSize q;
  pfn ← arena pImportAlloc;
  h ← arena pImportHandle;
  imp ← with_env (pfn h uImportSize uFlags);
  match imp with
  | None => mret None
  | Some (uImportSize, psImportMapping, import_base) =>
      pBT ← _InsertResourceSpan import_base uImportSize;
      if pBT =? IMG_NULL then
        pfnf ← arena pImportFree;
        (pfnFree ← deref pfnf; with_env (pfnFree h import_base psImportMapping));;
        mret None
      else
        wr pBT (set_psMapping psImportMapping);;
        _AttemptAllocAligned uSize uFlags uAlignment uAlignmentOffset
  end.

Definition RA_Alloc (uRequestSize uFlags uAlignment uAlignmentOffset : Z)
    : M ra_st (option (Z * Z)) :=
  n ← arena_null;
  if n : bool then mret None
  else
    let uSize := uRequestSize in
    bResult ← _AttemptAllocAligned uSize uFlags uAlignment uAlignmentOffset;
    match bResult with
    | Some r => mret (Some r)
    | None => alloc_import uSize uFlags uAlignment uAlignmentOffset
    end.

(** ** Creation, extension, deletion, release *)

Definition RA_Create (b uSize mapping q : Z) (imp_alloc : option import_alloc_fn)
    (imp_free : option import_free_fn) (backingstore_free : option backing_free_fn)
    (handle : Z) : M ra_st bool :=
  ok ← with_ra_os OSAllocMem;
  if negb ok then mret false
  else
    modify (set_arena (Some (mkARENA q (default _RequestAllocFail imp_alloc) imp_free
      backingstore_free handle (replicate FREE_TABLE_LIMIT IMG_NULL) IMG_NULL IMG_NULL None)));;
    h ← with_ra_os (HASH_Create MINIMUM_HASH_SIZE);
    match h with
    | None => with_ra_os OSFreeMem;; modify (set_arena None);; mret false
    | Some _ =>
        upd_arena (set_pSegmentHash h);;
        if uSize >? 0 then
          uSize ← round_up uSize q;
          pBT ← _InsertResource b uSize;
          if pBT =? IMG_NULL then
            with_ra_os (HASH_Delete h);;
            with_ra_os OSFreeMem;; modify (set_arena None);; mret false
          else wr pBT (set_psMapping mapping);; mret true
        else mret true
    end.

Definition clear_free (n : nat) : M ra_st unit :=
  upd_arena (λ a, set_aHeadFree (replicate n IMG_NULL ++ drop n (aHeadFree a)) a).

(** The [while (pHeadSegment != IMG_NULL)] loop. *)
Fixpoint delete_segments (fuel : nat) : M ra_st unit :=
  pBT ← arena pHeadSegment;
  if pBT =? IMG_NULL then mret tt
  else
  match fuel with
  | O => out_of_fuel
  | Datatypes.S fuel => _SegmentListRemove pBT;; free_BT pBT;; delete_segments fuel
  end.

Definition RA_Delete : M ra_st unit :=
  n ← arena_null;
  if n : bool then mret tt
  else
    clear_free FREE_TABLE_LIMIT;;
    s ← get;
    delete_segments (Datatypes.S (size (ra_heap s)));;
    h ← arena pSegmentHash;
    with_ra_os (HASH_Delete h);;
    with_ra_os OSFreeMem;;
    modify (set_arena None).

(** The loop as written: nothing in its body advances it. *)
Fixpoint test_delete_loop (fuel : nat) : M ra_st bool :=
  pBT ← arena pHeadSegment;
  if pBT =? IMG_NULL then mret true
  else
    t ← rd pBT type;
    if negb (bool_decide (t = btt_free)) then mret false
    else match fuel with O => out_of_fuel | Datatypes.S fuel => test_delete_loop fuel end.

Definition RA_TestDelete (fuel : nat) : M ra_st bool :=
  n ← arena_null;
  if n : bool then mret true else test_delete_loop fuel.

Definition RA_Add (b uSize : Z) : M ra_st bool :=
  n ← arena_null;
  if n : bool then mret false
  else
    q ← arena uQuantum;
    uSize ← round_up uSize q;
    pBT ← _InsertResource b uSize;
    mret (negb (pBT =? IMG_NULL)).

Definition RA_Free (b : Z) (bFreeBackingStore : bool) : M ra_st unit :=
  n ← arena_null;
  if n : bool then mret tt
  else
    pBT ← with_hash (HASH_Remove b);
    if pBT =? IMG_NULL then mret tt else _FreeBT pBT bFreeBackingStore.

(** [RA_SEGMENT_DETAILS]: size, address and the tag to continue from. *)
Record RA_SEGMENT_DETAILS := mkDetails { uiSize : Z; sCpuPhyAddr : Z; hSegment : Z }.

Fixpoint next_live (fuel : nat) (pBT : Z) : M ra_st (option Z) :=
  if pBT =? IMG_NULL then mret None
  else
  match fuel with
  | O => out_of_fuel
  | Datatypes.S fuel =>
      t ← rd pBT type;
      if bool_decide (t = btt_live) then mret (Some pBT)
      else next ← rd pBT pNextSegment; next_live fuel next
  end.

Definition RA_GetNextLiveSegment (d : RA_SEGMENT_DETAILS)
    : M ra_st (bool * RA_SEGMENT_DETAILS) :=
  start ← (if negb (hSegment d =? IMG_NULL) then mret (hSegment d) else arena pHeadSegment);
  s ← get;
  r ← next_live (Datatypes.S (size (ra_heap s))) start;
  match r with
  | Some pBT =>
      b ← rd pBT id;
      mret (true, mkDetails (uBTSize b) (base b) (pNextSegment b))
  | None => mret (false, mkDetails 0 0 IMG_UNDEF)
  end.
End ra.
