(* ===== verification/RARep.v ===== *)
(** * The resource allocator: what each pointer routine does

    [rep s segs fl dat]: in state [s] the arena's segment list is [segs], its
    free lists are [fl] and [dat] gives, for every live boundary tag, its data
    ([seg]: everything but the links).  Each routine of ra.c that touches links
    gets one lemma in continuation style; above this file nobody looks at
    pointers any more. *)

From S2P Require Import Prelude Hash DList RA.

Record seg := mkSeg { s_type : bt_type; s_base : Z; s_size : Z; s_map : Z }.

Definition seg_of (b : BT) : seg := mkSeg (type b) (base b) (uBTSize b) (psMapping b).

Definition segL : links BT := mkLinks pNextSegment pPrevSegment.
Definition freeL : links BT := mkLinks pNextFree pPrevFree.

Section rep.
Context {E : Type}.
Implicit Types (s : ra_st (E:=E)) (a : RA_ARENA (E:=E)) (h : gmap Z BT).

Record rep_arena (a : RA_ARENA (E:=E)) (segs : list Z) (fl : list (list Z)) : Prop := {
  rep_head : pHeadSegment a = hd_or 0 segs;
  rep_tail : pTailSegment a = last_or 0 segs;
  rep_heads : aHeadFree a = hd_or 0 <$> fl
}.

Record rep_heap (h : gmap Z BT) (segs : list Z) (fl : list (list Z)) (dat : gmap Z seg)
  : Prop := {
  rep_dat : seg_of <$> h = dat;
  rep_segs : dlist segL h segs;
  rep_flen : length fl = FREE_TABLE_LIMIT;
  rep_fl : ∀ i xs, fl !! i = Some xs → dlist freeL h xs;
  rep_fnd : NoDup (concat fl)
}.

Record rep s (segs : list Z) (fl : list (list Z)) (dat : gmap Z seg) : Prop := {
  rep_is_arena : ∃ a, ra_arena s = Some a ∧ rep_arena a segs fl;
  rep_is_heap : rep_heap (ra_heap s) segs fl dat;
  rep_fresh : ∀ p, is_Some (dat !! p) → 0 < p < ra_next s;
  rep_next : 0 < ra_next s
}.

(** The fields of the arena that only creation and the hash table change. *)
Definition static a :=
  (uQuantum a, pImportAlloc a, pImportFree a, pBackingStoreFree a, pImportHandle a).

(** From [s] to [s'] the kernel blocks changed by [d], and neither the
    callbacks' environment, nor the arena's parameters, nor its hash table. *)
Record step (d : Z) s s' : Prop := {
  step_os : os_step d (ra_os s) (ra_os s');
  step_env : ra_env s' = ra_env s;
  step_static : static <$> ra_arena s' = static <$> ra_arena s;
  step_hash : pSegmentHash <$> ra_arena s' = pSegmentHash <$> ra_arena s
}.

Lemma step_refl s : step 0 s s.
Proof. split; [apply os_step_refl|done..]. Qed.

Lemma step_trans d d' s s' s'' : step d s s' → step d' s' s'' → step (d + d') s s''.
Proof. intros [] []. split; [by eapply os_step_trans|congruence..]. Qed.

Lemma step_eq d d' s s' : step d s s' → d = d' → step d' s s'.
Proof. by intros ? <-. Qed.

(** ** Primitive accesses *)

Lemma wp_rd {A} p (f : BT → A) b Q s :
  ra_heap s !! p = Some b → Q (f b) s → wp (rd p f) Q s.
Proof. intros Hb HQ. unfold rd. wp_steps. by rewrite Hb. Qed.

Lemma wp_wr p f b (Q : unit → ra_st → Prop) s :
  ra_heap s !! p = Some b → Q tt (set_heap (<[p := f b]> (ra_heap s)) s) → wp (wr p f) Q s.
Proof. intros Hb HQ. unfold wr. wp_steps. by rewrite Hb. Qed.

Lemma wp_arena {A} (f : RA_ARENA → A) a Q s :
  ra_arena s = Some a → Q (f a) s → wp (arena f) Q s.
Proof. intros Ha HQ. unfold arena. wp_steps. by rewrite Ha. Qed.

Lemma wp_upd_arena f a (Q : unit → ra_st → Prop) s :
  ra_arena s = Some a → Q tt (set_arena (Some (f a)) s) → wp (upd_arena f) Q s.
Proof. intros Ha HQ. unfold upd_arena. wp_steps. by rewrite Ha. Qed.

Lemma wp_arena_null a (Q : bool → ra_st → Prop) s :
  ra_arena s = Some a → Q false s → wp arena_null Q s.
Proof. intros Ha HQ. unfold arena_null. wp_steps. by rewrite Ha. Qed.

(** ** Heaps that differ in one kind of links *)

Lemma seg_of_insert h p b f :
  h !! p = Some b → seg_of (f b) = seg_of b → seg_of <$> <[p := f b]> h = seg_of <$> h.
Proof. intros Hb Hf. rewrite fmap_insert, Hf, insert_id; [done|]. by rewrite lookup_fmap, Hb. Qed.

Lemma links_insert L h p b f q :
  h !! p = Some b → (lprev L (f b), lnext L (f b)) = (lprev L b, lnext L b) →
  links_at L (<[p := f b]> h) q = links_at L h q.
Proof.
  intros Hb Hf. destruct (decide (p = q)) as [<-|].
  - rewrite links_at_insert, Hf. unfold links_at. by rewrite Hb.
  - by apply links_at_insert_ne.
Qed.

(** [h'] differs from [h] in segment links only. *)
Definition seg_upd h h' : Prop :=
  seg_of <$> h' = seg_of <$> h ∧ ∀ q, links_at freeL h' q = links_at freeL h q.
(** [h'] differs from [h] in free-list links only. *)
Definition free_upd h h' : Prop :=
  seg_of <$> h' = seg_of <$> h ∧ ∀ q, links_at segL h' q = links_at segL h q.

Lemma seg_upd_refl h : seg_upd h h.
Proof. done. Qed.
Lemma free_upd_refl h : free_upd h h.
Proof. done. Qed.

Lemma seg_upd_insert h h' p b f :
  seg_upd h h' → h' !! p = Some b → seg_of (f b) = seg_of b →
  (pPrevFree (f b), pNextFree (f b)) = (pPrevFree b, pNextFree b) →
  seg_upd h (<[p := f b]> h').
Proof.
  intros [H1 H2] Hb Hs Hl. split.
  - by rewrite seg_of_insert.
  - intros q. by rewrite (links_insert freeL).
Qed.

Lemma free_upd_insert h h' p b f :
  free_upd h h' → h' !! p = Some b → seg_of (f b) = seg_of b →
  (pPrevSegment (f b), pNextSegment (f b)) = (pPrevSegment b, pNextSegment b) →
  free_upd h (<[p := f b]> h').
Proof.
  intros [H1 H2] Hb Hs Hl. split.
  - by rewrite seg_of_insert.
  - intros q. by rewrite (links_insert segL).
Qed.

Lemma rep_heap_seg_upd h h' segs segs' fl dat :
  rep_heap h segs fl dat → seg_upd h h' → dlist segL h' segs' → rep_heap h' segs' fl dat.
Proof.
  intros [] [H1 H2] Hd. split; [congruence|done|done| |done].
  intros i xs Hi. eapply dlist_frame; [|by eauto]. intros x _. apply H2.
Qed.

Lemma rep_heap_free_upd h h' segs fl fl' dat :
  rep_heap h segs fl dat → free_upd h h' → length fl' = FREE_TABLE_LIMIT → NoDup (concat fl') →
  (∀ i xs, fl' !! i = Some xs → dlist freeL h' xs) → rep_heap h' segs fl' dat.
Proof.
  intros [] [H1 H2] ???. split; [congruence| |done..].
  eapply dlist_frame; [|done]. intros x _. apply H2.
Qed.
End rep.

Create HintDb ra.
#[export] Hint Resolve seg_upd_refl free_upd_refl step_refl : ra.

(** ** Symbolic execution *)

Ltac ra_lookup :=
  cbn [ra_heap ra_arena ra_os ra_next ra_env set_heap set_arena set_next set_env set_os];
  repeat first [rewrite lookup_insert_eq | rewrite lookup_insert_ne by congruence];
  first [eassumption | reflexivity].

Ltac ra_step :=
  lazymatch goal with
  | |- wp (rd _ _) _ _ => eapply wp_rd; [ra_lookup|]
  | |- wp (wr _ _) _ _ => eapply wp_wr; [ra_lookup|]
  | |- wp (arena _) _ _ => eapply wp_arena; [ra_lookup|]
  | |- wp (upd_arena _) _ _ => eapply wp_upd_arena; [ra_lookup|]
  | |- wp arena_null _ _ => eapply wp_arena_null; [ra_lookup|]
  | _ => wp_step
  end; cbn beta.
Ltac ra_steps := repeat ra_step.

Ltac ra_simpl :=
  cbn [ra_heap ra_arena ra_os ra_next ra_env set_heap set_arena set_next set_env set_os
       pHeadSegment pTailSegment aHeadFree set_pHeadSegment set_pTailSegment set_aHeadFree].

Section ops.
Context {E : Type}.
Implicit Types (s : ra_st (E:=E)) (a : RA_ARENA (E:=E)) (h : gmap Z BT).

Lemma rep_lookup s segs fl dat p sg :
  rep s segs fl dat → dat !! p = Some sg → ∃ b, ra_heap s !! p = Some b ∧ seg_of b = sg.
Proof.
  intros [_ [Hd _ _ _ _] _ _] Hp. rewrite <- Hd, lookup_fmap in Hp.
  apply fmap_Some in Hp as (b&?&->). eauto.
Qed.

Lemma rep_dat_lookup s segs fl dat p b :
  rep s segs fl dat → ra_heap s !! p = Some b → dat !! p = Some (seg_of b).
Proof. intros [_ [Hd _ _ _ _] _ _] Hp. by rewrite <- Hd, lookup_fmap, Hp. Qed.

Lemma rep_seg_in s segs fl dat p :
  rep s segs fl dat → p ∈ segs → p ≠ 0 ∧ is_Some (dat !! p).
Proof.
  intros Hr Hp. destruct (dlist_in _ _ _ _ (rep_segs _ _ _ _ (rep_is_heap _ _ _ _ Hr)) Hp)
    as [? [b Hb]]. split; [done|]. rewrite (rep_dat_lookup _ _ _ _ _ _ Hr Hb). eauto.
Qed.

Lemma rep_free_in s segs fl dat i xs p :
  rep s segs fl dat → fl !! i = Some xs → p ∈ xs → p ≠ 0 ∧ is_Some (dat !! p).
Proof.
  intros Hr Hi Hp. destruct (dlist_in _ _ _ _ (rep_fl _ _ _ _ (rep_is_heap _ _ _ _ Hr) _ _ Hi) Hp)
    as [? [b Hb]]. split; [done|]. rewrite (rep_dat_lookup _ _ _ _ _ _ Hr Hb). eauto.
Qed.

(** A segment and its neighbours. *)
Lemma rep_mid s xs x ys fl dat :
  rep s (xs ++ x :: ys) fl dat →
  x ≠ 0 ∧ ∃ b, ra_heap s !! x = Some b ∧ pPrevSegment b = last_or 0 xs ∧
    pNextSegment b = hd_or 0 ys.
Proof.
  intros Hr. destruct (rep_segs _ _ _ _ (rep_is_heap _ _ _ _ Hr)) as [Hd _].
  apply (dll_mid segL _ _ _ _ _ _ Hd).
Qed.

Lemma rep_nodup s segs fl dat : rep s segs fl dat → NoDup segs.
Proof. intros Hr. apply (rep_segs _ _ _ _ (rep_is_heap _ _ _ _ Hr)). Qed.

(** The rest of the state after a change of segment links. *)
Lemma rep_seg_final s s' a' segs segs' fl dat :
  rep s segs fl dat → ra_arena s' = Some a' → ra_next s' = ra_next s →
  seg_upd (ra_heap s) (ra_heap s') → dlist segL (ra_heap s') segs' →
  rep_arena a' segs' fl → rep s' segs' fl dat.
Proof.
  intros [(a&Ha&Hra) Hh Hf Hn] Ha' Hn' Hu Hd Hra'. split; [by eauto| |by rewrite Hn'..].
  by eapply rep_heap_seg_upd.
Qed.

Lemma step_links s s' a a' :
  ra_arena s = Some a → ra_arena s' = Some a' → ra_os s' = ra_os s → ra_env s' = ra_env s →
  static a' = static a → pSegmentHash a' = pSegmentHash a → step 0 s s'.
Proof.
  intros Ha Ha' Ho He Hs Hh. split; [rewrite Ho; apply os_step_refl|done|..];
    rewrite Ha, Ha'; simpl; congruence.
Qed.

(** The common end of [_SegmentListInsertAfter] and [_SegmentSplit]: [bt]
    already points to its neighbours, they do not yet point to it. *)
Lemma wp_link_after {A} (k : M ra_st A) ins bt bb bb' xs ys fl dat s Q :
  rep s (xs ++ ins :: ys) fl dat → ra_heap s !! bt = Some bb → bt ∉ xs ++ ins :: ys →
  seg_of bb' = seg_of bb →
  (pPrevFree bb', pNextFree bb') = (pPrevFree bb, pNextFree bb) →
  (pPrevSegment bb', pNextSegment bb') = (ins, hd_or 0 ys) →
  (∀ s', rep s' (xs ++ ins :: bt :: ys) fl dat → step 0 s s' → ra_next s' = ra_next s →
     wp k Q s') →
  wp ((if hd_or 0 ys =? IMG_NULL then upd_arena (set_pTailSegment bt)
       else wr (hd_or 0 ys) (set_pPrevSegment bt));;
      wr ins (set_pNextSegment bt);; k) Q (set_heap (<[bt := bb']> (ra_heap s)) s).
Proof.
  intros Hr Hbb Hnin Hseg Hfree [= Hbp Hbn] HQ.
  destruct (rep_mid _ _ _ _ _ _ Hr) as (Hi0&bi&Hbi&Hprev&Hnext).
  destruct (rep_is_arena _ _ _ _ Hr) as (a&Ha&[Ra1 Ra2 Ra3]).
  assert (bt ≠ ins) as Hne by set_solver.
  pose proof (rep_dat_lookup _ _ _ _ _ _ Hr Hbb) as Hbt.
  assert (bt ≠ 0) as Hbt0 by (pose proof (rep_fresh _ _ _ _ Hr bt (mk_is_Some _ _ Hbt)); lia).
  pose proof (rep_segs _ _ _ _ (rep_is_heap _ _ _ _ Hr)) as Hdl.
  pose proof (rep_nodup _ _ _ _ Hr) as Hnd.
  replace (xs ++ ins :: ys) with ((xs ++ [ins]) ++ ys) in * by by rewrite <- (assoc_L app).
  unfold IMG_NULL.
  assert (seg_upd (ra_heap s) (<[bt := bb']> (ra_heap s))) as Hupd.
  { by apply (seg_upd_insert _ _ _ bb (λ _, bb')). }
  destruct ys as [|y ys]; ends.
  - simpl. ra_steps. apply HQ; [|by eapply step_links|done].
    eapply rep_seg_final; [done|done|done| | |].
    + ra_simpl. eapply seg_upd_insert; [done|ra_lookup|done|done].
    + ra_simpl. replace (xs ++ [ins; bt]) with ((xs ++ [ins]) ++ bt :: [])
        by by rewrite <- (assoc_L app).
      eapply dlist_insert; [done|done|set_solver| | |].
      * unfold links_at. rewrite lookup_insert_ne, lookup_insert_eq by done. simpl.
        by rewrite last_or_snoc, Hbp, Hbn.
      * rewrite last_or_snoc. ends. split; simpl; [|done]. intros _ q m. unfold links_at.
        rewrite lookup_insert_eq, Hbi. simpl. by intros [= <- _].
      * intros z Hz Hl Hh. rewrite last_snoc in Hl.
        rewrite !links_at_insert_ne by set_solver. done.
    + split; simpl; [by rewrite Ra1; destruct xs| |done].
      by rewrite last_or_app.
  - destruct (dll_mid segL _ _ (xs ++ [ins]) y ys _ (proj1 Hdl)) as (Hy0&by_&Hby&_&_).
    assert (y ≠ ins ∧ y ≠ bt) as [Hyi Hyb].
    { apply NoDup_app in Hnd as (_&Hd&_). set_solver. }
    destruct (Z.eqb_spec y 0); [done|]. ra_steps. apply HQ; [|by eapply step_links|done].
    eapply rep_seg_final; [done|done|done| | |].
    + ra_simpl. eapply seg_upd_insert; [eapply seg_upd_insert; [done|ra_lookup|done|done]
        |ra_lookup|done|done].
    + ra_simpl. replace (xs ++ ins :: bt :: y :: ys) with ((xs ++ [ins]) ++ bt :: y :: ys)
        by by rewrite <- (assoc_L app).
      eapply dlist_insert; [done|done|set_solver| | |].
      * unfold links_at. rewrite !lookup_insert_ne, lookup_insert_eq by done. simpl.
        by rewrite last_or_snoc, Hbp, Hbn.
      * rewrite last_or_snoc. ends. split; simpl; intros _ q m; unfold links_at.
        -- rewrite lookup_insert_eq, Hbi. simpl. by intros [= <- _].
        -- rewrite lookup_insert_ne, lookup_insert_eq, Hby by done. simpl. by intros [= _ <-].
      * intros z Hz Hl Hh. rewrite last_snoc in Hl. simpl in Hh.
        rewrite !links_at_insert_ne by set_solver. done.
    + split; simpl; [by rewrite Ra1; destruct xs| |done].
      rewrite Ra2, !last_or_app, !last_or_cons. done.
Qed.

Lemma set_heap_set_heap h1 h2 s : set_heap h1 (set_heap h2 s) = set_heap h1 s.
Proof. done. Qed.

Lemma wp_SegmentListInsertAfter ins bt xs ys fl dat s Q :
  rep s (xs ++ ins :: ys) fl dat → is_Some (dat !! bt) → bt ∉ xs ++ ins :: ys →
  (∀ s', rep s' (xs ++ ins :: bt :: ys) fl dat → step 0 s s' → ra_next s' = ra_next s →
     Q PVRSRV_OK s') →
  wp (_SegmentListInsertAfter ins bt) Q s.
Proof.
  intros Hr [sg Hbt] Hnin HQ.
  destruct (rep_mid _ _ _ _ _ _ Hr) as (Hi0&bi&Hbi&Hprev&Hnext).
  destruct (rep_lookup _ _ _ _ _ _ Hr Hbt) as (bb&Hbb&_).
  destruct (rep_is_arena _ _ _ _ Hr) as (a&Ha&_).
  assert (bt ≠ ins) as Hne by set_solver.
  unfold _SegmentListInsertAfter. ra_step. ra_step. unfold IMG_NULL.
  destruct (Z.eqb_spec ins 0); [done|]. cbn [orb].
  do 8 ra_step. rewrite set_heap_set_heap. cbn [ra_heap set_heap]. rewrite insert_insert_eq, Hnext.
  eapply wp_link_after; [done..|by simpl|].
  intros s' Hr' Hs' Hn'. wp_steps. by apply HQ.
Qed.

Lemma rep_length s segs fl dat : rep s segs fl dat → (length segs ≤ size (ra_heap s))%nat.
Proof.
  intros Hr. apply NoDup_keys_length; [by eapply rep_nodup|].
  intros x Hx. eapply dlist_in; [|done]. apply Hr.
Qed.

(** [b] is the base of tag [p]. *)
Definition base_is (dat : gmap Z seg) (p b : Z) : Prop := s_base <$> dat !! p = Some b.

Lemma base_is_heap s segs fl dat p b :
  rep s segs fl dat → ra_heap s !! p = Some b → base_is dat p (base b).
Proof. intros Hr Hb. unfold base_is. by rewrite (rep_dat_lookup _ _ _ _ _ _ Hr Hb). Qed.

(** Where a tag with base [bb] goes: after the last tag not above it. *)
Definition insert_split (dat : gmap Z seg) (bb : Z) (xs ys : list Z) : Prop :=
  (∀ x b, x ∈ xs → base_is dat x b → b ≤ bb) ∧
  (∀ y b, head ys = Some y → base_is dat y b → bb < b).

(** The scan stops right before the first tag above [bb] after [scan]; the
    tags it passes are not above [bb]. *)
Lemma wp_insert_scan fuel bb xs scan ys fl dat s Q :
  rep s (xs ++ scan :: ys) fl dat → (length ys < fuel)%nat →
  (∀ xs1 scan' ys', scan :: ys = xs1 ++ scan' :: ys' →
     (∀ x b, x ∈ tail (xs1 ++ [scan']) → base_is dat x b → b ≤ bb) →
     (∀ y b, head ys' = Some y → base_is dat y b → bb < b) → Q scan' s) →
  wp (insert_scan fuel bb scan) Q s.
Proof.
  revert xs scan ys Q. induction fuel as [|fuel IH]; intros xs scan ys Q Hr Hf HQ; [lia|].
  destruct (rep_mid _ _ _ _ _ _ Hr) as (Hi0&bi&Hbi&Hprev&Hnext).
  simpl. ra_steps. rewrite Hnext. unfold IMG_NULL. destruct ys as [|y ys]; ends.
  - apply (HQ [] scan []); [done|set_solver|done].
  - assert (rep s ((xs ++ [scan]) ++ y :: ys) fl dat) as Hr' by by rewrite <- (assoc_L app).
    destruct (rep_mid _ _ _ _ _ _ Hr') as (Hy0&b&Hb&_). destruct (Z.eqb_spec y 0); [done|].
    pose proof (base_is_heap _ _ _ _ _ _ Hr Hb) as Hbase.
    ra_steps. destruct (Z.geb_spec bb (base b)) as [Hge|Hlt].
    + eapply IH; [done|simpl in *; lia|]. intros xs1 scan' ys' Heq H1 H2.
      apply (HQ (scan :: xs1) scan' ys'); [by rewrite Heq| |done].
      intros x b' Hx Hb'. destruct xs1 as [|z xs1]; simplify_eq/=.
      * apply list_elem_of_singleton in Hx as ->. unfold base_is in *. simplify_eq. lia.
      * apply elem_of_cons in Hx as [->|Hx]; [unfold base_is in *; simplify_eq; lia|].
        by eapply H1.
    + apply (HQ [] scan (y :: ys)); [done|set_solver|].
      intros ? ? [= <-] ?. unfold base_is in *. simplify_eq. lia.
Qed.

Lemma wp_SegmentListInsert bt bb segs fl dat s Q :
  rep s segs fl dat → base_is dat bt bb → bt ∉ segs →
  (∀ s' xs ys, segs = xs ++ ys → insert_split dat bb xs ys →
     rep s' (xs ++ bt :: ys) fl dat → step 0 s s' → ra_next s' = ra_next s →
     Q PVRSRV_OK s') →
  wp (_SegmentListInsert bt) Q s.
Proof.
  intros Hr Hbase Hnin HQ. destruct (rep_is_arena _ _ _ _ Hr) as (a&Ha&[Ra1 Ra2 Ra3]).
  unfold base_is in Hbase. apply fmap_Some in Hbase as (sg&Hbt&->).
  destruct (rep_lookup _ _ _ _ _ _ Hr Hbt) as (b&Hb&<-).
  assert (bt ≠ 0) as Hbt0 by (pose proof (rep_fresh _ _ _ _ Hr bt (mk_is_Some _ _ Hbt)); lia).
  unfold _SegmentListInsert. ra_steps. rewrite Ra1. unfold IMG_NULL.
  destruct segs as [|x segs]; ends.
  - simpl. ra_steps. apply (HQ _ [] []); [done|split; set_solver| |by eapply step_links|done].
    eapply rep_seg_final; [done|done|done| | |].
    + ra_simpl. repeat (eapply seg_upd_insert; [|ra_lookup|done|done]). apply seg_upd_refl.
    + ra_simpl. apply (dlist_insert segL (ra_heap s) _ [] []); [apply Hr|done|set_solver| |done|].
      * by rewrite links_at_insert.
      * intros y. set_solver.
    + by split.
  - destruct (rep_mid _ [] _ _ _ _ Hr) as (Hx0&bx&Hbx&_).
    destruct (Z.eqb_spec x 0); [done|]. assert (bt ≠ x) as Hne by set_solver.
    pose proof (base_is_heap _ _ _ _ _ _ Hr Hbx) as Hbase.
    ra_steps. destruct (Z.ltb_spec (base b) (base bx)) as [Hlt|Hge].
    + ra_steps. apply (HQ _ [] (x :: segs)); [done| | |by eapply step_links|done].
      { split; [set_solver|]. intros ? ? [= <-] ?. unfold base_is in *. simplify_eq/=. lia. }
      eapply rep_seg_final; [done|done|done| | |].
      * ra_simpl. repeat (eapply seg_upd_insert; [|ra_lookup|done|done]). apply seg_upd_refl.
      * ra_simpl. apply (dlist_insert segL (ra_heap s) _ [] (x :: segs));
          [apply Hr|done|set_solver| | |].
        -- by rewrite links_at_insert.
        -- split; ends; [done|]. intros _ q m. unfold links_at.
           rewrite lookup_insert_ne, lookup_insert_eq, Hbx by done. simpl. by intros [= _ <-].
        -- intros z Hz _ Hh. simpl in Hh. rewrite !links_at_insert_ne by set_solver. done.
      * split; simpl; [done| |done]. by rewrite Ra2, !last_or_cons.
    + ra_steps. eapply (wp_insert_scan _ _ []); [done| |].
      { pose proof (rep_length _ _ _ _ Hr). simpl in *. lia. }
      intros xs scan ys Heq H1 H2. rewrite Heq in *.
      eapply wp_SegmentListInsertAfter; [done|by eauto|done|].
      intros s' Hr' Hst Hn. apply (HQ s' (xs ++ [scan]) ys); [by rewrite <- (assoc_L app)| | |done..].
      * split; [|done]. intros z bz Hz Hbz. destruct xs as [|w xs]; simplify_eq/=.
        -- apply list_elem_of_singleton in Hz as ->. unfold base_is in *. simplify_eq/=. lia.
        -- apply elem_of_cons in Hz as [->|Hz]; [|by eapply H1].
           unfold base_is in *. simplify_eq/=. lia.
      * by rewrite <- (assoc_L app).
Qed.

Lemma wp_SegmentListRemove bt xs ys fl dat s Q :
  rep s (xs ++ bt :: ys) fl dat →
  (∀ s', rep s' (xs ++ ys) fl dat → step 0 s s' → ra_next s' = ra_next s → Q tt s') →
  wp (_SegmentListRemove bt) Q s.
Proof.
  intros Hr HQ. destruct (rep_is_arena _ _ _ _ Hr) as (a&Ha&[Ra1 Ra2 Ra3]).
  destruct (rep_mid _ _ _ _ _ _ Hr) as (Hbt0&b&Hb&Hprev&Hnext).
  pose proof (rep_segs _ _ _ _ (rep_is_heap _ _ _ _ Hr)) as Hdl.
  pose proof (rep_nodup _ _ _ _ Hr) as (Hnd1&Hnd2&Hnd3)%NoDup_app.
  apply NoDup_cons in Hnd3 as [Hnd3 Hnd4].
  unfold _SegmentListRemove. ra_steps. unfold IMG_NULL. rewrite Hprev, Hnext.
  destruct xs as [|x xs _] using rev_ind; [|rewrite last_or_snoc in *]; ends; simpl.
  - destruct ys as [|y ys]; ends; simpl.
    + ra_steps. apply HQ; [|by eapply step_links|done].
      eapply rep_seg_final; [done|done|done|done| |by split]. simpl. by split; [|constructor].
    + destruct (rep_mid _ [bt] _ _ _ _ Hr) as (Hy0&by_&Hby&_).
      destruct (Z.eqb_spec y 0); [done|]. ra_steps. apply HQ; [|by eapply step_links|done].
      eapply rep_seg_final; [done|done|done| | |].
      * ra_simpl. repeat (eapply seg_upd_insert; [|ra_lookup|done|done]). apply seg_upd_refl.
      * ra_simpl. apply (dlist_remove segL (ra_heap s) _ [] (y :: ys) bt); [done| |].
        -- split; ends; [done|]. intros _ q m. unfold links_at.
           rewrite lookup_insert_eq, Hby. simpl. by intros [= _ <-].
        -- intros z Hz _ Hh. simpl in Hh. by rewrite links_at_insert_ne by congruence.
      * split; simpl; [done| |done]. rewrite Ra2. cbn [app]. by rewrite !last_or_cons.
  - rewrite <- (assoc_L app) in Hr.
    destruct (rep_mid _ _ _ _ _ _ Hr) as (Hx0&bx&Hbx&_).
    destruct (Z.eqb_spec x 0); [done|]. ra_steps. destruct ys as [|y ys]; ends; simpl.
    + ra_steps. apply HQ; [|by eapply step_links|done]. rewrite app_nil_r.
      eapply rep_seg_final; [done|done|done| | |].
      * ra_simpl. repeat (eapply seg_upd_insert; [|ra_lookup|done|done]). apply seg_upd_refl.
      * ra_simpl. rewrite <- (app_nil_r (xs ++ [x])).
        apply (dlist_remove segL (ra_heap s) _ (xs ++ [x]) [] bt); [done| |].
        -- rewrite last_or_snoc. split; ends; [|done]. intros _ q m. unfold links_at.
           rewrite lookup_insert_eq, Hbx. simpl. by intros [= <- _].
        -- intros z Hz Hl _. rewrite last_snoc in Hl. by rewrite links_at_insert_ne by congruence.
      * split; simpl; [|by rewrite last_or_snoc|done]. rewrite Ra1. by destruct xs.
    + rewrite (assoc_L app) in Hr.
      destruct (rep_mid s ((xs ++ [x]) ++ [bt]) y ys fl dat) as (Hy0&by_&Hby&_);
        [by rewrite <- (assoc_L app)|].
      assert (y ≠ x) as Hyx by set_solver.
      destruct (Z.eqb_spec y 0); [done|]. ra_steps. apply HQ; [|by eapply step_links|done].
      eapply rep_seg_final; [done|done|done| | |].
      * ra_simpl. repeat (eapply seg_upd_insert; [|ra_lookup|done|done]). apply seg_upd_refl.
      * ra_simpl. apply (dlist_remove segL (ra_heap s) _ (xs ++ [x]) (y :: ys) bt); [done| |].
        -- rewrite last_or_snoc. split; ends; intros _ q m; unfold links_at.
           ++ rewrite lookup_insert_ne, lookup_insert_eq, Hbx by done. simpl. by intros [= <- _].
           ++ rewrite lookup_insert_eq, Hby. simpl. by intros [= _ <-].
        -- intros z Hz Hl Hh. rewrite last_snoc in Hl. simpl in Hh.
           by rewrite !links_at_insert_ne by congruence.
      * split; simpl; [|by rewrite Ra2, !last_or_app, !last_or_cons|done].
        rewrite Ra1. by destruct xs.
Qed.

(** ** Allocation, release and data of tags *)

Definition seg_zero : seg := seg_of BT_zero.

Lemma wp_with_ra_os {A} (m : M os A) Q s :
  wp m (λ x o, Q x (set_os o s)) (ra_os s) → wp (with_ra_os m) Q s.
Proof. intros. by apply wp_zoom. Qed.

Lemma rep_os s o segs fl dat : rep s segs fl dat → rep (set_os o s) segs fl dat.
Proof. intros []. by split. Qed.

Lemma step_os_change d s o : os_step d (ra_os s) o → step d s (set_os o s).
Proof. by intros ?; split. Qed.

Lemma wp_alloc_BT segs fl dat s Q :
  rep s segs fl dat →
  (∀ s', rep s' segs fl dat → step 0 s s' → ¬ plenty (ra_os s) → ra_next s' = ra_next s → Q IMG_NULL s') →
  (∀ s' p, dat !! p = None → p ≠ 0 → rep s' segs fl (<[p := seg_zero]> dat) → step 1 s s' →
     ra_next s' = ra_next s + 1 → Q p s') →
  wp alloc_BT Q s.
Proof.
  intros Hr H0 H1. unfold alloc_BT. wp_step. apply wp_with_ra_os, wp_OSAllocMem.
  intros r o Ho Hpl. pose proof (os_step_alloc _ _ _ Ho Hpl) as Hos. destruct r; simpl.
  2:{ apply wp_ret, H0; [by apply rep_os|by apply step_os_change| |done]. intros ?%Hpl. naive_solver. }
  wp_steps. simpl.
  destruct Hr as [(a&Ha&Hra) [] Hf Hn].
  assert (dat !! ra_next s = None) as Hfresh.
  { apply eq_None_not_Some. intros Hs%Hf. lia. }
  assert (ra_heap s !! ra_next s = None) as Hfresh'.
  { rewrite <- rep_dat0, lookup_fmap in Hfresh. by destruct (ra_heap s !! ra_next s). }
  assert (∀ L x, is_Some (ra_heap s !! x) →
    links_at L (<[ra_next s := BT_zero]> (ra_heap s)) x = links_at L (ra_heap s) x) as Hl.
  { intros L x [b Hb]. apply links_at_insert_ne. congruence. }
  apply H1; [done|lia| |by split|done]. split; simpl.
  - eauto.
  - split; [by rewrite fmap_insert, rep_dat0| |done| |done].
    + eapply dlist_frame; [|done]. intros x Hx. apply Hl. by eapply dlist_in.
    + intros i xs Hi. eapply dlist_frame; [|by eauto]. intros x Hx. apply Hl. eapply dlist_in; [|done]. by eauto.
  - intros p [sg Hp]. apply lookup_insert_Some in Hp as [[<- _]|[_ Hp]]; [lia|].
    pose proof (Hf p (mk_is_Some _ _ Hp)). lia.
  - lia.
Qed.

(** A write to the data of a tag. *)
Lemma wp_wr_data p f g sg segs fl dat s Q :
  rep s segs fl dat → dat !! p = Some sg →
  (∀ b, seg_of (f b) = g (seg_of b)) →
  (∀ b, (pPrevSegment (f b), pNextSegment (f b)) = (pPrevSegment b, pNextSegment b)) →
  (∀ b, (pPrevFree (f b), pNextFree (f b)) = (pPrevFree b, pNextFree b)) →
  (∀ s', rep s' segs fl (<[p := g sg]> dat) → step 0 s s' → ra_next s' = ra_next s → Q tt s') →
  wp (wr p f) Q s.
Proof.
  intros Hr Hp Hg Hl1 Hl2 HQ. destruct (rep_lookup _ _ _ _ _ _ Hr Hp) as (b&Hb&<-).
  eapply wp_wr; [done|]. apply HQ; [|split; done || apply os_step_refl|done].
  destruct Hr as [(a&Ha&Hra) [] Hf Hn]. split; simpl.
  - eauto.
  - split; [by rewrite fmap_insert, rep_dat0, Hg| |done| |done].
    + eapply dlist_frame; [|done]. intros x _. by apply links_insert.
    + intros i xs Hi. eapply dlist_frame; [|by eauto]. intros x _. by apply links_insert.
  - intros q [sg Hq]. apply Hf.
    destruct (decide (p = q)) as [<-|]; [by rewrite Hp|]. rewrite lookup_insert_ne in Hq by done. eauto.
  - done.
Qed.

Lemma wp_free_BT p segs fl dat s Q :
  rep s segs fl dat → is_Some (dat !! p) → p ∉ segs → p ∉ concat fl →
  (∀ s', rep s' segs fl (delete p dat) → step (-1) s s' → ra_next s' = ra_next s → Q tt s') →
  wp (free_BT p) Q s.
Proof.
  intros Hr [sg Hp] Hs Hfl HQ. destruct (rep_lookup _ _ _ _ _ _ Hr Hp) as (b&Hb&<-).
  unfold free_BT. ra_steps. apply wp_with_ra_os, wp_OSFreeMem. ra_steps. simpl.
  destruct Hr as [(a&Ha&Hra) [] Hf Hn].
  assert (∀ L x, x ≠ p → links_at L (delete p (ra_heap s)) x = links_at L (ra_heap s) x) as Hl.
  { intros L x Hx. unfold links_at. by rewrite lookup_delete_ne. }
  apply HQ; [|split; [apply (os_step_free 0), os_step_refl|done..]|done]. split; simpl.
  - eauto.
  - split; [by rewrite fmap_delete, rep_dat0| |done| |done].
    + eapply dlist_frame; [|done]. intros x Hx. apply Hl. set_solver.
    + intros i xs Hi. eapply dlist_frame; [|by eauto]. intros x Hx. apply Hl. intros ->.
      apply Hfl, list_elem_of_concat. eauto.
  - intros q [sg [_ Hq]%lookup_delete_Some]. eauto.
  - done.
Qed.

(** Reads of the data of a tag. *)
Lemma wp_rd_seg {A} p (f : BT → A) sg segs fl dat s Q :
  rep s segs fl dat → dat !! p = Some sg →
  (∀ b, ra_heap s !! p = Some b → seg_of b = sg → Q (f b) s) → wp (rd p f) Q s.
Proof.
  intros Hr Hp HQ. destruct (rep_lookup _ _ _ _ _ _ Hr Hp) as (b&Hb&Hsg).
  eapply wp_rd; [done|]. by apply HQ.
Qed.

Lemma rep_arena_null s segs fl dat (Q : bool → ra_st → Prop) :
  rep s segs fl dat → Q false s → wp arena_null Q s.
Proof. intros Hr. destruct (rep_is_arena _ _ _ _ Hr) as (a&Ha&_). by apply wp_arena_null with a. Qed.

(** The two halves of a split tag. *)
Definition split_lo (sg : seg) (n : Z) : seg := mkSeg (s_type sg) (s_base sg) n (s_map sg).
Definition split_hi (sg : seg) (n : Z) : seg :=
  mkSeg btt_free (u64 (s_base sg + n)) (u32 (s_size sg - n)) (s_map sg).

Lemma wp_SegmentSplit bt n sg xs ys fl dat s Q :
  rep s (xs ++ bt :: ys) fl dat → dat !! bt = Some sg →
  (∀ s', rep s' (xs ++ bt :: ys) fl dat → step 0 s s' → ¬ plenty (ra_os s) → Q IMG_NULL s') →
  (∀ s' p, dat !! p = None → p ≠ 0 →
     rep s' (xs ++ bt :: p :: ys) fl (<[bt := split_lo sg n]> (<[p := split_hi sg n]> dat)) →
     step 1 s s' → Q p s') →
  wp (_SegmentSplit bt n) Q s.
Proof.
  intros Hr Hbt H0 H1. unfold _SegmentSplit. wp_step.
  eapply rep_arena_null; [done|]. wp_step.
  eapply wp_alloc_BT; [done|..].
  { intros s' Hr' Hs' Hpl _. simpl. wp_steps. by apply H0. }
  intros s1 p Hp Hp0 Hr1 Hs1 _. unfold IMG_NULL at 1. destruct (Z.eqb_spec p 0); [done|].
  assert (bt ≠ p) as Hne by congruence.
  assert (p ∉ xs ++ bt :: ys) as Hnin.
  { intros Hin. destruct (rep_seg_in _ _ _ _ _ Hr Hin) as [_ [? ?]]. congruence. }
  destruct (rep_lookup _ _ _ _ p _ Hr1 ltac:(by rewrite lookup_insert_eq)) as (bb&Hbb&Hbs).
  destruct (rep_mid _ _ _ _ _ _ Hr1) as (Hi0&bi&Hbi&Hprev&Hnext).
  do 6 ra_step. rewrite set_heap_set_heap. cbn [ra_heap set_heap]. rewrite insert_insert_eq, Hnext.
  eapply wp_link_after; [done..|]. intros s2 Hr2 Hs2 _. wp_step.
  eapply wp_rd_seg; [done|by rewrite lookup_insert_ne|]. intros b Hb Hsg.
  wp_step. eapply (wp_wr_data p (set_type btt_free) (λ x, mkSeg btt_free (s_base x) (s_size x) (s_map x)));
    [done|ra_lookup|done..|]. intros s3 Hr3 Hs3 _.
  wp_step. eapply (wp_wr_data p (set_size (u32 (uBTSize b - n))) (λ x, mkSeg (s_type x) (s_base x) (u32 (uBTSize b - n)) (s_map x)));
    [done|ra_lookup|done..|]. intros s4 Hr4 Hs4 _.
  wp_step. eapply (wp_wr_data p (set_base (u64 (base b + n))) (λ x, mkSeg (s_type x) (u64 (base b + n)) (s_size x) (s_map x)));
    [done|ra_lookup|done..|]. intros s5 Hr5 Hs5 _.
  wp_step. eapply (wp_wr_data p (set_psMapping (psMapping b)) (λ x, mkSeg (s_type x) (s_base x) (s_size x) (psMapping b)));
    [done|ra_lookup|done..|]. intros s6 Hr6 Hs6 _.
  wp_step. eapply (wp_wr_data bt (set_size n) (λ x, mkSeg (s_type x) (s_base x) n (s_map x)));
    [done|repeat (rewrite lookup_insert_ne by done); exact Hbt|done..|]. intros s7 Hr7 Hs7 _.
  wp_steps. rewrite !insert_insert_eq in Hr7. cbn in Hr7. subst sg. apply H1; [done..|].
  eapply step_eq; [repeat (eapply step_trans; [eassumption|]); apply step_refl|lia].
Qed.

(** ** Free lists *)

(** The free list of tags of size [n]. *)
Definition bin (n : Z) : nat := Z.to_nat (Z.log2 n).

Lemma halve m : 0 ≤ m → m ≫ 1 = m / 2.
Proof. intros. by rewrite Z.shiftr_div_pow2. Qed.

Lemma log2_half m : 0 < m → 0 < m / 2 → Z.log2 m = Z.log2 (m / 2) + 1.
Proof.
  intros Hm Hh. rewrite <- halve, Z.log2_shiftr by lia.
  assert (2 ≤ m) by (apply Z.nlt_ge; intros ?; rewrite Z.div_small in Hh; lia).
  pose proof (Z.log2_le_mono 2 m). change (Z.log2 2) with 1 in *. lia.
Qed.

Lemma log2_loop_spec fuel m l :
  0 ≤ m < 2 ^ Z.of_nat fuel →
  log2_loop fuel m l = if 0 <? m then l + Z.log2 m + 1 else l.
Proof.
  revert m l. induction fuel as [|fuel IH]; intros m l Hm.
  { simpl. destruct (Z.ltb_spec 0 m); [|done]. simpl in Hm. lia. }
  cbn [log2_loop]. destruct (Z.ltb_spec 0 m); [|done].
  rewrite halve by lia. rewrite Nat2Z.inj_succ, Z.pow_succ_r in Hm by lia.
  rewrite IH by (split; [apply Z.div_pos; lia|apply Z.div_lt_upper_bound; lia]).
  destruct (Z.ltb_spec 0 (m / 2)) as [Hs|Hs].
  - rewrite (log2_half m) by lia. lia.
  - assert (m = 1) as -> by (pose proof (Z.div_mod m 2); pose proof (Z.mod_pos_bound m 2); lia).
    simpl. lia.
Qed.

Lemma pvr_log2_spec n : is_u32 n → pvr_log2 n = Z.log2 n.
Proof.
  unfold is_u32. intros Hn. unfold pvr_log2. rewrite halve by lia. rewrite log2_loop_spec.
  2:{ split; [apply Z.div_pos; lia|]. apply Z.div_lt_upper_bound; simpl; lia. }
  destruct (Z.ltb_spec 0 (n / 2)) as [Hs|Hs].
  - rewrite (log2_half n) by (destruct (decide (n = 0)) as [->|]; [done|lia]). lia.
  - assert (n = 0 ∨ n = 1) as [-> | ->]
      by (pose proof (Z.div_mod n 2); pose proof (Z.mod_pos_bound n 2); lia); done.
Qed.

Lemma bin_lt n : is_u32 n → (bin n < FREE_TABLE_LIMIT)%nat.
Proof.
  unfold is_u32, bin, FREE_TABLE_LIMIT. intros [H1 H2]. destruct (decide (n = 0)) as [->|]; [simpl; lia|].
  apply (Nat2Z.inj_lt _ 32). rewrite Z2Nat.id by apply Z.log2_nonneg.
  apply Z.log2_lt_pow2; simpl; lia.
Qed.

Lemma wp_head_free u i xs segs fl dat s Q :
  rep s segs fl dat → Z.to_nat u = i → fl !! i = Some xs → Q (hd_or 0 xs) s →
  wp (head_free u) Q s.
Proof.
  intros Hr Hu Hi HQ. destruct (rep_is_arena _ _ _ _ Hr) as (a&Ha&[_ _ Hh]).
  unfold head_free. ra_steps. rewrite Hh, list_lookup_fmap, Hu, Hi. done.
Qed.

Lemma wp_set_head_free u p i xs a (Q : unit → ra_st → Prop) s :
  ra_arena s = Some a → Z.to_nat u = i → aHeadFree a !! i = Some xs →
  Q tt (set_arena (Some (set_aHeadFree (<[i := p]> (aHeadFree a)) a)) s) →
  wp (set_head_free u p) Q s.
Proof.
  intros Ha Hu Hi HQ. unfold set_head_free, head_free. ra_steps. rewrite Hu, Hi.
  wp_step. by ra_step.
Qed.

(** A state that differs from [s] in the links of free list [i]. *)
Lemma rep_free_final s s' a' i xs xs' segs fl dat :
  rep s segs fl dat → fl !! i = Some xs → ra_arena s' = Some a' → ra_next s' = ra_next s →
  free_upd (ra_heap s) (ra_heap s') → dlist freeL (ra_heap s') xs' →
  NoDup (concat (<[i := xs']> fl)) →
  (∀ x, x ∉ xs → x ∉ xs' → links_at freeL (ra_heap s') x = links_at freeL (ra_heap s) x) →
  pHeadSegment a' = hd_or 0 segs → pTailSegment a' = last_or 0 segs →
  aHeadFree a' = <[i := hd_or 0 xs']> (hd_or 0 <$> fl) →
  rep s' segs (<[i := xs']> fl) dat.
Proof.
  intros [_ Hh Hf Hn] Hi Ha' Hn' Hu Hd Hnd Hfr H1 H2 H3. split; [| |by rewrite Hn'..].
  - exists a'. split; [done|]. split; [done..|]. by rewrite H3, list_fmap_insert.
  - eapply rep_heap_free_upd; [done..| |done|].
    + rewrite length_insert. apply Hh.
    + intros j ys Hj. destruct (decide (i = j)) as [<-|Hne].
      { rewrite list_lookup_insert_eq in Hj by (by eapply lookup_lt_Some). by simplify_eq. }
      pose proof Hj as Hj'. rewrite list_lookup_insert_ne in Hj' by done.
      eapply dlist_frame; [|by eapply Hh]. intros x Hx. apply Hfr; intros Hx'.
      * apply Hne. eapply (NoDup_concat_disjoint fl); [apply Hh|done..].
      * apply Hne. eapply (NoDup_concat_disjoint (<[i:=xs']> fl)); [done| |done..].
        apply list_lookup_insert_eq. by eapply lookup_lt_Some.
Qed.

Definition set_free (sg : seg) : seg := mkSeg btt_free (s_base sg) (s_size sg) (s_map sg).

Lemma bin_lookup s segs fl dat n :
  rep s segs fl dat → is_u32 n → ∃ xs, fl !! bin n = Some xs.
Proof.
  intros Hr Hn. apply lookup_lt_is_Some_2.
  rewrite (rep_flen _ _ _ _ (rep_is_heap _ _ _ _ Hr)). by apply bin_lt.
Qed.

Lemma wp_FreeListInsert p sg xs segs fl dat s Q :
  rep s segs fl dat → dat !! p = Some sg → is_u32 (s_size sg) → p ∉ concat fl →
  fl !! bin (s_size sg) = Some xs →
  (∀ s', rep s' segs (<[bin (s_size sg) := p :: xs]> fl) (<[p := set_free sg]> dat) →
     step 0 s s' → Q tt s') →
  wp (_FreeListInsert p) Q s.
Proof.
  intros Hr Hp Hsz Hnin Hi HQ. unfold _FreeListInsert. wp_step.
  eapply wp_rd_seg; [done..|]. intros b0 Hb0 Hsg. wp_step.
  eapply (wp_wr_data p (set_type btt_free) set_free); [done..|]. intros s1 Hr1 Hs1 _. wp_step.
  replace (uBTSize b0) with (s_size sg) by by subst.
  rewrite pvr_log2_spec by done.
  eapply wp_head_free; [done|done|exact Hi|].
  destruct (rep_is_arena _ _ _ _ Hr1) as (a&Ha&[Ra1 Ra2 Ra3]).
  destruct (rep_lookup _ _ _ _ p _ Hr1 ltac:(by rewrite lookup_insert_eq)) as (b&Hb&Hbs).
  assert (p ≠ 0) as Hp0 by (pose proof (rep_fresh _ _ _ _ Hr p (mk_is_Some _ _ Hp)); lia).
  assert (p ∉ xs) as Hnx.
  { intros Hx. apply Hnin, list_elem_of_concat. eauto. }
  assert (aHeadFree a !! bin (s_size sg) = Some (hd_or 0 xs)) as Hhd.
  { by rewrite Ra3, list_lookup_fmap, Hi. }
  pose proof (rep_fl _ _ _ _ (rep_is_heap _ _ _ _ Hr1) _ _ Hi) as Hdl.
  assert (NoDup (concat (<[bin (s_size sg):=p :: xs]> fl))) as Hnd.
  { rewrite (concat_insert_cons _ _ _ _ Hi). constructor; [done|apply Hr]. }
  assert (∀ s', step 0 s1 s' → step 0 s s') as Hst.
  { intros s' Hs'. eapply step_eq; [by eapply step_trans|done]. }
  do 4 ra_step. unfold IMG_NULL. destruct xs as [|x xs]; ends; simpl.
  - ra_step. ra_step. eapply wp_set_head_free; [ra_lookup|done|exact Hhd|].
    apply HQ; [|eapply Hst, step_links; [exact Ha|reflexivity|done..]].
    eapply rep_free_final; [exact Hr1|exact Hi|done|done| | |done| | | |].
    + ra_simpl. repeat (eapply free_upd_insert; [|ra_lookup|done|done]). apply free_upd_refl.
    + ra_simpl. apply (dlist_insert freeL (ra_heap s1) _ [] []); [done|done|set_solver| |done|].
      * by rewrite links_at_insert.
      * intros y. set_solver.
    + ra_simpl. intros y _ Hy. rewrite !links_at_insert_ne by set_solver. done.
    + done.
    + done.
    + ra_simpl. ends. by rewrite Ra3.
  - destruct (dlist_in _ _ _ x Hdl ltac:(set_solver)) as [Hx0 [bx Hbx]].
    assert (p ≠ x) as Hpx by set_solver.
    destruct (Z.eqb_spec x 0); [done|]. cbn [negb]. ra_step. ra_step.
    eapply wp_set_head_free; [ra_lookup|done|exact Hhd|].
    apply HQ; [|eapply Hst, step_links; [exact Ha|reflexivity|done..]].
    eapply rep_free_final; [exact Hr1|exact Hi|done|done| | |done| | | |].
    + ra_simpl. repeat (eapply free_upd_insert; [|ra_lookup|done|done]). apply free_upd_refl.
    + ra_simpl. apply (dlist_insert freeL (ra_heap s1) _ [] (x :: xs)); [done|done|set_solver| | |].
      * rewrite links_at_insert_ne, links_at_insert by done. done.
      * split; ends; [done|]. intros _ q m. unfold links_at.
        rewrite lookup_insert_eq, Hbx. simpl. by intros [= _ <-].
      * intros y Hy _ Hh. simpl in Hh. rewrite !links_at_insert_ne by set_solver. done.
    + ra_simpl. intros y Hy Hy'. rewrite !links_at_insert_ne by set_solver. done.
    + done.
    + done.
    + ra_simpl. ends. by rewrite Ra3.
Qed.

Lemma wp_FreeListRemove p sg xs ys segs fl dat s Q :
  rep s segs fl dat → dat !! p = Some sg → is_u32 (s_size sg) →
  fl !! bin (s_size sg) = Some (xs ++ p :: ys) →
  (∀ s', rep s' segs (<[bin (s_size sg) := xs ++ ys]> fl) dat → step 0 s s' → Q tt s') →
  wp (_FreeListRemove p) Q s.
Proof.
  intros Hr Hp Hsz Hi HQ.
  destruct (rep_is_arena _ _ _ _ Hr) as (a&Ha&[Ra1 Ra2 Ra3]).
  pose proof (rep_fl _ _ _ _ (rep_is_heap _ _ _ _ Hr) _ _ Hi) as Hdl.
  pose proof (dll_mid freeL _ _ _ _ _ _ (proj1 Hdl)) as (Hp0&b&Hb&Hprev&Hnext).
  pose proof (rep_dat_lookup _ _ _ _ _ _ Hr Hb) as Hsg. rewrite Hp in Hsg.
  injection Hsg as ->. simpl in *.
  assert (aHeadFree a !! bin (uBTSize b) = Some (hd_or 0 (xs ++ p :: ys))) as Hhd.
  { by rewrite Ra3, list_lookup_fmap, Hi. }
  assert (NoDup (concat (<[bin (uBTSize b):=xs ++ ys]> fl))) as Hnd.
  { pose proof (rep_fnd _ _ _ _ (rep_is_heap _ _ _ _ Hr)) as Hnd.
    rewrite (concat_insert_uncons _ _ _ _ _ Hi) in Hnd. by apply NoDup_cons in Hnd as [_ ?]. }
  pose proof (proj2 Hdl) as (Hnd1&Hnd2&Hnd3)%NoDup_app. apply NoDup_cons in Hnd3 as [Hnd3 Hnd4].
  unfold _FreeListRemove. ra_steps. rewrite pvr_log2_spec by done.
  rewrite Hprev, Hnext. unfold IMG_NULL.
  destruct ys as [|y ys]; ends; simpl.
  - ra_step. destruct xs as [|x xs _] using rev_ind; [|rewrite last_or_snoc in *]; ends; simpl.
    + eapply wp_set_head_free; [done|done|exact Hhd|].
      apply HQ; [|by eapply step_links].
      eapply rep_free_final; [exact Hr|exact Hi|done|done|apply free_upd_refl|by split; [|constructor]
        |done|done|done|done|]. ra_simpl. ends. by rewrite Ra3.
    + destruct (dlist_in _ _ _ x Hdl ltac:(set_solver)) as [Hx0 [bx Hbx]].
      destruct (Z.eqb_spec x 0); [done|]. ra_step.
      apply HQ; [|by eapply step_links]. rewrite app_nil_r in *.
      eapply rep_free_final; [exact Hr|exact Hi|done|done| | |done| |done|done|].
      * ra_simpl. eapply free_upd_insert; [apply free_upd_refl|ra_lookup|done|done].
      * ra_simpl. rewrite <- (app_nil_r (xs ++ [x])).
        apply (dlist_remove freeL (ra_heap s) _ (xs ++ [x]) [] p); [done| |].
        -- rewrite last_or_snoc. split; ends; [|done]. intros _ q m. unfold links_at.
           rewrite lookup_insert_eq, Hbx. simpl. by intros [= <- _].
        -- intros z Hz Hl _. rewrite last_snoc in Hl. by rewrite links_at_insert_ne by congruence.
      * ra_simpl. intros z Hz Hz'. rewrite !links_at_insert_ne by set_solver. done.
      * ra_simpl. rewrite list_insert_id; [done|]. rewrite <- Ra3, Hhd. by destruct xs.
  - destruct (dlist_in _ _ _ y Hdl ltac:(set_solver)) as [Hy0 [by_ Hby]].
    destruct (Z.eqb_spec y 0); [done|]. cbn [negb]. ra_step.
    destruct xs as [|x xs _] using rev_ind; [|rewrite last_or_snoc in *]; ends; simpl.
    + eapply wp_set_head_free; [ra_lookup|done|exact Hhd|].
      apply HQ; [|by eapply step_links].
      eapply rep_free_final; [exact Hr|exact Hi|done|done| | |done| |done|done|].
      * ra_simpl. eapply free_upd_insert; [apply free_upd_refl|ra_lookup|done|done].
      * ra_simpl. apply (dlist_remove freeL (ra_heap s) _ [] (y :: ys) p); [done| |].
        -- split; ends; [done|]. intros _ q m. unfold links_at.
           rewrite lookup_insert_eq, Hby. simpl. by intros [= _ <-].
        -- intros z Hz _ Hh. simpl in Hh. by rewrite links_at_insert_ne by congruence.
      * ra_simpl. intros z Hz Hz'. rewrite !links_at_insert_ne by set_solver. done.
      * ra_simpl. ends. by rewrite Ra3.
    + destruct (dlist_in _ _ _ x Hdl ltac:(set_solver)) as [Hx0 [bx Hbx]].
      assert (y ≠ x) as Hyx by set_solver.
      destruct (Z.eqb_spec x 0); [done|]. ra_step.
      apply HQ; [|by eapply step_links].
      eapply rep_free_final; [exact Hr|exact Hi|done|done| | |done| |done|done|].
      * ra_simpl. repeat (eapply free_upd_insert; [|ra_lookup|done|done]). apply free_upd_refl.
      * ra_simpl. apply (dlist_remove freeL (ra_heap s) _ (xs ++ [x]) (y :: ys) p); [done| |].
        -- rewrite last_or_snoc. split; ends; intros _ q m; unfold links_at.
           ++ rewrite lookup_insert_eq, Hbx. simpl. by intros [= <- _].
           ++ rewrite lookup_insert_ne, lookup_insert_eq, Hby by done. simpl. by intros [= _ <-].
        -- intros z Hz Hl Hh. rewrite last_snoc in Hl. simpl in Hh.
           by rewrite !links_at_insert_ne by congruence.
      * ra_simpl. intros z Hz Hz'. rewrite !links_at_insert_ne by set_solver. done.
      * ra_simpl. rewrite list_insert_id; [done|]. rewrite <- Ra3, Hhd. by destruct xs.
Qed.
End ops.
