(* ===== verification/RAGeo.v ===== *)
(** * The resource allocator: geometry of the segment list

    The address-ordered list of boundary tags, without pointers.  An arena is
    fed in one of two ways.  [Resource lo hi]: ranges given by [RA_Create] and
    [RA_Add], all inside the window [lo, hi), no span markers.  [Import R]:
    every range comes from the import callback and lies between a start marker
    and an end marker; [R] is the set of outstanding imports (base, to size and
    mapping).  [adj] says which tags may be neighbours, [chain] that all
    neighbours of a list are, and [seg_ok] what each tag obeys on its own. *)

From S2P Require Import Prelude RA RARep.

(** Addresses stay below this bound, so that no sum of an address, an
    alignment and a size wraps around in 64 bits. *)
Definition ADDR_MAX : Z := 18446744056529682432.

Inductive mode := Resource (lo hi : Z) | Import (R : gmap Z (Z * Z)).

Inductive kind := KStart | KEnd | KTile.
Definition kind_of (x : seg) : kind :=
  if bool_decide (s_type x = btt_span) then if s_size x =? 0 then KEnd else KStart else KTile.

Definition endof (x : seg) : Z := s_base x + s_size x.
(** Where the next tag may begin. *)
Definition after (x : seg) : Z := match kind_of x with KTile => endof x | _ => s_base x end.

(** Outstanding imports are disjoint, non-empty, below [ADDR_MAX] and each has
    its own mapping. *)
Record regions_ok (R : gmap Z (Z * Z)) : Prop := {
  reg_bounds : ∀ b n m, R !! b = Some (n, m) → 0 ≤ b ∧ 0 < n < 4294967296 ∧ b + n ≤ ADDR_MAX;
  reg_disjoint : ∀ b n m b' n' m', R !! b = Some (n, m) → R !! b' = Some (n', m') →
    b < b' → b + n ≤ b';
  reg_map : ∀ b n b' n' m, R !! b = Some (n, m) → R !! b' = Some (n', m) → b = b'
}.

Definition mode_ok (md : mode) : Prop :=
  match md with
  | Resource lo hi => 0 ≤ lo ∧ lo ≤ hi ∧ hi - lo < 4294967296 ∧ hi ≤ ADDR_MAX
  | Import R => regions_ok R
  end.

(** The range the tag belongs to. *)
Definition inside (md : mode) (x : seg) : Prop :=
  match md with
  | Resource lo hi => lo ≤ s_base x ∧ endof x ≤ hi
  | Import R => ∃ b n, R !! b = Some (n, s_map x) ∧ b ≤ s_base x ∧ endof x ≤ b + n
  end.

Definition seg_ok (md : mode) (x : seg) : Prop :=
  match kind_of x with
  | KTile => 0 < s_size x ∧ inside md x
  | KStart | KEnd => match md with Resource _ _ => False | Import _ => 0 ≤ s_size x end
  end.

Definition adj (md : mode) (l r : option seg) : Prop :=
  match md with
  | Resource _ _ =>
      match l, r with Some x, Some y => endof x ≤ s_base y | _, _ => True end
  | Import R =>
      match l, r with
      | None, None => True
      | None, Some y => kind_of y = KStart
      | Some x, None => kind_of x = KEnd
      | Some x, Some y =>
          match kind_of x, kind_of y with
          | KTile, KTile => endof x = s_base y ∧ s_map x = s_map y
          | KStart, KTile => s_base x = s_base y ∧ R !! s_base x = Some (s_size x, s_map y)
          | KTile, KEnd =>
              endof x = s_base y ∧ ∃ b n, R !! b = Some (n, s_map x) ∧ s_base y = b + n
          | KEnd, KStart => s_base x ≤ s_base y
          | _, _ => False
          end
      end
  end.

Fixpoint chain (md : mode) (l : option seg) (L : list seg) (r : option seg) : Prop :=
  match L with
  | [] => adj md l r
  | x :: L => adj md l (Some x) ∧ chain md (Some x) L r
  end.

Definition geo (md : mode) (L : list seg) : Prop :=
  chain md None L None ∧ ∀ x, x ∈ L → seg_ok md x.

(** Neighbours of a position. *)
Definition left_of (L : list seg) : option seg := last L.
Definition right_of (L : list seg) : option seg := head L.

Lemma kind_tile x : s_type x ≠ btt_span → kind_of x = KTile.
Proof. intros H. unfold kind_of. by rewrite bool_decide_eq_false_2. Qed.

Lemma kind_tile_inv x : kind_of x = KTile → s_type x ≠ btt_span.
Proof. unfold kind_of. intros H ?. rewrite bool_decide_eq_true_2 in H by done. by destruct (_ =? _). Qed.

(** ** Chains *)

Lemma chain_cons_app md l L x M r :
  chain md l (L ++ x :: M) r ↔ chain md l L (Some x) ∧ chain md (Some x) M r.
Proof.
  revert l. induction L as [|y L IH]; intros l; [done|]. simpl. rewrite IH. tauto.
Qed.

Lemma chain_one md l x r : chain md l [x] r ↔ adj md l (Some x) ∧ adj md (Some x) r.
Proof. done. Qed.

(** What the left and right contexts of a position obey. *)
Definition init_ok (md : mode) (L1 : list seg) : Prop :=
  ∀ L x, L1 = L ++ [x] → chain md None L (Some x).
Definition tail_ok (md : mode) (L2 : list seg) : Prop :=
  match L2 with [] => True | y :: L => chain md (Some y) L None end.

(** The middle of a chain depends on its two neighbours only, so it may be
    replaced by anything that fits between them. *)
Lemma chain_mid md L1 M L2 :
  chain md None (L1 ++ M ++ L2) None ↔
  init_ok md L1 ∧ chain md (last L1) M (head L2) ∧ tail_ok md L2.
Proof.
  assert (∀ l N, chain md l (N ++ L2) None ↔ chain md l N (head L2) ∧ tail_ok md L2) as Hr.
  { intros l N. destruct L2 as [|y L2]; simpl; [by rewrite app_nil_r, (right_id True and)|].
    apply chain_cons_app. }
  rewrite <- Hr. destruct L1 as [|x L1 _] using rev_ind.
  - simpl. split; [|tauto]. intros ?. split; [|done]. by intros [] ?.
  - rewrite <- (assoc_L app), last_snoc. simpl. rewrite chain_cons_app. split.
    + intros [??]. split; [|done]. by intros L z [-> [= ->]]%app_inj_2.
    + intros [Hi ?]. split; [|done]. by apply Hi.
Qed.

Lemma geo_replace md L1 M M' L2 :
  geo md (L1 ++ M ++ L2) →
  (chain md (last L1) M (head L2) → (∀ x, x ∈ M → seg_ok md x) →
   chain md (last L1) M' (head L2) ∧ ∀ x, x ∈ M' → seg_ok md x) →
  geo md (L1 ++ M' ++ L2).
Proof.
  intros [(Hi&Hc&Ht)%chain_mid Hok] HM. destruct HM as [Hc' Hok'].
  - done.
  - intros x Hx. apply Hok. set_solver.
  - split; [by apply chain_mid|]. intros x. rewrite !elem_of_app. intros [?|[?|?]].
    + apply Hok. set_solver.
    + auto.
    + apply Hok. set_solver.
Qed.

(** ** Order *)

Lemma seg_ok_size md x : seg_ok md x → 0 ≤ s_size x.
Proof. unfold seg_ok. destruct (kind_of x); [destruct md; tauto..|lia]. Qed.

Lemma after_ge md x : seg_ok md x → s_base x ≤ after x.
Proof. intros ?%seg_ok_size. unfold after, endof. destruct (kind_of x); lia. Qed.

Lemma adj_after md x y : seg_ok md x → adj md (Some x) (Some y) → after x ≤ s_base y.
Proof.
  unfold after, seg_ok, adj. destruct md as [lo hi|R].
  - destruct (kind_of x); [done|done|tauto].
  - destruct (kind_of x), (kind_of y); intros; unfold endof in *; naive_solver lia.
Qed.

Lemma chain_after md x L r y :
  chain md (Some x) L r → seg_ok md x → (∀ z, z ∈ L → seg_ok md z) → y ∈ L → after x ≤ s_base y.
Proof.
  revert x. induction L as [|z L IH]; intros x; [set_solver|]. intros [Ha Hc] Hx HL Hy.
  pose proof (adj_after _ _ _ Hx Ha). apply elem_of_cons in Hy as [->|Hy]; [done|].
  pose proof (after_ge md z ltac:(set_solver)).
  pose proof (IH z Hc ltac:(set_solver) ltac:(set_solver) Hy). lia.
Qed.

(** Everything behind a tag lies beyond it. *)
Lemma geo_after md L1 x L2 y : geo md (L1 ++ x :: L2) → y ∈ L2 → after x ≤ s_base y.
Proof.
  intros [[_ Hc]%chain_cons_app Hok] Hy. eapply chain_after; [done|..|done].
  - apply Hok. set_solver.
  - intros z Hz. apply Hok. set_solver.
Qed.

Lemma geo_before md L1 x L2 y : geo md (L1 ++ x :: L2) → y ∈ L1 → after y ≤ s_base x.
Proof.
  intros Hg (A&B&->)%list_elem_of_split. rewrite <- (assoc_L app) in Hg.
  eapply (geo_after md A y (B ++ x :: L2)); [done|set_solver].
Qed.

Lemma geo_ok md L x : geo md L → x ∈ L → seg_ok md x.
Proof. intros [_ H]. apply H. Qed.

(** ** Splitting and merging *)

Definition is_tile (x : seg) : Prop := s_type x ≠ btt_span.
Definition is_import (md : mode) : Prop := match md with Resource _ _ => False | Import _ => True end.

(** [adj] looks at a tile's kind, start or end, and mapping only. *)
Lemma adj_left md l x y :
  is_tile x → is_tile y → s_base x = s_base y → (is_import md → s_map x = s_map y) →
  adj md l (Some x) → adj md l (Some y).
Proof.
  intros Hx%kind_tile Hy%kind_tile Hb Hm. unfold adj. destruct md; destruct l as [l|]; try done.
  - by rewrite Hb.
  - specialize (Hm I). rewrite Hx, Hy. destruct (kind_of l); [by rewrite Hb, Hm| |by rewrite Hb, Hm]. done.
  - by rewrite Hx.
Qed.

Lemma adj_right md x y r :
  is_tile x → is_tile y → endof x = endof y → (is_import md → s_map x = s_map y) →
  adj md (Some x) r → adj md (Some y) r.
Proof.
  intros Hx%kind_tile Hy%kind_tile Hb Hm. unfold adj. destruct md; destruct r as [r|]; try done.
  - by rewrite Hb.
  - specialize (Hm I). rewrite Hx, Hy. destruct (kind_of r); [done| |]; by rewrite Hb, Hm.
  - by rewrite Hx.
Qed.

Lemma adj_tiles md x y :
  is_tile x → is_tile y → endof x = s_base y → s_map x = s_map y → adj md (Some x) (Some y).
Proof.
  intros Hx%kind_tile Hy%kind_tile Hb Hm. unfold adj. destruct md; [lia|]. by rewrite Hx, Hy.
Qed.

Lemma tile_ok md x : is_tile x → seg_ok md x ↔ 0 < s_size x ∧ inside md x.
Proof. intros Hx%kind_tile. unfold seg_ok. by rewrite Hx. Qed.

(** A tile of type [t'] may stand for a tile of the same range. *)
Lemma geo_retype md L1 x y L2 :
  is_tile x → is_tile y → s_base x = s_base y → s_size x = s_size y → s_map x = s_map y →
  geo md (L1 ++ x :: L2) → geo md (L1 ++ y :: L2).
Proof.
  intros Hx Hy Hb Hs Hm Hg. apply (geo_replace md L1 [x] [y] L2); [done|].
  intros [Ha1 Ha2] Hok. split; [split|].
  - by eapply (adj_left _ _ x).
  - eapply (adj_right _ x); try done. unfold endof. lia.
  - intros z ->%list_elem_of_singleton. specialize (Hok x ltac:(set_solver)).
    rewrite tile_ok in * by done. rewrite <- Hs. unfold inside, endof in *.
    rewrite <- Hb, <- Hs, <- Hm. done.
Qed.

Lemma geo_split md L1 x lo hi L2 :
  is_tile x → is_tile lo → is_tile hi →
  s_base lo = s_base x → endof lo = s_base hi → endof hi = endof x →
  s_map lo = s_map x → s_map hi = s_map x → 0 < s_size lo → 0 < s_size hi →
  geo md (L1 ++ x :: L2) → geo md (L1 ++ lo :: hi :: L2).
Proof.
  intros Hx Hl Hh Hb He Hend Hm1 Hm2 Hs1 Hs2 Hg.
  apply (geo_replace md L1 [x] [lo; hi] L2); [done|].
  intros [Ha1 Ha2] Hok. split; [split; [|split]|].
  - by eapply (adj_left _ _ x).
  - apply adj_tiles; [done..|congruence].
  - by eapply (adj_right _ x).
  - specialize (Hok x ltac:(set_solver)). rewrite tile_ok in Hok by done. destruct Hok as [Hsz Hin].
    intros z Hz. assert (is_tile z) by set_solver. rewrite tile_ok by done.
    assert (s_base x ≤ s_base z ∧ endof z ≤ endof x ∧ 0 < s_size z ∧ s_map z = s_map x) as (?&?&?&Hm).
    { unfold endof in *. repeat (apply elem_of_cons in Hz as [->|Hz]); [..|set_solver];
        (split_and!; [lia..|done]). }
    split; [done|]. unfold inside in *. destruct md; [lia|]. destruct Hin as (b&n&?&?&?).
    exists b, n. rewrite Hm. split; [done|lia].
Qed.

(** Two contiguous tiles, neighbours in the list, merge into one. *)
Lemma geo_merge md L1 x y z L2 :
  is_tile x → is_tile y → is_tile z → endof x = s_base y →
  s_base z = s_base x → endof z = endof y → (s_map z = s_map x ∨ s_map z = s_map y) →
  mode_ok md → geo md (L1 ++ x :: y :: L2) → geo md (L1 ++ z :: L2).
Proof.
  intros Hx Hy Hz He Hb Hend Hm Hmd Hg.
  apply (geo_replace md L1 [x; y] [z] L2); [done|]. intros (Ha1&Ha2&Ha3) Hok.
  pose proof (Hok x ltac:(set_solver)) as Hokx. pose proof (Hok y ltac:(set_solver)) as Hoky.
  rewrite tile_ok in Hokx, Hoky by done. destruct Hokx as [Hs1 Hin1], Hoky as [Hs2 Hin2].
  assert (is_import md → s_map x = s_map y) as Hmm.
  { unfold adj in Ha2. destruct md; [done|]. intros _.
    rewrite (kind_tile x), (kind_tile y) in Ha2 by done. tauto. }
  split; [split|].
  - eapply (adj_left _ _ x); [done|done|done| |done]. intros ?%Hmm. destruct Hm; congruence.
  - eapply (adj_right _ y); [done|done|done| |done]. intros ?%Hmm. destruct Hm; congruence.
  - intros w ->%list_elem_of_singleton. rewrite tile_ok by done.
    split; [unfold endof in *; lia|]. unfold inside in *. destruct md as [lo hi|R]; [lia|].
    specialize (Hmm I). destruct Hin1 as (b&n&HR&?&?), Hin2 as (b'&n'&HR'&?&?).
    exists b, n. replace (s_map z) with (s_map x) by (destruct Hm; congruence). split; [done|].
    rewrite <- Hmm in HR'. pose proof (reg_map _ Hmd _ _ _ _ _ HR HR') as <-. simplify_eq.
    unfold endof in *. lia.
Qed.

(** The size of a merged tile does not wrap around. *)
Lemma merge_size md L1 x y L2 :
  mode_ok md → is_tile x → is_tile y → endof x = s_base y →
  geo md (L1 ++ x :: y :: L2) → s_size x + s_size y < 4294967296.
Proof.
  intros Hmd Hx Hy He Hg.
  assert (geo md (L1 ++ mkSeg btt_free (s_base x) (s_size x + s_size y) (s_map x) :: L2)) as Hg'.
  { eapply (geo_merge md L1 x y); try done; [simpl; unfold endof in *; simpl; lia|by left]. }
  pose proof (geo_ok md _ (mkSeg btt_free (s_base x) (s_size x + s_size y) (s_map x)) Hg'
    ltac:(set_solver)) as Hok.
  apply tile_ok in Hok as [_ Hin]; [|done]. unfold inside, endof in Hin. simpl in Hin.
  destruct md as [lo hi|R]; simpl in Hmd; [lia|].
  destruct Hin as (b&n&HR&?&?). pose proof (reg_bounds _ Hmd _ _ _ HR). lia.
Qed.

(** Every tile is a proper range of 64-bit addresses of 32-bit size. *)
Lemma tile_bounds md L x :
  mode_ok md → geo md L → x ∈ L → is_tile x →
  0 ≤ s_base x ∧ 0 < s_size x < 4294967296 ∧ endof x ≤ ADDR_MAX.
Proof.
  intros Hmd Hg Hx Ht. pose proof (geo_ok _ _ _ Hg Hx) as Hok.
  apply tile_ok in Hok as [Hs Hin]; [|done]. unfold inside, endof in *.
  destruct md as [lo hi|R]; simpl in Hmd; [lia|].
  destruct Hin as (b&n&HR&?&?). pose proof (reg_bounds _ Hmd _ _ _ HR). lia.
Qed.

(** ** Growing and shrinking *)

(** [insert_split] on tags: everything before is not above [b], what follows is. *)
Definition splits_at (b : Z) (L1 L2 : list seg) : Prop :=
  (∀ x, x ∈ L1 → s_base x ≤ b) ∧ (∀ y, head L2 = Some y → b < s_base y).

(** A range [b, b + n) that touches no tile. *)
Definition disjoint_from (L : list seg) (b n : Z) : Prop :=
  ∀ x, x ∈ L → is_tile x → endof x ≤ b ∨ b + n ≤ s_base x.

Lemma geo_insert_resource lo hi L1 L2 x :
  geo (Resource lo hi) (L1 ++ L2) → is_tile x → 0 < s_size x → lo ≤ s_base x → endof x ≤ hi →
  splits_at (s_base x) L1 L2 → disjoint_from (L1 ++ L2) (s_base x) (s_size x) →
  geo (Resource lo hi) (L1 ++ x :: L2).
Proof.
  intros Hg Hx Hs Hlo Hhi [Hb1 Hb2] Hdis.
  assert (∀ y, y ∈ L1 ++ L2 → is_tile y ∧ 0 < s_size y) as Hall.
  { intros y Hy. pose proof (geo_ok _ _ _ Hg Hy) as Hok. unfold seg_ok in Hok.
    destruct (kind_of y) eqn:Hk; [done|done|]. split; [by apply kind_tile_inv|tauto]. }
  apply (geo_replace _ L1 [] [x] L2); [done|]. intros _ _. split.
  - split.
    + unfold adj. destruct (last L1) as [y|] eqn:Hl; [|done].
      apply last_Some_elem_of in Hl. destruct (Hall y) as [Hy ?]; [set_solver|].
      specialize (Hb1 y Hl). destruct (Hdis y); [set_solver|done|done|]. lia.
    + simpl. destruct (head L2) as [y|] eqn:Hh; [|done]. specialize (Hb2 y eq_refl).
      apply head_Some_elem_of in Hh. destruct (Hall y) as [Hy ?]; [set_solver|].
      unfold endof in *. destruct (Hdis y); [set_solver|done|unfold endof in *; lia|done].
  - intros y ->%list_elem_of_singleton. rewrite tile_ok by done. simpl. lia.
Qed.

(** The imports may change as long as those of the tiles stay. *)
Lemma geo_import_change R R' L :
  (∀ y, y ∈ L → is_tile y → ∀ b n, R !! b = Some (n, s_map y) → R' !! b = Some (n, s_map y)) →
  geo (Import R) L → geo (Import R') L.
Proof.
  assert (∀ l r, (∀ y, l = Some y ∨ r = Some y → is_tile y →
      ∀ b n, R !! b = Some (n, s_map y) → R' !! b = Some (n, s_map y)) →
    adj (Import R) l r → adj (Import R') l r) as Hadj.
  { intros [x|] [y|] HR; simpl; try done.
    pose proof (λ H, HR x (or_introl eq_refl) (kind_tile_inv _ H)) as HRx.
    pose proof (λ H, HR y (or_intror eq_refl) (kind_tile_inv _ H)) as HRy.
    destruct (kind_of x), (kind_of y); naive_solver. }
  intros HR [Hc Hok]. split.
  - assert (∀ M l, (∀ y, l = Some y ∨ y ∈ M → is_tile y →
      ∀ b n, R !! b = Some (n, s_map y) → R' !! b = Some (n, s_map y)) →
      chain (Import R) l M None → chain (Import R') l M None) as Hch.
    { induction M as [|x M IH]; intros l HM; cbn [chain].
      - apply Hadj. intros y [->|[=]]. apply HM. by left.
      - intros [Ha Hc']. split.
        + apply Hadj; [|done]. intros y Hy. apply HM. set_solver.
        + apply IH; [|done]. intros y Hy. apply HM. set_solver. }
    apply Hch; [|done]. intros y [[=]|?]. by apply HR.
  - intros x Hx. pose proof (Hok x Hx) as Hk. unfold seg_ok, inside in *.
    destruct (kind_of x) eqn:Hkx; [done|done|].
    destruct Hk as (?&b&n&?&?). split; [done|]. exists b, n. split; [|done].
    apply HR; [done| |done]. by apply kind_tile_inv.
Qed.

Lemma geo_insert_span R b n m st x en L1 L2 :
  geo (Import R) (L1 ++ L2) → R !! b = None → regions_ok (<[b := (n, m)]> R) →
  splits_at b L1 L2 →
  st = mkSeg btt_span b n 0 → en = mkSeg btt_span (b + n) 0 0 →
  is_tile x → s_base x = b → s_size x = n → s_map x = m →
  geo (Import (<[b := (n, m)]> R)) (L1 ++ st :: x :: en :: L2).
Proof.
  intros Hg Hnew Hreg [Hb1 Hb2] Hst Hen Hx Hxb Hxs Hxm.
  assert (∀ b' v, R !! b' = Some v → <[b := (n, m)]> R !! b' = Some v) as HR.
  { intros b' v Hv. rewrite lookup_insert_ne; [done|congruence]. }
  destruct (reg_bounds _ Hreg b n m) as (Hb0&Hn&Hmax); [by rewrite lookup_insert_eq|].
  assert (kind_of st = KStart) as Hks.
  { subst st. unfold kind_of. simpl. by destruct (Z.eqb_spec n 0); [lia|]. }
  assert (kind_of en = KEnd) as Hke by by subst en.
  pose proof (kind_tile _ Hx) as Hkx.
  assert (geo (Import (<[b := (n, m)]> R)) (L1 ++ [] ++ L2)) as Hg'.
  { eapply geo_import_change; [|exact Hg]. intros; by apply HR. }
  assert (adj (Import R) (last L1) (head L2)) as Ha.
  { destruct Hg as [Hc _]. apply (chain_mid _ L1 [] L2) in Hc as (_&Hc&_). exact Hc. }
  assert (tail_ok (Import R) L2) as Htail.
  { destruct Hg as [Hc _]. apply (chain_mid _ L1 [] L2) in Hc. tauto. }
  assert (∀ l, last L1 = Some l → kind_of l = KEnd) as Hl.
  { intros l Hl. rewrite Hl in Ha. apply last_Some_elem_of in Hl.
    pose proof (Hb1 l Hl) as Hlb. pose proof (geo_ok _ _ l Hg ltac:(set_solver)) as Hlok.
    unfold seg_ok, inside in Hlok. simpl in Ha. destruct (kind_of l) eqn:Hkl; [|done|].
    - destruct (head L2) as [r|]; [|done]. specialize (Hb2 r eq_refl). destruct (kind_of r); [done|done|lia].
    - destruct Hlok as (?&rb&rn&Hrb&?&?).
      assert (rb ≠ b) by congruence.
      pose proof (reg_disjoint _ Hreg rb rn (s_map l) b n m ltac:(by apply HR)
        ltac:(by rewrite lookup_insert_eq)).
      destruct (head L2) as [r|]; [|done]. specialize (Hb2 r eq_refl).
      unfold endof in *. destruct (kind_of r); [done|lia|lia]. }
  assert (∀ r, head L2 = Some r → kind_of r = KStart ∧ b + n ≤ s_base r) as Hr.
  { intros r Hr. assert (kind_of r = KStart) as Hkr.
    { rewrite Hr in Ha. destruct (last L1) as [l|]; [|done]. specialize (Hl l eq_refl).
      simpl in Ha. rewrite Hl in Ha. by destruct (kind_of r). }
    split; [done|]. specialize (Hb2 r Hr). destruct L2 as [|? [|t L2]]; simplify_eq/=.
    - rewrite Htail in Hkr. done.
    - destruct Htail as [Ht _]. rewrite Hkr in Ht. destruct (kind_of t); [done|done|].
      destruct Ht as [_ Ht]. eapply (reg_disjoint _ Hreg); [by rewrite lookup_insert_eq|by apply HR|done]. }
  apply (geo_replace _ L1 [] [st; x; en] L2); [exact Hg'|]. intros _ _. split.
  - split; [|split; [|split]].
    + destruct (last L1) as [l|] eqn:Hll; [|done]. simpl. rewrite (Hl l), Hks by done.
      subst st. simpl. apply Hb1, last_Some_elem_of, Hll.
    + simpl. rewrite Hks, Hkx. subst st. simpl. by rewrite lookup_insert_eq, Hxb, Hxm.
    + simpl. rewrite Hke, Hkx. subst en. unfold endof. simpl. split; [lia|].
      exists b, n. by rewrite lookup_insert_eq, Hxm.
    + destruct (head L2) as [r|] eqn:Hrr; [|done]. simpl. destruct (Hr r) as [-> ?]; [done|].
      rewrite Hke. by subst en.
  - intros z Hz. unfold seg_ok, inside.
    repeat (apply elem_of_cons in Hz as [->|Hz]); [..|set_solver].
    + rewrite Hks. subst st. simpl. lia.
    + rewrite Hkx. split; [lia|]. exists b, n. rewrite lookup_insert_eq, Hxm. unfold endof.
      split; [done|lia].
    + rewrite Hke. by subst en.
Qed.

(** A tile between a start and an end marker is a whole import. *)
Lemma span_region R st x en L1 L2 :
  regions_ok R → geo (Import R) (L1 ++ st :: x :: en :: L2) →
  kind_of st ≠ KTile → is_tile x → kind_of en ≠ KTile →
  R !! s_base x = Some (s_size x, s_map x) ∧ s_base st = s_base x ∧ s_base en = endof x.
Proof.
  intros Hreg [Hc _] Hks Hx%kind_tile Hke.
  apply (chain_mid _ L1 [st; x; en] L2) in Hc as (_&(_&Ha1&Ha2&_)&_).
  simpl in Ha1, Ha2. rewrite Hx in *.
  destruct (kind_of st); [|done|done]. destruct (kind_of en); [done| |done].
  destruct Ha1 as [Hb HR], Ha2 as (He&b&n&HR'&Hbn). rewrite Hb in HR.
  pose proof (reg_map _ Hreg _ _ _ _ _ HR HR') as <-. simplify_eq.
  split_and!; [|done|done]. rewrite HR. unfold endof in He. f_equal. f_equal. lia.
Qed.

(** No other tile shares the mapping of a whole import. *)
Lemma span_other R st x en L1 L2 y :
  regions_ok R → geo (Import R) (L1 ++ st :: x :: en :: L2) →
  kind_of st ≠ KTile → is_tile x → kind_of en ≠ KTile →
  y ∈ L1 ++ L2 → is_tile y → s_map y ≠ s_map x.
Proof.
  intros Hreg Hg Hks Hx Hke Hy Hty Hm.
  destruct (span_region _ _ _ _ _ _ Hreg Hg Hks Hx Hke) as (HR&Hb&He).
  pose proof (geo_ok _ _ x Hg ltac:(set_solver)) as [Hxs _]%tile_ok; [|done].
  pose proof (geo_ok _ _ y Hg ltac:(set_solver)) as [Hys (b&n&HRy&Hb1&Hb2)]%tile_ok; [|done].
  rewrite Hm in HRy. pose proof (reg_map _ Hreg _ _ _ _ _ HR HRy) as <-. simplify_eq.
  apply elem_of_app in Hy as [Hy|Hy].
  - pose proof (geo_before _ _ _ _ _ Hg Hy) as Hlt. unfold after in Hlt.
    rewrite (kind_tile y) in Hlt by done. unfold endof in *. lia.
  - replace (L1 ++ st :: x :: en :: L2) with ((L1 ++ [st; x]) ++ en :: L2) in Hg
      by by rewrite <- (assoc_L app).
    pose proof (geo_after _ _ _ _ _ Hg Hy) as Hgt. unfold after in Hgt.
    destruct (kind_of en); [|..]; unfold endof in *; done || lia.
Qed.

Lemma geo_remove_span R st x en L1 L2 :
  regions_ok R → geo (Import R) (L1 ++ st :: x :: en :: L2) →
  kind_of st ≠ KTile → is_tile x → kind_of en ≠ KTile →
  geo (Import (delete (s_base x) R)) (L1 ++ L2).
Proof.
  intros Hreg Hg Hks Hx Hke.
  destruct (span_region _ _ _ _ _ _ Hreg Hg Hks Hx Hke) as (HR&Hb&He).
  pose proof (geo_ok _ _ x Hg ltac:(set_solver)) as [Hxs _]%tile_ok; [|done].
  assert (geo (Import R) (L1 ++ [] ++ L2)) as Hg'.
  { apply (geo_replace _ L1 [st; x; en] [] L2); [done|]. intros (Ha1&Ha2&Ha3&Ha4) _. split; [|set_solver].
    simpl in *. rewrite (kind_tile x) in * by done.
    destruct (kind_of st) eqn:?, (kind_of en) eqn:?; try done.
    destruct (last L1) as [l|], (head L2) as [r|]; simpl in *; try done.
    - destruct (kind_of l); try done. destruct (kind_of r); try done.
      unfold endof in *. lia.
    - by destruct (kind_of l).
    - by destruct (kind_of r). }
  eapply geo_import_change; [|exact Hg']. intros y Hy Hty b n HRy.
  rewrite lookup_delete_ne; [done|]. intros <-. simplify_eq.
  by eapply (span_other R st x en L1 L2 y).
Qed.

Lemma regions_ok_delete R b : regions_ok R → regions_ok (delete b R).
Proof.
  intros [H1 H2 H3]. split.
  - intros b' n m [_ ?]%lookup_delete_Some. eauto.
  - intros b1 n1 m1 b2 n2 m2 [_ ?]%lookup_delete_Some [_ ?]%lookup_delete_Some. eauto.
  - intros b1 n1 b2 n2 m [_ ?]%lookup_delete_Some [_ ?]%lookup_delete_Some. eauto.
Qed.
