(* ===== verification/RAInv.v ===== *)
(** * The resource allocator: invariant and the steps that keep it

    [inv X md k s segs fl dat hm]: the arena of [s] is well formed, the tags in
    [X] being in the hands of the running operation (in no free list and not in
    the hash table).  [segs], [fl] and [dat] are those of RARep, [md] is the
    mode of RAGeo, [hm] is the map the hash table represents, and [k] counts the
    kernel blocks that are neither tags nor hash buckets. *)

From S2P Require Import Prelude Hash DList RA RARep RAGeo.

(** ** The tags of a list of pointers *)

Definition tags (dat : gmap Z seg) (segs : list Z) : list seg := omap (λ p, dat !! p) segs.

Lemma tags_app dat xs ys : tags dat (xs ++ ys) = tags dat xs ++ tags dat ys.
Proof. apply omap_app. Qed.

Lemma tags_cons dat p xs sg : dat !! p = Some sg → tags dat (p :: xs) = sg :: tags dat xs.
Proof. intros Hp. unfold tags. simpl. by rewrite Hp. Qed.

Lemma tags_mid dat xs p ys sg :
  dat !! p = Some sg → tags dat (xs ++ p :: ys) = tags dat xs ++ sg :: tags dat ys.
Proof. intros Hp. by rewrite tags_app, (tags_cons _ _ _ _ Hp). Qed.

Lemma tags_frame dat dat' xs :
  (∀ p, p ∈ xs → dat' !! p = dat !! p) → tags dat' xs = tags dat xs.
Proof.
  intros Hd. induction xs as [|x xs IH]; [done|].
  assert (∀ d : gmap Z seg, tags d (x :: xs) =
    match d !! x with Some y => y :: tags d xs | None => tags d xs end) as Ht by done.
  rewrite !Ht, Hd by set_solver. rewrite IH; [done|]. intros p Hp. apply Hd. set_solver.
Qed.

Lemma tags_insert dat p sg xs : p ∉ xs → tags (<[p := sg]> dat) xs = tags dat xs.
Proof. intros Hp. apply tags_frame. intros q Hq. apply lookup_insert_ne. congruence. Qed.

Lemma tags_delete dat p xs : p ∉ xs → tags (delete p dat) xs = tags dat xs.
Proof. intros Hp. apply tags_frame. intros q Hq. apply lookup_delete_ne. congruence. Qed.

Lemma tags_elem dat xs sg : sg ∈ tags dat xs ↔ ∃ p, p ∈ xs ∧ dat !! p = Some sg.
Proof. unfold tags. apply list_elem_of_omap. Qed.

Lemma tags_length dat xs : (∀ p, p ∈ xs → is_Some (dat !! p)) → length (tags dat xs) = length xs.
Proof.
  induction xs as [|x xs IH]; intros Hx; [done|].
  destruct (Hx x ltac:(set_solver)) as [sg Hsg]. rewrite (tags_cons _ _ _ _ Hsg). simpl.
  rewrite IH; [done|]. intros p Hp. apply Hx. set_solver.
Qed.

(** ** The source of imports

    What an arena relies on when it is created with an import callback: the
    callback answers a new range of at least the requested size with a mapping
    that has the requested flags, and the release callback takes back exactly
    an outstanding import. *)

Class ImportSource {E : Type} (map_flags : E → Z → option Z) := {
  regions : E → gmap Z (Z * Z);
  src_handle : Z;
  src_alloc : import_alloc_fn (E:=E);
  src_free : import_free_fn (E:=E);
  src_backing : option (backing_free_fn (E:=E));
  src_alloc_law e n fl :
    regions_ok (regions e) → 0 < n < 4294967296 →
    wp (src_alloc src_handle n fl) (λ r e',
      (∀ m, is_Some (map_flags e m) → map_flags e' m = map_flags e m) ∧
      match r with
      | None => regions e' = regions e
      | Some (n', m, b) =>
          n ≤ n' ∧ regions e !! b = None ∧ regions e' = <[b := (n', m)]> (regions e) ∧
          regions_ok (regions e') ∧ map_flags e' m = Some fl
      end) e;
  src_free_law e b n m :
    regions_ok (regions e) → regions e !! b = Some (n, m) →
    wp (src_free src_handle b m) (λ _ e',
      regions e' = delete b (regions e) ∧
      ∀ m', m' ≠ m → map_flags e' m' = map_flags e m') e
}.

(** The backing store callback may be called at any time: it returns and
    leaves the imports alone. *)
Class BackingTotal {E : Type} {map_flags : E → Z → option Z} (src : ImportSource map_flags) : Prop :=
  src_backing_law f e x y : src_backing = Some f →
    wp (f src_handle x y 0) (λ _ e',
      regions e' = regions e ∧ ∀ m, map_flags e' m = map_flags e m) e.

Section inv.
Context {E : Type} {map_flags : E → Z → option Z} {src : ImportSource map_flags}.
Implicit Types (s : ra_st (E:=E)) (a : RA_ARENA (E:=E)) (md : mode).

(** The parameters the arena was created with. *)
Definition static_ok md a : Prop :=
  0 < uQuantum a < 4294967296 ∧
  pBackingStoreFree a = src_backing ∧ pImportHandle a = src_handle ∧
  match md with
  | Resource _ _ => pImportAlloc a = _RequestAllocFail
  | Import _ => pImportAlloc a = src_alloc ∧ pImportFree a = Some src_free
  end.

Definition env_is md (e : E) : Prop :=
  match md with Resource _ _ => True | Import R => regions e = R end.

(** Everything but the tags. *)
Record side md s (hm : gmap (list Z) Z) : Prop := {
  side_hash : ∃ a h, ra_arena s = Some a ∧ pSegmentHash a = Some h ∧ word_rep h hm ∧ static_ok md a;
  side_env : env_is md (ra_env s);
  side_mode : mode_ok md
}.

(** The tags, their free lists and the hash table agree. *)
Record wf (X : list Z) md (segs : list Z) (fl : list (list Z))
    (dat : gmap Z seg) (hm : gmap (list Z) Z) : Prop := {
  w_nodup : NoDup segs;
  w_dom : ∀ p, p ∈ segs ↔ is_Some (dat !! p);
  w_free : ∀ p sg, dat !! p = Some sg → s_type sg = btt_free → p ∉ X →
    ∃ xs, fl !! bin (s_size sg) = Some xs ∧ p ∈ xs;
  w_free' : ∀ i xs p, fl !! i = Some xs → p ∈ xs →
    p ∉ X ∧ ∃ sg, dat !! p = Some sg ∧ s_type sg = btt_free ∧ bin (s_size sg) = i;
  w_live : ∀ key p, hm !! key = Some p ↔
    p ∉ X ∧ ∃ sg, dat !! p = Some sg ∧ s_type sg = btt_live ∧ key = [s_base sg];
  w_geo : geo md (tags dat segs)
}.

Record inv (X : list Z) md (k : Z) s (segs : list Z) (fl : list (list Z))
    (dat : gmap Z seg) (hm : gmap (list Z) Z) : Prop := {
  i_rep : rep s segs fl dat;
  i_wf : wf X md segs fl dat hm;
  i_maps : ∀ p sg, dat !! p = Some sg → is_tile sg →
    s_map sg = 0 ∨ is_Some (map_flags (ra_env s) (s_map sg));
  i_side : side md s hm;
  i_blocks : os_live (ra_os s) = k + Z.of_nat (length segs) + Z.of_nat (size hm)
}.

(** The arena as its users see it: its tags in address order. *)
Definition ra_rep md k s (L : list seg) : Prop :=
  ∃ segs fl dat hm, inv [] md k s segs fl dat hm ∧ L = tags dat segs.

Lemma static_ok_eq md a a' : static a' = static a → static_ok md a → static_ok md a'.
Proof. unfold static, static_ok. intros [= -> -> -> -> ->]. done. Qed.

Lemma side_step md d s s' hm : step d s s' → side md s hm → side md s' hm.
Proof.
  intros [_ He Hs Hh] [(a&h&Ha&Hah&Hw&Hst) Henv Hm]. rewrite Ha in *.
  destruct (ra_arena s') as [a'|] eqn:Ha'; [|done]. apply (inj Some) in Hs, Hh. split; [|by rewrite He|done].
  exists a', h. split_and!; [done|congruence|done|by eapply static_ok_eq].
Qed.

(** ** The lists alone *)

Lemma wf_in X md segs fl dat hm p sg : wf X md segs fl dat hm → dat !! p = Some sg → p ∈ segs.
Proof. intros Hwf Hp. apply Hwf. eauto. Qed.

Lemma wf_tag X md segs fl dat hm p sg :
  wf X md segs fl dat hm → dat !! p = Some sg → sg ∈ tags dat segs.
Proof. intros Hwf Hp. apply tags_elem. exists p. split; [by eapply wf_in|done]. Qed.

Lemma wf_not_free X md segs fl dat hm p : wf X md segs fl dat hm → p ∈ X → p ∉ concat fl.
Proof.
  intros Hwf Hp (i&xs&Hxs&Hin)%list_elem_of_concat. by destruct (w_free' _ _ _ _ _ _ Hwf _ _ _ Hxs Hin).
Qed.

Lemma wf_bounds X md segs fl dat hm p sg :
  wf X md segs fl dat hm → mode_ok md → dat !! p = Some sg → is_tile sg →
  0 ≤ s_base sg ∧ 0 < s_size sg < 4294967296 ∧ endof sg ≤ ADDR_MAX.
Proof. intros Hwf Hmd Hp Ht. eapply tile_bounds; [done|apply Hwf|by eapply wf_tag|done]. Qed.

(** Where a tag stands. *)
Lemma wf_mid X md segs fl dat hm p sg :
  wf X md segs fl dat hm → dat !! p = Some sg →
  ∃ xs ys, segs = xs ++ p :: ys ∧ p ∉ xs ∧ p ∉ ys.
Proof.
  intros Hwf Hp. pose proof (wf_in _ _ _ _ _ _ _ _ Hwf Hp) as (xs&ys&->)%list_elem_of_split.
  exists xs, ys. split; [done|]. pose proof (w_nodup _ _ _ _ _ _ Hwf) as (_&Hd&Hn)%NoDup_app.
  apply NoDup_cons in Hn as [? _]. set_solver.
Qed.

(** A tile that is not in hand. *)
Definition settled (X : list Z) (dat : gmap Z seg) (q : Z) (sg : seg) : Prop :=
  q ∉ X ∧ dat !! q = Some sg ∧ is_tile sg.

(** Any change of the list that keeps the settled tiles and the geometry. *)
Lemma wf_change X X' md md' segs segs' fl dat dat' hm :
  wf X md segs fl dat hm → NoDup segs' → (∀ q, q ∈ segs' ↔ is_Some (dat' !! q)) →
  (∀ q sg, settled X dat q sg ↔ settled X' dat' q sg) → geo md' (tags dat' segs') →
  wf X' md' segs' fl dat' hm.
Proof.
  intros Hwf Hnd Hdom Hset Hgeo.
  assert (∀ q sg t, t ≠ btt_span → (q ∉ X ∧ dat !! q = Some sg ∧ s_type sg = t) ↔
    (q ∉ X' ∧ dat' !! q = Some sg ∧ s_type sg = t)) as Hs.
  { intros q sg t Ht. specialize (Hset q sg). unfold settled, is_tile in Hset.
    split; intros (?&?&?); (destruct (decide (s_type sg = btt_span)); [congruence|tauto]). }
  split; [done|done| | | |done].
  - intros q sg Hq Ht HX. destruct (Hs q sg btt_free) as [_ Hs']; [done|].
    destruct Hs' as (?&?&?); [done|]. by eapply Hwf.
  - intros i l q Hl Hq. destruct (w_free' _ _ _ _ _ _ Hwf _ _ _ Hl Hq) as (HX&sg&?&?&?).
    destruct (Hs q sg btt_free) as [Hs' _]; [done|]. destruct Hs' as (?&?&?); [done|]. eauto.
  - intros key q. rewrite (w_live _ _ _ _ _ _ Hwf). split; intros (HX&sg&?&?&?);
      (destruct (Hs q sg btt_live) as [Hs1 Hs2]; [done|]); [destruct Hs1 as (?&?&?)|destruct Hs2 as (?&?&?)];
      eauto 6.
Qed.

(** The data of a tag in hand may change to that of another tile of the same
    range and mapping. *)
Lemma wf_retype X md segs fl dat hm p sg sg' :
  wf X md segs fl dat hm → p ∈ X → dat !! p = Some sg → is_tile sg → is_tile sg' →
  s_base sg = s_base sg' → s_size sg = s_size sg' → s_map sg = s_map sg' →
  wf X md segs fl (<[p := sg']> dat) hm.
Proof.
  intros Hwf HX Hp Ht Ht' Hb Hsz Hm.
  destruct (wf_mid _ _ _ _ _ _ _ _ Hwf Hp) as (xs&ys&->&Hx&Hy).
  eapply wf_change; [done|apply Hwf|..].
  - intros q. rewrite (w_dom _ _ _ _ _ _ Hwf), lookup_insert_is_Some.
    destruct (decide (p = q)) as [<-|]; [rewrite Hp; naive_solver|naive_solver].
  - intros q sgq. unfold settled. split; intros (HqX&Hq&?); (split; [done|]);
      rewrite lookup_insert_ne in * by congruence; done.
  - rewrite (tags_mid _ _ _ _ sg') by by rewrite lookup_insert_eq. rewrite !tags_insert by done.
    eapply (geo_retype _ _ sg); [done..|]. rewrite <- (tags_mid _ _ p) by done. apply Hwf.
Qed.

(** A free tag in hand goes to a free list. *)
Lemma wf_listed X md segs fl dat hm p sg xs :
  wf (p :: X) md segs fl dat hm → p ∉ X → dat !! p = Some sg → s_type sg = btt_free →
  fl !! bin (s_size sg) = Some xs →
  wf X md segs (<[bin (s_size sg) := p :: xs]> fl) dat hm.
Proof.
  intros Hwf HX Hp Ht Hxs.
  assert (<[bin (s_size sg) := p :: xs]> fl !! bin (s_size sg) = Some (p :: xs)) as Hnew.
  { apply list_lookup_insert_eq. by eapply lookup_lt_Some. }
  split; try by apply Hwf.
  - intros q sgq Hq Htq HqX. destruct (decide (q = p)) as [->|Hqp].
    { simplify_eq. exists (p :: xs). split; [done|set_solver]. }
    destruct (w_free _ _ _ _ _ _ Hwf _ _ Hq Htq ltac:(set_solver)) as (l&Hl&Hql).
    destruct (decide (bin (s_size sgq) = bin (s_size sg))) as [Heq|Hne].
    + rewrite Heq in *. exists (p :: xs). split; [done|]. simplify_eq. set_solver.
    + exists l. by rewrite list_lookup_insert_ne.
  - intros i l q Hl Hq. destruct (decide (q = p)) as [->|Hqp].
    + split; [done|]. exists sg. split; [done|]. split; [done|].
      destruct (decide (bin (s_size sg) = i)) as [|Hne]; [done|].
      rewrite list_lookup_insert_ne in Hl by done.
      destruct (w_free' _ _ _ _ _ _ Hwf _ _ _ Hl Hq) as [? _]. set_solver.
    + assert (∃ l', fl !! i = Some l' ∧ q ∈ l') as (l'&Hl'&Hq').
      { apply list_lookup_insert_Some in Hl as [(<-&<-&_)|[_ ?]]; [|by eauto].
        exists xs. split; [done|set_solver]. }
      destruct (w_free' _ _ _ _ _ _ Hwf _ _ _ Hl' Hq') as [? ?]. split; [set_solver|done].
  - intros key q. rewrite (w_live _ _ _ _ _ _ Hwf). split; [set_solver|].
    intros (?&sgq&Hq&Htq&->). split; [|by eauto]. rewrite not_elem_of_cons. split; [|done].
    intros ->. congruence.
Qed.

(** A listed tag comes into the hand. *)
Lemma wf_unlisted X md segs fl dat hm p sg l1 l2 :
  wf X md segs fl dat hm → NoDup (concat fl) → dat !! p = Some sg → s_type sg = btt_free →
  fl !! bin (s_size sg) = Some (l1 ++ p :: l2) →
  wf (p :: X) md segs (<[bin (s_size sg) := l1 ++ l2]> fl) dat hm.
Proof.
  intros Hwf Hfnd Hp Ht Hxs.
  assert (p ∉ concat (<[bin (s_size sg):=l1 ++ l2]> fl)) as Hout.
  { rewrite (concat_insert_uncons _ _ _ _ _ Hxs) in Hfnd. by apply NoDup_cons in Hfnd as [? _]. }
  split; try by apply Hwf.
  - intros q sgq Hq Htq HqX. destruct (w_free _ _ _ _ _ _ Hwf _ _ Hq Htq ltac:(set_solver))
      as (xs&Hxs'&Hin).
    destruct (decide (bin (s_size sgq) = bin (s_size sg))) as [Heq|Hne].
    + rewrite Heq in *. simplify_eq. exists (l1 ++ l2). split; [|set_solver].
      apply list_lookup_insert_eq. by eapply lookup_lt_Some.
    + exists xs. split; [|done]. by rewrite list_lookup_insert_ne.
  - intros i xs q Hixs Hq.
    assert (q ≠ p) as Hqp.
    { intros ->. apply Hout, list_elem_of_concat. eauto. }
    assert (∃ xs', fl !! i = Some xs' ∧ q ∈ xs') as (xs'&Hxs'&Hq').
    { apply list_lookup_insert_Some in Hixs as [(<-&<-&_)|[_ ?]]; [|by eauto].
      exists (l1 ++ p :: l2). split; [done|set_solver]. }
    destruct (w_free' _ _ _ _ _ _ Hwf _ _ _ Hxs' Hq') as [? ?]. split; [set_solver|done].
  - intros key q. rewrite (w_live _ _ _ _ _ _ Hwf). split; [|set_solver].
    intros (?&sgq&Hq&Htq&->). split; [|by eauto]. rewrite not_elem_of_cons. split; [|done].
    intros ->. congruence.
Qed.

(** A tag in hand splits in two, both in hand. *)
Lemma wf_split X md xs p q ys fl dat hm sg n :
  wf X md (xs ++ p :: ys) fl dat hm → mode_ok md → p ∈ X →
  dat !! p = Some sg → is_tile sg → dat !! q = None → 0 < n < s_size sg →
  wf (q :: X) md (xs ++ p :: q :: ys) fl
    (<[p := split_lo sg n]> (<[q := split_hi sg n]> dat)) hm.
Proof.
  intros Hwf Hmd HX Hp Ht Hq Hn.
  pose proof (w_nodup _ _ _ _ _ _ Hwf) as Hnd.
  assert (q ∉ xs ++ p :: ys) as Hqs.
  { rewrite (w_dom _ _ _ _ _ _ Hwf), Hq. by intros []. }
  pose proof (wf_bounds _ _ _ _ _ _ _ _ Hwf Hmd Hp Ht) as Hb.
  assert (p ∉ xs ∧ p ∉ ys) as [Hx Hy].
  { pose proof Hnd as (_&Hd&Hn')%NoDup_app. apply NoDup_cons in Hn' as [? _]. set_solver. }
  assert (p ≠ q) as Hpq by congruence.
  eapply wf_change; [done|..].
  - apply NoDup_app in Hnd as (Hn1&Hn2&[Hn3 Hn4]%NoDup_cons). rewrite NoDup_app, !NoDup_cons.
    set_solver.
  - intros r. pose proof (w_dom _ _ _ _ _ _ Hwf r) as Hd. rewrite !lookup_insert_is_Some.
    destruct (decide (p = r)), (decide (q = r)); set_solver.
  - intros r sgr. unfold settled. rewrite not_elem_of_cons. split.
    + intros (HrX&Hr&?). rewrite !lookup_insert_ne by congruence. split; [|done].
      split; [congruence|done].
    + intros ((?&HrX)&Hr&?). rewrite !lookup_insert_ne in Hr by congruence. done.
  - rewrite (tags_mid _ xs p _ (split_lo sg n)) by by rewrite lookup_insert_eq.
    rewrite (tags_cons _ q _ (split_hi sg n)) by (rewrite lookup_insert_ne, lookup_insert_eq; done).
    rewrite !tags_insert by set_solver.
    pose proof (w_geo _ _ _ _ _ _ Hwf) as Hg. rewrite (tags_mid _ _ p _ sg Hp) in Hg.
    unfold ADDR_MAX, endof in *.
    eapply (geo_split _ _ sg); [done|done| |done| | |done|done| | |exact Hg]; unfold split_lo, split_hi, endof;
      simpl; try done; nowrap; lia.
Qed.

(** One tag in hand takes over the range of another. *)
Lemma wf_absorb X md segs segs1 fl dat hm p q sg :
  wf (q :: X) md segs fl dat hm → segs ≡ₚ q :: segs1 → p ∈ X → q ∉ X → p ∈ segs1 →
  geo md (tags (<[p := sg]> (delete q dat)) segs1) →
  wf X md segs1 fl (<[p := sg]> (delete q dat)) hm.
Proof.
  intros Hwf Hperm HpX HqX Hp Hg. pose proof (w_nodup _ _ _ _ _ _ Hwf) as Hnd.
  rewrite Hperm in Hnd. apply NoDup_cons in Hnd as [Hq Hnd].
  eapply wf_change; [done|done| | |done].
  - intros r. pose proof (w_dom _ _ _ _ _ _ Hwf r) as Hd. rewrite Hperm, elem_of_cons in Hd.
    rewrite lookup_insert_is_Some, lookup_delete_is_Some.
    destruct (decide (p = r)) as [->|]; [naive_solver|]. destruct (decide (q = r)) as [->|]; naive_solver.
  - intros r sgr. unfold settled. rewrite not_elem_of_cons. split.
    + intros ([? ?]&Hr&?). rewrite lookup_insert_ne, lookup_delete_ne by congruence. done.
    + intros (?&Hr&?). rewrite lookup_insert_ne in Hr by congruence.
      apply lookup_delete_Some in Hr as [? ?]. split; [split; [congruence|done]|done].
Qed.

Lemma wf_merge_prev X md xs p q ys fl dat hm sx sy sg :
  wf (q :: X) md (xs ++ q :: p :: ys) fl dat hm → mode_ok md → p ∈ X → q ∉ X →
  dat !! q = Some sx → dat !! p = Some sy → is_tile sx → is_tile sy → is_tile sg →
  endof sx = s_base sy → s_base sg = s_base sx → endof sg = endof sy → s_map sg = s_map sy →
  wf X md (xs ++ p :: ys) fl (<[p := sg]> (delete q dat)) hm.
Proof.
  intros Hwf Hmd HpX HqX Hlo Hhi Hx Hy Hg He Hb Hend Hm.
  pose proof (w_nodup _ _ _ _ _ _ Hwf) as (_&Hd&[Hn1 [Hn2 _]%NoDup_cons]%NoDup_cons)%NoDup_app.
  eapply wf_absorb; [done| |done|done|set_solver|]; [solve_Permutation|].
  rewrite (tags_mid _ xs p ys sg) by by rewrite lookup_insert_eq.
  rewrite !tags_insert, !tags_delete by set_solver.
  eapply (geo_merge _ _ sx sy); [done..|by right|done|].
  rewrite <- (tags_cons _ p ys sy), <- (tags_mid _ xs q) by done. apply Hwf.
Qed.

Lemma wf_merge_next X md xs p q ys fl dat hm sx sy sg :
  wf (q :: X) md (xs ++ p :: q :: ys) fl dat hm → mode_ok md → p ∈ X → q ∉ X →
  dat !! p = Some sx → dat !! q = Some sy → is_tile sx → is_tile sy → is_tile sg →
  endof sx = s_base sy → s_base sg = s_base sx → endof sg = endof sy → s_map sg = s_map sx →
  wf X md (xs ++ p :: ys) fl (<[p := sg]> (delete q dat)) hm.
Proof.
  intros Hwf Hmd HpX HqX Hlo Hhi Hx Hy Hg He Hb Hend Hm.
  pose proof (w_nodup _ _ _ _ _ _ Hwf) as (_&Hd&[Hn1 [Hn2 _]%NoDup_cons]%NoDup_cons)%NoDup_app.
  eapply wf_absorb; [done| |done|done|set_solver|]; [solve_Permutation|].
  rewrite (tags_mid _ xs p ys sg) by by rewrite lookup_insert_eq.
  rewrite !tags_insert, !tags_delete by set_solver.
  eapply (geo_merge _ _ sx sy); [done..|by left|done|].
  rewrite <- (tags_cons _ q ys sy), <- (tags_mid _ xs p) by done. apply Hwf.
Qed.

(** ** The hash table of live tags *)

Lemma wf_base_inj X md segs fl dat hm p q sp sq :
  wf X md segs fl dat hm → dat !! p = Some sp → dat !! q = Some sq →
  is_tile sp → is_tile sq → s_base sp = s_base sq → p = q.
Proof.
  intros Hwf Hp Hq Htp Htq Hb. destruct (decide (p = q)) as [|Hne]; [done|exfalso].
  destruct (wf_mid _ _ _ _ _ _ _ _ Hwf Hp) as (xs&ys&->&_).
  pose proof (wf_in _ _ _ _ _ _ _ _ Hwf Hq) as Hin.
  pose proof (w_geo _ _ _ _ _ _ Hwf) as Hg. rewrite (tags_mid _ _ _ _ _ Hp) in Hg.
  pose proof (geo_ok _ _ sp Hg ltac:(set_solver)) as [? _]%tile_ok; [|done].
  assert (sq ∈ tags dat xs ∨ sq ∈ tags dat ys) as Hsq.
  { rewrite !tags_elem. apply elem_of_app in Hin as [?|Hin]; [eauto|].
    apply elem_of_cons in Hin as [->|?]; [done|eauto]. }
  pose proof (geo_ok _ _ sq Hg ltac:(set_solver)) as [? _]%tile_ok; [|done].
  destruct Hsq as [Hsq|Hsq].
  - pose proof (geo_before _ _ _ _ _ Hg Hsq) as Hlt. unfold after in Hlt.
    rewrite (kind_tile _ Htq) in Hlt. unfold endof in Hlt. lia.
  - pose proof (geo_after _ _ _ _ _ Hg Hsq) as Hlt. unfold after in Hlt.
    rewrite (kind_tile _ Htp) in Hlt. unfold endof in Hlt. lia.
Qed.

Lemma live_tile sg : s_type sg = btt_live → is_tile sg.
Proof. unfold is_tile. congruence. Qed.
Lemma free_tile sg : s_type sg = btt_free → is_tile sg.
Proof. unfold is_tile. congruence. Qed.

(** A live tag in hand is not in the table, and neither is its base. *)
Lemma wf_hash_fresh X md segs fl dat hm p sg :
  wf X md segs fl dat hm → p ∈ X → dat !! p = Some sg → is_tile sg → hm !! [s_base sg] = None.
Proof.
  intros Hwf HX Hp Ht. apply eq_None_not_Some. intros [q Hq].
  apply (w_live _ _ _ _ _ _ Hwf) in Hq as (HqX&sq&Hq&Htq&[= Hb]).
  apply HqX. by rewrite <- (wf_base_inj _ _ _ _ _ _ p q sg sq Hwf Hp Hq Ht (live_tile _ Htq) Hb).
Qed.

Lemma wf_hash_insert X md segs fl dat hm p sg :
  wf (p :: X) md segs fl dat hm → p ∉ X → dat !! p = Some sg → s_type sg = btt_live →
  wf X md segs fl dat (<[[s_base sg] := p]> hm).
Proof.
  intros Hwf HX Hp Ht.
  pose proof (wf_hash_fresh _ _ _ _ _ _ p sg Hwf ltac:(set_solver) Hp (live_tile _ Ht)) as Hfresh.
  split; try by apply Hwf.
  - intros q sq Hq Htq HqX. eapply Hwf; [done..|]. rewrite not_elem_of_cons. split; [congruence|done].
  - intros i l q Hl Hq. destruct (w_free' _ _ _ _ _ _ Hwf _ _ _ Hl Hq). split; [set_solver|done].
  - intros key q. rewrite lookup_insert_Some, (w_live _ _ _ _ _ _ Hwf), not_elem_of_cons. split.
    + intros [[<- <-]|(_&(?&?)&?)]; [split; [done|by eauto]|done].
    + intros (HqX&sq&Hq&Htq&->). destruct (decide (q = p)) as [->|Hne]; [left; by simplify_eq|].
      right. split; [|split; [done|by eauto]]. intros [= Hb]. apply Hne.
      eapply (wf_base_inj _ _ _ _ _ _ q p sq sg); [done|done|done|by apply live_tile|by apply live_tile|done].
Qed.

Lemma wf_hash_remove X md segs fl dat hm p sg :
  wf X md segs fl dat hm → p ∉ X → dat !! p = Some sg → s_type sg = btt_live →
  wf (p :: X) md segs fl dat (delete [s_base sg] hm).
Proof.
  intros Hwf HX Hp Ht. split; try by apply Hwf.
  - intros q sq Hq Htq HqX. eapply Hwf; [done..|set_solver].
  - intros i l q Hl Hq. destruct (w_free' _ _ _ _ _ _ Hwf _ _ _ Hl Hq) as (?&sq&?&?&?).
    split; [|by eauto]. rewrite not_elem_of_cons. split; [congruence|done].
  - intros key q. rewrite lookup_delete_Some, (w_live _ _ _ _ _ _ Hwf), not_elem_of_cons. split.
    + intros (Hne&HqX&sq&Hq&Htq&->). split; [|by eauto]. split; [|done]. intros ->. by simplify_eq.
    + intros ((Hne&HqX)&sq&Hq&Htq&->). split; [|by eauto]. intros [= Hb]. apply Hne.
      eapply (wf_base_inj _ _ _ _ _ _ q p sq sg); [done|done|done|by apply live_tile|by apply live_tile|done].
Qed.
End inv.
