(* ===== verification/RAOps.v ===== *)
(** * The resource allocator: its routines keep the invariant

    One lemma per routine of ra.c, on top of the pointer lemmas of RARep and
    the list lemmas of RAInv. *)

From S2P Require Import Prelude Hash DList RA RARep RAGeo RAInv.

Section ops.
Context {E : Type} {map_flags : E → Z → option Z} {src : ImportSource map_flags}.
Implicit Types (s : ra_st (E:=E)) (a : RA_ARENA (E:=E)) (md : mode).

(** The next state of a routine that leaves the hash table alone. *)
Lemma inv_next X X' md k d s s' segs segs' fl fl' dat dat' hm :
  inv X md k s segs fl dat hm → rep s' segs' fl' dat' → wf X' md segs' fl' dat' hm →
  step d s s' → Z.of_nat (length segs') = Z.of_nat (length segs) + d →
  (∀ p sg, dat' !! p = Some sg → is_tile sg →
     ∃ q sq, dat !! q = Some sq ∧ is_tile sq ∧ s_map sq = s_map sg) →
  inv X' md k s' segs' fl' dat' hm.
Proof.
  intros Hi Hr Hwf Hs Hlen Hm. split; [done|done| | |].
  - intros p sg Hp Ht. destruct (Hm p sg Hp Ht) as (q&sq&Hq&Htq&<-).
    rewrite (step_env _ _ _ Hs). by eapply Hi.
  - eapply side_step; [done|apply Hi].
  - destruct (step_os _ _ _ Hs) as [Hl _]. rewrite Hl, (i_blocks _ _ _ _ _ _ _ _ Hi). lia.
Qed.

Lemma map_insert (dat : gmap Z seg) p sg sg' q sq :
  dat !! p = Some sg → is_tile sg → s_map sg' = s_map sg →
  <[p := sg']> dat !! q = Some sq → is_tile sq →
  ∃ q' sq', dat !! q' = Some sq' ∧ is_tile sq' ∧ s_map sq' = s_map sq.
Proof. intros ??? [[<- <-]|[_ ?]]%lookup_insert_Some ?; eauto. Qed.

Lemma inv_bounds X md k s segs fl dat hm p sg :
  inv X md k s segs fl dat hm → dat !! p = Some sg → is_tile sg →
  0 ≤ s_base sg ∧ 0 < s_size sg < 4294967296 ∧ endof sg ≤ ADDR_MAX.
Proof. intros Hi. eapply wf_bounds; apply Hi. Qed.

Lemma inv_u32 X md k s segs fl dat hm p sg :
  inv X md k s segs fl dat hm → dat !! p = Some sg → is_tile sg → is_u32 (s_size sg).
Proof. intros Hi Hp Ht. pose proof (inv_bounds _ _ _ _ _ _ _ _ _ _ Hi Hp Ht). unfold is_u32. lia. Qed.

(** ** Free lists *)

Lemma inv_take X md k s segs fl dat hm p sg Q :
  inv X md k s segs fl dat hm → dat !! p = Some sg → s_type sg = btt_free → p ∉ X →
  (∀ s' fl', inv (p :: X) md k s' segs fl' dat hm → step 0 s s' → Q tt s') →
  wp (_FreeListRemove p) Q s.
Proof.
  intros Hi Hp Ht HX HQ.
  destruct (w_free _ _ _ _ _ _ (i_wf _ _ _ _ _ _ _ _ Hi) _ _ Hp Ht HX) as (xs&Hxs&Hin).
  apply list_elem_of_split in Hin as (l1&l2&->).
  pose proof (i_rep _ _ _ _ _ _ _ _ Hi) as Hr.
  eapply wp_FreeListRemove; [done|done|eapply inv_u32; [done..|by apply free_tile]|done|].
  intros s' Hr' Hs'. eapply HQ; [|done].
  eapply inv_next; [done|done| |done|lia|by eauto].
  eapply wf_unlisted; [apply Hi|apply Hr|done..].
Qed.

Lemma inv_put X md k s segs fl dat hm p sg Q :
  inv (p :: X) md k s segs fl dat hm → p ∉ X → dat !! p = Some sg → is_tile sg →
  (∀ s' fl', inv X md k s' segs fl' (<[p := set_free sg]> dat) hm → step 0 s s' → Q tt s') →
  wp (_FreeListInsert p) Q s.
Proof.
  intros Hi HX Hp Ht HQ.
  pose proof (inv_u32 _ _ _ _ _ _ _ _ _ _ Hi Hp Ht) as Hu.
  destruct (bin_lookup _ _ _ _ _ (i_rep _ _ _ _ _ _ _ _ Hi) Hu) as [xs Hxs].
  eapply wp_FreeListInsert; [apply Hi|done|done| |done|].
  { eapply wf_not_free; [apply Hi|set_solver]. }
  intros s' Hr' Hs'. eapply HQ; [|done].
  eapply inv_next; [done|done| |done|lia|].
  - change (s_size sg) with (s_size (set_free sg)) in *.
    eapply wf_listed; [|done|by rewrite lookup_insert_eq|done..].
    eapply wf_retype; [apply Hi|set_solver|done|done|done|done..].
  - intros q sq. by eapply map_insert.
Qed.

(** Writes to the type of a tile in hand. *)
Lemma inv_set_type X md k s segs fl dat hm p sg t Q :
  inv X md k s segs fl dat hm → p ∈ X → dat !! p = Some sg → is_tile sg → t ≠ btt_span →
  (∀ s', inv X md k s' segs fl (<[p := mkSeg t (s_base sg) (s_size sg) (s_map sg)]> dat) hm →
     step 0 s s' → Q tt s') →
  wp (wr p (set_type t)) Q s.
Proof.
  intros Hi HX Hp Ht Hty HQ.
  eapply (wp_wr_data p (set_type t) (λ x, mkSeg t (s_base x) (s_size x) (s_map x)));
    [apply Hi|done|done..|].
  intros s' Hr' Hs' _. apply HQ; [|done]. eapply inv_next; [done|done| |done|lia|].
  - eapply wf_retype; [apply Hi|done|done|done|done|done..].
  - intros q sq. by eapply map_insert.
Qed.

(** ** Splitting *)

Lemma inv_split X md k s xs p ys fl dat hm sg n Q :
  inv X md k s (xs ++ p :: ys) fl dat hm → p ∈ X → dat !! p = Some sg → is_tile sg →
  0 < n < s_size sg →
  (∀ s', inv X md k s' (xs ++ p :: ys) fl dat hm → step 0 s s' → ¬ plenty (ra_os s) →
     Q IMG_NULL s') →
  (∀ s' q, q ≠ 0 → q ≠ p → dat !! q = None →
     inv (q :: X) md k s' (xs ++ p :: q :: ys) fl
       (<[p := split_lo sg n]> (<[q := split_hi sg n]> dat)) hm →
     step 1 s s' → Q q s') →
  wp (_SegmentSplit p n) Q s.
Proof.
  intros Hi HX Hp Ht Hn H0 H1.
  eapply wp_SegmentSplit; [apply Hi|done| |].
  - intros s' Hr' Hs' Hpl. apply H0; [|done|done].
    eapply inv_next; [done|done|apply Hi|done|lia|by eauto].
  - intros s' q Hq Hq0 Hr' Hs'. apply H1; [done|congruence|done| |done].
    eapply inv_next; [done|done| |done| |].
    + eapply wf_split; [apply Hi|apply Hi|done..].
    + rewrite !length_app. simpl. lia.
    + intros r sr [[<- <-]|[_ [[<- <-]|[_ ?]]%lookup_insert_Some]]%lookup_insert_Some ?; eauto.
Qed.

(** ** Coalescing *)

Definition is_free (x : seg) : bool := bool_decide (s_type x = btt_free).

(** Merging with a contiguous free tag on the left, on the right. *)
Definition coal_prev (L1 : list seg) (x : seg) : list seg * seg :=
  match last L1 with
  | Some y =>
      if is_free y && (endof y =? s_base x)
      then (removelast L1, mkSeg (s_type x) (s_base y) (s_size x + s_size y) (s_map x))
      else (L1, x)
  | None => (L1, x)
  end.
Definition coal_next (x : seg) (L2 : list seg) : seg * list seg :=
  match L2 with
  | y :: L2' =>
      if is_free y && (endof x =? s_base y)
      then (mkSeg (s_type x) (s_base x) (s_size x + s_size y) (s_map x), L2')
      else (x, L2)
  | [] => (x, [])
  end.

Definition steps s s' : Prop := ∃ d, step d s s'.

Lemma steps_refl s : steps s s.
Proof. exists 0. apply step_refl. Qed.
Lemma steps_trans s s' s'' : steps s s' → steps s' s'' → steps s s''.
Proof. intros [d ?] [d' ?]. exists (d + d'). by eapply step_trans. Qed.
Lemma step_steps d s s' : step d s s' → steps s s'.
Proof. intros. by exists d. Qed.

Lemma inv_dat X md k s segs fl dat hm p :
  inv X md k s segs fl dat hm → p ∈ segs → ∃ sg, dat !! p = Some sg.
Proof. intros Hi Hp. by apply (w_dom _ _ _ _ _ _ (i_wf _ _ _ _ _ _ _ _ Hi)) in Hp as [sg ?]; eauto. Qed.

Lemma inv_nodup X md k s xs p ys fl dat hm :
  inv X md k s (xs ++ p :: ys) fl dat hm → p ∉ xs ∧ p ∉ ys.
Proof.
  intros Hi. pose proof (w_nodup _ _ _ _ _ _ (i_wf _ _ _ _ _ _ _ _ Hi)) as (_&Hd&Hn)%NoDup_app.
  apply NoDup_cons in Hn as [? _]. set_solver.
Qed.

Lemma inv_merge_prev md k s xs p ys fl dat hm sg Q :
  inv [p] md k s (xs ++ p :: ys) fl dat hm → dat !! p = Some sg → is_tile sg →
  (∀ s' xs' fl' dat' sg', inv [p] md k s' (xs' ++ p :: ys) fl' dat' hm → dat' !! p = Some sg' →
     is_tile sg' → (tags dat' xs', sg') = coal_prev (tags dat xs) sg →
     tags dat' ys = tags dat ys → steps s s' → Q tt s') →
  wp (merge_prev p) Q s.
Proof.
  intros Hi Hp Ht HQ. unfold merge_prev.
  destruct (rep_mid _ _ _ _ _ _ (i_rep _ _ _ _ _ _ _ _ Hi)) as (_&b&Hb&Hprev&_).
  ra_step. ra_step. rewrite Hprev. unfold IMG_NULL.
  destruct xs as [|q xs _] using rev_ind.
  { ends. simpl. wp_step. apply (HQ s [] fl dat sg); [done|done|done|done|done|apply steps_refl]. }
  rewrite last_or_snoc. rewrite <- (assoc_L app) in Hi. simpl in Hi.
  destruct (rep_mid _ _ _ _ _ _ (i_rep _ _ _ _ _ _ _ _ Hi)) as (Hq0&bq&Hbq&_).
  destruct (Z.eqb_spec q 0); [done|].
  pose proof (rep_dat_lookup _ _ _ _ _ _ (i_rep _ _ _ _ _ _ _ _ Hi) Hbq) as Hq.
  pose proof (rep_dat_lookup _ _ _ _ _ _ (i_rep _ _ _ _ _ _ _ _ Hi) Hb) as Hp'.
  rewrite Hp in Hp'. injection Hp' as ->.
  assert (tags dat (xs ++ [q]) = tags dat xs ++ [seg_of bq]) as Htx.
  { rewrite (tags_mid _ xs q [] _ Hq). done. }
  do 4 ra_step. unfold id.
  assert (coal_prev (tags dat (xs ++ [q])) (seg_of b) =
    if bool_decide (type bq = btt_free) && (u64 (base bq + uBTSize bq) =? base b)
    then (tags dat xs, mkSeg (type b) (base bq) (uBTSize b + uBTSize bq) (psMapping b))
    else (tags dat (xs ++ [q]), seg_of b)) as Hcoal.
  { unfold coal_prev. rewrite Htx, last_snoc, removelast_last. unfold is_free. simpl.
    destruct (decide (type bq = btt_free)) as [Hf|Hf];
      [rewrite !bool_decide_eq_true_2 by done|by rewrite !bool_decide_eq_false_2 by done].
    pose proof (inv_bounds _ _ _ _ _ _ _ _ _ _ Hi Hq (free_tile (seg_of bq) Hf)) as Hbd.
    unfold endof, ADDR_MAX in *. simpl in *. by nowrap. }
  destruct (_ && _) eqn:Hc.
  2:{ wp_step. eapply (HQ s (xs ++ [q])); [by rewrite <- (assoc_L app)|done..|apply steps_refl]. }
  apply andb_true_iff in Hc as [Hf%bool_decide_eq_true He%Z.eqb_eq].
  pose proof (inv_bounds _ _ _ _ _ _ _ _ _ _ Hi Hq (free_tile (seg_of bq) Hf)) as Hbd.
  pose proof (inv_nodup _ _ _ _ _ _ _ _ _ _ Hi) as [Hqx Hqy].
  assert (p ≠ q ∧ p ∉ xs ∧ p ∉ ys ∧ q ∉ ys) as (Hpq&Hpx&Hpy&Hqy').
  { replace (xs ++ q :: p :: ys) with ((xs ++ [q]) ++ p :: ys) in Hi by by rewrite <- (assoc_L app). pose proof (inv_nodup _ _ _ _ _ _ _ _ _ _ Hi).
    clear - H Hqy. set_solver. }
  unfold ADDR_MAX, endof in Hbd. simpl in Hbd. rewrite u64_small in He by (unfold is_u64; lia).
  wp_step. eapply inv_take; [done|done|done|set_solver|]. intros s1 fl1 Hi1 Hs1.
  wp_step. eapply wp_SegmentListRemove; [apply Hi1|]. intros s2 Hr2 Hs2 _.
  wp_step. eapply wp_rd_seg; [done|done|]. intros b' Hb' Hbs'.
  wp_step. eapply (wp_wr_data p (set_base (base b')) (λ x, mkSeg (s_type x) (base b') (s_size x) (s_map x)));
    [done|done|done..|]. intros s3 Hr3 Hs3 _.
  wp_step. eapply wp_rd_seg; [done|by rewrite lookup_insert_ne|]. intros b'' Hb'' Hbs''.
  injection Hbs' as Ht' Hbase' Hsz' Hm'. injection Hbs'' as Ht'' Hbase'' Hsz'' Hm''.
  rewrite Hsz''. rewrite Hbase' in Hr3.
  wp_step. eapply (wp_wr_data p _ (λ x, mkSeg (s_type x) (s_base x) (u32 (s_size x + uBTSize bq)) (s_map x)));
    [done|by rewrite lookup_insert_eq|done..|]. intros s4 Hr4 Hs4 _. rewrite insert_insert_eq in Hr4.
  simpl in Hr4.
  eapply wp_free_BT; [done| |set_solver| |].
  { rewrite lookup_insert_ne by done. eauto. }
  { eapply wf_not_free; [apply Hi1|set_solver]. }
  intros s5 Hr5 Hs5 _. rewrite delete_insert_ne in Hr5 by done.
  assert (geo md (tags dat (xs ++ q :: p :: ys))) as Hgeo by apply Hi.
  rewrite (tags_mid _ xs q _ _ Hq), (tags_cons _ p _ _ Hp) in Hgeo.
  pose proof (merge_size _ _ _ _ _ (side_mode _ _ _ (i_side _ _ _ _ _ _ _ _ Hi)) (free_tile (seg_of bq) Hf) Ht
    ltac:(unfold endof; simpl; lia) Hgeo) as Hmsz. simpl in Hmsz.
  pose proof (inv_bounds _ _ _ _ _ _ _ _ _ _ Hi Hp Ht) as Hbp. simpl in Hbp.
  rewrite u32_small in Hr5 by (unfold is_u32; lia).
  assert (steps s s5) as Hst.
  { eexists. repeat (eapply step_trans; [eassumption|]). apply step_refl. }
  eapply (HQ s5 xs _ _ (mkSeg (type b) (base bq) (uBTSize b + uBTSize bq) (psMapping b)));
    [| |exact Ht| | |done]; [|by rewrite lookup_insert_eq|..].
  - eapply (inv_next _ _ _ _ (-1) s1); [done|done| | | |].
    + eapply (wf_merge_prev _ _ xs p q ys); [apply Hi1|apply Hi|set_solver|set_solver|done|done|exact (free_tile (seg_of bq) Hf)|exact Ht|exact Ht|..];
        unfold endof; simpl; lia || done.
    + eapply step_eq; [exact (step_trans _ _ _ _ _ Hs2 (step_trans _ _ _ _ _ Hs3 (step_trans _ _ _ _ _ Hs4 Hs5)))|done].
    + rewrite !length_app. simpl. clear. lia.
    + intros r sr [[<- <-]|[_ [_ ?]%lookup_delete_Some]]%lookup_insert_Some ?; eauto.
  - by rewrite Hcoal, tags_insert, tags_delete.
  - by rewrite tags_insert, tags_delete.
Qed.

Lemma inv_merge_next md k s xs p ys fl dat hm sg Q :
  inv [p] md k s (xs ++ p :: ys) fl dat hm → dat !! p = Some sg → is_tile sg →
  (∀ s' ys' fl' dat' sg', inv [p] md k s' (xs ++ p :: ys') fl' dat' hm → dat' !! p = Some sg' →
     is_tile sg' → (sg', tags dat' ys') = coal_next sg (tags dat ys) →
     tags dat' xs = tags dat xs → steps s s' → Q tt s') →
  wp (merge_next p) Q s.
Proof.
  intros Hi Hp Ht HQ. unfold merge_next.
  destruct (rep_mid _ _ _ _ _ _ (i_rep _ _ _ _ _ _ _ _ Hi)) as (_&b&Hb&_&Hnext).
  pose proof (rep_dat_lookup _ _ _ _ _ _ (i_rep _ _ _ _ _ _ _ _ Hi) Hb) as Hp'.
  rewrite Hp in Hp'. injection Hp' as ->.
  ra_step. ra_step. rewrite Hnext. unfold IMG_NULL.
  destruct ys as [|q ys].
  { ends. simpl. wp_step. apply (HQ s [] fl dat (seg_of b)); [done|done|done|done|done|apply steps_refl]. }
  ends. pose proof Hi as Hi0.
  replace (xs ++ p :: q :: ys) with ((xs ++ [p]) ++ q :: ys) in Hi0 by by rewrite <- (assoc_L app).
  destruct (rep_mid _ _ _ _ _ _ (i_rep _ _ _ _ _ _ _ _ Hi0)) as (Hq0&bq&Hbq&_).
  destruct (Z.eqb_spec q 0); [done|].
  pose proof (rep_dat_lookup _ _ _ _ _ _ (i_rep _ _ _ _ _ _ _ _ Hi) Hbq) as Hq.
  pose proof (inv_bounds _ _ _ _ _ _ _ _ _ _ Hi Hp Ht) as Hbp. unfold ADDR_MAX, endof in Hbp. simpl in Hbp.
  do 4 ra_step. unfold id.
  assert (coal_next (seg_of b) (tags dat (q :: ys)) =
    if bool_decide (type bq = btt_free) && (u64 (base b + uBTSize b) =? base bq)
    then (mkSeg (type b) (base b) (uBTSize b + uBTSize bq) (psMapping b), tags dat ys)
    else (seg_of b, tags dat (q :: ys))) as Hcoal.
  { rewrite (tags_cons _ _ _ _ Hq). unfold coal_next, is_free, endof. simpl. by nowrap. }
  destruct (_ && _) eqn:Hc.
  2:{ wp_step. eapply (HQ s (q :: ys)); [done..|apply steps_refl]. }
  apply andb_true_iff in Hc as [Hf%bool_decide_eq_true He%Z.eqb_eq].
  pose proof (inv_nodup _ _ _ _ _ _ _ _ _ _ Hi) as [Hpx Hpy].
  pose proof (inv_nodup _ _ _ _ _ _ _ _ _ _ Hi0) as [Hqx Hqy].
  assert (p ≠ q ∧ p ∉ ys ∧ q ∉ xs) as (Hpq&Hpy'&Hqx').
  { clear - Hpy Hqx. set_solver. }
  rewrite u64_small in He by (unfold is_u64; lia).
  wp_step. eapply inv_take; [exact Hi|done|done|by rewrite list_elem_of_singleton|]. intros s1 fl1 Hi1 Hs1.
  wp_step. eapply (wp_SegmentListRemove q (xs ++ [p]) ys).
  { rewrite <- (assoc_L app). apply Hi1. }
  intros s2 Hr2 Hs2 _. rewrite <- (assoc_L app) in Hr2. simpl in Hr2.
  wp_step. eapply wp_rd_seg; [done|exact Hq|]. intros b'' Hb'' Hbs''.
  injection Hbs'' as Ht'' Hbase'' Hsz'' Hm''. rewrite Hsz''.
  wp_step. eapply (wp_wr_data p _ (λ x, mkSeg (s_type x) (s_base x) (u32 (s_size x + uBTSize bq)) (s_map x)));
    [done|done|done..|]. intros s4 Hr4 Hs4 _.
  eapply wp_free_BT; [done| | | |].
  { rewrite lookup_insert_ne by done. eauto. }
  { clear - Hqx' Hqy Hpq. set_solver. }
  { eapply wf_not_free; [apply Hi1|by left]. }
  intros s5 Hr5 Hs5 _. rewrite delete_insert_ne in Hr5 by done. simpl in Hr5.
  assert (geo md (tags dat (xs ++ p :: q :: ys))) as Hgeo by apply Hi.
  rewrite (tags_mid _ xs p _ _ Hp), (tags_cons _ q _ _ Hq) in Hgeo.
  pose proof (merge_size _ _ _ _ _ (side_mode _ _ _ (i_side _ _ _ _ _ _ _ _ Hi)) Ht (free_tile (seg_of bq) Hf)
    ltac:(unfold endof; simpl; lia) Hgeo) as Hmsz. simpl in Hmsz.
  pose proof (inv_bounds _ _ _ _ _ _ _ _ _ _ Hi Hq (free_tile (seg_of bq) Hf)) as Hbq'. simpl in Hbq'.
  rewrite u32_small in Hr5 by (unfold is_u32; lia).
  assert (steps s s5) as Hst.
  { eexists. repeat (eapply step_trans; [eassumption|]). apply step_refl. }
  eapply (HQ s5 ys _ _ (mkSeg (type b) (base b) (uBTSize b + uBTSize bq) (psMapping b)));
    [| |exact Ht| | |done]; [|by rewrite lookup_insert_eq|..].
  - eapply (inv_next _ _ _ _ (-1) s1); [done|done| | | |].
    + eapply (wf_merge_next _ _ xs p q ys); [apply Hi1|apply Hi|by left|by rewrite list_elem_of_singleton|
        done|done|exact Ht|exact (free_tile (seg_of bq) Hf)|exact Ht|..]; unfold endof; simpl; lia || done.
    + eapply step_eq; [exact (step_trans _ _ _ _ _ Hs2 (step_trans _ _ _ _ _ Hs4 Hs5))|done].
    + rewrite !length_app. simpl. clear. lia.
    + intros r sr [[<- <-]|[_ [_ ?]%lookup_delete_Some]]%lookup_insert_Some ?; eauto.
  - by rewrite Hcoal, tags_insert, tags_delete.
  - by rewrite tags_insert, tags_delete.
Qed.

(** ** Callbacks *)

(** Memory stays plentiful and the parameters of the arena the same. *)
Definition later s s' : Prop :=
  (plenty (ra_os s) → plenty (ra_os s')) ∧ static <$> ra_arena s' = static <$> ra_arena s.

(** Moreover the callbacks of an arena without imports were not called. *)
Definition no_import s : Prop := pImportFree <$> ra_arena s = Some None.
Definition calm s s' : Prop := later s s' ∧ (no_import s → ra_env s' = ra_env s).

Lemma later_refl s : later s s.
Proof. by split. Qed.
Lemma later_trans s s' s'' : later s s' → later s' s'' → later s s''.
Proof. intros [? ?] [? ?]. split; [auto|congruence]. Qed.
Lemma steps_later s s' : steps s s' → later s s'.
Proof. intros [d [[_ H] _ Hs _]]. by split. Qed.

Lemma static_quantum s s' : static <$> ra_arena s' = static <$> ra_arena s →
  uQuantum <$> ra_arena s' = uQuantum <$> ra_arena s.
Proof. intros Hs. destruct (ra_arena s), (ra_arena s'); unfold static in Hs; simpl in *; congruence. Qed.

Lemma later_no_import s s' : later s s' → no_import s → no_import s'.
Proof.
  unfold no_import. intros [_ Hs]. destruct (ra_arena s), (ra_arena s'); unfold static in Hs; simpl in *; congruence.
Qed.

Lemma calm_refl s : calm s s.
Proof. split; [apply later_refl|done]. Qed.
Lemma calm_trans s s' s'' : calm s s' → calm s' s'' → calm s s''.
Proof.
  intros [H1 E1] [H2 E2]. split; [by eapply later_trans|]. intros Hn.
  rewrite E2; [by apply E1|]. by eapply later_no_import.
Qed.
Lemma steps_calm s s' : steps s s' → calm s s'.
Proof. intros Hs. split; [by apply steps_later|]. intros _. destruct Hs as [d Hs]. apply Hs. Qed.

(** The whole quanta [x, y) that [_FreeBT] gives back of the freed range [n]
    bytes at [b]: all it covers, and what was free around it; they overlap no
    live tag of the rest [L] of the arena. *)
Record quanta (q b n : Z) (L : list seg) (x y : Z) : Prop := {
  qu_start : x mod q = 0;
  qu_end : y mod q = 0;
  qu_some : x < y;
  qu_near : b - q < x ∧ y < b + n + q;
  qu_exact : b mod q = 0 → x = b;
  qu_exact' : (b + n) mod q = 0 → y = b + n;
  qu_free : ∀ z, z ∈ L → s_type z = btt_live → endof z ≤ x ∨ y ≤ s_base z
}.

(** What a release of [n] bytes at [b] needs of the backing store callback:
    called with such quanta it returns, leaves the imports alone and brings
    about [P]; it is sure to be called when the range is made of whole
    quanta. *)
Definition backing_due (flag : bool) (q b n : Z) : Prop :=
  flag = true ∧ is_Some src_backing ∧ b mod q = 0 ∧ (b + n) mod q = 0.
Definition backing_ok (flag : bool) (q b n : Z) (L : list seg) (P : E → Prop) (e : E) : Prop :=
  (¬ backing_due flag q b n → P e) ∧ (flag = true → ∀ f x y, src_backing = Some f → quanta q b n L x y →
    wp (f src_handle (u32 x) (u32 y) 0) (λ _ e', regions e' = regions e ∧
      (∀ m, map_flags e' m = map_flags e m) ∧ P e') e).

Lemma backing_total flag q b n L e : BackingTotal src → backing_ok flag q b n L (λ _, True) e.
Proof.
  intros tot. split; [done|]. intros _ f x y Hf _. eapply wp_mono; [by apply tot|]. naive_solver.
Qed.

Lemma backing_false q b n L e : backing_ok false q b n L (λ e', e' = e) e.
Proof. by split. Qed.

Lemma quanta_aligned q b n bb ee :
  0 < q < 4294967296 → 0 ≤ bb ≤ b → 0 < n → b + n ≤ ee → ee ≤ ADDR_MAX → b mod q = 0 → (b + n) mod q = 0 →
  let st := u64 (b / q * q) in
  let st := if st <? bb then u64 (st + q) else st in
  let en := u64 (u64 (b + n + q - 1) / q * q) in
  let en := if en >? u64 ee then u64 (en - q) else en in
  st < en.
Proof.
  unfold ADDR_MAX. intros Hq Hbb Hn Hee Hmax Hb He.
  pose proof (Z.div_mod b q ltac:(lia)) as Hd. pose proof (Z.div_mod (b + n) q ltac:(lia)) as Hd'.
  rewrite (u64_small (b + n + q - 1)) by (unfold is_u64; lia).
  assert ((b + n + q - 1) / q = (b + n) / q) as ->.
  { replace (b + n + q - 1) with ((q - 1) + (b + n) / q * q) by lia. rewrite Z.div_add, (Z.div_small (q - 1)) by lia. lia. }
  replace (b / q * q) with b by lia. replace ((b + n) / q * q) with (b + n) by lia.
  rewrite (u64_small b), (u64_small (b + n)), (u64_small ee) by (unfold is_u64; lia). cbv zeta.
  destruct (Z.ltb_spec b bb), (Z.gtb_spec (b + n) ee); lia.
Qed.

Lemma wp_with_env {A} (m : M E A) Q s :
  wp m (λ x e, Q x (set_env e s)) (ra_env s) → wp (with_env m) Q s.
Proof. intros. by apply wp_zoom. Qed.

Lemma rep_env s e segs fl dat : rep s segs fl dat → rep (set_env e s) segs fl dat.
Proof. intros []. by split. Qed.

(** The environment may change where no tag looks. *)
Lemma inv_env X md md' k s e segs fl dat hm :
  inv X md k s segs fl dat hm → wf X md' segs fl dat hm → mode_ok md' → env_is md' e →
  (is_import md ↔ is_import md') →
  (∀ p sg, dat !! p = Some sg → is_tile sg → is_Some (map_flags (ra_env s) (s_map sg)) →
     is_Some (map_flags e (s_map sg))) →
  inv X md' k (set_env e s) segs fl dat hm.
Proof.
  intros Hi Hwf Hmd He Himp Hm. split; [apply rep_env, Hi|done| | |apply Hi].
  - intros p sg Hp Ht. destruct (i_maps _ _ _ _ _ _ _ _ Hi p sg Hp Ht) as [?|?]; [by left|right].
    by eapply Hm.
  - destruct (i_side _ _ _ _ _ _ _ _ Hi) as [(a&h&Ha&Hh&Hw&Hs) _ _]. split; [|done|done].
    exists a, h. split_and!; [done..|]. unfold static_ok in *. destruct md, md'; simpl in *; tauto.
Qed.

Lemma inv_arena X md k s segs fl dat hm :
  inv X md k s segs fl dat hm → ∃ a, ra_arena s = Some a ∧ static_ok md a.
Proof. intros Hi. destruct (side_hash _ _ _ (i_side _ _ _ _ _ _ _ _ Hi)) as (a&h&?&?&?&?). eauto. Qed.

(** The rounding of [_FreeBT]: [bb, ee) is the coalesced tag. *)
Lemma quanta_round q b n bb ee L :
  0 < q < 4294967296 → 0 ≤ bb ≤ b → 0 < n → b + n ≤ ee → ee ≤ ADDR_MAX →
  (∀ z, z ∈ L → s_type z = btt_live → endof z ≤ bb ∨ ee ≤ s_base z) →
  let st := u64 (b / q * q) in
  let st := if st <? bb then u64 (st + q) else st in
  let en := u64 (u64 (b + n + q - 1) / q * q) in
  let en := if en >? u64 ee then u64 (en - q) else en in
  st < en → quanta q b n L st en.
Proof.
  unfold ADDR_MAX. intros Hq Hbb Hn Hee Hmax Hfree.
  pose proof (Z.div_mod b q ltac:(lia)) as Hd. pose proof (Z.mod_pos_bound b q ltac:(lia)) as Hm.
  pose proof (Z.div_mod (b + n + q - 1) q ltac:(lia)) as Hd'.
  pose proof (Z.mod_pos_bound (b + n + q - 1) q ltac:(lia)) as Hm'.
  rewrite (u64_small (b + n + q - 1)) by (unfold is_u64; lia).
  set (x := b / q) in *. set (y := (b + n + q - 1) / q) in *.
  assert (b mod q = 0 → x * q = b) as Hbx by lia.
  assert ((b + n) mod q = 0 → y * q = b + n) as Hby.
  { intros Hz. pose proof (Z.div_mod (b + n) q ltac:(lia)) as He. rewrite Hz in He.
    enough (y = (b + n) / q) by nia. symmetry. unfold y.
    set (w := (b + n) / q) in *. replace (b + n + q - 1) with ((q - 1) + w * q) by lia.
    rewrite Z.div_add, (Z.div_small (q - 1)) by lia. lia. }
  assert (b - q < x * q ≤ b) as Hx by lia. assert (b + n ≤ y * q < b + n + q) as Hy by lia.
  assert (0 ≤ x * q) by (apply Z.mul_nonneg_nonneg; [apply Z.div_pos|]; lia).
  assert (0 < y) by (apply (Zmult_gt_0_lt_0_reg_r q); lia). assert (q ≤ y * q) by nia.
  rewrite (u64_small (x * q)), (u64_small (y * q)), (u64_small ee) by (unfold is_u64; lia). cbv zeta.
  assert (x * q mod q = 0 ∧ y * q mod q = 0 ∧ (x * q + q) mod q = 0 ∧ (y * q - q) mod q = 0) as (?&?&?&?).
  { replace (x * q + q) with ((x + 1) * q) by lia. replace (y * q - q) with ((y - 1) * q) by lia.
    by rewrite !Z_mod_mult. }
  destruct (Z.ltb_spec (x * q) bb) as [Hlt|Hge], (Z.gtb_spec (y * q) ee) as [Hgt|Hle];
    rewrite ?(u64_small (x * q + q)), ?(u64_small (y * q - q)) by (unfold is_u64; lia); intros Hlt';
    split; try done; try lia; try (intros Hz; (specialize (Hbx Hz) || specialize (Hby Hz)); lia);
    try (intros z Hz Ht; specialize (Hfree z Hz Ht); lia).
Qed.

Lemma inv_free_backing_store md k s xs p ys fl dat hm sg b n flag q L P Q :
  inv [p] md k s (xs ++ p :: ys) fl dat hm → dat !! p = Some sg → is_tile sg →
  s_base sg ≤ b → 0 < n → b + n ≤ endof sg → uQuantum <$> ra_arena s = Some q →
  (∀ z, z ∈ L → s_type z = btt_live → z ∈ tags dat xs ++ tags dat ys) →
  backing_ok flag q b n L P (ra_env s) →
  (∀ s', inv [p] md k s' (xs ++ p :: ys) fl dat hm → later s s' → P (ra_env s') →
     Q tt s') →
  wp (free_backing_store p b n flag) Q s.
Proof.
  intros Hi Hp Ht Hb Hn He Hqa HL [HP Hbk] HQ. destruct (inv_arena _ _ _ _ _ _ _ _ Hi) as (a&Ha&Hq&Hf&Hh&_).
  rewrite Ha in Hqa. injection Hqa as Hqa. pose proof (inv_bounds _ _ _ _ _ _ _ _ _ _ Hi Hp Ht) as (Hb0&_&Hmax).
  unfold free_backing_store. do 2 ra_step. rewrite Hf.
  unfold backing_due in HP.
  destruct src_backing as [f|] eqn:Hsf; [|wp_step; apply HQ; [done|apply later_refl|apply HP; by intros (_&[? ?]&_)]].
  destruct flag; [|wp_step; apply HQ; [done|apply later_refl|apply HP; by intros (?&_)]]. do 4 ra_step. wp_step.
  eapply wp_rd_seg; [apply Hi|done|]. intros t Htg Hts.
  destruct (Z.eqb_spec (uQuantum a) 0); [lia|]. rewrite Hh.
  unfold id. replace (base t) with (s_base sg) by by subst. replace (uBTSize t) with (s_size sg) by by subst.
  fold (endof sg). pose proof (quanta_round (uQuantum a) b n (s_base sg) (endof sg) L Hq) as Hqu.
  destruct (_ <? _) eqn:Hlt; [apply Z.ltb_lt in Hlt|apply Z.ltb_ge in Hlt; wp_step; apply HQ; [done|apply later_refl|apply HP]].
  2:{ intros (_&_&Hba&Hea). pose proof (quanta_aligned (uQuantum a) b n (s_base sg) (endof sg) Hq ltac:(lia) Hn He Hmax) as Hal.
      rewrite Hqa in *. specialize (Hal Hba Hea). cbv zeta in Hal, Hlt. lia. }
  apply wp_with_env. eapply wp_mono; [eapply (Hbk eq_refl f); [done|]|].
  { rewrite <- Hqa. apply Hqu; [lia|lia|lia|lia| |exact Hlt].
    intros z Hz Htz. pose proof (w_geo _ _ _ _ _ _ (i_wf _ _ _ _ _ _ _ _ Hi)) as Hg.
    rewrite (tags_mid _ _ _ _ _ Hp) in Hg. specialize (HL z Hz Htz). apply elem_of_app in HL as [HL|HL].
    - left. pose proof (geo_before _ _ _ _ _ Hg HL) as Hlt'. unfold after in Hlt'.
      rewrite (kind_tile z) in Hlt' by congruence. done.
    - right. pose proof (geo_after _ _ _ _ _ Hg HL) as Hlt'. unfold after in Hlt'.
      by rewrite (kind_tile sg) in Hlt'. }
  simpl. intros [] e (He'&Hm&HP'). apply HQ; [|by split|done].
  eapply inv_env; [done|apply Hi|apply (i_side _ _ _ _ _ _ _ _ Hi)| |done|].
  - pose proof (side_env _ _ _ (i_side _ _ _ _ _ _ _ _ Hi)) as Henv. destruct md; simpl in *; [done|congruence].
  - intros r sr _ _. by rewrite Hm.
Qed.

(** ** [_FreeBT] *)

Definition is_marker (o : option seg) : bool :=
  match o with Some y => bool_decide (s_type y = btt_span) | None => false end.

(** The list after freeing the tag [x] that stands between [L1] and [L2]. *)
Definition free_tags (L1 : list seg) (x : seg) (L2 : list seg) : list seg :=
  let '(L1, x) := coal_prev L1 x in
  let '(x, L2) := coal_next x L2 in
  if is_marker (head L2) && is_marker (last L1) then removelast L1 ++ tail L2
  else L1 ++ set_free x :: L2.

(** The imports after freeing it: a whole import is given back. *)
Definition free_mode (md : mode) (L1 : list seg) (x : seg) (L2 : list seg) : mode :=
  let '(L1, x) := coal_prev L1 x in
  let '(x, L2) := coal_next x L2 in
  if is_marker (head L2) && is_marker (last L1) then
    match md with Resource lo hi => Resource lo hi | Import R => Import (delete (s_base x) R) end
  else md.

Lemma tags_head dat ys :
  (∀ p, p ∈ ys → is_Some (dat !! p)) → head (tags dat ys) = head ys ≫= λ p, dat !! p.
Proof.
  intros Hd. destruct ys as [|y ys]; [done|]. destruct (Hd y ltac:(set_solver)) as [sg Hsg].
  by rewrite (tags_cons _ _ _ _ Hsg).
Qed.

Lemma tags_last dat xs :
  (∀ p, p ∈ xs → is_Some (dat !! p)) → last (tags dat xs) = last xs ≫= λ p, dat !! p.
Proof.
  intros Hd. destruct xs as [|x xs _] using rev_ind; [done|].
  destruct (Hd x ltac:(set_solver)) as [sg Hsg].
  rewrite (tags_mid _ xs x [] _ Hsg). change (tags dat []) with (@nil seg).
  rewrite !last_snoc. simpl. by rewrite Hsg.
Qed.

Lemma inv_some X md k s segs fl dat hm p :
  inv X md k s segs fl dat hm → p ∈ segs → is_Some (dat !! p).
Proof. intros Hi Hp. destruct (inv_dat _ _ _ _ _ _ _ _ _ Hi Hp). eauto. Qed.

Lemma wp_is_span X md k s segs fl dat hm o Q :
  inv X md k s segs fl dat hm → (∀ p, o = Some p → p ∈ segs) →
  Q (is_marker (o ≫= λ p, dat !! p)) s → wp (is_span (default 0 o)) Q s.
Proof.
  intros Hi Ho HQ. unfold is_span, IMG_NULL. destruct o as [p|]; simpl; [|by wp_step].
  pose proof (Ho p eq_refl) as Hin. destruct (inv_dat _ _ _ _ _ _ _ _ _ Hi Hin) as [sg Hp].
  destruct (rep_seg_in _ _ _ _ _ (i_rep _ _ _ _ _ _ _ _ Hi) Hin) as [Hp0 _].
  destruct (Z.eqb_spec p 0); [done|]. eapply wp_rd_seg; [apply Hi|done|].
  intros b _ <-. simpl in HQ. by rewrite Hp in HQ.
Qed.

(** The whole import around [p] goes back to its source. *)
Lemma inv_release md k s xs st p en ys fl dat hm sg sst sen Q :
  inv [p] md k s (xs ++ st :: p :: en :: ys) fl dat hm → dat !! p = Some sg → is_tile sg →
  dat !! st = Some sst → s_type sst = btt_span → dat !! en = Some sen → s_type sen = btt_span →
  (∀ s' dat' R, md = Import R →
     inv [] (Import (delete (s_base sg) R)) k s' (xs ++ ys) fl dat' hm →
     tags dat' xs = tags dat xs → tags dat' ys = tags dat ys → later s s' → Q tt s') →
  wp (_SegmentListRemove en;; _SegmentListRemove st;; _SegmentListRemove p;;
      pfn ← arena pImportFree;
      h ← arena pImportHandle;
      b ← rd p id;
      (pfnFree ← deref pfn; with_env (pfnFree h (base b) (psMapping b)));;
      free_BT en;; free_BT st;; free_BT p) Q s.
Proof.
  intros Hi Hp Ht Hst Htst Hen Hten HQ.
  pose proof (w_geo _ _ _ _ _ _ (i_wf _ _ _ _ _ _ _ _ Hi)) as Hg.
  rewrite (tags_mid _ xs st _ _ Hst), (tags_cons _ p _ _ Hp), (tags_cons _ en _ _ Hen) in Hg.
  destruct md as [lo hi|R].
  { exfalso. pose proof (geo_ok _ _ sst Hg ltac:(set_solver)) as Hok. unfold seg_ok, kind_of in Hok.
    rewrite bool_decide_eq_true_2 in Hok by done. by destruct (_ =? _). }
  assert (∀ y, s_type y = btt_span → kind_of y ≠ KTile) as Hmk.
  { intros y Hy Hk. by apply kind_tile_inv in Hk. }
  pose proof (side_mode _ _ _ (i_side _ _ _ _ _ _ _ _ Hi)) as Hreg. simpl in Hreg.
  destruct (span_region _ _ _ _ _ _ Hreg Hg (Hmk _ Htst) Ht (Hmk _ Hten)) as (HR&_).
  pose proof (geo_remove_span _ _ _ _ _ _ Hreg Hg (Hmk _ Htst) Ht (Hmk _ Hten)) as Hg'.
  pose proof (w_nodup _ _ _ _ _ _ (i_wf _ _ _ _ _ _ _ _ Hi)) as Hnd.
  assert (xs ++ st :: p :: en :: ys ≡ₚ st :: p :: en :: xs ++ ys) as Hperm by solve_Permutation.
  rewrite Hperm in Hnd. apply NoDup_cons in Hnd as [Hst' [Hp' [Hen' Hnd]%NoDup_cons]%NoDup_cons].
  apply not_elem_of_cons in Hst' as [Hsp [Hse Hst']%not_elem_of_cons].
  apply not_elem_of_cons in Hp' as [Hpe Hp'].
  assert (∀ q sq, dat !! q = Some sq → s_type sq = btt_span → q ∉ concat fl) as Hnofree.
  { intros q sq Hq Htq (i&l&Hl&Hql)%list_elem_of_concat.
    destruct (w_free' _ _ _ _ _ _ (i_wf _ _ _ _ _ _ _ _ Hi) _ _ _ Hl Hql) as (_&?&?&?&_).
    congruence. }
  wp_step. replace (xs ++ st :: p :: en :: ys) with ((xs ++ [st; p]) ++ en :: ys) in *
    by by rewrite <- (assoc_L app).
  eapply wp_SegmentListRemove; [apply Hi|]. intros s1 Hr1 Hs1 _.
  wp_step. rewrite <- (assoc_L app) in Hr1. simpl in Hr1.
  eapply wp_SegmentListRemove; [exact Hr1|]. intros s2 Hr2 Hs2 _.
  wp_step. eapply wp_SegmentListRemove; [exact Hr2|]. intros s3 Hr3 Hs3 _.
  pose proof (step_trans _ _ _ _ _ Hs1 (step_trans _ _ _ _ _ Hs2 Hs3)) as Hs13.
  pose proof (side_step _ _ _ _ _ Hs13 (i_side _ _ _ _ _ _ _ _ Hi)) as [(a&h&Ha&Hh&Hw&Hstat) Henv Hmd].
  pose proof Hstat as (Hq&Hbk&Hhd&Hal&Hfr).
  wp_step. ra_step. wp_step. ra_step. wp_step. eapply wp_rd_seg; [done|exact Hp|]. intros b _ Hb.
  unfold id. wp_step. rewrite Hfr, Hhd. wp_step. wp_step. apply wp_with_env. simpl in Henv.
  replace (base b) with (s_base sg) by by subst. replace (psMapping b) with (s_map sg) by by subst.
  eapply wp_mono; [eapply src_free_law; rewrite Henv; done|]. cbn beta. intros [] e [He Hm].
  rewrite Henv in He.
  apply (rep_env _ e) in Hr3.
  wp_step. eapply wp_free_BT; [exact Hr3|by eauto|done|by eapply Hnofree|]. intros s4 Hr4 Hs4 _.
  wp_step. eapply wp_free_BT; [exact Hr4| |done|by eapply Hnofree|].
  { rewrite lookup_delete_ne by congruence. eauto. }
  intros s5 Hr5 Hs5 _.
  eapply wp_free_BT; [exact Hr5| |done| |].
  { rewrite !lookup_delete_ne by congruence. eauto. }
  { eapply wf_not_free; [apply Hi|by left]. }
  intros s6 Hr6 Hs6 _.
  pose proof (step_trans _ _ _ _ _ Hs4 (step_trans _ _ _ _ _ Hs5 Hs6)) as Hs46.
  assert (∀ q, q ∈ xs ++ ys → delete p (delete st (delete en dat)) !! q = dat !! q) as Hsame.
  { intros q Hqin. rewrite !lookup_delete_ne; [done|..]; congruence. }
  apply (HQ s6 (delete p (delete st (delete en dat))) R); [done| | | |].
  - split.
    + exact Hr6.
    + eapply wf_change; [apply Hi|done| | |].
      * intros q. pose proof (w_dom _ _ _ _ _ _ (i_wf _ _ _ _ _ _ _ _ Hi) q) as Hd.
        rewrite Hperm, !elem_of_cons in Hd.
        rewrite !lookup_delete_is_Some. split; [|naive_solver].
        intros Hin. split; [congruence|]. split; [congruence|]. split; [congruence|].
        tauto.
      * intros q sq. unfold settled. rewrite list_elem_of_singleton. split.
        -- intros (Hne&Hqs&Htq). rewrite !lookup_delete_ne; [by split; [apply not_elem_of_nil|]|..];
             intros ->; simplify_eq; done.
        -- intros (_&(Hne&(_&(_&Hqs)%lookup_delete_Some)%lookup_delete_Some)%lookup_delete_Some&Htq).
           split; [congruence|done].
      * rewrite (tags_frame dat), tags_app by done. exact Hg'.
    + intros q sq Hqs Htq. rewrite (step_env _ _ _ Hs46). simpl.
      apply lookup_delete_Some in Hqs as (Hnp&(Hns&(Hne&Hqs)%lookup_delete_Some)%lookup_delete_Some).
      assert (q ∈ xs ++ ys) as Hqin.
      { assert (q ∈ st :: p :: en :: xs ++ ys) as Hq'
          by (rewrite <- Hperm; eapply wf_in; [apply Hi|done]).
        rewrite !elem_of_cons in Hq'. naive_solver. }
      rewrite Hm, (step_env _ _ _ Hs13); [by eapply Hi|].
      apply (span_other _ _ _ _ _ _ _ Hreg Hg); [by apply Hmk|done|by apply Hmk| |done].
      rewrite <- tags_app. apply tags_elem. eauto.
    + eapply side_step; [exact Hs46|]. split; [|done|by apply regions_ok_delete].
      exists a, h. done.
    + destruct (step_os _ _ _ Hs46) as [Hl46 _], (step_os _ _ _ Hs13) as [Hl13 _].
      rewrite Hl46. simpl. rewrite Hl13, (i_blocks _ _ _ _ _ _ _ _ Hi), !length_app. simpl. clear. lia.
  - apply tags_frame. intros q Hqin. apply Hsame. by apply elem_of_app; left.
  - apply tags_frame. intros q Hqin. apply Hsame. by apply elem_of_app; right.
  - eapply later_trans; [eapply steps_later, step_steps; exact Hs13|].
    eapply (later_trans _ (set_env e s3)); [by split|]. eapply steps_later, step_steps, Hs46.
Qed.

Lemma last_removelast (L : list seg) y : last L = Some y → L = removelast L ++ [y].
Proof.
  destruct L as [|x L _] using rev_ind; [done|]. rewrite last_snoc. intros [= ->].
  by rewrite removelast_last.
Qed.

Lemma coal_prev_grows L1 x L1' x' : (L1', x') = coal_prev L1 x → (∀ y, y ∈ L1 → is_free y → is_tile y → 0 ≤ s_size y) →
  s_base x' ≤ s_base x ∧ endof x' = endof x ∧ (∀ y, y ∈ L1 → s_type y = btt_live → y ∈ L1').
Proof.
  unfold coal_prev. intros Hc Hsz. destruct (last L1) as [y|] eqn:Hl; [|by simplify_eq].
  destruct (is_free y && _) eqn:Hf; [|by simplify_eq]. simplify_eq.
  apply andb_true_iff in Hf as [Hf He%Z.eqb_eq]. pose proof Hf as Hfy. unfold is_free in Hfy. apply bool_decide_eq_true in Hfy.
  rewrite (last_removelast _ _ Hl) in *. rewrite removelast_last.
  assert (0 ≤ s_size y) by (apply Hsz; [set_solver|by rewrite Hf|by apply free_tile]).
  unfold endof in *. simpl. split_and!; [lia|lia|]. intros z [Hz|Hz%list_elem_of_singleton]%elem_of_app Hlz; [done|congruence].
Qed.

Lemma coal_next_grows x L2 x' L2' : (x', L2') = coal_next x L2 → (∀ y, y ∈ L2 → is_free y → is_tile y → 0 ≤ s_size y) →
  s_base x' = s_base x ∧ endof x ≤ endof x' ∧ (∀ y, y ∈ L2 → s_type y = btt_live → y ∈ L2').
Proof.
  unfold coal_next. intros Hc Hsz. destruct L2 as [|y L2]; [by simplify_eq|].
  destruct (is_free y && _) eqn:Hf; [|by simplify_eq]. simplify_eq.
  apply andb_true_iff in Hf as [Hf He%Z.eqb_eq]. pose proof Hf as Hfy. unfold is_free in Hfy. apply bool_decide_eq_true in Hfy.
  assert (0 ≤ s_size y) by (apply Hsz; [set_solver|by rewrite Hf|by apply free_tile]).
  unfold endof in *. simpl. split_and!; [done|lia|]. intros z [->|Hz]%elem_of_cons Hlz; [congruence|done].
Qed.

Lemma inv_sizes X md k s segs fl dat hm y :
  inv X md k s segs fl dat hm → y ∈ tags dat segs → is_tile y → 0 < s_size y.
Proof. intros Hi (p&_&Hp)%tags_elem Ht. by destruct (inv_bounds _ _ _ _ _ _ _ _ _ _ Hi Hp Ht) as (_&[??]&_). Qed.

Lemma wp_FreeBT md k s xs p ys fl dat hm sg flag qu P Q :
  inv [p] md k s (xs ++ p :: ys) fl dat hm → dat !! p = Some sg → is_tile sg →
  uQuantum <$> ra_arena s = Some qu →
  backing_ok flag qu (s_base sg) (s_size sg) (tags dat xs ++ tags dat ys) P (ra_env s) →
  (∀ s' segs' fl' dat',
     inv [] (free_mode md (tags dat xs) sg (tags dat ys)) k s' segs' fl' dat' hm →
     tags dat' segs' = free_tags (tags dat xs) sg (tags dat ys) → later s s' →
     (is_import md ∨ P (ra_env s')) → Q tt s') →
  wp (_FreeBT p flag) Q s.
Proof.
  intros Hi Hp Ht Hqu Hbk HQ. unfold _FreeBT. wp_step. eapply rep_arena_null; [apply Hi|].
  destruct (rep_seg_in _ _ _ _ p (i_rep _ _ _ _ _ _ _ _ Hi) ltac:(set_solver)) as [Hp0 _].
  unfold IMG_NULL. destruct (Z.eqb_spec p 0); [done|]. cbn [orb].
  wp_step. eapply wp_rd_seg; [apply Hi|done|]. intros b0 _ Hb0.
  wp_step. eapply wp_rd_seg; [apply Hi|done|]. intros b1 _ Hb1.
  assert (base b0 = s_base sg) as -> by by rewrite <- Hb0. assert (uBTSize b1 = s_size sg) as -> by by rewrite <- Hb1.
  clear b0 b1 Hb0 Hb1.
  wp_step. eapply inv_merge_prev; [done..|]. intros s1 xs1 fl1 dat1 sg1 Hi1 Hp1 Ht1 Hc1 Hy1 Hs1.
  wp_step. eapply inv_merge_next; [done..|]. intros s2 ys2 fl2 dat2 sg2 Hi2 Hp2 Ht2 Hc2 Hx2 Hs2.
  rewrite Hy1 in Hc2.
  destruct (coal_prev_grows _ _ _ _ Hc1) as (Hlo1&Hhi1&Hlv1).
  { intros y Hy _ Hty. apply Z.lt_le_incl. eapply inv_sizes; [exact Hi| |done].
    rewrite (tags_mid _ _ _ _ _ Hp). set_solver. }
  destruct (coal_next_grows _ _ _ _ Hc2) as (Hlo2&Hhi2&Hlv2).
  { intros y Hy _ Hty. apply Z.lt_le_incl. eapply inv_sizes; [exact Hi| |done].
    rewrite (tags_mid _ _ _ _ _ Hp). set_solver. }
  pose proof (inv_bounds _ _ _ _ _ _ _ _ _ _ Hi Hp Ht) as (_&[Hsz _]&_).
  assert (steps s s2) as Hs02 by by eapply steps_trans.
  wp_step. eapply (inv_free_backing_store _ _ _ _ _ _ _ _ _ _ _ _ _ qu (tags dat xs ++ tags dat ys) P);
    [exact Hi2|done|done|unfold endof in *; lia|done|unfold endof in *; lia| | | |].
  { destruct (steps_later _ _ Hs02) as [_ Hst]. by rewrite (static_quantum _ _ Hst). }
  { intros z [Hz|Hz]%elem_of_app Hlz; apply elem_of_app; [left; rewrite Hx2|right]; by auto. }
  { replace (ra_env s2) with (ra_env s); [done|]. destruct Hs02 as [d Hd]. symmetry. apply Hd. }
  intros s3 Hi3 Hs3 HP3.
  assert (later s s3) as Hl3.
  { eapply later_trans; [apply steps_later, Hs02|done]. }
  unfold free_tags, free_mode in HQ. rewrite <- Hc1, <- Hc2, <- Hx2 in HQ.
  destruct (rep_mid _ _ _ _ _ _ (i_rep _ _ _ _ _ _ _ _ Hi3)) as (_&b&Hb&Hprev&Hnext).
  ra_step. ra_step. ra_step. ra_step. rewrite Hprev, Hnext.
  assert (∀ q, q ∈ xs1 ++ p :: ys2 → is_Some (dat2 !! q)) as Hsome.
  { intros q. by apply (inv_some _ _ _ _ _ _ _ _ _ Hi3). }
  rewrite tags_head in HQ by (intros q ?; apply Hsome; set_solver).
  rewrite tags_last in HQ by (intros q ?; apply Hsome; set_solver).
  wp_step. eapply wp_is_span; [done| |].
  { intros q Hq%head_Some_elem_of. set_solver. }
  destruct (is_marker (head ys2 ≫= _)) eqn:Hmn; cbn [andb] in HQ.
  - wp_step. eapply wp_is_span; [done| |].
    { intros q Hq%last_Some_elem_of. set_solver. }
    destruct (is_marker (last xs1 ≫= _)) eqn:Hmp.
    + destruct xs1 as [|st xs1 _] using rev_ind; [done|]. destruct ys2 as [|en ys2]; [done|].
      rewrite last_snoc in Hmp. unfold hd_or, last_or. rewrite last_snoc. simpl in Hmp, Hmn |- *.
      destruct (dat2 !! st) as [sst|] eqn:Hst; [|done].
      destruct (dat2 !! en) as [sen|] eqn:Hen; [|done]. simpl in Hmp, Hmn.
      apply bool_decide_eq_true in Hmp, Hmn. rewrite <- (assoc_L app) in Hi3. simpl in Hi3.
      eapply inv_release; [exact Hi3|done..|]. intros s4 dat4 R -> Hi4 Hx4 Hy4 Hl4.
      eapply HQ; [exact Hi4| |by eapply later_trans|by left].
      rewrite (tags_mid _ xs1 st [] _ Hst). change (tags dat2 []) with (@nil seg).
      rewrite removelast_last, (tags_cons _ _ _ _ Hen), tags_app. simpl. by rewrite Hx4, Hy4.
    + eapply inv_put; [exact Hi3|apply not_elem_of_nil|done|done|]. intros s4 fl4 Hi4 Hs4.
      eapply HQ; [exact Hi4| |eapply later_trans; [done|by eapply steps_later, step_steps]|right; by rewrite (step_env _ _ _ Hs4)].
      destruct (inv_nodup _ _ _ _ _ _ _ _ _ _ Hi3).
      rewrite (tags_mid _ _ _ _ (set_free sg2)) by by rewrite lookup_insert_eq.
      by rewrite !tags_insert.
  - wp_step. cbn beta. eapply inv_put; [exact Hi3|apply not_elem_of_nil|done|done|]. intros s4 fl4 Hi4 Hs4.
    eapply HQ; [exact Hi4| |eapply later_trans; [done|by eapply steps_later, step_steps]|right; by rewrite (step_env _ _ _ Hs4)].
    destruct (inv_nodup _ _ _ _ _ _ _ _ _ _ Hi3).
    rewrite (tags_mid _ _ _ _ (set_free sg2)) by by rewrite lookup_insert_eq.
    by rewrite !tags_insert.
Qed.
End ops.
