(* ===== verification/RAAlloc.v ===== *)
(** * The resource allocator: allocation and release *)

From S2P Require Import Prelude Hash DList RA RARep RAGeo RAInv RAOps.

Section alloc.
Context {E : Type} {map_flags : E → Z → option Z} {src : ImportSource map_flags}.
Implicit Types (s : ra_st (E:=E)) (a : RA_ARENA (E:=E)) (md : mode).

(** The callbacks were not called. *)
Definition quiet s s' : Prop := later s s' ∧ ra_env s' = ra_env s.

Lemma quiet_refl s : quiet s s.
Proof. split; [apply later_refl|done]. Qed.
Lemma quiet_trans s s' s'' : quiet s s' → quiet s' s'' → quiet s s''.
Proof. intros [? ?] [? ?]. split; [by eapply later_trans|congruence]. Qed.
Lemma step_quiet d s s' : step d s s' → quiet s s'.
Proof. intros Hs. split; [by eapply steps_later, step_steps|apply Hs]. Qed.
Lemma quiet_later s s' : quiet s s' → later s s'.
Proof. by intros []. Qed.
Lemma quiet_calm s s' : quiet s s' → calm s s'.
Proof. by intros []. Qed.

(** ** The hash table of the arena *)

Definition set_hash (h : option HASH_TABLE) (o : os) (a : RA_ARENA (E:=E)) s : ra_st (E:=E) :=
  set_os o (set_arena (Some (set_pSegmentHash h a)) s).

Lemma rep_set_hash s a h o segs fl dat :
  rep s segs fl dat → ra_arena s = Some a → rep (set_hash h o a s) segs fl dat.
Proof.
  intros [(a'&Ha'&[]) [] Hf Hn] Ha. simplify_eq. split; simpl; [|by split|done|done].
  eexists. split; [done|]. by split.
Qed.

Lemma wp_with_hash {A} (m : M hash_st A) a Q s :
  ra_arena s = Some a →
  wp m (λ x st, Q x (set_hash (hs_tab st) (hs_os st) a s)) (mk_hash_st (ra_os s) (pSegmentHash a)) →
  wp (with_hash m) Q s.
Proof. intros Ha HQ. unfold with_hash. wp_steps. rewrite Ha. wp_step. by apply wp_zoom. Qed.

(** The state after a change of the hash table only. *)
Lemma inv_set_hash X X' md k d s segs fl dat hm hm' a h o :
  inv X md k s segs fl dat hm → ra_arena s = Some a → wf X' md segs fl dat hm' →
  word_rep h hm' → os_step d (ra_os s) o →
  Z.of_nat (size hm') = Z.of_nat (size hm) + d →
  inv X' md k (set_hash (Some h) o a s) segs fl dat hm'.
Proof.
  intros Hi Ha Hwf Hw [Hos _] Hsz. split; [apply rep_set_hash; [apply Hi|done]|done|apply Hi| |].
  - destruct (i_side _ _ _ _ _ _ _ _ Hi) as [(a'&h'&Ha'&Hh'&Hw'&Hst) He Hmd]. simplify_eq.
    split; [|done|done]. eexists _, h. split; [done|]. split; [done|]. split; [done|].
    by eapply static_ok_eq.
  - simpl. rewrite Hos, (i_blocks _ _ _ _ _ _ _ _ Hi). lia.
Qed.

Definition capacity (hm : gmap (list Z) Z) : Prop := Z.of_nat (size hm) < 134217728.

Lemma quiet_set_hash d s a h o :
  ra_arena s = Some a → os_step d (ra_os s) o → quiet s (set_hash h o a s).
Proof. intros Ha [_ Ho]. split; [split; [exact Ho|by rewrite Ha]|done]. Qed.

Lemma inv_hash_insert X md k s segs fl dat hm p sg (Q : bool → ra_st → Prop) :
  inv (p :: X) md k s segs fl dat hm → p ∉ X → dat !! p = Some sg → s_type sg = btt_live →
  capacity hm →
  (∀ s', inv X md k s' segs fl dat (<[[s_base sg] := p]> hm) → quiet s s' → Q true s') →
  (∀ s', inv (p :: X) md k s' segs fl dat hm → ¬ plenty (ra_os s) → quiet s s' → Q false s') →
  wp (with_hash (HASH_Insert (s_base sg) p)) Q s.
Proof.
  intros Hi HX Hp Ht Hcap H1 H0.
  pose proof (wf_hash_fresh _ _ _ _ _ _ p sg (i_wf _ _ _ _ _ _ _ _ Hi) ltac:(by left) Hp (live_tile _ Ht))
    as Hfresh.
  destruct (side_hash _ _ _ (i_side _ _ _ _ _ _ _ _ Hi)) as (a&h&Ha&Hh&Hw&Hst).
  eapply wp_with_hash; [done|]. rewrite Hh. unfold HASH_Insert.
  eapply wp_mono; [apply (wp_insert_map h hm); [apply Hw|by eapply word_key|done|done]|].
  intros r st (h'&o'&->&Hrep&Hsp&Hos&Hpl). simpl.
  pose proof (word_rep_params _ _ _ _ Hw Hrep Hsp) as Hw'. destruct r.
  - apply H1; [|by eapply quiet_set_hash].
    eapply inv_set_hash; [done|done| |done|done|].
    + eapply wf_hash_insert; [apply Hi|done..].
    + rewrite map_size_insert_None by done. lia.
  - apply H0; [| |by eapply quiet_set_hash].
    + eapply inv_set_hash; [done|done|apply Hi|done|done|lia].
    + intros Hp'. specialize (Hpl Hp'). done.
Qed.

Lemma inv_hash_remove md k s segs fl dat hm b Q :
  inv [] md k s segs fl dat hm →
  (hm !! [b] = None → ∀ s', inv [] md k s' segs fl dat hm → quiet s s' → Q 0 s') →
  (∀ s' p sg, hm !! [b] = Some p → dat !! p = Some sg → s_type sg = btt_live → s_base sg = b →
     inv [p] md k s' segs fl dat (delete [b] hm) → quiet s s' → Q p s') →
  wp (with_hash (HASH_Remove b)) Q s.
Proof.
  intros Hi H0 H1.
  destruct (side_hash _ _ _ (i_side _ _ _ _ _ _ _ _ Hi)) as (a&h&Ha&Hh&Hw&Hst).
  eapply wp_with_hash; [done|]. rewrite Hh. unfold HASH_Remove.
  eapply wp_mono; [apply (wp_remove_map h hm); [apply Hw|by eapply word_key]|].
  intros r st (h'&o'&->&->&Hrep&Hsp&Hos). simpl.
  pose proof (word_rep_params _ _ _ _ Hw Hrep Hsp) as Hw'.
  destruct (hm !! [b]) as [p|] eqn:Hb; simpl.
  - pose proof (proj1 (w_live _ _ _ _ _ _ (i_wf _ _ _ _ _ _ _ _ Hi) _ _) Hb) as (_&sg&Hp&Ht&[= ->]).
    eapply H1; [done|done|done|done| |by eapply quiet_set_hash].
    eapply inv_set_hash; [done|done| |done|done|].
    + eapply wf_hash_remove; [apply Hi|apply not_elem_of_nil|done..].
    + rewrite map_size_delete, Hb. assert (size hm ≠ 0%nat); [|lia].
      intros Hz%map_size_empty_inv. subst hm. by rewrite lookup_empty in Hb.
  - rewrite delete_id in Hw' by done.
    apply H0; [done| |by eapply quiet_set_hash].
    eapply inv_set_hash; [done|done|apply Hi|done|done|lia].
Qed.

(** ** [take_segment] *)

(** What allocating [n] bytes at [b] leaves of the free tag [x]. *)
Definition carve (x : seg) (b n : Z) : list seg :=
  (if s_base x <? b then [mkSeg btt_free (s_base x) (b - s_base x) (s_map x)] else []) ++
  [mkSeg btt_live b n (s_map x)] ++
  (if b + n <? endof x then [mkSeg btt_free (b + n) (endof x - (b + n)) (s_map x)] else []).

(** The live tags. *)
Definition lives (L : list seg) : list seg := filter (λ x, s_type x = btt_live) L.

Lemma lives_app L1 L2 : lives (L1 ++ L2) = lives L1 ++ lives L2.
Proof. apply filter_app. Qed.

Lemma lives_other x L : s_type x ≠ btt_live → lives (x :: L) = lives L.
Proof. intros Hx. unfold lives. by rewrite filter_cons_False. Qed.

Lemma lives_free x L : s_type x = btt_free → lives (x :: L) = lives L.
Proof. intros Hx. unfold lives. rewrite filter_cons_False; [done|congruence]. Qed.

(** Coalescing and freeing change no live tag but the one freed. *)
Lemma lives_free_tags L1 x L2 : lives (free_tags L1 x L2) = lives (L1 ++ L2).
Proof.
  assert (∀ L y, last L = Some y → s_type y ≠ btt_live → lives (removelast L) = lives L) as Hlast.
  { intros L y Hl Hy. destruct L as [|z L _] using rev_ind; [done|].
    rewrite last_snoc in Hl. simplify_eq. rewrite removelast_last, lives_app.
    unfold lives at 3. rewrite filter_cons_False by done. by rewrite filter_nil, app_nil_r. }
  assert (∀ L y, head L = Some y → s_type y ≠ btt_live → lives (tail L) = lives L) as Hhead.
  { intros [|z L] y Hl Hy; simplify_eq/=. unfold lives. by rewrite filter_cons_False. }
  assert (∀ y, is_free y = true → s_type y ≠ btt_live) as Hfree.
  { intros y Hy%bool_decide_eq_true. congruence. }
  unfold free_tags. destruct (coal_prev L1 x) as [L1' x1] eqn:Hc1.
  assert (lives L1' = lives L1) as HL1.
  { unfold coal_prev in Hc1. destruct (last L1) as [y|] eqn:Hl; [|by simplify_eq].
    destruct (is_free y && _) eqn:Hb; simplify_eq; [|done].
    apply andb_true_iff in Hb as [? _]. by eapply Hlast; eauto. }
  destruct (coal_next x1 L2) as [x2 L2'] eqn:Hc2.
  assert (lives L2' = lives L2) as HL2.
  { unfold coal_next in Hc2. destruct L2 as [|y L2]; [by simplify_eq|].
    destruct (is_free y && _) eqn:Hb; simplify_eq; [|done].
    apply andb_true_iff in Hb as [? _]. by apply (Hhead (y :: L2') y); auto. }
  rewrite (lives_app L1), <- HL1, <- HL2.
  destruct (is_marker (head L2')) eqn:Hm1, (is_marker (last L1')) eqn:Hm2; simpl;
    rewrite lives_app; try by rewrite lives_free.
  destruct (head L2') as [y|] eqn:Hy; [|done]. destruct (last L1') as [z|] eqn:Hz; [|done].
  apply bool_decide_eq_true in Hm1, Hm2.
  rewrite (Hlast _ z), (Hhead _ y); done || congruence.
Qed.

(** ** Bytes *)

(** Bytes under management. *)
Definition bytes (L : list seg) : Z :=
  foldr (λ x n, (if bool_decide (s_type x = btt_span) then 0 else s_size x) + n) 0 L.

Lemma bytes_app L1 L2 : bytes (L1 ++ L2) = bytes L1 + bytes L2.
Proof. induction L1 as [|x L1 IH]; [done|]. cbn [app]. unfold bytes in *. simpl. rewrite IH. lia. Qed.

Lemma bytes_cons x L : bytes (x :: L) = (if bool_decide (s_type x = btt_span) then 0 else s_size x) + bytes L.
Proof. done. Qed.

Lemma bytes_tile x L : is_tile x → bytes (x :: L) = s_size x + bytes L.
Proof. intros Hx. by rewrite bytes_cons, bool_decide_eq_false_2. Qed.

Lemma bytes_carve x b n :
  is_tile x → s_base x ≤ b → b + n ≤ endof x → bytes (carve x b n) = s_size x.
Proof.
  intros Hx Hb He. unfold carve, endof in *. rewrite !bytes_app.
  destruct (Z.ltb_spec (s_base x) b), (Z.ltb_spec (b + n) (s_base x + s_size x)); unfold bytes; simpl; lia.
Qed.

Lemma is_free_tile x : is_free x = true → is_tile x.
Proof. intros Hx%bool_decide_eq_true. by apply free_tile. Qed.

Lemma coal_prev_spec L1 x L1' x' :
  coal_prev L1 x = (L1', x') → is_tile x →
  s_type x' = s_type x ∧ s_map x' = s_map x ∧ endof x' = endof x ∧
  bytes L1 + s_size x = bytes L1' + s_size x' ∧ L1' `prefix_of` L1.
Proof.
  unfold coal_prev. intros Hc Hx. destruct (last L1) as [y|] eqn:Hl; [|by simplify_eq].
  destruct (is_free y && (endof y =? s_base x)) eqn:Hb; simplify_eq; [|by split_and!].
  apply andb_true_iff in Hb as [Hf He%Z.eqb_eq]. apply is_free_tile in Hf.
  rewrite (last_removelast _ _ Hl) at 1 4. rewrite bytes_app, (bytes_tile y []) by done.
  unfold endof in *. simpl. split_and!; [done|done|lia|unfold bytes; simpl; lia|by apply prefix_app_r].
Qed.

Lemma coal_next_spec x L2 x' L2' :
  coal_next x L2 = (x', L2') → is_tile x →
  s_type x' = s_type x ∧ s_map x' = s_map x ∧ s_base x' = s_base x ∧
  bytes L2 + s_size x = bytes L2' + s_size x' ∧ L2' `suffix_of` L2.
Proof.
  unfold coal_next. intros Hc Hx. destruct L2 as [|y L2]; simplify_eq; [done|].
  destruct (is_free y && (endof x =? s_base y)) eqn:Hb; simplify_eq; [|done].
  apply andb_true_iff in Hb as [Hf He%Z.eqb_eq]. apply is_free_tile in Hf.
  rewrite bytes_tile by done. simpl. split_and!; [done..|lia|by apply suffix_cons_r].
Qed.

(** No markers in an arena without imports. *)
Lemma resource_tiles lo hi L x : geo (Resource lo hi) L → x ∈ L → is_tile x.
Proof.
  intros Hg Hx. pose proof (geo_ok _ _ _ Hg Hx) as Hok. unfold seg_ok in Hok.
  destruct (kind_of x) eqn:Hk; [done|done|]. by apply kind_tile_inv.
Qed.

Lemma not_marker o : (∀ x, o = Some x → is_tile x) → is_marker o = false.
Proof. destruct o as [x|]; simpl; [|done]. intros Hx. by apply bool_decide_eq_false_2, Hx. Qed.

(** In such an arena freeing only coalesces. *)
Lemma free_tags_resource lo hi L1 x L2 :
  geo (Resource lo hi) (L1 ++ x :: L2) →
  free_tags L1 x L2 =
    (let '(L1', x1) := coal_prev L1 x in
     let '(x2, L2') := coal_next x1 L2 in L1' ++ set_free x2 :: L2') ∧
  free_mode (Resource lo hi) L1 x L2 = Resource lo hi.
Proof.
  intros Hg. unfold free_tags, free_mode.
  pose proof (resource_tiles _ _ _ x Hg ltac:(set_solver)) as Hx.
  destruct (coal_prev L1 x) as [L1' x1] eqn:Hc1.
  destruct (coal_prev_spec _ _ _ _ Hc1 Hx) as (Ht1&_&_&_&_).
  assert (is_tile x1) as Hx1 by (unfold is_tile in *; congruence).
  destruct (coal_next x1 L2) as [x2 L2'] eqn:Hc2.
  destruct (coal_next_spec _ _ _ _ Hc2 Hx1) as (_&_&_&_&[D ->]).
  rewrite not_marker; [done|]. intros y Hy%head_Some_elem_of.
  apply (resource_tiles _ _ _ y Hg). set_solver.
Qed.

Lemma bytes_free_tags lo hi L1 x L2 :
  geo (Resource lo hi) (L1 ++ x :: L2) → bytes (free_tags L1 x L2) = bytes (L1 ++ x :: L2).
Proof.
  intros Hg. destruct (free_tags_resource _ _ _ _ _ Hg) as [-> _].
  pose proof (resource_tiles _ _ _ x Hg ltac:(set_solver)) as Hx.
  destruct (coal_prev L1 x) as [L1' x1] eqn:Hc1.
  destruct (coal_prev_spec _ _ _ _ Hc1 Hx) as (Ht1&_&_&Hb1&_).
  assert (is_tile x1) as Hx1 by (unfold is_tile in *; congruence).
  destruct (coal_next x1 L2) as [x2 L2'] eqn:Hc2.
  destruct (coal_next_spec _ _ _ _ Hc2 Hx1) as (_&_&_&Hb2&_).
  rewrite !bytes_app, !bytes_tile by done. simpl. lia.
Qed.

(** Imports may only have gone away. *)
Definition mode_le md md' : Prop :=
  match md, md' with
  | Resource lo hi, Resource lo' hi' => lo' = lo ∧ hi' = hi
  | Import R, Import R' => R' ⊆ R
  | _, _ => False
  end.

Lemma mode_le_refl md : mode_le md md.
Proof. by destruct md; simpl. Qed.

Lemma free_mode_le md L1 x L2 : mode_le md (free_mode md L1 x L2).
Proof.
  unfold free_mode. destruct (coal_prev L1 x) as [L1' x1], (coal_next x1 L2) as [x2 L2'].
  destruct (_ && _); [|apply mode_le_refl]. destruct md; simpl; [done|]. apply delete_subseteq.
Qed.

(** The hand is a set. *)
Lemma inv_hand X X' md k s segs fl dat hm :
  (∀ q, q ∈ X ↔ q ∈ X') → inv X md k s segs fl dat hm → inv X' md k s segs fl dat hm.
Proof.
  intros HX [? Hwf ? ? ?]. split; [done| |done..].
  eapply wf_change; [done|apply Hwf|apply Hwf| |apply Hwf].
  intros q sg. unfold settled. by rewrite HX.
Qed.

(** The live tags are those of [L], and an arena without imports has the
    bytes it had. *)
Definition tags_kept md (L L' : list seg) : Prop :=
  lives L' = lives L ∧ ∀ lo hi, md = Resource lo hi → bytes L' = bytes L.

Lemma tags_kept_intro md L L' : lives L' = lives L → bytes L' = bytes L → tags_kept md L L'.
Proof. by split. Qed.

Lemma tags_kept_same md L L1 L2 : lives L1 = lives L → bytes L1 = bytes L → tags_kept md L1 L2 → tags_kept md L L2.
Proof. intros Hl Hb [H1 H2]. split; [congruence|]. intros lo hi Hm. rewrite <- Hb. by eapply H2. Qed.

Lemma tags_kept_set_free md L1 x L2 : s_type x ≠ btt_live → is_tile x → tags_kept md (L1 ++ x :: L2) (L1 ++ set_free x :: L2).
Proof. intros Hx Ht. apply tags_kept_intro; [by rewrite !lives_app, lives_free, lives_other|by rewrite !bytes_app, !bytes_tile]. Qed.

(** An allocation that fails for want of kernel memory. *)
Definition failed md (k : Z) s (hm : gmap (list Z) Z) (L : list seg) (Q : option (Z * Z) → ra_st → Prop) : Prop :=
  ∀ s' md' segs' fl' dat', inv [] md' k s' segs' fl' dat' hm → mode_le md md' →
    tags_kept md L (tags dat' segs') → ¬ plenty (ra_os s) → calm s s' → Q None s'.

Lemma wp_take_back md k s xs p ys fl dat hm sg n Q :
  inv [p] md k s (xs ++ p :: ys) fl dat hm → dat !! p = Some sg → s_type sg ≠ btt_live →
  is_tile sg → 0 < n ≤ s_size sg → capacity hm →
  (∀ s' segs' fl' dat' q, inv [] md k s' segs' fl' dat' (<[[s_base sg] := q]> hm) →
     tags dat' segs' = tags dat xs ++ carve sg (s_base sg) n ++ tags dat ys → quiet s s' →
     Q (Some (s_base sg, s_map sg)) s') →
  failed md k s hm (tags dat xs ++ sg :: tags dat ys) Q →
  wp (take_back p n) Q s.
Proof.
  intros Hi Hp Hnl Ht Hn Hcap HQ HF. unfold take_back.
  wp_step. eapply wp_rd_seg; [apply Hi|done|]. intros b0 _ Hb0.
  replace (uBTSize b0) with (s_size sg) by by subst. clear b0 Hb0.
  destruct (inv_nodup _ _ _ _ _ _ _ _ _ _ Hi) as [Hx Hy].
  set (K := λ back : bool, if negb back then mret None else _).
  (* from a tag of the right size on *)
  assert (∀ s1 zs fl1 dat1 sg1, inv [p] md k s1 (xs ++ p :: zs) fl1 dat1 hm →
    dat1 !! p = Some sg1 → s_type sg1 ≠ btt_live → is_tile sg1 →
    s_base sg1 = s_base sg → s_size sg1 = n → s_map sg1 = s_map sg →
    tags dat1 xs = tags dat xs → lives (tags dat1 zs) = lives (tags dat ys) →
    tags dat xs ++ mkSeg btt_live (s_base sg) n (s_map sg) :: tags dat1 zs =
      tags dat xs ++ carve sg (s_base sg) n ++ tags dat ys →
    quiet s s1 → wp (K true) Q s1) as HK.
  { intros s1 zs fl1 dat1 sg1 Hi1 Hp1 Hnl1 Ht1 Hb1 Hs1 Hm1 Hx1 Hz1 Heq Hl1.
    unfold K. cbn [negb]. wp_step.
    eapply inv_set_type; [done|by left|done|done|done|]. intros s2 Hi2 Hs2.
    destruct (inv_nodup _ _ _ _ _ _ _ _ _ _ Hi2) as [Hx2 Hz2].
    assert (quiet s s2) as Hl2 by (eapply quiet_trans; [done|by eapply step_quiet]).
    wp_step. eapply wp_rd_seg; [apply Hi2|by rewrite lookup_insert_eq|]. intros b _ Hb.
    wp_step. replace (base b) with (s_base (mkSeg btt_live (s_base sg1) (s_size sg1) (s_map sg1)))
      by (rewrite <- Hb; done).
    eapply inv_hash_insert; [done|apply not_elem_of_nil|by rewrite lookup_insert_eq|done|done|..].
    - intros s3 Hi3 Hl3. cbn [negb]. wp_step.
      eapply wp_rd_seg; [apply Hi3|by rewrite lookup_insert_eq|]. intros b' _ Hb'. wp_step.
      injection Hb' as _ Hbase _ Hmap. unfold id. rewrite Hbase, Hmap, Hb1, Hm1. simpl in Hi3.
      rewrite Hb1 in Hi3. eapply HQ; [exact Hi3| |by eapply quiet_trans].
      rewrite (tags_mid _ xs p zs _) by by rewrite lookup_insert_eq.
      rewrite !tags_insert by done. by rewrite Hx1, <- Heq, ?Hb1, ?Hs1, ?Hm1.
    - intros s3 Hi3 Hpl Hl3. cbn [negb]. wp_step.
      destruct (inv_arena _ _ _ _ _ _ _ _ Hi3) as (a3&Ha3&Hq3&Hsta3).
      eapply (wp_FreeBT _ _ _ _ _ _ _ _ _ _ false (uQuantum a3) (λ e, e = ra_env s3));
        [exact Hi3|by rewrite lookup_insert_eq|done|by rewrite Ha3|apply backing_false|].
      intros s4 segs4 fl4 dat4 Hi4 Htags Hl4 He4. wp_step.
      eapply HF; [exact Hi4|apply free_mode_le| | |].
      + split.
        * rewrite Htags, lives_free_tags, !tags_insert by done. by rewrite !lives_app, lives_other, Hx1, Hz1.
        * intros lo hi ->. rewrite Htags, (bytes_free_tags lo hi).
          -- rewrite !tags_insert by done. rewrite Hx1, Hb1, Hs1, Hm1, Heq, !bytes_app, bytes_carve, (bytes_tile sg);
               unfold endof; done || lia.
          -- rewrite <- (tags_mid _ xs p zs _) by by rewrite lookup_insert_eq. apply (i_wf _ _ _ _ _ _ _ _ Hi3).
      + intros Hpl'. by apply Hpl, Hl2.
      + eapply calm_trans; [apply quiet_calm, Hl2|]. eapply calm_trans; [by apply quiet_calm|].
        split; [done|]. intros Hno. destruct He4 as [Himp|He4]; [|done]. exfalso.
        destruct md; [done|]. unfold no_import in Hno. rewrite Ha3 in Hno. simpl in Hno.
        destruct Hsta3 as (_&_&_&Hsta3). congruence. }
  destruct (Z.gtb_spec (s_size sg) n) as [Hgt|Hle].
  - wp_step. wp_step. eapply inv_split; [done|by left|done|done|lia| |].
    + intros s1 Hi1 Hs1 Hpl. unfold IMG_NULL. rewrite Z.eqb_refl.
      wp_step. eapply inv_put; [done|apply not_elem_of_nil|done|done|]. intros s2 fl2 Hi2 Hs2.
      wp_step. unfold K. cbn [negb]. wp_step. eapply HF; [exact Hi2|apply mode_le_refl| |done|].
      * rewrite (tags_mid _ xs p ys (set_free sg)), !tags_insert by (done || by rewrite lookup_insert_eq).
        apply tags_kept_set_free; [congruence|done].
      * eapply calm_trans; by eapply steps_calm, step_steps.
    + intros s1 q Hq0 Hqp Hq Hi1 Hs1. unfold IMG_NULL. destruct (Z.eqb_spec q 0); [done|].
      assert (q ∉ xs ∧ q ∉ ys) as [Hqx Hqy].
      { assert (q ∉ xs ++ p :: ys) as Hqn; [|clear - Hqn; set_solver].
        intros Hin. destruct (inv_some _ _ _ _ _ _ _ _ _ Hi Hin). congruence. }
      assert (<[p:=split_lo sg n]> (<[q:=split_hi sg n]> dat) !! q = Some (split_hi sg n)) as Hqd.
      { by rewrite lookup_insert_ne, lookup_insert_eq. }
      pose proof (inv_bounds _ _ _ _ _ _ _ _ _ _ Hi Hp Ht) as Hbd.
      unfold endof, ADDR_MAX in Hbd.
      wp_step. eapply inv_put; [exact Hi1|by rewrite list_elem_of_singleton|exact Hqd|done|].
      intros s2 fl2 Hi2 Hs2. wp_step.
      rewrite (insert_insert_ne _ q p) in Hi2 by congruence. rewrite insert_insert_eq in Hi2.
      eapply HK; [exact Hi2|by rewrite lookup_insert_eq|done|done|done|done|done|..].
      * by rewrite !tags_insert.
      * rewrite (tags_cons _ q ys (set_free (split_hi sg n)))
          by (rewrite lookup_insert_ne, lookup_insert_eq; done).
        by rewrite lives_free, !tags_insert.
      * rewrite (tags_cons _ q ys (set_free (split_hi sg n)))
          by (rewrite lookup_insert_ne, lookup_insert_eq; done).
        rewrite !tags_insert by done. unfold carve, endof. rewrite Z.ltb_irrefl.
        destruct (Z.ltb_spec (s_base sg + n) (s_base sg + s_size sg)); [|lia].
        replace (s_base sg + s_size sg - (s_base sg + n)) with (s_size sg - n) by lia.
        unfold set_free, split_hi. simpl. by nowrap.
      * eapply quiet_trans; by eapply step_quiet.
  - wp_step. eapply HK; [exact Hi|exact Hp|done|done|done|lia|done|done|done| |apply quiet_refl].
    unfold carve, endof. rewrite Z.ltb_irrefl.
    destruct (Z.ltb_spec (s_base sg + n) (s_base sg + s_size sg)); [lia|]. done.
Qed.

(** [L'] is [L] with [n] bytes at [b] carved out of a free tag of mapping [m]. *)
Definition carved (L L' : list seg) (b n m : Z) : Prop :=
  ∃ L1 x L2, L = L1 ++ x :: L2 ∧ s_type x = btt_free ∧ s_base x ≤ b ∧ b + n ≤ endof x ∧
    s_map x = m ∧ L' = L1 ++ carve x b n ++ L2.

Lemma carve_front x b n :
  s_base x < b →
  carve x b n = mkSeg btt_free (s_base x) (b - s_base x) (s_map x) ::
    carve (mkSeg btt_free b (endof x - b) (s_map x)) b n.
Proof.
  intros Hb. unfold carve, endof. simpl. destruct (Z.ltb_spec (s_base x) b); [|lia].
  rewrite Z.ltb_irrefl. simpl. by replace (b + (s_base x + s_size x - b)) with (s_base x + s_size x) by lia.
Qed.

Lemma wp_take_segment md k s segs fl dat hm p sg ab n Q :
  inv [] md k s segs fl dat hm → dat !! p = Some sg → s_type sg = btt_free →
  0 < n → s_base sg ≤ ab → ab + n ≤ endof sg → capacity hm →
  (∀ s' segs' fl' dat' q, inv [] md k s' segs' fl' dat' (<[[ab] := q]> hm) →
     carved (tags dat segs) (tags dat' segs') ab n (s_map sg) →
     quiet s s' → Q (Some (ab, s_map sg)) s') →
  failed md k s hm (tags dat segs) Q →
  wp (take_segment p ab n) Q s.
Proof.
  intros Hi Hp Hf Hn Hlo Hhi Hcap HQ HF. pose proof (free_tile _ Hf) as Ht.
  pose proof (inv_bounds _ _ _ _ _ _ _ _ _ _ Hi Hp Ht) as Hbd. unfold ADDR_MAX in Hbd.
  destruct (wf_mid _ _ _ _ _ _ _ _ (i_wf _ _ _ _ _ _ _ _ Hi) Hp) as (xs&ys&->&Hx&Hy).
  rewrite (tags_mid _ xs p ys sg Hp) in HQ, HF.
unfold take_segment.
  wp_step. eapply inv_take; [done|done|done|apply not_elem_of_nil|]. intros s1 fl1 Hi1 Hs1.
  assert (quiet s s1) as Hl1 by by eapply step_quiet.
  wp_step. eapply wp_rd_seg; [apply Hi1|done|]. intros b _ Hb. unfold id.
  replace (base b) with (s_base sg) by by subst. clear b Hb.
  destruct (Z.gtb_spec ab (s_base sg)) as [Hgt|Hle].
  - unfold endof in *. rewrite u32_small by (unfold is_u32; lia).
    wp_step. wp_step. eapply inv_split; [done|by left|done|done|lia| |].
    + intros s2 Hi2 Hs2 Hpl. unfold IMG_NULL. rewrite Z.eqb_refl.
      wp_step. eapply inv_put; [done|apply not_elem_of_nil|done|done|]. intros s3 fl3 Hi3 Hs3.
      wp_step. wp_step. eapply HF; [exact Hi3|apply mode_le_refl| | |].
      * rewrite (tags_mid _ xs p ys (set_free sg)), !tags_insert by (done || by rewrite lookup_insert_eq).
        apply tags_kept_set_free; [congruence|done].
      * intros Hpl'. by apply Hpl, Hl1.
      * eapply calm_trans; [by apply quiet_calm|]. eapply calm_trans; by eapply steps_calm, step_steps.
    + intros s2 q Hq0 Hqp Hq Hi2 Hs2. unfold IMG_NULL. destruct (Z.eqb_spec q 0); [done|].
      assert (q ∉ xs ∧ q ∉ ys) as [Hqx Hqy].
      { assert (q ∉ xs ++ p :: ys) as Hqn; [|clear - Hqn; set_solver].
        intros Hin. destruct (inv_some _ _ _ _ _ _ _ _ _ Hi Hin). congruence. }
      set (lo := split_lo sg (ab - s_base sg)) in *.
      assert (split_hi sg (ab - s_base sg) = mkSeg btt_free ab (endof sg - ab) (s_map sg)) as Hhi'.
      { unfold split_hi, endof. nowrap. f_equal; lia. }
      rewrite Hhi' in Hi2. set (hi := mkSeg btt_free ab (endof sg - ab) (s_map sg)) in *.
      wp_step. eapply (inv_put [q]); [eapply inv_hand; [|exact Hi2]| |by rewrite lookup_insert_eq|done|].
      { intros r. rewrite !elem_of_cons. tauto. }
      { by rewrite list_elem_of_singleton. }
      intros s3 fl3 Hi3 Hs3. rewrite insert_insert_eq in Hi3. wp_step.
      assert (<[p:=set_free lo]> (<[q:=hi]> dat) !! q = Some hi) as Hqd.
      { by rewrite lookup_insert_ne, lookup_insert_eq. }
      assert (quiet s s3) as Hl3.
      { eapply quiet_trans; [done|]. eapply quiet_trans; by eapply step_quiet. }
      replace (xs ++ p :: q :: ys) with ((xs ++ [p]) ++ q :: ys) in Hi3 by by rewrite <- (assoc_L app).
      assert (tags (<[p:=set_free lo]> (<[q:=hi]> dat)) (xs ++ [p]) = tags dat xs ++ [set_free lo]) as Htx.
      { rewrite (tags_mid _ xs p [] (set_free lo)) by by rewrite lookup_insert_eq.
        change (tags _ []) with (@nil seg).
        by rewrite !tags_insert. }
      assert (tags (<[p:=set_free lo]> (<[q:=hi]> dat)) ys = tags dat ys) as Hty.
      { by rewrite !tags_insert. }
      eapply wp_take_back; [exact Hi3|exact Hqd|done|done| |done| |].
      * subst hi. unfold endof. simpl. lia.
      * intros s4 segs4 fl4 dat4 r Hi4 Htags Hl4. eapply HQ; [exact Hi4| |by eapply quiet_trans].
        exists (tags dat xs), sg, (tags dat ys). split_and!; [done|done|done|unfold endof; lia|done|].
        rewrite Htags, Htx, Hty, (carve_front sg) by lia. rewrite <- !(assoc_L app). done.
      * intros s4 md4 segs4 fl4 dat4 Hi4 Hmd Hlv Hpl Hl4. eapply HF; [exact Hi4|done| | |].
        -- eapply tags_kept_same; [| |exact Hlv]; rewrite Htx, Hty, <- (assoc_L app); simpl.
           ++ by rewrite !lives_app, !lives_free.
           ++ rewrite !bytes_app, !bytes_tile by done. simpl. unfold endof. lia.
        -- intros Hpl'. by apply Hpl, Hl3.
        -- eapply calm_trans; [by apply quiet_calm|done].
  - assert (ab = s_base sg) as -> by lia. wp_step.
    eapply wp_take_back; [exact Hi1|exact Hp|congruence|done| |done| |].
    + unfold endof in *. lia.
    + intros s4 segs4 fl4 dat4 r Hi4 Htags Hl4. eapply HQ; [exact Hi4| |by eapply quiet_trans].
      exists (tags dat xs), sg, (tags dat ys). by split_and!.
    + intros s4 md4 segs4 fl4 dat4 Hi4 Hmd Hlv Hpl Hl4.
      eapply HF; [exact Hi4|done|done| |eapply calm_trans; [by apply quiet_calm|done]]. intros Hpl'. by apply Hpl, Hl1.
Qed.

(** ** The search *)

(** [uAlignmentOffset % uAlignment] when there is an alignment. *)
Definition offset_of (al off : Z) : Z := if al >? 1 then off mod al else off.

(** [b + offset] is a multiple of the alignment. *)
Definition aligned (b al off : Z) : Prop := 1 < al → (b + off) mod al = 0.

Lemma align_base_spec b al off :
  0 ≤ b ≤ ADDR_MAX → is_u32 al → is_u32 off →
  let r := align_base b al (offset_of al off) in
  b ≤ r ∧ r ≤ b + Z.max 0 (al - 1) ∧ aligned r al off.
Proof.
  unfold ADDR_MAX, is_u32. intros Hb Hal Hoff. unfold align_base, offset_of, aligned.
  destruct (Z.gtb_spec al 1) as [Hgt|Hle]; [|split_and!; lia].
  pose proof (Z.mod_pos_bound off al ltac:(lia)) as Ho. set (o := off mod al) in *.
  rewrite (u64_small (b + o + al - 1)) by (unfold is_u64; lia).
  pose proof (Z.div_mod (b + o + al - 1) al ltac:(lia)) as Hd.
  pose proof (Z.mod_pos_bound (b + o + al - 1) al ltac:(lia)) as Hm.
  set (q := (b + o + al - 1) / al) in *.
  assert (b + o ≤ q * al ≤ b + o + al - 1) as Hq by lia.
  rewrite (u64_small (q * al)) by (unfold is_u64; lia).
  rewrite u64_small by (unfold is_u64; lia). split_and!; [lia|lia|]. intros _.
  replace (q * al - o + off) with ((q + off / al) * al).
  { apply Z_mod_mult. }
  pose proof (Z.div_mod off al ltac:(lia)). subst o. lia.
Qed.

Definition flags_ok (e : E) (m fl : Z) : Prop := m = 0 ∨ map_flags e m = Some fl.

(** The tag can take [n] bytes. *)
Definition fit (e : E) (x : seg) (n fl al off : Z) : Prop :=
  align_base (s_base x) al (offset_of al off) + n ≤ endof x ∧ flags_ok e (s_map x) fl.

Lemma wp_flags_match s m fl Q :
  m = 0 ∨ is_Some (map_flags (ra_env s) m) →
  (∀ r : bool, (r = true ↔ flags_ok (ra_env s) m fl) → Q r s) →
  wp (flags_match map_flags m fl) Q s.
Proof.
  intros Hm HQ. unfold flags_match, IMG_NULL. destruct (Z.eqb_spec m 0) as [->|Hne].
  - wp_step. apply HQ. unfold flags_ok. tauto.
  - destruct Hm as [|[f Hf]]; [done|]. wp_step. wp_step. rewrite Hf. wp_step. wp_step. wp_step.
    apply HQ. unfold flags_ok. rewrite Hf, Z.eqb_eq. naive_solver.
Qed.

Section search.
Context (md : mode) (k : Z) (s : ra_st (E:=E)) (segs : list Z) (fl : list (list Z))
  (dat : gmap Z seg) (hm : gmap (list Z) Z) (n flags al off : Z).

(** What an allocation attempt may end in. *)
Definition succeeds (Q : option (Z * Z) → ra_st → Prop) : Prop :=
  ∀ s' segs' fl' dat' q b m, inv [] md k s' segs' fl' dat' (<[[b] := q]> hm) →
    carved (tags dat segs) (tags dat' segs') b n m → aligned b al off →
    flags_ok (ra_env s) m flags → quiet s s' → Q (Some (b, m)) s'.

Lemma wp_try_list fuel i xs ys Q :
  inv [] md k s segs fl dat hm → fl !! i = Some (xs ++ ys) → (length ys < fuel)%nat →
  0 < n < 4294967296 → is_u32 al → is_u32 off → capacity hm →
  ((∀ p sg, p ∈ ys → dat !! p = Some sg → ¬ fit (ra_env s) sg n flags al off) → Q None s) →
  succeeds (λ r, Q (Some r)) → failed md k s hm (tags dat segs) (λ r, Q (Some r)) →
  wp (try_list map_flags fuel (hd_or 0 ys) n flags al (offset_of al off)) Q s.
Proof.
  intros Hi Hfl Hf Hn Hal Hoff Hcap HN HS HF.
  revert xs ys Hfl Hf HN. induction fuel as [|fuel IH]; intros xs ys Hfl Hf HN; [lia|].
  destruct ys as [|p ys]; ends; cbn [try_list]; unfold IMG_NULL.
  { rewrite Z.eqb_refl. wp_step. apply HN. set_solver. }
  destruct (w_free' _ _ _ _ _ _ (i_wf _ _ _ _ _ _ _ _ Hi) _ _ p Hfl ltac:(set_solver))
    as (_&sg&Hp&Hfree&Hbin).
  pose proof (i_rep _ _ _ _ _ _ _ _ Hi) as Hr.
  destruct (dll_mid freeL _ _ _ _ _ _ (proj1 (rep_fl _ _ _ _ (rep_is_heap _ _ _ _ Hr) _ _ Hfl)))
    as (Hp0&b&Hb&_&Hnext). simpl in Hnext.
  pose proof (rep_dat_lookup _ _ _ _ _ _ Hr Hb) as Hp'. rewrite Hp in Hp'. injection Hp' as ->.
  pose proof (inv_bounds _ _ _ _ _ _ _ _ _ _ Hi Hp (free_tile _ Hfree)) as Hbd.
  pose proof (i_maps _ _ _ _ _ _ _ _ Hi _ _ Hp (free_tile _ Hfree)) as Hmap.
  destruct (Z.eqb_spec p 0); [done|]. ra_step. ra_step. unfold id.
  unfold endof in *. simpl in *.
  destruct (align_base_spec (base b) al off) as (Hlo&Hhi&Halign); [lia|done|done|].
  set (ab := align_base (base b) al (offset_of al off)) in *.
  unfold ADDR_MAX, is_u32 in *.
  rewrite (u64_small (base b + uBTSize b)), (u64_small (ab + n)) by (unfold is_u64; lia).
  assert (∀ Q' : Prop, (¬ fit (ra_env s) (seg_of b) n flags al off → Q') →
    (fit (ra_env s) (seg_of b) n flags al off → False) → Q') as Hno by auto.
  assert ((fit (ra_env s) (seg_of b) n flags al off → False) →
    wp (next ← rd p pNextFree; try_list map_flags fuel next n flags al (offset_of al off)) Q s) as Hskip.
  { intros Hnofit. ra_step. ra_step. rewrite Hnext. apply (IH (xs ++ [p])).
    - by rewrite <- (assoc_L app).
    - simpl in Hf. lia.
    - intros Hys. apply HN. intros q sq [->|Hq]%elem_of_cons Hsq; [|by eapply Hys].
      simplify_eq. done. }
  destruct (Z.geb_spec (base b + uBTSize b) (ab + n)) as [Hge|Hlt].
  - wp_step. apply wp_flags_match; [done|]. intros [] Hr'.
    + wp_step. eapply wp_take_segment; [done|exact Hp|done|lia|exact Hlo|exact Hge|done| |].
      * intros s' segs' fl' dat' q Hi' Hc Hl. wp_step. eapply HS; [done..| |done]. by apply Hr'.
      * intros s' md' segs' fl' dat' Hi' Hmd Hlv Hpl Hl. wp_step. by eapply HF.
    + apply Hskip. intros [_ Hfit]. by apply Hr' in Hfit.
  - wp_step. wp_step. apply Hskip. intros [Hfit _]. unfold endof in Hfit. simpl in Hfit.
    change (align_base (base b) al (offset_of al off)) with ab in Hfit. lia.
Qed.

Lemma free_list_length i xs : inv [] md k s segs fl dat hm → fl !! i = Some xs →
  (length xs ≤ size (ra_heap s))%nat.
Proof.
  intros Hi Hfl. pose proof (rep_fl _ _ _ _ (rep_is_heap _ _ _ _ (i_rep _ _ _ _ _ _ _ _ Hi)) _ _ Hfl) as Hd.
  apply NoDup_keys_length; [apply Hd|]. intros x Hx. eapply dlist_in; [|done]. exact Hd.
Qed.

Lemma wp_try_lists c u Q :
  inv [] md k s segs fl dat hm → 0 ≤ u → (Z.to_nat u + c = FREE_TABLE_LIMIT)%nat →
  0 < n < 4294967296 → is_u32 al → is_u32 off → capacity hm →
  ((∀ i xs p sg, (Z.to_nat u ≤ i)%nat → fl !! i = Some xs → p ∈ xs → dat !! p = Some sg →
      ¬ fit (ra_env s) sg n flags al off) → Q None s) →
  succeeds Q → failed md k s hm (tags dat segs) Q →
  wp (try_lists map_flags c u n flags al (offset_of al off)) Q s.
Proof.
  intros Hi Hu Hc Hn Hal Hoff Hcap HN HS HF.
  pose proof (rep_flen _ _ _ _ (rep_is_heap _ _ _ _ (i_rep _ _ _ _ _ _ _ _ Hi))) as Hlen.
  revert u Hu Hc HN. induction c as [|c IH]; intros u Hu Hc HN; cbn [try_lists].
  - wp_step. apply HN. intros i xs p sg Hui Hxs. apply lookup_lt_Some in Hxs. lia.
  - destruct (lookup_lt_is_Some_2 fl (Z.to_nat u)) as [xs Hxs]; [lia|].
    wp_step. eapply wp_head_free; [apply Hi|done|done|]. wp_step. wp_step. wp_step.
    eapply (wp_try_list _ _ [] xs); [done|done| |done..| | |].
    + pose proof (free_list_length _ _ Hi Hxs). lia.
    + intros Hnone. apply IH; [lia|lia|]. intros Hrest. apply HN.
      intros i ys p sg Hui Hys Hp Hsg. destruct (decide (i = Z.to_nat u)) as [->|Hne].
      * simplify_eq. by eapply Hnone.
      * eapply Hrest; [|done..]. lia.
    + intros s' segs' fl' dat' q b m Hi' Hcv Hali Hfo Hl. wp_step. by eapply HS.
    + intros s' md' segs' fl' dat' Hi' Hmd Hlv Hpl Hl. wp_step. by eapply HF.
Qed.

Lemma wp_AttemptAllocAligned Q :
  inv [] md k s segs fl dat hm → 0 < n < 4294967296 → is_u32 al → is_u32 off → capacity hm →
  ((∀ p sg, dat !! p = Some sg → s_type sg = btt_free → ¬ fit (ra_env s) sg n flags al off) →
     Q None s) →
  succeeds Q → failed md k s hm (tags dat segs) Q →
  wp (_AttemptAllocAligned map_flags n flags al off) Q s.
Proof.
  intros Hi Hn Hal Hoff Hcap HN HS HF. unfold _AttemptAllocAligned.
  wp_step. eapply rep_arena_null; [apply Hi|]. change (if al >? 1 then off mod al else off) with (offset_of al off).
  assert (is_u32 n) as Hu by (unfold is_u32; lia).
  pose proof (bin_lt _ Hu) as Hbin. unfold bin in Hbin.
  rewrite (pvr_log2_spec _ Hu). pose proof (Z.log2_nonneg n).
  apply wp_try_lists; [done|done|lia|done..| |done|done].
  intros Hnone. apply HN. intros p sg Hp Hf [Hfit Hfl].
  destruct (w_free _ _ _ _ _ _ (i_wf _ _ _ _ _ _ _ _ Hi) _ _ Hp Hf ltac:(apply not_elem_of_nil))
    as (xs&Hxs&Hin).
  eapply Hnone; [|done..|by split]. unfold bin.
  pose proof (inv_bounds _ _ _ _ _ _ _ _ _ _ Hi Hp (free_tile _ Hf)) as Hbd.
  unfold ADDR_MAX, endof in *.
  destruct (align_base_spec (s_base sg) al off) as (Hlo&_); [unfold ADDR_MAX; lia|done|done|].
  apply Z2Nat.inj_le; [done|apply Z.log2_nonneg|]. apply Z.log2_le_mono. lia.
Qed.
End search.
End alloc.
