(* ===== verification/RAImport.v ===== *)
(** * The resource allocator: resources and imported spans *)

From S2P Require Import Prelude Hash DList RA RARep RAGeo RAInv RAOps RAAlloc.

Section build.
Context {E : Type}.
Implicit Types (s : ra_st (E:=E)) (a : RA_ARENA (E:=E)).

(** ** New tags *)

Lemma wp_BuildSpanMarker b n segs fl dat s Q :
  rep s segs fl dat →
  (∀ s', rep s' segs fl dat → step 0 s s' → ¬ plenty (ra_os s) → Q IMG_NULL s') →
  (∀ s' p, dat !! p = None → p ≠ 0 → rep s' segs fl (<[p := mkSeg btt_span b n 0]> dat) →
     step 1 s s' → Q p s') →
  wp (_BuildSpanMarker b n) Q s.
Proof.
  intros Hr H0 H1. unfold _BuildSpanMarker. wp_step. eapply wp_alloc_BT; [done|..].
  { intros s' Hr' Hs' Hpl _. rewrite Z.eqb_refl. wp_step. by apply H0. }
  intros s1 p Hp Hp0 Hr1 Hs1 _. unfold IMG_NULL. destruct (Z.eqb_spec p 0); [done|].
  wp_step. eapply (wp_wr_data p (set_type btt_span) (λ x, mkSeg btt_span (s_base x) (s_size x) (s_map x)));
    [exact Hr1|by rewrite lookup_insert_eq|done..|]. intros s2 Hr2 Hs2 _. rewrite insert_insert_eq in Hr2.
  wp_step. eapply (wp_wr_data p (set_base b) (λ x, mkSeg (s_type x) b (s_size x) (s_map x)));
    [exact Hr2|by rewrite lookup_insert_eq|done..|]. intros s3 Hr3 Hs3 _. rewrite insert_insert_eq in Hr3.
  wp_step. eapply (wp_wr_data p (set_size n) (λ x, mkSeg (s_type x) (s_base x) n (s_map x)));
    [exact Hr3|by rewrite lookup_insert_eq|done..|]. intros s4 Hr4 Hs4 _. rewrite insert_insert_eq in Hr4.
  wp_step. eapply (wp_wr_data p (set_psMapping 0) (λ x, mkSeg (s_type x) (s_base x) (s_size x) 0));
    [exact Hr4|by rewrite lookup_insert_eq|done..|]. intros s5 Hr5 Hs5 _. rewrite insert_insert_eq in Hr5.
  wp_step. apply H1; [done|done|exact Hr5|].
  eapply step_eq; [repeat (eapply step_trans; [eassumption|]); apply step_refl|done].
Qed.

Lemma wp_BuildBT b n segs fl dat s Q :
  rep s segs fl dat →
  (∀ s', rep s' segs fl dat → step 0 s s' → ¬ plenty (ra_os s) → Q IMG_NULL s') →
  (∀ s' p, dat !! p = None → p ≠ 0 → rep s' segs fl (<[p := mkSeg btt_free b n 0]> dat) →
     step 1 s s' → Q p s') →
  wp (_BuildBT b n) Q s.
Proof.
  intros Hr H0 H1. unfold _BuildBT. wp_step. eapply wp_alloc_BT; [done|..].
  { intros s' Hr' Hs' Hpl _. rewrite Z.eqb_refl. wp_step. by apply H0. }
  intros s1 p Hp Hp0 Hr1 Hs1 _. unfold IMG_NULL. destruct (Z.eqb_spec p 0); [done|].
  wp_step. eapply (wp_wr_data p (set_type btt_free) (λ x, mkSeg btt_free (s_base x) (s_size x) (s_map x)));
    [exact Hr1|by rewrite lookup_insert_eq|done..|]. intros s2 Hr2 Hs2 _. rewrite insert_insert_eq in Hr2.
  wp_step. eapply (wp_wr_data p (set_base b) (λ x, mkSeg (s_type x) b (s_size x) (s_map x)));
    [exact Hr2|by rewrite lookup_insert_eq|done..|]. intros s3 Hr3 Hs3 _. rewrite insert_insert_eq in Hr3.
  wp_step. eapply (wp_wr_data p (set_size n) (λ x, mkSeg (s_type x) (s_base x) n (s_map x)));
    [exact Hr3|by rewrite lookup_insert_eq|done..|]. intros s4 Hr4 Hs4 _. rewrite insert_insert_eq in Hr4.
  wp_step. apply H1; [done|done|exact Hr4|].
  eapply step_eq; [repeat (eapply step_trans; [eassumption|]); apply step_refl|done].
Qed.

(** Undoing the construction of a tag that is in no list. *)
Lemma wp_free_built p sg segs fl dat s Q :
  rep s segs fl (<[p := sg]> dat) → dat !! p = None →
  (∀ q, q ∈ segs → is_Some (dat !! q)) → (∀ q, q ∈ concat fl → is_Some (dat !! q)) →
  (∀ s', rep s' segs fl dat → step (-1) s s' → Q tt s') →
  wp (free_BT p) Q s.
Proof.
  intros Hr Hp Hseg Hfl HQ. eapply wp_free_BT; [exact Hr|by rewrite lookup_insert_eq| | |].
  - intros Hin%Hseg. rewrite Hp in Hin. by destruct Hin.
  - intros Hin%Hfl. rewrite Hp in Hin. by destruct Hin.
  - intros s' Hr' Hs' _. rewrite delete_insert_id in Hr' by done. by apply HQ.
Qed.

(** ** Imported spans *)

Lemma wp_InsertResourceSpan b n segs fl dat s l Q :
  rep s segs fl dat → (∀ q, q ∈ segs ↔ is_Some (dat !! q)) →
  (∀ q, q ∈ concat fl → is_Some (dat !! q)) →
  0 < n < 4294967296 → 0 ≤ b → b + n ≤ ADDR_MAX → fl !! bin n = Some l →
  (∀ s', rep s' segs fl dat → step 0 s s' → ¬ plenty (ra_os s) → Q IMG_NULL s') →
  (∀ s' st p en xs ys, segs = xs ++ ys → insert_split dat b xs ys →
     dat !! st = None → dat !! p = None → dat !! en = None → NoDup [st; p; en] → p ≠ 0 →
     rep s' (xs ++ st :: p :: en :: ys) (<[bin n := p :: l]> fl)
       (<[p := mkSeg btt_free b n 0]> (<[en := mkSeg btt_span (b + n) 0 0]>
         (<[st := mkSeg btt_span b n 0]> dat))) →
     step 3 s s' → Q p s') →
  wp (_InsertResourceSpan b n) Q s.
Proof.
  intros Hr Hdom Hfr Hn Hb Hmax Hl H0 H1. unfold _InsertResourceSpan.
  wp_step. eapply rep_arena_null; [done|].
  wp_step. eapply wp_BuildSpanMarker; [done| |].
  { intros s1 Hr1 Hs1 Hpl. rewrite Z.eqb_refl. wp_step. by apply H0. }
  intros s1 st Hst Hst0 Hr1 Hs1. unfold IMG_NULL at 1. destruct (Z.eqb_spec st 0); [done|].
  unfold ADDR_MAX in Hmax. rewrite u64_small by (unfold is_u64; lia).
  wp_step. eapply wp_BuildSpanMarker; [exact Hr1| |].
  { intros s2 Hr2 Hs2 Hpl. rewrite Z.eqb_refl. wp_step.
    eapply wp_free_built; [exact Hr2|done|by apply Hdom|done|]. intros s3 Hr3 Hs3. wp_step.
    apply H0; [done| |].
    - eapply step_eq; [exact (step_trans _ _ _ _ _ Hs1 (step_trans _ _ _ _ _ Hs2 Hs3))|done].
    - intros Hpl'. by apply Hpl, Hs1. }
  intros s2 en Hen Hen0 Hr2 Hs2. unfold IMG_NULL at 1. destruct (Z.eqb_spec en 0); [done|].
  apply lookup_insert_None in Hen as [Hen Hne].
  wp_step. eapply wp_BuildBT; [exact Hr2| |].
  { intros s3 Hr3 Hs3 Hpl. rewrite Z.eqb_refl. wp_step.
    eapply wp_free_built; [exact Hr3|by rewrite lookup_insert_ne| | |].
    { intros q Hq%Hdom. rewrite lookup_insert_is_Some. destruct (decide (st = q)); tauto. }
    { intros q Hq%Hfr. rewrite lookup_insert_is_Some. destruct (decide (st = q)); tauto. }
    intros s4 Hr4 Hs4. wp_step.
    eapply wp_free_built; [exact Hr4|done|by apply Hdom|done|]. intros s5 Hr5 Hs5. wp_step.
    apply H0; [done| |].
    - eapply step_eq; [exact (step_trans _ _ _ _ _ Hs1 (step_trans _ _ _ _ _ Hs2
        (step_trans _ _ _ _ _ Hs3 (step_trans _ _ _ _ _ Hs4 Hs5))))|done].
    - intros Hpl'. by apply Hpl, Hs2, Hs1. }
  intros s3 p Hp Hp0 Hr3 Hs3. unfold IMG_NULL at 1. destruct (Z.eqb_spec p 0); [done|].
  apply lookup_insert_None in Hp as [[Hp Hpst]%lookup_insert_None Hpen].
  cbv zeta. set (dat3 := <[p:=mkSeg btt_free b n 0]> _) in *.
  assert (∀ q, dat !! q = None → q ∉ segs) as Hns.
  { intros q Hq Hin%Hdom. rewrite Hq in Hin. by destruct Hin. }
  assert (∀ q, q ∈ segs → dat3 !! q = dat !! q) as Hsame.
  { intros q Hq. unfold dat3. rewrite !lookup_insert_ne; [done|..]; intros ->; by apply (Hns q). }
  assert (dat3 !! st = Some (mkSeg btt_span b n 0)) as Hst3.
  { unfold dat3. by rewrite !lookup_insert_ne, lookup_insert_eq by congruence. }
  assert (dat3 !! en = Some (mkSeg btt_span (b + n) 0 0)) as Hen3.
  { unfold dat3. by rewrite lookup_insert_ne, lookup_insert_eq by congruence. }
  assert (dat3 !! p = Some (mkSeg btt_free b n 0)) as Hp3.
  { unfold dat3. by rewrite lookup_insert_eq. }
  wp_step. eapply (wp_SegmentListInsert _ b); [exact Hr3| |by apply Hns|].
  { unfold base_is. by rewrite Hst3. }
  intros s4 xs ys -> Hsp Hr4 Hs4 _. cbn [negb is_OK].
  wp_step. eapply wp_SegmentListInsertAfter; [exact Hr4|by rewrite Hp3| |].
  { pose proof (Hns _ Hp). set_solver. }
  intros s5 Hr5 Hs5 _. cbn [negb is_OK].
  wp_step. eapply wp_FreeListInsert; [exact Hr5|exact Hp3|unfold is_u32; simpl; lia| |exact Hl|].
  { intros Hin%Hfr. rewrite Hp in Hin. by destruct Hin. }
  intros s6 Hr6 Hs6. unfold set_free in Hr6. simpl in Hr6. unfold dat3 in Hr6 at 1.
  rewrite insert_insert_eq in Hr6. fold dat3 in Hr6.
  wp_step. replace (xs ++ st :: p :: ys) with ((xs ++ [st]) ++ p :: ys) in Hr6 by by rewrite <- (assoc_L app).
  eapply wp_SegmentListInsertAfter; [exact Hr6|by rewrite Hen3| |].
  { pose proof (Hns _ Hen). set_solver. }
  intros s7 Hr7 Hs7 _. cbn [negb is_OK]. wp_step. rewrite <- (assoc_L app) in Hr7. simpl in Hr7.
  eapply H1; [done| |exact Hst|exact Hp|exact Hen| |done|exact Hr7|].
  - destruct Hsp as [Hs1' Hs2']. split.
    + intros x bx Hx Hbx. apply (Hs1' x); [done|]. unfold base_is in *. rewrite Hsame by set_solver. done.
    + intros y by_ Hy Hby. apply (Hs2' y); [done|]. unfold base_is in *.
      rewrite Hsame; [done|]. apply head_Some_elem_of in Hy. set_solver.
  - rewrite !NoDup_cons. split_and!; [..|apply not_elem_of_nil|apply NoDup_nil_2]; set_solver.
  - eapply step_eq; [exact (step_trans _ _ _ _ _ Hs1 (step_trans _ _ _ _ _ Hs2
      (step_trans _ _ _ _ _ Hs3 (step_trans _ _ _ _ _ Hs4 (step_trans _ _ _ _ _ Hs5
        (step_trans _ _ _ _ _ Hs6 Hs7))))))|done].
Qed.
End build.

Section import.
Context {E : Type} {map_flags : E → Z → option Z} {src : ImportSource map_flags}.
Implicit Types (s : ra_st (E:=E)) (a : RA_ARENA (E:=E)) (md : mode) (k : Z).

Lemma inv_free_some X md k s segs fl dat hm q :
  inv X md k s segs fl dat hm → q ∈ concat fl → is_Some (dat !! q).
Proof.
  intros Hi (i&l&Hl&Hq)%list_elem_of_concat.
  destruct (w_free' _ _ _ _ _ _ (i_wf _ _ _ _ _ _ _ _ Hi) _ _ _ Hl Hq) as (_&sg&?&_). eauto.
Qed.

Lemma split_tags dat b xs ys :
  (∀ p, p ∈ xs ++ ys → is_Some (dat !! p)) → insert_split dat b xs ys →
  splits_at b (tags dat xs) (tags dat ys).
Proof.
  intros Hd [H1 H2]. split.
  - intros x (p&Hp&Hx)%tags_elem. apply (H1 p); [done|]. unfold base_is. by rewrite Hx.
  - intros y Hy. rewrite tags_head in Hy by set_solver.
    destruct (head ys) as [q|] eqn:Hq; [|done]. simpl in Hy. apply (H2 q); [done|].
    unfold base_is. by rewrite Hy.
Qed.

(** Only the mode changes. *)
Lemma wf_mode X md md' segs fl dat hm :
  wf X md segs fl dat hm → geo md' (tags dat segs) → wf X md' segs fl dat hm.
Proof. intros [] ?. by split. Qed.

(** A fresh tile in hand. *)
Lemma wf_new X md md' xs ys fl dat dat' hm p segs' :
  wf X md (xs ++ ys) fl dat hm → dat !! p = None → NoDup segs' →
  (∀ q, q ∈ segs' ↔ is_Some (dat' !! q)) →
  (∀ q sq, q ≠ p → is_tile sq → dat' !! q = Some sq ↔ dat !! q = Some sq) →
  geo md' (tags dat' segs') → wf (p :: X) md' segs' fl dat' hm.
Proof.
  intros Hwf Hp Hnd Hdom Hsame Hg. eapply wf_change; [done..| |done].
  intros q sq. unfold settled. rewrite not_elem_of_cons. split.
  - intros (HX&Hq&Ht). assert (q ≠ p) by congruence. rewrite Hsame by done. done.
  - intros ([Hqp HX]&Hq&Ht). rewrite Hsame in Hq by done. done.
Qed.

Lemma inv_InsertResource lo hi k s segs fl dat hm b n Q :
  inv [] (Resource lo hi) k s segs fl dat hm → 0 < n < 4294967296 → lo ≤ b → b + n ≤ hi →
  disjoint_from (tags dat segs) b n →
  (∀ s', inv [] (Resource lo hi) k s' segs fl dat hm → ¬ plenty (ra_os s) → quiet s s' →
     Q IMG_NULL s') →
  (∀ s' p fl' xs ys, p ≠ 0 → segs = xs ++ ys → dat !! p = None →
     inv [] (Resource lo hi) k s' (xs ++ p :: ys) fl' (<[p := mkSeg btt_free b n 0]> dat) hm →
     splits_at b (tags dat xs) (tags dat ys) → quiet s s' → Q p s') →
  wp (_InsertResource b n) Q s.
Proof.
  intros Hi Hn Hlo Hhi Hdis H0 H1. unfold _InsertResource.
  pose proof (i_rep _ _ _ _ _ _ _ _ Hi) as Hr.
  wp_step. eapply rep_arena_null; [done|]. wp_step. eapply wp_BuildBT; [done| |].
  { intros s1 Hr1 Hs1 Hpl. rewrite Z.eqb_refl. cbn [negb]. wp_step.
    apply H0; [|done|by eapply step_quiet]. eapply inv_next; [done..|apply Hi|done|lia|by eauto]. }
  intros s1 p Hp Hp0 Hr1 Hs1. unfold IMG_NULL. destruct (Z.eqb_spec p 0); [done|]. cbn [negb].
  assert (p ∉ segs) as Hps.
  { intros Hin%(inv_some _ _ _ _ _ _ _ _ _ Hi). rewrite Hp in Hin. by destruct Hin. }
  set (x := mkSeg btt_free b n 0) in *.
  wp_step. eapply (wp_SegmentListInsert _ b); [exact Hr1| |done|].
  { unfold base_is. by rewrite lookup_insert_eq. }
  intros s2 xs ys -> Hsp Hr2 Hs2 _. cbn [negb is_OK].
  assert (splits_at b (tags dat xs) (tags dat ys)) as Hsp'.
  { rewrite <- (tags_insert dat p x xs), <- (tags_insert dat p x ys) by set_solver.
    apply split_tags; [|done]. intros q Hq. rewrite lookup_insert_is_Some.
    destruct (decide (p = q)); [by left|right]. split; [done|]. by eapply inv_some. }
  pose proof (step_trans _ _ _ _ _ Hs1 Hs2) as Hs12.
  assert (tags (<[p:=x]> dat) (xs ++ p :: ys) = tags dat xs ++ x :: tags dat ys) as Htags.
  { rewrite (tags_mid _ xs p ys x) by by rewrite lookup_insert_eq. by rewrite !tags_insert by set_solver. }
  assert (inv [p] (Resource lo hi) k s2 (xs ++ p :: ys) fl (<[p:=x]> dat) hm) as Hi2.
  { pose proof (w_nodup _ _ _ _ _ _ (i_wf _ _ _ _ _ _ _ _ Hi)) as Hnd.
    split; [done| | | |].
    - eapply wf_new; [apply Hi|done| | | |].
      + rewrite NoDup_app in *. rewrite NoDup_cons. set_solver.
      + intros q. pose proof (w_dom _ _ _ _ _ _ (i_wf _ _ _ _ _ _ _ _ Hi) q).
        rewrite lookup_insert_is_Some. destruct (decide (p = q)); set_solver.
      + intros q sq Hqp _. by rewrite lookup_insert_ne.
      + rewrite Htags. apply geo_insert_resource; [|done|simpl; lia|done|done|done|].
        * rewrite <- tags_app. apply Hi.
        * by rewrite <- tags_app.
    - rewrite (step_env _ _ _ Hs12). intros q sq [[<- <-]|[_ Hq]]%lookup_insert_Some Ht; [by left|].
      by eapply Hi.
    - eapply side_step; [exact Hs12|apply Hi].
    - destruct (step_os _ _ _ Hs12) as [Hl _]. rewrite Hl, (i_blocks _ _ _ _ _ _ _ _ Hi), !length_app.
      simpl. clear. lia. }
  wp_step. eapply inv_put; [exact Hi2|apply not_elem_of_nil|by rewrite lookup_insert_eq|done|].
  intros s3 fl3 Hi3 Hs3. wp_step. rewrite insert_insert_eq in Hi3.
  eapply H1; [done|done|done|exact Hi3|done|].
  eapply quiet_trans; [by eapply step_quiet|by eapply step_quiet].
Qed.

(** The tags of an import. *)
Definition span_tags (b n m : Z) : list seg :=
  [mkSeg btt_span b n 0; mkSeg btt_free b n m; mkSeg btt_span (b + n) 0 0].

(** A new import enters the list: [_InsertResourceSpan] and the write of the
    mapping that follows it in [RA_Alloc]. *)
Lemma inv_import R k s segs fl dat hm b n m Q1 Q0 :
  inv [] (Import (<[b := (n, m)]> R)) k s segs fl dat hm → geo (Import R) (tags dat segs) →
  R !! b = None → (m = 0 ∨ is_Some (map_flags (ra_env s) m)) →
  (∀ s', inv [] (Import (<[b := (n, m)]> R)) k s' segs fl dat hm → ¬ plenty (ra_os s) →
     quiet s s' → Q0 s') →
  (∀ s' segs' fl' dat' L1 L2, tags dat segs = L1 ++ L2 →
     inv [] (Import (<[b := (n, m)]> R)) k s' segs' fl' dat' hm →
     tags dat' segs' = L1 ++ span_tags b n m ++ L2 → quiet s s' → Q1 s') →
  wp (_InsertResourceSpan b n)
    (λ p s1, if p =? IMG_NULL then Q0 s1 else wp (wr p (set_psMapping m)) (λ _ s2, Q1 s2) s1) s.
Proof.
  intros Hi Hg HRb Hm H0 H1.
  pose proof (side_mode _ _ _ (i_side _ _ _ _ _ _ _ _ Hi)) as Hreg. simpl in Hreg.
  destruct (reg_bounds _ Hreg b n m) as (Hb&Hn&Hmax); [by rewrite lookup_insert_eq|].
  pose proof (i_rep _ _ _ _ _ _ _ _ Hi) as Hr.
  destruct (bin_lookup _ _ _ _ n Hr ltac:(unfold is_u32; lia)) as [l Hl].
  eapply wp_InsertResourceSpan; [done|apply Hi|intros q; by eapply inv_free_some|done..| |].
  { intros s1 Hr1 Hs1 Hpl. rewrite Z.eqb_refl. apply H0; [|done|by eapply step_quiet].
    eapply inv_next; [done..|apply Hi|done|lia|by eauto]. }
  intros s1 st p en xs ys -> Hsp Hst Hp Hen Hnd3 Hp0 Hr1 Hs1. unfold IMG_NULL.
  destruct (Z.eqb_spec p 0); [done|].
  rewrite !NoDup_cons, !not_elem_of_cons in Hnd3. destruct Hnd3 as ((Hsp1&Hse&_)&(Hpe&_)&_).
  eapply (wp_wr_data p (set_psMapping m) (λ x, mkSeg (s_type x) (s_base x) (s_size x) m));
    [exact Hr1|by rewrite lookup_insert_eq|done..|].
  intros s2 Hr2 Hs2 _. rewrite insert_insert_eq in Hr2. simpl in Hr2.
  pose proof (step_trans _ _ _ _ _ Hs1 Hs2) as Hs12.
  set (dat2 := <[p:=_]> _) in Hr2.
  assert (∀ q, dat !! q = None → q ∉ xs ++ ys) as Hns.
  { intros q Hq Hin%(inv_some _ _ _ _ _ _ _ _ _ Hi). rewrite Hq in Hin. by destruct Hin. }
  pose proof (Hns _ Hst) as Hst'. pose proof (Hns _ Hp) as Hp'. pose proof (Hns _ Hen) as Hen'.
  assert (∀ q, q ≠ st → q ≠ p → q ≠ en → dat2 !! q = dat !! q) as Hsame.
  { intros q ???. unfold dat2. by rewrite !lookup_insert_ne by congruence. }
  assert (dat2 !! st = Some (mkSeg btt_span b n 0)) as Hst2.
  { unfold dat2. by rewrite !lookup_insert_ne, lookup_insert_eq by congruence. }
  assert (dat2 !! en = Some (mkSeg btt_span (b + n) 0 0)) as Hen2.
  { unfold dat2. by rewrite lookup_insert_ne, lookup_insert_eq by congruence. }
  assert (dat2 !! p = Some (mkSeg btt_free b n m)) as Hp2.
  { unfold dat2. by rewrite lookup_insert_eq. }
  assert (tags dat2 (xs ++ st :: p :: en :: ys) = tags dat xs ++ span_tags b n m ++ tags dat ys) as Htags.
  { rewrite (tags_mid _ xs st _ _ Hst2), (tags_cons _ p _ _ Hp2), (tags_cons _ en _ _ Hen2).
    rewrite !(tags_frame dat dat2); [done|..]; intros q Hq; apply Hsame; intros ->; set_solver. }
  assert (wf [p] (Import (<[b := (n, m)]> R)) (xs ++ st :: p :: en :: ys) fl dat2 hm) as Hwf.
  { pose proof (w_nodup _ _ _ _ _ _ (i_wf _ _ _ _ _ _ _ _ Hi)) as Hnd.
    eapply wf_new; [apply Hi|done| | | |].
    - assert (xs ++ st :: p :: en :: ys ≡ₚ st :: p :: en :: xs ++ ys) as -> by solve_Permutation.
      rewrite !NoDup_cons, !not_elem_of_cons. done.
    - intros q. pose proof (w_dom _ _ _ _ _ _ (i_wf _ _ _ _ _ _ _ _ Hi) q) as Hd.
      destruct (decide (q = st)) as [->|]; [rewrite Hst2; set_solver|].
      destruct (decide (q = p)) as [->|]; [rewrite Hp2; set_solver|].
      destruct (decide (q = en)) as [->|]; [rewrite Hen2; set_solver|].
      rewrite Hsame by done. set_solver.
    - intros q sq Hqp Ht. destruct (decide (q = st)) as [->|].
      { rewrite Hst2, Hst. split; [|done]. by intros [= <-]. }
      destruct (decide (q = en)) as [->|]; [rewrite Hen2, Hen; split; [by intros [= <-]|done]|].
      by rewrite Hsame.
    - rewrite Htags. apply geo_insert_span; [|done|done| |done..].
      + rewrite <- tags_app. done.
      + apply split_tags; [|done]. intros q. by eapply inv_some. }
  eapply (H1 s2 _ _ dat2); [apply tags_app| |exact Htags|by eapply step_quiet].
  split; [exact Hr2| | | |].
  - apply (wf_listed [] _ _ fl dat2 hm p (mkSeg btt_free b n m) l Hwf); [apply not_elem_of_nil|exact Hp2|done|done].
  - rewrite (step_env _ _ _ Hs12). intros q sq Hq Ht.
    destruct (decide (q = st)) as [->|]; [rewrite Hst2 in Hq; by simplify_eq|].
    destruct (decide (q = p)) as [->|]; [rewrite Hp2 in Hq; by simplify_eq|].
    destruct (decide (q = en)) as [->|]; [rewrite Hen2 in Hq; by simplify_eq|].
    rewrite Hsame in Hq by done. by eapply Hi.
  - eapply side_step; [exact Hs12|apply Hi].
  - destruct (step_os _ _ _ Hs12) as [Hlv _]. rewrite Hlv, (i_blocks _ _ _ _ _ _ _ _ Hi), !length_app.
    simpl. clear. lia.
Qed.
End import.
