(* ===== verification/RATop.v ===== *)
(** * The resource allocator: what its interface promises

    The properties of [RA_Alloc], [RA_Free] and the other entry points, stated
    on the address-ordered list of tags ([ra_rep]). *)

From S2P Require Import Prelude Hash DList RA RARep RAGeo RAInv RAOps RAAlloc RAImport.

Section top.
Context {E : Type} {map_flags : E → Z → option Z} {src : ImportSource map_flags}.
Implicit Types (s : ra_st (E:=E)) (a : RA_ARENA (E:=E)) (md : mode) (k : Z) (L : list seg).

(** ** [RA_Alloc] *)

(** [md', L'] is [md, L], possibly with one more imported span. *)
Inductive grows md L : mode → list seg → Prop :=
| grows_refl : grows md L md L
| grows_import R b n m L1 L2 :
    md = Import R → L = L1 ++ L2 → R !! b = None → regions_ok (<[b := (n, m)]> R) →
    grows md L (Import (<[b := (n, m)]> R)) (L1 ++ span_tags b n m ++ L2).

Definition same_kind md md' : Prop :=
  match md, md' with
  | Resource lo hi, Resource lo' hi' => lo' = lo ∧ hi' = hi
  | Import _, Import _ => True
  | _, _ => False
  end.

Lemma same_kind_refl md : same_kind md md.
Proof. by destruct md. Qed.
Lemma mode_le_kind md md' : mode_le md md' → same_kind md md'.
Proof. by destruct md, md'. Qed.

(** [n] bytes at [b] were carved out of the arena [md, L], after an import or
    not. *)
Definition allocated md k L (hm : gmap (list Z) Z) (n flags al off b m : Z) s' : Prop :=
  ∃ md1 L1 segs' fl' dat' q,
    grows md L md1 L1 ∧ inv [] md1 k s' segs' fl' dat' (<[[b] := q]> hm) ∧
    carved L1 (tags dat' segs') b n m ∧ aligned b al off ∧
    flags_ok (map_flags:=map_flags) (ra_env s') m flags.

(** Nothing was allocated: the live tags are those of [L], and no byte of an
    arena without imports was lost. *)
Definition unchanged md k L (hm : gmap (list Z) Z) s' : Prop :=
  ∃ md' segs' fl' dat', inv [] md' k s' segs' fl' dat' hm ∧
    tags_kept md L (tags dat' segs') ∧ same_kind md md'.

(** The result of [RA_Alloc] of [n] bytes from the arena [md, L]. *)
Definition alloc_post md k s L (hm : gmap (list Z) Z) (n flags al off : Z)
    (r : option (Z * Z)) s' : Prop :=
  match r with
  | Some (b, m) => ∃ md0 L0, tags_kept md L L0 ∧ same_kind md md0 ∧
      (plenty (ra_os s) → md0 = md ∧ L0 = L) ∧
      allocated md0 k L0 hm n flags al off b m s'
  | None => unchanged md k L hm s' ∧
      (plenty (ra_os s) → ∀ x, x ∈ L → s_type x = btt_free →
         ¬ fit (map_flags:=map_flags) (ra_env s) x n flags al off)
  end ∧ calm s s'.

Lemma wp_round_up x q Q s :
  0 < q → 0 ≤ x → x + q - 1 < 4294967296 →
  (∀ r, x ≤ r < x + q → r mod q = 0 → Q r s) → wp (round_up (E:=E) x q) Q s.
Proof.
  intros Hq Hx Hlt HQ. unfold round_up. destruct (Z.eqb_spec q 0); [lia|]. wp_step.
  rewrite (u32_small (x + q - 1)) by (unfold is_u32; lia).
  pose proof (Z.div_mod (x + q - 1) q ltac:(lia)) as Hd.
  pose proof (Z.mod_pos_bound (x + q - 1) q ltac:(lia)) as Hm.
  assert (0 ≤ (x + q - 1) / q) by (apply Z.div_pos; lia).
  rewrite u32_small by (unfold is_u32; nia). apply HQ; [nia|]. apply Z_mod_mult.
Qed.

Lemma inv_dat_tag X md k s segs fl dat hm p x :
  inv X md k s segs fl dat hm → dat !! p = Some x → x ∈ tags dat segs.
Proof. intros Hi Hp. eapply wf_tag; [apply Hi|done]. Qed.

Lemma tag_dat X md k s segs fl dat hm x :
  inv X md k s segs fl dat hm → x ∈ tags dat segs → ∃ p, dat !! p = Some x.
Proof. intros Hi (p&_&Hp)%tags_elem. eauto. Qed.

Lemma lives_grow L1 b n m L2 : lives (L1 ++ span_tags b n m ++ L2) = lives (L1 ++ L2).
Proof. by rewrite !lives_app. Qed.

Lemma set_env_id s : set_env (ra_env s) s = s.
Proof. by destruct s. Qed.

Lemma tags_kept_trans md md1 L L1 L2 : same_kind md md1 → tags_kept md L L1 → tags_kept md1 L1 L2 → tags_kept md L L2.
Proof.
  intros Hk [H1 H2] [H3 H4]. split; [congruence|]. intros lo hi ->. destruct md1 as [lo' hi'|]; [|done].
  rewrite (H4 lo' hi' eq_refl). by eapply H2.
Qed.

Lemma same_kind_trans md md' md'' : same_kind md md' → same_kind md' md'' → same_kind md md''.
Proof. destruct md, md', md''; simpl; naive_solver. Qed.

Lemma wp_alloc_import md k s segs fl dat hm n flags al off :
  inv [] md k s segs fl dat hm → capacity hm → 0 < n → is_u32 al → is_u32 off →
  (∀ a, ra_arena s = Some a → n + al + uQuantum a < 4294967296) →
  wp (alloc_import map_flags n flags al off)
    (λ r s', match r with
             | Some (b, m) => allocated md k (tags dat segs) hm n flags al off b m s'
             | None => unchanged md k (tags dat segs) hm s'
             end ∧ calm s s') s.
Proof.
  intros Hi Hcap Hn Hal Hoff Hsz.
  destruct (inv_arena _ _ _ _ _ _ _ _ Hi) as (a&Ha&Hq&Hst). specialize (Hsz a Ha).
  pose proof Hal as Hal'. unfold is_u32 in Hal'.
  unfold alloc_import. wp_step. eapply wp_arena; [done|]. wp_step.
  set (isz := if al >? uQuantum a then _ else n).
  assert (n ≤ isz ∧ isz + uQuantum a - 1 < 4294967296) as [Hisz1 Hisz2].
  { subst isz. destruct (Z.gtb_spec al (uQuantum a)); [|lia]. nowrap. lia. }
  apply wp_round_up; [lia..|]. intros r Hr _.
  wp_step. eapply wp_arena; [done|]. wp_step. eapply wp_arena; [done|].
  wp_step. apply wp_with_env.
  assert (∀ s', calm s s' → ∀ md' segs' fl' dat', inv [] md' k s' segs' fl' dat' hm →
    tags_kept md (tags dat segs) (tags dat' segs') → same_kind md md' →
    wp (mret None) (λ r s', match r with
             | Some (b, m) => allocated md k (tags dat segs) hm n flags al off b m s'
             | None => unchanged md k (tags dat segs) hm s'
             end ∧ calm s s') s') as Hnone.
  { intros s' Hl' md' segs' fl' dat' Hi' Hlv Hk. wp_step. split; [|done]. by exists md', segs', fl', dat'. }
  destruct md as [lo hi|R].
  { destruct Hst as (_&_&->). unfold _RequestAllocFail. wp_step. rewrite set_env_id.
    eapply Hnone; [apply calm_refl|done|done|done]. }
  destruct Hst as (_&->&->&Hfree).
  assert (¬ no_import s) as Hni by (unfold no_import; rewrite Ha; simpl; congruence).
  assert (∀ s', later s s' → calm s s') as Hcalm by by split.
  pose proof (side_mode _ _ _ (i_side _ _ _ _ _ _ _ _ Hi)) as Hreg. simpl in Hreg.
  pose proof (side_env _ _ _ (i_side _ _ _ _ _ _ _ _ Hi)) as HR. simpl in HR.
  eapply wp_mono; [apply src_alloc_law; [by rewrite HR|lia]|].
  cbn beta. intros [[[n' m] b]|] e [Hfl He]; cbn [from_option].
  2:{ eapply (Hnone (set_env e s) ltac:(by apply Hcalm; split) (Import R) segs fl dat); [|done|done].
      eapply inv_env; [done|apply Hi|done|simpl; congruence|done|].
      intros p sg _ _ Hs. by rewrite Hfl. }
  destruct He as (Hn'&HRb&HR'&Hreg'&Hfm). rewrite HR in *.
  assert (inv [] (Import (<[b:=(n', m)]> R)) k (set_env e s) segs fl dat hm) as Hi1.
  { eapply (inv_env _ (Import R)); [done| |simpl; by rewrite <- HR'|done|done|].
    - eapply wf_mode; [apply Hi|]. eapply geo_import_change; [|apply Hi].
      intros y _ _ b' n'' Hb'. rewrite lookup_insert_ne; [done|congruence].
    - intros p sg _ _ Hs. by rewrite Hfl. }
  wp_step. eapply wp_mono; [eapply (inv_import R k _ _ _ _ _ b n' m
    (λ s', wp (_AttemptAllocAligned map_flags n flags al off) (λ r s', match r with
             | Some (b, m) => allocated (Import R) k (tags dat segs) hm n flags al off b m s'
             | None => unchanged (Import R) k (tags dat segs) hm s'
             end ∧ calm s s') s')
    (λ s', inv [] (Import (<[b:=(n', m)]> R)) k s' segs fl dat hm ∧ quiet (set_env e s) s' ∧
       ra_arena s' = ra_arena s'))|].
  - exact Hi1.
  - apply Hi.
  - done.
  - right. simpl. rewrite Hfm. eauto.
  - intros s2 Hi2 Hpl Hq2. done.
  - intros s2 segs2 fl2 dat2 L1 L2 HL Hi2 Htags [Hl2 He2]. simpl in He2.
    change (later s s2) in Hl2.
    apply (wp_AttemptAllocAligned (Import (<[b:=(n', m)]> R)) k s2 segs2 fl2 dat2 hm); [exact Hi2|lia|done|done|done| | |].
    + intros _. split; [|by apply Hcalm]. exists (Import (<[b:=(n', m)]> R)), segs2, fl2, dat2.
      split; [done|]. split; [|done]. split; [by rewrite Htags, lives_grow, HL|done].
    + intros s3 segs3 fl3 dat3 q b3 m3 Hi3 Hc3 Hal3 Hf3 [Hl3 He3].
      split; [|apply Hcalm; by eapply (later_trans _ s2)].
      exists (Import (<[b:=(n', m)]> R)), (tags dat2 segs2), segs3, fl3, dat3, q.
      split; [rewrite Htags; apply grows_import; [done|done|done|by rewrite <- HR']|]. split; [done|]. split; [done|]. split; [done|].
      by rewrite He3.
    + intros s3 md3 segs3 fl3 dat3 Hi3 Hmd3 Hlv3 _ [Hl3 _].
      split; [|apply Hcalm; by eapply (later_trans _ s2)]. exists md3, segs3, fl3, dat3. split; [done|].
      split; [|by destruct md3]. split; [|done]. by rewrite (proj1 Hlv3), Htags, lives_grow, HL.
  - cbn beta. intros p s2 Hp. destruct (p =? IMG_NULL).
    + destruct Hp as (Hi2&[Hl2 He2]&_). simpl in He2.
      change (later s s2) in Hl2.
      destruct (side_hash _ _ _ (i_side _ _ _ _ _ _ _ _ Hi2)) as (a2&h2&Ha2&_&_&Hst2).
      destruct Hst2 as (_&_&_&_&Hf2).
      wp_step. eapply wp_arena; [done|]. wp_step. rewrite Hf2. wp_step. wp_step. apply wp_with_env.
      rewrite He2.
      eapply wp_mono; [apply (src_free_law _ b n' m); [done|by rewrite HR', lookup_insert_eq]|].
      cbn beta. intros [] e3 [HR3 Hfl3]. rewrite HR', delete_insert_id in HR3 by done.
      eapply (Hnone (set_env e3 s2) ltac:(by apply Hcalm) (Import R) segs fl dat); [|done|done].
      eapply inv_env; [exact Hi2|eapply wf_mode; [apply Hi2|apply Hi]|exact Hreg|done|done|].
      intros p' sg Hp' Ht' Hs'. rewrite He2 in Hs'. rewrite Hfl3; [done|].
      (* the refused import was no tile's *)
      intros Hm. pose proof (geo_ok _ _ sg (w_geo _ _ _ _ _ _ (i_wf _ _ _ _ _ _ _ _ Hi))
        (inv_dat_tag _ _ _ _ _ _ _ _ _ _ Hi Hp')) as [_ (rb&rn&Hrb&_)]%tile_ok; [|done].
      rewrite Hm in Hrb. pose proof (reg_map _ Hreg' rb rn b n' m) as Hinj.
      rewrite HR', lookup_insert_eq in Hinj. assert (rb ≠ b) by congruence.
      rewrite lookup_insert_ne in Hinj by done. naive_solver.
    + wp_step. eapply wp_mono; [exact Hp|]. by intros [] s3.
Qed.

Lemma wp_RA_Alloc md k s segs fl dat hm n flags al off :
  inv [] md k s segs fl dat hm → capacity hm → 0 < n → is_u32 al → is_u32 off →
  (∀ a, ra_arena s = Some a → n + al + uQuantum a < 4294967296) →
  wp (RA_Alloc map_flags n flags al off)
     (alloc_post md k s (tags dat segs) hm n flags al off) s.
Proof.
  intros Hi Hcap Hn Hal Hoff Hsz.
  destruct (inv_arena _ _ _ _ _ _ _ _ Hi) as (a&Ha&Hq&_). specialize (Hsz a Ha).
  unfold is_u32 in Hal.
  unfold RA_Alloc. wp_step. eapply rep_arena_null; [apply Hi|].
  wp_step. apply (wp_AttemptAllocAligned md k s segs fl dat hm); [done|lia|done|done|done| | |].
  - intros Hnofit. eapply wp_mono; [eapply wp_alloc_import; [exact Hi|done..|]|].
    { intros a' Ha'. by simplify_eq. }
    intros r s' [Hr Hl]. split; [|done]. destruct r as [[b m]|].
    + exists md, (tags dat segs). split; [done|]. split; [apply same_kind_refl|]. by split.
    + split; [done|]. intros _ x Hx Hf. destruct (tag_dat _ _ _ _ _ _ _ _ _ Hi Hx) as [p Hp].
      by eapply Hnofit.
  - intros s' segs' fl' dat' q b m Hi' Hc Hali Hf [Hl He]. wp_step. split; [|done].
    exists md, (tags dat segs). split; [done|]. split; [apply same_kind_refl|]. split; [done|].
    exists md, (tags dat segs), segs', fl', dat', q. split; [constructor|].
    split_and!; [done..|]. by rewrite He.
  - intros s1 md1 segs1 fl1 dat1 Hi1 Hmd1 Hlv Hpl Hl1.
    apply mode_le_kind in Hmd1.
    eapply wp_mono; [eapply wp_alloc_import; [exact Hi1|done..|]|].
    { destruct Hl1 as [[_ Hqq%static_quantum] _]. intros a' Ha'. rewrite Ha, Ha' in Hqq. injection Hqq as ->. done. }
    intros r s' [Hr Hl]. split; [|by eapply calm_trans]. destruct r as [[b m]|].
    + exists md1, (tags dat1 segs1). split; [done|]. split; [done|]. by split.
    + split; [|done]. destruct Hr as (md2&segs2&fl2&dat2&Hi2&Hlv2&Hk).
      exists md2, segs2, fl2, dat2. split; [done|]. split; [by eapply tags_kept_trans|]. by eapply same_kind_trans.
Qed.

(** ** [RA_Free] *)

Lemma wp_RA_Free md k s segs fl dat hm b flag q P :
  inv [] md k s segs fl dat hm → uQuantum <$> ra_arena s = Some q →
  (∀ L1 x L2, tags dat segs = L1 ++ x :: L2 → s_type x = btt_live → s_base x = b →
     backing_ok flag q b (s_size x) (L1 ++ L2) P (ra_env s)) →
  wp (RA_Free b flag) (λ _ s', later s s' ∧
    match hm !! [b] with
    | Some p => ∃ xs ys x segs' fl' dat', segs = xs ++ p :: ys ∧ dat !! p = Some x ∧
        s_type x = btt_live ∧ s_base x = b ∧
        inv [] (free_mode md (tags dat xs) x (tags dat ys)) k s' segs' fl' dat' (delete [b] hm) ∧
        tags dat' segs' = free_tags (tags dat xs) x (tags dat ys) ∧ (is_import md ∨ P (ra_env s'))
    | None => inv [] md k s' segs fl dat hm ∧ ra_env s' = ra_env s
    end) s.
Proof.
  intros Hi Hq Hbk. unfold RA_Free. wp_step. eapply rep_arena_null; [apply Hi|].
  wp_step. eapply inv_hash_remove; [done| |].
  - intros Hb s1 Hi1 [Hl1 He1]. unfold IMG_NULL. rewrite Z.eqb_refl. wp_step. by rewrite Hb.
  - intros s1 p x Hb Hp Hlive Hbase Hi1 [Hl1 He1]. unfold IMG_NULL.
    destruct (wf_mid _ _ _ _ _ _ _ _ (i_wf _ _ _ _ _ _ _ _ Hi1) Hp) as (xs&ys&->&_).
    destruct (rep_seg_in _ _ _ _ p (i_rep _ _ _ _ _ _ _ _ Hi1) ltac:(set_solver)) as [Hp0 _].
    destruct (Z.eqb_spec p 0); [done|].
    eapply (wp_FreeBT _ _ _ _ _ _ _ _ _ _ flag q P); [done|done|by apply live_tile| | |].
    { destruct Hl1 as [_ Hst%static_quantum]. by rewrite Hst. }
    { rewrite He1, Hbase. apply Hbk; [by apply tags_mid|done|done]. }
    intros s2 segs2 fl2 dat2 Hi2 Htags Hl2 HP2.
    split; [by eapply later_trans|]. rewrite Hb. by exists xs, ys, x, segs2, fl2, dat2.
Qed.

(** ** Lists of tags *)

Lemma elem_lives x L : x ∈ lives L ↔ x ∈ L ∧ s_type x = btt_live.
Proof. unfold lives. rewrite list_elem_of_filter. tauto. Qed.

(** One hash entry per live tag. *)
Lemma inv_size_hm X md k s segs fl dat hm :
  inv X md k s segs fl dat hm → (size hm ≤ length (lives (tags dat segs)))%nat.
Proof.
  intros Hi. rewrite <- length_map_to_list, <- (length_fmap fst (map_to_list hm)).
  rewrite <- (length_fmap (λ x, [s_base x]) (lives (tags dat segs))).
  apply submseteq_length, NoDup_submseteq; [apply NoDup_fst_map_to_list|].
  intros key ((k1&p)&->&H1%elem_of_map_to_list)%list_elem_of_fmap. simpl.
  apply (w_live _ _ _ _ _ _ (i_wf _ _ _ _ _ _ _ _ Hi)) in H1 as (_&x&Hx&Ht&->).
  apply list_elem_of_fmap. exists x. split; [done|]. apply elem_lives. split; [|done].
  by eapply inv_dat_tag.
Qed.

Lemma lives_bases_nodup md L : geo md L → NoDup ((λ x, [s_base x]) <$> lives L).
Proof.
  intros [Hc Hok]. revert Hc. generalize (None (A:=seg)) at 1. induction L as [|x L IH]; intros l; [constructor|].
  intros [_ Hc]. specialize (IH (λ y Hy, Hok y (proj2 (elem_of_cons _ _ _) (or_intror Hy))) _ Hc).
  unfold lives. destruct (decide (s_type x = btt_live)) as [Ht|Ht];
    [rewrite filter_cons_True by done|by rewrite filter_cons_False by done].
  rewrite fmap_cons. constructor; [|exact IH].
  intros (y&[= Hb]&Hy)%list_elem_of_fmap. apply list_elem_of_filter in Hy as [_ Hy].
  pose proof (Hok x ltac:(by left)) as Hx.
  pose proof (chain_after _ _ _ _ _ Hc Hx ltac:(intros z Hz; apply Hok; by right) Hy) as Ha.
  apply live_tile in Ht. unfold after in Ha. rewrite (kind_tile _ Ht) in Ha.
  apply tile_ok in Hx as [? _]; [|done]. unfold endof in Ha. lia.
Qed.

Lemma inv_size_lives md k s segs fl dat hm :
  inv [] md k s segs fl dat hm → size hm = length (lives (tags dat segs)).
Proof.
  intros Hi. pose proof (inv_size_hm _ _ _ _ _ _ _ _ Hi).
  assert (length (lives (tags dat segs)) ≤ size hm)%nat; [|lia].
  rewrite <- length_map_to_list, <- (length_fmap fst (map_to_list hm)).
  rewrite <- (length_fmap (λ x, [s_base x]) (lives (tags dat segs))).
  apply submseteq_length, NoDup_submseteq; [eapply lives_bases_nodup, Hi|].
  intros key (x&->&[Hx Ht]%elem_lives)%list_elem_of_fmap.
  apply tags_elem in Hx as (p&_&Hp). apply list_elem_of_fmap. exists ([s_base x], p). split; [done|].
  apply elem_of_map_to_list, (w_live _ _ _ _ _ _ (i_wf _ _ _ _ _ _ _ _ Hi)).
  split; [apply not_elem_of_nil|]. eauto.
Qed.

Lemma lives_carve x b n : lives (carve x b n) = [mkSeg btt_live b n (s_map x)].
Proof. unfold carve. by destruct (_ <? _), (_ <? _). Qed.

Lemma carved_lives L L' b n m :
  carved L L' b n m → lives L' ≡ₚ mkSeg btt_live b n m :: lives L.
Proof.
  intros (L1&x&L2&->&Hf&_&_&<-&->).
  rewrite !lives_app, lives_carve, lives_free by done. solve_Permutation.
Qed.

Lemma grows_lives md L md' L' : grows md L md' L' → lives L' = lives L.
Proof. intros [|R b n m L1 L2 -> ->]; [done|apply lives_grow]. Qed.

Lemma grows_kind md L md' L' : grows md L md' L' → same_kind md md'.
Proof. intros [|R b n m L1 L2 -> ->]; [apply same_kind_refl|done]. Qed.

(** A tag carved out overlaps no other live tag. *)
Lemma carved_disjoint md L L' b n m y :
  geo md L' → carved L L' b n m → y ∈ lives L → endof y ≤ b ∨ b + n ≤ s_base y.
Proof.
  intros Hg (L1&x&L2&->&Hf&_&_&<-&->) [Hy Hty]%elem_lives.
  assert (∃ A B, L1 ++ carve x b n ++ L2 = A ++ mkSeg btt_live b n (s_map x) :: B ∧
    (∀ z, z ∈ L1 → z ∈ A) ∧ (∀ z, z ∈ L2 → z ∈ B)) as (A&B&Heq&HA&HB).
  { exists (L1 ++ if s_base x <? b then [mkSeg btt_free (s_base x) (b - s_base x) (s_map x)] else []),
      ((if b + n <? endof x then [mkSeg btt_free (b + n) (endof x - (b + n)) (s_map x)] else []) ++ L2).
    split; [unfold carve; by rewrite <- !app_assoc|].
    split; intros z Hz; apply elem_of_app; [by left|by right]. }
  rewrite Heq in Hg. pose proof (live_tile y Hty) as Ht.
  assert (y ∈ L1 ∨ y ∈ L2) as [HyL|HyL].
  { apply elem_of_app in Hy as [?|[->|?]%elem_of_cons]; [by left|congruence|by right]. }
  - left. pose proof (geo_before _ _ _ _ _ Hg (HA _ HyL)) as Hlt. unfold after in Hlt.
    by rewrite (kind_tile _ Ht) in Hlt.
  - right. pose proof (geo_after _ _ _ _ _ Hg (HB _ HyL)) as Hlt. done.
Qed.

Lemma ra_rep_geo md k s L : ra_rep md k s L → geo md L.
Proof. intros (?&?&?&?&Hi&->). apply Hi. Qed.
Lemma ra_rep_mode md k s L : ra_rep md k s L → mode_ok md.
Proof. intros (?&?&?&?&Hi&->). apply Hi. Qed.
End top.
