(* ===== verification/RALife.v ===== *)
(** * The resource allocator: creation, extension, deletion, enumeration *)

From S2P Require Import Prelude Hash DList RA RARep RAGeo RAInv RAOps RAAlloc RAImport RATop.

Section life.
Context {E : Type} {map_flags : E → Z → option Z} {src : ImportSource map_flags}.
Implicit Types (s : ra_st (E:=E)) (a : RA_ARENA (E:=E)) (md : mode) (k : Z) (L : list seg).

(** The mapping of a tag means nothing to an arena without imports. *)
Definition remap (m : Z) (x : seg) : seg := mkSeg (s_type x) (s_base x) (s_size x) m.

Lemma geo_remap lo hi L1 x m L2 :
  geo (Resource lo hi) (L1 ++ x :: L2) → geo (Resource lo hi) (L1 ++ remap m x :: L2).
Proof.
  intros Hg. apply (geo_replace _ L1 [x] [remap m x] L2); [done|]. intros Hc Hok. split.
  - exact Hc.
  - intros y ->%list_elem_of_singleton. by specialize (Hok x ltac:(set_solver)).
Qed.

Lemma wf_remap X lo hi segs fl dat hm p x m :
  wf X (Resource lo hi) segs fl dat hm → dat !! p = Some x →
  wf X (Resource lo hi) segs fl (<[p := remap m x]> dat) hm.
Proof.
  intros Hwf Hp.
  assert (∀ q y, <[p := remap m x]> dat !! q = Some y → ∃ y', dat !! q = Some y' ∧
    s_type y = s_type y' ∧ s_base y = s_base y' ∧ s_size y = s_size y') as H1.
  { intros q y [[<- <-]|[_ Hq]]%lookup_insert_Some; eauto. }
  assert (∀ q y, dat !! q = Some y → ∃ y', <[p := remap m x]> dat !! q = Some y' ∧
    s_type y' = s_type y ∧ s_base y' = s_base y ∧ s_size y' = s_size y) as H2.
  { intros q y Hq. destruct (decide (p = q)) as [<-|]; [rewrite lookup_insert_eq|rewrite lookup_insert_ne by done];
      simplify_eq; eauto. }
  split.
  - apply Hwf.
  - intros q. rewrite (w_dom _ _ _ _ _ _ Hwf). split; intros [y Hy].
    + destruct (H2 _ _ Hy) as (?&?&_). eauto.
    + destruct (H1 _ _ Hy) as (?&?&_). eauto.
  - intros q y Hq Ht HX. destruct (H1 _ _ Hq) as (y'&Hy'&Hty&_&->).
    eapply Hwf; [done|congruence|done].
  - intros i l q Hl Hq. destruct (w_free' _ _ _ _ _ _ Hwf _ _ _ Hl Hq) as (HX&y&Hy&Ht&Hb).
    split; [done|]. destruct (H2 _ _ Hy) as (y'&Hy'&Hty&_&Hsz). exists y'. rewrite Hty, Hsz. done.
  - intros key q. rewrite (w_live _ _ _ _ _ _ Hwf). split; intros (HX&y&Hy&Ht&->); (split; [done|]).
    + destruct (H2 _ _ Hy) as (y'&Hy'&Hty&Hb&_). exists y'. rewrite Hty, Hb. done.
    + destruct (H1 _ _ Hy) as (y'&Hy'&Hty&Hb&_). exists y'. rewrite <- Hty, <- Hb. done.
  - destruct (wf_mid _ _ _ _ _ _ _ _ Hwf Hp) as (xs&ys&->&Hx&Hy).
    rewrite (tags_mid _ xs p ys (remap m x)) by by rewrite lookup_insert_eq.
    rewrite !tags_insert by done. apply geo_remap. rewrite <- (tags_mid _ xs p) by done. apply Hwf.
Qed.

(** ** Creation *)

Definition new_arena q (ia : option (import_alloc_fn (E:=E))) ifr bf h : RA_ARENA (E:=E) :=
  mkARENA q (default _RequestAllocFail ia) ifr bf h (replicate FREE_TABLE_LIMIT IMG_NULL)
    IMG_NULL IMG_NULL None.

(** An arena with a hash table and no tags. *)
Lemma inv_fresh md s a h o :
  mode_ok md → static_ok md a → env_is md (ra_env s) → word_rep h ∅ →
  ra_heap s = ∅ → 0 < ra_next s →
  aHeadFree a = replicate FREE_TABLE_LIMIT IMG_NULL → pHeadSegment a = 0 → pTailSegment a = 0 →
  inv [] md (os_live o) (set_os o (set_arena (Some (set_pSegmentHash (Some h) a)) s))
    [] (replicate FREE_TABLE_LIMIT []) ∅ ∅.
Proof.
  intros Hmd Hst He Hw Hh Hn H1 H2 H3.
  assert (∀ i xs, replicate FREE_TABLE_LIMIT [] !! i = Some xs → xs = @nil Z) as Hnil.
  { by intros i xs [-> _]%lookup_replicate. }
  split.
  - split; [|split|..]; simpl; [|by rewrite Hh| |done| | | |done].
    + eexists. split; [done|]. split; simpl; [done|done|by rewrite H1].
    + split; [done|constructor].
    + intros i xs ->%Hnil. split; [done|constructor].
    + apply NoDup_nil_2.
    + intros p [sg Hp]. by rewrite lookup_empty in Hp.
  - split.
    + constructor.
    + intros p. rewrite lookup_empty. split; [set_solver|by intros []].
    + intros p sg Hp. by rewrite lookup_empty in Hp.
    + intros i xs p ->%Hnil. set_solver.
    + intros key p. rewrite lookup_empty. split; [done|]. intros (_&sg&Hp&_).
      by rewrite lookup_empty in Hp.
    + split; [by destruct md|]. intros x Hx. set_solver.
  - intros p sg Hp. by rewrite lookup_empty in Hp.
  - split; [|done|done]. eexists _, h. split; [done|]. split; [done|]. split; [done|].
    by eapply static_ok_eq.
  - simpl. rewrite map_size_empty. lia.
Qed.

(** Blocks an arena holds besides its tags and hash buckets: itself, the hash
    table and the bucket array. *)
Definition arena_blocks : Z := 3.

Definition create_post md b sz mapping q s (ok : bool) s' : Prop :=
  (plenty (ra_os s) → ok = true ∧ plenty (ra_os s')) ∧
  if ok then
    uQuantum <$> ra_arena s' = Some q ∧
    ∃ L, ra_rep md (os_live (ra_os s) + arena_blocks) s' L ∧
      (sz = 0 ∧ L = [] ∨ ∃ r, 0 < sz ≤ r ∧ r < sz + q ∧ r mod q = 0 ∧ L = [mkSeg btt_free b r mapping])
  else ra_arena s' = None ∧ os_live (ra_os s') = os_live (ra_os s).

Lemma wp_RA_Create_arena md b sz mapping q ia ifr bf h s :
  ra_arena s = None → ra_heap s = ∅ → 0 < ra_next s → mode_ok md → static_ok md (new_arena q ia ifr bf h) →
  env_is md (ra_env s) → 0 ≤ sz → sz + q < 4294967296 →
  (0 < sz → ∃ lo hi, md = Resource lo hi ∧ lo ≤ b ∧ b + sz + q ≤ hi) →
  (mapping = 0 ∨ is_Some (map_flags (ra_env s) mapping)) →
  wp (RA_Create b sz mapping q ia ifr bf h) (λ ok s', create_post md b sz mapping q s ok s' ∧
    ra_env s' = ra_env s ∧ (ok = true → static <$> ra_arena s' = Some (static (new_arena q ia ifr bf h)))) s.
Proof.
  intros Hnone Hheap Hnext Hmd Hst Henv Hsz Hszq Hres Hmap. pose proof (proj1 Hst) as Hq. simpl in Hq.
  unfold RA_Create. wp_step. apply wp_with_ra_os, wp_OSAllocMem. intros r1 o1 Ho1 Hp1.
  pose proof (os_step_alloc _ _ _ Ho1 Hp1) as Hos1. destruct r1; cbn [negb].
  2:{ wp_step. split; [|by split]. split; [intros Hpl; by destruct (Hp1 Hpl)|]. split; [done|]. simpl. lia. }
  wp_step. wp_step. wp_step. apply wp_with_ra_os. simpl.
  eapply wp_mono.
  { apply wp_HASH_Create_Extended; [done|]. intros h' _. apply comp_ok_default. }
  intros r2 o2 (Hos2&Hsome&Hh). simpl. destruct r2 as [ht|].
  2:{ wp_step. apply wp_with_ra_os, wp_OSFreeMem. wp_step. wp_step. wp_step. split; [|by split]. split.
      - intros Hpl. destruct Hos1 as [_ Hos1]. by destruct (Hsome (Hos1 Hpl)).
      - split; [done|]. simpl. destruct Hos1 as [Hl1 _], Hos2 as [Hl2 _]. lia. }
  destruct (Hh ht eq_refl) as (Hwf&Hc&Hk).
  assert (word_rep ht ∅) as Hw by (split; [by apply hash_rep_empty|done]).
  pose proof (os_step_trans _ _ _ _ _ Hos1 Hos2) as Hos. cbn in Hos.
  wp_step. eapply wp_upd_arena; [done|].
  match goal with |- wp _ _ ?s1 => set (s2 := s1) end.
  assert (inv [] md (os_live o2) s2 [] (replicate FREE_TABLE_LIMIT []) ∅ ∅) as Hi.
  { apply (inv_fresh md _ (new_arena q ia ifr bf h) ht o2); done. }
  assert (os_live o2 = os_live (ra_os s) + arena_blocks) as Hl.
  { destruct Hos as [Hl _]. unfold arena_blocks. lia. }
  assert (plenty (ra_os s) → plenty (ra_os s2)) as Hpl2 by (intros Hpl; by apply Hos).
  destruct (Z.gtb_spec sz 0) as [Hpos|Hz].
  2:{ wp_step. split; [|by split]. split; [by auto|]. split; [done|]. exists []. split; [|left; split; [lia|done]].
      rewrite <- Hl. by exists [], (replicate FREE_TABLE_LIMIT []), ∅, ∅. }
  destruct (Hres Hpos) as (lo&hi&->&Hlo&Hhi).
  wp_step. apply wp_round_up; [lia|lia|lia|]. intros r Hr Hrq.
  wp_step. eapply inv_InsertResource; [exact Hi|lia|lia|lia| | |].
  { intros x Hx. by apply elem_of_nil in Hx. }
  - intros s3 Hi3 Hpl [[Hl3 _] He3]. unfold IMG_NULL. rewrite Z.eqb_refl.
    wp_step. apply wp_with_ra_os. unfold HASH_Delete. wp_step. apply wp_OSFreeMem, wp_OSFreeMem.
    wp_step. apply wp_with_ra_os, wp_OSFreeMem. wp_step. wp_step. wp_step. split; [|by split]. split.
    { intros Hpl'. by destruct Hpl; auto. }
    split; [done|]. simpl. rewrite (i_blocks _ _ _ _ _ _ _ _ Hi3), map_size_empty, Hl.
    unfold arena_blocks. simpl. lia.
  - intros s3 p fl3 xs ys Hp0 Hnil _ Hi3 _ [[Hl3 Hst3] He3]. pose proof (static_quantum _ _ Hst3) as Hq3. symmetry in Hnil.
    apply app_eq_nil in Hnil as [-> ->]. unfold IMG_NULL.
    destruct (Z.eqb_spec p 0); [done|]. wp_step.
    eapply (wp_wr_data p (set_psMapping mapping) (λ x, mkSeg (s_type x) (s_base x) (s_size x) mapping));
      [apply Hi3|by rewrite lookup_insert_eq|done..|]. intros s4 Hr4 Hs4 _.
    rewrite insert_insert_eq in Hr4. simpl in Hr4. wp_step.
    assert (inv [] (Resource lo hi) (os_live o2) s4 [p] fl3 (<[p:=mkSeg btt_free b r mapping]> ∅) ∅) as Hi4.
    { split; [exact Hr4| | | |].
      - rewrite <- (insert_insert_eq ∅ p (mkSeg btt_free b r mapping) (mkSeg btt_free b r 0)).
        apply (wf_remap _ _ _ _ _ _ _ p (mkSeg btt_free b r 0) mapping); [apply Hi3|by rewrite lookup_insert_eq].
      - rewrite (step_env _ _ _ Hs4), He3. intros q' y [[<- <-]|[_ Hq']]%lookup_insert_Some Ht; [done|].
        by rewrite lookup_empty in Hq'.
      - eapply side_step; [done|apply Hi3].
      - destruct (step_os _ _ _ Hs4) as [Hl4 _]. rewrite Hl4, (i_blocks _ _ _ _ _ _ _ _ Hi3). simpl; lia. }
    destruct (steps_later _ _ (step_steps _ _ _ Hs4)) as [Hl4 Hst4]. pose proof (static_quantum _ _ Hst4) as Hq4.
    split; [|by rewrite (step_env _ _ _ Hs4), Hst4, Hst3]. split; [by auto|].
    split; [rewrite Hq4, Hq3; done|]. rewrite <- Hl. exists [mkSeg btt_free b r mapping]. split.
    + exists [p], fl3, (<[p:=mkSeg btt_free b r mapping]> ∅), ∅. split; [done|].
      by rewrite (tags_cons _ p [] (mkSeg btt_free b r mapping)) by by rewrite lookup_insert_eq.
    + right. exists r. split_and!; [lia|lia|lia|done|done].
Qed.

Lemma wp_RA_Create md b sz mapping q ia ifr bf h s :
  ra_arena s = None → ra_heap s = ∅ → 0 < ra_next s → mode_ok md → static_ok md (new_arena q ia ifr bf h) →
  env_is md (ra_env s) → 0 ≤ sz → sz + q < 4294967296 →
  (0 < sz → ∃ lo hi, md = Resource lo hi ∧ lo ≤ b ∧ b + sz + q ≤ hi) →
  (mapping = 0 ∨ is_Some (map_flags (ra_env s) mapping)) →
  wp (RA_Create b sz mapping q ia ifr bf h) (create_post md b sz mapping q s) s.
Proof. intros. eapply wp_mono; [by eapply wp_RA_Create_arena|]. by intros ok s' []. Qed.

(** ** Extension *)

Lemma wp_RA_Add lo hi k s segs fl dat hm b sz q Q :
  inv [] (Resource lo hi) k s segs fl dat hm → uQuantum <$> ra_arena s = Some q →
  0 < sz → sz + q < 4294967296 → lo ≤ b → b + sz + q ≤ hi →
  disjoint_from (tags dat segs) b (sz + q) →
  (∀ s', inv [] (Resource lo hi) k s' segs fl dat hm → ¬ plenty (ra_os s) → quiet s s' → Q false s') →
  (∀ s' segs' fl' dat' r L1 L2, sz ≤ r < sz + q → r mod q = 0 → tags dat segs = L1 ++ L2 →
     inv [] (Resource lo hi) k s' segs' fl' dat' hm → tags dat' segs' = L1 ++ mkSeg btt_free b r 0 :: L2 →
     quiet s s' → Q true s') →
  wp (RA_Add b sz) Q s.
Proof.
  intros Hi Hqa Hsz Hszq Hlo Hhi Hdis H0 H1. unfold RA_Add.
  destruct (inv_arena _ _ _ _ _ _ _ _ Hi) as (a&Ha&Hq&_). rewrite Ha in Hqa.
  injection Hqa as <-.
  wp_step. eapply rep_arena_null; [apply Hi|]. wp_step. eapply wp_arena; [done|].
  wp_step. apply wp_round_up; [lia..|]. intros r Hr Hrq.
  wp_step. eapply inv_InsertResource; [exact Hi|lia|lia|lia| | |].
  { intros x Hx Ht. destruct (Hdis x Hx Ht); [by left|right; lia]. }
  - intros s1 Hi1 Hpl Hq1. wp_step. rewrite Z.eqb_refl. by apply H0.
  - intros s1 p fl1 xs ys Hp0 -> Hp Hi1 _ Hq1. wp_step. unfold IMG_NULL.
    destruct (Z.eqb_spec p 0); [done|]. cbn [negb].
    destruct (inv_nodup _ _ _ _ _ _ _ _ _ _ Hi1).
    eapply H1; [exact Hr|exact Hrq|apply tags_app|exact Hi1| |done].
    rewrite (tags_mid _ xs p ys (mkSeg btt_free b r 0)) by by rewrite lookup_insert_eq.
    by rewrite !tags_insert.
Qed.

(** ** Deletion *)

Lemma wp_delete_segments fuel segs fl dat s Q :
  rep s segs fl dat → (length segs < fuel)%nat → concat fl = [] →
  (∀ q, is_Some (dat !! q) → q ∈ segs) →
  (∀ s', rep s' [] fl ∅ → step (- Z.of_nat (length segs)) s s' → Q tt s') →
  wp (delete_segments fuel) Q s.
Proof.
  intros Hr Hf Hfl. revert s segs dat Hr Hf. revert Q.
  induction fuel as [|fuel IH]; intros Q s segs dat Hr Hf Hdom HQ; [lia|].
  destruct (rep_is_arena _ _ _ _ Hr) as (a&Ha&[Hhd _ _]).
  cbn [delete_segments]. wp_step. eapply wp_arena; [done|]. rewrite Hhd. unfold IMG_NULL.
  destruct segs as [|p segs]; ends.
  { simpl. wp_step. eapply HQ; [|apply step_refl].
    replace ∅ with dat; [done|]. apply map_empty. intros q. apply eq_None_not_Some.
    intros Hq%Hdom. by apply elem_of_nil in Hq. }
  destruct (rep_seg_in _ _ _ _ p Hr ltac:(set_solver)) as [Hp0 Hp].
  destruct (Z.eqb_spec p 0); [done|].
  wp_step. eapply (wp_SegmentListRemove p [] segs); [done|]. intros s1 Hr1 Hs1 _. simpl in Hr1.
  wp_step. eapply wp_free_BT; [done|done| |by rewrite Hfl; apply not_elem_of_nil|].
  { apply rep_nodup in Hr. by apply NoDup_cons in Hr as [? _]. }
  intros s2 Hr2 Hs2 _. eapply IH; [exact Hr2|simpl in Hf; lia| |].
  { intros q [Hne Hq]%lookup_delete_is_Some. apply Hdom, elem_of_cons in Hq as [->|?]; done. }
  intros s3 Hr3 Hs3.
  eapply HQ; [done|]. eapply step_eq; [exact (step_trans _ _ _ _ _ Hs1 (step_trans _ _ _ _ _ Hs2 Hs3))|].
  cbn [length]. clear. lia.
Qed.

Lemma wp_RA_Delete md k s segs fl dat hm :
  inv [] md k s segs fl dat hm →
  wp RA_Delete (λ _ s', ra_arena s' = None ∧ ra_heap s' = ∅ ∧
     os_live (ra_os s') = k + Z.of_nat (size hm) - arena_blocks ∧ ra_env s' = ra_env s) s.
Proof.
  intros Hi. unfold RA_Delete. pose proof (i_rep _ _ _ _ _ _ _ _ Hi) as Hr.
  destruct (rep_is_arena _ _ _ _ Hr) as (a&Ha&[Hhd Htl Hfh]).
  pose proof (rep_flen _ _ _ _ (rep_is_heap _ _ _ _ Hr)) as Hlen.
  wp_step. eapply rep_arena_null; [done|]. wp_step. unfold clear_free. eapply wp_upd_arena; [done|].
  match goal with |- wp _ _ ?s1 => set (s2 := s1) end.
  assert (rep s2 segs (replicate FREE_TABLE_LIMIT []) dat) as Hr2.
  { destruct Hr as [_ [] Hf Hn]. split; [|split|done|done]; [|done|done|done| |].
    - eexists. split; [done|]. split; [done|done|].
      simpl. rewrite drop_ge; [done|]. rewrite Hfh, length_fmap, Hlen. done.
    - intros i xs [-> _]%lookup_replicate. split; [done|constructor].
    - rewrite concat_replicate_nil. constructor. }
  assert (step 0 s s2) as Hs2.
  { split; [apply os_step_refl|done| |]; by rewrite Ha. }
  wp_step. wp_step. wp_step. eapply wp_delete_segments; [exact Hr2| |apply concat_replicate_nil|intros q; apply Hi|].
  { pose proof (rep_length _ _ _ _ Hr2). lia. }
  intros s3 Hr3 Hs3. pose proof (step_trans _ _ _ _ _ Hs2 Hs3) as Hs23.
  destruct (side_step _ _ _ _ _ Hs23 (i_side _ _ _ _ _ _ _ _ Hi)) as [(a3&h&Ha3&Hh&_&_) _ _].
  wp_step. eapply wp_arena; [done|]. rewrite Hh. wp_step. apply wp_with_ra_os.
  unfold HASH_Delete. wp_step. apply wp_OSFreeMem, wp_OSFreeMem.
  wp_step. apply wp_with_ra_os, wp_OSFreeMem. wp_step. simpl.
  destruct (step_os _ _ _ Hs23) as [Hl _]. split; [done|]. split; [|split].
  - destruct (rep_is_heap _ _ _ _ Hr3) as [Hd _ _ _ _]. by apply fmap_empty_inv in Hd.
  - rewrite Hl, (i_blocks _ _ _ _ _ _ _ _ Hi). unfold arena_blocks. lia.
  - apply (step_env _ _ _ Hs23).
Qed.
End life.
