(* ===== verification/RAProps.v ===== *)
(** * The resource allocator: properties

    The theorems a caller of ra.c relies on, stated on [ra_rep md k s L]: in
    state [s] the arena's address-ordered tags are [L], it is fed as [md] says,
    and [k] kernel blocks are in use beside its tags and hash buckets. *)

From S2P Require Import Prelude Hash DList RA RARep RAGeo RAInv RAOps RAAlloc RAImport RATop RALife.

(** ** Lists of tags *)

(** No two neighbours could be merged. *)
Definition coalesced (L : list seg) : Prop :=
  ∀ A x y B, L = A ++ x :: y :: B → is_free x = true → is_free y = true → endof x ≠ s_base y.

Lemma carved_bytes L L' b n m : carved L L' b n m → bytes L' = bytes L.
Proof.
  intros (A&x&B&->&Hf&Hb&He&_&->). pose proof (free_tile _ Hf).
  by rewrite !bytes_app, bytes_carve, (bytes_tile x).
Qed.

(** A tile is where its base is. *)
Lemma tile_split_unique md A x B A' y B' :
  geo md (A ++ x :: B) → A ++ x :: B = A' ++ y :: B' → is_tile x → is_tile y →
  s_base x = s_base y → A = A' ∧ x = y ∧ B = B'.
Proof.
  intros Hg Heq Hx Hy Hb.
  assert (∀ A x B A' y B', geo md (A ++ x :: B) → A ++ x :: B = A' ++ y :: B' → is_tile x →
    is_tile y → s_base x = s_base y → (length A < length A')%nat → False) as Hlt.
  { clear. intros A x B A' y B' Hg Heq Hx Hy Hb Hlen.
    assert (y ∈ B) as HyB.
    { assert ((A ++ x :: B) !! length A' = Some y) as Hl.
      { rewrite Heq, lookup_app_r, Nat.sub_diag by lia. done. }
      rewrite lookup_app_r in Hl by lia.
      destruct (length A' - length A)%nat eqn:Hd; [lia|]. simpl in Hl.
      by eapply list_elem_of_lookup_2. }
    pose proof (geo_after _ _ _ _ _ Hg HyB) as Ha. unfold after in Ha.
    rewrite (kind_tile _ Hx) in Ha. unfold endof in Ha.
    pose proof (geo_ok _ _ x Hg ltac:(set_solver)) as [? _]%tile_ok; [lia|done]. }
  destruct (Nat.lt_total (length A) (length A')) as [H|[H|H]].
  - exfalso. by eapply (Hlt A x B A' y B').
  - apply app_inj_1 in Heq as [-> [= -> ->]]; done.
  - exfalso. rewrite Heq in Hg. by eapply (Hlt A' y B' A x B).
Qed.

(** Freeing what was just carved out restores the list. *)
Lemma free_carve lo hi A x B b n A' y B' :
  coalesced (A ++ x :: B) → is_free x = true → s_base x ≤ b → b + n ≤ endof x → 0 < n →
  geo (Resource lo hi) (A ++ carve x b n ++ B) →
  A ++ carve x b n ++ B = A' ++ y :: B' → s_type y = btt_live → s_base y = b →
  free_tags A' y B' = A ++ x :: B.
Proof.
  intros Hco Hf Hb He Hn Hg Heq Hy Hyb.
  set (front := if s_base x <? b then [mkSeg btt_free (s_base x) (b - s_base x) (s_map x)] else []).
  set (back := if b + n <? endof x then [mkSeg btt_free (b + n) (endof x - (b + n)) (s_map x)] else []).
  assert (A ++ carve x b n ++ B = (A ++ front) ++ mkSeg btt_live b n (s_map x) :: (back ++ B)) as Hc.
  { unfold carve. fold front back. by rewrite <- !app_assoc. }
  rewrite Hc in Heq, Hg.
  destruct (tile_split_unique _ _ _ _ _ _ _ Hg Heq) as (<-&<-&<-); [done|by apply live_tile|done|].
  destruct (free_tags_resource _ _ _ _ _ Hg) as [-> _].
  assert (coal_prev (A ++ front) (mkSeg btt_live b n (s_map x)) =
    (A, mkSeg btt_live (s_base x) (b + n - s_base x) (s_map x))) as ->.
  { unfold coal_prev, front. destruct (Z.ltb_spec (s_base x) b).
    - rewrite last_snoc, removelast_last. unfold is_free, endof. simpl.
      destruct (Z.eqb_spec (s_base x + (b - s_base x)) b); [|lia]. repeat f_equal. lia.
    - assert (b = s_base x) as -> by lia. rewrite app_nil_r.
      replace (s_base x + n - s_base x) with n by lia.
      destruct (last A) as [z|] eqn:Hz; [|done]. simpl.
      destruct (is_free z) eqn:Hfz; [|done]. destruct (Z.eqb_spec (endof z) (s_base x)) as [Hez|]; [|done].
      exfalso. rewrite (last_removelast _ _ Hz), <- app_assoc in Hco. by apply (Hco (removelast A) z x B). }
  assert (coal_next (mkSeg btt_live (s_base x) (b + n - s_base x) (s_map x)) (back ++ B) =
    (mkSeg btt_live (s_base x) (s_size x) (s_map x), B)) as ->.
  { unfold coal_next, back, endof in *. simpl. destruct (Z.ltb_spec (b + n) (s_base x + s_size x)); simpl.
    - destruct (Z.eqb_spec (s_base x + (b + n - s_base x)) (b + n)); [|lia]. repeat f_equal. lia.
    - replace (b + n - s_base x) with (s_size x) by lia.
      destruct B as [|z B]; [done|].
      destruct (is_free z) eqn:Hfz; [|done].
      destruct (Z.eqb_spec (s_base x + s_size x) (s_base z)) as [Hez|]; [|done].
      exfalso. by apply (Hco A x z B). }
  apply bool_decide_eq_true in Hf. destruct x; simpl in *; by subst.
Qed.

(** ** A concrete arena, for the examples *)

(** No imports at all. *)
Definition no_flags (_ : unit) (_ : Z) : option Z := None.
#[export, refine] Instance no_source : ImportSource no_flags := {
  regions _ := ∅;
  src_handle := 0;
  src_alloc := _RequestAllocFail;
  src_free _ _ _ := mret tt;
  src_backing := None
}.
Proof.
  - intros e n fl Hr Hn. done.
  - intros e b n m _ Hb. by rewrite lookup_empty in Hb.
Defined.
#[export] Instance no_source_total : BackingTotal no_source.
Proof. done. Qed.

(** A source with one chunk of 64K at 0x10000, mapping 7: the environment is
    the flags it was imported with, if it is. *)
Definition chunk_flags (e : option Z) (m : Z) : option Z := if m =? 7 then e else None.
Definition chunk_regions (e : option Z) : gmap Z (Z * Z) :=
  match e with Some _ => {[ 65536 := (65536, 7) ]} | None => ∅ end.
Definition chunk_alloc : import_alloc_fn (E:=option Z) := λ _ n fl e,
  match e with
  | None => if n <=? 65536 then Done (Some (65536, 7, 65536)) (Some fl) else Done None None
  | Some f => Done None (Some f)
  end.
Definition chunk_free : import_free_fn (E:=option Z) := λ _ _ _ _, Done tt None.

Lemma chunk_ok : regions_ok {[ 65536 := (65536, 7) ]}.
Proof.
  split.
  - intros b n m [<- [= <- <-]]%lookup_singleton_Some. unfold ADDR_MAX. lia.
  - intros b n m b' n' m' [<- _]%lookup_singleton_Some [<- _]%lookup_singleton_Some. lia.
  - intros b n b' n' m [<- _]%lookup_singleton_Some [<- _]%lookup_singleton_Some. done.
Qed.

#[export, refine] Instance chunk_source : ImportSource chunk_flags := {
  regions := chunk_regions;
  src_handle := 0;
  src_alloc := chunk_alloc;
  src_free := chunk_free;
  src_backing := None
}.
Proof.
  - intros [f|] n fl _ Hn; unfold wp, chunk_alloc.
    + done.
    + destruct (Z.leb_spec n 65536); [|done]. split; [by intros m [f Hf]; unfold chunk_flags in Hf; destruct (m =? 7)|].
      split; [lia|]. split; [done|]. split; [done|]. split; [apply chunk_ok|done].
  - intros [f|] b n m _ Hb; unfold wp, chunk_free; simpl in *; [|by rewrite lookup_empty in Hb].
    apply lookup_singleton_Some in Hb as [<- [= <- <-]]. split; [by rewrite delete_singleton_eq|].
    intros m Hm. unfold chunk_flags. destruct (Z.eqb_spec m 7); [done|done].
Defined.
#[export] Instance chunk_source_total : BackingTotal chunk_source.
Proof. done. Qed.

Definition blank {E} (e : E) : ra_st (E:=E) := mk_ra_st os_plenty ∅ 1 None e.

Definition final {E A} (m : M (ra_st (E:=E)) A) (s : ra_st) : ra_st :=
  match m s with Done _ s' => s' | _ => s end.

(** An arena of 64K at 0x10000 with 4K quantum, an empty one with imports. *)
Definition heap_st : ra_st (E:=unit) :=
  final (RA_Create 65536 65536 0 4096 None None None 0) (blank tt).
Definition import_st : ra_st (E:=option Z) :=
  final (RA_Create 0 0 0 4096 (Some chunk_alloc) (Some chunk_free) None 0) (blank None).

Definition heap_mode : mode := Resource 65536 200000.

Lemma heap_rep : ra_rep heap_mode 3 heap_st [mkSeg btt_free 65536 65536 0].
Proof.
  pose proof (wp_RA_Create (src:=no_source) heap_mode 65536 65536 0 4096 None None None 0 (blank tt)) as Hw.
  rewrite wp_Done in Hw. destruct Hw as (ok&s'&Hrun&[Hpl Hok]); try done.
  - intros _. exists 65536, 200000. split; [done|lia].
  - by left.
  - destruct (Hpl eq_refl) as [-> _]. destruct Hok as (_&L&Hrep&[[? _]|(r&Hr&Hr'&Hm&->)]); [done|].
    assert (heap_st = s') as -> by (unfold heap_st, final; by rewrite Hrun).
    assert (r = 65536) as ->; [|exact Hrep].
    pose proof (Z.div_mod r 4096 ltac:(lia)) as Hd. rewrite Hm in Hd. lia.
Qed.

Lemma import_rep : ra_rep (Import ∅) 3 import_st [].
Proof.
  pose proof (wp_RA_Create (src:=chunk_source) (Import ∅) 0 0 0 4096 (Some chunk_alloc) (Some chunk_free)
    None 0 (blank None)) as Hw.
  rewrite wp_Done in Hw. destruct Hw as (ok&s'&Hrun&[Hpl Hok]); try done.
  - by left.
  - destruct (Hpl eq_refl) as [-> _]. destruct Hok as (_&L&Hrep&[[_ ->]|(r&Hr&Hr'&Hm&->)]).
    + assert (import_st = s') as -> by (unfold import_st, final; by rewrite Hrun). exact Hrep.
    + exfalso. lia.
Qed.

Section props.
Context {E : Type} {map_flags : E → Z → option Z} {src : ImportSource map_flags}.
Implicit Types (s : ra_st (E:=E)) (md : mode) (k : Z) (L : list seg).

(** The calls a theorem speaks about: sizes, alignments and offsets that keep
    the 32-bit sizes of imports from wrapping around. *)
Definition alloc_ok (q n al off : Z) : Prop :=
  0 < n ∧ is_u32 al ∧ is_u32 off ∧ n + al + q < 4294967296.

Definition few (L : list seg) : Prop := Z.of_nat (length (lives L)) < 134217728.

Lemma few_capacity md k s segs fl dat hm :
  inv [] md k s segs fl dat hm → few (tags dat segs) → capacity hm.
Proof. intros Hi Hf. pose proof (inv_size_hm _ _ _ _ _ _ _ _ Hi). unfold capacity, few in *. lia. Qed.

Lemma quantum_arena s q : uQuantum <$> ra_arena s = Some q → ∀ a, ra_arena s = Some a → uQuantum a = q.
Proof. intros Hq a Ha. rewrite Ha in Hq. by injection Hq. Qed.

(** The whole effect of [RA_Alloc], in terms of the list of tags. *)
Lemma wp_RA_Alloc_rep md k s L q n flags al off :
  ra_rep md k s L → uQuantum <$> ra_arena s = Some q → few L → alloc_ok q n al off →
  wp (RA_Alloc map_flags n flags al off) (λ r s', calm s s' ∧ ∃ md' L', ra_rep md' k s' L' ∧
    same_kind md md' ∧
    match r with
    | Some (b, m) => ∃ md0 L0 md1 L1, tags_kept md L L0 ∧ same_kind md md0 ∧
        (plenty (ra_os s) → md0 = md ∧ L0 = L) ∧ grows md0 L0 md1 L1 ∧ md' = md1 ∧
        carved L1 L' b n m ∧ aligned b al off ∧ flags_ok (map_flags:=map_flags) (ra_env s') m flags
    | None => tags_kept md L L' ∧ (plenty (ra_os s) → ∀ x, x ∈ L → s_type x = btt_free →
         ¬ fit (map_flags:=map_flags) (ra_env s) x n flags al off)
    end) s.
Proof.
  intros (segs&fl&dat&hm&Hi&->) Hq Hfew (Hn&Hal&Hoff&Hsz).
  eapply wp_mono.
  { eapply wp_RA_Alloc; [exact Hi|by eapply few_capacity|done..|].
    intros a Ha. by rewrite (quantum_arena _ _ Hq _ Ha). }
  intros [[b m]|] s' [Hr Hl]; (split; [done|]).
  - destruct Hr as (md0&L0&Hlv&Hk&Hpl&md1&L1&segs'&fl'&dat'&q'&Hg&Hi'&Hc&Ha&Hf).
    exists md1, (tags dat' segs'). split; [by eexists _, _, _, _|].
    split; [eapply same_kind_trans; [done|by eapply grows_kind]|].
    by exists md0, L0, md1, L1.
  - destruct Hr as [(md'&segs'&fl'&dat'&Hi'&Hlv&Hk) Hnf].
    exists md', (tags dat' segs'). split; [by eexists _, _, _, _|]. done.
Qed.

(** C15: [RA_Alloc] in any arena, with imports or without, whatever the kernel
    allocator does: it ends, faults nowhere and leaves a well-formed arena.  A
    range it returns has exactly the requested size, is aligned as asked, has
    the requested flags, overlaps no live range, and joins the live ranges; if
    it refuses, the live ranges are what they were. *)
Theorem RA_Alloc_sound md k s L q n flags al off :
  ra_rep md k s L → uQuantum <$> ra_arena s = Some q → few L → alloc_ok q n al off →
  wp (RA_Alloc map_flags n flags al off) (λ r s', ∃ md' L', ra_rep md' k s' L' ∧
    same_kind md md' ∧ uQuantum <$> ra_arena s' = Some q ∧
    match r with
    | Some (b, m) =>
        lives L' ≡ₚ mkSeg btt_live b n m :: lives L ∧
        (∀ y, y ∈ lives L → endof y ≤ b ∨ b + n ≤ s_base y) ∧
        0 ≤ b ∧ b + n ≤ ADDR_MAX ∧ aligned b al off ∧
        flags_ok (map_flags:=map_flags) (ra_env s') m flags
    | None => lives L' = lives L
    end) s.
Proof.
  intros Hrep Hq Hfew Hok. eapply wp_mono; [by eapply wp_RA_Alloc_rep|].
  intros r s' ([[_ Hq'%static_quantum] _]&md'&L'&Hrep'&Hk&Hr). exists md', L'.
  split; [done|]. split; [done|]. split; [congruence|].
  destruct r as [[b m]|]; [|by destruct Hr as [[? _] _]].
  destruct Hr as (md0&L0&md1&L1&[Hlv _]&_&_&Hg&->&Hc&Ha&Hf).
  rewrite <- Hlv, <- (grows_lives _ _ _ _ Hg).
  split; [by eapply carved_lives|]. split; [intros y; eapply carved_disjoint; [by eapply ra_rep_geo|done]|].
  pose proof Hc as (A&x&B&_&_&_&_&_&HL').
  assert (mkSeg btt_live b n m ∈ L') as Hin.
  { apply elem_lives. rewrite (carved_lives _ _ _ _ _ Hc). by left. }
  pose proof (tile_bounds _ _ _ (ra_rep_mode _ _ _ _ Hrep') (ra_rep_geo _ _ _ _ Hrep') Hin) as Hbd.
  destruct Hbd as (?&_&?); [done|]. done.
Qed.

(** C21: with memory available, [RA_Alloc] never refuses a request that some
    free tag can take at the requested alignment and with the requested flags:
    the search from the free list of the size upwards misses nothing. *)
Theorem RA_Alloc_complete md k s L q n flags al off x :
  ra_rep md k s L → uQuantum <$> ra_arena s = Some q → few L → alloc_ok q n al off →
  plenty (ra_os s) → x ∈ L → s_type x = btt_free →
  fit (map_flags:=map_flags) (ra_env s) x n flags al off →
  wp (RA_Alloc map_flags n flags al off) (λ r s', is_Some r ∧ plenty (ra_os s')) s.
Proof.
  intros Hrep Hq Hfew Hok Hpl Hx Hf Hfit. eapply wp_mono; [by eapply wp_RA_Alloc_rep|].
  intros r s' ([[Hpl' _] _]&md'&L'&_&_&Hr). split; [|by auto].
  destruct r as [r|]; [done|]. destruct Hr as [_ Hno]. by destruct (Hno Hpl x Hx Hf).
Qed.

Lemma ra_rep_quantum md k s L : ra_rep md k s L → ∃ q, uQuantum <$> ra_arena s = Some q.
Proof.
  intros (segs&fl&dat&hm&Hi&_). destruct (inv_arena _ _ _ _ _ _ _ _ Hi) as (a&Ha&_). rewrite Ha. by eexists.
Qed.

Lemma wp_RA_Free_rep md k s L b flag q P :
  ra_rep md k s L → uQuantum <$> ra_arena s = Some q →
  (∀ L1 x L2, L = L1 ++ x :: L2 → s_type x = btt_live → s_base x = b →
     backing_ok flag q b (s_size x) (L1 ++ L2) P (ra_env s)) →
  wp (RA_Free b flag) (λ _ s', later s s' ∧ ∃ md' L', ra_rep md' k s' L' ∧
    ((∃ L1 x L2, L = L1 ++ x :: L2 ∧ s_type x = btt_live ∧ s_base x = b ∧
        L' = free_tags L1 x L2 ∧ md' = free_mode md L1 x L2 ∧ (is_import md ∨ P (ra_env s'))) ∨
     (∀ x, x ∈ lives L → s_base x ≠ b) ∧ L' = L ∧ md' = md ∧ ra_env s' = ra_env s)) s.
Proof.
  intros (segs&fl&dat&hm&Hi&->) Hq Hbk. eapply wp_mono; [by eapply wp_RA_Free|].
  intros [] s' [Hl Hr]. split; [done|]. destruct (hm !! [b]) as [p|] eqn:Hb.
  - destruct Hr as (xs&ys&x&segs'&fl'&dat'&->&Hp&Hlive&Hbase&Hi'&Htags&HP).
    eexists _, _. split; [by eexists _, _, _, _|]. left.
    exists (tags dat xs), x, (tags dat ys). rewrite (tags_mid _ _ _ _ _ Hp). done.
  - destruct Hr as [Hi' He]. eexists md, _. split; [by eexists _, _, _, _|]. right. split; [|done].
    intros x [Hx Ht]%elem_lives Hbx. destruct (tag_dat _ _ _ _ _ _ _ _ _ Hi Hx) as [p Hp].
    assert (hm !! [b] = Some p) as Hb'; [|congruence].
    apply (w_live _ _ _ _ _ _ (i_wf _ _ _ _ _ _ _ _ Hi)). split; [apply not_elem_of_nil|].
    exists x. by subst.
Qed.

(** With a backing store callback that may be called at any time. *)
Lemma wp_RA_Free_total {tot : BackingTotal src} md k s L b flag :
  ra_rep md k s L →
  wp (RA_Free b flag) (λ _ s', later s s' ∧ ∃ md' L', ra_rep md' k s' L' ∧
    ((∃ L1 x L2, L = L1 ++ x :: L2 ∧ s_type x = btt_live ∧ s_base x = b ∧
        L' = free_tags L1 x L2 ∧ md' = free_mode md L1 x L2) ∨
     (∀ x, x ∈ lives L → s_base x ≠ b) ∧ L' = L ∧ md' = md)) s.
Proof.
  intros Hrep. destruct (ra_rep_quantum _ _ _ _ Hrep) as [q Hq].
  eapply wp_mono; [by eapply (wp_RA_Free_rep _ _ _ _ _ _ q (λ _, True)); eauto using backing_total|].
  intros [] s' (Hl&md'&L'&Hrep'&Hr). split; [done|]. exists md', L'. naive_solver.
Qed.

(** [RA_Free] of the base of a live range ends without fault; exactly that
    range leaves the live ranges, and the freed tag is merged with the free
    tags that touch it on both sides ([free_tags]), the import being given back
    when the merged tag spans it ([free_mode]).  Of any other address, it does
    nothing. *)
Theorem RA_Free_spec {tot : BackingTotal src} md k s L b flag :
  ra_rep md k s L →
  wp (RA_Free b flag) (λ _ s', ∃ md' L', ra_rep md' k s' L' ∧
    ((∃ L1 x L2, L = L1 ++ x :: L2 ∧ s_type x = btt_live ∧ s_base x = b ∧
        lives L' = lives L1 ++ lives L2 ∧
        L' = free_tags L1 x L2 ∧ md' = free_mode md L1 x L2) ∨
     (∀ x, x ∈ lives L → s_base x ≠ b) ∧ L' = L ∧ md' = md)) s.
Proof.
  intros Hrep. eapply wp_mono; [by eapply wp_RA_Free_total|].
  intros [] s' (_&md'&L'&Hrep'&Hr). exists md', L'. split; [done|].
  destruct Hr as [(L1&x&L2&->&Ht&Hb&->&->)|Hr]; [left|by right].
  exists L1, x, L2. split_and!; [done..| |done|done]. by rewrite lives_free_tags, lives_app.
Qed.

(** Freeing the last live range of an import gives exactly that import back
    to its source (its base and its mapping, the source's own law then drops it
    from the outstanding imports) and removes its markers. *)
Theorem RA_Free_returns_import {tot : BackingTotal src} R k s L1 st x en L2 flag :
  ra_rep (Import R) k s (L1 ++ st :: x :: en :: L2) →
  s_type st = btt_span → s_type x = btt_live → s_type en = btt_span →
  wp (RA_Free (s_base x) flag) (λ _ s',
    R !! s_base x = Some (s_size x, s_map x) ∧
    regions (ra_env s') = delete (s_base x) R ∧
    ra_rep (Import (delete (s_base x) R)) k s' (L1 ++ L2)) s.
Proof.
  intros Hrep Hst Hx Hen. eapply wp_mono; [by eapply wp_RA_Free_total|].
  intros [] s' (_&md'&L'&Hrep'&Hr).
  pose proof (ra_rep_geo _ _ _ _ Hrep) as Hg. pose proof (live_tile _ Hx) as Htx.
  assert (∀ y, s_type y = btt_span → kind_of y ≠ KTile) as Hmk.
  { intros y Hy Hk. by apply kind_tile_inv in Hk. }
  destruct (span_region _ _ _ _ _ _ (ra_rep_mode _ _ _ _ Hrep) Hg (Hmk _ Hst) Htx (Hmk _ Hen)) as [HR _].
  split; [done|].
  destruct Hr as [(A&y&B&Heq&Ht&Hb&->&->)|(Hno&_)].
  2:{ exfalso. apply (Hno x); [|done]. apply elem_lives. split; [set_solver|done]. }
  replace (L1 ++ st :: x :: en :: L2) with ((L1 ++ [st]) ++ x :: en :: L2) in * by by rewrite <- app_assoc.
  destruct (tile_split_unique _ _ _ _ _ _ _ Hg Heq) as (<-&<-&<-); [done|by apply live_tile|done|].
  assert (coal_prev (L1 ++ [st]) x = (L1 ++ [st], x)) as Hc1.
  { unfold coal_prev. rewrite last_snoc. unfold is_free. by rewrite bool_decide_eq_false_2 by congruence. }
  assert (coal_next x (en :: L2) = (x, en :: L2)) as Hc2.
  { unfold coal_next, is_free. by rewrite bool_decide_eq_false_2 by congruence. }
  unfold free_tags, free_mode in Hrep'. rewrite Hc1, Hc2 in Hrep'. simpl in Hrep'.
  rewrite last_snoc, removelast_last in Hrep'. simpl in Hrep'.
  rewrite !bool_decide_eq_true_2 in Hrep' by done. simpl in Hrep'. split; [|done].
  destruct Hrep' as (segs&fl&dat&hm&Hi&_). apply (side_env _ _ _ (i_side _ _ _ _ _ _ _ _ Hi)).
Qed.

(** C22: an arena without imports neither loses nor invents address space:
    with fewer than 2^27 live ranges, the bytes of its tags, live and free
    together, are the same after a well-formed request ([alloc_ok]) that is
    granted, after one that is refused, be it for want of room or because
    the kernel refused memory at any point of it, and after any release. *)
Theorem RA_bytes_conserved {tot : BackingTotal src} lo hi k s L q n flags al off b flag :
  ra_rep (Resource lo hi) k s L → uQuantum <$> ra_arena s = Some q → few L → alloc_ok q n al off →
  wp (RA_Alloc map_flags n flags al off) (λ r s', ∃ L',
    ra_rep (Resource lo hi) k s' L' ∧ bytes L' = bytes L) s ∧
  wp (RA_Free b flag) (λ _ s', ∃ L', ra_rep (Resource lo hi) k s' L' ∧ bytes L' = bytes L) s.
Proof.
  intros Hrep Hq Hfew Hok. split.
  - eapply wp_mono; [by eapply wp_RA_Alloc_rep|]. intros r s' (_&md'&L'&Hrep'&Hk&Hr).
    assert (md' = Resource lo hi) as -> by (destruct md'; [by destruct Hk as [-> ->]|done]).
    exists L'. split; [done|]. destruct r as [[b' m]|]; [|destruct Hr as [[_ Hb] _]; by eapply Hb].
    destruct Hr as (md0&L0&md1&L1&[_ Hb]&Hk0&_&Hg&<-&Hc&_).
    rewrite (carved_bytes _ _ _ _ _ Hc), <- (Hb lo hi eq_refl). by inversion Hg.
  - eapply wp_mono; [by eapply wp_RA_Free_total|].
    intros [] s' (_&md'&L'&Hrep'&[(L1&x&L2&->&_&_&->&->)|(_&->&->)]); [|by exists L].
    pose proof (ra_rep_geo _ _ _ _ Hrep) as Hg.
    destruct (free_tags_resource _ _ _ _ _ Hg) as [_ Hm]. rewrite Hm in Hrep'.
    eexists. split; [done|]. by eapply bytes_free_tags.
Qed.

(** In an arena without imports whose free tags are all merged, releasing
    what was just allocated restores the arena exactly: every tag back, split
    pieces merged again. *)
Theorem RA_Alloc_Free_roundtrip {tot : BackingTotal src} lo hi k s L q n flags al off flag :
  ra_rep (Resource lo hi) k s L → uQuantum <$> ra_arena s = Some q → few L →
  alloc_ok q n al off → plenty (ra_os s) → coalesced L →
  wp (RA_Alloc map_flags n flags al off) (λ r s1,
    match r with
    | Some (b, _) => wp (RA_Free b flag) (λ _ s2, ra_rep (Resource lo hi) k s2 L) s1
    | None => True
    end) s.
Proof.
  intros Hrep Hq Hfew Hok Hpl Hco. eapply wp_mono; [by eapply wp_RA_Alloc_rep|].
  intros [[b m]|] s1 (_&md'&L'&Hrep'&Hk&Hr); [|done].
  destruct Hr as (md0&L0&md1&L1&_&_&Hpl0&Hg&->&Hc&_). destruct (Hpl0 Hpl) as [-> ->].
  destruct Hg as [|? ? ? ? ? ? ?]; [|done].
  pose proof (ra_rep_geo _ _ _ _ Hrep') as Hg'. pose proof Hc as (A&x&B&->&Hf&Hb&He&<-&->).
  eapply wp_mono; [by eapply wp_RA_Free_total|].
  intros [] s2 (_&md'&L'&Hrep2&[(A'&y&B'&Heq&Hy&Hyb&->&->)|(Hno&_)]).
  - rewrite <- (free_carve lo hi A x B b n A' y B');
      [|done|by apply bool_decide_eq_true|done|done|apply Hok|done|done|done|done].
    rewrite Heq in Hg'. destruct (free_tags_resource _ _ _ _ _ Hg') as [_ Hm]. by rewrite Hm in Hrep2.
  - exfalso. apply (Hno (mkSeg btt_live b n (s_map x))); [|done].
    rewrite (carved_lives _ _ _ _ _ Hc). by left.
Qed.
End props.

(** ** Examples *)

Lemma heap_quantum : uQuantum <$> ra_arena heap_st = Some 4096.
Proof. vm_compute. reflexivity. Qed.

Lemma heap_few : few [mkSeg btt_free 65536 65536 0].
Proof. unfold few. simpl. lia. Qed.

Lemma small_alloc : alloc_ok 4096 100 16 0.
Proof. unfold alloc_ok, is_u32. lia. Qed.

Lemma RA_Alloc_sound_witness :
  wp (RA_Alloc no_flags 100 0 16 0) (λ r s', ∃ md' L', ra_rep md' 3 s' L' ∧
    same_kind heap_mode md' ∧ uQuantum <$> ra_arena s' = Some 4096 ∧
    match r with
    | Some (b, m) =>
        lives L' ≡ₚ mkSeg btt_live b 100 m :: [] ∧
        (∀ y, y ∈ ([] : list seg) → endof y ≤ b ∨ b + 100 ≤ s_base y) ∧
        0 ≤ b ∧ b + 100 ≤ ADDR_MAX ∧ aligned b 16 0 ∧
        flags_ok (map_flags:=no_flags) (ra_env s') m 0
    | None => lives L' = []
    end) heap_st.
Proof.
  exact (RA_Alloc_sound (map_flags:=no_flags) heap_mode 3 heap_st _ 4096 100 0 16 0
    heap_rep heap_quantum heap_few small_alloc).
Defined.

Lemma RA_Alloc_complete_witness :
  wp (RA_Alloc no_flags 100 0 16 0) (λ r s', is_Some r ∧ plenty (ra_os s')) heap_st.
Proof.
  apply (RA_Alloc_complete (map_flags:=no_flags) heap_mode 3 heap_st _ 4096 100 0 16 0
    (mkSeg btt_free 65536 65536 0) heap_rep heap_quantum heap_few small_alloc).
  - reflexivity.
  - by left.
  - reflexivity.
  - split; [vm_compute; discriminate|by left].
Defined.

Lemma RA_Free_spec_witness :
  wp (RA_Free 65536 false) (λ _ s', ∃ md' L', ra_rep md' 3 s' L' ∧
    ((∃ L1 x L2, [mkSeg btt_free 65536 65536 0] = L1 ++ x :: L2 ∧ s_type x = btt_live ∧
        s_base x = 65536 ∧ lives L' = lives L1 ++ lives L2 ∧
        L' = free_tags L1 x L2 ∧ md' = free_mode heap_mode L1 x L2) ∨
     (∀ x, x ∈ lives [mkSeg btt_free 65536 65536 0] → s_base x ≠ 65536) ∧
     L' = [mkSeg btt_free 65536 65536 0] ∧ md' = heap_mode)) heap_st.
Proof. exact (RA_Free_spec (map_flags:=no_flags) heap_mode 3 heap_st _ 65536 false heap_rep). Defined.

Lemma RA_bytes_conserved_witness :
  wp (RA_Alloc no_flags 100 0 16 0) (λ r s', ∃ L', ra_rep heap_mode 3 s' L' ∧ bytes L' = 65536) heap_st ∧
  wp (RA_Free 65536 false) (λ _ s', ∃ L', ra_rep heap_mode 3 s' L' ∧ bytes L' = 65536) heap_st.
Proof.
  exact (RA_bytes_conserved (map_flags:=no_flags) 65536 200000 3 heap_st _ 4096 100 0 16 0 65536 false
    heap_rep heap_quantum heap_few small_alloc).
Defined.

Lemma RA_Alloc_Free_roundtrip_witness :
  wp (RA_Alloc no_flags 100 0 16 0) (λ r s1,
    match r with
    | Some (b, _) => wp (RA_Free b false)
        (λ _ s2, ra_rep heap_mode 3 s2 [mkSeg btt_free 65536 65536 0]) s1
    | None => True
    end) heap_st.
Proof.
  apply (RA_Alloc_Free_roundtrip (map_flags:=no_flags) 65536 200000 3 heap_st _ 4096 100 0 16 0 false
    heap_rep heap_quantum heap_few small_alloc eq_refl).
  intros A x y B HAB. exfalso. destruct A as [|? [|]]; discriminate HAB.
Defined.

(** The chunk of the source of imports fully allocated. *)
Definition full_st : ra_st (E:=option Z) := final (RA_Alloc chunk_flags 65536 0 0 0) import_st.

Definition full_tags : list seg :=
  [mkSeg btt_span 65536 65536 0; mkSeg btt_live 65536 65536 7; mkSeg btt_span 131072 0 0].

Lemma full_rep : ra_rep (Import {[ 65536 := (65536, 7) ]}) 3 full_st full_tags.
Proof.
  pose proof (wp_RA_Alloc_rep (src:=chunk_source) (Import ∅) 3 import_st [] 4096 65536 0 0 0 import_rep
    ltac:(vm_compute; reflexivity) ltac:(unfold few; simpl; lia) ltac:(unfold alloc_ok, is_u32; lia)) as Hw.
  rewrite wp_Done in Hw. destruct Hw as (r&s'&Hrun&_&md'&L'&Hrep&_&Hr).
  assert (full_st = s') as -> by (unfold full_st, final; by rewrite Hrun).
  assert (r = Some (65536, 7)) as ->.
  { assert (match RA_Alloc chunk_flags 65536 0 0 0 import_st with Done r _ => r | _ => None end
      = Some (65536, 7)) as Hr' by (vm_compute; reflexivity). by rewrite Hrun in Hr'. }
  destruct Hr as (md0&L0&md1&L1&_&_&Hpl&Hg&->&(A&x&B&HAB&Hf&Hlo&Hhi&Hm&->)&_).
  destruct (Hpl eq_refl) as [-> ->]. clear Hlo Hhi Hm Hpl.
  assert (regions (ra_env s') = {[ 65536 := (65536, 7) ]}) as Henv.
  { assert (chunk_regions (ra_env full_st) = {[ 65536 := (65536, 7) ]}) as Hc by (vm_compute; reflexivity).
    unfold full_st, final in Hc. by rewrite Hrun in Hc. }
  clear Hrun.
  destruct Hg as [|R b n m L1 L2 [= <-] HL _ Hreg]; [by destruct A|].
  symmetry in HL. apply app_eq_nil in HL as [-> ->]. cbn [app] in HAB. rewrite app_nil_r in HAB.
  assert (<[b:=(n, m)]> (∅ : gmap Z (Z * Z)) = {[65536 := (65536, 7)]}) as HR.
  { destruct Hrep as (?&?&?&?&Hi&_). pose proof (side_env _ _ _ (i_side _ _ _ _ _ _ _ _ Hi)) as He.
    simpl in He. rewrite <- He. exact Henv. }
  assert (b = 65536 ∧ n = 65536 ∧ m = 7) as (->&->&->).
  { assert ((<[b:=(n, m)]> (∅ : gmap Z (Z * Z))) !! b = Some (n, m)) as Hb by by rewrite lookup_insert_eq.
    rewrite HR in Hb. apply lookup_singleton_Some in Hb as [<- [= <- <-]].
    split; [reflexivity|split; reflexivity]. }
  rewrite insert_empty in Hrep.
  unfold span_tags in HAB. destruct A as [|a1 A].
  { injection HAB as Hx _. rewrite <- Hx in Hf. discriminate. }
  injection HAB as Ha1 HAB. destruct A as [|a2 A].
  { injection HAB as Hx HB. subst a1 x B.
    replace full_tags with ([mkSeg btt_span 65536 65536 0] ++ carve (mkSeg btt_free 65536 65536 7) 65536 65536 ++
      [mkSeg btt_span (65536 + 65536) 0 0]) by (vm_compute; reflexivity). exact Hrep. }
  injection HAB as _ HAB. destruct A as [|a3 A].
  { injection HAB as Hx _. rewrite <- Hx in Hf. discriminate. }
  injection HAB as _ HAB. by destruct A.
Qed.

Lemma RA_Free_returns_import_witness :
  wp (RA_Free 65536 false) (λ _ s',
    ({[ 65536 := (65536, 7) ]} : gmap Z (Z * Z)) !! 65536 = Some (65536, 7) ∧
    chunk_regions (ra_env s') = delete 65536 {[ 65536 := (65536, 7) ]} ∧
    ra_rep (Import (delete 65536 {[ 65536 := (65536, 7) ]})) 3 s' []) full_st.
Proof.
  exact (RA_Free_returns_import (src:=chunk_source) {[ 65536 := (65536, 7) ]} 3 full_st []
    (mkSeg btt_span 65536 65536 0) (mkSeg btt_live 65536 65536 7) (mkSeg btt_span 131072 0 0) [] false
    full_rep eq_refl eq_refl eq_refl).
Defined.
