(* ===== verification/RASys.v ===== *)
(** * The resource allocator: whole runs

    An abstract allocator (a finite map from live bases to sizes inside a
    window), the theorem that ra.c implements it on every sequence of calls,
    and the beginning and the end of an arena's life. *)

From S2P Require Import Prelude Hash DList RA RARep RAGeo RAInv RAOps RAAlloc RAImport RATop RALife RAProps.

(** ** The abstract allocator *)

Inductive ra_op :=
| OpAlloc (n flags al off : Z)
| OpFree (b : Z).

(** One call: the live ranges before, the answer, the live ranges after. *)
Inductive arena_step (lo hi : Z) : ra_op → gmap Z Z → option Z → gmap Z Z → Prop :=
| arena_alloc n fl al off l b :
    lo ≤ b → b + n ≤ hi → aligned b al off →
    (∀ b' n', l !! b' = Some n' → b' + n' ≤ b ∨ b + n ≤ b') →
    arena_step lo hi (OpAlloc n fl al off) l (Some b) (<[b := n]> l)
| arena_refuse n fl al off l : arena_step lo hi (OpAlloc n fl al off) l None l
| arena_free b l : arena_step lo hi (OpFree b) l None (delete b l).

Inductive arena_run (lo hi : Z) : list ra_op → gmap Z Z → list (option Z) → gmap Z Z → Prop :=
| arena_nil l : arena_run lo hi [] l [] l
| arena_cons op ops l r l' rs l'' :
    arena_step lo hi op l r l' → arena_run lo hi ops l' rs l'' →
    arena_run lo hi (op :: ops) l (r :: rs) l''.

(** ** The concrete runs *)

Section sys.
Context {E : Type} {map_flags : E → Z → option Z} {src : ImportSource map_flags}.
Implicit Types (s : ra_st (E:=E)) (md : mode) (k : Z) (L : list seg).

Definition ra_run_op (op : ra_op) : M (ra_st (E:=E)) (option Z) :=
  match op with
  | OpAlloc n fl al off => r ← RA_Alloc map_flags n fl al off; mret (fst <$> r)
  | OpFree b => RA_Free b false;; mret None
  end.

Fixpoint ra_run_ops (ops : list ra_op) : M (ra_st (E:=E)) (list (option Z)) :=
  match ops with
  | [] => mret []
  | op :: ops => r ← ra_run_op op; rs ← ra_run_ops ops; mret (r :: rs)
  end.

Definition op_ok (q : Z) (op : ra_op) : Prop :=
  match op with OpAlloc n _ al off => alloc_ok q n al off | OpFree _ => True end.

(** The live tags are those of the map. *)
Definition live_map L (l : gmap Z Z) : Prop :=
  ∀ b n, l !! b = Some n ↔ ∃ x, x ∈ lives L ∧ s_base x = b ∧ s_size x = n.

Lemma live_map_lives L L' l : lives L' ≡ₚ lives L → live_map L l → live_map L' l.
Proof. unfold live_map. intros HL Hl b n. rewrite Hl. by setoid_rewrite HL. Qed.

Lemma live_map_alloc L L' l b n m :
  lives L' ≡ₚ mkSeg btt_live b n m :: lives L → 0 < n →
  (∀ y, y ∈ lives L → endof y ≤ b ∨ b + n ≤ s_base y) → (∀ y, y ∈ lives L → 0 < s_size y) →
  live_map L l → live_map L' (<[b := n]> l).
Proof.
  unfold live_map. intros HL Hn Hdis Hpos Hl b' n'. rewrite lookup_insert_Some, Hl. setoid_rewrite HL. split.
  - intros [[<- <-]|[Hne (x&Hx&?&?)]].
    + exists (mkSeg btt_live b n m). split; [by left|done].
    + exists x. split; [by right|done].
  - intros (x&[->|Hx]%elem_of_cons&<-&<-); [by left|]. right. split; [|by eauto].
    intros Hb. specialize (Hdis x Hx). specialize (Hpos x Hx). unfold endof in Hdis. lia.
Qed.

Lemma lives_size md L y : geo md L → y ∈ lives L → 0 < s_size y.
Proof.
  intros Hg [Hy Ht]%elem_lives. pose proof (geo_ok _ _ _ Hg Hy) as Hok.
  apply tile_ok in Hok as [? _]; [done|by apply live_tile].
Qed.

Lemma live_map_free md L1 x L2 L' l :
  geo md (L1 ++ x :: L2) → s_type x = btt_live → lives L' = lives (L1 ++ L2) →
  live_map (L1 ++ x :: L2) l → live_map L' (delete (s_base x) l).
Proof.
  unfold live_map. intros Hg Hx HL Hl b n. rewrite lookup_delete_Some, Hl, HL.
  assert (lives (L1 ++ x :: L2) ≡ₚ x :: lives (L1 ++ L2)) as Hp.
  { rewrite !lives_app. unfold lives. rewrite filter_cons_True by done. solve_Permutation. }
  setoid_rewrite Hp. split.
  - intros [Hne (y&[->|Hy]%elem_of_cons&<-&<-)]; [done|]. eauto.
  - intros (y&Hy&<-&<-). split; [|exists y; split; [by right|done]].
    intros Hb. pose proof (lives_size _ _ x Hg) as Hsx.
    assert (x ∈ lives (L1 ++ x :: L2)) as Hxin by (rewrite Hp; by left). specialize (Hsx Hxin).
    assert (0 < s_size y) as Hsy by (apply (lives_size _ _ y Hg); rewrite Hp; by right).
    apply elem_lives in Hy as [[Hy|Hy]%elem_of_app Ht].
    + pose proof (geo_before _ _ _ _ _ Hg Hy) as Ha. unfold after in Ha.
      rewrite (kind_tile y) in Ha by by apply live_tile. unfold endof in Ha. lia.
    + pose proof (geo_after _ _ _ _ _ Hg Hy) as Ha. unfold after in Ha.
      rewrite (kind_tile x) in Ha by by apply live_tile. unfold endof in Ha. lia.
Qed.

(** The state of a run. *)
Definition sys_ok lo hi k q s L (l : gmap Z Z) : Prop :=
  ra_rep (Resource lo hi) k s L ∧ uQuantum <$> ra_arena s = Some q ∧ live_map L l.

Lemma carved_window lo hi L L' b n m :
  geo (Resource lo hi) L → carved L L' b n m → lo ≤ b ∧ b + n ≤ hi.
Proof.
  intros Hg (A&x&B&->&Hf&Hb&He&_&_). pose proof (geo_ok _ _ x Hg ltac:(set_solver)) as Hok.
  apply tile_ok in Hok as [_ Hin]; [|by apply free_tile]. simpl in Hin. lia.
Qed.

(** An allocation, in terms of the map of live ranges. *)
Definition alloc_spec lo hi k q s L (l : gmap Z Z) n fl al off (r : option (Z * Z)) s' : Prop :=
  ∃ L', match r with
  | Some (b, _) => sys_ok lo hi k q s' L' (<[b := n]> l) ∧ lo ≤ b ∧ b + n ≤ hi ∧ aligned b al off ∧
      (∀ b' n', l !! b' = Some n' → b' + n' ≤ b ∨ b + n ≤ b') ∧ length (lives L') = S (length (lives L))
  | None => sys_ok lo hi k q s' L' l ∧ lives L' = lives L ∧ (plenty (ra_os s) → ∀ x, x ∈ L → s_type x = btt_free →
      ¬ fit (map_flags:=map_flags) (ra_env s) x n fl al off)
  end.

Lemma wp_alloc_sys lo hi k q s L l n fl al off :
  sys_ok lo hi k q s L l → alloc_ok q n al off → few L →
  wp (RA_Alloc map_flags n fl al off) (λ r s', calm s s' ∧ alloc_spec lo hi k q s L l n fl al off r s') s.
Proof.
  intros (Hrep&Hq&Hl) Hok Hfew. pose proof Hl as Hl'. unfold live_map in Hl'.
  eapply wp_mono; [by eapply wp_RA_Alloc_rep|].
  intros r s' (Hcalm&md'&L'&Hrep'&Hk&Hr). split; [done|]. pose proof Hcalm as [[_ Hq'%static_quantum] _].
  assert (uQuantum <$> ra_arena s' = Some q) as Hqq by congruence.
  assert (md' = Resource lo hi) as -> by (destruct md'; simpl in Hk; [by destruct Hk as [-> ->]|done]).
  destruct r as [[b m]|].
  - destruct Hr as (md0&L0&md1&L1&[Hlv _]&_&_&Hg&<-&Hc&Ha&_).
    pose proof (grows_lives _ _ _ _ Hg) as Hlv1. pose proof (carved_lives _ _ _ _ _ Hc) as Hlv'.
    rewrite Hlv1, Hlv in Hlv'. exists L'. pose proof (ra_rep_geo _ _ _ _ Hrep') as Hg'.
    assert (∀ y, y ∈ lives L → endof y ≤ b ∨ b + n ≤ s_base y) as Hdis.
    { intros y Hy. rewrite <- Hlv, <- Hlv1 in Hy. by eapply carved_disjoint. }
    assert (mkSeg btt_live b n m ∈ L') as Hin by (apply elem_lives; rewrite Hlv'; by left).
    pose proof (geo_ok _ _ _ Hg' Hin) as Hok'. apply tile_ok in Hok' as [_ [Hlo Hhi]]; [|done].
    split; [|split_and!; [exact Hlo|exact Hhi|done| |by rewrite Hlv']].
    + split; [done|split; [done|]]. eapply live_map_alloc; [exact Hlv'|apply Hok|done| |done].
      intros y Hy. eapply lives_size; [exact (ra_rep_geo _ _ _ _ Hrep)|done].
    + intros b' n' (x&Hx&<-&<-)%Hl'. by apply Hdis.
  - destruct Hr as [[Hlv _] Hno]. exists L'. split; [|by split]. split; [done|split; [done|]].
    eapply live_map_lives; [|done]. by rewrite Hlv.
Qed.

(** A release, likewise: [L0] has the other live ranges. *)
Lemma wp_free_sys lo hi k q s L l b flag P :
  sys_ok lo hi k q s L l →
  (∀ n L0, l !! b = Some n → 0 < n → lo ≤ b → b + n ≤ hi →
     (∀ b' n', l !! b' = Some n' → b' ≠ b → ∃ z, z ∈ L0 ∧ s_type z = btt_live ∧ s_base z = b' ∧ s_size z = n') →
     backing_ok flag q b n L0 P (ra_env s)) →
  wp (RA_Free b flag) (λ _ s', later s s' ∧ ∃ L', sys_ok lo hi k q s' L' (delete b l) ∧
    (length (lives L') ≤ length (lives L))%nat ∧
    match l !! b with Some _ => P (ra_env s') | None => ra_env s' = ra_env s end) s.
Proof.
  intros (Hrep&Hq&Hl) Hbk. pose proof Hl as Hl'. unfold live_map in Hl'. pose proof (ra_rep_geo _ _ _ _ Hrep) as Hg.
  eapply wp_mono; [eapply (wp_RA_Free_rep _ _ _ _ b flag q P); [done|done|]|].
  { intros L1 x L2 -> Ht <-. pose proof (geo_ok _ _ x Hg ltac:(set_solver)) as Hok.
    apply tile_ok in Hok as [Hsz [Hlo Hhi]]; [|by apply live_tile]. apply Hbk; [|done|done|done|].
    - apply Hl'. exists x. split; [apply elem_lives; split; [set_solver|done]|done].
    - intros b' n' (z&[Hz Htz]%elem_lives&<-&<-)%Hl' Hne. exists z. split; [|done].
      apply elem_of_app in Hz as [Hz|[->|Hz]%elem_of_cons]; [set_solver|done|set_solver]. }
  intros [] s' (Hlater&md'&L'&Hrep'&Hr). split; [done|]. pose proof Hlater as [_ Hq'%static_quantum].
  assert (uQuantum <$> ra_arena s' = Some q) as Hqq by congruence.
  destruct Hr as [(L1&x&L2&->&Ht&<-&->&->&HP)|(Hno&->&->&He)].
  - destruct (free_tags_resource _ _ _ _ _ Hg) as [_ Hm]. rewrite Hm in Hrep'.
    exists (free_tags L1 x L2). split; [split; [done|split; [done|]]|split].
    + eapply live_map_free; [done|done|by rewrite lives_free_tags|done].
    + rewrite lives_free_tags, !lives_app, !length_app. unfold lives.
      rewrite filter_cons_True by done. simpl. lia.
    + assert (l !! s_base x = Some (s_size x)) as ->.
      { apply Hl'. exists x. split; [apply elem_lives; split; [set_solver|done]|done]. }
      by destruct HP.
  - assert (l !! b = None) as Hb.
    { apply eq_None_not_Some. intros [n (x&Hx&Hb&_)%Hl']. by apply (Hno x). }
    exists L. rewrite delete_id, Hb by done. done.
Qed.

Lemma wp_ra_run_op {tot : BackingTotal src} lo hi k q s L l op :
  sys_ok lo hi k q s L l → op_ok q op → few L →
  wp (ra_run_op op) (λ r s', ∃ L' l', sys_ok lo hi k q s' L' l' ∧ arena_step lo hi op l r l' ∧
     (length (lives L') ≤ S (length (lives L)))%nat) s.
Proof.
  intros Hs Hok Hfew. destruct op as [n fl al off|b]; cbn [ra_run_op]; wp_step.
  - eapply wp_mono; [by eapply wp_alloc_sys|]. intros [[b m]|] s' (_&L'&Hr); wp_step.
    + destruct Hr as (Hs'&?&?&?&?&Hlen). exists L', (<[b := n]> l). split; [done|]. split; [by constructor|lia].
    + destruct Hr as (Hs'&Hlv&_). exists L', l. split; [done|]. split; [constructor|]. rewrite Hlv. lia.
  - eapply wp_mono; [eapply (wp_free_sys _ _ _ _ _ _ _ _ _ (λ _, True)); [done|]|].
    { intros. by apply backing_total. }
    intros [] s' (_&L'&Hs'&Hlen&_). wp_step. exists L', (delete b l). split; [done|]. split; [constructor|lia].
Qed.

(** The arena does not look at the rest of the system. *)
Lemma sys_ok_frame lo hi k q s L l o e : (∀ e m, map_flags e m = None) →
  sys_ok lo hi k q s L l → sys_ok lo hi (k + os_live o - os_live (ra_os s)) q (set_os o (set_env e s)) L l.
Proof.
  intros Hnone ((segs&fl&dat&hm&Hi&->)&Hq&Hl). split; [|done]. exists segs, fl, dat, hm. split; [|done].
  destruct Hi as [Hr Hw Hm [(a&h&Ha&Hh&Hwd&Hst) _ Hmd] Hb]. split.
  - destruct Hr. by split.
  - done.
  - intros p sg Hp Ht. left. destruct (Hm p sg Hp Ht) as [?|[? Hf]]; [done|]. by rewrite Hnone in Hf.
  - split; [by exists a, h|done|done].
  - simpl. lia.
Qed.

(** A window no smaller than the ranges. *)
Lemma chain_window lo hi lo' hi' o L r : chain (Resource lo hi) o L r → chain (Resource lo' hi') o L r.
Proof. revert o. induction L as [|x L IH]; intros o; simpl; [done|]. intros [? ?]. auto. Qed.

Lemma sys_ok_window lo hi hi' k q s L l : sys_ok lo hi k q s L l → hi' ≤ hi → lo ≤ hi' →
  (∀ x, x ∈ L → endof x ≤ hi') → sys_ok lo hi' k q s L l.
Proof.
  intros ((segs&fl&dat&hm&Hi&->)&Hq&Hl) Hle Hlo Hx. split; [|done]. exists segs, fl, dat, hm. split; [|done].
  destruct Hi as [Hr [H1 H2 H3 H4 H5 Hg] Hm [(a&h&Ha&Hh&Hwd&Hst) Hen Hmd] Hb]. split; [done| |done| |done].
  - split; try done. destruct Hg as [Hch Hok]. split; [by apply (chain_window lo hi)|]. intros x Hin. specialize (Hok x Hin). specialize (Hx x Hin).
    unfold seg_ok in *. destruct (kind_of x); [done|done|]. simpl in *. lia.
  - split; [exists a, h; done|done|]. simpl in *. lia.
Qed.

Lemma wp_ra_run_ops {tot : BackingTotal src} lo hi k q ops s L l :
  sys_ok lo hi k q s L l → Forall (op_ok q) ops →
  Z.of_nat (length (lives L) + length ops) < 134217728 →
  wp (ra_run_ops ops) (λ rs s', ∃ L' l', sys_ok lo hi k q s' L' l' ∧ arena_run lo hi ops l rs l') s.
Proof.
  revert s L l. induction ops as [|op ops IH]; intros s L l Hok Hops Hlen; cbn [ra_run_ops].
  { wp_step. exists L, l. split; [done|constructor]. }
  apply Forall_cons in Hops as [Hop Hops].
  wp_step. eapply wp_mono; [apply wp_ra_run_op; [done..|unfold few; lia]|].
  intros r s1 (L1&l1&Hok1&Hstep&Hlen1). wp_step.
  eapply wp_mono; [apply (IH s1 L1 l1); [done|done|simpl in Hlen; lia]|].
  intros rs s2 (L2&l2&Hok2&Hrun). wp_step. exists L2, l2. split; [done|]. by econstructor.
Qed.

(** C1: ra.c implements the abstract allocator.  Whatever the kernel allocator
    answers, an arena created on [b, b + sz) runs any sequence of allocations
    and releases without fault or endless loop; every answer is one the
    abstract allocator may give: each range lies in the window, is aligned and
    overlaps no live range, until it is freed.  The arena may have a callback
    that gives back what backs a freed range. *)
Theorem RA_refines_arena {tot : BackingTotal src} b sz q ifr ops s :
  ra_arena s = None → ra_heap s = ∅ → 0 < ra_next s →
  0 ≤ b → 0 < sz → 0 < q → sz + q < 4294967296 → b + sz + q ≤ ADDR_MAX →
  Forall (op_ok q) ops → Z.of_nat (length ops) < 134217728 →
  wp (ok ← RA_Create b sz 0 q None ifr src_backing src_handle;
      if ok : bool then rs ← ra_run_ops ops; mret (Some rs) else mret None)
     (λ r s', match r with
              | Some rs => ∃ l, arena_run b (b + sz + q) ops ∅ rs l
              | None => ¬ plenty (ra_os s)
              end) s.
Proof.
  intros Ha Hh Hnx Hb Hsz Hq Hszq Hmax Hops Hlen.
  wp_step. eapply wp_mono.
  { apply (wp_RA_Create (Resource b (b + sz + q))); try done.
    - simpl. lia.
    - split; [simpl; lia|done].
    - lia.
    - intros _. exists b, (b + sz + q). split; [done|lia].
    - by left. }
  intros ok s1 [Hpl Hpost]. destruct ok.
  - destruct Hpost as (Hq1&L&Hrep&HL). wp_step.
    assert (lives L = []) as Hlv.
    { destruct HL as [[_ ->]|(r&_&_&_&->)]; done. }
    eapply wp_mono; [eapply wp_ra_run_ops with (l := ∅); [split; [exact Hrep|split; [exact Hq1|]]|done|]|].
    + intros b' n'. rewrite lookup_empty, Hlv. split; [done|]. intros (x&Hx&_).
      by apply elem_of_nil in Hx.
    + rewrite Hlv. simpl. lia.
    + intros rs s2 (L2&l2&_&Hrun). wp_step. by exists l2.
  - wp_step. intros Hp. by destruct (Hpl Hp).
Qed.

(** Creation and deletion balance.  [RA_Create] either yields an arena
    holding exactly the requested resource, rounded up to the quantum, as one
    free tag, or nothing at all and no kernel block stays behind; with memory
    available it succeeds. *)
Theorem RA_Create_spec md b sz mapping q ia ifr bf h s :
  ra_arena s = None → ra_heap s = ∅ → 0 < ra_next s → mode_ok md →
  static_ok md (new_arena q ia ifr bf h) → env_is md (ra_env s) → 0 ≤ sz → sz + q < 4294967296 →
  (0 < sz → ∃ lo hi, md = Resource lo hi ∧ lo ≤ b ∧ b + sz + q ≤ hi) →
  (mapping = 0 ∨ is_Some (map_flags (ra_env s) mapping)) →
  wp (RA_Create b sz mapping q ia ifr bf h) (λ ok s', (plenty (ra_os s) → ok = true) ∧
    if ok then ∃ L, ra_rep md (os_live (ra_os s) + arena_blocks) s' L ∧
      (sz = 0 ∧ L = [] ∨ ∃ r, sz ≤ r < sz + q ∧ r mod q = 0 ∧ L = [mkSeg btt_free b r mapping])
    else ra_arena s' = None ∧ os_live (ra_os s') = os_live (ra_os s)) s.
Proof.
  intros. eapply wp_mono; [by apply (wp_RA_Create md)|]. intros ok s' [Hpl Hr].
  split; [intros Hp; by destruct (Hpl Hp)|]. destruct ok; [|done].
  destruct Hr as (_&L&Hrep&HL). exists L. split; [done|].
  destruct HL as [?|(r&?&?&?&?)]; [by left|right]. exists r. split_and!; [lia|lia|done|done].
Qed.

(** [RA_Delete] ends, frees every tag and takes the arena, its hash table
    and its bucket array down with it; what stays allocated afterwards is one
    hash bucket for every range that was still live. *)
Theorem RA_Delete_frees md k s L :
  ra_rep md k s L →
  wp RA_Delete (λ _ s', ra_arena s' = None ∧ ra_heap s' = ∅ ∧
    os_live (ra_os s') = k - arena_blocks + Z.of_nat (length (lives L))) s.
Proof.
  intros (segs&fl&dat&hm&Hi&->). eapply wp_mono; [by eapply wp_RA_Delete|].
  intros [] s' (?&?&Hl&_). split; [done|]. split; [done|].
  rewrite <- (inv_size_lives _ _ _ _ _ _ _ Hi). lia.
Qed.

(** [RA_TestDelete] on an arena whose first tag is free never returns: its
    loop does not advance.  It does answer when the arena is empty or begins
    with a live range or an import. *)
Theorem RA_TestDelete_diverges md k s L :
  ra_rep md k s L →
  match head L with
  | Some x => if is_free x then ∀ fuel, RA_TestDelete fuel s = OutOfFuel
              else RA_TestDelete 0 s = Done false s
  | None => RA_TestDelete 0 s = Done true s
  end.
Proof.
  intros (segs&fl&dat&hm&Hi&->). pose proof (i_rep _ _ _ _ _ _ _ _ Hi) as Hr.
  destruct (rep_is_arena _ _ _ _ Hr) as (a&Ha&[Hhd _ _]).
  rewrite tags_head by (intros p; by eapply inv_some).
  assert (∀ A (f : RA_ARENA → A), arena f s = Done (f a) s) as Harena.
  { intros A f. unfold arena, get, mbind, M_bind, deref, mret, M_ret. by rewrite Ha. }
  assert (∀ fuel, RA_TestDelete fuel s = test_delete_loop fuel s) as Htop.
  { intros fuel. unfold RA_TestDelete, arena_null, get, mbind, M_bind, mret, M_ret. by rewrite Ha. }
  assert (∀ fuel, test_delete_loop fuel s = (if hd_or 0 segs =? IMG_NULL then mret true else
    t ← rd (hd_or 0 segs) type;
    if negb (bool_decide (t = btt_free)) then mret false
    else match fuel with O => out_of_fuel | Datatypes.S fuel => test_delete_loop fuel end) s) as Hloop.
  { intros fuel. rewrite <- Hhd. by destruct fuel; cbn [test_delete_loop];
      unfold mbind at 1, M_bind at 1; rewrite Harena. }
  destruct segs as [|p segs]; simpl.
  { by rewrite Htop, Hloop. }
  destruct (rep_mid _ [] _ _ _ _ Hr) as (Hp0&b&Hb&_).
  rewrite (rep_dat_lookup _ _ _ _ _ _ Hr Hb). simpl. unfold is_free. simpl.
  assert (∀ A (f : BT → A), rd p f s = Done (f b) s) as Hrd.
  { intros A f. unfold rd, get, mbind, M_bind, deref, mret, M_ret. by rewrite Hb. }
  assert (∀ fuel, test_delete_loop fuel s = (if negb (bool_decide (type b = btt_free)) then mret false
    else match fuel with O => out_of_fuel | Datatypes.S fuel => test_delete_loop fuel end) s) as Hl'.
  { intros fuel. rewrite Hloop. ends. unfold IMG_NULL. destruct (Z.eqb_spec p 0); [done|].
    unfold mbind at 1, M_bind at 1. by rewrite Hrd. }
  case_bool_decide as Hf.
  - intros fuel. rewrite Htop. induction fuel as [|fuel IH]; rewrite Hl'; [done|]. simpl. exact IH.
  - by rewrite Htop, Hl'.
Qed.

(** ** Enumeration *)

Lemma wp_next_live fuel xs ys segs fl dat s Q :
  rep s segs fl dat → segs = xs ++ ys → (length ys < fuel)%nat →
  (lives (tags dat ys) = [] → Q None s) →
  (∀ as_ p bs x, ys = as_ ++ p :: bs → dat !! p = Some x → s_type x = btt_live →
     lives (tags dat as_) = [] → Q (Some p) s) →
  wp (next_live fuel (hd_or 0 ys)) Q s.
Proof.
  intros Hr Heq Hf. revert xs ys Q Heq Hf. induction fuel as [|fuel IH]; intros xs ys Q Heq Hf HN HS; [lia|].
  destruct ys as [|p ys]; ends; cbn [next_live]; unfold IMG_NULL.
  { rewrite Z.eqb_refl. wp_step. by apply HN. }
  subst segs. destruct (rep_mid _ _ _ _ _ _ Hr) as (Hp0&b&Hb&_&Hnext).
  destruct (Z.eqb_spec p 0); [done|].
  pose proof (rep_dat_lookup _ _ _ _ _ _ Hr Hb) as Hp.
  ra_step. ra_step. case_bool_decide as Ht.
  - wp_step. by apply (HS [] p ys (seg_of b)).
  - ra_step. ra_step. rewrite Hnext.
    assert (∀ zs, lives (tags dat (p :: zs)) = lives (tags dat zs)) as Hskip.
    { intros zs. rewrite (tags_cons _ p zs _ Hp). unfold lives. by rewrite filter_cons_False. }
    apply (IH (xs ++ [p])); [by rewrite <- app_assoc|simpl in Hf; lia| |].
    + intros Hys. apply HN. by rewrite Hskip.
    + intros as_ p' bs x -> Hx Htx Has. apply (HS (p :: as_) p' bs x); [done|done|done|].
      by rewrite Hskip.
Qed.

(** An enumeration of live ranges started on an arena reports its lowest
    live range, with its address and size, and none exactly when there is
    none; it changes nothing. *)
Theorem RA_GetNextLiveSegment_first md k s L d :
  ra_rep md k s L → hSegment d = IMG_NULL →
  wp (RA_GetNextLiveSegment d) (λ r s', s' = s ∧
    match head (lives L) with
    | Some x => r.1 = true ∧ sCpuPhyAddr r.2 = s_base x ∧ uiSize r.2 = s_size x
    | None => r = (false, mkDetails 0 0 IMG_UNDEF)
    end) s.
Proof.
  intros (segs&fl&dat&hm&Hi&->) Hd. pose proof (i_rep _ _ _ _ _ _ _ _ Hi) as Hr.
  destruct (rep_is_arena _ _ _ _ Hr) as (a&Ha&[Hhd _ _]).
  unfold RA_GetNextLiveSegment. rewrite Hd, Z.eqb_refl. cbn [negb].
  wp_step. eapply wp_arena; [done|]. rewrite Hhd. wp_step. wp_step. wp_step.
  eapply (wp_next_live _ [] segs); [done|done| | |].
  - pose proof (rep_length _ _ _ _ Hr). lia.
  - intros Hn. wp_step. by rewrite Hn.
  - intros as_ p bs x -> Hx Ht Has. wp_step. eapply wp_rd_seg; [done|done|]. intros b _ Hb.
    wp_step. rewrite (tags_mid _ _ _ _ _ Hx), lives_app, Has. unfold lives.
    rewrite filter_cons_True by done. simpl. by subst x.
Qed.
End sys.

(** [pvr_log2] is the base-2 logarithm rounded down of every 32-bit size,
    and 0 for 0; its loop ends within 32 rounds and its value indexes the 32
    free lists without overrun. *)
Theorem pvr_log2_is_log2 n :
  is_u32 n → pvr_log2 n = Z.log2 n ∧ 0 ≤ pvr_log2 n < Z.of_nat FREE_TABLE_LIMIT.
Proof.
  intros Hn. rewrite (pvr_log2_spec n Hn). split; [done|]. pose proof (Z.log2_nonneg n).
  pose proof (bin_lt n Hn) as Hb. unfold bin in Hb. lia.
Qed.

(** ** Examples *)

Definition calls : list ra_op :=
  [OpAlloc 100 0 16 0; OpAlloc 5000 0 4096 0; OpFree 65536; OpAlloc 40 0 0 0; OpFree 7].

Lemma RA_refines_arena_witness :
  wp (ok ← RA_Create (E:=unit) 65536 65536 0 4096 None None None 0;
      if ok : bool then rs ← ra_run_ops (map_flags:=no_flags) calls; mret (Some rs) else mret None)
     (λ r s', match r with
              | Some rs => ∃ l, arena_run 65536 (65536 + 65536 + 4096) calls ∅ rs l
              | None => ¬ plenty os_plenty
              end) (blank tt).
Proof.
  apply (RA_refines_arena (map_flags:=no_flags) (src:=no_source) (tot:=no_source_total) 65536 65536 4096 None calls (blank tt)); try reflexivity;
    try (unfold ADDR_MAX; lia).
  repeat (apply Forall_cons; split); try apply Forall_nil; try exact I;
      unfold op_ok, alloc_ok, is_u32; lia.
Defined.

Lemma RA_Create_spec_witness :
  wp (RA_Create (E:=unit) 65536 65536 0 4096 None None None 0) (λ ok s',
    (plenty os_plenty → ok = true) ∧
    if ok then ∃ L, ra_rep (map_flags:=no_flags) heap_mode (0 + arena_blocks) s' L ∧
      (65536 = 0 ∧ L = [] ∨
       ∃ r, 65536 ≤ r < 65536 + 4096 ∧ r mod 4096 = 0 ∧ L = [mkSeg btt_free 65536 r 0])
    else ra_arena s' = None ∧ os_live (ra_os s') = 0) (blank tt).
Proof.
  apply (RA_Create_spec (map_flags:=no_flags) heap_mode 65536 65536 0 4096 None None None 0 (blank tt));
    try reflexivity; try lia.
  - unfold heap_mode, mode_ok, ADDR_MAX. lia.
  - split; [simpl; lia|split_and!; reflexivity].
  - intros _. exists 65536, 200000. split; [reflexivity|lia].
Defined.

Lemma RA_Delete_frees_witness :
  wp RA_Delete (λ _ s', ra_arena s' = None ∧ ra_heap s' = ∅ ∧ os_live (ra_os s') = 3 - arena_blocks + 0)
    heap_st.
Proof. exact (RA_Delete_frees heap_mode 3 heap_st _ heap_rep). Defined.

Lemma RA_TestDelete_diverges_witness : RA_TestDelete 1000 heap_st = OutOfFuel.
Proof. exact (RA_TestDelete_diverges heap_mode 3 heap_st _ heap_rep 1000%nat). Defined.

Lemma RA_GetNextLiveSegment_first_witness :
  wp (RA_GetNextLiveSegment (mkDetails 0 0 0)) (λ r s', s' = full_st ∧
    (r.1 = true ∧ sCpuPhyAddr r.2 = 65536 ∧ uiSize r.2 = 65536)) full_st.
Proof.
  exact (RA_GetNextLiveSegment_first _ 3 full_st full_tags (mkDetails 0 0 0) full_rep eq_refl).
Defined.

Lemma pvr_log2_is_log2_witness : pvr_log2 4096 = 12 ∧ 0 ≤ pvr_log2 4096 < 32.
Proof. apply (pvr_log2_is_log2 4096). unfold is_u32. lia. Defined.
