(* ===== verification/Mmu.v ===== *)
(** * The device memory management unit: page tables (devices/sgx/mmu.c)

    The SGX545 translates a 32-bit device address with a page directory of
    1024 entries and page tables of 1024 entries; a context (an address space)
    has a page directory, and heaps are ranges of device addresses.  Page
    tables belong to the context of the heap, and their directory entries are
    also written into the directories of all other contexts when the heap is
    shared.

    Page directories and tables are memory areas with physical addresses: what
    the device reads is the words at a physical address.  [MmuEnv] is what the
    kernel decides: which physical page an allocation gets, and where the
    buffers to be mapped lie.  The configuration is the SGX545 one: 4 kB pages
    only, no BRN31620, no dummy page, no local device memory (ce5300 has
    [psLocalDevMemArena] null). *)

From S2P Require Import Prelude.

(** ** Constants: sgxmmu.h, services.h, sgx_mkif_km.h *)

Definition SGX_MMU_PAGE_SHIFT : Z := 12.
Definition SGX_MMU_PAGE_SIZE : Z := Z.shiftl 1 SGX_MMU_PAGE_SHIFT.
Definition SGX_MMU_PD_SHIFT : Z := 10.
Definition SGX_MMU_PD_SIZE : Z := Z.shiftl 1 SGX_MMU_PD_SHIFT.
Definition SGX_MMU_PD_MASK : Z := 4290772992.     (* 0xFFC00000 *)
Definition SGX_MMU_PT_SHIFT : Z := 10.
Definition SGX_MMU_PT_MASK : Z := 4190208.        (* 0x003FF000 *)
Definition SGX_MMU_PDE_ADDR_ALIGNSHIFT : Z := 0.
Definition SGX_MMU_PDE_VALID : Z := 1.
Definition SGX_MMU_PDE_PAGE_SIZE_4K : Z := 0.
Definition SGX_MMU_PDE_ADDR_MASK : Z := 4294963200. (* 0xFFFFF000 *)
Definition SGX_MMU_PTE_ADDR_MASK : Z := 4294963200.
Definition SGX_MMU_PTE_ADDR_ALIGNSHIFT : Z := 0.
Definition SGX_MMU_PTE_VALID : Z := 1.
Definition SGX_MMU_PTE_WRITEONLY : Z := 2.
Definition SGX_MMU_PTE_READONLY : Z := 4.
Definition SGX_MMU_PTE_CACHECONSISTENT : Z := 8.
Definition SGX_MMU_PTE_EDMPROTECT : Z := 16.
Definition SGX_FEATURE_ADDRESS_SPACE_SIZE : Z := 32.
Definition SGX_MAX_PD_ENTRIES : Z :=
  Z.shiftl 1 (SGX_FEATURE_ADDRESS_SPACE_SIZE - SGX_MMU_PT_SHIFT - SGX_MMU_PAGE_SHIFT).
Definition UINT32_MAX_VALUE : Z := 4294967295.

Definition PVRSRV_MEM_READ : Z := 1.
Definition PVRSRV_MEM_WRITE : Z := 2.
Definition PVRSRV_MEM_CACHE_CONSISTENT : Z := 4.
Definition PVRSRV_MEM_DUMMY : Z := 32.
Definition PVRSRV_MEM_EDM_PROTECT : Z := 64.
Definition PVRSRV_MEM_USER_SUPPLIED_DEVVADDR : Z := 256.

Definition SGXMKIF_CC_INVAL_BIF_PT : Z := 1.
Definition SGXMKIF_CC_INVAL_BIF_PD : Z := 2.

(** [x & flag] as a condition *)
Definition has_flag (x flag : Z) : bool := negb (Z.land x flag =? 0).

(** ** Data *)

Record MMU_PT_INFO := mkPT {
  hPTPageOSMemHandle : Z;
  PTPageCpuVAddr : Z;
  ui32ValidPTECount : Z
}.

Record MMU_CONTEXT := mkCtx {
  pvPDCpuVAddr : Z;
  sPDDevPAddr : Z;
  hPDOSMemHandle : Z;
  apsPTInfoList : list Z;
  psNext : Z
}.

Inductive DEVICE_MEMORY_HEAP_TYPE :=
| DEVICE_MEMORY_HEAP_PERCONTEXT
| DEVICE_MEMORY_HEAP_KERNEL
| DEVICE_MEMORY_HEAP_SHARED
| DEVICE_MEMORY_HEAP_SHARED_EXPORTED
| DEVICE_MEMORY_HEAP_OTHER (n : Z).

(** The fields of [DEV_ARENA_DESCRIPTOR] (device.h) that mmu.c computes with. *)
Record DEV_ARENA_DESCRIPTOR := mkDevArena {
  BaseDevVAddr : Z;
  ui32Size : Z;
  DevMemHeapType : DEVICE_MEMORY_HEAP_TYPE;
  devarena_DataPageSize : Z
}.

(** [psVMArena] is the arena of the state in which a heap's operations run
    (MmuHeap). *)
Record MMU_HEAP := mkHeap {
  psMMUContext : Z;
  psDevArena : DEV_ARENA_DESCRIPTOR;
  ui32PDBaseIndex : Z;
  ui32PageTableCount : Z;
  ui32PTETotalUsable : Z;
  ui32PDEPageSizeCtrl : Z;
  ui32DataPageSize : Z;
  ui32DataPageBitWidth : Z;
  ui32DataPageMask : Z;
  ui32PTShift : Z;
  ui32PTBitWidth : Z;
  ui32PTMask : Z;
  ui32PTSize : Z;
  ui32PTNumEntriesAllocated : Z;
  ui32PTNumEntriesUsable : Z;
  ui32PDShift : Z;
  ui32PDBitWidth : Z;
  ui32PDMask : Z
}.

Definition set_PTETotalUsable x h := mkHeap (psMMUContext h) (psDevArena h) (ui32PDBaseIndex h)
  (ui32PageTableCount h) x (ui32PDEPageSizeCtrl h) (ui32DataPageSize h) (ui32DataPageBitWidth h)
  (ui32DataPageMask h) (ui32PTShift h) (ui32PTBitWidth h) (ui32PTMask h) (ui32PTSize h)
  (ui32PTNumEntriesAllocated h) (ui32PTNumEntriesUsable h) (ui32PDShift h) (ui32PDBitWidth h) (ui32PDMask h).

(** An area of kernel memory: the physical addresses of its pages and its
    words.  [m_mem] has the live ones by CPU address, which is also their
    handle here; [m_next] is the next address the kernel hands out. *)
Record mem_area := mkArea { ar_phys : list Z; ar_words : list Z }.

Record mmu_st := mkMmu {
  m_os : os;
  m_next : Z;
  m_mem : gmap Z mem_area;
  m_pts : gmap Z MMU_PT_INFO;
  m_ctxs : gmap Z MMU_CONTEXT;
  m_heaps : gmap Z MMU_HEAP;
  pvMMUContextList : Z;
  ui32CacheControl : Z
}.

Definition set_m_os x s := mkMmu x (m_next s) (m_mem s) (m_pts s) (m_ctxs s) (m_heaps s) (pvMMUContextList s) (ui32CacheControl s).
Definition set_m_next x s := mkMmu (m_os s) x (m_mem s) (m_pts s) (m_ctxs s) (m_heaps s) (pvMMUContextList s) (ui32CacheControl s).
Definition set_m_mem x s := mkMmu (m_os s) (m_next s) x (m_pts s) (m_ctxs s) (m_heaps s) (pvMMUContextList s) (ui32CacheControl s).
Definition set_m_pts x s := mkMmu (m_os s) (m_next s) (m_mem s) x (m_ctxs s) (m_heaps s) (pvMMUContextList s) (ui32CacheControl s).
Definition set_m_ctxs x s := mkMmu (m_os s) (m_next s) (m_mem s) (m_pts s) x (m_heaps s) (pvMMUContextList s) (ui32CacheControl s).
Definition set_m_heaps x s := mkMmu (m_os s) (m_next s) (m_mem s) (m_pts s) (m_ctxs s) x (pvMMUContextList s) (ui32CacheControl s).
Definition set_m_list x s := mkMmu (m_os s) (m_next s) (m_mem s) (m_pts s) (m_ctxs s) (m_heaps s) x (ui32CacheControl s).
Definition set_m_cc x s := mkMmu (m_os s) (m_next s) (m_mem s) (m_pts s) (m_ctxs s) (m_heaps s) (pvMMUContextList s) x.

(** What the kernel decides. [page_choice t X]: the physical page it hands out
    at time [t] when those in [X] are in use, if it has one.  [lin_to_phys] and
    [handle_to_phys]: where a byte of a buffer lies, given its handle and its
    CPU address or its offset. *)
Class MmuEnv := {
  page_choice : Z → gset Z → option Z;
  lin_to_phys : Z → Z → Z;
  handle_to_phys : Z → Z → Z
}.

Section mmu.
Context {env : MmuEnv}.

(** ** Memory accesses *)

Definition rd_ctx {A} (p : Z) (f : MMU_CONTEXT → A) : M mmu_st A :=
  s ← get; c ← deref (m_ctxs s !! p); mret (f c).
Definition wr_ctx (p : Z) (f : MMU_CONTEXT → MMU_CONTEXT) : M mmu_st unit :=
  s ← get; c ← deref (m_ctxs s !! p); put (set_m_ctxs (<[p := f c]> (m_ctxs s)) s).
Definition rd_pt {A} (p : Z) (f : MMU_PT_INFO → A) : M mmu_st A :=
  s ← get; t ← deref (m_pts s !! p); mret (f t).
Definition wr_pt (p : Z) (f : MMU_PT_INFO → MMU_PT_INFO) : M mmu_st unit :=
  s ← get; t ← deref (m_pts s !! p); put (set_m_pts (<[p := f t]> (m_pts s)) s).
Definition rd_heap {A} (p : Z) (f : MMU_HEAP → A) : M mmu_st A :=
  s ← get; h ← deref (m_heaps s !! p); mret (f h).
Definition wr_heap (p : Z) (f : MMU_HEAP → MMU_HEAP) : M mmu_st unit :=
  s ← get; h ← deref (m_heaps s !! p); put (set_m_heaps (<[p := f h]> (m_heaps s)) s).

(** The [i]-th word of the area at [p]. *)
Definition rd_word (p i : Z) : M mmu_st Z :=
  s ← get; a ← deref (m_mem s !! p);
  if i <? 0 then fault else deref (ar_words a !! Z.to_nat i).
Definition wr_word (p i v : Z) : M mmu_st unit :=
  rd_word p i;;
  s ← get; a ← deref (m_mem s !! p);
  put (set_m_mem (<[p := mkArea (ar_phys a) (<[Z.to_nat i := v]> (ar_words a))]> (m_mem s)) s).

(** [apsPTInfoList[i]] of a context. *)
Definition rd_slot (c i : Z) : M mmu_st Z :=
  l ← rd_ctx c apsPTInfoList; if i <? 0 then fault else deref (l !! Z.to_nat i).
Definition wr_slot (c i v : Z) : M mmu_st unit :=
  rd_slot c i;;
  wr_ctx c (λ r, mkCtx (pvPDCpuVAddr r) (sPDDevPAddr r) (hPDOSMemHandle r)
                   (<[Z.to_nat i := v]> (apsPTInfoList r)) (psNext r)).

(** [for (i = from; n times; i++) f(i);] *)
Fixpoint for_from (n : nat) (i : Z) (f : Z → M mmu_st unit) : M mmu_st unit :=
  match n with O => mret tt | S n => f i;; for_from n (i + 1) f end.

(** A fresh address. *)
Definition fresh : M mmu_st Z :=
  p ← gets m_next; modify (set_m_next (p + 1));; mret p.

Definition with_m_os {A} (m : M os A) : M mmu_st A := zoom m_os set_m_os m.

(** [OSAllocPages] of kernel pages (osfunc.c, mm.c): pages from the kernel one
    by one, zeroed, made contiguous for the CPU only. *)
Definition pages_in_use (s : mmu_st) : gset Z := list_to_set (concat ((λ '(_, a), ar_phys a) <$> map_to_list (m_mem s))).
Fixpoint choose_pages (n : nat) (t : Z) (X : gset Z) : option (list Z) :=
  match n with
  | O => Some []
  | S n => p ← page_choice t X; ps ← choose_pages n (t + 1) ({[p]} ∪ X); Some (p :: ps)
  end.
Definition OSAllocPages (ui32Size : Z) : M mmu_st (option (Z * Z)) :=
  s ← get;
  match choose_pages (Z.to_nat (ui32Size / SGX_MMU_PAGE_SIZE)) (m_next s) (pages_in_use s) with
  | None => mret None
  | Some ps =>
      p ← fresh;
      modify (λ s, set_m_mem (<[p := mkArea ps (replicate (Z.to_nat (ui32Size / 4)) 0)]> (m_mem s)) s);;
      mret (Some (p, p))
  end.
Definition OSFreePages (pvCpuVAddr hOSMemHandle : Z) : M mmu_st unit :=
  s ← get; deref (m_mem s !! hOSMemHandle);;
  put (set_m_mem (delete hOSMemHandle (m_mem s)) s).

(** The physical address of an offset into an area, by offset or by CPU
    address. *)
Definition OSMemHandleToCpuPAddr (h off : Z) : M mmu_st Z :=
  s ← get; a ← deref (m_mem s !! h);
  if off <? 0 then fault
  else p ← deref (ar_phys a !! Z.to_nat (off / SGX_MMU_PAGE_SIZE)); mret (p + off mod SGX_MMU_PAGE_SIZE).
Definition OSMapLinToCPUPhys (h lin : Z) : M mmu_st Z := OSMemHandleToCpuPAddr h (lin - h).

(** sysconfig.c: the device sees physical memory as the CPU does. *)
Definition SysCpuPAddrToDevPAddr (CpuPAddr : Z) : Z := CpuPAddr.
Definition SysSysPAddrToDevPAddr (SysPAddr : Z) : Z := SysPAddr.

(** [OSMemSet] of [n] words to zero from word [i] of an area. *)
Definition zero_words (p i : Z) (n : nat) : M mmu_st unit := for_from n i (λ j, wr_word p j 0).

(** ** Caches *)

Definition MMU_InvalidateDirectoryCache : M mmu_st unit :=
  modify (λ s, set_m_cc (Z.lor (ui32CacheControl s) SGXMKIF_CC_INVAL_BIF_PD) s).
Definition MMU_InvalidatePageTableCache : M mmu_st unit :=
  modify (λ s, set_m_cc (Z.lor (ui32CacheControl s) SGXMKIF_CC_INVAL_BIF_PT) s).

Definition MMU_IsHeapShared (pMMUHeap : Z) : M mmu_st bool :=
  h ← rd_heap pMMUHeap psDevArena;
  mret (match DevMemHeapType h with
        | DEVICE_MEMORY_HEAP_SHARED | DEVICE_MEMORY_HEAP_SHARED_EXPORTED => true
        | DEVICE_MEMORY_HEAP_PERCONTEXT | DEVICE_MEMORY_HEAP_KERNEL => false
        | DEVICE_MEMORY_HEAP_OTHER _ => false
        end).

(** ** Page table memory *)

(** The physical address of the new page table, or [IMG_FALSE]. *)
Definition _AllocPageTableMemory (pMMUHeap psPTInfoList : Z) : M mmu_st (option Z) :=
  h ← rd_heap pMMUHeap id;
  r ← OSAllocPages (ui32PTSize h);
  match r with
  | None => mret None
  | Some (cpu, handle) =>
      wr_pt psPTInfoList (λ t, mkPT handle cpu (ui32ValidPTECount t));;
      t ← rd_pt psPTInfoList id;
      sCpuPAddr ← (if negb (PTPageCpuVAddr t =? IMG_NULL)
                   then OSMapLinToCPUPhys (hPTPageOSMemHandle t) (PTPageCpuVAddr t)
                   else OSMemHandleToCpuPAddr (hPTPageOSMemHandle t) 0);
      let sDevPAddr := SysCpuPAddrToDevPAddr sCpuPAddr in
      zero_words (PTPageCpuVAddr t) 0 (Z.to_nat (ui32PTSize h / 4));;
      mret (Some sDevPAddr)
  end.

Definition _FreePageTableMemory (pMMUHeap psPTInfoList : Z) : M mmu_st unit :=
  t ← rd_pt psPTInfoList id;
  OSFreePages (PTPageCpuVAddr t) (hPTPageOSMemHandle t).

(** The walk of [pvMMUContextList]. *)
Fixpoint each_context (fuel : nat) (psMMUContext : Z) (f : Z → M mmu_st unit) : M mmu_st unit :=
  if psMMUContext =? IMG_NULL then mret tt
  else
  match fuel with
  | O => out_of_fuel
  | S fuel =>
      f psMMUContext;;
      next ← rd_ctx psMMUContext psNext;
      each_context fuel next f
  end.

(** The directory entry [i] of a heap: in its context, or in all contexts when
    the heap is shared; [false] for an unknown heap type. *)
Definition set_heap_pde (h : MMU_HEAP) (i v : Z) : M mmu_st bool :=
  match DevMemHeapType (psDevArena h) with
  | DEVICE_MEMORY_HEAP_SHARED | DEVICE_MEMORY_HEAP_SHARED_EXPORTED =>
      s ← get;
      each_context (S (size (m_ctxs s))) (pvMMUContextList s)
        (λ c, pd ← rd_ctx c pvPDCpuVAddr; wr_word pd i v);;
      mret true
  | DEVICE_MEMORY_HEAP_PERCONTEXT | DEVICE_MEMORY_HEAP_KERNEL =>
      pd ← rd_ctx (psMMUContext h) pvPDCpuVAddr; wr_word pd i v;; mret true
  | DEVICE_MEMORY_HEAP_OTHER _ => mret false
  end.

Definition known_heap (h : MMU_HEAP) : bool :=
  match DevMemHeapType (psDevArena h) with DEVICE_MEMORY_HEAP_OTHER _ => false | _ => true end.

Definition sub_PTETotalUsable (pMMUHeap n : Z) : M mmu_st unit :=
  wr_heap pMMUHeap (λ h, set_PTETotalUsable (u32 (ui32PTETotalUsable h - n)) h).

Definition _DeferredFreePageTable (pMMUHeap ui32PTIndex : Z) (bOSFreePT : bool) : M mmu_st unit :=
  h ← rd_heap pMMUHeap id;
  let ui32PDIndex := Z.shiftr (BaseDevVAddr (psDevArena h)) (ui32PDShift h) in
  ok ← (if bOSFreePT then set_heap_pde h (ui32PDIndex + ui32PTIndex) 0 else mret (known_heap h));
  if negb ok then mret tt
  else
    p ← rd_slot (psMMUContext h) (ui32PDIndex + ui32PTIndex);
    if negb (p =? IMG_NULL) then
      cpu ← rd_pt p PTPageCpuVAddr;
      (if negb (cpu =? IMG_NULL) then
         let i := Z.min (ui32PTETotalUsable h) (ui32PTNumEntriesUsable h) in
         zero_words cpu 0 (Z.to_nat i);;
         (if bOSFreePT then _FreePageTableMemory pMMUHeap p else mret tt);;
         sub_PTETotalUsable pMMUHeap i
       else sub_PTETotalUsable pMMUHeap (ui32PTNumEntriesUsable h));;
      if bOSFreePT then
        rd_pt p id;;
        with_m_os OSFreeMem;; modify (λ s, set_m_pts (delete p (m_pts s)) s);;
        wr_slot (psMMUContext h) (ui32PDIndex + ui32PTIndex) IMG_NULL
      else mret tt
    else sub_PTETotalUsable pMMUHeap (ui32PTNumEntriesUsable h).

Definition _DeferredFreePageTables (pMMUHeap : Z) : M mmu_st unit :=
  h ← rd_heap pMMUHeap id;
  for_from (Z.to_nat (ui32PageTableCount h)) 0 (λ i, _DeferredFreePageTable pMMUHeap i true);;
  MMU_InvalidateDirectoryCache.

(** One turn of the loop of [_DeferredAllocPagetables], for the directory entry
    [i]. *)
Definition alloc_page_table (pMMUHeap : Z) (h : MMU_HEAP) (i : Z) : M mmu_st bool :=
  p ← rd_slot (psMMUContext h) i;
  p ← (if p =? IMG_NULL then
         ok ← with_m_os OSAllocMem;
         if negb ok then mret IMG_NULL
         else
           p ← fresh;
           modify (λ s, set_m_pts (<[p := mkPT 0 0 0]> (m_pts s)) s);;
           wr_slot (psMMUContext h) i p;;
           mret p
       else mret p);
  if p =? IMG_NULL then mret false
  else
    t ← rd_pt p id;
    if (hPTPageOSMemHandle t =? IMG_NULL) && (PTPageCpuVAddr t =? IMG_NULL) then
      r ← _AllocPageTableMemory pMMUHeap p;
      match r with
      | None => mret false
      | Some sDevPAddr =>
          set_heap_pde h i
            (u32 (Z.lor (Z.lor (Z.shiftr sDevPAddr SGX_MMU_PDE_ADDR_ALIGNSHIFT)
                               (ui32PDEPageSizeCtrl h)) SGX_MMU_PDE_VALID))
      end
    else mret true.

Fixpoint alloc_page_tables (n : nat) (pMMUHeap : Z) (h : MMU_HEAP) (i : Z) : M mmu_st bool :=
  match n with
  | O => mret true
  | S n =>
      ok ← alloc_page_table pMMUHeap h i;
      if negb ok then mret false else alloc_page_tables n pMMUHeap h (i + 1)
  end.

(** One past the last directory entry of a range, as computed. *)
Definition pd_end (h : MMU_HEAP) (DevVAddr ui32Size : Z) : Z :=
  let extra := u32 (u32 (ui32Size + ui32DataPageMask h) + ui32PTMask h) in
  let sHighDevVAddr :=
    if UINT32_MAX_VALUE - DevVAddr <? extra then UINT32_MAX_VALUE
    else u32 (u32 (u32 (DevVAddr + ui32Size) + ui32DataPageMask h) + ui32PTMask h) in
  let ui32PageTableCount := Z.shiftr sHighDevVAddr (ui32PDShift h) in
  if ui32PageTableCount =? 0 then 1024 else ui32PageTableCount.

Definition _DeferredAllocPagetables (pMMUHeap DevVAddr ui32Size : Z) : M mmu_st bool :=
  h ← rd_heap pMMUHeap id;
  let ui32PDIndex := Z.shiftr DevVAddr (ui32PDShift h) in
  let ui32PageTableCount := u32 (pd_end h DevVAddr ui32Size - ui32PDIndex) in
  alloc_page_tables (Z.to_nat ui32PageTableCount) pMMUHeap h ui32PDIndex.

(** ** Contexts *)

Definition MMU_Initialise : M mmu_st (PVRSRV_ERROR * option (Z * Z)) :=
  ok ← with_m_os OSAllocMem;
  if negb ok then mret (PVRSRV_ERROR_OUT_OF_MEMORY, None)
  else
    psMMUContext ← fresh;
    modify (λ s, set_m_ctxs (<[psMMUContext :=
      mkCtx 0 0 0 (replicate (Z.to_nat SGX_MAX_PD_ENTRIES) IMG_NULL) IMG_NULL]> (m_ctxs s)) s);;
    r ← OSAllocPages SGX_MMU_PAGE_SIZE;
    match r with
    | None => mret (PVRSRV_ERROR_FAILED_TO_ALLOC_PAGES, None)
    | Some (pvPD, hPD) =>
        sCpuPAddr ← (if negb (pvPD =? IMG_NULL) then OSMapLinToCPUPhys hPD pvPD
                     else OSMemHandleToCpuPAddr hPD 0);
        let sPD := SysCpuPAddrToDevPAddr sCpuPAddr in
        if pvPD =? IMG_NULL then mret (PVRSRV_ERROR_INVALID_CPU_ADDR, None)
        else
          zero_words pvPD 0 (Z.to_nat SGX_MMU_PD_SIZE);;
          head ← gets pvMMUContextList;
          wr_ctx psMMUContext (λ r, mkCtx pvPD sPD hPD (apsPTInfoList r) head);;
          modify (set_m_list psMMUContext);;
          mret (PVRSRV_OK, Some (psMMUContext, sPD))
    end.

(** The unlinking loop of [MMU_Finalise]: [prev] is the context whose [psNext]
    is looked at, null for the head of the list. *)
Fixpoint unlink_context (fuel : nat) (prev psMMUContext : Z) : M mmu_st unit :=
  match fuel with
  | O => out_of_fuel
  | S fuel =>
      cur ← (if prev =? IMG_NULL then gets pvMMUContextList else rd_ctx prev psNext);
      if cur =? IMG_NULL then mret tt
      else if cur =? psMMUContext then
        next ← rd_ctx psMMUContext psNext;
        if prev =? IMG_NULL then modify (set_m_list next)
        else wr_ctx prev (λ r, mkCtx (pvPDCpuVAddr r) (sPDDevPAddr r) (hPDOSMemHandle r) (apsPTInfoList r) next)
      else unlink_context fuel cur psMMUContext
  end.

Definition MMU_Finalise (psMMUContext : Z) : M mmu_st unit :=
  c ← rd_ctx psMMUContext id;
  zero_words (pvPDCpuVAddr c) 0 (Z.to_nat SGX_MMU_PD_SIZE);;
  OSFreePages (pvPDCpuVAddr c) (hPDOSMemHandle c);;
  s ← get;
  unlink_context (S (size (m_ctxs s))) IMG_NULL psMMUContext;;
  rd_ctx psMMUContext id;;
  with_m_os OSFreeMem;; modify (λ s, set_m_ctxs (delete psMMUContext (m_ctxs s)) s).

Definition MMU_InsertHeap (psMMUContext psMMUHeap : Z) : M mmu_st unit :=
  pd ← rd_ctx psMMUContext pvPDCpuVAddr;
  h ← rd_heap psMMUHeap id;
  kpd ← rd_ctx (Mmu.psMMUContext h) pvPDCpuVAddr;
  let base := Z.shiftr (BaseDevVAddr (psDevArena h)) (ui32PDShift h) in
  for_from (Z.to_nat (ui32PageTableCount h)) base (λ i, w ← rd_word kpd i; wr_word pd i w).

(** What [BM_CreateContext] (buffer_manager.c) does with the MMU: a context with
    the page tables of those heaps of the kernel context that are shared. *)
Definition BM_CreateContext_InsertHeap_ForEachVaCb (psMMUContext pMMUHeap : Z) : M mmu_st unit :=
  h ← rd_heap pMMUHeap psDevArena;
  match DevMemHeapType h with
  | DEVICE_MEMORY_HEAP_SHARED | DEVICE_MEMORY_HEAP_SHARED_EXPORTED => MMU_InsertHeap psMMUContext pMMUHeap
  | _ => mret tt
  end.
Fixpoint insert_heaps (psMMUContext : Z) (l : list Z) : M mmu_st unit :=
  match l with
  | [] => mret tt
  | h :: l => BM_CreateContext_InsertHeap_ForEachVaCb psMMUContext h;; insert_heaps psMMUContext l
  end.
Definition create_context (psBMSharedHeap : list Z) : M mmu_st (option (Z * Z)) :=
  r ← MMU_Initialise;
  match r with
  | (PVRSRV_OK, Some (psMMUContext, sPD)) =>
      insert_heaps psMMUContext psBMSharedHeap;; mret (Some (psMMUContext, sPD))
  | _ => mret None
  end.

Definition MMU_GetPDDevPAddr (pMMUContext : Z) : M mmu_st Z := rd_ctx pMMUContext sPDDevPAddr.

(** ** Mapping *)

(** The protection bits of an entry. *)
Definition pte_flags (ui32MemFlags : Z) : Z :=
  let f :=
    if Z.land (Z.lor PVRSRV_MEM_READ PVRSRV_MEM_WRITE) ui32MemFlags =? Z.lor PVRSRV_MEM_READ PVRSRV_MEM_WRITE then 0
    else if has_flag PVRSRV_MEM_READ ui32MemFlags then SGX_MMU_PTE_READONLY
    else if has_flag PVRSRV_MEM_WRITE ui32MemFlags then SGX_MMU_PTE_WRITEONLY
    else 0 in
  let f := if has_flag PVRSRV_MEM_CACHE_CONSISTENT ui32MemFlags then Z.lor f SGX_MMU_PTE_CACHECONSISTENT else f in
  if has_flag PVRSRV_MEM_EDM_PROTECT ui32MemFlags then Z.lor f SGX_MMU_PTE_EDMPROTECT else f.

(** [~x] on 32 bits *)
Definition not32 (x : Z) : Z := u32 (Z.lnot x).

Definition MMU_MapPage (pMMUHeap DevVAddr DevPAddr ui32MemFlags : Z) : M mmu_st unit :=
  h ← rd_heap pMMUHeap id;
  let ui32MMUFlags := pte_flags ui32MemFlags in
  slot ← rd_slot (psMMUContext h) (Z.shiftr DevVAddr (ui32PDShift h));
  let ui32Index := Z.shiftr (Z.land DevVAddr (ui32PTMask h)) (ui32PTShift h) in
  pt ← rd_pt slot PTPageCpuVAddr;
  rd_word pt ui32Index;;
  wr_pt slot (λ t, mkPT (hPTPageOSMemHandle t) (PTPageCpuVAddr t) (u32 (ui32ValidPTECount t + 1)));;
  wr_word pt ui32Index
    (u32 (Z.lor (Z.lor (Z.land (Z.shiftr DevPAddr SGX_MMU_PTE_ADDR_ALIGNSHIFT)
                               (Z.shiftr (not32 (ui32DataPageMask h)) SGX_MMU_PTE_ADDR_ALIGNSHIFT))
                       SGX_MMU_PTE_VALID) ui32MMUFlags)).

(** The loops of the next three functions: [uCount] runs through the bytes,
    the [k]-th turn maps the next device page to [DevPAddr k]. *)
Fixpoint map_loop (fuel : nat) (k uCount uSize pMMUHeap DevVAddr : Z) (DevPAddr : Z → M mmu_st Z)
    (ui32MemFlags : Z) : M mmu_st unit :=
  if uCount <? uSize then
    match fuel with
    | O => out_of_fuel
    | S fuel =>
        p ← DevPAddr k;
        MMU_MapPage pMMUHeap DevVAddr p ui32MemFlags;;
        step ← rd_heap pMMUHeap ui32DataPageSize;
        map_loop fuel (k + 1) (u32 (uCount + step)) uSize pMMUHeap (u32 (DevVAddr + step)) DevPAddr ui32MemFlags
    end
  else mret tt.

(** Turns for [uSize] bytes. *)
Definition turns (uSize : Z) : nat := S (Z.to_nat (uSize / SGX_MMU_PAGE_SIZE)).

Definition MMU_MapScatter (pMMUHeap DevVAddr : Z) (psSysAddr : list Z) (uSize ui32MemFlags : Z) : M mmu_st unit :=
  map_loop (turns uSize) 0 0 uSize pMMUHeap DevVAddr
    (λ k, a ← deref (psSysAddr !! Z.to_nat k); mret (SysSysPAddrToDevPAddr a)) ui32MemFlags.

Definition MMU_MapPages (pMMUHeap DevVAddr SysPAddr uSize ui32MemFlags : Z) : M mmu_st unit :=
  h ← rd_heap pMMUHeap id;
  let DevPAddr := SysSysPAddrToDevPAddr SysPAddr in
  let ui32PAdvance := if has_flag ui32MemFlags PVRSRV_MEM_DUMMY then 0 else ui32DataPageSize h in
  map_loop (turns uSize) 0 0 uSize pMMUHeap DevVAddr (λ k, mret (u64 (DevPAddr + k * ui32PAdvance))) ui32MemFlags.

(** The device address it answers is [MapBaseDevVAddr]. *)
Definition MMU_MapShadow (pMMUHeap MapBaseDevVAddr uByteSize CpuVAddr hOSMemHandle ui32MemFlags : Z) : M mmu_st Z :=
  h ← rd_heap pMMUHeap id;
  let ui32PAdvance := if has_flag ui32MemFlags PVRSRV_MEM_DUMMY then 0 else ui32DataPageSize h in
  map_loop (turns uByteSize) 0 0 uByteSize pMMUHeap MapBaseDevVAddr
    (λ k, let uOffset := u32 (k * ui32PAdvance) in
          mret (SysCpuPAddrToDevPAddr
            (if negb (CpuVAddr =? IMG_NULL) then lin_to_phys hOSMemHandle (u64 (CpuVAddr + uOffset))
             else handle_to_phys hOSMemHandle uOffset))) ui32MemFlags;;
  mret MapBaseDevVAddr.

(** ** Unmapping *)

(** The loop of [MMU_UnmapPagesAndFreePTs]; the answer is
    [bInvalidateDirectoryCache].  A page table without memory does not advance
    the address. *)
Fixpoint unmap_free_loop (n : nat) (psMMUHeap sTmpDevVAddr : Z) (bInvalidateDirectoryCache : bool) : M mmu_st bool :=
  match n with
  | O => mret bInvalidateDirectoryCache
  | S n =>
      h ← rd_heap psMMUHeap id;
      let ui32PDIndex := Z.shiftr sTmpDevVAddr (ui32PDShift h) in
      slot ← rd_slot (psMMUContext h) ui32PDIndex;
      let ui32PTIndex := Z.shiftr (Z.land sTmpDevVAddr (ui32PTMask h)) (ui32PTShift h) in
      let next := u32 (sTmpDevVAddr + ui32DataPageSize h) in
      if slot =? IMG_NULL then unmap_free_loop n psMMUHeap next bInvalidateDirectoryCache
      else
        pt ← rd_pt slot PTPageCpuVAddr;
        if pt =? IMG_NULL then unmap_free_loop n psMMUHeap sTmpDevVAddr bInvalidateDirectoryCache
        else
          w ← rd_word pt ui32PTIndex;
          (if has_flag w SGX_MMU_PTE_VALID
           then wr_pt slot (λ t, mkPT (hPTPageOSMemHandle t) (PTPageCpuVAddr t) (u32 (ui32ValidPTECount t - 1)))
           else mret tt);;
          wr_word pt ui32PTIndex 0;;
          count ← rd_pt slot ui32ValidPTECount;
          inval ← (if count =? 0 then
                     _DeferredFreePageTable psMMUHeap (u32 (ui32PDIndex - ui32PDBaseIndex h)) true;;
                     mret true
                   else mret bInvalidateDirectoryCache);
          unmap_free_loop n psMMUHeap next inval
  end.

Definition MMU_UnmapPagesAndFreePTs (psMMUHeap sDevVAddr ui32PageCount : Z) : M mmu_st unit :=
  bInvalidateDirectoryCache ← unmap_free_loop (Z.to_nat ui32PageCount) psMMUHeap sDevVAddr false;
  if bInvalidateDirectoryCache : bool then MMU_InvalidateDirectoryCache
  else MMU_InvalidatePageTableCache.

(** The backing store callback of the arena of a heap. *)
Definition MMU_FreePageTables (pvMMUHeap ui32Start ui32End hUniqueTag : Z) : M mmu_st unit :=
  h ← rd_heap pvMMUHeap id;
  MMU_UnmapPagesAndFreePTs pvMMUHeap ui32Start (Z.shiftr (u32 (ui32End - ui32Start)) (ui32PTShift h)).

Fixpoint unmap_loop (n : nat) (psMMUHeap sTmpDevVAddr : Z) : M mmu_st unit :=
  match n with
  | O => mret tt
  | S n =>
      h ← rd_heap psMMUHeap id;
      let ui32PDIndex := Z.shiftr sTmpDevVAddr (ui32PDShift h) in
      slot ← rd_slot (psMMUContext h) ui32PDIndex;
      let ui32PTIndex := Z.shiftr (Z.land sTmpDevVAddr (ui32PTMask h)) (ui32PTShift h) in
      let next := u32 (sTmpDevVAddr + ui32DataPageSize h) in
      if slot =? IMG_NULL then unmap_loop n psMMUHeap next
      else
        pt ← rd_pt slot PTPageCpuVAddr;
        w ← rd_word pt ui32PTIndex;
        (if has_flag w SGX_MMU_PTE_VALID
         then wr_pt slot (λ t, mkPT (hPTPageOSMemHandle t) (PTPageCpuVAddr t) (u32 (ui32ValidPTECount t - 1)))
         else mret tt);;
        wr_word pt ui32PTIndex 0;;
        unmap_loop n psMMUHeap next
  end.

Definition MMU_UnmapPages (psMMUHeap sDevVAddr ui32PageCount : Z) : M mmu_st unit :=
  unmap_loop (Z.to_nat ui32PageCount) psMMUHeap sDevVAddr;;
  MMU_InvalidatePageTableCache.

(** ** Queries *)

Definition MMU_GetPhysPageAddr (pMMUHeap sDevVPageAddr : Z) : M mmu_st Z :=
  h ← rd_heap pMMUHeap id;
  slot ← rd_slot (psMMUContext h) (Z.shiftr sDevVPageAddr (ui32PDShift h));
  if slot =? IMG_NULL then mret 0
  else
    pt ← rd_pt slot PTPageCpuVAddr;
    w ← rd_word pt (Z.shiftr (Z.land sDevVPageAddr (ui32PTMask h)) (ui32PTShift h));
    mret (u64 (Z.shiftl (Z.land w (not32 (Z.shiftr (ui32DataPageMask h) SGX_MMU_PTE_ADDR_ALIGNSHIFT)))
                 SGX_MMU_PTE_ADDR_ALIGNSHIFT)).

Definition SGXGetPhysPageAddrKM (pMMUHeap sDevVAddr : Z) : M mmu_st (PVRSRV_ERROR * Z) :=
  p ← MMU_GetPhysPageAddr pMMUHeap sDevVAddr;
  mret (if negb (p =? 0) then PVRSRV_OK else PVRSRV_ERROR_INVALID_PARAMS, p).

(** ** Heaps, but for their arena *)

(** [MMU_Create] up to the arena: the heap, or null. *)
Definition create_heap (psContext : Z) (psArena : DEV_ARENA_DESCRIPTOR) : M mmu_st Z :=
  ok ← with_m_os OSAllocMem;
  if negb ok then mret IMG_NULL
  else
    p ← fresh;
    if negb (devarena_DataPageSize psArena =? 4096) then with_m_os OSFreeMem;; mret IMG_NULL
    else
      let ui32ScaleSize := 0 in
      let size := devarena_DataPageSize psArena in
      let bits := SGX_MMU_PAGE_SHIFT + ui32ScaleSize in
      let ptbits := SGX_MMU_PT_SHIFT - ui32ScaleSize in
      let ptsize := u32 (Z.shiftl 1 ptbits * 4) in
      let ptsize := if ptsize <? 4 * 4 then 4 * 4 else ptsize in
      let pdshift := ptbits + bits in
      let pdmask := Z.land SGX_MMU_PD_MASK (Z.shiftr SGX_MMU_PD_MASK (32 - SGX_FEATURE_ADDRESS_SPACE_SIZE)) in
      let usable := Z.shiftl 1 ptbits in
      let total := Z.shiftr (ui32Size psArena) bits in
      modify (λ s, set_m_heaps (<[p := mkHeap psContext psArena
        (Z.shiftr (Z.land (BaseDevVAddr psArena) pdmask) pdshift)
        (Z.shiftr (u32 (u32 (total + usable) - 1)) ptbits) total SGX_MMU_PDE_PAGE_SIZE_4K
        size bits (u32 (size - 1)) bits ptbits
        (Z.land SGX_MMU_PT_MASK (u32 (Z.shiftl SGX_MMU_PT_MASK ui32ScaleSize)))
        ptsize (Z.shiftr ptsize 2) usable pdshift
        (SGX_FEATURE_ADDRESS_SPACE_SIZE - ptbits - bits) pdmask]> (m_heaps s)) s);;
      mret p.

Definition free_heap (pMMUHeap : Z) : M mmu_st unit :=
  rd_heap pMMUHeap id;;
  with_m_os OSFreeMem;; modify (λ s, set_m_heaps (delete pMMUHeap (m_heaps s)) s).

(** ** The page directory that SGX resets use *)

(** The fields of [PVRSRV_SGXDEV_INFO] the next two functions set and use. *)
Record bif_reset := mkBIF {
  hBIFResetPDOSMemHandle : Z;
  sBIFResetPDDevPAddr : Z;
  sBIFResetPTDevPAddr : Z;
  sBIFResetPageDevPAddr : Z;
  pui32BIFResetPD : Z;
  pui32BIFResetPT : Z
}.

(** Three pages; the last is filled with bytes 0xDB. *)
Definition MMU_BIFResetPDAlloc : M mmu_st (PVRSRV_ERROR * option bif_reset) :=
  r ← OSAllocPages (3 * SGX_MMU_PAGE_SIZE);
  match r with
  | None => mret (PVRSRV_ERROR_OUT_OF_MEMORY, None)
  | Some (pui8MemBlock, hOSMemHandle) =>
      sMemBlockCpuPAddr ← (if negb (pui8MemBlock =? IMG_NULL) then OSMapLinToCPUPhys hOSMemHandle pui8MemBlock
                           else OSMemHandleToCpuPAddr hOSMemHandle 0);
      let pd := SysCpuPAddrToDevPAddr sMemBlockCpuPAddr in
      let pt := u64 (pd + SGX_MMU_PAGE_SIZE) in
      zero_words pui8MemBlock 0 1024;;
      zero_words pui8MemBlock 1024 1024;;
      for_from 1024 2048 (λ j, wr_word pui8MemBlock j 3688618971);;
      mret (PVRSRV_OK, Some (mkBIF hOSMemHandle pd pt (u64 (pt + SGX_MMU_PAGE_SIZE)) pui8MemBlock
                               (u64 (pui8MemBlock + SGX_MMU_PAGE_SIZE))))
  end.

Definition MMU_BIFResetPDFree (b : bif_reset) : M mmu_st unit :=
  OSFreePages (pui32BIFResetPD b) (hBIFResetPDOSMemHandle b).
End mmu.
