(* ===== verification/MmuRep.v ===== *)
(** * Page tables as tables

    [tables] is the state of the MMU without pointers and physical addresses:
    for a context and a directory index, the entries of the page table.  An
    index may belong to a shared heap; its tables are those of the heap's
    context ([owner]), whatever context looks.  [rep] relates it to the state
    of the driver, [walk] is the walk the device does on the words in memory,
    [translate] what it finds in terms of [tables]. *)

From S2P Require Import Prelude Mmu.

(** ** Bits *)

Definition pdx (v : Z) : Z := v / 4194304.
Definition ptx (v : Z) : Z := v / 4096 mod 1024.

Lemma shiftr_pd v : Z.shiftr v 22 = pdx v.
Proof. by rewrite Z.shiftr_div_pow2. Qed.

Lemma shiftr_pt v : Z.shiftr (Z.land v SGX_MMU_PT_MASK) 12 = ptx v.
Proof.
  rewrite Z.shiftr_land. change (Z.shiftr SGX_MMU_PT_MASK 12) with (Z.ones 10).
  rewrite Z.land_ones by lia. by rewrite Z.shiftr_div_pow2.
Qed.

Lemma pdx_range v : is_u32 v → 0 ≤ pdx v < 1024.
Proof. unfold is_u32, pdx. intros. split; [apply Z.div_pos; lia|]. apply Z.div_lt_upper_bound; lia. Qed.
Lemma ptx_range v : 0 ≤ ptx v < 1024.
Proof. apply Z.mod_pos_bound. lia. Qed.

Lemma land_page_mask x : Z.land x 4294963200 = u32 x / 4096 * 4096.
Proof.
  unfold u32. change 4294967296 with (2 ^ 32). change 4096 with (2 ^ 12).
  rewrite <- Z.land_ones, <- Z.shiftr_div_pow2, <- Z.shiftl_mul_pow2 by lia.
  apply Z.bits_inj'. intros n Hn. rewrite Z.land_spec.
  change 4294963200 with (Z.shiftl (Z.ones 20) 12).
  rewrite !Z.shiftl_spec by lia. destruct (Z.ltb_spec n 12) as [Hlt|Hge].
  - rewrite !(Z.testbit_neg_r _ (n - 12)) by lia. by rewrite andb_false_r.
  - rewrite Z.shiftr_spec, Z.land_spec by lia. replace (n - 12 + 12) with n by lia.
    destruct (Z.ltb_spec n 32).
    + rewrite !Z.ones_spec_low by lia. done.
    + rewrite !Z.ones_spec_high by lia. by rewrite !andb_false_r.
Qed.

(** A page address with low bits. *)
Lemma lor_low k f : 0 ≤ f < 4096 → Z.lor (k * 4096) f = k * 4096 + f.
Proof.
  intros Hf. change 4096 with (2 ^ 12) in *. rewrite <- Z.shiftl_mul_pow2 by lia.
  rewrite <- Z.lxor_lor; [symmetry; apply Z.add_nocarry_lxor|]; apply Z.bits_inj'; intros n Hn;
    rewrite Z.bits_0, Z.land_spec, Z.shiftl_spec by lia.
  1,2: destruct (Z.ltb_spec n 12); [by rewrite (Z.testbit_neg_r k) by lia|].
  1,2: rewrite (Z.bits_above_log2 f), ?andb_false_r; [done|lia|].
  1,2: destruct (decide (f = 0)) as [->|]; [simpl; lia|]; apply Z.log2_lt_pow2; [lia|];
       eapply Z.lt_le_trans; [apply Hf|]; apply Z.pow_le_mono_r; lia.
Qed.

Definition valid (w : Z) : bool := has_flag w SGX_MMU_PTE_VALID.

Lemma valid_odd w : valid w = Z.odd w.
Proof.
  unfold valid, has_flag. change SGX_MMU_PTE_VALID with (Z.ones 1). rewrite Z.land_ones by lia.
  change (2 ^ 1) with 2. rewrite Zmod_odd. by destruct (Z.odd w).
Qed.

Lemma valid_0 : valid 0 = false.
Proof. done. Qed.

(** The entry [MMU_MapPage] writes. *)
Definition pte (DevPAddr ui32MemFlags : Z) : Z :=
  u32 DevPAddr / 4096 * 4096 + (pte_flags ui32MemFlags + 1).

Lemma pte_flags_range f : 0 ≤ pte_flags f < 32 ∧ Z.even (pte_flags f) = true.
Proof.
  unfold pte_flags. repeat case_match; cbv; repeat split; intros; congruence.
Qed.

Lemma pte_written P f :
  u32 (Z.lor (Z.lor (Z.land (Z.shiftr P SGX_MMU_PTE_ADDR_ALIGNSHIFT)
    (Z.shiftr (not32 4095) SGX_MMU_PTE_ADDR_ALIGNSHIFT)) SGX_MMU_PTE_VALID) (pte_flags f)) = pte P f.
Proof.
  change (Z.shiftr (not32 4095) SGX_MMU_PTE_ADDR_ALIGNSHIFT) with 4294963200.
  unfold SGX_MMU_PTE_ADDR_ALIGNSHIFT, SGX_MMU_PTE_VALID. rewrite Z.shiftr_0_r, land_page_mask.
  rewrite <- Z.lor_assoc. destruct (pte_flags_range f) as [Hr He].
  assert (Z.lor 1 (pte_flags f) = pte_flags f + 1) as ->.
  { rewrite Z.lor_comm. apply Z.even_spec in He as [k ->]. rewrite <- Z.lxor_lor; [symmetry; apply Z.add_nocarry_lxor|];
      rewrite Z.mul_comm, Z.land_comm; change 1 with (Z.ones 1); rewrite Z.land_comm, Z.land_ones by lia; apply Z_mod_mult. }
  rewrite lor_low by lia. unfold pte. apply u32_small. pose proof (u32_range P) as Hp. unfold is_u32 in *.
  pose proof (Z.div_mod (u32 P) 4096 ltac:(lia)). pose proof (Z.mod_pos_bound (u32 P) 4096 ltac:(lia)).
  assert (u32 P / 4096 < 1048576) by (apply Z.div_lt_upper_bound; lia). lia.
Qed.

Lemma pte_valid P f : valid (pte P f) = true.
Proof.
  rewrite valid_odd. unfold pte. destruct (pte_flags_range f) as [_ He].
  rewrite Z.odd_add, Z.odd_mul, Z.odd_add. rewrite <- !Z.negb_even, He. simpl.
  by rewrite andb_false_r.
Qed.

(** The page and the protection bits an entry holds. *)
Definition pte_page (w : Z) : Z := Z.land w SGX_MMU_PTE_ADDR_MASK.
Definition pte_bits (w : Z) : Z := w mod 4096 - 1.

Lemma pte_page_pte P f : pte_page (pte P f) = u32 P / 4096 * 4096.
Proof.
  unfold pte_page, SGX_MMU_PTE_ADDR_MASK. rewrite land_page_mask. unfold pte.
  destruct (pte_flags_range f) as [Hf _]. pose proof (u32_range P) as Hp. unfold is_u32 in Hp.
  assert (0 ≤ u32 P / 4096 < 1048576) by (split; [apply Z.div_pos; lia|apply Z.div_lt_upper_bound; lia]).
  rewrite (u32_small (_ + _)) by (unfold is_u32; lia).
  rewrite Z.div_add_l, (Z.div_small (_ + 1)) by lia. by rewrite Z.add_0_r.
Qed.

Lemma pte_bits_pte P f : pte_bits (pte P f) = pte_flags f.
Proof.
  unfold pte_bits, pte. destruct (pte_flags_range f) as [Hf _].
  rewrite Z.add_comm, Z_mod_plus_full, Z.mod_small by lia. lia.
Qed.

(** The directory entry of a page table at the physical page [phi]. *)
Lemma pde_written phi : 0 < phi < 4294967296 → phi mod 4096 = 0 →
  u32 (Z.lor (Z.lor (Z.shiftr phi SGX_MMU_PDE_ADDR_ALIGNSHIFT) SGX_MMU_PDE_PAGE_SIZE_4K) SGX_MMU_PDE_VALID) = phi + 1.
Proof.
  intros Hp Hm. unfold SGX_MMU_PDE_ADDR_ALIGNSHIFT, SGX_MMU_PDE_PAGE_SIZE_4K, SGX_MMU_PDE_VALID.
  rewrite Z.shiftr_0_r, Z.lor_0_r. pose proof (Z.div_mod phi 4096 ltac:(lia)) as Hd.
  replace phi with (phi / 4096 * 4096) by lia. rewrite lor_low by lia. apply u32_small. unfold is_u32. lia.
Qed.

Lemma pde_valid phi : phi mod 4096 = 0 → valid (phi + 1) = true.
Proof.
  intros Hm. rewrite valid_odd. pose proof (Z.div_mod phi 4096 ltac:(lia)) as Hd. rewrite Hm in Hd.
  rewrite Hd, Z.odd_add, Z.odd_add, Z.odd_mul. done.
Qed.

Lemma pde_page phi : 0 < phi < 4294967296 → phi mod 4096 = 0 → Z.land (phi + 1) SGX_MMU_PDE_ADDR_MASK = phi.
Proof.
  intros Hp Hm. unfold SGX_MMU_PDE_ADDR_MASK. rewrite land_page_mask.
  pose proof (Z.div_mod phi 4096 ltac:(lia)) as Hd.
  assert (phi + 1 < 4294967296).
  { assert (phi / 4096 < 1048576) by (apply Z.div_lt_upper_bound; lia). lia. }
  rewrite u32_small by (unfold is_u32; lia). rewrite Hm in Hd.
  assert ((phi + 1) / 4096 = phi / 4096) as ->; [|lia].
  symmetry. apply (Z.div_unique _ _ _ 1); lia.
Qed.

(** The number of valid entries of a page table. *)
Definition count (ws : list Z) : Z := Z.of_nat (length (filter (λ w, valid w = true) ws)).

Lemma count_range ws : 0 ≤ count ws ≤ Z.of_nat (length ws).
Proof. unfold count. pose proof (length_filter (λ w, valid w = true) ws). lia. Qed.

Lemma count_insert ws i w v : ws !! i = Some w →
  count (<[i := v]> ws) = count ws - Z.b2z (valid w) + Z.b2z (valid v).
Proof.
  intros Hi. unfold count. rewrite (insert_take_drop _ _ _ (lookup_lt_Some _ _ _ Hi)).
  rewrite <- (take_drop_middle _ _ _ Hi) at 3. rewrite !filter_app, !length_app, !filter_cons.
  destruct (decide (valid v = true)) as [->|Hv%not_true_is_false], (decide (valid w = true)) as [->|Hw%not_true_is_false];
    rewrite ?Hv, ?Hw; simpl; lia.
Qed.

Lemma count_zero ws : count ws = 0 ↔ Forall (λ w, valid w = false) ws.
Proof.
  unfold count. split.
  - intros Hc. apply Forall_forall. intros w Hw. destruct (valid w) eqn:Hv; [|done].
    assert (w ∈ filter (λ w, valid w = true) ws) as Hin by by apply list_elem_of_filter.
    destruct (filter _ ws); [by apply elem_of_nil in Hin|simpl in Hc; lia].
  - intros Hf. destruct (filter _ ws) as [|w l] eqn:He; [done|].
    assert (w ∈ filter (λ w, valid w = true) ws) as Hin by (rewrite He; by left).
    apply list_elem_of_filter in Hin as [Hv Hin]. rewrite Forall_forall in Hf. by rewrite Hf in Hv.
Qed.

Lemma count_replicate n : count (replicate n 0) = 0.
Proof. apply count_zero, Forall_replicate. done. Qed.

(** An empty page table. *)
Definition zeros : list Z := replicate 1024 0.
#[global] Arguments zeros : simpl never.

Lemma zeros_length : length zeros = 1024%nat.
Proof. apply length_replicate. Qed.
Lemma zeros_count : count zeros = 0.
Proof. apply count_replicate. Qed.

(** A page table has 1024 entries, null if they are not valid. *)
Definition sound (ws : list Z) : Prop := length ws = 1024%nat ∧ Forall (λ w, valid w = true ∨ w = 0) ws.

Lemma sound_zeros : sound zeros.
Proof. split; [apply zeros_length|]. apply Forall_replicate. by right. Qed.
Lemma sound_insert ws i w : sound ws → valid w = true ∨ w = 0 → sound (<[i := w]> ws).
Proof. intros [Hl Hf] Hw. split; [by rewrite length_insert|by apply Forall_insert]. Qed.

(** ** Tables of 1024 entries *)

Definition table {A} (f : Z → A) : list A := f <$> seqZ 0 1024.
#[global] Arguments table : simpl never.

Lemma table_length {A} (f : Z → A) : length (table f) = 1024%nat.
Proof. unfold table. by rewrite length_fmap, length_seqZ. Qed.

Lemma table_lookup {A} (f : Z → A) i : 0 ≤ i < 1024 → table f !! Z.to_nat i = Some (f i).
Proof.
  intros Hi. unfold table. rewrite list_lookup_fmap, lookup_seqZ_lt by lia. simpl. do 2 f_equal. lia.
Qed.

Lemma table_ext {A} (f g : Z → A) : (∀ i, 0 ≤ i < 1024 → f i = g i) → table f = table g.
Proof.
  intros H. unfold table. apply list_fmap_ext. intros j i Hi. apply lookup_seqZ in Hi as [-> Hj]. apply H. lia.
Qed.

Lemma table_insert {A} (f g : Z → A) i v : 0 ≤ i < 1024 → g i = v →
  (∀ j, 0 ≤ j < 1024 → j ≠ i → g j = f j) → <[Z.to_nat i := v]> (table f) = table g.
Proof.
  intros Hi Hv Hg. apply list_eq. intros j. destruct (decide (j < 1024)%nat) as [Hj|Hj].
  - replace j with (Z.to_nat (Z.of_nat j)) by lia. rewrite (table_lookup g) by lia.
    destruct (decide (Z.of_nat j = i)) as [<-|Hne].
    + rewrite list_lookup_insert_eq by (rewrite table_length; lia). by rewrite Hv.
    + rewrite list_lookup_insert_ne, table_lookup by lia. by rewrite Hg by lia.
  - rewrite !lookup_ge_None_2; [done|rewrite table_length; lia|rewrite length_insert, table_length; lia].
Qed.

Lemma table_const {A} (x : A) : replicate 1024 x = table (λ _, x).
Proof.
  apply list_eq. intros j. destruct (decide (j < 1024)%nat) as [Hj|Hj].
  - rewrite lookup_replicate_2 by done. replace j with (Z.to_nat (Z.of_nat j)) by lia. by rewrite table_lookup by lia.
  - rewrite !lookup_ge_None_2; [done|rewrite table_length; lia|rewrite length_replicate; lia].
Qed.

(** ** The abstract state *)

(** [t_list]: the contexts, latest first.  [t_pt]: by context and directory
    index, the page table, which may still lack its page ([Some None]).
    [t_owner]: the directory indices of shared heaps, with the heap's context. *)
Record tables := mkTables {
  t_list : list Z;
  t_pt : gmap (Z * Z) (option (list Z));
  t_owner : gmap Z Z
}.

Definition set_pt x a := mkTables (t_list a) x (t_owner a).

(** Whose page table the context [c] sees at [i]. *)
Definition owner (a : tables) (c i : Z) : Z := default c (t_owner a !! i).

(** The entry for a device address. *)
Definition entry (o : option (option (list Z))) (v : Z) : option Z :=
  match o with
  | Some (Some ws) => w ← ws !! Z.to_nat (ptx v); if valid w then Some w else None
  | _ => None
  end.
Definition translate (a : tables) (c v : Z) : option Z :=
  entry (t_pt a !! (owner a c (pdx v), pdx v)) v.

(** ** The device's walk *)

(** The area at a physical address. *)
Definition area_at (s : mmu_st) (phi : Z) : option mem_area :=
  snd <$> head (filter (λ '(_, ar), ar_phys ar = [phi]) (map_to_list (m_mem s))).

Definition read_phys (s : mmu_st) (phi i : Z) : option Z :=
  ar ← area_at s phi; ar_words ar !! Z.to_nat i.

(** From the directory at [root]: the valid page table entry of [v]. *)
Definition walk (s : mmu_st) (root v : Z) : option Z :=
  d ← read_phys s root (pdx v);
  if valid d then
    w ← read_phys s (Z.land d SGX_MMU_PDE_ADDR_MASK) (ptx v);
    if valid w then Some w else None
  else None.

(** ** The representation *)

(** What an area is for. *)
Inductive place := PDof (c : Z) | PTof (x : Z * Z).

(** [g_tab]: the [MMU_PT_INFO], the area (null when it has none) and the
    physical page of every page table. *)
Record ghost := mkGhost {
  g_tab : gmap (Z * Z) (Z * Z * Z);
  g_place : Z → place;
  g_info : Z → Z * Z
}.

Definition pde (o : option (Z * Z * Z)) : Z :=
  match o with Some (_, b, phi) => if b =? 0 then 0 else phi + 1 | None => 0 end.
Definition slot_of (o : option (Z * Z * Z)) : Z := match o with Some (p, _, _) => p | None => 0 end.

Definition pd_words (a : tables) (G : ghost) (c : Z) : list Z := table (λ i, pde (g_tab G !! (owner a c i, i))).
Definition slots (G : ghost) (c : Z) : list Z := table (λ i, slot_of (g_tab G !! (c, i))).

Fixpoint linked (m : gmap Z MMU_CONTEXT) (p : Z) (l : list Z) : Prop :=
  match l with
  | [] => p = 0
  | c :: l => p = c ∧ c ≠ 0 ∧ ∃ r, m !! c = Some r ∧ linked m (psNext r) l
  end.

(** The contexts: their list, their directories with words [W], and their
    arrays of page tables. *)
Record dirs (s : mmu_st) (l : list Z) (pl : Z → place) (W S : Z → list Z) : Prop := {
  d_linked : linked (m_ctxs s) (pvMMUContextList s) l;
  d_nodup : NoDup l;
  d_ctx : ∀ c, c ∈ l → ∃ r, m_ctxs s !! c = Some r ∧ hPDOSMemHandle r = pvPDCpuVAddr r ∧
    pl (pvPDCpuVAddr r) = PDof c ∧ m_mem s !! pvPDCpuVAddr r = Some (mkArea [sPDDevPAddr r] (W c)) ∧
    apsPTInfoList r = S c
}.

(** One page table. *)
Definition tab_ok (s : mmu_st) (G : ghost) (x : Z * Z) (t : option (option (list Z))) (g : option (Z * Z * Z)) : Prop :=
  match t, g with
  | None, None => True
  | Some None, Some (p, b, _) => p ≠ 0 ∧ g_info G p = x ∧ b = 0 ∧ m_pts s !! p = Some (mkPT 0 0 0)
  | Some (Some ws), Some (p, b, phi) =>
      p ≠ 0 ∧ g_info G p = x ∧ b ≠ 0 ∧ g_place G b = PTof x ∧ m_pts s !! p = Some (mkPT b b (count ws)) ∧
      m_mem s !! b = Some (mkArea [phi] ws) ∧ sound ws
  | _, _ => False
  end.

Definition shared_heap (h : MMU_HEAP) : bool :=
  match DevMemHeapType (psDevArena h) with
  | DEVICE_MEMORY_HEAP_SHARED | DEVICE_MEMORY_HEAP_SHARED_EXPORTED => true
  | _ => false
  end.

(** The directory indices of a heap. *)
Definition in_heap (h : MMU_HEAP) (i : Z) : Prop := ui32PDBaseIndex h ≤ i < ui32PDBaseIndex h + ui32PageTableCount h.

(** A heap as [MMU_Create] makes it, in a context of the list; all contexts see
    its page tables if it is shared, and only its own otherwise. *)
Record heap_ok (a : tables) (h : MMU_HEAP) : Prop := {
  ho_ctx : psMMUContext h ∈ t_list a;
  ho_known : known_heap h = true;
  ho_page : ui32DataPageSize h = 4096;
  ho_mask : ui32DataPageMask h = 4095;
  ho_ptshift : ui32PTShift h = 12;
  ho_ptmask : ui32PTMask h = SGX_MMU_PT_MASK;
  ho_ptsize : ui32PTSize h = 4096;
  ho_usable : ui32PTNumEntriesUsable h = 1024;
  ho_pdshift : ui32PDShift h = 22;
  ho_ctrl : ui32PDEPageSizeCtrl h = SGX_MMU_PDE_PAGE_SIZE_4K;
  ho_base : BaseDevVAddr (psDevArena h) = ui32PDBaseIndex h * 4194304;
  ho_range : 0 ≤ ui32PDBaseIndex h ∧ 0 ≤ ui32PageTableCount h ∧ ui32PDBaseIndex h + ui32PageTableCount h ≤ 1024;
  ho_size : 0 < ui32Size (psDevArena h) ≤ ui32PageTableCount h * 4194304 ∧ ui32Size (psDevArena h) mod 4096 = 0 ∧
    BaseDevVAddr (psDevArena h) + ui32Size (psDevArena h) < 4294967296;
  ho_total : is_u32 (ui32PTETotalUsable h);
  ho_own : ∀ i, in_heap h i → t_owner a !! i = if shared_heap h then Some (psMMUContext h) else None
}.

(** The number of physical pages of the areas. *)
Definition held (m : gmap Z (list Z)) : nat := map_fold (λ _ l n, (length l + n)%nat) 0%nat m.

(** The areas of memory, as their physical pages. *)
Record mem_ok (n : nat) (next : Z) (m : gmap Z (list Z)) : Prop := {
  mo_inj : ∀ b b' l l' phi, m !! b = Some l → m !! b' = Some l' → phi ∈ l → phi ∈ l' → b = b';
  mo_page : ∀ b l phi, m !! b = Some l → phi ∈ l → 0 < phi < 4294967296 ∧ phi mod 4096 = 0;
  mo_fresh : ∀ b, is_Some (m !! b) → 0 < b < next;
  mo_size : held m = n
}.

Definition phys (s : mmu_st) : gmap Z (list Z) := ar_phys <$> m_mem s.

(** What the driver holds: [k] blocks and [n] pages besides those of contexts,
    page tables and heaps. *)
Definition blocks (a : tables) (m : gmap Z MMU_HEAP) : Z :=
  Z.of_nat (length (t_list a) + size (t_pt a) + size m).
Definition areas (a : tables) : nat :=
  (length (t_list a) + size (omap (M:=gmap (Z * Z)) id (t_pt a)))%nat.

(** The representation but for the directories, whose words are [W]. *)
Record rep_w (k : Z) (n : nat) (s : mmu_st) (a : tables) (G : ghost) (W : Z → list Z) : Prop := {
  r_dirs : dirs s (t_list a) (g_place G) W (slots G);
  r_tab : ∀ x, tab_ok s G x (t_pt a !! x) (g_tab G !! x);
  r_dom : ∀ c i, is_Some (t_pt a !! (c, i)) → c ∈ t_list a ∧ 0 ≤ i < 1024 ∧ owner a c i = c;
  r_own : ∀ i o, t_owner a !! i = Some o → o ∈ t_list a;
  r_mem : mem_ok (n + areas a) (m_next s) (phys s);
  r_next : 0 < m_next s;
  r_fresh : ∀ p, is_Some (m_pts s !! p) ∨ is_Some (m_ctxs s !! p) ∨ is_Some (m_heaps s !! p) → 0 < p < m_next s;
  r_heap : ∀ p h, m_heaps s !! p = Some h → heap_ok a h;
  r_live : os_live (m_os s) = k + blocks a (m_heaps s)
}.

Definition rep (k : Z) (n : nat) (s : mmu_st) (a : tables) (G : ghost) : Prop :=
  ∃ W, rep_w k n s a G W ∧ ∀ c, c ∈ t_list a → W c = pd_words a G c.

Section laws.
Context {env : MmuEnv}.

(** The kernel hands out free pages of the 32 bits the device can address. *)
Class MmuLaw : Prop :=
  page_law t X p : page_choice t X = Some p → p ∉ X ∧ 0 < p < 4294967296 ∧ p mod 4096 = 0.
End laws.
Arguments MmuLaw : clear implicits.

(** ** Lemmas on the representation *)

Lemma dirs_ext s l pl W W' S S' : dirs s l pl W S → (∀ c, c ∈ l → W' c = W c ∧ S' c = S c) → dirs s l pl W' S'.
Proof.
  intros [Hl Hn Hc] HW. split; [done|done|]. intros c Hin. destruct (Hc c Hin) as (r&?&?&?&?&?), (HW c Hin) as [-> ->]. eauto 10.
Qed.

(** Nothing but the contexts and the areas of the directories counts. *)
Lemma dirs_frame s s' l pl pl' W S :
  dirs s l pl W S → m_ctxs s' = m_ctxs s → pvMMUContextList s' = pvMMUContextList s →
  (∀ b c, c ∈ l → is_Some (m_mem s !! b) → pl b = PDof c → m_mem s' !! b = m_mem s !! b ∧ pl' b = pl b) →
  dirs s' l pl' W S.
Proof.
  intros [Hl Hn Hc] H1 H2 H3. split; [by rewrite H1, H2|done|]. intros c Hin.
  destruct (Hc c Hin) as (r&Hr&Hh&Hp&Hm&HS). exists r. rewrite H1.
  destruct (H3 _ c Hin ltac:(eauto) Hp) as [-> ->]. eauto 10.
Qed.

Lemma linked_frame m m' l p : (∀ c, c ∈ l → psNext <$> m' !! c = psNext <$> m !! c) → linked m p l → linked m' p l.
Proof.
  revert p. induction l as [|c l IH]; simpl; [done|]. intros p H (->&Hc&r&Hr&Hl). split; [done|]. split; [done|].
  specialize (H c ltac:(by left)) as Hn. rewrite Hr in Hn. apply fmap_Some in Hn as (r'&Hr'&Hn). exists r'.
  split; [done|]. rewrite <- Hn. apply IH; [|done]. intros c' Hc'. apply H. by right.
Qed.

Lemma linked_nonzero m l p c : linked m p l → c ∈ l → c ≠ 0 ∧ is_Some (m !! c).
Proof.
  revert p. induction l as [|c' l IH]; simpl; [by intros ? ? ?%elem_of_nil|].
  intros p (->&Hc&r&Hr&Hl) [->|Hin]%elem_of_cons; eauto.
Qed.
