(* ===== verification/MmuOps.v ===== *)
(** * The MMU: steps that keep the representation

    The memory the driver writes (directories, page tables, arrays of page
    tables), one lemma per primitive, each on [rep_w], the representation with
    the words of the directories as a parameter. *)

From S2P Require Import Prelude Mmu MmuRep.

(** ** Reads and writes *)

Section access.
Context {env : MmuEnv}.
Implicit Types (s : mmu_st) (a : tables) (G : ghost).

Lemma wp_rd_ctx {A} p (f : MMU_CONTEXT → A) c (Q : A → mmu_st → Prop) s :
  m_ctxs s !! p = Some c → Q (f c) s → wp (rd_ctx p f) Q s.
Proof. intros Hp HQ. unfold rd_ctx. wp_step. wp_step. wp_step. rewrite Hp. wp_step. by wp_step. Qed.
Lemma wp_rd_ctx_inv {A} p (f : MMU_CONTEXT → A) c (Q : A → mmu_st → Prop) s :
  m_ctxs s !! p = Some c → wp (rd_ctx p f) Q s → Q (f c) s.
Proof.
  intros Hp Hw. apply wp_Done in Hw as (x&s'&Hrun&HQ). unfold rd_ctx in Hrun.
  change (match deref (m_ctxs s !! p) s with Done c s' => Done (f c) s' | Fault => Fault | OutOfFuel => OutOfFuel end
    = Done x s') in Hrun. rewrite Hp in Hrun. by injection Hrun as <- <-.
Qed.
Lemma wp_rd_pt {A} p (f : MMU_PT_INFO → A) t (Q : A → mmu_st → Prop) s :
  m_pts s !! p = Some t → Q (f t) s → wp (rd_pt p f) Q s.
Proof. intros Hp HQ. unfold rd_pt. wp_step. wp_step. wp_step. rewrite Hp. wp_step. by wp_step. Qed.
Lemma wp_wr_pt p f t Q s :
  m_pts s !! p = Some t → Q tt (set_m_pts (<[p := f t]> (m_pts s)) s) → wp (wr_pt p f) Q s.
Proof. intros Hp HQ. unfold wr_pt. wp_step. wp_step. wp_step. rewrite Hp. wp_step. by wp_step. Qed.
Lemma wp_rd_heap {A} p (f : MMU_HEAP → A) h (Q : A → mmu_st → Prop) s :
  m_heaps s !! p = Some h → Q (f h) s → wp (rd_heap p f) Q s.
Proof. intros Hp HQ. unfold rd_heap. wp_step. wp_step. wp_step. rewrite Hp. wp_step. by wp_step. Qed.
Lemma wp_wr_heap p f h Q s :
  m_heaps s !! p = Some h → Q tt (set_m_heaps (<[p := f h]> (m_heaps s)) s) → wp (wr_heap p f) Q s.
Proof. intros Hp HQ. unfold wr_heap. wp_step. wp_step. wp_step. rewrite Hp. wp_step. by wp_step. Qed.

Lemma wp_rd_word p i ar v (Q : Z → mmu_st → Prop) s :
  m_mem s !! p = Some ar → 0 ≤ i → ar_words ar !! Z.to_nat i = Some v → Q v s → wp (rd_word p i) Q s.
Proof.
  intros Hp Hi Hv HQ. unfold rd_word. do 3 wp_step. rewrite Hp. wp_step.
  destruct (Z.ltb_spec i 0); [lia|]. by eapply wp_deref.
Qed.
Lemma wp_wr_word p i ar v (Q : unit → mmu_st → Prop) s :
  m_mem s !! p = Some ar → 0 ≤ i < Z.of_nat (length (ar_words ar)) →
  Q tt (set_m_mem (<[p := mkArea (ar_phys ar) (<[Z.to_nat i := v]> (ar_words ar))]> (m_mem s)) s) →
  wp (wr_word p i v) Q s.
Proof.
  intros Hp Hi HQ. unfold wr_word. wp_step.
  destruct (lookup_lt_is_Some_2 (ar_words ar) (Z.to_nat i)) as [w Hw]; [lia|].
  eapply wp_rd_word; [done|lia|done|]. do 3 wp_step. rewrite Hp. wp_step. by wp_step.
Qed.

Lemma wp_rd_slot c i r v (Q : Z → mmu_st → Prop) s :
  m_ctxs s !! c = Some r → 0 ≤ i → apsPTInfoList r !! Z.to_nat i = Some v → Q v s → wp (rd_slot c i) Q s.
Proof.
  intros Hc Hi Hv HQ. unfold rd_slot. wp_step. eapply wp_rd_ctx; [done|].
  destruct (Z.ltb_spec i 0); [lia|]. by eapply wp_deref.
Qed.

(** [n] words from [i] set to [v]. *)
Fixpoint fill (n : nat) (i v : Z) (ws : list Z) : list Z :=
  match n with O => ws | S n => fill n (i + 1) v (<[Z.to_nat i := v]> ws) end.

Lemma fill_length n i v ws : length (fill n i v ws) = length ws.
Proof. revert i ws. induction n as [|n IH]; intros i ws; simpl; [done|]. by rewrite IH, length_insert. Qed.

Lemma fill_lookup n i v ws j : 0 ≤ i → (j < length ws)%nat →
  fill n i v ws !! j = if decide (i ≤ Z.of_nat j < i + Z.of_nat n) then Some v else ws !! j.
Proof.
  revert i ws. induction n as [|n IH]; intros i ws Hi Hj; simpl.
  { destruct (decide _); [lia|done]. }
  rewrite IH by (rewrite ?length_insert; lia). destruct (decide (Z.of_nat j = i)) as [<-|Hne].
  - rewrite Nat2Z.id, list_lookup_insert_eq by done. repeat destruct (decide _); (lia || done).
  - rewrite list_lookup_insert_ne by lia. repeat destruct (decide _); (lia || done).
Qed.

Lemma fill_all v ws : fill (length ws) 0 v ws = replicate (length ws) v.
Proof.
  apply list_eq. intros j. destruct (decide (j < length ws)%nat) as [Hj|Hj].
  - rewrite fill_lookup, lookup_replicate_2 by lia. destruct (decide _); [done|lia].
  - rewrite !lookup_ge_None_2; [done|rewrite length_replicate; lia|rewrite fill_length; lia].
Qed.

Lemma wp_fill n p i v ar (Q : unit → mmu_st → Prop) s :
  m_mem s !! p = Some ar → 0 ≤ i → i + Z.of_nat n ≤ Z.of_nat (length (ar_words ar)) →
  (∀ s', s' = set_m_mem (m_mem s') s →
     m_mem s' = <[p := mkArea (ar_phys ar) (fill n i v (ar_words ar))]> (m_mem s) → Q tt s') →
  wp (for_from n i (λ j, wr_word p j v)) Q s.
Proof.
  revert i ar s. induction n as [|n IH]; intros i ar s Hp Hi Hn HQ; cbn [for_from].
  { wp_step. apply HQ; [by destruct s|]. simpl. rewrite insert_id; [done|]. rewrite Hp. by destruct ar. }
  wp_step. eapply wp_wr_word; [done|lia|].
  eapply IH; [simpl; by rewrite lookup_insert_eq|lia|simpl; rewrite length_insert; lia|].
  intros s' Hs' Hm. apply HQ; [exact Hs'|]. rewrite Hm. simpl. by rewrite insert_insert_eq.
Qed.
End access.

(** ** Directories *)

Section dirs.
Context {env : MmuEnv}.
Implicit Types (s : mmu_st) (a : tables) (G : ghost).

Lemma wp_rd_slot_dirs s l pl W S c i v (Q : Z → mmu_st → Prop) :
  dirs s l pl W S → c ∈ l → 0 ≤ i → S c !! Z.to_nat i = Some v → Q v s → wp (rd_slot c i) Q s.
Proof.
  intros Hd Hc Hi Hv HQ. destruct (d_ctx _ _ _ _ _ Hd c Hc) as (r&Hr&_&_&_&HS).
  eapply wp_rd_slot; [done|done| |done]. by rewrite HS.
Qed.

Lemma wp_wr_slot_dirs s l pl W S c i v (Q : unit → mmu_st → Prop) :
  dirs s l pl W S → c ∈ l → 0 ≤ i < Z.of_nat (length (S c)) →
  (∀ s', s' = set_m_ctxs (m_ctxs s') s → dom (m_ctxs s') = dom (m_ctxs s) →
     dirs s' l pl W (λ c', if decide (c' = c) then <[Z.to_nat i := v]> (S c) else S c') → Q tt s') →
  wp (wr_slot c i v) Q s.
Proof.
  intros [Hl Hn Hctx] Hc Hi HQ. destruct (Hctx c Hc) as (r&Hr&Hh&Hp&Hm&HS). unfold wr_slot.
  destruct (lookup_lt_is_Some_2 (S c) (Z.to_nat i)) as [w Hw]; [lia|].
  wp_step. eapply wp_rd_slot; [done|lia|by rewrite HS|]. unfold wr_ctx. do 3 wp_step. rewrite Hr. do 2 wp_step.
  apply HQ; [done| |].
  - simpl. apply dom_insert_lookup_L. by rewrite Hr.
  - split; simpl; [|done|].
    + eapply linked_frame; [|done]. intros c' _. destruct (decide (c' = c)) as [->|]; [|by rewrite lookup_insert_ne].
      by rewrite lookup_insert_eq, Hr.
    + intros c' Hc'. destruct (decide (c' = c)) as [->|Hne].
      * rewrite lookup_insert_eq. eexists. split; [done|]. simpl. by rewrite HS.
      * rewrite lookup_insert_ne by done. by apply Hctx.
Qed.

Lemma dirs_pd s l pl W S c : dirs s l pl W S → c ∈ l →
  ∃ r, m_ctxs s !! c = Some r ∧ hPDOSMemHandle r = pvPDCpuVAddr r ∧ pl (pvPDCpuVAddr r) = PDof c ∧
    m_mem s !! pvPDCpuVAddr r = Some (mkArea [sPDDevPAddr r] (W c)).
Proof. intros Hd Hc. destruct (d_ctx _ _ _ _ _ Hd c Hc) as (r&?&?&?&?&_). eauto 10. Qed.

(** What writing into directories leaves alone. *)
Definition pd_only s s' (l : list Z) (pl : Z → place) : Prop :=
  s' = set_m_mem (m_mem s') s ∧ phys s' = phys s ∧
  (∀ b, (∀ c, c ∈ l → pl b ≠ PDof c) → m_mem s' !! b = m_mem s !! b).

Lemma pd_only_refl s l pl : pd_only s s l pl.
Proof. split; [by destruct s|done]. Qed.
Lemma pd_only_trans s s' s'' l pl : pd_only s s' l pl → pd_only s' s'' l pl → pd_only s s'' l pl.
Proof.
  intros (Hs&Hp&Hm) (Hs'&Hp'&Hm'). split; [|split; [congruence|]].
  - rewrite Hs' at 1. rewrite Hs. simpl. by rewrite Hs' at 1.
  - intros b Hb. by rewrite Hm', Hm.
Qed.

Lemma wp_wr_pd s l pl W S c i v (Q : unit → mmu_st → Prop) :
  dirs s l pl W S → c ∈ l → 0 ≤ i < Z.of_nat (length (W c)) →
  (∀ s', pd_only s s' l pl →
     dirs s' l pl (λ c', if decide (c' = c) then <[Z.to_nat i := v]> (W c) else W c') S → Q tt s') →
  wp (pd ← rd_ctx c pvPDCpuVAddr; wr_word pd i v) Q s.
Proof.
  intros Hd Hc Hi HQ. destruct (d_ctx _ _ _ _ _ Hd c Hc) as (r&Hr&Hh&Hp&Hm&HS).
  wp_step. eapply wp_rd_ctx; [done|]. eapply wp_wr_word; [done|done|]. apply HQ.
  - split; [done|]. split.
    + unfold phys. simpl. rewrite fmap_insert. simpl. apply insert_id. by rewrite lookup_fmap, Hm.
    + intros b Hb. simpl. apply lookup_insert_ne. intros <-. by eapply Hb.
  - destruct Hd as [Hl Hn Hctx]. split; [done|done|]. intros c' Hc'.
    destruct (Hctx c' Hc') as (r'&Hr'&Hh'&Hp'&Hm'&HS'). exists r'. split_and!; try done. simpl.
    destruct (decide (c' = c)) as [->|Hne].
    + assert (r' = r) as -> by congruence. by rewrite lookup_insert_eq.
    + rewrite lookup_insert_ne; [done|]. intros He. rewrite He in Hp. congruence.
Qed.

(** Writing the same entry into all directories. *)
Lemma wp_each_pd fuel s l pl W S i v bef todo p (Q : unit → mmu_st → Prop) :
  l = bef ++ todo → linked (m_ctxs s) p todo → (length todo ≤ fuel)%nat →
  dirs s l pl (λ c, if decide (c ∈ bef) then <[Z.to_nat i := v]> (W c) else W c) S →
  (∀ c, c ∈ l → 0 ≤ i < Z.of_nat (length (W c))) →
  (∀ s', pd_only s s' l pl → dirs s' l pl (λ c, <[Z.to_nat i := v]> (W c)) S → Q tt s') →
  wp (each_context fuel p (λ c, pd ← rd_ctx c pvPDCpuVAddr; wr_word pd i v)) Q s.
Proof.
  revert s bef todo p. induction fuel as [|fuel IH]; intros s bef todo p Hl Hlk Hf Hd Hi HQ;
    (destruct todo as [|c todo]; [simpl in Hlk; subst p; simpl; wp_step; apply HQ; [apply pd_only_refl|];
       eapply dirs_ext; [done|]; intros c Hc; rewrite app_nil_r in Hl; subst; by rewrite decide_True|]);
    [simpl in Hf; lia|].
  destruct Hlk as (->&Hc0&r&Hr&Hlk). cbn [each_context]. unfold IMG_NULL. destruct (Z.eqb_spec c 0); [done|].
  pose proof (d_nodup _ _ _ _ _ Hd) as Hnd. assert (c ∈ l) as Hc by (rewrite Hl; set_solver).
  assert (c ∉ bef) as Hcd by (rewrite Hl, NoDup_app in Hnd; set_solver).
  wp_step. eapply wp_wr_pd; [done|done| |].
  { cbn beta. rewrite decide_False by done. by apply Hi. }
  intros s1 Hs1 Hd1. pose proof Hs1 as (He1&_). assert (m_ctxs s1 = m_ctxs s) as Hc1 by by rewrite He1.
  wp_step. eapply wp_rd_ctx; [by rewrite Hc1|].
  apply (IH s1 (bef ++ [c]) todo); [by rewrite <- app_assoc|by rewrite Hc1|simpl in Hf; lia| |done|].
  - eapply dirs_ext; [exact Hd1|]. intros c' _. split; [|done]. rewrite (decide_False (P:=c ∈ bef)) by done.
    destruct (decide (c' = c)) as [->|Hne].
    + rewrite decide_True by set_solver. done.
    + destruct (decide (c' ∈ bef)); [rewrite decide_True by set_solver|rewrite decide_False by set_solver]; done.
  - intros s2 Hs2 Hd2. apply HQ; [by eapply pd_only_trans|done].
Qed.

Lemma linked_length (m : gmap Z MMU_CONTEXT) p l : linked m p l → NoDup l → (length l ≤ size m)%nat.
Proof. intros Hl Hn. apply NoDup_keys_length; [done|]. intros c Hc. by eapply linked_nonzero. Qed.

(** Who sees the page tables of a heap. *)
Definition sees (h : MMU_HEAP) (c : Z) : bool := shared_heap h || (c =? psMMUContext h).

Lemma wp_set_heap_pde s l pl W S h i v (Q : bool → mmu_st → Prop) :
  dirs s l pl W S → psMMUContext h ∈ l → known_heap h = true →
  (∀ c, c ∈ l → 0 ≤ i < Z.of_nat (length (W c))) →
  (∀ s', pd_only s s' l pl → dirs s' l pl (λ c, if sees h c then <[Z.to_nat i := v]> (W c) else W c) S → Q true s') →
  wp (set_heap_pde h i v) Q s.
Proof.
  intros Hd Hc Hk Hi HQ. unfold set_heap_pde. unfold known_heap in Hk.
  assert (∀ Q' : unit → mmu_st → Prop, shared_heap h = true → (∀ s', pd_only s s' l pl →
    dirs s' l pl (λ c, if sees h c then <[Z.to_nat i := v]> (W c) else W c) S → Q' tt s') →
    wp (each_context (Datatypes.S (size (m_ctxs s))) (pvMMUContextList s)
      (λ c, pd ← rd_ctx c pvPDCpuVAddr; wr_word pd i v)) Q' s) as Hsh.
  { intros Q' Hs HQ'. eapply (wp_each_pd _ s l pl W S i v [] l); [done|apply Hd| | |done|].
    - pose proof (linked_length _ _ _ (d_linked _ _ _ _ _ Hd) (d_nodup _ _ _ _ _ Hd)). lia.
    - eapply dirs_ext; [done|]. intros c _. rewrite decide_False by apply not_elem_of_nil. done.
    - intros s' Hs' Hd'. apply HQ'; [done|]. eapply dirs_ext; [done|]. intros c _. unfold sees. by rewrite Hs. }
  assert (∀ Q' : unit → mmu_st → Prop, shared_heap h = false → (∀ s', pd_only s s' l pl →
    dirs s' l pl (λ c, if sees h c then <[Z.to_nat i := v]> (W c) else W c) S → Q' tt s') →
    wp (pd ← rd_ctx (psMMUContext h) pvPDCpuVAddr; wr_word pd i v) Q' s) as Hpc.
  { intros Q' Hs HQ'. eapply wp_wr_pd; [done|done|by apply Hi|]. intros s' Hs' Hd'. apply HQ'; [done|].
    eapply dirs_ext; [done|]. intros c _. unfold sees. rewrite Hs. cbn [orb].
    destruct (Z.eqb_spec c (psMMUContext h)) as [->|]; [by rewrite decide_True|by rewrite decide_False]. }
  destruct (DevMemHeapType (psDevArena h)) eqn:Ht; [| | | |done];
    unfold shared_heap in Hsh, Hpc; rewrite Ht in Hsh, Hpc.
  1,2: apply (wp_bind_assoc _ (λ pd, wr_word pd i v)); wp_step; apply Hpc; [done|]; intros s' Hs' Hd'; wp_step; by apply HQ.
  1,2: wp_step; wp_step; wp_step; apply Hsh; [done|]; intros s' Hs' Hd'; wp_step; by apply HQ.
Qed.
End dirs.

(** ** Pages *)

Section pages.
Context {env : MmuEnv} {law : MmuLaw env}.
Implicit Types (s : mmu_st) (a : tables) (G : ghost).

Lemma choose_pages_spec k t X ps : choose_pages k t X = Some ps →
  length ps = k ∧ ∀ p, p ∈ ps → p ∉ X ∧ 0 < p < 4294967296 ∧ p mod 4096 = 0.
Proof.
  revert t X ps. induction k as [|k IH]; intros t X ps; simpl; [intros [= <-]; split; [done|]; by intros p ?%elem_of_nil|].
  intros (p&Hp&(ps'&Hps&[= <-])%bind_Some)%bind_Some. destruct (IH _ _ _ Hps) as [<- Hin]. split; [done|].
  intros q [->|Hq]%elem_of_cons; [by eapply page_law|]. destruct (Hin q Hq) as (Hx&?). set_solver.
Qed.

Lemma in_use s phi : phi ∈ pages_in_use s ↔ ∃ b l, phys s !! b = Some l ∧ phi ∈ l.
Proof.
  unfold pages_in_use, phys. rewrite elem_of_list_to_set, list_elem_of_concat.
  setoid_rewrite list_lookup_fmap. split.
  - intros (j&l&Hj&Hin). apply fmap_Some in Hj as ([b ar]&Hj&->). apply list_elem_of_lookup_2, elem_of_map_to_list in Hj.
    exists b, (ar_phys ar). by rewrite lookup_fmap, Hj.
  - intros (b&l&Hb&Hin). rewrite lookup_fmap in Hb. apply fmap_Some in Hb as (ar&Hb&->).
    apply elem_of_map_to_list, list_elem_of_lookup_1 in Hb as [j Hj]. exists j, (ar_phys ar). by rewrite Hj.
Qed.

Lemma held_insert m b l : m !! b = None → held (<[b := l]> m) = (length l + held m)%nat.
Proof. intros Hb. unfold held. rewrite (map_fold_insert_L (λ _ l n, (length l + n)%nat) 0%nat b l m); [done| |done]. intros. lia. Qed.
Lemma held_delete m b l : m !! b = Some l → held m = (length l + held (delete b m))%nat.
Proof. intros Hb. rewrite <- (held_insert (delete b m) b l) by apply lookup_delete_eq. by rewrite insert_delete_id. Qed.

Lemma size_union_le (X Y : gset Z) : (size (X ∪ Y) ≤ size X + size Y)%nat.
Proof. rewrite size_union_alt. pose proof (subseteq_size (Y ∖ X) Y ltac:(set_solver)). lia. Qed.
Lemma size_list_le (l : list Z) : (size (list_to_set l : gset Z) ≤ length l)%nat.
Proof.
  induction l as [|x l IH]; [done|]. cbn [list_to_set length]. pose proof (size_union_le {[x]} (list_to_set l)) as Hs.
  rewrite size_singleton in Hs. lia.
Qed.

Lemma in_use_held s : (size (pages_in_use s) ≤ held (phys s))%nat.
Proof.
  assert (∀ m, size (pages_in_use (set_m_mem m s)) ≤ held (ar_phys <$> m))%nat as Hm; [|specialize (Hm (m_mem s)); by destruct s].
  intros m. induction m as [|b ar m Hb IH] using map_ind.
  { assert (pages_in_use (set_m_mem ∅ s) = ∅) as ->; [|rewrite size_empty; lia].
    apply elem_of_equiv_empty_L. intros x (b&l&Hl&_)%in_use. done. }
  rewrite fmap_insert, held_insert by by rewrite lookup_fmap, Hb.
  assert (pages_in_use (set_m_mem (<[b := ar]> m) s) ⊆ list_to_set (ar_phys ar) ∪ pages_in_use (set_m_mem m s)) as Hsub.
  { intros x (b'&l&Hl&Hx)%in_use. unfold phys in Hl. cbn [m_mem set_m_mem] in Hl. rewrite fmap_insert in Hl.
    apply lookup_insert_Some in Hl as [[<- <-]|[_ Hl]]; apply elem_of_union.
    - left. by apply elem_of_list_to_set.
    - right. apply in_use. eauto. }
  apply subseteq_size in Hsub. pose proof (size_union_le (list_to_set (ar_phys ar)) (pages_in_use (set_m_mem m s))).
  pose proof (size_list_le (ar_phys ar)). lia.
Qed.

Lemma mem_ok_insert n next m ps : 0 < next →
  mem_ok n next m → (∀ p, p ∈ ps → (∀ b l, m !! b = Some l → p ∉ l) ∧ 0 < p < 4294967296 ∧ p mod 4096 = 0) →
  m !! next = None ∧ mem_ok (length ps + n) (next + 1) (<[next := ps]> m).
Proof.
  intros Hnx [Hi Hp Hf Hs] Hps. assert (m !! next = None) as Hn.
  { apply eq_None_not_Some. intros ?%Hf. lia. }
  split; [done|]. split.
  - intros b b' l l' phi [[<- <-]|[_ Hb]]%lookup_insert_Some [[<- <-]|[_ Hb']]%lookup_insert_Some Hl Hl'; [done|..].
    + by destruct (proj1 (Hps _ Hl) _ _ Hb').
    + by destruct (proj1 (Hps _ Hl') _ _ Hb).
    + by eapply Hi.
  - intros b l phi [[<- <-]|[_ Hb]]%lookup_insert_Some Hl; [by apply Hps|by eapply Hp].
  - intros b [l [[<- _]|[_ Hb]]%lookup_insert_Some]; [lia|]. specialize (Hf b ltac:(eauto)). lia.
  - rewrite held_insert by done. lia.
Qed.

Lemma mem_ok_delete n next m b l : mem_ok (length l + n) next m → m !! b = Some l → mem_ok n next (delete b m).
Proof.
  intros [Hi Hp Hf Hs] Hb. split.
  - intros ????? [_ ?]%lookup_delete_Some [_ ?]%lookup_delete_Some. by eapply Hi.
  - intros ??? [_ ?]%lookup_delete_Some. by eapply Hp.
  - intros ? [? ?]%lookup_delete_is_Some. eauto.
  - rewrite (held_delete _ _ _ Hb) in Hs. lia.
Qed.

Lemma mem_ok_next n next next' m : mem_ok n next m → next ≤ next' → mem_ok n next' m.
Proof. intros [Hi Hp Hf Hs] Hn. split; [done..| |done]. intros b Hb. specialize (Hf b Hb). lia. Qed.

Lemma wp_fresh Q s : Q (m_next s) (set_m_next (m_next s + 1) s) → wp fresh Q s.
Proof. intros HQ. unfold fresh. by repeat wp_step. Qed.

(** The kernel has [N] pages for the driver. *)
Definition supply (N : nat) : Prop := ∀ t X, (size X < N)%nat → is_Some (page_choice t X).

Lemma choose_pages_some N k t X : supply N → (size X + k ≤ N)%nat → is_Some (choose_pages k t X).
Proof.
  intros Hp. revert t X. induction k as [|k IH]; intros t X Hk; simpl; [by eexists|].
  destruct (Hp t X) as [p ->]; [lia|]. simpl. destruct (IH (t + 1) ({[p]} ∪ X)) as [ps ->]; [|by eexists].
  pose proof (size_union_le {[p]} X) as Hs. rewrite size_singleton in Hs. lia.
Qed.

Lemma wp_OSAllocPages sz n (Q : option (Z * Z) → mmu_st → Prop) s :
  mem_ok n (m_next s) (phys s) → 0 < m_next s →
  (¬ supply (Z.to_nat (sz / 4096) + n) → Q None s) →
  (∀ ps s', length ps = Z.to_nat (sz / 4096) → m_mem s !! m_next s = None →
     s' = set_m_mem (<[m_next s := mkArea ps (replicate (Z.to_nat (sz / 4)) 0)]> (m_mem s)) (set_m_next (m_next s + 1) s) →
     mem_ok (length ps + n) (m_next s') (phys s') → Q (Some (m_next s, m_next s)) s') →
  wp (OSAllocPages sz) Q s.
Proof.
  intros Hok Hn H0 H1. unfold OSAllocPages. change SGX_MMU_PAGE_SIZE with 4096. wp_step. wp_step.
  destruct (choose_pages _ _ _) as [ps|] eqn:Hps.
  2:{ wp_step. apply H0. intros Hp. destruct (choose_pages_some _ (Z.to_nat (sz / 4096)) (m_next s) (pages_in_use s) Hp); [|congruence].
      pose proof (in_use_held s). pose proof (mo_size _ _ _ Hok). lia. }
  apply choose_pages_spec in Hps as [Hlen Hps]. wp_step. apply wp_fresh. wp_step. wp_step. wp_step.
  destruct (mem_ok_insert n (m_next s) (phys s) ps Hn Hok) as [Hnone Hok'].
  { intros p Hp. destruct (Hps p Hp) as [Hx ?]. split; [|done]. intros b l Hb Hl. apply Hx, in_use. eauto. }
  apply H1 with ps; [done| |done|].
  - unfold phys in Hnone. rewrite lookup_fmap in Hnone. by destruct (m_mem s !! m_next s).
  - simpl. unfold phys. simpl. rewrite fmap_insert. done.
Qed.

Lemma wp_OSFreePages p h ar (Q : unit → mmu_st → Prop) s :
  m_mem s !! h = Some ar → Q tt (set_m_mem (delete h (m_mem s)) s) → wp (OSFreePages p h) Q s.
Proof. intros Hh HQ. unfold OSFreePages. do 3 wp_step. rewrite Hh. wp_step. by wp_step. Qed.

(** The physical address of the first page of an area. *)
Lemma wp_first_page p h phi ps ws (Q : Z → mmu_st → Prop) s :
  m_mem s !! h = Some (mkArea (phi :: ps) ws) → p = h → p ≠ 0 → Q phi s →
  wp (if negb (p =? IMG_NULL) then OSMapLinToCPUPhys h p else OSMemHandleToCpuPAddr h 0) Q s.
Proof.
  intros Hh -> Hp HQ. unfold IMG_NULL. destruct (Z.eqb_spec h 0); [done|]. cbn [negb].
  unfold OSMapLinToCPUPhys, OSMemHandleToCpuPAddr. rewrite Z.sub_diag. do 3 wp_step. rewrite Hh. wp_step. cbn -[Z.div].
  change (0 / SGX_MMU_PAGE_SIZE) with 0. simpl. wp_step. wp_step. wp_step. change (0 mod SGX_MMU_PAGE_SIZE) with 0.
  by rewrite Z.add_0_r.
Qed.

Lemma wp_OSAlloc_mmu (Q : bool → mmu_st → Prop) s :
  (∀ b o', os_live o' = os_live (m_os s) + (if b : bool then 1 else 0) →
     (plenty (m_os s) → b = true ∧ plenty o') → Q b (set_m_os o' s)) → wp (with_m_os OSAllocMem) Q s.
Proof. intros HQ. unfold with_m_os. wp_step. apply wp_OSAllocMem. intros. by apply HQ. Qed.
End pages.
