(* ===== verification/MmuTab.v ===== *)
(** * The MMU: making and freeing page tables

    The routines of mmu.c that change which page tables there are, on [rep]:
    a page table gets its [MMU_PT_INFO], its page and its directory entries,
    and loses them again. *)

From stdpp Require Import functions.
From S2P Require Import Prelude Mmu MmuRep MmuOps.

(** A heap but for [ui32PTETotalUsable], which only goes down. *)
Definition strip (h : MMU_HEAP) : MMU_HEAP := set_PTETotalUsable 0 h.

(** What the routines on page tables leave alone. *)
Record keep (s s' : mmu_st) : Prop := {
  kp_heaps : strip <$> m_heaps s' = strip <$> m_heaps s;
  kp_os : plenty (m_os s) → plenty (m_os s')
}.

Lemma keep_refl s : keep s s.
Proof. by split. Qed.
Lemma keep_trans s s' s'' : keep s s' → keep s' s'' → keep s s''.
Proof. intros [H1 H2] [H3 H4]. split; [congruence|auto]. Qed.
Lemma keep_same s s' : m_heaps s' = m_heaps s → m_os s' = m_os s → keep s s'.
Proof. intros H1 H2. split; [by rewrite H1|by rewrite H2]. Qed.

Lemma keep_heap s s' p h : keep s s' → m_heaps s !! p = Some h →
  ∃ v, m_heaps s' !! p = Some (set_PTETotalUsable v h).
Proof.
  intros [Hk _] Hp. assert ((strip <$> m_heaps s') !! p = Some (strip h)) as H by (rewrite Hk, lookup_fmap, Hp; done).
  rewrite lookup_fmap in H. apply fmap_Some in H as (h'&Hh'&He). exists (ui32PTETotalUsable h'). rewrite Hh'. f_equal.
  apply (f_equal (set_PTETotalUsable (ui32PTETotalUsable h'))) in He. trans (set_PTETotalUsable (ui32PTETotalUsable h') (strip h')).
  { clear. by destruct h'. }
  exact (eq_sym He).
Qed.

Lemma keep_size s s' : keep s s' → size (m_heaps s') = size (m_heaps s).
Proof. intros [Hk _]. by rewrite <- (map_size_fmap strip (m_heaps s')), Hk, map_size_fmap. Qed.

Lemma strip_some (m m' : gmap Z MMU_HEAP) q : strip <$> m' = strip <$> m → is_Some (m' !! q) → is_Some (m !! q).
Proof.
  intros Hst Hq. assert (is_Some ((strip <$> m) !! q)) as Hq' by by rewrite <- Hst, lookup_fmap, fmap_is_Some.
  by rewrite lookup_fmap, fmap_is_Some in Hq'.
Qed.
Lemma strip_size (m m' : gmap Z MMU_HEAP) : strip <$> m' = strip <$> m → size m' = size m.
Proof. intros Hst. by rewrite <- (map_size_fmap strip m'), Hst, map_size_fmap. Qed.

Lemma heap_ok_total a h v : is_u32 v → heap_ok a h → heap_ok a (set_PTETotalUsable v h).
Proof. intros Hv []. by split. Qed.

Lemma heap_ok_tables a a' h : t_list a' = t_list a → t_owner a' = t_owner a → heap_ok a h → heap_ok a' h.
Proof. intros H1 H2 []. split; rewrite ?H1, ?H2; done. Qed.

Section tab.
Context {env : MmuEnv} {law : MmuLaw env}.
Implicit Types (s : mmu_st) (a : tables) (G : ghost).

Lemma tab_ok_frame s s' G G' x t g :
  tab_ok s G x t g →
  (∀ p b phi, g = Some (p, b, phi) → m_pts s' !! p = m_pts s !! p ∧ g_info G' p = g_info G p ∧
     (b ≠ 0 → g_place G b = PTof x → m_mem s' !! b = m_mem s !! b ∧ g_place G' b = g_place G b)) →
  tab_ok s' G' x t g.
Proof.
  destruct t as [[ws|]|], g as [[[p b] phi]|]; simpl; try done; intros H Hf; destruct (Hf _ _ _ eq_refl) as (->&->&Hm).
  - destruct H as (?&?&Hb&Hpl&?&?&?). destruct (Hm Hb Hpl) as [-> ->]. done.
  - done.
Qed.

(** The page table of [x] is the only one at its addresses. *)
Lemma tab_info s G x t p b phi : tab_ok s G x t (Some (p, b, phi)) → p ≠ 0 ∧ g_info G p = x ∧ is_Some (m_pts s !! p).
Proof. destruct t as [[ws|]|]; simpl; [|..]; naive_solver. Qed.

Lemma rep_slots_length G c : Z.of_nat (length (slots G c)) = 1024.
Proof. unfold slots. by rewrite table_length. Qed.

Lemma pd_words_length a G c : Z.of_nat (length (pd_words a G c)) = 1024.
Proof. unfold pd_words. by rewrite table_length. Qed.

(** The slots after a change to one page table. *)
Lemma dirs_slots s l pl W G G' c i v : 0 ≤ i < 1024 →
  (∀ y, y ≠ (c, i) → g_tab G' !! y = g_tab G !! y) → slot_of (g_tab G' !! (c, i)) = v →
  dirs s l pl W (λ c', if decide (c' = c) then <[Z.to_nat i := v]> (slots G c) else slots G c') →
  dirs s l pl W (slots G').
Proof.
  intros Hi HT Hv Hd. eapply dirs_ext; [exact Hd|]. intros c' _. split; [done|]. cbn beta.
  destruct (decide (c' = c)) as [->|Hne]; unfold slots.
  - symmetry. apply table_insert; [done|done|]. intros j Hj Hne. rewrite HT; [done|congruence].
  - apply table_ext. intros j Hj. rewrite HT; [done|congruence].
Qed.

Lemma slot_lookup s G x t g : tab_ok s G x t g → slot_of g = 0 ↔ t = None.
Proof. destruct t as [[ws|]|], g as [[[p b] phi]|]; simpl; naive_solver. Qed.

Lemma rw_fresh_none k n s a G W : rep_w k n s a G W →
  m_pts s !! m_next s = None ∧ m_ctxs s !! m_next s = None ∧ m_heaps s !! m_next s = None ∧ m_mem s !! m_next s = None.
Proof.
  intros Hr. assert (∀ p, p = m_next s → ¬ 0 < p < m_next s) as Hn by (intros; lia).
  split_and!; apply eq_None_not_Some; intros H; apply (Hn _ eq_refl).
  1-3: apply (r_fresh _ _ _ _ _ _ Hr); tauto.
  apply (mo_fresh _ _ _ (r_mem _ _ _ _ _ _ Hr)). unfold phys. by rewrite lookup_fmap, fmap_is_Some.
Qed.

(** A page table gets its [MMU_PT_INFO]. *)
Lemma wp_new_info k n s a G W c i (Q : Z → mmu_st → Prop) :
  rep_w k n s a G W → t_pt a !! (c, i) = None → c ∈ t_list a → 0 ≤ i < 1024 → owner a c i = c →
  (∀ s', rep_w k n s' a G W → keep s s' → m_heaps s' = m_heaps s → ¬ plenty (m_os s) → Q IMG_NULL s') →
  (∀ s' p G', p ≠ 0 → g_tab G' = <[(c, i) := (p, 0, 0)]> (g_tab G) → keep s s' → m_heaps s' = m_heaps s →
     rep_w k n s' (set_pt (<[(c, i) := None]> (t_pt a)) a) G' W → Q p s') →
  wp (ok ← with_m_os OSAllocMem;
      if negb ok then mret IMG_NULL
      else
        p ← fresh;
        modify (λ s, set_m_pts (<[p := mkPT 0 0 0]> (m_pts s)) s);;
        wr_slot c i p;;
        mret p) Q s.
Proof.
  intros Hr Hx Hc Hi Ho H0 H1. pose proof (r_next _ _ _ _ _ _ Hr) as Hnx.
  destruct (rw_fresh_none _ _ _ _ _ _ Hr) as (Hfp&Hfc&Hfh&Hfm).
  wp_step. apply wp_OSAlloc_mmu. intros [] o' Ho' Hpl; cbn [negb].
  2:{ wp_step. apply H0; [|by split; [|naive_solver]|done|naive_solver]. destruct Hr as [r1 r2 r3 r4 r5 r6 r7 r8 r9]. split; [|done..|simpl; lia].
      eapply dirs_frame; [done..|]. done. }
  wp_step. apply wp_fresh. wp_step. wp_step. simpl m_next in *.
  pose proof (r_tab _ _ _ _ _ _ Hr (c, i)) as Htab. rewrite Hx in Htab.
  assert (g_tab G !! (c, i) = None) as Hg by (destruct (g_tab G !! (c, i)); [done|done]).
  set (T := <[(c, i) := (m_next s, 0, 0)]> (g_tab G)).
  set (G' := mkGhost T (g_place G) (<[m_next s := (c, i)]> (g_info G))).
  wp_step. eapply (wp_wr_slot_dirs _ (t_list a) (g_place G) W (slots G) c i); [|done|by rewrite rep_slots_length|].
  { eapply dirs_frame; [apply Hr|done..]. }
  intros s1 Hs1 Hdom Hd. wp_step. assert (m_next s ≠ 0) as Hne by lia.
  apply (H1 s1 (m_next s) G'); [done|done| |by rewrite Hs1|].
  { rewrite Hs1. by split; [|simpl; naive_solver]. }
  rewrite Hs1 in *. simpl in *. destruct Hr as [r1 r2 r3 r4 r5 r6 r7 r8 r9]. split; simpl.
  - eapply (dirs_slots _ _ _ _ G G'); [done| | |exact Hd]; simpl.
    + intros y Hy. unfold T. by rewrite lookup_insert_ne.
    + unfold T. by rewrite lookup_insert_eq.
  - intros y. unfold T. destruct (decide (y = (c, i))) as [->|Hy].
    + rewrite !lookup_insert_eq. simpl. split_and!; [done|apply fn_lookup_insert|done|apply lookup_insert_eq].
    + rewrite !lookup_insert_ne by done. eapply tab_ok_frame; [apply r2|]. intros p b phi Hp. simpl.
      specialize (r2 y). rewrite Hp in r2. destruct (tab_info _ _ _ _ _ _ _ r2) as (_&_&[t Ht]).
      assert (p ≠ m_next s) by congruence. by rewrite lookup_insert_ne, fn_lookup_insert_ne by done.
  - intros c' i' Hin. destruct (decide ((c', i') = (c, i))) as [[= -> ->]|Hy]; [done|].
    rewrite lookup_insert_ne in Hin by done. by apply r3.
  - done.
  - unfold areas in *. simpl. rewrite omap_insert_None; [|done]. rewrite delete_id; [|by rewrite lookup_omap, Hx].
    eapply mem_ok_next; [exact r5|lia].
  - lia.
  - intros p. rewrite <- (elem_of_dom (m_ctxs s1)), Hdom, elem_of_dom, lookup_insert_is_Some. intros Hp.
    destruct (decide (m_next s = p)) as [<-|]; [lia|].
    enough (0 < p < m_next s) by lia. apply r7. naive_solver.
  - intros p h Hp. by eapply heap_ok_tables, r8.
  - unfold blocks in *. simpl. rewrite map_size_insert_None by done. lia.
Qed.

(** A page table gets its page. *)
Lemma wp_give_page k n s a G W heap h c i p phi0 (Q : option Z → mmu_st → Prop) :
  rep_w k n s a G W → m_heaps s !! heap = Some h → t_pt a !! (c, i) = Some None →
  g_tab G !! (c, i) = Some (p, 0, phi0) →
  (¬ supply (S (n + areas a)) → Q None s) →
  (∀ s' b phi G', b ≠ 0 → 0 < phi < 4294967296 → phi mod 4096 = 0 →
     g_tab G' = <[(c, i) := (p, b, phi)]> (g_tab G) → m_heaps s' = m_heaps s → m_os s' = m_os s →
     rep_w k n s' (set_pt (<[(c, i) := Some zeros]> (t_pt a)) a) G' W → Q (Some phi) s') →
  wp (_AllocPageTableMemory heap p) Q s.
Proof.
  intros Hr Hh Hx Hg H0 H1. pose proof (r_next _ _ _ _ _ _ Hr) as Hnx.
  destruct (rw_fresh_none _ _ _ _ _ _ Hr) as (Hfp&Hfc&Hfh&Hfm).
  pose proof (r_tab _ _ _ _ _ _ Hr (c, i)) as Htab. rewrite Hx, Hg in Htab. destruct Htab as (Hp0&Hinf&_&Hpt).
  pose proof (r_heap _ _ _ _ _ _ Hr _ _ Hh) as Hok.
  unfold _AllocPageTableMemory. wp_step. eapply wp_rd_heap; [done|]. unfold id. rewrite (ho_ptsize _ _ Hok). wp_step.
  eapply wp_OSAllocPages; [apply Hr|done| |].
  { intros Hpl. wp_step. by apply H0. }
  intros ps s1 Hlen _ Hs1 Hmem. change (Z.to_nat (4096 / 4096)) with 1%nat in Hlen.
  change (replicate (Z.to_nat (4096 / 4)) 0) with zeros in *. change (Z.to_nat (4096 / 4)) with 1024%nat. destruct ps as [|phi [|]]; try done. clear Hlen.
  assert (m_mem s1 !! m_next s = Some (mkArea [phi] zeros)) as Hl1.
  { rewrite Hs1. apply lookup_insert_eq. }
  wp_step. eapply wp_wr_pt; [by rewrite Hs1|]. wp_step.
  eapply wp_rd_pt; [simpl; apply lookup_insert_eq|]. unfold id. cbn [hPTPageOSMemHandle PTPageCpuVAddr].
  wp_step. eapply wp_first_page; [exact Hl1|done|lia|].
  wp_step. eapply wp_fill; [exact Hl1|done|cbn [ar_words]; by rewrite zeros_length|].
  cbn [ar_words ar_phys]. intros s2 Hs2 Hm2. wp_step.
  pose proof (fill_all 0 zeros) as Hfill. rewrite zeros_length in Hfill.
  rewrite Hfill in Hm2. change (replicate 1024 0) with zeros in Hm2. clear Hfill.
  set (G' := mkGhost (<[(c, i) := (p, m_next s, phi)]> (g_tab G)) (<[m_next s := PTof (c, i)]> (g_place G)) (g_info G)).
  assert (m_mem s2 = <[m_next s := mkArea [phi] zeros]> (m_mem s)) as Hm.
  { rewrite Hm2. cbn [m_mem set_m_pts]. rewrite Hs1. cbn [m_mem set_m_mem]. by rewrite insert_insert_eq. }
  assert (phys s2 = phys s1) as Hph.
  { unfold phys. rewrite Hm, Hs1. simpl. by rewrite !fmap_insert. }
  destruct (mo_page _ _ _ Hmem (m_next s) [phi] phi) as [Hphi Hphi'].
  { rewrite Hs1. unfold phys. simpl. by rewrite fmap_insert, lookup_insert_eq. }
  { by left. }
  unfold SysCpuPAddrToDevPAddr. apply (H1 s2 (m_next s) phi G'); [lia|done|done|done| | |].
  { by rewrite Hs2, Hs1. }
  { by rewrite Hs2, Hs1. }
  assert (s2 = set_m_mem (m_mem s2) (set_m_pts (<[p := mkPT (m_next s) (m_next s) 0]> (m_pts s)) (set_m_next (m_next s + 1) s))) as Hs.
  { rewrite Hs2 at 1. by rewrite Hs1. }
  destruct Hr as [r1 r2 r3 r4 r5 r6 r7 r8 r9]. split.
  - eapply (dirs_slots _ _ _ _ G G' c i p).
    + destruct (r3 c i) as (_&?&_); [by rewrite Hx|done].
    + intros y Hy. simpl. by rewrite lookup_insert_ne.
    + simpl. by rewrite lookup_insert_eq.
    + eapply dirs_ext; [eapply dirs_frame; [exact r1|by rewrite Hs..|]|].
      * intros b c' _ Hb Hpl. rewrite Hm. simpl. assert (m_next s ≠ b) by (intros <-; rewrite Hfm in Hb; by destruct Hb).
        by rewrite lookup_insert_ne, fn_lookup_insert_ne.
      * intros c' _. split; [done|]. destruct (decide (c' = c)) as [->|]; [|done]. unfold slots.
        apply table_insert; [destruct (r3 c i) as (_&?&_); [by rewrite Hx|done]|by rewrite Hg|done].
  - intros y. destruct (decide (y = (c, i))) as [->|Hy].
    + simpl. rewrite !lookup_insert_eq. simpl. rewrite Hm, Hs, zeros_count. simpl.
      split_and!; [done|done|lia|apply fn_lookup_insert|apply lookup_insert_eq|apply lookup_insert_eq|apply sound_zeros].
    + simpl. rewrite !lookup_insert_ne by done. eapply tab_ok_frame; [apply r2|]. intros q b phi' Hq.
      specialize (r2 y). rewrite Hq in r2. destruct (tab_info _ _ _ _ _ _ _ r2) as (_&Hqi&_).
      assert (p ≠ q) by (intros ->; congruence). rewrite Hm, Hs. simpl. split_and!; [by rewrite lookup_insert_ne|done|].
      intros Hb Hpl. destruct (t_pt a !! y) as [[ws|]|]; simpl in r2; [|naive_solver|done].
      destruct r2 as (_&_&_&_&_&Hmb&_). assert (m_next s ≠ b) by (intros <-; congruence).
      by rewrite lookup_insert_ne, fn_lookup_insert_ne.
  - intros c' i' Hin. simpl in *. destruct (decide ((c', i') = (c, i))) as [[= -> ->]|Hy].
    + apply r3. by rewrite Hx.
    + rewrite lookup_insert_ne in Hin by done. by apply r3.
  - done.
  - rewrite Hph. replace (m_next s2) with (m_next s1) by by rewrite Hs, Hs1.
    unfold areas in *. simpl. erewrite omap_insert_Some by done. rewrite map_size_insert_None; [|by rewrite lookup_omap, Hx].
    by replace (n + (length (t_list a) + S (size (omap id (t_pt a)))))%nat
      with (S (n + (length (t_list a) + size (omap id (t_pt a))))) by lia.
  - rewrite Hs. simpl. lia.
  - intros q. rewrite Hs. simpl. rewrite lookup_insert_is_Some. intros Hq. enough (0 < q < m_next s) by lia. apply r7.
    destruct Hq as [[<-|[_ ?]]|?]; eauto.
  - rewrite Hs. intros q h' Hq. by eapply heap_ok_tables, r8.
  - rewrite Hs. unfold blocks in *. simpl. rewrite map_size_insert, Hx. simpl. lia.
Qed.

(** ** Directory entries *)

Lemma rw_pd_only k n s s' a G W W' :
  rep_w k n s a G W → pd_only s s' (t_list a) (g_place G) → dirs s' (t_list a) (g_place G) W' (slots G) →
  rep_w k n s' a G W'.
Proof.
  intros [r1 r2 r3 r4 r5 r6 r7 r8 r9] (Hs&Hph&Hmem) Hd.
  split; rewrite ?Hph; [exact Hd| |done|done|rewrite Hs; done..].
  intros x. eapply tab_ok_frame; [apply r2|]. intros p b phi Hp. rewrite Hs at 1. split_and!; [done|done|].
  intros Hb Hpl. split; [|done]. apply Hmem. intros c _. by rewrite Hpl.
Qed.

Lemma wp_rep_pde k n s a G W h i v (Q : bool → mmu_st → Prop) :
  rep_w k n s a G W → heap_ok a h → (∀ c, c ∈ t_list a → Z.of_nat (length (W c)) = 1024) → 0 ≤ i < 1024 →
  (∀ s', rep_w k n s' a G (λ c, if sees h c then <[Z.to_nat i := v]> (W c) else W c) →
     m_heaps s' = m_heaps s → m_os s' = m_os s → Q true s') →
  wp (set_heap_pde h i v) Q s.
Proof.
  intros Hr Hh HW Hi HQ. eapply wp_set_heap_pde; [apply Hr|apply Hh|apply Hh| |].
  { intros c Hc. by rewrite HW. }
  intros s' Hs Hd. pose proof Hs as (He&_). apply HQ; [by eapply rw_pd_only|by rewrite He..].
Qed.

Lemma pd_words_same a a' G G' : t_owner a' = t_owner a → (∀ x, pde (g_tab G' !! x) = pde (g_tab G !! x)) →
  ∀ c, pd_words a' G' c = pd_words a G c.
Proof. intros Ho Hg c. unfold pd_words, owner. rewrite Ho. apply table_ext. intros. apply Hg. Qed.

Lemma pd_words_update a a' G G' h i c :
  heap_ok a h → in_heap h i → t_owner a' = t_owner a →
  (∀ x, x ≠ (psMMUContext h, i) → pde (g_tab G' !! x) = pde (g_tab G !! x)) →
  (if sees h c then <[Z.to_nat i := pde (g_tab G' !! (psMMUContext h, i))]> (pd_words a G c) else pd_words a G c)
  = pd_words a' G' c.
Proof.
  intros Hh Hi Ho Hg. pose proof (ho_own _ _ Hh i Hi) as Hoi. pose proof (ho_range _ _ Hh) as Hrg. unfold in_heap in Hi.
  unfold pd_words, sees, owner. rewrite Ho.
  destruct (shared_heap h); cbn [orb]; [|destruct (Z.eqb_spec c (psMMUContext h)) as [->|Hne]].
  1,2: apply table_insert; [lia|by rewrite Hoi|]; intros j Hj Hne; apply Hg; congruence.
  apply table_ext. intros j Hj. symmetry. apply Hg. intros [= Hc ->]. rewrite Hoi in Hc. by simpl in Hc.
Qed.

Lemma heap_index a h i : heap_ok a h → in_heap h i → 0 ≤ i < 1024 ∧ owner a (psMMUContext h) i = psMMUContext h.
Proof.
  intros Hh Hi. pose proof (ho_own _ _ Hh i Hi) as Hoi. pose proof (ho_range _ _ Hh). unfold in_heap in Hi.
  split; [lia|]. unfold owner. rewrite Hoi. by destruct (shared_heap h).
Qed.

(** ** Growing *)

Definition lacking (o : option (option (list Z))) : Prop := o = None ∨ o = Some None.

(** [a'] has more page tables of the heap than [a], all empty. *)
Record grown (h : MMU_HEAP) a a' : Prop := {
  gr_list : t_list a' = t_list a;
  gr_owner : t_owner a' = t_owner a;
  gr_pt : ∀ x, t_pt a' !! x = t_pt a !! x ∨ x.1 = psMMUContext h ∧ in_heap h x.2 ∧ lacking (t_pt a !! x) ∧
    (t_pt a' !! x = Some None ∨ t_pt a' !! x = Some (Some zeros))
}.

Definition present a (c i : Z) : Prop := ∃ ws, t_pt a !! (c, i) = Some (Some ws).

Lemma grown_refl h a : grown h a a.
Proof. split; [done..|]. by left. Qed.

Lemma grown_trans h a a' a'' : grown h a a' → grown h a' a'' → grown h a a''.
Proof.
  intros [L1 O1 P1] [L2 O2 P2]. split; [congruence..|]. intros x.
  destruct (P1 x) as [H1|(Hc&Hi&Hl&H1)], (P2 x) as [H2|(Hc'&Hi'&Hl'&H2)].
  - left. congruence.
  - right. rewrite <- H1. done.
  - right. rewrite H2. done.
  - right. done.
Qed.

Lemma grown_insert h a i o : in_heap h i → lacking (t_pt a !! (psMMUContext h, i)) → o = None ∨ o = Some zeros →
  grown h a (set_pt (<[(psMMUContext h, i) := o]> (t_pt a)) a).
Proof.
  intros Hi Hl Ho. split; [done..|]. intros x. simpl. destruct (decide (x = (psMMUContext h, i))) as [->|Hx].
  - right. rewrite lookup_insert_eq. naive_solver.
  - left. by rewrite lookup_insert_ne.
Qed.

Lemma entry_lacking o v : lacking o → entry o v = None.
Proof. by intros [-> | ->]. Qed.

Lemma entry_zeros v : entry (Some (Some zeros)) v = None.
Proof.
  unfold entry, zeros. pose proof (ptx_range v). rewrite lookup_replicate_2 by lia. done.
Qed.

Lemma grown_translate h a a' c v : grown h a a' → translate a' c v = translate a c v.
Proof.
  intros [L O P]. unfold translate, owner. rewrite O. destruct (P (default c (t_owner a !! pdx v), pdx v)) as [->|(_&_&Hl&Hp)]; [done|].
  rewrite (entry_lacking _ v Hl). destruct Hp as [-> | ->]; [done|apply entry_zeros].
Qed.

Lemma grown_present h a a' c i : grown h a a' → present a c i → present a' c i.
Proof.
  intros [_ _ P] [ws Hw]. destruct (P (c, i)) as [H|(_&_&Hl&_)]; [exists ws; congruence|].
  rewrite Hw in Hl. by destruct Hl.
Qed.

(** The memory for one more page table. *)
Definition enough n s a : Prop := plenty (m_os s) ∧ supply (S (n + areas a)).

Definition alloc_post k n h (i : Z) s a (b : bool) s' : Prop :=
  ∃ a' G', rep k n s' a' G' ∧ grown h a a' ∧ keep s s' ∧ m_heaps s' = m_heaps s ∧
    if b then present a' (psMMUContext h) i else ¬ enough n s a'.

Lemma wp_give_pde k n s a G heap h i p phi0 :
  rep k n s a G → m_heaps s !! heap = Some h → in_heap h i →
  t_pt a !! (psMMUContext h, i) = Some None → g_tab G !! (psMMUContext h, i) = Some (p, 0, phi0) →
  wp (r ← _AllocPageTableMemory heap p;
      match r with
      | None => mret false
      | Some sDevPAddr =>
          set_heap_pde h i
            (u32 (Z.lor (Z.lor (Z.shiftr sDevPAddr SGX_MMU_PDE_ADDR_ALIGNSHIFT)
                               (ui32PDEPageSizeCtrl h)) SGX_MMU_PDE_VALID))
      end) (alloc_post k n h i s a) s.
Proof.
  intros (W&Hr&HW) Hh Hi Hx Hg. pose proof (r_heap _ _ _ _ _ _ Hr _ _ Hh) as Hok.
  destruct (heap_index _ _ _ Hok Hi) as [Hi' _]. wp_step. eapply wp_give_page; [done..| |].
  { intros Hp. wp_step. exists a, G. split; [by exists W|]. split; [apply grown_refl|]. split; [apply keep_refl|].
    split; [done|]. unfold enough. tauto. }
  intros s1 b phi G1 Hb Hphi Hphi' Hg1 Hh1 Ho1 Hr1. rewrite (ho_ctrl _ _ Hok), pde_written by done.
  set (a1 := set_pt (<[(psMMUContext h, i) := Some zeros]> (t_pt a)) a) in *.
  eapply wp_rep_pde; [exact Hr1|by apply (heap_ok_tables a)| |done|].
  { intros c Hc. rewrite HW by done. apply pd_words_length. }
  intros s2 Hr2 Hh2 Ho2. exists a1, G1. split; [|split; [|split; [|split]]].
  - eexists. split; [exact Hr2|]. intros c Hc. cbn beta. rewrite HW by done.
    assert (∀ y, y ≠ (psMMUContext h, i) → pde (g_tab G1 !! y) = pde (g_tab G !! y)) as Hne.
    { intros y Hy. by rewrite Hg1, lookup_insert_ne. }
    rewrite <- (pd_words_update a a1 G G1 h i c Hok Hi eq_refl Hne).
    rewrite Hg1, lookup_insert_eq. unfold pde. destruct (Z.eqb_spec b 0) as [Hb0|_]; [destruct (Hb Hb0)|reflexivity].
  - apply grown_insert; [done|by right|by right].
  - apply keep_same; congruence.
  - congruence.
  - exists zeros. unfold a1. simpl. apply lookup_insert_eq.
Qed.

Lemma wp_alloc_page_table k n s a G heap h i :
  rep k n s a G → m_heaps s !! heap = Some h → in_heap h i →
  wp (alloc_page_table heap h i) (alloc_post k n h i s a) s.
Proof.
  intros Hrep Hh Hi. pose proof Hrep as (W&Hr&HW). pose proof (r_heap _ _ _ _ _ _ Hr _ _ Hh) as Hok.
  destruct (heap_index _ _ _ Hok Hi) as [Hi' Hown]. pose proof (ho_ctx _ _ Hok) as Hc.
  pose proof (r_tab _ _ _ _ _ _ Hr (psMMUContext h, i)) as Htab.
  unfold alloc_page_table. wp_step. eapply wp_rd_slot_dirs; [apply Hr|done|lia|by apply table_lookup|].
  wp_step. pose proof (slot_lookup _ _ _ _ _ Htab) as Hslot.
  unfold IMG_NULL. destruct (Z.eqb_spec (slot_of (g_tab G !! (psMMUContext h, i))) 0) as [Hz|Hz].
  - apply Hslot in Hz. eapply wp_new_info; [done..| |].
    + intros s1 Hr1 Hk1 Hh1 Hpl. unfold IMG_NULL. rewrite Z.eqb_refl. wp_step. exists a, G. split; [by exists W|]. split; [apply grown_refl|].
      split; [done|]. split; [done|]. unfold enough. tauto.
    + intros s1 p G1 Hp Hg1 Hk1 Hh1 Hr1. destruct (Z.eqb_spec p 0); [done|].
      set (a1 := set_pt (<[(psMMUContext h, i) := None]> (t_pt a)) a) in *.
      assert (g_tab G1 !! (psMMUContext h, i) = Some (p, 0, 0)) as Hgx by by rewrite Hg1, lookup_insert_eq.
      assert (t_pt a1 !! (psMMUContext h, i) = Some None) as Htx by apply lookup_insert_eq.
      pose proof (r_tab _ _ _ _ _ _ Hr1 (psMMUContext h, i)) as Htab1. rewrite Htx, Hgx in Htab1.
      destruct Htab1 as (_&_&_&Hpt). wp_step. eapply wp_rd_pt; [done|]. unfold id. cbn [hPTPageOSMemHandle PTPageCpuVAddr].
      cbn [Z.eqb andb]. eapply wp_mono; [eapply wp_give_pde; [|by rewrite Hh1|done..]|].
      * exists W. split; [done|]. intros c Hc'. rewrite HW by done. symmetry. apply pd_words_same; [done|].
        intros x. rewrite Hg1. destruct (decide (x = (psMMUContext h, i))) as [->|]; [|by rewrite lookup_insert_ne].
        rewrite lookup_insert_eq. rewrite Hz in Htab. by destruct (g_tab G !! (psMMUContext h, i)).
      * intros b s' (a2&G2&Hr2&Hgr&Hk2&Hh2&Hb). exists a2, G2. split; [done|]. split.
        { eapply grown_trans; [|done]. apply grown_insert; [done|by left|by left]. }
        split; [by eapply keep_trans|]. split; [congruence|]. destruct b; [done|]. intros [Hpl ?]. apply Hb.
        split; [by apply Hk1|done].
  - wp_step. destruct (Z.eqb_spec (slot_of (g_tab G !! (psMMUContext h, i))) 0); [done|].
    destruct (g_tab G !! (psMMUContext h, i)) as [[[p b] phi]|] eqn:Hg; [|done]. simpl in *.
    destruct (t_pt a !! (psMMUContext h, i)) as [[ws|]|] eqn:Hx; simpl in Htab; [| |done].
    + destruct Htab as (_&_&Hb&_&Hpt&_). wp_step. eapply wp_rd_pt; [done|]. unfold id, IMG_NULL. cbn [hPTPageOSMemHandle PTPageCpuVAddr].
      destruct (Z.eqb_spec b 0); [done|]. cbn [andb]. wp_step. exists a, G. split; [done|]. split; [apply grown_refl|].
      split; [apply keep_refl|]. split; [done|]. by exists ws.
    + destruct Htab as (_&_&->&Hpt). wp_step. eapply wp_rd_pt; [done|]. unfold id. simpl. by eapply wp_give_pde.
Qed.

Lemma wp_alloc_page_tables m k n s a G heap h i :
  rep k n s a G → m_heaps s !! heap = Some h → (∀ j, i ≤ j < i + Z.of_nat m → in_heap h j) →
  wp (alloc_page_tables m heap h i) (λ b s', ∃ a' G', rep k n s' a' G' ∧ grown h a a' ∧ keep s s' ∧
    m_heaps s' = m_heaps s ∧
    if b then ∀ j, i ≤ j < i + Z.of_nat m → present a' (psMMUContext h) j else ¬ enough n s a') s.
Proof.
  revert s a G i. induction m as [|m IH]; intros s a G i Hr Hh Hi; cbn [alloc_page_tables].
  { wp_step. exists a, G. split; [done|]. split; [apply grown_refl|]. split; [apply keep_refl|]. split; [done|]. lia. }
  wp_step. eapply wp_mono; [eapply wp_alloc_page_table; [done|done|apply Hi; lia]|].
  intros [] s1 (a1&G1&Hr1&Hg1&Hk1&Hh1&Hb); cbn [negb].
  2:{ wp_step. exists a1, G1. done. }
  eapply wp_mono; [eapply IH; [done|by rewrite Hh1|intros j Hj; apply Hi; lia]|].
  intros b s2 (a2&G2&Hr2&Hg2&Hk2&Hh2&Hb2). exists a2, G2. split; [done|]. split; [by eapply grown_trans|].
  split; [by eapply keep_trans|]. split; [congruence|]. destruct b.
  - intros j Hj. destruct (decide (j = i)) as [->|]; [by eapply grown_present|apply Hb2; lia].
  - intros [Hpl ?]. apply Hb2. split; [by apply Hk1|done].
Qed.

(** ** The range of directory indices of an allocation *)

(** The last 4 MB of the address space: 0xFFC00000. *)
Definition LAST_TABLE : Z := 4290772992.

Lemma pd_end_spec a h v sz : heap_ok a h → 0 ≤ v → 0 < sz ≤ LAST_TABLE → v + sz < 4294967296 →
  pd_end h v sz = if decide (v + sz ≤ LAST_TABLE) then (v + sz + 4194303) / 4194304 else 1023.
Proof.
  unfold LAST_TABLE. intros Hok Hv Hsz Hle. unfold pd_end, UINT32_MAX_VALUE.
  rewrite (ho_mask _ _ Hok), (ho_ptmask _ _ Hok), (ho_pdshift _ _ Hok). unfold SGX_MMU_PT_MASK.
  rewrite (u32_small (sz + 4095)), (u32_small (sz + 4095 + 4190208)) by (unfold is_u32; lia).
  rewrite !shiftr_pd. unfold pdx. destruct (Z.ltb_spec (4294967295 - v) (sz + 4095 + 4190208)).
  - rewrite decide_False by lia. change (4294967295 / 4194304) with 1023. done.
  - rewrite decide_True by lia.
    rewrite (u32_small (v + sz)), (u32_small (v + sz + 4095)), (u32_small (v + sz + 4095 + 4190208)) by (unfold is_u32; lia).
    replace (v + sz + 4095 + 4190208) with (v + sz + 4194303) by lia.
    destruct (Z.eqb_spec ((v + sz + 4194303) / 4194304) 0) as [He|]; [|done].
    assert (1 ≤ (v + sz + 4194303) / 4194304) by (apply Z.div_le_lower_bound; lia). lia.
Qed.

(** A range inside the heap. *)
Definition in_window (h : MMU_HEAP) (v sz : Z) : Prop :=
  BaseDevVAddr (psDevArena h) ≤ v ∧ 0 < sz ≤ LAST_TABLE ∧
  v + sz ≤ BaseDevVAddr (psDevArena h) + ui32Size (psDevArena h).

Lemma window_index a h v sz w : heap_ok a h → in_window h v sz → v ≤ w < v + sz →
  in_heap h (pdx w) ∧ is_u32 w.
Proof.
  intros Hok (Hv&Hsz&He) Hw. pose proof (ho_base _ _ Hok) as Hb. pose proof (ho_range _ _ Hok) as Hr.
  destruct (ho_size _ _ Hok) as (Hs&_&Hlt). unfold in_heap, pdx, is_u32. split; [|lia].
  split; [apply Z.div_le_lower_bound; lia|apply Z.div_lt_upper_bound; lia].
Qed.

Lemma wp_DeferredAllocPagetables k n s a G heap h v sz :
  rep k n s a G → m_heaps s !! heap = Some h → in_window h v sz →
  wp (_DeferredAllocPagetables heap v sz) (λ b s', ∃ a' G', rep k n s' a' G' ∧ grown h a a' ∧ keep s s' ∧
    m_heaps s' = m_heaps s ∧
    if b : bool then ∀ w, v ≤ w < v + sz → w < LAST_TABLE → present a' (psMMUContext h) (pdx w)
    else ¬ enough n s a') s.
Proof.
  intros Hr Hh Hin. pose proof Hr as (W&Hrw&_). pose proof (r_heap _ _ _ _ _ _ Hrw _ _ Hh) as Hok.
  pose proof Hin as (Hv&Hsz&He). pose proof (ho_base _ _ Hok) as Hb. pose proof (ho_range _ _ Hok) as Hrg.
  destruct (ho_size _ _ Hok) as (Hhs&_&Hlt). unfold _DeferredAllocPagetables. wp_step. eapply wp_rd_heap; [done|]. unfold id.
  rewrite (pd_end_spec a) by (done || lia). rewrite (ho_pdshift _ _ Hok), shiftr_pd.
  destruct (window_index a h v sz v Hok Hin ltac:(lia)) as [Hiv Huv].
  pose proof (pdx_range v Huv) as Hpr.
  assert (pdx v * 4194304 ≤ v < pdx v * 4194304 + 4194304) as Hdv.
  { unfold pdx. pose proof (Z.div_mod v 4194304 ltac:(lia)). pose proof (Z.mod_pos_bound v 4194304 ltac:(lia)). lia. }
  set (e := if decide (v + sz ≤ LAST_TABLE) then (v + sz + 4194303) / 4194304 else 1023).
  assert (pdx v ≤ e ∧ ∀ j, pdx v ≤ j → (j < e ↔ j < 1023 ∧ j * 4194304 < v + sz)) as [Hle He'].
  { unfold e, LAST_TABLE in *. destruct (decide _).
    - pose proof (Z.div_mod (v + sz + 4194303) 4194304 ltac:(lia)).
      pose proof (Z.mod_pos_bound (v + sz + 4194303) 4194304 ltac:(lia)). split; [lia|]. intros j Hj. lia.
    - split; lia. }
  assert (e ≤ 1024) as Hee by (destruct (decide (pdx v < e)) as [Hl|]; [|lia]; destruct (He' (e - 1)) as [Hx _]; lia).
  rewrite (u32_small (e - pdx v)) by (unfold is_u32; lia).
  eapply wp_mono; [eapply wp_alloc_page_tables; [done..|]|].
  { intros j Hj. rewrite Z2Nat.id in Hj by lia. destruct (proj1 (He' j ltac:(lia)) ltac:(lia)) as [Hj1 Hj2].
    unfold in_heap in *. lia. }
  intros b s' (a'&G'&Hr'&Hg&Hk&Hh'&Hp). exists a', G'. do 4 (split; [done|]). destruct b; [|done].
  intros w Hw Hlw. apply Hp. unfold LAST_TABLE in Hlw.
  assert (pdx w * 4194304 ≤ w < pdx w * 4194304 + 4194304) as Hdw.
  { unfold pdx. pose proof (Z.div_mod w 4194304 ltac:(lia)). pose proof (Z.mod_pos_bound w 4194304 ltac:(lia)). lia. }
  assert (pdx v ≤ pdx w) by (unfold pdx; apply Z.div_le_mono; lia). split; [done|].
  rewrite Z2Nat.id by lia. enough (pdx w < e) by lia. apply He'; [done|]. lia.
Qed.

(** ** Removing a page table *)

Definition drop_pt (x : Z * Z) a : tables := set_pt (delete x (t_pt a)) a.

Lemma rw_remove k n s s' a G W c i p b phi mem' o' :
  rep_w k n s a G W → g_tab G !! (c, i) = Some (p, b, phi) →
  mem' = (if b =? 0 then m_mem s else delete b (m_mem s)) →
  s' = set_m_ctxs (m_ctxs s') (set_m_pts (delete p (m_pts s)) (set_m_mem mem' (set_m_os o' (set_m_heaps (m_heaps s') s)))) →
  os_live o' = os_live (m_os s) - 1 →
  dom (m_ctxs s') = dom (m_ctxs s) → strip <$> m_heaps s' = strip <$> m_heaps s →
  (∀ q h, m_heaps s' !! q = Some h → heap_ok a h) →
  dirs s' (t_list a) (g_place G) W (λ c', if decide (c' = c) then <[Z.to_nat i := 0]> (slots G c) else slots G c') →
  rep_w k n s' (drop_pt (c, i) a) (mkGhost (delete (c, i) (g_tab G)) (g_place G) (g_info G)) W.
Proof.
  intros Hr Hg Hmem Hs Ho Hdom Hstrip Hheaps Hd. set (G' := mkGhost _ _ _).
  pose proof (r_tab _ _ _ _ _ _ Hr (c, i)) as Htab. rewrite Hg in Htab.
  assert (∃ o, t_pt a !! (c, i) = Some o ∧ (b = 0 ↔ o = None)) as (o&Hx&Hbo).
  { destruct (t_pt a !! (c, i)) as [[ws|]|]; simpl in Htab; naive_solver. }
  assert (size (m_heaps s') = size (m_heaps s)) as Hsz.
  { by apply strip_size. }
  destruct Hr as [r1 r2 r3 r4 r5 r6 r7 r8 r9].
  destruct (r3 c i) as (Hc&Hi&_); [by rewrite Hx|].
  assert (∀ y q b' phi', y ≠ (c, i) → g_tab G !! y = Some (q, b', phi') → p ≠ q ∧
    (b' ≠ 0 → g_place G b' = PTof y → mem' !! b' = m_mem s !! b')) as Hother.
  { intros y q b' phi' Hy Hq. pose proof (r2 y) as Hty. rewrite Hq in Hty.
    destruct (tab_info _ _ _ _ _ _ _ Hty) as (_&Hqi&_), (tab_info _ _ _ _ _ _ _ Htab) as (_&Hpi&_).
    split; [congruence|]. intros Hb' Hpl. rewrite Hmem. destruct (Z.eqb_spec b 0) as [|Hb]; [done|].
    rewrite lookup_delete_ne; [done|]. intros <-. rewrite Hx in Htab. destruct o as [ws|]; simpl in Htab.
    - destruct Htab as (_&_&_&Hplx&_). congruence.
    - by destruct Hb, Hbo as [_ ->]. }
  split.
  - eapply (dirs_slots _ _ _ _ G G'); [exact Hi| | |exact Hd]; simpl.
    + intros y Hy. by rewrite lookup_delete_ne.
    + by rewrite lookup_delete_eq.
  - intros y. simpl. destruct (decide (y = (c, i))) as [->|Hy]; [by rewrite !lookup_delete_eq|].
    rewrite !lookup_delete_ne by done. eapply tab_ok_frame; [apply r2|]. intros q b' phi' Hq.
    destruct (Hother y q b' phi' Hy Hq) as [Hpq Hm]. rewrite Hs. simpl. rewrite lookup_delete_ne by done.
    split_and!; [done|done|]. intros Hb' Hpl. by rewrite Hm.
  - intros c' i' Hin. simpl in *. apply lookup_delete_is_Some in Hin as [_ Hin]. by apply r3.
  - done.
  - rewrite Hs. unfold phys in *. simpl. unfold areas in *. simpl. rewrite omap_delete, Hmem.
    destruct (Z.eqb_spec b 0) as [Hb|Hb].
    + apply Hbo in Hb as ->. rewrite delete_id; [done|]. by rewrite lookup_omap, Hx.
    + destruct o as [ws|]; [|by destruct Hb, Hbo as [_ ->]]. rewrite Hx in Htab. simpl in Htab. destruct Htab as (_&_&_&_&_&Hmb&_).
      rewrite fmap_delete. eapply mem_ok_delete; [|by rewrite lookup_fmap, Hmb].
      rewrite map_size_delete, lookup_omap, Hx. simpl.
      assert (0 < size (omap (M:=gmap (Z * Z)) id (t_pt a)))%nat.
      { apply Nat.neq_0_lt_0, map_size_non_empty_iff. intros He.
        assert (omap (M:=gmap (Z * Z)) id (t_pt a) !! (c, i) = Some ws) as Hz by by rewrite lookup_omap, Hx.
        by rewrite He, lookup_empty in Hz. }
      by replace (S (n + (length (t_list a) + Nat.pred (size (omap id (t_pt a))))))%nat
        with (n + (length (t_list a) + size (omap id (t_pt a))))%nat by lia.
  - rewrite Hs. simpl. done.
  - intros q. rewrite <- (elem_of_dom (m_ctxs s')), Hdom, elem_of_dom, Hs. simpl. intros Hq. apply r7.
    rewrite lookup_delete_is_Some in Hq. destruct Hq as [[_ ?]|[?|?%(strip_some _ _ _ Hstrip)]]; eauto.
  - intros q h Hq. eapply heap_ok_tables; [..|by apply (Hheaps q)]; done.
  - rewrite Hs. unfold blocks in *. simpl. rewrite Ho, r9, map_size_delete, Hx, Hsz.
    assert (0 < size (t_pt a))%nat.
    { apply Nat.neq_0_lt_0, map_size_non_empty_iff. intros He. by rewrite He, lookup_empty in Hx. }
    unfold drop_pt. simpl. lia.
Qed.

Lemma wp_sub_PTETotalUsable heap h d a s (Q : unit → mmu_st → Prop) :
  m_heaps s !! heap = Some h → (∀ q h, m_heaps s !! q = Some h → heap_ok a h) →
  (∀ v, let m := <[heap := set_PTETotalUsable v h]> (m_heaps s) in strip <$> m = strip <$> m_heaps s →
     (∀ q h, m !! q = Some h → heap_ok a h) → Q tt (set_m_heaps m s)) →
  wp (sub_PTETotalUsable heap d) Q s.
Proof.
  intros Hh Hok HQ. unfold sub_PTETotalUsable. eapply wp_wr_heap; [done|]. apply HQ.
  - rewrite fmap_insert. apply insert_id. by rewrite lookup_fmap, Hh.
  - intros q h' [[<- <-]|[_ Hq]]%lookup_insert_Some; [|by eapply Hok]. apply heap_ok_total; [apply u32_range|by eapply Hok].
Qed.

Lemma rep_drop_none k n s a G x : rep k n s a G → t_pt a !! x = None → rep k n s (drop_pt x a) G.
Proof.
  intros Hr Hx. unfold drop_pt. rewrite delete_id by done. by destruct a.
Qed.

(** The walk of [_FreePageTableMemory] and what follows it. *)
Lemma wp_clear_table s h heap a p b ws phi m (Q : unit → mmu_st → Prop) :
  b ≠ 0 → m_pts s !! p = Some (mkPT b b (count ws)) → m_mem s !! b = Some (mkArea [phi] ws) → length ws = 1024%nat →
  m ≤ 1024 → m_heaps s !! heap = Some h → (∀ q h, m_heaps s !! q = Some h → heap_ok a h) →
  (∀ v, let hs := <[heap := set_PTETotalUsable v h]> (m_heaps s) in strip <$> hs = strip <$> m_heaps s →
     (∀ q h, hs !! q = Some h → heap_ok a h) →
     Q tt (set_m_heaps hs (set_m_mem (delete b (m_mem s)) s))) →
  wp (zero_words b 0 (Z.to_nat m);; _FreePageTableMemory heap p;; sub_PTETotalUsable heap m) Q s.
Proof.
  intros Hb Hp Hm Hlen Hmax Hh Hok HQ. wp_step. eapply wp_fill; [done|lia|simpl; lia|]. intros s1 Hs1 Hm1.
  wp_step. unfold _FreePageTableMemory. wp_step. eapply wp_rd_pt; [by rewrite Hs1|]. unfold id. cbn [hPTPageOSMemHandle].
  eapply wp_OSFreePages; [by rewrite Hm1, lookup_insert_eq|].
  rewrite Hs1, Hm1. cbn [m_mem set_m_mem]. rewrite delete_insert_eq.
  eapply wp_sub_PTETotalUsable; [done|done|]. intros v hs Hst Hoks. by apply HQ.
Qed.

Lemma wp_free_page_table k n s a G heap h i :
  rep k n s a G → m_heaps s !! heap = Some h → in_heap h i →
  wp (_DeferredFreePageTable heap (i - ui32PDBaseIndex h) true)
    (λ _ s', (∃ G', rep k n s' (drop_pt (psMMUContext h, i) a) G') ∧ keep s s') s.
Proof.
  intros Hrep Hh Hi. pose proof Hrep as (W&Hr&HW). pose proof (r_heap _ _ _ _ _ _ Hr _ _ Hh) as Hok.
  destruct (heap_index _ _ _ Hok Hi) as [Hi' Hown]. pose proof (ho_ctx _ _ Hok) as Hc.
  unfold _DeferredFreePageTable. wp_step. eapply wp_rd_heap; [done|]. unfold id.
  rewrite (ho_pdshift _ _ Hok), shiftr_pd, (ho_base _ _ Hok), (ho_usable _ _ Hok). assert (pdx (ui32PDBaseIndex h * 4194304) = ui32PDBaseIndex h) as -> by (unfold pdx; by rewrite Z.div_mul).
  replace (ui32PDBaseIndex h + (i - ui32PDBaseIndex h)) with i by lia. cbv zeta.
  wp_step. eapply wp_rep_pde; [done|done| |done|].
  { intros c Hc'. rewrite HW by done. apply pd_words_length. }
  intros s1 Hr1 Hh1 Ho1. cbn [negb]. set (W1 := λ c, _) in Hr1.
  assert (∀ G', (∀ x, x ≠ (psMMUContext h, i) → g_tab G' !! x = g_tab G !! x) → g_tab G' !! (psMMUContext h, i) = None →
    ∀ c, c ∈ t_list a → W1 c = pd_words (drop_pt (psMMUContext h, i) a) G' c) as HW1.
  { intros G' Hsame Hnone c Hc'. unfold W1. rewrite HW by done.
    rewrite <- (pd_words_update a (drop_pt (psMMUContext h, i) a) G G' h i c Hok Hi eq_refl);
      [by rewrite Hnone|]. intros x Hx. by rewrite Hsame. }
  pose proof (r_tab _ _ _ _ _ _ Hr1 (psMMUContext h, i)) as Htab. pose proof (slot_lookup _ _ _ _ _ Htab) as Hslot.
  wp_step. eapply wp_rd_slot_dirs; [apply Hr1|done|lia|by apply table_lookup|]. unfold IMG_NULL.
  destruct (Z.eqb_spec (slot_of (g_tab G !! (psMMUContext h, i))) 0) as [Hz|Hz]; cbn [negb].
  { apply Hslot in Hz. eapply (wp_sub_PTETotalUsable heap h _ a); [by rewrite Hh1|apply Hr1|]. intros v hs Hst Hoks.
    assert (g_tab G !! (psMMUContext h, i) = None) as Hgn.
    { rewrite Hz in Htab. by destruct (g_tab G !! (psMMUContext h, i)). }
    split; [exists G, W1; split; [|by apply HW1]|].
    - unfold drop_pt. rewrite delete_id by done. replace (set_pt (t_pt a) a) with a by by destruct a.
      destruct Hr1 as [q1 q2 q3 q4 q5 q6 q7 q8 q9]. split; try done; simpl.
      + by eapply dirs_frame.
      + intros q Hq. apply q7. destruct Hq as [?|[?|?%(strip_some _ _ _ Hst)]]; eauto.
      + rewrite q9. unfold blocks. by rewrite (strip_size _ _ Hst).
    - split; simpl; [by rewrite Hst, Hh1|by rewrite Ho1]. }
  destruct (g_tab G !! (psMMUContext h, i)) as [[[p b] phi]|] eqn:Hg; [|done]. cbn [slot_of] in *.
  assert (∃ cnt, m_pts s1 !! p = Some (mkPT b b cnt)) as [cnt Hpt].
  { destruct (t_pt a !! (psMMUContext h, i)) as [[ws|]|]; simpl in Htab; [|destruct Htab as (_&_&->&?)|done]; [|by eauto].
    destruct Htab as (_&_&_&_&?&_). eauto. }
  wp_step. eapply wp_rd_pt; [done|]. cbn [PTPageCpuVAddr].
  set (mem' := if b =? 0 then m_mem s1 else delete b (m_mem s1)).
  assert (∀ v, let hs := <[heap := set_PTETotalUsable v h]> (m_heaps s1) in strip <$> hs = strip <$> m_heaps s1 →
    (∀ q h, hs !! q = Some h → heap_ok a h) →
    wp (rd_pt p id;; with_m_os OSFreeMem;; modify (λ s, set_m_pts (delete p (m_pts s)) s);;
        wr_slot (psMMUContext h) i IMG_NULL)
      (λ _ s', (∃ G', rep k n s' (drop_pt (psMMUContext h, i) a) G') ∧ keep s s')
      (set_m_heaps hs (set_m_mem mem' s1))) as Hrest.
  { intros v hs Hst Hoks. wp_step. eapply wp_rd_pt; [done|]. wp_step. apply wp_zoom, wp_OSFreeMem. wp_step. wp_step.
    eapply (wp_wr_slot_dirs _ (t_list a) (g_place G) W1 (slots G)); [|done|rewrite rep_slots_length; lia|].
    { eapply dirs_frame; [apply Hr1|done|done|]. intros b' c' _ _ Hpl. cbn [m_mem set_m_pts set_m_os set_m_heaps set_m_mem].
      split; [|done]. unfold mem'. destruct (Z.eqb_spec b 0); [done|]. rewrite lookup_delete_ne; [done|]. intros <-.
      destruct (t_pt a !! (psMMUContext h, i)) as [[ws|]|]; simpl in Htab; [|by destruct Htab as (_&_&?&_)|done].
      destruct Htab as (_&_&_&Hp'&_). by rewrite Hp' in Hpl. }
    intros s2 Hs2 Hdom2 Hd2. split.
    - eexists. exists W1. split.
      + eapply (rw_remove _ _ s1 _ _ _ _ _ _ p b phi mem'); [done|done|done| | | | | |exact Hd2]; rewrite Hs2; try done.
      + apply HW1; simpl; [intros x Hx; by rewrite lookup_delete_ne|by rewrite lookup_delete_eq].
    - rewrite Hs2. split; simpl; [by rewrite Hst, Hh1|]. unfold plenty. simpl. by rewrite Ho1. }
  apply (wp_bind _ (λ _, _)). destruct (Z.eqb_spec b 0) as [Hb|Hb]; cbn [negb].
  - eapply (wp_sub_PTETotalUsable heap h _ a); [by rewrite Hh1|apply Hr1|]. intros v hs Hst Hoks.
    replace (set_m_heaps hs s1) with (set_m_heaps hs (set_m_mem mem' s1)); [by apply (Hrest v)|].
    unfold mem'. by destruct s1.
  - destruct (t_pt a !! (psMMUContext h, i)) as [[ws|]|] eqn:Hx; simpl in Htab; [|by destruct Htab as (_&_&?&_)|done].
    destruct Htab as (_&_&_&_&Hpt'&Hmb&[Hlen _]). eapply (wp_clear_table s1 h heap a p b ws phi); [done..|lia|by rewrite Hh1|apply Hr1|]. intros v hs Hst Hoks. unfold mem' in Hrest.
    destruct (Z.eqb_spec b 0); [done|]. by apply (Hrest v).
Qed.
End tab.
