(* ===== verification/MmuMap.v ===== *)
(** * The MMU: mapping and unmapping pages

    Entries of page tables: what [MMU_MapPage] and its loops write, what the
    unmapping loops clear, on [rep] and in terms of [translate]. *)

From S2P Require Import Prelude Mmu MmuRep MmuOps MmuTab.

(** ** Entries of the abstract tables *)

Definition put_entry (c v w : Z) (a : tables) : tables :=
  match t_pt a !! (c, pdx v) with
  | Some (Some ws) => set_pt (<[(c, pdx v) := Some (<[Z.to_nat (ptx v) := w]> ws)]> (t_pt a)) a
  | _ => a
  end.

(** The page of an address. *)
Definition page_of (v : Z) : Z := v / 4096.

Lemma page_index v u : pdx v = pdx u ∧ ptx v = ptx u ↔ page_of v = page_of u.
Proof.
  assert (∀ w, page_of w = pdx w * 1024 + ptx w) as H.
  { intros w. unfold page_of, pdx, ptx. pose proof (Z.div_mod (w / 4096) 1024 ltac:(lia)) as Hd.
    rewrite Z.div_div in Hd by lia. change (4096 * 1024) with 4194304 in Hd. lia. }
  assert (∀ w, 0 ≤ ptx w < 1024) as Hr by apply ptx_range.
  rewrite (H v), (H u). pose proof (Hr v). pose proof (Hr u). split; lia.
Qed.

(** Which addresses of a context the page of [v] in the tables of [c] is. *)
Definition hits a (c v c' u : Z) : Prop := owner a c' (pdx u) = c ∧ page_of u = page_of v.
#[export] Instance hits_dec a c v c' u : Decision (hits a c v c' u).
Proof. unfold hits. apply _. Defined.

Lemma put_entry_translate a c v w c' u : (∀ ws, t_pt a !! (c, pdx v) = Some (Some ws) → length ws = 1024%nat) →
  present a c (pdx v) →
  translate (put_entry c v w a) c' u =
    if decide (hits a c v c' u) then (if valid w then Some w else None) else translate a c' u.
Proof.
  intros Hlen [ws Hws]. unfold put_entry. rewrite Hws. unfold translate, owner. cbn [t_pt t_owner set_pt].
  change (default c' (t_owner a !! pdx u)) with (owner a c' (pdx u)).
  specialize (Hlen _ Hws). pose proof (ptx_range v). pose proof (ptx_range u).
  destruct (decide ((owner a c' (pdx u), pdx u) = (c, pdx v))) as [[= Ho Hp]|Hne].
  - rewrite Ho, Hp, lookup_insert_eq, Hws. cbn [entry]. destruct (decide (ptx u = ptx v)) as [Ht|Ht].
    + rewrite Ht, list_lookup_insert_eq by lia. rewrite decide_True; [done|]. split; [done|]. by apply page_index.
    + rewrite list_lookup_insert_ne by lia. rewrite decide_False; [done|]. intros [_ ?%page_index]. lia.
  - rewrite lookup_insert_ne by congruence. rewrite decide_False; [done|]. intros [Ho [Hp _]%page_index]. congruence.
Qed.

Lemma put_entry_list c v w a : t_list (put_entry c v w a) = t_list a.
Proof. unfold put_entry. by destruct (t_pt a !! _) as [[|]|]. Qed.
Lemma put_entry_owner c v w a : t_owner (put_entry c v w a) = t_owner a.
Proof. unfold put_entry. by destruct (t_pt a !! _) as [[|]|]. Qed.

Section map.
Context {env : MmuEnv} {law : MmuLaw env}.
Implicit Types (s : mmu_st) (a : tables) (G : ghost).

Lemma rep_sound k n s a G c i ws : rep k n s a G → t_pt a !! (c, i) = Some (Some ws) → sound ws.
Proof.
  intros (W&Hr&_) Hx. pose proof (r_tab _ _ _ _ _ _ Hr (c, i)) as Htab. rewrite Hx in Htab.
  destruct (g_tab G !! (c, i)) as [[[p b] phi]|]; [|done]. by destruct Htab as (_&_&_&_&_&_&?).
Qed.
Lemma rep_tab_length k n s a G c i ws : rep k n s a G → t_pt a !! (c, i) = Some (Some ws) → length ws = 1024%nat.
Proof. intros Hr Hx. by destruct (rep_sound _ _ _ _ _ _ _ _ Hr Hx). Qed.

(** The table of a heap at an address. *)
Lemma rep_table k n s a G heap h i ws :
  rep k n s a G → m_heaps s !! heap = Some h → in_heap h i → t_pt a !! (psMMUContext h, i) = Some (Some ws) →
  ∃ p b phi, g_tab G !! (psMMUContext h, i) = Some (p, b, phi) ∧ p ≠ 0 ∧ b ≠ 0 ∧
    m_pts s !! p = Some (mkPT b b (count ws)) ∧ m_mem s !! b = Some (mkArea [phi] ws) ∧
    (∀ Q : Z → mmu_st → Prop, Q p s → wp (rd_slot (psMMUContext h) i) Q s).
Proof.
  intros (W&Hr&_) Hh Hi Hx. pose proof (r_heap _ _ _ _ _ _ Hr _ _ Hh) as Hok. destruct (heap_index _ _ _ Hok Hi) as [Hi' _].
  pose proof (r_tab _ _ _ _ _ _ Hr (psMMUContext h, i)) as Htab. rewrite Hx in Htab.
  destruct (g_tab G !! (psMMUContext h, i)) as [[[p b] phi]|] eqn:Hg; [|done]. simpl in Htab.
  exists p, b, phi. split; [done|]. destruct Htab as (?&_&?&_&?&?&_). split_and!; try done.
  intros Q HQ. eapply wp_rd_slot_dirs; [apply Hr|apply Hok|lia|by apply table_lookup|]. by rewrite Hg.
Qed.

Lemma rep_no_table k n s a G heap h i :
  rep k n s a G → m_heaps s !! heap = Some h → in_heap h i → t_pt a !! (psMMUContext h, i) = None →
  ∀ Q : Z → mmu_st → Prop, Q 0 s → wp (rd_slot (psMMUContext h) i) Q s.
Proof.
  intros (W&Hr&_) Hh Hi Hx Q HQ. pose proof (r_heap _ _ _ _ _ _ Hr _ _ Hh) as Hok. destruct (heap_index _ _ _ Hok Hi) as [Hi' _].
  pose proof (r_tab _ _ _ _ _ _ Hr (psMMUContext h, i)) as Htab. rewrite Hx in Htab.
  eapply wp_rd_slot_dirs; [apply Hr|apply Hok|lia|by apply table_lookup|]. by destruct (g_tab G !! _).
Qed.

(** One entry and the count of its table. *)
Lemma rep_entry k n s a G c i ws p b phi ws' :
  rep k n s a G → t_pt a !! (c, i) = Some (Some ws) → g_tab G !! (c, i) = Some (p, b, phi) → sound ws' →
  rep k n (set_m_mem (<[b := mkArea [phi] ws']> (m_mem s)) (set_m_pts (<[p := mkPT b b (count ws')]> (m_pts s)) s))
    (set_pt (<[(c, i) := Some ws']> (t_pt a)) a) G.
Proof.
  intros (W&[r1 r2 r3 r4 r5 r6 r7 r8 r9]&HW) Hx Hg Hsnd. pose proof (r2 (c, i)) as Htab. rewrite Hx, Hg in Htab. simpl in Htab.
  destruct Htab as (Hp&Hinf&Hb&Hpl&Hpt&Hm&_). exists W. split; [|done]. split; cbn [m_pts m_mem m_ctxs m_heaps m_os m_next set_m_mem set_m_pts].
  - eapply dirs_frame; [exact r1|done|done|]. intros b' c' _ _ Hpl'. split; [|done]. cbn [m_mem set_m_mem].
    rewrite lookup_insert_ne; [done|]. intros <-. by rewrite Hpl in Hpl'.
  - intros y. cbn [t_pt set_pt]. destruct (decide (y = (c, i))) as [->|Hy].
    + rewrite lookup_insert_eq, Hg. cbn [tab_ok m_pts m_mem set_m_mem set_m_pts]. rewrite !lookup_insert_eq. split_and!; done.
    + rewrite lookup_insert_ne by done. eapply tab_ok_frame; [apply r2|]. intros q b' phi' Hq.
      pose proof (r2 y) as Hty. rewrite Hq in Hty. destruct (tab_info _ _ _ _ _ _ _ Hty) as (_&Hqi&_).
      cbn [m_pts m_mem set_m_mem set_m_pts]. assert (p ≠ q) by congruence. rewrite lookup_insert_ne by done.
      split_and!; [done|done|]. intros _ Hpl'. split; [|done]. rewrite lookup_insert_ne; [done|]. intros <-. congruence.
  - intros c' i' Hin. cbn [t_pt set_pt t_list] in *. destruct (decide ((c', i') = (c, i))) as [[= -> ->]|Hy]; [apply r3; by rewrite Hx|].
    rewrite lookup_insert_ne in Hin by done. by apply r3.
  - done.
  - unfold phys in *. cbn [m_mem set_m_mem]. rewrite fmap_insert. cbn [ar_phys]. rewrite (insert_id (ar_phys <$> m_mem s) b [phi]) by by rewrite lookup_fmap, Hm.
    unfold areas in *. cbn [t_list t_pt set_pt]. erewrite omap_insert_Some by done.
    rewrite map_size_insert, lookup_omap, Hx. exact r5.
  - done.
  - intros q Hq. apply r7. rewrite lookup_insert_is_Some in Hq. destruct Hq as [[<-|[_ ?]]|?]; eauto.
  - intros q h Hq. by eapply heap_ok_tables, r8.
  - unfold blocks in *. cbn [t_list t_pt set_pt]. rewrite map_size_insert, Hx. exact r9.
Qed.

(** ** Mapping *)

(** The address lies in the heap and has a page table. *)
Definition mappable a (h : MMU_HEAP) (v : Z) : Prop := is_u32 v ∧ in_heap h (pdx v) ∧ present a (psMMUContext h) (pdx v).

Lemma wp_MMU_MapPage k n s a G heap h v P f (Q : unit → mmu_st → Prop) :
  rep k n s a G → m_heaps s !! heap = Some h → mappable a h v → translate a (psMMUContext h) v = None →
  (∀ s', rep k n s' (put_entry (psMMUContext h) v (pte P f) a) G → m_heaps s' = m_heaps s → m_os s' = m_os s →
     Q tt s') →
  wp (MMU_MapPage heap v P f) Q s.
Proof.
  intros Hr Hh (Hu&Hi&ws&Hx) Hnone HQ. pose proof Hr as (W&Hrw&_). pose proof (r_heap _ _ _ _ _ _ Hrw _ _ Hh) as Hok.
  destruct (heap_index _ _ _ Hok Hi) as [_ Hown]. pose proof (ptx_range v) as Ht.
  pose proof (rep_tab_length _ _ _ _ _ _ _ _ Hr Hx) as Hlen.
  destruct (rep_table _ _ _ _ _ _ _ _ _ Hr Hh Hi Hx) as (p&b&phi&Hg&Hp&Hb&Hpt&Hm&Hslot).
  unfold MMU_MapPage. wp_step. eapply wp_rd_heap; [done|]. unfold id.
  rewrite (ho_pdshift _ _ Hok), (ho_ptshift _ _ Hok), (ho_ptmask _ _ Hok), (ho_mask _ _ Hok), shiftr_pd, shiftr_pt, pte_written.
  wp_step. apply Hslot. wp_step. eapply wp_rd_pt; [done|]. cbn [PTPageCpuVAddr].
  destruct (lookup_lt_is_Some_2 ws (Z.to_nat (ptx v))) as [w Hw]; [lia|].
  wp_step. eapply wp_rd_word; [done|lia|done|]. wp_step. eapply wp_wr_pt; [done|]. cbn [hPTPageOSMemHandle PTPageCpuVAddr ui32ValidPTECount].
  eapply wp_wr_word; [exact Hm|simpl; lia|]. cbn [ar_phys ar_words].
  assert (valid w = false) as Hv.
  { unfold translate in Hnone. rewrite Hown, Hx in Hnone. cbn [entry] in Hnone. rewrite Hw in Hnone. simpl in Hnone. by destruct (valid w). }
  assert (u32 (count ws + 1) = count (<[Z.to_nat (ptx v) := pte P f]> ws)) as ->.
  { rewrite (count_insert _ _ _ _ Hw), Hv, pte_valid. cbn [Z.b2z]. pose proof (count_range ws).
    rewrite u32_small by (unfold is_u32; lia). lia. }
  apply HQ; [|done|done]. unfold put_entry. rewrite Hx.
  exact (rep_entry _ _ s a G _ _ ws p b phi _ Hr Hx Hg (sound_insert _ _ _ (rep_sound _ _ _ _ _ _ _ _ Hr Hx) (or_introl (pte_valid P f)))).
Qed.

(** ** The mapping loops *)

(** [m] pages from [v], the [j]-th at [P j]. *)
Fixpoint put_pages (m : nat) (c v : Z) (P : Z → Z) (f : Z) (j : Z) (a : tables) : tables :=
  match m with
  | O => a
  | S m => put_pages m c (v + 4096) P f (j + 1) (put_entry c v (pte (P j) f) a)
  end.

Lemma put_pages_list m c v P f j a : t_list (put_pages m c v P f j a) = t_list a ∧ t_owner (put_pages m c v P f j a) = t_owner a.
Proof.
  revert v j a. induction m as [|m IH]; intros v j a; simpl; [done|]. destruct (IH (v + 4096) (j + 1) (put_entry c v (pte (P j) f) a)) as [-> ->].
  by rewrite put_entry_list, put_entry_owner.
Qed.

Lemma put_entry_present c v w a c' i : present a c' i → present (put_entry c v w a) c' i.
Proof.
  intros [ws Hx]. unfold put_entry. destruct (t_pt a !! (c, pdx v)) as [[ws'|]|] eqn:Hv; [|by exists ws..].
  destruct (decide ((c', i) = (c, pdx v))) as [[= -> ->]|Hne].
  - eexists. apply lookup_insert_eq.
  - exists ws. cbn [t_pt set_pt]. by rewrite lookup_insert_ne.
Qed.

(** The tables have 1024 entries. *)
Definition full a : Prop := ∀ x ws, t_pt a !! x = Some (Some ws) → length ws = 1024%nat.

Lemma rep_full k n s a G : rep k n s a G → full a.
Proof. intros Hr [c i] ws. by eapply rep_tab_length. Qed.

Lemma put_entry_full c v w a : full a → full (put_entry c v w a).
Proof.
  intros Hf x ws Hx. unfold put_entry in Hx. destruct (t_pt a !! (c, pdx v)) as [[ws'|]|] eqn:Hv; [|by eapply Hf..].
  cbn [t_pt set_pt] in Hx. apply lookup_insert_Some in Hx as [[_ [= <-]]|[_ Hx]]; [|by eapply Hf]. rewrite length_insert. by eapply Hf.
Qed.

(** What the loop leaves at every address of every context. *)
Lemma put_pages_translate m c v P f j a c' u : full a → v mod 4096 = 0 →
  (∀ i, 0 ≤ i < Z.of_nat m → present a c (pdx (v + i * 4096))) →
  translate (put_pages m c v P f j a) c' u =
    if decide (owner a c' (pdx u) = c ∧ v ≤ u < v + Z.of_nat m * 4096)
    then Some (pte (P (j + (u - v) / 4096)) f) else translate a c' u.
Proof.
  intros Hf Hv. revert v j a Hf Hv. induction m as [|m IH]; intros v j a Hf Hv Hp; cbn [put_pages].
  { rewrite decide_False by lia. done. }
  assert (present a c (pdx v)) as Hpv by (replace v with (v + 0 * 4096) by lia; apply Hp; lia).
  assert (owner (put_entry c v (pte (P j) f) a) c' (pdx u) = owner a c' (pdx u)) as Ho.
  { unfold owner. by rewrite put_entry_owner. }
  rewrite IH, Ho; [|by apply put_entry_full| |].
  2:{ rewrite Z.add_mod, Hv by lia. done. }
  2:{ intros i Hi. apply put_entry_present. replace (v + 4096 + i * 4096) with (v + (i + 1) * 4096) by lia. apply Hp. lia. }
  rewrite put_entry_translate by eauto. rewrite pte_valid. unfold hits, page_of.
  pose proof (Z.div_mod v 4096 ltac:(lia)) as Hdv. pose proof (Z.div_mod u 4096 ltac:(lia)) as Hdu.
  pose proof (Z.mod_pos_bound u 4096 ltac:(lia)) as Hmu.
  destruct (decide (owner a c' (pdx u) = c ∧ v + 4096 ≤ u < v + 4096 + Z.of_nat m * 4096)) as [[Hc Hu]|Hn].
  - rewrite decide_True by (split; [done|lia]). do 3 f_equal.
    replace (u - v) with (u - (v + 4096) + 1 * 4096) by lia. rewrite Z.div_add by lia. lia.
  - destruct (decide (owner a c' (pdx u) = c ∧ u / 4096 = v / 4096)) as [[Hc Hu]|Hn'].
    + rewrite decide_True by (split; [done|lia]). rewrite (Z.div_small (u - v)) by lia. do 3 f_equal. lia.
    + rewrite decide_False; [done|]. intros [Hc Hu]. destruct Hn. split; [done|].
      assert (u / 4096 ≠ v / 4096) by tauto. lia.
Qed.

(** Mapped pages are the [m] pages of the range. *)
Lemma wp_map_loop m k n s a G heap h v P f j cnt sz DevPAddr fuel (Q : unit → mmu_st → Prop) :
  rep k n s a G → m_heaps s !! heap = Some h → v mod 4096 = 0 →
  (∀ i, 0 ≤ i < Z.of_nat m → mappable a h (v + i * 4096) ∧ translate a (psMMUContext h) (v + i * 4096) = None) →
  (∀ i s (Q : Z → mmu_st → Prop), j ≤ i < j + Z.of_nat m → Q (P i) s → wp (DevPAddr i) Q s) →
  0 ≤ cnt → sz ≤ cnt + Z.of_nat m * 4096 < sz + 4096 → cnt + Z.of_nat m * 4096 < 4294967296 → (m ≤ fuel)%nat →
  (∀ s', rep k n s' (put_pages m (psMMUContext h) v P f j a) G → m_heaps s' = m_heaps s → m_os s' = m_os s → Q tt s') →
  wp (map_loop fuel j cnt sz heap v DevPAddr f) Q s.
Proof.
  revert s a v j cnt fuel. induction m as [|m IH]; intros s a v j cnt fuel Hr Hh Hv Hm HP Hcnt Hsz Hlt Hfuel HQ.
  { destruct fuel; cbn [map_loop]; destruct (Z.ltb_spec cnt sz); [lia|wp_step; by apply HQ|lia|wp_step; by apply HQ]. }
  destruct fuel as [|fuel]; [lia|]. cbn [map_loop]. destruct (Z.ltb_spec cnt sz); [|lia].
  wp_step. apply HP; [lia|]. destruct (Hm 0 ltac:(lia)) as [Hmap Hnone]. rewrite Z.add_0_r in Hmap, Hnone.
  wp_step. eapply wp_MMU_MapPage; [done..|]. intros s1 Hr1 Hh1 Ho1. wp_step. eapply wp_rd_heap; [by rewrite Hh1|].
  pose proof Hr as (W&Hrw&_). pose proof (r_heap _ _ _ _ _ _ Hrw _ _ Hh) as Hok. rewrite (ho_page _ _ Hok).
  rewrite (u32_small (cnt + 4096)) by (unfold is_u32; lia).
  assert (0 < Z.of_nat m → u32 (v + 4096) = v + 4096) as Hu32.
  { intros H0. destruct (Hm 1 ltac:(lia)) as [(Hu&_) _]. rewrite Z.mul_1_l in Hu. by apply u32_small. }
  cbn [put_pages] in HQ. destruct m as [|m].
  { destruct fuel; cbn [map_loop]; (destruct (Z.ltb_spec (cnt + 4096) sz); [lia|]); wp_step; apply HQ; done. }
  rewrite Hu32 by lia. eapply IH; [exact Hr1|by rewrite Hh1| | | |lia|lia|lia|lia|].
  - rewrite Z.add_mod, Hv by lia. done.
  - intros i Hi. replace (v + 4096 + i * 4096) with (v + (i + 1) * 4096) by lia.
    destruct (Hm (i + 1) ltac:(lia)) as [(Hu&Hin&Hpr) Hno]. split.
    + split; [done|]. split; [done|]. by apply put_entry_present.
    + destruct Hmap as (_&_&Hpv). rewrite put_entry_translate; [|intros ws; by eapply rep_tab_length|done].
      rewrite decide_False; [done|]. intros [_ Hp]. unfold page_of in Hp. rewrite Z.div_add in Hp by lia. lia.
  - intros i s' Q' Hi. apply HP. lia.
  - intros s2 Hr2 Hh2 Ho2. apply HQ; [done|congruence..].
Qed.

(** Bytes to pages, rounded up. *)
Definition pages (sz : Z) : nat := Z.to_nat ((sz + 4095) / 4096).

Lemma pages_spec sz : 0 ≤ sz → sz ≤ Z.of_nat (pages sz) * 4096 < sz + 4096 ∧ (pages sz ≤ turns sz)%nat.
Proof.
  intros Hsz. unfold pages, turns. change SGX_MMU_PAGE_SIZE with 4096.
  pose proof (Z.div_mod (sz + 4095) 4096 ltac:(lia)). pose proof (Z.mod_pos_bound (sz + 4095) 4096 ltac:(lia)).
  pose proof (Z.div_mod sz 4096 ltac:(lia)). pose proof (Z.mod_pos_bound sz 4096 ltac:(lia)).
  assert (0 ≤ (sz + 4095) / 4096) by (apply Z.div_pos; lia). rewrite Z2Nat.id by lia. split; [lia|].
  assert (0 ≤ sz / 4096) by (apply Z.div_pos; lia). lia.
Qed.

(** A free range of whole pages with page tables. *)
Definition range_free a (h : MMU_HEAP) (v sz : Z) : Prop :=
  v mod 4096 = 0 ∧ 0 ≤ sz ≤ 4294963200 ∧
  ∀ u, v ≤ u < v + sz → mappable a h u ∧ translate a (psMMUContext h) u = None.

Lemma range_free_page a h v sz i : range_free a h v sz → 0 ≤ i < Z.of_nat (pages sz) →
  mappable a h (v + i * 4096) ∧ translate a (psMMUContext h) (v + i * 4096) = None.
Proof. intros (Hv&Hsz&Hr) Hi. destruct (pages_spec sz ltac:(lia)) as [Hp _]. apply Hr. lia. Qed.

Lemma wp_map_range k n s a G heap h v sz P f DevPAddr (Q : unit → mmu_st → Prop) :
  rep k n s a G → m_heaps s !! heap = Some h → range_free a h v sz →
  (∀ i s (Q : Z → mmu_st → Prop), 0 ≤ i < Z.of_nat (pages sz) → Q (P i) s → wp (DevPAddr i) Q s) →
  (∀ s', rep k n s' (put_pages (pages sz) (psMMUContext h) v P f 0 a) G → m_heaps s' = m_heaps s → m_os s' = m_os s → Q tt s') →
  wp (map_loop (turns sz) 0 0 sz heap v DevPAddr f) Q s.
Proof.
  intros Hr Hh Hf HP HQ. pose proof Hf as (Hv&Hsz&_). destruct (pages_spec sz ltac:(lia)) as [Hp Hfu].
  eapply (wp_map_loop (pages sz)); [done..| | |lia|lia|lia|done|done].
  - intros i Hi. by eapply range_free_page.
  - intros i s' Q' Hi. apply HP. lia.
Qed.
End map.
