(* ===== verification/MmuUnmap.v ===== *)
(** * The MMU: unmapping

    The two loops that clear page table entries: [MMU_UnmapPages] and, when an
    address range is given up, [MMU_UnmapPagesAndFreePTs], which also frees a
    page table with no valid entry left. *)

From S2P Require Import Prelude Mmu MmuRep MmuOps MmuTab MmuMap.

(** ** One page *)

Definition unmap_page (c v : Z) (a : tables) : tables :=
  match t_pt a !! (c, pdx v) with
  | Some (Some ws) =>
      if count (<[Z.to_nat (ptx v) := 0]> ws) =? 0 then drop_pt (c, pdx v) a else put_entry c v 0 a
  | _ => a
  end.

Lemma drop_put c v w a : drop_pt (c, pdx v) (put_entry c v w a) = drop_pt (c, pdx v) a.
Proof.
  unfold put_entry. destruct (t_pt a !! (c, pdx v)) as [[ws|]|]; [|done..]. unfold drop_pt. cbn [t_pt set_pt].
  by rewrite delete_insert_eq.
Qed.

Lemma unmap_page_same c v a : t_list (unmap_page c v a) = t_list a ∧ t_owner (unmap_page c v a) = t_owner a.
Proof.
  unfold unmap_page. destruct (t_pt a !! _) as [[ws|]|]; [|done..]. destruct (_ =? _); [done|].
  by rewrite put_entry_list, put_entry_owner.
Qed.

Lemma unmap_page_full c v a : full a → full (unmap_page c v a).
Proof.
  intros Hf. unfold unmap_page. destruct (t_pt a !! _) as [[ws|]|]; [|done..]. destruct (_ =? _); [|by apply put_entry_full].
  intros x ws' Hx. unfold drop_pt in Hx. cbn [t_pt set_pt] in Hx. apply lookup_delete_Some in Hx as [_ Hx]. by eapply Hf.
Qed.

(** It gives no table up halfway. *)
Lemma unmap_page_info c v a x : t_pt a !! x ≠ Some None → t_pt (unmap_page c v a) !! x ≠ Some None.
Proof.
  intros Hx. unfold unmap_page, put_entry, drop_pt. destruct (t_pt a !! (c, pdx v)) as [[ws|]|] eqn:Hv; [|done..].
  destruct (_ =? _); cbn [t_pt set_pt].
  - intros [_ ?]%lookup_delete_Some. done.
  - intros [[_ ?]|[_ ?]]%lookup_insert_Some; done.
Qed.

Lemma unmap_page_other c v a x : x ≠ (c, pdx v) → t_pt (unmap_page c v a) !! x = t_pt a !! x.
Proof.
  intros Hx. unfold unmap_page, put_entry, drop_pt. destruct (t_pt a !! (c, pdx v)) as [[ws|]|]; [|done..].
  destruct (_ =? _); cbn [t_pt set_pt]; [by rewrite lookup_delete_ne|by rewrite lookup_insert_ne].
Qed.

Lemma unmap_page_translate c v a c' u : full a →
  translate (unmap_page c v a) c' u = if decide (hits a c v c' u) then None else translate a c' u.
Proof.
  intros Hf. unfold unmap_page. destruct (t_pt a !! (c, pdx v)) as [[ws|]|] eqn:Hv.
  2,3: destruct (decide _) as [[Ho [Hp _]%page_index]|]; [|done]; unfold translate; by rewrite Ho, Hp, Hv.
  destruct (Z.eqb_spec (count (<[Z.to_nat (ptx v) := 0]> ws)) 0) as [Hz|Hz].
  - apply count_zero in Hz. pose proof (Hf _ _ Hv) as Hlen. pose proof (ptx_range v). pose proof (ptx_range u).
    unfold translate, drop_pt, owner. cbn [t_pt t_owner set_pt]. fold (owner a c' (pdx u)).
    destruct (decide ((owner a c' (pdx u), pdx u) = (c, pdx v))) as [[= Ho Hp]|Hne].
    + rewrite Ho, Hp, lookup_delete_eq, Hv. cbn [entry]. destruct (decide _) as [|Hn]; [done|].
      destruct (lookup_lt_is_Some_2 ws (Z.to_nat (ptx u))) as [w Hw]; [lia|]. rewrite Hw. simpl.
      destruct (decide (ptx u = ptx v)) as [Ht|Ht]; [destruct Hn; split; [done|by apply page_index]|].
      rewrite Forall_forall in Hz. rewrite (Hz w); [done|]. apply list_elem_of_lookup. exists (Z.to_nat (ptx u)).
      by rewrite list_lookup_insert_ne by lia.
    + rewrite lookup_delete_ne by congruence. rewrite decide_False; [done|]. intros [Ho [Hp _]%page_index]. congruence.
  - rewrite put_entry_translate; [done|by apply Hf|by exists ws].
Qed.

(** ** Runs *)

(** The pages from [v] as [MMU_UnmapPagesAndFreePTs] unmaps them: it is stuck
    at a table without memory. *)
Fixpoint unmap_run (m : nat) (c v : Z) (a : tables) : tables :=
  match m with
  | O => a
  | S m => match t_pt a !! (c, pdx v) with
           | Some None => a
           | _ => unmap_run m c (u32 (v + 4096)) (unmap_page c v a)
           end
  end.

(** As [MMU_UnmapPages] unmaps them. *)
Fixpoint clear_run (m : nat) (c v : Z) (a : tables) : tables :=
  match m with O => a | S m => clear_run m c (u32 (v + 4096)) (put_entry c v 0 a) end.

Lemma unmap_run_same m c v a : t_list (unmap_run m c v a) = t_list a ∧ t_owner (unmap_run m c v a) = t_owner a.
Proof.
  revert v a. induction m as [|m IH]; intros v a; simpl; [done|]. pose proof (unmap_page_same c v a) as [<- <-].
  destruct (t_pt a !! _) as [[ws|]|] eqn:Hx; [apply IH| |apply IH]. unfold unmap_page. by rewrite Hx.
Qed.

Lemma clear_run_same m c v a : t_list (clear_run m c v a) = t_list a ∧ t_owner (clear_run m c v a) = t_owner a.
Proof.
  revert v a. induction m as [|m IH]; intros v a; simpl; [done|]. destruct (IH (u32 (v + 4096)) (put_entry c v 0 a)) as [-> ->].
  by rewrite put_entry_list, put_entry_owner.
Qed.

Lemma page_next v : page_of (v + 4096) = page_of v + 1.
Proof. unfold page_of. replace (v + 4096) with (v + 1 * 4096) by lia. by rewrite Z.div_add by lia. Qed.

(** Pages of the 32-bit address space. *)
Definition in_space (v : Z) (m : nat) : Prop := 0 ≤ v ∧ ((0 < m)%nat → v + (Z.of_nat m - 1) * 4096 < 4294967296).

Lemma in_space_next v m : in_space v (S (S m)) → u32 (v + 4096) = v + 4096 ∧ in_space (v + 4096) (S m).
Proof. unfold in_space. intros [Hv Hm]. split; [apply u32_small; unfold is_u32; lia|]. lia. Qed.

Lemma unmap_run_translate m c v a c' u : full a → in_space v m →
  (∀ i, 0 ≤ i < Z.of_nat m → t_pt a !! (c, pdx (v + i * 4096)) ≠ Some None) →
  translate (unmap_run m c v a) c' u =
    if decide (owner a c' (pdx u) = c ∧ page_of v ≤ page_of u < page_of v + Z.of_nat m) then None else translate a c' u.
Proof.
  revert v a. induction m as [|m IH]; intros v a Hf Hs Hn; cbn [unmap_run].
  { rewrite decide_False by lia. done. }
  pose proof (Hn 0 ltac:(lia)) as Hn0. rewrite Z.add_0_r in Hn0.
  assert (owner (unmap_page c v a) c' (pdx u) = owner a c' (pdx u)) as Ho by (unfold owner; by destruct (unmap_page_same c v a) as [_ ->]).
  trans (translate (unmap_run m c (u32 (v + 4096)) (unmap_page c v a)) c' u); [by destruct (t_pt a !! _) as [[|]|]|].
  destruct m as [|m].
  { cbn [unmap_run]. rewrite unmap_page_translate by done. unfold hits. apply decide_ext. clear. split; intros [? ?]; (split; [done|lia]). }
  destruct (in_space_next _ _ Hs) as [-> Hs']. rewrite IH, Ho, page_next, unmap_page_translate; [|done|by apply unmap_page_full|done|].
  2:{ intros i Hi. replace (v + 4096 + i * 4096) with (v + (i + 1) * 4096) by lia. apply unmap_page_info, Hn. lia. }
  unfold hits. clear. repeat destruct (decide _); try done; exfalso; lia.
Qed.

Lemma clear_run_translate m c v a c' u : full a → in_space v m →
  (∀ i, 0 ≤ i < Z.of_nat m → t_pt a !! (c, pdx (v + i * 4096)) ≠ Some None) →
  translate (clear_run m c v a) c' u =
    if decide (owner a c' (pdx u) = c ∧ page_of v ≤ page_of u < page_of v + Z.of_nat m) then None else translate a c' u.
Proof.
  revert v a. induction m as [|m IH]; intros v a Hf Hs Hn; cbn [clear_run].
  { rewrite decide_False by lia. done. }
  pose proof (Hn 0 ltac:(lia)) as Hn0. rewrite Z.add_0_r in Hn0.
  assert (owner (put_entry c v 0 a) c' (pdx u) = owner a c' (pdx u)) as Ho by (unfold owner; by rewrite put_entry_owner).
  assert (translate (put_entry c v 0 a) c' u = if decide (hits a c v c' u) then None else translate a c' u) as Ht.
  { destruct (t_pt a !! (c, pdx v)) as [[ws|]|] eqn:Hv; [|done|].
    - rewrite put_entry_translate; [done|by apply Hf|by exists ws].
    - unfold put_entry. rewrite Hv. destruct (decide _) as [[Hc [Hp _]%page_index]|]; [|done]. unfold translate. by rewrite Hc, Hp, Hv. }
  destruct m as [|m].
  { cbn [clear_run]. rewrite Ht. unfold hits. apply decide_ext. clear. split; intros [? ?]; (split; [done|lia]). }
  destruct (in_space_next _ _ Hs) as [-> Hs']. rewrite IH, Ho, page_next, Ht; [|by apply put_entry_full|done|].
  2:{ intros i Hi. replace (v + 4096 + i * 4096) with (v + (i + 1) * 4096) by lia. specialize (Hn (i + 1) ltac:(lia)).
      unfold put_entry. destruct (t_pt a !! (c, pdx v)) as [[ws|]|] eqn:Hv; [|done..]. cbn [t_pt set_pt].
      intros [[_ ?]|[_ ?]]%lookup_insert_Some; done. }
  unfold hits. clear. repeat destruct (decide _); try done; exfalso; lia.
Qed.

(** ** The loops *)

Section unmap.
Context {env : MmuEnv} {law : MmuLaw env}.
Implicit Types (s : mmu_st) (a : tables) (G : ghost).

(** Clearing an entry and counting. *)
Lemma wp_clear_entry {A} k n s a G heap h v ws p b phi (R : M mmu_st A) (Q : A → mmu_st → Prop) :
  rep k n s a G → m_heaps s !! heap = Some h → in_heap h (pdx v) → t_pt a !! (psMMUContext h, pdx v) = Some (Some ws) →
  g_tab G !! (psMMUContext h, pdx v) = Some (p, b, phi) →
  m_pts s !! p = Some (mkPT b b (count ws)) → m_mem s !! b = Some (mkArea [phi] ws) →
  (∀ s', rep k n s' (put_entry (psMMUContext h) v 0 a) G → m_heaps s' = m_heaps s → m_os s' = m_os s →
     m_pts s' !! p = Some (mkPT b b (count (<[Z.to_nat (ptx v) := 0]> ws))) → wp R Q s') →
  wp (w ← rd_word b (ptx v);
      (if has_flag w SGX_MMU_PTE_VALID
       then wr_pt p (λ t, mkPT (hPTPageOSMemHandle t) (PTPageCpuVAddr t) (u32 (ui32ValidPTECount t - 1)))
       else mret tt);;
      wr_word b (ptx v) 0;;
      R) Q s.
Proof.
  intros Hr Hh Hi Hx Hg Hpt Hm HQ. pose proof (ptx_range v) as Ht. pose proof (rep_sound _ _ _ _ _ _ _ _ Hr Hx) as Hsnd.
  pose proof Hsnd as [Hlen _]. destruct (lookup_lt_is_Some_2 ws (Z.to_nat (ptx v))) as [w Hw]; [lia|].
  wp_step. eapply wp_rd_word; [done|lia|done|]. fold (valid w).
  pose proof (count_insert _ _ _ 0 Hw) as Hc. rewrite valid_0 in Hc. cbn [Z.b2z] in Hc. rewrite Z.add_0_r in Hc.
  set (ws' := <[Z.to_nat (ptx v) := 0]> ws) in *.
  pose proof (rep_entry _ _ s a G _ _ ws p b phi ws' Hr Hx Hg (sound_insert _ _ _ Hsnd (or_intror eq_refl))) as Hr'.
  assert (∀ s1, s1 = set_m_pts (<[p := mkPT b b (count ws')]> (m_pts s)) s →
    wp (wr_word b (ptx v) 0;; R) Q s1) as Hrest.
  { intros s1 ->. wp_step. eapply wp_wr_word; [exact Hm|simpl; lia|].
    apply HQ; [|done|done|apply lookup_insert_eq].
    unfold put_entry. rewrite Hx. exact Hr'. }
  wp_step. pose proof (count_range ws) as Hcr. pose proof (count_range ws') as Hcr'. destruct (valid w).
  - eapply wp_wr_pt; [done|]. apply Hrest. cbn [hPTPageOSMemHandle PTPageCpuVAddr ui32ValidPTECount]. cbn [Z.b2z] in Hc.
    rewrite u32_small by (unfold is_u32; lia). by rewrite Hc.
  - wp_step. apply Hrest. cbn [Z.b2z] in Hc. rewrite Hc, Z.sub_0_r.
    rewrite insert_id by done. by destruct s.
Qed.

(** All pages lie in the heap. *)
Definition pages_in (h : MMU_HEAP) (v : Z) (m : nat) : Prop :=
  in_space v m ∧ ∀ i, 0 ≤ i < Z.of_nat m → in_heap h (pdx (v + i * 4096)).

Lemma pages_in_next h v m : pages_in h v (S (S m)) → u32 (v + 4096) = v + 4096 ∧ pages_in h (v + 4096) (S m).
Proof.
  intros [Hs Hi]. destruct (in_space_next _ _ Hs) as [Hu Hs']. split; [done|]. split; [done|].
  intros i Hi'. replace (v + 4096 + i * 4096) with (v + (i + 1) * 4096) by lia. apply Hi. lia.
Qed.

Lemma pages_in_0 h v : in_space v 1 → pages_in h (u32 (v + 4096)) 0.
Proof. intros _. split; [|lia]. split; [apply u32_range|lia]. Qed.

Lemma pages_in_tail h v m : pages_in h v (S m) → pages_in h (u32 (v + 4096)) m.
Proof.
  destruct m as [|m]; [intros [? _]; apply pages_in_0; done|]. intros Hp. by destruct (pages_in_next _ _ _ Hp) as [-> ?].
Qed.

Lemma pages_in_head h v m : pages_in h v (S m) → in_heap h (pdx v).
Proof. intros [_ Hp]. specialize (Hp 0 ltac:(lia)). by rewrite Z.add_0_r in Hp. Qed.

(** No page table went away unless the directory cache is invalidated. *)
Definition tables_kept a a' : Prop := ∀ x, is_Some (t_pt a !! x) → is_Some (t_pt a' !! x).

Lemma put_entry_kept c v w a : tables_kept a (put_entry c v w a).
Proof.
  intros x Hx. unfold put_entry. destruct (t_pt a !! (c, pdx v)) as [[ws|]|]; [|done..]. cbn [t_pt set_pt].
  rewrite lookup_insert_is_Some. destruct (decide ((c, pdx v) = x)); [by left|by right].
Qed.

Lemma wp_unmap_free_loop m k n s a G heap h v inv :
  rep k n s a G → m_heaps s !! heap = Some h → pages_in h v m →
  wp (unmap_free_loop m heap v inv) (λ inv' s', (∃ G', rep k n s' (unmap_run m (psMMUContext h) v a) G') ∧ keep s s' ∧
    (inv' = false → inv = false ∧ tables_kept a (unmap_run m (psMMUContext h) v a))) s.
Proof.
  revert s a G h v inv. induction m as [|m IH]; intros s a G h v inv Hr Hh Hp; cbn [unmap_free_loop unmap_run].
  { wp_step. split; [by exists G|]. split; [apply keep_refl|]. intros Hf. split; [done|by intros x]. }
  pose proof Hr as (W&Hrw&_). pose proof (r_heap _ _ _ _ _ _ Hrw _ _ Hh) as Hok.
  pose proof (pages_in_head _ _ _ Hp) as Hi. pose proof (pages_in_tail _ _ _ Hp) as Hp'.
  wp_step. eapply wp_rd_heap; [done|]. unfold id, IMG_NULL.
  rewrite (ho_pdshift _ _ Hok), (ho_ptmask _ _ Hok), (ho_ptshift _ _ Hok), (ho_page _ _ Hok), shiftr_pd, shiftr_pt. cbv zeta. wp_step.
  destruct (t_pt a !! (psMMUContext h, pdx v)) as [[ws|]|] eqn:Hx.
  - destruct (rep_table _ _ _ _ _ _ _ _ _ Hr Hh Hi Hx) as (p&b&phi&Hg&Hp0&Hb&Hpt&Hm&Hslot). apply Hslot.
    destruct (Z.eqb_spec p 0); [done|]. wp_step. eapply wp_rd_pt; [done|]. cbn [PTPageCpuVAddr].
    destruct (Z.eqb_spec b 0); [done|]. eapply wp_clear_entry; [done..|]. intros s1 Hr1 Hh1 Ho1 Hpt1.
    wp_step. eapply wp_rd_pt; [done|]. cbn [ui32ValidPTECount]. unfold unmap_page. rewrite Hx.
    destruct (_ =? 0) eqn:Hz; wp_step.
    + rewrite u32_small by (pose proof (ho_range _ _ Hok); unfold in_heap, is_u32 in *; lia).
      wp_step. eapply wp_mono; [eapply wp_free_page_table; [done|by rewrite Hh1|done]|]. cbn beta.
      intros [] s2 ((G2&Hr2)&Hk2). rewrite drop_put in Hr2. wp_step.
      assert (keep s s2) as Hk by (eapply keep_trans; [by apply keep_same|done]).
      destruct (keep_heap _ _ _ _ Hk Hh) as [u Hu].
      eapply wp_mono; [eapply (IH s2 _ _ _ _ true Hr2 Hu Hp')|]. cbn beta. intros inv' s3 (Hr3&Hk3&Hinv).
      split; [exact Hr3|]. split; [by eapply keep_trans|]. intros Hf. by destruct (Hinv Hf).
    + wp_step. assert (m_heaps s1 !! heap = Some h) as Hu by by rewrite Hh1.
      eapply wp_mono; [eapply (IH s1 _ _ _ _ inv Hr1 Hu Hp')|]. cbn beta. intros inv' s3 (Hr3&Hk3&Hinv).
      split; [exact Hr3|]. split; [eapply keep_trans; [by apply keep_same|done]|]. intros Hf. destruct (Hinv Hf) as [Hi' Hkt].
      split; [done|]. intros x Hxs. by apply Hkt, put_entry_kept.
  - pose proof (r_tab _ _ _ _ _ _ Hrw (psMMUContext h, pdx v)) as Htab. rewrite Hx in Htab.
    destruct (heap_index _ _ _ Hok Hi) as [Hi' _].
    eapply wp_rd_slot_dirs; [apply Hrw|apply Hok|lia|by apply table_lookup|].
    destruct (g_tab G !! (psMMUContext h, pdx v)) as [[[p b] phi]|]; [|done]. destruct Htab as (Hp0&_&_&Hpt).
    cbn [slot_of]. destruct (Z.eqb_spec p 0); [done|]. wp_step. eapply wp_rd_pt; [done|]. cbn [PTPageCpuVAddr].
    rewrite Z.eqb_refl. assert (pages_in h v m) as Hpm.
    { destruct Hp as [[Hs1 Hs2] Hp]. split; [split; [done|]; intros; specialize (Hs2 ltac:(lia)); lia|]. intros i ?. apply Hp. lia. }
    assert (unmap_run m (psMMUContext h) v a = a) as He by (destruct m; cbn [unmap_run]; [done|by rewrite Hx]).
    eapply wp_mono; [eapply (IH s a _ _ _ inv Hr Hh Hpm)|]. cbn beta. by rewrite He.
  - eapply rep_no_table; [done..|]. rewrite Z.eqb_refl.
    eapply wp_mono; [eapply (IH s a _ _ _ inv Hr Hh Hp')|]. cbn beta. unfold unmap_page. by rewrite Hx.
Qed.

Lemma wp_unmap_loop m k n s a G heap h v (Q : unit → mmu_st → Prop) :
  rep k n s a G → m_heaps s !! heap = Some h → pages_in h v m →
  (∀ i, 0 ≤ i < Z.of_nat m → t_pt a !! (psMMUContext h, pdx (v + i * 4096)) ≠ Some None) →
  (∀ s', rep k n s' (clear_run m (psMMUContext h) v a) G → m_heaps s' = m_heaps s → m_os s' = m_os s → Q tt s') →
  wp (unmap_loop m heap v) Q s.
Proof.
  revert s a v. induction m as [|m IH]; intros s a v Hr Hh Hp Hn HQ; cbn [unmap_loop clear_run] in *.
  { wp_step. by apply HQ. }
  pose proof Hr as (W&Hrw&_). pose proof (r_heap _ _ _ _ _ _ Hrw _ _ Hh) as Hok.
  pose proof (pages_in_head _ _ _ Hp) as Hi. pose proof (pages_in_tail _ _ _ Hp) as Hp'.
  pose proof (Hn 0 ltac:(lia)) as Hn0. rewrite Z.add_0_r in Hn0.
  assert (∀ a', (∀ x, t_pt a !! x ≠ Some None → t_pt a' !! x ≠ Some None) →
    ∀ i, 0 ≤ i < Z.of_nat m → t_pt a' !! (psMMUContext h, pdx (u32 (v + 4096) + i * 4096)) ≠ Some None) as Hn'.
  { intros a' Ha i Hi'. apply Ha. destruct m as [|m]; [lia|]. destruct (pages_in_next _ _ _ Hp) as [-> _].
    replace (v + 4096 + i * 4096) with (v + (i + 1) * 4096) by lia. apply Hn. lia. }
  wp_step. eapply wp_rd_heap; [done|]. unfold id, IMG_NULL.
  rewrite (ho_pdshift _ _ Hok), (ho_ptmask _ _ Hok), (ho_ptshift _ _ Hok), (ho_page _ _ Hok), shiftr_pd, shiftr_pt. cbv zeta. wp_step.
  destruct (t_pt a !! (psMMUContext h, pdx v)) as [[ws|]|] eqn:Hx; [|done|].
  - destruct (rep_table _ _ _ _ _ _ _ _ _ Hr Hh Hi Hx) as (p&b&phi&Hg&Hp0&Hb&Hpt&Hm&Hslot). apply Hslot.
    destruct (Z.eqb_spec p 0); [done|]. wp_step. eapply wp_rd_pt; [done|]. cbn [PTPageCpuVAddr].
    eapply wp_clear_entry; [done..|]. intros s1 Hr1 Hh1 Ho1 _. eapply IH; [done|by rewrite Hh1|done| |].
    + apply Hn'. intros x Hxs. unfold put_entry. rewrite Hx. cbn [t_pt set_pt]. intros [[_ ?]|[_ ?]]%lookup_insert_Some; done.
    + intros s2 Hr2 Hh2 Ho2. apply HQ; [done|congruence..].
  - eapply rep_no_table; [done..|]. rewrite Z.eqb_refl. unfold put_entry in HQ. rewrite Hx in HQ.
    eapply IH; [done..| |done]. by apply Hn'.
Qed.

(** ** The functions *)

Lemma rep_cc k n s a G x : rep k n s a G → rep k n (set_m_cc x s) a G.
Proof.
  intros (W&[r1 r2 r3 r4 r5 r6 r7 r8 r9]&HW). exists W. split; [|done]. split; try done. by eapply dirs_frame.
Qed.

(** The device will see the tables as they are: [cc_flags] are set. *)
Definition told (s : mmu_st) (flag : Z) : Prop := Z.land (ui32CacheControl s) flag = flag.

Lemma told_lor s flag : 0 ≤ flag → told (set_m_cc (Z.lor (ui32CacheControl s) flag) s) flag.
Proof.
  intros _. unfold told. cbn [ui32CacheControl set_m_cc]. apply Z.bits_inj'. intros j _. rewrite Z.land_spec, Z.lor_spec.
  destruct (Z.testbit flag j); by rewrite ?orb_true_r, ?andb_false_r.
Qed.

Lemma wp_UnmapPagesAndFreePTs k n s a G heap h v m :
  rep k n s a G → m_heaps s !! heap = Some h → pages_in h v (Z.to_nat m) →
  wp (MMU_UnmapPagesAndFreePTs heap v m) (λ _ s', let a' := unmap_run (Z.to_nat m) (psMMUContext h) v a in
    (∃ G', rep k n s' a' G') ∧ keep s s' ∧
    (told s' SGXMKIF_CC_INVAL_BIF_PD ∨ told s' SGXMKIF_CC_INVAL_BIF_PT ∧ tables_kept a a')) s.
Proof.
  intros Hr Hh Hp. unfold MMU_UnmapPagesAndFreePTs. wp_step. eapply wp_mono; [by eapply wp_unmap_free_loop|].
  intros inv s1 ((G'&Hr')&Hk&Hinv). assert (∀ x, keep s (set_m_cc x s1)) as Hkc.
  { intros x. eapply keep_trans; [done|by apply keep_same]. }
  destruct inv; apply wp_modify; (split; [exists G'; by apply rep_cc|]); (split; [by apply Hkc|]).
  - left. by apply told_lor.
  - right. split; [by apply told_lor|]. by destruct (Hinv eq_refl).
Qed.

Lemma wp_UnmapPages k n s a G heap h v m :
  rep k n s a G → m_heaps s !! heap = Some h → pages_in h v (Z.to_nat m) →
  (∀ i, 0 ≤ i < Z.of_nat (Z.to_nat m) → t_pt a !! (psMMUContext h, pdx (v + i * 4096)) ≠ Some None) →
  wp (MMU_UnmapPages heap v m) (λ _ s', rep k n s' (clear_run (Z.to_nat m) (psMMUContext h) v a) G ∧ keep s s' ∧
    told s' SGXMKIF_CC_INVAL_BIF_PT) s.
Proof.
  intros Hr Hh Hp Hn. unfold MMU_UnmapPages. wp_step. eapply wp_unmap_loop; [done..|]. intros s1 Hr1 Hh1 Ho1. apply wp_modify.
  split; [by apply rep_cc|]. split; [|by apply told_lor]. by apply keep_same.
Qed.
End unmap.
