(* ===== verification/MmuCtx.v ===== *)
(** * The MMU: the entry points, and contexts

    [MMU_MapPages], [MMU_MapScatter] and [MMU_MapShadow] run the same loop over
    pages that come from one block, a list, or a buffer of the CPU; each is
    [put_pages] of its pages.  The queries answer from [translate].  The walk of the
    device through the words in memory finds what [translate] says; contexts are
    made, given the page tables of shared heaps, and destroyed. *)

From stdpp Require Import functions.
From S2P Require Import Prelude Mmu MmuRep MmuOps MmuTab MmuMap MmuUnmap.

(** The step from page to page of physical memory: none for dummy pages. *)
Definition advance (ui32MemFlags : Z) : Z := if has_flag ui32MemFlags PVRSRV_MEM_DUMMY then 0 else 4096.

(** The physical pages of the three calls, by page of the range. *)
Definition block_page (SysPAddr f k : Z) : Z := u64 (SysPAddr + k * advance f).
Definition list_page (psSysAddr : list Z) (k : Z) : Z := default 0 (psSysAddr !! Z.to_nat k).
Definition buffer_page {env : MmuEnv} (CpuVAddr hOSMemHandle f k : Z) : Z :=
  let uOffset := u32 (k * advance f) in
  if CpuVAddr =? 0 then handle_to_phys hOSMemHandle uOffset else lin_to_phys hOSMemHandle (u64 (CpuVAddr + uOffset)).

Section calls.
Context {env : MmuEnv} {law : MmuLaw env}.
Implicit Types (s : mmu_st) (a : tables) (G : ghost).

(** What a mapping call leaves. *)
Definition mapped k n s a G h v sz (P : Z → Z) f s' : Prop :=
  rep k n s' (put_pages (pages sz) (psMMUContext h) v P f 0 a) G ∧ m_heaps s' = m_heaps s ∧ m_os s' = m_os s.

Lemma heap_page_size k n s a G heap h : rep k n s a G → m_heaps s !! heap = Some h → ui32DataPageSize h = 4096.
Proof. intros (W&Hr&_) Hh. exact (ho_page _ _ (r_heap _ _ _ _ _ _ Hr _ _ Hh)). Qed.

Lemma wp_MMU_MapPages k n s a G heap h v SysPAddr sz f :
  rep k n s a G → m_heaps s !! heap = Some h → range_free a h v sz →
  wp (MMU_MapPages heap v SysPAddr sz f) (λ _ s', mapped k n s a G h v sz (block_page SysPAddr f) f s') s.
Proof.
  intros Hr Hh Hf. unfold MMU_MapPages. wp_step. eapply wp_rd_heap; [done|]. unfold id. rewrite (heap_page_size _ _ _ _ _ _ _ Hr Hh).
  eapply (wp_map_range _ _ _ _ _ _ _ _ _ (block_page SysPAddr f)); [done..| |by split].
  intros i s' Q _ HQ. by wp_step.
Qed.

Lemma wp_MMU_MapScatter k n s a G heap h v psSysAddr sz f :
  rep k n s a G → m_heaps s !! heap = Some h → range_free a h v sz → (pages sz ≤ length psSysAddr)%nat →
  wp (MMU_MapScatter heap v psSysAddr sz f) (λ _ s', mapped k n s a G h v sz (list_page psSysAddr) f s') s.
Proof.
  intros Hr Hh Hf Hl. unfold MMU_MapScatter.
  eapply (wp_map_range _ _ _ _ _ _ _ _ _ (list_page psSysAddr)); [done..| |by split].
  intros i s' Q Hi HQ. destruct (lookup_lt_is_Some_2 psSysAddr (Z.to_nat i)) as [p Hp]; [lia|].
  unfold list_page in HQ. rewrite Hp in HQ |- *. wp_step. wp_step. by wp_step.
Qed.

Lemma wp_MMU_MapShadow k n s a G heap h v sz CpuVAddr hOSMemHandle f :
  rep k n s a G → m_heaps s !! heap = Some h → range_free a h v sz →
  wp (MMU_MapShadow heap v sz CpuVAddr hOSMemHandle f)
    (λ v' s', v' = v ∧ mapped k n s a G h v sz (buffer_page CpuVAddr hOSMemHandle f) f s') s.
Proof.
  intros Hr Hh Hf. unfold MMU_MapShadow. wp_step. eapply wp_rd_heap; [done|]. unfold id. rewrite (heap_page_size _ _ _ _ _ _ _ Hr Hh).
  wp_step. eapply (wp_map_range _ _ _ _ _ _ _ _ _ (buffer_page CpuVAddr hOSMemHandle f)); [done..| |].
  - intros i s' Q _ HQ. wp_step. unfold buffer_page, advance, IMG_NULL, SysCpuPAddrToDevPAddr in *. by destruct (CpuVAddr =? 0).
  - intros s' Hr' Hh' Ho'. wp_step. by split.
Qed.

(** The page a query finds, null if there is none. *)
Definition phys_of a c v : Z := default 0 (pte_page <$> translate a c v).

Lemma wp_MMU_GetPhysPageAddr k n s a G heap h v (Q : Z → mmu_st → Prop) :
  rep k n s a G → m_heaps s !! heap = Some h → is_u32 v → in_heap h (pdx v) →
  t_pt a !! (psMMUContext h, pdx v) ≠ Some None →
  Q (phys_of a (psMMUContext h) v) s → wp (MMU_GetPhysPageAddr heap v) Q s.
Proof.
  intros Hr Hh Hu Hi Hn HQ. pose proof Hr as (W&Hrw&_). pose proof (r_heap _ _ _ _ _ _ Hrw _ _ Hh) as Hok.
  destruct (heap_index _ _ _ Hok Hi) as [_ Hown]. pose proof (ptx_range v) as Ht.
  unfold MMU_GetPhysPageAddr. wp_step. eapply wp_rd_heap; [done|]. unfold id, IMG_NULL.
  rewrite (ho_pdshift _ _ Hok), (ho_ptshift _ _ Hok), (ho_ptmask _ _ Hok), (ho_mask _ _ Hok), shiftr_pd, shiftr_pt.
  unfold phys_of, translate in HQ. rewrite Hown in HQ. wp_step.
  destruct (t_pt a !! (psMMUContext h, pdx v)) as [[ws|]|] eqn:Hx; [|done|].
  - destruct (rep_table _ _ _ _ _ _ _ _ _ Hr Hh Hi Hx) as (p&b&phi&Hg&Hp&Hb&Hpt&Hm&Hslot).
    pose proof (rep_tab_length _ _ _ _ _ _ _ _ Hr Hx) as Hlen. pose proof (rep_sound _ _ _ _ _ _ _ _ Hr Hx) as [_ Hs].
    apply Hslot. destruct (Z.eqb_spec p 0); [done|]. wp_step. eapply wp_rd_pt; [done|]. cbn [PTPageCpuVAddr].
    destruct (lookup_lt_is_Some_2 ws (Z.to_nat (ptx v))) as [w Hw]; [lia|].
    wp_step. eapply wp_rd_word; [done|lia|done|]. wp_step. cbn [entry] in HQ. rewrite Hw in HQ. simpl in HQ.
    change (not32 (Z.shiftr 4095 SGX_MMU_PTE_ADDR_ALIGNSHIFT)) with 4294963200.
    assert (u64 (Z.shiftl (Z.land w 4294963200) SGX_MMU_PTE_ADDR_ALIGNSHIFT) = pte_page w) as ->.
    { unfold SGX_MMU_PTE_ADDR_ALIGNSHIFT. rewrite Z.shiftl_0_r. unfold pte_page, SGX_MMU_PTE_ADDR_MASK. rewrite land_page_mask.
      pose proof (u32_range w) as Hw'. unfold is_u32 in Hw'. pose proof (Z.div_mod (u32 w) 4096 ltac:(lia)).
      pose proof (Z.mod_pos_bound (u32 w) 4096 ltac:(lia)). assert (0 ≤ u32 w / 4096) by (apply Z.div_pos; lia).
      unfold u64. apply Z.mod_small. lia. }
    destruct (valid w) eqn:Hv; [exact HQ|]. rewrite Forall_lookup in Hs. destruct (Hs _ _ Hw) as [? | ->]; [congruence|exact HQ].
  - eapply rep_no_table; [done..|]. rewrite Z.eqb_refl. wp_step. exact HQ.
Qed.

(** ** Reading the tables after an operation *)

Lemma put_pages_full m c v P f j a : full a → full (put_pages m c v P f j a).
Proof. revert v j a. induction m as [|m IH]; intros v j a Hf; [done|]. apply IH. by apply put_entry_full. Qed.

Lemma put_pages_present m c v P f j a c' i : present a c' i → present (put_pages m c v P f j a) c' i.
Proof. revert v j a. induction m as [|m IH]; intros v j a Hp; [done|]. apply IH. by apply put_entry_present. Qed.

(** The tables after a mapping call, for every context and address. *)
Lemma map_translate k n s a G h v sz P f c u : rep k n s a G → range_free a h v sz →
  translate (put_pages (pages sz) (psMMUContext h) v P f 0 a) c u =
    if decide (owner a c (pdx u) = psMMUContext h ∧ v ≤ u < v + Z.of_nat (pages sz) * 4096)
    then Some (pte (P ((u - v) / 4096)) f) else translate a c u.
Proof.
  intros Hr Hf. rewrite put_pages_translate; [by rewrite Z.add_0_l|by eapply rep_full|by apply Hf|].
  intros i Hi. by apply (range_free_page a h v sz i).
Qed.
End calls.

Section walk.
Context {env : MmuEnv}.
Implicit Types (s : mmu_st) (a : tables) (G : ghost).

(** ** The walk *)

Lemma area_at_phys n next s b phi ws : mem_ok n next (phys s) → m_mem s !! b = Some (mkArea [phi] ws) →
  area_at s phi = Some (mkArea [phi] ws).
Proof.
  intros Hm Hb. unfold area_at. set (l := filter _ _).
  assert ((b, mkArea [phi] ws) ∈ l) as Hin by by apply list_elem_of_filter; split; [|by apply elem_of_map_to_list].
  destruct l as [|[b' ar] l'] eqn:Hl; [by apply elem_of_nil in Hin|]. simpl. f_equal.
  assert ((b', ar) ∈ l) as Hin' by (rewrite Hl; by left). unfold l in Hin'.
  apply list_elem_of_filter in Hin' as [Hp Hin'%elem_of_map_to_list].
  assert (b' = b) as -> by (eapply (mo_inj _ _ _ Hm _ _ [phi] [phi] phi); unfold phys;
    rewrite ?lookup_fmap, ?Hb, ?Hin'; simpl; rewrite ?Hp; (done || by left)).
  congruence.
Qed.

Lemma read_phys_area n next s b phi ws i : mem_ok n next (phys s) → m_mem s !! b = Some (mkArea [phi] ws) →
  read_phys s phi i = ws !! Z.to_nat i.
Proof. intros Hm Hb. unfold read_phys. by rewrite (area_at_phys _ _ _ _ _ _ Hm Hb). Qed.

(** The device finds what the tables say. *)
Lemma walk_translate k n s a G c v : rep k n s a G → c ∈ t_list a → is_u32 v →
  ∃ r, m_ctxs s !! c = Some r ∧ walk s (sPDDevPAddr r) v = translate a c v.
Proof.
  intros (W&Hr&HW) Hc Hv. destruct (dirs_pd _ _ _ _ _ _ (r_dirs _ _ _ _ _ _ Hr) Hc) as (r&Hcr&_&_&Hm).
  exists r. split; [done|]. pose proof (r_mem _ _ _ _ _ _ Hr) as Hmem. rewrite HW in Hm by done.
  unfold walk. rewrite (read_phys_area _ _ _ _ _ _ _ Hmem Hm). pose proof (pdx_range v Hv) as Hp.
  unfold pd_words. rewrite table_lookup by done. simpl. unfold translate.
  pose proof (r_tab _ _ _ _ _ _ Hr (owner a c (pdx v), pdx v)) as Htab.
  destruct (t_pt a !! _) as [[ws|]|], (g_tab G !! _) as [[[p b] phi]|]; simpl in Htab; try done.
  - destruct Htab as (_&_&Hb&_&_&Hmb&_). destruct (mo_page _ _ _ Hmem b [phi] phi) as [Hphi Hmod].
    { unfold phys. by rewrite lookup_fmap, Hmb. }
    { by left. }
    unfold pde. destruct (Z.eqb_spec b 0); [done|]. rewrite pde_valid, pde_page by done.
    by rewrite (read_phys_area _ _ _ _ _ _ _ Hmem Hmb).
  - destruct Htab as (_&_&->&_). done.
Qed.
End walk.

Section contexts.
Context {env : MmuEnv} {law : MmuLaw env}.
Implicit Types (s : mmu_st) (a : tables) (G : ghost).

(** ** Making a context *)

Definition add_ctx (c : Z) a : tables := mkTables (c :: t_list a) (t_pt a) (t_owner a).

Lemma heap_ok_add c a h : heap_ok a h → heap_ok (add_ctx c a) h.
Proof. intros []. split; try done. cbn [t_list add_ctx]. by right. Qed.

(** Blocks that no list leads to any more. *)
Lemma wp_MMU_Initialise k n s a G W (Q : PVRSRV_ERROR * option (Z * Z) → mmu_st → Prop) :
  rep_w k n s a G W →
  (∀ s', rep_w k n s' a G W → keep s s' → ¬ plenty (m_os s) → Q (PVRSRV_ERROR_OUT_OF_MEMORY, None) s') →
  (∀ s', rep_w (k + 1) n s' a G W → keep s s' → ¬ supply (S (n + areas a)) → Q (PVRSRV_ERROR_FAILED_TO_ALLOC_PAGES, None) s') →
  (∀ s' c phi G', c ∉ t_list a → m_heaps s' = m_heaps s → keep s s' →
     (∃ r, m_ctxs s' !! c = Some r ∧ sPDDevPAddr r = phi) → g_tab G' = g_tab G →
     rep_w k n s' (add_ctx c a) G' (λ c', if decide (c' = c) then zeros else W c') →
     Q (PVRSRV_OK, Some (c, phi)) s') →
  wp MMU_Initialise Q s.
Proof.
  intros Hr H0 H1 H2. pose proof (r_next _ _ _ _ _ _ Hr) as Hnx.
  destruct (rw_fresh_none _ _ _ _ _ _ Hr) as (Hfp&Hfc&Hfh&Hfm).
  unfold MMU_Initialise. wp_step. apply wp_OSAlloc_mmu. intros [] o' Ho' Hpl; cbn [negb].
  2:{ wp_step. apply H0; [|by split; [|naive_solver]|naive_solver]. destruct Hr as [r1 r2 r3 r4 r5 r6 r7 r8 r9].
      split; [by eapply dirs_frame|done..|simpl; lia]. }
  wp_step. apply wp_fresh. wp_step. wp_step. cbn [m_next set_m_os]. set (c := m_next s) in *.
  change (replicate (Z.to_nat SGX_MAX_PD_ENTRIES) IMG_NULL) with zeros.
  match goal with |- wp _ _ ?t => set (s1 := t) end.
  assert (∀ c', c' ∈ t_list a → c' ≠ c) as Hcl.
  { intros c' Hc' ->. destruct (d_ctx _ _ _ _ _ (r_dirs _ _ _ _ _ _ Hr) c Hc') as (r&Hcr&_). congruence. }
  assert (rep_w (k + 1) n s1 a G W) as Hr1.
  { destruct Hr as [r1 r2 r3 r4 r5 r6 r7 r8 r9]. split; try done; unfold s1; simpl.
    - destruct r1 as [Hl Hn Hctx]. split; simpl; [|done|].
      + eapply linked_frame; [|done]. intros c' Hc'. rewrite lookup_insert_ne; [done|]. intros <-. by apply (Hcl c).
      + intros c' Hc'. rewrite lookup_insert_ne by (intros <-; by apply (Hcl c)). by apply Hctx.
    - by apply (mem_ok_next _ (m_next s)); [|lia].
    - lia.
    - intros p. rewrite lookup_insert_is_Some. intros Hp. destruct (decide (c = p)) as [<-|]; [unfold c; lia|].
      enough (0 < p < m_next s) by (unfold c; lia). apply r7. naive_solver.
    - lia. }
  assert (keep s s1) as Hk1 by (split; [done|unfold s1; simpl; naive_solver]).
  wp_step. change SGX_MMU_PAGE_SIZE with 4096. eapply wp_OSAllocPages; [exact (r_mem _ _ _ _ _ _ Hr1)|exact (r_next _ _ _ _ _ _ Hr1)| |].
  { intros Hp. wp_step. by apply H1. }
  intros ps s2 Hlen Hnone Hs2 Hmem2. change (Z.to_nat (4096 / 4096)) with 1%nat in Hlen.
  change (replicate (Z.to_nat (4096 / 4)) 0) with zeros in *. destruct ps as [|phi [|]]; try done. clear Hlen.
  set (b := m_next s1) in *. assert (b = m_next s + 1) as Hb by done.
  assert (m_mem s2 !! b = Some (mkArea [phi] zeros)) as Hl2.
  { rewrite Hs2. apply lookup_insert_eq. }
  wp_step. eapply wp_first_page; [exact Hl2|done|lia|]. unfold IMG_NULL. destruct (Z.eqb_spec b 0); [lia|].
  wp_step. change (Z.to_nat SGX_MMU_PD_SIZE) with 1024%nat. eapply wp_fill; [exact Hl2|done|cbn [ar_words]; by rewrite zeros_length|].
  cbn [ar_words ar_phys]. intros s3 Hs3 Hm3. pose proof (fill_all 0 zeros) as Hfill. rewrite zeros_length in Hfill.
  rewrite Hfill in Hm3. change (replicate 1024 0) with zeros in Hm3. clear Hfill.
  assert (m_mem s3 = <[b := mkArea [phi] zeros]> (m_mem s)) as Hm3'.
  { rewrite Hm3, Hs2. cbn [m_mem set_m_mem]. by rewrite insert_insert_eq. }
  assert (s3 = set_m_mem (m_mem s3) (set_m_next (b + 1) s1)) as Hs3' by (rewrite Hs3 at 1; by rewrite Hs2).
  assert (m_ctxs s3 !! c = Some (mkCtx 0 0 0 zeros 0)) as Hc3 by (rewrite Hs3'; apply lookup_insert_eq).
  wp_step. wp_step. wp_step. unfold wr_ctx. wp_step. wp_step. wp_step. rewrite Hc3. wp_step. wp_step. wp_step. wp_step. wp_step.
  cbn [apsPTInfoList]. unfold SysCpuPAddrToDevPAddr.
  set (G' := mkGhost (g_tab G) (<[b := PDof c]> (g_place G)) (g_info G)).
  assert (m_mem s !! b = None) as Hfb.
  { apply eq_None_not_Some. intros Hsm. enough (0 < b < m_next s) by lia. apply (mo_fresh _ _ _ (r_mem _ _ _ _ _ _ Hr)).
    unfold phys. by rewrite lookup_fmap, fmap_is_Some. }
  apply (H2 _ c phi G'); [intros Hc'; by apply (Hcl c)|by rewrite Hs3'| | |done|].
  { eapply keep_trans; [exact Hk1|]. apply keep_same; by rewrite Hs3'. }
  { eexists. split; [apply lookup_insert_eq|done]. }
  assert (phys s3 = phys s2) as Hph.
  { unfold phys. rewrite Hm3', Hs2. cbn [m_mem set_m_mem]. by rewrite !fmap_insert. }
  rewrite Hs3'. destruct Hr as [r1 r2 r3 r4 r5 r6 r7 r8 r9].
  split; cbn [m_mem m_pts m_ctxs m_heaps m_os m_next pvMMUContextList set_m_list set_m_ctxs set_m_mem set_m_next s1 set_m_os t_list t_pt t_owner add_ctx].
  - destruct r1 as [Hl Hn Hctx]. split; cbn [m_mem m_ctxs pvMMUContextList set_m_list set_m_ctxs set_m_mem set_m_next s1 set_m_os].
    + simpl. split; [done|]. split; [unfold c; lia|]. eexists. split; [apply lookup_insert_eq|]. simpl.
      eapply linked_frame; [|exact Hl]. intros c' Hc'. by rewrite !lookup_insert_ne by (intros <-; by apply (Hcl c)).
    + apply NoDup_cons. split; [intros Hc'; by apply (Hcl c)|done].
    + intros c' [->|Hc']%elem_of_cons.
      * eexists. split; [apply lookup_insert_eq|]. simpl. rewrite decide_True by done. rewrite Hm3'.
        split_and!; [done|apply fn_lookup_insert|apply lookup_insert_eq|]. unfold slots, zeros. rewrite table_const. apply table_ext.
        intros j Hj. simpl. pose proof (r2 (c, j)) as Htab. destruct (t_pt a !! (c, j)) eqn:Hx.
        { destruct (r3 c j) as (Hc'&_); [by rewrite Hx|]. by destruct (Hcl c Hc'). }
        simpl in Htab. by destruct (g_tab G !! (c, j)).
      * pose proof (Hcl c' Hc') as Hne. destruct (Hctx c' Hc') as (r&Hcr&Hh&Hpl'&Hmr&HS). exists r.
        rewrite !lookup_insert_ne by done. rewrite decide_False by done. rewrite Hm3'.
        assert (b ≠ pvPDCpuVAddr r) by (intros He; rewrite <- He in Hmr; congruence).
        rewrite lookup_insert_ne by done. simpl. rewrite fn_lookup_insert_ne by done. done.
  - intros x. eapply tab_ok_frame; [apply r2|]. intros p b' phi' Hp. cbn [m_mem m_pts set_m_list set_m_ctxs set_m_mem set_m_next s1 set_m_os g_place g_info G'].
    split_and!; [done|done|]. intros Hb' Hpl'. pose proof (r2 x) as Htab. change (g_tab G !! x = Some (p, b', phi')) in Hp. rewrite Hp in Htab.
    assert (b ≠ b'); [|by rewrite Hm3', lookup_insert_ne, fn_lookup_insert_ne].
    intros <-. destruct (t_pt a !! x) as [[ws|]|]; simpl in Htab; [|by destruct Htab as (_&_&?&_)|done].
    destruct Htab as (_&_&_&_&_&Hmb&_). congruence.
  - intros c' i Hin. destruct (r3 c' i Hin) as (Hc'&?&?). split; [by right|done].
  - intros i o Hio. right. by eapply r4.
  - rewrite <- Hs3'. change (phys _) with (phys s3). rewrite Hph. replace (b + 1) with (m_next s2) by by rewrite Hs2.
    unfold areas in *. cbn [t_list t_pt add_ctx length].
    by replace (n + (S (length (t_list a)) + size (omap id (t_pt a))))%nat
      with (S (n + (length (t_list a) + size (omap id (t_pt a))))) by lia.
  - lia.
  - intros p Hp. destruct (decide (p = c)) as [->|Hne]; [unfold c; lia|]. enough (0 < p < m_next s) by lia. apply r7.
    rewrite !lookup_insert_ne in Hp by done. done.
  - intros p h Hp. by apply heap_ok_add, (r8 p).
  - unfold blocks in *. cbn [t_list t_pt add_ctx length]. lia.
Qed.

(** ** The page tables of shared heaps *)

(** [m] words from [i] copied. *)
Fixpoint copy (m : nat) (i : Z) (src dst : list Z) : list Z :=
  match m with O => dst | S m => copy m (i + 1) src (<[Z.to_nat i := default 0 (src !! Z.to_nat i)]> dst) end.

Lemma copy_length m i src dst : length (copy m i src dst) = length dst.
Proof. revert i dst. induction m as [|m IH]; intros i dst; simpl; [done|]. by rewrite IH, length_insert. Qed.

Lemma copy_lookup m i src dst j : 0 ≤ i → (j < length dst)%nat → length src = length dst →
  copy m i src dst !! j = if decide (i ≤ Z.of_nat j < i + Z.of_nat m) then src !! j else dst !! j.
Proof.
  revert i dst. induction m as [|m IH]; intros i dst Hi Hj Hl; simpl.
  { destruct (decide _); [lia|done]. }
  rewrite IH by (rewrite ?length_insert; lia). destruct (decide (Z.of_nat j = i)) as [<-|Hne].
  - rewrite Nat2Z.id, list_lookup_insert_eq by done. destruct (lookup_lt_is_Some_2 src j) as [w Hw]; [lia|]. rewrite Hw. simpl.
    repeat destruct (decide _); (lia || done).
  - rewrite list_lookup_insert_ne by lia. repeat destruct (decide _); (lia || done).
Qed.

(** A word of a directory. *)
Lemma wp_rep_wr_pd k n s a G W c r i v (Q : unit → mmu_st → Prop) :
  rep_w k n s a G W → c ∈ t_list a → m_ctxs s !! c = Some r → 0 ≤ i < Z.of_nat (length (W c)) →
  (∀ s', rep_w k n s' a G (λ c', if decide (c' = c) then <[Z.to_nat i := v]> (W c) else W c') →
     m_heaps s' = m_heaps s → m_os s' = m_os s → m_ctxs s' = m_ctxs s → Q tt s') →
  wp (wr_word (pvPDCpuVAddr r) i v) Q s.
Proof.
  intros Hr Hc Hcr Hi HQ. eapply (wp_rd_ctx_inv _ pvPDCpuVAddr r (λ pd, wp (wr_word pd i v) Q)); [exact Hcr|].
  apply wp_bind_inv. eapply wp_wr_pd; [apply Hr|done|done|]. intros s' Hs Hd. pose proof Hs as (He&_).
  apply HQ; [by eapply rw_pd_only|by rewrite He..].
Qed.

Lemma wp_rep_rd_pd k n s a G W c r i (Q : Z → mmu_st → Prop) :
  rep_w k n s a G W → c ∈ t_list a → m_ctxs s !! c = Some r → 0 ≤ i < Z.of_nat (length (W c)) →
  Q (default 0 (W c !! Z.to_nat i)) s → wp (rd_word (pvPDCpuVAddr r) i) Q s.
Proof.
  intros Hr Hc Hcr Hi HQ. destruct (dirs_pd _ _ _ _ _ _ (r_dirs _ _ _ _ _ _ Hr) Hc) as (r'&Hr'&_&_&Hm).
  assert (r' = r) as -> by congruence. destruct (lookup_lt_is_Some_2 (W c) (Z.to_nat i)) as [w Hw]; [lia|].
  rewrite Hw in HQ. eapply wp_rd_word; [done|lia|exact Hw|done].
Qed.

Lemma wp_copy_pd m k n s a G W c rc o ro i (Q : unit → mmu_st → Prop) :
  rep_w k n s a G W → c ∈ t_list a → o ∈ t_list a → c ≠ o → m_ctxs s !! c = Some rc → m_ctxs s !! o = Some ro →
  0 ≤ i → i + Z.of_nat m ≤ 1024 → length (W c) = 1024%nat → length (W o) = 1024%nat →
  (∀ s', rep_w k n s' a G (λ c', if decide (c' = c) then copy m i (W o) (W c) else W c') →
     m_heaps s' = m_heaps s → m_os s' = m_os s → m_ctxs s' = m_ctxs s → Q tt s') →
  wp (for_from m i (λ i, w ← rd_word (pvPDCpuVAddr ro) i; wr_word (pvPDCpuVAddr rc) i w)) Q s.
Proof.
  revert s W i. induction m as [|m IH]; intros s W i Hr Hc Ho Hne Hcc Hoo Hi Hm Hlc Hlo HQ; cbn [for_from copy] in *.
  { wp_step. apply HQ; [|done..]. destruct Hr as [r1 r2 r3 r4 r5 r6 r7 r8 r9]. split; try done.
    eapply dirs_ext; [exact r1|]. intros c' _. by destruct (decide (c' = c)) as [->|]. }
  wp_step. wp_step. eapply (wp_rep_rd_pd _ _ _ _ _ _ o ro); [done..|lia|]. eapply (wp_rep_wr_pd _ _ _ _ _ _ c rc); [done..|lia|].
  intros s1 Hr1 Hh1 Ho1 Hc1. eapply IH; [exact Hr1|done|done|done|by rewrite Hc1|by rewrite Hc1|lia|lia| | |].
  - cbn beta. rewrite decide_True by done. by rewrite length_insert.
  - cbn beta. by rewrite decide_False.
  - intros s2 Hr2 Hh2 Ho2 Hc2. cbn beta in Hr2. rewrite (decide_True (P:=c = c)), (decide_False (P:=o = c)) in Hr2 by done.
    apply HQ; [|congruence..]. destruct Hr2 as [r1 r2 r3 r4 r5 r6 r7 r8 r9]. split; try done.
    eapply dirs_ext; [exact r1|]. intros c' _. cbn beta. by destruct (decide (c' = c)).
Qed.

Definition insert_words (h : MMU_HEAP) (W : Z → list Z) (c : Z) : list Z :=
  copy (Z.to_nat (ui32PageTableCount h)) (ui32PDBaseIndex h) (W (psMMUContext h)) (W c).

Lemma wp_MMU_InsertHeap k n s a G W c heap h (Q : unit → mmu_st → Prop) :
  rep_w k n s a G W → c ∈ t_list a → m_heaps s !! heap = Some h → c ≠ psMMUContext h →
  (∀ c, c ∈ t_list a → length (W c) = 1024%nat) →
  (∀ s', rep_w k n s' a G (λ c', if decide (c' = c) then insert_words h W c else W c') →
     m_heaps s' = m_heaps s → m_os s' = m_os s → m_ctxs s' = m_ctxs s → Q tt s') →
  wp (MMU_InsertHeap c heap) Q s.
Proof.
  intros Hr Hc Hh Hne Hlen HQ. pose proof (r_heap _ _ _ _ _ _ Hr _ _ Hh) as Hok. pose proof (ho_ctx _ _ Hok) as Ho.
  destruct (dirs_pd _ _ _ _ _ _ (r_dirs _ _ _ _ _ _ Hr) Hc) as (rc&Hrc&_).
  destruct (dirs_pd _ _ _ _ _ _ (r_dirs _ _ _ _ _ _ Hr) Ho) as (ro&Hro&_). pose proof (ho_range _ _ Hok) as Hrg.
  unfold MMU_InsertHeap. wp_step. eapply wp_rd_ctx; [done|]. wp_step. eapply wp_rd_heap; [done|]. unfold id.
  wp_step. eapply wp_rd_ctx; [done|]. rewrite (ho_pdshift _ _ Hok), shiftr_pd, (ho_base _ _ Hok).
  assert (pdx (ui32PDBaseIndex h * 4194304) = ui32PDBaseIndex h) as -> by (unfold pdx; by rewrite Z.div_mul).
  eapply (wp_copy_pd _ _ _ _ _ _ _ c rc (psMMUContext h) ro); [done|done|exact Ho|done|done|done|lia|lia|by apply Hlen|by apply Hlen|]. exact HQ.
Qed.


(** ** A new address space *)

(** The directory of a new context while the heaps are being inserted: what
    is to be, or still null where no inserted heap is. *)
Definition filling s a G (hs : list Z) (c : Z) (ws : list Z) : Prop :=
  length ws = 1024%nat ∧ ∀ j, 0 ≤ j < 1024 →
    ws !! Z.to_nat j = Some (pde (g_tab G !! (owner a c j, j))) ∨
    ws !! Z.to_nat j = Some 0 ∧ ∀ heap h, heap ∈ hs → m_heaps s !! heap = Some h → shared_heap h = true → ¬ in_heap h j.

Lemma wp_insert_heaps k n s a G W c bef hs (Q : unit → mmu_st → Prop) :
  rep_w k n s a G W → c ∈ t_list a → (∀ heap, heap ∈ hs → ∃ h, m_heaps s !! heap = Some h ∧ psMMUContext h ≠ c) →
  (∀ c', c' ∈ t_list a → c' ≠ c → W c' = pd_words a G c') → filling s a G bef c (W c) →
  (∀ s' W', rep_w k n s' a G W' → (∀ c', c' ∈ t_list a → c' ≠ c → W' c' = pd_words a G c') →
     filling s a G (bef ++ hs) c (W' c) → m_heaps s' = m_heaps s → m_os s' = m_os s → m_ctxs s' = m_ctxs s → Q tt s') →
  wp (insert_heaps c hs) Q s.
Proof.
  revert s W bef. induction hs as [|heap hs IH]; intros s W bef Hr Hc Hhs HW Hf HQ; cbn [insert_heaps].
  { wp_step. rewrite app_nil_r in HQ. by eapply HQ. }
  destruct (Hhs heap ltac:(by left)) as (h&Hh&Hne). pose proof (r_heap _ _ _ _ _ _ Hr _ _ Hh) as Hok.
  pose proof (ho_range _ _ Hok) as Hrg. destruct Hf as [Hlen Hf].
  assert (∀ c', c' ∈ t_list a → length (W c') = 1024%nat) as HlW.
  { intros c' Hc'. destruct (decide (c' = c)) as [->|]; [done|]. rewrite HW by done. apply table_length. }
  assert (∀ s' W', rep_w k n s' a G W' → (∀ c', c' ∈ t_list a → c' ≠ c → W' c' = pd_words a G c') →
    filling s a G (bef ++ [heap]) c (W' c) → m_heaps s' = m_heaps s → m_os s' = m_os s → m_ctxs s' = m_ctxs s →
    wp (insert_heaps c hs) Q s') as Hnext.
  { intros s' W' Hr' HW' Hf' Hh' Ho' Hc'. eapply (IH s' W' (bef ++ [heap])); [done|done| |done| |].
    - intros q Hq. rewrite Hh'. apply Hhs. by right.
    - unfold filling. by rewrite Hh'.
    - rewrite <- app_assoc. unfold filling. rewrite Hh'. intros s2 W2 ? ? ? ? ? ?. eapply HQ; [done|done|done|congruence..]. }
  wp_step. unfold BM_CreateContext_InsertHeap_ForEachVaCb. wp_step. eapply wp_rd_heap; [done|].
  assert (shared_heap h = false → wp (insert_heaps c hs) Q s) as Hno.
  { intros Hs. eapply Hnext; [done|done| |done..]. split; [done|]. intros j Hj. destruct (Hf j Hj) as [?|[Hz Hn]]; [by left|right].
    split; [done|]. intros q hq [Hq| ->%list_elem_of_singleton]%elem_of_app Hhq Hsq; [by eapply Hn|]. congruence. }
  assert (shared_heap h = true → wp (MMU_InsertHeap c heap) (λ _, wp (insert_heaps c hs) Q) s) as Hyes.
  { intros Hs. eapply wp_MMU_InsertHeap; [done|done|done|by apply not_eq_sym|done|]. intros s1 Hr1 Hh1 Ho1 Hc1.
    eapply (Hnext s1); [exact Hr1| | |done..].
    - intros c' Hc' Hne'. cbn beta. rewrite decide_False by done. by apply HW.
    - cbn beta. rewrite decide_True by done. unfold insert_words. split; [by rewrite copy_length|]. intros j Hj.
      rewrite copy_lookup by (rewrite ?(HlW (psMMUContext h)), ?Hlen; (apply Hok || lia)). destruct (decide _) as [Hin|Hout].
      + left. rewrite HW by (done || apply Hok). unfold pd_words. rewrite table_lookup by done.
        assert (in_heap h j) as Hij by (unfold in_heap; lia). pose proof (ho_own _ _ Hok j Hij) as Hoj. rewrite Hs in Hoj.
        unfold owner. by rewrite Hoj.
      + destruct (Hf j Hj) as [?|[Hz Hn]]; [by left|right]. split; [done|].
        intros q hq [Hq| ->%list_elem_of_singleton]%elem_of_app Hhq Hsq; [by eapply Hn|].
        assert (hq = h) as -> by congruence. unfold in_heap. lia. }
  unfold shared_heap in Hno, Hyes. destruct (DevMemHeapType (psDevArena h)); first [by apply Hyes|wp_step; by apply Hno].
Qed.

(** All shared directory indices are those of heaps in the list. *)
Definition covers s a (hs : list Z) : Prop :=
  ∀ i o, t_owner a !! i = Some o → ∃ heap h, heap ∈ hs ∧ m_heaps s !! heap = Some h ∧ shared_heap h = true ∧ in_heap h i.

Definition create_post k n s a (r : option (Z * Z)) s' : Prop :=
  match r with
  | Some (c, pd) => c ∉ t_list a ∧ (∃ G', rep k n s' (add_ctx c a) G') ∧ m_heaps s' = m_heaps s ∧
      ∃ r, m_ctxs s' !! c = Some r ∧ sPDDevPAddr r = pd
  | None => ¬ enough n s a ∧ ∃ k' G', k ≤ k' ≤ k + 1 ∧ rep k' n s' a G'
  end.

Lemma wp_create_context k n s a G hs :
  rep k n s a G → (∀ heap, heap ∈ hs → is_Some (m_heaps s !! heap)) → covers s a hs →
  wp (create_context hs) (λ r s', create_post k n s a r s' ∧ keep s s') s.
Proof.
  intros (W&Hr&HW) Hhs Hcov. unfold create_context. wp_step. eapply wp_MMU_Initialise; [exact Hr|..].
  - intros s1 Hr1 Hk1 Hpl. wp_step. split; [|done]. split; [unfold enough; tauto|]. exists k, G. split; [lia|]. by exists W.
  - intros s1 Hr1 Hk1 Hpl. wp_step. split; [|done]. split; [unfold enough; tauto|]. exists (k + 1), G. split; [lia|]. by exists W.
  - intros s1 c phi G1 Hc Hh1 Hk1 Hphi Hg1 Hr1. wp_step.
    assert (∀ c', pd_words (add_ctx c a) G1 c' = pd_words a G c') as Hpd.
    { intros c'. apply pd_words_same; [done|]. intros x. by rewrite Hg1. }
    eapply (wp_insert_heaps _ _ _ _ _ _ c []); [exact Hr1|by left| | | |].
    + intros heap Hin. destruct (Hhs heap Hin) as [h Hh]. exists h. rewrite Hh1. split; [done|].
      intros <-. apply Hc. by apply (r_heap _ _ _ _ _ _ Hr heap).
    + intros c' [?|Hc']%elem_of_cons Hne; [done|]. cbn beta. rewrite decide_False by done. by rewrite Hpd, HW.
    + cbn beta. rewrite decide_True by done. split; [apply zeros_length|]. intros j Hj. right. split.
      * unfold zeros. apply lookup_replicate_2. lia.
      * by intros ? ? ?%elem_of_nil.
    + intros s2 W2 Hr2 HW2 [Hlen2 Hf2] Hh2 Ho2 Hc2. wp_step. split.
      * split; [done|]. split; [|split; [congruence|by rewrite Hc2]]. exists G1, W2. split; [done|].
        intros c' Hc'. destruct (decide (c' = c)) as [->|Hne]; [|by apply HW2].
        apply list_eq. intros j. destruct (decide (j < 1024)%nat) as [Hj|Hj].
        2:{ rewrite !lookup_ge_None_2; [done|unfold pd_words; rewrite table_length; lia|lia]. }
        replace j with (Z.to_nat (Z.of_nat j)) by lia. unfold pd_words. rewrite table_lookup by lia.
        destruct (Hf2 (Z.of_nat j) ltac:(lia)) as [->|[-> Hn]]; [done|]. f_equal. rewrite Hg1.
        unfold owner. cbn [t_owner add_ctx]. destruct (t_owner a !! Z.of_nat j) as [o|] eqn:Ho.
        -- exfalso. destruct (Hcov _ _ Ho) as (heap&h&Hin&Hh&Hs&Hij). apply (Hn heap h); [done|by rewrite Hh1|done|done].
        -- simpl. pose proof (r_tab _ _ _ _ _ _ Hr (c, Z.of_nat j)) as Htab.
           destruct (t_pt a !! (c, Z.of_nat j)) eqn:Hx.
           { destruct (r_dom _ _ _ _ _ _ Hr c (Z.of_nat j)) as [? _]; [by rewrite Hx|done]. }
           simpl in Htab. by destruct (g_tab G !! _).
      * eapply keep_trans; [exact Hk1|]. by apply keep_same.
Qed.

(** ** Destroying a context *)

Definition next_null (r : MMU_CONTEXT) : MMU_CONTEXT :=
  mkCtx (pvPDCpuVAddr r) (sPDDevPAddr r) (hPDOSMemHandle r) (apsPTInfoList r) 0.

(** The contexts but for their links. *)
Definition same_ctxs (m m' : gmap Z MMU_CONTEXT) : Prop := ∀ x, next_null <$> m' !! x = next_null <$> m !! x.

Lemma same_ctxs_some m m' x r : same_ctxs m m' → m !! x = Some r → ∃ r', m' !! x = Some r' ∧ next_null r' = next_null r.
Proof. intros Hs Hx. specialize (Hs x). rewrite Hx in Hs. apply fmap_Some in Hs as (r'&?&?). eauto. Qed.

(** Where a link is kept: in the context [prev], or at the head of the list. *)
Definition link s (prev : Z) : option Z :=
  if decide (prev = 0) then Some (pvMMUContextList s) else psNext <$> m_ctxs s !! prev.

Lemma wp_unlink_context fuel s prev cur c l1 l2 (Q : unit → mmu_st → Prop) :
  (length l1 < fuel)%nat → link s prev = Some cur → linked (m_ctxs s) cur (l1 ++ c :: l2) →
  NoDup (l1 ++ c :: l2) → prev ∉ l1 ++ c :: l2 →
  (∀ s' cur', s' = set_m_list (pvMMUContextList s') (set_m_ctxs (m_ctxs s') s) → same_ctxs (m_ctxs s) (m_ctxs s') →
     link s' prev = Some cur' → linked (m_ctxs s') cur' (l1 ++ l2) → (prev ≠ 0 → pvMMUContextList s' = pvMMUContextList s) →
     (∀ x, x ∉ prev :: l1 → m_ctxs s' !! x = m_ctxs s !! x) → Q tt s') →
  wp (unlink_context fuel prev c) Q s.
Proof.
  revert s prev cur l1 Q. induction fuel as [|fuel IH]; intros s prev cur l1 Q Hf Hlink Hl Hnd Hp HQ; [lia|].
  cbn [unlink_context]. assert (∀ Q', Q' cur s → wp (if prev =? IMG_NULL then gets pvMMUContextList else rd_ctx prev psNext) Q' s) as Hcur.
  { intros Q' HQ'. unfold link in Hlink. unfold IMG_NULL. destruct (Z.eqb_spec prev 0) as [->|Hne].
    - wp_step. rewrite decide_True in Hlink by done. by injection Hlink as ->.
    - rewrite decide_False in Hlink by done. apply fmap_Some in Hlink as (r&Hr&->). by eapply wp_rd_ctx. }
  wp_step. apply Hcur. clear Hcur. unfold IMG_NULL. destruct l1 as [|c1 l1]; cbn [app] in *.
  - destruct Hl as (->&Hc0&r&Hr&Hl). destruct (Z.eqb_spec c 0); [done|]. rewrite Z.eqb_refl.
    wp_step. eapply wp_rd_ctx; [done|]. apply NoDup_cons in Hnd as [Hc2 Hnd]. unfold link in Hlink.
    destruct (Z.eqb_spec prev 0) as [->|Hne].
    + apply wp_modify. eapply HQ; [by destruct s|done|by unfold link; rewrite decide_True| |done|done].
      eapply linked_frame; [|exact Hl]. done.
    + rewrite decide_False in Hlink by done. apply fmap_Some in Hlink as (rp&Hrp&_). unfold wr_ctx. do 3 wp_step. rewrite Hrp. do 2 wp_step.
      assert (prev ≠ c) by set_solver.
      eapply (HQ _ (psNext r)); [done| | | |done|]; cbn [m_ctxs set_m_ctxs].
      * intros x. destruct (decide (x = prev)) as [->|]; [by rewrite lookup_insert_eq, Hrp|by rewrite lookup_insert_ne].
      * unfold link. rewrite decide_False by done. cbn [m_ctxs set_m_ctxs]. by rewrite lookup_insert_eq.
      * eapply linked_frame; [|exact Hl]. intros x Hx. rewrite lookup_insert_ne; [done|]. intros <-. set_solver.
      * intros x Hx. rewrite lookup_insert_ne; [done|]. intros <-. apply Hx. by left.
  - destruct Hl as (->&Hc0&r&Hr&Hl). destruct (Z.eqb_spec c1 0); [done|]. apply NoDup_cons in Hnd as [Hc1 Hnd].
    destruct (Z.eqb_spec c1 c) as [->|Hne]; [set_solver|].
    eapply (IH s c1 (psNext r) l1); [simpl in Hf; lia|unfold link; by rewrite decide_False, Hr|done|done|done|].
    intros s' cur' Hs Hsame Hlink' Hl' Hlist Hcc. unfold link in Hlink'. rewrite decide_False in Hlink' by done.
    apply fmap_Some in Hlink' as (r1&Hr1&->).
    apply (HQ s' c1); [done|done| | |by auto|].
    + unfold link in *. destruct (decide (prev = 0)); [by rewrite Hlist|]. rewrite Hcc; [done|set_solver].
    + simpl. split; [done|]. split; [done|]. by exists r1.
    + intros x Hx. apply Hcc. set_solver.
Qed.

Definition del_ctx (c : Z) a : tables := mkTables (filter (.≠ c) (t_list a)) (t_pt a) (t_owner a).

(** Nothing of the driver's uses the context any more. *)
Definition idle s a (c : Z) : Prop :=
  (∀ i, t_pt a !! (c, i) = None) ∧ (∀ i, t_owner a !! i ≠ Some c) ∧
  (∀ p h, m_heaps s !! p = Some h → psMMUContext h ≠ c).

Lemma filter_other l1 (c : Z) l2 : NoDup (l1 ++ c :: l2) → filter (.≠ c) (l1 ++ c :: l2) = l1 ++ l2.
Proof.
  intros Hnd. assert (∀ l : list Z, c ∉ l → filter (.≠ c) l = l) as Hf.
  { induction l as [|x l IH]; intros Hl; [done|]. rewrite filter_cons_True by set_solver. f_equal. apply IH. set_solver. }
  apply NoDup_app in Hnd as (_&H1&[H2 _]%NoDup_cons). rewrite filter_app, filter_cons_False by (intros Hne; by apply Hne).
  rewrite !Hf; [done|done|]. intros Hc. by apply (H1 c Hc); left.
Qed.

Lemma heap_ok_del c a h : heap_ok a h → psMMUContext h ≠ c → heap_ok (del_ctx c a) h.
Proof. intros [] Hne. split; try done. cbn [t_list del_ctx]. by apply list_elem_of_filter. Qed.

Lemma wp_MMU_Finalise k n s a G c :
  rep k n s a G → c ∈ t_list a → idle s a c →
  wp (MMU_Finalise c) (λ _ s', (∃ G', rep k n s' (del_ctx c a) G') ∧ m_heaps s' = m_heaps s ∧ keep s s') s.
Proof.
  intros (W&Hr&HW) Hc (Hpt&How&Hhp). destruct (dirs_pd _ _ _ _ _ _ (r_dirs _ _ _ _ _ _ Hr) Hc) as (r&Hcr&Hh&Hpl&Hm).
  pose proof (HW c Hc) as HWc. rewrite HWc in Hm. pose proof (d_nodup _ _ _ _ _ (r_dirs _ _ _ _ _ _ Hr)) as Hnd.
  apply list_elem_of_split in Hc as (l1&l2&Hl). rewrite Hl in Hnd.
  assert (length (pd_words a G c) = 1024%nat) as Hlen by apply table_length.
  unfold MMU_Finalise. wp_step. eapply wp_rd_ctx; [done|]. unfold id. wp_step.
  change (Z.to_nat SGX_MMU_PD_SIZE) with 1024%nat. eapply wp_fill; [done|done|cbn [ar_words]; lia|]. intros s1 Hs1 Hm1.
  wp_step. eapply wp_OSFreePages; [rewrite Hh, Hm1; apply lookup_insert_eq|]. rewrite Hh, Hm1, delete_insert_eq.
  set (b := pvPDCpuVAddr r) in *. set (s2 := set_m_mem (delete b (m_mem s)) s1).
  assert (s2 = set_m_mem (delete b (m_mem s)) s) as Hs2 by (unfold s2; rewrite Hs1; done). clearbody s2.
  wp_step. wp_step. wp_step. pose proof (d_linked _ _ _ _ _ (r_dirs _ _ _ _ _ _ Hr)) as Hlk. rewrite Hl in Hlk.
  assert (m_ctxs s2 = m_ctxs s) as Hc2 by by rewrite Hs2.
  eapply (wp_unlink_context _ s2 0 (pvMMUContextList s) c l1 l2).
  { rewrite Hc2. pose proof (linked_length _ _ _ Hlk Hnd) as Hll. rewrite length_app in Hll. simpl in Hll. lia. }
  { unfold link. rewrite decide_True by done. by rewrite Hs2. }
  { by rewrite Hc2. }
  { done. }
  { intros H0. by apply (linked_nonzero _ _ _ 0 Hlk) in H0 as [? _]. }
  intros s3 cur' Hs3 Hsame Hlink Hlk3 _ Hcc. rewrite Hc2 in *. assert (m_ctxs s3 !! c = Some r) as Hc3.
  { rewrite Hcc; [done|]. apply not_elem_of_cons. split; [|apply NoDup_app in Hnd as (_&Hdis&_); intros Hc'; apply (Hdis c Hc'); by left].
    apply (linked_nonzero _ _ _ c Hlk), elem_of_app. right. by left. }
  wp_step. eapply wp_rd_ctx; [done|]. wp_step. apply wp_zoom, wp_OSFreeMem. wp_step.
  match goal with |- _ ∧ m_heaps ?t = _ ∧ _ => set (s4 := t) end.
  assert (pvMMUContextList s3 = cur') as Hcur by (unfold link in Hlink; rewrite decide_True in Hlink by done; by injection Hlink).
  assert (s4 = set_m_os {| os_script := os_script (m_os s); os_live := os_live (m_os s) - 1 |}
    (set_m_list cur' (set_m_ctxs (delete c (m_ctxs s3)) (set_m_mem (delete b (m_mem s)) s)))) as Hs4.
  { unfold s4. rewrite Hs3, Hcur, Hs2. done. }
  clearbody s4. split; [|split; [by rewrite Hs4|split; by rewrite Hs4]].
  pose proof (filter_other _ _ _ Hnd) as Hfl. rewrite <- Hl in Hfl.
  assert (∀ c', c' ∈ l1 ++ l2 → c' ∈ t_list a ∧ c' ≠ c) as Hin.
  { intros c' Hc'. rewrite <- Hfl in Hc'. by apply list_elem_of_filter in Hc' as [? ?]. }
  destruct Hr as [r1 r2 r3 r4 r5 r6 r7 r8 r9]. exists G, W. split.
  2:{ intros c' Hc'. cbn [t_list del_ctx] in Hc'. apply list_elem_of_filter in Hc' as [_ Hc']. by rewrite HW. }
  split; cbn [t_list t_pt t_owner del_ctx]; rewrite ?Hfl.
  - rewrite Hs4. split; cbn [m_ctxs m_mem pvMMUContextList set_m_os set_m_list set_m_ctxs set_m_mem].
    + eapply linked_frame; [|exact Hlk3]. intros c' [_ Hne]%Hin. by rewrite lookup_delete_ne.
    + apply NoDup_app in Hnd as (?&?&[? ?]%NoDup_cons). apply NoDup_app. split_and!; [done| |done]. intros x Hx Hx'. eapply H0; [done|by right].
    + intros c' [Hc' Hne]%Hin. destruct (d_ctx _ _ _ _ _ r1 c' Hc') as (r'&Hr'&Hh'&Hpl'&Hm'&HS').
      destruct (same_ctxs_some _ _ _ _ Hsame Hr') as (r3'&Hr3'&He). exists r3'. rewrite lookup_delete_ne by done.
      assert (pvPDCpuVAddr r3' = pvPDCpuVAddr r' ∧ sPDDevPAddr r3' = sPDDevPAddr r' ∧ hPDOSMemHandle r3' = hPDOSMemHandle r' ∧
        apsPTInfoList r3' = apsPTInfoList r') as (->&->&->&->) by (unfold next_null in He; injection He; auto).
      rewrite lookup_delete_ne; [done|]. intros Hb. rewrite Hb in Hpl. congruence.
  - intros x. eapply tab_ok_frame; [apply r2|]. intros p b' phi Hp. rewrite Hs4. split_and!; [done|done|]. intros Hb' Hpl'.
    split; [|done]. cbn [m_mem set_m_os set_m_list set_m_ctxs set_m_mem]. rewrite lookup_delete_ne; [done|]. intros <-. congruence.
  - intros c' i Hx. destruct (r3 c' i Hx) as (Hc'&?&?). split; [|done]. rewrite <- Hfl. apply list_elem_of_filter.
    split; [|done]. intros ->. rewrite Hpt in Hx. by destruct Hx.
  - intros i o Ho. rewrite <- Hfl. apply list_elem_of_filter. split; [|by eapply r4]. intros ->. by eapply How.
  - unfold areas in *. cbn [t_list t_pt del_ctx]. rewrite Hfl. rewrite Hl, length_app in r5. cbn [length] in r5.
    rewrite length_app. rewrite Hs4. unfold phys in *. cbn [m_mem m_next set_m_os set_m_list set_m_ctxs set_m_mem].
    rewrite fmap_delete. eapply mem_ok_delete; [|by rewrite lookup_fmap, Hm].
    by replace (S (n + (length l1 + length l2 + size (omap id (t_pt a)))))%nat
      with (n + (length l1 + S (length l2) + size (omap id (t_pt a))))%nat by lia.
  - by rewrite Hs4.
  - intros p. rewrite Hs4. cbn [m_pts m_ctxs m_heaps m_next set_m_os set_m_list set_m_ctxs set_m_mem]. intros Hp. apply r7.
    destruct Hp as [?|[[_ Hp]%lookup_delete_is_Some|?]]; [by left| |by right; right].
    right. left. specialize (Hsame p). destruct (m_ctxs s3 !! p); [|by destruct Hp]. simpl in Hsame. by destruct (m_ctxs s !! p).
  - rewrite Hs4. intros p h Hph. apply heap_ok_del; [by eapply r8|by eapply Hhp].
  - rewrite Hs4. unfold blocks in *. cbn [m_os m_heaps t_list t_pt del_ctx set_m_os set_m_list set_m_ctxs set_m_mem os_live].
    rewrite r9, Hfl, Hl, !length_app. cbn [length]. lia.
Qed.
End contexts.
