(* ===== verification/MmuLife.v ===== *)
(** * The MMU: the life of a heap, but for its arena *)

From S2P Require Import Prelude Mmu MmuRep MmuOps MmuTab MmuMap MmuUnmap MmuCtx.

(** ** All page tables of a range of directory indices *)

Fixpoint erase (m : nat) (c i : Z) (a : tables) : tables :=
  match m with O => a | S m => erase m c (i + 1) (drop_pt (c, i) a) end.

Lemma erase_same m c i a : t_list (erase m c i a) = t_list a ∧ t_owner (erase m c i a) = t_owner a.
Proof. revert i a. induction m as [|m IH]; intros i a; simpl; [done|]. by destruct (IH (i + 1) (drop_pt (c, i) a)) as [-> ->]. Qed.

Lemma erase_lookup m c i a x :
  t_pt (erase m c i a) !! x = if decide (x.1 = c ∧ i ≤ x.2 < i + Z.of_nat m) then None else t_pt a !! x.
Proof.
  revert i a. induction m as [|m IH]; intros i a; cbn [erase].
  { rewrite decide_False by lia. done. }
  rewrite IH. cbn [drop_pt set_pt t_pt]. destruct x as [c' j]. cbn [fst snd].
  destruct (decide (c' = c ∧ i + 1 ≤ j < i + 1 + Z.of_nat m)) as [[-> Hj]|Hn].
  - rewrite decide_True by (split; [done|lia]). done.
  - destruct (decide ((c', j) = (c, i))) as [[= -> ->]|Hne].
    + rewrite lookup_delete_eq. rewrite decide_True by (split; [done|lia]). done.
    + rewrite lookup_delete_ne by congruence. rewrite decide_False; [done|]. intros [-> Hj]. apply Hn. split; [done|].
      assert (j ≠ i) by congruence. lia.
Qed.

(** The page tables of a heap, all gone. *)
Definition erase_heap (h : MMU_HEAP) (a : tables) : tables :=
  erase (Z.to_nat (ui32PageTableCount h)) (psMMUContext h) (ui32PDBaseIndex h) a.

(** Directory indices that [h] gives to, or takes from, the shared ones. *)
Definition set_owner (f : gmap Z Z → gmap Z Z) (a : tables) : tables := mkTables (t_list a) (t_pt a) (f (t_owner a)).
Fixpoint own_range (m : nat) (i : Z) (o : option Z) (g : gmap Z Z) : gmap Z Z :=
  match m with O => g | S m => partial_alter (λ _, o) i (own_range m (i + 1) o g) end.

Lemma own_range_lookup m i o g j :
  own_range m i o g !! j = if decide (i ≤ j < i + Z.of_nat m) then o else g !! j.
Proof.
  revert i. induction m as [|m IH]; intros i; cbn [own_range].
  { rewrite decide_False by lia. done. }
  destruct (decide (j = i)) as [->|Hne].
  - rewrite lookup_partial_alter_eq. rewrite decide_True by lia. done.
  - rewrite lookup_partial_alter_ne by congruence. rewrite IH. repeat destruct (decide _); (lia || done).
Qed.

(** [h] joins the heaps, or leaves them. *)
Definition owned (h : MMU_HEAP) (o : option Z) (a : tables) : tables :=
  if shared_heap h then set_owner (own_range (Z.to_nat (ui32PageTableCount h)) (ui32PDBaseIndex h) o) a else a.

Lemma owned_same h o a : t_list (owned h o a) = t_list a ∧ t_pt (owned h o a) = t_pt a.
Proof. unfold owned. by destruct (shared_heap h). Qed.

Lemma owned_lookup h o a i : 0 ≤ ui32PageTableCount h →
  (in_heap h i → shared_heap h = true → t_owner (owned h o a) !! i = o) ∧
  ((in_heap h i → shared_heap h = false) → t_owner (owned h o a) !! i = t_owner a !! i).
Proof.
  intros Hc. unfold owned, in_heap. destruct (shared_heap h); [|done]. cbn [t_owner set_owner].
  rewrite own_range_lookup, Z2Nat.id by done. split.
  - intros Hi _. by rewrite decide_True.
  - intros Hi. rewrite decide_False; [done|]. intros Hj. by specialize (Hi Hj).
Qed.

Section life.
Context {env : MmuEnv} {law : MmuLaw env}.
Implicit Types (s : mmu_st) (a : tables) (G : ghost).

Lemma wp_erase m k n s a G heap h i base :
  rep k n s a G → m_heaps s !! heap = Some h → base = ui32PDBaseIndex h + i →
  (∀ j, base ≤ j < base + Z.of_nat m → in_heap h j) →
  wp (for_from m i (λ i, _DeferredFreePageTable heap i true))
    (λ _ s', (∃ G', rep k n s' (erase m (psMMUContext h) base a) G') ∧ keep s s') s.
Proof.
  revert s a G h i base. induction m as [|m IH]; intros s a G h i base Hr Hh -> Hin; cbn [for_from erase].
  { wp_step. split; [by exists G|apply keep_refl]. }
  wp_step. assert (i = (ui32PDBaseIndex h + i) - ui32PDBaseIndex h) as Hi by lia. rewrite Hi at 1.
  eapply wp_mono; [eapply wp_free_page_table; [done|done|apply Hin; lia]|].
  cbn beta. intros [] s1 ((G1&Hr1)&Hk1). destruct (keep_heap _ _ _ _ Hk1 Hh) as [v Hv].
  eapply wp_mono; [eapply (IH s1 _ G1 _ _ (ui32PDBaseIndex h + i + 1) Hr1 Hv)|].
  - simpl. lia.
  - intros j Hj. apply (Hin j). lia.
  - intros [] s2 (Hr2&Hk2). split; [exact Hr2|by eapply keep_trans].
Qed.

Lemma wp_DeferredFreePageTables k n s a G heap h :
  rep k n s a G → m_heaps s !! heap = Some h →
  wp (_DeferredFreePageTables heap) (λ _ s', (∃ G', rep k n s' (erase_heap h a) G') ∧ keep s s' ∧
    told s' SGXMKIF_CC_INVAL_BIF_PD) s.
Proof.
  intros Hr Hh. unfold _DeferredFreePageTables. pose proof Hr as (W&Hrw&_).
  pose proof (ho_range _ _ (r_heap _ _ _ _ _ _ Hrw _ _ Hh)) as Hrg. wp_step. eapply wp_rd_heap; [done|]. unfold id.
  wp_step. eapply wp_mono; [eapply (wp_erase _ _ _ _ _ _ _ _ 0 (ui32PDBaseIndex h)); [done|done|lia|]|].
  { intros j Hj. unfold in_heap. lia. }
  cbn beta. intros [] s1 ((G1&Hr1)&Hk1). apply wp_modify. split; [exists G1; by apply rep_cc|].
  split; [eapply keep_trans; [exact Hk1|by apply keep_same]|by apply told_lor].
Qed.

(** ** The heap itself *)

(** The record [MMU_Create] makes. *)
Definition heap_of (c : Z) (d : DEV_ARENA_DESCRIPTOR) : MMU_HEAP :=
  mkHeap c d (pdx (BaseDevVAddr d)) ((ui32Size d / 4096 + 1023) / 1024) (ui32Size d / 4096) SGX_MMU_PDE_PAGE_SIZE_4K
    4096 12 4095 12 10 SGX_MMU_PT_MASK 4096 1024 1024 22 10 SGX_MMU_PD_MASK.

(** What mmu.c asserts of a heap, and sgxconfig.h provides. *)
Definition good_arena (d : DEV_ARENA_DESCRIPTOR) : Prop :=
  0 ≤ BaseDevVAddr d ∧ BaseDevVAddr d mod 4194304 = 0 ∧ 0 < ui32Size d ∧ ui32Size d mod 4096 = 0 ∧
  BaseDevVAddr d + ui32Size d < 4294967296 ∧ ui32Size d + 4096 < 4294967296 ∧ (∀ j, DevMemHeapType d ≠ DEVICE_MEMORY_HEAP_OTHER j).

Lemma wp_create_heap c d s (Q : Z → mmu_st → Prop) :
  good_arena d →
  (∀ s', m_heaps s' = m_heaps s → ¬ plenty (m_os s) → s' = set_m_os (m_os s') s → os_live (m_os s') = os_live (m_os s) → Q IMG_NULL s') →
  (devarena_DataPageSize d ≠ 4096 → ∀ s', s' = set_m_next (m_next s + 1) (set_m_os (m_os s') s) → os_live (m_os s') = os_live (m_os s) →
     (plenty (m_os s) → plenty (m_os s')) → Q IMG_NULL s') →
  (devarena_DataPageSize d = 4096 → ∀ s', s' = set_m_heaps (<[m_next s := heap_of c d]> (m_heaps s)) (set_m_next (m_next s + 1) (set_m_os (m_os s') s)) →
     os_live (m_os s') = os_live (m_os s) + 1 → (plenty (m_os s) → plenty (m_os s')) → Q (m_next s) s') →
  wp (create_heap c d) Q s.
Proof.
  intros (Hb&Hba&Hsz&Hszp&Hlt&_) H0 H1 H2. unfold create_heap. wp_step. apply wp_OSAlloc_mmu. intros [] o' Ho' Hpl; cbn [negb].
  2:{ wp_step. apply H0; [done|naive_solver|done|simpl; lia]. }
  wp_step. apply wp_fresh. destruct (Z.eqb_spec (devarena_DataPageSize d) 4096) as [Hp|Hp]; cbn [negb].
  2:{ wp_step. apply wp_zoom, wp_OSFreeMem. wp_step. apply H1; [done|done|simpl; lia|]. unfold plenty. simpl. naive_solver. }
  wp_step. wp_step. cbn [m_next set_m_os]. apply (H2 Hp); [|simpl; lia|simpl; naive_solver].
  f_equal. cbn [m_heaps set_m_next set_m_os]. f_equal. unfold heap_of. rewrite Hp.
  change (SGX_MMU_PAGE_SHIFT + 0) with 12. change (SGX_MMU_PT_SHIFT - 0) with 10. change (10 + 12) with 22.
  change (Z.land SGX_MMU_PD_MASK (Z.shiftr SGX_MMU_PD_MASK (32 - SGX_FEATURE_ADDRESS_SPACE_SIZE))) with SGX_MMU_PD_MASK.
  change (Z.shiftl 1 10) with 1024. change (u32 (1024 * 4)) with 4096. change (4096 <? 4 * 4) with false. cbv iota.
  change (Z.shiftr 4096 2) with 1024. change (u32 (4096 - 1)) with 4095.
  change (Z.land SGX_MMU_PT_MASK (u32 (Z.shiftl SGX_MMU_PT_MASK 0))) with SGX_MMU_PT_MASK.
  change (SGX_FEATURE_ADDRESS_SPACE_SIZE - 10 - 12) with 10.
  rewrite !(Z.shiftr_div_pow2 _ 12), (Z.shiftr_div_pow2 _ 10), (Z.shiftr_div_pow2 _ 22) by lia.
  change (2 ^ 12) with 4096. change (2 ^ 10) with 1024. change (2 ^ 22) with 4194304.
  assert (0 ≤ ui32Size d / 4096 < 1048576) as Hpg by (split; [apply Z.div_pos; lia|apply Z.div_lt_upper_bound; lia]).
  rewrite (u32_small (ui32Size d / 4096 + 1024)), (u32_small (ui32Size d / 4096 + 1024 - 1)) by (unfold is_u32; lia).
  replace (ui32Size d / 4096 + 1024 - 1) with (ui32Size d / 4096 + 1023) by lia. f_equal. unfold pdx.
  change SGX_MMU_PD_MASK with (Z.shiftl (Z.ones 10) 22). change 4194304 with (2 ^ 22).
  rewrite <- !Z.shiftr_div_pow2, Z.shiftr_land, Z.shiftr_shiftl_l by lia. change (22 - 22) with 0. rewrite Z.shiftl_0_r.
  rewrite Z.land_ones by lia. apply Z.mod_small. rewrite Z.shiftr_div_pow2 by lia. change (2 ^ 22) with 4194304. change (2 ^ 10) with 1024.
  split; [apply Z.div_pos; lia|apply Z.div_lt_upper_bound; lia].
Qed.

Lemma heap_of_ok a c d : good_arena d → c ∈ t_list a →
  (∀ i, in_heap (heap_of c d) i → t_owner a !! i = if shared_heap (heap_of c d) then Some c else None) →
  heap_ok a (heap_of c d).
Proof.
  intros (Hb&Hba&Hsz&Hszp&Hlt&_&Hty) Hc Ho. pose proof (Z.div_mod (BaseDevVAddr d) 4194304 ltac:(lia)) as Hd.
  pose proof (Z.div_mod (ui32Size d) 4096 ltac:(lia)) as Hd'. set (pg := ui32Size d / 4096) in *.
  pose proof (Z.div_mod (pg + 1023) 1024 ltac:(lia)) as Hd''. pose proof (Z.mod_pos_bound (pg + 1023) 1024 ltac:(lia)).
  assert (0 ≤ BaseDevVAddr d / 4194304) by (apply Z.div_pos; lia).
  split; try done; cbn [psDevArena heap_of ui32PDBaseIndex ui32PageTableCount ui32PTETotalUsable]; unfold pdx; fold pg.
  - unfold known_heap. simpl. destruct (DevMemHeapType d) eqn:Ht; try done. by destruct (Hty n).
  - lia.
  - split; [lia|]. split; lia.
  - split_and!; lia.
  - unfold is_u32. lia.
Qed.

(** ** The representation *)

Lemma rep_set_owner k n s a G g :
  rep k n s a G → (∀ i, g !! i ≠ t_owner a !! i → ∀ c, t_pt a !! (c, i) = None) →
  (∀ i o, g !! i = Some o → o ∈ t_list a) → (∀ p h, m_heaps s !! p = Some h → heap_ok (set_owner (λ _, g) a) h) →
  rep k n s (set_owner (λ _, g) a) G.
Proof.
  intros (W&[r1 r2 r3 r4 r5 r6 r7 r8 r9]&HW) Hg Ho Hh. exists W. split.
  - split; try done. intros c i Hx. destruct (r3 c i Hx) as (?&?&Hown). split; [done|]. split; [done|].
    unfold owner in *. cbn [t_owner set_owner]. destruct (decide (g !! i = t_owner a !! i)) as [->|Hne]; [done|].
    cbn [t_pt set_owner] in Hx. rewrite (Hg i Hne) in Hx. by destruct Hx.
  - intros c Hc. rewrite HW by done. unfold pd_words. apply table_ext. intros i _. unfold owner. cbn [t_owner set_owner].
    destruct (decide (g !! i = t_owner a !! i)) as [->|Hne]; [done|].
    assert (∀ c, pde (g_tab G !! (c, i)) = 0) as Hz; [|by rewrite !Hz].
    intros c'. pose proof (r2 (c', i)) as Htab. rewrite (Hg i Hne) in Htab. by destruct (g_tab G !! (c', i)).
Qed.

Lemma set_owner_translate a g c v : (∀ i, g !! i ≠ t_owner a !! i → ∀ c, t_pt a !! (c, i) = None) →
  translate (set_owner (λ _, g) a) c v = translate a c v.
Proof.
  intros Hg. unfold translate, owner. cbn [t_owner t_pt set_owner].
  destruct (decide (g !! pdx v = t_owner a !! pdx v)) as [->|Hne]; [done|]. by rewrite !(Hg _ Hne).
Qed.

Lemma rep_heaps k k' n s a G m o' nx :
  rep k n s a G → m_next s ≤ nx → (∀ p h, m !! p = Some h → heap_ok a h ∧ p < nx ∧ 0 < p) →
  os_live o' - k' - Z.of_nat (size m) = os_live (m_os s) - k - Z.of_nat (size (m_heaps s)) →
  rep k' n (set_m_heaps m (set_m_next nx (set_m_os o' s))) a G.
Proof.
  intros (W&[r1 r2 r3 r4 r5 r6 r7 r8 r9]&HW) Hn Hm Hl. exists W. split; [|done].
  split; try done; cbn [m_heaps m_next m_os m_pts m_ctxs set_m_heaps set_m_next set_m_os].
  - by eapply dirs_frame.
  - by eapply mem_ok_next.
  - lia.
  - intros p [?|[?|[h Hp]]]; [enough (0 < p < m_next s) by lia; apply r7; by eauto..|]. destruct (Hm p h Hp). lia.
  - intros p h Hp. by destruct (Hm p h Hp).
  - unfold blocks in *. lia.
Qed.

Lemma rep_heap_range k n s a G p h : rep k n s a G → m_heaps s !! p = Some h → heap_ok a h ∧ p < m_next s ∧ 0 < p.
Proof. intros (W&Hr&_) Hp. split; [by apply (r_heap _ _ _ _ _ _ Hr p)|]. enough (0 < p < m_next s) by lia. apply (r_fresh _ _ _ _ _ _ Hr). eauto. Qed.

(** Nothing is mapped where [h] is to be. *)
Definition vacant a (h : MMU_HEAP) : Prop :=
  ∀ i, in_heap h i → t_owner a !! i = None ∧ ∀ c, shared_heap h = true ∨ c = psMMUContext h → t_pt a !! (c, i) = None.

Lemma erase_vacant a h : (∀ i, in_heap h i → t_pt a !! (psMMUContext h, i) = None) → 0 ≤ ui32PageTableCount h → erase_heap h a = a.
Proof.
  intros Hv Hc. destruct (erase_same (Z.to_nat (ui32PageTableCount h)) (psMMUContext h) (ui32PDBaseIndex h) a) as [Hl Ho].
  assert (t_pt (erase_heap h a) = t_pt a) as Hp.
  { apply map_eq. intros [c i]. unfold erase_heap. rewrite erase_lookup. cbn [fst snd].
    destruct (decide _) as [[-> Hi]|]; [|done]. symmetry. rewrite Z2Nat.id in Hi by done. by apply Hv. }
  unfold erase_heap in *. destruct (erase _ _ _ a), a. simpl in *. by subst.
Qed.

Lemma owned_undo a h c : vacant a h → 0 ≤ ui32PageTableCount h → owned h None (owned h (Some c) a) = a.
Proof.
  intros Hv Hc. unfold owned. destruct (shared_heap h) eqn:Hs; [|done]. unfold set_owner. cbn [t_list t_pt t_owner].
  destruct a as [l pt ow]. cbn [t_list t_pt t_owner]. f_equal. apply map_eq. intros i. rewrite !own_range_lookup, !Z2Nat.id by done.
  destruct (decide _) as [Hi|]; [|done]. symmetry. by apply (Hv i Hi).
Qed.

Lemma heap_ok_owned a h h' o : heap_ok a h' → 0 ≤ ui32PageTableCount h →
  (∀ i, in_heap h i → in_heap h' i → shared_heap h = false) → heap_ok (owned h o a) h'.
Proof.
  intros Hok Hc Hap. pose proof (owned_same h o a) as [Hl _]. destruct Hok. split; try done; [by rewrite Hl|].
  intros i Hi. destruct (owned_lookup h o a i Hc) as [_ ->]; [by auto|]. intros Hih. by eapply Hap.
Qed.

Lemma rep_owned k n s a G h o :
  rep k n s a G → 0 ≤ ui32PageTableCount h → (∀ c, o = Some c → c ∈ t_list a) →
  (∀ i, in_heap h i → shared_heap h = true → ∀ c, t_pt a !! (c, i) = None) →
  (∀ p h' i, m_heaps s !! p = Some h' → in_heap h i → in_heap h' i → shared_heap h = false) →
  rep k n s (owned h o a) G ∧ ∀ c v, translate (owned h o a) c v = translate a c v.
Proof.
  intros Hr Hc Ho Hvac Hap. pose proof (λ i, owned_lookup h o a i Hc) as Hlk.
  assert (∀ i, t_owner (owned h o a) !! i ≠ t_owner a !! i → ∀ c, t_pt a !! (c, i) = None) as Hne.
  { intros i Hi. destruct (decide (ui32PDBaseIndex h ≤ i < ui32PDBaseIndex h + ui32PageTableCount h)) as [Hin|Hout].
    - destruct (shared_heap h) eqn:Hs; [by apply Hvac|]. destruct Hi. by apply Hlk.
    - destruct Hi. apply Hlk. intros Hin. by destruct Hout. }
  assert (owned h o a = set_owner (λ _, t_owner (owned h o a)) a) as He.
  { unfold owned. destruct (shared_heap h); [done|]. by destruct a. }
  split; [|intros c v; rewrite He; by apply set_owner_translate]. rewrite He. apply rep_set_owner; [done|done| |].
  - intros i o' Hi. destruct (decide (ui32PDBaseIndex h ≤ i < ui32PDBaseIndex h + ui32PageTableCount h)) as [Hin|Hout].
    + destruct (shared_heap h) eqn:Hs.
      * rewrite (proj1 (Hlk i)) in Hi by done. by apply Ho.
      * rewrite (proj2 (Hlk i)) in Hi by done. destruct Hr as (W&Hr&_). by apply (r_own _ _ _ _ _ _ Hr i).
    + rewrite (proj2 (Hlk i)) in Hi by (intros Hin; by destruct Hout). destruct Hr as (W&Hr&_). by apply (r_own _ _ _ _ _ _ Hr i).
  - intros p h' Hp. rewrite <- He. apply heap_ok_owned; [by eapply rep_heap_range|done|]. intros i. by eapply Hap.
Qed.
End life.
