(* ===== verification/MmuHeap.v ===== *)
(** * The MMU: heaps and their address ranges (devices/sgx/mmu.c)

    A heap hands out ranges of device addresses with an arena of the resource
    allocator; page tables are made when a range is handed out, and the arena
    calls back when it takes a range back, so that the pages are unmapped and
    empty page tables freed.  [vm_st] is the MMU with the arenas of its heaps:
    the environment of each arena is the state of the MMU. *)

From S2P Require Import Prelude Hash DList RA RARep RAGeo RAInv RAOps RAAlloc RAImport RATop RALife RAProps RASys.
From S2P Require Import Mmu MmuRep MmuOps MmuTab MmuMap MmuUnmap MmuCtx.

(** The arena of a heap, [psVMArena], with the tags it made. *)
Record arena_st := mkArenaSt {
  as_heap : gmap Z BT;
  as_next : Z;
  psVMArena : option (RA_ARENA (E:=mmu_st))
}.

Record vm_st := mkVm {
  v_os : os;
  v_arenas : gmap Z arena_st;
  v_mmu : mmu_st
}.

Definition set_v_arenas x s := mkVm (v_os s) x (v_mmu s).
Definition set_v_mmu x s := mkVm (v_os s) (v_arenas s) x.

Definition with_mmu {A} (m : M mmu_st A) : M vm_st A := zoom v_mmu set_v_mmu m.

(** An arena and its environment as a state of ra.c. *)
Definition ra_of (o : os) (e : mmu_st) (ar : arena_st) : ra_st (E:=mmu_st) :=
  mk_ra_st o (as_heap ar) (as_next ar) (psVMArena ar) e.
Definition vm_of (p : Z) (r : ra_st (E:=mmu_st)) (s : vm_st) : vm_st :=
  mkVm (ra_os r) (<[p := mkArenaSt (ra_heap r) (ra_next r) (ra_arena r)]> (v_arenas s)) (ra_env r).

(** Calls ra.c on the arena of the heap [p]. *)
Definition with_arena {A} (p : Z) (m : M (ra_st (E:=mmu_st)) A) : M vm_st A := λ s,
  match v_arenas s !! p with
  | None => Fault
  | Some ar =>
      match m (ra_of (v_os s) (v_mmu s) ar) with
      | Done x r => Done x (vm_of p r s)
      | Fault => Fault
      | OutOfFuel => OutOfFuel
      end
  end.

(** Arenas of heaps import nothing. *)
Definition no_map (_ : mmu_st) (_ : Z) : option Z := None.

(** linux/mm.h *)
Definition HOST_PAGESIZE : Z := 4096.

Section heap.
Context {env : MmuEnv}.

(** ** The operations *)

Definition MMU_Create (psMMUContext : Z) (psDevArena : DEV_ARENA_DESCRIPTOR) : M vm_st Z :=
  pMMUHeap ← with_mmu (create_heap psMMUContext psDevArena);
  if pMMUHeap =? IMG_NULL then mret IMG_NULL
  else
    modify (λ s, set_v_arenas (<[pMMUHeap := mkArenaSt ∅ 1 None]> (v_arenas s)) s);;
    h ← with_mmu (rd_heap pMMUHeap id);
    ok ← with_arena pMMUHeap (RA_Create (BaseDevVAddr psDevArena) (ui32Size psDevArena) IMG_NULL
           (Z.max HOST_PAGESIZE (ui32DataPageSize h)) None None (Some MMU_FreePageTables) pMMUHeap);
    if negb ok then
      with_mmu (_DeferredFreePageTables pMMUHeap);;
      modify (λ s, set_v_arenas (delete pMMUHeap (v_arenas s)) s);;
      with_mmu (free_heap pMMUHeap);;
      mret IMG_NULL
    else mret pMMUHeap.

Definition MMU_Delete (pMMUHeap : Z) : M vm_st unit :=
  if pMMUHeap =? IMG_NULL then mret tt
  else
    s ← get;
    ar ← deref (v_arenas s !! pMMUHeap);
    (if psVMArena ar then with_arena pMMUHeap RA_Delete else mret tt);;
    with_mmu (_DeferredFreePageTables pMMUHeap);;
    modify (λ s, set_v_arenas (delete pMMUHeap (v_arenas s)) s);;
    with_mmu (free_heap pMMUHeap).

(** [psDevVAddr] is read when the caller supplies the address; the answer has
    its value afterwards. *)
Definition MMU_Alloc (pMMUHeap uSize uFlags uDevVAddrAlignment psDevVAddr : Z) : M vm_st (bool * Z) :=
  let bSupplied := negb (Z.land uFlags PVRSRV_MEM_USER_SUPPLIED_DEVVADDR =? 0) in
  r ← (if bSupplied then mret (Some psDevVAddr)
       else
         r ← with_arena pMMUHeap (RA_Alloc no_map uSize 0 uDevVAddrAlignment 0);
         mret (match r with Some (uiAddr, _) => Some (u32 uiAddr) | None => None end));
  match r with
  | None => mret (false, psDevVAddr)
  | Some psDevVAddr =>
      bStatus ← with_mmu (_DeferredAllocPagetables pMMUHeap psDevVAddr (u32 uSize));
      (if negb bStatus && negb bSupplied then with_arena pMMUHeap (RA_Free psDevVAddr false) else mret tt);;
      mret (bStatus, psDevVAddr)
  end.

Definition MMU_Free (pMMUHeap DevVAddr ui32Size : Z) : M vm_st unit :=
  h ← with_mmu (rd_heap pMMUHeap psDevArena);
  if (BaseDevVAddr h <=? DevVAddr) && (u32 (DevVAddr + ui32Size) <=? u32 (BaseDevVAddr h + Mmu.ui32Size h))
  then with_arena pMMUHeap (RA_Free DevVAddr true)
  else mret tt.

(** ** The arena's callback *)

#[export, refine] Instance vm_source (p : Z) : ImportSource no_map := {
  regions _ := ∅;
  src_handle := p;
  src_alloc := _RequestAllocFail;
  src_free _ _ _ := mret tt;
  src_backing := Some MMU_FreePageTables
}.
Proof.
  - intros e n fl Hr Hn. done.
  - intros e b n m _ Hb. by rewrite lookup_empty in Hb.
Defined.
End heap.
