(* ===== verification/MmuVm.v ===== *)
(** * The MMU: heaps with their arenas

    The abstract state [vabs] has the tables and, for every heap, its record
    and the live ranges of its arena.  Every operation of mmu.c on heaps is
    described by what it does to [vabs]. *)

From S2P Require Import Prelude Hash DList RA RARep RAGeo RAInv RAOps RAAlloc RAImport RATop RALife RAProps RASys.
From S2P Require Import Mmu MmuRep MmuOps MmuTab MmuMap MmuUnmap MmuCtx MmuLife MmuHeap.

(** ** The live ranges of an arena *)

(** Whole pages. *)
Definition paged (l : gmap Z Z) : Prop := ∀ b n, l !! b = Some n → b mod 4096 = 0 ∧ n mod 4096 = 0 ∧ 0 < n.

Lemma lives_bound lo hi o L v : chain (Resource lo hi) o L None → (∀ x, x ∈ L → seg_ok (Resource lo hi) x) →
  (∀ x, x ∈ lives L → 4096 ≤ s_size x) → (∀ x, x ∈ L → v ≤ s_base x) → lo ≤ v ≤ hi →
  Z.of_nat (length (lives L)) * 4096 ≤ hi - v.
Proof.
  revert o v. induction L as [|x L IH]; intros o v Hch Hok Hsz Hv Hr; [simpl; lia|]. destruct Hch as [_ Hch].
  assert (is_tile x) as Hx.
  { pose proof (Hok x ltac:(by left)) as Hx. unfold seg_ok in Hx. destruct (kind_of x) eqn:Hk; [done|done|]. by apply kind_tile_inv. }
  pose proof (proj1 (tile_ok _ _ Hx) (Hok x ltac:(by left))) as [Hx0 [Hxl Hxh]]. pose proof (Hv x ltac:(by left)) as Hxv.
  assert (geo (Resource lo hi) ([] ++ x :: L)) as Hg by by split.
  assert (∀ y, y ∈ L → endof x ≤ s_base y) as Hy.
  { intros y Hy. pose proof (geo_after _ _ _ _ _ Hg Hy) as Ha. unfold after in Ha. by rewrite (kind_tile _ Hx) in Ha. }
  assert (Z.of_nat (length (lives L)) * 4096 ≤ hi - endof x) as Hi.
  { eapply IH; [exact Hch|set_solver| |done|unfold endof in *; lia]. intros y [Hyl Hty]%elem_lives. apply Hsz, elem_lives. set_solver. }
  unfold lives in *. destruct (decide (s_type x = btt_live)) as [Ht|Ht].
  - rewrite filter_cons_True by done. cbn [length]. assert (4096 ≤ s_size x); [|unfold endof in *; lia].
    apply Hsz, elem_lives. split; [by left|done].
  - rewrite filter_cons_False by done. unfold endof in *. lia.
Qed.

Section vm.
Context {env : MmuEnv} {law : MmuLaw env}.

Definition arena_ok (p : Z) (d : DEV_ARENA_DESCRIPTOR) (ar : arena_st) (o : os) (e : mmu_st) (l : gmap Z Z) : Prop :=
  ∃ k L, sys_ok (src := vm_source p) (BaseDevVAddr d) (BaseDevVAddr d + ui32Size d) k 4096 (ra_of o e ar) L l ∧
    no_import (ra_of o e ar) ∧ paged l.

Lemma arena_ok_frame p d ar o e o' e' l : arena_ok p d ar o e l → arena_ok p d ar o' e' l.
Proof.
  intros (k&L&Hs&Hn&Hp). exists (k + os_live o' - os_live o), L. split; [|done].
  exact (sys_ok_frame (src := vm_source p) _ _ _ _ _ _ _ o' e' (λ _ _, eq_refl) Hs).
Qed.

Lemma arena_few p lo hi k s L l : sys_ok (src := vm_source p) lo hi k 4096 s L l → paged l → hi - lo ≤ 4294967296 → few L.
Proof.
  intros (Hrep&_&Hl) Hp Hlt. pose proof (ra_rep_geo _ _ _ _ Hrep) as [Hch Hok]. pose proof (ra_rep_mode _ _ _ _ Hrep) as Hm. simpl in Hm.
  unfold few. assert (∀ x, x ∈ lives L → 4096 ≤ s_size x) as Hsz.
  { intros x Hx. unfold live_map in Hl. destruct (Hp (s_base x) (s_size x)) as (_&Hn&H0); [by apply Hl; exists x|].
    pose proof (Z.div_mod (s_size x) 4096 ltac:(lia)). lia. }
  assert (Z.of_nat (length (lives L)) * 4096 ≤ hi - lo) as Hb; [|lia].
  eapply lives_bound; [exact Hch|exact Hok|done| |lia]. intros x Hx. specialize (Hok x Hx). unfold seg_ok in Hok.
  destruct (kind_of x); [done|done|]. destruct Hok as [_ Hin]. simpl in Hin. lia.
Qed.

(** ** The abstract state *)

Record vabs := mkVabs {
  va_tab : tables;
  va_heaps : gmap Z (MMU_HEAP * gmap Z Z)
}.

Definition slot_ok (s : vm_st) (p : Z) (x : option (MMU_HEAP * gmap Z Z)) : Prop :=
  match x, m_heaps (v_mmu s) !! p, v_arenas s !! p with
  | Some (h0, l), Some h, Some ar => h0 = strip h ∧ arena_ok p (psDevArena h) ar (v_os s) (v_mmu s) l
  | None, None, None => True
  | _, _, _ => False
  end.

Definition heaps_apart (A : vabs) : Prop :=
  ∀ p p' h h' l l' i, va_heaps A !! p = Some (h, l) → va_heaps A !! p' = Some (h', l') → p ≠ p' →
    in_heap h i → in_heap h' i → shared_heap h = false ∧ shared_heap h' = false ∧ psMMUContext h ≠ psMMUContext h'.

Record vrep (k : Z) (n : nat) (s : vm_st) (A : vabs) : Prop := {
  vr_mmu : ∃ G, rep k n (v_mmu s) (va_tab A) G;
  vr_slot : ∀ p, slot_ok s p (va_heaps A !! p);
  vr_apart : heaps_apart A
}.

Lemma vrep_heap k n s A p h0 l : vrep k n s A → va_heaps A !! p = Some (h0, l) →
  ∃ h ar, m_heaps (v_mmu s) !! p = Some h ∧ h0 = strip h ∧ v_arenas s !! p = Some ar ∧
    arena_ok p (psDevArena h) ar (v_os s) (v_mmu s) l.
Proof.
  intros [_ Hs _] Hp. specialize (Hs p). rewrite Hp in Hs. unfold slot_ok in Hs.
  destruct (m_heaps (v_mmu s) !! p) as [h|]; [|done]. destruct (v_arenas s !! p) as [ar|]; [|done]. destruct Hs. eauto 10.
Qed.

Lemma strip_of_keep e e' p : keep e e' → strip <$> m_heaps e' !! p = strip <$> m_heaps e !! p.
Proof. intros [Hk _]. by rewrite <- !lookup_fmap, Hk. Qed.

Lemma slot_ok_frame s s' p x :
  slot_ok s p x → strip <$> m_heaps (v_mmu s') !! p = strip <$> m_heaps (v_mmu s) !! p → v_arenas s' !! p = v_arenas s !! p →
  slot_ok s' p x.
Proof.
  unfold slot_ok. intros Hs Hp ->. destruct x as [[h0 l]|], (m_heaps (v_mmu s) !! p) as [h|], (m_heaps (v_mmu s') !! p) as [h'|];
    simpl in Hp; try done; try (by destruct (v_arenas s !! p)).
  destruct (v_arenas s !! p) as [ar|]; [|done]. apply (inj Some) in Hp. destruct Hs as [-> Har]. split; [done|].
  assert (psDevArena h' = psDevArena h) as -> by exact (f_equal psDevArena Hp). by eapply arena_ok_frame.
Qed.

(** An operation on the tables alone. *)
Lemma vrep_mmu k k' n n' s s' A a' :
  vrep k n s A → (∃ G, rep k' n' (v_mmu s') a' G) → v_arenas s' = v_arenas s →
  (∀ p, strip <$> m_heaps (v_mmu s') !! p = strip <$> m_heaps (v_mmu s) !! p) →
  vrep k' n' s' (mkVabs a' (va_heaps A)).
Proof.
  intros [_ Hs Hap] Hr Ha Hk. split; [exact Hr| |exact Hap]. intros p. eapply slot_ok_frame; [apply Hs|apply Hk|by rewrite Ha].
Qed.

Lemma wp_with_mmu {B} (m : M mmu_st B) Q s :
  wp m (λ x e, Q x (set_v_mmu e s)) (v_mmu s) → wp (with_mmu m) Q s.
Proof. intros. by apply wp_zoom. Qed.

Lemma wp_with_arena {B} p (m : M (ra_st (E:=mmu_st)) B) ar Q s :
  v_arenas s !! p = Some ar → wp m (λ x r, Q x (vm_of p r s)) (ra_of (v_os s) (v_mmu s) ar) →
  wp (with_arena p m) Q s.
Proof. intros Hp. unfold wp, with_arena. rewrite Hp. by destruct (m _). Qed.

(** An operation on the arena of [p]. *)
Lemma vrep_arena k n s A p h0 l h r a' l' :
  vrep k n s A → va_heaps A !! p = Some (h0, l) → m_heaps (v_mmu s) !! p = Some h →
  (∃ G, rep k n (ra_env r) a' G) → keep (v_mmu s) (ra_env r) →
  arena_ok p (psDevArena h) (mkArenaSt (ra_heap r) (ra_next r) (ra_arena r)) (ra_os r) (ra_env r) l' →
  vrep k n (vm_of p r s) (mkVabs a' (<[p := (h0, l')]> (va_heaps A))).
Proof.
  intros Hv Hp Hh Hr Hk Har. pose proof Hv as [_ Hs Hap]. split; [exact Hr| |].
  - intros p'. specialize (Hs p'). pose proof (strip_of_keep _ _ p' Hk) as Hp'.
    cbn [va_heaps]. destruct (decide (p' = p)) as [->|Hne].
    + unfold slot_ok in *. cbn [v_mmu v_arenas v_os vm_of]. rewrite !lookup_insert_eq. rewrite Hp, Hh in *. simpl in Hp'. destruct (m_heaps (ra_env r) !! p) as [h'|]; [|done].
      apply (inj Some) in Hp'. destruct (v_arenas s !! p); [|done]. destruct Hs as [-> _]. split; [done|].
      by assert (psDevArena h' = psDevArena h) as -> by exact (f_equal psDevArena Hp').
    + rewrite lookup_insert_ne by done. eapply slot_ok_frame; [exact Hs|exact Hp'|]. cbn [vm_of v_arenas]. by rewrite lookup_insert_ne.
  - intros q q' g g' m m' i Hq Hq' Hne. cbn [va_heaps] in *.
    assert (∀ q g m, <[p := (h0, l')]> (va_heaps A) !! q = Some (g, m) → ∃ m', va_heaps A !! q = Some (g, m')) as Hx.
    { intros q1 g1 m1 [[<- [= <- <-]]|[_ ?]]%lookup_insert_Some; eauto. }
    destruct (Hx _ _ _ Hq) as [m1 Hq1], (Hx _ _ _ Hq') as [m2 Hq2]. by eapply (Hap q q').
Qed.
End vm.
