(* ===== verification/MmuVmOps.v ===== *)
(** * The MMU: the operations on heaps *)

From S2P Require Import Prelude Hash DList RA RARep RAGeo RAInv RAOps RAAlloc RAImport RATop RALife RAProps RASys.
From S2P Require Import Mmu MmuRep MmuOps MmuTab MmuMap MmuUnmap MmuCtx MmuLife MmuHeap MmuVm.

Section ops.
Context {env : MmuEnv} {law : MmuLaw env}.

(** ** Creation *)

Definition can_create (A : vabs) (c : Z) (d : DEV_ARENA_DESCRIPTOR) : Prop :=
  let h := heap_of c d in
  c ∈ t_list (va_tab A) ∧ good_arena d ∧ vacant (va_tab A) h ∧
  ∀ p h' l i, va_heaps A !! p = Some (h', l) → in_heap h i → in_heap h' i →
    shared_heap h = false ∧ shared_heap h' = false ∧ psMMUContext h ≠ psMMUContext h'.

Definition vm_plenty (s : vm_st) : Prop := plenty (v_os s) ∧ plenty (m_os (v_mmu s)).

Definition created (A : vabs) (p c : Z) (d : DEV_ARENA_DESCRIPTOR) : vabs :=
  mkVabs (owned (heap_of c d) (Some c) (va_tab A)) (<[p := (strip (heap_of c d), ∅)]> (va_heaps A)).

Lemma heap_of_count c d : good_arena d → 0 ≤ ui32PageTableCount (heap_of c d).
Proof. intros (_&_&Hs&_). simpl. apply Z.div_pos; [|lia]. assert (0 ≤ ui32Size d / 4096) by (apply Z.div_pos; lia). lia. Qed.

(** A heap joins the representation. *)
Lemma rep_new_heap k n e a G c d p o' :
  rep k n e a G → c ∈ t_list a → good_arena d → vacant a (heap_of c d) →
  (∀ q h' i, m_heaps e !! q = Some h' → in_heap (heap_of c d) i → in_heap h' i → shared_heap (heap_of c d) = false) →
  p = m_next e → os_live o' = os_live (m_os e) + 1 →
  rep k n (set_m_heaps (<[p := heap_of c d]> (m_heaps e)) (set_m_next (p + 1) (set_m_os o' e))) (owned (heap_of c d) (Some c) a) G.
Proof.
  intros Hr Hc Hd Hv Hap -> Ho. pose proof (heap_of_count c d Hd) as Hcnt.
  destruct (rep_owned _ _ _ _ _ (heap_of c d) (Some c) Hr Hcnt) as [Hr' _].
  { by intros c' [= <-]. }
  { intros i Hi Hs c'. apply (Hv i Hi). by left. }
  { intros q h' i Hq Hi Hi'. by eapply Hap. }
  assert (m_heaps e !! m_next e = None) as Hnone by (destruct Hr as (W&Hrw&_); apply (rw_fresh_none _ _ _ _ _ _ Hrw)).
  pose proof Hr as (W&Hrw&_). pose proof (r_next _ _ _ _ _ _ Hrw) as Hnx.
  eapply rep_heaps; [exact Hr'|lia| |rewrite map_size_insert_None by done; lia].
  intros q h' [[<- <-]|[_ Hq]]%lookup_insert_Some.
  - split; [|lia]. apply heap_of_ok; [done|by destruct (owned_same (heap_of c d) (Some c) a) as [-> _]|].
    intros i Hi. destruct (shared_heap (heap_of c d)) eqn:Hs.
    + by apply (proj1 (owned_lookup _ _ _ _ Hcnt)).
    + rewrite (proj2 (owned_lookup _ _ _ _ Hcnt)) by done. by apply (Hv i Hi).
  - destruct (rep_heap_range _ _ _ _ _ _ _ Hr' Hq) as (?&?&?). split; [done|lia].
Qed.

(** And leaves it. *)
Lemma wp_free_heap k n e a G p h (Q : unit → mmu_st → Prop) :
  rep k n e a G → m_heaps e !! p = Some h → (∀ i, in_heap h i → shared_heap h = true → ∀ c, t_pt a !! (c, i) = None) →
  (∀ q h' i, q ≠ p → m_heaps e !! q = Some h' → in_heap h i → in_heap h' i → shared_heap h = false) →
  (∀ e', e' = set_m_heaps (delete p (m_heaps e)) (set_m_os (m_os e') e) → os_script (m_os e') = os_script (m_os e) →
     rep k n e' (owned h None a) G → Q tt e') →
  wp (free_heap p) Q e.
Proof.
  intros Hr Hp Hv Hap HQ. unfold free_heap. wp_step. eapply wp_rd_heap; [done|]. wp_step. apply wp_zoom, wp_OSFreeMem. wp_step.
  apply HQ; [done|done|]. destruct (rep_heap_range _ _ _ _ _ _ _ Hr Hp) as (Hok&_). pose proof (ho_range _ _ Hok) as Hrg.
  set (o' := {| os_script := os_script (m_os e); os_live := os_live (m_os e) - 1 |}).
  assert (rep k n (set_m_heaps (delete p (m_heaps e)) (set_m_next (m_next e) (set_m_os o' e))) a G) as Hr'.
  { eapply rep_heaps; [exact Hr|lia| |].
    - intros q h' Hq. apply lookup_delete_Some in Hq as [_ Hq]. by eapply rep_heap_range.
    - rewrite map_size_delete, Hp. simpl. assert (0 < size (m_heaps e))%nat; [|lia].
      apply Nat.neq_0_lt_0, map_size_non_empty_iff. intros He. by rewrite He, lookup_empty in Hp. }
  destruct (rep_owned _ _ _ _ _ h None Hr' ltac:(lia)) as [Hr'' _]; [done|done| |].
  - intros q h' i Hq. cbn [m_heaps set_m_heaps] in Hq. apply lookup_delete_Some in Hq as [Hne Hq]. by eapply Hap.
  - replace (set_m_heaps _ _) with (set_m_heaps (delete p (m_heaps e)) (set_m_next (m_next e) (set_m_os o' e))); [done|]. by destruct e.
Qed.

(** The tags of the arena of the heap [p]. *)
Definition heap_tags (s : vm_st) (p : Z) (d : DEV_ARENA_DESCRIPTOR) (L : list seg) : Prop :=
  ∃ ar k, v_arenas s !! p = Some ar ∧
    ra_rep (src := vm_source p) (Resource (BaseDevVAddr d) (BaseDevVAddr d + ui32Size d)) k (ra_of (v_os s) (v_mmu s) ar) L.

(** One free tag for all of a new heap. *)
Definition whole (d : DEV_ARENA_DESCRIPTOR) : list seg := [mkSeg btt_free (BaseDevVAddr d) (ui32Size d) 0].

Lemma wp_RA_Create_vm p d o e :
  good_arena d →
  wp (RA_Create (BaseDevVAddr d) (ui32Size d) IMG_NULL 4096 None None (Some MMU_FreePageTables) p)
    (λ ok r, ra_env r = e ∧ (plenty o → ok = true ∧ plenty (ra_os r)) ∧
       let ar := mkArenaSt (ra_heap r) (ra_next r) (ra_arena r) in
       (ok = true → arena_ok p d ar (ra_os r) e ∅ ∧ ∃ k,
          ra_rep (src := vm_source p) (Resource (BaseDevVAddr d) (BaseDevVAddr d + ui32Size d)) k (ra_of (ra_os r) e ar) (whole d)))
    (ra_of o e (mkArenaSt ∅ 1 None)).
Proof.
  intros (Hb&Hba&Hsz&Hszp&Hlt&Hlt'&_). eapply wp_mono.
  { apply (wp_RA_Create_arena (src := vm_source p) (Resource (BaseDevVAddr d) (BaseDevVAddr d + ui32Size d + 4096))); try done.
    - simpl. unfold ADDR_MAX. lia.
    - lia.
    - intros _. eexists _, _. split; [done|lia].
    - by left. }
  intros ok r [[Hpl Hok] [He Hst]]. split; [exact He|]. split; [exact Hpl|]. cbv zeta. intros ->.
  pose proof (Hst eq_refl) as Hst'.
  destruct Hok as (Hq&L&Hrep&[[? _]|(r'&Hr0&Hr&Hm&->)]); [lia|].
  assert (r' = ui32Size d) as ->.
  { pose proof (Z.div_mod r' 4096 ltac:(lia)). pose proof (Z.div_mod (ui32Size d) 4096 ltac:(lia)). lia. }
  assert (ra_of (ra_os r) e (mkArenaSt (ra_heap r) (ra_next r) (ra_arena r)) = r) as Hre.
  { cbn [ra_of ra_env] in He. rewrite <- He. by destruct r. }
  rewrite Hre. assert (sys_ok (src := vm_source p) (BaseDevVAddr d) (BaseDevVAddr d + ui32Size d) (os_live o + arena_blocks) 4096 r
    (whole d) ∅) as Hsys.
  { eapply sys_ok_window; [|..].
    + split; [exact Hrep|]. split; [exact Hq|]. intros b' n'. rewrite lookup_empty. split; [done|].
      intros (x&Hx&_). by apply elem_of_nil in Hx.
    + lia.
    + lia.
    + intros x ->%list_elem_of_singleton. unfold endof. simpl. lia. }
  split; [|eexists; by apply Hsys]. eexists _, _. rewrite Hre. split; [exact Hsys|split].
  - unfold no_import. destruct (ra_arena r) as [a|]; [|done]. simpl in Hst'. unfold static in Hst'. simpl in *. congruence.
  - intros b' n' Hb'. by rewrite lookup_empty in Hb'.
Qed.

(** The slots of a new heap [p] and of the others. *)
Lemma vrep_created k n s s' A p c d :
  vrep k n s A → can_create A c d → m_heaps (v_mmu s) !! p = None →
  m_heaps (v_mmu s') = <[p := heap_of c d]> (m_heaps (v_mmu s)) →
  (∃ G, rep k n (v_mmu s') (owned (heap_of c d) (Some c) (va_tab A)) G) →
  (∃ ar, v_arenas s' = <[p := ar]> (v_arenas s) ∧ arena_ok p d ar (v_os s') (v_mmu s') ∅) →
  vrep k n s' (created A p c d) ∧ va_heaps A !! p = None.
Proof.
  intros [_ Hs Hap] (_&_&_&Hnew) Hnone Hh Hr (ar&Har&Hok). assert (va_heaps A !! p = None) as Hp.
  { specialize (Hs p). unfold slot_ok in Hs. rewrite Hnone in Hs. by destruct (va_heaps A !! p) as [[]|]. }
  split; [|done]. split; [exact Hr| |].
  - intros q. cbn [va_heaps created]. destruct (decide (q = p)) as [->|Hne].
    + unfold slot_ok. rewrite Hh, Har, !lookup_insert_eq. done.
    + rewrite lookup_insert_ne by done. eapply slot_ok_frame; [apply Hs|rewrite Hh, lookup_insert_ne; done|].
      by rewrite Har, lookup_insert_ne.
  - intros q q' h h' l l' i Hq Hq' Hne Hi Hi'. cbn [va_heaps created] in *.
    apply lookup_insert_Some in Hq as [[<- [= <- <-]]|[Hqne Hq]]; apply lookup_insert_Some in Hq' as [[<- [= <- <-]]|[Hqne' Hq']].
    + done.
    + by eapply Hnew.
    + destruct (Hnew _ _ _ i Hq Hi' Hi) as (?&?&?). split; [done|]. split; [done|]. by apply not_eq_sym.
    + by eapply (Hap q q').
Qed.

Definition heap_created k n s A c d (p : Z) s' : Prop :=
  if p =? 0 then vrep k n s' A ∧ (devarena_DataPageSize d ≠ 4096 ∨ ¬ vm_plenty s)
  else devarena_DataPageSize d = 4096 ∧ vrep k n s' (created A p c d) ∧ va_heaps A !! p = None ∧
    heap_tags s' p d (whole d) ∧ (vm_plenty s → vm_plenty s').

Lemma can_create_apart k n s A c d : vrep k n s A → can_create A c d →
  ∀ q h' i, m_heaps (v_mmu s) !! q = Some h' → in_heap (heap_of c d) i → in_heap h' i → shared_heap (heap_of c d) = false.
Proof.
  intros [_ Hs _] (_&_&_&Hnew) q h' i Hq Hi Hi'. specialize (Hs q). unfold slot_ok in Hs. rewrite Hq in Hs.
  destruct (va_heaps A !! q) as [[h0 l]|] eqn:Hq'; [|done]. destruct (v_arenas s !! q); [|done]. destruct Hs as [-> _].
  by destruct (Hnew q _ _ i Hq' Hi Hi').
Qed.

(** Addresses used up and blocks given back leave the state as it was. *)
Lemma vrep_next k n s A e' o' nx :
  vrep k n s A → e' = set_m_next nx (set_m_os o' (v_mmu s)) → m_next (v_mmu s) ≤ nx → os_live o' = os_live (m_os (v_mmu s)) →
  vrep k n (set_v_mmu e' s) A.
Proof.
  intros Hv -> Hnx Ho. pose proof Hv as [[G Hr] _ _]. destruct A as [a hs].
  eapply (vrep_mmu k k n n s _ (mkVabs a hs)); [exact Hv| |done|done].
  exists G. cbn [v_mmu set_v_mmu va_tab]. replace (set_m_next nx (set_m_os o' (v_mmu s))) with
    (set_m_heaps (m_heaps (v_mmu s)) (set_m_next nx (set_m_os o' (v_mmu s)))) by by destruct (v_mmu s).
  eapply rep_heaps; [exact Hr|done| |lia]. intros q h Hq. destruct (rep_heap_range _ _ _ _ _ _ _ Hr Hq) as (?&?&?).
  split; [done|lia].
Qed.

(** A heap without its arena, taken back. *)
Lemma wp_undo_create k n s s1 A c d p ar G :
  vrep k n s A → can_create A c d → m_heaps (v_mmu s) !! p = None →
  m_heaps (v_mmu s1) = <[p := heap_of c d]> (m_heaps (v_mmu s)) →
  rep k n (v_mmu s1) (owned (heap_of c d) (Some c) (va_tab A)) G → v_arenas s1 = <[p := ar]> (v_arenas s) →
  wp (with_mmu (_DeferredFreePageTables p);; modify (λ s, set_v_arenas (delete p (v_arenas s)) s);;
      with_mmu (free_heap p);; mret IMG_NULL) (λ q s', q = 0 ∧ vrep k n s' A) s1.
Proof.
  intros Hv Hcan Hnone Hh' Hr' Har. pose proof Hv as [_ Hs _]. pose proof Hcan as (Hc&Hd&Hvac&_).
  assert (m_heaps (v_mmu s1) !! p = Some (heap_of c d)) as Hhp by (rewrite Hh'; apply lookup_insert_eq).
  wp_step. apply wp_with_mmu. eapply wp_mono; [eapply wp_DeferredFreePageTables; done|]. cbn beta. intros [] e2 ((G2&Hr2)&Hk2&_).
  destruct (owned_same (heap_of c d) (Some c) (va_tab A)) as [_ Hpt].
  rewrite erase_vacant in Hr2; [|intros i Hi; rewrite Hpt; apply (Hvac i Hi); by right|by apply heap_of_count].
  wp_step. apply wp_modify. wp_step. apply wp_with_mmu. cbn [v_mmu set_v_mmu set_v_arenas].
  destruct (keep_heap _ _ _ _ Hk2 Hhp) as [tot Htot]. set (h2 := set_PTETotalUsable tot (heap_of c d)) in *.
  assert (∀ q, strip <$> m_heaps e2 !! q = strip <$> m_heaps (v_mmu s1) !! q) as Hst by (intros; by apply strip_of_keep).
  eapply wp_free_heap; [exact Hr2|exact Htot| | |].
  - intros i Hi Hsh c'. rewrite Hpt. apply (Hvac i Hi). by left.
  - intros q h' i Hne Hq Hi Hi'. specialize (Hst q). rewrite Hq, Hh', lookup_insert_ne in Hst by done.
    destruct (m_heaps (v_mmu s) !! q) as [h1|] eqn:Hq1; [|done]. cbn in Hst. apply (inj Some) in Hst.
    eapply (can_create_apart k n s A c d Hv Hcan q h1 i); [done|done|]. unfold in_heap in *.
    change (ui32PDBaseIndex h1) with (ui32PDBaseIndex (strip h1)). change (ui32PageTableCount h1) with (ui32PageTableCount (strip h1)).
    by rewrite <- Hst.
  - intros e3 He3 _ Hr3. wp_step. split; [done|].
    rewrite (owned_undo (va_tab A) (heap_of c d) c Hvac (heap_of_count c d Hd) : owned h2 None _ = _) in Hr3.
    destruct A as [a hs]. eapply (vrep_mmu k k n n s _ (mkVabs a hs)); [exact Hv|by exists G2| |].
    + cbn [v_arenas set_v_mmu set_v_arenas]. rewrite Har, delete_insert_eq. apply delete_id.
      specialize (Hs p). unfold slot_ok in Hs. rewrite Hnone in Hs. cbn [va_heaps] in Hs.
      destruct (hs !! p) as [[]|]; [done|]. by destruct (v_arenas s !! p).
    + intros q. cbn [v_mmu set_v_mmu]. rewrite He3. cbn [m_heaps set_m_heaps]. destruct (decide (q = p)) as [->|Hne].
      * rewrite lookup_delete_eq, Hnone. done.
      * rewrite lookup_delete_ne by done. rewrite Hst, Hh', lookup_insert_ne by done. done.
Qed.

Lemma wp_MMU_Create k n s A c d :
  vrep k n s A → can_create A c d → wp (MMU_Create c d) (heap_created k n s A c d) s.
Proof.
  intros Hv Hcan. pose proof Hv as [[G Hr] Hs Hap]. pose proof Hcan as (Hc&Hd&Hvac&Hnew).
  unfold MMU_Create. wp_step. apply wp_with_mmu, wp_create_heap; [done|..].
  - intros e' _ Hnp He Ho. change (IMG_NULL =? IMG_NULL) with true. cbv iota. wp_step. split; [|right; by intros []].
    eapply (vrep_next k n s A e' (m_os e') (m_next (v_mmu s))); [done|rewrite He at 1; by destruct (v_mmu s)|done|exact Ho].
  - intros Hpg e' He Ho _. change (IMG_NULL =? IMG_NULL) with true. cbv iota. wp_step. split; [|by left].
    eapply vrep_next; [done|exact He|lia|exact Ho].
  - intros Hpg e' He Ho Hple. pose proof Hr as (W&Hrw&_). pose proof (r_next _ _ _ _ _ _ Hrw) as Hnx.
    destruct (Z.eqb_spec (m_next (v_mmu s)) IMG_NULL) as [|_]; [unfold IMG_NULL in *; lia|].
    set (p := m_next (v_mmu s)) in *.
    assert (rep k n e' (owned (heap_of c d) (Some c) (va_tab A)) G) as Hr'.
    { rewrite He. eapply rep_new_heap; [done..|by eapply can_create_apart|done|done]. }
    assert (m_heaps e' = <[p := heap_of c d]> (m_heaps (v_mmu s))) as Hh' by by rewrite He.
    assert (m_heaps (v_mmu s) !! p = None) as Hnone by apply (rw_fresh_none _ _ _ _ _ _ Hrw).
    clear He. wp_step. apply wp_modify. wp_step.
    apply wp_with_mmu. cbn [v_mmu set_v_mmu set_v_arenas]. eapply wp_rd_heap; [rewrite Hh'; apply lookup_insert_eq|]. wp_step. unfold id.
    eapply wp_with_arena; [apply lookup_insert_eq|]. cbn [v_os v_mmu set_v_mmu set_v_arenas ui32DataPageSize heap_of].
    change (Z.max HOST_PAGESIZE 4096) with 4096.
    eapply wp_mono; [by apply wp_RA_Create_vm|]. cbn beta. intros ok r (He&Hpl&Hok).
    match goal with |- wp _ _ ?t => set (s1 := t) end.
    assert (v_arenas s1 = <[p := mkArenaSt (ra_heap r) (ra_next r) (ra_arena r)]> (v_arenas s)) as Har by apply insert_insert_eq.
    destruct ok; cbn [negb].
    + wp_step. unfold heap_created. destruct (Z.eqb_spec p 0); [lia|]. split; [done|].
      destruct (Hok eq_refl) as [Hok' [k' Htags]]. rewrite <- He in Hok', Htags, Hr', Hh', Hple.
      destruct (vrep_created k n s s1 A p c d) as [? ?]; [done|done|done|done|by exists G|by eexists|].
      split; [done|]. split; [done|]. split; [eexists _, k'; split; [by rewrite Har, lookup_insert_eq|done]|].
      intros [Hpo Hpm]. split; [by apply Hpl|by apply Hple].
    + rewrite <- He in Hr', Hh'. eapply wp_mono; [by eapply wp_undo_create|]. cbn beta. intros q s' [-> Hv'].
      split; [exact Hv'|]. right. intros [Hpo Hpm]. by destruct (Hpl Hpo).
Qed.

(** ** Deletion *)

Definition deleted (A : vabs) (p : Z) (h : MMU_HEAP) : vabs :=
  mkVabs (owned h None (erase_heap h (va_tab A))) (delete p (va_heaps A)).

Lemma vrep_deleted k n s s' A p h l :
  vrep k n s A → va_heaps A !! p = Some (strip h, l) →
  (∀ q, strip <$> m_heaps (v_mmu s') !! q = strip <$> delete p (m_heaps (v_mmu s)) !! q) →
  v_arenas s' = delete p (v_arenas s) →
  (∃ G, rep k n (v_mmu s') (owned h None (erase_heap h (va_tab A))) G) → vrep k n s' (deleted A p h).
Proof.
  intros [_ Hs Hap] Hp Hh Ha Hr. split; [exact Hr| |].
  - intros q. specialize (Hh q). cbn [va_heaps deleted]. destruct (decide (q = p)) as [->|Hne].
    + unfold slot_ok. rewrite lookup_delete_eq in Hh. rewrite Ha, !lookup_delete_eq.
      by destruct (m_heaps (v_mmu s') !! p).
    + rewrite lookup_delete_ne in Hh by done. rewrite lookup_delete_ne by done. eapply slot_ok_frame; [apply Hs|exact Hh|by rewrite Ha, lookup_delete_ne].
  - intros q q' g g' m m' i Hq Hq'. cbn [va_heaps deleted] in *. apply lookup_delete_Some in Hq as [_ Hq], Hq' as [_ Hq'].
    by eapply (Hap q q').
Qed.

Lemma wp_MMU_Delete k n s A p h0 l :
  vrep k n s A → va_heaps A !! p = Some (h0, l) →
  wp (MMU_Delete p) (λ _ s', vrep k n s' (deleted A p h0) ∧ told (v_mmu s') SGXMKIF_CC_INVAL_BIF_PD) s.
Proof.
  intros Hv Hp. destruct (vrep_heap _ _ _ _ _ _ _ Hv Hp) as (h&ar&Hh&->&Har&(ka&L&(Hrep&_&_)&Hni&_)).
  pose proof Hv as [[G Hr] Hs Hap]. destruct (rep_heap_range _ _ _ _ _ _ _ Hr Hh) as (Hok&_&Hp0). pose proof (ho_range _ _ Hok) as Hrg.
  unfold MMU_Delete. destruct (Z.eqb_spec p IMG_NULL) as [|_]; [unfold IMG_NULL in *; lia|]. wp_step. wp_step. rewrite Har.
  assert (∃ a, psVMArena ar = Some a) as [arena Ha].
  { unfold no_import in Hni. cbn [ra_arena ra_of] in Hni. destruct (psVMArena ar); [eauto|done]. }
  wp_step. wp_step. rewrite Ha. destruct Hrep as (segs&fl&dat&hm&Hinv&_). wp_step. eapply wp_with_arena; [done|].
  eapply wp_mono; [eapply wp_RA_Delete; exact Hinv|]. cbn beta. intros [] r (_&_&_&He). cbn [ra_env ra_of] in He.
  wp_step. apply wp_with_mmu. cbn [v_mmu vm_of]. rewrite He.
  eapply wp_mono; [eapply wp_DeferredFreePageTables; done|]. cbn beta. intros [] e2 ((G2&Hr2)&Hk2&Ht).
  wp_step. apply wp_modify. apply wp_with_mmu. cbn [v_mmu vm_of set_v_mmu set_v_arenas].
  destruct (keep_heap _ _ _ _ Hk2 Hh) as [tot Htot].
  assert (∀ q, strip <$> m_heaps e2 !! q = strip <$> m_heaps (v_mmu s) !! q) as Hst by (intros; by apply strip_of_keep).
  eapply wp_free_heap; [exact Hr2|exact Htot| | |].
  - intros i Hi Hsh c. unfold erase_heap. rewrite erase_lookup. cbn [fst snd]. case_decide as Hd; [done|].
    destruct (t_pt (va_tab A) !! (c, i)) eqn:Hx; [|done]. destruct Hd. pose proof Hr as (W&Hrw&_).
    destruct (r_dom _ _ _ _ _ _ Hrw c i) as (_&_&Ho); [by eauto|]. unfold in_heap in Hi.
    change (ui32PDBaseIndex (set_PTETotalUsable tot h)) with (ui32PDBaseIndex h) in Hi.
    change (ui32PageTableCount (set_PTETotalUsable tot h)) with (ui32PageTableCount h) in Hi.
    change (shared_heap (set_PTETotalUsable tot h)) with (shared_heap h) in Hsh.
    unfold owner in Ho. rewrite (ho_own _ _ Hok i Hi), Hsh in Ho. split; [by symmetry|lia].
  - intros q h' i Hne Hq Hi Hi'. specialize (Hst q). specialize (Hs q). unfold slot_ok in Hs. rewrite Hq in Hst.
    destruct (m_heaps (v_mmu s) !! q) as [h1|] eqn:Hq1; [|done]. cbn in Hst. apply (inj Some) in Hst.
    destruct (va_heaps A !! q) as [[h2 l2]|] eqn:Hq2; [|done]. destruct (v_arenas s !! q); [|done]. destruct Hs as [-> _].
    destruct (Hap p q _ _ _ _ i Hp Hq2) as [Hsh _]; [by apply not_eq_sym|exact Hi| |exact Hsh].
    rewrite <- Hst. exact Hi'.
  - intros e3 He3 _ Hr3. split.
    + eapply vrep_deleted; [done|done| | |by exists G2].
      * intros q. cbn [v_mmu set_v_mmu]. rewrite He3. cbn [m_heaps set_m_heaps].
        destruct (decide (q = p)) as [->|]; [by rewrite !lookup_delete_eq|]. rewrite !lookup_delete_ne by done. apply Hst.
      * cbn [v_arenas vm_of set_v_mmu set_v_arenas]. by rewrite delete_insert_eq.
    + cbn [v_mmu set_v_mmu]. unfold told in *. rewrite He3. exact Ht.
Qed.
(** ** Ranges of addresses *)

(** The live ranges are in the heap. *)
Lemma arena_live p d ar o e l b n : arena_ok p d ar o e l → l !! b = Some n →
  BaseDevVAddr d ≤ b ∧ b + n ≤ BaseDevVAddr d + ui32Size d ∧ b mod 4096 = 0 ∧ n mod 4096 = 0 ∧ 0 < n.
Proof.
  intros (k&L&(Hrep&_&Hl)&_&Hp) Hb. destruct (Hp b n Hb) as (?&?&?). unfold live_map in Hl.
  apply Hl in Hb as (x&[Hx Ht]%elem_lives&<-&<-). pose proof (geo_ok _ _ x (ra_rep_geo _ _ _ _ Hrep) Hx) as Hok.
  apply tile_ok in Hok as [_ [? ?]]; [|by apply live_tile]. done.
Qed.

(** What MMU_Alloc is asked for: whole pages. *)
Definition page_request (sz al : Z) : Prop :=
  0 < sz ≤ LAST_TABLE ∧ sz mod 4096 = 0 ∧ 0 < al ∧ al mod 4096 = 0 ∧ sz + al + 4096 < 4294967296.

(** The heap [h] has room made at [v]. *)
Definition placed (h : MMU_HEAP) (l : gmap Z Z) (v sz al : Z) : Prop :=
  v mod al = 0 ∧ in_window h v sz ∧ ∀ b n, l !! b = Some n → b + n ≤ v ∨ v + sz ≤ b.

(** No free tag of the arena of the heap has room. *)
Definition heap_full (s : vm_st) (p : Z) (h : MMU_HEAP) (sz al : Z) : Prop :=
  ∀ L x, heap_tags s p (psDevArena h) L → few L → x ∈ L → s_type x = btt_free →
    ¬ fit (map_flags := no_map) (v_mmu s) x sz 0 al 0.

Definition heap_alloc k n s A p h l sz al (r : bool * Z) s' : Prop :=
  (vm_plenty s → vm_plenty s') ∧ ∃ a', grown h (va_tab A) a' ∧
  if r.1 then
    vrep k n s' (mkVabs a' (<[p := (h, <[r.2 := sz]> l)]> (va_heaps A))) ∧ placed h l r.2 sz al ∧
    ∀ w, r.2 ≤ w < r.2 + sz → w < LAST_TABLE → present a' (psMMUContext h) (pdx w)
  else vrep k n s' (mkVabs a' (va_heaps A)) ∧ (plenty (v_os s) → ¬ enough n (v_mmu s) a' ∨ heap_full s p h sz al).

Lemma arena_ok_of p d k r L l :
  sys_ok (src := vm_source p) (BaseDevVAddr d) (BaseDevVAddr d + ui32Size d) k 4096 r L l → no_import r → paged l →
  arena_ok p d (mkArenaSt (ra_heap r) (ra_next r) (ra_arena r)) (ra_os r) (ra_env r) l.
Proof.
  intros Hs Hn Hp. exists k, L. split; [|done].
  by assert (ra_of (ra_os r) (ra_env r) (mkArenaSt (ra_heap r) (ra_next r) (ra_arena r)) = r) as -> by by destruct r.
Qed.

Lemma wp_run {S B} (m : M S B) Q s : wp m Q s → wp m (λ r s', m s = Done r s' ∧ Q r s') s.
Proof. unfold wp. by destruct (m s). Qed.

(** An arena that refuses has no room. *)
Lemma refused_full s p h ar sz al r' :
  v_arenas s !! p = Some ar → uQuantum <$> psVMArena ar = Some 4096 → alloc_ok 4096 sz al 0 →
  RA_Alloc no_map sz 0 al 0 (ra_of (v_os s) (v_mmu s) ar) = Done None r' → plenty (v_os s) → heap_full s p h sz al.
Proof.
  intros Har Hq Hok Hrun Hpl L x (ar'&k&Har'&Hrep) Hfew Hx Hf. rewrite Har in Har'. injection Har' as <-.
  pose proof (wp_RA_Alloc_rep (src := vm_source p) _ _ _ _ 4096 sz 0 al 0 Hrep Hq Hfew Hok) as Hw.
  unfold wp in Hw. rewrite Hrun in Hw. destruct Hw as (_&md'&L'&_&_&_&Hno). by apply Hno.
Qed.

(** The arena's part. *)
Lemma wp_heap_RA_Alloc k n s A p h l sz al :
  vrep k n s A → va_heaps A !! p = Some (strip h, l) → m_heaps (v_mmu s) !! p = Some h → page_request sz al →
  wp (with_arena p (RA_Alloc no_map sz 0 al 0)) (λ r s', v_mmu s' = v_mmu s ∧ (plenty (v_os s) → plenty (v_os s')) ∧
    match r with
    | Some (v, _) => vrep k n s' (mkVabs (va_tab A) (<[p := (strip h, <[v := sz]> l)]> (va_heaps A))) ∧ placed h l v sz al
    | None => vrep k n s' A ∧ (plenty (v_os s) → heap_full s p h sz al)
    end) s.
Proof.
  intros Hv Hp Hh (Hsz&Hszp&Hal&Halp&Hsum). destruct (vrep_heap _ _ _ _ _ _ _ Hv Hp) as (h1&ar&Hh1&_&Har&Haok).
  rewrite Hh in Hh1. apply (inj Some) in Hh1 as <-. pose proof Haok as (ka&L&Hsys&Hni&Hpg). pose proof Hv as [[G Hr] _ _].
  destruct (rep_heap_range _ _ _ _ _ _ _ Hr Hh) as (Hok&_). destruct (ho_size _ _ Hok) as (Hhs&_&Hlt).
  pose proof (ho_base _ _ Hok) as Hb. pose proof (ho_range _ _ Hok) as Hrg.
  assert (alloc_ok 4096 sz al 0) as Haok' by (unfold alloc_ok, is_u32; lia).
  eapply wp_with_arena; [done|]. eapply wp_mono.
  { apply wp_run. eapply (wp_alloc_sys (src := vm_source p) _ _ _ _ _ _ _ sz 0 al 0); [exact Hsys|done|]. eapply arena_few; [exact Hsys|done|lia]. }
  cbn beta. intros [[v m]|] r (Hrun&[Hlater Hcalm]&L'&Hpost); pose proof (Hcalm Hni) as He; cbn [ra_env ra_of] in He; (split; [exact He|]); (split; [exact (proj1 Hlater)|]).
  - destruct Hpost as (Hsys'&Hlo&Hhi&Hala&Hdis&_).
    assert (al mod 4096 = 0 → 4096 ≤ al) as Hge by (intros; pose proof (Z.div_mod al 4096 ltac:(lia)); lia).
    assert (v mod al = 0) as Hva by (unfold aligned in Hala; rewrite Z.add_0_r in Hala; apply Hala; lia).
    split; [|split; [done|split; [unfold in_window; lia|done]]].
    eapply (vrep_arena _ _ _ _ _ _ _ _ _ (va_tab A)); [exact Hv|exact Hp|exact Hh| | |].
    + exists G. by rewrite He.
    + rewrite He. apply keep_refl.
    + eapply arena_ok_of; [exact Hsys'|by eapply later_no_import|]. intros b' n' [[<- <-]|[_ Hb']]%lookup_insert_Some; [|by apply Hpg]. split; [|split; [done|lia]].
        apply Z.mod_divide; [lia|]. apply Z.mod_divide in Hva, Halp; [|lia..]. by eapply Z.divide_trans.
  - destruct Hpost as (Hsys'&_). split.
    2:{ intros Hpl. eapply refused_full; [exact Har|apply Hsys|done|exact Hrun|done]. }
    destruct A as [a hs]. cbn [va_heaps va_tab] in *. rewrite <- (insert_id hs p _ Hp).
    eapply (vrep_arena _ _ _ (mkVabs a hs)); [exact Hv|exact Hp|exact Hh| | |].
    + exists G. by rewrite He.
    + rewrite He. apply keep_refl.
    + eapply arena_ok_of; [exact Hsys'|by eapply later_no_import|done].
Qed.
Lemma wp_heap_RA_Free k n s A p h l v flag P a' :
  vrep k n s A → va_heaps A !! p = Some (strip h, l) → m_heaps (v_mmu s) !! p = Some h →
  (∀ sz L, l !! v = Some sz → backing_ok (src := vm_source p) flag 4096 v sz L P (v_mmu s)) →
  (∀ e', P e' → (∃ G, rep k n e' a' G) ∧ keep (v_mmu s) e') →
  wp (with_arena p (RA_Free v flag)) (λ _ s',
    match l !! v with
    | Some _ => P (v_mmu s') ∧ vrep k n s' (mkVabs a' (<[p := (strip h, delete v l)]> (va_heaps A))) ∧ (plenty (v_os s) → plenty (v_os s'))
    | None => v_mmu s' = v_mmu s ∧ vrep k n s' A
    end) s.
Proof.
  intros Hv Hp Hh Hbk HP. destruct (vrep_heap _ _ _ _ _ _ _ Hv Hp) as (h1&ar&Hh1&_&Har&(ka&L&Hsys&Hni&Hpg)).
  rewrite Hh in Hh1. apply (inj Some) in Hh1 as <-. pose proof Hv as [[G Hr] _ _].
  eapply wp_with_arena; [done|]. eapply wp_mono.
  { eapply (wp_free_sys (src := vm_source p) _ _ _ _ _ _ _ v flag P); [exact Hsys|]. intros sz L0 Hl _ _ _ _. by apply Hbk. }
  cbn beta. intros [] r (Hlater&L'&Hsys'&_&Hm). eapply later_no_import in Hni; [|exact Hlater].
  assert (paged (delete v l)) as Hpg' by (intros b m [_ Hb]%lookup_delete_Some; by apply Hpg).
  pose proof (arena_ok_of _ _ _ _ _ _ Hsys' Hni Hpg') as Hok. destruct (l !! v) eqn:Hl.
  - destruct (HP _ Hm) as [Hr' Hk]. split; [exact Hm|]. split; [by eapply vrep_arena|exact (proj1 Hlater)].
  - cbn [ra_env ra_of] in Hm. split; [exact Hm|]. rewrite delete_id in Hok by done.
    destruct A as [a hs]. cbn [va_heaps va_tab] in *. rewrite <- (insert_id hs p _ Hp).
    eapply (vrep_arena _ _ _ (mkVabs a hs)); [exact Hv|exact Hp|exact Hh| | |exact Hok].
    + exists G. by rewrite Hm.
    + rewrite Hm. apply keep_refl.
Qed.

Lemma grown_strip h a a' : grown h a a' → grown (strip h) a a'.
Proof. intros [H1 H2 H3]. by split. Qed.

Lemma wp_MMU_Alloc k n s A p h l sz fl al v0 :
  vrep k n s A → va_heaps A !! p = Some (h, l) → page_request sz al →
  Z.land fl PVRSRV_MEM_USER_SUPPLIED_DEVVADDR = 0 →
  wp (MMU_Alloc p sz fl al v0) (heap_alloc k n s A p h l sz al) s.
Proof.
  intros Hv Hp Hreq Hfl. destruct (vrep_heap _ _ _ _ _ _ _ Hv Hp) as (h1&ar&Hh&->&_&_). unfold MMU_Alloc. rewrite Hfl. cbn [Z.eqb negb].
  pose proof Hv as [[G Hr] _ _]. destruct (rep_heap_range _ _ _ _ _ _ _ Hr Hh) as (Hok&_).
  assert (u32 sz = sz) as Hu by (apply u32_small; unfold page_request, is_u32 in *; lia).
  wp_step. wp_step. eapply wp_mono; [by eapply wp_heap_RA_Alloc|]. cbn beta. intros [[v m]|] s1 (He&Hple&Hpost); wp_step.
  2:{ wp_step. split; [unfold vm_plenty; rewrite He; tauto|]. exists (va_tab A). split; [apply grown_refl|]. destruct Hpost as [Hv' Hno]. split; [by destruct A|]. intros Hpl. right. by apply Hno. }
  destruct Hpost as [Hv1 Hpl]. pose proof Hpl as (_&Hin&Hdis).
  destruct (window_index _ _ _ _ v Hok Hin) as [_ Huv]; [unfold in_window in Hin; lia|].
  rewrite Hu, (u32_small v) by done. wp_step. apply wp_with_mmu. rewrite He.
  eapply wp_mono; [by eapply wp_DeferredAllocPagetables|]. cbn beta. intros b e2 (a'&G'&Hr'&Hg&Hk&Hh2&Hb).
  set (A1 := mkVabs (va_tab A) (<[p := (strip h1, <[v := sz]> l)]> (va_heaps A))) in *.
  assert (vrep k n (set_v_mmu e2 s1) (mkVabs a' (va_heaps A1))) as Hv2.
  { eapply vrep_mmu; [exact Hv1|by exists G'|done|]. intros q. cbn [v_mmu set_v_mmu]. by rewrite Hh2, He. }
  assert (vm_plenty s → vm_plenty (set_v_mmu e2 s1)) as Hvp.
  { intros [? ?]. split; [by apply Hple|by apply (kp_os _ _ Hk)]. }
  destruct b; cbn [negb andb].
  { wp_step. wp_step. wp_step. split; [exact Hvp|]. exists a'. split; [by apply grown_strip|]. split; [exact Hv2|]. split; [exact Hpl|exact Hb]. }
  assert (l !! v = None) as Hnone.
  { destruct (l !! v) as [n0|] eqn:Hl; [|done]. destruct (vrep_heap _ _ _ _ _ _ _ Hv Hp) as (?&?&?&_&_&Ha).
    destruct (arena_live _ _ _ _ _ _ _ _ Ha Hl) as (_&_&_&_&?). destruct (Hdis v n0 Hl); unfold page_request in Hreq; lia. }
  wp_step. eapply wp_mono.
  { eapply (wp_heap_RA_Free k n _ _ p h1 _ v false (λ e', e' = e2) a'); [exact Hv2|apply lookup_insert_eq| | |].
    - cbn [v_mmu set_v_mmu]. by rewrite Hh2.
    - intros sz' L _. apply backing_false.
    - intros e' ->. split; [by exists G'|apply keep_refl]. }
  cbn beta. rewrite lookup_insert_eq. intros [] s3 (He3&Hv3&Hpl3). wp_step. split; [intros Hvs; destruct (Hvp Hvs); split; [by apply Hpl3|by rewrite He3]|]. exists a'. split; [by apply grown_strip|]. cbn [va_heaps A1] in Hv3.
  rewrite delete_insert_id in Hv3 by done. rewrite insert_insert_eq, insert_id in Hv3 by done. split; [exact Hv3|]. intros _. left. exact Hb.
Qed.

(** ** Release *)

Definition heap_freed (A : vabs) (p : Z) (h : MMU_HEAP) (l : gmap Z Z) (v sz : Z) : vabs :=
  mkVabs (unmap_run (Z.to_nat (sz / 4096)) (psMMUContext h) v (va_tab A)) (<[p := (h, delete v l)]> (va_heaps A)).

Definition invalidated (A A' : vabs) (s' : vm_st) : Prop :=
  told (v_mmu s') SGXMKIF_CC_INVAL_BIF_PD ∨
  told (v_mmu s') SGXMKIF_CC_INVAL_BIF_PT ∧ tables_kept (va_tab A) (va_tab A').

Lemma window_pages a h v sz : heap_ok a h → BaseDevVAddr (psDevArena h) ≤ v → 0 < sz → sz mod 4096 = 0 →
  v + sz ≤ BaseDevVAddr (psDevArena h) + ui32Size (psDevArena h) → pages_in h v (Z.to_nat (sz / 4096)).
Proof.
  intros Hok Hv Hsz Hm He. pose proof (ho_base _ _ Hok) as Hb. pose proof (ho_range _ _ Hok) as Hr.
  destruct (ho_size _ _ Hok) as (Hs&_&Hlt). pose proof (Z.div_mod sz 4096 ltac:(lia)).
  assert (0 < sz / 4096) by lia. unfold pages_in, in_space, in_heap, pdx. rewrite Z2Nat.id by lia. split; [lia|].
  intros i Hi. split; [apply Z.div_le_lower_bound; lia|apply Z.div_lt_upper_bound; lia].
Qed.

Lemma backing_unmap k n e a G p h v sz L :
  rep k n e a G → m_heaps e !! p = Some h →
  BaseDevVAddr (psDevArena h) ≤ v → v + sz ≤ BaseDevVAddr (psDevArena h) + ui32Size (psDevArena h) →
  v mod 4096 = 0 → sz mod 4096 = 0 → 0 < sz →
  backing_ok (src := vm_source p) true 4096 v sz L (λ e', let a' := unmap_run (Z.to_nat (sz / 4096)) (psMMUContext h) v a in
    (∃ G', rep k n e' a' G') ∧ keep e e' ∧
    (told e' SGXMKIF_CC_INVAL_BIF_PD ∨ told e' SGXMKIF_CC_INVAL_BIF_PT ∧ tables_kept a a')) e.
Proof.
  intros Hr Hh Hlo Hhi Hvm Hsm Hsz. destruct (rep_heap_range _ _ _ _ _ _ _ Hr Hh) as (Hok&_). destruct (ho_size _ _ Hok) as (Hs&_&Hlt).
  pose proof (ho_base _ _ Hok) as Hb. pose proof (ho_range _ _ Hok) as Hrg. pose proof (Z.div_mod sz 4096 ltac:(lia)) as Hd.
  assert ((v + sz) mod 4096 = 0) as Hem by by rewrite Z.add_mod, Hvm, Hsm by lia. split.
  { intros []. split; [done|]. split; [by eexists|done]. }
  intros _ f x y [= <-] [_ _ _ _ Qx Qy _]. rewrite (Qx Hvm), (Qy Hem). rewrite !u32_small by (unfold is_u32; lia).
  cbn [src_handle vm_source]. unfold MMU_FreePageTables. wp_step. eapply wp_rd_heap; [done|]. unfold id.
  rewrite (ho_ptshift _ _ Hok), Z.shiftr_div_pow2 by lia. change (2 ^ 12) with 4096.
  replace (v + sz - v) with sz by lia. rewrite u32_small by (unfold is_u32; lia).
  eapply wp_mono; [eapply wp_UnmapPagesAndFreePTs; [done|done|by eapply window_pages]|]. cbn beta. intros [] e' (Hr'&Hk&Ht).
  split; [done|]. split; [done|]. split; [exact Hr'|]. split; [exact Hk|exact Ht].
Qed.

Lemma wp_MMU_Free k n s A p h l v sz :
  vrep k n s A → va_heaps A !! p = Some (h, l) → (∀ m, l !! v = Some m → sz = m) →
  wp (MMU_Free p v sz) (λ _ s',
    match l !! v with
    | Some _ => let A' := heap_freed A p h l v sz in vrep k n s' A' ∧ invalidated A A' s'
    | None => vrep k n s' A
    end) s.
Proof.
  intros Hv Hp Hm. destruct (vrep_heap _ _ _ _ _ _ _ Hv Hp) as (h1&ar&Hh&->&_&Haok).
  pose proof Hv as [[G Hr] _ _]. destruct (rep_heap_range _ _ _ _ _ _ _ Hr Hh) as (Hok&_). destruct (ho_size _ _ Hok) as (Hs&_&Hlt).
  pose proof (ho_base _ _ Hok) as Hb. pose proof (ho_range _ _ Hok) as Hrg.
  unfold MMU_Free. wp_step. apply wp_with_mmu. eapply wp_rd_heap; [done|].
  assert (∀ s0 : vm_st, set_v_mmu (v_mmu s0) s0 = s0) as Hid by by intros []. rewrite Hid.
  destruct (l !! v) as [m|] eqn:Hl.
  - rewrite (Hm m eq_refl). destruct (arena_live _ _ _ _ _ _ _ _ Haok Hl) as (Hlo&Hhi&Hvp&Hmp&Hm0).
    rewrite (u32_small (v + m)), (u32_small (_ + _)) by (unfold is_u32; lia).
    destruct (Z.leb_spec (BaseDevVAddr (psDevArena h1)) v); [|lia].
    destruct (Z.leb_spec (v + m) (BaseDevVAddr (psDevArena h1) + ui32Size (psDevArena h1))); [|lia]. cbn [andb].
    eapply wp_mono.
    + eapply (wp_heap_RA_Free k n s A p h1 l v true); [done|done|done| |].
      * intros sz' L Hl'. rewrite Hl in Hl'. injection Hl' as <-. by eapply backing_unmap.
      * intros e' (Hr'&Hk&_). split; [exact Hr'|exact Hk].
    + cbn beta. rewrite Hl. intros [] s' ((_&_&Ht)&Hv'&_). split; [exact Hv'|exact Ht].
  - destruct (_ && _); [|by wp_step]. eapply wp_mono.
    + eapply (wp_heap_RA_Free k n s A p h1 l v true (λ _, False) (va_tab A)); [done|done|done| |done]. intros sz' L Hl'. by rewrite Hl in Hl'.
    + cbn beta. intros [] s'. rewrite Hl. by intros [_ ?].
Qed.
End ops.
