(* ===== verification/MmuTop.v ===== *)
(** * The MMU: all its operations, and their clients

    [vm_op] are the entry points of mmu.c as the buffer manager calls them,
    [vm_spec] what each does to the abstract state [vabs]: the page tables and
    the live ranges of the heaps.  A client is a tree of calls that depends on
    the answers; [client_ok] says it keeps the rules of mmu.c, on [vabs] alone. *)

From S2P Require Import Prelude Hash DList RA RARep RAGeo RAInv RAOps RAAlloc RAImport RATop RALife RAProps RASys.
From S2P Require Import Mmu MmuRep MmuOps MmuTab MmuMap MmuUnmap MmuCtx MmuLife MmuHeap MmuVm MmuVmOps.

(** The pages to map: a block, a list, a buffer of the CPU. *)
Inductive page_source := Block (SysPAddr : Z) | PageList (psSysAddr : list Z) | Buffer (CpuVAddr hOSMemHandle : Z).

Inductive vm_op :=
| VContext (psBMSharedHeap : list Z)
| VCreate (c : Z) (d : DEV_ARENA_DESCRIPTOR)
| VAlloc (p sz al : Z)
| VMap (p v : Z) (src : page_source) (sz f : Z)
| VUnmap (p v cnt : Z)
| VFree (p v sz : Z)
| VDelete (p : Z)
| VFinalise (c : Z)
| VQuery (p v : Z).

Inductive vm_reply := VrContext (r : option (Z * Z)) | VrHeap (p : Z) | VrRange (r : bool * Z) | VrPage (P : Z) | VrUnit.

Definition set_tab (f : tables → tables) (A : vabs) : vabs := mkVabs (f (va_tab A)) (va_heaps A).

(** The rules. *)
Definition on_heap (A : vabs) (p : Z) (P : MMU_HEAP → gmap Z Z → Prop) : Prop := ∃ h l, va_heaps A !! p = Some (h, l) ∧ P h l.

Definition vm_pre (o : vm_op) (A : vabs) : Prop :=
  let a := va_tab A in
  match o with
  | VContext hs => (∀ p, p ∈ hs → is_Some (va_heaps A !! p)) ∧
      ∀ i o, t_owner a !! i = Some o → ∃ p, p ∈ hs ∧ on_heap A p (λ h _, shared_heap h = true ∧ in_heap h i)
  | VCreate c d => can_create A c d
  | VAlloc p sz al => on_heap A p (λ _ _, page_request sz al)
  | VMap p v src sz f => on_heap A p (λ h _, range_free a h v sz) ∧
      match src with PageList ps => (pages sz ≤ length ps)%nat | _ => True end
  | VUnmap p v cnt => on_heap A p (λ h _, pages_in h v (Z.to_nat cnt) ∧
      ∀ i, 0 ≤ i < cnt → t_pt a !! (psMMUContext h, pdx (v + i * 4096)) ≠ Some None)
  | VFree p v sz => on_heap A p (λ _ l, ∀ n, l !! v = Some n → sz = n)
  | VDelete p => is_Some (va_heaps A !! p)
  | VFinalise c => c ∈ t_list a ∧ (∀ i, t_pt a !! (c, i) = None) ∧ (∀ i, t_owner a !! i ≠ Some c) ∧
      ∀ p h l, va_heaps A !! p = Some (h, l) → psMMUContext h ≠ c
  | VQuery p v => on_heap A p (λ h _, is_u32 v ∧ in_heap h (pdx v) ∧ t_pt a !! (psMMUContext h, pdx v) ≠ Some None)
  end.

Section top.
Context {env : MmuEnv} {law : MmuLaw env}.

Definition page_of_source (src : page_source) (f : Z) : Z → Z :=
  match src with Block P => block_page P f | PageList ps => list_page ps | Buffer cpu hnd => buffer_page cpu hnd f end.

Definition run_vm_op (o : vm_op) : M vm_st vm_reply :=
  match o with
  | VContext hs => r ← with_mmu (create_context hs); mret (VrContext r)
  | VCreate c d => p ← MMU_Create c d; mret (VrHeap p)
  | VAlloc p sz al => r ← MMU_Alloc p sz 0 al 0; mret (VrRange r)
  | VMap p v (Block P) sz f => with_mmu (MMU_MapPages p v P sz f);; mret VrUnit
  | VMap p v (PageList ps) sz f => with_mmu (MMU_MapScatter p v ps sz f);; mret VrUnit
  | VMap p v (Buffer cpu hnd) sz f => with_mmu (MMU_MapShadow p v sz cpu hnd f);; mret VrUnit
  | VUnmap p v cnt => with_mmu (MMU_UnmapPages p v cnt);; mret VrUnit
  | VFree p v sz => MMU_Free p v sz;; mret VrUnit
  | VDelete p => MMU_Delete p;; mret VrUnit
  | VFinalise c => with_mmu (MMU_Finalise c);; mret VrUnit
  | VQuery p v => P ← with_mmu (MMU_GetPhysPageAddr p v); mret (VrPage P)
  end.

(** What each call answers and does. *)
Definition vm_spec (o : vm_op) (A : vabs) (r : vm_reply) (A' : vabs) : Prop :=
  match o, r with
  | VContext hs, VrContext (Some (c, _)) => c ∉ t_list (va_tab A) ∧ A' = set_tab (add_ctx c) A
  | VContext hs, VrContext None => A' = A
  | VCreate c d, VrHeap p =>
      if p =? 0 then A' = A else devarena_DataPageSize d = 4096 ∧ A' = created A p c d ∧ va_heaps A !! p = None
  | VAlloc p sz al, VrRange (ok, v) => on_heap A p (λ h l, ∃ a', grown h (va_tab A) a' ∧
      if ok then A' = mkVabs a' (<[p := (h, <[v := sz]> l)]> (va_heaps A)) ∧ placed h l v sz al ∧
        ∀ w, v ≤ w < v + sz → w < LAST_TABLE → present a' (psMMUContext h) (pdx w)
      else A' = set_tab (λ _, a') A)
  | VMap p v src sz f, VrUnit => on_heap A p (λ h _,
      A' = set_tab (put_pages (pages sz) (psMMUContext h) v (page_of_source src f) f 0) A)
  | VUnmap p v cnt, VrUnit => on_heap A p (λ h _, A' = set_tab (clear_run (Z.to_nat cnt) (psMMUContext h) v) A)
  | VFree p v sz, VrUnit => on_heap A p (λ h l, A' = if l !! v then heap_freed A p h l v sz else A)
  | VDelete p, VrUnit => on_heap A p (λ h _, A' = deleted A p h)
  | VFinalise c, VrUnit => A' = set_tab (del_ctx c) A
  | VQuery p v, VrPage P => on_heap A p (λ h _, P = phys_of (va_tab A) (psMMUContext h) v) ∧ A' = A
  | _, _ => False
  end.

(** Blocks lost for good: a context that could not be made may cost one. *)
Definition leak (r : vm_reply) : Z := match r with VrContext None => 1 | _ => 0 end.

Definition vm_post k n o A (r : vm_reply) s' : Prop :=
  ∃ A' k', vm_spec o A r A' ∧ k ≤ k' ≤ k + leak r ∧ vrep k' n s' A'.

Lemma vm_post_same k n o A r s' A' : leak r = 0 → vm_spec o A r A' → vrep k n s' A' → vm_post k n o A r s'.
Proof. intros Hl Hs Hr. exists A', k. split; [done|]. rewrite Hl. split; [lia|done]. Qed.

(** A call on the tables of a heap. *)
Lemma vrep_tab k n s e A f :
  vrep k n s A → (∃ G, rep k n e (f (va_tab A)) G) → keep (v_mmu s) e → vrep k n (set_v_mmu e s) (set_tab f A).
Proof. intros Hv Hr Hk. eapply vrep_mmu; [done|done|done|]. intros p. by apply strip_of_keep. Qed.

Lemma wp_vm_context k n s A hs :
  vrep k n s A → vm_pre (VContext hs) A → wp (run_vm_op (VContext hs)) (vm_post k n (VContext hs) A) s.
Proof.
  intros Hv [Hhs Hcov]. pose proof Hv as [[G Hr] _ _]. cbn [run_vm_op]. wp_step. apply wp_with_mmu. eapply wp_mono.
  { eapply (wp_create_context _ _ _ _ _ hs); [exact Hr| |].
    - intros p Hp. destruct (Hhs p Hp) as [[h l] Hh]. destruct (vrep_heap _ _ _ _ _ _ _ Hv Hh) as (h'&_&?&_). by eexists.
    - intros i o Ho. destruct (Hcov i o Ho) as (p&Hp&h&l&Hh&Hsh&Hi). destruct (vrep_heap _ _ _ _ _ _ _ Hv Hh) as (h'&_&Hh'&->&_).
      by exists p, h'. }
  cbn beta. intros [[c pd]|] e [Hpost Hk]; wp_step; cbn [create_post] in Hpost.
  - destruct Hpost as (Hc&Hr'&_). eapply vm_post_same; [done|by split|]. by apply vrep_tab.
  - destruct Hpost as (_&k'&G'&Hk'&Hr'). exists A, k'. split; [done|]. split; [exact Hk'|]. destruct A as [a hp].
    eapply (vrep_mmu k k' n n s _ (mkVabs a hp)); [exact Hv|by exists G'|done|]. intros p. by apply strip_of_keep.
Qed.

Lemma wp_vm_map k n s A p v src sz f :
  vrep k n s A → vm_pre (VMap p v src sz f) A → wp (run_vm_op (VMap p v src sz f)) (vm_post k n (VMap p v src sz f) A) s.
Proof.
  intros Hv [(h0&l&Hp&Hf) Hsrc]. pose proof Hv as [[G Hr] _ _]. destruct (vrep_heap _ _ _ _ _ _ _ Hv Hp) as (h&_&Hh&->&_).
  assert (∀ e, mapped k n (v_mmu s) (va_tab A) G h v sz (page_of_source src f) f e → vm_post k n (VMap p v src sz f) A VrUnit (set_v_mmu e s)) as Hdone.
  { intros e (Hr'&Hh'&Ho'). eapply vm_post_same; [done|by exists (strip h), l|]. apply vrep_tab; [done|by exists G|by apply keep_same]. }
  destruct src; cbn [run_vm_op]; wp_step; apply wp_with_mmu; eapply wp_mono.
  - by eapply wp_MMU_MapPages.
  - cbn beta. intros [] e He. wp_step. by apply Hdone.
  - by eapply wp_MMU_MapScatter.
  - cbn beta. intros [] e He. wp_step. by apply Hdone.
  - by eapply wp_MMU_MapShadow.
  - cbn beta. intros v' e [_ He]. wp_step. by apply Hdone.
Qed.

Lemma wp_run_vm_op k n s A o : vrep k n s A → vm_pre o A → wp (run_vm_op o) (vm_post k n o A) s.
Proof.
  intros Hv Hpre. pose proof Hv as [[G Hr] _ _]. destruct o as [hs|c d|p sz al|p v src sz f|p v cnt|p v sz|p|c|p v].
  - by apply wp_vm_context.
  - cbn [run_vm_op]. wp_step. eapply wp_mono; [by eapply wp_MMU_Create|]. unfold heap_created. intros p s' Hpost. wp_step.
    destruct (p =? 0) eqn:Hp.
    + eapply (vm_post_same _ _ _ _ _ _ A); [done| |apply Hpost]. cbn [vm_spec]. by rewrite Hp.
    + destruct Hpost as (?&?&?&_). eapply vm_post_same; [done| |done]. cbn [vm_spec]. by rewrite Hp.
  - destruct Hpre as (h&l&Hp&Hreq). cbn [run_vm_op]. wp_step. eapply wp_mono; [by eapply wp_MMU_Alloc|].
    intros [ok v] s' (_&a'&Hg&Hpost). wp_step. cbn [fst snd] in Hpost. destruct ok.
    + destruct Hpost as (Hv'&Hpl&Hb). eapply vm_post_same; [done| |done]. exists h, l. split; [done|]. by exists a'.
    + eapply vm_post_same; [done| |exact (proj1 Hpost)]. exists h, l. split; [done|]. by exists a'.
  - by apply wp_vm_map.
  - destruct Hpre as (h0&l&Hp&Hin&Hn). destruct (vrep_heap _ _ _ _ _ _ _ Hv Hp) as (h&_&Hh&->&_). cbn [run_vm_op]. wp_step.
    apply wp_with_mmu. eapply wp_mono.
    { eapply wp_UnmapPages; [done|done|exact Hin|]. intros i Hi. apply Hn. lia. }
    cbn beta. intros [] e (Hr'&Hk&_). wp_step. eapply vm_post_same; [done|by exists (strip h), l|]. apply vrep_tab; [done|by exists G|done].
  - destruct Hpre as (h&l&Hp&Hn). cbn [run_vm_op]. wp_step. eapply wp_mono; [by eapply wp_MMU_Free|].
    intros [] s' Hpost. wp_step. destruct (l !! v) eqn:Hl.
    + destruct Hpost as [Hv' _]. eapply vm_post_same; [done| |exact Hv']. exists h, l. by rewrite Hl.
    + eapply vm_post_same; [done| |exact Hpost]. exists h, l. by rewrite Hl.
  - destruct Hpre as [[h l] Hp]. cbn [run_vm_op]. wp_step. eapply wp_mono; [by eapply wp_MMU_Delete|].
    intros [] s' [Hv' _]. wp_step. eapply vm_post_same; [done|by exists h, l|done].
  - destruct Hpre as (Hc&Hpt&Ho&Hh). cbn [run_vm_op]. wp_step. apply wp_with_mmu. eapply wp_mono.
    { eapply wp_MMU_Finalise; [done|done|]. split; [done|]. split; [done|]. intros p h Hp. pose proof (vr_slot _ _ _ _ Hv p) as Hs.
      unfold slot_ok in Hs. rewrite Hp in Hs. destruct (va_heaps A !! p) as [[h0 l]|] eqn:Hp'; [|done].
      destruct (v_arenas s !! p); [|done]. destruct Hs as [-> _]. exact (Hh _ _ _ Hp'). }
    cbn beta. intros [] e (Hr'&_&Hk). wp_step. eapply vm_post_same; [done|done|]. by apply vrep_tab.
  - destruct Hpre as (h0&l&Hp&Hu&Hi&Hn). destruct (vrep_heap _ _ _ _ _ _ _ Hv Hp) as (h&_&Hh&->&_). cbn [run_vm_op]. wp_step.
    apply wp_with_mmu. eapply wp_MMU_GetPhysPageAddr; [done..|]. wp_step. eapply vm_post_same; [done|split; [by exists (strip h), l|done]|].
    by assert (set_v_mmu (v_mmu s) s = s) as -> by by destruct s.
Qed.

(** ** Clients *)

Inductive vm_client := VStop | VCall (o : vm_op) (k : vm_reply → vm_client).

Fixpoint run_vm_client (c : vm_client) : M vm_st (list vm_reply) :=
  match c with
  | VStop => mret []
  | VCall o k => r ← run_vm_op o; l ← run_vm_client (k r); mret (r :: l)
  end.

Fixpoint vm_client_ok (c : vm_client) (A : vabs) : Prop :=
  match c with
  | VStop => True
  | VCall o k => vm_pre o A ∧ ∀ r A', vm_spec o A r A' → vm_client_ok (k r) A'
  end.

Fixpoint vm_client_spec (c : vm_client) (A : vabs) (l : list vm_reply) (A' : vabs) : Prop :=
  match c with
  | VStop => l = [] ∧ A' = A
  | VCall o k => ∃ r l' A1, l = r :: l' ∧ vm_spec o A r A1 ∧ vm_client_spec (k r) A1 l' A'
  end.

Definition leaks (l : list vm_reply) : Z := foldr (λ r n, leak r + n) 0 l.

Lemma wp_run_vm_client c : ∀ k n s A, vrep k n s A → vm_client_ok c A →
  wp (run_vm_client c) (λ l s', ∃ A' k', vm_client_spec c A l A' ∧ k ≤ k' ≤ k + leaks l ∧ vrep k' n s' A') s.
Proof.
  induction c as [|o kc IH]; intros k n s A Hv Hok; cbn [run_vm_client].
  - wp_step. exists A, k. split; [done|]. split; [unfold leaks; simpl; lia|done].
  - destruct Hok as [Hpre Hok]. wp_step. eapply wp_mono; [by apply wp_run_vm_op|]. intros r s1 (A1&k1&Hs&Hk1&Hv1).
    wp_step. eapply wp_mono; [by apply IH, Hok|]. intros l s2 (A2&k2&Hc&Hk2&Hv2). wp_step. exists A2, k2.
    split; [by exists r, l, A1|]. split; [|done]. unfold leaks in *. cbn [foldr]. lia.
Qed.
End top.
