(* ===== verification/MmuDevice.v ===== *)
(** * The MMU: what the device sees

    [device s c u] is the page and the protection bits that the device finds
    for the address [u], walking the words in memory from the page directory
    of the context [c].  The lemmas say how the operations change it. *)

From S2P Require Import Prelude Hash DList RA RARep RAGeo RAInv RAOps RAAlloc RAImport RATop RALife RAProps RASys.
From S2P Require Import Mmu MmuRep MmuOps MmuTab MmuMap MmuUnmap MmuCtx MmuLife MmuHeap MmuVm MmuVmOps MmuTop.

Definition pte_view (w : Z) : Z * Z := (pte_page w, pte_bits w).

Definition device (s : vm_st) (c u : Z) : option (Z * Z) :=
  r ← m_ctxs (v_mmu s) !! c; pte_view <$> walk (v_mmu s) (sPDDevPAddr r) u.

(** The view of a page mapped with the flags [f]. *)
Lemma pte_view_pte P f : pte_view (pte P f) = (u32 P / 4096 * 4096, pte_flags f).
Proof. unfold pte_view. by rewrite pte_page_pte, pte_bits_pte. Qed.

(** The context [c] looks through the page tables of the heap at [u]. *)
Definition sees_heap (a : tables) (h : MMU_HEAP) (c u : Z) : Prop := owner a c (pdx u) = psMMUContext h.
#[export] Instance sees_heap_dec a h c u : Decision (sees_heap a h c u).
Proof. unfold sees_heap. apply _. Defined.

Section device.
Context {env : MmuEnv} {law : MmuLaw env}.
Implicit Types (A : vabs) (a : tables).

Lemma device_translate k n s A c u : vrep k n s A → c ∈ t_list (va_tab A) → is_u32 u →
  device s c u = pte_view <$> translate (va_tab A) c u.
Proof.
  intros [[G Hr] _ _] Hc Hu. destruct (walk_translate _ _ _ _ _ _ _ Hr Hc Hu) as (r&Hcr&Hw). unfold device. rewrite Hcr. simpl.
  by rewrite Hw.
Qed.

(** An operation that keeps the contexts, in terms of [translate]. *)
Lemma device_step k n k' n' s s' A A' c u : vrep k n s A → vrep k' n' s' A' → t_list (va_tab A') = t_list (va_tab A) →
  c ∈ t_list (va_tab A) → is_u32 u →
  device s' c u = pte_view <$> translate (va_tab A') c u ∧ device s c u = pte_view <$> translate (va_tab A) c u.
Proof. intros Hv Hv' Hl Hc Hu. split; [eapply device_translate; [done|by rewrite Hl|done]|by eapply device_translate]. Qed.

Lemma vrep_full k n s A : vrep k n s A → full (va_tab A).
Proof. intros [[G Hr] _ _]. by eapply rep_full. Qed.

(** ** Release *)

Lemma free_translate k n s A p h l v sz c u :
  vrep k n s A → va_heaps A !! p = Some (h, l) → l !! v = Some sz →
  (∀ i, 0 ≤ i < sz / 4096 → t_pt (va_tab A) !! (psMMUContext h, pdx (v + i * 4096)) ≠ Some None) →
  translate (va_tab (heap_freed A p h l v sz)) c u =
    if decide (sees_heap (va_tab A) h c u ∧ v ≤ u < v + sz) then None else translate (va_tab A) c u.
Proof.
  intros Hv Hp Hl Hn. destruct (vrep_heap _ _ _ _ _ _ _ Hv Hp) as (h1&ar&Hh&->&_&Haok).
  pose proof Hv as [[G Hr] _ _]. destruct (rep_heap_range _ _ _ _ _ _ _ Hr Hh) as (Hok&_).
  destruct (arena_live _ _ _ _ _ _ _ _ Haok Hl) as (Hlo&Hhi&Hvm&Hsm&Hsz).
  destruct (window_pages _ _ _ _ Hok Hlo Hsz Hsm Hhi) as [Hsp _].
  pose proof (Z.div_mod sz 4096 ltac:(lia)) as Hds. pose proof (Z.div_mod v 4096 ltac:(lia)) as Hdv.
  cbn [va_tab heap_freed]. rewrite unmap_run_translate; [|by eapply vrep_full|exact Hsp|].
  2:{ intros i Hi. apply Hn. lia. }
  rewrite Z2Nat.id by lia. unfold page_of, sees_heap. pose proof (Z.div_mod u 4096 ltac:(lia)). pose proof (Z.mod_pos_bound u 4096 ltac:(lia)).
  change (psMMUContext (strip h1)) with (psMMUContext h1).
  destruct (decide _) as [[Ho Hu]|Hno], (decide _) as [[Ho' Hu']|Hno']; [done| | |done].
  - destruct Hno'. split; [done|lia].
  - destruct Hno. split; [done|lia].
Qed.

(** ** Deletion *)

Lemma erase_heap_translate a h c u : heap_ok a h →
  translate (erase_heap h a) c u = if decide (sees_heap a h c u ∧ in_heap h (pdx u)) then None else translate a c u.
Proof.
  intros Hok. pose proof (ho_range _ _ Hok) as Hrg. unfold translate, erase_heap, sees_heap, in_heap, owner.
  destruct (erase_same (Z.to_nat (ui32PageTableCount h)) (psMMUContext h) (ui32PDBaseIndex h) a) as [_ ->].
  rewrite erase_lookup. cbn [fst snd]. rewrite Z2Nat.id by lia. by destruct (decide _).
Qed.

Lemma deleted_translate k n s A p h l c u :
  vrep k n s A → va_heaps A !! p = Some (h, l) →
  translate (va_tab (deleted A p h)) c u =
    if decide (sees_heap (va_tab A) h c u ∧ in_heap h (pdx u)) then None else translate (va_tab A) c u.
Proof.
  intros Hv Hp. destruct (vrep_heap _ _ _ _ _ _ _ Hv Hp) as (h1&ar&Hh&->&_&_). pose proof Hv as [[G Hr] _ _].
  destruct (rep_heap_range _ _ _ _ _ _ _ Hr Hh) as (Hok&_). pose proof (ho_range _ _ Hok) as Hrg. set (a := va_tab A) in *.
  change (translate (owned h1 None (erase_heap h1 a)) c u =
    if decide (sees_heap a h1 c u ∧ in_heap h1 (pdx u)) then None else translate a c u).
  pose proof (erase_heap_translate a h1 c u Hok) as He.
  destruct (owned_lookup h1 None (erase_heap h1 a) (pdx u)) as [Hin Hout]; [lia|].
  destruct (owned_same h1 None (erase_heap h1 a)) as [_ Hpt].
  destruct (erase_same (Z.to_nat (ui32PageTableCount h1)) (psMMUContext h1) (ui32PDBaseIndex h1) a) as [_ Hown].
  destruct (decide (in_heap h1 (pdx u) ∧ shared_heap h1 = true)) as [[Hi Hs]|Hno].
  - assert (t_owner a !! pdx u = Some (psMMUContext h1)) as Ho by (rewrite (ho_own _ _ Hok _ Hi), Hs; done).
    rewrite decide_True by (unfold sees_heap, owner; by rewrite Ho).
    unfold translate, owner. rewrite (Hin Hi Hs), Hpt. cbn [default from_option id]. unfold erase_heap. rewrite erase_lookup. cbn [fst snd].
    clear He. destruct (decide _) as [Hd|Hd]; [reflexivity|]. destruct (t_pt a !! (c, pdx u)) eqn:Hx; [|done]. pose proof Hr as (W&Hrw&_).
    destruct (r_dom _ _ _ _ _ _ Hrw c (pdx u)) as (_&_&Hc); [by eauto|]. unfold owner in Hc. fold a in Hc. rewrite Ho in Hc. simpl in Hc.
    destruct Hd. split; [done|]. unfold in_heap in Hi. lia.
  - rewrite <- He. unfold translate, owner. rewrite Hpt, Hout; [done|]. intros Hi. destruct (shared_heap h1) eqn:Hs; [|done]. by destruct Hno.
Qed.

(** ** A new context *)

Lemma add_ctx_translate k n s A c c' u : vrep k n s A → c ∉ t_list (va_tab A) →
  translate (add_ctx c (va_tab A)) c' u =
    if decide (c' = c) then match t_owner (va_tab A) !! pdx u with Some o => translate (va_tab A) o u | None => None end
    else translate (va_tab A) c' u.
Proof.
  intros Hv Hc. pose proof Hv as [[G Hr] _ _]. pose proof Hr as (W&Hrw&_). unfold translate, owner. cbn [t_pt t_owner add_ctx].
  destruct (decide (c' = c)) as [->|]; [|done]. destruct (t_owner (va_tab A) !! pdx u) as [o|] eqn:Ho; [done|]. simpl.
  destruct (t_pt (va_tab A) !! (c, pdx u)) eqn:Hx; [|done]. destruct (r_dom _ _ _ _ _ _ Hrw c (pdx u)) as (?&_); [by eauto|done].
Qed.

(** ** The live ranges *)

(** Live ranges of two heaps that one context can see, or two of one heap. *)
Lemma live_disjoint k n s A p p' h h' l l' b b' sz sz' c :
  vrep k n s A → va_heaps A !! p = Some (h, l) → va_heaps A !! p' = Some (h', l') →
  l !! b = Some sz → l' !! b' = Some sz' → (p, b) ≠ (p', b') →
  shared_heap h = true ∨ psMMUContext h = c → shared_heap h' = true ∨ psMMUContext h' = c →
  b + sz ≤ b' ∨ b' + sz' ≤ b.
Proof.
  intros Hv Hp Hp' Hb Hb' Hne Hc Hc'. pose proof Hv as [[G Hr] _ Hap].
  destruct (vrep_heap _ _ _ _ _ _ _ Hv Hp) as (h1&ar&Hh&->&_&Hok), (vrep_heap _ _ _ _ _ _ _ Hv Hp') as (h2&ar'&Hh'&->&_&Hok').
  destruct (arena_live _ _ _ _ _ _ _ _ Hok Hb) as (Hlo&Hhi&_&_&Hsz), (arena_live _ _ _ _ _ _ _ _ Hok' Hb') as (Hlo'&Hhi'&_&_&Hsz').
  destruct (decide (p = p')) as [->|Hpp].
  - rewrite Hp in Hp'. assert (l = l') as <- by congruence. destruct Hok as (k1&L&(Hrep&_&Hl)&_). unfold live_map in Hl.
    apply Hl in Hb as (x&[Hx Htx]%elem_lives&<-&<-). apply Hl in Hb' as (y&[Hy Hty]%elem_lives&<-&<-).
    pose proof (ra_rep_geo _ _ _ _ Hrep) as Hg. assert (x ≠ y) as Hxy by congruence.
    apply list_elem_of_split in Hx as (L1&L2&->). apply elem_of_app in Hy as [Hy|[->|Hy]%elem_of_cons]; [|done|].
    + right. apply list_elem_of_split in Hy as (L3&L4&->). rewrite <- app_assoc in Hg. cbn [app] in Hg.
      assert (x ∈ L4 ++ x :: L2) as Hin by set_solver. pose proof (geo_after _ _ _ _ _ Hg Hin) as Ha.
      unfold after in Ha. by rewrite (kind_tile _ (live_tile _ Hty)) in Ha.
    + left. pose proof (geo_after _ _ _ _ _ Hg Hy) as Ha. unfold after in Ha. by rewrite (kind_tile _ (live_tile _ Htx)) in Ha.
  - destruct (rep_heap_range _ _ _ _ _ _ _ Hr Hh) as (Hk&_), (rep_heap_range _ _ _ _ _ _ _ Hr Hh') as (Hk'&_).
    assert (∀ u, b ≤ u < b + sz → b' ≤ u < b' + sz' → False) as Hov.
    { intros u Hu Hu'. pose proof (ho_base _ _ Hk). pose proof (ho_base _ _ Hk'). destruct (ho_size _ _ Hk) as (Hs1&_&_), (ho_size _ _ Hk') as (Hs2&_&_).
      assert (in_heap h1 (pdx u)) as Hi.
      { unfold in_heap, pdx. split; [apply Z.div_le_lower_bound; lia|apply Z.div_lt_upper_bound; lia]. }
      assert (in_heap h2 (pdx u)) as Hi'.
      { unfold in_heap, pdx. split; [apply Z.div_le_lower_bound; lia|apply Z.div_lt_upper_bound; lia]. }
      destruct (Hap p p' _ _ _ _ (pdx u) Hp Hp' Hpp Hi Hi') as (Hs&Hs'&Hcc). destruct Hc as [Hc|<-]; [congruence|].
      destruct Hc' as [Hc'|Hc']; [congruence|]. by destruct Hcc. }
    destruct (Z.le_gt_cases (b + sz) b'); [by left|]. destruct (Z.le_gt_cases (b' + sz') b); [by right|].
    exfalso. destruct (Z.le_gt_cases b b'); [apply (Hov b')|apply (Hov b)]; lia.
Qed.

(** ** How much a heap can grow *)

Lemma grown_areas h a a' : grown h a a' → 0 ≤ ui32PageTableCount h → (areas a' ≤ areas a + Z.to_nat (ui32PageTableCount h))%nat.
Proof.
  intros [Hl _ Hp] Hc. unfold areas. rewrite Hl. set (m := omap id (t_pt a) : gmap (Z * Z) (list Z)). set (m' := omap id (t_pt a') : gmap (Z * Z) (list Z)).
  set (new := list_to_set ((λ i, (psMMUContext h, i)) <$> seqZ (ui32PDBaseIndex h) (ui32PageTableCount h)) : gset (Z * Z)).
  assert (dom m' ⊆ dom m ∪ new) as Hsub.
  { intros [c i] Hx. apply elem_of_dom in Hx as [ws Hx]. unfold m' in Hx. rewrite lookup_omap in Hx. apply elem_of_union.
    destruct (Hp (c, i)) as [He|(Hc1&Hi&_)].
    - left. apply elem_of_dom. exists ws. unfold m. by rewrite lookup_omap, <- He.
    - right. cbn [fst snd] in Hc1, Hi. subst c. unfold new. apply elem_of_list_to_set, list_elem_of_fmap. exists i. split; [done|]. apply elem_of_seqZ. exact Hi. }
  apply subseteq_size in Hsub. rewrite !size_dom in Hsub. rewrite size_union_alt, size_dom in Hsub.
  pose proof (subseteq_size (new ∖ dom m) new ltac:(set_solver)) as Hs1.
  assert (size new ≤ Z.to_nat (ui32PageTableCount h))%nat as Hs2; [|fold m m'; lia].
  unfold new. rewrite size_list_to_set; [by rewrite length_fmap, length_seqZ|].
  apply NoDup_fmap_2; [by intros ?? [=]|apply NoDup_seqZ].
Qed.

Lemma align_base_aligned b al : 0 ≤ b → 0 < al → b + al < 18446744073709551616 → b mod al = 0 → align_base b al (offset_of al 0) = b.
Proof.
  intros Hb Hal Hlt Hm. unfold align_base, offset_of. destruct (Z.gtb_spec al 1) as [Hgt|]; [|done].
  rewrite Z.mod_0_l by lia. rewrite Z.sub_0_r, Z.add_0_r. rewrite (u64_small (b + al - 1)) by (unfold is_u64; lia).
  pose proof (Z.div_mod b al ltac:(lia)) as Hd.
  assert ((b + al - 1) / al = b / al) as ->.
  { symmetry. apply (Z.div_unique _ _ _ (al - 1)); lia. }
  replace (b / al * al) with b by lia. by rewrite (u64_small b), (u64_small b) by (unfold is_u64; lia).
Qed.

(** A heap just made has room. *)
Lemma new_heap_room s p d sz al : good_arena d → heap_tags s p d (whole d) → page_request sz al →
  BaseDevVAddr d mod al = 0 → sz ≤ ui32Size d → ∀ h, psDevArena h = d → ¬ heap_full s p h sz al.
Proof.
  intros (Hb&_&_&_&Hlt&_) Ht (Hsz&_&Hal&_&Hsum) Hm Hle h Hh Hfull.
  apply (Hfull (whole d) (mkSeg btt_free (BaseDevVAddr d) (ui32Size d) 0)); [by rewrite Hh|done|by left|done|].
  split; [|by left]. cbn [s_base]. rewrite align_base_aligned by lia. unfold endof. simpl. lia.
Qed.
End device.
