(* ===== verification/MmuProps.v ===== *)
(** * Properties of the MMU *)

From S2P Require Import Prelude Hash DList RA RARep RAGeo RAInv RAOps RAAlloc RAImport RATop RALife RAProps RASys.
From S2P Require Import Mmu MmuRep MmuOps MmuTab MmuMap MmuUnmap MmuCtx MmuLife MmuHeap MmuVm MmuVmOps MmuTop MmuDevice.

Section props.
Context {env : MmuEnv} {law : MmuLaw env}.

(** ** Refinement *)

(** C2: whatever a client of the MMU does (make contexts and heaps, hand out
    ranges of addresses, map, unmap and look up pages, give ranges, heaps and
    contexts back), as long as it keeps the rules of mmu.c, the C code neither
    faults nor loops, whether the kernel gives it memory or not; its answers
    and its states are those of abstract page tables and live ranges; it loses
    no memory but a block for each context it could not make; and the device,
    walking the words in memory from the directory of any context, finds for
    every address what the abstract tables say. *)
Theorem mmu_refines c k n s A :
  vrep k n s A → vm_client_ok c A →
  wp (run_vm_client c) (λ l s', ∃ A' k', vm_client_spec c A l A' ∧ k ≤ k' ≤ k + leaks l ∧ vrep k' n s' A' ∧
    ∀ x u, x ∈ t_list (va_tab A') → is_u32 u → device s' x u = pte_view <$> translate (va_tab A') x u) s.
Proof.
  intros Hv Hok. eapply wp_mono; [by apply wp_run_vm_client|]. intros l s' (A'&k'&Hs&Hk&Hv'). exists A', k'.
  split_and!; [done|lia|lia|done|]. intros x u Hx Hu. by eapply device_translate.
Qed.

(** ** Mapping *)

(** C30: mapping pages of a block, of a list or of a buffer of the CPU makes the
    device find them, page by page and with the protection asked for, at the
    addresses of the range, in every context that looks through the heap's page
    tables: all contexts if the heap is shared, its own otherwise; every other
    address of every context is as before. *)
Theorem mmu_map_device k n s A p h l v src sz f :
  vrep k n s A → va_heaps A !! p = Some (h, l) → vm_pre (VMap p v src sz f) A →
  wp (run_vm_op (VMap p v src sz f)) (λ _ s', ∀ c u, c ∈ t_list (va_tab A) → is_u32 u →
    device s' c u =
      if decide (sees_heap (va_tab A) h c u ∧ v ≤ u < v + Z.of_nat (pages sz) * 4096)
      then Some (u32 (page_of_source src f ((u - v) / 4096)) / 4096 * 4096, pte_flags f)
      else device s c u) s.
Proof.
  intros Hv Hp Hpre. pose proof Hpre as [(h1&l1&Hp1&Hf) _]. rewrite Hp in Hp1. injection Hp1 as <- <-.
  eapply wp_mono; [by eapply wp_run_vm_op|]. intros r s' (A'&k'&Hs&_&Hv') c u Hc Hu. destruct r; try done.
  destruct Hs as (h1&l1&Hp1&->). rewrite Hp in Hp1. injection Hp1 as <- <-.
  destruct (put_pages_list (pages sz) (psMMUContext h) v (page_of_source src f) f 0 (va_tab A)) as [Hl _].
  destruct (device_step _ _ _ _ _ _ _ _ c u Hv Hv' Hl Hc Hu) as [-> ->]. pose proof Hv as [[G Hr] _ _].
  cbn [va_tab set_tab]. rewrite (map_translate _ _ _ _ _ _ _ _ _ _ _ _ Hr Hf). unfold sees_heap.
  destruct (decide _); [|done]. simpl. by rewrite pte_view_pte.
Qed.

(** C36: what the driver answers for an address of a heap is the page that
    the device finds there, or null if it finds none, provided that the page
    table of the address, if it has been made, has its memory: an
    MMU_PT_INFO that a failed _AllocPageTableMemory left without memory
    makes MMU_GetPhysPageAddr follow a null pointer. *)
Theorem mmu_query_device k n s A p h l v :
  vrep k n s A → va_heaps A !! p = Some (h, l) → vm_pre (VQuery p v) A →
  wp (run_vm_op (VQuery p v)) (λ r s', r = VrPage (default 0 (fst <$> device s (psMMUContext h) v)) ∧
    ∀ c u, c ∈ t_list (va_tab A) → is_u32 u → device s' c u = device s c u) s.
Proof.
  intros Hv Hp Hpre. pose proof Hpre as (h1&l1&Hp1&Hu&_). rewrite Hp in Hp1. injection Hp1 as <- <-.
  destruct (vrep_heap _ _ _ _ _ _ _ Hv Hp) as (h1&_&Hh&->&_). pose proof Hv as [[G Hr] _ _].
  destruct (rep_heap_range _ _ _ _ _ _ _ Hr Hh) as (Hok&_).
  eapply wp_mono; [by eapply wp_run_vm_op|]. intros r s' (A'&k'&Hs&_&Hv'). destruct r as [| | |P|]; try done.
  destruct Hs as [(h2&l2&Hp2&->) ->]. rewrite Hp in Hp2. injection Hp2 as <- <-. split.
  - erewrite device_translate; [|done|apply (ho_ctx _ _ Hok)|done]. unfold phys_of. f_equal.
    change (psMMUContext (strip h1)) with (psMMUContext h1). by destruct (translate (va_tab A) (psMMUContext h1) v).
  - intros c u Hc Hu'. by destruct (device_step _ _ _ _ _ _ _ _ c u Hv Hv' eq_refl Hc Hu') as [-> ->].
Qed.

(** ** Ranges of addresses *)

(** C33: [MMU_Alloc] that is to choose the address (without
    PVRSRV_MEM_USER_SUPPLIED_DEVVADDR, with which it takes any address)
    answers a range of the heap, aligned as asked, that meets no live range,
    and makes the page table of each of its pages below the last 4 MB; the
    device sees no difference. Size and alignment are positive multiples of
    the page size ([page_request]). It refuses only if the kernel refused
    memory, or no free tag of the heap's arena had room; then the live
    ranges are those before. *)
Theorem mmu_alloc_backed k n s A p h l sz fl al v0 :
  vrep k n s A → va_heaps A !! p = Some (h, l) → page_request sz al →
  Z.land fl PVRSRV_MEM_USER_SUPPLIED_DEVVADDR = 0 →
  wp (MMU_Alloc p sz fl al v0) (λ r s', heap_alloc k n s A p h l sz al r s' ∧
    ∀ c u, c ∈ t_list (va_tab A) → is_u32 u → device s' c u = device s c u) s.
Proof.
  intros Hv Hp Hreq Hfl. eapply wp_mono; [by eapply wp_MMU_Alloc|]. intros r s' Hpost. split; [done|].
  intros c u Hc Hu. destruct Hpost as (_&a'&Hg&Hpost).
  assert (∃ A', vrep k n s' A' ∧ va_tab A' = a') as (A'&Hv'&<-) by (destruct r.1; [destruct Hpost as [? _]|destruct Hpost as [? _]]; by eexists).
  destruct (device_step _ _ _ _ _ _ _ _ c u Hv Hv' (gr_list _ _ _ Hg) Hc Hu) as [-> ->].
  by rewrite (grown_translate h (va_tab A)).
Qed.

(** C37: a heap of 4 KB pages just made serves any request of whole pages
    that fits it and whose alignment divides its base address, if no
    OSAllocMem fails and the kernel has a page for each page table of the
    heap. *)
Theorem mmu_new_heap_serves k n s A c d sz al :
  vrep k n s A → can_create A c d → devarena_DataPageSize d = 4096 → vm_plenty s →
  supply (S (n + areas (va_tab A) + Z.to_nat (ui32PageTableCount (heap_of c d)))) →
  page_request sz al → sz ≤ ui32Size d → BaseDevVAddr d mod al = 0 →
  wp (p ← MMU_Create c d; MMU_Alloc p sz 0 al 0) (λ r _, r.1 = true) s.
Proof.
  intros Hv Hcan Hpg Hpl Hsup Hreq Hle Hal. pose proof Hcan as (_&Hd&_). wp_step. eapply wp_mono; [by eapply wp_MMU_Create|].
  unfold heap_created. cbn beta. intros p s1 Hpost. destruct (Z.eqb_spec p 0) as [->|Hp]; [by destruct Hpost as [_ [?|?]]|].
  destruct Hpost as (_&Hv1&_&Ht&Hpl1). destruct (Hpl1 Hpl) as [Ho Hm]. pose proof (heap_of_count c d Hd) as Hcnt.
  eapply wp_mono; [eapply (wp_MMU_Alloc k n s1 (created A p c d) p (strip (heap_of c d)) ∅); [done|apply lookup_insert_eq|done|done]|].
  intros [[] v] s2 (_&a'&Hg&Hres); [done|]. exfalso. cbn [fst] in Hres. destruct Hres as [_ Hno]. destruct (Hno Ho) as [Hen|Hfull].
  - apply Hen. split; [done|]. intros t X HX. apply Hsup. pose proof (grown_areas _ _ _ Hg Hcnt) as Ha.
    destruct (owned_same (heap_of c d) (Some c) (va_tab A)) as [E1 E2].
    assert (areas (va_tab (created A p c d)) = areas (va_tab A)) as Hae by (unfold areas; cbn [va_tab created]; by rewrite E1, E2).
    rewrite Hae in Ha. change (ui32PageTableCount (strip (heap_of c d))) with (ui32PageTableCount (heap_of c d)) in Ha. lia.
  - by eapply (new_heap_room s1 p d sz al Hd Ht Hreq Hal Hle (strip (heap_of c d)) eq_refl).
Qed.

(** C31: giving back a live range with its own size, of which no page table
    lacks its memory (where one does, MMU_UnmapPagesAndFreePTs stays at its
    address and the rest of the range stays mapped, mmu.c:2135), takes its
    pages, and only those, from the device in every context that looks
    through the heap, ends the life of that range only, and has the device
    drop its cached page tables, and its cached directory too if a page
    table was freed. An address that does not start a live range changes
    nothing. *)
Theorem mmu_free_device k n s A p h l v sz :
  vrep k n s A → va_heaps A !! p = Some (h, l) → (∀ m, l !! v = Some m → sz = m) →
  (∀ i, 0 ≤ i < sz / 4096 → t_pt (va_tab A) !! (psMMUContext h, pdx (v + i * 4096)) ≠ Some None) →
  wp (MMU_Free p v sz) (λ _ s',
    (∀ c u, c ∈ t_list (va_tab A) → is_u32 u → device s' c u =
       if decide (is_Some (l !! v) ∧ sees_heap (va_tab A) h c u ∧ v ≤ u < v + sz) then None else device s c u) ∧
    ∃ A', vrep k n s' A' ∧ va_heaps A' = <[p := (h, delete v l)]> (va_heaps A) ∧ (is_Some (l !! v) → invalidated A A' s')) s.
Proof.
  intros Hv Hp Hm Hn. eapply wp_mono; [by eapply wp_MMU_Free|]. intros [] s' Hpost. destruct (l !! v) as [m|] eqn:Hl.
  - rewrite (Hm m eq_refl) in Hpost, Hn |- *. destruct Hpost as [Hv' Hi]. split; [|by eexists].
    intros c u Hc Hu. destruct (unmap_run_same (Z.to_nat (m / 4096)) (psMMUContext h) v (va_tab A)) as [Hlist _].
    destruct (device_step _ _ _ _ _ _ _ _ c u Hv Hv' Hlist Hc Hu) as [-> ->].
    rewrite (free_translate k n s A p h l v m c u Hv Hp Hl Hn).
    destruct (decide _) as [Hs|Hs], (decide (is_Some (Some m) ∧ _)) as [Hs'|Hs']; [done| | |done].
    + destruct Hs'. split; [by eexists|done].
    + by destruct Hs, Hs' as [_ ?].
  - split.
    + intros c u Hc Hu. rewrite decide_False by (intros [[? ?] _]; done).
      by destruct (device_step _ _ _ _ _ _ _ _ c u Hv Hpost eq_refl Hc Hu) as [-> ->].
    + exists A. split; [done|]. split; [|by intros [? ?]]. rewrite delete_id by done. by rewrite insert_id.
Qed.

(** C35: destroying a heap takes all its pages from the device, in every context
    that looked through it, touches nothing else, leaks no memory, and has the
    device drop its cached directory; a heap destroyed right after it was made
    leaves the state it was made in. *)
Theorem mmu_delete_device k n s A p h l :
  vrep k n s A → va_heaps A !! p = Some (h, l) →
  wp (MMU_Delete p) (λ _ s', vrep k n s' (deleted A p h) ∧ told (v_mmu s') SGXMKIF_CC_INVAL_BIF_PD ∧
    (∀ c u, c ∈ t_list (va_tab A) → is_u32 u → device s' c u =
       if decide (sees_heap (va_tab A) h c u ∧ in_heap h (pdx u)) then None else device s c u) ∧
    ∀ A0 c d, can_create A0 c d → va_heaps A0 !! p = None → A = created A0 p c d → deleted A p h = A0) s.
Proof.
  intros Hv Hp. eapply wp_mono; [by eapply wp_MMU_Delete|]. intros [] s' [Hv' Ht]. split; [done|]. split; [done|]. split.
  - intros c u Hc Hu. assert (t_list (va_tab (deleted A p h)) = t_list (va_tab A)) as Hl.
    { cbn [va_tab deleted]. destruct (owned_same h None (erase_heap h (va_tab A))) as [-> _]. apply erase_same. }
    destruct (device_step _ _ _ _ _ _ _ _ c u Hv Hv' Hl Hc Hu) as [-> ->]. rewrite (deleted_translate k n s A p h l c u Hv Hp).
    by destruct (decide _).
  - intros A0 c d (Hc&Hd&Hvac&_) Hnone ->. cbn [va_heaps created] in Hp. rewrite lookup_insert_eq in Hp. injection Hp as <- <-.
    pose proof (heap_of_count c d Hd) as Hcnt. destruct A0 as [a hs]. unfold deleted, created. cbn [va_tab va_heaps] in *. f_equal.
    + destruct (owned_same (heap_of c d) (Some c) a) as [_ Hpt].
      assert (erase_heap (heap_of c d) (owned (heap_of c d) (Some c) a) = owned (heap_of c d) (Some c) a) as He.
      { apply erase_vacant; [|done]. intros i Hi. rewrite Hpt. apply (Hvac i Hi). by right. }
      change (erase_heap (strip (heap_of c d))) with (erase_heap (heap_of c d)). rewrite He.
      exact (owned_undo a (heap_of c d) c Hvac Hcnt).
    + rewrite delete_insert_id; done.
Qed.

(** ** Contexts *)

(** C34: in a new context the device finds the pages of the shared heaps, as the
    heaps' own contexts show them, and nothing else; the other contexts are as
    they were.  A context that cannot be made costs at most one block. *)
Theorem mmu_context_shares k n s A hs :
  vrep k n s A → vm_pre (VContext hs) A →
  wp (run_vm_op (VContext hs)) (λ r s', match r with
    | VrContext (Some (c, pd)) => c ∉ t_list (va_tab A) ∧ vrep k n s' (set_tab (add_ctx c) A) ∧
        ∀ c' u, c' ∈ c :: t_list (va_tab A) → is_u32 u → device s' c' u =
          if decide (c' = c) then o ← t_owner (va_tab A) !! pdx u; device s o u else device s c' u
    | VrContext None => ∃ k', k ≤ k' ≤ k + 1 ∧ vrep k' n s' A
    | _ => False
    end) s.
Proof.
  intros Hv Hpre. eapply wp_mono; [by apply wp_run_vm_op|]. intros r s' (A'&k'&Hs&Hk&Hv'). destruct r as [[[c pd]|]| | | |]; try done.
  - destruct Hs as [Hc ->]. cbn [leak] in Hk. assert (k' = k) as -> by lia. split; [done|]. split; [done|]. intros c' u Hc' Hu.
    rewrite (device_translate _ _ _ _ c' u Hv' Hc' Hu). cbn [va_tab set_tab]. rewrite (add_ctx_translate k n s A c c' u Hv Hc).
    destruct (decide (c' = c)) as [->|Hne].
    + destruct (t_owner (va_tab A) !! pdx u) as [o|] eqn:Ho; [|done]. simpl. symmetry. eapply device_translate; [done| |done].
      pose proof Hv as [[G (W&Hrw&_)] _ _]. by eapply r_own.
    + symmetry. eapply device_translate; [done| |done]. apply elem_of_cons in Hc' as [?|?]; done.
  - cbn [vm_spec] in Hs. subst A'. exists k'. done.
Qed.

(** C39: a context that cannot be made for want of a page leaves its block
    allocated, and no list leads to it; one that cannot be made for want of the
    block itself leaks nothing. *)
Theorem mmu_initialise_leaks k n s a G :
  rep k n s a G →
  wp MMU_Initialise (λ r s', match r with
    | (PVRSRV_OK, Some (c, pd)) => c ∉ t_list a ∧ os_live (m_os s') = k + blocks (add_ctx c a) (m_heaps s')
    | (PVRSRV_ERROR_FAILED_TO_ALLOC_PAGES, None) => rep (k + 1) n s' a G ∧ os_live (m_os s') = os_live (m_os s) + 1
    | (PVRSRV_ERROR_OUT_OF_MEMORY, None) => rep k n s' a G ∧ os_live (m_os s') = os_live (m_os s)
    | _ => False
    end) s.
Proof.
  intros (W&Hr&HW). pose proof (r_live _ _ _ _ _ _ Hr) as Hl.
  assert (∀ s', keep s s' → blocks a (m_heaps s') = blocks a (m_heaps s)) as Hb.
  { intros s' Hk. unfold blocks. by rewrite (keep_size _ _ Hk). }
  eapply wp_MMU_Initialise; [exact Hr|..].
  - intros s' Hr' Hk _. split; [by exists W|]. pose proof (r_live _ _ _ _ _ _ Hr') as Hl'. rewrite (Hb _ Hk) in Hl'. lia.
  - intros s' Hr' Hk _. split; [by exists W|]. pose proof (r_live _ _ _ _ _ _ Hr') as Hl'. rewrite (Hb _ Hk) in Hl'. lia.
  - intros s' c phi G' Hc _ _ _ _ Hr'. split; [done|]. exact (r_live _ _ _ _ _ _ Hr').
Qed.

(** ** Invariants and bounds *)

(** C32: two live ranges never overlap if one context can see both: ranges of
    one heap, of shared heaps, of heaps of the same context, or of a shared heap
    and of a heap of the context. *)
Theorem mmu_ranges_disjoint k n s A p p' h h' l l' b b' sz sz' c :
  vrep k n s A → va_heaps A !! p = Some (h, l) → va_heaps A !! p' = Some (h', l') →
  l !! b = Some sz → l' !! b' = Some sz' → (p, b) ≠ (p', b') →
  shared_heap h = true ∨ psMMUContext h = c → shared_heap h' = true ∨ psMMUContext h' = c →
  b + sz ≤ b' ∨ b' + sz' ≤ b.
Proof. apply live_disjoint. Qed.

(** C38: the last 4 MB of the address space never get a page table: for a range
    that lies there [_DeferredAllocPagetables] answers success and does nothing,
    since the end of the range, rounded up, is cut to the last directory index
    and the loop stops before it. *)
Theorem mmu_last_table k n s a G heap h v sz :
  rep k n s a G → m_heaps s !! heap = Some h → in_window h v sz → LAST_TABLE ≤ v →
  wp (_DeferredAllocPagetables heap v sz) (λ r s', r = true ∧ s' = s) s.
Proof.
  intros Hr Hh Hin Hv. pose proof Hr as (W&Hrw&_). pose proof (r_heap _ _ _ _ _ _ Hrw _ _ Hh) as Hok.
  pose proof Hin as (Hlo&Hsz&He). destruct (ho_size _ _ Hok) as (_&_&Hlt). unfold LAST_TABLE in *.
  unfold _DeferredAllocPagetables. wp_step. eapply wp_rd_heap; [done|]. unfold id.
  rewrite (pd_end_spec a) by (unfold LAST_TABLE; done || lia). rewrite decide_False by (unfold LAST_TABLE; lia).
  rewrite (ho_pdshift _ _ Hok), shiftr_pd.
  assert (pdx v = 1023) as -> by (unfold pdx; symmetry; apply (Z.div_unique _ _ _ (v - 4290772992)); lia).
  change (Z.to_nat (u32 (1023 - 1023))) with O. cbn [alloc_page_tables]. by wp_step.
Qed.
End props.

(** ** A system for the witnesses *)

(** A kernel with 64 pages. *)
Definition sample_page (_ : Z) (X : gset Z) : option Z := head (filter (.∉ X) ((λ i, i * 4096) <$> seqZ 1 64)).

#[local] Instance sample_env : MmuEnv := {| page_choice := sample_page; lin_to_phys _ v := v; handle_to_phys h off := h + off |}.

#[local] Instance sample_law : MmuLaw sample_env.
Proof.
  intros t X p Hp. cbn in Hp. unfold sample_page in Hp. apply head_Some in Hp as [l Hl].
  assert (p ∈ filter (.∉ X) ((λ i, i * 4096) <$> seqZ 1 64)) as Hin by (rewrite Hl; by left).
  apply list_elem_of_filter in Hin as [Hx (i&->&Hi%elem_of_seqZ)%list_elem_of_fmap]. split; [done|]. split; [lia|]. apply Z_mod_mult.
Qed.

Lemma sample_supply : supply 64.
Proof.
  intros t X HX. cbn. unfold sample_page. destruct (filter _ _) as [|p l] eqn:Hf; [|by eexists]. exfalso.
  assert (list_to_set ((λ i, i * 4096) <$> seqZ 1 64) ⊆ X) as Hsub.
  { intros x Hx%elem_of_list_to_set. destruct (decide (x ∈ X)) as [|Hn]; [done|].
    assert (x ∈ filter (.∉ X) ((λ i, i * 4096) <$> seqZ 1 64)) as Hin by by apply list_elem_of_filter.
    rewrite Hf in Hin. by apply elem_of_nil in Hin. }
  apply subseteq_size in Hsub. rewrite size_list_to_set in Hsub; [rewrite length_fmap, length_seqZ in Hsub; lia|].
  apply NoDup_fmap_2; [|apply NoDup_seqZ]. intros x y ?. lia.
Qed.

Definition sample_os : os := {| os_script := []; os_live := 0 |}.
Definition sample_mmu : mmu_st := mkMmu sample_os 1 ∅ ∅ ∅ ∅ 0 0.
Definition sample_vm : vm_st := mkVm sample_os ∅ sample_mmu.
Definition sample_abs : vabs := mkVabs (mkTables [] ∅ ∅) ∅.
Definition sample_ghost : ghost := mkGhost ∅ (λ _, PDof 0) (λ _, (0, 0)).

Lemma sample_rep : rep 0 0 sample_mmu (va_tab sample_abs) sample_ghost.
Proof.
  exists (λ _, []). split; [|by intros c ?%elem_of_nil]. split.
  - split; [done|constructor|by intros c ?%elem_of_nil].
  - intros x. cbn [t_pt va_tab sample_abs g_tab sample_ghost]. by rewrite !lookup_empty.
  - intros c i [? Hx]. cbn [t_pt va_tab sample_abs] in Hx. by rewrite lookup_empty in Hx.
  - intros i o Hx. cbn [t_owner va_tab sample_abs] in Hx. by rewrite lookup_empty in Hx.
  - split; [intros ????? Hx|intros ??? Hx|intros ? [? Hx]|reflexivity]; unfold phys in Hx; cbn [m_mem sample_mmu] in Hx;
      by rewrite fmap_empty, lookup_empty in Hx.
  - done.
  - intros p [[? Hx]|[[? Hx]|[? Hx]]]; cbn [m_pts m_ctxs m_heaps sample_mmu] in Hx; by rewrite lookup_empty in Hx.
  - intros p h Hx. cbn [m_heaps sample_mmu] in Hx. by rewrite lookup_empty in Hx.
  - reflexivity.
Qed.

Lemma sample_vrep : vrep 0 0 sample_vm sample_abs.
Proof.
  split; [exists sample_ghost; exact sample_rep| |].
  - intros p. unfold slot_ok. cbn [va_heaps sample_abs v_mmu v_arenas sample_vm m_heaps sample_mmu]. by rewrite !lookup_empty.
  - intros p p' h h' l l' i Hx. cbn [va_heaps sample_abs] in Hx. by rewrite lookup_empty in Hx.
Qed.

(** A context. *)
Lemma sample_context : ∃ s c, vrep 0 0 s (set_tab (add_ctx c) sample_abs) ∧ vm_plenty s.
Proof.
  pose proof (wp_create_context 0 0 sample_mmu _ sample_ghost [] sample_rep) as Hw. rewrite wp_Done in Hw.
  destruct Hw as (r&e&_&Hpost&Hk).
  { by intros p ?%elem_of_nil. }
  { intros i o Ho. cbn [t_owner va_tab sample_abs] in Ho. by rewrite lookup_empty in Ho. }
  destruct r as [[c pd]|].
  - destruct Hpost as (_&Hr&_). exists (set_v_mmu e sample_vm), c. split; [|split; [done|by apply (kp_os _ _ Hk)]].
    apply vrep_tab; [exact sample_vrep|exact Hr|exact Hk].
  - destruct Hpost as [Hno _]. destruct Hno. split; [done|]. intros t X HX. apply (sample_supply t). unfold areas in HX. simpl in HX.
    change (size (omap (M:=gmap (Z * Z)) id (∅ : gmap (Z * Z) (option (list Z))))) with 0%nat in HX. lia.
Qed.

(** A shared heap of 64 KB in it. *)
Definition sample_arena : DEV_ARENA_DESCRIPTOR := mkDevArena 268435456 65536 DEVICE_MEMORY_HEAP_SHARED 4096.

Lemma sample_good : good_arena sample_arena.
Proof. unfold good_arena, sample_arena. cbn. split_and!; [lia|done|lia|done|lia|lia|done]. Qed.

Lemma sample_can_create c : can_create (set_tab (add_ctx c) sample_abs) c sample_arena.
Proof.
  split; [by left|]. split; [exact sample_good|]. split.
  - intros i _. cbn [t_owner t_pt va_tab set_tab add_ctx sample_abs]. split; [apply lookup_empty|]. intros. apply lookup_empty.
  - intros p h l i Hp. cbn [va_heaps set_tab sample_abs] in Hp. by rewrite lookup_empty in Hp.
Qed.

Definition sample_heap (c : Z) : MMU_HEAP := strip (heap_of c sample_arena).

Lemma sample_created : ∃ s c p, vrep 0 0 s (created (set_tab (add_ctx c) sample_abs) p c sample_arena) ∧ vm_plenty s ∧
  heap_tags s p sample_arena (whole sample_arena).
Proof.
  destruct sample_context as (s&c&Hv&Hpl). pose proof (wp_MMU_Create 0 0 s _ c sample_arena Hv (sample_can_create c)) as Hw.
  rewrite wp_Done in Hw. destruct Hw as (p&s'&_&Hpost). unfold heap_created in Hpost.
  destruct (p =? 0); [by destruct Hpost as [_ [?|?]]|]. destruct Hpost as (_&Hv'&_&Ht&Hpl'). exists s', c, p. by auto.
Qed.

Lemma sample_request : page_request 8192 4096.
Proof. unfold page_request, LAST_TABLE. split_and!; (lia || done). Qed.

Lemma sample_in_heap c i : in_heap (sample_heap c) i ↔ i = 64.
Proof.
  unfold in_heap. change (ui32PDBaseIndex (sample_heap c)) with 64. change (ui32PageTableCount (sample_heap c)) with 1. lia.
Qed.

(** A range handed out in it can be mapped. *)
Lemma sample_range_free c p v a' : let A := created (set_tab (add_ctx c) sample_abs) p c sample_arena in
  grown (sample_heap c) (va_tab A) a' → placed (sample_heap c) ∅ v 8192 4096 →
  (∀ w, v ≤ w < v + 8192 → w < LAST_TABLE → present a' c (pdx w)) → range_free a' (sample_heap c) v 8192.
Proof.
  intros A Hg (Hal&Hin&_) Hpres. split; [exact Hal|]. split; [lia|]. intros u Hu. pose proof Hin as (Hlo&_&Hhi).
  change (BaseDevVAddr (psDevArena (sample_heap c))) with 268435456 in Hlo, Hhi. change (ui32Size (psDevArena (sample_heap c))) with 65536 in Hhi.
  split; [split; [unfold is_u32; lia|split]|].
  - unfold in_heap. change (ui32PDBaseIndex (sample_heap c)) with 64. change (ui32PageTableCount (sample_heap c)) with 1.
    unfold pdx. split; [apply Z.div_le_lower_bound; lia|apply Z.div_lt_upper_bound; lia].
  - apply Hpres; [done|]. unfold LAST_TABLE. lia.
  - rewrite (grown_translate (sample_heap c) (va_tab A)) by done. reflexivity.
Qed.

(** Two pages handed out in it. *)
Record sample (s : vm_st) (A : vabs) (c p v : Z) : Prop := {
  de_rep : vrep 0 0 s A;
  de_ctx : t_list (va_tab A) = [c];
  de_heap : va_heaps A = {[p := (sample_heap c, {[v := 8192]})]};
  de_placed : placed (sample_heap c) ∅ v 8192 4096;
  de_free : range_free (va_tab A) (sample_heap c) v 8192;
  de_plenty : vm_plenty s;
  de_small : (areas (va_tab A) ≤ 2)%nat;
  de_only i : i ≠ 64 → t_owner (va_tab A) !! i = None ∧ ∀ c', t_pt (va_tab A) !! (c', i) = None
}.

Lemma sample_live : ∃ s A c p v, sample s A c p v.
Proof.
  destruct sample_created as (s&c&p&Hv&[Ho Hm]&Ht). set (A := created _ _ _ _) in *.
  assert (va_heaps A !! p = Some (sample_heap c, ∅)) as Hp by apply lookup_insert_eq.
  pose proof (wp_MMU_Alloc 0 0 s A p (sample_heap c) ∅ 8192 0 4096 0 Hv Hp sample_request eq_refl) as Hw. rewrite wp_Done in Hw.
  destruct Hw as ([ok v]&s'&_&Hvp&a'&Hg&Hpost). cbn [fst snd] in Hpost. destruct ok.
  - destruct Hpost as (Hv'&Hpl&Hpres). exists s', (mkVabs a' (<[p := (sample_heap c, <[v := 8192]> ∅)]> (va_heaps A))), c, p, v.
    split; [exact Hv'|exact (gr_list _ _ _ Hg)| |exact Hpl| |by apply Hvp|exact (grown_areas _ _ _ Hg ltac:(done))|].
    { cbn [va_heaps A created set_tab sample_abs]. by rewrite insert_insert_eq. }
    { by eapply sample_range_free. }
    intros i Hi. cbn [va_tab]. rewrite (gr_owner _ _ _ Hg). split.
    { destruct (owned_lookup (heap_of c sample_arena) (Some c) (va_tab (set_tab (add_ctx c) sample_abs)) i ltac:(done)) as [_ Hout].
      cbn [va_tab A created]. rewrite Hout; [apply lookup_empty|]. intros Hin. by apply (sample_in_heap c) in Hin. }
    intros c'. destruct (gr_pt _ _ _ Hg (c', i)) as [->|(_&Hin&_)]; [apply lookup_empty|]. by apply (sample_in_heap c) in Hin.
  - exfalso. destruct Hpost as [_ Hno]. destruct (Hno Ho) as [Hen|Hfull].
    + apply Hen. split; [done|]. intros t X HX. apply (sample_supply t). pose proof (grown_areas _ _ _ Hg ltac:(done)) as Ha.
      change (areas (va_tab A)) with 1%nat in Ha. change (Z.to_nat (ui32PageTableCount (sample_heap c))) with 1%nat in Ha. lia.
    + by eapply (new_heap_room s p sample_arena 8192 4096 sample_good Ht sample_request eq_refl ltac:(done) (sample_heap c) eq_refl).
Qed.

Definition sample_client : vm_client :=
  VCall (VContext []) (λ r, match r with
  | VrContext (Some (c, _)) => VCall (VCreate c sample_arena) (λ r, match r with
    | VrHeap p => if p =? 0 then VStop else VCall (VAlloc p 8192 4096) (λ r, match r with
      | VrRange (true, v) =>
          VCall (VMap p v (Block 1048576) 8192 PVRSRV_MEM_READ) (λ _,
          VCall (VQuery p v) (λ _, VCall (VFree p v 8192) (λ _, VCall (VDelete p) (λ _, VStop))))
      | _ => VStop
      end)
    | _ => VStop
    end)
  | _ => VStop
  end).

Lemma sample_client_ok : vm_client_ok sample_client sample_abs.
Proof.
  split; [split; [by intros p ?%elem_of_nil|]|].
  { intros i o Ho. cbn [t_owner va_tab sample_abs] in Ho. by rewrite lookup_empty in Ho. }
  intros [[[c pd]|]| | | |] A1 H1; try done. destruct H1 as [_ ->]. split; [apply sample_can_create|].
  intros [|p| | |] A2 H2; try done. cbn [vm_spec] in H2. destruct (p =? 0); [done|]. destruct H2 as (_&->&_).
  set (A := created _ _ _ _). assert (va_heaps A !! p = Some (sample_heap c, ∅)) as Hp by apply lookup_insert_eq.
  split; [exists (sample_heap c), ∅; split; [exact Hp|exact sample_request]|].
  intros [| |[[] v]| |] A3 H3; try done. destruct H3 as (h&l&Hh&a'&Hg&->&Hpl&Hpres). rewrite Hp in Hh. injection Hh as <- <-.
  pose proof (sample_range_free c p v a' Hg Hpl Hpres) as Hf. set (H := <[p := _]> _).
  assert (H !! p = Some (sample_heap c, <[v := 8192]> ∅)) as HH by apply lookup_insert_eq.
  split; [split; [by exists (sample_heap c), (<[v := 8192]> ∅)|done]|]. destruct Hf as (_&_&Hf). destruct (Hf v) as [(Hu&Hi&Hpr) _]; [lia|].
  intros r4 A4 H4. destruct r4; try done. destruct H4 as (h&l&Hh&->). cbn [va_heaps] in Hh. rewrite HH in Hh. injection Hh as <- <-.
  split.
  { exists (sample_heap c), (<[v := 8192]> ∅). split; [exact HH|]. split; [done|]. split; [done|]. cbn [va_tab set_tab].
    apply (put_pages_present (pages 8192) c v (block_page 1048576 PVRSRV_MEM_READ) PVRSRV_MEM_READ 0) in Hpr as [ws Hws].
    intros Hx. assert (Some (Some ws) = Some None) as Hy by exact (eq_trans (eq_sym Hws) Hx). discriminate. }
  intros r5 A5 H5. destruct r5; try done. destruct H5 as [_ ->]. split.
  { exists (sample_heap c), (<[v := 8192]> ∅). split; [exact HH|]. intros m. rewrite lookup_insert_eq. by intros [= <-]. }
  intros r6 A6 H6. destruct r6; try done. destruct H6 as (h&l&Hh&->). cbn [va_heaps set_tab] in Hh. rewrite HH in Hh. injection Hh as <- <-.
  rewrite lookup_insert_eq. split; [|done]. cbn [vm_pre va_heaps heap_freed]. rewrite lookup_insert_eq. by eexists.
Qed.

Lemma mmu_refines_witness : vrep 0 0 sample_vm sample_abs ∧
  wp (run_vm_client sample_client) (λ l s', ∃ A' k', vm_client_spec sample_client sample_abs l A' ∧ 0 ≤ k' ≤ 0 + leaks l ∧ vrep k' 0 s' A' ∧
    ∀ x u, x ∈ t_list (va_tab A') → is_u32 u → device s' x u = pte_view <$> translate (va_tab A') x u) sample_vm.
Proof. split; [exact sample_vrep|]. exact (mmu_refines sample_client 0 0 sample_vm sample_abs sample_vrep sample_client_ok). Defined.

Lemma sample_map_pre s A c p v : sample s A c p v → vm_pre (VMap p v (PageList [1048576; 4096]) 8192 PVRSRV_MEM_READ) A.
Proof.
  intros [_ _ Hh _ Hf _ _ _]. split; [|done]. exists (sample_heap c), {[v := 8192]}. split; [|exact Hf].
  rewrite Hh. apply lookup_singleton_eq.
Qed.

Lemma sample_lookup s A c p v : sample s A c p v → va_heaps A !! p = Some (sample_heap c, {[v := 8192]}).
Proof. intros [_ _ Hh _ _ _ _ _]. rewrite Hh. apply lookup_singleton_eq. Qed.

Lemma mmu_map_device_witness : ∃ s A c p v, sample s A c p v ∧
  wp (run_vm_op (VMap p v (PageList [1048576; 4096]) 8192 PVRSRV_MEM_READ)) (λ _ s', ∀ c' u, c' ∈ t_list (va_tab A) → is_u32 u →
    device s' c' u =
      if decide (sees_heap (va_tab A) (sample_heap c) c' u ∧ v ≤ u < v + Z.of_nat (pages 8192) * 4096)
      then Some (u32 (page_of_source (PageList [1048576; 4096]) PVRSRV_MEM_READ ((u - v) / 4096)) / 4096 * 4096, pte_flags PVRSRV_MEM_READ)
      else device s c' u) s.
Proof.
  destruct sample_live as (s&A&c&p&v&Hd). exists s, A, c, p, v. split; [exact Hd|].
  exact (mmu_map_device 0 0 s A p (sample_heap c) {[v := 8192]} v (PageList [1048576; 4096]) 8192 PVRSRV_MEM_READ
    (de_rep _ _ _ _ _ Hd) (sample_lookup _ _ _ _ _ Hd) (sample_map_pre _ _ _ _ _ Hd)).
Defined.

Lemma sample_not_null s A c p v i : sample s A c p v → 0 ≤ i < 2 → t_pt (va_tab A) !! (psMMUContext (sample_heap c), pdx (v + i * 4096)) ≠ Some None.
Proof.
  intros [_ _ _ _ (_&_&Hf) _ _ _] Hi Hx. destruct (Hf (v + i * 4096)) as [(_&_&ws&Hws) _]; [lia|].
  assert (Some (Some ws) = Some None) as Hy by exact (eq_trans (eq_sym Hws) Hx). discriminate.
Qed.

Lemma mmu_query_device_witness : ∃ s A c p v, sample s A c p v ∧
  wp (run_vm_op (VQuery p v)) (λ r s', r = VrPage (default 0 (fst <$> device s (psMMUContext (sample_heap c)) v)) ∧
    ∀ c u, c ∈ t_list (va_tab A) → is_u32 u → device s' c u = device s c u) s.
Proof.
  destruct sample_live as (s&A&c&p&v&Hd). exists s, A, c, p, v. split; [exact Hd|].
  apply (mmu_query_device 0 0 s A p (sample_heap c) {[v := 8192]} v (de_rep _ _ _ _ _ Hd) (sample_lookup _ _ _ _ _ Hd)).
  exists (sample_heap c), {[v := 8192]}. split; [exact (sample_lookup _ _ _ _ _ Hd)|].
  destruct (proj2 (proj2 (de_free _ _ _ _ _ Hd)) v) as [(Hu&Hi&_) _]; [lia|]. split; [exact Hu|]. split; [exact Hi|].
  pose proof (sample_not_null _ _ _ _ _ 0 Hd ltac:(lia)) as Hn. by rewrite Z.add_0_r in Hn.
Defined.

Lemma mmu_alloc_backed_witness : ∃ s A c p v, sample s A c p v ∧
  wp (MMU_Alloc p 4096 0 4096 0) (λ r s', heap_alloc 0 0 s A p (sample_heap c) {[v := 8192]} 4096 4096 r s' ∧
    ∀ c u, c ∈ t_list (va_tab A) → is_u32 u → device s' c u = device s c u) s.
Proof.
  destruct sample_live as (s&A&c&p&v&Hd). exists s, A, c, p, v. split; [exact Hd|].
  apply (mmu_alloc_backed 0 0 s A p (sample_heap c) {[v := 8192]} 4096 0 4096 0 (de_rep _ _ _ _ _ Hd) (sample_lookup _ _ _ _ _ Hd)); [|reflexivity].
  unfold page_request, LAST_TABLE. split_and!; (lia || done).
Defined.

Lemma mmu_new_heap_serves_witness : ∃ s c, vrep 0 0 s (set_tab (add_ctx c) sample_abs) ∧
  wp (p ← MMU_Create c sample_arena; MMU_Alloc p 8192 0 4096 0) (λ r _, r.1 = true) s.
Proof.
  destruct sample_context as (s&c&Hv&Hpl). exists s, c. split; [exact Hv|].
  apply (mmu_new_heap_serves 0 0 s _ c sample_arena 8192 4096 Hv (sample_can_create c)); [done|exact Hpl| |exact sample_request|done|reflexivity].
  intros t X HX. apply (sample_supply t). change (areas (va_tab (set_tab (add_ctx c) sample_abs))) with 1%nat in HX.
  change (Z.to_nat (ui32PageTableCount (heap_of c sample_arena))) with 1%nat in HX. lia.
Defined.

Lemma mmu_free_device_witness : ∃ s A c p v, sample s A c p v ∧
  wp (MMU_Free p v 8192) (λ _ s',
    (∀ c' u, c' ∈ t_list (va_tab A) → is_u32 u → device s' c' u =
       if decide (is_Some (({[v := 8192]} : gmap Z Z) !! v) ∧ sees_heap (va_tab A) (sample_heap c) c' u ∧ v ≤ u < v + 8192)
       then None else device s c' u) ∧
    ∃ A', vrep 0 0 s' A' ∧ va_heaps A' = <[p := (sample_heap c, delete v {[v := 8192]})]> (va_heaps A) ∧
      (is_Some (({[v := 8192]} : gmap Z Z) !! v) → invalidated A A' s')) s.
Proof.
  destruct sample_live as (s&A&c&p&v&Hd). exists s, A, c, p, v. split; [exact Hd|].
  apply (mmu_free_device 0 0 s A p (sample_heap c) {[v := 8192]} v 8192 (de_rep _ _ _ _ _ Hd) (sample_lookup _ _ _ _ _ Hd)).
  - intros m. rewrite lookup_singleton_eq. by intros [= <-].
  - intros i Hi. exact (sample_not_null _ _ _ _ _ i Hd Hi).
Defined.

Lemma mmu_delete_device_witness : ∃ s A c p v, sample s A c p v ∧
  wp (MMU_Delete p) (λ _ s', vrep 0 0 s' (deleted A p (sample_heap c)) ∧ told (v_mmu s') SGXMKIF_CC_INVAL_BIF_PD ∧
    (∀ c' u, c' ∈ t_list (va_tab A) → is_u32 u → device s' c' u =
       if decide (sees_heap (va_tab A) (sample_heap c) c' u ∧ in_heap (sample_heap c) (pdx u)) then None else device s c' u) ∧
    ∀ A0 c' d, can_create A0 c' d → va_heaps A0 !! p = None → A = created A0 p c' d → deleted A p (sample_heap c) = A0) s.
Proof.
  destruct sample_live as (s&A&c&p&v&Hd). exists s, A, c, p, v. split; [exact Hd|].
  exact (mmu_delete_device 0 0 s A p (sample_heap c) {[v := 8192]} (de_rep _ _ _ _ _ Hd) (sample_lookup _ _ _ _ _ Hd)).
Defined.

(** The heap of [sample] is shared: a new context looks through it. *)
Lemma sample_share_pre : ∃ s c p, vrep 0 0 s (created (set_tab (add_ctx c) sample_abs) p c sample_arena) ∧
  vm_pre (VContext [p]) (created (set_tab (add_ctx c) sample_abs) p c sample_arena).
Proof.
  destruct sample_created as (s&c&p&Hv&_). exists s, c, p. split; [exact Hv|]. split.
  - intros q ->%list_elem_of_singleton. cbn [va_heaps created]. rewrite lookup_insert_eq. by eexists.
  - intros i o Ho. exists p. split; [by left|]. exists (sample_heap c), ∅. split; [apply lookup_insert_eq|]. split; [done|].
    destruct (owned_lookup (heap_of c sample_arena) (Some c) (va_tab (set_tab (add_ctx c) sample_abs)) i ltac:(done)) as [_ Hout].
    destruct (decide (ui32PDBaseIndex (sample_heap c) ≤ i < ui32PDBaseIndex (sample_heap c) + ui32PageTableCount (sample_heap c))) as [Hi|Hi]; [exact Hi|].
    cbn [va_tab created] in Ho. rewrite Hout in Ho; [|intros Hx; by destruct Hi]. cbn [t_owner va_tab set_tab add_ctx sample_abs] in Ho.
    by rewrite lookup_empty in Ho.
Qed.

Lemma mmu_context_shares_witness : ∃ s c p, let A := created (set_tab (add_ctx c) sample_abs) p c sample_arena in vrep 0 0 s A ∧
  wp (run_vm_op (VContext [p])) (λ r s', match r with
    | VrContext (Some (c, pd)) => c ∉ t_list (va_tab A) ∧ vrep 0 0 s' (set_tab (add_ctx c) A) ∧
        ∀ c' u, c' ∈ c :: t_list (va_tab A) → is_u32 u → device s' c' u =
          if decide (c' = c) then o ← t_owner (va_tab A) !! pdx u; device s o u else device s c' u
    | VrContext None => ∃ k', 0 ≤ k' ≤ 0 + 1 ∧ vrep k' 0 s' A
    | _ => False
    end) s.
Proof.
  destruct sample_share_pre as (s&c&p&Hv&Hpre). exists s, c, p. split; [exact Hv|].
  exact (mmu_context_shares 0 0 s _ [p] Hv Hpre).
Defined.

Lemma mmu_initialise_leaks_witness : wp MMU_Initialise (λ r s', match r with
    | (PVRSRV_OK, Some (c, pd)) => c ∉ t_list (va_tab sample_abs) ∧ os_live (m_os s') = 0 + blocks (add_ctx c (va_tab sample_abs)) (m_heaps s')
    | (PVRSRV_ERROR_FAILED_TO_ALLOC_PAGES, None) => rep (0 + 1) 0 s' (va_tab sample_abs) sample_ghost ∧ os_live (m_os s') = os_live (m_os sample_mmu) + 1
    | (PVRSRV_ERROR_OUT_OF_MEMORY, None) => rep 0 0 s' (va_tab sample_abs) sample_ghost ∧ os_live (m_os s') = os_live (m_os sample_mmu)
    | _ => False
    end) sample_mmu.
Proof. exact (mmu_initialise_leaks 0 0 sample_mmu (va_tab sample_abs) sample_ghost sample_rep). Defined.

(** A second heap, of the context, in the last 4 MB, with a page handed out. *)
Definition sample_arena' : DEV_ARENA_DESCRIPTOR := mkDevArena 4290772992 65536 DEVICE_MEMORY_HEAP_PERCONTEXT 4096.
Definition sample_heap' (c : Z) : MMU_HEAP := strip (heap_of c sample_arena').

Lemma sample_in_heap' c i : in_heap (sample_heap' c) i ↔ i = 1023.
Proof.
  unfold in_heap. change (ui32PDBaseIndex (sample_heap' c)) with 1023. change (ui32PageTableCount (sample_heap' c)) with 1. lia.
Qed.

Lemma sample_good' : good_arena sample_arena'.
Proof. unfold good_arena, sample_arena'. cbn. split_and!; [lia|done|lia|done|lia|lia|done]. Qed.

Lemma sample_can_create' s A c p v : sample s A c p v → can_create A c sample_arena'.
Proof.
  intros [_ Hc Hh _ _ _ _ Ho]. split; [rewrite Hc; by left|]. split; [exact sample_good'|]. split.
  - intros i Hi. apply (sample_in_heap' c) in Hi as ->. destruct (Ho 1023 ltac:(lia)) as [? Hpt]. split; [done|]. intros c' _. apply Hpt.
  - intros q h l i Hq Hi Hi'. rewrite Hh in Hq. apply lookup_singleton_Some in Hq as [_ [= <- _]]. exfalso.
    apply (sample_in_heap' c) in Hi as ->. by apply (sample_in_heap c) in Hi'.
Qed.

Lemma sample_two : ∃ s A c p p' v v', vrep 0 0 s A ∧ va_heaps A !! p = Some (sample_heap c, {[v := 8192]}) ∧
  va_heaps A !! p' = Some (sample_heap' c, {[v' := 4096]}) ∧ p ≠ p'.
Proof.
  destruct sample_live as (s&A&c&p&v&Hd). pose proof (wp_MMU_Create 0 0 s A c sample_arena' (de_rep _ _ _ _ _ Hd) (sample_can_create' _ _ _ _ _ Hd)) as Hw.
  rewrite wp_Done in Hw. destruct Hw as (p'&s1&_&Hpost). unfold heap_created in Hpost. pose proof (de_plenty _ _ _ _ _ Hd) as Hpl0.
  destruct (p' =? 0); [by destruct Hpost as [_ [?|?]]|]. destruct Hpost as (_&Hv1&Hnone&Ht&Hpl). destruct (Hpl Hpl0) as [Ho Hm].
  assert (va_heaps (created A p' c sample_arena') !! p' = Some (sample_heap' c, ∅)) as Hp' by apply lookup_insert_eq.
  assert (page_request 4096 4096) as Hreq by (unfold page_request, LAST_TABLE; split_and!; (lia || done)).
  pose proof (wp_MMU_Alloc 0 0 s1 _ p' (sample_heap' c) ∅ 4096 0 4096 0 Hv1 Hp' Hreq eq_refl) as Hw. rewrite wp_Done in Hw.
  destruct Hw as ([ok v']&s2&_&_&a'&Hg&Hres). cbn [fst snd] in Hres. destruct ok.
  - destruct Hres as (Hv2&_). eexists s2, _, c, p, p', v, v'. split; [exact Hv2|]. assert (p ≠ p') as Hne.
    { intros <-. by rewrite (sample_lookup _ _ _ _ _ Hd) in Hnone. }
    cbn [va_heaps created]. split; [|split; [by rewrite lookup_insert_eq|done]].
    rewrite !lookup_insert_ne by done. exact (sample_lookup _ _ _ _ _ Hd).
  - exfalso. destruct Hres as [_ Hno]. destruct (Hno Ho) as [Hen|Hfull].
    + apply Hen. split; [done|]. intros t X HX. apply (sample_supply t). pose proof (grown_areas _ _ _ Hg ltac:(done)) as Ha.
      assert (areas (va_tab (created A p' c sample_arena')) = areas (va_tab A)) as Hae by reflexivity.
      rewrite Hae in Ha. change (Z.to_nat (ui32PageTableCount (sample_heap' c))) with 1%nat in Ha. pose proof (de_small _ _ _ _ _ Hd). lia.
    + by eapply (new_heap_room s1 p' sample_arena' 4096 4096 sample_good' Ht Hreq eq_refl ltac:(done) (sample_heap' c) eq_refl).
Qed.

Lemma mmu_ranges_disjoint_witness : ∃ s A c p p' v v', vrep 0 0 s A ∧ va_heaps A !! p = Some (sample_heap c, {[v := 8192]}) ∧
  va_heaps A !! p' = Some (sample_heap' c, {[v' := 4096]}) ∧ (v + 8192 ≤ v' ∨ v' + 4096 ≤ v).
Proof.
  destruct sample_two as (s&A&c&p&p'&v&v'&Hv&Hp&Hp'&Hne). exists s, A, c, p, p', v, v'. split; [exact Hv|]. split; [exact Hp|]. split; [exact Hp'|].
  apply (mmu_ranges_disjoint 0 0 s A p p' (sample_heap c) (sample_heap' c) {[v := 8192]} {[v' := 4096]} v v' 8192 4096 c Hv Hp Hp').
  - apply lookup_singleton_eq.
  - apply lookup_singleton_eq.
  - congruence.
  - by left.
  - by right.
Defined.

Lemma mmu_last_table_witness : ∃ s a G heap h, rep 0 0 s a G ∧ m_heaps s !! heap = Some h ∧ psDevArena h = sample_arena' ∧
  wp (_DeferredAllocPagetables heap 4290772992 65536) (λ r s', r = true ∧ s' = s) s.
Proof.
  destruct sample_two as (s&A&c&p&p'&v&v'&Hv&Hp&Hp'&Hne). destruct (vrep_heap _ _ _ _ _ _ _ Hv Hp') as (h&_&Hh&Hst&_).
  destruct (vr_mmu _ _ _ _ Hv) as [G Hr]. assert (psDevArena h = sample_arena') as Ha by exact (eq_sym (f_equal psDevArena Hst)).
  exists (v_mmu s), (va_tab A), G, p', h. split; [exact Hr|]. split; [exact Hh|]. split; [exact Ha|].
  apply (mmu_last_table 0 0 (v_mmu s) (va_tab A) G p' h 4290772992 65536 Hr Hh); [|done].
  unfold in_window. rewrite Ha. cbn. unfold LAST_TABLE. lia.
Defined.
