(* ===== verification/Handle.v ===== *)
(** * handle.c: the handle tables

    A handle base gives user space small integers for kernel objects.  Its
    [sHandle] structures live in blocks of 256, reached through an index
    array that is reallocated when the base grows; a hash table finds the
    handle of an object, [ui32NextIndexPlusOne] threads the free list or the
    list of an open batch, and [sChildren]/[sSiblings] are the circular lists
    of sub-handles.  A [struct sHandle *] is the index of the structure it
    points at: blocks never move.  [PVR_ASSERT] is empty in a release build,
    and the block-allocation cookies are only passed back to the OS layer. *)

From S2P Require Import Prelude Hash.

(** ** Data *)

Inductive PVRSRV_HANDLE_TYPE :=
| PVRSRV_HANDLE_TYPE_NONE
| PVRSRV_HANDLE_TYPE_PERPROC_DATA
| PVRSRV_HANDLE_TYPE_DEV_NODE
| PVRSRV_HANDLE_TYPE_DEV_MEM_CONTEXT
| PVRSRV_HANDLE_TYPE_DEV_MEM_HEAP
| PVRSRV_HANDLE_TYPE_MEM_INFO
| PVRSRV_HANDLE_TYPE_SYNC_INFO
| PVRSRV_HANDLE_TYPE_DISP_INFO
| PVRSRV_HANDLE_TYPE_DISP_SWAP_CHAIN
| PVRSRV_HANDLE_TYPE_BUF_INFO
| PVRSRV_HANDLE_TYPE_DISP_BUFFER
| PVRSRV_HANDLE_TYPE_BUF_BUFFER
| PVRSRV_HANDLE_TYPE_SGX_HW_RENDER_CONTEXT
| PVRSRV_HANDLE_TYPE_SGX_HW_TRANSFER_CONTEXT
| PVRSRV_HANDLE_TYPE_SGX_HW_2D_CONTEXT
| PVRSRV_HANDLE_TYPE_SHARED_PB_DESC
| PVRSRV_HANDLE_TYPE_MEM_INFO_REF
| PVRSRV_HANDLE_TYPE_SHARED_SYS_MEM_INFO
| PVRSRV_HANDLE_TYPE_SHARED_EVENT_OBJECT
| PVRSRV_HANDLE_TYPE_EVENT_OBJECT_CONNECT
| PVRSRV_HANDLE_TYPE_MMAP_INFO
| PVRSRV_HANDLE_TYPE_SOC_TIMER
| PVRSRV_HANDLE_TYPE_SYNC_INFO_MOD_OBJ
| PVRSRV_HANDLE_TYPE_RESITEM_INFO.

#[export] Instance PVRSRV_HANDLE_TYPE_eq_dec : EqDecision PVRSRV_HANDLE_TYPE.
Proof. solve_decision. Defined.

(** The value of the enumerator. *)
Definition HANDLE_TYPE_code (t : PVRSRV_HANDLE_TYPE) : Z :=
  match t with
  | PVRSRV_HANDLE_TYPE_NONE => 0
  | PVRSRV_HANDLE_TYPE_PERPROC_DATA => 1
  | PVRSRV_HANDLE_TYPE_DEV_NODE => 2
  | PVRSRV_HANDLE_TYPE_DEV_MEM_CONTEXT => 3
  | PVRSRV_HANDLE_TYPE_DEV_MEM_HEAP => 4
  | PVRSRV_HANDLE_TYPE_MEM_INFO => 5
  | PVRSRV_HANDLE_TYPE_SYNC_INFO => 6
  | PVRSRV_HANDLE_TYPE_DISP_INFO => 7
  | PVRSRV_HANDLE_TYPE_DISP_SWAP_CHAIN => 8
  | PVRSRV_HANDLE_TYPE_BUF_INFO => 9
  | PVRSRV_HANDLE_TYPE_DISP_BUFFER => 10
  | PVRSRV_HANDLE_TYPE_BUF_BUFFER => 11
  | PVRSRV_HANDLE_TYPE_SGX_HW_RENDER_CONTEXT => 12
  | PVRSRV_HANDLE_TYPE_SGX_HW_TRANSFER_CONTEXT => 13
  | PVRSRV_HANDLE_TYPE_SGX_HW_2D_CONTEXT => 14
  | PVRSRV_HANDLE_TYPE_SHARED_PB_DESC => 15
  | PVRSRV_HANDLE_TYPE_MEM_INFO_REF => 16
  | PVRSRV_HANDLE_TYPE_SHARED_SYS_MEM_INFO => 17
  | PVRSRV_HANDLE_TYPE_SHARED_EVENT_OBJECT => 18
  | PVRSRV_HANDLE_TYPE_EVENT_OBJECT_CONNECT => 19
  | PVRSRV_HANDLE_TYPE_MMAP_INFO => 20
  | PVRSRV_HANDLE_TYPE_SOC_TIMER => 21
  | PVRSRV_HANDLE_TYPE_SYNC_INFO_MOD_OBJ => 22
  | PVRSRV_HANDLE_TYPE_RESITEM_INFO => 23
  end.

Definition is_NONE (t : PVRSRV_HANDLE_TYPE) : bool :=
  bool_decide (t = PVRSRV_HANDLE_TYPE_NONE).

Definition PVRSRV_HANDLE_ALLOC_FLAG_NONE : Z := 0.
Definition PVRSRV_HANDLE_ALLOC_FLAG_SHARED : Z := 1.
Definition PVRSRV_HANDLE_ALLOC_FLAG_MULTI : Z := 2.
Definition PVRSRV_HANDLE_ALLOC_FLAG_PRIVATE : Z := 4.

Definition INTERNAL_HANDLE_FLAG_NONE : Z := 0.
Definition INTERNAL_HANDLE_FLAG_BATCHED : Z := 1.
Definition INTERNAL_HANDLE_FLAG_BATCHED_PARTIALLY_FREE : Z := 2.

Record sHandleList := mkHandleList { ui32Prev : Z; ui32Next : Z; hParent : Z }.

Record sHandle := mkHandle {
  eType : PVRSRV_HANDLE_TYPE;
  pvData : Z;
  ui32NextIndexPlusOne : Z;
  eInternalFlag : Z;
  eFlag : Z;
  ui32Index : Z;
  sChildren : sHandleList;
  sSiblings : sHandleList }.

Record sHandleIndex := mkHandleIndex {
  psHandle : option (list sHandle);
  ui32FreeHandBlockCount : Z }.

Record PVRSRV_HANDLE_BASE := mkHandleBase {
  psHandleArray : option (list sHandleIndex);
  psHashTab : option HASH_TABLE;
  ui32FreeHandCount : Z;
  ui32FirstFreeIndex : Z;
  ui32MaxIndexPlusOne : Z;
  ui32TotalHandCount : Z;
  ui32LastFreeIndexPlusOne : Z;
  ui32HandBatchSize : Z;
  ui32TotalHandCountPreBatch : Z;
  ui32FirstBatchIndexPlusOne : Z;
  ui32BatchHandAllocFailures : Z;
  bPurgingEnabled : bool }.

(** What a fresh block holds before it is initialised: the allocator does not
    clear memory, so the development holds for every such contents. *)
Class HeapContents := heap_contents : Z → sHandle.

Record hb_st := mk_hb { hb_os : os; hb_base : PVRSRV_HANDLE_BASE }.

(** ** Macros *)

Definition HANDLE_BLOCK_SHIFT : Z := 8.
Definition DIVIDE_BY_BLOCK_SIZE (i : Z) : Z := Z.shiftr i HANDLE_BLOCK_SHIFT.
Definition MULTIPLY_BY_BLOCK_SIZE (i : Z) : Z := u32 (Z.shiftl i HANDLE_BLOCK_SHIFT).
Definition HANDLE_BLOCK_SIZE : Z := 256.
Definition HANDLE_SUB_BLOCK_MASK : Z := 255.
Definition HANDLE_BLOCK_MASK : Z := 4294967040.
Definition HANDLE_HASH_TAB_INIT_SIZE : Z := 32.
Definition DEFAULT_MAX_HANDLE : Z := 2147483647.

Definition INDEX_TO_HANDLE (i : Z) : Z := u64 (i + 1).
Definition HANDLE_TO_INDEX (h : Z) : Z := u32 (u32 h - 1).
Definition INDEX_TO_BLOCK_INDEX (i : Z) : Z := DIVIDE_BY_BLOCK_SIZE i.
Definition BLOCK_INDEX_TO_INDEX (i : Z) : Z := MULTIPLY_BY_BLOCK_SIZE i.
Definition INDEX_TO_SUB_BLOCK_INDEX (i : Z) : Z := Z.land i HANDLE_SUB_BLOCK_MASK.
Definition ROUND_DOWN_TO_MULTIPLE_OF_BLOCK_SIZE (a : Z) : Z := Z.land HANDLE_BLOCK_MASK a.
Definition ROUND_UP_TO_MULTIPLE_OF_BLOCK_SIZE (a : Z) : Z :=
  ROUND_DOWN_TO_MULTIPLE_OF_BLOCK_SIZE (u32 (u32 (a + HANDLE_BLOCK_SIZE) - 1)).
Definition DEFAULT_MAX_INDEX_PLUS_ONE : Z :=
  ROUND_DOWN_TO_MULTIPLE_OF_BLOCK_SIZE DEFAULT_MAX_HANDLE.
Definition HANDLE_ARRAY_SIZE (n : Z) : Z :=
  DIVIDE_BY_BLOCK_SIZE (ROUND_UP_TO_MULTIPLE_OF_BLOCK_SIZE n).
Definition INDEX_IS_VALID (psBase : PVRSRV_HANDLE_BASE) (i : Z) : bool :=
  i <? ui32TotalHandCount psBase.
Definition HANDLES_BATCHED (psBase : PVRSRV_HANDLE_BASE) : bool :=
  negb (ui32HandBatchSize psBase =? 0).

Definition TEST_FLAG (v f : Z) : bool := negb (Z.land v f =? 0).
Definition SET_FLAG (v f : Z) : Z := Z.lor v f.
Definition CLEAR_FLAG (v f : Z) : Z := Z.land v (Z.lnot f).
Definition TEST_ALLOC_FLAG (h : sHandle) (f : Z) : bool := TEST_FLAG (eFlag h) f.
Definition BATCHED_HANDLE (h : sHandle) : bool :=
  TEST_FLAG (eInternalFlag h) INTERNAL_HANDLE_FLAG_BATCHED.
Definition BATCHED_HANDLE_PARTIALLY_FREE (h : sHandle) : bool :=
  TEST_FLAG (eInternalFlag h) INTERNAL_HANDLE_FLAG_BATCHED_PARTIALLY_FREE.
Definition HANDLE_STRUCT_IS_FREE (h : sHandle) : bool :=
  is_NONE (eType h) && (eInternalFlag h =? INTERNAL_HANDLE_FLAG_NONE).

(** ** Field updates *)

Definition set_eType t (h : sHandle) := mkHandle t (pvData h) (ui32NextIndexPlusOne h)
  (eInternalFlag h) (eFlag h) (ui32Index h) (sChildren h) (sSiblings h).
Definition set_next n (h : sHandle) := mkHandle (eType h) (pvData h) n
  (eInternalFlag h) (eFlag h) (ui32Index h) (sChildren h) (sSiblings h).
Definition set_eInternalFlag f (h : sHandle) := mkHandle (eType h) (pvData h)
  (ui32NextIndexPlusOne h) f (eFlag h) (ui32Index h) (sChildren h) (sSiblings h).
Definition set_sChildren l (h : sHandle) := mkHandle (eType h) (pvData h)
  (ui32NextIndexPlusOne h) (eInternalFlag h) (eFlag h) (ui32Index h) l (sSiblings h).
Definition set_sSiblings l (h : sHandle) := mkHandle (eType h) (pvData h)
  (ui32NextIndexPlusOne h) (eInternalFlag h) (eFlag h) (ui32Index h) (sChildren h) l.
Definition set_ui32Prev i (l : sHandleList) := mkHandleList i (ui32Next l) (hParent l).
Definition set_ui32Next i (l : sHandleList) := mkHandleList (ui32Prev l) i (hParent l).

Definition SET_BATCHED_HANDLE (h : sHandle) : sHandle :=
  set_eInternalFlag (SET_FLAG (eInternalFlag h) INTERNAL_HANDLE_FLAG_BATCHED) h.
Definition SET_UNBATCHED_HANDLE (h : sHandle) : sHandle :=
  set_eInternalFlag (CLEAR_FLAG (eInternalFlag h) INTERNAL_HANDLE_FLAG_BATCHED) h.
Definition SET_BATCHED_HANDLE_PARTIALLY_FREE (h : sHandle) : sHandle :=
  set_eInternalFlag
    (SET_FLAG (eInternalFlag h) INTERNAL_HANDLE_FLAG_BATCHED_PARTIALLY_FREE) h.

Definition set_psHandleArray a (b : PVRSRV_HANDLE_BASE) := mkHandleBase a (psHashTab b)
  (ui32FreeHandCount b) (ui32FirstFreeIndex b) (ui32MaxIndexPlusOne b) (ui32TotalHandCount b)
  (ui32LastFreeIndexPlusOne b) (ui32HandBatchSize b) (ui32TotalHandCountPreBatch b)
  (ui32FirstBatchIndexPlusOne b) (ui32BatchHandAllocFailures b) (bPurgingEnabled b).
Definition set_psHashTab t (b : PVRSRV_HANDLE_BASE) := mkHandleBase (psHandleArray b) t
  (ui32FreeHandCount b) (ui32FirstFreeIndex b) (ui32MaxIndexPlusOne b) (ui32TotalHandCount b)
  (ui32LastFreeIndexPlusOne b) (ui32HandBatchSize b) (ui32TotalHandCountPreBatch b)
  (ui32FirstBatchIndexPlusOne b) (ui32BatchHandAllocFailures b) (bPurgingEnabled b).
(** The free list and the counts. *)
Definition set_free c first total last (b : PVRSRV_HANDLE_BASE) :=
  mkHandleBase (psHandleArray b) (psHashTab b) c first (ui32MaxIndexPlusOne b) total last
  (ui32HandBatchSize b) (ui32TotalHandCountPreBatch b) (ui32FirstBatchIndexPlusOne b)
  (ui32BatchHandAllocFailures b) (bPurgingEnabled b).
Definition set_count c (b : PVRSRV_HANDLE_BASE) := set_free c (ui32FirstFreeIndex b)
  (ui32TotalHandCount b) (ui32LastFreeIndexPlusOne b) b.
Definition set_first i (b : PVRSRV_HANDLE_BASE) := set_free (ui32FreeHandCount b) i
  (ui32TotalHandCount b) (ui32LastFreeIndexPlusOne b) b.
Definition set_total n (b : PVRSRV_HANDLE_BASE) := set_free (ui32FreeHandCount b)
  (ui32FirstFreeIndex b) n (ui32LastFreeIndexPlusOne b) b.
Definition set_last n (b : PVRSRV_HANDLE_BASE) := set_free (ui32FreeHandCount b)
  (ui32FirstFreeIndex b) (ui32TotalHandCount b) n b.
(** The batch fields. *)
Definition set_batch size pre first fails (b : PVRSRV_HANDLE_BASE) :=
  mkHandleBase (psHandleArray b) (psHashTab b) (ui32FreeHandCount b) (ui32FirstFreeIndex b)
  (ui32MaxIndexPlusOne b) (ui32TotalHandCount b) (ui32LastFreeIndexPlusOne b)
  size pre first fails (bPurgingEnabled b).
Definition set_batch_first i (b : PVRSRV_HANDLE_BASE) := set_batch (ui32HandBatchSize b)
  (ui32TotalHandCountPreBatch b) i (ui32BatchHandAllocFailures b) b.
Definition set_batch_fails n (b : PVRSRV_HANDLE_BASE) := set_batch (ui32HandBatchSize b)
  (ui32TotalHandCountPreBatch b) (ui32FirstBatchIndexPlusOne b) n b.
(** The limit and the purging mode. *)
Definition set_limits m p (b : PVRSRV_HANDLE_BASE) := mkHandleBase (psHandleArray b)
  (psHashTab b) (ui32FreeHandCount b) (ui32FirstFreeIndex b) m (ui32TotalHandCount b)
  (ui32LastFreeIndexPlusOne b) (ui32HandBatchSize b) (ui32TotalHandCountPreBatch b)
  (ui32FirstBatchIndexPlusOne b) (ui32BatchHandAllocFailures b) p.

(** ** Access to the structures *)

(** Indices are unsigned. *)
Definition index_at (b : PVRSRV_HANDLE_BASE) (i : Z) : option sHandleIndex :=
  if i <? 0 then None
  else a ← psHandleArray b; a !! Z.to_nat (INDEX_TO_BLOCK_INDEX i).

Definition hand_at (b : PVRSRV_HANDLE_BASE) (i : Z) : option sHandle :=
  ix ← index_at b i; blk ← psHandle ix; blk !! Z.to_nat (INDEX_TO_SUB_BLOCK_INDEX i).

Definition set_index (i : Z) (f : sHandleIndex → sHandleIndex) (b : PVRSRV_HANDLE_BASE) :=
  set_psHandleArray (alter f (Z.to_nat (INDEX_TO_BLOCK_INDEX i)) <$> psHandleArray b) b.

Definition put_hand (i : Z) (h : sHandle) (b : PVRSRV_HANDLE_BASE) : PVRSRV_HANDLE_BASE :=
  set_index i (λ ix, mkHandleIndex
    (<[Z.to_nat (INDEX_TO_SUB_BLOCK_INDEX i) := h]> <$> psHandle ix)
    (ui32FreeHandBlockCount ix)) b.

Definition set_block_count (i c : Z) (b : PVRSRV_HANDLE_BASE) : PVRSRV_HANDLE_BASE :=
  set_index i (λ ix, mkHandleIndex (psHandle ix) c) b.

Definition base {A} (f : PVRSRV_HANDLE_BASE → A) : M hb_st A := gets (λ s, f (hb_base s)).

Definition upd_base (f : PVRSRV_HANDLE_BASE → PVRSRV_HANDLE_BASE) : M hb_st unit :=
  modify (λ s, mk_hb (hb_os s) (f (hb_base s))).

Definition on_os {A} (m : M os A) : M hb_st A :=
  zoom hb_os (λ o s, mk_hb o (hb_base s)) m.

(** A hash-table operation on [psBase->psHashTab]. *)
Definition on_hash {A} (m : M hash_st A) : M hb_st A :=
  zoom (λ s, mk_hash_st (hb_os s) (psHashTab (hb_base s)))
    (λ t s, mk_hb (hs_os t) (set_psHashTab (hs_tab t) (hb_base s))) m.

(** [*INDEX_TO_HANDLE_STRUCT_PTR(psBase, i)] *)
Definition INDEX_TO_HANDLE_STRUCT (i : Z) : M hb_st sHandle :=
  o ← base (λ b, hand_at b i); deref o.

Definition upd_handle (i : Z) (f : sHandle → sHandle) : M hb_st unit :=
  h ← INDEX_TO_HANDLE_STRUCT i; upd_base (put_hand i (f h)).

(** [INDEX_TO_FREE_HAND_BLOCK_COUNT(psBase, i)] *)
Definition INDEX_TO_FREE_HAND_BLOCK_COUNT (i : Z) : M hb_st Z :=
  o ← base (λ b, index_at b i); ix ← deref o; mret (ui32FreeHandBlockCount ix).

Definition upd_block_count (i d : Z) : M hb_st unit :=
  c ← INDEX_TO_FREE_HAND_BLOCK_COUNT i; upd_base (set_block_count i (u32 (c + d))).

(** ** The sub-handle lists

    [LIST_PTR_FROM_INDEX_AND_OFFSET] is the head of the list in the parent
    and the link in every other handle; every call passes the offsets of
    [sChildren] for the parent and of [sSiblings] for an entry. *)

Definition list_of (p i : Z) (h : sHandle) : sHandleList :=
  if i =? p then sChildren h else sSiblings h.

Definition upd_list (p i : Z) (f : sHandleList → sHandleList) : M hb_st unit :=
  upd_handle i (λ h, if i =? p then set_sChildren (f (sChildren h)) h
                     else set_sSiblings (f (sSiblings h)) h).

Definition HandleListInit (i parent : Z) : sHandleList := mkHandleList i i parent.

Definition InitParentList (h : sHandle) : sHandle :=
  set_sChildren (HandleListInit (ui32Index h) (INDEX_TO_HANDLE (ui32Index h))) h.

Definition InitChildEntry (h : sHandle) : sHandle :=
  set_sSiblings (HandleListInit (ui32Index h) IMG_NULL) h.

Definition HandleListIsEmpty (i : Z) (psList : sHandleList) : bool := ui32Next psList =? i.

Definition ParentHandle (h : sHandle) : Z := hParent (sSiblings h).

(** [psIns] is the list head of [ui32InsIndex], [psEntry] the sibling link of
    [ui32EntryIndex]; each assignment reads what the previous ones wrote. *)
Definition HandleListInsertBefore (ui32InsIndex ui32EntryIndex ui32ParentIndex : Z) :
    M hb_st unit :=
  ins ← INDEX_TO_HANDLE_STRUCT ui32InsIndex;
  let prev := ui32Prev (sChildren ins) in
  _ ← INDEX_TO_HANDLE_STRUCT prev;
  upd_handle ui32EntryIndex (λ h, set_sSiblings (set_ui32Prev prev (sSiblings h)) h);;
  upd_handle ui32InsIndex (λ h, set_sChildren (set_ui32Prev ui32EntryIndex (sChildren h)) h);;
  upd_handle ui32EntryIndex (λ h, set_sSiblings (set_ui32Next ui32InsIndex (sSiblings h)) h);;
  upd_list ui32ParentIndex prev (set_ui32Next ui32EntryIndex);;
  upd_handle ui32EntryIndex (λ h, set_sSiblings
    (mkHandleList (ui32Prev (sSiblings h)) (ui32Next (sSiblings h))
       (INDEX_TO_HANDLE ui32ParentIndex)) h).

Definition AdoptChild (psParent psChild : Z) : M hb_st unit :=
  p ← INDEX_TO_HANDLE_STRUCT psParent;
  c ← INDEX_TO_HANDLE_STRUCT psChild;
  let ui32Parent := HANDLE_TO_INDEX (hParent (sChildren p)) in
  HandleListInsertBefore ui32Parent (ui32Index c) ui32Parent.

(** [psEntry] is the sibling link of the structure [e]. *)
Definition HandleListRemove (ui32EntryIndex e : Z) : M hb_st unit :=
  h ← INDEX_TO_HANDLE_STRUCT e;
  let psEntry := sSiblings h in
  if HandleListIsEmpty ui32EntryIndex psEntry then mret tt
  else
    let p := HANDLE_TO_INDEX (hParent psEntry) in
    upd_list p (ui32Prev psEntry) (set_ui32Next (ui32Next psEntry));;
    h' ← INDEX_TO_HANDLE_STRUCT e;
    upd_list p (ui32Next psEntry) (set_ui32Prev (ui32Prev (sSiblings h')));;
    upd_handle e (set_sSiblings (HandleListInit ui32EntryIndex IMG_NULL)).

Definition UnlinkFromParent (psHandle : Z) : M hb_st unit :=
  h ← INDEX_TO_HANDLE_STRUCT psHandle; HandleListRemove (ui32Index h) psHandle.

(** The loop of [HandleListIterate], [ui32Index] being the next entry; a list
    has at most as many entries as the base has handles. *)
Fixpoint iterate_list (fuel : nat) (ui32Parent ui32Index : Z)
    (pfnIterFunc : Z → M hb_st PVRSRV_ERROR) : M hb_st PVRSRV_ERROR :=
  if ui32Index =? ui32Parent then mret PVRSRV_OK
  else
    match fuel with
    | O => out_of_fuel
    | Datatypes.S fuel =>
        h ← INDEX_TO_HANDLE_STRUCT ui32Index;
        let next := ui32Next (list_of ui32Parent ui32Index h) in
        eError ← pfnIterFunc ui32Index;
        if negb (is_OK eError) then mret eError
        else iterate_list fuel ui32Parent next pfnIterFunc
    end.

Definition HandleListIterate (psHead : sHandleList) (pfnIterFunc : Z → M hb_st PVRSRV_ERROR) :
    M hb_st PVRSRV_ERROR :=
  n ← base ui32TotalHandCount;
  iterate_list (Z.to_nat n) (HANDLE_TO_INDEX (hParent psHead)) (ui32Next psHead) pfnIterFunc.

Definition IterateOverChildren (psParent : Z) (pfnIterFunc : Z → M hb_st PVRSRV_ERROR) :
    M hb_st PVRSRV_ERROR :=
  h ← INDEX_TO_HANDLE_STRUCT psParent; HandleListIterate (sChildren h) pfnIterFunc.

(** ** Looking a structure up *)

(** The structure's index, or the error. *)
Definition GetHandleStructure (hHandle : Z) (ty : PVRSRV_HANDLE_TYPE) :
    M hb_st (PVRSRV_ERROR * Z) :=
  let ui32Index := HANDLE_TO_INDEX hHandle in
  valid ← base (λ b, INDEX_IS_VALID b ui32Index);
  if negb valid then mret (PVRSRV_ERROR_HANDLE_INDEX_OUT_OF_RANGE, IMG_NULL)
  else
    h ← INDEX_TO_HANDLE_STRUCT ui32Index;
    if is_NONE (eType h) then mret (PVRSRV_ERROR_HANDLE_NOT_ALLOCATED, IMG_NULL)
    else if negb (is_NONE ty) && negb (bool_decide (ty = eType h))
    then mret (PVRSRV_ERROR_HANDLE_TYPE_MISMATCH, IMG_NULL)
    else mret (PVRSRV_OK, ui32Index).

Definition ParentIfPrivate (h : sHandle) : Z :=
  if TEST_ALLOC_FLAG h PVRSRV_HANDLE_ALLOC_FLAG_PRIVATE then ParentHandle h else IMG_NULL.

Definition InitKey (data : Z) (ty : PVRSRV_HANDLE_TYPE) (parent : Z) : list Z :=
  [u64 data; HANDLE_TYPE_code ty; parent].

Definition FindHandle (data : Z) (ty : PVRSRV_HANDLE_TYPE) (parent : Z) : M hb_st Z :=
  tab ← base psHashTab; HASH_Retrieve_Extended tab (InitKey data ty parent).

(** ** The handle array *)

Section realloc.
Context {heap : HeapContents}.

(** One handle of a fresh block. *)
Definition new_handle (i : Z) : sHandle :=
  let h := heap_contents i in
  mkHandle PVRSRV_HANDLE_TYPE_NONE (pvData h) 0 INTERNAL_HANDLE_FLAG_NONE (eFlag h) i
    (sChildren h) (sSiblings h).

Definition new_block (ui32Index : Z) : list sHandle :=
  (λ ui32SubIndex, new_handle (u32 (Z.of_nat ui32SubIndex + ui32Index))) <$>
    seq 0 (Z.to_nat HANDLE_BLOCK_SIZE).

(** The entries from [ui32Index] on of the new index array, and the error
    of the last allocation that failed. *)
Fixpoint alloc_blocks (n : nat) (ui32Index : Z) (eReturn : PVRSRV_ERROR) :
    M os (list sHandleIndex * PVRSRV_ERROR) :=
  match n with
  | O => mret ([], eReturn)
  | Datatypes.S n =>
      ok ← OSAllocMem;
      '(r, eReturn') ← alloc_blocks n (ui32Index + HANDLE_BLOCK_SIZE)
                         (if ok then eReturn else PVRSRV_ERROR_OUT_OF_MEMORY);
      mret ((if ok : bool then mkHandleIndex (Some (new_block ui32Index)) HANDLE_BLOCK_SIZE
             else mkHandleIndex None 0) :: r, eReturn')
  end.

(** The blocks an array gives up. *)
Fixpoint free_blocks (blocks : list sHandleIndex) : M os unit :=
  match blocks with
  | [] => mret tt
  | psIndex :: r =>
      match psHandle psIndex with Some _ => OSFreeMem | None => mret tt end;;
      free_blocks r
  end.

(** The new array replaces the old one: counts and free list. *)
Definition realloc_commit (psNewArray : option (list sHandleIndex))
    (ui32OldCount ui32NewCount : Z) : M hb_st unit :=
  old ← base psHandleArray;
  (match old with Some _ => on_os OSFreeMem | None => mret tt end);;
  upd_base (set_psHandleArray psNewArray);;
  upd_base (set_total ui32NewCount);;
  b ← base (λ b, b);
  if ui32NewCount >? ui32OldCount then
    upd_base (set_count (u32 (ui32FreeHandCount b + (ui32NewCount - ui32OldCount))));;
    (if ui32FirstFreeIndex b =? 0 then upd_base (set_first ui32OldCount)
     else if negb (bPurgingEnabled b) then
       upd_handle (u32 (ui32LastFreeIndexPlusOne b - 1)) (set_next (u32 (ui32OldCount + 1)))
     else mret tt);;
    (if negb (bPurgingEnabled b) then upd_base (set_last ui32NewCount) else mret tt)
  else
    upd_base (set_count (u32 (ui32FreeHandCount b - (ui32OldCount - ui32NewCount))));;
    (if ui32NewCount =? 0 then upd_base (set_first 0);; upd_base (set_last 0) else mret tt).

Definition ReallocHandleArray (ui32NewCount : Z) : M hb_st PVRSRV_ERROR :=
  b ← base (λ b, b);
  let ui32OldCount := ui32TotalHandCount b in
  if ui32NewCount =? ui32OldCount then mret PVRSRV_OK
  else if negb (ui32NewCount =? 0) && negb (bPurgingEnabled b) && (ui32NewCount <? ui32OldCount)
  then mret PVRSRV_ERROR_INVALID_PARAMS
  else if negb (ui32OldCount mod HANDLE_BLOCK_SIZE =? 0)
       || negb (ui32NewCount mod HANDLE_BLOCK_SIZE =? 0)
  then mret PVRSRV_ERROR_INVALID_PARAMS
  else
    ok ← (if negb (ui32NewCount =? 0) then on_os OSAllocMem else mret true);
    if negb ok then mret PVRSRV_ERROR_OUT_OF_MEMORY
    else
      old ← (if ui32OldCount =? 0 then mret ([] : list sHandleIndex) else deref (psHandleArray b));
      let keep := Z.to_nat (HANDLE_ARRAY_SIZE (Z.min ui32NewCount ui32OldCount)) in
      (if ui32NewCount <? ui32OldCount
       then on_os (free_blocks (drop (Z.to_nat (INDEX_TO_BLOCK_INDEX ui32NewCount)) old))
       else mret tt);;
      '(new, eReturn) ← on_os (alloc_blocks
         (Z.to_nat (INDEX_TO_BLOCK_INDEX ui32NewCount - INDEX_TO_BLOCK_INDEX ui32OldCount))
         ui32OldCount PVRSRV_OK);
      if negb (is_OK eReturn) then
        on_os (free_blocks new);; on_os OSFreeMem;; mret eReturn
      else
        realloc_commit (if ui32NewCount =? 0 then None else Some (take keep old ++ new))
          ui32OldCount ui32NewCount;;
        mret PVRSRV_OK.

Definition FreeHandleArray : M hb_st PVRSRV_ERROR := ReallocHandleArray 0.

Definition IncreaseHandleArraySize (ui32Delta : Z) : M hb_st PVRSRV_ERROR :=
  b ← base (λ b, b);
  let ui32DeltaAdjusted := ROUND_UP_TO_MULTIPLE_OF_BLOCK_SIZE ui32Delta in
  let ui32NewTotalHandCount := u32 (ui32TotalHandCount b + ui32DeltaAdjusted) in
  if (ui32NewTotalHandCount >? ui32MaxIndexPlusOne b)
     || (ui32NewTotalHandCount <=? ui32TotalHandCount b)
  then
    if u32 (ui32MaxIndexPlusOne b - ui32TotalHandCount b) <? ui32Delta
    then mret PVRSRV_ERROR_OUT_OF_MEMORY
    else ReallocHandleArray (ui32MaxIndexPlusOne b)
  else ReallocHandleArray ui32NewTotalHandCount.

Definition EnsureFreeHandles (ui32Free : Z) : M hb_st PVRSRV_ERROR :=
  b ← base (λ b, b);
  if ui32Free >? ui32FreeHandCount b
  then IncreaseHandleArraySize (ui32Free - ui32FreeHandCount b)
  else mret PVRSRV_OK.
End realloc.

(** ** Freeing handles *)

(** The end of [FreeHandle]: the structure goes on the free list. *)
Definition free_slot (ui32Index psHandle : Z) : M hb_st unit :=
  b ← base (λ b, b);
  (if negb (bPurgingEnabled b) then
     (if ui32FreeHandCount b =? 0 then upd_base (set_first ui32Index)
      else upd_handle (u32 (ui32LastFreeIndexPlusOne b - 1)) (set_next (u32 (ui32Index + 1))));;
     upd_base (set_last (u32 (ui32Index + 1)))
   else mret tt);;
  upd_base (set_count (u32 (ui32FreeHandCount b + 1)));;
  upd_block_count ui32Index 1.

(** The recursion descends the sub-handle tree; [fuel] bounds its depth. *)
Fixpoint free_handle (fuel : nat) (psHandle : Z) : M hb_st PVRSRV_ERROR :=
  match fuel with
  | O => out_of_fuel
  | Datatypes.S fuel =>
      h ← INDEX_TO_HANDLE_STRUCT psHandle;
      let aKey := InitKey (pvData h) (eType h) (ParentIfPrivate h) in
      (if negb (TEST_ALLOC_FLAG h PVRSRV_HANDLE_ALLOC_FLAG_MULTI)
          && negb (BATCHED_HANDLE_PARTIALLY_FREE h)
       then _ ← on_hash (HASH_Remove_Extended aKey); mret tt
       else mret tt);;
      UnlinkFromParent psHandle;;
      eError ← IterateOverChildren psHandle (free_handle fuel);
      if negb (is_OK eError) then mret eError
      else
        upd_handle psHandle (set_eType PVRSRV_HANDLE_TYPE_NONE);;
        h' ← INDEX_TO_HANDLE_STRUCT psHandle;
        if BATCHED_HANDLE h' && negb (BATCHED_HANDLE_PARTIALLY_FREE h') then
          upd_handle psHandle SET_BATCHED_HANDLE_PARTIALLY_FREE;; mret PVRSRV_OK
        else
          free_slot (ui32Index h) psHandle;; mret PVRSRV_OK
  end.

Definition FreeHandle (psHandle : Z) : M hb_st PVRSRV_ERROR :=
  n ← base ui32TotalHandCount; free_handle (Z.to_nat n) psHandle.

(** The loop of [FreeAllHandles] from index [i], [n] indices long. *)
Fixpoint free_all_from (n : nat) (i : Z) : M hb_st PVRSRV_ERROR :=
  match n with
  | O => mret PVRSRV_OK
  | Datatypes.S n =>
      h ← INDEX_TO_HANDLE_STRUCT i;
      if is_NONE (eType h) then free_all_from n (i + 1)
      else
        eError ← FreeHandle i;
        if negb (is_OK eError) then mret eError
        else
          b ← base (λ b, b);
          if ui32FreeHandCount b =? ui32TotalHandCount b then mret eError
          else free_all_from n (i + 1)
  end.

Definition FreeAllHandles : M hb_st PVRSRV_ERROR :=
  b ← base (λ b, b);
  if ui32FreeHandCount b =? ui32TotalHandCount b then mret PVRSRV_OK
  else free_all_from (Z.to_nat (ui32TotalHandCount b)) 0.

(** ** Batches *)

(** One handle of the batch list. *)
Definition batch_step (bCommitBatch : bool) (psHandle : Z) : M hb_st unit :=
  upd_handle psHandle (set_next 0);;
  h ← INDEX_TO_HANDLE_STRUCT psHandle;
  if negb bCommitBatch || BATCHED_HANDLE_PARTIALLY_FREE h then
    (if negb (BATCHED_HANDLE_PARTIALLY_FREE h) then upd_handle psHandle SET_UNBATCHED_HANDLE
     else mret tt);;
    _ ← FreeHandle psHandle; mret tt
  else upd_handle psHandle SET_UNBATCHED_HANDLE.

(** The loop over the batch list; [fuel] bounds its length. *)
Fixpoint batch_loop (fuel : nat) (bCommitBatch : bool) (ui32IndexPlusOne : Z) : M hb_st unit :=
  if ui32IndexPlusOne =? 0 then mret tt
  else
    match fuel with
    | O => out_of_fuel
    | Datatypes.S fuel =>
        let psHandle := u32 (ui32IndexPlusOne - 1) in
        h ← INDEX_TO_HANDLE_STRUCT psHandle;
        batch_step bCommitBatch psHandle;;
        batch_loop fuel bCommitBatch (ui32NextIndexPlusOne h)
    end.

Definition PVRSRVHandleBatchCommitOrRelease (bCommit : bool) : M hb_st PVRSRV_ERROR :=
  b ← base (λ b, b);
  if negb (HANDLES_BATCHED b) then mret PVRSRV_ERROR_INVALID_PARAMS
  else
    let bCommitBatch := if negb (ui32BatchHandAllocFailures b =? 0) then false else bCommit in
    batch_loop (Z.to_nat (ui32TotalHandCount b)) bCommitBatch (ui32FirstBatchIndexPlusOne b);;
    upd_base (set_batch 0 0 0 0);;
    n ← base ui32BatchHandAllocFailures;
    if negb (n =? 0) && bCommit then mret PVRSRV_ERROR_HANDLE_BATCH_COMMIT_FAILURE
    else mret PVRSRV_OK.

Definition PVRSRVCommitHandleBatch : M hb_st PVRSRV_ERROR :=
  PVRSRVHandleBatchCommitOrRelease true.

Definition PVRSRVReleaseHandleBatch : M hb_st unit :=
  _ ← PVRSRVHandleBatchCommitOrRelease false; mret tt.

Section alloc.
Context {heap : HeapContents}.

Definition PVRSRVNewHandleBatch (ui32BatchSize : Z) : M hb_st PVRSRV_ERROR :=
  b ← base (λ b, b);
  if HANDLES_BATCHED b then mret PVRSRV_ERROR_HANDLE_BATCH_IN_USE
  else if ui32BatchSize =? 0 then mret PVRSRV_ERROR_INVALID_PARAMS
  else
    eError ← EnsureFreeHandles ui32BatchSize;
    if negb (is_OK eError) then mret eError
    else
      upd_base (λ b, set_batch ui32BatchSize (ui32TotalHandCount b)
        (ui32FirstBatchIndexPlusOne b) (ui32BatchHandAllocFailures b) b);;
      mret PVRSRV_OK.

(** ** The life of a base *)

Definition FreeHandleBase : M hb_st PVRSRV_ERROR :=
  b ← base (λ b, b);
  (if HANDLES_BATCHED b then PVRSRVReleaseHandleBatch else mret tt);;
  eError ← FreeAllHandles;
  if negb (is_OK eError) then mret eError
  else
    eError ← FreeHandleArray;
    if negb (is_OK eError) then mret eError
    else
      tab ← base psHashTab;
      (match tab with Some _ => on_os (HASH_Delete tab) | None => mret tt end);;
      on_os OSFreeMem;;
      mret PVRSRV_OK.

(** [OSMemSet(psBase, 0, sizeof *psBase)] *)
Definition zero_base : PVRSRV_HANDLE_BASE :=
  mkHandleBase None None 0 0 0 0 0 0 0 0 0 false.

Definition PVRSRVFreeHandleBase : M hb_st PVRSRV_ERROR := FreeHandleBase.

Definition PVRSRVAllocHandleBase : M os (PVRSRV_ERROR * option PVRSRV_HANDLE_BASE) :=
  ok ← OSAllocMem;
  if negb ok then mret (PVRSRV_ERROR_OUT_OF_MEMORY, None)
  else
    tab ← HASH_Create_Extended HANDLE_HASH_TAB_INIT_SIZE 24 HASH_Func_Default
            HASH_Key_Comp_Default;
    match tab with
    | None =>
        _ ← zoom (λ o, mk_hb o zero_base) (λ s _, hb_os s) PVRSRVFreeHandleBase;
        mret (PVRSRV_ERROR_UNABLE_TO_CREATE_HASH_TABLE, None)
    | Some _ =>
        mret (PVRSRV_OK, Some (set_limits DEFAULT_MAX_INDEX_PLUS_ONE false
                                 (set_psHashTab tab zero_base)))
    end.

Definition PVRSRVSetMaxHandle (ui32MaxHandle : Z) : M hb_st PVRSRV_ERROR :=
  b ← base (λ b, b);
  if HANDLES_BATCHED b then mret PVRSRV_ERROR_INVALID_PARAMS
  else if (ui32MaxHandle =? 0) || (ui32MaxHandle >? DEFAULT_MAX_HANDLE)
  then mret PVRSRV_ERROR_INVALID_PARAMS
  else if negb (ui32TotalHandCount b =? 0) then mret PVRSRV_ERROR_INVALID_PARAMS
  else
    let r := ROUND_DOWN_TO_MULTIPLE_OF_BLOCK_SIZE ui32MaxHandle in
    (if negb (r =? 0) && (r <? ui32MaxIndexPlusOne b)
     then upd_base (set_limits r (bPurgingEnabled b)) else mret tt);;
    mret PVRSRV_OK.

Definition PVRSRVGetMaxHandle : M hb_st Z := base ui32MaxIndexPlusOne.

Definition PVRSRVEnableHandlePurging : M hb_st PVRSRV_ERROR :=
  b ← base (λ b, b);
  if bPurgingEnabled b then mret PVRSRV_OK
  else if negb (ui32TotalHandCount b =? 0) then mret PVRSRV_ERROR_INVALID_PARAMS
  else upd_base (set_limits (ui32MaxIndexPlusOne b) true);; mret PVRSRV_OK.

(** The block count after the trailing blocks that are wholly free. *)
Fixpoint purge_blocks (n : nat) : M hb_st nat :=
  match n with
  | O => mret O
  | Datatypes.S n' =>
      o ← base (λ b, a ← psHandleArray b; a !! n');
      ix ← deref o;
      if negb (ui32FreeHandBlockCount ix =? HANDLE_BLOCK_SIZE) then mret n
      else purge_blocks n'
  end.

Definition PVRSRVPurgeHandles : M hb_st PVRSRV_ERROR :=
  b ← base (λ b, b);
  if negb (bPurgingEnabled b) then mret PVRSRV_ERROR_NOT_SUPPORTED
  else if HANDLES_BATCHED b then mret PVRSRV_ERROR_INVALID_PARAMS
  else
    ui32BlockIndex ← purge_blocks (Z.to_nat (INDEX_TO_BLOCK_INDEX (ui32TotalHandCount b)));
    let ui32NewHandCount := BLOCK_INDEX_TO_INDEX (Z.of_nat ui32BlockIndex) in
    if ui32NewHandCount <=? ui32TotalHandCount b / 2 then ReallocHandleArray ui32NewHandCount
    else mret PVRSRV_OK.

(** ** Allocating handles *)

(** The inner loop of the search in purging mode: the index and the structure
    it stops at; [n] indices are left. *)
Fixpoint find_in_block (n : nat) (ui32NewIndex psNewHandle : Z) : M hb_st (Z * Z) :=
  match n with
  | O => mret (ui32NewIndex, psNewHandle)
  | Datatypes.S n =>
      h ← INDEX_TO_HANDLE_STRUCT ui32NewIndex;
      if HANDLE_STRUCT_IS_FREE h then mret (ui32NewIndex, ui32NewIndex)
      else find_in_block n (ui32NewIndex + 1) ui32NewIndex
  end.

(** The outer loop, which goes on to the last block whatever it found. *)
Fixpoint find_free (n : nat) (ui32BlockedIndex : Z) (r : Z * option Z) :
    M hb_st (Z * option Z) :=
  match n with
  | O => mret r
  | Datatypes.S n =>
      c ← INDEX_TO_FREE_HAND_BLOCK_COUNT ui32BlockedIndex;
      if c =? 0 then find_free n (ui32BlockedIndex + HANDLE_BLOCK_SIZE) r
      else
        '(i, p) ← find_in_block (Z.to_nat HANDLE_BLOCK_SIZE) ui32BlockedIndex 0;
        find_free n (ui32BlockedIndex + HANDLE_BLOCK_SIZE) (i, Some p)
  end.

(** The index to use and the structure found for it. *)
Definition pick_free : M hb_st (Z * option Z) :=
  b ← base (λ b, b);
  if negb (bPurgingEnabled b) then
    _ ← INDEX_TO_HANDLE_STRUCT (ui32FirstFreeIndex b);
    mret (ui32FirstFreeIndex b, Some (ui32FirstFreeIndex b))
  else
    let start := ROUND_DOWN_TO_MULTIPLE_OF_BLOCK_SIZE (ui32FirstFreeIndex b) in
    r ← find_free (Z.to_nat (INDEX_TO_BLOCK_INDEX (ui32TotalHandCount b - start))) start
          (DEFAULT_MAX_INDEX_PLUS_ONE, None);
    upd_base (set_first 0);;
    mret r.

(** The counts and the free list once [ui32NewIndex] is taken. *)
Definition take_slot (ui32NewIndex psNewHandle : Z) : M hb_st unit :=
  upd_base (λ b, set_count (u32 (ui32FreeHandCount b - 1)) b);;
  upd_block_count ui32NewIndex (-1);;
  b ← base (λ b, b);
  if negb (bPurgingEnabled b) then
    if ui32FreeHandCount b =? 0 then upd_base (set_last 0);; upd_base (set_first 0)
    else
      h ← INDEX_TO_HANDLE_STRUCT psNewHandle;
      upd_base (set_first (if ui32NextIndexPlusOne h =? 0 then u32 (ui32NewIndex + 1)
                           else u32 (ui32NextIndexPlusOne h - 1)))
  else mret tt.

(** The structure [h] initialised for its new owner. *)
Definition init_handle (data : Z) (ty : PVRSRV_HANDLE_TYPE) (flag : Z) (h : sHandle) : sHandle :=
  InitChildEntry (InitParentList
    (mkHandle ty data (ui32NextIndexPlusOne h) INTERNAL_HANDLE_FLAG_NONE flag (ui32Index h)
       (sChildren h) (sSiblings h))).

Definition AllocHandle (data : Z) (ty : PVRSRV_HANDLE_TYPE) (flag hParent : Z) :
    M hb_st (PVRSRV_ERROR * Z) :=
  eError ← EnsureFreeHandles 1;
  if negb (is_OK eError) then mret (eError, IMG_NULL)
  else
    '(ui32NewIndex, found) ← pick_free;
    let hHandle := INDEX_TO_HANDLE ui32NewIndex in
    inserted ← (if negb (TEST_FLAG flag PVRSRV_HANDLE_ALLOC_FLAG_MULTI)
                then on_hash (HASH_Insert_Extended (InitKey data ty hParent) hHandle)
                else mret true);
    if negb inserted then mret (PVRSRV_ERROR_UNABLE_TO_ADD_HANDLE, IMG_NULL)
    else
      psNewHandle ← deref found;
      take_slot ui32NewIndex psNewHandle;;
      upd_handle psNewHandle (init_handle data ty flag);;
      b ← base (λ b, b);
      (if HANDLES_BATCHED b then
         upd_handle psNewHandle (set_next (ui32FirstBatchIndexPlusOne b));;
         upd_base (set_batch_first (u32 (ui32NewIndex + 1)));;
         upd_handle psNewHandle SET_BATCHED_HANDLE
       else upd_handle psNewHandle (set_next 0));;
      mret (PVRSRV_OK, hHandle).

(** [ui32BatchHandAllocFailures] is raised on entry and lowered on success. *)
Definition batch_fail (d : Z) : M hb_st unit :=
  b ← base (λ b, b);
  if HANDLES_BATCHED b then upd_base (set_batch_fails (u32 (ui32BatchHandAllocFailures b + d)))
  else mret tt.

(** The answer carries [*phHandle]. *)
Definition PVRSRVAllocHandle (data : Z) (ty : PVRSRV_HANDLE_TYPE) (flag : Z) :
    M hb_st (PVRSRV_ERROR * Z) :=
  batch_fail 1;;
  hHandle ← (if negb (TEST_FLAG flag PVRSRV_HANDLE_ALLOC_FLAG_MULTI)
             then FindHandle data ty IMG_NULL else mret IMG_NULL);
  if negb (hHandle =? IMG_NULL) then
    '(eError, psHandle) ← GetHandleStructure hHandle ty;
    if negb (is_OK eError) then mret (eError, IMG_NULL)
    else
      h ← INDEX_TO_HANDLE_STRUCT psHandle;
      if TEST_FLAG (Z.land (eFlag h) flag) PVRSRV_HANDLE_ALLOC_FLAG_SHARED
      then batch_fail (-1);; mret (PVRSRV_OK, hHandle)
      else mret (PVRSRV_ERROR_HANDLE_NOT_SHAREABLE, IMG_NULL)
  else
    '(eError, hHandle) ← AllocHandle data ty flag IMG_NULL;
    (if is_OK eError then batch_fail (-1) else mret tt);;
    mret (eError, hHandle).

Definition PVRSRVAllocSubHandle (data : Z) (ty : PVRSRV_HANDLE_TYPE) (flag hParent : Z) :
    M hb_st (PVRSRV_ERROR * Z) :=
  batch_fail 1;;
  let hParentKey := if TEST_FLAG flag PVRSRV_HANDLE_ALLOC_FLAG_PRIVATE
                    then hParent else IMG_NULL in
  '(eError, psPHand) ← GetHandleStructure hParent PVRSRV_HANDLE_TYPE_NONE;
  if negb (is_OK eError) then mret (eError, IMG_NULL)
  else
    hHandle ← (if negb (TEST_FLAG flag PVRSRV_HANDLE_ALLOC_FLAG_MULTI)
               then FindHandle data ty hParentKey else mret IMG_NULL);
    if negb (hHandle =? IMG_NULL) then
      '(eErr, psCHandle) ← GetHandleStructure hHandle ty;
      if negb (is_OK eErr) then mret (eErr, IMG_NULL)
      else
        c ← INDEX_TO_HANDLE_STRUCT psCHandle;
        shared ← (if TEST_FLAG (Z.land (eFlag c) flag) PVRSRV_HANDLE_ALLOC_FLAG_SHARED
                  then h ← INDEX_TO_HANDLE_STRUCT (HANDLE_TO_INDEX hHandle);
                       mret (ParentHandle h =? hParent)
                  else mret false);
        if shared : bool then batch_fail (-1);; mret (PVRSRV_OK, hHandle)
        else mret (PVRSRV_ERROR_HANDLE_NOT_SHAREABLE, IMG_NULL)
    else
      '(eError, hHandle) ← AllocHandle data ty flag hParentKey;
      if negb (is_OK eError) then mret (eError, IMG_NULL)
      else
        AdoptChild (HANDLE_TO_INDEX hParent) (HANDLE_TO_INDEX hHandle);;
        batch_fail (-1);;
        mret (PVRSRV_OK, hHandle).
End alloc.

(** ** The other operations

    [None] stands for an output parameter that is not written. *)

Definition PVRSRVFindHandle (data : Z) (ty : PVRSRV_HANDLE_TYPE) :
    M hb_st (PVRSRV_ERROR * option Z) :=
  hHandle ← FindHandle data ty IMG_NULL;
  mret (if hHandle =? IMG_NULL then (PVRSRV_ERROR_HANDLE_NOT_FOUND, None)
        else (PVRSRV_OK, Some hHandle)).

Definition PVRSRVLookupHandleAnyType (hHandle : Z) :
    M hb_st (PVRSRV_ERROR * option (Z * PVRSRV_HANDLE_TYPE)) :=
  '(eError, psHandle) ← GetHandleStructure hHandle PVRSRV_HANDLE_TYPE_NONE;
  if negb (is_OK eError) then mret (eError, None)
  else h ← INDEX_TO_HANDLE_STRUCT psHandle; mret (PVRSRV_OK, Some (pvData h, eType h)).

Definition PVRSRVLookupHandle (hHandle : Z) (ty : PVRSRV_HANDLE_TYPE) :
    M hb_st (PVRSRV_ERROR * option Z) :=
  '(eError, psHandle) ← GetHandleStructure hHandle ty;
  if negb (is_OK eError) then mret (eError, None)
  else h ← INDEX_TO_HANDLE_STRUCT psHandle; mret (PVRSRV_OK, Some (pvData h)).

(** The walk from a handle to its ancestors. *)
Fixpoint ancestor_loop (fuel : nat) (psPHand hAncestor : Z) : M hb_st bool :=
  h ← INDEX_TO_HANDLE_STRUCT psPHand;
  if ParentHandle h =? hAncestor then mret true
  else
    match fuel with
    | O => out_of_fuel
    | Datatypes.S fuel =>
        '(eError, psPHand) ← GetHandleStructure (ParentHandle h) PVRSRV_HANDLE_TYPE_NONE;
        if negb (is_OK eError) then mret false else ancestor_loop fuel psPHand hAncestor
    end.

Definition PVRSRVLookupSubHandle (hHandle : Z) (ty : PVRSRV_HANDLE_TYPE) (hAncestor : Z) :
    M hb_st (PVRSRV_ERROR * option Z) :=
  '(eError, psCHand) ← GetHandleStructure hHandle ty;
  if negb (is_OK eError) then mret (eError, None)
  else
    n ← base ui32TotalHandCount;
    ok ← ancestor_loop (Z.to_nat n) psCHand hAncestor;
    if negb ok then mret (PVRSRV_ERROR_INVALID_SUBHANDLE, None)
    else h ← INDEX_TO_HANDLE_STRUCT psCHand; mret (PVRSRV_OK, Some (pvData h)).

Definition PVRSRVGetParentHandle (hHandle : Z) (ty : PVRSRV_HANDLE_TYPE) :
    M hb_st (PVRSRV_ERROR * option Z) :=
  '(eError, psHandle) ← GetHandleStructure hHandle ty;
  if negb (is_OK eError) then mret (eError, None)
  else h ← INDEX_TO_HANDLE_STRUCT psHandle; mret (PVRSRV_OK, Some (ParentHandle h)).

Definition PVRSRVLookupAndReleaseHandle (hHandle : Z) (ty : PVRSRV_HANDLE_TYPE) :
    M hb_st (PVRSRV_ERROR * option Z) :=
  '(eError, psHandle) ← GetHandleStructure hHandle ty;
  if negb (is_OK eError) then mret (eError, None)
  else
    h ← INDEX_TO_HANDLE_STRUCT psHandle;
    eError ← FreeHandle psHandle;
    mret (eError, Some (pvData h)).

Definition PVRSRVReleaseHandle (hHandle : Z) (ty : PVRSRV_HANDLE_TYPE) : M hb_st PVRSRV_ERROR :=
  '(eError, psHandle) ← GetHandleStructure hHandle ty;
  if negb (is_OK eError) then mret eError else FreeHandle psHandle.

(** ** The kernel's own base *)

Record kernel_st := mk_kernel { k_os : os; gpsKernelHandleBase : option PVRSRV_HANDLE_BASE }.

Definition kernel_os {A} (m : M os A) : M kernel_st A :=
  zoom k_os (λ o k, mk_kernel o (gpsKernelHandleBase k)) m.

Definition kernel_base {A} (m : M hb_st A) : M kernel_st A := λ k,
  match gpsKernelHandleBase k with
  | None => Fault
  | Some b => zoom (λ k, mk_hb (k_os k) b) (λ s _, mk_kernel (hb_os s) (Some (hb_base s))) m k
  end.

Section kernel.
Context {heap : HeapContents}.

Definition PVRSRVHandleDeInit : M kernel_st PVRSRV_ERROR :=
  k ← get;
  match gpsKernelHandleBase k with
  | None => mret PVRSRV_OK
  | Some _ =>
      eError ← kernel_base FreeHandleBase;
      (if is_OK eError then modify (λ k, mk_kernel (k_os k) None) else mret tt);;
      mret eError
  end.

Definition PVRSRVHandleInit : M kernel_st PVRSRV_ERROR :=
  '(eError, r) ← kernel_os PVRSRVAllocHandleBase;
  (match r with
   | Some b => modify (λ k, mk_kernel (k_os k) (Some b))
   | None => mret tt
   end);;
  if negb (is_OK eError) then _ ← PVRSRVHandleDeInit; mret eError
  else
    eError ← kernel_base PVRSRVEnableHandlePurging;
    if negb (is_OK eError) then _ ← PVRSRVHandleDeInit; mret eError else mret PVRSRV_OK.
End kernel.
