(* ===== verification/HandleRep.v ===== *)
(** * Handle tables: reading and writing structures, circular lists

    The array of blocks seen as one map from indices to structures, and the
    circular list of a parent and its children. *)

From S2P Require Import Prelude Hash Handle.

(** ** The array *)

(** The index array and its blocks have the sizes the counts announce. *)
Definition array_ok (N : Z) (arr : option (list sHandleIndex)) : Prop :=
  match arr with
  | None => N = 0
  | Some a => N ≠ 0 ∧ N = 256 * Z.of_nat (length a) ∧
      Forall (λ ix, ∃ blk, psHandle ix = Some blk ∧ length blk = 256%nat) a
  end.

Definition shape (b : PVRSRV_HANDLE_BASE) : Prop :=
  array_ok (ui32TotalHandCount b) (psHandleArray b) ∧
  0 ≤ ui32TotalHandCount b ≤ ui32MaxIndexPlusOne b ∧
  ui32MaxIndexPlusOne b ≤ 2147483392 ∧ ui32MaxIndexPlusOne b mod 256 = 0.

Lemma block_index i : 0 ≤ i → INDEX_TO_BLOCK_INDEX i = i / 256.
Proof. intros. unfold INDEX_TO_BLOCK_INDEX, DIVIDE_BY_BLOCK_SIZE. by rewrite Z.shiftr_div_pow2. Qed.

Lemma sub_index i : 0 ≤ i → INDEX_TO_SUB_BLOCK_INDEX i = i mod 256.
Proof.
  intros. unfold INDEX_TO_SUB_BLOCK_INDEX, HANDLE_SUB_BLOCK_MASK.
  change 255 with (Z.ones 8). by rewrite Z.land_ones.
Qed.

Lemma testbit_above a n : 0 ≤ a < 4294967296 → 32 ≤ n → Z.testbit a n = false.
Proof.
  intros Ha Hn. destruct (decide (a = 0)) as [->|]; [apply Z.testbit_0_l|].
  apply Z.bits_above_log2; [lia|]. apply Z.lt_le_trans with 32; [|done].
  apply Z.log2_lt_pow2; [lia|]. by apply Ha.
Qed.

Lemma block_mask a : 0 ≤ a < 4294967296 → ROUND_DOWN_TO_MULTIPLE_OF_BLOCK_SIZE a = a - a mod 256.
Proof.
  intros Ha. unfold ROUND_DOWN_TO_MULTIPLE_OF_BLOCK_SIZE, HANDLE_BLOCK_MASK.
  replace (a - a mod 256) with (Z.shiftl (Z.shiftr a 8) 8)
    by (rewrite Z.shiftl_mul_pow2, Z.shiftr_div_pow2 by lia; change (2 ^ 8) with 256;
        pose proof (Z.div_mod a 256); lia).
  change 4294967040 with (Z.shiftl (Z.ones 24) 8).
  apply Z.bits_inj'. intros n Hn. rewrite Z.land_spec, !Z.shiftl_spec by done.
  destruct (Z.ltb_spec n 8).
  { by rewrite (Z.testbit_neg_r (Z.ones 24)), (Z.testbit_neg_r (Z.shiftr a 8)) by lia. }
  rewrite Z.shiftr_spec by lia. replace (n - 8 + 8) with n by lia.
  destruct (Z.ltb_spec n 32); [by rewrite Z.ones_spec_low by lia|].
  rewrite (testbit_above a) by done. apply andb_false_r.
Qed.

Lemma hand_at_alt b i :
  hand_at b i = if i <? 0 then None else
    a ← psHandleArray b; ix ← a !! Z.to_nat (i / 256);
    blk ← psHandle ix; blk !! Z.to_nat (i mod 256).
Proof.
  unfold hand_at, index_at. destruct (Z.ltb_spec i 0); [done|].
  rewrite block_index, sub_index by done. by destruct (psHandleArray b).
Qed.

Lemma hand_at_arr b b' i : psHandleArray b = psHandleArray b' → hand_at b i = hand_at b' i.
Proof. intros Heq. rewrite !hand_at_alt. by rewrite Heq. Qed.

Lemma arr_hand_some N a i :
  array_ok N (Some a) → 0 ≤ i < N →
  ∃ ix blk h, a !! Z.to_nat (i / 256) = Some ix ∧ psHandle ix = Some blk ∧
    length blk = 256%nat ∧ blk !! Z.to_nat (i mod 256) = Some h.
Proof.
  intros (_&HN&Hf) Hi. pose proof (Z.mod_pos_bound i 256).
  destruct (lookup_lt_is_Some_2 a (Z.to_nat (i / 256))) as [ix Hix].
  { pose proof (Z.div_lt_upper_bound i 256 (Z.of_nat (length a))).
    pose proof (Z.div_pos i 256). lia. }
  destruct (Forall_lookup_1 _ _ _ _ Hf Hix) as (blk&Hb&Hlen).
  destruct (lookup_lt_is_Some_2 blk (Z.to_nat (i mod 256))) as [h Hh]; [lia|].
  by exists ix, blk, h.
Qed.

Lemma hand_some b i : shape b → is_Some (hand_at b i) ↔ 0 ≤ i < ui32TotalHandCount b.
Proof.
  intros [Hs _]. rewrite hand_at_alt. destruct (psHandleArray b) as [a|] eqn:Ha; simpl in *.
  2:{ split; [|lia]. destruct (i <? 0); intros [? [=]]. }
  destruct (Z.ltb_spec i 0); [split; [by intros [? [=]]|lia]|]. split.
  - intros [h Hh]. split; [done|]. destruct Hs as (_&->&_).
    destruct (a !! Z.to_nat (i / 256)) eqn:Hl; [|done]. apply lookup_lt_Some in Hl.
    apply Z.nle_gt. intros Hle. pose proof (Z.div_le_lower_bound i 256 (Z.of_nat (length a))). lia.
  - intros Hi. destruct (arr_hand_some _ a i Hs Hi) as (ix&blk&h&->&Hb&_&Hh). simpl.
    rewrite Hb. simpl. rewrite Hh. eauto.
Qed.

Lemma index_split i j : 0 ≤ i → 0 ≤ j →
  Z.to_nat (i / 256) = Z.to_nat (j / 256) → Z.to_nat (i mod 256) = Z.to_nat (j mod 256) → i = j.
Proof.
  intros Hi Hj Hd Hm. pose proof (Z.mod_pos_bound i 256). pose proof (Z.mod_pos_bound j 256).
  pose proof (Z.div_pos i 256). pose proof (Z.div_pos j 256).
  rewrite (Z.div_mod i 256), (Z.div_mod j 256) by lia. lia.
Qed.

Lemma put_hand_arr b i h :
  0 ≤ i → psHandleArray (put_hand i h b) =
  (alter (λ ix, mkHandleIndex (<[Z.to_nat (i mod 256) := h]> <$> psHandle ix)
     (ui32FreeHandBlockCount ix)) (Z.to_nat (i / 256))) <$> psHandleArray b.
Proof. intros. unfold put_hand, set_index. simpl. by rewrite block_index, sub_index. Qed.

Lemma hand_at_put b i h j :
  shape b → is_Some (hand_at b i) →
  hand_at (put_hand i h b) j = if decide (j = i) then Some h else hand_at b j.
Proof.
  intros Hs Hi%hand_some; [|done]. destruct Hs as [Hs _].
  rewrite !hand_at_alt, put_hand_arr by lia.
  destruct (psHandleArray b) as [a|]; simpl in *; [|lia].
  destruct (arr_hand_some _ a i Hs Hi) as (ix&blk&h0&Hix&Hb&Hl&Hh).
  destruct (Z.ltb_spec j 0); [rewrite decide_False by lia; done|].
  destruct (decide (Z.to_nat (i / 256) = Z.to_nat (j / 256))) as [Hd|Hd].
  - rewrite <- Hd, list_lookup_alter, decide_True by done. rewrite Hix. simpl. rewrite Hb. simpl.
    destruct (decide (Z.to_nat (i mod 256) = Z.to_nat (j mod 256))) as [Hm|Hm].
    + pose proof (index_split i j ltac:(lia) ltac:(lia) Hd Hm). subst j.
      rewrite decide_True by done. apply list_lookup_insert_eq. rewrite Hl.
      pose proof (Z.mod_pos_bound i 256). lia.
    + rewrite list_lookup_insert_ne by done. rewrite decide_False; [done|naive_solver].
  - rewrite list_lookup_alter, decide_False by done. rewrite decide_False; [done|naive_solver].
Qed.

Lemma shape_arr N a f k :
  array_ok N (Some a) →
  (∀ ix blk, psHandle ix = Some blk → length blk = 256%nat →
     ∃ blk', psHandle (f ix) = Some blk' ∧ length blk' = 256%nat) →
  array_ok N (Some (alter f k a)).
Proof.
  intros (H0&HN&Hf) Hl. split_and!; [done|by rewrite length_alter|].
  apply Forall_alter; [done|]. intros ix _ (blk&?&?). eauto.
Qed.

Lemma shape_put b i h : shape b → 0 ≤ i → shape (put_hand i h b).
Proof.
  intros [Hs Hm] Hi. split; [|done]. rewrite put_hand_arr by done.
  change (ui32TotalHandCount (put_hand i h b)) with (ui32TotalHandCount b).
  destruct (psHandleArray b); [|done]. apply shape_arr; [done|].
  intros ix blk -> ?. simpl. eexists. split; [done|]. by rewrite length_insert.
Qed.

Lemma shape_count b i c : shape b → shape (set_block_count i c b).
Proof.
  intros [Hs Hm]. split; [|done]. unfold set_block_count, set_index. simpl.
  destruct (psHandleArray b); [|done]. apply shape_arr; [done|].
  intros ix blk -> ?. simpl. eauto.
Qed.

Lemma hand_at_count b i c j : 0 ≤ i → hand_at (set_block_count i c b) j = hand_at b j.
Proof.
  intros Hi. rewrite !hand_at_alt. unfold set_block_count, set_index. simpl.
  rewrite block_index by done. destruct (psHandleArray b) as [a|]; [|done]. simpl.
  destruct (Z.ltb_spec j 0); [done|]. rewrite list_lookup_alter. case_decide as Hd; [|done].
  rewrite Hd. by destruct (a !! Z.to_nat (j / 256)).
Qed.

Lemma index_some b i : is_Some (hand_at b i) → is_Some (index_at b i).
Proof. unfold hand_at. intros [h Hh]. destruct (index_at b i); [by eauto|done]. Qed.

(** ** The accesses *)

Lemma wp_struct i h Q o b :
  hand_at b i = Some h → Q h (mk_hb o b) → wp (INDEX_TO_HANDLE_STRUCT i) Q (mk_hb o b).
Proof. intros Hh HQ. unfold INDEX_TO_HANDLE_STRUCT, base. wp_steps. simpl. rewrite Hh. by apply wp_ret. Qed.

Lemma wp_upd_handle i h f Q o b :
  hand_at b i = Some h → Q tt (mk_hb o (put_hand i (f h) b)) →
  wp (upd_handle i f) Q (mk_hb o b).
Proof.
  intros Hh HQ. unfold upd_handle. wp_step. eapply wp_struct; [done|].
  unfold upd_base. by apply wp_modify.
Qed.

Lemma wp_upd_block_count i d Q o b :
  is_Some (hand_at b i) → (∀ c, Q tt (mk_hb o (set_block_count i c b))) →
  wp (upd_block_count i d) Q (mk_hb o b).
Proof.
  intros [ix Hix]%index_some HQ. unfold upd_block_count, INDEX_TO_FREE_HAND_BLOCK_COUNT, base.
  wp_steps. simpl. rewrite Hix. wp_steps. unfold upd_base. wp_steps. apply HQ.
Qed.

Lemma wp_base {A} (f : PVRSRV_HANDLE_BASE → A) Q o b :
  Q (f b) (mk_hb o b) → wp (base f) Q (mk_hb o b).
Proof. done. Qed.

Lemma wp_upd_base f Q o b : Q tt (mk_hb o (f b)) → wp (upd_base f) Q (mk_hb o b).
Proof. done. Qed.

Lemma wp_on_os {A} (m : M os A) Q o b :
  wp m (λ a o', Q a (mk_hb o' b)) o → wp (on_os m) Q (mk_hb o b).
Proof. intros. unfold on_os. by apply wp_zoom. Qed.

Lemma wp_assoc {S A B C} (m : M S A) (f : A → M S B) (g : B → M S C) Q s :
  wp ((m ≫= f) ≫= g) Q s → wp (m ≫= λ x, f x ≫= g) Q s.
Proof. unfold wp, mbind, M_bind. by destruct (m s). Qed.

Ltac hb_step :=
  first
    [ wp_step
    | apply wp_base; cbn beta
    | apply wp_upd_base; cbn beta ].
Ltac hb_steps := repeat hb_step.

(** ** Handles and indices *)

Lemma HANDLE_TO_INDEX_succ i : 0 ≤ i < 4294967295 → HANDLE_TO_INDEX (i + 1) = i.
Proof. intros. unfold HANDLE_TO_INDEX. rewrite (u32_small (i + 1)), u32_small; unfold is_u32; lia. Qed.

Lemma INDEX_TO_HANDLE_succ i : 0 ≤ i < 4294967295 → INDEX_TO_HANDLE i = i + 1.
Proof. intros. unfold INDEX_TO_HANDLE. apply u64_small. unfold is_u64. lia. Qed.

Lemma HANDLE_TO_INDEX_range h : 0 ≤ HANDLE_TO_INDEX h < 4294967296.
Proof. apply u32_range. Qed.

(** ** Circular lists

    [ring nx pv a l z]: following [nx] from [a] visits [l] and ends in [z],
    and [pv] leads back.  A parent [p] with children [l] is [ring p l p]. *)

Fixpoint ring (nx pv : Z → Z) (a : Z) (l : list Z) (z : Z) : Prop :=
  match l with
  | [] => nx a = z ∧ pv z = a
  | b :: r => nx a = b ∧ pv b = a ∧ ring nx pv b r z
  end.

Lemma ring_app nx pv a l1 b l2 z :
  ring nx pv a (l1 ++ b :: l2) z ↔ ring nx pv a l1 b ∧ ring nx pv b l2 z.
Proof. revert a. induction l1 as [|x l1 IH]; intros a; simpl; [|rewrite IH]; tauto. Qed.

Lemma ring_ext nx pv nx' pv' a l z :
  (∀ x, x ∈ a :: l → nx' x = nx x) → (∀ x, x ∈ z :: l → pv' x = pv x) →
  ring nx pv a l z → ring nx' pv' a l z.
Proof.
  revert a. induction l as [|b l IH]; intros a Hn Hp; simpl.
  - intros [? ?]. by rewrite Hn, Hp by set_solver.
  - intros (?&?&?). rewrite Hn, Hp by set_solver. split_and!; [done..|].
    apply IH; [set_solver..|done].
Qed.

Lemma ring_head nx pv a l z : ring nx pv a l z → nx a = hd z l.
Proof. destruct l; simpl; tauto. Qed.

Lemma ring_snoc nx pv a l x z : ring nx pv a (l ++ [x]) z ↔ ring nx pv a l x ∧ nx x = z ∧ pv z = x.
Proof. apply ring_app. Qed.

(** The last node before [z]. *)
Lemma ring_last_elem nx pv a l z : ring nx pv a l z → pv z = List.last l a.
Proof.
  destruct l as [|x l _] using rev_ind; [by intros [_ ?]|].
  rewrite ring_snoc, List.last_last. by intros (_&_&?).
Qed.

Definition upd (f : Z → Z) (i v : Z) : Z → Z := λ j, if decide (j = i) then v else f j.

Lemma last_in (l : list Z) a : List.last l a = a ∧ l = [] ∨ List.last l a ∈ l.
Proof.
  destruct l as [|x l _] using rev_ind; [by left|right].
  rewrite List.last_last. set_solver.
Qed.

(** Inserting at the end, before the parent. *)
Lemma ring_insert nx pv nx' pv' a l e :
  ring nx pv a l a → NoDup (a :: l) → e ∉ a :: l →
  (∀ j, j ∈ a :: l → nx' j = upd nx (pv a) e j) →
  (∀ j, j ∈ a :: l → pv' j = upd pv a e j) →
  nx' e = a → pv' e = pv a →
  ring nx' pv' a (l ++ [e]) a.
Proof.
  intros Hr Hnd He Hn Hp Hne Hpe. rewrite ring_snoc.
  split; [|split; [done|rewrite Hp by set_solver; unfold upd; by rewrite decide_True]].
  pose proof (ring_last_elem _ _ _ _ _ Hr) as Hlast. unfold upd in *.
  destruct l as [|x l _] using rev_ind; simpl in *.
  - destruct Hr as [_ Hpa]. rewrite Hn, Hpe, Hpa by set_solver. by rewrite decide_True.
  - rewrite ring_snoc in *. rewrite List.last_last in Hlast. destruct Hr as (Hr&_&_).
    split; [|split; [rewrite Hn, Hlast by set_solver; by rewrite decide_True|congruence]].
    rewrite Hlast in *. apply NoDup_cons in Hnd as [Ha Hnd].
    apply NoDup_app in Hnd as (Hl&Hd&_).
    eapply ring_ext; [..|done]; intros j Hj.
    + rewrite Hn by set_solver. rewrite decide_False; [done|]. set_solver.
    + rewrite Hp by set_solver. rewrite decide_False; [done|]. set_solver.
Qed.

(** Unlinking an entry: its neighbours are joined. *)
Lemma ring_remove nx pv nx' pv' a l1 e l2 :
  ring nx pv a (l1 ++ e :: l2) a → NoDup (a :: l1 ++ e :: l2) →
  (∀ j, j ∈ a :: l1 ++ l2 → nx' j = upd nx (pv e) (nx e) j) →
  (∀ j, j ∈ a :: l1 ++ l2 → pv' j = upd pv (nx e) (pv e) j) →
  ring nx' pv' a (l1 ++ l2) a.
Proof.
  intros Hr Hnd Hn Hp. rewrite ring_app in Hr. destruct Hr as [Hr1 Hr2].
  pose proof (ring_last_elem _ _ _ _ _ Hr1) as Hpe.
  pose proof (ring_head _ _ _ _ _ Hr2) as Hne. unfold upd in *.
  apply NoDup_cons in Hnd as [Ha Hnd]. apply NoDup_app in Hnd as (Hl1&Hd&[He Hl2]%NoDup_cons).
  assert (∀ z, (z = nx e) → (z = a ∨ z ∈ l2) → ring nx' pv' a l1 z) as H1.
  { intros z -> Hz. destruct l1 as [|x l1 _] using rev_ind; simpl in *.
    - rewrite Hn, Hp by set_solver. rewrite Hpe. by rewrite !decide_True.
    - rewrite ring_snoc in *. rewrite List.last_last in Hpe. destruct Hr1 as (Hr&_&_).
      rewrite (Hn x), (Hp (nx e)), Hpe by set_solver. rewrite !decide_True by done.
      split; [|done]. apply NoDup_app in Hl1 as (Hl&Hd1&_).
      eapply ring_ext; [..|done]; intros j Hj.
      + rewrite Hn by set_solver. rewrite decide_False; [done|]. set_solver.
      + rewrite Hp by set_solver. rewrite decide_False; [done|].
        destruct Hz as [->|Hz]; set_solver. }
  destruct l2 as [|y l2]; simpl in *.
  - rewrite app_nil_r. apply H1; auto.
  - rewrite ring_app. rewrite Hne in *. split; [apply H1; [done|right; set_solver]|].
    destruct Hr2 as (_&_&Hr2). apply NoDup_cons in Hl2 as [Hy Hl2].
    eapply ring_ext; [..|done]; intros j Hj.
    + rewrite Hn by set_solver. rewrite decide_False; [done|]. rewrite Hpe.
      destruct (last_in l1 a) as [[-> _]|]; set_solver.
    + rewrite Hp by set_solver. rewrite decide_False; [done|]. set_solver.
Qed.
