(* ===== verification/HandleInv.v ===== *)
(** * Handle tables: the invariant

    A handle base represents a map from slot numbers to entries.  The
    invariant is split into the sub-handle tree and the partition of the
    slots, which speak of the entries only, the structures in memory, the
    free list, and the hash table of handles. *)

From S2P Require Import Prelude Hash Handle HandleRep.

(** ** Entries

    [e_type] is NONE for a batched handle that was released before its batch
    ended: its slot is not free yet.  [e_hashed]: the hash table has the
    entry.  [e_parent] is the slot of the parent. *)

Record ent := mkEnt {
  e_type : PVRSRV_HANDLE_TYPE;
  e_data : Z;
  e_flag : Z;
  e_parent : option Z;
  e_batched : bool;
  e_hashed : bool }.

Definition parent_handle (o : option Z) : Z :=
  match o with Some p => p + 1 | None => 0 end.

Definition ent_key (e : ent) : list Z :=
  InitKey (e_data e) (e_type e)
    (if TEST_FLAG (e_flag e) PVRSRV_HANDLE_ALLOC_FLAG_PRIVATE
     then parent_handle (e_parent e) else IMG_NULL).

Definition is_multi (e : ent) : bool := TEST_FLAG (e_flag e) PVRSRV_HANDLE_ALLOC_FLAG_MULTI.

Definition orphan (e : ent) : ent :=
  mkEnt (e_type e) (e_data e) (e_flag e) None (e_batched e) (e_hashed e).
Definition unhash (e : ent) : ent :=
  mkEnt (e_type e) (e_data e) (e_flag e) (e_parent e) (e_batched e) false.
Definition partial (e : ent) : ent :=
  mkEnt PVRSRV_HANDLE_TYPE_NONE (e_data e) (e_flag e) None true false.
Definition unbatch (e : ent) : ent :=
  mkEnt (e_type e) (e_data e) (e_flag e) (e_parent e) false (e_hashed e).
Definition adopt (p : Z) (e : ent) : ent :=
  mkEnt (e_type e) (e_data e) (e_flag e) (Some p) (e_batched e) (e_hashed e).

(** [eInternalFlag] of an entry. *)
Definition iflag (e : ent) : Z :=
  if is_NONE (e_type e) then 3 else if e_batched e then 1 else 0.

(** [desc m a j]: the entry [j] is [a] or a sub-handle below it. *)
Inductive desc (m : gmap Z ent) (a : Z) : Z → Prop :=
| desc_refl : desc m a a
| desc_step j e p : m !! j = Some e → e_parent e = Some p → desc m a p → desc m a j.

(** ** The tree and the partition *)

Record tree_ok (m : gmap Z ent) (kids : Z → list Z) (rk : Z → nat) : Prop := {
  t_kids p c : c ∈ kids p ↔ ∃ ec, m !! c = Some ec ∧ e_parent ec = Some p;
  t_nodup p : NoDup (kids p);
  t_par c ec p : m !! c = Some ec → e_parent ec = Some p →
    (∃ ep, m !! p = Some ep ∧ e_type ep ≠ PVRSRV_HANDLE_TYPE_NONE) ∧ (rk p < rk c)%nat;
  t_partial i e : m !! i = Some e → e_type e = PVRSRV_HANDLE_TYPE_NONE →
    e_parent e = None ∧ e_batched e = true }.

Record part_ok (N : Z) (m : gmap Z ent) (fl bl : list Z) : Prop := {
  p_part i : 0 ≤ i < N ↔ i ∈ fl ∨ is_Some (m !! i);
  p_disj i : i ∈ fl → m !! i = None;
  p_nodup : NoDup fl;
  p_bl_nodup : NoDup bl;
  p_bl i : i ∈ bl ↔ ∃ e, m !! i = Some e ∧ e_batched e = true }.

(** ** The structures *)

Definition heapv : Type := Z → option sHandle.

(** A list field: [(true, i)] is [sChildren] of [i], [(false, i)] its
    [sSiblings]; [node p j] is the one that links [j] into the list of [p]. *)
Definition cell (H : heapv) (n : bool * Z) : option sHandleList :=
  (λ h, if n.1 then sChildren h else sSiblings h) <$> H n.2.
Definition node (p j : Z) : bool * Z := (j =? p, j).
Definition cnx (H : heapv) (n : bool * Z) : Z := from_option ui32Next (-1) (cell H n).
Definition cpv (H : heapv) (n : bool * Z) : Z := from_option ui32Prev (-1) (cell H n).
Definition lnx (H : heapv) (p j : Z) : Z := cnx H (node p j).
Definition lpv (H : heapv) (p j : Z) : Z := cpv H (node p j).

(** [ui32NextIndexPlusOne] of a slot. *)
Definition hn (H : heapv) (i : Z) : Z := from_option ui32NextIndexPlusOne (-1) (H i).

Record slot_ok (i : Z) (e : ent) (h : sHandle) : Prop := {
  so_type : eType h = e_type e;
  so_data : pvData h = e_data e;
  so_flag : eFlag h = e_flag e;
  so_index : ui32Index h = i;
  so_iflag : eInternalFlag h = iflag e;
  so_next : e_batched e = false → ui32NextIndexPlusOne h = 0;
  so_children : hParent (sChildren h) = i + 1;
  so_parent : hParent (sSiblings h) = parent_handle (e_parent e);
  so_root : e_parent e = None → sSiblings h = mkHandleList i i 0 }.

Record heap_ok (H : heapv) (m : gmap Z ent) (kids : Z → list Z) (fl : list Z) : Prop := {
  h_slot i e : m !! i = Some e → ∃ h, H i = Some h ∧ slot_ok i e h;
  h_free i : i ∈ fl → ∃ h, H i = Some h ∧ eType h = PVRSRV_HANDLE_TYPE_NONE ∧ ui32Index h = i;
  h_ring p : is_Some (m !! p) → ring (lnx H p) (lpv H p) p (kids p) p }.

(** ** The free list and the batch list *)

Fixpoint fchain (H : heapv) (fl : list Z) : Prop :=
  match fl with
  | [] => True
  | x :: r =>
      match r with
      | [] => hn H x = 0
      | y :: _ => (hn H x = y + 1 ∨ hn H x = 0 ∧ y = x + 1) ∧ fchain H r
      end
  end.

Record free_ok (H : heapv) (first lastp cnt : Z) (fl : list Z) : Prop := {
  f_first : first = hd 0 fl;
  f_last : lastp = match last fl with Some x => x + 1 | None => 0 end;
  f_count : cnt = Z.of_nat (length fl);
  f_chain : fchain H fl }.

Fixpoint bchain (H : heapv) (first : Z) (bl : list Z) : Prop :=
  match bl with
  | [] => first = 0
  | x :: r => first = x + 1 ∧ bchain H (hn H x) r
  end.

(** ** The hash table *)

Definition keyed (m : gmap Z ent) (km : gmap (list Z) Z) : Prop :=
  ∀ k v, km !! k = Some v ↔ ∃ i e, m !! i = Some e ∧ e_hashed e = true ∧
    ent_key e = k ∧ v = i + 1.

Definition hash_ok (t : option HASH_TABLE) (km : gmap (list Z) Z) : Prop :=
  ∃ tab, t = Some tab ∧ hash_rep tab km ∧ uKeySize tab = 24.

(** Which entries are in the table: a sub-handle whenever it is not MULTI. *)
Definition hashed_ok (m : gmap Z ent) : Prop :=
  ∀ i e, m !! i = Some e →
    (e_hashed e = true → is_multi e = false ∧ e_type e ≠ PVRSRV_HANDLE_TYPE_NONE) ∧
    (is_Some (e_parent e) → e_hashed e = negb (is_multi e)).

(** The kernel blocks the base owns, its own structure and the two blocks of
    the hash table apart. *)
Definition array_blocks (b : PVRSRV_HANDLE_BASE) : Z :=
  match psHandleArray b with Some a => 1 + Z.of_nat (length a) | None => 0 end.

Record hinv (L : Z) (st : hb_st) (m : gmap Z ent) (kids : Z → list Z) (rk : Z → nat)
    (fl bl : list Z) (km : gmap (list Z) Z) : Prop := {
  i_shape : shape (hb_base st);
  i_tree : tree_ok m kids rk;
  i_part : part_ok (ui32TotalHandCount (hb_base st)) m fl bl;
  i_heap : heap_ok (hand_at (hb_base st)) m kids fl;
  i_free : free_ok (hand_at (hb_base st)) (ui32FirstFreeIndex (hb_base st))
    (ui32LastFreeIndexPlusOne (hb_base st)) (ui32FreeHandCount (hb_base st)) fl;
  i_hash : hash_ok (psHashTab (hb_base st)) km;
  i_keyed : keyed m km;
  i_hashed : hashed_ok m;
  i_purge : bPurgingEnabled (hb_base st) = false;
  i_live : os_live (hb_os st) = L + array_blocks (hb_base st) + Z.of_nat (size km) }.

(** ** The tree *)

Section tree.
Context (m : gmap Z ent) (kids : Z → list Z) (rk : Z → nat) (Ht : tree_ok m kids rk).

Lemma desc_rk a j : desc m a j → a = j ∨ (rk a < rk j)%nat.
Proof.
  induction 1 as [|j e p Hj Hp Hd IH]; [by left|right].
  pose proof (proj2 (t_par _ _ _ Ht _ _ _ Hj Hp)). destruct IH as [->|]; lia.
Qed.

Lemma desc_trans a b c : desc m a b → desc m b c → desc m a c.
Proof. intros Hab. induction 1; [done|]. by eapply desc_step. Qed.

(** The path to the root is a line. *)
Lemma desc_linear a b j : desc m a j → desc m b j → desc m a b ∨ desc m b a.
Proof.
  intros Ha. revert b. induction Ha as [|j e p Hj Hp Hd IH]; intros b Hb; [by right|].
  inversion Hb as [|? e' p' Hj' Hp' Hd']; subst; [left; by eapply desc_step|].
  simplify_eq. auto.
Qed.

Lemma desc_kid_parent p c : c ∈ kids p → ¬ desc m c p.
Proof.
  intros (ec&Hc&Hp)%(t_kids _ _ _ Ht) Hd.
  pose proof (proj2 (t_par _ _ _ Ht _ _ _ Hc Hp)). destruct (desc_rk _ _ Hd); subst; lia.
Qed.

(** Siblings have disjoint subtrees. *)
Lemma desc_disjoint p c d j : c ∈ kids p → d ∈ kids p → c ≠ d → desc m c j → ¬ desc m d j.
Proof.
  assert (∀ c d, c ∈ kids p → d ∈ kids p → c ≠ d → ¬ desc m c d) as Hno.
  { intros c' d' Hc Hd Hne Hcd. inversion Hcd as [|? e' p' Hj' Hp' Hd']; subst; [done|].
    apply (t_kids _ _ _ Ht) in Hd as (ed&?&?). simplify_eq. by apply (desc_kid_parent p c'). }
  intros Hc Hd Hne Hcj Hdj. destruct (desc_linear _ _ _ Hcj Hdj); [by apply (Hno c d)|].
  apply (Hno d c); auto.
Qed.

Lemma desc_kids i j : desc m i j ↔ j = i ∨ ∃ c, c ∈ kids i ∧ desc m c j.
Proof.
  split.
  - induction 1 as [|j e p Hj Hp Hd IH]; [by left|]. right.
    destruct IH as [->|(c&Hc&Hcp)].
    + exists j. split; [|constructor]. apply (t_kids _ _ _ Ht). eauto.
    + exists c. split; [done|]. by eapply desc_step.
  - intros [->|(c&(ec&Hc&Hp)%(t_kids _ _ _ Ht)&Hd)]; [constructor|].
    eapply desc_trans; [|done]. eapply desc_step; [done..|constructor].
Qed.

Lemma desc_some a j : is_Some (m !! a) → desc m a j → is_Some (m !! j).
Proof. intros Ha. induction 1; eauto. Qed.
End tree.

(** Descendants in a map that agrees on the subtree. *)
Lemma desc_agree m m' a j :
  (∀ k e p, desc m a k → m !! k = Some e → e_parent e = Some p → k ≠ a →
     ∃ e', m' !! k = Some e' ∧ e_parent e' = Some p) →
  desc m a j → desc m' a j.
Proof.
  intros Hag Hd. assert (desc m a j) as Hd' by done. revert Hd'.
  induction Hd as [|j e p Hj Hp Hd IH]; intros Hd'; [constructor|].
  destruct (decide (j = a)) as [->|Hne]; [constructor|].
  destruct (Hag _ _ _ Hd' Hj Hp Hne) as (e'&?&?). eapply desc_step; [done..|]. auto.
Qed.

(** A map with fewer parent links has fewer descendants. *)
Lemma desc_mono m m' a j :
  (∀ k e' p, m' !! k = Some e' → e_parent e' = Some p →
     ∃ e, m !! k = Some e ∧ e_parent e = Some p) →
  desc m' a j → desc m a j.
Proof.
  intros Hm. induction 1 as [|j e p Hj Hp Hd IH]; [constructor|].
  destruct (Hm _ _ _ Hj Hp) as (?&?&?). by eapply desc_step.
Qed.

(** The children that are left. *)
Definition is_kid (m : gmap Z ent) (p c : Z) : bool :=
  match m !! c with Some e => bool_decide (e_parent e = Some p) | None => false end.
Definition kids_of (m : gmap Z ent) (kids : Z → list Z) (p : Z) : list Z :=
  filter (λ c, is_kid m p c = true) (kids p).

Lemma is_kid_true m p c : is_kid m p c = true ↔ ∃ e, m !! c = Some e ∧ e_parent e = Some p.
Proof.
  unfold is_kid. destruct (m !! c) as [e|]; [|naive_solver].
  rewrite bool_decide_eq_true. naive_solver.
Qed.
