(* ===== verification/HandleOps.v ===== *)
(** * Handle tables: linking and unlinking sub-handles

    What the list operations do to the structures, and that they carry the
    invariant from one tree to the next. *)

From S2P Require Import Prelude Hash Handle HandleRep HandleInv.

(** ** Writes to the list fields *)

Definition core_of (h : sHandle) :=
  (eType h, pvData h, ui32NextIndexPlusOne h, eInternalFlag h, eFlag h, ui32Index h).

(** [H'] is [H] with every list field [n] mapped through [g n]. *)
Definition lwrite (H H' : heapv) (g : bool * Z → sHandleList → sHandleList) : Prop := ∀ j,
  match H j, H' j with
  | Some h, Some h' => core_of h' = core_of h ∧
      sChildren h' = g (true, j) (sChildren h) ∧ sSiblings h' = g (false, j) (sSiblings h)
  | None, None => True
  | _, _ => False
  end.

Definition wr (n : bool * Z) (f : sHandleList → sHandleList) : bool * Z → sHandleList → sHandleList :=
  λ n' l, if decide (n' = n) then f l else l.

(** The fields of the base other than the array. *)
Definition rest (b : PVRSRV_HANDLE_BASE) : PVRSRV_HANDLE_BASE := set_psHandleArray None b.

Record lstep (b b' : PVRSRV_HANDLE_BASE) (g : bool * Z → sHandleList → sHandleList) : Prop := {
  l_shape : shape b';
  l_rest : rest b' = rest b;
  l_blocks : array_blocks b' = array_blocks b;
  l_write : lwrite (hand_at b) (hand_at b') g }.

Lemma lwrite_cell H H' g n : lwrite H H' g → cell H' n = g n <$> cell H n.
Proof.
  intros Hw. destruct n as [k j]. specialize (Hw j). unfold cell. simpl.
  destruct (H j), (H' j); try done. destruct Hw as (_&?&?). destruct k; simpl; congruence.
Qed.

Lemma lwrite_trans H1 H2 H3 g g' :
  lwrite H1 H2 g → lwrite H2 H3 g' → lwrite H1 H3 (λ n l, g' n (g n l)).
Proof.
  intros H12 H23 j. specialize (H12 j). specialize (H23 j).
  destruct (H1 j), (H2 j), (H3 j); try done.
  destruct H12 as (?&?&?), H23 as (?&?&?). split_and!; congruence.
Qed.

Lemma lstep_trans b1 b2 b3 g g' :
  lstep b1 b2 g → lstep b2 b3 g' → lstep b1 b3 (λ n l, g' n (g n l)).
Proof.
  intros [] []. split; [done|congruence..|]. by eapply lwrite_trans.
Qed.

Lemma lwrite_some H H' g j h :
  lwrite H H' g → H j = Some h →
  ∃ h', H' j = Some h' ∧ core_of h' = core_of h ∧
    sChildren h' = g (true, j) (sChildren h) ∧ sSiblings h' = g (false, j) (sSiblings h).
Proof. intros Hw Hh. specialize (Hw j). rewrite Hh in Hw. destruct (H' j); [eauto|done]. Qed.

Lemma lwrite_hn H H' g j : lwrite H H' g → hn H' j = hn H j.
Proof.
  intros Hw. specialize (Hw j). unfold hn. destruct (H j), (H' j); try done.
  destruct Hw as (Hc&_). unfold core_of in Hc. simpl. congruence.
Qed.

Lemma array_blocks_put b i h : array_blocks (put_hand i h b) = array_blocks b.
Proof.
  unfold array_blocks, put_hand, set_index. simpl. destruct (psHandleArray b); [|done].
  simpl. by rewrite length_alter.
Qed.

Lemma lstep_put b i h h' n f :
  shape b → hand_at b i = Some h → n.2 = i → core_of h' = core_of h →
  sChildren h' = wr n f (true, i) (sChildren h) → sSiblings h' = wr n f (false, i) (sSiblings h) →
  lstep b (put_hand i h' b) (wr n f).
Proof.
  intros Hs Hh Hn Hc H1 H2. assert (0 ≤ i) by (apply (hand_some b i Hs); eauto).
  split; [by apply shape_put|done|apply array_blocks_put|].
  intros j. rewrite hand_at_put by eauto. destruct (decide (j = i)) as [->|Hne].
  - by rewrite Hh.
  - destruct (hand_at b j); [|done]. unfold wr. destruct n as [k n]. simpl in *. subst n.
    rewrite !decide_False by naive_solver. done.
Qed.

Lemma wp_upd_list p i f h Q o b :
  shape b → hand_at b i = Some h →
  (∀ b', lstep b b' (wr (node p i) f) → Q tt (mk_hb o b')) →
  wp (upd_list p i f) Q (mk_hb o b).
Proof.
  intros Hs Hh HQ. unfold upd_list. eapply wp_upd_handle; [done|]. apply HQ.
  apply lstep_put with h; [done..| | |]; unfold wr, node; destruct (Z.eqb_spec i p); simpl; try done;
    by rewrite ?decide_True, ?decide_False by naive_solver.
Qed.

Lemma wp_upd_siblings i f h Q o b :
  shape b → hand_at b i = Some h →
  (∀ b', lstep b b' (wr (false, i) f) → Q tt (mk_hb o b')) →
  wp (upd_handle i (λ h, set_sSiblings (f (sSiblings h)) h)) Q (mk_hb o b).
Proof.
  intros Hs Hh HQ. eapply wp_upd_handle; [done|]. apply HQ.
  apply lstep_put with h; [done..| |]; unfold wr; simpl;
    by rewrite ?decide_True, ?decide_False by naive_solver.
Qed.

Lemma wp_upd_children i f h Q o b :
  shape b → hand_at b i = Some h →
  (∀ b', lstep b b' (wr (true, i) f) → Q tt (mk_hb o b')) →
  wp (upd_handle i (λ h, set_sChildren (f (sChildren h)) h)) Q (mk_hb o b).
Proof.
  intros Hs Hh HQ. eapply wp_upd_handle; [done|]. apply HQ.
  apply lstep_put with h; [done..| |]; unfold wr; simpl;
    by rewrite ?decide_True, ?decide_False by naive_solver.
Qed.

(** The list fields of an entry changed, nothing else. *)
Lemma slot_ok_lists i e e' h h' :
  slot_ok i e h → core_of h' = core_of h →
  (e_type e', e_data e', e_flag e', e_batched e') = (e_type e, e_data e, e_flag e, e_batched e) →
  hParent (sChildren h') = hParent (sChildren h) →
  hParent (sSiblings h') = parent_handle (e_parent e') →
  (e_parent e' = None → sSiblings h' = mkHandleList i i 0) →
  slot_ok i e' h'.
Proof.
  intros [] Hc He ???. unfold core_of in Hc. injection Hc as ? ? ? ? ? ?.
  injection He as Ht ? ? Hb.
  split; try done; try congruence; [unfold iflag in *; rewrite Ht, Hb; congruence|].
  intros ?. rewrite <- so_next; congruence.
Qed.

Lemma free_core H H' i :
  (∀ h, H i = Some h → ∃ h', H' i = Some h' ∧ core_of h' = core_of h) →
  (∃ h, H i = Some h ∧ eType h = PVRSRV_HANDLE_TYPE_NONE ∧ ui32Index h = i) →
  ∃ h, H' i = Some h ∧ eType h = PVRSRV_HANDLE_TYPE_NONE ∧ ui32Index h = i.
Proof.
  intros Hc (h&(h'&?&He)%Hc&?&?). exists h'. unfold core_of in He.
  injection He as ? ? ? ? ? ?. split_and!; congruence.
Qed.

(** ** Unlinking *)

Lemma ring_at nx pv p l1 i l2 :
  ring nx pv p (l1 ++ i :: l2) p → pv i = List.last l1 p ∧ nx i = hd p l2.
Proof.
  rewrite ring_app. intros [H1 H2].
  split; [by eapply ring_last_elem|by eapply ring_head].
Qed.

Lemma filter_ne (l : list Z) i : i ∉ l → filter (λ c, c ≠ i) l = l.
Proof.
  induction l as [|x l IH]; [done|]. intros Hn. rewrite filter_cons_True, IH by set_solver. done.
Qed.

Lemma filter_ne_split (l1 l2 : list Z) i :
  NoDup (l1 ++ i :: l2) → filter (λ c, c ≠ i) (l1 ++ i :: l2) = l1 ++ l2.
Proof.
  intros (H1&Hd&[Hi Hl2]%NoDup_cons)%NoDup_app.
  rewrite filter_app, filter_cons_False, !filter_ne by set_solver. done.
Qed.

Lemma node_ne p q j : j ≠ p → j ≠ q → node p j = node q j.
Proof. intros. unfold node. by rewrite !(proj2 (Z.eqb_neq _ _)) by done. Qed.

Section nodes.
Context (m : gmap Z ent) (kids : Z → list Z) (rk : Z → nat) (Ht : tree_ok m kids rk).

(** The nodes of two different lists are different fields. *)
Lemma node_disjoint p q j k :
  p ≠ q → (j = p ∨ j ∈ kids p) → (k = q ∨ k ∈ kids q) → node p j ≠ node q k.
Proof.
  intros Hpq Hj Hk [= Heq ->]. destruct Hj as [->|Hj].
  - rewrite Z.eqb_refl in Heq. symmetry in Heq. by apply Z.eqb_eq in Heq.
  - destruct Hk as [->|Hk].
    + rewrite Z.eqb_refl in Heq. by apply Z.eqb_eq in Heq.
    + apply (t_kids _ _ _ Ht) in Hj as (?&?&?), Hk as (?&?&?). simplify_eq.
Qed.

Lemma kid_split p c e :
  m !! c = Some e → e_parent e = Some p →
  ∃ l1 l2, kids p = l1 ++ c :: l2 ∧ c ≠ p ∧ p ∉ kids p ∧ NoDup (p :: l1 ++ c :: l2).
Proof.
  intros Hc Hp. assert (c ∈ kids p) as Hin by (apply (t_kids _ _ _ Ht); eauto).
  assert (p ∉ kids p) as Hpp.
  { intros Hn. by apply (desc_kid_parent _ _ _ Ht p p Hn), desc_refl. }
  pose proof (t_nodup _ _ _ Ht p) as Hnd.
  apply list_elem_of_split in Hin as (l1&l2&Heq).
  exists l1, l2. split_and!; [done|by intros ->; rewrite Heq in Hpp; set_solver|done|].
  rewrite Heq in *. by constructor.
Qed.

End nodes.

Section unlink.
Context (H H' : heapv) (m : gmap Z ent) (kids : Z → list Z) (rk : Z → nat) (fl : list Z).
Context (Ht : tree_ok m kids rk) (Hh : heap_ok H m kids fl).

(** The three writes of [HandleListRemove]. *)
Definition unlink_write (p pr nx i : Z) : bool * Z → sHandleList → sHandleList := λ n l,
  wr (false, i) (λ _, HandleListInit i IMG_NULL) n
    (wr (node p nx) (set_ui32Prev pr) n (wr (node p pr) (set_ui32Next nx) n l)).

Lemma heap_unlink i e p :
  m !! i = Some e → e_parent e = Some p →
  lwrite H H' (unlink_write p (cpv H (false, i)) (cnx H (false, i)) i) →
  heap_ok H' (<[i := orphan e]> m) (λ q, filter (λ c, c ≠ i) (kids q)) fl.
Proof.
  intros Hi Hp Hw. destruct (kid_split m kids rk Ht _ _ _ Hi Hp) as (l1&l2&Hk&Hip&Hpp&Hnd).
  destruct (proj1 (t_par _ _ _ Ht _ _ _ Hi Hp)) as (ep&Hpm&_).
  pose proof (h_ring _ _ _ _ Hh p ltac:(eauto)) as Hr. rewrite Hk in Hr.
  destruct (ring_at _ _ _ _ _ _ Hr) as [Hpr Hnx].
  assert (node p i = (false, i)) as Hni by (unfold node; by rewrite (proj2 (Z.eqb_neq _ _))).
  unfold lpv, lnx in Hpr, Hnx. rewrite Hni in Hpr, Hnx.
  set (pr := cpv H (false, i)) in *. set (nx := cnx H (false, i)) in *.
  assert (pr = p ∨ pr ∈ kids p ∧ pr ≠ i) as Hpr'.
  { rewrite Hpr, Hk. destruct (last_in l1 p) as [[-> _]|Hin]; [by left|right].
    split; [set_solver|]. intros Heq. rewrite Heq in Hin.
    apply NoDup_cons in Hnd as [_ Hnd]. apply NoDup_app in Hnd as (_&Hd&_). set_solver. }
  assert (nx = p ∨ nx ∈ kids p ∧ nx ≠ i) as Hnx'.
  { rewrite Hnx, Hk. destruct l2 as [|y l2]; [by left|right]. simpl.
    split; [set_solver|]. intros ->.
    apply NoDup_cons in Hnd as [_ Hnd]. apply NoDup_app in Hnd as (_&_&[Hn _]%NoDup_cons). set_solver. }
  assert (∀ q j, (j = q ∨ j ∈ kids q) → j ≠ i ∨ q = i →
    (q ≠ p → lnx H' q j = lnx H q j ∧ lpv H' q j = lpv H q j) ∧
    (q = p → lnx H' q j = upd (lnx H p) pr nx j ∧ lpv H' q j = upd (lpv H p) nx pr j)) as Hcell.
  { intros q j Hj Hji. assert (node q j ≠ (false, i)) as Hn1.
    { unfold node. destruct Hji as [?| ->]; [naive_solver|]. destruct Hj as [->|Hj].
      - rewrite Z.eqb_refl. naive_solver.
      - intros [= Heq ->]. by apply (desc_kid_parent _ _ _ Ht i i Hj), desc_refl. }
    split.
    - intros Hqp. unfold lnx, lpv, cnx, cpv. rewrite (lwrite_cell _ _ _ _ Hw).
      destruct (cell H (node q j)) as [l|]; [|done]. simpl.
      unfold unlink_write, wr. rewrite (decide_False (P := node q j = (false, i))) by done.
      by rewrite !decide_False by (eapply (node_disjoint m kids rk); [done|done|done|tauto]).
    - intros ->. unfold lnx, lpv, cnx, cpv, upd. rewrite (lwrite_cell _ _ _ _ Hw).
      assert (∀ k, node p j = node p k ↔ j = k) as Hnk by (unfold node; naive_solver).
      assert (is_Some (cell H (node p j))) as [l Hl].
      { unfold cell. apply fmap_is_Some. destruct Hj as [->|Hj].
        - destruct (h_slot _ _ _ _ Hh _ _ Hpm) as (?&?&_). eauto.
        - apply (t_kids _ _ _ Ht) in Hj as (ec&Hc&_).
          destruct (h_slot _ _ _ _ Hh _ _ Hc) as (?&?&_). eauto. }
      rewrite Hl. simpl. unfold unlink_write, wr.
      rewrite (decide_False (P := node p j = (false, i))) by done.
      split; repeat case_decide; simpl; naive_solver. }
  split.
  - intros j ej. rewrite lookup_insert_Some. intros [[<- <-]|[Hne Hj]].
    + destruct (h_slot _ _ _ _ Hh _ _ Hi) as (h&Hhi&Hs).
      destruct (lwrite_some _ _ _ _ _ Hw Hhi) as (h'&Hh'&Hc&Hch&Hsi).
      exists h'. split; [done|].
      assert (sSiblings h' = mkHandleList i i 0) as Hsi'
        by (rewrite Hsi; unfold unlink_write, wr; by rewrite decide_True).
      apply slot_ok_lists with e h; simpl; try done; [|by rewrite Hsi'].
      rewrite Hch. unfold unlink_write, wr. by repeat case_decide.
    + destruct (h_slot _ _ _ _ Hh _ _ Hj) as (h&Hhj&Hs).
      destruct (lwrite_some _ _ _ _ _ Hw Hhj) as (h'&Hh'&Hc&Hch&Hsi).
      exists h'. split; [done|].
      apply slot_ok_lists with ej h; try done.
      * rewrite Hch. unfold unlink_write, wr. by repeat case_decide.
      * rewrite <- (so_parent _ _ _ Hs), Hsi. unfold unlink_write, wr.
        rewrite decide_False by naive_solver. by repeat case_decide.
      * intros Hroot. rewrite Hsi, <- (so_root _ _ _ Hs) by done. unfold unlink_write, wr.
        rewrite (decide_False (P := _ = (false, i))) by naive_solver.
        assert (∀ k, k = p ∨ k ∈ kids p ∧ k ≠ i → (false, j) ≠ node p k) as Hnn.
        { unfold node. intros k [->|[Hk' _]] [= Heq ->]; [by rewrite Z.eqb_refl in Heq|].
          apply (t_kids _ _ _ Ht) in Hk' as (?&?&?). simplify_eq. }
        by rewrite !decide_False by auto.
  - intros j Hj. eapply free_core; [|by apply (h_free _ _ _ _ Hh)].
    intros h Hhj. destruct (lwrite_some _ _ _ _ _ Hw Hhj) as (h'&?&?&_). eauto.
  - intros q Hq. assert (is_Some (m !! q)) as Hqm.
    { destruct Hq as [eq Hq]. rewrite lookup_insert_Some in Hq. destruct Hq as [[<- _]|[_ ?]]; eauto. }
    destruct (decide (q = p)) as [->|Hqp].
    + rewrite Hk, filter_ne_split by (by apply NoDup_cons in Hnd as [_ ?]).
      assert (∀ j, j ∈ p :: l1 ++ l2 → (j = p ∨ j ∈ kids p) ∧ (j ≠ i ∨ p = i)) as Hin.
      { intros j Hj. rewrite Hk. split; [set_solver|left]. intros ->.
        apply NoDup_cons in Hnd as [Hn Hnd]. apply NoDup_app in Hnd as (_&Hd&[Hn2 _]%NoDup_cons).
        set_solver. }
      eapply ring_remove; [exact Hr|done|..]; intros j [H1 H2]%Hin;
        destruct (Hcell p j H1 H2) as [_ Hc]; destruct (Hc eq_refl) as [Hcn Hcp];
        rewrite ?Hcn, ?Hcp; unfold lpv, lnx; by rewrite Hni.
    + rewrite filter_ne.
      2:{ intros (?&?&?)%(t_kids _ _ _ Ht). simplify_eq. }
      eapply ring_ext; [..|by apply (h_ring _ _ _ _ Hh)]; intros j Hj;
        (assert (j = q ∨ j ∈ kids q) as Hj' by set_solver);
        (destruct (Hcell q j Hj') as [Hc _]; [|by apply Hc]);
        (destruct (decide (j = i)) as [->|]; [|by left]);
        (destruct Hj' as [->|(?&?&?)%(t_kids _ _ _ Ht)]; [by right|simplify_eq]).
Qed.
End unlink.

Lemma tree_unlink m kids rk i e :
  tree_ok m kids rk → m !! i = Some e →
  tree_ok (<[i := orphan e]> m) (λ q, filter (λ c, c ≠ i) (kids q)) rk.
Proof.
  intros Ht Hi. split.
  - intros p c. rewrite list_elem_of_filter, (t_kids _ _ _ Ht).
    destruct (decide (c = i)) as [->|Hne].
    + rewrite lookup_insert_eq. split; [naive_solver|]. intros (?&[= <-]&[=]).
    + rewrite lookup_insert_ne by done. naive_solver.
  - intros p. apply NoDup_filter, Ht.
  - intros c ec p. rewrite lookup_insert_Some. intros [[<- <-]|[Hne Hc]] Hp; [done|].
    destruct (t_par _ _ _ Ht _ _ _ Hc Hp) as [(ep&Hep&?) ?]. split; [|done].
    destruct (decide (p = i)) as [->|]; [|rewrite lookup_insert_ne by done; eauto].
    rewrite lookup_insert_eq. simplify_eq. eauto.
  - intros j ej. rewrite lookup_insert_Some. intros [[<- <-]|[Hne Hj]] Hty; simpl in *.
    + by destruct (t_partial _ _ _ Ht _ _ Hi Hty).
    + by eapply t_partial.
Qed.

Lemma lstep_refl b : shape b → lstep b b (λ _ l, l).
Proof. intros Hs. split; try done. intros j. by destruct (hand_at b j). Qed.

Lemma orphan_root e : e_parent e = None → orphan e = e.
Proof. by destruct e; simpl; intros ->. Qed.

Lemma shape_range b i h : shape b → hand_at b i = Some h → 0 ≤ i < 4294967295.
Proof.
  intros Hs Hh. assert (0 ≤ i < ui32TotalHandCount b) by (apply hand_some; eauto).
  destruct Hs as (_&?&?&_). lia.
Qed.

Lemma cell_hand b j h : hand_at b j = Some h →
  cell (hand_at b) (true, j) = Some (sChildren h) ∧ cell (hand_at b) (false, j) = Some (sSiblings h).
Proof. intros Hh. unfold cell. simpl. by rewrite Hh. Qed.

Lemma cnx_hand b j h : hand_at b j = Some h →
  cnx (hand_at b) (false, j) = ui32Next (sSiblings h) ∧
  cpv (hand_at b) (false, j) = ui32Prev (sSiblings h).
Proof. intros Hh. unfold cnx, cpv. by destruct (cell_hand _ _ _ Hh) as [_ ->]. Qed.

(** The neighbours of an entry in its list are structures of the base. *)
Lemma neighbour_some b m kids rk fl i e p h :
  tree_ok m kids rk → heap_ok (hand_at b) m kids fl → hand_at b i = Some h →
  m !! i = Some e → e_parent e = Some p →
  is_Some (hand_at b (ui32Prev (sSiblings h))) ∧ is_Some (hand_at b (ui32Next (sSiblings h))) ∧
  ui32Next (sSiblings h) ≠ i.
Proof.
  intros Ht Hh Hhi Hi Hp. destruct (kid_split m kids rk Ht _ _ _ Hi Hp) as (l1&l2&Hk&Hip&Hpp&Hnd).
  destruct (proj1 (t_par _ _ _ Ht _ _ _ Hi Hp)) as (ep&Hpm&_).
  pose proof (h_ring _ _ _ _ Hh p ltac:(eauto)) as Hr. rewrite Hk in Hr.
  destruct (ring_at _ _ _ _ _ _ Hr) as [Hpr Hnx].
  assert (node p i = (false, i)) as Hni by (unfold node; by rewrite (proj2 (Z.eqb_neq _ _))).
  unfold lpv, lnx in Hpr, Hnx. rewrite Hni in Hpr, Hnx.
  destruct (cnx_hand _ _ _ Hhi) as [Hn Hv]. rewrite Hn in Hnx. rewrite Hv in Hpr.
  assert (∀ j, j = p ∨ j ∈ kids p → is_Some (hand_at b j)) as Hsome.
  { intros j [->|(ec&Hc&_)%(t_kids _ _ _ Ht)]; eapply (h_slot _ _ _ _ Hh) in Hpm as (?&?&_); eauto.
    eapply (h_slot _ _ _ _ Hh) in Hc as (?&?&_). eauto. }
  apply NoDup_cons in Hnd as [_ Hnd]. apply NoDup_app in Hnd as (_&_&[Hn2 _]%NoDup_cons).
  rewrite Hpr, Hnx. split_and!; [apply Hsome|apply Hsome|].
  - destruct (last_in l1 p) as [[-> _]|]; [by left|right]. rewrite Hk. set_solver.
  - destruct l2 as [|y l2]; [by left|right]. rewrite Hk. simpl. set_solver.
  - destruct l2 as [|y l2]; [done|]. simpl. set_solver.
Qed.

Lemma lstep_hand b b' g j h : lstep b b' g → hand_at b j = Some h →
  ∃ h', hand_at b' j = Some h' ∧ core_of h' = core_of h ∧
    sChildren h' = g (true, j) (sChildren h) ∧ sSiblings h' = g (false, j) (sSiblings h).
Proof. intros Hl. eapply lwrite_some, Hl. Qed.

Lemma wp_UnlinkFromParent i e m kids rk fl o b :
  shape b → tree_ok m kids rk → heap_ok (hand_at b) m kids fl → m !! i = Some e →
  wp (UnlinkFromParent i) (λ _ st', ∃ b' g, st' = mk_hb o b' ∧ lstep b b' g ∧
      heap_ok (hand_at b') (<[i := orphan e]> m) (λ q, filter (λ c, c ≠ i) (kids q)) fl)
    (mk_hb o b).
Proof.
  intros Hs Ht Hh Hi. destruct (h_slot _ _ _ _ Hh _ _ Hi) as (h&Hhi&Hso).
  unfold UnlinkFromParent, HandleListRemove. wp_step. eapply wp_struct; [done|].
  wp_step. eapply wp_struct; [done|]. cbn zeta. rewrite (so_index _ _ _ Hso). unfold HandleListIsEmpty.
  destruct (e_parent e) as [p|] eqn:Hp.
  2:{ rewrite (so_root _ _ _ Hso) by done. simpl. rewrite Z.eqb_refl. apply wp_ret.
      eexists _, _. split_and!; [done|by apply lstep_refl|]. rewrite orphan_root, insert_id by done.
      destruct Hh as [H1 H2 H3]. split; [done..|]. intros q Hq.
      rewrite filter_ne; [by apply H3|]. intros (?&?&?)%(t_kids _ _ _ Ht). simplify_eq. }
  destruct (neighbour_some _ _ _ _ _ _ _ _ _ Ht Hh Hhi Hi Hp) as ([hp Hpv]&[hx Hnx]&Hne).
  rewrite (proj2 (Z.eqb_neq _ _)) by done. rewrite (so_parent _ _ _ Hso), Hp. simpl.
  destruct (proj1 (t_par _ _ _ Ht _ _ _ Hi Hp)) as (ep&Hpm&_).
  destruct (h_slot _ _ _ _ Hh _ _ Hpm) as (hpp&Hhp&_).
  rewrite HANDLE_TO_INDEX_succ by (by eapply shape_range).
  wp_step. eapply wp_upd_list; [done..|]. intros b1 Hl1.
  destruct (lstep_hand _ _ _ _ _ Hl1 Hhi) as (h1&Hh1&_&_&Hs1).
  wp_step. eapply wp_struct; [done|].
  destruct (lstep_hand _ _ _ _ _ Hl1 Hnx) as (hx1&Hx1&_).
  replace (ui32Prev (sSiblings h1)) with (ui32Prev (sSiblings h))
    by (rewrite Hs1; unfold wr; by case_decide).
  wp_step. eapply wp_upd_list; [apply Hl1|done|]. intros b2 Hl2.
  destruct (lstep_hand _ _ _ _ _ Hl2 Hh1) as (h2&Hh2&_).
  apply (wp_upd_siblings i (λ _, HandleListInit i IMG_NULL) h2); [apply Hl2|done|]. intros b3 Hl3.
  pose proof (lstep_trans _ _ _ _ _ (lstep_trans _ _ _ _ _ Hl1 Hl2) Hl3) as Hl.
  eexists _, _. split_and!; [done|exact Hl|].
  eapply heap_unlink; [done..|]. destruct (cnx_hand _ _ _ Hhi) as [-> ->]. apply Hl.
Qed.

(** ** Adopting *)

Section adopt.
Context (H H' : heapv) (m : gmap Z ent) (kids : Z → list Z) (rk : Z → nat) (fl : list Z).
Context (Ht : tree_ok m kids rk) (Hh : heap_ok H m kids fl).

(** The five writes of [HandleListInsertBefore]. *)
Definition adopt_write (p pr c : Z) : bool * Z → sHandleList → sHandleList := λ n l,
  wr (false, c) (λ l, mkHandleList (ui32Prev l) (ui32Next l) (p + 1)) n
    (wr (node p pr) (set_ui32Next c) n
      (wr (false, c) (set_ui32Next p) n
        (wr (true, p) (set_ui32Prev c) n
          (wr (false, c) (set_ui32Prev pr) n l)))).

Definition adopted_kids (p c : Z) : Z → list Z := λ q, if decide (q = p) then kids p ++ [c] else kids q.

Lemma tree_adopt p ep c ec :
  m !! p = Some ep → e_type ep ≠ PVRSRV_HANDLE_TYPE_NONE →
  m !! c = Some ec → e_type ec ≠ PVRSRV_HANDLE_TYPE_NONE → e_parent ec = None → kids c = [] → c ≠ p →
  tree_ok (<[c := adopt p ec]> m) (adopted_kids p c) (λ j, if decide (j = c) then S (rk p) else rk j).
Proof.
  intros Hp Hpt Hc Hct Hroot Hkc Hcp.
  assert (∀ q, c ∉ kids q) as Hnc by (intros q (?&?&?)%(t_kids _ _ _ Ht); simplify_eq).
  unfold adopted_kids. split.
  - intros q d. destruct (decide (d = c)) as [->|Hne].
    + rewrite lookup_insert_eq. case_decide as Hq; [|naive_solver].
      subst q. rewrite elem_of_app, list_elem_of_singleton. naive_solver.
    + rewrite lookup_insert_ne by done. rewrite <- (t_kids _ _ _ Ht). case_decide; [|done].
      subst q. rewrite elem_of_app, list_elem_of_singleton. naive_solver.
  - intros q. case_decide; [|apply Ht]. apply NoDup_app. split_and!; [apply Ht| |apply NoDup_singleton].
    intros x Hx ->%list_elem_of_singleton. by eapply Hnc.
  - intros d ed q. rewrite lookup_insert_Some. intros [[<- <-]|[Hne Hd]] Hq; simpl in *.
    + simplify_eq. rewrite lookup_insert_ne by done. split; [eauto|].
      rewrite (decide_True (P := c = c)), (decide_False (P := q = c)) by naive_solver. lia.
    + destruct (t_par _ _ _ Ht _ _ _ Hd Hq) as [(eq&Hqm&?) ?].
      assert (q ≠ c) as Hqc.
      { intros ->. assert (d ∈ kids c) as Hin by (apply (t_kids _ _ _ Ht); eauto).
        rewrite Hkc in Hin. set_solver. }
      rewrite lookup_insert_ne by done. rewrite !decide_False by done. eauto.
  - intros j ej. rewrite lookup_insert_Some. intros [[<- <-]|[Hne Hj]] Hty; [done|].
    by eapply t_partial.
Qed.

Lemma heap_adopt p ep c ec :
  m !! p = Some ep → m !! c = Some ec → e_parent ec = None → kids c = [] → c ≠ p →
  lwrite H H' (adopt_write p (cpv H (true, p)) c) →
  heap_ok H' (<[c := adopt p ec]> m) (adopted_kids p c) fl.
Proof.
  intros Hp Hc Hroot Hkc Hcp Hw.
  assert (∀ q, c ∉ kids q) as Hnc by (intros q (?&?&?)%(t_kids _ _ _ Ht); simplify_eq).
  assert (p ∉ kids p) as Hpp.
  { intros Hn. by apply (desc_kid_parent _ _ _ Ht p p Hn), desc_refl. }
  pose proof (h_ring _ _ _ _ Hh p ltac:(eauto)) as Hr.
  assert (∀ k, node p k = (k =? p, k)) as Hnode by done.
  assert (node p p = (true, p)) as Hnp by (unfold node; by rewrite Z.eqb_refl).
  assert (node p c = (false, c)) as Hnc' by (unfold node; by rewrite (proj2 (Z.eqb_neq _ _))).
  pose proof (ring_last_elem _ _ _ _ _ Hr) as Hpr. unfold lpv in Hpr. rewrite Hnp in Hpr.
  set (pr := cpv H (true, p)) in *.
  assert (pr = p ∨ pr ∈ kids p) as Hpr'
    by (rewrite Hpr; destruct (last_in (kids p) p) as [[-> _]|]; [by left|by right]).
  assert (∀ q j, (j = q ∨ j ∈ kids q) → q ≠ p →
    lnx H' q j = lnx H q j ∧ lpv H' q j = lpv H q j) as Hother.
  { intros q j Hj Hqp. unfold lnx, lpv, cnx, cpv. rewrite (lwrite_cell _ _ _ _ Hw).
    destruct (cell H (node q j)) as [l|]; [|done]. simpl. unfold adopt_write, wr.
    assert (node q j ≠ (false, c)) as Hn1.
    { unfold node. intros [= Heq ->]. destruct Hj as [->|Hj]; [by rewrite Z.eqb_refl in Heq|].
      by eapply Hnc. }
    assert (∀ k, k = p ∨ k ∈ kids p → node q j ≠ node p k) as Hn2
      by (intros k Hk; by eapply (node_disjoint m kids rk)).
    rewrite (decide_False (P := node q j = (true, p))) by (rewrite <- Hnp; auto).
    by rewrite !decide_False by auto. }
  assert (∀ j l, cell H (node p j) = Some l → j ∈ p :: kids p →
    lnx H' p j = upd (lnx H p) pr c j ∧ lpv H' p j = upd (lpv H p) p c j) as Hself.
  { intros j l Hl Hj. assert (j ≠ c) as Hjc by (intros ->; set_solver).
    unfold lnx, lpv, cnx, cpv, upd. rewrite (lwrite_cell _ _ _ _ Hw), Hl. simpl.
    unfold adopt_write, wr. rewrite !(decide_False (P := node p j = (false, c))) by (unfold node; naive_solver).
    rewrite <- Hnp. assert (∀ k, node p j = node p k ↔ j = k) as Hnk by (unfold node; naive_solver).
    split; repeat case_decide; simpl; naive_solver. }
  assert (∀ j, j ∈ p :: kids p → ∃ l, cell H (node p j) = Some l) as Hcell.
  { intros j Hj. destruct (cell H (node p j)) eqn:Heq; [eauto|]. exfalso.
    unfold cell in Heq. apply fmap_None in Heq. simpl in Heq.
    assert (∃ ej, m !! j = Some ej) as [ej Hjm].
    { apply elem_of_cons in Hj as [->|(?&?&?)%(t_kids _ _ _ Ht)]; eauto. }
    destruct (h_slot _ _ _ _ Hh _ _ Hjm) as (?&?&_). congruence. }
  destruct (h_slot _ _ _ _ Hh _ _ Hc) as (hc&Hhc&Hsoc).
  destruct (lwrite_some _ _ _ _ _ Hw Hhc) as (hc'&Hhc'&Hcorec&Hchc&Hsic).
  assert ((false, c) ≠ node p pr) as Hcpr.
  { intros [= Heq ->]. destruct Hpr' as [Hcp'|Hin]; [by apply Hcp|by eapply Hnc]. }
  assert (sSiblings hc' = mkHandleList pr p (p + 1)) as Hsc.
  { rewrite Hsic. unfold adopt_write, wr. rewrite !(decide_True (P := (false, c) = (false, c))) by done.
    by rewrite !decide_False by done. }
  split.
  - intros j ej. rewrite lookup_insert_Some. intros [[<- <-]|[Hne Hj]].
    + exists hc'. split; [done|]. apply slot_ok_lists with ec hc; simpl; try done; [|by rewrite Hsc].
      rewrite Hchc. unfold adopt_write, wr. by repeat case_decide.
    + destruct (h_slot _ _ _ _ Hh _ _ Hj) as (h&Hhj&Hs).
      destruct (lwrite_some _ _ _ _ _ Hw Hhj) as (h'&Hh'&Hcore&Hch&Hsi).
      exists h'. split; [done|]. apply slot_ok_lists with ej h; try done.
      * rewrite Hch. unfold adopt_write, wr. by repeat case_decide.
      * rewrite <- (so_parent _ _ _ Hs), Hsi. unfold adopt_write, wr.
        rewrite !(decide_False (P := _ = (false, c))) by naive_solver. by repeat case_decide.
      * intros Hrt. rewrite Hsi, <- (so_root _ _ _ Hs) by done. unfold adopt_write, wr.
        rewrite !(decide_False (P := _ = (false, c))) by naive_solver.
        rewrite (decide_False (P := _ = (true, p))) by done.
        rewrite decide_False; [done|]. intros [= Heq ->].
        destruct Hpr' as [Hpe|(?&?&?)%(t_kids _ _ _ Ht)]; [|simplify_eq].
        by rewrite Hpe, Z.eqb_refl in Heq.
  - intros j Hj. eapply free_core; [|by apply (h_free _ _ _ _ Hh)].
    intros h Hhj. destruct (lwrite_some _ _ _ _ _ Hw Hhj) as (h'&?&?&_). eauto.
  - intros q Hq. assert (is_Some (m !! q)) as Hqm.
    { destruct Hq as [eq Hq]. rewrite lookup_insert_Some in Hq. destruct Hq as [[<- _]|[_ ?]]; eauto. }
    unfold adopted_kids. destruct (decide (q = p)) as [->|Hqp].
    + eapply ring_insert; [exact Hr|constructor; [done|apply Ht]|set_solver|..].
      * intros j Hj. destruct (Hcell _ Hj) as [l Hl]. rewrite (proj1 (Hself j l Hl Hj)).
        unfold lpv. by rewrite Hnp.
      * intros j Hj. destruct (Hcell _ Hj) as [l Hl]. apply (Hself j l Hl Hj).
      * unfold lnx, cnx, cell. rewrite Hnc'. simpl. rewrite Hhc'. simpl. by rewrite Hsc.
      * unfold lpv at 1, cpv at 1, cell. rewrite Hnc'. simpl. rewrite Hhc'. simpl. rewrite Hsc. simpl.
        unfold lpv. by rewrite Hnp.
    + eapply ring_ext; [..|by apply (h_ring _ _ _ _ Hh)]; intros j Hj;
        apply Hother; set_solver.
Qed.
End adopt.

Lemma adopt_prev_some H m kids rk fl p ep :
  tree_ok m kids rk → heap_ok H m kids fl → m !! p = Some ep → is_Some (H (cpv H (true, p))).
Proof.
  intros Ht Hh Hp. pose proof (h_ring _ _ _ _ Hh p ltac:(eauto)) as Hr.
  pose proof (ring_last_elem _ _ _ _ _ Hr) as Hpr. unfold lpv, node in Hpr. rewrite Z.eqb_refl in Hpr.
  rewrite Hpr. assert (∃ e, m !! List.last (kids p) p = Some e) as [e He].
  { destruct (last_in (kids p) p) as [[-> _]|(?&?&?)%(t_kids _ _ _ Ht)]; eauto. }
  destruct (h_slot _ _ _ _ Hh _ _ He) as (?&?&_). eauto.
Qed.

Lemma wp_AdoptChild p ep c ec m kids rk fl o b :
  shape b → tree_ok m kids rk → heap_ok (hand_at b) m kids fl →
  m !! p = Some ep → m !! c = Some ec → e_parent ec = None → kids c = [] → c ≠ p →
  wp (AdoptChild p c) (λ _ st', ∃ b' g, st' = mk_hb o b' ∧ lstep b b' g ∧
      heap_ok (hand_at b') (<[c := adopt p ec]> m) (adopted_kids kids p c) fl)
    (mk_hb o b).
Proof.
  intros Hs Ht Hh Hp Hc Hroot Hkc Hcp.
  destruct (h_slot _ _ _ _ Hh _ _ Hp) as (hp&Hhp&Hsp).
  destruct (h_slot _ _ _ _ Hh _ _ Hc) as (hc&Hhc&Hsc).
  destruct (adopt_prev_some _ _ _ _ _ _ _ Ht Hh Hp) as [hr Hhr].
  assert (cpv (hand_at b) (true, p) = ui32Prev (sChildren hp)) as Hpr
    by (unfold cpv; by rewrite (proj1 (cell_hand _ _ _ Hhp))).
  unfold AdoptChild, HandleListInsertBefore.
  wp_step. eapply wp_struct; [done|]. wp_step. eapply wp_struct; [done|]. cbn zeta.
  rewrite (so_children _ _ _ Hsp), (so_index _ _ _ Hsc).
  rewrite HANDLE_TO_INDEX_succ, INDEX_TO_HANDLE_succ by (by eapply shape_range).
  wp_step. eapply wp_struct; [done|]. cbn zeta. rewrite <- Hpr. set (pr := cpv _ _) in *.
  wp_step. eapply wp_struct; [done|].
  wp_step. apply (wp_upd_siblings c (set_ui32Prev pr) hc); [done..|]. intros b1 Hl1.
  destruct (lstep_hand _ _ _ _ _ Hl1 Hhp) as (hp1&Hp1&_).
  wp_step. apply (wp_upd_children p (set_ui32Prev c) hp1); [apply Hl1|done|]. intros b2 Hl2.
  pose proof (lstep_trans _ _ _ _ _ Hl1 Hl2) as Hl12.
  destruct (lstep_hand _ _ _ _ _ Hl12 Hhc) as (hc2&Hc2&_).
  wp_step. apply (wp_upd_siblings c (set_ui32Next p) hc2); [apply Hl2|done|]. intros b3 Hl3.
  pose proof (lstep_trans _ _ _ _ _ Hl12 Hl3) as Hl13.
  destruct (lstep_hand _ _ _ _ _ Hl13 Hhr) as (hr3&Hr3&_).
  wp_step. eapply wp_upd_list; [apply Hl3|done|]. intros b4 Hl4.
  pose proof (lstep_trans _ _ _ _ _ Hl13 Hl4) as Hl14.
  destruct (lstep_hand _ _ _ _ _ Hl14 Hhc) as (hc4&Hc4&_).
  apply (wp_upd_siblings c (λ l, mkHandleList (ui32Prev l) (ui32Next l) (p + 1)) hc4);
    [apply Hl4|done|]. intros b5 Hl5.
  pose proof (lstep_trans _ _ _ _ _ Hl14 Hl5) as Hl15.
  eexists _, _. split_and!; [done|exact Hl15|]. eapply heap_adopt; [done..|]. apply Hl15.
Qed.
