(* ===== verification/HandleFree.v ===== *)
(** * Handle tables: [FreeHandle]

    Releasing a handle takes it out of the hash table, unlinks it, releases
    its sub-handles and gives its slot back. *)

From S2P Require Import Prelude Hash Handle HandleRep HandleInv HandleOps.

(** ** What an operation leaves alone *)

(** The limit, the size and the batch of a base. *)
Definition bfields (b : PVRSRV_HANDLE_BASE) : Z * Z * (Z * Z * Z * Z) :=
  (ui32MaxIndexPlusOne b, ui32TotalHandCount b,
   (ui32HandBatchSize b, ui32TotalHandCountPreBatch b, ui32FirstBatchIndexPlusOne b,
    ui32BatchHandAllocFailures b)).

(** From [st] to [st'], [m'] being the entries left. *)
Record fstep (st st' : hb_st) (m' : gmap Z ent) : Prop := {
  fs_fields : bfields (hb_base st') = bfields (hb_base st);
  fs_plenty : plenty (hb_os st) → plenty (hb_os st');
  fs_next j : is_Some (m' !! j) → hn (hand_at (hb_base st')) j = hn (hand_at (hb_base st)) j }.

Lemma fstep_refl st m : fstep st st m.
Proof. by split. Qed.

Lemma fstep_trans st st' st'' m' m'' :
  fstep st st' m' → fstep st' st'' m'' → (∀ j, is_Some (m'' !! j) → is_Some (m' !! j)) →
  fstep st st'' m''.
Proof.
  intros [A1 A2 A3] [B1 B2 B3] Hm. split; [congruence|auto|].
  intros j Hj. rewrite B3, A3 by auto. done.
Qed.

Lemma fstep_weaken st st' m m' :
  fstep st st' m → (∀ j, is_Some (m' !! j) → is_Some (m !! j)) → fstep st st' m'.
Proof. intros [A1 A2 A3] Hm. split; auto. Qed.

(** ** Changing one entry in place *)

Lemma tree_retag m kids rk i e e' :
  tree_ok m kids rk → m !! i = Some e → e_parent e' = e_parent e → e_type e' = e_type e →
  (e_type e = PVRSRV_HANDLE_TYPE_NONE → e_batched e' = true) → tree_ok (<[i := e']> m) kids rk.
Proof.
  intros Ht Hi Hp Hty Hb. split.
  - intros p c. rewrite (t_kids _ _ _ Ht). destruct (decide (c = i)) as [->|?].
    + rewrite lookup_insert_eq, Hi. split; intros (?&[= <-]&?); eexists; (split; [done|congruence]).
    + by rewrite lookup_insert_ne.
  - apply Ht.
  - intros c ec p Hc Hcp. assert (∃ ec', m !! c = Some ec' ∧ e_parent ec' = Some p) as (ec'&Hc'&Hcp').
    { apply lookup_insert_Some in Hc as [[<- <-]|[? ?]]; [|eauto]. rewrite Hp in Hcp. eauto. }
    destruct (t_par _ _ _ Ht _ _ _ Hc' Hcp') as [(ep&Hep&?) ?]. split; [|done].
    destruct (decide (p = i)) as [->|]; [|rewrite lookup_insert_ne by done; eauto].
    rewrite lookup_insert_eq. simplify_eq. exists e'. split; congruence.
  - intros j ej [[<- <-]|[? Hj]]%lookup_insert_Some Ht'; [|by eapply t_partial].
    rewrite Hp. rewrite Hty in Ht'. split; [|auto]. by eapply t_partial.
Qed.

Lemma tree_alter m kids rk i e e' :
  tree_ok m kids rk → m !! i = Some e → e_parent e' = e_parent e → e_type e' = e_type e →
  e_batched e' = e_batched e → tree_ok (<[i := e']> m) kids rk.
Proof.
  intros Ht Hi Hp Hty Hb. eapply tree_retag; [done..|]. intros Hn. rewrite Hb. by eapply t_partial.
Qed.

Lemma part_alter N m fl bl i e e' :
  part_ok N m fl bl → m !! i = Some e → e_batched e' = e_batched e →
  part_ok N (<[i := e']> m) fl bl.
Proof.
  intros [H1 H2 H3 H4 H5] Hi Hb.
  assert (∀ j, is_Some (<[i:=e']> m !! j) ↔ is_Some (m !! j)) as Hs.
  { intros j. rewrite lookup_insert_is_Some'. naive_solver. }
  split; [intros j; rewrite H1, Hs; done|..]; [|done|done|].
  - intros j Hj. rewrite lookup_insert_ne; [auto|]. intros ->. by rewrite H2 in Hi.
  - intros j. rewrite H5. destruct (decide (j = i)) as [->|]; [|by rewrite lookup_insert_ne].
    rewrite lookup_insert_eq. naive_solver congruence.
Qed.

Lemma heap_alter H m kids fl i e e' :
  heap_ok H m kids fl → m !! i = Some e → (∀ h, slot_ok i e h → slot_ok i e' h) →
  heap_ok H (<[i := e']> m) kids fl.
Proof.
  intros [H1 H2 H3] Hi He. split; [|done|].
  - intros j ej [[<- <-]|[? Hj]]%lookup_insert_Some; [|by apply H1].
    destruct (H1 _ _ Hi) as (h&?&?). eauto.
  - intros p Hp. apply H3. apply lookup_insert_is_Some' in Hp as [<-|]; eauto.
Qed.

Lemma rings_cells H H' p l :
  (∀ n, cell H' n = cell H n) → ring (lnx H p) (lpv H p) p l p → ring (lnx H' p) (lpv H' p) p l p.
Proof. intros Hc. apply ring_ext; intros j _; unfold lnx, lpv, cnx, cpv; by rewrite Hc. Qed.

(** ** Leaving the hash table and the parent *)

Definition half (e : ent) : ent := unhash (orphan e).

Lemma keyed_half m km i e :
  keyed m km → m !! i = Some e →
  keyed (<[i := half e]> m) (if e_hashed e then delete (ent_key e) km else km).
Proof.
  intros Hk Hi k v.
  assert ((∃ j ej, <[i := half e]> m !! j = Some ej ∧ e_hashed ej = true ∧ ent_key ej = k ∧ v = j + 1) ↔
    ∃ j ej, j ≠ i ∧ m !! j = Some ej ∧ e_hashed ej = true ∧ ent_key ej = k ∧ v = j + 1) as ->.
  { split.
    - intros (j&ej&[[<- <-]|[? ?]]%lookup_insert_Some&?&?&?); [done|]. by exists j, ej.
    - intros (j&ej&?&?&?&?&?). exists j, ej. by rewrite lookup_insert_ne. }
  destruct (e_hashed e) eqn:He.
  - rewrite lookup_delete_Some, (Hk k v). split.
    + intros (Hne&j&ej&?&?&?&?). exists j, ej. split_and!; try done. intros ->. congruence.
    + intros (j&ej&Hne&Hj&Hh&Hkey&->). split; [|eauto 10]. intros Heq.
      assert (km !! k = Some (j + 1)) as Hv1 by (apply Hk; eauto 10).
      assert (km !! k = Some (i + 1)) as Hv2 by (apply Hk; eauto 10).
      simplify_eq. lia.
  - rewrite (Hk k v). split.
    + intros (j&ej&?&?&?&?). exists j, ej. split_and!; try done. intros ->. congruence.
    + intros (j&ej&_&?&?&?&?). by exists j, ej.
Qed.

Lemma hashed_half m i e : hashed_ok m → m !! i = Some e → hashed_ok (<[i := half e]> m).
Proof.
  intros Hh Hi j ej [[<- <-]|[? Hj]]%lookup_insert_Some; [|exact (Hh _ _ Hj)].
  split; [done|]. by intros [? [=]].
Qed.

Lemma key_ok_handle tab d t p : uKeySize tab = 24 → key_ok tab (InitKey d t p).
Proof. intros Hk. unfold key_ok. by rewrite Hk. Qed.

(** Removing the key of a slot. *)
Lemma wp_hash_remove d t p km o b :
  hash_ok (psHashTab b) km →
  wp (on_hash (HASH_Remove_Extended (InitKey d t p))) (λ _ st', ∃ o' t', st' = mk_hb o' (set_psHashTab t' b) ∧
      hash_ok t' (delete (InitKey d t p) km) ∧
      os_step (match km !! InitKey d t p with Some _ => -1 | None => 0 end) o o')
    (mk_hb o b).
Proof.
  intros (tab&Htab&Hrep&Hsz). unfold on_hash. wp_step. simpl. rewrite Htab.
  eapply wp_mono; [apply (wp_remove_map tab km); [done|by apply key_ok_handle]|].
  intros r s' (h'&o'&->&_&Hrep'&Hsp&Hos). simpl.
  eexists _, _. split_and!; [done| |done]. exists h'. split_and!; [done..|].
  destruct Hsp as [-> _]. done.
Qed.

Lemma heap_core b b' m kids fl : psHandleArray b = psHandleArray b' →
  heap_ok (hand_at b) m kids fl → heap_ok (hand_at b') m kids fl.
Proof.
  intros Heq [H1 H2 H3]. assert (∀ i, hand_at b' i = hand_at b i) as Hh
    by (intros i; by apply hand_at_arr).
  split.
  - intros i e Hi. rewrite Hh. auto.
  - intros i Hi. rewrite Hh. auto.
  - intros p Hp. eapply rings_cells; [|by apply H3]. intros n. unfold cell. by rewrite Hh.
Qed.

Lemma slot_half i e h : slot_ok i (orphan e) h → slot_ok i (half e) h.
Proof. by intros []. Qed.

Lemma free_ok_hn H H' first last cnt fl :
  free_ok H first last cnt fl → (∀ j, j ∈ fl → hn H' j = hn H j) → free_ok H' first last cnt fl.
Proof.
  intros [H1 H2 H3 Hc] Hn. split; [done..|]. clear H1 H2 H3.
  induction fl as [|x r IH]; [done|]. simpl in *. rewrite Hn by set_solver.
  destruct r as [|y r]; [done|]. destruct Hc as [? Hc]. split; [done|].
  apply IH; [done|]. intros j Hj. apply Hn. set_solver.
Qed.

Lemma rest_fields b b' : rest b' = rest b →
  psHashTab b' = psHashTab b ∧ bfields b' = bfields b ∧
  ui32FirstFreeIndex b' = ui32FirstFreeIndex b ∧
  ui32LastFreeIndexPlusOne b' = ui32LastFreeIndexPlusOne b ∧
  ui32FreeHandCount b' = ui32FreeHandCount b ∧ bPurgingEnabled b' = bPurgingEnabled b.
Proof. unfold rest, set_psHandleArray, bfields. intros [=]. split_and!; congruence. Qed.

Lemma bfields_total b b' : bfields b' = bfields b → ui32TotalHandCount b' = ui32TotalHandCount b.
Proof. unfold bfields. by intros [=]. Qed.

(** [b0] is [b], the hash table apart. *)
Definition same_but_tab (b b0 : PVRSRV_HANDLE_BASE) : Prop :=
  set_psHashTab None b0 = set_psHashTab None b.

Lemma same_but_tab_fields b b0 : same_but_tab b b0 →
  psHandleArray b0 = psHandleArray b ∧ bfields b0 = bfields b ∧
  ui32FirstFreeIndex b0 = ui32FirstFreeIndex b ∧
  ui32LastFreeIndexPlusOne b0 = ui32LastFreeIndexPlusOne b ∧
  ui32FreeHandCount b0 = ui32FreeHandCount b ∧ bPurgingEnabled b0 = bPurgingEnabled b.
Proof. unfold same_but_tab, set_psHashTab, bfields. intros [=]. split_and!; congruence. Qed.

(** The invariant after the entries and list fields changed. *)
Lemma hinv_step L o b b0 o1 b1 g m m1 kids kids1 rk rk1 fl bl km km1 :
  hinv L (mk_hb o b) m kids rk fl bl km →
  same_but_tab b b0 → lstep b0 b1 g →
  tree_ok m1 kids1 rk1 → part_ok (ui32TotalHandCount b) m1 fl bl →
  heap_ok (hand_at b1) m1 kids1 fl → hash_ok (psHashTab b1) km1 → keyed m1 km1 → hashed_ok m1 →
  os_live o1 = os_live o + Z.of_nat (size km1) - Z.of_nat (size km) →
  hinv L (mk_hb o1 b1) m1 kids1 rk1 fl bl km1.
Proof.
  intros [_ _ _ _ Hfree _ _ _ Hp Hlv] Hsame [Hs Hr Hab Hw] ?????? Hl. simpl in *.
  destruct (same_but_tab_fields _ _ Hsame) as (Ha0&Hb0&Hf0&Hl0&Hc0&Hp0).
  destruct (rest_fields _ _ Hr) as (_&Hb1&Hf1&Hl1&Hc1&Hp1).
  split; simpl; try done.
  - by rewrite (bfields_total _ _ Hb1), (bfields_total _ _ Hb0).
  - rewrite Hf1, Hl1, Hc1, Hf0, Hl0, Hc0. eapply free_ok_hn; [done|]. intros j _.
    rewrite (lwrite_hn _ _ _ j Hw). unfold hn. by rewrite (hand_at_arr b0 b).
  - congruence.
  - rewrite Hl, Hab, Hlv. unfold array_blocks. rewrite Ha0. lia.
Qed.

Lemma slot_key i e h : slot_ok i e h → InitKey (pvData h) (eType h) (ParentIfPrivate h) = ent_key e.
Proof.
  intros []. unfold ent_key, ParentIfPrivate, TEST_ALLOC_FLAG, ParentHandle.
  rewrite so_data, so_type, so_flag, so_parent. done.
Qed.

Lemma slot_flags i e h : slot_ok i e h →
  BATCHED_HANDLE h = (is_NONE (e_type e) || e_batched e) ∧
  BATCHED_HANDLE_PARTIALLY_FREE h = is_NONE (e_type e) ∧
  TEST_ALLOC_FLAG h PVRSRV_HANDLE_ALLOC_FLAG_MULTI = is_multi e.
Proof.
  intros []. unfold BATCHED_HANDLE, BATCHED_HANDLE_PARTIALLY_FREE, TEST_ALLOC_FLAG, is_multi.
  rewrite so_iflag, so_flag. unfold iflag. by destruct (is_NONE _), (e_batched e).
Qed.

Lemma is_NONE_false t : t ≠ PVRSRV_HANDLE_TYPE_NONE → is_NONE t = false.
Proof. apply bool_decide_eq_false_2. Qed.

Definition detach (h : sHandle) (i : Z) : M hb_st unit :=
  (if negb (TEST_ALLOC_FLAG h PVRSRV_HANDLE_ALLOC_FLAG_MULTI)
      && negb (BATCHED_HANDLE_PARTIALLY_FREE h)
   then _ ← on_hash (HASH_Remove_Extended (InitKey (pvData h) (eType h) (ParentIfPrivate h))); mret tt
   else mret tt);;
  UnlinkFromParent i.

Lemma wp_unlink_half L o b m kids rk fl bl km o1 t1 km1 i e :
  hinv L (mk_hb o b) m kids rk fl bl km → m !! i = Some e →
  hash_ok t1 km1 → keyed (<[i := half e]> m) km1 →
  os_live o1 = os_live o + Z.of_nat (size km1) - Z.of_nat (size km) →
  (plenty o → plenty o1) →
  wp (UnlinkFromParent i) (λ _ st', fstep (mk_hb o b) st' m ∧
      hinv L st' (<[i := half e]> m) (λ q, filter (λ c, c ≠ i) (kids q)) rk fl bl km1)
    (mk_hb o1 (set_psHashTab t1 b)).
Proof.
  intros Hi Hm Ht Hk Ho Hpl. set (b1 := set_psHashTab t1 b).
  assert (heap_ok (hand_at b1) m kids fl) as Hh1 by (by apply (heap_core b), (i_heap _ _ _ _ _ _ _ _ Hi)).
  assert (shape b1) as Hs1 by apply (i_shape _ _ _ _ _ _ _ _ Hi).
  pose proof (i_tree _ _ _ _ _ _ _ _ Hi) as Htr.
  eapply wp_mono; [by apply (wp_UnlinkFromParent i e m kids rk fl)|].
  intros _ st' (b'&g&->&Hl&Hh'). pose proof Hl as [Hs' Hr Hbl Hw].
  destruct (rest_fields _ _ Hr) as (Htab&Hbf&_).
  split.
  - split; [exact Hbf|done|]. intros j _. simpl. rewrite (lwrite_hn _ _ _ _ Hw).
    unfold hn. by rewrite (hand_at_arr b1 b).
  - apply (hinv_step L o b b1 _ _ g m _ kids _ rk _ fl bl km); try done.
    + rewrite <- (insert_insert_eq m i (half e) (orphan e)).
      apply (tree_alter _ _ _ i (orphan e)); [by apply tree_unlink|by rewrite lookup_insert_eq|done..].
    + apply (part_alter _ _ _ _ i e); [apply Hi|done..].
    + rewrite <- (insert_insert_eq m i (half e) (orphan e)).
      apply (heap_alter _ _ _ _ i (orphan e)); [done|by rewrite lookup_insert_eq|apply slot_half].
    + by rewrite Htab.
    + apply hashed_half; [apply Hi|done].
Qed.

Lemma wp_detach L st m kids rk fl bl km i e h :
  hinv L st m kids rk fl bl km → m !! i = Some e → e_type e ≠ PVRSRV_HANDLE_TYPE_NONE →
  e_hashed e = negb (is_multi e) → hand_at (hb_base st) i = Some h →
  wp (detach h i) (λ _ st', ∃ km', fstep st st' m ∧
      hinv L st' (<[i := half e]> m) (λ q, filter (λ c, c ≠ i) (kids q)) rk fl bl km') st.
Proof.
  intros Hi Hm Hty Hhs Hh. destruct st as [o b]. simpl in Hh.
  destruct (h_slot _ _ _ _ (i_heap _ _ _ _ _ _ _ _ Hi) _ _ Hm) as (h'&Hh'&Hso).
  simpl in Hh'. assert (h' = h) as -> by congruence.
  destruct (slot_flags _ _ _ Hso) as (_&Hpf&Hmu). unfold detach.
  rewrite Hpf, Hmu, is_NONE_false, <- Hhs, (slot_key _ _ _ Hso) by done. simpl.
  pose proof (keyed_half _ _ _ _ (i_keyed _ _ _ _ _ _ _ _ Hi) Hm) as Hk.
  destruct (e_hashed e) eqn:He; simpl.
  - wp_step. wp_step. eapply wp_mono; [apply (wp_hash_remove _ _ _ km), (i_hash _ _ _ _ _ _ _ _ Hi)|].
    intros _ st1 (o1&t1&->&Ht&Hlv&Hpl). wp_step.
    change (InitKey _ _ _) with (ent_key e) in *.
    assert (km !! ent_key e = Some (i + 1)) as Hkm
      by (apply (i_keyed _ _ _ _ _ _ _ _ Hi); eauto 10).
    rewrite Hkm in Hlv. eapply wp_mono; [eapply wp_unlink_half; [done..| |done]|].
    + rewrite map_size_delete_Some by eauto. assert (size km ≠ 0%nat).
      { apply map_size_ne_0_lookup. eauto. }
      lia.
    + intros _ st' [? ?]. eauto.
  - wp_step. apply wp_ret. replace b with (set_psHashTab (psHashTab b) b) by (by destruct b).
    eapply wp_mono; [eapply (wp_unlink_half L o b); [done..| |done|lia|done]|].
    + apply (i_hash _ _ _ _ _ _ _ _ Hi).
    + intros _ st' [? ?]. replace (set_psHashTab (psHashTab b) b) with b by (by destruct b). eauto.
Qed.

(** ** Giving the slot back *)

Lemma fchain_snoc H H' l x i :
  fchain H (l ++ [x]) → (∀ j, j ∈ l → hn H' j = hn H j) → hn H' x = i + 1 → hn H' i = 0 →
  fchain H' ((l ++ [x]) ++ [i]).
Proof.
  intros Hc Hl Hx Hi. induction l as [|y l IH]; simpl in *; [by auto|].
  rewrite Hl by set_solver.
  destruct l as [|z l]; simpl in *; destruct Hc as [Hy Hc]; (split; [done|]);
    apply IH; try done; intros j Hj; apply Hl; set_solver.
Qed.

Lemma tree_delete m kids rk i e :
  tree_ok m kids rk → m !! i = Some e → e_parent e = None → kids i = [] →
  tree_ok (delete i m) kids rk.
Proof.
  intros Ht Hi Hp Hk. split.
  - intros p c. rewrite (t_kids _ _ _ Ht). split; intros (ec&Hc&Hcp); exists ec.
    + rewrite lookup_delete_Some. split_and!; try done. intros ->. congruence.
    + apply lookup_delete_Some in Hc. tauto.
  - apply Ht.
  - intros c ec p [Hne Hc]%lookup_delete_Some Hcp.
    destruct (t_par _ _ _ Ht _ _ _ Hc Hcp) as [(ep&?&?) ?]. split; [|done]. exists ep.
    rewrite lookup_delete_Some. split_and!; try done. intros ->.
    assert (c ∈ kids p) as Hin by (apply (t_kids _ _ _ Ht); eauto). rewrite Hk in Hin. set_solver.
  - intros j ej [_ Hj]%lookup_delete_Some. exact (t_partial _ _ _ Ht _ _ Hj).
Qed.

Lemma part_delete N m fl bl i e :
  part_ok N m fl bl → m !! i = Some e → part_ok N (delete i m) (fl ++ [i]) (filter (λ c, c ≠ i) bl).
Proof.
  intros [H1 H2 H3 H4 H5] Hi. split.
  - intros j. rewrite H1, elem_of_app, list_elem_of_singleton. destruct (decide (j = i)) as [->|?].
    + split; [tauto|]. eauto.
    + rewrite lookup_delete_ne by done. tauto.
  - intros j. rewrite elem_of_app, list_elem_of_singleton. intros [Hj| ->].
    + apply lookup_delete_None. right. auto.
    + apply lookup_delete_eq.
  - apply NoDup_app. split_and!; [done| |apply NoDup_singleton].
    intros j Hj ->%list_elem_of_singleton. by rewrite H2 in Hi.
  - by apply NoDup_filter.
  - intros j. rewrite list_elem_of_filter, H5. split.
    + intros (?&e'&?&?). exists e'. by rewrite lookup_delete_ne.
    + intros (e'&[? ?]%lookup_delete_Some&?). split; [done|]. eauto.
Qed.

Lemma keyed_delete m km i e :
  keyed m km → m !! i = Some e → e_hashed e = false → keyed (delete i m) km.
Proof.
  intros Hk Hi He k v. rewrite (Hk k v). split.
  - intros (j&ej&Hj&Hrest). exists j, ej. rewrite lookup_delete_Some.
    split_and!; try tauto. intros ->. destruct Hrest. congruence.
  - intros (j&ej&[_ ?]%lookup_delete_Some&?). eauto 10.
Qed.

Lemma hashed_delete m i : hashed_ok m → hashed_ok (delete i m).
Proof. intros Hh j ej [_ Hj]%lookup_delete_Some. exact (Hh _ _ Hj). Qed.

Lemma heap_delete H H' m kids fl i :
  heap_ok H m kids fl → (∀ n, cell H' n = cell H n) →
  (∀ j, is_Some (m !! j) → j ≠ i → H' j = H j) →
  (∀ j, j ∈ fl ++ [i] → ∃ h, H' j = Some h ∧ eType h = PVRSRV_HANDLE_TYPE_NONE ∧ ui32Index h = j) →
  heap_ok H' (delete i m) kids (fl ++ [i]).
Proof.
  intros [H1 H2 H3] Hc Hm Hf. split; [|done|].
  - intros j e [Hne Hj]%lookup_delete_Some. rewrite Hm by eauto. auto.
  - intros p [e [_ Hp]%lookup_delete_Some]. eapply rings_cells; [done|]. apply H3. eauto.
Qed.

Lemma cell_put b i h h' :
  shape b → hand_at b i = Some h → sChildren h' = sChildren h → sSiblings h' = sSiblings h →
  ∀ n, cell (hand_at (put_hand i h' b)) n = cell (hand_at b) n.
Proof.
  intros Hs Hh H1 H2 [k j]. unfold cell. simpl. rewrite hand_at_put by eauto.
  case_decide; [|done]. subst j. rewrite Hh. simpl. by rewrite H1, H2.
Qed.

(** The state [free_slot] leaves, from the base [b] whose slot [i] has lost
    its type. *)
Record slot_freed (b b' : PVRSRV_HANDLE_BASE) (fl : list Z) (i : Z) : Prop := {
  sf_shape : shape b';
  sf_fields : bfields b' = bfields b;
  sf_tab : psHashTab b' = psHashTab b;
  sf_purge : bPurgingEnabled b' = bPurgingEnabled b;
  sf_blocks : array_blocks b' = array_blocks b;
  sf_cell n : cell (hand_at b') n = cell (hand_at b) n;
  sf_hand j : j ∉ fl → hand_at b' j = hand_at b j;
  sf_free j h : j ∈ fl → hand_at b j = Some h →
    ∃ h', hand_at b' j = Some h' ∧ eType h' = eType h ∧ ui32Index h' = ui32Index h;
  sf_free_ok : free_ok (hand_at b') (ui32FirstFreeIndex b') (ui32LastFreeIndexPlusOne b')
    (ui32FreeHandCount b') (fl ++ [i]) }.

Lemma array_blocks_count b i c : array_blocks (set_block_count i c b) = array_blocks b.
Proof.
  unfold array_blocks, set_block_count, set_index. simpl. destruct (psHandleArray b); [|done].
  simpl. by rewrite length_alter.
Qed.

Lemma wp_free_slot o b fl i h :
  shape b → bPurgingEnabled b = false →
  free_ok (hand_at b) (ui32FirstFreeIndex b) (ui32LastFreeIndexPlusOne b) (ui32FreeHandCount b) fl →
  NoDup fl → i ∉ fl → (∀ j, j ∈ fl → is_Some (hand_at b j)) →
  Z.of_nat (length fl) < 4294967295 →
  hand_at b i = Some h → ui32NextIndexPlusOne h = 0 →
  wp (free_slot i i) (λ _ st', ∃ b', st' = mk_hb o b' ∧ slot_freed b b' fl i) (mk_hb o b).
Proof.
  intros Hs Hpu Hf Hnd Hni Hsome Hlen Hh Hn0. pose proof (shape_range b i h Hs Hh) as Hir.
  assert (hn (hand_at b) i = 0) as Hhn by (unfold hn; by rewrite Hh).
  destruct Hf as [Hf1 Hf2 Hf3 Hf4]. unfold free_slot. hb_steps. rewrite Hpu, Hf3. simpl.
  rewrite !u32_small by (unfold is_u32; lia).
  destruct fl as [|x l _] using rev_ind.
  - simpl. hb_steps. apply wp_upd_block_count; [exists h; exact Hh|].
    intros c. eexists. split; [done|].
    assert (∀ j, hand_at (set_block_count i c (set_count 1 (set_last (i + 1) (set_first i b)))) j =
      hand_at b j) as Hsame.
    { intros j. rewrite hand_at_count by lia. by apply hand_at_arr. }
    split; try done.
    + apply shape_count. exact Hs.
    + etrans; [apply array_blocks_count|done].
    + intros n. unfold cell. by rewrite Hsame.
    + intros ? ? ?. set_solver.
    + split; simpl; try done. unfold hn. rewrite Hsame. by rewrite Hh.
  - rewrite (proj2 (Z.eqb_neq _ _)) by (rewrite length_app; simpl; lia).
    rewrite last_snoc in Hf2. rewrite Hf2.
    destruct (Hsome x) as [hx Hhx]; [set_solver|]. pose proof (shape_range _ _ _ Hs Hhx).
    replace (x + 1 - 1) with x by lia. rewrite u32_small by (unfold is_u32; lia).
    wp_step. eapply wp_upd_handle; [done|]. hb_steps.
    set (b1 := put_hand x _ b). assert (shape b1) as Hs1 by (apply shape_put; [done|lia]).
    assert (∀ j, hand_at b1 j = if decide (j = x) then Some (set_next (i + 1) hx) else hand_at b j) as Hb1
      by (intros j; apply hand_at_put; eauto).
    apply wp_upd_block_count.
    { change (is_Some (hand_at b1 i)). rewrite Hb1. case_decide; eauto. }
    intros c. set (b2 := set_block_count _ _ _). eexists. split; [done|].
    assert (∀ j, hand_at b2 j = hand_at b1 j) as Hsame.
    { intros j. unfold b2. rewrite hand_at_count by lia. by apply hand_at_arr. }
    assert (x ≠ i) as Hxi by (intros ->; set_solver).
    assert (∀ j, hn (hand_at b2) j = if decide (j = x) then i + 1 else hn (hand_at b) j) as Hhn2.
    { intros j. unfold hn. rewrite Hsame, Hb1. by case_decide. }
    split; try done.
    + apply shape_count. exact Hs1.
    + unfold b2. rewrite array_blocks_count. apply array_blocks_put.
    + intros n. rewrite <- (cell_put b x hx (set_next (i + 1) hx)) by done. fold b1.
      unfold cell. by rewrite Hsame.
    + intros j Hj. rewrite Hsame, Hb1, decide_False; [done|]. intros ->. set_solver.
    + intros j h0 Hj Hj0. rewrite Hsame, Hb1. case_decide; [|eauto]. simplify_eq. eauto.
    + split; simpl.
      * rewrite Hf1. by destruct l.
      * by rewrite last_snoc.
      * rewrite (length_app _ [i]), ?u32_small by (unfold is_u32; lia). simpl. lia.
      * apply fchain_snoc with (hand_at b); [done|..].
        -- intros j Hj. rewrite Hhn2, decide_False; [done|]. intros ->.
           apply NoDup_app in Hnd as (_&Hd&_). set_solver.
        -- by rewrite Hhn2, decide_True.
        -- by rewrite Hhn2, decide_False by done.
Qed.

Lemma part_length N m fl bl : part_ok N m fl bl → 0 ≤ N → Z.of_nat (length fl) ≤ N.
Proof.
  intros [H1 _ H3 _ _] HN. assert (fl ⊆+ seqZ 0 N) as Hl%submseteq_length.
  { apply NoDup_submseteq; [done|]. intros i Hi. apply elem_of_seqZ.
    pose proof (proj2 (H1 i) (or_introl Hi)). lia. }
  rewrite length_seqZ in Hl. lia.
Qed.

(** A released entry of an open batch. *)
Lemma heap_partial b m kids fl i e h :
  shape b → heap_ok (hand_at b) m kids fl → m !! i = Some e → hand_at b i = Some h →
  e_parent e = None → e_batched e = true → e_type e ≠ PVRSRV_HANDLE_TYPE_NONE →
  heap_ok (hand_at (put_hand i (SET_BATCHED_HANDLE_PARTIALLY_FREE
    (set_eType PVRSRV_HANDLE_TYPE_NONE h)) b)) (<[i := partial e]> m) kids fl.
Proof.
  intros Hs [H1 H2 H3] Hm Hh Hp Hb Hty.
  assert (∀ n, cell (hand_at (put_hand i (SET_BATCHED_HANDLE_PARTIALLY_FREE
    (set_eType PVRSRV_HANDLE_TYPE_NONE h)) b)) n = cell (hand_at b) n) as Hc
    by (by apply cell_put with h).
  split.
  - intros j ej [[<- <-]|[Hne Hj]]%lookup_insert_Some; rewrite hand_at_put by eauto.
    + rewrite decide_True by done. eexists. split; [done|].
      destruct (H1 _ _ Hm) as (h'&Hh'&[]). simplify_eq.
      split; simpl; try done; [|by rewrite so_parent, Hp|by auto].
      rewrite so_iflag. unfold iflag. by rewrite is_NONE_false, Hb by done.
    + rewrite decide_False by done. auto.
  - intros j Hj. rewrite hand_at_put by eauto. case_decide; [subst j|by auto].
    eexists. split; [done|]. destruct (H2 _ Hj) as (h'&?&_&?). simplify_eq. done.
  - intros p Hp'. eapply rings_cells; [exact Hc|]. apply H3.
    apply lookup_insert_is_Some' in Hp' as [<-|]; eauto.
Qed.

Lemma tree_partial m kids rk i e :
  tree_ok m kids rk → m !! i = Some e → e_parent e = None → kids i = [] →
  tree_ok (<[i := partial e]> m) kids rk.
Proof.
  intros Ht Hi Hp Hk. split.
  - intros p c. rewrite (t_kids _ _ _ Ht). destruct (decide (c = i)) as [->|?].
    + rewrite lookup_insert_eq, Hi. split; intros (?&[= <-]&?); [congruence|done].
    + by rewrite lookup_insert_ne.
  - apply Ht.
  - intros c ec p [[<- <-]|[Hne Hc]]%lookup_insert_Some Hcp; [done|].
    destruct (t_par _ _ _ Ht _ _ _ Hc Hcp) as [(ep&?&?) ?]. split; [|done]. exists ep.
    rewrite lookup_insert_ne; [done|]. intros ->.
    assert (c ∈ kids p) as Hin by (apply (t_kids _ _ _ Ht); eauto). rewrite Hk in Hin. set_solver.
  - intros j ej [[<- <-]|[? Hj]]%lookup_insert_Some Hty; [done|].
    exact (t_partial _ _ _ Ht _ _ Hj Hty).
Qed.

Lemma keyed_partial m km i e :
  keyed m km → m !! i = Some e → e_hashed e = false → keyed (<[i := partial e]> m) km.
Proof.
  intros Hk Hi He k v. rewrite (Hk k v). split.
  - intros (j&ej&Hj&Hr). exists j, ej. rewrite lookup_insert_ne; [done|].
    intros ->. destruct Hr. congruence.
  - intros (j&ej&[[<- <-]|[? ?]]%lookup_insert_Some&?&?); [done|]. eauto 10.
Qed.

Lemma hashed_partial m i e : hashed_ok m → hashed_ok (<[i := partial e]> m).
Proof.
  intros Hh j ej [[<- <-]|[? Hj]]%lookup_insert_Some; [|exact (Hh _ _ Hj)].
  split; [done|]. by intros [? [=]].
Qed.

(** The end of [FreeHandle]. *)
Definition finish (ix i : Z) : M hb_st PVRSRV_ERROR :=
  upd_handle i (set_eType PVRSRV_HANDLE_TYPE_NONE);;
  h' ← INDEX_TO_HANDLE_STRUCT i;
  if BATCHED_HANDLE h' && negb (BATCHED_HANDLE_PARTIALLY_FREE h') then
    upd_handle i SET_BATCHED_HANDLE_PARTIALLY_FREE;; mret PVRSRV_OK
  else free_slot ix i;; mret PVRSRV_OK.

(** What becomes of the entry. *)
Definition dead (e : ent) : option ent :=
  if e_batched e && negb (is_NONE (e_type e)) then Some (partial e) else None.

Lemma put_put i h h' b : put_hand i h' (put_hand i h b) = put_hand i h' b.
Proof.
  unfold put_hand, set_index, set_psHandleArray. simpl. f_equal.
  destruct (psHandleArray b) as [a|]; [|done]. simpl. f_equal.
  apply list_eq. intros k. rewrite !list_lookup_alter.
  destruct (decide _) as [Hd|Hd]; [|by rewrite ?decide_False]. rewrite ?decide_True by done. subst k.
  destruct (a !! _) as [ix|]; [|done]. simpl. do 2 f_equal.
  destruct (psHandle ix); [|done]. simpl. by rewrite list_insert_insert_eq.
Qed.

Lemma filter_ne_not_in (l : list Z) i e (m : gmap Z ent) N fl :
  part_ok N m fl l → m !! i = Some e → e_batched e = false → filter (λ c, c ≠ i) l = l.
Proof.
  intros Hp Hi Hb. apply filter_ne. intros (?&?&?)%(p_bl _ _ _ _ Hp). simplify_eq. congruence.
Qed.

Lemma wp_finish_partial L o b m kids rk fl bl km i e :
  hinv L (mk_hb o b) m kids rk fl bl km → m !! i = Some e → e_parent e = None →
  e_hashed e = false → kids i = [] → e_batched e = true → e_type e ≠ PVRSRV_HANDLE_TYPE_NONE →
  wp (finish i i) (λ r st', r = PVRSRV_OK ∧ fstep (mk_hb o b) st' m ∧
      hinv L st' (<[i := partial e]> m) kids rk fl bl km) (mk_hb o b).
Proof.
  intros Hi Hm Hp Hh Hk Hb Hty.
  destruct Hi as [Hs Ht Hpa Hhp Hf Hha Hke Hhd Hpu Hlv]. simpl in *.
  destruct (h_slot _ _ _ _ Hhp _ _ Hm) as (h&Hhi&Hso). pose proof (shape_range _ _ _ Hs Hhi).
  destruct (slot_flags _ _ _ Hso) as (Hf1&Hf2&_). rewrite is_NONE_false, Hb in * by done. simpl in *.
  unfold finish. wp_step. eapply wp_upd_handle; [done|].
  wp_step. eapply wp_struct; [by rewrite hand_at_put, decide_True by eauto|].
  change (BATCHED_HANDLE (set_eType PVRSRV_HANDLE_TYPE_NONE h)) with (BATCHED_HANDLE h).
  change (BATCHED_HANDLE_PARTIALLY_FREE (set_eType PVRSRV_HANDLE_TYPE_NONE h))
    with (BATCHED_HANDLE_PARTIALLY_FREE h).
  rewrite Hf1, Hf2. simpl.
  wp_step. eapply wp_upd_handle; [by rewrite hand_at_put, decide_True by eauto|].
  wp_step. rewrite put_put. set (b' := put_hand _ _ _). split; [done|]. split.
  - split; [done..|]. intros j _. simpl. unfold b', hn. rewrite hand_at_put by eauto.
    case_decide; [subst j; by rewrite Hhi|done].
  - split; simpl; try done.
    + by apply shape_put; [|lia].
    + by apply tree_partial.
    + by eapply part_alter.
    + by apply heap_partial.
    + eapply free_ok_hn; [done|]. intros j _. unfold b', hn. rewrite hand_at_put by eauto.
      case_decide; [subst j; by rewrite Hhi|done].
    + by apply keyed_partial.
    + by apply hashed_partial.
    + unfold b'. by rewrite array_blocks_put.
Qed.

Lemma wp_finish_free L o b m kids rk fl bl km i e :
  hinv L (mk_hb o b) m kids rk fl bl km → m !! i = Some e → e_parent e = None →
  e_hashed e = false → kids i = [] → dead e = None → hn (hand_at b) i = 0 →
  wp (finish i i) (λ r st', r = PVRSRV_OK ∧ fstep (mk_hb o b) st' (delete i m) ∧
      hinv L st' (delete i m) kids rk (fl ++ [i]) (filter (λ c, c ≠ i) bl) km) (mk_hb o b).
Proof.
  intros Hi Hm Hp Hh Hk Hd Hn.
  destruct Hi as [Hs Ht Hpa Hhp Hf Hha Hke Hhd Hpu Hlv]. simpl in *.
  destruct (h_slot _ _ _ _ Hhp _ _ Hm) as (h&Hhi&Hso). pose proof (shape_range _ _ _ Hs Hhi).
  destruct (slot_flags _ _ _ Hso) as (Hf1&Hf2&_).
  set (h1 := set_eType PVRSRV_HANDLE_TYPE_NONE h). set (b1 := put_hand i h1 b).
  assert (∀ j, hand_at b1 j = if decide (j = i) then Some h1 else hand_at b j) as Hb1
    by (intros j; apply hand_at_put; eauto).
  assert (∀ j, hn (hand_at b1) j = hn (hand_at b) j) as Hhn1.
  { intros j. unfold hn. rewrite Hb1. case_decide; [subst j; by rewrite Hhi|done]. }
  assert (i ∉ fl) as Hni by (intros Hin; by rewrite (p_disj _ _ _ _ Hpa _ Hin) in Hm).
  unfold finish. wp_step. eapply wp_upd_handle; [done|]. fold h1 b1.
  wp_step. eapply wp_struct; [by rewrite Hb1, decide_True by done|].
  change (BATCHED_HANDLE h1) with (BATCHED_HANDLE h).
  change (BATCHED_HANDLE_PARTIALLY_FREE h1) with (BATCHED_HANDLE_PARTIALLY_FREE h).
  assert (BATCHED_HANDLE h && negb (BATCHED_HANDLE_PARTIALLY_FREE h) = false) as ->.
  { rewrite Hf1, Hf2. unfold dead in Hd. by destruct (is_NONE (e_type e)), (e_batched e). }
  wp_step. eapply wp_mono; [apply (wp_free_slot o b1 fl i h1)|].
  - by apply shape_put; [|lia].
  - done.
  - change (free_ok (hand_at b1) (ui32FirstFreeIndex b) (ui32LastFreeIndexPlusOne b)
      (ui32FreeHandCount b) fl). eapply free_ok_hn; [done|]. auto.
  - apply Hpa.
  - done.
  - intros j Hj. rewrite Hb1. case_decide; [by eauto|].
    destruct (h_free _ _ _ _ Hhp _ Hj) as (?&?&_). eauto.
  - pose proof (part_length _ _ _ _ Hpa). destruct Hs as (_&?&?&_). lia.
  - by rewrite Hb1, decide_True.
  - unfold hn in Hn. by rewrite Hhi in Hn.
  - intros _ st' (b'&->&[]). wp_step. split; [done|].
    assert (∀ j, is_Some (m !! j) → j ∉ fl) as Hmf.
    { intros j [? Hj] Hin. by rewrite (p_disj _ _ _ _ Hpa _ Hin) in Hj. }
    split.
    + split; [done..|]. intros j [ej [_ Hj]%lookup_delete_Some]. simpl.
      unfold hn at 1. rewrite sf_hand0 by eauto. apply Hhn1.
    + split; simpl; try done.
      * by eapply tree_delete.
      * rewrite (bfields_total _ _ sf_fields0). by eapply part_delete.
      * eapply heap_delete; [exact Hhp|..].
        -- intros n. rewrite sf_cell0. by apply cell_put with h.
        -- intros j Hj Hne. rewrite sf_hand0, Hb1, decide_False by eauto. done.
        -- intros j [Hj| ->%list_elem_of_singleton]%elem_of_app.
           ++ destruct (h_free _ _ _ _ Hhp _ Hj) as (hj&Hhj&?&?).
              assert (j ≠ i) by naive_solver.
              destruct (sf_free0 j hj Hj) as (hj'&?&?&?); [by rewrite Hb1, decide_False|].
              exists hj'. split_and!; [done|congruence..].
           ++ rewrite sf_hand0, Hb1, decide_True by done. eexists. split; [done|].
              split; [done|]. apply (so_index _ _ _ Hso).
      * by rewrite sf_tab0.
      * by eapply keyed_delete.
      * by apply hashed_delete.
      * rewrite sf_purge0. exact Hpu.
      * rewrite sf_blocks0. unfold b1. by rewrite array_blocks_put.
Qed.

(** ** The recursion *)

(** The entries of [D] are released, the others stay. *)
Definition freed (m : gmap Z ent) (D : Z → Prop) (m' : gmap Z ent) : Prop := ∀ j,
  (D j → m' !! j = m !! j ≫= dead) ∧ (¬ D j → m' !! j = m !! j).

Lemma dead_parent e e' : dead e = Some e' → e_parent e' = None.
Proof. unfold dead. destruct (_ && _); [|done]. by intros [= <-]. Qed.

(** Parent links are only ever lost. *)
Definition parents_in (m' m : gmap Z ent) : Prop := ∀ k e' p,
  m' !! k = Some e' → e_parent e' = Some p → m !! k = Some e'.

Lemma is_kid_in m' m p c : parents_in m' m → is_kid m' p c = true → is_kid m p c = true.
Proof. intros Hp. rewrite !is_kid_true. intros (e&?&?). eauto. Qed.

Lemma desc_in m' m a j : parents_in m' m → desc m' a j → desc m a j.
Proof. intros Hp. apply desc_mono. eauto. Qed.

Lemma hinv_kids L st m kids kids' rk fl bl km :
  hinv L st m kids rk fl bl km → (∀ p, kids' p = kids p) → hinv L st m kids' rk fl bl km.
Proof.
  intros [? Ht ? Hh] Hk. split; try done.
  - destruct Ht as [H1 H2 H3 H4]. split; try done; intros p; rewrite Hk; auto.
  - destruct Hh as [H1 H2 H3]. split; try done. intros p Hp. rewrite Hk. auto.
Qed.

Lemma kids_of_nested m' kids (P : Z → bool) p :
  (∀ c, is_kid m' p c = true → P c = true) →
  filter (λ c, is_kid m' p c = true) (filter (λ c, P c = true) (kids p)) = kids_of m' kids p.
Proof.
  intros HP. unfold kids_of. rewrite list_filter_filter. apply list_filter_iff.
  intros c. split; [tauto|]. auto.
Qed.

(** Number of entries further from the roots than [i]. *)
Definition above (m : gmap Z ent) (rk : Z → nat) (i : Z) : nat :=
  size (filter (λ j, (rk i < rk j)%nat) (dom m)).

Lemma above_lt m m' rk i c :
  dom m' ⊆ dom m → c ∈ dom m → (rk i < rk c)%nat → (above m' rk c < above m rk i)%nat.
Proof.
  intros Hd Hc Hr. unfold above. apply subset_size. split.
  - intros j. rewrite !elem_of_filter. intros [? ?]. split; [lia|]. by apply Hd.
  - intros Hs. specialize (Hs c). rewrite !elem_of_filter in Hs. destruct Hs; [done|]. lia.
Qed.

(** What freeing one handle does, as the loop over the children uses it. *)
Definition frees_handle (n : nat) : Prop := ∀ L st m kids rk fl bl km i e,
  hinv L st m kids rk fl bl km → m !! i = Some e → e_type e ≠ PVRSRV_HANDLE_TYPE_NONE →
  e_hashed e = negb (is_multi e) → (above m rk i < n)%nat →
  wp (free_handle n i) (λ r st', r = PVRSRV_OK ∧ ∃ m' fl' km',
      freed m (desc m i) m' ∧ fstep st st' m' ∧
      hinv L st' m' (kids_of m' kids) rk fl' bl km') st.

Lemma freed_in m D m' : freed m D m' → (∀ j, D j ∨ ¬ D j) → parents_in m' m.
Proof.
  intros Hf Hdec k e' p Hk Hp. destruct (Hf k) as [H1 H2], (Hdec k) as [Hd|Hd].
  - rewrite H1 in Hk by done. destruct (m !! k) as [e|]; simpl in Hk; [|done].
    apply dead_parent in Hk. congruence.
  - by rewrite <- H2.
Qed.

Lemma freed_dom m D m' : freed m D m' → (∀ j, D j ∨ ¬ D j) → dom m' ⊆ dom m.
Proof.
  intros Hf Hdec k. rewrite !elem_of_dom. destruct (Hf k) as [H1 H2], (Hdec k) as [Hd|Hd].
  - rewrite H1 by done. intros [? ?]. destruct (m !! k); [eauto|done].
  - by rewrite H2.
Qed.

Lemma desc_dec m kids rk a j : tree_ok m kids rk → desc m a j ∨ ¬ desc m a j.
Proof.
  intros Ht. remember (rk j) as n eqn:Hn. revert j Hn.
  induction (lt_wf n) as [n _ IH]. intros j ->.
  destruct (decide (a = j)) as [->|Hne]; [left; constructor|].
  destruct (m !! j) as [e|] eqn:Hj; [destruct (e_parent e) as [p|] eqn:Hp|].
  - destruct (IH (rk p) (proj2 (t_par _ _ _ Ht _ _ _ Hj Hp)) p eq_refl) as [Hd|Hd];
      [left; by eapply desc_step|].
    right. intros Hd'. inversion Hd'; simplify_eq.
  - right. intros Hd'. inversion Hd'; simplify_eq.
  - right. intros Hd'. inversion Hd'; simplify_eq.
Qed.

Lemma desc_list_dec m kids rk (l : list Z) j :
  tree_ok m kids rk → (∃ c, c ∈ l ∧ desc m c j) ∨ ¬ (∃ c, c ∈ l ∧ desc m c j).
Proof.
  intros Ht. induction l as [|c l IH]; [right; set_solver|].
  destruct (desc_dec _ _ _ c j Ht) as [?|Hn]; [left; exists c; set_solver|].
  destruct IH as [(d&?&?)|Hno]; [left; exists d; set_solver|].
  right. intros (d&[->|?]%elem_of_cons&?); [done|]. eauto.
Qed.

(** Releasing one child and then its younger siblings. *)
Lemma freed_cons m kids rk p c ks m2 m' :
  tree_ok m kids rk → kids p = c :: ks →
  freed m (desc m c) m2 → freed m2 (λ j, ∃ d, d ∈ ks ∧ desc m2 d j) m' →
  freed m (λ j, ∃ d, d ∈ c :: ks ∧ desc m d j) m'.
Proof.
  intros Ht Hk H1 H2. pose proof (t_nodup _ _ _ Ht p) as Hnd. rewrite Hk in Hnd.
  apply NoDup_cons in Hnd as [Hc _].
  assert (parents_in m2 m) as Hin by (eapply freed_in; [done|]; intros; by eapply desc_dec).
  assert (∀ d j, d ∈ ks → desc m d j → ¬ desc m c j) as Hdis.
  { intros d j Hd Hdj Hcj. apply (desc_disjoint _ _ _ Ht p c d j); try done.
    - rewrite Hk. by left.
    - rewrite Hk. by right.
    - by intros ->. }
  assert (∀ d j, d ∈ ks → desc m2 d j ↔ desc m d j) as Hiff.
  { intros d j Hd. split; [by apply desc_in|]. apply desc_agree.
    intros k e q Hdk Hke Hkq _. exists e. split; [|done].
    by rewrite (proj2 (H1 k)) by eauto. }
  intros j. split.
  - intros (d&[->|Hd]%elem_of_cons&Hdj).
    + rewrite (proj2 (H2 j)); [by apply H1|]. intros (d&Hd&Hdj'%Hiff); [|done]. by eapply Hdis.
    + rewrite (proj1 (H2 j)) by (exists d; by rewrite Hiff).
      by rewrite (proj2 (H1 j)) by eauto.
  - intros Hn. rewrite (proj2 (H2 j)), (proj2 (H1 j)); [done|..].
    + intros Hcj. apply Hn. exists c. set_solver.
    + intros (d&Hd&Hdj%Hiff); [|done]. apply Hn. exists d. set_solver.
Qed.

Lemma filter_id (P : Z → bool) (l : list Z) :
  (∀ c, c ∈ l → P c = true) → filter (λ c, P c = true) l = l.
Proof.
  induction l as [|c l IH]; [done|]. intros Hl. rewrite filter_cons_True, IH by set_solver. done.
Qed.

Lemma freed_rest m kids rk p c ks m2 :
  tree_ok m kids rk → kids p = c :: ks → freed m (desc m c) m2 → kids_of m2 kids p = ks.
Proof.
  intros Ht Hk Hf. unfold kids_of. rewrite Hk.
  pose proof (t_nodup _ _ _ Ht p) as Hnd. rewrite Hk in Hnd. apply NoDup_cons in Hnd as [Hc Hnd].
  rewrite filter_cons_False.
  - assert (∀ d, d ∈ ks → is_kid m2 p d = true) as Hall.
    { intros d Hd. apply is_kid_true. rewrite (proj2 (Hf d)).
      - apply (t_kids _ _ _ Ht). rewrite Hk. by right.
      - intros Hcd. apply (desc_disjoint _ _ _ Ht p c d d); try done; [..|constructor].
        + rewrite Hk. by left.
        + rewrite Hk. by right.
        + by intros ->. }
    by apply filter_id.
  - rewrite is_kid_true, (proj1 (Hf c)) by constructor. intros (e&He&Hp).
    destruct (m !! c); simpl in He; [|done]. apply dead_parent in He. congruence.
Qed.

Lemma kids_of_id m kids rk p : tree_ok m kids rk → kids_of m kids p = kids p.
Proof.
  intros Ht. unfold kids_of. apply filter_id. intros c Hc.
  apply is_kid_true. by apply (t_kids _ _ _ Ht).
Qed.

Lemma freed_nothing m D : (∀ j, ¬ D j) → freed m D m.
Proof. intros HD j. split; [|done]. intros Hj. by destruct (HD j). Qed.

Lemma wp_iterate_list n : frees_handle n → ∀ ks L st m kids rk fl bl km p f,
  hinv L st m kids rk fl bl km → is_Some (m !! p) → kids p = ks → (length ks ≤ f)%nat →
  (∀ c, c ∈ ks → (above m rk c < n)%nat) →
  wp (iterate_list f p (hd p ks) (free_handle n)) (λ r st', r = PVRSRV_OK ∧ ∃ m' fl' km',
      freed m (λ j, ∃ c, c ∈ ks ∧ desc m c j) m' ∧ fstep st st' m' ∧
      hinv L st' m' (kids_of m' kids) rk fl' bl km') st.
Proof.
  intros HIH ks. induction ks as [|c ks IHks]; intros L st m kids rk fl bl km p f Hi Hp Hk Hf Hab;
    pose proof (i_tree _ _ _ _ _ _ _ _ Hi) as Ht.
  - assert (iterate_list f p (hd p []) (free_handle n) = mret PVRSRV_OK) as ->
      by (destruct f; simpl; by rewrite Z.eqb_refl).
    apply wp_ret. split; [done|]. exists m, fl, km. split_and!.
    + apply freed_nothing. set_solver.
    + apply fstep_refl.
    + eapply hinv_kids; [done|]. intros q. by eapply kids_of_id.
  - assert (c ∈ kids p) as Hcp by (rewrite Hk; by left).
    pose proof Hcp as (ec&Hc&Hpc)%(t_kids _ _ _ Ht).
    assert (c ≠ p) as Hne.
    { intros ->. by apply (desc_kid_parent _ _ _ Ht p p Hcp), desc_refl. }
    destruct f as [|f]; simpl in Hf; [lia|]. simpl. rewrite (proj2 (Z.eqb_neq _ _)) by done.
    pose proof (h_ring _ _ _ _ (i_heap _ _ _ _ _ _ _ _ Hi) p Hp) as Hr. rewrite Hk in Hr.
    destruct Hr as (_&_&Hr%ring_head).
    destruct (h_slot _ _ _ _ (i_heap _ _ _ _ _ _ _ _ Hi) _ _ Hc) as (h&Hh&Hso).
    destruct st as [o b]. simpl in *. wp_step. eapply wp_struct; [done|]. cbn zeta.
    assert (list_of p c h = sSiblings h) as -> by (unfold list_of; by rewrite (proj2 (Z.eqb_neq _ _))).
    assert (ui32Next (sSiblings h) = hd p ks) as ->.
    { rewrite <- Hr. unfold lnx, node. rewrite (proj2 (Z.eqb_neq _ _)) by done.
      by rewrite (proj1 (cnx_hand _ _ _ Hh)). }
    wp_step. eapply wp_mono.
    { eapply HIH; [done..| | |apply Hab; by left].
      - intros Hty. destruct (t_partial _ _ _ Ht _ _ Hc Hty). congruence.
      - apply (i_hashed _ _ _ _ _ _ _ _ Hi _ _ Hc). rewrite Hpc. eauto. }
    intros r st1 (->&m2&fl2&km2&Hf2&Hs2&Hi2). simpl.
    pose proof (freed_rest _ _ _ _ _ _ _ Ht Hk Hf2) as Hk2.
    assert (∀ j, desc m c j ∨ ¬ desc m c j) as Hdec by (intros; by eapply desc_dec).
    pose proof (freed_in _ _ _ Hf2 Hdec) as Hin2. pose proof (freed_dom _ _ _ Hf2 Hdec) as Hd2.
    eapply wp_mono; [eapply IHks; [exact Hi2| |done|lia|]|].
    + rewrite (proj2 (Hf2 p)); [done|]. by apply (desc_kid_parent _ _ _ Ht).
    + intros d Hd. apply Nat.le_lt_trans with (above m rk d); [|apply Hab; by right].
      apply subseteq_size. intros j. rewrite !elem_of_filter. intros [? ?]. split; [done|by apply Hd2].
    + intros r' st' (->&m'&fl'&km'&Hf'&Hs'&Hi'). split; [done|].
      pose proof (i_tree _ _ _ _ _ _ _ _ Hi2) as Ht2.
      assert (∀ j, (∃ d, d ∈ ks ∧ desc m2 d j) ∨ ¬ (∃ d, d ∈ ks ∧ desc m2 d j)) as Hdec'
        by (intros; by eapply desc_list_dec).
      exists m', fl', km'. split_and!.
      * by eapply freed_cons.
      * eapply fstep_trans; [done..|]. intros j Hj. apply elem_of_dom.
        apply (freed_dom _ _ _ Hf' Hdec'). by apply elem_of_dom.
      * eapply hinv_kids; [done|]. intros q. symmetry. apply kids_of_nested. intros d.
        apply is_kid_in. by eapply freed_in.
Qed.

(** The whole handle, from its children. *)
Lemma freed_self m kids rk i e m1 m2 m3 :
  tree_ok m kids rk → m !! i = Some e → m1 = <[i := half e]> m →
  freed m1 (λ j, ∃ c, c ∈ kids i ∧ desc m1 c j) m2 →
  (∀ j, m3 !! j = if decide (j = i) then dead e else m2 !! j) →
  freed m (desc m i) m3.
Proof.
  intros Ht Hi -> Hf H3. set (m1 := <[i := half e]> m) in *.
  assert (∀ j, j ≠ i → m1 !! j = m !! j) as Hm1 by (intros j ?; unfold m1; by rewrite lookup_insert_ne).
  assert (parents_in m1 m) as Hin.
  { intros k e' p [[<- <-]|[? ?]]%lookup_insert_Some; [done|done]. }
  assert (∀ c, c ∈ kids i → ¬ desc m c i) as Hno by (intros; by apply (desc_kid_parent _ _ _ Ht)).
  assert (∀ c j, c ∈ kids i → desc m1 c j ↔ desc m c j) as Hiff.
  { intros c j Hc. split; [by apply desc_in|]. apply desc_agree.
    intros k ek p Hk Hek Hp _. exists ek. split; [|done]. rewrite Hm1; [done|].
    intros ->. by apply (Hno c). }
  intros j. rewrite H3. pose proof (desc_kids _ _ _ Ht i j) as Hd. split.
  - intros Hj. case_decide as Hji; [subst j; by rewrite Hi|].
    apply Hd in Hj as [|(c&Hc&Hcj)]; [done|].
    rewrite (proj1 (Hf j)) by (exists c; by rewrite Hiff). by rewrite Hm1.
  - intros Hj. rewrite decide_False by (intros ->; apply Hj; constructor).
    rewrite (proj2 (Hf j)).
    + rewrite Hm1; [done|]. intros ->. apply Hj. constructor.
    + intros (c&Hc&Hcj%Hiff); [|done]. apply Hj, Hd. eauto.
Qed.

Lemma kids_length m kids rk N fl bl p :
  tree_ok m kids rk → part_ok N m fl bl → 0 ≤ N → (length (kids p) ≤ Z.to_nat N)%nat.
Proof.
  intros Ht Hp HN. assert (kids p ⊆+ seqZ 0 N) as Hl%submseteq_length.
  { apply NoDup_submseteq; [apply Ht|]. intros c (e&Hc&_)%(t_kids _ _ _ Ht).
    apply elem_of_seqZ. pose proof (proj2 (p_part _ _ _ _ Hp c) (or_intror (ex_intro _ e Hc))). lia. }
  by rewrite length_seqZ in Hl.
Qed.

Lemma above_bound m kids rk N fl bl i :
  part_ok N m fl bl → tree_ok m kids rk → 0 ≤ N → is_Some (m !! i) → (above m rk i < Z.to_nat N)%nat.
Proof.
  intros Hp Ht HN Hi. apply Nat.lt_le_trans with (size (dom m)).
  - apply subset_size. split; [set_solver|]. intros Hs.
    specialize (Hs i). rewrite elem_of_filter, elem_of_dom in Hs. destruct (Hs Hi). lia.
  - assert (elements (dom m) ⊆+ seqZ 0 N) as Hl%submseteq_length.
    { apply NoDup_submseteq; [apply NoDup_elements|]. intros c Hc%elem_of_elements%elem_of_dom.
      apply elem_of_seqZ. pose proof (proj2 (p_part _ _ _ _ Hp c) (or_intror Hc)). lia. }
    by rewrite length_seqZ in Hl.
Qed.

(** The kids that are left once [i] is gone. *)
Lemma kids_final m2 m3 kids i p :
  (∀ j, j ≠ i → m3 !! j = m2 !! j) → (∀ p, is_kid m3 p i = false) →
  kids_of m2 (λ q, filter (λ c, c ≠ i) (kids q)) p = kids_of m3 kids p.
Proof.
  intros Hm Hi. unfold kids_of. rewrite list_filter_filter. apply list_filter_iff.
  intros c. destruct (decide (c = i)) as [->|Hne].
  - rewrite Hi. naive_solver.
  - unfold is_kid. rewrite Hm by done. tauto.
Qed.

Lemma is_kid_orphan m p i e : m !! i = Some e → e_parent e = None → is_kid m p i = false.
Proof. intros Hi Hp. unfold is_kid. by rewrite Hi, Hp. Qed.

(** [finish] on a released entry, whatever its batch. *)
Lemma wp_finish L st m kids rk fl bl km i e :
  hinv L st m kids rk fl bl km → m !! i = Some e → e_parent e = None →
  e_hashed e = false → kids i = [] → e_type e ≠ PVRSRV_HANDLE_TYPE_NONE →
  wp (finish i i) (λ r st', r = PVRSRV_OK ∧ ∃ m' fl', (∀ j, m' !! j = if decide (j = i) then dead e else m !! j) ∧
      fstep st st' m' ∧ hinv L st' m' kids rk fl' bl km) st.
Proof.
  intros Hi Hm Hp Hh Hk Hty. destruct st as [o b]. destruct (e_batched e) eqn:Hb.
  - eapply wp_mono; [by apply (wp_finish_partial L o b m kids rk fl bl km i e)|].
    intros r st' (->&Hs&Hi'). split; [done|]. eexists _, _. split_and!; [| |exact Hi'].
    + intros j. case_decide; [subst j; rewrite lookup_insert_eq|by rewrite lookup_insert_ne].
      unfold dead. by rewrite Hb, is_NONE_false.
    + eapply fstep_weaken; [exact Hs|]. intros j. rewrite lookup_insert_is_Some'. intros [<-|?]; eauto.
  - eapply wp_mono; [apply (wp_finish_free L o b m kids rk fl bl km i e); try done|].
    + unfold dead. by rewrite Hb.
    + destruct (h_slot _ _ _ _ (i_heap _ _ _ _ _ _ _ _ Hi) _ _ Hm) as (h&Hhi&Hso).
      unfold hn. simpl in Hhi. rewrite Hhi. by apply (so_next _ _ _ Hso).
    + intros r st' (->&Hs&Hi'). split; [done|]. eexists _, _. split_and!; [|exact Hs|].
      * intros j. case_decide; [subst j; rewrite lookup_delete_eq|by rewrite lookup_delete_ne].
        unfold dead. by rewrite Hb.
      * erewrite filter_ne_not_in in Hi'; [done|apply (i_part _ _ _ _ _ _ _ _ Hi)|done..].
Qed.

(** The children of a detached handle, then the handle itself. *)
Lemma wp_free_rest n L st m m1 kids rk fl bl km i e :
  frees_handle n → tree_ok m kids rk → m !! i = Some e → e_type e ≠ PVRSRV_HANDLE_TYPE_NONE →
  (above m rk i ≤ n)%nat → m1 = <[i := half e]> m →
  hinv L st m1 (λ q, filter (λ c, c ≠ i) (kids q)) rk fl bl km →
  wp (eError ← IterateOverChildren i (free_handle n);
      if negb (is_OK eError) then mret eError else finish i i) (λ r st', r = PVRSRV_OK ∧ ∃ m' fl' km',
      freed m (desc m i) m' ∧ fstep st st' m' ∧
      hinv L st' m' (kids_of m' kids) rk fl' bl km') st.
Proof.
  intros HIH Ht Hm Hty Hab Hm1 Hi. set (kids1 := λ q, filter (λ c, c ≠ i) (kids q)) in *.
  pose proof (i_tree _ _ _ _ _ _ _ _ Hi) as Ht1. pose proof (i_part _ _ _ _ _ _ _ _ Hi) as Hpa.
  assert (m1 !! i = Some (half e)) as Hm1i by (subst m1; apply lookup_insert_eq).
  assert (kids1 i = kids i) as Hki.
  { apply filter_ne. intros Hin. by apply (desc_kid_parent _ _ _ Ht i i Hin), desc_refl. }
  destruct (h_slot _ _ _ _ (i_heap _ _ _ _ _ _ _ _ Hi) _ _ Hm1i) as (h&Hh&Hso).
  pose proof (h_ring _ _ _ _ (i_heap _ _ _ _ _ _ _ _ Hi) i ltac:(eauto)) as Hr%ring_head.
  destruct st as [o b]. simpl in *. pose proof (shape_range _ _ _ (i_shape _ _ _ _ _ _ _ _ Hi) Hh) as Hri.
  assert (0 ≤ ui32TotalHandCount b) as HN by apply (i_shape _ _ _ _ _ _ _ _ Hi).
  unfold IterateOverChildren, HandleListIterate. wp_step. wp_step. eapply wp_struct; [done|].
  wp_step. apply wp_base. rewrite (so_children _ _ _ Hso), HANDLE_TO_INDEX_succ by done.
  assert (ui32Next (sChildren h) = hd i (kids1 i)) as ->.
  { rewrite <- Hr. unfold lnx, node, cnx. rewrite Z.eqb_refl. by rewrite (proj1 (cell_hand _ _ _ Hh)). }
  eapply wp_mono.
  { apply (wp_iterate_list n HIH (kids1 i) L _ m1 kids1 rk fl bl km i); [done|eauto|done| |].
    - by eapply kids_length.
    - intros c (ec&Hc&Hpc)%(t_kids _ _ _ Ht1).
      apply Nat.lt_le_trans with (above m1 rk i); [apply above_lt; [done| |]|].
      + apply elem_of_dom. eauto.
      + by apply (t_par _ _ _ Ht1 _ _ _ Hc Hpc).
      + unfold above in *. subst m1. by rewrite dom_insert_lookup_L by eauto. }
  intros r st2 (->&m2&fl2&km2&Hf2&Hs2&Hi2). cbn [is_OK negb].
  assert (∀ j, (∃ c, c ∈ kids1 i ∧ desc m1 c j) ∨ ¬ (∃ c, c ∈ kids1 i ∧ desc m1 c j)) as Hdec
    by (intros; by eapply desc_list_dec).
  assert (m2 !! i = Some (half e)) as Hm2i.
  { rewrite (proj2 (Hf2 i)); [done|]. intros (c&Hc&Hd). by apply (desc_kid_parent _ _ _ Ht1 i c). }
  assert (kids_of m2 kids1 i = []) as Hk2.
  { pose proof (i_tree _ _ _ _ _ _ _ _ Hi2) as Ht2.
    destruct (kids_of m2 kids1 i) as [|c l] eqn:Hk; [done|]. exfalso.
    assert (c ∈ kids_of m2 kids1 i) as Hc by (rewrite Hk; by left).
    unfold kids_of in Hc. apply list_elem_of_filter in Hc as [(ec&Hc&Hpc)%is_kid_true Hck].
    rewrite (proj1 (Hf2 c)) in Hc by (exists c; split; [done|constructor]).
    destruct (m1 !! c); simpl in Hc; [|done]. apply dead_parent in Hc. congruence. }
  eapply wp_mono; [by apply (wp_finish L st2 m2 (kids_of m2 kids1) rk fl2 bl km2 i (half e))|].
  intros r st3 (->&m3&fl3&Hm3&Hs3&Hi3). split; [done|]. exists m3, fl3, km2. split_and!.
  - eapply freed_self; [done..|rewrite <- Hki; exact Hf2|exact Hm3].
  - eapply fstep_trans; [exact Hs2|exact Hs3|]. intros j. rewrite Hm3.
    case_decide; [|done]. subst j. eauto.
  - eapply hinv_kids; [exact Hi3|]. intros q. symmetry. apply kids_final.
    + intros j Hj. by rewrite Hm3, decide_False.
    + intros p. destruct (dead e) as [e'|] eqn:He.
      * eapply is_kid_orphan; [rewrite Hm3, decide_True by done; exact He|by eapply dead_parent].
      * unfold is_kid. rewrite Hm3, decide_True by done. change (dead (half e)) with (dead e). by rewrite He.
Qed.

Theorem wp_free_handle n : frees_handle n.
Proof.
  induction n as [|n IHn]; intros L st m kids rk fl bl km i e Hi Hm Hty Hhs Hab; [lia|].
  destruct (h_slot _ _ _ _ (i_heap _ _ _ _ _ _ _ _ Hi) _ _ Hm) as (h&Hh&Hso).
  destruct st as [o b]. simpl in Hh. simpl. wp_step. eapply wp_struct; [done|]. cbn zeta.
  apply wp_assoc. fold (detach h i). wp_step.
  eapply wp_mono; [by apply (wp_detach L _ m kids rk fl bl km i e h)|].
  intros _ st1 (km1&Hs1&Hi1). rewrite (so_index _ _ _ Hso). fold (finish i i).
  eapply wp_mono; [eapply (wp_free_rest n); [done|apply (i_tree _ _ _ _ _ _ _ _ Hi)|done|done|lia|done|exact Hi1]|].
  intros r st' (->&m'&fl'&km'&Hf'&Hs'&Hi'). split; [done|]. exists m', fl', km'. split_and!; [done| |done].
  eapply fstep_trans; [exact Hs1|exact Hs'|]. intros j Hj. apply elem_of_dom.
  eapply freed_dom; [exact Hf'|intros; eapply desc_dec; apply (i_tree _ _ _ _ _ _ _ _ Hi)|by apply elem_of_dom].
Qed.

Lemma wp_FreeHandle L st m kids rk fl bl km i e :
  hinv L st m kids rk fl bl km → m !! i = Some e → e_type e ≠ PVRSRV_HANDLE_TYPE_NONE →
  e_hashed e = negb (is_multi e) →
  wp (FreeHandle i) (λ r st', r = PVRSRV_OK ∧ ∃ m' fl' km',
      freed m (desc m i) m' ∧ fstep st st' m' ∧
      hinv L st' m' (kids_of m' kids) rk fl' bl km') st.
Proof.
  intros Hi Hm Hty Hhs. destruct st as [o b]. unfold FreeHandle. wp_step. apply wp_base.
  eapply wp_free_handle; [done..|]. pose proof (i_shape _ _ _ _ _ _ _ _ Hi) as (_&?&_).
  eapply above_bound; [apply (i_part _ _ _ _ _ _ _ _ Hi)|apply (i_tree _ _ _ _ _ _ _ _ Hi)|simpl in *; lia|eauto].
Qed.
