(* ===== verification/HandleAlloc.v ===== *)
(** * Handle tables: growing the array and taking slots *)

From S2P Require Import Prelude Hash Handle HandleRep HandleInv HandleOps HandleFree.

(** ** The blocks *)

Section grow.
Context {heap : HeapContents}.

(** The blocks among [l] that were allocated. *)
Definition granted (l : list sHandleIndex) : Z :=
  Z.of_nat (length (filter (λ ix, is_Some (psHandle ix)) l)).

Lemma wp_free_blocks l o :
  wp (free_blocks l) (λ _ o', os_step (- granted l) o o') o.
Proof.
  revert o. induction l as [|ix l IH]; intros o; simpl.
  - apply wp_ret. by apply os_step_refl.
  - unfold granted. wp_step. destruct (psHandle ix) as [blk|] eqn:Hix.
    + apply wp_OSFreeMem. rewrite filter_cons_True by (rewrite Hix; eauto).
      eapply wp_mono; [apply IH|]. intros _ o' [H1 H2]. split; [|exact H2].
      unfold granted in H1. simpl in *. lia.
    + apply wp_ret. rewrite filter_cons_False by (rewrite Hix; by intros []). apply IH.
Qed.

Lemma wp_alloc_blocks n start e0 o :
  wp (alloc_blocks n start e0) (λ r o', os_step (granted r.1) o o' ∧
      (plenty o → r.2 = e0) ∧ (r.2 = e0 ∨ r.2 = PVRSRV_ERROR_OUT_OF_MEMORY) ∧
      (r.2 = PVRSRV_OK → e0 = PVRSRV_OK ∧
        r.1 = (λ k, mkHandleIndex (Some (new_block (start + 256 * Z.of_nat k))) 256) <$> seq 0 n)) o.
Proof.
  revert start e0 o. induction n as [|n IH]; intros start e0 o; simpl.
  - apply wp_ret. split_and!; [by apply os_step_refl|done|by left|done].
  - wp_step. apply wp_OSAllocMem. intros ok o1 Ho1 Hp1. wp_step.
    eapply wp_mono; [apply IH|]. intros [r e'] o2 ([Hl Hpl]&He&Heo&Hr). simpl in *. apply wp_ret. simpl.
    destruct ok; (split_and!; [split|..]).
    + unfold granted in *. rewrite filter_cons_True by eauto. simpl. lia.
    + intros H. apply Hpl. by apply Hp1.
    + intros H. apply He. by apply Hp1.
    + done.
    + intros H. destruct (Hr H) as [? ->]. split; [done|]. f_equal.
      * do 3 f_equal. lia.
      * rewrite <- fmap_S_seq, <- list_fmap_compose. apply list_fmap_ext. intros ? k _.
        unfold compose, HANDLE_BLOCK_SIZE. do 3 f_equal. lia.
    + unfold granted in *. rewrite filter_cons_False by (by intros []). lia.
    + intros [? ?]%Hp1. done.
    + intros [? ?]%Hp1. done.
    + right. tauto.
    + intros H. by destruct (Hr H).
Qed.

Lemma granted_all n start :
  granted ((λ k, mkHandleIndex (Some (new_block (start + 256 * Z.of_nat k))) 256) <$> seq 0 n) = Z.of_nat n.
Proof.
  unfold granted. f_equal. generalize 0%nat. induction n as [|n IH]; intros j; [done|].
  cbn [seq]. rewrite fmap_cons, filter_cons_True by (simpl; eauto). cbn [length]. by rewrite IH.
Qed.

Lemma new_block_lookup start j h :
  0 ≤ start → start + 256 ≤ 4294967296 →
  new_block start !! j = Some h → h = new_handle (start + Z.of_nat j) ∧ (j < 256)%nat.
Proof.
  intros Hs He. unfold new_block. rewrite list_lookup_fmap_Some.
  intros (k&->&[Hk1 Hk2]%lookup_seq). change (Z.to_nat HANDLE_BLOCK_SIZE) with 256%nat in *.
  subst k. rewrite u32_small by (unfold is_u32; lia). split; [f_equal; lia|done].
Qed.

Lemma length_new_block start : length (new_block start) = 256%nat.
Proof. unfold new_block. by rewrite length_fmap, length_seq. Qed.

(** ** The free list after growing *)

Lemma hn_ext H H' (l : list Z) : (∀ j, j ∈ l → hn H' j = hn H j) → fchain H l → fchain H' l.
Proof.
  induction l as [|x l IH]; [done|]. intros Hl. destruct l as [|y l]; simpl.
  - by rewrite Hl by set_solver.
  - rewrite Hl by set_solver. intros [? ?]. split; [done|]. apply IH; [set_solver|done].
Qed.

Lemma fchain_join H H' l x y r :
  fchain H (l ++ [x]) → (∀ j, j ∈ l → hn H' j = hn H j) → fchain H' (y :: r) → hn H' x = y + 1 →
  fchain H' ((l ++ [x]) ++ y :: r).
Proof.
  intros Hl Hj Hr Hx. induction l as [|z l IH]; [split; [by left|done]|].
  destruct l as [|w l]; simpl in Hl |- *; (split; [rewrite Hj by set_solver; tauto|]);
    (apply IH; [tauto|set_solver]).
Qed.

Lemma fchain_seqZ H i n :
  (∀ j, j ∈ seqZ i n → hn H j = 0) → fchain H (seqZ i n).
Proof.
  destruct (decide (n < 0)) as [Hn|Hn].
  { intros _. unfold seqZ. by replace (Z.to_nat n) with 0%nat by lia. }
  assert (0 ≤ n) as Hn' by lia. clear Hn. revert i. pattern n. apply natlike_ind; [done| |done].
  clear n Hn'. intros n Hn IH i Hz. rewrite seqZ_cons in * by lia.
  replace (Z.pred (Z.succ n)) with n in * by lia.
  assert (fchain H (seqZ (Z.succ i) n)) as Hc by (apply IH; intros j Hj; apply Hz; by right).
  destruct (decide (n = 0)) as [->|Hn0]; [simpl; apply Hz; by left|].
  rewrite seqZ_cons in * by lia. split; [right|exact Hc]. split; [apply Hz; by left|lia].
Qed.
(** ** Growing *)

Definition old_blocks (b : PVRSRV_HANDLE_BASE) : list sHandleIndex := default [] (psHandleArray b).

Lemma array_length N arr : array_ok N arr → 0 ≤ N → N = 256 * Z.of_nat (length (default [] arr)).
Proof. destruct arr; simpl; [tauto|lia]. Qed.

Lemma array_size N : 0 ≤ N ≤ 2147483392 → N mod 256 = 0 → HANDLE_ARRAY_SIZE N = N / 256.
Proof.
  intros HN [k ->]%Z.mod_divide; [|done].
  unfold HANDLE_ARRAY_SIZE, ROUND_UP_TO_MULTIPLE_OF_BLOCK_SIZE, HANDLE_BLOCK_SIZE.
  rewrite (u32_small (k * 256 + 256)), u32_small by (unfold is_u32; lia).
  rewrite block_mask by lia. unfold DIVIDE_BY_BLOCK_SIZE, HANDLE_BLOCK_SHIFT.
  rewrite Z.shiftr_div_pow2 by lia. change (2 ^ 8) with 256. f_equal.
  assert ((k * 256 + 256 - 1) mod 256 = 255); [|lia].
  symmetry. apply Z.mod_unique with k; lia.
Qed.

(** The array with [n] new blocks at its end. *)
Definition grown_array (b : PVRSRV_HANDLE_BASE) (n : nat) : list sHandleIndex :=
  old_blocks b ++ ((λ k, mkHandleIndex (Some (new_block
    (ui32TotalHandCount b + 256 * Z.of_nat k))) 256) <$> seq 0 n).

Lemma grown_array_ok b n :
  shape b → (0 < n)%nat →
  array_ok (ui32TotalHandCount b + 256 * Z.of_nat n) (Some (grown_array b n)).
Proof.
  intros [Ha [H1 _]] Hn. pose proof (array_length _ _ Ha (proj1 H1)) as Hl. fold (old_blocks b) in Hl.
  split_and!.
  - lia.
  - unfold grown_array. rewrite length_app, length_fmap, length_seq. lia.
  - apply Forall_app. split.
    + unfold old_blocks, array_ok in *. destruct (psHandleArray b); [tauto|constructor].
    + apply Forall_fmap, Forall_true. intros k. eexists. split; [done|]. apply length_new_block.
Qed.

Lemma hand_at_grown b n j b1 :
  shape b → psHandleArray b1 = Some (grown_array b n) →
  ui32TotalHandCount b + 256 * Z.of_nat n ≤ 2147483392 →
  (is_Some (hand_at b j) → hand_at b1 j = hand_at b j) ∧
  (ui32TotalHandCount b ≤ j < ui32TotalHandCount b + 256 * Z.of_nat n →
   hand_at b1 j = Some (new_handle j)).
Proof.
  intros Hs Hb1 Hn. pose proof Hs as [Ha [H1 _]].
  pose proof (array_length _ _ Ha (proj1 H1)) as Hl. fold (old_blocks b) in Hl.
  rewrite (hand_at_alt b1), Hb1. unfold grown_array. simpl. split.
  - intros Hj%hand_some; [|done]. rewrite hand_at_alt. destruct (Z.ltb_spec j 0); [lia|].
    unfold old_blocks in *. destruct (psHandleArray b) as [a|]; simpl in *; [|lia].
    rewrite lookup_app_l; [done|]. pose proof (Z.div_lt_upper_bound j 256 (Z.of_nat (length a))).
    pose proof (Z.div_pos j 256). lia.
  - intros Hj. destruct (Z.ltb_spec j 0); [lia|].
    pose proof (Z.mod_pos_bound j 256). pose proof (Z.div_mod j 256).
    assert (Z.of_nat (length (old_blocks b)) ≤ j / 256 <
      Z.of_nat (length (old_blocks b)) + Z.of_nat n) as Hq.
    { split; [apply Z.div_le_lower_bound; lia|apply Z.div_lt_upper_bound; lia]. }
    rewrite lookup_app_r, list_lookup_fmap, lookup_seq_lt by lia. simpl.
    destruct (lookup_lt_is_Some_2 (new_block (ui32TotalHandCount b + 256 * Z.of_nat
      (Z.to_nat (j / 256) - length (old_blocks b)))) (Z.to_nat (j mod 256))) as [h Hh].
    { rewrite length_new_block. lia. }
    rewrite Hh. f_equal. apply new_block_lookup in Hh as [-> _]; [f_equal; lia|lia..].
Qed.

Lemma heap_grow H H' m kids rk fl ext :
  tree_ok m kids rk → heap_ok H m kids fl → (∀ j, is_Some (m !! j) → H' j = H j) →
  (∀ j, j ∈ fl ++ ext → ∃ h, H' j = Some h ∧ eType h = PVRSRV_HANDLE_TYPE_NONE ∧ ui32Index h = j) →
  heap_ok H' m kids (fl ++ ext).
Proof.
  intros Ht [H1 H2 H3] Hm Hf. split; [|done|].
  - intros i e Hi. rewrite Hm by eauto. auto.
  - intros p Hp. assert (∀ j, j ∈ p :: kids p → H' j = H j) as Hj.
    { intros j [->|(?&?&_)%(t_kids _ _ _ Ht)]%elem_of_cons; eauto. }
    eapply ring_ext; [..|by apply H3]; intros j Hin; unfold lnx, lpv, cnx, cpv, cell, node; simpl;
      by rewrite Hj.
Qed.

(** The base [b] with the slots up to [N'] added. *)
Record base_grown (b b' : PVRSRV_HANDLE_BASE) (m : gmap Z ent) (kids : Z → list Z)
    (fl : list Z) (N' : Z) : Prop := {
  bg_shape : shape b';
  bg_total : ui32TotalHandCount b' = N';
  bg_tab : psHashTab b' = psHashTab b;
  bg_max : ui32MaxIndexPlusOne b' = ui32MaxIndexPlusOne b;
  bg_batch : (ui32HandBatchSize b', ui32TotalHandCountPreBatch b', ui32FirstBatchIndexPlusOne b',
    ui32BatchHandAllocFailures b') = (ui32HandBatchSize b, ui32TotalHandCountPreBatch b,
    ui32FirstBatchIndexPlusOne b, ui32BatchHandAllocFailures b);
  bg_purge : bPurgingEnabled b' = bPurgingEnabled b;
  bg_heap : heap_ok (hand_at b') m kids (fl ++ seqZ (ui32TotalHandCount b) (N' - ui32TotalHandCount b));
  bg_free : free_ok (hand_at b') (ui32FirstFreeIndex b') (ui32LastFreeIndexPlusOne b')
    (ui32FreeHandCount b') (fl ++ seqZ (ui32TotalHandCount b) (N' - ui32TotalHandCount b));
  bg_next j : is_Some (m !! j) → hn (hand_at b') j = hn (hand_at b) j }.

Lemma seqZ_last i n : 0 < n → last (seqZ i n) = Some (i + n - 1).
Proof.
  intros Hn. rewrite last_lookup, length_seqZ. apply lookup_seqZ. lia.
Qed.

Lemma last_app_some {A} (l r : list A) x : last r = Some x → last (l ++ r) = Some x.
Proof. intros Hr. rewrite last_app. by rewrite Hr. Qed.

Lemma base_grown_empty b b' n m kids rk N' :
  shape b → shape b' → tree_ok m kids rk → heap_ok (hand_at b) m kids [] → (0 < n)%nat →
  N' = ui32TotalHandCount b + 256 * Z.of_nat n → N' ≤ ui32MaxIndexPlusOne b →
  b' = set_free (N' - ui32TotalHandCount b) (ui32TotalHandCount b) N' N'
         (set_psHandleArray (Some (grown_array b n)) b) →
  base_grown b b' m kids [] N'.
Proof.
  intros Hs Hs' Ht Hh Hn HN' HM Hb'.
  assert (N' ≤ 2147483392) as Hmax by (destruct Hs as (_&?&?&_); lia).
  assert (∀ j, (is_Some (hand_at b j) → hand_at b' j = hand_at b j) ∧
    (ui32TotalHandCount b ≤ j < N' → hand_at b' j = Some (new_handle j))) as Hhand.
  { intros j. rewrite HN'. apply hand_at_grown; [done|by subst b'|lia]. }
  assert (∀ j, is_Some (m !! j) → hand_at b' j = hand_at b j) as Hm.
  { intros j [e Hj]. apply Hhand. destruct (h_slot _ _ _ _ Hh _ _ Hj) as (?&?&_). eauto. }
  split; try (by subst b'); simpl.
  - change (seqZ (ui32TotalHandCount b) (N' - ui32TotalHandCount b)) with
      ([] ++ seqZ (ui32TotalHandCount b) (N' - ui32TotalHandCount b)).
    eapply heap_grow; [done..|]. simpl. intros j Hj%elem_of_seqZ.
    rewrite (proj2 (Hhand j)) by lia. eauto.
  - split.
    + subst b'. simpl. destruct (seqZ _ _) as [|y r] eqn:Hq; [apply (f_equal length) in Hq;
        rewrite length_seqZ in Hq; simpl in Hq; lia|].
      rewrite seqZ_cons in Hq by lia. by injection Hq as <- _.
    + rewrite seqZ_last by lia. subst b'. simpl. lia.
    + rewrite length_seqZ. subst b'. simpl. lia.
    + apply fchain_seqZ. intros j Hj%elem_of_seqZ. unfold hn.
      by rewrite (proj2 (Hhand j)) by lia.
  - intros j Hj. unfold hn. by rewrite Hm.
Qed.

Lemma base_grown_append b b0 b' n m kids rk N' l x hx :
  shape b → shape b0 → tree_ok m kids rk → heap_ok (hand_at b) m kids (l ++ [x]) → (0 < n)%nat →
  N' = ui32TotalHandCount b + 256 * Z.of_nat n → N' ≤ ui32MaxIndexPlusOne b →
  NoDup (l ++ [x]) → m !! x = None → hand_at b x = Some hx →
  free_ok (hand_at b) (ui32FirstFreeIndex b) (ui32LastFreeIndexPlusOne b) (ui32FreeHandCount b) (l ++ [x]) →
  b0 = set_free (ui32FreeHandCount b + (N' - ui32TotalHandCount b)) (ui32FirstFreeIndex b) N' N'
         (set_psHandleArray (Some (grown_array b n)) b) →
  b' = put_hand x (set_next (ui32TotalHandCount b + 1) hx) b0 →
  base_grown b b' m kids (l ++ [x]) N'.
Proof.
  intros Hs Hs0 Ht Hh Hn HN' HM Hnd Hmx Hhx [F1 F2 F3 F4] Hb0 Hb'.
  assert (N' ≤ 2147483392) as Hmax by (destruct Hs as (_&?&?&_); lia).
  assert (∀ j, (is_Some (hand_at b j) → hand_at b0 j = hand_at b j) ∧
    (ui32TotalHandCount b ≤ j < N' → hand_at b0 j = Some (new_handle j))) as Hh0.
  { intros j. rewrite HN'. apply hand_at_grown; [done|by subst b0|lia]. }
  assert (hand_at b0 x = Some hx) as Hx0 by (rewrite (proj1 (Hh0 x)); eauto).
  pose proof (shape_range _ _ _ Hs Hhx) as Hxr.
  assert (∀ j, hand_at b' j = if decide (j = x) then Some (set_next (ui32TotalHandCount b + 1) hx)
    else hand_at b0 j) as Hh' by (intros j; subst b'; apply hand_at_put; eauto).
  assert (∀ j, is_Some (m !! j) → hand_at b' j = hand_at b j) as Hm.
  { intros j [e Hj]. rewrite Hh', decide_False by (intros ->; congruence). apply Hh0.
    destruct (h_slot _ _ _ _ Hh _ _ Hj) as (?&?&_). eauto. }
  assert (x < ui32TotalHandCount b) as Hxn by (apply (hand_some b x Hs); eauto).
  assert (∀ j, j ∈ seqZ (ui32TotalHandCount b) (N' - ui32TotalHandCount b) →
    hand_at b' j = Some (new_handle j)) as Hnew.
  { intros j Hj%elem_of_seqZ. rewrite Hh', decide_False by lia. apply Hh0. lia. }
  assert (∀ j, j ∈ l ++ [x] → is_Some (hand_at b j)) as Hold.
  { intros j Hj. destruct (h_free _ _ _ _ Hh _ Hj) as (?&?&_). eauto. }
  split; try (by subst b' b0); simpl.
  - subst b'. apply shape_put; [done|lia].
  - eapply heap_grow; [done..|]. intros j [Hj|Hj]%elem_of_app.
    + destruct (h_free _ _ _ _ Hh _ Hj) as (h&Hhj&?&?). rewrite Hh'.
      case_decide; [simplify_eq; eauto|]. rewrite (proj1 (Hh0 j)) by eauto. eauto.
    + rewrite Hnew by done. eauto.
  - split.
    + subst b' b0. simpl. rewrite F1. by destruct l.
    + rewrite (last_app_some _ _ (N' - 1)) by (rewrite seqZ_last by lia; f_equal; lia).
      subst b' b0. simpl. lia.
    + rewrite length_app, length_seqZ. subst b' b0. simpl. rewrite F3. lia.
    + assert (fchain (hand_at b') (seqZ (ui32TotalHandCount b) (N' - ui32TotalHandCount b))) as Hc
        by (apply fchain_seqZ; intros j Hj; unfold hn; by rewrite Hnew).
      rewrite seqZ_cons in * by lia. apply fchain_join with (hand_at b); [done| |done|].
      * intros j Hj. unfold hn. rewrite Hh', decide_False.
        -- rewrite (proj1 (Hh0 j)); [done|]. apply Hold. set_solver.
        -- intros ->. apply NoDup_app in Hnd as (_&Hd&_). set_solver.
      * unfold hn. by rewrite Hh', decide_True.
  - intros j Hj. unfold hn. by rewrite Hm.
Qed.

(** ** [ReallocHandleArray] on the way up *)

Lemma shape_set b n N' :
  shape b → (0 < n)%nat → N' = ui32TotalHandCount b + 256 * Z.of_nat n → N' ≤ ui32MaxIndexPlusOne b →
  ∀ c f l, shape (set_free c f N' l (set_psHandleArray (Some (grown_array b n)) b)).
Proof.
  intros Hs Hn -> HM c f l. pose proof Hs as (_&?&?&?). split; [by apply grown_array_ok|].
  cbn [ui32TotalHandCount ui32MaxIndexPlusOne set_free set_psHandleArray].
  split_and!; try done; lia.
Qed.

Lemma wp_realloc_commit L o o2 b m kids rk fl bl km n N' :
  hinv L (mk_hb o b) m kids rk fl bl km → (fl = [] ∨ ui32FirstFreeIndex b ≠ 0) → (0 < n)%nat →
  N' = ui32TotalHandCount b + 256 * Z.of_nat n → N' ≤ ui32MaxIndexPlusOne b →
  wp (realloc_commit (Some (grown_array b n)) (ui32TotalHandCount b) N')
    (λ _ st', ∃ o' b', st' = mk_hb o' b' ∧ base_grown b b' m kids fl N' ∧
      os_step (match psHandleArray b with Some _ => -1 | None => 0 end) o2 o' ∧
      array_blocks b' = 1 + Z.of_nat (length (grown_array b n))) (mk_hb o2 b).
Proof.
  intros [Hs Ht Hpa Hh Hf _ _ _ Hpu _] Hfirst Hn HN' HM. simpl in *.
  assert (N' ≤ 2147483392) as Hmax by (destruct Hs as (_&?&?&_); lia).
  assert (0 ≤ ui32TotalHandCount b) as H0 by apply Hs.
  pose proof (part_length _ _ _ _ Hpa H0) as Hlen. pose proof Hf as [F1 F2 F3 _].
  unfold realloc_commit. hb_steps. apply wp_mono with (Q := λ _ st', ∃ o', st' = mk_hb o' b ∧
    os_step (match psHandleArray b with Some _ => -1 | None => 0 end) o2 o').
  { destruct (psHandleArray b); [|apply wp_ret; eexists; split; [done|apply os_step_refl]].
    apply wp_on_os, wp_OSFreeMem. eexists. split; [done|]. by apply (os_step_free 0), os_step_refl. }
  intros _ st' (o'&->&Hos). hb_steps. simpl.
  destruct (Z.gtb_spec N' (ui32TotalHandCount b)) as [_|]; [|lia].
  hb_steps. rewrite F3, (u32_small (Z.of_nat _ + _)) by (unfold is_u32; lia). rewrite Hpu. simpl.
  destruct fl as [|x l _] using rev_ind.
  - simpl in F1. rewrite F1. simpl. hb_steps. eexists _, _. split; [done|].
    change (Z.of_nat (length (@nil Z)) + (N' - ui32TotalHandCount b)) with (N' - ui32TotalHandCount b).
    split_and!; [|done|done].
    eapply (base_grown_empty b _ n); [done| |done..]. by apply shape_set.
  - assert (ui32FirstFreeIndex b ≠ 0) as Hnz by (destruct Hfirst as [?|]; [by destruct l|done]).
    rewrite (proj2 (Z.eqb_neq _ _)) by done.
    rewrite last_snoc in F2. rewrite F2.
    destruct (h_free _ _ _ _ Hh x ltac:(set_solver)) as (hx&Hhx&_).
    pose proof (shape_range _ _ _ Hs Hhx). replace (x + 1 - 1) with x by lia.
    rewrite !u32_small by (unfold is_u32; lia).
    assert (ui32TotalHandCount b + 256 * Z.of_nat n ≤ 2147483392) as Hle by lia.
    eapply wp_upd_handle.
    { etrans; [|exact Hhx]. apply (hand_at_grown b n x); [done|done|lia|eauto]. }
    hb_steps. eexists _, _. split; [done|]. split_and!; [|done|].
    + eapply (base_grown_append b (set_free (ui32FreeHandCount b + (N' - ui32TotalHandCount b))
        (ui32FirstFreeIndex b) N' N' (set_psHandleArray (Some (grown_array b n)) b)) _ n); try done.
      * by apply shape_set.
      * apply Hpa.
      * apply (p_disj _ _ _ _ Hpa). set_solver.
      * by rewrite F3.
    + unfold array_blocks, put_hand, set_index. simpl. by rewrite length_alter.
Qed.

(** ** Making room *)

(** A step that adds free slots and changes nothing else. *)
Record grow_step (st st' : hb_st) (m : gmap Z ent) : Prop := {
  gs_max : ui32MaxIndexPlusOne (hb_base st') = ui32MaxIndexPlusOne (hb_base st);
  gs_batch : (ui32HandBatchSize (hb_base st'), ui32TotalHandCountPreBatch (hb_base st'),
    ui32FirstBatchIndexPlusOne (hb_base st'), ui32BatchHandAllocFailures (hb_base st')) =
    (ui32HandBatchSize (hb_base st), ui32TotalHandCountPreBatch (hb_base st),
    ui32FirstBatchIndexPlusOne (hb_base st), ui32BatchHandAllocFailures (hb_base st));
  gs_plenty : plenty (hb_os st) → plenty (hb_os st');
  gs_next j : is_Some (m !! j) → hn (hand_at (hb_base st')) j = hn (hand_at (hb_base st)) j }.

Lemma grow_step_os o o' b m : (plenty o → plenty o') → grow_step (mk_hb o b) (mk_hb o' b) m.
Proof. by split. Qed.

(** The outcome of making room: more free slots, or nothing and the reason. *)
Definition room_made (L : Z) (st : hb_st) (m : gmap Z ent) (kids : Z → list Z) (rk : Z → nat)
    (fl bl : list Z) (km : gmap (list Z) Z) (need : Z) (full : Prop)
    (r : PVRSRV_ERROR) (st' : hb_st) : Prop :=
  grow_step st st' m ∧
  (r = PVRSRV_OK ∧ (∃ ext, hinv L st' m kids rk (fl ++ ext) bl km ∧
     need ≤ Z.of_nat (length (fl ++ ext)))
   ∨ r = PVRSRV_ERROR_OUT_OF_MEMORY ∧ hb_base st' = hb_base st ∧
     hinv L st' m kids rk fl bl km ∧ (full ∨ ¬ plenty (hb_os st))).

Lemma part_grow N N' m fl bl :
  part_ok N m fl bl → 0 ≤ N ≤ N' → part_ok N' m (fl ++ seqZ N (N' - N)) bl.
Proof.
  intros [H1 H2 H3 H4 H5] HN. split; [..|done|done].
  - intros i. rewrite elem_of_app, elem_of_seqZ. specialize (H1 i). split; [|naive_solver lia].
    intros Hi. destruct (decide (i < N)); [|left; right; lia]. naive_solver lia.
  - intros i [?|Hi%elem_of_seqZ]%elem_of_app; [auto|].
    apply eq_None_not_Some. intros Hs. pose proof (proj2 (H1 i) (or_intror Hs)). lia.
  - apply NoDup_app. split_and!; [done| |apply NoDup_seqZ].
    intros i Hi Hi'%elem_of_seqZ. pose proof (proj2 (H1 i) (or_introl Hi)). lia.
Qed.

Lemma hinv_os L o o' b m kids rk fl bl km :
  hinv L (mk_hb o b) m kids rk fl bl km → os_live o' = os_live o →
  hinv L (mk_hb o' b) m kids rk fl bl km.
Proof. intros [] Ho. split; try done. simpl in *. lia. Qed.

Lemma hinv_grown L o b o' b' m kids rk fl bl km N' :
  hinv L (mk_hb o b) m kids rk fl bl km → base_grown b b' m kids fl N' →
  ui32TotalHandCount b ≤ N' → os_live o' = os_live o + array_blocks b' - array_blocks b →
  hinv L (mk_hb o' b') m kids rk (fl ++ seqZ (ui32TotalHandCount b) (N' - ui32TotalHandCount b)) bl km.
Proof.
  intros [Hs Ht Hp Hh Hf Hha Hk Hhd Hpu Hlv] [] HN Ho. simpl in *. split; simpl; try done.
  - rewrite bg_total0. apply part_grow; [done|]. split; [apply Hs|done].
  - by rewrite bg_tab0.
  - congruence.
  - lia.
Qed.

(** The new array with its blocks, and the commit; or no memory, and
    everything as it was. *)
Lemma wp_realloc_up o b N' (Q : PVRSRV_ERROR → hb_st → Prop) :
  shape b → ui32TotalHandCount b < N' ≤ ui32MaxIndexPlusOne b → N' mod 256 = 0 →
  (∀ o' n, (0 < n)%nat → N' = ui32TotalHandCount b + 256 * Z.of_nat n →
     os_live o' = os_live o + 1 + Z.of_nat n → (plenty o → plenty o') →
     wp (realloc_commit (Some (grown_array b n)) (ui32TotalHandCount b) N') (λ _, Q PVRSRV_OK) (mk_hb o' b)) →
  (∀ o', os_live o' = os_live o → ¬ plenty o → Q PVRSRV_ERROR_OUT_OF_MEMORY (mk_hb o' b)) →
  wp (ReallocHandleArray N') Q (mk_hb o b).
Proof.
  intros Hs HN Hmod HQ1 HQ2. pose proof Hs as (Ha&H0&Hmax&Hmm).
  pose proof (array_length _ _ Ha (proj1 H0)) as Hal. fold (old_blocks b) in Hal.
  assert (ui32TotalHandCount b mod 256 = 0) as Hm0
    by (rewrite Hal, Z.mul_comm; apply Z.mod_mul; lia).
  unfold ReallocHandleArray, HANDLE_BLOCK_SIZE. wp_step. apply wp_base.
  rewrite (proj2 (Z.eqb_neq N' _)) by lia. rewrite (proj2 (Z.ltb_ge N' _)) by lia.
  rewrite andb_false_r, Hm0, Hmod. simpl. rewrite (proj2 (Z.eqb_neq N' 0)) by lia. simpl.
  wp_step. apply wp_on_os, wp_OSAllocMem. intros ok o1 Ho1 Hp1.
  destruct ok; simpl; [|apply wp_ret, HQ2; [lia|by intros []%Hp1]].
  wp_step. apply wp_mono with (Q := λ old st', old = old_blocks b ∧ st' = mk_hb o1 b).
  { unfold old_blocks. destruct (Z.eqb_spec (ui32TotalHandCount b) 0) as [Hz|Hz].
    - apply wp_ret. destruct (psHandleArray b); [by destruct Ha|done].
    - destruct (psHandleArray b); [by apply wp_ret|by simpl in Ha]. }
  intros old st' [-> ->]. rewrite Z.min_r by lia. wp_step. wp_step. wp_step.
  apply wp_on_os. rewrite !block_index by lia. set (n := Z.to_nat _).
  assert (N' = ui32TotalHandCount b + 256 * Z.of_nat n ∧ (0 < n)%nat) as [HN' Hn].
  { apply Z.mod_divide in Hmod as [q ->]; [|done]. apply Z.mod_divide in Hm0 as [q0 Hq0]; [|done].
    unfold n. rewrite Hq0, !Z.div_mul by done. lia. }
  eapply wp_mono; [apply wp_alloc_blocks|]. intros [new e'] o2 ([Hl2 Hpl2]&He2&Heo&Hnew). simpl in *.
  destruct (is_OK e') eqn:He; simpl.
  - apply is_OK_true in He. destruct (Hnew He) as [_ ->].
    rewrite array_size, take_ge by lia || (rewrite Hal, Z.mul_comm, Z.div_mul by done; lia).
    fold (grown_array b n). wp_step. rewrite granted_all in Hl2.
    eapply wp_mono; [apply (HQ1 o2 n Hn HN'); [lia|intros ?; by apply Hpl2, Hp1]|].
    intros [] st' HQ. wp_step. exact HQ.
  - destruct Heo as [->| ->]; [done|].
    wp_step. apply wp_on_os. eapply wp_mono; [apply wp_free_blocks|]. intros _ o3 [Hl3 Hp3].
    wp_step. apply wp_on_os, wp_OSFreeMem. wp_step. apply HQ2; [simpl; lia|].
    intros [_ Hpo]%Hp1. discriminate (He2 Hpo).
Qed.

Lemma wp_ReallocHandleArray L o b m kids rk fl bl km N' :
  hinv L (mk_hb o b) m kids rk fl bl km → (fl = [] ∨ ui32FirstFreeIndex b ≠ 0) →
  ui32TotalHandCount b < N' ≤ ui32MaxIndexPlusOne b → N' mod 256 = 0 →
  wp (ReallocHandleArray N') (room_made L (mk_hb o b) m kids rk fl bl km
    (Z.of_nat (length fl) + (N' - ui32TotalHandCount b)) False) (mk_hb o b).
Proof.
  intros Hi Hfirst HN Hmod. pose proof (i_shape _ _ _ _ _ _ _ _ Hi) as Hs. simpl in Hs.
  pose proof Hs as (Ha&H0&_). pose proof (array_length _ _ Ha (proj1 H0)) as Hal. fold (old_blocks b) in Hal.
  apply wp_realloc_up; [done..| |].
  - intros o2 n Hn HN' Hl2 Hp2.
    eapply wp_mono; [by eapply (wp_realloc_commit L o o2); try done; lia|].
    intros _ st' (o'&b'&->&Hg&[Hlo Hplo]&Hab). split.
    + destruct Hg. split; simpl; [done..| |done]. auto.
    + left. split; [done|]. eexists. split.
      * eapply hinv_grown; [done..|lia|]. rewrite Hlo, Hl2, Hab.
        unfold grown_array, array_blocks, old_blocks in *. rewrite length_app, length_fmap, length_seq.
        destruct (psHandleArray b); simpl in *; lia.
      * rewrite length_app, length_seqZ. lia.
  - intros o' Hl Hno. split; [by apply grow_step_os|]. right.
    split_and!; [done..|by eapply hinv_os|by right].
Qed.

Lemma round_up_spec d :
  0 < d < 4294967296 →
  0 ≤ ROUND_UP_TO_MULTIPLE_OF_BLOCK_SIZE d < 4294967296 ∧
  (ROUND_UP_TO_MULTIPLE_OF_BLOCK_SIZE d = 0 ∨
   d ≤ ROUND_UP_TO_MULTIPLE_OF_BLOCK_SIZE d ∧ ROUND_UP_TO_MULTIPLE_OF_BLOCK_SIZE d mod 256 = 0).
Proof.
  intros Hd. unfold ROUND_UP_TO_MULTIPLE_OF_BLOCK_SIZE, HANDLE_BLOCK_SIZE.
  pose proof (u32_range (u32 (d + 256) - 1)) as Hr. unfold is_u32 in Hr.
  set (a := u32 (u32 (d + 256) - 1)) in *. rewrite block_mask by exact Hr.
  assert (∀ x, 0 ≤ x < 4294967296 → 0 ≤ x - x mod 256 ∧ (x - x mod 256) mod 256 = 0) as Hx.
  { intros x Hx. pose proof (Z.div_mod x 256 ltac:(lia)). pose proof (Z.mod_pos_bound x 256).
    split; [pose proof (Z.mod_le x 256); lia|]. replace (x - x mod 256) with (x / 256 * 256) by lia.
    apply Z.mod_mul. lia. }
  pose proof (Hx a Hr) as [H1 H2].
  pose proof (Z.mod_pos_bound a 256). split; [lia|].
  destruct (Z.lt_trichotomy (d + 256) 4294967296) as [Hlt|[Heq|Hgt]].
  - right. split; [|done]. assert (a = d + 255) as -> by (unfold a; rewrite (u32_small (d + 256)), u32_small;
      unfold is_u32; lia). pose proof (Z.mod_pos_bound (d + 255) 256). lia.
  - right. assert (d = 4294967040) as -> by lia. split; [by vm_compute|done].
  - left. assert (a = d + 256 - 4294967296 - 1) as Ha.
    { unfold a. assert (u32 (d + 256) = d + 256 - 4294967296) as ->
        by (unfold u32; rewrite <- (Z.mod_unique _ _ 1 (d + 256 - 4294967296)); lia).
      apply u32_small. unfold is_u32. lia. }
    rewrite Z.mod_small; lia.
Qed.

Lemma u32_add N D : 0 ≤ N < 4294967296 → 0 ≤ D < 4294967296 →
  u32 (N + D) = N + D ∨ u32 (N + D) < N.
Proof.
  intros HN HD. destruct (decide (N + D < 4294967296)).
  - left. apply u32_small. unfold is_u32. lia.
  - right. unfold u32. rewrite <- (Z.mod_unique _ _ 1 (N + D - 4294967296)); lia.
Qed.

Lemma room_weaken L st m kids rk fl bl km need need' (full full' : Prop) r st' :
  need' ≤ need → (full → full') →
  room_made L st m kids rk fl bl km need full r st' →
  room_made L st m kids rk fl bl km need' full' r st'.
Proof.
  intros Hn Hf [Hs [(->&ext&?&?)|(->&?&?&?)]]; (split; [done|]).
  - left. split; [done|]. exists ext. split; [done|lia].
  - right. split_and!; [done..|tauto].
Qed.

(** At least [d] slots more, or the limit is in the way. *)
Lemma wp_increase o b d (Q : PVRSRV_ERROR → hb_st → Prop) :
  shape b → 0 < d < 4294967296 →
  (ui32MaxIndexPlusOne b - ui32TotalHandCount b < d → Q PVRSRV_ERROR_OUT_OF_MEMORY (mk_hb o b)) →
  (∀ N', ui32TotalHandCount b < N' ≤ ui32MaxIndexPlusOne b → N' mod 256 = 0 →
     d ≤ N' - ui32TotalHandCount b → wp (ReallocHandleArray N') Q (mk_hb o b)) →
  wp (IncreaseHandleArraySize d) Q (mk_hb o b).
Proof.
  intros Hs Hd HQ1 HQ2. pose proof Hs as (Ha&H0&Hmax&Hmm).
  assert (ui32TotalHandCount b mod 256 = 0) as Hm0.
  { pose proof (array_length _ _ Ha (proj1 H0)) as ->. rewrite Z.mul_comm. apply Z.mod_mul. lia. }
  destruct (round_up_spec d Hd) as [HD HD'].
  unfold IncreaseHandleArraySize. wp_step. apply wp_base. set (D := ROUND_UP_TO_MULTIPLE_OF_BLOCK_SIZE d) in *.
  pose proof (u32_add (ui32TotalHandCount b) D ltac:(lia) HD) as Hsum.
  destruct (_ || _) eqn:Hc.
  - rewrite u32_small by (unfold is_u32; lia).
    destruct (Z.ltb_spec (ui32MaxIndexPlusOne b - ui32TotalHandCount b) d); [apply wp_ret; auto|].
    apply HQ2; [lia|done|lia].
  - apply orb_false_iff in Hc as [H1 H2]. rewrite Z.gtb_ltb, Z.ltb_ge in H1. rewrite Z.leb_gt in H2.
    destruct Hsum as [Hsum|]; [|lia]. rewrite Hsum in *. destruct HD' as [?|[? Hmod]]; [lia|].
    apply HQ2; [lia| |lia]. rewrite Z.add_mod, Hm0, Hmod by lia. done.
Qed.

Lemma wp_IncreaseHandleArraySize L o b m kids rk fl bl km d :
  hinv L (mk_hb o b) m kids rk fl bl km → (fl = [] ∨ ui32FirstFreeIndex b ≠ 0) → 0 < d < 4294967296 →
  wp (IncreaseHandleArraySize d) (room_made L (mk_hb o b) m kids rk fl bl km
    (Z.of_nat (length fl) + d) (ui32MaxIndexPlusOne b - ui32TotalHandCount b < d)) (mk_hb o b).
Proof.
  intros Hi Hf Hd. apply wp_increase; [apply (i_shape _ _ _ _ _ _ _ _ Hi)|done|..].
  - intros Hlim. split; [by apply grow_step_os|]. right. split_and!; [done..|by left].
  - intros N' HN Hmod Hge. eapply wp_mono; [by eapply wp_ReallocHandleArray|]. intros r st'.
    apply room_weaken; [lia|done].
Qed.

Lemma wp_EnsureFreeHandles L o b m kids rk fl bl km k :
  hinv L (mk_hb o b) m kids rk fl bl km →
  (fl = [] ∨ ui32FirstFreeIndex b ≠ 0 ∨ k ≤ Z.of_nat (length fl)) → 0 < k < 4294967296 →
  wp (EnsureFreeHandles k) (room_made L (mk_hb o b) m kids rk fl bl km k
    (ui32MaxIndexPlusOne b - ui32TotalHandCount b < k - Z.of_nat (length fl))) (mk_hb o b).
Proof.
  intros Hi Hf Hk. unfold EnsureFreeHandles. wp_step. apply wp_base.
  pose proof (f_count _ _ _ _ _ (i_free _ _ _ _ _ _ _ _ Hi)) as Hc. simpl in Hc. rewrite Hc.
  destruct (Z.gtb_spec k (Z.of_nat (length fl))).
  - eapply wp_mono; [eapply wp_IncreaseHandleArraySize; [done|destruct Hf as [?|[?|?]]; auto; lia|lia]|].
    intros r st'. apply room_weaken; [lia|done].
  - apply wp_ret. split; [by split|]. left. split; [done|]. exists []. rewrite app_nil_r.
    split; [done|lia].
Qed.
End grow.
