(* ===== verification/HandleTake.v ===== *)
(** * Handle tables: [AllocHandle] *)

From S2P Require Import Prelude Hash Handle HandleRep HandleInv HandleOps HandleFree HandleAlloc.

(** The invariant but for which entries the hash table has: while a
    sub-handle is being made its key is in the table before its parent is in
    the structure. *)
Record hinv0 (L : Z) (st : hb_st) (m : gmap Z ent) (kids : Z → list Z) (rk : Z → nat)
    (fl bl : list Z) (km : gmap (list Z) Z) : Prop := {
  z_shape : shape (hb_base st);
  z_tree : tree_ok m kids rk;
  z_part : part_ok (ui32TotalHandCount (hb_base st)) m fl bl;
  z_heap : heap_ok (hand_at (hb_base st)) m kids fl;
  z_free : free_ok (hand_at (hb_base st)) (ui32FirstFreeIndex (hb_base st))
    (ui32LastFreeIndexPlusOne (hb_base st)) (ui32FreeHandCount (hb_base st)) fl;
  z_hash : hash_ok (psHashTab (hb_base st)) km;
  z_purge : bPurgingEnabled (hb_base st) = false;
  z_live : os_live (hb_os st) = L + array_blocks (hb_base st) + Z.of_nat (size km) }.

Lemma hinv_of0 L st m kids rk fl bl km :
  hinv0 L st m kids rk fl bl km → keyed m km → hashed_ok m → hinv L st m kids rk fl bl km.
Proof. by intros []. Qed.

(** ** Taking the head of the free list *)

(** The free list of [b] is left without its head; nothing else changes. *)
Record slot_taken (b b' : PVRSRV_HANDLE_BASE) (fl : list Z) : Prop := {
  tk_shape : shape b';
  tk_fields : bfields b' = bfields b;
  tk_tab : psHashTab b' = psHashTab b;
  tk_purge : bPurgingEnabled b' = bPurgingEnabled b;
  tk_blocks : array_blocks b' = array_blocks b;
  tk_hand j : hand_at b' j = hand_at b j;
  tk_free : free_ok (hand_at b') (ui32FirstFreeIndex b') (ui32LastFreeIndexPlusOne b')
    (ui32FreeHandCount b') fl }.

Lemma fchain_tail H x fl : fchain H (x :: fl) → fchain H fl.
Proof. destruct fl; simpl; tauto. Qed.

Lemma wp_take_slot o b i fl h :
  shape b → bPurgingEnabled b = false → hand_at b i = Some h →
  free_ok (hand_at b) (ui32FirstFreeIndex b) (ui32LastFreeIndexPlusOne b) (ui32FreeHandCount b) (i :: fl) →
  (∀ j, j ∈ fl → is_Some (hand_at b j)) → Z.of_nat (length fl) < 4294967295 →
  wp (take_slot i i) (λ _ st', ∃ b', st' = mk_hb o b' ∧ slot_taken b b' fl) (mk_hb o b).
Proof.
  intros Hs Hpu Hh [F1 F2 F3 F4] Hsome Hlen. pose proof (shape_range _ _ _ Hs Hh).
  unfold take_slot. hb_steps. simpl. rewrite F3.
  replace (Z.of_nat (length (i :: fl)) - 1) with (Z.of_nat (length fl)) by (simpl; lia).
  rewrite (u32_small (Z.of_nat _)) by (unfold is_u32; lia).
  apply wp_upd_block_count; [exists h; exact Hh|]. intros c.
  assert (∀ b', psHandleArray b' = psHandleArray (set_block_count i c b) →
    (∀ j, hand_at b' j = hand_at b j) ∧ array_blocks b' = array_blocks b) as Hsame.
  { intros b' Hb'. split.
    - intros j. rewrite <- (hand_at_count b i c j) by lia. by apply hand_at_arr.
    - rewrite <- (array_blocks_count b i c). unfold array_blocks. by rewrite Hb'. }
  hb_steps. simpl. rewrite Hpu. simpl.
  destruct fl as [|y fl].
  - simpl. hb_steps. eexists. split; [done|].
    match goal with |- slot_taken _ ?b' _ => destruct (Hsame b' eq_refl) as [Hha Hbl] end.
    split; try done. exact (shape_count _ _ _ Hs).
  - rewrite (proj2 (Z.eqb_neq _ _)) by (rewrite length_cons; lia).
    wp_step. eapply wp_struct; [etrans; [apply Hsame; reflexivity|exact Hh]|].
    hb_steps. eexists. split; [done|].
    assert (ui32NextIndexPlusOne h = hn (hand_at b) i) as Hn by (unfold hn; by rewrite Hh).
    destruct (Hsome y ltac:(set_solver)) as [hy Hhy]. pose proof (shape_range _ _ _ Hs Hhy).
    set (nf := if _ =? 0 then _ else _). assert (nf = y) as ->.
    { unfold nf. rewrite Hn. simpl in F4. destruct F4 as [[-> | [-> ->]] _].
      - rewrite (proj2 (Z.eqb_neq _ _)) by lia. replace (y + 1 - 1) with y by lia.
        apply u32_small. unfold is_u32. lia.
      - simpl. apply u32_small. unfold is_u32. lia. }
    match goal with |- slot_taken _ ?b' _ => destruct (Hsame b' eq_refl) as [Hha Hbl] end.
    split; try done; [exact (shape_count _ _ _ Hs)|].
    split; [done|exact F2|done|].
    eapply hn_ext; [|exact (fchain_tail _ _ _ F4)]. intros j _. unfold hn. by rewrite Hha.
Qed.

(** ** A new entry *)

Lemma kids_new m kids rk i :
  tree_ok m kids rk → m !! i = None → kids i = [].
Proof.
  intros Ht Hi. destruct (kids i) as [|c l] eqn:Hk; [done|]. exfalso.
  assert (c ∈ kids i) as (ec&Hc&Hp)%(t_kids _ _ _ Ht) by (rewrite Hk; by left).
  destruct (proj1 (t_par _ _ _ Ht _ _ _ Hc Hp)) as (?&?&_). congruence.
Qed.

Lemma tree_new m kids rk i e :
  tree_ok m kids rk → m !! i = None → e_parent e = None → e_type e ≠ PVRSRV_HANDLE_TYPE_NONE →
  tree_ok (<[i := e]> m) kids rk.
Proof.
  intros Ht Hi Hp Hty. split.
  - intros p c. rewrite (t_kids _ _ _ Ht). destruct (decide (c = i)) as [->|?].
    + rewrite lookup_insert_eq, Hi. split; [by intros (?&[=]&_)|]. intros (?&[= <-]&?). congruence.
    + by rewrite lookup_insert_ne.
  - apply Ht.
  - intros c ec p [[<- <-]|[Hne Hc]]%lookup_insert_Some Hcp; [congruence|].
    destruct (t_par _ _ _ Ht _ _ _ Hc Hcp) as [(ep&?&?) ?]. split; [|done]. exists ep.
    rewrite lookup_insert_ne; [done|]. intros ->. congruence.
  - intros j ej [[<- <-]|[? Hj]]%lookup_insert_Some Ht'; [done|].
    exact (t_partial _ _ _ Ht _ _ Hj Ht').
Qed.

Lemma part_new N m fl bl i e :
  part_ok N m (i :: fl) bl →
  part_ok N (<[i := e]> m) fl (if e_batched e then i :: bl else bl).
Proof.
  intros [H1 H2 [H3 H3']%NoDup_cons H4 H5].
  assert (m !! i = None) as Hi by (apply H2; by left).
  assert (i ∉ bl) as Hib by (intros (?&?&?)%H5; congruence).
  split.
  - intros j. rewrite H1, elem_of_cons, lookup_insert_is_Some'. naive_solver.
  - intros j Hj. rewrite lookup_insert_ne by naive_solver. apply H2. by right.
  - done.
  - destruct (e_batched e); [by constructor|done].
  - intros j. destruct (decide (j = i)) as [->|Hne].
    + rewrite lookup_insert_eq. destruct (e_batched e) eqn:Hb.
      * split; [eauto|]. intros _. by left.
      * split; [done|]. intros (?&[= <-]&?). congruence.
    + rewrite lookup_insert_ne by done. rewrite <- H5. destruct (e_batched e); [|done].
      rewrite elem_of_cons. naive_solver.
Qed.

Lemma heap_new H H' m kids rk fl i e h' :
  tree_ok m kids rk → heap_ok H m kids (i :: fl) → m !! i = None → kids i = [] → i ∉ fl →
  (∀ j, H' j = if decide (j = i) then Some h' else H j) →
  slot_ok i e h' → sChildren h' = mkHandleList i i (i + 1) →
  heap_ok H' (<[i := e]> m) kids fl.
Proof.
  intros Ht [H1 H2 H3] Hi Hk Hfl HH Hso Hch. split.
  - intros j ej [[<- <-]|[? Hj]]%lookup_insert_Some; rewrite HH.
    + rewrite decide_True by done. eauto.
    + rewrite decide_False by done. auto.
  - intros j Hj. rewrite HH, decide_False by naive_solver. apply H2. by right.
  - intros p [<-|Hp]%lookup_insert_is_Some'.
    + rewrite Hk. simpl. unfold lnx, lpv, cnx, cpv, cell, node. simpl.
      rewrite Z.eqb_refl, HH, decide_True by done. simpl. by rewrite Hch.
    + assert (∀ j, j ∈ p :: kids p → H' j = H j) as Hj.
      { intros j Hj. rewrite HH, decide_False; [done|]. intros ->.
        apply elem_of_cons in Hj as [->|(?&?&_)%(t_kids _ _ _ Ht)]; [|congruence].
        rewrite Hi in Hp. by destruct Hp. }
      eapply ring_ext; [..|by apply H3]; intros j Hin; unfold lnx, lpv, cnx, cpv, cell, node; simpl;
        by rewrite Hj.
Qed.

Lemma keyed_new m km i e :
  keyed m km → m !! i = None → (e_hashed e = true → km !! ent_key e = None) →
  keyed (<[i := e]> m) (if e_hashed e then <[ent_key e := i + 1]> km else km).
Proof.
  intros Hk Hi Hkm k v. destruct (e_hashed e) eqn:He.
  - specialize (Hkm eq_refl). rewrite lookup_insert_Some, (Hk k v). split.
    + intros [[<- <-]|(Hne&j&ej&Hj&?)].
      * exists i, e. by rewrite lookup_insert_eq.
      * exists j, ej. rewrite lookup_insert_ne; [done|]. intros ->. congruence.
    + intros (j&ej&[[<- <-]|[? Hj]]%lookup_insert_Some&Hh&<-&->); [by left|right].
      split; [|eauto 10]. intros Heq.
      assert (km !! ent_key ej = Some (j + 1)) by (apply Hk; eauto 10). congruence.
  - rewrite (Hk k v). split.
    + intros (j&ej&Hj&?). exists j, ej. rewrite lookup_insert_ne; [done|]. intros ->. congruence.
    + intros (j&ej&[[<- <-]|[? Hj]]%lookup_insert_Some&?&?); [congruence|]. eauto 10.
Qed.

Lemma hashed_new m i e :
  hashed_ok m → e_hashed e = negb (is_multi e) → e_type e ≠ PVRSRV_HANDLE_TYPE_NONE →
  hashed_ok (<[i := e]> m).
Proof.
  intros Hh He Hty j ej [[<- <-]|[? Hj]]%lookup_insert_Some; [|exact (Hh _ _ Hj)].
  split; [|done]. rewrite He. by intros ->%negb_true_iff.
Qed.

(** ** [AllocHandle] *)

(** The entry a structure is initialised for. *)
Definition fresh_ent (data : Z) (ty : PVRSRV_HANDLE_TYPE) (flag : Z) (batched : bool) : ent :=
  mkEnt ty data flag None batched (negb (TEST_FLAG flag PVRSRV_HANDLE_ALLOC_FLAG_MULTI)).

Record alloc_done (L : Z) (st st' : hb_st) (m : gmap Z ent) (kids : Z → list Z) (rk : Z → nat)
    (bl : list Z) (km : gmap (list Z) Z) (e : ent) (key : list Z) (i : Z) : Prop := {
  ad_new : m !! i = None;
  ad_range : 0 ≤ i < ui32MaxIndexPlusOne (hb_base st);
  ad_inv : ∃ fl', hinv0 L st' (<[i := e]> m) kids rk fl'
    (if e_batched e then i :: bl else bl) (if e_hashed e then <[key := i + 1]> km else km);
  ad_kids : kids i = [];
  ad_max : ui32MaxIndexPlusOne (hb_base st') = ui32MaxIndexPlusOne (hb_base st);
  ad_batch : (ui32HandBatchSize (hb_base st'), ui32TotalHandCountPreBatch (hb_base st'),
    ui32FirstBatchIndexPlusOne (hb_base st'), ui32BatchHandAllocFailures (hb_base st')) =
    (ui32HandBatchSize (hb_base st), ui32TotalHandCountPreBatch (hb_base st),
    if e_batched e then i + 1 else ui32FirstBatchIndexPlusOne (hb_base st),
    ui32BatchHandAllocFailures (hb_base st));
  ad_plenty : plenty (hb_os st) → plenty (hb_os st');
  ad_next j : is_Some (m !! j) → hn (hand_at (hb_base st')) j = hn (hand_at (hb_base st)) j;
  ad_next_i : hn (hand_at (hb_base st')) i =
    if e_batched e then ui32FirstBatchIndexPlusOne (hb_base st) else 0 }.

(** The initialisation of the structure, its batch link included. *)
Definition init_slot (data : Z) (ty : PVRSRV_HANDLE_TYPE) (flag i hHandle : Z) : M hb_st (PVRSRV_ERROR * Z) :=
  upd_handle i (init_handle data ty flag);;
  b ← base (λ b, b);
  (if HANDLES_BATCHED b then
     upd_handle i (set_next (ui32FirstBatchIndexPlusOne b));;
     upd_base (set_batch_first (u32 (i + 1)));;
     upd_handle i SET_BATCHED_HANDLE
   else upd_handle i (set_next 0));;
  mret (PVRSRV_OK, hHandle).

(** The structure [init_slot] leaves. *)
Definition inited (data : Z) (ty : PVRSRV_HANDLE_TYPE) (flag i : Z) (b : PVRSRV_HANDLE_BASE) : sHandle :=
  mkHandle ty data (if HANDLES_BATCHED b then ui32FirstBatchIndexPlusOne b else 0)
    (if HANDLES_BATCHED b then 1 else 0) flag i (mkHandleList i i (i + 1)) (mkHandleList i i 0).

Lemma wp_init_slot data ty flag i hHandle h o b :
  shape b → hand_at b i = Some h → ui32Index h = i →
  wp (init_slot data ty flag i hHandle) (λ r st', r = (PVRSRV_OK, hHandle) ∧
    st' = mk_hb o (put_hand i (inited data ty flag i b)
      (if HANDLES_BATCHED b then set_batch_first (i + 1) b else b))) (mk_hb o b).
Proof.
  intros Hs Hh Hix. pose proof (shape_range _ _ _ Hs Hh). unfold init_slot.
  wp_step. eapply wp_upd_handle; [done|]. set (h1 := init_handle _ _ _ _).
  assert (h1 = mkHandle ty data (ui32NextIndexPlusOne h) 0 flag i (mkHandleList i i (i + 1))
    (mkHandleList i i 0)) as Hh1.
  { unfold h1, init_handle, InitChildEntry, InitParentList, HandleListInit. simpl.
    rewrite Hix, INDEX_TO_HANDLE_succ by done. done. }
  assert (∀ b0 h0, psHandleArray b0 = psHandleArray (put_hand i h0 b) → hand_at b0 i = Some h0) as Hput.
  { intros b0 h0 Hb0. rewrite (hand_at_arr _ (put_hand i h0 b)) by done.
    by rewrite hand_at_put, decide_True by eauto. }
  hb_steps. change (HANDLES_BATCHED (put_hand i h1 b)) with (HANDLES_BATCHED b).
  unfold inited. destruct (HANDLES_BATCHED b).
  - wp_step. eapply wp_upd_handle; [by apply Hput|]. rewrite put_put. hb_steps.
    eapply wp_upd_handle; [by apply Hput|]. wp_step. split; [done|].
    rewrite u32_small by (unfold is_u32; lia). f_equal. rewrite Hh1. simpl.
    unfold SET_BATCHED_HANDLE, set_next. simpl.
    change (SET_FLAG 0 INTERNAL_HANDLE_FLAG_BATCHED) with 1.
    exact (put_put i (mkHandle ty data (ui32FirstBatchIndexPlusOne b) 0 flag i
      (mkHandleList i i (i + 1)) (mkHandleList i i 0)) _ (set_batch_first (i + 1) b)).
  - eapply wp_upd_handle; [by apply Hput|]. wp_step. rewrite put_put, Hh1. done.
Qed.

Lemma batch_eq_batched b b' :
  (ui32HandBatchSize b', ui32TotalHandCountPreBatch b', ui32FirstBatchIndexPlusOne b',
    ui32BatchHandAllocFailures b') = (ui32HandBatchSize b, ui32TotalHandCountPreBatch b,
    ui32FirstBatchIndexPlusOne b, ui32BatchHandAllocFailures b) →
  HANDLES_BATCHED b' = HANDLES_BATCHED b.
Proof. intros [=]. unfold HANDLES_BATCHED. congruence. Qed.

Lemma inited_slot data ty flag i b :
  ty ≠ PVRSRV_HANDLE_TYPE_NONE →
  slot_ok i (fresh_ent data ty flag (HANDLES_BATCHED b)) (inited data ty flag i b).
Proof.
  intros Hty. unfold inited, fresh_ent. split; simpl; try done.
  - unfold iflag. simpl. by rewrite is_NONE_false.
  - by intros ->.
Qed.

(** The slot taken and initialised, the key being in the table. *)
Lemma wp_take_init L o b m kids rk i fl bl km km1 data ty flag hHandle :
  hinv L (mk_hb o b) m kids rk (i :: fl) bl km → ty ≠ PVRSRV_HANDLE_TYPE_NONE →
  let e := fresh_ent data ty flag (HANDLES_BATCHED b) in ∀ key o1 t1,
  km1 = (if e_hashed e then <[key := i + 1]> km else km) →
  hash_ok t1 km1 → os_live o1 = os_live o + Z.of_nat (size km1) - Z.of_nat (size km) →
  (plenty o → plenty o1) →
  wp (take_slot i i;; init_slot data ty flag i hHandle) (λ r st', r = (PVRSRV_OK, hHandle) ∧
      alloc_done L (mk_hb o b) st' m kids rk bl km e key i) (mk_hb o1 (set_psHashTab t1 b)).
Proof.
  intros Hi Hty e key o1 t1 Hkm1 Hht Hlv Hpl.
  pose proof Hi as [Hs Ht Hpa Hh Hf _ _ _ Hpu Hl]. simpl in *.
  assert (m !! i = None) as Hmi by (apply (p_disj _ _ _ _ Hpa); by left).
  assert (i ∉ fl) as Hifl by (pose proof (p_nodup _ _ _ _ Hpa) as Hnd; by apply NoDup_cons in Hnd as [? _]).
  destruct (h_free _ _ _ _ Hh i ltac:(by left)) as (h&Hhi&_&Hix).
  assert (∀ j, j ∈ fl → is_Some (hand_at b j)) as Hsome.
  { intros j Hj. destruct (h_free _ _ _ _ Hh j ltac:(by right)) as (?&?&_). eauto. }
  assert (0 ≤ i < ui32TotalHandCount b) as Hir by (apply (hand_some b i Hs); eauto).
  pose proof (shape_range _ _ _ Hs Hhi) as Hir'.
  pose proof (part_length _ _ _ _ Hpa ltac:(apply Hs)) as Hlen. simpl in Hlen.
  wp_step. eapply wp_mono; [apply (wp_take_slot o1 (set_psHashTab t1 b) i fl h); try done|].
  { destruct Hs as (_&?&?&_). lia. }
  intros _ st1 (b1&->&[T1 T2 T3 T4 T5 T6 T7]).
  change (bfields (set_psHashTab t1 b)) with (bfields b) in T2.
  change (bPurgingEnabled (set_psHashTab t1 b)) with (bPurgingEnabled b) in T4.
  change (array_blocks (set_psHashTab t1 b)) with (array_blocks b) in T5.
  change (psHashTab (set_psHashTab t1 b)) with t1 in T3.
  assert (HANDLES_BATCHED b1 = HANDLES_BATCHED b) as Hb1.
  { apply batch_eq_batched. unfold bfields in T2. simpl in T2. congruence. }
  assert (hand_at b1 i = Some h) as Hh1 by (rewrite T6; exact Hhi).
  eapply wp_mono; [by apply (wp_init_slot data ty flag i hHandle h)|].
  intros r st' [-> ->]. split; [done|].
  set (b2 := if HANDLES_BATCHED b1 then set_batch_first (i + 1) b1 else b1).
  assert (psHandleArray b2 = psHandleArray b1) as Ha2 by (unfold b2; by destruct (HANDLES_BATCHED b1)).
  assert (shape b2) as Hs2 by (unfold b2; by destruct (HANDLES_BATCHED b1)).
  assert (hand_at b2 i = Some h) as Hh2 by (by rewrite (hand_at_arr b2 b1)).
  set (h' := inited data ty flag i b1).
  assert (∀ j, hand_at (put_hand i h' b2) j = if decide (j = i) then Some h' else hand_at b j) as Hhand.
  { intros j. rewrite hand_at_put by eauto. rewrite (hand_at_arr b2 b1), T6 by done. done. }
  assert (slot_ok i e h') as Hso by (unfold e, h'; rewrite <- Hb1; by apply inited_slot).
  assert (∀ j, j ∈ fl → hn (hand_at (put_hand i h' b2)) j = hn (hand_at b1) j) as Hfn.
  { intros j Hj. unfold hn. rewrite Hhand, decide_False, T6 by naive_solver. done. }
  assert (kids i = []) as Hk by (by eapply kids_new).
  split; simpl; try done.
  - destruct Hs as (_&?&_). lia.
  - exists fl. split; simpl.
    + apply shape_put; [done|lia].
    + by apply tree_new.
    + replace (ui32TotalHandCount b2) with (ui32TotalHandCount b)
        by (unfold b2; rewrite <- (bfields_total _ _ T2); by destruct (HANDLES_BATCHED b1)).
      by apply part_new.
    + by eapply heap_new.
    + replace (ui32FirstFreeIndex b2) with (ui32FirstFreeIndex b1) by (unfold b2; by destruct (HANDLES_BATCHED b1)).
      replace (ui32LastFreeIndexPlusOne b2) with (ui32LastFreeIndexPlusOne b1)
        by (unfold b2; by destruct (HANDLES_BATCHED b1)).
      replace (ui32FreeHandCount b2) with (ui32FreeHandCount b1) by (unfold b2; by destruct (HANDLES_BATCHED b1)).
      eapply free_ok_hn; [exact T7|exact Hfn].
    + replace (psHashTab b2) with t1; [subst km1; exact Hht|].
      unfold b2. by destruct (HANDLES_BATCHED b1); rewrite <- T3.
    + unfold b2. destruct (HANDLES_BATCHED b1); simpl; rewrite T4; exact Hpu.
    + rewrite array_blocks_put. replace (array_blocks b2) with (array_blocks b); [subst km1; simpl in *; lia|].
      transitivity (array_blocks b1); [by rewrite T5|]. unfold array_blocks. by rewrite Ha2.
  - unfold b2. destruct (HANDLES_BATCHED b1); simpl; unfold bfields in T2; simpl in T2; congruence.
  - unfold b2, e. rewrite <- Hb1. unfold bfields in T2. simpl in T2.
    destruct (HANDLES_BATCHED b1); simpl; congruence.
  - intros j [ej Hj]. unfold hn. rewrite Hhand, decide_False; [done|]. intros ->. congruence.
  - unfold hn. rewrite Hhand, decide_True by done. unfold h', inited, e. simpl.
    rewrite Hb1. destruct (HANDLES_BATCHED b); [|done]. unfold bfields in T2. simpl in T2. congruence.
Qed.

(** Failing leaves every entry as it was. *)
Definition alloc_failed (L : Z) (st st' : hb_st) (m : gmap Z ent) (kids : Z → list Z) (rk : Z → nat)
    (fl bl : list Z) (km : gmap (list Z) Z) (r : PVRSRV_ERROR * Z) : Prop :=
  (r.1 = PVRSRV_ERROR_OUT_OF_MEMORY ∨ r.1 = PVRSRV_ERROR_UNABLE_TO_ADD_HANDLE) ∧ r.2 = IMG_NULL ∧
  grow_step st st' m ∧ (∃ fl', hinv L st' m kids rk fl' bl km) ∧
  (ui32TotalHandCount (hb_base st) = ui32MaxIndexPlusOne (hb_base st) ∧ fl = [] ∨ ¬ plenty (hb_os st)).

Section alloc.
Context {heap : HeapContents}.

Lemma wp_AllocHandle L o b m kids rk fl bl km data ty flag hp :
  let e := fresh_ent data ty flag (HANDLES_BATCHED b) in
  hinv L (mk_hb o b) m kids rk fl bl km → ty ≠ PVRSRV_HANDLE_TYPE_NONE →
  (e_hashed e = true → km !! InitKey data ty hp = None ∧ Z.of_nat (size km) < 134217728) →
  wp (AllocHandle data ty flag hp) (λ r st',
      (∃ i, r = (PVRSRV_OK, i + 1) ∧ alloc_done L (mk_hb o b) st' m kids rk bl km e (InitKey data ty hp) i)
      ∨ alloc_failed L (mk_hb o b) st' m kids rk fl bl km r) (mk_hb o b).
Proof.
  intros e Hi Hty Hkm. unfold AllocHandle. wp_step.
  eapply wp_mono; [eapply (wp_EnsureFreeHandles L o b m kids rk fl bl km 1 Hi); [|lia]|].
  { destruct fl; [by left|]. right. right. simpl. lia. }
  intros r [o1 b1] [Hg [(->&ext&Hi1&Hlen)|(->&Hb&Hi1&Hfull)]]; simpl.
  2:{ apply wp_ret. right. split_and!; [by left|done|done|by eexists|]. simpl in *.
      destruct Hfull as [Hfull|?]; [left|by right]. pose proof (i_shape _ _ _ _ _ _ _ _ Hi) as (_&?&_).
      simpl in *. split; [lia|]. destruct fl; [done|]. simpl in Hfull. lia. }
  set (fl1 := fl ++ ext) in *. destruct fl1 as [|i fl'] eqn:Hfl1; [simpl in Hlen; lia|].
  pose proof Hi1 as [Hs1 _ _ Hh1 Hf1 Hha1 _ _ Hpu1 _]. simpl in *.
  destruct (h_free _ _ _ _ Hh1 i ltac:(by left)) as (h&Hhi&_).
  pose proof (shape_range _ _ _ Hs1 Hhi).
  pose proof (f_first _ _ _ _ _ Hf1) as Hfirst. simpl in Hfirst.
  pose proof (batch_eq_batched b b1 (gs_batch _ _ _ Hg)) as Hbb.
  assert (e = fresh_ent data ty flag (HANDLES_BATCHED b1)) as He by (unfold e; by rewrite Hbb).
  wp_step. unfold pick_free. wp_step. apply wp_base. rewrite Hpu1. simpl. rewrite Hfirst.
  wp_step. eapply wp_struct; [done|]. wp_step. rewrite INDEX_TO_HANDLE_succ by done.
  assert (∀ st' key, alloc_done L (mk_hb o1 b1) st' m kids rk bl km e key i →
    alloc_done L (mk_hb o b) st' m kids rk bl km e key i) as Hmono.
  { intros st' key [A1 A2 A3 A4 A5 A6 A7 A8 A9]. destruct Hg as [G1 G2 G3 G4]. simpl in *.
    injection G2 as G21 G22 G23 G24.
    split; simpl; [done|by rewrite <- G1|done|done|congruence| |auto|..].
    - rewrite A6. by rewrite G21, G22, G23, G24.
    - intros j Hj. by rewrite A8, G4.
    - by rewrite A9, G23. }
  change (negb (TEST_FLAG flag PVRSRV_HANDLE_ALLOC_FLAG_MULTI)) with (e_hashed e).
  destruct (e_hashed e) eqn:Heh.
  - destruct (Hkm Heh) as [Hnone Hsz]. destruct Hha1 as (tab&Htab&Hrep&Hks).
    wp_step. unfold on_hash. wp_step. simpl. rewrite Htab.
    eapply wp_mono; [apply (wp_insert_map tab km); [done|by apply key_ok_handle|done|done]|].
    intros ok s' (tab'&o2&->&Hrep'&Hsp&[Hl2 Hp2]&Hpl2). simpl.
    assert (hash_ok (Some tab') (if ok then <[InitKey data ty hp:=i + 1]> km else km)) as Hha2.
    { exists tab'. split_and!; [done..|]. destruct Hsp as [-> _]. done. }
    destruct ok; simpl.
    + wp_step. wp_step. fold (init_slot data ty flag i (i + 1)).
      eapply wp_mono; [eapply (wp_take_init L o1 b1 m kids rk i fl' bl km); [exact Hi1|done| |exact Hha2| |done]|].
      * rewrite <- He. by rewrite Heh.
      * rewrite map_size_insert_None by done. simpl in *. lia.
      * intros r st' [-> Hd]. left. exists i. split; [done|]. apply Hmono. by rewrite He.
    + apply wp_ret. right. split_and!; [by right|done| | |].
      * destruct Hg. split; simpl in *; try done. auto.
      * exists (i :: fl'). destruct Hi1 as [? ? ? ? ? ? ? ? ? Hlv]. split; try done. cbn in *. rewrite Hl2, Hlv, Z.add_0_r. done.
      * right. intros Hpo. simpl in *. by specialize (Hpl2 (gs_plenty _ _ _ Hg Hpo)).
  - wp_step. apply wp_ret. simpl. wp_step. wp_step. fold (init_slot data ty flag i (i + 1)).
    replace b1 with (set_psHashTab (psHashTab b1) b1) at 1 by (by destruct b1).
    eapply wp_mono; [eapply (wp_take_init L o1 b1 m kids rk i fl' bl km km); [exact Hi1|done| |exact Hha1|lia|done]|].
    + rewrite <- He. by rewrite Heh.
    + intros r st' [-> Hd]. left. exists i. split; [done|]. apply Hmono. by rewrite He.
Qed.
End alloc.
