(* ===== verification/HandleApi.v ===== *)
(** * Handle tables: the operations, against an abstract handle table *)

From S2P Require Import Prelude Hash Handle HandleRep HandleInv HandleOps HandleFree HandleAlloc HandleTake.

(** ** The abstract table *)

(** The handles by slot, the open batch's size (0: none) and its failures,
    and the limit. *)
Record hspec := mkSpec {
  sp_handles : gmap Z ent;
  sp_batch : Z;
  sp_fails : Z;
  sp_max : Z }.

Definition with_handles (m : gmap Z ent) (s : hspec) : hspec :=
  mkSpec m (sp_batch s) (sp_fails s) (sp_max s).
Definition with_fails (n : Z) (s : hspec) : hspec :=
  mkSpec (sp_handles s) (sp_batch s) n (sp_max s).

Definition is_batched (s : hspec) : bool := negb (sp_batch s =? 0).

(** A live handle: allocated and not released. *)
Definition live (m : gmap Z ent) (i : Z) (e : ent) : Prop :=
  m !! i = Some e ∧ e_type e ≠ PVRSRV_HANDLE_TYPE_NONE.

(** [st] implements [s], [L] kernel blocks belonging to others. *)
Record base_ok (L : Z) (st : hb_st) (s : hspec) (kids : Z → list Z) (rk : Z → nat)
    (fl bl : list Z) (km : gmap (list Z) Z) : Prop := {
  b_inv : hinv L st (sp_handles s) kids rk fl bl km;
  b_all i e : live (sp_handles s) i e → e_hashed e = negb (is_multi e);
  b_chain : bchain (hand_at (hb_base st)) (ui32FirstBatchIndexPlusOne (hb_base st)) bl;
  b_batch : ui32HandBatchSize (hb_base st) = sp_batch s;
  b_fails : ui32BatchHandAllocFailures (hb_base st) = sp_fails s;
  b_max : ui32MaxIndexPlusOne (hb_base st) = sp_max s;
  b_none : sp_batch s = 0 → bl = [];
  b_range : is_u32 (sp_fails s);
  b_closed c ec p ep : sp_handles s !! c = Some ec → e_parent ec = Some p →
    sp_handles s !! p = Some ep → e_batched ep = true → e_batched ec = true }.

Definition implements (L : Z) (st : hb_st) (s : hspec) : Prop :=
  ∃ kids rk fl bl km, base_ok L st s kids rk fl bl km.

(** ** Looking up *)

(** [GetHandleStructure], from the entries. *)
Definition get_spec (m : gmap Z ent) (N h : Z) (ty : PVRSRV_HANDLE_TYPE) : PVRSRV_ERROR * Z :=
  let i := HANDLE_TO_INDEX h in
  if N <=? i then (PVRSRV_ERROR_HANDLE_INDEX_OUT_OF_RANGE, IMG_NULL)
  else
    match m !! i with
    | Some e =>
        if is_NONE (e_type e) then (PVRSRV_ERROR_HANDLE_NOT_ALLOCATED, IMG_NULL)
        else if negb (is_NONE ty) && negb (bool_decide (ty = e_type e))
        then (PVRSRV_ERROR_HANDLE_TYPE_MISMATCH, IMG_NULL)
        else (PVRSRV_OK, i)
    | None => (PVRSRV_ERROR_HANDLE_NOT_ALLOCATED, IMG_NULL)
    end.

Lemma get_spec_ok m N h ty i :
  get_spec m N h ty = (PVRSRV_OK, i) →
  i = HANDLE_TO_INDEX h ∧ 0 ≤ i < N ∧ ∃ e, live m i e ∧ (ty = PVRSRV_HANDLE_TYPE_NONE ∨ ty = e_type e).
Proof.
  unfold get_spec. pose proof (HANDLE_TO_INDEX_range h).
  destruct (Z.leb_spec N (HANDLE_TO_INDEX h)); [done|].
  destruct (m !! _) as [e|] eqn:He; [|done]. unfold is_NONE. repeat case_bool_decide; simpl; try done;
    intros [= <-]; (split_and!; [done|lia|lia|exists e; split; [by split|auto]]).
Qed.

Lemma get_spec_live m N i e ty :
  live m i e → 0 ≤ i < N → N ≤ 2147483392 → ty = PVRSRV_HANDLE_TYPE_NONE ∨ ty = e_type e →
  get_spec m N (i + 1) ty = (PVRSRV_OK, i).
Proof.
  intros [Hi Hty] HN Hmax Ht. unfold get_spec. rewrite HANDLE_TO_INDEX_succ by lia.
  destruct (Z.leb_spec N i); [lia|]. rewrite Hi, is_NONE_false by done.
  destruct Ht as [->| ->]; [done|]. rewrite (bool_decide_eq_true_2 (_ = _)) by done.
  by rewrite andb_false_r.
Qed.

(** What reading the structures relies on. *)
Record readable (st : hb_st) (m : gmap Z ent) : Prop := {
  rd_shape : shape (hb_base st);
  rd_slot i e : m !! i = Some e → ∃ h, hand_at (hb_base st) i = Some h ∧ slot_ok i e h;
  rd_free i : 0 ≤ i < ui32TotalHandCount (hb_base st) → m !! i = None →
    ∃ h, hand_at (hb_base st) i = Some h ∧ eType h = PVRSRV_HANDLE_TYPE_NONE }.

Lemma hinv_readable L st m kids rk fl bl km : hinv L st m kids rk fl bl km → readable st m.
Proof.
  intros [Hs _ Hpa Hh _ _ _ _ _ _]. split; [done|exact (h_slot _ _ _ _ Hh)|].
  intros i Hi Hm. apply (p_part _ _ _ _ Hpa) in Hi as [Hf|[? ?]]; [|congruence].
  destruct (h_free _ _ _ _ Hh _ Hf) as (h&?&?&_). eauto.
Qed.

Lemma wp_get_readable st m h ty Q :
  readable st m → Q (get_spec m (ui32TotalHandCount (hb_base st)) h ty) st →
  wp (GetHandleStructure h ty) Q st.
Proof.
  intros [Hs Hsl Hfr] HQ. destruct st as [o b]. simpl in *.
  unfold GetHandleStructure, INDEX_IS_VALID. wp_step. apply wp_base. unfold get_spec in HQ.
  pose proof (HANDLE_TO_INDEX_range h) as Hr. set (i := HANDLE_TO_INDEX h) in *.
  destruct (Z.leb_spec (ui32TotalHandCount b) i).
  { rewrite (proj2 (Z.ltb_ge _ _)) by done. by apply wp_ret. }
  rewrite (proj2 (Z.ltb_lt _ _)) by done. simpl.
  destruct (m !! i) as [e|] eqn:He.
  - destruct (Hsl _ _ He) as (h'&Hh'&Hso).
    wp_step. eapply wp_struct; [done|]. rewrite (so_type _ _ _ Hso).
    destruct (is_NONE (e_type e)); [by apply wp_ret|].
    by destruct (negb (is_NONE ty) && _); apply wp_ret.
  - destruct (Hfr i ltac:(lia) He) as (h'&Hh'&Hty).
    wp_step. eapply wp_struct; [done|]. rewrite Hty. by apply wp_ret.
Qed.

Lemma wp_GetHandleStructure L st m kids rk fl bl km h ty Q :
  hinv L st m kids rk fl bl km →
  Q (get_spec m (ui32TotalHandCount (hb_base st)) h ty) st →
  wp (GetHandleStructure h ty) Q st.
Proof. intros Hi. by eapply wp_get_readable, hinv_readable. Qed.

Lemma live_struct L o b m kids rk fl bl km i e :
  hinv L (mk_hb o b) m kids rk fl bl km → m !! i = Some e →
  ∃ h, hand_at b i = Some h ∧ slot_ok i e h ∧ 0 ≤ i < ui32TotalHandCount b ∧
    ui32TotalHandCount b ≤ 2147483392.
Proof.
  intros [Hs _ _ Hh _ _ _ _ _ _] He. simpl in *.
  destruct (h_slot _ _ _ _ Hh _ _ He) as (h&Hh'&Hso). exists h. split_and!; try done.
  - apply (hand_some b i Hs). eauto.
  - apply (hand_some b i Hs). eauto.
  - destruct Hs as (_&?&?&_). lia.
Qed.

(** ** Finding by key *)

(** Some entry of the hash table has this key. *)
Definition key_entry (m : gmap Z ent) (key : list Z) (i : Z) (e : ent) : Prop :=
  m !! i = Some e ∧ e_hashed e = true ∧ ent_key e = key.

Lemma HANDLE_TYPE_code_inj t t' : HANDLE_TYPE_code t = HANDLE_TYPE_code t' → t = t'.
Proof. by destruct t, t'. Qed.

Lemma wp_find_keyed st m km data ty hp Q :
  hash_ok (psHashTab (hb_base st)) km → keyed m km → (∀ i, is_Some (m !! i) → 0 ≤ i) →
  (∀ i e, key_entry m (InitKey data ty hp) i e → km !! InitKey data ty hp = Some (i + 1) → 0 ≤ i →
     Q (i + 1) st) →
  (km !! InitKey data ty hp = None → (∀ i e, ¬ key_entry m (InitKey data ty hp) i e) → Q 0 st) →
  wp (FindHandle data ty hp) Q st.
Proof.
  intros Hha Hk Hr H1 H2. destruct st as [o b]. simpl in *.
  destruct Hha as (tab&Htab&Hrep&Hsz). unfold FindHandle. wp_step. apply wp_base. rewrite Htab.
  eapply wp_mono; [apply (wp_retrieve_map tab km); [done|by apply key_ok_handle]|].
  intros r s' [-> ->]. destruct (km !! InitKey data ty hp) as [v|] eqn:Hv; simpl.
  - apply Hk in Hv as (i&e&Hi'&Hhd&Hkey&->). apply (H1 i e); [by split|done|]. apply Hr. eauto.
  - apply H2; [done|]. intros i e (Hi'&Hhd&Hkey).
    assert (km !! InitKey data ty hp = Some (i + 1)) by (apply Hk; eauto 10). congruence.
Qed.

Lemma wp_FindHandle L st m kids rk fl bl km data ty hp Q :
  hinv L st m kids rk fl bl km →
  (∀ i e, key_entry m (InitKey data ty hp) i e → km !! InitKey data ty hp = Some (i + 1) → 0 ≤ i →
     Q (i + 1) st) →
  (km !! InitKey data ty hp = None → (∀ i e, ¬ key_entry m (InitKey data ty hp) i e) → Q 0 st) →
  wp (FindHandle data ty hp) Q st.
Proof.
  intros Hi. apply wp_find_keyed; [apply Hi..|]. intros i [e He]. destruct st as [o b].
  destruct (live_struct _ _ _ _ _ _ _ _ _ _ _ Hi He) as (?&?&?&?&?). lia.
Qed.

(** At most one handle of an object of a type under a parent. *)
Lemma key_unique m km key i e j e' :
  keyed m km → key_entry m key i e → key_entry m key j e' → i = j.
Proof.
  intros Hk (?&?&?) (?&?&?).
  assert (km !! key = Some (i + 1)) by (apply Hk; eauto 10).
  assert (km !! key = Some (j + 1)) by (apply Hk; eauto 10). assert (i + 1 = j + 1) by congruence. lia.
Qed.

Lemma keyed_size m km : keyed m km → (size km ≤ size m)%nat.
Proof.
  intros Hk. rewrite <- (length_map_to_list km).
  rewrite <- (length_fmap (λ p : list Z * Z, p.2 - 1)).
  apply NoDup_keys_length.
  - apply NoDup_fmap_2_strong; [|apply NoDup_map_to_list].
    intros [k v] [k' v'] H1%elem_of_map_to_list H2%elem_of_map_to_list Hv. simpl in Hv.
    assert (v = v') as <- by lia. apply Hk in H1 as (i&e&Hi&_&<-&->).
    apply Hk in H2 as (j&e'&Hj&_&<-&?). assert (i = j) as <- by lia. by simplify_eq.
  - intros x ([k v]&->&H1%elem_of_map_to_list)%list_elem_of_fmap. simpl.
    apply Hk in H1 as (i&e&Hi&_&_&->). replace (i + 1 - 1) with i by lia. eauto.
Qed.

Lemma keyed_empty km : keyed ∅ km → km = ∅.
Proof. intros Hk. apply map_size_empty_iff. pose proof (keyed_size _ _ Hk) as Hs. rewrite map_size_empty in Hs. lia. Qed.

(** ** Allocating *)

Lemma bchain_ext H H' first bl :
  (∀ j, j ∈ bl → hn H' j = hn H j) → bchain H first bl → bchain H' first bl.
Proof.
  revert first. induction bl as [|x bl IH]; intros first Hn; [done|]. simpl.
  intros [-> Hc]. split; [done|]. rewrite Hn by set_solver. apply IH; [set_solver|done].
Qed.

Lemma bl_some N m fl bl j : part_ok N m fl bl → j ∈ bl → is_Some (m !! j).
Proof. intros Hp (e&?&_)%(p_bl _ _ _ _ Hp). eauto. Qed.

Lemma base_batched L st s kids rk fl bl km :
  base_ok L st s kids rk fl bl km → HANDLES_BATCHED (hb_base st) = is_batched s.
Proof. intros []. unfold HANDLES_BATCHED, is_batched. by rewrite b_batch0. Qed.

(** A failed allocation of an open batch is counted. *)
Definition counted (d : Z) (s : hspec) : hspec :=
  if is_batched s then with_fails (u32 (sp_fails s + d)) s else s.

Lemma counted_back s m :
  is_u32 (sp_fails s) → counted (-1) (with_handles m (counted 1 s)) = with_handles m s.
Proof.
  intros Hr. unfold counted.
  destruct (is_batched s) eqn:Hs; [|by unfold is_batched in *; simpl; rewrite Hs].
  change (is_batched (with_handles m (with_fails (u32 (sp_fails s + 1)) s))) with (is_batched s).
  rewrite Hs. unfold with_fails, with_handles. simpl. f_equal.
  unfold is_u32, u32 in *. rewrite Zplus_mod_idemp_l. replace (sp_fails s + 1 + -1) with (sp_fails s) by lia.
  apply Z.mod_small. lia.
Qed.

Lemma counted_undo s : is_u32 (sp_fails s) → counted (-1) (counted 1 s) = s.
Proof.
  intros Hr. destruct s as [m ba fa mx]. pose proof (counted_back (mkSpec m ba fa mx) m Hr) as Hc.
  unfold counted, with_handles in *. simpl in *. by destruct (is_batched (mkSpec m ba fa mx)).
Qed.

Lemma wp_batch_fail d L st s kids rk fl bl km :
  base_ok L st s kids rk fl bl km →
  wp (batch_fail d) (λ _ st', base_ok L st' (counted d s) kids rk fl bl km ∧ hb_os st' = hb_os st ∧
      ui32TotalHandCount (hb_base st') = ui32TotalHandCount (hb_base st)) st.
Proof.
  intros Hb. destruct st as [o b]. unfold batch_fail. wp_step. apply wp_base.
  rewrite (base_batched _ _ _ _ _ _ _ _ Hb : HANDLES_BATCHED b = _). unfold counted.
  destruct (is_batched s).
  - apply wp_upd_base. split; [|done]. destruct Hb as [Hi H1 H2 H3 H4 H5 H6 Hr H7]. split; try done.
    + destruct Hi. by split.
    + simpl. simpl in H4. by rewrite H4.
    + apply u32_range.
  - apply wp_ret. done.
Qed.

(** A new entry without a parent. *)
Lemma base_ok_new L st st' s kids rk fl bl km e i :
  base_ok L st s kids rk fl bl km → e_parent e = None → e_type e ≠ PVRSRV_HANDLE_TYPE_NONE →
  e_hashed e = negb (is_multi e) → (e_batched e = true → sp_batch s ≠ 0) →
  (e_hashed e = true → km !! ent_key e = None) →
  alloc_done L st st' (sp_handles s) kids rk bl km e (ent_key e) i →
  ∃ fl', base_ok L st' (with_handles (<[i := e]> (sp_handles s)) s) kids rk fl'
    (if e_batched e then i :: bl else bl) (if e_hashed e then <[ent_key e := i + 1]> km else km).
Proof.
  intros [Hi H1 H2 H3 H4 H5 H6 Hr H7] Hp Hty Hh Hb Hkm [A1 A2 (fl'&A3) A4 A5 A6 A7 A8 A9].
  injection A6 as A61 A62 A63 A64. pose proof Hi as [_ Ht Hpa _ _ _ Hk Hhd _ _].
  exists fl'. split; simpl; try congruence.
  - apply hinv_of0; [done|by apply keyed_new|by apply hashed_new].
  - intros j ej [[[<- <-]|[? Hj]]%lookup_insert_Some Hjt]; [done|]. by apply (H1 j ej).
  - assert (∀ first, bchain (hand_at (hb_base st)) first bl → bchain (hand_at (hb_base st')) first bl) as Hc.
    { intros first. apply bchain_ext. intros j Hj. apply A8. by eapply bl_some. }
    rewrite A63. destruct (e_batched e); [|by apply Hc]. split; [done|]. rewrite A9. by apply Hc.
  - intros Hz. destruct (e_batched e); [by destruct (Hb eq_refl)|auto].
  - intros c ec p ep [[<- <-]|[? Hc]]%lookup_insert_Some Hcp; [congruence|].
    intros [[<- <-]|[? Hpm]]%lookup_insert_Some Hpb; [|by eapply H7].
    destruct (proj1 (t_par _ _ _ Ht _ _ _ Hc Hcp)) as (?&?&_). congruence.
Qed.

(** The entry [PVRSRVAllocHandle] makes. *)
Definition new_ent (s : hspec) (data : Z) (ty : PVRSRV_HANDLE_TYPE) (flag : Z) : ent :=
  fresh_ent data ty flag (is_batched s).

Definition is_shared (e : ent) (flag : Z) : bool :=
  TEST_FLAG (Z.land (e_flag e) flag) PVRSRV_HANDLE_ALLOC_FLAG_SHARED.

Definition multi_flag (flag : Z) : bool := TEST_FLAG flag PVRSRV_HANDLE_ALLOC_FLAG_MULTI.

(** No slot is left under the limit. *)
Definition full (s : hspec) : Prop := ∀ i, 0 ≤ i < sp_max s → is_Some (sp_handles s !! i).

(** What an allocation may answer: the handle that is there already, when
    both sides allow sharing; a refusal; a new handle; a failure. *)
Inductive alloc_result (s : hspec) (key : list Z) (flag : Z) (mk : ent) (ok_share : ent → bool) :
    PVRSRV_ERROR * Z → hspec → Prop :=
| alloc_shared i e :
    multi_flag flag = false → key_entry (sp_handles s) key i e → ok_share e = true →
    alloc_result s key flag mk ok_share (PVRSRV_OK, i + 1) s
| alloc_refused i e :
    multi_flag flag = false → key_entry (sp_handles s) key i e → ok_share e = false →
    alloc_result s key flag mk ok_share (PVRSRV_ERROR_HANDLE_NOT_SHAREABLE, IMG_NULL) (counted 1 s)
| alloc_new i :
    (multi_flag flag = false → ∀ j e, ¬ key_entry (sp_handles s) key j e) →
    sp_handles s !! i = None → 0 ≤ i < sp_max s →
    alloc_result s key flag mk ok_share (PVRSRV_OK, i + 1) (with_handles (<[i := mk]> (sp_handles s)) s)
| alloc_fail err :
    (multi_flag flag = false → ∀ j e, ¬ key_entry (sp_handles s) key j e) →
    err = PVRSRV_ERROR_OUT_OF_MEMORY ∨ err = PVRSRV_ERROR_UNABLE_TO_ADD_HANDLE →
    alloc_result s key flag mk ok_share (err, IMG_NULL) (counted 1 s).

Lemma implements_grow L st st' s kids rk fl bl km fl' :
  base_ok L st s kids rk fl bl km → grow_step st st' (sp_handles s) →
  hinv L st' (sp_handles s) kids rk fl' bl km → base_ok L st' s kids rk fl' bl km.
Proof.
  intros [Hi H1 H2 H3 H4 H5 H6 Hr H7] [G1 G2 G3 G4] Hi'. injection G2 as G21 G22 G23 G24.
  split; try done; try congruence. rewrite G23. eapply bchain_ext; [|exact H2].
  intros j Hj. apply G4. eapply bl_some; [apply (i_part _ _ _ _ _ _ _ _ Hi)|done].
Qed.

Lemma key_live m key i e data ty hp :
  hashed_ok m → key_entry m key i e → key = InitKey data ty hp → live m i e ∧ e_type e = ty.
Proof.
  intros Hh (Hi&Hhd&Hk) ->. split; [split; [done|by apply (Hh _ _ Hi)]|].
  unfold ent_key, InitKey in Hk. injection Hk as _ Hc _. by apply HANDLE_TYPE_code_inj.
Qed.

Lemma base_not_full L st s kids rk fl bl km :
  base_ok L st s kids rk fl bl km →
  ui32TotalHandCount (hb_base st) = ui32MaxIndexPlusOne (hb_base st) → fl = [] → full s.
Proof.
  intros Hb HN -> i Hi. pose proof (i_part _ _ _ _ _ _ _ _ (b_inv _ _ _ _ _ _ _ _ Hb)) as Hp.
  rewrite <- (b_max _ _ _ _ _ _ _ _ Hb), <- HN in Hi. apply (p_part _ _ _ _ Hp) in Hi as [Hn|]; [|done].
  by apply elem_of_nil in Hn.
Qed.

Lemma implements_intro L st s kids rk fl bl km : base_ok L st s kids rk fl bl km → implements L st s.
Proof. intros. by exists kids, rk, fl, bl, km. Qed.
Create HintDb handle.
#[export] Hint Resolve implements_intro : handle.

Definition alloc_failure (e : PVRSRV_ERROR) : Prop :=
  e = PVRSRV_ERROR_OUT_OF_MEMORY ∨ e = PVRSRV_ERROR_UNABLE_TO_ADD_HANDLE.

(** The outcome of an allocating operation. *)
Definition alloc_post (L : Z) (st : hb_st) (s : hspec) (key : list Z) (flag : Z) (mk : ent)
    (ok_share : ent → bool) (r : PVRSRV_ERROR * Z) (st' : hb_st) : Prop :=
  (∃ s', alloc_result s key flag mk ok_share r s' ∧ implements L st' s') ∧
  (alloc_failure r.1 → full s ∨ ¬ plenty (hb_os st)) ∧
  (plenty (hb_os st) → plenty (hb_os st')).

Lemma base_size L st s kids rk fl bl km :
  base_ok L st s kids rk fl bl km → (size km ≤ size (sp_handles s))%nat.
Proof. intros Hb. eapply keyed_size, (i_keyed _ _ _ _ _ _ _ _ (b_inv _ _ _ _ _ _ _ _ Hb)). Qed.

Lemma new_ent_key s data ty flag : ent_key (new_ent s data ty flag) = InitKey data ty IMG_NULL.
Proof. unfold new_ent, fresh_ent, ent_key. simpl. by destruct (TEST_FLAG _ _). Qed.

Section alloc.
Context {heap : HeapContents}.

Lemma handles_counted d s : sp_handles (counted d s) = sp_handles s.
Proof. unfold counted. by destruct (is_batched s). Qed.

Lemma batched_counted d s : is_batched (counted d s) = is_batched s.
Proof. unfold counted. by destruct (is_batched s) eqn:H. Qed.

(** A failed allocation is an outcome of the operation. *)
Lemma alloc_failed_post L st st' s kids rk fl bl km key flag mk ok_share r :
  base_ok L st (counted 1 s) kids rk fl bl km →
  (multi_flag flag = false → km !! key = None ∧ ∀ j e, ¬ key_entry (sp_handles s) key j e) →
  alloc_failed L st st' (sp_handles s) kids rk fl bl km r →
  is_OK r.1 = false ∧ r.2 = IMG_NULL ∧ alloc_post L st s key flag mk ok_share r st'.
Proof.
  intros Hb Hno (Herr&Hr2&Hg&(fl'&Hi')&Hwhy).
  split; [by destruct Herr as [->| ->]|]. split; [done|]. destruct r as [e' h']. simpl in *. subst h'. split_and!.
  - exists (counted 1 s). split.
    + apply alloc_fail; [|done]. intros Hm. by apply Hno.
    + eapply implements_intro, implements_grow; [exact Hb| |]; by rewrite handles_counted.
  - intros _. destruct Hwhy as [[HN Hfl]|?]; [left|by right].
    pose proof (base_not_full _ _ _ _ _ _ _ _ Hb HN Hfl) as Hfull.
    unfold full in *. rewrite handles_counted in Hfull.
    unfold counted in Hfull. by destruct (is_batched s).
  - apply (gs_plenty _ _ _ Hg).
Qed.

(** The part of the allocation after the search for an existing handle. *)
Lemma wp_alloc_new L st s kids rk fl bl km data ty flag (ok_share : ent → bool) :
  base_ok L st (counted 1 s) kids rk fl bl km → is_u32 (sp_fails s) →
  ty ≠ PVRSRV_HANDLE_TYPE_NONE →
  Z.of_nat (size (sp_handles s)) < 134217728 →
  (multi_flag flag = false → km !! InitKey data ty IMG_NULL = None ∧
     ∀ j e, ¬ key_entry (sp_handles s) (InitKey data ty IMG_NULL) j e) →
  wp ('(eError, hHandle) ← AllocHandle data ty flag IMG_NULL;
      (if is_OK eError then batch_fail (-1) else mret tt);;
      mret (eError, hHandle))
    (alloc_post L st s (InitKey data ty IMG_NULL) flag (new_ent s data ty flag) ok_share) st.
Proof.
  intros Hb Hr Hty Hsz Hno. destruct st as [o b]. pose proof (base_size _ _ _ _ _ _ _ _ Hb) as Hle.
  pose proof Hb as [Hi _ _ _ _ Hmx _ _ _]. rewrite handles_counted in *.
  pose proof (base_batched _ _ _ _ _ _ _ _ Hb) as Hbt. rewrite batched_counted in Hbt. simpl in Hbt.
  wp_step. eapply wp_mono; [eapply (wp_AllocHandle L o b _ kids rk fl bl km data ty flag IMG_NULL Hi Hty)|].
  { intros Hh. apply negb_true_iff in Hh. destruct (Hno Hh). split; [done|lia]. }
  rewrite Hbt. intros r st' [(i&->&Hd)|Hf].
  - simpl. pose proof (ad_plenty _ _ _ _ _ _ _ _ _ _ _ Hd) as Hpl.
    pose proof (ad_new _ _ _ _ _ _ _ _ _ _ _ Hd) as Hnew.
    pose proof (ad_range _ _ _ _ _ _ _ _ _ _ _ Hd) as Hrange.
    rewrite <- (new_ent_key s data ty flag) in Hd. fold (new_ent s data ty flag) in Hd.
    rewrite <- (handles_counted 1 s) in Hd.
    edestruct (base_ok_new L (mk_hb o b) st' (counted 1 s) kids rk fl bl km (new_ent s data ty flag) i)
      as (fl'&Hb'); [exact Hb|done|done|done| | |exact Hd|].
    + simpl. intros Hba. unfold counted. rewrite Hba. simpl. unfold is_batched in Hba.
      by apply negb_true_iff, Z.eqb_neq in Hba.
    + intros Hh. apply negb_true_iff in Hh. rewrite new_ent_key. by destruct (Hno Hh) as [? _].
    + wp_step. eapply wp_mono; [by apply (wp_batch_fail (-1))|]. intros _ st2 (Hb2&Ho2&_).
      rewrite handles_counted in Hb2.
      rewrite counted_back in Hb2 by done. wp_step. split_and!.
      * eexists. split; [|by eapply implements_intro]. rewrite Hmx in Hrange.
        apply alloc_new; [intros Hm; by apply Hno|done|].
        unfold counted in Hrange. by destruct (is_batched s).
      * intros [?|?]; done.
      * rewrite Ho2. done.
  - destruct (alloc_failed_post L (mk_hb o b) st' s kids rk fl bl km (InitKey data ty IMG_NULL) flag
      (new_ent s data ty flag) ok_share r Hb Hno Hf) as (Hok&Hr2&Hpost).
    destruct r as [e' h']. simpl in *. rewrite Hok. wp_step. apply wp_ret. by wp_step.
Qed.

Theorem wp_PVRSRVAllocHandle L st s data ty flag :
  implements L st s → ty ≠ PVRSRV_HANDLE_TYPE_NONE →
  Z.of_nat (size (sp_handles s)) < 134217728 →
  wp (PVRSRVAllocHandle data ty flag)
    (alloc_post L st s (InitKey data ty IMG_NULL) flag (new_ent s data ty flag) (λ e, is_shared e flag)) st.
Proof.
  intros (kids&rk&fl&bl&km&Hb) Hty Hsz. unfold PVRSRVAllocHandle. wp_step.
  eapply wp_mono; [by apply (wp_batch_fail 1)|]. intros _ [o1 b1] (Hb1&Ho1&_).
  pose proof (b_range _ _ _ _ _ _ _ _ Hb) as Hr. simpl in Ho1.
  assert (∀ r st', alloc_post L (mk_hb o1 b1) s (InitKey data ty IMG_NULL) flag (new_ent s data ty flag)
    (λ e, is_shared e flag) r st' → alloc_post L st s (InitKey data ty IMG_NULL) flag
    (new_ent s data ty flag) (λ e, is_shared e flag) r st') as Hpost.
  { unfold alloc_post. simpl. rewrite Ho1. done. }
  change (TEST_FLAG flag PVRSRV_HANDLE_ALLOC_FLAG_MULTI) with (multi_flag flag).
  destruct (multi_flag flag) eqn:Hmu; simpl.
  { wp_step. apply wp_ret. simpl. eapply wp_mono; [eapply wp_alloc_new; [exact Hb1|done..|congruence]|].
    intros r st'. apply Hpost. }
  pose proof (b_inv _ _ _ _ _ _ _ _ Hb1) as Hi1. rewrite handles_counted in Hi1.
  wp_step. eapply wp_FindHandle; [exact Hi1| |].
  - intros i e Hke _ Hi0. destruct (key_live _ _ _ _ _ _ _ (i_hashed _ _ _ _ _ _ _ _ Hi1) Hke eq_refl) as [Hlv Hte].
    rewrite (proj2 (Z.eqb_neq (i + 1) IMG_NULL)) by (unfold IMG_NULL; lia). simpl.
    destruct (live_struct _ _ _ _ _ _ _ _ _ _ _ Hi1 (proj1 Hlv)) as (h&Hh&Hso&Hir&HN).
    wp_step. eapply wp_GetHandleStructure; [exact Hi1|]. simpl.
    rewrite (get_spec_live _ _ _ _ _ Hlv Hir HN) by auto. simpl.
    wp_step. eapply wp_struct; [exact Hh|]. rewrite (so_flag _ _ _ Hso). fold (is_shared e flag).
    destruct (is_shared e flag) eqn:Hsh.
    + wp_step. eapply wp_mono; [by apply (wp_batch_fail (-1))|]. intros _ st2 (Hb2&Ho2&_). wp_step.
      rewrite counted_undo in Hb2 by done.
      split_and!; [|by intros [?|?]|by rewrite Ho2; simpl; rewrite Ho1].
      eexists. split; [by eapply alloc_shared|by eapply implements_intro].
    + wp_step. split_and!; [|by intros [?|?]|by simpl; rewrite Ho1].
      eexists. split; [by eapply alloc_refused|by eapply implements_intro].
  - intros Hnone Hno. simpl. eapply wp_mono; [eapply wp_alloc_new; [exact Hb1|done..|by auto]|].
    intros r st'. apply Hpost.
Qed.
End alloc.
