(* ===== verification/HandleSub.v ===== *)
(** * Handle tables: sub-handles

    [PVRSRVAllocSubHandle] makes a handle that dies with its parent. *)

From S2P Require Import Prelude Hash Handle HandleRep HandleInv HandleOps HandleFree HandleAlloc.
From S2P Require Import HandleTake HandleApi.

(** The parent in the key of a sub-handle. *)
Definition private_key (flag hParent : Z) : Z :=
  if TEST_FLAG flag PVRSRV_HANDLE_ALLOC_FLAG_PRIVATE then hParent else IMG_NULL.

(** The entry [PVRSRVAllocSubHandle] makes. *)
Definition sub_ent (s : hspec) (data : Z) (ty : PVRSRV_HANDLE_TYPE) (flag p : Z) : ent :=
  adopt p (new_ent s data ty flag).

Lemma sub_ent_key s data ty flag p :
  ent_key (sub_ent s data ty flag p) = InitKey data ty (private_key flag (p + 1)).
Proof. done. Qed.

(** A sub-handle is shared between equal parents only. *)
Definition sub_shared (flag hParent : Z) (e : ent) : bool :=
  is_shared e flag && (parent_handle (e_parent e) =? hParent).

(** ** The invariant *)

Lemma hinv0_adopt L o b b' g m kids rk fl bl km p ep i e :
  hinv0 L (mk_hb o b) (<[i := e]> m) kids rk fl bl km →
  m !! p = Some ep → e_type ep ≠ PVRSRV_HANDLE_TYPE_NONE →
  e_type e ≠ PVRSRV_HANDLE_TYPE_NONE → e_parent e = None → kids i = [] → i ≠ p →
  lstep b b' g → heap_ok (hand_at b') (<[i := adopt p e]> (<[i := e]> m)) (adopted_kids kids p i) fl →
  hinv0 L (mk_hb o b') (<[i := adopt p e]> m) (adopted_kids kids p i)
    (λ j, if decide (j = i) then S (rk p) else rk j) fl bl km.
Proof.
  intros [Hs Ht Hpa Hh Hf Hha Hpu Hl] Hp Hpt Hty Hroot Hk Hne [L1 L2 L3 L4] Hh'. simpl in *.
  destruct (rest_fields _ _ L2) as (Htab&Hbf&Hfi&Hla&Hco&Hpe).
  rewrite <- (insert_insert_eq m i (adopt p e) e).
  assert ((<[i := e]> m) !! i = Some e) as Hi by apply lookup_insert_eq.
  split; simpl; try done.
  - apply (tree_adopt (hand_at b) (<[i:=e]> m) kids rk fl Ht Hh p ep i e); try done. by rewrite lookup_insert_ne.
  - rewrite (bfields_total _ _ Hbf). by apply (part_alter _ _ _ _ i e).
  - rewrite Hfi, Hla, Hco. eapply free_ok_hn; [exact Hf|]. intros j _. by apply (lwrite_hn _ _ _ _ L4).
  - by rewrite Htab.
  - congruence.
  - by rewrite L3.
Qed.

Lemma bchain_lstep b b' g first bl :
  lstep b b' g → bchain (hand_at b) first bl → bchain (hand_at b') first bl.
Proof. intros Hl. apply bchain_ext. intros j _. apply (lwrite_hn _ _ _ _ (l_write _ _ _ Hl)). Qed.

(** A new entry, adopted by [p]. *)
Lemma wp_adopt_new L st st1 s kids rk fl bl km p ep e i :
  base_ok L st s kids rk fl bl km → live (sp_handles s) p ep →
  e_parent e = None → e_type e ≠ PVRSRV_HANDLE_TYPE_NONE →
  e_hashed e = negb (is_multi e) → e_batched e = is_batched s →
  (e_hashed e = true → km !! ent_key (adopt p e) = None) →
  alloc_done L st st1 (sp_handles s) kids rk bl km e (ent_key (adopt p e)) i →
  wp (AdoptChild p i) (λ _ st2, hb_os st2 = hb_os st1 ∧
      implements L st2 (with_handles (<[i := adopt p e]> (sp_handles s)) s)) st1.
Proof.
  intros [Hi H1 H2 H3 H4 H5 H6 Hr H7] [Hp Hpt] Hroot Hty Hh Hb Hkm
    [A1 A2 (fl'&A3) A4 A5 A6 A7 A8 A9].
  injection A6 as A61 A62 A63 A64. pose proof Hi as [_ Ht Hpa _ _ _ Hk Hhd _ _].
  destruct st1 as [o1 b1]. pose proof A3 as [Zs Zt Zp Zh _ _ _ _]. simpl in *.
  assert (i ≠ p) as Hip by congruence.
  eapply wp_mono.
  { apply (wp_AdoptChild p ep i e _ kids rk fl' o1 b1 Zs Zt Zh); try done;
      [by rewrite lookup_insert_ne|apply lookup_insert_eq]. }
  intros _ st2 (b'&g&->&Hl&Hheap). split; [done|].
  pose proof (rest_fields _ _ (l_rest _ _ _ Hl)) as (_&Hbf&_). unfold bfields in Hbf. injection Hbf as B1 B2 B3 B4 B5 B6.
  eapply implements_intro. split; simpl; try congruence.
  - apply hinv_of0; [|by apply keyed_new|by apply hashed_new].
    by eapply hinv0_adopt; [exact A3|done..|exact Hl|].
  - intros j ej [[[<- <-]|[? Hj]]%lookup_insert_Some Hjt]; [done|]. by apply (H1 j ej).
  - rewrite B5. assert (∀ first, bchain (hand_at (hb_base st)) first bl → bchain (hand_at b') first bl) as Hc.
    { intros first Hc. eapply bchain_lstep; [exact Hl|]. eapply bchain_ext; [|exact Hc].
      intros j Hj. apply A8. by eapply bl_some. }
    rewrite A63. destruct (e_batched e); [|by apply Hc]. split; [done|].
    rewrite (lwrite_hn _ _ _ _ (l_write _ _ _ Hl)), A9. by apply Hc.
  - intros Hz. unfold is_batched in Hb. rewrite Hz in Hb. simpl in Hb. rewrite Hb. auto.
  - intros c ec q eq [[<- <-]|[? Hc]]%lookup_insert_Some Hcp.
    + injection Hcp as <-. rewrite lookup_insert_ne by done. intros Hq Hqb. simpl. rewrite Hb.
      unfold is_batched. apply negb_true_iff, Z.eqb_neq. intros Hz.
      assert (p ∈ bl) as Hin by (apply (p_bl _ _ _ _ Hpa); eauto). rewrite (H6 Hz) in Hin. set_solver.
    + intros [[<- <-]|[? Hpm]]%lookup_insert_Some Hpb; [|by eapply H7].
      destruct (proj1 (t_par _ _ _ Ht _ _ _ Hc Hcp)) as (?&?&_). congruence.
Qed.

(** ** [PVRSRVAllocSubHandle] *)

(** A handle that resolves is the index of its slot plus one. *)
Lemma get_spec_canonical m N h ty i :
  get_spec m N h ty = (PVRSRV_OK, i) → is_u32 h → N ≤ 2147483392 → h = i + 1.
Proof.
  intros (->&Hr&_)%get_spec_ok Hh HN. unfold HANDLE_TO_INDEX in *.
  rewrite (u32_small h) in * by done. destruct (decide (h = 0)) as [->|].
  { change (u32 (0 - 1)) with 4294967295 in Hr. lia. }
  rewrite u32_small; [lia|]. unfold is_u32 in *. lia.
Qed.

Definition sub_post (L : Z) (st : hb_st) (s : hspec) (data : Z) (ty : PVRSRV_HANDLE_TYPE)
    (flag hParent : Z) (r : PVRSRV_ERROR * Z) (st' : hb_st) : Prop :=
  let g := get_spec (sp_handles s) (ui32TotalHandCount (hb_base st)) hParent PVRSRV_HANDLE_TYPE_NONE in
  if is_OK g.1 then
    alloc_post L st s (InitKey data ty (private_key flag hParent)) flag
      (sub_ent s data ty flag g.2) (sub_shared flag hParent) r st'
  else r = (g.1, IMG_NULL) ∧ implements L st' (counted 1 s) ∧ hb_os st' = hb_os st.

Section sub.
Context {heap : HeapContents}.

(** The new sub-handle, once no handle of the object was found. *)
Lemma wp_sub_new L st s kids rk fl bl km data ty flag p ep :
  base_ok L st (counted 1 s) kids rk fl bl km → is_u32 (sp_fails s) →
  live (sp_handles s) p ep → ty ≠ PVRSRV_HANDLE_TYPE_NONE →
  Z.of_nat (size (sp_handles s)) < 134217728 →
  (multi_flag flag = false → km !! InitKey data ty (private_key flag (p + 1)) = None ∧
     ∀ j e, ¬ key_entry (sp_handles s) (InitKey data ty (private_key flag (p + 1))) j e) →
  wp ('(eError, hHandle) ← AllocHandle data ty flag (private_key flag (p + 1));
      if negb (is_OK eError) then mret (eError, IMG_NULL)
      else
        AdoptChild p (HANDLE_TO_INDEX hHandle);;
        batch_fail (-1);;
        mret (PVRSRV_OK, hHandle))
    (alloc_post L st s (InitKey data ty (private_key flag (p + 1))) flag (sub_ent s data ty flag p)
       (sub_shared flag (p + 1))) st.
Proof.
  intros Hb Hr Hp Hty Hsz Hno. destruct st as [o b]. pose proof (base_size _ _ _ _ _ _ _ _ Hb) as Hle.
  pose proof Hb as [Hi _ _ _ _ Hmx _ _ _]. rewrite handles_counted in *.
  pose proof (base_batched _ _ _ _ _ _ _ _ Hb) as Hbt. rewrite batched_counted in Hbt. simpl in Hbt.
  wp_step. eapply wp_mono; [eapply (wp_AllocHandle L o b _ kids rk fl bl km data ty flag _ Hi Hty)|].
  { intros Hh. apply negb_true_iff in Hh. destruct (Hno Hh). split; [done|lia]. }
  rewrite Hbt. intros r st' [(i&->&Hd)|Hf].
  - simpl. pose proof (ad_plenty _ _ _ _ _ _ _ _ _ _ _ Hd) as Hpl.
    pose proof (ad_new _ _ _ _ _ _ _ _ _ _ _ Hd) as Hnew.
    pose proof (ad_range _ _ _ _ _ _ _ _ _ _ _ Hd) as Hrange.
    rewrite <- (sub_ent_key s data ty flag p) in Hd. fold (new_ent s data ty flag) in Hd.
    rewrite <- (handles_counted 1 s) in Hd. unfold sub_ent in Hd.
    pose proof (i_shape _ _ _ _ _ _ _ _ Hi) as (_&Hmr&Hm2&_). simpl in *.
    rewrite HANDLE_TO_INDEX_succ by lia.
    wp_step. eapply wp_mono.
    { apply (wp_adopt_new L (mk_hb o b) st' (counted 1 s) kids rk fl bl km p ep (new_ent s data ty flag) i);
        [exact Hb|rewrite handles_counted; exact Hp|done|exact Hty|done|
        by rewrite batched_counted| |exact Hd].
      intros Hh. apply negb_true_iff in Hh. by destruct (Hno Hh). }
    rewrite handles_counted. intros _ st2 (Ho2&(kids2&rk2&fl2&bl2&km2&Hb2)).
    wp_step. eapply wp_mono; [by apply (wp_batch_fail (-1))|]. intros _ st3 (Hb3&Ho3&_).
    rewrite counted_back in Hb3 by done. wp_step. split_and!.
    + eexists. split; [|by eapply implements_intro]. rewrite Hmx in Hrange.
      apply alloc_new; [intros Hm; by apply Hno|done|].
      unfold counted in Hrange. by destruct (is_batched s).
    + intros [?|?]; done.
    + rewrite Ho3, Ho2. done.
  - destruct (alloc_failed_post L (mk_hb o b) st' s kids rk fl bl km (InitKey data ty (private_key flag (p + 1)))
      flag (sub_ent s data ty flag p) (sub_shared flag (p + 1)) r Hb Hno Hf) as (Hok&Hr2&Hpost).
    destruct r as [e' h']. simpl in *. subst h'. rewrite Hok. simpl. by wp_step.
Qed.

Theorem wp_PVRSRVAllocSubHandle L st s data ty flag hParent :
  implements L st s → ty ≠ PVRSRV_HANDLE_TYPE_NONE → is_u32 hParent →
  Z.of_nat (size (sp_handles s)) < 134217728 →
  wp (PVRSRVAllocSubHandle data ty flag hParent) (sub_post L st s data ty flag hParent) st.
Proof.
  intros (kids&rk&fl&bl&km&Hb) Hty Hhp Hsz. unfold PVRSRVAllocSubHandle. wp_step.
  eapply wp_mono; [by apply (wp_batch_fail 1)|]. intros _ st1 (Hb1&Ho1&HN1).
  pose proof (b_range _ _ _ _ _ _ _ _ Hb) as Hr.
  pose proof (b_inv _ _ _ _ _ _ _ _ Hb1) as Hi1. rewrite handles_counted in Hi1.
  wp_step. eapply wp_GetHandleStructure; [exact Hi1|]. unfold sub_post. rewrite HN1.
  destruct (get_spec _ _ hParent _) as [e p] eqn:Hg. simpl. destruct (is_OK e) eqn:He; simpl.
  2:{ wp_step. split_and!; [done|by eapply implements_intro|done]. }
  apply is_OK_true in He as ->. pose proof (i_shape _ _ _ _ _ _ _ _ Hi1) as (HN0&HNm&HNx&_).
  assert (hParent = p + 1) as -> by (eapply get_spec_canonical; [done|done|lia]).
  apply get_spec_ok in Hg as (Hpx&Hpr&ep&Hlp&_).
  assert (∀ r st', alloc_post L st1 s (InitKey data ty (private_key flag (p + 1))) flag
    (sub_ent s data ty flag p) (sub_shared flag (p + 1)) r st' → alloc_post L st s
    (InitKey data ty (private_key flag (p + 1))) flag
    (sub_ent s data ty flag p) (sub_shared flag (p + 1)) r st') as Hpost.
  { unfold alloc_post. rewrite Ho1. done. }
  rewrite <- Hpx. fold (private_key flag (p + 1)). fold (multi_flag flag).
  destruct (multi_flag flag) eqn:Hmu; simpl.
  { wp_step. apply wp_ret. simpl. eapply wp_mono; [eapply wp_sub_new; [exact Hb1|done..|congruence]|].
    intros r st'. apply Hpost. }
  wp_step. eapply wp_FindHandle; [exact Hi1| |].
  - intros i e Hke _ Hi0. destruct (key_live _ _ _ _ _ _ _ (i_hashed _ _ _ _ _ _ _ _ Hi1) Hke eq_refl) as [Hlv Hte].
    rewrite (proj2 (Z.eqb_neq (i + 1) IMG_NULL)) by (unfold IMG_NULL; lia). simpl. destruct st1 as [o1 b1].
    destruct (live_struct _ _ _ _ _ _ _ _ _ _ _ Hi1 (proj1 Hlv)) as (h&Hh&Hso&Hir&HN).
    wp_step. eapply wp_GetHandleStructure; [exact Hi1|]. simpl.
    rewrite (get_spec_live _ _ _ _ _ Hlv Hir HN) by auto. simpl.
    wp_step. eapply wp_struct; [exact Hh|]. rewrite (so_flag _ _ _ Hso). fold (is_shared e flag).
    rewrite HANDLE_TO_INDEX_succ by lia.
    wp_step. eapply (wp_mono _ (λ sh st', sh = sub_shared flag (p + 1) e ∧ st' = mk_hb o1 b1)).
    { unfold sub_shared. destruct (is_shared e flag); [|by apply wp_ret].
      wp_step. eapply wp_struct; [exact Hh|]. wp_step. unfold ParentHandle. by rewrite (so_parent _ _ _ Hso). }
    intros sh st2 [-> ->]. destruct (sub_shared flag (p + 1) e) eqn:Hsh.
    + wp_step. eapply wp_mono; [by apply (wp_batch_fail (-1))|]. intros _ st2 (Hb2&Ho2&_). wp_step.
      rewrite counted_undo in Hb2 by done. split_and!; [|by intros [?|?]|by rewrite Ho2; simpl in *; rewrite Ho1].
      eexists. split; [by eapply alloc_shared|by eapply implements_intro].
    + wp_step. split_and!; [|by intros [?|?]|by simpl in *; rewrite Ho1].
      eexists. split; [by eapply alloc_refused|by eapply implements_intro].
  - intros Hnone Hno. simpl. eapply wp_mono; [eapply wp_sub_new; [exact Hb1|done..|by auto]|].
    intros r st'. apply Hpost.
Qed.
End sub.
