(* ===== verification/HandleLook.v ===== *)
(** * Handle tables: looking handles up, releasing them *)

From S2P Require Import Prelude Hash Handle HandleRep HandleInv HandleOps HandleFree HandleAlloc.
From S2P Require Import HandleTake HandleApi.

(** What a lookup answers, from the entries: [f] reads the entry found. *)
Definition lookup_spec {A} (f : ent → A) (m : gmap Z ent) (N h : Z) (ty : PVRSRV_HANDLE_TYPE) :
    PVRSRV_ERROR * option A :=
  let g := get_spec m N h ty in
  if is_OK g.1 then (PVRSRV_OK, f <$> m !! g.2) else (g.1, None).

Lemma wp_live_struct L st m kids rk fl bl km i e Q :
  hinv L st m kids rk fl bl km → m !! i = Some e →
  (∀ h, slot_ok i e h → 0 ≤ i < ui32TotalHandCount (hb_base st) →
     ui32TotalHandCount (hb_base st) ≤ 2147483392 → Q h st) →
  wp (INDEX_TO_HANDLE_STRUCT i) Q st.
Proof.
  intros Hi Hm HQ. destruct st as [o b].
  destruct (live_struct _ _ _ _ _ _ _ _ _ _ _ Hi Hm) as (h&Hh&Hso&?&?). eapply wp_struct; [exact Hh|]. auto.
Qed.

(** The lookups read one structure and change nothing. *)
Lemma wp_look {A} st m (f : sHandle → A) (fe : ent → A) h ty :
  readable st m → (∀ i e hs, slot_ok i e hs → f hs = fe e) →
  wp ('(eError, psHandle) ← GetHandleStructure h ty;
      if negb (is_OK eError) then mret (eError, None)
      else hs ← INDEX_TO_HANDLE_STRUCT psHandle; mret (PVRSRV_OK, Some (f hs)))
    (λ r st', r = lookup_spec fe m (ui32TotalHandCount (hb_base st)) h ty ∧ st' = st) st.
Proof.
  intros Hrd Hf. wp_step. eapply wp_get_readable; [exact Hrd|]. unfold lookup_spec.
  destruct (get_spec m _ h ty) as [err i] eqn:Hg. simpl. destruct (is_OK err) eqn:He; simpl; [|by wp_step].
  apply is_OK_true in He as ->. apply get_spec_ok in Hg as (_&_&e&Hlv&_).
  destruct (rd_slot _ _ Hrd _ _ (proj1 Hlv)) as (hs&Hh&Hso). destruct st as [o b].
  wp_step. eapply wp_struct; [exact Hh|]. wp_step. rewrite (proj1 Hlv). simpl. by rewrite (Hf _ _ _ Hso).
Qed.

Lemma wp_lookup st m h ty : readable st m →
  wp (PVRSRVLookupHandle h ty)
    (λ r st', r = lookup_spec e_data m (ui32TotalHandCount (hb_base st)) h ty ∧ st' = st) st.
Proof. intros Hr. apply wp_look; [done|]. by intros ??? []. Qed.

Lemma wp_lookup_any st m h : readable st m →
  wp (PVRSRVLookupHandleAnyType h) (λ r st', r = lookup_spec (λ e, (e_data e, e_type e)) m
    (ui32TotalHandCount (hb_base st)) h PVRSRV_HANDLE_TYPE_NONE ∧ st' = st) st.
Proof. intros Hr. apply (wp_look _ _ (λ hs, (pvData hs, eType hs))); [done|]. intros ??? []. congruence. Qed.

Lemma wp_lookup_parent st m h ty : readable st m →
  wp (PVRSRVGetParentHandle h ty) (λ r st', r = lookup_spec (λ e, parent_handle (e_parent e)) m
    (ui32TotalHandCount (hb_base st)) h ty ∧ st' = st) st.
Proof. intros Hr. apply wp_look; [done|]. by intros ??? []. Qed.

Section look.
Context (L : Z) (st : hb_st) (m : gmap Z ent) (kids : Z → list Z) (rk : Z → nat)
  (fl bl : list Z) (km : gmap (list Z) Z) (Hi : hinv L st m kids rk fl bl km).

#[local] Abbreviation N := (ui32TotalHandCount (hb_base st)).

Lemma wp_PVRSRVLookupHandle h ty :
  wp (PVRSRVLookupHandle h ty) (λ r st', r = lookup_spec e_data m N h ty ∧ st' = st) st.
Proof. eapply wp_lookup, hinv_readable, Hi. Qed.

Lemma wp_PVRSRVFindHandle data ty :
  wp (PVRSRVFindHandle data ty) (λ r st', st' = st ∧
    ((∃ i e, key_entry m (InitKey data ty IMG_NULL) i e ∧ r = (PVRSRV_OK, Some (i + 1))) ∨
     (∀ i e, ¬ key_entry m (InitKey data ty IMG_NULL) i e) ∧ r = (PVRSRV_ERROR_HANDLE_NOT_FOUND, None))) st.
Proof.
  unfold PVRSRVFindHandle. wp_step. eapply wp_FindHandle; [exact Hi| |].
  - intros i e Hk _ Hir. rewrite (proj2 (Z.eqb_neq _ _)) by (unfold IMG_NULL; lia). wp_step. eauto 10.
  - intros _ Hno. wp_step. eauto.
Qed.

(** ** Ancestors *)

(** [a] is the handle of a handle [i] lies below.  A root's parent reads as
    the null handle, so null counts as an ancestor of everything. *)
Definition is_ancestor (a i : Z) : Prop :=
  a = IMG_NULL ∨ ∃ p, a = p + 1 ∧ p ≠ i ∧ desc m p i.

(** Number of entries nearer the roots than [i]. *)
Definition depth (i : Z) : nat := size (filter (λ j, (rk j < rk i)%nat) (dom m)).

Lemma depth_lt p i : p ∈ dom m → (rk p < rk i)%nat → (depth p < depth i)%nat.
Proof.
  intros Hp Hr. unfold depth. apply subset_size. split.
  - intros j. rewrite !elem_of_filter. intros [? ?]. split; [lia|done].
  - intros Hs. specialize (Hs p). rewrite !elem_of_filter in Hs. destruct Hs; [done|]. lia.
Qed.

Lemma depth_bound i : is_Some (m !! i) → (depth i < Z.to_nat N)%nat.
Proof.
  intros Hm. apply Nat.lt_le_trans with (size (dom m)).
  - unfold depth. apply subset_size. split; [set_solver|]. intros Hs.
    specialize (Hs i). rewrite elem_of_filter, elem_of_dom in Hs. destruct (Hs Hm). lia.
  - assert (elements (dom m) ⊆+ seqZ 0 N) as Hl%submseteq_length.
    { apply NoDup_submseteq; [apply NoDup_elements|]. intros c Hc%elem_of_elements%elem_of_dom.
      apply elem_of_seqZ. pose proof (proj2 (p_part _ _ _ _ (i_part _ _ _ _ _ _ _ _ Hi) c) (or_intror Hc)).
      lia. }
    by rewrite length_seqZ in Hl.
Qed.

(** One step of the walk. *)
Lemma is_ancestor_step a i e p :
  m !! i = Some e → e_parent e = Some p → p + 1 ≠ a → is_ancestor a i ↔ is_ancestor a p.
Proof.
  intros Hm Hp Hne. pose proof (i_tree _ _ _ _ _ _ _ _ Hi) as Ht. unfold is_ancestor. split.
  - intros [?|(q&->&Hqi&Hd)]; [by left|]. right. exists q. split; [done|].
    inversion Hd as [|? e' p' Hj Hp' Hd']; simplify_eq. split; [congruence|done].
  - intros [?|(q&->&Hqp&Hd)]; [by left|]. right. exists q. split; [done|]. split; [|by eapply desc_step].
    intros ->. pose proof (proj2 (t_par _ _ _ Ht _ _ _ Hm Hp)).
    destruct (desc_rk _ _ _ Ht _ _ Hd); subst; lia.
Qed.

Lemma wp_ancestor_loop a f i e :
  m !! i = Some e → (depth i < f)%nat →
  wp (ancestor_loop f i a) (λ r st', (r = true ↔ is_ancestor a i) ∧ st' = st) st.
Proof.
  revert i e.
  pose proof (i_tree _ _ _ _ _ _ _ _ Hi) as Ht. pose proof (i_shape _ _ _ _ _ _ _ _ Hi) as (HN0&HNm&HNx&_).
  induction f as [|f IH]; intros i e Hm Hd; [lia|]. simpl.
  wp_step. eapply wp_live_struct; [exact Hi|exact Hm|]. intros hs Hso Hir _. unfold ParentHandle. rewrite (so_parent _ _ _ Hso).
  destruct (e_parent e) as [p|] eqn:Hp; cbn [parent_handle].
  - destruct (t_par _ _ _ Ht _ _ _ Hm Hp) as [(ep&Hpm&Hpt) Hr].
    assert (0 ≤ p < N) as Hpr by (apply (p_part _ _ _ _ (i_part _ _ _ _ _ _ _ _ Hi)); eauto).
    destruct (Z.eqb_spec (p + 1) a) as [<-|Hne].
    { wp_step. split; [|done]. split; [|done]. intros _. right. exists p. split; [done|].
      split; [intros ->; lia|]. eapply desc_step; [done..|constructor]. }
    wp_step. eapply wp_GetHandleStructure; [exact Hi|]. simpl.
    rewrite (get_spec_live m N p ep) by (try done; (by split) || lia || by left). simpl.
    eapply wp_mono; [eapply IH; [done|]|].
    + apply Nat.lt_le_trans with (depth i); [|lia]. apply depth_lt; [by apply elem_of_dom; eauto|done].
    + intros r st' [Hr' ->]. split; [|done]. rewrite Hr'. symmetry. by eapply is_ancestor_step.
  - destruct (Z.eqb_spec 0 a) as [<-|Hne].
    { wp_step. split; [|done]. split; [|done]. intros _. by left. }
    wp_step. eapply wp_GetHandleStructure; [exact Hi|]. simpl. unfold get_spec.
    change (HANDLE_TO_INDEX 0) with 4294967295. rewrite (proj2 (Z.leb_le _ _)) by lia. simpl.
    wp_step. split; [|done]. split; [done|]. intros [?|(q&->&Hqi&Hdq)]; [by subst a|].
    inversion Hdq; simplify_eq.
Qed.

Lemma wp_PVRSRVLookupSubHandle h ty a :
  wp (PVRSRVLookupSubHandle h ty a) (λ r st', st' = st ∧
    let g := lookup_spec e_data m N h ty in
    if is_OK g.1 then
      is_ancestor a (HANDLE_TO_INDEX h) ∧ r = g ∨
      ¬ is_ancestor a (HANDLE_TO_INDEX h) ∧ r = (PVRSRV_ERROR_INVALID_SUBHANDLE, None)
    else r = g) st.
Proof.
  unfold PVRSRVLookupSubHandle, lookup_spec. wp_step. eapply wp_GetHandleStructure; [exact Hi|].
   destruct (get_spec m N h ty) as [err i] eqn:Hg. simpl.
  destruct (is_OK err) eqn:He; simpl; [|wp_step; by rewrite He].
  apply is_OK_true in He as ->. apply get_spec_ok in Hg as (<-&_&e&Hlv&_). wp_step.
  unfold base. wp_step.  wp_step.
  eapply wp_mono; [eapply wp_ancestor_loop; [apply Hlv|apply depth_bound; destruct Hlv; eauto]|].
  intros r st' [Hr ->]. destruct r; simpl.
  - wp_step. eapply wp_live_struct; [exact Hi|apply Hlv|]. intros hs Hso _ _. wp_step. split; [done|]. left. split; [by apply Hr|].
    rewrite (proj1 Hlv). simpl. by rewrite (so_data _ _ _ Hso).
  - wp_step. split; [done|]. right. split; [|done]. intros ?%Hr. done.
Qed.
End look.

(** ** Releasing *)

Lemma desc_decide L st m kids rk fl bl km i j :
  hinv L st m kids rk fl bl km → desc m i j ∨ ¬ desc m i j.
Proof. intros Hi. eapply desc_dec, (i_tree _ _ _ _ _ _ _ _ Hi). Qed.

(** The live handles that are left are those outside the subtree. *)
Lemma freed_live m D m' j e :
  freed m D m' → (∀ j, D j ∨ ¬ D j) → live m' j e ↔ live m j e ∧ ¬ D j.
Proof.
  intros Hf Hdec. unfold live. destruct (Hdec j) as [Hd|Hd].
  - rewrite (proj1 (Hf j) Hd). split; [|tauto]. intros [Hj Hty]. exfalso.
    destruct (m !! j) as [e'|]; [|done]. simpl in Hj. unfold dead in Hj.
    destruct (_ && _); [|done]. by injection Hj as <-.
  - rewrite (proj2 (Hf j) Hd). tauto.
Qed.

Lemma base_ok_freed L st st' s kids rk fl bl km i m' fl' km' :
  base_ok L st s kids rk fl bl km → freed (sp_handles s) (desc (sp_handles s) i) m' →
  fstep st st' m' → hinv L st' m' (kids_of m' kids) rk fl' bl km' →
  base_ok L st' (with_handles m' s) (kids_of m' kids) rk fl' bl km'.
Proof.
  intros [Hi H1 H2 H3 H4 H5 H6 Hr H7] Hf [F1 F2 F3] Hi'. unfold bfields in F1. injection F1 as B1 B2 B3 B4 B5 B6.
  assert (∀ j, desc (sp_handles s) i j ∨ ¬ desc (sp_handles s) i j) as Hdec by (intros; by eapply desc_decide).
  split; simpl; try congruence.
  - intros j e Hj. apply (H1 j). by apply (freed_live _ _ _ _ _ Hf Hdec).
  - rewrite B5. eapply bchain_ext; [|exact H2]. intros j Hj. apply F3.
    eapply bl_some; [apply (i_part _ _ _ _ _ _ _ _ Hi')|done].
  - done.
  - intros c ec p ep Hc Hcp Hp Hb. pose proof (freed_in _ _ _ Hf Hdec _ _ _ Hc Hcp) as Hcm.
    assert (∃ ep0, sp_handles s !! p = Some ep0 ∧ e_batched ep0 = true) as (ep0&Hp0&Hb0); [|by eapply H7].
    destruct (Hdec p) as [Hd|Hd].
    + rewrite (proj1 (Hf p) Hd) in Hp. destruct (sp_handles s !! p) as [ep0|]; [|done]. exists ep0.
      split; [done|]. simpl in Hp. unfold dead in Hp. by destruct (e_batched ep0).
    + rewrite (proj2 (Hf p) Hd) in Hp. eauto.
Qed.

(** A released handle takes its sub-handles along. *)
Definition released (L : Z) (st : hb_st) (s : hspec) (i : Z) (st' : hb_st) : Prop :=
  ∃ m', freed (sp_handles s) (desc (sp_handles s) i) m' ∧ implements L st' (with_handles m' s) ∧
    (plenty (hb_os st) → plenty (hb_os st')) ∧
    ui32TotalHandCount (hb_base st') = ui32TotalHandCount (hb_base st).

Lemma wp_release L st s kids rk fl bl km i e :
  base_ok L st s kids rk fl bl km → live (sp_handles s) i e →
  wp (FreeHandle i) (λ r st', r = PVRSRV_OK ∧ released L st s i st') st.
Proof.
  intros Hb [Hm Hty]. pose proof (b_inv _ _ _ _ _ _ _ _ Hb) as Hi.
  eapply wp_mono; [eapply wp_FreeHandle; [done..|]|].
  { apply (b_all _ _ _ _ _ _ _ _ Hb i). done. }
  intros r st' (->&m'&fl'&km'&Hf&Hs&Hi'). split; [done|]. exists m'. split_and!; [done| |apply Hs|].
  - eapply implements_intro, base_ok_freed; done.
  - by apply bfields_total, Hs.
Qed.

Definition release_post (L : Z) (st : hb_st) (s : hspec) (h : Z) (ty : PVRSRV_HANDLE_TYPE)
    (r : PVRSRV_ERROR) (st' : hb_st) : Prop :=
  let g := get_spec (sp_handles s) (ui32TotalHandCount (hb_base st)) h ty in
  r = g.1 ∧ if is_OK g.1 then released L st s g.2 st' else st' = st.

Theorem wp_PVRSRVReleaseHandle L st s h ty :
  implements L st s → wp (PVRSRVReleaseHandle h ty) (release_post L st s h ty) st.
Proof.
  intros (kids&rk&fl&bl&km&Hb). pose proof (b_inv _ _ _ _ _ _ _ _ Hb) as Hi.
  unfold PVRSRVReleaseHandle, release_post. wp_step. eapply wp_GetHandleStructure; [exact Hi|].
  destruct (get_spec _ _ h ty) as [err i] eqn:Hg. simpl. destruct (is_OK err) eqn:He; simpl; [|by wp_step].
  apply is_OK_true in He as ->. apply get_spec_ok in Hg as (_&_&e&Hlv&_).
  eapply wp_mono; [by eapply wp_release|]. done.
Qed.

Theorem wp_PVRSRVLookupAndReleaseHandle L st s h ty :
  implements L st s → wp (PVRSRVLookupAndReleaseHandle h ty) (λ r st',
    release_post L st s h ty r.1 st' ∧
    r.2 = (lookup_spec e_data (sp_handles s) (ui32TotalHandCount (hb_base st)) h ty).2) st.
Proof.
  intros (kids&rk&fl&bl&km&Hb). pose proof (b_inv _ _ _ _ _ _ _ _ Hb) as Hi.
  unfold PVRSRVLookupAndReleaseHandle, release_post, lookup_spec.
  wp_step. eapply wp_GetHandleStructure; [exact Hi|].
  destruct (get_spec _ _ h ty) as [err i] eqn:Hg. simpl. destruct (is_OK err) eqn:He; simpl; [|by wp_step].
  apply is_OK_true in He as ->. apply get_spec_ok in Hg as (_&_&e&Hlv&_).
  wp_step. eapply wp_live_struct; [exact Hi|apply Hlv|]. intros hs Hso _ _.
  wp_step. eapply wp_mono; [by eapply wp_release|]. intros r st' [-> Hr]. wp_step.
  split; [done|]. rewrite (proj1 Hlv). simpl. by rewrite (so_data _ _ _ Hso).
Qed.
