(* ===== verification/HandleBatch.v ===== *)
(** * Handle tables: batches

    A batch is the list of handles allocated since [PVRSRVNewHandleBatch];
    it is committed or released as a whole. *)

From S2P Require Import Prelude Hash Handle HandleRep HandleInv HandleOps HandleFree HandleAlloc.
From S2P Require Import HandleTake HandleApi HandleLook.

(** ** What becomes of an entry when the batch ends *)

Definition settle (commit : bool) (e : ent) : option ent :=
  if is_NONE (e_type e) then None
  else if e_batched e then (if commit then Some (unbatch e) else None)
  else Some e.

(** Sub-handles of batched handles are batched. *)
Definition closed (m : gmap Z ent) : Prop := ∀ c ec p ep,
  m !! c = Some ec → e_parent ec = Some p → m !! p = Some ep → e_batched ep = true → e_batched ec = true.

Lemma desc_batched m x ex j ej :
  closed m → m !! x = Some ex → e_batched ex = true → desc m x j → m !! j = Some ej → e_batched ej = true.
Proof.
  intros Hc Hx Hb Hd. revert ej. induction Hd as [|j e p Hj Hp Hd IH]; intros ej Hej; [congruence|].
  simplify_eq. assert (is_Some (m !! p)) as [ep Hpm] by (apply (desc_some m x p); [by eauto|done]). eauto.
Qed.

(** ** One entry of the list *)

(** A structure in use rewritten, its list fields kept. *)
Lemma hinv_put L o b m kids rk fl bl bl' km i e e' h h' :
  hinv L (mk_hb o b) m kids rk fl bl km → m !! i = Some e → hand_at b i = Some h →
  slot_ok i e' h' → sChildren h' = sChildren h → sSiblings h' = sSiblings h →
  e_parent e' = e_parent e → e_type e' = e_type e → e_hashed e' = e_hashed e →
  e_flag e' = e_flag e → e_data e' = e_data e →
  (e_type e = PVRSRV_HANDLE_TYPE_NONE → e_batched e' = true) →
  part_ok (ui32TotalHandCount b) (<[i := e']> m) fl bl' →
  hinv L (mk_hb o (put_hand i h' b)) (<[i := e']> m) kids rk fl bl' km.
Proof.
  intros [Hs Ht Hpa Hh Hf Hha Hk Hhd Hpu Hl] Hm Hhi Hso Hc1 Hc2 Hp Hty Hhs Hfg Hd Hb Hpa'. simpl in *.
  pose proof (shape_range _ _ _ Hs Hhi).
  assert (∀ j, hand_at (put_hand i h' b) j = if decide (j = i) then Some h' else hand_at b j) as Hput
    by (intros j; apply hand_at_put; eauto).
  assert (i ∉ fl) as Hni by (intros Hin; by rewrite (p_disj _ _ _ _ Hpa _ Hin) in Hm).
  split; simpl; try done.
  - by apply shape_put; [|lia].
  - by eapply tree_retag.
  - destruct Hh as [H1 H2 H3]. split.
    + intros j ej [[<- <-]|[Hne Hj]]%lookup_insert_Some; rewrite Hput; [rewrite decide_True by done; eauto|].
      rewrite decide_False by done. auto.
    + intros j Hj. rewrite Hput, decide_False by (by intros ->). auto.
    + intros p Hp'. eapply rings_cells; [by apply (cell_put b i h h')|]. apply H3.
      apply lookup_insert_is_Some' in Hp' as [<-|]; eauto.
  - eapply free_ok_hn; [exact Hf|]. intros j Hj. unfold hn. rewrite Hput, decide_False by (by intros ->). done.
  - intros k v. rewrite (Hk k v). assert (ent_key e' = ent_key e) as Hke by (unfold ent_key; by rewrite Hd, Hty, Hfg, Hp).
    split; intros (j&ej&Hj&Hr).
    + destruct (decide (j = i)) as [->|Hne].
      * exists i, e'. rewrite lookup_insert_eq, Hke, Hhs. simplify_eq. tauto.
      * exists j, ej. by rewrite lookup_insert_ne.
    + apply lookup_insert_Some in Hj as [[<- <-]|[Hne Hj]]; [|eauto 10].
      exists i, e. rewrite <- Hke, <- Hhs. tauto.
  - intros j ej [[<- <-]|[? Hj]]%lookup_insert_Some; [|exact (Hhd _ _ Hj)].
    unfold is_multi. rewrite Hhs, Hp, Hty, Hfg. exact (Hhd _ _ Hm).
  - by rewrite array_blocks_put.
Qed.

Lemma part_unbatch N m fl i bl e :
  part_ok N m fl (i :: bl) → m !! i = Some e → part_ok N (<[i := unbatch e]> m) fl bl.
Proof.
  intros [H1 H2 H3 [H4 H4']%NoDup_cons H5] Hi. split; try done.
  - intros j. rewrite H1, lookup_insert_is_Some'. naive_solver.
  - intros j Hj. rewrite lookup_insert_ne; [auto|]. intros ->. by rewrite H2 in Hi.
  - intros j. destruct (decide (j = i)) as [->|Hne].
    + rewrite lookup_insert_eq. split; [done|]. by intros (?&[= <-]&?).
    + rewrite lookup_insert_ne, <- H5, elem_of_cons by done. naive_solver.
Qed.

(** The link of the entry is cleared. *)
Lemma slot_set_next i e h : slot_ok i e h → slot_ok i e (set_next 0 h).
Proof. by intros []. Qed.

(** [SET_UNBATCHED_HANDLE] on a live entry. *)
Lemma slot_unbatch i e h :
  slot_ok i e h → e_type e ≠ PVRSRV_HANDLE_TYPE_NONE → ui32NextIndexPlusOne h = 0 →
  e_batched e = true → slot_ok i (unbatch e) (SET_UNBATCHED_HANDLE h).
Proof.
  intros [] Hty Hn Hb. split; try done. simpl. rewrite so_iflag. unfold iflag.
  simpl. rewrite is_NONE_false, Hb by done. done.
Qed.

(** A partially released entry goes for good. *)
Lemma wp_free_partial L st m kids rk fl i bl km e :
  hinv L st m kids rk fl (i :: bl) km → m !! i = Some e → e_type e = PVRSRV_HANDLE_TYPE_NONE →
  hn (hand_at (hb_base st)) i = 0 →
  wp (FreeHandle i) (λ _ st', fstep st st' (delete i m) ∧
      hinv L st' (delete i m) kids rk (fl ++ [i]) bl km) st.
Proof.
  intros Hi Hm Hty Hn. destruct st as [o b]. pose proof Hi as [Hs Ht Hpa Hh _ _ _ Hhd _ _]. simpl in *.
  destruct (t_partial _ _ _ Ht _ _ Hm Hty) as [Hp Hb].
  assert (e_hashed e = false) as Hhs.
  { destruct (e_hashed e) eqn:He; [|done]. by destruct (proj1 (Hhd _ _ Hm) He) as [_ ?]. }
  assert (kids i = []) as Hk.
  { destruct (kids i) as [|c l] eqn:Hk; [done|]. exfalso.
    assert (c ∈ kids i) as (ec&Hc&Hpc)%(t_kids _ _ _ Ht) by (rewrite Hk; by left).
    destruct (proj1 (t_par _ _ _ Ht _ _ _ Hc Hpc)) as (?&?&?). congruence. }
  destruct (h_slot _ _ _ _ Hh _ _ Hm) as (h&Hhi&Hso). destruct (slot_flags _ _ _ Hso) as (_&Hpf&_).
  pose proof (shape_range _ _ _ Hs Hhi) as Hri.
  assert (0 ≤ i < ui32TotalHandCount b) as Hir by (apply (p_part _ _ _ _ Hpa); eauto).
  unfold FreeHandle. wp_step. apply wp_base.
  destruct (Z.to_nat (ui32TotalHandCount b)) as [|n] eqn:HN; [lia|]. simpl.
  wp_step. eapply wp_struct; [done|]. cbn zeta. rewrite Hpf, Hty. simpl. rewrite andb_false_r.
  wp_step. apply wp_ret. wp_step.
  unfold UnlinkFromParent. wp_step. eapply wp_struct; [done|]. unfold HandleListRemove.
  wp_step. eapply wp_struct; [done|]. cbn zeta. rewrite (so_root _ _ _ Hso Hp), (so_index _ _ _ Hso).
  unfold HandleListIsEmpty. simpl. rewrite Z.eqb_refl. apply wp_ret.
  wp_step. unfold IterateOverChildren. wp_step. eapply wp_struct; [done|]. unfold HandleListIterate.
  wp_step. apply wp_base. rewrite (so_children _ _ _ Hso), HANDLE_TO_INDEX_succ by done.
  pose proof (h_ring _ _ _ _ Hh i ltac:(eauto)) as Hr%ring_head. rewrite Hk in Hr. simpl in Hr.
  assert (ui32Next (sChildren h) = i) as ->.
  { rewrite <- Hr. unfold lnx, node, cnx. rewrite Z.eqb_refl. by rewrite (proj1 (cell_hand _ _ _ Hhi)). }
  assert (∀ f, iterate_list f i i (free_handle n) = mret PVRSRV_OK) as ->
    by (intros []; simpl; by rewrite Z.eqb_refl).
  apply wp_ret. simpl. fold (finish i i).
  eapply wp_mono; [apply (wp_finish_free L o b m kids rk fl (i :: bl) km i e); try done|].
  - unfold dead. by rewrite Hty, andb_false_r.
  - intros r st' (_&Hf&Hi'). split; [done|]. rewrite filter_cons_False in Hi' by (intros []; done).
    rewrite filter_ne in Hi'; [done|]. by apply (p_bl_nodup _ _ _ _), NoDup_cons in Hpa as [? _].
Qed.

(** What the loop over the batch keeps between two entries. *)
Record batch_inv (L : Z) (commit : bool) (st : hb_st) (m : gmap Z ent) (kids : Z → list Z) (rk : Z → nat)
    (fl bl : list Z) (km : gmap (list Z) Z) : Prop := {
  bi_inv : hinv L st m kids rk fl bl km;
  bi_all i e : live m i e → e_hashed e = negb (is_multi e);
  bi_closed : commit = false → closed m }.

(** One turn, [bl] being the entries left. *)
Record batch_turn (commit : bool) (bl : list Z) (st st' : hb_st) (m m' : gmap Z ent) : Prop := {
  bt_fields : bfields (hb_base st') = bfields (hb_base st);
  bt_plenty : plenty (hb_os st) → plenty (hb_os st');
  bt_next j : j ∈ bl → hn (hand_at (hb_base st')) j = hn (hand_at (hb_base st)) j;
  bt_settle : omap (settle commit) m' = omap (settle commit) m }.

Lemma live_delete m i j e : live (delete i m) j e → live m j e.
Proof. intros [[_ ?]%lookup_delete_Some ?]. done. Qed.

Lemma closed_delete m i : closed m → closed (delete i m).
Proof.
  intros Hc c ec p ep [_ H1]%lookup_delete_Some H2 [_ H3]%lookup_delete_Some. by eapply Hc.
Qed.

(** The structure of [i] with its link cleared. *)
Lemma hinv_cleared L o b m kids rk fl bl km i e h :
  hinv L (mk_hb o b) m kids rk fl bl km → m !! i = Some e → hand_at b i = Some h →
  hinv L (mk_hb o (put_hand i (set_next 0 h) b)) m kids rk fl bl km.
Proof.
  intros Hi Hm Hh. destruct (h_slot _ _ _ _ (i_heap _ _ _ _ _ _ _ _ Hi) _ _ Hm) as (h'&Hh'&Hso).
  simpl in Hh'. assert (h' = h) as -> by congruence.
  rewrite <- (insert_id m i e) by done.
  eapply hinv_put; try done; [by apply slot_set_next|..].
  - intros Hty. by apply (t_partial _ _ _ (i_tree _ _ _ _ _ _ _ _ Hi) _ _ Hm).
  - rewrite insert_id by done. apply (i_part _ _ _ _ _ _ _ _ Hi).
Qed.

Lemma hn_put b i h j : shape b → is_Some (hand_at b i) → i ≠ j →
  hn (hand_at (put_hand i h b)) j = hn (hand_at b) j.
Proof. intros Hs Hi Hne. unfold hn. by rewrite hand_at_put, decide_False by auto. Qed.

Lemma omap_settle_insert commit (m : gmap Z ent) i e e' :
  m !! i = Some e → settle commit e' = settle commit e →
  omap (settle commit) (<[i := e']> m) = omap (settle commit) m.
Proof.
  intros Hm He. apply map_eq. intros j. rewrite !lookup_omap. destruct (decide (j = i)) as [->|].
  - by rewrite lookup_insert_eq, Hm.
  - by rewrite lookup_insert_ne.
Qed.

(** A batched handle released with the batch, the entry being unbatched. *)
Lemma settle_freed m i e m' kids rk :
  tree_ok m kids rk → m !! i = Some e → e_batched e = true → closed m → e_type e ≠ PVRSRV_HANDLE_TYPE_NONE →
  freed (<[i := unbatch e]> m) (desc (<[i := unbatch e]> m) i) m' →
  tree_ok (<[i := unbatch e]> m) kids rk →
  omap (settle false) m' = omap (settle false) m ∧ closed m' ∧ (∀ j ej, live m' j ej → live m j ej).
Proof.
  intros Ht Hm Hb Hc Hty Hf Ht1. set (m1 := <[i := unbatch e]> m) in *.
  assert (∀ j, desc m1 i j ∨ ¬ desc m1 i j) as Hdec by (intros; by eapply desc_dec).
  assert (∀ j, desc m1 i j → desc m i j) as Hdm.
  { intros j. apply desc_mono. intros k e' p [[<- <-]|[? ?]]%lookup_insert_Some ?; eauto. }
  assert (∀ j, j ≠ i → m1 !! j = m !! j) as Hm1 by (intros j ?; unfold m1; by rewrite lookup_insert_ne).
  assert (m1 !! i = Some (unbatch e)) as Hm1i by apply lookup_insert_eq.
  assert (m' !! i = None) as Hi.
  { rewrite (proj1 (Hf i)) by constructor. by rewrite Hm1i. }
  split_and!.
  - apply map_eq. intros j. rewrite !lookup_omap. destruct (decide (j = i)) as [->|Hne].
    { rewrite Hi, Hm. simpl. unfold settle. by rewrite is_NONE_false, Hb. }
    destruct (Hdec j) as [Hd|Hd].
    + rewrite (proj1 (Hf j) Hd), Hm1 by done. destruct (m !! j) as [ej|] eqn:Hj; [|done]. simpl.
      pose proof (desc_batched _ _ _ _ _ Hc Hm Hb (Hdm _ Hd) Hj) as Hbj.
      unfold dead, settle at 2. rewrite Hbj. by destruct (is_NONE (e_type ej)).
    + by rewrite (proj2 (Hf j) Hd), Hm1.
  - intros c ec p ep Hcm Hcp Hpm Hpb. pose proof (freed_in _ _ _ Hf Hdec _ _ _ Hcm Hcp) as Hcm1.
    assert (c ≠ i) as Hci by congruence. assert (p ≠ i) as Hpi by congruence. rewrite Hm1 in Hcm1 by done.
    destruct (Hdec p) as [Hd|Hd].
    + rewrite (proj1 (Hf p) Hd), Hm1 in Hpm by done. destruct (m !! p) as [ep0|] eqn:Hp0; [|done].
      eapply Hc; [done..|]. exact (desc_batched m i e p ep0 Hc Hm Hb (Hdm _ Hd) Hp0).
    + rewrite (proj2 (Hf p) Hd), Hm1 in Hpm by done. by eapply Hc.
  - intros j ej Hl%(freed_live _ _ _ _ _ Hf Hdec). destruct Hl as [[Hj ?] Hd].
    rewrite Hm1 in Hj; [done|]. intros ->. apply Hd. constructor.
Qed.

Lemma wp_batch_step L commit st m kids rk fl i bl km :
  batch_inv L commit st m kids rk fl (i :: bl) km →
  wp (batch_step commit i) (λ _ st', ∃ m' kids' fl' km',
      batch_inv L commit st' m' kids' rk fl' bl km' ∧ batch_turn commit bl st st' m m') st.
Proof.
  intros [Hi Hall Hcl]. destruct st as [o b]. pose proof Hi as [Hs Ht Hpa Hh _ _ _ _ _ _]. simpl in *.
  destruct (proj1 (p_bl _ _ _ _ Hpa i) ltac:(by left)) as (e&Hm&Hb).
  destruct (h_slot _ _ _ _ Hh _ _ Hm) as (h&Hhi&Hso).
  pose proof (p_bl_nodup _ _ _ _ Hpa) as [Hib _]%NoDup_cons.
  pose proof (hinv_cleared _ _ _ _ _ _ _ _ _ _ _ _ Hi Hm Hhi) as Hi1.
  set (b1 := put_hand i (set_next 0 h) b) in *. pose proof (i_shape _ _ _ _ _ _ _ _ Hi1) as Hs1. simpl in Hs1.
  assert (hand_at b1 i = Some (set_next 0 h)) as Hh1 by (unfold b1; by rewrite hand_at_put, decide_True by eauto).
  assert (∀ j, j ∈ bl → hn (hand_at b1) j = hn (hand_at b) j) as Hn1.
  { intros j Hj. apply hn_put; [done|eauto|]. by intros ->. }
  apply slot_set_next in Hso as Hso1. destruct (slot_flags _ _ _ Hso1) as (_&Hpf&_).
  unfold batch_step. wp_step. eapply wp_upd_handle; [exact Hhi|]. fold b1.
  wp_step. eapply wp_struct; [exact Hh1|]. rewrite Hpf.
  destruct (decide (e_type e = PVRSRV_HANDLE_TYPE_NONE)) as [Hty|Hty].
  { rewrite Hty. simpl. rewrite orb_true_r. wp_step. apply wp_ret. wp_step.
    eapply wp_mono; [eapply (wp_free_partial L (mk_hb o b1)); [exact Hi1|done..|]|].
    { unfold hn. simpl. by rewrite Hh1. }
    intros r st' [[F1 F2 F3] Hi']. wp_step. exists (delete i m), kids, (fl ++ [i]), km. split; split; simpl in *.
    - done.
    - intros j ej Hl. by eapply (Hall j), live_delete.
    - intros Hcm. by apply closed_delete, Hcl.
    - exact F1.
    - exact F2.
    - intros j Hj. rewrite F3, Hn1; [done..|]. apply (bl_some _ _ _ _ _ (i_part _ _ _ _ _ _ _ _ Hi') Hj).
    - apply map_eq. intros j. rewrite !lookup_omap. destruct (decide (j = i)) as [->|].
      + rewrite lookup_delete_eq, Hm. simpl. unfold settle. by rewrite Hty.
      + by rewrite lookup_delete_ne. }
  rewrite is_NONE_false by done. simpl. rewrite orb_false_r.
  assert (hinv L (mk_hb o (put_hand i (SET_UNBATCHED_HANDLE (set_next 0 h)) b1)) (<[i := unbatch e]> m) kids rk fl bl km)
    as Hi2.
  { eapply (hinv_put L o b1); [exact Hi1|exact Hm|exact Hh1|by apply slot_unbatch|done..|].
    eapply part_unbatch; [exact Hpa|done]. }
  set (b2 := put_hand i _ b1) in *.
  assert (∀ j, j ∈ bl → hn (hand_at b2) j = hn (hand_at b) j) as Hn2.
  { intros j Hj. rewrite <- Hn1 by done. apply hn_put; [done|eauto|]. by intros ->. }
  destruct commit; simpl.
  - eapply wp_upd_handle; [exact Hh1|]. fold b2. exists (<[i := unbatch e]> m), kids, fl, km.
    split; split; simpl in *; try done.
    + intros j ej [[[<- <-]|[? ?]]%lookup_insert_Some Hj]; [by apply (Hall i e)|by apply (Hall j)].
    + apply (omap_settle_insert true _ _ e); [done|]. unfold settle. simpl. by rewrite is_NONE_false, Hb.
  - wp_step. eapply wp_upd_handle; [exact Hh1|]. fold b2. wp_step.
    eapply wp_mono; [eapply (wp_FreeHandle L (mk_hb o b2)); [exact Hi2|apply lookup_insert_eq|done|]|].
    { by apply (Hall i e). }
    intros r st' (_&m'&fl'&km'&Hf&[F1 F2 F3]&Hi'). wp_step.
    destruct (settle_freed m i e m' kids rk Ht Hm Hb (Hcl eq_refl) Hty Hf (i_tree _ _ _ _ _ _ _ _ Hi2))
      as (Hse&Hcl'&Hlv).
    exists m', (kids_of m' kids), fl', km'. split; split; simpl in *; try done.
    + intros j ej Hl. by apply (Hall j), Hlv.
    + intros j Hj. rewrite F3, Hn2; [done..|]. apply (bl_some _ _ _ _ _ (i_part _ _ _ _ _ _ _ _ Hi') Hj).
Qed.

(** ** The whole list *)

Lemma batch_turn_trans commit bl bl' st st1 st2 m m1 m2 :
  batch_turn commit bl st st1 m m1 → batch_turn commit bl' st1 st2 m1 m2 → (∀ j, j ∈ bl' → j ∈ bl) →
  batch_turn commit bl' st st2 m m2.
Proof.
  intros [A1 A2 A3 A4] [B1 B2 B3 B4] Hbl. split; [congruence|auto| |congruence].
  intros j Hj. rewrite B3, A3 by auto. done.
Qed.

Lemma wp_batch_loop L commit bl f st m kids rk fl km first :
  batch_inv L commit st m kids rk fl bl km → bchain (hand_at (hb_base st)) first bl → (length bl ≤ f)%nat →
  wp (batch_loop f commit first) (λ _ st', ∃ m' kids' fl' km',
      batch_inv L commit st' m' kids' rk fl' [] km' ∧ batch_turn commit [] st st' m m') st.
Proof.
  revert f st m kids fl km first. induction bl as [|i bl IH]; intros f st m kids fl km first Hb Hc Hf.
  - simpl in Hc. subst first. assert (batch_loop f commit 0 = mret tt) as -> by (by destruct f).
    apply wp_ret. exists m, kids, fl, km. by split; [|split].
  - destruct Hc as [-> Hc]. destruct f as [|f]; simpl in Hf; [lia|].
    pose proof Hb as [Hi _ _].
    destruct (proj1 (p_bl _ _ _ _ (i_part _ _ _ _ _ _ _ _ Hi) i) ltac:(by left)) as (e&Hm&_).
    assert (0 ≤ i < ui32TotalHandCount (hb_base st)) as Hir
      by (apply (p_part _ _ _ _ (i_part _ _ _ _ _ _ _ _ Hi)); eauto).
    pose proof (i_shape _ _ _ _ _ _ _ _ Hi) as (_&HNm&HNx&_).
    simpl. rewrite (proj2 (Z.eqb_neq (i + 1) 0)) by lia.
    replace (i + 1 - 1) with i by lia. rewrite u32_small by (unfold is_u32; lia).
    wp_step. destruct (h_slot _ _ _ _ (i_heap _ _ _ _ _ _ _ _ Hi) _ _ Hm) as (h&Hh&_).
    destruct st as [o b]. simpl in *. eapply wp_struct; [exact Hh|].
    unfold hn in Hc. rewrite Hh in Hc. simpl in Hc.
    wp_step. eapply wp_mono; [by eapply wp_batch_step|]. intros _ st1 (m1&kids1&fl1&km1&Hb1&Ht1).
    eapply wp_mono; [eapply IH; [exact Hb1| |lia]|].
    + eapply bchain_ext; [|exact Hc]. intros j Hj. by apply (bt_next _ _ _ _ _ _ Ht1).
    + intros _ st2 (m2&kids2&fl2&km2&Hb2&Ht2). exists m2, kids2, fl2, km2. split; [done|].
      eapply batch_turn_trans; [done..|]. set_solver.
Qed.

(** Nothing is batched any more. *)
Lemma settled N m kids rk fl commit :
  tree_ok m kids rk → part_ok N m fl [] → omap (settle commit) m = m.
Proof.
  intros Ht Hp. apply map_eq. intros j. rewrite lookup_omap. destruct (m !! j) as [e|] eqn:Hj; [|done]. simpl.
  assert (e_batched e = false) as Hb.
  { destruct (e_batched e) eqn:Hb; [|done]. assert (j ∈ []) as Hin by (apply (p_bl _ _ _ _ Hp); eauto).
    by apply elem_of_nil in Hin. }
  unfold settle. rewrite Hb. unfold is_NONE. rewrite bool_decide_eq_false_2; [done|]. intros Hty.
  destruct (t_partial _ _ _ Ht _ _ Hj Hty). congruence.
Qed.

(** The batch is over. *)
Definition batch_over (commit : bool) (s : hspec) : hspec :=
  mkSpec (omap (settle commit) (sp_handles s)) 0 0 (sp_max s).

(** Failures release the batch whatever was asked; the answer is
    [PVRSRV_OK] either way. *)
Definition end_batch_post (L : Z) (bCommit : bool) (st : hb_st) (s : hspec) (r : PVRSRV_ERROR) (st' : hb_st) :
    Prop :=
  if is_batched s then
    r = PVRSRV_OK ∧ implements L st' (batch_over (bCommit && (sp_fails s =? 0)) s) ∧
    (plenty (hb_os st) → plenty (hb_os st')) ∧
    ui32TotalHandCount (hb_base st') = ui32TotalHandCount (hb_base st)
  else r = PVRSRV_ERROR_INVALID_PARAMS ∧ st' = st.

Lemma wp_end_batch L bCommit st s :
  implements L st s →
  wp (PVRSRVHandleBatchCommitOrRelease bCommit) (end_batch_post L bCommit st s) st.
Proof.
  intros (kids&rk&fl&bl&km&Hb). destruct st as [o b].
  unfold PVRSRVHandleBatchCommitOrRelease, end_batch_post. hb_steps.
  pose proof Hb as [Hi H1 H2 H3 H4 H5 H6 Hr H7].
  pose proof (base_batched _ _ _ _ _ _ _ _ Hb) as Hbt. simpl in *. rewrite Hbt. destruct (is_batched s); simpl; [|by wp_step].
  rewrite H4. set (commit := if negb (sp_fails s =? 0) then false else bCommit).
  assert (commit = bCommit && (sp_fails s =? 0)) as Hcm by (unfold commit; by destruct bCommit, (sp_fails s =? 0)).
  rewrite <- Hcm. pose proof (i_shape _ _ _ _ _ _ _ _ Hi) as (_&HN0&_).
  wp_step. eapply wp_mono; [eapply (wp_batch_loop L commit bl)|].
  - split; [exact Hi|exact H1|by intros _].
  - exact H2.
  - assert (bl ⊆+ seqZ 0 (ui32TotalHandCount b)) as Hl%submseteq_length.
    { apply NoDup_submseteq; [apply (p_bl_nodup _ _ _ _ (i_part _ _ _ _ _ _ _ _ Hi))|].
      intros c Hc. apply elem_of_seqZ.
      pose proof (proj2 (p_part _ _ _ _ (i_part _ _ _ _ _ _ _ _ Hi) c) 
        (or_intror (bl_some _ _ _ _ _ (i_part _ _ _ _ _ _ _ _ Hi) Hc))). simpl in *. lia. }
    by rewrite length_seqZ in Hl.
  - intros _ [o' b'] (m'&kids'&fl'&km'&[Hi' Ha' _]&[F1 F2 _ Hse]). hb_steps. simpl. wp_step.
    unfold bfields in F1. simpl in F1. injection F1 as B1 B2 B3 B4 B5 B6.
    rewrite (settled _ _ _ _ _ _ (i_tree _ _ _ _ _ _ _ _ Hi') (i_part _ _ _ _ _ _ _ _ Hi')) in Hse.
    split_and!; [done| |done|done]. unfold batch_over. rewrite <- Hse. simpl in *.
    exists kids', rk, fl', [], km'. split; simpl; try done.
    + destruct Hi'. by split.
    + congruence.
    + intros c ec p ep Hc Hcp Hpm Hpb. assert (p ∈ []) as Hin
        by (apply (p_bl _ _ _ _ (i_part _ _ _ _ _ _ _ _ Hi')); eauto). by apply elem_of_nil in Hin.
Qed.

Theorem wp_PVRSRVCommitHandleBatch L st s :
  implements L st s → wp PVRSRVCommitHandleBatch (end_batch_post L true st s) st.
Proof. apply wp_end_batch. Qed.

Theorem wp_PVRSRVReleaseHandleBatch L st s :
  implements L st s → wp PVRSRVReleaseHandleBatch (λ _ st', ∃ r, end_batch_post L false st s r st') st.
Proof.
  intros Hi. unfold PVRSRVReleaseHandleBatch. wp_step. eapply wp_mono; [by apply wp_end_batch|].
  intros r st' Hp. wp_step. eauto.
Qed.

(** ** Opening a batch *)

(** The room a batch asks for can be made without the free list being
    lost: slot 0 does not head it, it is empty, or it is long enough. *)
Definition batch_safe (b : PVRSRV_HANDLE_BASE) (k : Z) : Prop :=
  ui32FreeHandCount b = 0 ∨ ui32FirstFreeIndex b ≠ 0 ∨ k ≤ ui32FreeHandCount b.

Definition new_batch_post (L : Z) (st : hb_st) (s : hspec) (k : Z) (r : PVRSRV_ERROR) (st' : hb_st) : Prop :=
  if is_batched s then r = PVRSRV_ERROR_HANDLE_BATCH_IN_USE ∧ st' = st
  else if k =? 0 then r = PVRSRV_ERROR_INVALID_PARAMS ∧ st' = st
  else (plenty (hb_os st) → plenty (hb_os st')) ∧
    (r = PVRSRV_OK ∧ implements L st' (mkSpec (sp_handles s) k (sp_fails s) (sp_max s)) ∧
       k ≤ ui32FreeHandCount (hb_base st')
     ∨ r = PVRSRV_ERROR_OUT_OF_MEMORY ∧ implements L st' s ∧ hb_base st' = hb_base st ∧
       (ui32MaxIndexPlusOne (hb_base st) - ui32TotalHandCount (hb_base st) < k - ui32FreeHandCount (hb_base st)
        ∨ ¬ plenty (hb_os st))).

Section batch.
Context {heap : HeapContents}.

Theorem wp_PVRSRVNewHandleBatch L st s k :
  implements L st s → is_u32 k → batch_safe (hb_base st) k →
  wp (PVRSRVNewHandleBatch k) (new_batch_post L st s k) st.
Proof.
  intros (kids&rk&fl&bl&km&Hb) Hk Hsafe. destruct st as [o b].
  unfold PVRSRVNewHandleBatch, new_batch_post. hb_steps.
  pose proof (base_batched _ _ _ _ _ _ _ _ Hb) as Hbt. simpl in *. rewrite Hbt. destruct (is_batched s) eqn:Hba; cbn [negb andb orb]; [by wp_step|].
  destruct (Z.eqb_spec k 0) as [->|Hk0]; [by wp_step|].
  pose proof (b_inv _ _ _ _ _ _ _ _ Hb) as Hi. simpl in *.
  pose proof (f_count _ _ _ _ _ (i_free _ _ _ _ _ _ _ _ Hi)) as Hcnt. simpl in Hcnt.
  wp_step. eapply wp_mono; [eapply wp_EnsureFreeHandles; [exact Hi| |]|].
  - unfold batch_safe in Hsafe. rewrite Hcnt in Hsafe.
    destruct Hsafe as [?|[?|?]]; [left; destruct fl; [done|simpl in *; lia]|by right; left|by right; right].
  - unfold is_u32 in Hk. lia.
  - intros r st' [Hg [(->&ext&Hi'&Hlen)|(->&Hbb&Hi'&Hwhy)]]; simpl.
    + pose proof (implements_grow _ _ _ _ _ _ _ _ _ _ Hb Hg Hi') as Hb'. hb_steps.
      split; [apply (gs_plenty _ _ _ Hg)|]. left. split; [done|]. destruct st' as [o' b']. simpl. split.
      * destruct Hb' as [[? ? ? ? ? ? ? ? ? ?] H1 H2 H3 H4 H5 H6 Hr H7].
        exists kids, rk, (fl ++ ext), bl, km. split; simpl in *; try done.
      * pose proof (f_count _ _ _ _ _ (i_free _ _ _ _ _ _ _ _ Hi')) as Hc2. simpl in Hc2. by rewrite Hc2.
    + wp_step. split; [apply (gs_plenty _ _ _ Hg)|]. right. split_and!; [done| |done|by rewrite Hcnt].
      pose proof (implements_grow _ _ _ _ _ _ _ _ _ _ Hb Hg Hi') as Hb'. by eapply implements_intro.
Qed.
End batch.
