(* ===== verification/HandleLife.v ===== *)
(** * Handle tables: the life of a base

    [PVRSRVAllocHandleBase] makes an empty table; [PVRSRVFreeHandleBase]
    gives back every block it ever took. *)

From S2P Require Import Prelude Hash Handle HandleRep HandleInv HandleOps HandleFree HandleAlloc.
From S2P Require Import HandleTake HandleApi HandleLook HandleBatch.

(** ** [FreeAllHandles] *)

(** No batch is open. *)
Definition unbatched (s : hspec) : Prop := sp_batch s = 0.

Lemma unbatched_live L st s kids rk fl bl km i e :
  base_ok L st s kids rk fl bl km → unbatched s → sp_handles s !! i = Some e → live (sp_handles s) i e.
Proof.
  intros Hb Hu Hi. split; [done|]. intros Hty. pose proof (b_inv _ _ _ _ _ _ _ _ Hb) as Hin.
  destruct (t_partial _ _ _ (i_tree _ _ _ _ _ _ _ _ Hin) _ _ Hi Hty) as [_ Hbt].
  assert (i ∈ bl) as Hbl by (apply (p_bl _ _ _ _ (i_part _ _ _ _ _ _ _ _ Hin)); eauto).
  rewrite (b_none _ _ _ _ _ _ _ _ Hb Hu) in Hbl. by apply elem_of_nil in Hbl.
Qed.

(** The free list has every slot exactly when no entry is left. *)
Lemma all_free N m fl bl : part_ok N m fl bl → 0 ≤ N → Z.of_nat (length fl) = N → m = ∅.
Proof.
  intros Hp HN Hl. apply map_empty. intros i. destruct (m !! i) as [e|] eqn:Hi; [|done]. exfalso.
  assert (0 ≤ i < N) as Hir by (apply (p_part _ _ _ _ Hp); eauto).
  assert (i :: fl ⊆+ seqZ 0 N) as Hs%submseteq_length.
  { apply NoDup_submseteq.
    - constructor; [|apply Hp]. intros Hin. rewrite (p_disj _ _ _ _ Hp _ Hin) in Hi. done.
    - intros j [->|Hj]%elem_of_cons; apply elem_of_seqZ; [lia|].
      pose proof (proj2 (p_part _ _ _ _ Hp j) (or_introl Hj)). lia. }
  rewrite length_seqZ in Hs. simpl in Hs. lia.
Qed.

Lemma wp_free_all_from L n st s i :
  implements L st s → unbatched s → 0 ≤ i → i + Z.of_nat n = ui32TotalHandCount (hb_base st) →
  (∀ j, j < i → sp_handles s !! j = None) →
  wp (free_all_from n i) (λ r st', r = PVRSRV_OK ∧ implements L st' (with_handles ∅ s) ∧
      (plenty (hb_os st) → plenty (hb_os st'))) st.
Proof.
  revert st s i. induction n as [|n IH]; intros st s i (kids&rk&fl&bl&km&Hb) Hu Hi0 HN Hlo.
  - simpl. wp_step. split; [done|]. split; [|done].
    pose proof (b_inv _ _ _ _ _ _ _ _ Hb) as Hin.
    assert (sp_handles s = ∅) as He.
    { apply map_empty. intros j. destruct (sp_handles s !! j) eqn:Hj; [|done]. rewrite <- Hj. apply Hlo.
      pose proof (proj2 (p_part _ _ _ _ (i_part _ _ _ _ _ _ _ _ Hin) j) (or_intror (mk_is_Some _ _ Hj))). lia. }
    eapply implements_intro. destruct s as [m0 ba fa mx]. simpl in *. subst m0. exact Hb.
  - pose proof (b_inv _ _ _ _ _ _ _ _ Hb) as Hin. simpl.
    destruct (proj1 (p_part _ _ _ _ (i_part _ _ _ _ _ _ _ _ Hin) i)) as [Hf|[e He]]; [lia|..].
    + destruct (h_free _ _ _ _ (i_heap _ _ _ _ _ _ _ _ Hin) _ Hf) as (h&Hh&Hty&_).
      pose proof (p_disj _ _ _ _ (i_part _ _ _ _ _ _ _ _ Hin) _ Hf) as Hnone.
      wp_step. destruct st as [o b]. eapply wp_struct; [exact Hh|]. rewrite Hty. simpl.
      apply (IH (mk_hb o b) s); [by eapply implements_intro|done|lia|simpl in *; lia|].
      intros j Hj. destruct (decide (j = i)) as [->|]; [done|]. apply Hlo. lia.
    + pose proof (unbatched_live _ _ _ _ _ _ _ _ _ _ Hb Hu He) as Hlv.
      wp_step. eapply wp_live_struct; [exact Hin|exact He|]. intros h Hso _ _.
      rewrite (so_type _ _ _ Hso), is_NONE_false by apply Hlv.
      wp_step. eapply wp_mono; [by eapply wp_release|].
      intros r st1 (->&m'&Hfr&Him&Hpl&Htot). simpl.
      assert (∀ j, j < i + 1 → m' !! j = None) as Hlo'.
      { intros j Hj. destruct (decide (j = i)) as [->|].
        - rewrite (proj1 (Hfr i)) by constructor. rewrite He. simpl. unfold dead.
          assert (e_batched e = false) as Hbt; [|by rewrite Hbt].
          destruct (e_batched e) eqn:Hbt; [|done].
          assert (i ∈ bl) as Hbl by (apply (p_bl _ _ _ _ (i_part _ _ _ _ _ _ _ _ Hin)); eauto).
          rewrite (b_none _ _ _ _ _ _ _ _ Hb Hu) in Hbl. by apply elem_of_nil in Hbl.
        - assert (dom m' ⊆ dom (sp_handles s)) as Hd.
          { eapply freed_dom; [exact Hfr|]. intros k. by eapply desc_decide. }
          apply not_elem_of_dom. intros Hjm. apply Hd, elem_of_dom in Hjm as [? Hjm].
          rewrite Hlo in Hjm; [done|lia]. }
      wp_step. destruct st1 as [o1 b1]. apply wp_base. destruct (Z.eqb_spec (ui32FreeHandCount b1) (ui32TotalHandCount b1)) as [Heq|_].
      * wp_step. split; [done|]. split; [|done]. destruct Him as (kids1&rk1&fl1&bl1&km1&Hb1).
        pose proof (b_inv _ _ _ _ _ _ _ _ Hb1) as Hin1. simpl in *.
        assert (m' = ∅) as ->; [|by eapply implements_intro].
        eapply all_free; [apply (i_part _ _ _ _ _ _ _ _ Hin1)|apply (i_shape _ _ _ _ _ _ _ _ Hin1)|].
        pose proof (f_count _ _ _ _ _ (i_free _ _ _ _ _ _ _ _ Hin1)) as Hc. simpl in *. lia.
      * eapply wp_mono; [apply (IH (mk_hb o1 b1) (with_handles m' s)); [done|done|lia|simpl in *; lia|exact Hlo']|].
        intros r st2 (->&Him2&Hpl2). split; [done|]. split; [exact Him2|auto].
Qed.

Lemma wp_FreeAllHandles L st s :
  implements L st s → unbatched s →
  wp FreeAllHandles (λ r st', r = PVRSRV_OK ∧ implements L st' (with_handles ∅ s) ∧
      (plenty (hb_os st) → plenty (hb_os st'))) st.
Proof.
  intros Him Hu. pose proof Him as (kids&rk&fl&bl&km&Hb). pose proof (b_inv _ _ _ _ _ _ _ _ Hb) as Hin.
  pose proof (i_shape _ _ _ _ _ _ _ _ Hin) as (_&HN0&_).
  unfold FreeAllHandles. wp_step. destruct st as [o b]. apply wp_base.
  pose proof (f_count _ _ _ _ _ (i_free _ _ _ _ _ _ _ _ Hin)) as Hc. simpl in *.
  destruct (Z.eqb_spec (ui32FreeHandCount b) (ui32TotalHandCount b)) as [Heq|_].
  - wp_step. split; [done|]. split; [|done].
    assert (sp_handles s = ∅) as He by (eapply all_free; [apply (i_part _ _ _ _ _ _ _ _ Hin)|simpl; lia..]).
    destruct s as [m0 ba fa mx]. simpl in *. subst m0. exact Him.
  - apply wp_free_all_from; [done|done|lia|simpl; lia|]. intros j Hj.
    destruct (sp_handles s !! j) eqn:Hjm; [|done].
    pose proof (proj2 (p_part _ _ _ _ (i_part _ _ _ _ _ _ _ _ Hin) j) (or_intror (mk_is_Some _ _ Hjm))). lia.
Qed.

(** ** Giving the memory back *)

Lemma granted_array N a : array_ok N (Some a) → granted a = Z.of_nat (length a).
Proof.
  intros (_&_&Ha). unfold granted. do 2 f_equal. induction Ha as [|ix a (blk&Hb&_) _ IH]; [done|].
  rewrite filter_cons_True by (rewrite Hb; eauto). by rewrite IH.
Qed.

(** The only other fields [FreeHandleBase] looks at afterwards. *)
Lemma wp_FreeHandleArray {heap : HeapContents} o b :
  shape b → wp FreeHandleArray (λ r st', r = PVRSRV_OK ∧ os_step (- array_blocks b) o (hb_os st') ∧
      psHashTab (hb_base st') = psHashTab b) (mk_hb o b).
Proof.
  intros [Ha HN]. unfold FreeHandleArray, ReallocHandleArray. wp_step. apply wp_base.
  destruct (Z.eqb_spec 0 (ui32TotalHandCount b)) as [H0|H0].
  { wp_step. split; [done|]. split; [|done]. unfold array_blocks.
    destruct (psHandleArray b); simpl in Ha; [lia|]. by apply os_step_refl. }
  cbn [negb andb]. rewrite Z.eqb_refl. cbn [negb andb].
  destruct (psHandleArray b) as [a|] eqn:Hab; [|simpl in Ha; congruence].
  pose proof Ha as (_&HNa&_).
  assert (ui32TotalHandCount b mod HANDLE_BLOCK_SIZE = 0) as ->.
  { rewrite HNa. unfold HANDLE_BLOCK_SIZE. rewrite Z.mul_comm. apply Z.mod_mul. lia. }
  change (0 mod HANDLE_BLOCK_SIZE) with 0. cbn -[Z.eqb Z.ltb INDEX_TO_BLOCK_INDEX].
  rewrite Z.eqb_refl. cbn [negb orb]. wp_step. apply wp_ret. cbn [negb].
  wp_step. apply wp_mono with (Q := λ old st', old = a ∧ st' = mk_hb o b).
  { destruct (Z.eqb_spec (ui32TotalHandCount b) 0); [lia|]. by apply (wp_ret a). }
  intros old st' [-> ->]. rewrite (proj2 (Z.ltb_lt 0 _)) by lia.
  change (Z.to_nat (INDEX_TO_BLOCK_INDEX 0)) with 0%nat. rewrite drop_0.
  wp_step. apply wp_on_os. eapply wp_mono; [apply wp_free_blocks|]. intros [] o1 Ho1. cbn beta in Ho1.
  rewrite (granted_array _ _ Ha) in Ho1.
  assert (Z.to_nat (INDEX_TO_BLOCK_INDEX 0 - INDEX_TO_BLOCK_INDEX (ui32TotalHandCount b)) = 0%nat) as ->.
  { rewrite !block_index by lia. assert (0 ≤ ui32TotalHandCount b / 256) by (apply Z.div_pos; lia). change (0 / 256) with 0. lia. }
  wp_step. apply wp_on_os. simpl. apply wp_ret. cbn [is_OK negb]. wp_step. unfold realloc_commit. hb_steps. rewrite Hab.
  apply wp_on_os, wp_OSFreeMem. hb_steps. cbn -[Z.gtb].
  destruct (Z.gtb_spec 0 (ui32TotalHandCount b)); [lia|]. hb_steps.
  split; [done|]. split; [|done]. simpl.
  eapply os_step_eq; [by apply os_step_free|]. unfold array_blocks. rewrite Hab. lia.
Qed.

Theorem wp_FreeHandleBase {heap : HeapContents} L st s :
  implements L st s →
  wp FreeHandleBase (λ r st', r = PVRSRV_OK ∧ os_live (hb_os st') = L - 3 ∧
      (plenty (hb_os st) → plenty (hb_os st'))) st.
Proof.
  intros Him. unfold FreeHandleBase. wp_step. destruct st as [o b]. apply wp_base.
  pose proof Him as (kids&rk&fl&bl&km&Hb). pose proof (base_batched _ _ _ _ _ _ _ _ Hb) as Hbt. simpl in Hbt.
  rewrite Hbt. wp_step.
  apply wp_mono with (Q := λ _ st', (plenty o → plenty (hb_os st')) ∧ ∃ s', implements L st' s' ∧ unbatched s').
  { destruct (is_batched s) eqn:Hbs.
    - eapply wp_mono; [by apply wp_PVRSRVReleaseHandleBatch|]. intros _ st' [r Hp].
      unfold end_batch_post in Hp. rewrite Hbs in Hp. destruct Hp as (_&Hi&Hpl&_). split; [exact Hpl|]. eexists. split; [exact Hi|done].
    - wp_step. split; [done|]. exists s. split; [done|]. unfold is_batched in Hbs.
      by apply negb_false_iff, Z.eqb_eq in Hbs. }
  intros _ st1 [Hpl1 (s1&Him1&Hu1)]. wp_step.
  eapply wp_mono; [by eapply wp_FreeAllHandles|]. intros r st2 (->&Him2&Hpl2). simpl.
  destruct Him2 as (kids2&rk2&fl2&bl2&km2&Hb2). pose proof (b_inv _ _ _ _ _ _ _ _ Hb2) as Hin. simpl in Hin.
  pose proof (keyed_empty _ (i_keyed _ _ _ _ _ _ _ _ Hin)) as ->.
  destruct st2 as [o2 b2]. pose proof (i_live _ _ _ _ _ _ _ _ Hin) as Hlv. simpl in Hlv.
  rewrite map_size_empty in Hlv.
  wp_step. eapply wp_mono.
  { apply (wp_FreeHandleArray o2 b2), (i_shape _ _ _ _ _ _ _ _ Hin). }
  intros r st3 (->&[Hl3 Hp3]&Htab). simpl. wp_step. destruct st3 as [o3 b3]. apply wp_base. simpl in *.
  destruct (i_hash _ _ _ _ _ _ _ _ Hin) as (tab&Ht&_). simpl in Ht. rewrite Htab, Ht.
  wp_step. apply wp_on_os. unfold HASH_Delete. wp_step. apply wp_OSFreeMem. apply wp_OSFreeMem.
  wp_step. apply wp_on_os. apply wp_OSFreeMem. wp_step. simpl. split; [done|]. split; [lia|].
  intros Hp. exact (Hp3 (Hpl2 (Hpl1 Hp))).
Qed.

(** ** A fresh base *)

Definition fresh_spec : hspec := mkSpec ∅ 0 0 DEFAULT_MAX_INDEX_PLUS_ONE.

Lemma fresh_hinv o tab :
  hash_ok (Some tab) ∅ →
  hinv (os_live o) (mk_hb o (set_limits DEFAULT_MAX_INDEX_PLUS_ONE false
    (set_psHashTab (Some tab) zero_base))) ∅ (λ _, []) (λ _, 0%nat) [] [] ∅.
Proof.
  intros Ht. split; try done.
  - split.
    + intros p c. split; [by intros ?%elem_of_nil|]. by intros (ec&Hc&_).
    + intros p. constructor.
    + intros c ec p Hc. done.
    + intros i e Hi. done.
  - split; try constructor; simpl; try done.
    + intros ?. lia.
    + by intros [?%elem_of_nil|[? ?]].
    + by intros ?%elem_of_nil.
    + by intros (?&?&_).
  - split; try done; [by intros ? ?%elem_of_nil|by intros p [? ?]].
  - split; [done|]. by intros (?&?&?&_).
  - rewrite map_size_empty. cbn. lia.
Qed.

Lemma fresh_implements o tab :
  hash_ok (Some tab) ∅ →
  implements (os_live o) (mk_hb o (set_limits DEFAULT_MAX_INDEX_PLUS_ONE false
    (set_psHashTab (Some tab) zero_base))) fresh_spec.
Proof.
  intros Ht. eapply implements_intro. split; try done; [by apply fresh_hinv|by intros i e [? _]|reflexivity].
Qed.

(** What [PVRSRVAllocHandleBase] makes. *)
Definition fresh_base (tab : HASH_TABLE) : PVRSRV_HANDLE_BASE :=
  set_limits DEFAULT_MAX_INDEX_PLUS_ONE false (set_psHashTab (Some tab) zero_base).

(** A base without a table. *)
Lemma zero_base_freed {heap : HeapContents} o :
  FreeHandleBase (mk_hb o zero_base) =
  Done PVRSRV_OK (mk_hb {| os_script := os_script o; os_live := os_live o - 1 |} zero_base).
Proof. reflexivity. Qed.

(** A fresh base, or an error, no block kept, for want of memory. *)
Theorem wp_PVRSRVAllocHandleBase {heap : HeapContents} o :
  wp PVRSRVAllocHandleBase (λ r o',
    (plenty o → plenty o') ∧
    ((∃ tab, r = (PVRSRV_OK, Some (fresh_base tab)) ∧
        implements (os_live o + 3) (mk_hb o' (fresh_base tab)) fresh_spec) ∨
     (r = (PVRSRV_ERROR_OUT_OF_MEMORY, None) ∨ r = (PVRSRV_ERROR_UNABLE_TO_CREATE_HASH_TABLE, None)) ∧
     os_live o' = os_live o ∧ ¬ plenty o)) o.
Proof.
  unfold PVRSRVAllocHandleBase. wp_step. apply wp_OSAllocMem. intros ok o1 Hl1 Hp1.
  destruct ok; simpl.
  2:{ wp_step. split; [by intros []%Hp1|]. right. split_and!; [by left|lia|by intros []%Hp1]. }
  wp_step. eapply wp_mono.
  { apply wp_HASH_Create_Extended; [done|]. intros h _. apply comp_ok_default. }
  intros r o2 ([Hl2 Hp2]&Hsome&Hh). destruct r as [tab|].
  - wp_step. split; [naive_solver|]. left. eexists. split; [done|].
    destruct (Hh tab eq_refl) as (Hwf&Hc&Hk).
    replace (os_live o + 3) with (os_live o2) by lia. apply fresh_implements.
    exists tab. split; [done|]. split; [by apply hash_rep_empty|]. rewrite Hk. done.
  - assert (¬ plenty o) as Hno by (intros Hp; destruct (Hp1 Hp) as [_ Hp']; by destruct (Hsome Hp')).
    wp_step. wp_step. unfold wp, PVRSRVFreeHandleBase. rewrite zero_base_freed. simpl.
    split; [naive_solver|]. right. split_and!; [by right|lia|done].
Qed.

(** ** The limit *)

Definition set_max_post (L : Z) (st : hb_st) (s : hspec) (n : Z) (r : PVRSRV_ERROR) (st' : hb_st) : Prop :=
  let m := ROUND_DOWN_TO_MULTIPLE_OF_BLOCK_SIZE n in
  if is_batched s || (n =? 0) || (n >? DEFAULT_MAX_HANDLE) || negb (ui32TotalHandCount (hb_base st) =? 0)
  then r = PVRSRV_ERROR_INVALID_PARAMS ∧ st' = st
  else r = PVRSRV_OK ∧ hb_os st' = hb_os st ∧
    implements L st' (mkSpec (sp_handles s) (sp_batch s) (sp_fails s)
      (if negb (m =? 0) && (m <? sp_max s) then m else sp_max s)).

Theorem wp_PVRSRVSetMaxHandle L st s n :
  implements L st s → is_u32 n → wp (PVRSRVSetMaxHandle n) (set_max_post L st s n) st.
Proof.
  intros (kids&rk&fl&bl&km&Hb) Hn. unfold PVRSRVSetMaxHandle, set_max_post. destruct st as [o b]. hb_steps.
  pose proof (base_batched _ _ _ _ _ _ _ _ Hb) as Hbt. simpl in Hbt. rewrite Hbt.
  destruct (is_batched s); cbn [orb]; [by wp_step|].
  destruct (n =? 0); cbn [orb]; [by wp_step|].
  destruct (n >? DEFAULT_MAX_HANDLE); cbn [orb]; [by wp_step|].
  cbn [hb_base]. destruct (Z.eqb_spec (ui32TotalHandCount b) 0) as [HN|]; cbn [negb]; [|by wp_step].
  set (m := ROUND_DOWN_TO_MULTIPLE_OF_BLOCK_SIZE n).
  pose proof (b_max _ _ _ _ _ _ _ _ Hb) as Hmx. simpl in Hmx. rewrite Hmx.
  destruct (negb (m =? 0) && (m <? sp_max s)) eqn:Hm; hb_steps.
  - split; [done|]. split; [done|]. apply andb_true_iff in Hm as [_ Hlt%Z.ltb_lt].
    destruct Hb as [[Hs ? ? ? ? ? ? ? ? ?] H1 H2 H3 H4 H5 H6 Hr H7].
    exists kids, rk, fl, bl, km. split; simpl in *; try done. split; simpl in *; try done.
    destruct Hs as (Ha&HNm&Hmax&_). split; [done|]. simpl.
    assert (m = n - n mod 256) as Hmn by (by apply block_mask).
    unfold is_u32 in Hn. pose proof (Z.mod_pos_bound n 256). pose proof (Z.mod_le n 256).
    split_and!; [lia|lia|lia|]. rewrite Hmn. rewrite Zminus_mod_idemp_r. by rewrite Z.sub_diag.
  - split; [done|]. split; [done|]. destruct s. by eapply implements_intro.
Qed.
