(* ===== verification/HandleSys.v ===== *)
(** * Handle tables: sequences of operations

    The operations a bridge call makes on a handle base, run one after the
    other, against an abstract transition system on [hspec]. *)

From S2P Require Import Prelude Hash Handle HandleRep HandleInv HandleOps HandleFree HandleAlloc.
From S2P Require Import HandleTake HandleApi HandleSub HandleLook HandleBatch HandleLife.

(** ** Operations *)

(** Which lookup: [PVRSRVLookupHandle], [PVRSRVGetParentHandle] or
    [PVRSRVLookupHandleAnyType]. *)
Inductive hread := ReadData | ReadParent | ReadAny.

Inductive hop :=
| HAlloc (data : Z) (ty : PVRSRV_HANDLE_TYPE) (flag : Z)
| HSub (data : Z) (ty : PVRSRV_HANDLE_TYPE) (flag hParent : Z)
| HFind (data : Z) (ty : PVRSRV_HANDLE_TYPE)
| HRead (k : hread) (h : Z) (ty : PVRSRV_HANDLE_TYPE)
| HReadSub (h : Z) (ty : PVRSRV_HANDLE_TYPE) (hAncestor : Z)
| HRelease (h : Z) (ty : PVRSRV_HANDLE_TYPE)
| HTake (h : Z) (ty : PVRSRV_HANDLE_TYPE)
| HNewBatch (k : Z)
| HCommit
| HAbandon.

(** The error and the output parameters that were written. *)
Definition hres : Type := PVRSRV_ERROR * list Z.

Definition read_type (k : hread) (ty : PVRSRV_HANDLE_TYPE) : PVRSRV_HANDLE_TYPE :=
  match k with ReadAny => PVRSRV_HANDLE_TYPE_NONE | _ => ty end.

Definition read_out (k : hread) (e : ent) : list Z :=
  match k with
  | ReadData => [e_data e]
  | ReadParent => [parent_handle (e_parent e)]
  | ReadAny => [e_data e; HANDLE_TYPE_code (e_type e)]
  end.

Definition outs (o : option Z) : list Z := match o with Some v => [v] | None => [] end.

Section run.
Context {heap : HeapContents}.

Definition run_read (k : hread) (h : Z) (ty : PVRSRV_HANDLE_TYPE) : M hb_st hres :=
  match k with
  | ReadData => '(e, o) ← PVRSRVLookupHandle h ty; mret (e, outs o)
  | ReadParent => '(e, o) ← PVRSRVGetParentHandle h ty; mret (e, outs o)
  | ReadAny => '(e, o) ← PVRSRVLookupHandleAnyType h;
      mret (e, match o with Some (d, t) => [d; HANDLE_TYPE_code t] | None => [] end)
  end.

Definition run_hop (op : hop) : M hb_st hres :=
  match op with
  | HAlloc data ty flag => '(e, h) ← PVRSRVAllocHandle data ty flag; mret (e, [h])
  | HSub data ty flag hp => '(e, h) ← PVRSRVAllocSubHandle data ty flag hp; mret (e, [h])
  | HFind data ty => '(e, o) ← PVRSRVFindHandle data ty; mret (e, outs o)
  | HRead k h ty => run_read k h ty
  | HReadSub h ty a => '(e, o) ← PVRSRVLookupSubHandle h ty a; mret (e, outs o)
  | HRelease h ty => e ← PVRSRVReleaseHandle h ty; mret (e, [])
  | HTake h ty => '(e, o) ← PVRSRVLookupAndReleaseHandle h ty; mret (e, outs o)
  | HNewBatch k => e ← PVRSRVNewHandleBatch k; mret (e, [])
  | HCommit => e ← PVRSRVCommitHandleBatch; mret (e, [])
  | HAbandon => PVRSRVReleaseHandleBatch;; mret (PVRSRV_OK, [])
  end.

Fixpoint run_hops (ops : list hop) : M hb_st (list hres) :=
  match ops with
  | [] => mret []
  | op :: ops => r ← run_hop op; rs ← run_hops ops; mret (r :: rs)
  end.

(** What an operation asks of its caller and, for a batch, of the base. *)
Definition hop_pre (st : hb_st) (op : hop) : Prop :=
  match op with
  | HAlloc _ ty _ => ty ≠ PVRSRV_HANDLE_TYPE_NONE
  | HSub _ ty _ hp => ty ≠ PVRSRV_HANDLE_TYPE_NONE ∧ is_u32 hp
  | HNewBatch k => is_u32 k ∧ batch_safe (hb_base st) k
  | _ => True
  end.

(** Every operation of the run is made where it may be. *)
Fixpoint run_safe (ops : list hop) (st : hb_st) : Prop :=
  match ops with
  | [] => True
  | op :: ops => hop_pre st op ∧ match run_hop op st with Done _ st' => run_safe ops st' | _ => True end
  end.
End run.

(** ** The abstract system *)

(** What a handle resolves to, whatever the array's size. *)
Definition resolve (s : hspec) (h : Z) (ty : PVRSRV_HANDLE_TYPE) (e : PVRSRV_ERROR) (i : Z) : Prop :=
  ∃ N, (∀ j, is_Some (sp_handles s !! j) → j < N) ∧ get_spec (sp_handles s) N h ty = (e, i).

Inductive hstep (s : hspec) : hop → hres → hspec → Prop :=
| s_alloc data ty flag r s' :
    alloc_result s (InitKey data ty IMG_NULL) flag (new_ent s data ty flag) (λ e, is_shared e flag) r s' →
    hstep s (HAlloc data ty flag) (r.1, [r.2]) s'
| s_sub_bad data ty flag hp e i :
    resolve s hp PVRSRV_HANDLE_TYPE_NONE e i → e ≠ PVRSRV_OK →
    hstep s (HSub data ty flag hp) (e, [IMG_NULL]) (counted 1 s)
| s_sub data ty flag hp p r s' :
    resolve s hp PVRSRV_HANDLE_TYPE_NONE PVRSRV_OK p →
    alloc_result s (InitKey data ty (private_key flag hp)) flag (sub_ent s data ty flag p)
      (sub_shared flag hp) r s' →
    hstep s (HSub data ty flag hp) (r.1, [r.2]) s'
| s_found data ty i e :
    key_entry (sp_handles s) (InitKey data ty IMG_NULL) i e →
    hstep s (HFind data ty) (PVRSRV_OK, [i + 1]) s
| s_not_found data ty :
    (∀ i e, ¬ key_entry (sp_handles s) (InitKey data ty IMG_NULL) i e) →
    hstep s (HFind data ty) (PVRSRV_ERROR_HANDLE_NOT_FOUND, []) s
| s_read_bad k h ty e i :
    resolve s h (read_type k ty) e i → e ≠ PVRSRV_OK → hstep s (HRead k h ty) (e, []) s
| s_read k h ty i e :
    resolve s h (read_type k ty) PVRSRV_OK i → live (sp_handles s) i e →
    hstep s (HRead k h ty) (PVRSRV_OK, read_out k e) s
| s_sub_read_bad h ty a e i :
    resolve s h ty e i → e ≠ PVRSRV_OK → hstep s (HReadSub h ty a) (e, []) s
| s_sub_read h ty a i e :
    resolve s h ty PVRSRV_OK i → live (sp_handles s) i e → is_ancestor (sp_handles s) a i →
    hstep s (HReadSub h ty a) (PVRSRV_OK, [e_data e]) s
| s_sub_read_not h ty a i :
    resolve s h ty PVRSRV_OK i → ¬ is_ancestor (sp_handles s) a i →
    hstep s (HReadSub h ty a) (PVRSRV_ERROR_INVALID_SUBHANDLE, []) s
| s_release_bad h ty e i :
    resolve s h ty e i → e ≠ PVRSRV_OK → hstep s (HRelease h ty) (e, []) s
| s_release h ty i m' :
    resolve s h ty PVRSRV_OK i → freed (sp_handles s) (desc (sp_handles s) i) m' →
    hstep s (HRelease h ty) (PVRSRV_OK, []) (with_handles m' s)
| s_take_bad h ty e i :
    resolve s h ty e i → e ≠ PVRSRV_OK → hstep s (HTake h ty) (e, []) s
| s_take h ty i e m' :
    resolve s h ty PVRSRV_OK i → live (sp_handles s) i e →
    freed (sp_handles s) (desc (sp_handles s) i) m' →
    hstep s (HTake h ty) (PVRSRV_OK, [e_data e]) (with_handles m' s)
| s_batch_in_use k :
    is_batched s = true → hstep s (HNewBatch k) (PVRSRV_ERROR_HANDLE_BATCH_IN_USE, []) s
| s_batch_zero :
    is_batched s = false → hstep s (HNewBatch 0) (PVRSRV_ERROR_INVALID_PARAMS, []) s
| s_batch k :
    is_batched s = false → k ≠ 0 →
    hstep s (HNewBatch k) (PVRSRV_OK, []) (mkSpec (sp_handles s) k (sp_fails s) (sp_max s))
| s_batch_full k :
    is_batched s = false → k ≠ 0 → hstep s (HNewBatch k) (PVRSRV_ERROR_OUT_OF_MEMORY, []) s
| s_commit :
    is_batched s = true → hstep s HCommit (PVRSRV_OK, []) (batch_over (sp_fails s =? 0) s)
| s_commit_none :
    is_batched s = false → hstep s HCommit (PVRSRV_ERROR_INVALID_PARAMS, []) s
| s_abandon :
    is_batched s = true → hstep s HAbandon (PVRSRV_OK, []) (batch_over false s)
| s_abandon_none :
    is_batched s = false → hstep s HAbandon (PVRSRV_OK, []) s.

Inductive hsteps : hspec → list hop → list hres → hspec → Prop :=
| hsteps_nil s : hsteps s [] [] s
| hsteps_cons s op r s1 ops rs s2 :
    hstep s op r s1 → hsteps s1 ops rs s2 → hsteps s (op :: ops) (r :: rs) s2.

(** ** Simulation *)

Lemma implements_resolve L st s h ty g :
  implements L st s → get_spec (sp_handles s) (ui32TotalHandCount (hb_base st)) h ty = g →
  resolve s h ty g.1 g.2.
Proof.
  intros (kids&rk&fl&bl&km&Hb) Hg. exists (ui32TotalHandCount (hb_base st)). split; [|by destruct g].
  intros j Hj. pose proof (b_inv _ _ _ _ _ _ _ _ Hb) as Hi.
  pose proof (proj2 (p_part _ _ _ _ (i_part _ _ _ _ _ _ _ _ Hi) j) (or_intror Hj)). lia.
Qed.

Lemma counted_size d s : size (sp_handles (counted d s)) = size (sp_handles s).
Proof. unfold counted. by destruct (is_batched s). Qed.

Lemma alloc_result_size s key flag mk ok_share r s' :
  alloc_result s key flag mk ok_share r s' → (size (sp_handles s') ≤ S (size (sp_handles s)))%nat.
Proof.
  destruct 1; rewrite ?counted_size; try lia. simpl. rewrite map_size_insert_None by done. lia.
Qed.

Lemma freed_size L st s i m' :
  implements L st s → freed (sp_handles s) (desc (sp_handles s) i) m' →
  (size m' ≤ size (sp_handles s))%nat.
Proof.
  intros (kids&rk&fl&bl&km&Hb) Hf. rewrite <- !size_dom. apply subseteq_size.
  eapply freed_dom; [exact Hf|]. intros j. eapply desc_decide, (b_inv _ _ _ _ _ _ _ _ Hb).
Qed.

Section refine.
Context {heap : HeapContents}.

(** The step of the table an operation makes. *)
Definition steps_to (L : Z) (s : hspec) (op : hop) (r : hres) (st' : hb_st) : Prop :=
  ∃ s', hstep s op r s' ∧ implements L st' s' ∧ (size (sp_handles s') ≤ S (size (sp_handles s)))%nat.

Lemma step_same L st s op r :
  implements L st s → hstep s op r s → steps_to L s op r st.
Proof. intros Hi Hs. exists s. split_and!; [done..|lia]. Qed.

(** Reading answers what the table says and changes nothing. *)
Lemma wp_read_steps st s k h ty :
  readable st (sp_handles s) → (∀ j, is_Some (sp_handles s !! j) → j < ui32TotalHandCount (hb_base st)) →
  wp (run_read k h ty) (λ r st', st' = st ∧ hstep s (HRead k h ty) r s) st.
Proof.
  intros Hrd HN.
  assert (∀ A (f : ent → A) (out : A → list Z), (∀ e, out (f e) = read_out k e) →
    hstep s (HRead k h ty)
      (let r := lookup_spec f (sp_handles s) (ui32TotalHandCount (hb_base st)) h (read_type k ty) in
       (r.1, match r.2 with Some a => out a | None => [] end)) s) as Hread.
  { intros A f out Hout. unfold lookup_spec.
    destruct (get_spec _ _ h (read_type k ty)) as [e i] eqn:Hg.
    assert (resolve s h (read_type k ty) e i) as Hr by (eexists; split; [exact HN|exact Hg]). simpl.
    destruct (is_OK e) eqn:He; simpl.
    - apply is_OK_true in He as ->. apply get_spec_ok in Hg as (_&_&e&Hlv&_).
      rewrite (proj1 Hlv). simpl. rewrite Hout. by eapply s_read.
    - eapply s_read_bad; [exact Hr|]. by intros ->. }
  unfold run_read. destruct k; simpl in Hread; wp_step.
  - eapply wp_mono; [by apply wp_lookup|]. intros r st' [-> ->].
    specialize (Hread _ e_data (λ v, [v]) ltac:(done)).
    destruct (lookup_spec _ _ _ _ _) as [e o]. wp_step. split; [done|]. by destruct o.
  - eapply wp_mono; [by apply wp_lookup_parent|]. intros r st' [-> ->].
    specialize (Hread _ (λ e, parent_handle (e_parent e)) (λ v, [v]) ltac:(done)).
    destruct (lookup_spec _ _ _ _ _) as [e o]. wp_step. split; [done|]. by destruct o.
  - eapply wp_mono; [by apply wp_lookup_any|]. intros r st' [-> ->].
    specialize (Hread _ (λ e, (e_data e, e_type e)) (λ p, [p.1; HANDLE_TYPE_code p.2]) ltac:(done)).
    destruct (lookup_spec _ _ _ _ _) as [e o]. destruct o as [[d t]|]; by wp_step.
Qed.

Lemma wp_run_read L st s k h ty :
  implements L st s → wp (run_read k h ty) (steps_to L s (HRead k h ty)) st.
Proof.
  intros Him. pose proof Him as (kids&rk&fl&bl&km&Hb). pose proof (b_inv _ _ _ _ _ _ _ _ Hb) as Hi.
  eapply wp_mono; [apply wp_read_steps; [by eapply hinv_readable|]|].
  - intros j Hj. pose proof (proj2 (p_part _ _ _ _ (i_part _ _ _ _ _ _ _ _ Hi) j) (or_intror Hj)). lia.
  - intros r st' [-> Hs]. by apply step_same.
Qed.

Lemma wp_run_sub_read L st s h ty a :
  implements L st s → wp (run_hop (HReadSub h ty a)) (steps_to L s (HReadSub h ty a)) st.
Proof.
  intros Him. pose proof Him as (kids&rk&fl&bl&km&Hb). pose proof (b_inv _ _ _ _ _ _ _ _ Hb) as Hi.
  simpl. wp_step. eapply wp_mono; [by eapply wp_PVRSRVLookupSubHandle|]. intros [e o] st' [-> Hr].
  unfold lookup_spec in Hr. destruct (get_spec _ _ h ty) as [e' i] eqn:Hg.
  pose proof (implements_resolve _ _ _ _ _ _ Him Hg) as Hrs. simpl in *. wp_step.
  apply step_same; [done|]. destruct (is_OK e') eqn:He; simpl in Hr.
  - apply is_OK_true in He as ->. apply get_spec_ok in Hg as (Hix&_&e'&Hlv&_).
    rewrite <- Hix, (proj1 Hlv) in Hr. simpl in Hr. destruct Hr as [[Ha [= -> ->]]|[Ha [= -> ->]]]; simpl.
    + by eapply s_sub_read.
    + by eapply s_sub_read_not.
  - rewrite He in Hr. injection Hr as -> ->. eapply s_sub_read_bad; [exact Hrs|]. by intros ->.
Qed.

Lemma wp_run_alloc L st s data ty flag :
  implements L st s → ty ≠ PVRSRV_HANDLE_TYPE_NONE → Z.of_nat (size (sp_handles s)) < 134217728 →
  wp (run_hop (HAlloc data ty flag)) (steps_to L s (HAlloc data ty flag)) st.
Proof.
  intros Him Hty Hsz. simpl. wp_step. eapply wp_mono; [by apply wp_PVRSRVAllocHandle|].
  intros [e h] st' ((s'&Hr&Him')&_). wp_step. exists s'. split_and!; [by apply (s_alloc s data ty flag (e, h))|done|].
  by eapply alloc_result_size.
Qed.

Lemma wp_run_sub L st s data ty flag hp :
  implements L st s → ty ≠ PVRSRV_HANDLE_TYPE_NONE → is_u32 hp → Z.of_nat (size (sp_handles s)) < 134217728 →
  wp (run_hop (HSub data ty flag hp)) (steps_to L s (HSub data ty flag hp)) st.
Proof.
  intros Him Hty Hhp Hsz. simpl. wp_step. eapply wp_mono; [by apply wp_PVRSRVAllocSubHandle|].
  intros [e h] st' Hp. unfold sub_post in Hp. destruct (get_spec _ _ hp _) as [e' p] eqn:Hg.
  pose proof (implements_resolve _ _ _ _ _ _ Him Hg) as Hrs. simpl in *. wp_step. destruct (is_OK e') eqn:He.
  - apply is_OK_true in He as ->. destruct Hp as ((s'&Hr&Him')&_). exists s'.
    split_and!; [by eapply (s_sub s data ty flag hp p (e, h))|done|by eapply alloc_result_size].
  - destruct Hp as ([= -> ->]&Him'&_). exists (counted 1 s). split_and!; [|done|rewrite counted_size; lia].
    eapply s_sub_bad; [exact Hrs|]. by intros ->.
Qed.

Lemma wp_run_release L st s op h ty :
  implements L st s → op = HRelease h ty ∨ op = HTake h ty → wp (run_hop op) (steps_to L s op) st.
Proof.
  intros Him Hop. destruct (get_spec (sp_handles s) (ui32TotalHandCount (hb_base st)) h ty) as [e i] eqn:Hg.
  pose proof (implements_resolve _ _ _ _ _ _ Him Hg) as Hrs. simpl in Hrs.
  destruct Hop as [-> | ->]; simpl; wp_step.
  - eapply wp_mono; [by apply wp_PVRSRVReleaseHandle|]. unfold release_post. rewrite Hg. simpl.
    intros r st' [-> Hr]. wp_step. destruct (is_OK e) eqn:He.
    + apply is_OK_true in He as ->. destruct Hr as (m'&Hf&Him'&_). eexists. split_and!; [by eapply s_release|done|].
      simpl. pose proof (freed_size _ _ _ _ _ Him Hf). lia.
    + subst st'. apply step_same; [done|]. eapply s_release_bad; [exact Hrs|]. by intros ->.
  - eapply wp_mono; [by apply wp_PVRSRVLookupAndReleaseHandle|]. unfold release_post, lookup_spec. rewrite Hg. simpl.
    intros [r o] st' [[Hr0 Hr] Ho]. simpl in *. subst r. wp_step. destruct (is_OK e) eqn:He; simpl in Ho.
    + apply is_OK_true in He as ->. destruct Hr as (m'&Hf&Him'&_).
      apply get_spec_ok in Hg as (_&_&e&Hlv&_). rewrite (proj1 Hlv) in Ho. simpl in Ho. subst o.
      eexists. split_and!; [by eapply s_take|done|].
      simpl. pose proof (freed_size _ _ _ _ _ Him Hf). lia.
    + subst st' o. apply step_same; [done|]. eapply s_take_bad; [exact Hrs|]. by intros ->.
Qed.

Lemma settle_size commit (m : gmap Z ent) : (size (omap (settle commit) m) ≤ size m)%nat.
Proof.
  rewrite <- !size_dom. apply subseteq_size. intros i. rewrite !elem_of_dom, lookup_omap.
  intros [? ?]. by destruct (m !! i).
Qed.

Lemma wp_run_batch L st s k :
  implements L st s → hop_pre st (HNewBatch k) →
  wp (run_hop (HNewBatch k)) (steps_to L s (HNewBatch k)) st.
Proof.
  intros Him [Hk Hsafe]. simpl. wp_step. eapply wp_mono; [by apply wp_PVRSRVNewHandleBatch|].
  intros r st' Hp. unfold new_batch_post in Hp. wp_step. destruct (is_batched s) eqn:Hb.
  - destruct Hp as [-> ->]. apply step_same; [done|]. by apply s_batch_in_use.
  - destruct (Z.eqb_spec k 0) as [->|Hk0].
    + destruct Hp as [-> ->]. apply step_same; [done|]. by apply s_batch_zero.
    + destruct Hp as (_&[(->&Him'&_)|(->&Him'&_)]).
      * eexists. split_and!; [by apply s_batch|exact Him'|simpl; lia].
      * by apply step_same, s_batch_full.
Qed.

Lemma wp_run_end L st s op b :
  implements L st s → (op = HCommit ∧ b = true) ∨ (op = HAbandon ∧ b = false) →
  wp (run_hop op) (steps_to L s op) st.
Proof.
  intros Him Hop. assert (∀ c, (size (sp_handles (batch_over c s)) ≤ S (size (sp_handles s)))%nat) as Hsz.
  { intros c. simpl. pose proof (settle_size c (sp_handles s)). lia. }
  destruct Hop as [[-> _]|[-> _]]; simpl; wp_step.
  - eapply wp_mono; [by apply wp_PVRSRVCommitHandleBatch|]. intros r st' Hp. unfold end_batch_post in Hp. wp_step.
    destruct (is_batched s) eqn:Hb.
    + destruct Hp as (->&Him'&_). eexists. split_and!; [by apply s_commit|exact Him'|done].
    + destruct Hp as [-> ->]. by apply step_same, s_commit_none.
  - eapply wp_mono; [by apply wp_PVRSRVReleaseHandleBatch|]. intros _ st' [r Hp]. unfold end_batch_post in Hp. wp_step.
    destruct (is_batched s) eqn:Hb.
    + destruct Hp as (->&Him'&_). eexists. split_and!; [by apply s_abandon|exact Him'|done].
    + destruct Hp as [-> ->]. by apply step_same, s_abandon_none.
Qed.

Lemma wp_run_find L st s data ty :
  implements L st s → wp (run_hop (HFind data ty)) (steps_to L s (HFind data ty)) st.
Proof.
  intros Him. pose proof Him as (kids&rk&fl&bl&km&Hb). pose proof (b_inv _ _ _ _ _ _ _ _ Hb) as Hi. simpl. wp_step.
  eapply wp_mono; [by eapply wp_PVRSRVFindHandle|]. intros r st' [-> [(i&e&Hk&->)|[Hno ->]]]; wp_step;
    (apply step_same; [done|]).
  - by eapply s_found.
  - by eapply s_not_found.
Qed.

Lemma wp_run_hop L st s op :
  implements L st s → hop_pre st op → Z.of_nat (size (sp_handles s)) < 134217728 →
  wp (run_hop op) (steps_to L s op) st.
Proof.
  intros Him Hpre Hsz. destruct op.
  - by apply wp_run_alloc.
  - destruct Hpre. by apply wp_run_sub.
  - by apply wp_run_find.
  - by apply wp_run_read.
  - by apply wp_run_sub_read.
  - eapply wp_run_release; eauto.
  - eapply wp_run_release; eauto.
  - by apply wp_run_batch.
  - eapply wp_run_end; eauto.
  - eapply wp_run_end; eauto.
Qed.

Lemma wp_run_hops L ops st s :
  implements L st s → run_safe ops st → Z.of_nat (size (sp_handles s) + length ops) ≤ 134217728 →
  wp (run_hops ops) (λ rs st', ∃ s', hsteps s ops rs s' ∧ implements L st' s') st.
Proof.
  revert st s. induction ops as [|op ops IH]; intros st s Him Hsafe Hsz; simpl in *.
  { wp_step. exists s. split; [constructor|done]. }
  destruct Hsafe as [Hpre Hrun]. wp_step.
  pose proof (wp_run_hop L st s op Him Hpre ltac:(lia)) as Hstep. unfold wp in Hstep |- * at 1.
  destruct (run_hop op st) as [r st1| |]; [|done..]. destruct Hstep as (s1&Hs1&Him1&Hsz1).
  wp_step. eapply wp_mono; [apply (IH st1 s1 Him1 Hrun); lia|].
  intros rs st2 (s2&Hs2&Him2). wp_step. exists s2. split; [by econstructor|done].
Qed.
End refine.
