(* ===== verification/HandleProps.v ===== *)
(** * Handle tables: properties *)

From S2P Require Import Prelude Hash Handle HandleRep HandleInv HandleOps HandleFree HandleAlloc.
From S2P Require Import HandleTake HandleApi HandleSub HandleLook HandleBatch HandleLife HandleSys.

(** ** A base to run on *)

(** Blocks come with whatever was in them. *)
Definition junk_heap : HeapContents := λ i,
  mkHandle PVRSRV_HANDLE_TYPE_DISP_INFO i 77 3 7 9 (mkHandleList 5 6 7) (mkHandleList 8 9 10).

Definition fresh_tab : HASH_TABLE :=
  mkHASH_TABLE (replicate 32 []) 32 0 32 24 HASH_Func_Default HASH_Key_Comp_Default.

(** What [PVRSRVAllocHandleBase] leaves, in plentiful memory. *)
Definition fresh_st : hb_st :=
  mk_hb {| os_script := []; os_live := 3 |}
    (set_limits DEFAULT_MAX_INDEX_PLUS_ONE false (set_psHashTab (Some fresh_tab) zero_base)).

Lemma fresh_tab_ok : hash_ok (Some fresh_tab) ∅.
Proof.
  exists fresh_tab. split; [done|]. split; [|done]. apply hash_rep_empty; [|reflexivity].
  split; simpl; [done|lia|apply tab_ok_empty|done|lia|by apply comp_ok_default].
Qed.

Lemma fresh_st_ok : implements 3 fresh_st fresh_spec.
Proof. exact (fresh_implements {| os_script := []; os_live := 3 |} fresh_tab fresh_tab_ok). Qed.

(** ** Properties *)

Section props.
Context {heap : HeapContents}.

(** C3: a handle base implements the abstract handle table. Take any run of
    allocations (of handles and sub-handles), lookups, releases and batches
    that keeps the rules of [run_safe]: handles of a type other than NONE,
    parents given as 32-bit values, batches of a 32-bit size, and no batch
    opened that makes the array grow while slot 0 heads a free list that is
    not empty (a run that does so can fault:
    [handle_batch_loses_free_list]); the handles at the start and the
    operations are at most 2^27 together. Such a run neither faults nor
    loops, whatever the kernel allocator refuses, and answers, operation by
    operation, what a run of the abstract system answers, ending in a base
    that represents the table reached. *)
Theorem handle_ops_refine L ops st s :
  implements L st s → run_safe ops st → Z.of_nat (size (sp_handles s) + length ops) ≤ 134217728 →
  wp (run_hops ops) (λ rs st', ∃ s', hsteps s ops rs s' ∧ implements L st' s') st.
Proof. apply wp_run_hops. Qed.

(** C23: a handle that an allocation hands out resolves to the object it was
    asked for. *)
Theorem handle_alloc_lookup L st s data ty flag :
  implements L st s → ty ≠ PVRSRV_HANDLE_TYPE_NONE → Z.of_nat (size (sp_handles s)) < 134217728 →
  wp ('(e, h) ← PVRSRVAllocHandle data ty flag;
      r ← PVRSRVLookupHandle h ty; mret (e, r))
    (λ r _, r.1 = PVRSRV_OK → ∃ d, r.2 = (PVRSRV_OK, Some d) ∧ u64 d = u64 data) st.
Proof.
  intros Him Hty Hsz. wp_step. eapply wp_mono; [by apply wp_PVRSRVAllocHandle|].
  intros [e h] st' ((s'&Hr&(kids&rk&fl&bl&km&Hb))&_). pose proof (b_inv _ _ _ _ _ _ _ _ Hb) as Hi.
  wp_step. eapply wp_mono; [by eapply wp_PVRSRVLookupHandle|]. intros r st2 [-> ->]. wp_step. simpl. intros ->.
  assert (∃ i e, h = i + 1 ∧ live (sp_handles s') i e ∧ e_type e = ty ∧ u64 (e_data e) = u64 data)
    as (i&e&->&Hlv&Hte&Hd).
  { inversion Hr as [i e Hm Hk Hsh| |i Hno Hi0 Hir|? ? [?|?]]; subst; try done.
    - exists i, e. pose proof Hk as (_&_&Hke). split; [done|].
      destruct (key_live _ _ _ _ _ _ _ (i_hashed _ _ _ _ _ _ _ _ Hi) Hk eq_refl) as [? ?].
      split_and!; [done..|]. unfold ent_key, InitKey in Hke. by injection Hke as ? _ _.
    - exists i, (new_ent s data ty flag). split_and!; try done.
      split; [apply lookup_insert_eq|done]. }
  assert (0 ≤ i < ui32TotalHandCount (hb_base st')) as Hir.
  { apply (p_part _ _ _ _ (i_part _ _ _ _ _ _ _ _ Hi)). destruct Hlv. eauto. }
  exists (e_data e). split; [|done]. unfold lookup_spec.
  rewrite (get_spec_live _ _ _ _ _ Hlv Hir); [|apply (i_shape _ _ _ _ _ _ _ _ Hi) ||
    (pose proof (i_shape _ _ _ _ _ _ _ _ Hi) as (_&?&?&_); lia)|by right].
  simpl. by rewrite (proj1 Hlv).
Qed.

(** C12: releasing a handle kills it and every sub-handle below it, and no
    other handle: looking one of the former up answers that it is not
    allocated, looking any other up answers what it did before. *)
Theorem handle_release_kills L st s h ty h' ty' :
  implements L st s →
  wp (e ← PVRSRVReleaseHandle h ty; r ← PVRSRVLookupHandle h' ty'; mret (e, r))
    (λ r _, r.1 = PVRSRV_OK →
      (desc (sp_handles s) (HANDLE_TO_INDEX h) (HANDLE_TO_INDEX h') →
         r.2 = (PVRSRV_ERROR_HANDLE_NOT_ALLOCATED, None)) ∧
      (¬ desc (sp_handles s) (HANDLE_TO_INDEX h) (HANDLE_TO_INDEX h') →
         r.2 = lookup_spec e_data (sp_handles s) (ui32TotalHandCount (hb_base st)) h' ty')) st.
Proof.
  intros Him. wp_step. eapply wp_mono; [by apply wp_PVRSRVReleaseHandle|].
  intros e st' [-> Hr]. destruct (get_spec _ _ h ty) as [e i] eqn:Hg. simpl in *.
  destruct (is_OK e) eqn:He.
  2:{ subst st'. destruct Him as (kids&rk&fl&bl&km&Hb). pose proof (b_inv _ _ _ _ _ _ _ _ Hb) as Hi.
      wp_step. eapply wp_mono; [by eapply wp_PVRSRVLookupHandle|]. intros r st2 _. wp_step. simpl. by intros ->. }
  apply is_OK_true in He as ->. apply get_spec_ok in Hg as (<-&Hir&ei&Hlv&_).
  destruct Hr as (m'&Hf&(kids&rk&fl&bl&km&Hb)&_&HN). pose proof (b_inv _ _ _ _ _ _ _ _ Hb) as Hi.
  wp_step. eapply wp_mono; [by eapply wp_PVRSRVLookupHandle|]. intros r st2 [-> ->]. wp_step. intros _. simpl.
  rewrite HN. unfold lookup_spec, get_spec. set (j := HANDLE_TO_INDEX h'). split; intros Hd.
  - assert (0 ≤ j < ui32TotalHandCount (hb_base st)) as Hjr.
    { destruct Him as (kids0&rk0&fl0&bl0&km0&Hb0). pose proof (b_inv _ _ _ _ _ _ _ _ Hb0) as Hi0.
      apply (p_part _ _ _ _ (i_part _ _ _ _ _ _ _ _ Hi0)). right.
      apply (desc_some (sp_handles s) i); [destruct Hlv; eauto|done]. }
    rewrite (proj2 (Z.leb_gt _ _)) by lia. rewrite (proj1 (Hf j) Hd).
    destruct (sp_handles s !! j) as [ej|]; [|done]. simpl. unfold dead. by destruct (_ && _).
  - destruct (_ <=? j); [done|]. rewrite (proj2 (Hf j) Hd).
    destruct (sp_handles s !! j) as [ej|] eqn:Hj; [|done].
    destruct (is_NONE (e_type ej)); [done|].
    destruct (negb (is_NONE ty') && negb (bool_decide (ty' = e_type ej))); [done|].
    simpl. by rewrite (proj2 (Hf j) Hd).
Qed.

(** [PVRSRVLookupSubHandle] finds a handle exactly when it lies, at any
    depth, below the ancestor it is given (the null handle being everyone's). *)
Theorem handle_sub_lookup L st s h ty a :
  implements L st s →
  wp (PVRSRVLookupSubHandle h ty a) (λ r st', st' = st ∧
    let g := lookup_spec e_data (sp_handles s) (ui32TotalHandCount (hb_base st)) h ty in
    (g.1 ≠ PVRSRV_OK → r = g) ∧
    (g.1 = PVRSRV_OK → (r.1 = PVRSRV_OK ↔ is_ancestor (sp_handles s) a (HANDLE_TO_INDEX h)) ∧
       (r.1 = PVRSRV_OK → r = g) ∧
       (r.1 ≠ PVRSRV_OK → r = (PVRSRV_ERROR_INVALID_SUBHANDLE, None)))) st.
Proof.
  intros (kids&rk&fl&bl&km&Hb). eapply wp_mono; [eapply wp_PVRSRVLookupSubHandle, (b_inv _ _ _ _ _ _ _ _ Hb)|].
  intros r st' [-> Hr]. split; [done|]. simpl in *.
  destruct (lookup_spec _ _ _ h ty) as [e o]. simpl in *. destruct (is_OK e) eqn:He.
  - apply is_OK_true in He as ->. split; [done|]. intros _.
    destruct Hr as [[Ha ->]|[Ha ->]]; simpl; naive_solver.
  - subst r. split; [done|]. by intros ->.
Qed.

(** An allocation fails for one of three reasons: the object already has a
    handle and one side does not allow sharing it; every handle under the
    limit is in use; the kernel is out of memory.  Nothing but the failure
    count of an open batch changes. *)
Theorem handle_alloc_errors L st s data ty flag :
  implements L st s → ty ≠ PVRSRV_HANDLE_TYPE_NONE → Z.of_nat (size (sp_handles s)) < 134217728 →
  wp (PVRSRVAllocHandle data ty flag) (λ r st', r.1 ≠ PVRSRV_OK →
    r.2 = IMG_NULL ∧ implements L st' (counted 1 s) ∧
    ((r.1 = PVRSRV_ERROR_HANDLE_NOT_SHAREABLE ∧ ∃ i e, key_entry (sp_handles s) (InitKey data ty IMG_NULL) i e ∧
        is_shared e flag = false) ∨
     alloc_failure r.1 ∧ (full s ∨ ¬ plenty (hb_os st)))) st.
Proof.
  intros Him Hty Hsz. eapply wp_mono; [by apply wp_PVRSRVAllocHandle|].
  intros r st' ((s'&Hr&Him')&Hwhy&_) Hne. inversion Hr; subst; simpl in *; try done;
    (split; [done|]; split; [done|]); [left|right]; eauto 10.
Qed.

(** C24: a batch ends by keeping all its handles, if it was committed and no
    allocation failed in it, or by losing them all; handles released
    meanwhile are gone in both cases, and no other handle changes. *)
Theorem handle_batch_end L st s bCommit :
  implements L st s →
  wp (PVRSRVHandleBatchCommitOrRelease bCommit) (λ r st',
    (is_batched s = false → r = PVRSRV_ERROR_INVALID_PARAMS ∧ st' = st) ∧
    (is_batched s = true → ∃ s', implements L st' s' ∧ is_batched s' = false ∧ sp_fails s' = 0 ∧
       ∀ i, sp_handles s' !! i = sp_handles s !! i ≫= settle (bCommit && (sp_fails s =? 0)))) st.
Proof.
  intros Him. eapply wp_mono; [by apply wp_end_batch|]. intros r st' Hp. unfold end_batch_post in Hp.
  destruct (is_batched s); [|done]. split; [done|]. intros _. destruct Hp as (_&Him'&_).
  eexists. split_and!; [exact Him'|done|done|]. intros i. simpl. by rewrite lookup_omap.
Qed.

(** The answer of [PVRSRVCommitHandleBatch] does not tell whether the
    handles were kept: when allocations failed they are all released, and it
    is [PVRSRV_OK] still, the count it tests having just been cleared. *)
Theorem handle_commit_hides_failures L st s :
  implements L st s → is_batched s = true → sp_fails s ≠ 0 →
  wp PVRSRVCommitHandleBatch (λ r st', r = PVRSRV_OK ∧ ∃ s', implements L st' s' ∧
    ∀ i e, sp_handles s !! i = Some e → e_batched e = true → sp_handles s' !! i = None) st.
Proof.
  intros Him Hb Hf. eapply wp_mono; [by apply wp_PVRSRVCommitHandleBatch|]. intros r st' Hp.
  unfold end_batch_post in Hp. rewrite Hb in Hp. destruct Hp as (->&Him'&_). split; [done|].
  rewrite (proj2 (Z.eqb_neq _ _) Hf) in Him'. eexists. split; [exact Him'|]. intros i e Hi He. simpl.
  rewrite lookup_omap, Hi. simpl. unfold settle. rewrite He. by destruct (is_NONE _).
Qed.

(** C13: a base gives back every block of kernel memory it took, whatever
    run of at most 2^27 operations that keeps the rules of [run_safe] came
    in between: handles of a type other than NONE, parents given as 32-bit
    values (a parent with upper bits leaves a stale key:
    [handle_private_parent_stale_key]), batches of a 32-bit size, and no
    batch opened that makes the array grow while slot 0 heads a free list
    that is not empty ([handle_batch_loses_free_list]). *)
Theorem handle_base_memory o b o1 ops :
  PVRSRVAllocHandleBase o = Done (PVRSRV_OK, Some b) o1 →
  run_safe ops (mk_hb o1 b) → Z.of_nat (length ops) ≤ 134217728 →
  wp (_ ← run_hops ops; PVRSRVFreeHandleBase) (λ r st', r = PVRSRV_OK ∧ os_live (hb_os st') = os_live o)
    (mk_hb o1 b).
Proof.
  intros Ha Hsafe Hlen. pose proof (wp_PVRSRVAllocHandleBase o) as Hw. unfold wp in Hw. rewrite Ha in Hw.
  destruct Hw as [_ [(b'&[= <-]&Him)|([?|?]&_)]]; [|done..].
  wp_step. eapply wp_mono; [eapply wp_run_hops; [exact Him|exact Hsafe|change (sp_handles fresh_spec) with (∅ : gmap Z ent); by rewrite map_size_empty]|].
  intros rs st' (s'&_&Him'). eapply wp_mono; [by eapply wp_FreeHandleBase|].
  intros r st2 (->&Hl&_). split; [done|]. lia.
Qed.

(** In every base a run of operations leads to, handles stay below the limit,
    which stays below 2^31; a handle's parent is a live handle; and an object
    has at most one handle of a type (per parent, for private sub-handles)
    unless several were asked for. *)
Theorem handle_table_invariant L ops st s :
  implements L st s → run_safe ops st → Z.of_nat (size (sp_handles s) + length ops) ≤ 134217728 →
  wp (run_hops ops) (λ _ st', ∃ s', implements L st' s' ∧ sp_max s' ≤ 2147483392 ∧
    (∀ i e, live (sp_handles s') i e → 0 ≤ i < sp_max s' ∧
       ∀ p, e_parent e = Some p → ∃ ep, live (sp_handles s') p ep) ∧
    (∀ i e j e', live (sp_handles s') i e → live (sp_handles s') j e' →
       is_multi e = false → is_multi e' = false → ent_key e = ent_key e' → i = j)) st.
Proof.
  intros Him Hsafe Hlen. eapply wp_mono; [by eapply wp_run_hops|].
  intros rs st' (s'&_&Him'). exists s'. split; [done|]. destruct Him' as (kids&rk&fl&bl&km&Hb).
  pose proof (b_inv _ _ _ _ _ _ _ _ Hb) as Hi. pose proof (i_shape _ _ _ _ _ _ _ _ Hi) as (_&?&?&_).
  rewrite <- (b_max _ _ _ _ _ _ _ _ Hb). split; [done|]. split.
  - intros i e [Hm Hty]. split.
    + pose proof (proj2 (p_part _ _ _ _ (i_part _ _ _ _ _ _ _ _ Hi) i) (or_intror (mk_is_Some _ _ Hm))). lia.
    + intros p Hp. apply (t_par _ _ _ (i_tree _ _ _ _ _ _ _ _ Hi) _ _ _ Hm Hp).
  - intros i e j e' Hl Hl' Hmu Hmu' Hk.
    apply (key_unique (sp_handles s') km (ent_key e) i e j e'); [apply (i_keyed _ _ _ _ _ _ _ _ Hi)|..].
    + split; [apply Hl|]. split; [|done]. rewrite (b_all _ _ _ _ _ _ _ _ Hb _ _ Hl), Hmu. done.
    + split; [apply Hl'|]. split; [|done]. rewrite (b_all _ _ _ _ _ _ _ _ Hb _ _ Hl'), Hmu'. done.
Qed.
End props.

(** ** Runs *)

#[local] Existing Instance junk_heap.

(** A handle, a private sub-handle, then a batch in which the former is
    released and a shared handle is made. *)
Definition demo : list hop :=
  [HAlloc 100 PVRSRV_HANDLE_TYPE_DEV_NODE 0; HSub 200 PVRSRV_HANDLE_TYPE_MEM_INFO 4 1; HNewBatch 3;
   HAlloc 300 PVRSRV_HANDLE_TYPE_SYNC_INFO 1; HReadSub 2 PVRSRV_HANDLE_TYPE_MEM_INFO 1;
   HRelease 1 PVRSRV_HANDLE_TYPE_DEV_NODE; HCommit; HRead ReadData 3 PVRSRV_HANDLE_TYPE_SYNC_INFO].

(** A batch in which one allocation is refused. *)
Definition demo_fail : list hop :=
  [HNewBatch 2; HAlloc 5 PVRSRV_HANDLE_TYPE_MEM_INFO 0; HAlloc 5 PVRSRV_HANDLE_TYPE_MEM_INFO 0].

Definition results (ops : list hop) : option (list hres) :=
  match run_hops ops fresh_st with Done rs _ => Some rs | _ => None end.
Definition faults (ops : list hop) : bool :=
  match run_hops ops fresh_st with Fault => true | _ => false end.
Definition after (ops : list hop) : hb_st :=
  match run_hops ops fresh_st with Done _ st => st | _ => fresh_st end.

Ltac run_safe_tac :=
  vm_compute; repeat first [exact I | split | discriminate]; (left; reflexivity) || (right; left; discriminate).

Lemma fresh_st_eta : mk_hb (hb_os fresh_st) (hb_base fresh_st) = fresh_st.
Proof. reflexivity. Qed.

Lemma demo_safe : run_safe demo fresh_st.
Proof. run_safe_tac. Qed.

Lemma demo_fail_safe : run_safe demo_fail fresh_st.
Proof. run_safe_tac. Qed.

(** The state after a safe run implements some table. *)
Lemma after_implements ops :
  run_safe ops fresh_st → Z.of_nat (length ops) ≤ 134217728 → is_Some (results ops) →
  ∃ s, implements 3 (after ops) s.
Proof.
  intros Hsafe Hlen Hr. pose proof (wp_run_hops 3 ops fresh_st fresh_spec fresh_st_ok Hsafe Hlen) as Hw.
  unfold results, after, wp in *. destruct (run_hops ops fresh_st) as [rs st'| |]; [|by destruct Hr..].
  destruct Hw as (s&_&Him). eauto.
Qed.

Lemma handle_ops_refine_witness :
  results demo = Some [(PVRSRV_OK, [1]); (PVRSRV_OK, [2]); (PVRSRV_OK, []); (PVRSRV_OK, [3]);
    (PVRSRV_OK, [200]); (PVRSRV_OK, []); (PVRSRV_OK, []); (PVRSRV_OK, [300])] ∧
  wp (run_hops demo) (λ rs st', ∃ s', hsteps fresh_spec demo rs s' ∧ implements 3 st' s') fresh_st.
Proof.
  split; [vm_compute; reflexivity|].
  apply (handle_ops_refine 3 demo fresh_st fresh_spec fresh_st_ok demo_safe). vm_compute. discriminate.
Defined.

Lemma handle_alloc_lookup_witness :
  wp ('(e, h) ← PVRSRVAllocHandle 42 PVRSRV_HANDLE_TYPE_MEM_INFO 0;
      r ← PVRSRVLookupHandle h PVRSRV_HANDLE_TYPE_MEM_INFO; mret (e, r))
    (λ r _, r.1 = PVRSRV_OK → ∃ d, r.2 = (PVRSRV_OK, Some d) ∧ u64 d = u64 42) fresh_st.
Proof.
  apply (handle_alloc_lookup 3 fresh_st fresh_spec 42 PVRSRV_HANDLE_TYPE_MEM_INFO 0 fresh_st_ok);
    [discriminate|reflexivity].
Defined.

Definition demo_tree : list hop :=
  [HAlloc 100 PVRSRV_HANDLE_TYPE_DEV_NODE 0; HSub 200 PVRSRV_HANDLE_TYPE_MEM_INFO 4 1;
   HSub 300 PVRSRV_HANDLE_TYPE_SYNC_INFO 0 2].

Lemma demo_tree_safe : run_safe demo_tree fresh_st.
Proof. vm_compute. repeat first [exact I | split | discriminate]. Qed.

Lemma demo_tree_ok : ∃ s, implements 3 (after demo_tree) s.
Proof. apply after_implements; [apply demo_tree_safe|simpl; lia|vm_compute; eauto]. Qed.

Lemma handle_release_kills_witness :
  ∃ s, implements 3 (after demo_tree) s ∧
  wp (e ← PVRSRVReleaseHandle 1 PVRSRV_HANDLE_TYPE_DEV_NODE;
      r ← PVRSRVLookupHandle 3 PVRSRV_HANDLE_TYPE_SYNC_INFO; mret (e, r))
    (λ r _, r.1 = PVRSRV_OK →
      (desc (sp_handles s) 0 2 → r.2 = (PVRSRV_ERROR_HANDLE_NOT_ALLOCATED, None)) ∧
      (¬ desc (sp_handles s) 0 2 → r.2 = lookup_spec e_data (sp_handles s)
         (ui32TotalHandCount (hb_base (after demo_tree))) 3 PVRSRV_HANDLE_TYPE_SYNC_INFO)) (after demo_tree).
Proof.
  destruct demo_tree_ok as [s Hs]. exists s. split; [exact Hs|].
  exact (handle_release_kills 3 (after demo_tree) s 1 PVRSRV_HANDLE_TYPE_DEV_NODE 3 PVRSRV_HANDLE_TYPE_SYNC_INFO Hs).
Defined.

Lemma handle_sub_lookup_witness :
  ∃ s, implements 3 (after demo_tree) s ∧
  wp (PVRSRVLookupSubHandle 3 PVRSRV_HANDLE_TYPE_SYNC_INFO 1) (λ r st', st' = after demo_tree ∧
    let g := lookup_spec e_data (sp_handles s) (ui32TotalHandCount (hb_base (after demo_tree))) 3
      PVRSRV_HANDLE_TYPE_SYNC_INFO in
    (g.1 ≠ PVRSRV_OK → r = g) ∧
    (g.1 = PVRSRV_OK → (r.1 = PVRSRV_OK ↔ is_ancestor (sp_handles s) 1 2) ∧
       (r.1 = PVRSRV_OK → r = g) ∧
       (r.1 ≠ PVRSRV_OK → r = (PVRSRV_ERROR_INVALID_SUBHANDLE, None)))) (after demo_tree).
Proof.
  destruct demo_tree_ok as [s Hs]. exists s. split; [exact Hs|].
  exact (handle_sub_lookup 3 (after demo_tree) s 3 PVRSRV_HANDLE_TYPE_SYNC_INFO 1 Hs).
Defined.

Lemma handle_alloc_errors_witness :
  wp (PVRSRVAllocHandle 42 PVRSRV_HANDLE_TYPE_MEM_INFO 0) (λ r st', r.1 ≠ PVRSRV_OK →
    r.2 = IMG_NULL ∧ implements 3 st' (counted 1 fresh_spec) ∧
    ((r.1 = PVRSRV_ERROR_HANDLE_NOT_SHAREABLE ∧
        ∃ i e, key_entry (sp_handles fresh_spec) (InitKey 42 PVRSRV_HANDLE_TYPE_MEM_INFO IMG_NULL) i e ∧
        is_shared e 0 = false) ∨
     alloc_failure r.1 ∧ (full fresh_spec ∨ ¬ plenty (hb_os fresh_st)))) fresh_st.
Proof.
  apply (handle_alloc_errors 3 fresh_st fresh_spec 42 PVRSRV_HANDLE_TYPE_MEM_INFO 0 fresh_st_ok);
    [discriminate|reflexivity].
Defined.

Lemma demo_fail_ok : ∃ s, implements 3 (after demo_fail) s ∧ is_batched s = true ∧ sp_fails s ≠ 0.
Proof.
  destruct (after_implements demo_fail demo_fail_safe) as (s&kids&rk&fl&bl&km&Hb); [simpl; lia|vm_compute; eauto|].
  exists s. split; [by exists kids, rk, fl, bl, km|].
  pose proof (b_batch _ _ _ _ _ _ _ _ Hb) as H1. pose proof (b_fails _ _ _ _ _ _ _ _ Hb) as H2.
  unfold is_batched. rewrite <- H1, <- H2. vm_compute. split; [reflexivity|discriminate].
Qed.

Lemma handle_batch_end_witness :
  ∃ s, implements 3 (after demo_fail) s ∧
  wp (PVRSRVHandleBatchCommitOrRelease true) (λ r st',
    (is_batched s = false → r = PVRSRV_ERROR_INVALID_PARAMS ∧ st' = after demo_fail) ∧
    (is_batched s = true → ∃ s', implements 3 st' s' ∧ is_batched s' = false ∧ sp_fails s' = 0 ∧
       ∀ i, sp_handles s' !! i = sp_handles s !! i ≫= settle (true && (sp_fails s =? 0)))) (after demo_fail).
Proof.
  destruct demo_fail_ok as (s&Hs&_). exists s. split; [exact Hs|].
  exact (handle_batch_end 3 (after demo_fail) s true Hs).
Defined.

Lemma handle_commit_hides_failures_witness :
  ∃ s, implements 3 (after demo_fail) s ∧
  wp PVRSRVCommitHandleBatch (λ r st', r = PVRSRV_OK ∧ ∃ s', implements 3 st' s' ∧
    ∀ i e, sp_handles s !! i = Some e → e_batched e = true → sp_handles s' !! i = None) (after demo_fail).
Proof.
  destruct demo_fail_ok as (s&Hs&Hb&Hf). exists s. split; [exact Hs|].
  exact (handle_commit_hides_failures 3 (after demo_fail) s Hs Hb Hf).
Defined.

Lemma handle_base_memory_witness :
  wp (_ ← run_hops demo; PVRSRVFreeHandleBase)
    (λ r st', r = PVRSRV_OK ∧ os_live (hb_os st') = os_live os_plenty)
    (mk_hb (hb_os fresh_st) (hb_base fresh_st)).
Proof.
  apply (handle_base_memory os_plenty (hb_base fresh_st) (hb_os fresh_st) demo).
  - reflexivity.
  - rewrite fresh_st_eta. apply demo_safe.
  - vm_compute. discriminate.
Defined.

Lemma handle_table_invariant_witness :
  wp (run_hops demo) (λ _ st', ∃ s', implements 3 st' s' ∧ sp_max s' ≤ 2147483392 ∧
    (∀ i e, live (sp_handles s') i e → 0 ≤ i < sp_max s' ∧
       ∀ p, e_parent e = Some p → ∃ ep, live (sp_handles s') p ep) ∧
    (∀ i e j e', live (sp_handles s') i e → live (sp_handles s') j e' →
       is_multi e = false → is_multi e' = false → ent_key e = ent_key e' → i = j)) fresh_st.
Proof.
  apply (handle_table_invariant 3 demo fresh_st fresh_spec fresh_st_ok demo_safe). vm_compute. discriminate.
Defined.

(** ** Where the code does not do what it means to *)

(** [ui32FirstFreeIndex] is 0 both when the free list is empty and when
    slot 0 heads it.  A batch that grows the array in the second state loses
    the free list while the count keeps counting it: once the new slots are
    used, the next allocation follows the last link out of the array. *)
Theorem handle_batch_loses_free_list :
  faults (HNewBatch 1 :: HAbandon :: HNewBatch 300 ::
    replicate 256 (HAlloc 5 PVRSRV_HANDLE_TYPE_MEM_INFO PVRSRV_HANDLE_ALLOC_FLAG_MULTI)) = false ∧
  faults (HNewBatch 1 :: HAbandon :: HNewBatch 300 ::
    replicate 257 (HAlloc 5 PVRSRV_HANDLE_TYPE_MEM_INFO PVRSRV_HANDLE_ALLOC_FLAG_MULTI)) = true.
Proof. split; vm_compute; reflexivity. Qed.

(** The key of a private sub-handle holds the parent as the caller wrote
    it, its removal the parent as the base numbers it.  A parent whose upper
    32 bits are set resolves, but leaves its key behind on release, and the
    object can get no handle under it any more. *)
Theorem handle_private_parent_stale_key :
  results [HAlloc 100 PVRSRV_HANDLE_TYPE_DEV_NODE 0;
    HSub 200 PVRSRV_HANDLE_TYPE_MEM_INFO PVRSRV_HANDLE_ALLOC_FLAG_PRIVATE 4294967297;
    HRelease 2 PVRSRV_HANDLE_TYPE_MEM_INFO;
    HSub 200 PVRSRV_HANDLE_TYPE_MEM_INFO PVRSRV_HANDLE_ALLOC_FLAG_PRIVATE 4294967297] =
  Some [(PVRSRV_OK, [1]); (PVRSRV_OK, [2]); (PVRSRV_OK, []); (PVRSRV_ERROR_HANDLE_NOT_ALLOCATED, [0])].
Proof. vm_compute. reflexivity. Qed.
