(* ===== verification/HandlePurge.v ===== *)
(** * Handle tables: a base with purging

    The kernel's own base has purging enabled: freed slots are not linked
    into a list, a search of the blocks' counts finds a free one, and
    [PVRSRVPurgeHandles] gives trailing free blocks back.  The driver keeps
    neither sub-handles nor batches in it. *)

From S2P Require Import Prelude Hash Handle HandleRep HandleInv HandleOps HandleFree HandleAlloc.
From S2P Require Import HandleTake HandleApi.

(** ** Counting free slots *)

(** The free slots among the [n] slots from [a] on. *)
Definition nfree (m : gmap Z ent) (a n : Z) : Z :=
  Z.of_nat (length (filter (λ i, m !! i = None) (seqZ a n))).

Lemma nfree_ext m m' a n :
  (∀ i, a ≤ i < a + n → m !! i = None ↔ m' !! i = None) → nfree m a n = nfree m' a n.
Proof.
  intros Hm. unfold nfree. do 2 f_equal. assert (∀ i, i ∈ seqZ a n → m !! i = None ↔ m' !! i = None) as Hl
    by (intros i Hi%elem_of_seqZ; apply Hm; lia).
  revert Hl. generalize (seqZ a n). induction l as [|x l IH]; intros Hl; [done|].
  rewrite !filter_cons, IH by (intros; apply Hl; by right). specialize (Hl x ltac:(by left)).
  repeat case_decide; tauto.
Qed.

Lemma nfree_app m a n1 n2 : 0 ≤ n1 → 0 ≤ n2 → nfree m a (n1 + n2) = nfree m a n1 + nfree m (a + n1) n2.
Proof. intros. unfold nfree. rewrite seqZ_app, filter_app, length_app by done. lia. Qed.

Lemma nfree_one m a : nfree m a 1 = match m !! a with None => 1 | _ => 0 end.
Proof.
  unfold nfree. rewrite seqZ_cons by lia. simpl. rewrite filter_cons.
  by destruct (m !! a) eqn:H; case_decide.
Qed.

Lemma nfree_range m a n : 0 ≤ n → 0 ≤ nfree m a n ≤ n.
Proof.
  intros Hn. unfold nfree.
  pose proof (length_filter (λ i : Z, m !! i = None) (seqZ a n)) as H. rewrite length_seqZ in H. lia.
Qed.

(** Changing one slot changes the counts of the ranges it lies in. *)
Lemma nfree_split m a n i :
  a ≤ i < a + n → nfree m a n = nfree m a (i - a) + nfree m i 1 + nfree m (i + 1) (a + n - i - 1).
Proof.
  intros Hi. replace n with ((i - a) + (1 + (a + n - i - 1))) at 1 by lia.
  rewrite !nfree_app by lia. replace (a + (i - a)) with i by lia. lia.
Qed.

Lemma nfree_insert m i e a n :
  m !! i = None → nfree (<[i := e]> m) a n = nfree m a n - (if decide (a ≤ i < a + n) then 1 else 0).
Proof.
  intros Hi. case_decide as Hr.
  - rewrite !(nfree_split _ a n i), !nfree_one, lookup_insert_eq, Hi by done.
    rewrite (nfree_ext (<[i := e]> m) m a), (nfree_ext (<[i := e]> m) m (i + 1));
      [lia|intros j Hj; by rewrite lookup_insert_ne by lia..].
  - rewrite Z.sub_0_r. apply nfree_ext. intros j Hj. by rewrite lookup_insert_ne by lia.
Qed.

Lemma nfree_delete m i e a n :
  m !! i = Some e → nfree (delete i m) a n = nfree m a n + (if decide (a ≤ i < a + n) then 1 else 0).
Proof.
  intros Hi. rewrite <- (insert_delete_id m i e) at 2 by done.
  rewrite nfree_insert by apply lookup_delete_eq. case_decide; lia.
Qed.

Lemma nfree_all m a n : 0 ≤ n → (∀ i, a ≤ i < a + n → m !! i = None) → nfree m a n = n.
Proof.
  intros Hn Hm. rewrite (nfree_ext m ∅) by (intros i Hi; by rewrite (Hm i Hi), lookup_empty).
  unfold nfree. rewrite <- (Z2Nat.id n Hn) at 2. rewrite <- (length_seqZ a n). do 2 f_equal.
  induction (seqZ a n) as [|x l IH]; [done|]. by rewrite filter_cons_True, IH by apply lookup_empty.
Qed.

Lemma nfree_some m a n : 0 < nfree m a n ↔ ∃ i, a ≤ i < a + n ∧ m !! i = None.
Proof.
  unfold nfree. split.
  - destruct (filter _ _) as [|i l] eqn:Hf; [simpl; lia|]. intros _. exists i.
    assert (i ∈ filter (λ i, m !! i = None) (seqZ a n)) as [H1 H2%elem_of_seqZ]%list_elem_of_filter
      by (rewrite Hf; by left). split; [lia|done].
  - intros (i&Hi&Hm). assert (i ∈ filter (λ i, m !! i = None) (seqZ a n)) as Hin
      by (apply list_elem_of_filter; split; [done|by apply elem_of_seqZ]).
    destruct (filter _ _); [by apply elem_of_nil in Hin|simpl; lia].
Qed.

Lemma nfree_full m a n : 0 ≤ n → nfree m a n = n → ∀ i, a ≤ i < a + n → m !! i = None.
Proof.
  intros Hn Hf i Hi. rewrite (nfree_split _ a n i), nfree_one in Hf by done.
  pose proof (nfree_range m a (i - a)). pose proof (nfree_range m (i + 1) (a + n - i - 1)).
  destruct (m !! i); [lia|done].
Qed.

(** ** The invariant *)

(** The entries of such a base. *)
Record plain (e : ent) : Prop := {
  pl_parent : e_parent e = None;
  pl_batched : e_batched e = false;
  pl_hashed : e_hashed e = negb (is_multi e);
  pl_type : e_type e ≠ PVRSRV_HANDLE_TYPE_NONE }.

(** The structure of a slot, used or free. *)
Definition slot_is (m : gmap Z ent) (i : Z) (h : sHandle) : Prop :=
  match m !! i with
  | Some e => slot_ok i e h ∧ sChildren h = mkHandleList i i (i + 1)
  | None => eType h = PVRSRV_HANDLE_TYPE_NONE ∧ eInternalFlag h = INTERNAL_HANDLE_FLAG_NONE ∧ ui32Index h = i
  end.

(** The count of the block of a slot. *)
Definition bcount (b : PVRSRV_HANDLE_BASE) (i : Z) : option Z := ui32FreeHandBlockCount <$> index_at b i.

(** Each block counts its free slots. *)
Definition blocks_ok (b : PVRSRV_HANDLE_BASE) (m : gmap Z ent) : Prop := ∀ i c,
  bcount b i = Some c → c = nfree m (256 * (i / 256)) 256.

Record pcore (L : Z) (st : hb_st) (m : gmap Z ent) (km : gmap (list Z) Z) : Prop := {
  q_shape : shape (hb_base st);
  q_plain i e : m !! i = Some e → plain e ∧ 0 ≤ i < ui32TotalHandCount (hb_base st);
  q_slots i h : hand_at (hb_base st) i = Some h → slot_is m i h;
  q_count : ui32FreeHandCount (hb_base st) = nfree m 0 (ui32TotalHandCount (hb_base st));
  q_blocks : blocks_ok (hb_base st) m;
  q_hash : hash_ok (psHashTab (hb_base st)) km;
  q_keyed : keyed m km;
  q_purge : bPurgingEnabled (hb_base st) = true;
  q_batch : ui32HandBatchSize (hb_base st) = 0;
  q_live : os_live (hb_os st) = L + array_blocks (hb_base st) + Z.of_nat (size km) }.

(** Between operations the search starts from the first slot. *)
Definition pinv (L : Z) (st : hb_st) (m : gmap Z ent) (km : gmap (list Z) Z) : Prop :=
  pcore L st m km ∧ ui32FirstFreeIndex (hb_base st) = 0.

Lemma pcore_readable L st m km : pcore L st m km → readable st m.
Proof.
  intros Hc. pose proof (q_shape _ _ _ _ Hc) as Hs. split; [done|..].
  - intros i e Hi. destruct (proj2 (hand_some _ i Hs) (proj2 (q_plain _ _ _ _ Hc _ _ Hi))) as [h Hh].
    exists h. split; [done|]. pose proof (q_slots _ _ _ _ Hc _ _ Hh) as Hsl. unfold slot_is in Hsl.
    rewrite Hi in Hsl. apply Hsl.
  - intros i Hi Hm. destruct (proj2 (hand_some _ i Hs) Hi) as [h Hh].
    exists h. split; [done|]. pose proof (q_slots _ _ _ _ Hc _ _ Hh) as Hsl. unfold slot_is in Hsl.
    rewrite Hm in Hsl. apply Hsl.
Qed.

(** ** The counts of the blocks *)

Lemma index_at_alt b i :
  index_at b i = if i <? 0 then None else a ← psHandleArray b; a !! Z.to_nat (i / 256).
Proof. unfold index_at. destruct (Z.ltb_spec i 0); [done|]. by rewrite block_index. Qed.

Lemma bcount_arr b b' i : psHandleArray b = psHandleArray b' → bcount b i = bcount b' i.
Proof. intros Heq. unfold bcount. rewrite !index_at_alt. by rewrite Heq. Qed.

Lemma bcount_put b i h j : 0 ≤ i → bcount (put_hand i h b) j = bcount b j.
Proof.
  intros Hi. unfold bcount. rewrite !index_at_alt, put_hand_arr by done.
  destruct (_ <? 0); [done|]. destruct (psHandleArray b) as [a|]; [|done]. simpl.
  rewrite list_lookup_alter. case_decide as Hd; [|done]. rewrite Hd. by destruct (a !! _).
Qed.

Lemma bcount_set b i c j :
  0 ≤ i → bcount (set_block_count i c b) j =
    if decide (i / 256 = j / 256) then (λ _, c) <$> bcount b j else bcount b j.
Proof.
  intros Hi. unfold bcount, set_block_count, set_index. rewrite !index_at_alt. simpl.
  rewrite block_index by done. destruct (Z.ltb_spec j 0); [by case_decide|].
  destruct (psHandleArray b) as [a|]; [|by case_decide]. simpl. rewrite list_lookup_alter.
  pose proof (Z.div_pos i 256). pose proof (Z.div_pos j 256).
  destruct (decide (i / 256 = j / 256)) as [Hd|Hd].
  - rewrite Hd, decide_True by done. by destruct (a !! _).
  - rewrite decide_False by lia. done.
Qed.

Lemma bcount_some b i : shape b → 0 ≤ i < ui32TotalHandCount b → is_Some (bcount b i).
Proof. intros Hs Hi. unfold bcount. by apply fmap_is_Some, index_some, hand_some. Qed.

Lemma wp_read_count i Q o b c :
  bcount b i = Some c → Q c (mk_hb o b) → wp (INDEX_TO_FREE_HAND_BLOCK_COUNT i) Q (mk_hb o b).
Proof.
  unfold bcount. intros (ix&Hix&->)%fmap_Some HQ. unfold INDEX_TO_FREE_HAND_BLOCK_COUNT. hb_steps.
  rewrite Hix. hb_steps. exact HQ.
Qed.

Lemma wp_add_count i d Q o b c :
  bcount b i = Some c → Q tt (mk_hb o (set_block_count i (u32 (c + d)) b)) →
  wp (upd_block_count i d) Q (mk_hb o b).
Proof. intros Hc HQ. unfold upd_block_count. wp_step. eapply wp_read_count; [done|]. by hb_steps. Qed.

(** A slot is used, or free again, and its block's count follows. *)
Lemma blocks_change b m m' i c' :
  blocks_ok b m → 0 ≤ i → c' = nfree m' (256 * (i / 256)) 256 →
  (∀ j, j / 256 ≠ i / 256 → nfree m' (256 * (j / 256)) 256 = nfree m (256 * (j / 256)) 256) →
  blocks_ok (set_block_count i c' b) m'.
Proof.
  intros Hb Hi -> Hm j c. rewrite bcount_set by done. case_decide as Hd.
  - intros (c0&_&->)%fmap_Some. by rewrite Hd.
  - intros Hc. rewrite Hm by congruence. by apply Hb.
Qed.

Lemma block_of i j : 256 * (j / 256) ≤ i < 256 * (j / 256) + 256 ↔ j / 256 = i / 256.
Proof.
  pose proof (Z.div_mod i 256 ltac:(lia)). pose proof (Z.mod_pos_bound i 256 ltac:(lia)). split; [|lia].
  intros Hi. apply Z.div_unique with (i - 256 * (j / 256)); lia.
Qed.

Lemma blocks_insert b m i e :
  blocks_ok b m → 0 ≤ i → m !! i = None →
  blocks_ok (set_block_count i (nfree m (256 * (i / 256)) 256 - 1) b) (<[i := e]> m).
Proof.
  intros Hb Hi Hm. eapply blocks_change; [done|done|..].
  - rewrite nfree_insert, decide_True; [done|by apply block_of|done].
  - intros j Hj. rewrite nfree_insert, decide_False; [lia|by rewrite block_of|done].
Qed.

Lemma blocks_delete b m i e :
  blocks_ok b m → 0 ≤ i → m !! i = Some e →
  blocks_ok (set_block_count i (nfree m (256 * (i / 256)) 256 + 1) b) (delete i m).
Proof.
  intros Hb Hi Hm. eapply blocks_change; [done|done|..].
  - erewrite nfree_delete, decide_True; [done|by apply block_of|done].
  - intros j Hj. erewrite nfree_delete, decide_False; [lia|by rewrite block_of|done].
Qed.

(** ** The search *)

Section search.
Context (L : Z) (o : os) (b : PVRSRV_HANDLE_BASE) (m : gmap Z ent) (km : gmap (list Z) Z)
  (Hc : pcore L (mk_hb o b) m km).

#[local] Abbreviation N := (ui32TotalHandCount b).

Lemma struct_free i h : hand_at b i = Some h → HANDLE_STRUCT_IS_FREE h = bool_decide (m !! i = None).
Proof.
  intros Hh. pose proof (q_slots _ _ _ _ Hc _ _ Hh) as Hs. unfold slot_is, HANDLE_STRUCT_IS_FREE in *.
  destruct (m !! i) as [e|] eqn:Hm.
  - destruct Hs as [Hso _]. rewrite (so_type _ _ _ Hso), is_NONE_false; [done|].
    apply (q_plain _ _ _ _ Hc _ _ Hm).
  - by destruct Hs as (->&->&_).
Qed.

(** Within a block that has a free slot, the search ends at its first. *)
Lemma wp_find_in_block n i p :
  0 ≤ i → i + Z.of_nat n ≤ N → 0 < nfree m i (Z.of_nat n) →
  wp (find_in_block n i p) (λ r st', st' = mk_hb o b ∧ ∃ j, r = (j, j) ∧ i ≤ j < i + Z.of_nat n ∧ m !! j = None)
    (mk_hb o b).
Proof.
  revert i p. induction n as [|n IH]; intros i p Hi HN Hf; [by rewrite nfree_some in Hf; destruct Hf as (?&?&_); lia|].
  cbn [find_in_block]. destruct (proj2 (hand_some b i (q_shape _ _ _ _ Hc)) ltac:(simpl; lia)) as [h Hh].
  wp_step. eapply wp_struct; [exact Hh|]. rewrite (struct_free _ _ Hh). case_bool_decide as Hm.
  - wp_step. split; [done|]. exists i. split; [done|]. split; [lia|done].
  - eapply wp_mono; [apply IH; [lia|lia|]|].
    + replace (Z.of_nat (S n)) with (1 + Z.of_nat n) in Hf by lia. rewrite nfree_app, nfree_one in Hf by lia.
      destruct (m !! i); [lia|done].
    + intros r st' (->&j&->&Hj&Hmj). split; [done|]. exists j. split; [done|]. split; [lia|done].
Qed.

(** Over the blocks, it ends in the last block that has one. *)
Lemma wp_find_free n start r :
  0 ≤ start → start mod 256 = 0 → start + 256 * Z.of_nat n = N →
  wp (find_free n start r) (λ r' st', st' = mk_hb o b ∧
      ((∃ i, r' = (i, Some i) ∧ start ≤ i < N ∧ m !! i = None) ∨
       r' = r ∧ nfree m start (N - start) = 0)) (mk_hb o b).
Proof.
  revert start r. induction n as [|n IH]; intros start r H0 Hmod HN; cbn [find_free].
  { wp_step. split; [done|]. right. split; [done|]. by replace (N - start) with 0 by lia. }
  destruct (bcount_some b start (q_shape _ _ _ _ Hc) ltac:(simpl; lia)) as [c Hbc].
  pose proof (q_blocks _ _ _ _ Hc _ _ Hbc) as Hcn.
  assert (256 * (start / 256) = start) as Hst by (pose proof (Z.div_mod start 256); lia). rewrite Hst in Hcn.
  pose proof (nfree_range m start 256 ltac:(lia)) as Hrg.
  assert (nfree m start (N - start) = nfree m start 256 + nfree m (start + 256) (N - (start + 256))) as Hsp.
  { rewrite <- nfree_app by lia. f_equal. lia. }
  assert ((start + HANDLE_BLOCK_SIZE) mod 256 = 0) as Hmod'
    by (unfold HANDLE_BLOCK_SIZE; rewrite Z.add_mod, Hmod by done; done).
  wp_step. eapply wp_read_count; [exact Hbc|]. destruct (Z.eqb_spec c 0) as [Hc0|Hc0].
  - eapply wp_mono; [apply IH; [unfold HANDLE_BLOCK_SIZE; lia|done|unfold HANDLE_BLOCK_SIZE; lia]|].
    intros r' st' [-> [(i&->&Hi&Hm)|[-> Hz]]]; (split; [done|]); unfold HANDLE_BLOCK_SIZE in *.
    + left. exists i. split; [done|]. split; [lia|done].
    + right. split; [done|]. lia.
  - wp_step. eapply wp_mono; [apply wp_find_in_block; change (Z.of_nat (Z.to_nat HANDLE_BLOCK_SIZE)) with 256; lia|].
    change (Z.of_nat (Z.to_nat HANDLE_BLOCK_SIZE)) with 256. intros [i p] st' (->&j&[= -> ->]&Hj&Hmj).
    eapply wp_mono; [apply IH; [unfold HANDLE_BLOCK_SIZE; lia|done|unfold HANDLE_BLOCK_SIZE; lia]|].
    unfold HANDLE_BLOCK_SIZE. intros r' st' [-> [(i&->&Hi&Hm)|[-> _]]]; (split; [done|]); left.
    + exists i. split; [done|]. split; [lia|done].
    + exists j. split; [done|]. split; [lia|done].
Qed.
End search.

(** ** Growing *)

Section grow.
Context {heap : HeapContents}.

Lemma bcount_grown b n j b1 c :
  shape b → psHandleArray b1 = Some (grown_array b n) → bcount b1 j = Some c →
  (0 ≤ j < ui32TotalHandCount b ∧ bcount b j = Some c) ∨
  (ui32TotalHandCount b ≤ 256 * (j / 256) ∧ c = 256).
Proof.
  intros Hs Hb1. pose proof Hs as [Ha [H1 _]].
  pose proof (array_length _ _ Ha (proj1 H1)) as Hl. fold (old_blocks b) in Hl.
  unfold bcount. rewrite (index_at_alt b1), Hb1. destruct (Z.ltb_spec j 0) as [|Hj]; [done|].
  pose proof (Z.div_mod j 256). pose proof (Z.mod_pos_bound j 256). pose proof (Z.div_pos j 256).
  unfold grown_array. simpl. destruct (decide (j / 256 < Z.of_nat (length (old_blocks b)))) as [Hlt|Hge].
  - rewrite lookup_app_l by lia. intros Hc. left. split; [lia|]. rewrite index_at_alt.
    destruct (Z.ltb_spec j 0); [lia|]. unfold old_blocks in *. by destruct (psHandleArray b).
  - rewrite lookup_app_r, list_lookup_fmap by lia. intros (ix&Hix&->)%fmap_Some.
    apply fmap_Some in Hix as (k&_&->). right. split; [lia|done].
Qed.

(** The fields a grown or shrunk base has. *)
Record resized (b b' : PVRSRV_HANDLE_BASE) (m : gmap Z ent) : Prop := {
  rz_shape : shape b';
  rz_max : ui32MaxIndexPlusOne b' = ui32MaxIndexPlusOne b;
  rz_count : ui32FreeHandCount b' = nfree m 0 (ui32TotalHandCount b');
  rz_tab : psHashTab b' = psHashTab b;
  rz_purge : bPurgingEnabled b' = bPurgingEnabled b;
  rz_batch : ui32HandBatchSize b' = ui32HandBatchSize b;
  rz_range i e : m !! i = Some e → i < ui32TotalHandCount b';
  rz_slots i h : hand_at b' i = Some h → hand_at b i = Some h ∨ m !! i = None ∧ h = new_handle i;
  rz_blocks : blocks_ok b' m }.

Lemma pcore_resized L o o' b b' m km :
  pcore L (mk_hb o b) m km → resized b b' m →
  os_live o' = os_live o + array_blocks b' - array_blocks b → pcore L (mk_hb o' b') m km.
Proof.
  intros [Hs Hp Hsl _ _ Hh Hk Hpu Hb Hl] [] Ho. simpl in *. split; simpl; try done; try congruence.
  - intros i e Hi. destruct (Hp _ _ Hi). split; [done|]. split; [lia|eauto].
  - intros i h [Hi|[Hm ->]]%rz_slots0; [by apply Hsl|]. unfold slot_is. by rewrite Hm.
  - lia.
Qed.

Lemma grown_resized L o b m km n N' f :
  pcore L (mk_hb o b) m km → (0 < n)%nat → N' = ui32TotalHandCount b + 256 * Z.of_nat n →
  N' ≤ ui32MaxIndexPlusOne b →
  resized b (set_first f (set_count (ui32FreeHandCount b + (N' - ui32TotalHandCount b))
    (set_total N' (set_psHandleArray (Some (grown_array b n)) b)))) m.
Proof.
  intros Hc Hn HN' HM. pose proof (q_shape _ _ _ _ Hc) as Hs. simpl in Hs. set (b' := set_first _ _).
  pose proof Hs as (_&H0&Hmax&Hmm).
  assert (∀ i, ui32TotalHandCount b ≤ i → m !! i = None) as Hout.
  { intros i Hi. destruct (m !! i) eqn:Hm; [|done]. destruct (q_plain _ _ _ _ Hc _ _ Hm). simpl in *. lia. }
  split; try done.
  - split; [subst N'; by apply grown_array_ok|]. simpl. split_and!; [lia..|done|done].
  - simpl. pose proof (q_count _ _ _ _ Hc) as Hcn. simpl in Hcn. rewrite Hcn.
    replace N' with (ui32TotalHandCount b + (N' - ui32TotalHandCount b)) at 2 by lia.
    rewrite nfree_app, (nfree_all m (0 + _)) by (lia || (intros; apply Hout; lia)). lia.
  - intros i e Hi. pose proof (proj2 (q_plain _ _ _ _ Hc _ _ Hi)). simpl in *. lia.
  - intros i h Hh. destruct (hand_at_grown b n i b' Hs eq_refl ltac:(lia)) as [G1 G2].
    assert (0 ≤ i < N') as Hi.
    { assert (shape b') as Hs' by (split; [subst N'; by apply grown_array_ok|]; simpl; split_and!; [lia..|done|done]).
      apply (hand_some b' i Hs'). eauto. }
    destruct (decide (i < ui32TotalHandCount b)).
    + left. rewrite <- G1; [done|]. apply hand_some; [done|lia].
    + right. rewrite G2 in Hh by lia. split; [apply Hout; lia|congruence].
  - intros j c Hj. destruct (bcount_grown b n j b' c Hs eq_refl Hj) as [[_ Hb]|[Hge ->]].
    + by apply (q_blocks _ _ _ _ Hc).
    + rewrite nfree_all; [done|lia|]. intros i Hi. apply Hout. lia.
Qed.

Lemma wp_commit_purge o o2 b n N' L m km :
  pcore L (mk_hb o b) m km → (0 < n)%nat → N' = ui32TotalHandCount b + 256 * Z.of_nat n →
  N' ≤ ui32MaxIndexPlusOne b → os_live o2 = os_live o + 1 + Z.of_nat n →
  wp (realloc_commit (Some (grown_array b n)) (ui32TotalHandCount b) N') (λ _ st', pcore L st' m km ∧
      (plenty o2 → plenty (hb_os st')) ∧ ui32MaxIndexPlusOne (hb_base st') = ui32MaxIndexPlusOne b ∧
      ui32TotalHandCount (hb_base st') = N' ∧ ui32FirstFreeIndex (hb_base st') =
        if ui32FirstFreeIndex b =? 0 then ui32TotalHandCount b else ui32FirstFreeIndex b)
    (mk_hb o2 b).
Proof.
  intros Hc Hn HN' HM Hlv. pose proof (q_shape _ _ _ _ Hc) as Hs. simpl in Hs.
  pose proof Hs as (Ha&H0&Hmax&Hmm). pose proof (array_length _ _ Ha (proj1 H0)) as Hal.
  unfold realloc_commit. hb_steps. apply wp_mono with (Q := λ _ st', ∃ o', st' = mk_hb o' b ∧
    os_step (match psHandleArray b with Some _ => -1 | None => 0 end) o2 o').
  { destruct (psHandleArray b); [|apply wp_ret; eexists; split; [done|apply os_step_refl]].
    apply wp_on_os, wp_OSFreeMem. eexists. split; [done|]. by apply (os_step_free 0), os_step_refl. }
  intros _ st' (o'&->&[Hlo Hplo]). hb_steps. simpl.
  destruct (Z.gtb_spec N' (ui32TotalHandCount b)) as [_|]; [|lia].
  pose proof (q_purge _ _ _ _ Hc) as Hpu. pose proof (q_count _ _ _ _ Hc) as Hcn. simpl in Hpu, Hcn.
  pose proof (nfree_range m 0 (ui32TotalHandCount b) (proj1 H0)) as Hfr.
  hb_steps. simpl. rewrite (u32_small (ui32FreeHandCount b + _)), Hpu by (unfold is_u32; lia). simpl.
  apply wp_mono with (Q := λ _ st', st' = mk_hb o' (set_first
    (if ui32FirstFreeIndex b =? 0 then ui32TotalHandCount b else ui32FirstFreeIndex b)
    (set_count (ui32FreeHandCount b + (N' - ui32TotalHandCount b))
      (set_total N' (set_psHandleArray (Some (grown_array b n)) b))))).
  { destruct (_ =? 0); [by hb_steps|]. by wp_step. }
  intros _ st' ->. hb_steps. split_and!; try done.
  eapply pcore_resized; [exact Hc|by eapply grown_resized|].
  unfold array_blocks, grown_array, old_blocks in *. simpl.
  rewrite length_app, length_fmap, length_seq. destruct (psHandleArray b); simpl in *; lia.
Qed.

(** Where the search for a free slot starts, and that it will find one. *)
Definition may_search (st : hb_st) (m : gmap Z ent) : Prop :=
  let f := ui32FirstFreeIndex (hb_base st) in
  0 ≤ f ∧ f mod 256 = 0 ∧ f + 256 ≤ ui32TotalHandCount (hb_base st) ∧
  0 < nfree m f (ui32TotalHandCount (hb_base st) - f).

(** The outcome of making room. *)
Definition room_in (L : Z) (st : hb_st) (m : gmap Z ent) (km : gmap (list Z) Z) (r : PVRSRV_ERROR) (st' : hb_st) : Prop :=
  (plenty (hb_os st) → plenty (hb_os st')) ∧
  ui32MaxIndexPlusOne (hb_base st') = ui32MaxIndexPlusOne (hb_base st) ∧
  (r = PVRSRV_OK ∧ pcore L st' m km ∧ may_search st' m ∨
   r = PVRSRV_ERROR_OUT_OF_MEMORY ∧ pinv L st' m km ∧
     (ui32TotalHandCount (hb_base st) = ui32MaxIndexPlusOne (hb_base st) ∧
        nfree m 0 (ui32TotalHandCount (hb_base st)) = 0 ∨ ¬ plenty (hb_os st))).

Lemma shape_mod b : shape b → ui32TotalHandCount b mod 256 = 0.
Proof.
  intros (Ha&[H0 _]&_). rewrite (array_length _ _ Ha H0), Z.mul_comm. apply Z.mod_mul. lia.
Qed.

Lemma wp_ensure_one L st m km :
  pinv L st m km → wp (EnsureFreeHandles 1) (room_in L st m km) st.
Proof.
  intros [Hc Hf]. destruct st as [o b]. simpl in Hf. pose proof (q_shape _ _ _ _ Hc) as Hs. simpl in Hs.
  pose proof Hs as (Ha&H0&Hmax&_). pose proof (shape_mod _ Hs) as Hmod.
  pose proof (q_count _ _ _ _ Hc) as Hcn. simpl in Hcn.
  pose proof (nfree_range m 0 (ui32TotalHandCount b) (proj1 H0)) as Hfr.
  unfold EnsureFreeHandles. wp_step. apply wp_base. destruct (Z.gtb_spec 1 (ui32FreeHandCount b)) as [Hz|Hz].
  - apply wp_increase; [done|lia|..].
    + intros Hlim. split; [done|]. split; [done|]. right. split_and!; [done..|]. left. simpl. lia.
    + intros N' HN HNmod _. apply wp_realloc_up; [done..| |].
      * intros o2 n Hn HN' Hl2 Hp2. eapply wp_mono; [eapply (wp_commit_purge o o2 b n N' L m km); try done; lia|].
        intros [] st' (Hc'&Hp'&Hm'&HN''&Hf'). rewrite Hf in Hf'. simpl in Hf'. split; [auto|]. split; [done|]. left.
        split; [done|]. split; [done|]. unfold may_search. rewrite Hf', HN''.
        split_and!; [lia|done|lia|]. rewrite nfree_all; [lia|lia|]. intros i Hi.
        destruct (m !! i) eqn:Hm; [|done]. destruct (q_plain _ _ _ _ Hc _ _ Hm). simpl in *. lia.
      * intros o' Hl Hno. split; [done|]. split; [done|]. right. split_and!; [done| |by right].
        split; [|done]. destruct Hc. split; simpl in *; try done. lia.
  - apply wp_ret. split; [done|]. split; [done|]. left. split; [done|]. split; [done|].
    unfold may_search. simpl. rewrite Hf. split_and!; [lia|done| |rewrite Z.sub_0_r; lia].
    pose proof (Z.div_mod (ui32TotalHandCount b) 256). lia.
Qed.

(** ** Picking a slot *)

Lemma pcore_first L o b m km f : pcore L (mk_hb o b) m km → pcore L (mk_hb o (set_first f b)) m km.
Proof. by intros []. Qed.

Lemma wp_pick_purge L o b m km :
  pcore L (mk_hb o b) m km → may_search (mk_hb o b) m →
  wp pick_free (λ r st', ∃ i, r = (i, Some i) ∧ st' = mk_hb o (set_first 0 b) ∧
      0 ≤ i < ui32TotalHandCount b ∧ m !! i = None) (mk_hb o b).
Proof.
  intros Hc (Hf0&Hfm&HfN&Hfree). simpl in *. pose proof (q_shape _ _ _ _ Hc) as Hs. simpl in Hs.
  pose proof Hs as (_&H0&Hmax&_). pose proof (q_purge _ _ _ _ Hc) as Hpu. simpl in Hpu.
  unfold pick_free. hb_steps. rewrite Hpu. simpl. rewrite block_mask, Hfm, Z.sub_0_r by lia.
  pose proof (shape_mod _ Hs) as Hmod. rewrite block_index by lia.
  assert (ui32FirstFreeIndex b + 256 * Z.of_nat (Z.to_nat ((ui32TotalHandCount b - ui32FirstFreeIndex b) / 256)) =
    ui32TotalHandCount b) as HN.
  { apply Z.mod_divide in Hfm as [q Hq]; [|done]. apply Z.mod_divide in Hmod as [p Hp]; [|done].
    replace (ui32TotalHandCount b - ui32FirstFreeIndex b) with ((p - q) * 256) by lia.
    rewrite Z.div_mul by done. lia. }
  wp_step. eapply wp_mono; [by eapply wp_find_free|]. intros r st' [-> [(i&->&Hi&Hm)|[-> Hz]]]; [|lia].
  hb_steps. exists i. split_and!; [done|done|lia|lia|done].
Qed.
End grow.

(** ** Using a slot *)

Lemma plain_unbatched L st m km : pcore L st m km → HANDLES_BATCHED (hb_base st) = false.
Proof. intros Hc. unfold HANDLES_BATCHED. by rewrite (q_batch _ _ _ _ Hc). Qed.

(** One structure, its block's count and the number of free slots change. *)
Lemma pcore_slot L o b m km i h m' c d t o' km' :
  pcore L (mk_hb o b) m km → 0 ≤ i < ui32TotalHandCount b →
  (∀ j, j ≠ i → m' !! j = m !! j) → slot_is m' i h → (∀ e, m' !! i = Some e → plain e) →
  d = nfree m' 0 (ui32TotalHandCount b) → blocks_ok (set_block_count i c b) m' →
  hash_ok t km' → keyed m' km' →
  os_live o' = os_live o + Z.of_nat (size km') - Z.of_nat (size km) →
  pcore L (mk_hb o' (put_hand i h (set_block_count i c (set_count d (set_psHashTab t b))))) m' km'.
Proof.
  intros [Hs Hp Hsl Hcn Hbl _ _ Hpu Hb Hlv] Hi Hm Hsi Hpi -> Hbl' Ht Hk Hl. simpl in *.
  assert (shape (set_block_count i c (set_count (nfree m' 0 (ui32TotalHandCount b)) (set_psHashTab t b)))) as Hs1
    by (apply shape_count; exact Hs).
  assert (∀ j, hand_at (set_block_count i c (set_count (nfree m' 0 (ui32TotalHandCount b)) (set_psHashTab t b))) j =
    hand_at b j) as Hh1 by (intros j; rewrite hand_at_count by lia; by apply hand_at_arr).
  split; simpl; try done.
  - apply shape_put; [done|lia].
  - intros j e Hj. destruct (decide (j = i)) as [->|Hne]; [split; [by apply Hpi|lia]|].
    rewrite Hm in Hj by done. by apply Hp.
  - intros j h'. rewrite hand_at_put; [|done|rewrite Hh1; by apply hand_some].
    case_decide as Hji; [by intros [= <-]; subst j|]. rewrite Hh1. intros Hj.
    pose proof (Hsl _ _ Hj) as Hsj. unfold slot_is in *. by rewrite Hm.
  - intros j c0. rewrite bcount_put by lia. rewrite (bcount_arr _ (set_block_count i c b)) by done. apply Hbl'.
  - rewrite array_blocks_put, array_blocks_count. unfold array_blocks in *. simpl in *. lia.
Qed.

Lemma wp_take_plain data ty flag i hHandle h c o b :
  shape b → bPurgingEnabled b = true → HANDLES_BATCHED b = false → hand_at b i = Some h → ui32Index h = i →
  bcount b i = Some c → 0 < c ≤ 256 → 0 < ui32FreeHandCount b < 4294967296 →
  wp (take_slot i i;; init_slot data ty flag i hHandle) (λ r st', r = (PVRSRV_OK, hHandle) ∧
    st' = mk_hb o (put_hand i (inited data ty flag i b)
      (set_block_count i (c - 1) (set_count (ui32FreeHandCount b - 1) b)))) (mk_hb o b).
Proof.
  intros Hs Hpu Hnb Hh Hix Hbc Hc Hn. pose proof (shape_range _ _ _ Hs Hh).
  wp_step. unfold take_slot. hb_steps. rewrite (u32_small (_ - 1)) by (unfold is_u32; lia).
  eapply wp_add_count; [erewrite (bcount_arr _ b) by reflexivity; exact Hbc|].
  hb_steps. replace (c + -1) with (c - 1) by lia. rewrite (u32_small (c - 1)) by (unfold is_u32; lia). simpl. rewrite Hpu. simpl. wp_step.
  set (b1 := set_block_count _ _ _).
  assert (shape b1) as Hs1 by (apply shape_count; exact Hs).
  eapply wp_mono; [apply (wp_init_slot data ty flag i hHandle h); [done| |done]|].
  - unfold b1. rewrite hand_at_count by lia. etrans; [by apply (hand_at_arr _ b)|exact Hh].
  - intros r st' [-> ->]. split; [done|]. unfold inited.
    change (HANDLES_BATCHED b1) with (HANDLES_BATCHED b). by rewrite Hnb.
Qed.

(** ** [AllocHandle] *)

Lemma fresh_plain data ty flag : ty ≠ PVRSRV_HANDLE_TYPE_NONE → plain (fresh_ent data ty flag false).
Proof. by split. Qed.

Lemma pinv_hash L o b m km o' t' :
  pinv L (mk_hb o b) m km → hash_ok t' km → os_live o' = os_live o → pinv L (mk_hb o' (set_psHashTab t' b)) m km.
Proof. intros [[] Hf] Ht Ho. split; [|done]. split; simpl in *; try done. rewrite Ho. done. Qed.

Section alloc.
Context {heap : HeapContents}.

(** The outcome of [AllocHandle]. *)
Definition alloc_in (L : Z) (st : hb_st) (m : gmap Z ent) (km : gmap (list Z) Z) (e : ent)
    (r : PVRSRV_ERROR * Z) (st' : hb_st) : Prop :=
  (plenty (hb_os st) → plenty (hb_os st')) ∧
  ui32MaxIndexPlusOne (hb_base st') = ui32MaxIndexPlusOne (hb_base st) ∧
  ((∃ i, r = (PVRSRV_OK, i + 1) ∧ m !! i = None ∧ 0 ≤ i < ui32MaxIndexPlusOne (hb_base st) ∧
      pinv L st' (<[i := e]> m) (if e_hashed e then <[ent_key e := i + 1]> km else km)) ∨
   alloc_failure r.1 ∧ r.2 = IMG_NULL ∧ pinv L st' m km ∧
     (ui32TotalHandCount (hb_base st) = ui32MaxIndexPlusOne (hb_base st) ∧
        nfree m 0 (ui32TotalHandCount (hb_base st)) = 0 ∨ ¬ plenty (hb_os st))).

(** A free slot that was found is taken, its key being in the table. *)
Lemma wp_take_purge L o b m km i data ty flag hHandle o1 t1 :
  pinv L (mk_hb o b) m km → m !! i = None → 0 ≤ i < ui32TotalHandCount b → ty ≠ PVRSRV_HANDLE_TYPE_NONE →
  let e := fresh_ent data ty flag false in
  let km1 := if e_hashed e then <[ent_key e := i + 1]> km else km in
  (e_hashed e = true → km !! ent_key e = None) → hash_ok t1 km1 →
  os_live o1 = os_live o + Z.of_nat (size km1) - Z.of_nat (size km) →
  wp (take_slot i i;; init_slot data ty flag i hHandle) (λ r st', r = (PVRSRV_OK, hHandle) ∧
      hb_os st' = o1 ∧ ui32MaxIndexPlusOne (hb_base st') = ui32MaxIndexPlusOne b ∧
      pinv L st' (<[i := e]> m) km1) (mk_hb o1 (set_psHashTab t1 b)).
Proof.
  intros [Hc Hf] Hm Hi Hty e km1 Hnone Ht Hlv. pose proof (q_shape _ _ _ _ Hc) as Hs. simpl in *.
  pose proof Hs as (_&H0&Hmax&_). pose proof (q_count _ _ _ _ Hc) as Hcn. simpl in Hcn.
  destruct (proj2 (hand_some b i Hs) Hi) as [h Hh]. pose proof (q_slots _ _ _ _ Hc _ _ Hh) as Hsl.
  unfold slot_is in Hsl. rewrite Hm in Hsl. destruct Hsl as (_&_&Hix).
  destruct (bcount_some b i Hs Hi) as [c Hbc]. pose proof (q_blocks _ _ _ _ Hc _ _ Hbc) as Hcv.
  assert (0 < nfree m 0 (ui32TotalHandCount b)) as Hpos by (apply nfree_some; exists i; split; [lia|done]).
  pose proof (nfree_range m 0 (ui32TotalHandCount b) (proj1 H0)) as Hr.
  assert (0 < nfree m (256 * (i / 256)) 256) as Hposb.
  { apply nfree_some. exists i. split; [by apply block_of|done]. }
  pose proof (nfree_range m (256 * (i / 256)) 256 ltac:(lia)) as Hrb.
  eapply wp_mono; [apply (wp_take_plain data ty flag i hHandle h c o1 (set_psHashTab t1 b)); try done|].
  - apply (q_purge _ _ _ _ Hc).
  - exact (plain_unbatched _ _ _ _ Hc).
  - simpl. lia.
  - simpl. lia.
  - intros r st' [-> ->]. split_and!; [done..|]. split; [|done].
    rewrite Hcv. simpl. eapply pcore_slot; [exact Hc|done|..].
    + intros j Hj. by rewrite lookup_insert_ne.
    + unfold slot_is. rewrite lookup_insert_eq. split; [|done].
      pose proof (inited_slot data ty flag i (set_psHashTab t1 b) Hty) as Hso.
      replace (HANDLES_BATCHED (set_psHashTab t1 b)) with false in Hso; [exact Hso|].
      symmetry. exact (plain_unbatched _ _ _ _ Hc).
    + intros e'. rewrite lookup_insert_eq. intros [= <-]. by apply fresh_plain.
    + rewrite nfree_insert, decide_True by (done || lia). lia.
    + apply blocks_insert; [apply (q_blocks _ _ _ _ Hc)|lia|done].
    + exact Ht.
    + apply keyed_new; [apply (q_keyed _ _ _ _ Hc)|done|exact Hnone].
    + exact Hlv.
Qed.

Lemma wp_alloc_purge L st m km data ty flag :
  let e := fresh_ent data ty flag false in
  pinv L st m km → ty ≠ PVRSRV_HANDLE_TYPE_NONE →
  (e_hashed e = true → km !! ent_key e = None ∧ Z.of_nat (size km) < 134217728) →
  wp (AllocHandle data ty flag IMG_NULL) (alloc_in L st m km e) st.
Proof.
  intros e Hi Hty Hkm. unfold AllocHandle. wp_step.
  eapply wp_mono; [by apply wp_ensure_one|].
  intros r [o1 b1] (Hpl&Hmx&[(->&Hc1&Hms)|(->&Hi1&Hwhy)]); simpl in *.
  2:{ wp_step. split; [done|]. split; [done|]. right. split_and!; [by left|done..]. }
  pose proof (q_shape _ _ _ _ Hc1) as (_&HN1&Hmax1&_). simpl in *.
  wp_step. eapply wp_mono; [by eapply wp_pick_purge|]. intros r st' (i&->&->&Hir&Hm).
  rewrite INDEX_TO_HANDLE_succ by lia. set (b2 := set_first 0 b1).
  assert (pinv L (mk_hb o1 b2) m km) as Hi2 by (split; [by apply pcore_first|done]).
  change (negb (TEST_FLAG flag PVRSRV_HANDLE_ALLOC_FLAG_MULTI)) with (e_hashed e).
  assert (InitKey data ty IMG_NULL = ent_key e) as Hkey
    by (symmetry; exact (new_ent_key (mkSpec ∅ 0 0 0) data ty flag)).
  pose proof (q_hash _ _ _ _ (proj1 Hi2)) as (tab&Htab&Hrep&Hks). simpl in Htab.
  wp_step. destruct (e_hashed e) eqn:Heh.
  - destruct (Hkm Heh) as [Hnone Hsz]. rewrite Hkey. unfold on_hash. wp_step. simpl. rewrite Htab.
    eapply wp_mono; [apply (wp_insert_map tab km); [done| |done|done]|].
    { rewrite <- Hkey. by apply key_ok_handle. }
    intros ok s' (tab'&o2&->&Hrep'&Hsp&[Hl2 Hp2]&Hpl2). simpl.
    assert (hash_ok (Some tab') (if ok then <[ent_key e:=i + 1]> km else km)) as Hha2.
    { exists tab'. split_and!; [done..|]. destruct Hsp as [-> _]. done. }
    destruct ok; simpl.
    + wp_step. wp_step. fold (init_slot data ty flag i (i + 1)).
      eapply wp_mono; [eapply (wp_take_purge L o1 b2 m km i data ty flag (i + 1) o2 (Some tab') Hi2 Hm Hir Hty)|].
      * fold e. by rewrite Heh.
      * fold e. by rewrite Heh.
      * fold e. rewrite Heh, map_size_insert_None by done. lia.
      * fold e. rewrite Heh. intros r [o3 b3] (->&Ho&Hm3&Hi3). cbn [hb_os hb_base] in *. subst o3. split; [auto|].
        split; [simpl in *; congruence|]. left. exists i. rewrite Heh. split_and!; [done..|lia|lia|done].
    + wp_step. split; [auto|]. split; [done|]. right.
      split_and!; [by right|done|apply (pinv_hash L o1 b2 m km o2 (Some tab')); [exact Hi2|exact Hha2|lia]|].
      right. intros Hp. discriminate (Hpl2 (Hpl Hp)).
  - apply wp_ret. cbn [negb]. wp_step. wp_step. fold (init_slot data ty flag i (i + 1)).
    replace b2 with (set_psHashTab (psHashTab b2) b2) at 1 by (by destruct b1).
    eapply wp_mono; [eapply (wp_take_purge L o1 b2 m km i data ty flag (i + 1) o1 _ Hi2 Hm Hir Hty)|].
    + fold e. by rewrite Heh.
    + fold e. rewrite Heh. apply (q_hash _ _ _ _ (proj1 Hi2)).
    + fold e. rewrite Heh. lia.
    + fold e. rewrite Heh. intros r [o3 b3] (->&Ho&Hm3&Hi3). cbn [hb_os hb_base] in *. subst o3. split; [auto|].
      split; [simpl in *; congruence|]. left. exists i. rewrite Heh. split_and!; [done..|lia|lia|done].
Qed.
End alloc.
