(* ===== verification/HandleKernel.v ===== *)
(** * Handle tables: the kernel's own base

    The operations on a base with purging, against the abstract table of
    HandleApi.v and HandleSys.v; the life of the kernel's base, and its properties. *)

From S2P Require Import Prelude Hash Handle HandleRep HandleInv HandleOps HandleFree HandleAlloc HandleTake.
From S2P Require Import HandleApi HandleLook HandleLife HandleSys HandleProps HandlePurge.

(** [st], a base with purging, implements [s], [L] kernel blocks belonging to
    others. *)
Definition purge_ok (L : Z) (st : hb_st) (s : hspec) : Prop :=
  unbatched s ∧ sp_max s = ui32MaxIndexPlusOne (hb_base st) ∧ ∃ km, pinv L st (sp_handles s) km.

Lemma counted_unbatched d s : unbatched s → counted d s = s.
Proof. unfold counted, is_batched, unbatched. by intros ->. Qed.

Lemma result_unbatched s key flag mk ok_share r :
  unbatched s → alloc_result s key flag mk ok_share r (counted 1 s) → alloc_result s key flag mk ok_share r s.
Proof. intros Hu. by rewrite (counted_unbatched 1 s Hu). Qed.

Lemma purge_ok_handles L st st' s m km :
  purge_ok L st s → ui32MaxIndexPlusOne (hb_base st') = ui32MaxIndexPlusOne (hb_base st) →
  pinv L st' m km → purge_ok L st' (with_handles m s).
Proof. intros (Hu&Hm&_) Hx Hi. split; [done|]. split; [simpl; congruence|by exists km]. Qed.

Lemma wp_batch_fail_plain L st m km d Q :
  pcore L st m km → Q tt st → wp (batch_fail d) Q st.
Proof.
  intros Hc HQ. destruct st as [o b]. unfold batch_fail. hb_steps.
  rewrite (plain_unbatched _ _ _ _ Hc : HANDLES_BATCHED b = false). by wp_step.
Qed.

Lemma plain_hashed_ok L st m km : pcore L st m km → hashed_ok m.
Proof.
  intros Hc i e Hi. destruct (q_plain _ _ _ _ Hc _ _ Hi) as [[Hp Hb Hh Ht] _]. split.
  - rewrite Hh. by intros ->%negb_true_iff.
  - rewrite Hp. by intros [? ?].
Qed.

Lemma plain_live L st m km i e : pcore L st m km → m !! i = Some e → live m i e.
Proof. intros Hc Hi. split; [done|]. by apply (q_plain _ _ _ _ Hc _ _ Hi). Qed.

Section alloc.
Context {heap : HeapContents}.

(** ** [PVRSRVAllocHandle] *)

Definition kalloc_post (L : Z) (st : hb_st) (s : hspec) (key : list Z) (flag : Z) (mk : ent)
    (ok_share : ent → bool) (r : PVRSRV_ERROR * Z) (st' : hb_st) : Prop :=
  (∃ s', alloc_result s key flag mk ok_share r s' ∧ purge_ok L st' s') ∧
  (alloc_failure r.1 → full s ∨ ¬ plenty (hb_os st)) ∧
  (plenty (hb_os st) → plenty (hb_os st')).

Lemma wp_kalloc_new L st s km data ty flag (ok_share : ent → bool) :
  purge_ok L st s → pinv L st (sp_handles s) km → ty ≠ PVRSRV_HANDLE_TYPE_NONE →
  Z.of_nat (size (sp_handles s)) < 134217728 →
  (multi_flag flag = false → km !! InitKey data ty IMG_NULL = None ∧
     ∀ j e, ¬ key_entry (sp_handles s) (InitKey data ty IMG_NULL) j e) →
  wp ('(eError, hHandle) ← AllocHandle data ty flag IMG_NULL;
      (if is_OK eError then batch_fail (-1) else mret tt);;
      mret (eError, hHandle))
    (kalloc_post L st s (InitKey data ty IMG_NULL) flag (new_ent s data ty flag) ok_share) st.
Proof.
  intros Hok Hi Hty Hsz Hno. pose proof Hok as (Hu&Hmx&_).
  assert (fresh_ent data ty flag false = new_ent s data ty flag) as He.
  { unfold new_ent. unfold unbatched in Hu. unfold is_batched. by rewrite Hu. }
  pose proof (keyed_size _ _ (q_keyed _ _ _ _ (proj1 Hi))) as Hle.
  wp_step. eapply wp_mono; [apply (wp_alloc_purge L st _ km data ty flag Hi Hty)|].
  { rewrite He, new_ent_key. intros Hm%negb_true_iff. destruct (Hno Hm). split; [done|lia]. }
  rewrite He. intros [e h] st' (Hpl&Hmx'&[(i&[= -> ->]&Hm&Hir&Hi')|(Hf&Hr2&Hi'&Hwhy)]).
  - simpl. wp_step. eapply wp_batch_fail_plain; [apply Hi'|]. wp_step. split_and!; [|by intros [?|?]|done].
    eexists. split; [|by eapply purge_ok_handles]. apply alloc_new; [intros Hmu; by apply Hno|done|lia].
  - simpl in Hf, Hr2. subst h. assert (is_OK e = false) as -> by (by destruct Hf as [->| ->]).
    wp_step. wp_step. wp_step. split_and!; [|intros _|done].
    + exists s. split.
      * eapply result_unbatched; [done|]. apply alloc_fail; [intros Hmu; by apply Hno|done].
      * split; [done|]. split; [congruence|by exists km].
    + destruct Hwhy as [[HN Hz]|?]; [left|by right]. intros i Hir.
      destruct (sp_handles s !! i) eqn:Hm; [eauto|].
      assert (0 < nfree (sp_handles s) 0 (ui32TotalHandCount (hb_base st))); [|lia].
      apply nfree_some. exists i. split; [lia|done].
Qed.

Theorem wp_kalloc L st s data ty flag :
  purge_ok L st s → ty ≠ PVRSRV_HANDLE_TYPE_NONE → Z.of_nat (size (sp_handles s)) < 134217728 →
  wp (PVRSRVAllocHandle data ty flag)
    (kalloc_post L st s (InitKey data ty IMG_NULL) flag (new_ent s data ty flag) (λ e, is_shared e flag)) st.
Proof.
  intros Hok Hty Hsz. pose proof Hok as (Hu&Hmx&km&Hi). pose proof (proj1 Hi) as Hc.
  unfold PVRSRVAllocHandle. wp_step. eapply wp_batch_fail_plain; [done|].
  change (TEST_FLAG flag PVRSRV_HANDLE_ALLOC_FLAG_MULTI) with (multi_flag flag).
  destruct (multi_flag flag) eqn:Hmu; simpl.
  { wp_step. apply wp_ret. simpl. by eapply wp_kalloc_new; [..|congruence]. }
  wp_step. eapply wp_find_keyed; [apply Hc|apply Hc| |..].
  - intros i [e He]. pose proof (proj2 (q_plain _ _ _ _ Hc _ _ He)). lia.
  - intros i e Hke _ Hi0. destruct (key_live _ _ _ _ _ _ _ (plain_hashed_ok _ _ _ _ Hc) Hke eq_refl) as [Hlv Hte].
    rewrite (proj2 (Z.eqb_neq (i + 1) IMG_NULL)) by (unfold IMG_NULL; lia). simpl.
    pose proof (pcore_readable _ _ _ _ Hc) as Hrd. destruct (rd_slot _ _ Hrd _ _ (proj1 Hlv)) as (h&Hh&Hso).
    pose proof (q_shape _ _ _ _ Hc) as (_&HN&Hmax&_).
    wp_step. eapply wp_get_readable; [exact Hrd|]. simpl.
    rewrite (get_spec_live _ _ _ _ _ Hlv) by (by right || lia || apply (q_plain _ _ _ _ Hc _ _ (proj1 Hlv))). simpl.
    destruct st as [o b]. wp_step. eapply wp_struct; [exact Hh|]. rewrite (so_flag _ _ _ Hso). fold (is_shared e flag).
    destruct (is_shared e flag) eqn:Hsh.
    + wp_step. eapply wp_batch_fail_plain; [done|]. wp_step. split_and!; [|by intros [?|?]|done].
      eexists. split; [by eapply alloc_shared|done].
    + wp_step. split_and!; [|by intros [?|?]|done]. exists s. split; [|done].
      eapply result_unbatched; [done|]. by eapply alloc_refused.
  - intros Hnone Hno. simpl. by eapply wp_kalloc_new.
Qed.
End alloc.

(** ** Releasing *)

Lemma put_count i h c b : put_hand i h (set_block_count i c b) = set_block_count i c (put_hand i h b).
Proof.
  unfold put_hand, set_block_count, set_index, set_psHandleArray. simpl. f_equal.
  destruct (psHandleArray b) as [a|]; [|done]. simpl. f_equal.
  apply list_eq. intros k. rewrite !list_lookup_alter.
  destruct (decide _) as [Hd|Hd]; [|by rewrite ?decide_False]. rewrite ?decide_True by done. subst k.
  by destruct (a !! _).
Qed.

(** The end of [FreeHandle]. *)
Lemma wp_finish_purge o b i h c :
  shape b → bPurgingEnabled b = true → hand_at b i = Some h → eInternalFlag h = INTERNAL_HANDLE_FLAG_NONE →
  bcount b i = Some c → 0 ≤ c < 256 → 0 ≤ ui32FreeHandCount b < 4294967295 →
  wp (finish i i) (λ r st', r = PVRSRV_OK ∧ st' = mk_hb o (put_hand i (set_eType PVRSRV_HANDLE_TYPE_NONE h)
    (set_block_count i (c + 1) (set_count (ui32FreeHandCount b + 1) b)))) (mk_hb o b).
Proof.
  intros Hs Hpu Hh Hfl Hbc Hc Hn. pose proof (shape_range _ _ _ Hs Hh). unfold finish.
  set (h1 := set_eType PVRSRV_HANDLE_TYPE_NONE h).
  wp_step. eapply wp_upd_handle; [done|]. fold h1.
  wp_step. eapply wp_struct; [by rewrite hand_at_put, decide_True by eauto|].
  assert (BATCHED_HANDLE h1 = false) as ->.
  { unfold BATCHED_HANDLE, h1. simpl. by rewrite Hfl. }
  cbn [andb]. unfold free_slot. hb_steps. simpl. rewrite Hpu. simpl. hb_steps.
  rewrite (u32_small (_ + 1)) by (unfold is_u32; lia).
  eapply wp_add_count; [erewrite (bcount_arr _ (put_hand i h1 b)) by reflexivity; rewrite bcount_put by lia; exact Hbc|].
  rewrite (u32_small (c + 1)) by (unfold is_u32; lia). wp_step. split; [done|].
  by rewrite put_count.
Qed.

Lemma keyed_free m km i e :
  keyed m km → m !! i = Some e → keyed (delete i m) (if e_hashed e then delete (ent_key e) km else km).
Proof.
  intros Hk Hi. rewrite <- (delete_insert_eq m i (half e)).
  eapply keyed_delete; [by apply keyed_half|apply lookup_insert_eq|done].
Qed.

Lemma free_size m km i e :
  keyed m km → m !! i = Some e → e_hashed e = true → km !! ent_key e = Some (i + 1).
Proof. intros Hk Hi He. apply Hk. eauto 10. Qed.

(** The structure of a used slot: no parent and no children. *)
Lemma used_hand L st m km i e :
  pcore L st m km → m !! i = Some e → ∃ h, hand_at (hb_base st) i = Some h ∧ slot_ok i e h ∧
    sChildren h = mkHandleList i i (i + 1) ∧ sSiblings h = mkHandleList i i 0.
Proof.
  intros Hc Hi. pose proof (q_plain _ _ _ _ Hc _ _ Hi) as [Hp Hr].
  destruct (proj2 (hand_some _ i (q_shape _ _ _ _ Hc)) Hr) as [h Hh]. exists h.
  pose proof (q_slots _ _ _ _ Hc _ _ Hh) as Hs. unfold slot_is in Hs. rewrite Hi in Hs. destruct Hs as [Hso ?].
  split_and!; try done. by apply (so_root _ _ _ Hso), Hp.
Qed.

Definition free_in (L : Z) (st : hb_st) (m : gmap Z ent) (i : Z) (st' : hb_st) : Prop :=
  (plenty (hb_os st) → plenty (hb_os st')) ∧
  ui32MaxIndexPlusOne (hb_base st') = ui32MaxIndexPlusOne (hb_base st) ∧
  ui32TotalHandCount (hb_base st') = ui32TotalHandCount (hb_base st) ∧
  ∃ km, pinv L st' (delete i m) km.

(** The slot freed after its key was removed. *)
Lemma wp_finish_pinv L o b m km i e t1 o1 :
  pinv L (mk_hb o b) m km → m !! i = Some e →
  let km1 := if e_hashed e then delete (ent_key e) km else km in
  hash_ok t1 km1 → os_live o1 = os_live o + Z.of_nat (size km1) - Z.of_nat (size km) → (plenty o → plenty o1) →
  wp (finish i i) (λ r st', r = PVRSRV_OK ∧ free_in L (mk_hb o b) m i st') (mk_hb o1 (set_psHashTab t1 b)).
Proof.
  intros [Hc Hf] Hm km1 Ht Hlv Hpl. pose proof (q_shape _ _ _ _ Hc) as Hs. simpl in *.
  pose proof Hs as (_&H0&Hmax&_). pose proof (q_count _ _ _ _ Hc) as Hcn. simpl in Hcn.
  pose proof (q_plain _ _ _ _ Hc _ _ Hm) as [Hp Hir]. simpl in Hir.
  destruct (used_hand _ _ _ _ _ _ Hc Hm) as (h&Hh&Hso&_&_). simpl in Hh.
  destruct (bcount_some b i Hs Hir) as [c Hbc]. pose proof (q_blocks _ _ _ _ Hc _ _ Hbc) as Hcv.
  assert (∀ a n, 0 ≤ n → a ≤ i < a + n → nfree m a n < n) as Hlt.
  { intros a n Hn Han. pose proof (nfree_range m a n Hn). pose proof (nfree_full m a n Hn) as Hfull.
    destruct (decide (nfree m a n = n)) as [He|]; [|lia]. rewrite (Hfull He i Han) in Hm. done. }
  pose proof (Hlt (256 * (i / 256)) 256 ltac:(lia) (proj2 (block_of i i) eq_refl)) as Hb1.
  pose proof (nfree_range m (256 * (i / 256)) 256 ltac:(lia)).
  pose proof (nfree_range m 0 (ui32TotalHandCount b) (proj1 H0)).
  eapply wp_mono; [apply (wp_finish_purge o1 (set_psHashTab t1 b) i h c); try done|].
  - apply (q_purge _ _ _ _ Hc).
  - rewrite (so_iflag _ _ _ Hso). unfold iflag. by rewrite is_NONE_false, (pl_batched _ Hp) by apply Hp.
  - lia.
  - simpl. lia.
  - intros r st' [-> ->]. split; [done|]. split; [exact Hpl|]. split; [done|]. split; [done|].
    exists km1. split; [|done]. rewrite Hcv. simpl. eapply pcore_slot; [exact Hc|done|..].
    + intros j Hj. by rewrite lookup_delete_ne.
    + unfold slot_is. rewrite lookup_delete_eq. split; [done|]. split; [|apply (so_index _ _ _ Hso)].
      simpl. rewrite (so_iflag _ _ _ Hso). unfold iflag. by rewrite is_NONE_false, (pl_batched _ Hp) by apply Hp.
    + intros e'. by rewrite lookup_delete_eq.
    + erewrite nfree_delete, decide_True by (done || lia). lia.
    + eapply blocks_delete; [apply (q_blocks _ _ _ _ Hc)|lia|done].
    + exact Ht.
    + apply keyed_free; [apply (q_keyed _ _ _ _ Hc)|done].
    + exact Hlv.
Qed.

Lemma wp_free_plain L st m km i e :
  pinv L st m km → m !! i = Some e →
  wp (FreeHandle i) (λ r st', r = PVRSRV_OK ∧ free_in L st m i st') st.
Proof.
  intros Hi Hm. pose proof (proj1 Hi) as Hc. destruct st as [o b]. pose proof (q_plain _ _ _ _ Hc _ _ Hm) as [Hp Hir].
  simpl in Hir. destruct (used_hand _ _ _ _ _ _ Hc Hm) as (h&Hh&Hso&Hch&Hsib). simpl in Hh.
  pose proof (q_shape _ _ _ _ Hc) as Hs. simpl in Hs. pose proof (shape_range _ _ _ Hs Hh).
  destruct (slot_flags _ _ _ Hso) as (_&Hpf&Hmu).
  assert (InitKey (pvData h) (eType h) (ParentIfPrivate h) = ent_key e) as Hkey.
  { unfold ent_key, ParentIfPrivate, TEST_ALLOC_FLAG, ParentHandle.
    by rewrite (so_data _ _ _ Hso), (so_type _ _ _ Hso), (so_flag _ _ _ Hso), (so_parent _ _ _ Hso). }
  unfold FreeHandle. hb_steps. simpl. destruct (Z.to_nat (ui32TotalHandCount b)) as [|n] eqn:Hn; [lia|].
  cbn [free_handle]. wp_step. eapply wp_struct; [exact Hh|]. cbv zeta. rewrite Hkey, Hpf, Hmu.
  rewrite is_NONE_false, andb_true_r, <- (pl_hashed _ Hp) by apply Hp.
  wp_step. apply wp_mono with (Q := λ _ st', ∃ o1 t1, st' = mk_hb o1 (set_psHashTab t1 b) ∧
    let km1 := if e_hashed e then delete (ent_key e) km else km in hash_ok t1 km1 ∧
    os_live o1 = os_live o + Z.of_nat (size km1) - Z.of_nat (size km) ∧ (plenty o → plenty o1)).
  { destruct (e_hashed e) eqn:Heh.
    - wp_step. rewrite <- Hkey. eapply wp_mono; [apply (wp_hash_remove _ _ _ km), (q_hash _ _ _ _ Hc)|].
      intros _ st' (o1&t1&->&Ht&[Hl Hpl]). wp_step. rewrite Hkey in *. eexists _, _. split; [done|]. simpl.
      split; [done|]. split; [|done]. pose proof (free_size _ _ _ _ (q_keyed _ _ _ _ Hc) Hm Heh) as Hk.
      rewrite Hk in Hl. rewrite map_size_delete, Hk.
      assert (size km ≠ 0%nat); [|lia]. intros Hz%map_size_empty_inv. subst km. by rewrite lookup_empty in Hk.
    - wp_step. exists o, (psHashTab b). split; [by destruct b|]. simpl. split; [apply (q_hash _ _ _ _ Hc)|].
      split; [lia|done]. }
  intros _ st' (o1&t1&->&Ht&Hl&Hpl). set (b1 := set_psHashTab t1 b).
  assert (hand_at b1 i = Some h) as Hh1 by (etrans; [by apply (hand_at_arr _ b)|exact Hh]).
  wp_step. unfold UnlinkFromParent. wp_step. eapply wp_struct; [exact Hh1|]. rewrite (so_index _ _ _ Hso).
  unfold HandleListRemove. wp_step. eapply wp_struct; [exact Hh1|]. unfold HandleListIsEmpty. rewrite Hsib. simpl.
  rewrite Z.eqb_refl. wp_step. wp_step. unfold IterateOverChildren. wp_step. eapply wp_struct; [exact Hh1|].
  unfold HandleListIterate. hb_steps. rewrite Hch. simpl. rewrite HANDLE_TO_INDEX_succ, Hn by done. cbn [iterate_list].
  rewrite Z.eqb_refl. wp_step. cbn [is_OK negb].
  change (wp (finish i i) (λ r st', r = PVRSRV_OK ∧ free_in L (mk_hb o b) m i st') (mk_hb o1 b1)).
  by eapply wp_finish_pinv.
Qed.

Lemma plain_freed L st m km i e : pcore L st m km → m !! i = Some e → freed m (desc m i) (delete i m).
Proof.
  intros Hc Hi j. assert (desc m i j → j = i) as Hd.
  { inversion 1 as [|? e' p Hj Hp _]; [done|]. subst. exfalso.
    by rewrite (pl_parent _ (proj1 (q_plain _ _ _ _ Hc _ _ Hj))) in Hp. }
  split.
  - intros ->%Hd. rewrite lookup_delete_eq, Hi. simpl. unfold dead.
    by rewrite (pl_batched _ (proj1 (q_plain _ _ _ _ Hc _ _ Hi))).
  - intros Hn. rewrite lookup_delete_ne; [done|]. intros ->. apply Hn. constructor.
Qed.

Definition krelease_post (L : Z) (st : hb_st) (s : hspec) (h : Z) (ty : PVRSRV_HANDLE_TYPE)
    (r : PVRSRV_ERROR) (st' : hb_st) : Prop :=
  let g := get_spec (sp_handles s) (ui32TotalHandCount (hb_base st)) h ty in
  r = g.1 ∧ (plenty (hb_os st) → plenty (hb_os st')) ∧
  if is_OK g.1 then purge_ok L st' (with_handles (delete g.2 (sp_handles s)) s) else st' = st.

Lemma wp_krelease_at L st s i e :
  purge_ok L st s → sp_handles s !! i = Some e →
  wp (FreeHandle i) (λ r st', r = PVRSRV_OK ∧ (plenty (hb_os st) → plenty (hb_os st')) ∧
      purge_ok L st' (with_handles (delete i (sp_handles s)) s)) st.
Proof.
  intros Hok Hi. pose proof Hok as (_&_&km&Hinv).
  eapply wp_mono; [by eapply wp_free_plain|]. intros r st' (->&Hpl&Hmx&_&km'&Hinv'). split_and!; [done..|].
  by eapply purge_ok_handles.
Qed.

Theorem wp_krelease L st s h ty :
  purge_ok L st s → wp (PVRSRVReleaseHandle h ty) (krelease_post L st s h ty) st.
Proof.
  intros Hok. pose proof Hok as (_&_&km&Hi&_). pose proof (pcore_readable _ _ _ _ Hi) as Hrd.
  unfold PVRSRVReleaseHandle, krelease_post. wp_step. eapply wp_get_readable; [exact Hrd|].
  destruct (get_spec _ _ h ty) as [err i] eqn:Hg. simpl. destruct (is_OK err) eqn:He; simpl; [|by wp_step].
  apply is_OK_true in He as ->. apply get_spec_ok in Hg as (_&_&e&Hlv&_).
  eapply wp_mono; [eapply wp_krelease_at; [done|apply Hlv]|]. done.
Qed.

Theorem wp_ktake L st s h ty :
  purge_ok L st s → wp (PVRSRVLookupAndReleaseHandle h ty) (λ r st',
    krelease_post L st s h ty r.1 st' ∧
    r.2 = (lookup_spec e_data (sp_handles s) (ui32TotalHandCount (hb_base st)) h ty).2) st.
Proof.
  intros Hok. pose proof Hok as (_&_&km&Hi&_). pose proof (pcore_readable _ _ _ _ Hi) as Hrd.
  unfold PVRSRVLookupAndReleaseHandle, krelease_post, lookup_spec. wp_step. eapply wp_get_readable; [exact Hrd|].
  destruct (get_spec _ _ h ty) as [err i] eqn:Hg. simpl. destruct (is_OK err) eqn:He; simpl; [|by wp_step].
  apply is_OK_true in He as ->. apply get_spec_ok in Hg as (_&_&e&Hlv&_).
  destruct (rd_slot _ _ Hrd _ _ (proj1 Hlv)) as (hs&Hh&Hso).
  wp_step. destruct st as [o b]. eapply wp_struct; [exact Hh|].
  wp_step. eapply wp_mono; [eapply wp_krelease_at; [done|apply Hlv]|]. intros r st' [-> Hr]. wp_step.
  split; [done|]. rewrite (proj1 Hlv). simpl. by rewrite (so_data _ _ _ Hso).
Qed.

(** ** Giving memory back *)

Section purge.
Context {heap : HeapContents}.

Definition shrunk_array (a : list sHandleIndex) (N' : Z) : option (list sHandleIndex) :=
  if N' =? 0 then None else Some (take (Z.to_nat (N' / 256)) a).

(** The base with the slots from [N'] on given up. *)
Definition shrunk (b : PVRSRV_HANDLE_BASE) (a : list sHandleIndex) (N' : Z) : PVRSRV_HANDLE_BASE :=
  let b' := set_count (ui32FreeHandCount b - (ui32TotalHandCount b - N'))
              (set_total N' (set_psHandleArray (shrunk_array a N') b)) in
  if N' =? 0 then set_last 0 (set_first 0 b') else b'.

Lemma shrunk_fields b a N' :
  psHandleArray (shrunk b a N') = shrunk_array a N' ∧ ui32TotalHandCount (shrunk b a N') = N' ∧
  ui32FreeHandCount (shrunk b a N') = ui32FreeHandCount b - (ui32TotalHandCount b - N') ∧
  ui32MaxIndexPlusOne (shrunk b a N') = ui32MaxIndexPlusOne b ∧ psHashTab (shrunk b a N') = psHashTab b ∧
  bPurgingEnabled (shrunk b a N') = bPurgingEnabled b ∧ ui32HandBatchSize (shrunk b a N') = ui32HandBatchSize b.
Proof. unfold shrunk. destruct (N' =? 0); by split_and!. Qed.

Lemma shrunk_index b a N' i ix :
  psHandleArray b = Some a → N' mod 256 = 0 → 0 ≤ N' →
  index_at (shrunk b a N') i = Some ix → index_at b i = Some ix ∧ 0 ≤ i < N'.
Proof.
  intros Ha Hmod HN. rewrite !index_at_alt, Ha. destruct (shrunk_fields b a N') as (->&_).
  destruct (Z.ltb_spec i 0); [done|]. unfold shrunk_array. destruct (Z.eqb_spec N' 0); [done|]. simpl.
  intros Hix. apply lookup_take_Some in Hix as [Hix Hlt]. split; [done|]. split; [done|].
  pose proof (Z.div_mod N' 256 ltac:(lia)). pose proof (Z.div_mod i 256 ltac:(lia)).
  pose proof (Z.mod_pos_bound i 256 ltac:(lia)). pose proof (Z.div_pos i 256). lia.
Qed.

Lemma shrunk_resized L o b m km a N' :
  pcore L (mk_hb o b) m km → psHandleArray b = Some a → 0 ≤ N' ≤ ui32TotalHandCount b → N' mod 256 = 0 →
  (∀ i, N' ≤ i < ui32TotalHandCount b → m !! i = None) → resized b (shrunk b a N') m.
Proof.
  intros Hc Ha HN Hmod Hfree. pose proof (q_shape _ _ _ _ Hc) as Hs. simpl in Hs.
  pose proof Hs as (Har&H0&Hmax&Hmm). pose proof Har as Har'. rewrite Ha in Har'. destruct Har' as (_&Hlen&Hall).
  destruct (shrunk_fields b a N') as (F1&F2&F3&F4&F5&F6&F7).
  pose proof (q_count _ _ _ _ Hc) as Hcn. simpl in Hcn.
  split; try done.
  - unfold shape. rewrite F1, F2, F4. split; [|split_and!; [lia..|done|done]].
    unfold shrunk_array. destruct (Z.eqb_spec N' 0); [done|]. split; [done|]. split; [|by apply Forall_take].
    rewrite length_take. pose proof (Z.div_mod N' 256 ltac:(lia)).
    pose proof (Z.div_le_mono N' (ui32TotalHandCount b) 256 ltac:(lia) ltac:(lia)) as Hle.
    rewrite Hlen, Z.mul_comm, Z.div_mul in Hle by done. pose proof (Z.div_pos N' 256). lia.
  - rewrite F2, F3, Hcn. replace (ui32TotalHandCount b) with (N' + (ui32TotalHandCount b - N')) at 1 by lia.
    rewrite nfree_app, (nfree_all m (0 + N')) by (lia || (intros; apply Hfree; lia)). lia.
  - intros i e Hi. rewrite F2. pose proof (q_plain _ _ _ _ Hc _ _ Hi) as [_ Hr]. simpl in Hr.
    destruct (decide (i < N')); [done|]. rewrite Hfree in Hi by lia. done.
  - intros i h. unfold hand_at. destruct (index_at (shrunk b a N') i) as [ix|] eqn:Hix; [|done]. intros Hh. left.
    apply shrunk_index in Hix as [-> _]; [done|done|done|lia].
  - intros i c. unfold bcount. intros (ix&Hix&->)%fmap_Some. apply shrunk_index in Hix as [Hix _]; [|done|done|lia].
    apply (q_blocks _ _ _ _ Hc). unfold bcount. simpl. by rewrite Hix.
Qed.

Lemma granted_drop N a k : array_ok N (Some a) → granted (drop k a) = Z.of_nat (length a - k).
Proof.
  intros (_&_&Ha). rewrite <- length_drop. unfold granted. do 2 f_equal.
  apply (Forall_drop _ k) in Ha. induction Ha as [|ix l (blk&Hb&_) _ IH]; [done|].
  rewrite filter_cons_True by (rewrite Hb; eauto). by rewrite IH.
Qed.

Lemma wp_realloc_down o b a N' (Q : PVRSRV_ERROR → hb_st → Prop) :
  shape b → psHandleArray b = Some a → bPurgingEnabled b = true → 0 ≤ N' < ui32TotalHandCount b → N' mod 256 = 0 →
  ui32TotalHandCount b - N' ≤ ui32FreeHandCount b < 4294967296 →
  (∀ o', os_live o' = os_live o + array_blocks (shrunk b a N') - array_blocks b → (plenty o → plenty o') →
     Q PVRSRV_OK (mk_hb o' (shrunk b a N'))) →
  (∀ o', os_live o' = os_live o → ¬ plenty o → Q PVRSRV_ERROR_OUT_OF_MEMORY (mk_hb o' b)) →
  wp (ReallocHandleArray N') Q (mk_hb o b).
Proof.
  intros Hs Ha Hpu HN Hmod Hcnt HQ1 HQ2. pose proof Hs as (Har&H0&Hmax&Hmm).
  pose proof (shape_mod _ Hs) as Hm0. rewrite Ha in Har. pose proof Har as (_&Hlen&_).
  unfold ReallocHandleArray, HANDLE_BLOCK_SIZE. wp_step. apply wp_base.
  rewrite (proj2 (Z.eqb_neq N' _)) by lia. rewrite Hpu, andb_false_r, Hm0, Hmod. cbn [andb negb orb Z.eqb].
  set (k := Z.to_nat (N' / 256)).
  assert ((k ≤ length a)%nat ∧ N' = 256 * Z.of_nat k) as [Hk HNk].
  { pose proof (Z.div_mod N' 256 ltac:(lia)). pose proof (Z.div_pos N' 256). unfold k. lia. }
  wp_step. apply wp_mono with (Q := λ ok st', ∃ o1, st' = mk_hb o1 b ∧
    os_live o1 = os_live o + (if ok && negb (N' =? 0) then 1 else 0) ∧ (plenty o → ok = true ∧ plenty o1)).
  { destruct (Z.eqb_spec N' 0); cbn [negb].
    - wp_step. exists o. split; [done|]. split; [simpl; lia|done].
    - apply wp_on_os, wp_OSAllocMem. intros ok o1 Hl Hp. exists o1. rewrite andb_true_r. done. }
  intros ok st' (o1&->&Hl1&Hp1). destruct ok; cbn [negb andb] in *.
  2:{ wp_step. apply HQ2; [lia|by intros []%Hp1]. }
  wp_step. apply wp_mono with (Q := λ old st', old = a ∧ st' = mk_hb o1 b).
  { rewrite (proj2 (Z.eqb_neq (ui32TotalHandCount b) 0)) by lia. rewrite Ha. by wp_step. }
  intros old st' [-> ->]. rewrite (proj2 (Z.ltb_lt N' _)) by lia. rewrite !block_index by lia. fold k.
  wp_step. apply wp_on_os. eapply wp_mono; [apply wp_free_blocks|]. intros _ o2 [Hl2 Hp2].
  rewrite (granted_drop _ _ k Har) in Hl2.
  assert (Z.to_nat (N' / 256 - ui32TotalHandCount b / 256) = 0%nat) as ->.
  { pose proof (Z.div_le_mono N' (ui32TotalHandCount b) 256 ltac:(lia) ltac:(lia)). lia. }
  wp_step. apply wp_on_os. cbn [alloc_blocks]. wp_step. cbn [is_OK negb]. wp_step.
  assert (Z.to_nat (HANDLE_ARRAY_SIZE (Z.min N' (ui32TotalHandCount b))) = k) as ->
    by (rewrite Z.min_l, array_size by lia; done).
  rewrite app_nil_r. fold (shrunk_array a N').
  change (if N' =? 0 then None else Some (take k a)) with (shrunk_array a N').
  unfold realloc_commit. hb_steps. rewrite Ha. apply wp_on_os, wp_OSFreeMem. hb_steps. simpl.
  destruct (Z.gtb_spec N' (ui32TotalHandCount b)) as [|_]; [lia|]. hb_steps.
  rewrite u32_small by (unfold is_u32; lia).
  match goal with |- context [mk_hb ?o3 _] => assert (Q PVRSRV_OK (mk_hb o3 (shrunk b a N'))) as HQ end.
  { apply HQ1; [|intros Hp; simpl; by apply Hp2, Hp1]. simpl. unfold array_blocks.
    destruct (shrunk_fields b a N') as (->&_). rewrite Ha. unfold shrunk_array in *.
    destruct (N' =? 0) eqn:Hz; simpl in *; [apply Z.eqb_eq in Hz|fold k; rewrite length_take]; lia. }
  unfold shrunk in HQ. destruct (N' =? 0); hb_steps; exact HQ.
Qed.

(** How many blocks are left without the trailing free ones. *)
Lemma wp_purge_blocks L o b m km n :
  pcore L (mk_hb o b) m km → 256 * Z.of_nat n ≤ ui32TotalHandCount b →
  wp (purge_blocks n) (λ k st', st' = mk_hb o b ∧ (k ≤ n)%nat ∧
      (∀ i, 256 * Z.of_nat k ≤ i < 256 * Z.of_nat n → m !! i = None) ∧
      (k ≠ 0%nat → ∃ i, 256 * (Z.of_nat k - 1) ≤ i < 256 * Z.of_nat k ∧ is_Some (m !! i))) (mk_hb o b).
Proof.
  intros Hc. induction n as [|n IH]; intros HN; cbn [purge_blocks].
  { wp_step. split_and!; [done|lia|lia|done]. }
  destruct (bcount_some b (256 * Z.of_nat n) (q_shape _ _ _ _ Hc) ltac:(simpl; lia)) as [c Hbc].
  pose proof (q_blocks _ _ _ _ Hc _ _ Hbc) as Hcv. rewrite (Z.mul_comm 256 (Z.of_nat n)), Z.div_mul in Hcv by done.
  unfold bcount in Hbc. apply fmap_Some in Hbc as (ix&Hix&->). rewrite index_at_alt in Hix.
  rewrite (proj2 (Z.ltb_ge _ _)), (Z.mul_comm 256), Z.div_mul, Nat2Z.id in Hix by lia.
  hb_steps. rewrite Hix. wp_step. rewrite Hcv. unfold HANDLE_BLOCK_SIZE.
  destruct (Z.eqb_spec (nfree m (256 * Z.of_nat n) 256) 256) as [Hall|Hne]; cbn [negb].
  - eapply wp_mono; [apply IH; lia|]. intros k st' (->&Hk&Hfree&Hused). split_and!; [done|lia| |done].
    intros i Hi. destruct (decide (i < 256 * Z.of_nat n)); [apply Hfree; lia|].
    apply (nfree_full m (256 * Z.of_nat n) 256); [lia|done|lia].
  - wp_step. split_and!; [done|lia|intros i; lia|]. intros _.
    destruct (decide (Exists (λ i, is_Some (m !! i)) (seqZ (256 * Z.of_nat n) 256))) as [Hex|Hno].
    + apply Exists_exists in Hex as (i&Hi%elem_of_seqZ&?). exists i. split; [lia|done].
    + exfalso. apply Hne, nfree_all; [lia|]. intros i Hi. destruct (m !! i) eqn:Hm; [|done].
      exfalso. apply Hno, Exists_exists. exists i. split; [by apply elem_of_seqZ|by eexists].
Qed.

(** [K] ends the last block with a used slot, of the blocks of [N] slots. *)
Definition used_end (m : gmap Z ent) (N K : Z) : Prop :=
  0 ≤ K ≤ N ∧ K mod 256 = 0 ∧ (∀ i, K ≤ i < N → m !! i = None) ∧
  (K ≠ 0 → ∃ i, K - 256 ≤ i < K ∧ is_Some (m !! i)).

(** What is left of the array: its used blocks if they are at most half of it,
    and all of it otherwise. *)
Definition trimmed (m : gmap Z ent) (N N' : Z) : Prop :=
  ∃ K, used_end m N K ∧ N' = if K <=? N / 2 then K else N.

Lemma wp_purge L st m km :
  pinv L st m km →
  wp PVRSRVPurgeHandles (λ r st', pinv L st' m km ∧ (plenty (hb_os st) → plenty (hb_os st')) ∧
      ui32MaxIndexPlusOne (hb_base st') = ui32MaxIndexPlusOne (hb_base st) ∧
      (r = PVRSRV_OK ∧ trimmed m (ui32TotalHandCount (hb_base st)) (ui32TotalHandCount (hb_base st')) ∨
       r = PVRSRV_ERROR_OUT_OF_MEMORY ∧ hb_base st' = hb_base st ∧ ¬ plenty (hb_os st))) st.
Proof.
  intros [Hc Hf]. destruct st as [o b]. simpl in Hf. pose proof (q_shape _ _ _ _ Hc) as Hs. simpl in Hs.
  pose proof Hs as (Har&H0&Hmax&_). pose proof (shape_mod _ Hs) as Hm0.
  pose proof (q_purge _ _ _ _ Hc) as Hpu. simpl in Hpu.
  unfold PVRSRVPurgeHandles. hb_steps. rewrite Hpu. cbn [negb].
  rewrite (plain_unbatched _ _ _ _ Hc : HANDLES_BATCHED b = false). rewrite block_index by lia.
  set (n := Z.to_nat (ui32TotalHandCount b / 256)).
  assert (ui32TotalHandCount b = 256 * Z.of_nat n) as Hn.
  { pose proof (Z.div_mod (ui32TotalHandCount b) 256 ltac:(lia)). pose proof (Z.div_pos (ui32TotalHandCount b) 256). unfold n. lia. }
  wp_step. eapply wp_mono; [eapply wp_purge_blocks; [exact Hc|lia]|]. intros k st' (->&Hk&Hfree&Hused).
  assert (BLOCK_INDEX_TO_INDEX (Z.of_nat k) = 256 * Z.of_nat k) as ->.
  { unfold BLOCK_INDEX_TO_INDEX, MULTIPLY_BY_BLOCK_SIZE, HANDLE_BLOCK_SHIFT. rewrite Z.shiftl_mul_pow2 by lia.
    change (2 ^ 8) with 256. rewrite Z.mul_comm. apply u32_small. unfold is_u32. lia. }
  set (N' := 256 * Z.of_nat k) in *.
  assert (N' mod 256 = 0) as Hmod by (unfold N'; rewrite Z.mul_comm; apply Z.mod_mul; lia).
  assert (used_end m (ui32TotalHandCount b) N') as Hend.
  { split; [lia|]. split; [done|]. split; [intros i Hi; apply Hfree; lia|].
    intros Hnz. destruct Hused as (i&Hi&?); [lia|]. exists i. split; [lia|done]. }
  assert (∀ T, T = (if N' <=? ui32TotalHandCount b / 2 then N' else ui32TotalHandCount b) →
    trimmed m (ui32TotalHandCount b) T) as Htrim by (intros T ->; by exists N').
  destruct (Z.leb_spec N' (ui32TotalHandCount b / 2)) as [Hle|_].
  2:{ wp_step. split_and!; [by split|done|done|]. left. split; [done|]. by apply Htrim. }
  destruct (decide (ui32TotalHandCount b = 0)) as [Hz|Hnz].
  { unfold ReallocHandleArray. hb_steps. rewrite Hz in *. change (0 / 2) with 0 in Hle.
    rewrite (proj2 (Z.eqb_eq N' 0)) by lia. wp_step. split_and!; [by split|done|done|]. left. split; [done|].
    simpl. rewrite Hz. apply Htrim. lia. }
  assert (N' < ui32TotalHandCount b) as Hlt by (pose proof (Z.div_lt (ui32TotalHandCount b) 2); lia).
  destruct (psHandleArray b) as [a|] eqn:Ha; [|simpl in Har; lia].
  pose proof (q_count _ _ _ _ Hc) as Hcn. simpl in Hcn.
  pose proof (nfree_range m 0 (ui32TotalHandCount b) (proj1 H0)) as Hr.
  assert (ui32TotalHandCount b - N' ≤ nfree m 0 (ui32TotalHandCount b)) as Hge.
  { replace (ui32TotalHandCount b) with (N' + (ui32TotalHandCount b - N')) at 2 by lia.
    rewrite nfree_app, (nfree_all m (0 + N')) by (lia || (intros; apply Hfree; lia)).
    pose proof (nfree_range m 0 N'). lia. }
  destruct (shrunk_fields b a N') as (_&F2&_&F4&_).
  apply (wp_realloc_down o b a); [done|done|done|lia|done|lia|..].
  - intros o' Hl Hpl. split_and!; [|exact Hpl|exact F4|].
    + split; [eapply pcore_resized; [exact Hc| |done]|].
      * eapply shrunk_resized; [exact Hc|done|lia|done|]. intros i Hi. apply Hfree. lia.
      * simpl. unfold shrunk. by destruct (N' =? 0).
    + left. split; [done|]. simpl. rewrite F2. by apply Htrim.
  - intros o' Hl Hno. split_and!; [|done|done|right; by split_and!].
    split; [|done]. destruct Hc. split; simpl in *; try done. lia.
Qed.

(** ** The end of the base *)

Lemma wp_free_all_plain L n st m km i :
  pinv L st m km → 0 ≤ i → i + Z.of_nat n = ui32TotalHandCount (hb_base st) → (∀ j, j < i → m !! j = None) →
  wp (free_all_from n i) (λ r st', r = PVRSRV_OK ∧ (plenty (hb_os st) → plenty (hb_os st')) ∧
      ∃ km', pinv L st' ∅ km') st.
Proof.
  revert st m km i. induction n as [|n IH]; intros st m km i Hi Hi0 HN Hlo; cbn [free_all_from].
  - wp_step. split; [done|]. split; [done|]. exists km. assert (m = ∅) as ->; [|done].
    apply map_empty. intros j. destruct (m !! j) eqn:Hj; [|done].
    pose proof (proj2 (q_plain _ _ _ _ (proj1 Hi) _ _ Hj)). rewrite Hlo in Hj; [done|lia].
  - pose proof (pcore_readable _ _ _ _ (proj1 Hi)) as Hrd. destruct st as [o b]. simpl in HN.
    destruct (m !! i) as [e|] eqn:He.
    + destruct (rd_slot _ _ Hrd _ _ He) as (h&Hh&Hso). wp_step. eapply wp_struct; [exact Hh|].
      rewrite (so_type _ _ _ Hso), is_NONE_false by apply (q_plain _ _ _ _ (proj1 Hi) _ _ He).
      wp_step. eapply wp_mono; [by eapply wp_free_plain|].
      intros r [o1 b1] (->&Hpl&_&HN1&km1&Hi1). cbn [is_OK negb]. hb_steps. simpl in HN1.
      destruct (Z.eqb_spec (ui32FreeHandCount b1) (ui32TotalHandCount b1)) as [Hall|_].
      * wp_step. split; [done|]. split; [exact Hpl|]. exists km1. assert (delete i m = ∅) as <-; [|done].
        apply map_empty. intros j. destruct (delete i m !! j) eqn:Hj; [|done]. exfalso.
        pose proof (q_count _ _ _ _ (proj1 Hi1)) as Hcn. simpl in Hcn.
        pose proof (proj2 (q_plain _ _ _ _ (proj1 Hi1) _ _ Hj)) as Hjr. simpl in Hjr.
        rewrite (nfree_full (delete i m) 0 (ui32TotalHandCount b1)) in Hj by lia. done.
      * eapply wp_mono; [eapply (IH (mk_hb o1 b1) (delete i m) km1 (i + 1)); [done|lia|simpl; lia|]|].
        -- intros j Hj. destruct (decide (j = i)) as [->|]; [apply lookup_delete_eq|].
           rewrite lookup_delete_ne by done. apply Hlo. lia.
        -- intros r st' (->&Hpl'&Hx). split; [done|]. split; [simpl in *; auto|done].
    + destruct (rd_free _ _ Hrd i ltac:(simpl; lia) He) as (h&Hh&Hty). wp_step. eapply wp_struct; [exact Hh|].
      rewrite Hty. cbn [is_NONE bool_decide]. eapply (IH _ m km); [done|lia|simpl; lia|].
      intros j Hj. destruct (decide (j = i)) as [->|]; [done|]. apply Hlo. lia.
Qed.

(** Freeing the base gives back every block it took. *)
Theorem wp_free_base L st s :
  purge_ok L st s →
  wp FreeHandleBase (λ r st', r = PVRSRV_OK ∧ os_live (hb_os st') = L - 3 ∧
      (plenty (hb_os st) → plenty (hb_os st'))) st.
Proof.
  intros (_&_&km&Hi). destruct st as [o b]. pose proof (proj1 Hi) as Hc.
  pose proof (q_shape _ _ _ _ Hc) as (_&H0&_). simpl in H0.
  unfold FreeHandleBase. hb_steps. rewrite (plain_unbatched _ _ _ _ Hc : HANDLES_BATCHED b = false).
  wp_step. wp_step. apply wp_mono with (Q := λ r st', r = PVRSRV_OK ∧ (plenty o → plenty (hb_os st')) ∧
      ∃ km', pinv L st' ∅ km').
  { unfold FreeAllHandles. hb_steps. pose proof (q_count _ _ _ _ Hc) as Hcn. simpl in Hcn.
    destruct (Z.eqb_spec (ui32FreeHandCount b) (ui32TotalHandCount b)) as [Hall|_].
    - wp_step. split; [done|]. split; [done|]. exists km. assert (sp_handles s = ∅) as <-; [|done].
      apply map_empty. intros j. destruct (sp_handles s !! j) eqn:Hj; [|done]. exfalso.
      pose proof (proj2 (q_plain _ _ _ _ Hc _ _ Hj)) as Hjr. simpl in Hjr.
      rewrite (nfree_full (sp_handles s) 0 (ui32TotalHandCount b)) in Hj by lia. done.
    - eapply wp_free_all_plain; [exact Hi|lia|simpl; lia|]. intros j Hj.
      destruct (sp_handles s !! j) eqn:Hjm; [|done]. pose proof (proj2 (q_plain _ _ _ _ Hc _ _ Hjm)). lia. }
  intros r [o1 b1] (->&Hpl1&km1&Hi1). pose proof (proj1 Hi1) as Hc1. cbn [is_OK negb]. simpl in Hpl1.
  pose proof (keyed_empty _ (q_keyed _ _ _ _ Hc1)) as ->.
  pose proof (q_live _ _ _ _ Hc1) as Hlv. rewrite map_size_empty in Hlv. simpl in Hlv.
  wp_step. eapply wp_mono; [apply (wp_FreeHandleArray o1 b1), (q_shape _ _ _ _ Hc1)|].
  intros r [o2 b2] (->&[Hl2 Hp2]&Htab). cbn [is_OK negb]. hb_steps. simpl in *.
  destruct (q_hash _ _ _ _ Hc1) as (tab&Ht&_). simpl in Ht. rewrite Htab, Ht.
  apply wp_on_os. unfold HASH_Delete. wp_step. apply wp_OSFreeMem, wp_OSFreeMem.
  wp_step. apply wp_on_os, wp_OSFreeMem. wp_step. simpl. split; [done|]. split; [lia|]. auto.
Qed.
End purge.

(** ** Operations

    What the driver does with [KERNEL_HANDLE_BASE]: handles without parents
    and without batches, and purging. *)

Inductive kop := KHandle (op : hop) | KPurge.

Definition flat_op (op : hop) : Prop :=
  match op with
  | HAlloc _ ty _ => ty ≠ PVRSRV_HANDLE_TYPE_NONE
  | HFind _ _ | HRead _ _ _ | HRelease _ _ | HTake _ _ => True
  | _ => False
  end.

Definition kernel_op (op : kop) : Prop := match op with KHandle op => flat_op op | KPurge => True end.

Section run.
Context {heap : HeapContents}.

Definition run_kop (op : kop) : M kernel_st hres :=
  match op with
  | KHandle op => kernel_base (run_hop op)
  | KPurge => e ← kernel_base PVRSRVPurgeHandles; mret (e, [])
  end.

Fixpoint run_kops (ops : list kop) : M kernel_st (list hres) :=
  match ops with
  | [] => mret []
  | op :: ops => r ← run_kop op; rs ← run_kops ops; mret (r :: rs)
  end.

(** The base is made, used and freed. *)
Definition run_kernel (ops : list kop) : M kernel_st (PVRSRV_ERROR * list hres) :=
  eError ← PVRSRVHandleInit;
  if negb (is_OK eError) then mret (eError, [])
  else rs ← run_kops ops; eError ← PVRSRVHandleDeInit; mret (eError, rs).
End run.

(** ** The abstract system *)

Inductive kstep (s : hspec) : kop → hres → hspec → Prop :=
| k_handle op r s' : hstep s op r s' → kstep s (KHandle op) r s'
| k_purge e : e = PVRSRV_OK ∨ e = PVRSRV_ERROR_OUT_OF_MEMORY → kstep s KPurge (e, []) s.

Inductive ksteps : hspec → list kop → list hres → hspec → Prop :=
| ksteps_nil s : ksteps s [] [] s
| ksteps_cons s op r s1 ops rs s2 :
    kstep s op r s1 → ksteps s1 ops rs s2 → ksteps s (op :: ops) (r :: rs) s2.

(** The kernel's base implements [s]. *)
Definition kernel_ok (L : Z) (k : kernel_st) (s : hspec) : Prop :=
  ∃ b, gpsKernelHandleBase k = Some b ∧ purge_ok L (mk_hb (k_os k) b) s.

Lemma wp_kernel_base {A} (m : M hb_st A) Q o b :
  wp m (λ a st, Q a (mk_kernel (hb_os st) (Some (hb_base st)))) (mk_hb o b) →
  wp (kernel_base m) Q (mk_kernel o (Some b)).
Proof. unfold wp, kernel_base, zoom. simpl. by destruct (m _). Qed.

Lemma kernel_ok_intro L st s : purge_ok L st s → kernel_ok L (mk_kernel (hb_os st) (Some (hb_base st))) s.
Proof. intros Hp. eexists. split; [done|]. by destruct st. Qed.

(** ** Simulation *)

Section refine.
Context {heap : HeapContents}.

Definition ksteps_to (L : Z) (st : hb_st) (s : hspec) (op : hop) (r : hres) (st' : hb_st) : Prop :=
  (plenty (hb_os st) → plenty (hb_os st')) ∧ ∃ s', hstep s op r s' ∧ purge_ok L st' s' ∧
    (size (sp_handles s') ≤ S (size (sp_handles s)))%nat.

Lemma kstep_same L st s op r : purge_ok L st s → hstep s op r s → ksteps_to L st s op r st.
Proof. intros Hi Hs. split; [done|]. exists s. split_and!; [done..|lia]. Qed.

Lemma purge_ok_resolve L st s h ty g :
  purge_ok L st s → get_spec (sp_handles s) (ui32TotalHandCount (hb_base st)) h ty = g → resolve s h ty g.1 g.2.
Proof.
  intros (_&_&km&Hi&_) Hg. exists (ui32TotalHandCount (hb_base st)). split; [|by destruct g].
  intros j [e Hj]. apply (q_plain _ _ _ _ Hi _ _ Hj).
Qed.

Lemma wp_run_krelease L st s op h ty :
  purge_ok L st s → op = HRelease h ty ∨ op = HTake h ty → wp (run_hop op) (ksteps_to L st s op) st.
Proof.
  intros Hok Hop. destruct (get_spec (sp_handles s) (ui32TotalHandCount (hb_base st)) h ty) as [e i] eqn:Hg.
  pose proof (purge_ok_resolve _ _ _ _ _ _ Hok Hg) as Hrs. simpl in Hrs.
  assert (e = PVRSRV_OK → ∃ en, live (sp_handles s) i en ∧
    freed (sp_handles s) (desc (sp_handles s) i) (delete i (sp_handles s))) as Hfr.
  { intros ->. apply get_spec_ok in Hg as (_&_&en&Hlv&_). exists en. split; [done|].
    destruct Hok as (_&_&km&Hi&_). by eapply plain_freed, (proj1 Hlv). }
  assert (size (delete i (sp_handles s)) ≤ S (size (sp_handles s)))%nat as Hsz.
  { rewrite map_size_delete. destruct (_ !! i); simpl; lia. }
  destruct Hop as [-> | ->]; simpl; wp_step.
  - eapply wp_mono; [by apply wp_krelease|]. unfold krelease_post. rewrite Hg. simpl.
    intros r st' (->&Hpl&Hr). wp_step. destruct (is_OK e) eqn:He.
    + apply is_OK_true in He as ->. destruct (Hfr eq_refl) as (en&Hlv&Hfd). split; [done|].
      eexists. split_and!; [by eapply s_release|done|done].
    + subst st'. apply kstep_same; [done|]. eapply s_release_bad; [exact Hrs|]. by intros ->.
  - eapply wp_mono; [by apply wp_ktake|]. unfold krelease_post, lookup_spec. rewrite Hg. simpl.
    intros [r o] st' [(Hr0&Hpl&Hr) Ho]. simpl in *. subst r. wp_step. destruct (is_OK e) eqn:He; simpl in Ho.
    + apply is_OK_true in He as ->. destruct (Hfr eq_refl) as (en&Hlv&Hfd).
      rewrite (proj1 Hlv) in Ho. simpl in Ho. subst o. split; [done|].
      eexists. split_and!; [by eapply s_take|done|done].
    + subst st' o. apply kstep_same; [done|]. eapply s_take_bad; [exact Hrs|]. by intros ->.
Qed.

Lemma wp_run_kfind L st s data ty :
  purge_ok L st s → wp (run_hop (HFind data ty)) (ksteps_to L st s (HFind data ty)) st.
Proof.
  intros Hok. pose proof Hok as (_&_&km&Hi&_). simpl. wp_step. unfold PVRSRVFindHandle. wp_step.
  eapply wp_find_keyed; [apply Hi|apply Hi| |..].
  - intros i [e He]. pose proof (proj2 (q_plain _ _ _ _ Hi _ _ He)). lia.
  - intros i e Hk _ Hir. rewrite (proj2 (Z.eqb_neq _ _)) by (unfold IMG_NULL; lia). wp_step. wp_step.
    apply kstep_same; [done|]. by eapply s_found.
  - intros _ Hno. wp_step. apply kstep_same; [done|]. by eapply s_not_found.
Qed.

Lemma wp_run_flat L st s op :
  purge_ok L st s → flat_op op → Z.of_nat (size (sp_handles s)) < 134217728 →
  wp (run_hop op) (ksteps_to L st s op) st.
Proof.
  intros Hok Hop Hsz. destruct op as [data ty flag|?|data ty|k h ty|?|h ty|h ty|?|?|?]; try done.
  - simpl. wp_step. eapply wp_mono; [by apply wp_kalloc|]. intros [e h] st' ((s'&Hr&Hok')&_&Hpl). wp_step.
    split; [done|]. exists s'. split_and!; [by apply (s_alloc s data ty flag (e, h))|done|by eapply alloc_result_size].
  - by apply wp_run_kfind.
  - pose proof Hok as (_&_&km&Hi&_). eapply wp_mono; [apply wp_read_steps; [by eapply pcore_readable|]|].
    + intros j [e Hj]. apply (q_plain _ _ _ _ Hi _ _ Hj).
    + intros r st' [-> Hs]. by apply kstep_same.
  - eapply wp_run_krelease; eauto.
  - eapply wp_run_krelease; eauto.
Qed.

Lemma wp_run_kop L k s op :
  kernel_ok L k s → kernel_op op → Z.of_nat (size (sp_handles s)) < 134217728 →
  wp (run_kop op) (λ r k', (plenty (k_os k) → plenty (k_os k')) ∧ ∃ s', kstep s op r s' ∧ kernel_ok L k' s' ∧
      (size (sp_handles s') ≤ S (size (sp_handles s)))%nat) k.
Proof.
  intros (b&Hb&Hok) Hop Hsz. destruct k as [o kb]. simpl in Hb. subst kb. destruct op as [op|]; simpl.
  - apply wp_kernel_base. eapply wp_mono; [by apply wp_run_flat|]. intros r st' (Hpl&s'&Hs&Hok'&Hsz').
    split; [done|]. exists s'. split_and!; [by constructor|by apply kernel_ok_intro|done].
  - destruct Hok as (Hu&Hm&km&Hi). wp_step. apply wp_kernel_base. eapply wp_mono; [by eapply wp_purge|].
    intros r st' (Hi'&Hpl&Hmx&Hr). wp_step. split; [done|]. exists s. split_and!; [|apply kernel_ok_intro|lia].
    + apply k_purge. destruct Hr as [[-> _]|[-> _]]; auto.
    + split; [done|]. split; [simpl in *; congruence|by exists km].
Qed.

Lemma wp_run_kops L ops k s :
  kernel_ok L k s → Forall kernel_op ops → Z.of_nat (size (sp_handles s) + length ops) ≤ 134217728 →
  wp (run_kops ops) (λ rs k', ∃ s', ksteps s ops rs s' ∧ kernel_ok L k' s') k.
Proof.
  intros Hok Hops. revert k s Hok. induction Hops as [|op ops Hop _ IH]; intros k s Hok Hsz; simpl in *.
  { wp_step. exists s. split; [constructor|done]. }
  wp_step. eapply wp_mono; [apply (wp_run_kop L k s op Hok Hop); lia|].
  intros r k1 (_&s1&Hs1&Hok1&Hsz1). wp_step. eapply wp_mono; [apply (IH k1 s1 Hok1); lia|].
  intros rs k2 (s2&Hs2&Hok2). wp_step. exists s2. split; [by econstructor|done].
Qed.

(** ** The life of the base *)

Lemma fresh_pinv L o b :
  implements L (mk_hb o b) fresh_spec → ui32TotalHandCount b = 0 → ui32FirstFreeIndex b = 0 →
  ui32FreeHandCount b = 0 → purge_ok L (mk_hb o (set_limits (ui32MaxIndexPlusOne b) true b)) fresh_spec.
Proof.
  intros (kids&rk&fl&bl&km&Hb) HN Hf Hc. pose proof (b_inv _ _ _ _ _ _ _ _ Hb) as [Hs _ _ _ _ Hh Hk _ _ Hl].
  split; [done|]. split; [symmetry; apply (b_max _ _ _ _ _ _ _ _ Hb)|]. exists km. split; [|done].
  simpl in *. split; simpl; try done.
  - intros i h Hi. exfalso. assert (is_Some (hand_at b i)) as Hsi by (erewrite hand_at_arr; [by eexists|done]).
    apply (hand_some b i Hs) in Hsi. lia.
  - by rewrite HN, Hc.
  - intros i c Hi. exfalso. unfold bcount in Hi. rewrite index_at_alt in Hi. simpl in Hi.
    destruct Hs as (Ha&_). rewrite HN in Ha. destruct (i <? 0); [done|].
    destruct (psHandleArray b); [by destruct Ha|done].
  - exact (b_batch _ _ _ _ _ _ _ _ Hb).
Qed.

(** [PVRSRVHandleInit]: a base with purging, or nothing kept. *)
Theorem wp_PVRSRVHandleInit o :
  wp PVRSRVHandleInit (λ r k',
    r = PVRSRV_OK ∧ kernel_ok (os_live o + 3) k' fresh_spec ∧ (plenty o → plenty (k_os k')) ∨
    r ≠ PVRSRV_OK ∧ gpsKernelHandleBase k' = None ∧ os_live (k_os k') = os_live o ∧ ¬ plenty o) (mk_kernel o None).
Proof.
  unfold PVRSRVHandleInit, kernel_os. wp_step. wp_step. simpl.
  eapply wp_mono; [apply wp_PVRSRVAllocHandleBase|].
  intros [e r] o' (Hpl&[(tab&[= -> ->]&Him)|(Hr&Hl&Hno)]).
  - wp_step. wp_step. cbn [is_OK negb]. wp_step. apply wp_kernel_base. unfold PVRSRVEnableHandlePurging. hb_steps.
    simpl. hb_steps. simpl. left. split; [done|]. split; [|done].
    apply (kernel_ok_intro _ (mk_hb o' _)). by apply (fresh_pinv _ o' (fresh_base tab)).
  - assert (r = None ∧ is_OK e = false) as [-> He] by (by destruct Hr as [[= -> ->]|[= -> ->]]).
    wp_step. wp_step. rewrite He. cbn [negb]. wp_step. unfold PVRSRVHandleDeInit. wp_step. wp_step. cbn [gpsKernelHandleBase]. wp_steps.
    right. split_and!; [by intros ->|done|done|done].
Qed.

(** [PVRSRVHandleDeInit] gives the base back. *)
Theorem wp_PVRSRVHandleDeInit L k s :
  kernel_ok L k s →
  wp PVRSRVHandleDeInit (λ r k', r = PVRSRV_OK ∧ gpsKernelHandleBase k' = None ∧ os_live (k_os k') = L - 3 ∧
      (plenty (k_os k) → plenty (k_os k'))) k.
Proof.
  intros (b&Hb&Hok). destruct k as [o kb]. simpl in Hb. subst kb.
  unfold PVRSRVHandleDeInit. wp_step. wp_step. cbn [gpsKernelHandleBase]. wp_step. apply wp_kernel_base.
  eapply wp_mono; [by eapply wp_free_base|]. intros r st' (->&Hl&Hpl). cbn [is_OK]. wp_steps. done.
Qed.

Lemma wp_run_kernel ops o :
  Forall kernel_op ops → Z.of_nat (length ops) ≤ 134217728 →
  wp (run_kernel ops) (λ r k', gpsKernelHandleBase k' = None ∧ os_live (k_os k') = os_live o ∧
      (r.1 = PVRSRV_OK → ∃ s', ksteps fresh_spec ops r.2 s')) (mk_kernel o None).
Proof.
  intros Hops Hlen. unfold run_kernel. wp_step. eapply wp_mono; [apply wp_PVRSRVHandleInit|].
  intros e k [(->&Hok&_)|(He&Hk&Hl&_)].
  - cbn [is_OK negb]. wp_step. eapply wp_mono; [by apply (wp_run_kops _ ops k _ Hok)|]. intros rs k1 (s1&Hs1&Hok1).
    wp_step. eapply wp_mono; [by eapply wp_PVRSRVHandleDeInit|]. intros e k2 (->&Hk2&Hl2&_). wp_step.
    split_and!; [done|lia|]. intros _. by exists s1.
  - assert (is_OK e = false) as -> by (by destruct e). cbn [negb]. wp_step. split_and!; [done..|]. intros Hx. by destruct (He Hx).
Qed.
End refine.

(** ** Properties *)

Section props.
Context {heap : HeapContents}.

(** C8: the kernel's handle base, from [PVRSRVHandleInit] to
    [PVRSRVHandleDeInit] and whatever is allocated, found, looked up, released
    and purged in between, neither faults nor loops, answers what the
    abstract handle table answers (purging leaves the table as it is), and
    gives every block of kernel memory back; when it cannot be made, nothing
    is kept. *)
Theorem kernel_handles_refine ops o :
  Forall kernel_op ops → Z.of_nat (length ops) ≤ 134217728 →
  wp (run_kernel ops) (λ r k', gpsKernelHandleBase k' = None ∧ os_live (k_os k') = os_live o ∧
      (r.1 = PVRSRV_OK → ∃ s', ksteps fresh_spec ops r.2 s')) (mk_kernel o None).
Proof. apply wp_run_kernel. Qed.

(** C25: purging a base that has purging enabled and no batch open, and
    whose handles have no parents, keeps every handle. It gives back exactly
    the trailing blocks without handles when the blocks left are at most
    half of the array, and leaves the array as it is only when they are
    more. It fails only for want of memory, and the base is unchanged then. *)
Theorem kernel_purge_trims L st s :
  purge_ok L st s →
  wp PVRSRVPurgeHandles (λ r st', purge_ok L st' s ∧
      (r = PVRSRV_OK ∧
         trimmed (sp_handles s) (ui32TotalHandCount (hb_base st)) (ui32TotalHandCount (hb_base st')) ∨
       r = PVRSRV_ERROR_OUT_OF_MEMORY ∧ hb_base st' = hb_base st ∧ ¬ plenty (hb_os st))) st.
Proof.
  intros (Hu&Hm&km&Hi). eapply wp_mono; [by eapply wp_purge|]. intros r st' (Hi'&_&Hmx&Hr). split; [|exact Hr].
  split; [done|]. split; [congruence|by exists km].
Qed.
End props.

(** ** Witnesses *)

#[local] Existing Instance junk_heap.

(** Enough handles for a second block, most of them released. *)
Definition kernel_demo : list kop :=
  replicate 257 (KHandle (HAlloc 5 PVRSRV_HANDLE_TYPE_MEM_INFO PVRSRV_HANDLE_ALLOC_FLAG_MULTI)) ++
  [KHandle (HRelease 257 PVRSRV_HANDLE_TYPE_MEM_INFO); KHandle (HRead ReadData 1 PVRSRV_HANDLE_TYPE_MEM_INFO)].

Lemma kernel_demo_ops : Forall kernel_op kernel_demo.
Proof. by apply Forall_app_2; [apply Forall_replicate|repeat constructor]. Qed.

Lemma kernel_handles_refine_witness :
  wp (run_kernel kernel_demo) (λ r k', gpsKernelHandleBase k' = None ∧ os_live (k_os k') = 0 ∧
      (r.1 = PVRSRV_OK → ∃ s', ksteps fresh_spec kernel_demo r.2 s')) (mk_kernel os_plenty None).
Proof. apply (kernel_handles_refine kernel_demo os_plenty kernel_demo_ops). vm_compute. discriminate. Defined.

(** The kernel's base after these operations. *)
Definition kernel_after : kernel_st :=
  match (_ ← PVRSRVHandleInit; run_kops kernel_demo) (mk_kernel os_plenty None) with
  | Done _ k => k
  | _ => mk_kernel os_plenty None
  end.

Definition base_after : hb_st := mk_hb (k_os kernel_after) (default zero_base (gpsKernelHandleBase kernel_after)).

Lemma base_after_ok : ∃ s, purge_ok 3 base_after s.
Proof.
  assert (∃ s, kernel_ok 3 kernel_after s) as (s&b&Hb&Hs); [|by exists s; unfold base_after; rewrite Hb].
  unfold kernel_after. pose proof (wp_PVRSRVHandleInit os_plenty) as Hw.
  apply wp_Done in Hw as (e&k&Hk&[(->&Hok&_)|(_&_&_&Hno)]); [|by destruct Hno].
  pose proof (wp_run_kops 3 kernel_demo k _ Hok kernel_demo_ops ltac:(vm_compute; discriminate)) as Hw.
  apply wp_Done in Hw as (rs&k2&Hk2&s2&_&Hok2). exists s2.
  unfold mbind, M_bind. rewrite Hk, Hk2. exact Hok2.
Qed.

Lemma kernel_purge_trims_witness :
  ∃ s, ui32TotalHandCount (hb_base base_after) = 512 ∧
  wp PVRSRVPurgeHandles (λ r st', purge_ok 3 st' s ∧
      (r = PVRSRV_OK ∧
         trimmed (sp_handles s) (ui32TotalHandCount (hb_base base_after)) (ui32TotalHandCount (hb_base st')) ∨
       r = PVRSRV_ERROR_OUT_OF_MEMORY ∧ hb_base st' = hb_base base_after ∧ ¬ plenty (hb_os base_after))) base_after.
Proof.
  destruct base_after_ok as [s Hs]. exists s. split; [vm_compute; reflexivity|exact (kernel_purge_trims 3 base_after s Hs)].
Defined.

(** The purge does give the second block back. *)
Example purge_shrinks :
  match PVRSRVPurgeHandles base_after with Done e st => (e, ui32TotalHandCount (hb_base st)) | _ => (PVRSRV_OK, 0) end
  = (PVRSRV_OK, 256).
Proof. vm_compute. reflexivity. Qed.
