(* ===== verification/Lists.v ===== *)
(** * lists.h: linked lists with a back pointer

    The list macros are instantiated for many node types.  Every node has a
    [psNext] and a [ppsThis], the address of the pointer that leads to it:
    the head of its list or the [psNext] of its predecessor.  Nodes and heads
    are numbered; a node is allocated when the store has it. *)

From S2P Require Import Prelude.

(** ** Data *)

(** The address of a pointer to a node. *)
Inductive slot := NextOf (n : Z) | HeadOf (h : Z).

#[export] Instance slot_eq_dec : EqDecision slot.
Proof. solve_decision. Defined.

Record node := mkNode { psNext : Z; ppsThis : slot }.

Record lists := mkLists { l_nodes : gmap Z node; l_heads : gmap Z Z }.

Definition get_node (n : Z) : M lists node := o ← gets (λ s, l_nodes s !! n); deref o.

Definition put_node (n : Z) (x : node) : M lists unit :=
  modify (λ s, mkLists (<[n := x]> (l_nodes s)) (l_heads s)).

Definition set_psNext (n v : Z) : M lists unit :=
  x ← get_node n; put_node n (mkNode v (ppsThis x)).

Definition set_ppsThis (n : Z) (p : slot) : M lists unit :=
  x ← get_node n; put_node n (mkNode (psNext x) p).

(** The pointer at an address. *)
Definition rd (s : lists) (p : slot) : option Z :=
  match p with NextOf n => psNext <$> l_nodes s !! n | HeadOf h => l_heads s !! h end.

Arguments rd : simpl never.

Definition load (p : slot) : M lists Z := o ← gets (λ s, rd s p); deref o.

Definition store (p : slot) (v : Z) : M lists unit :=
  match p with
  | NextOf n => set_psNext n v
  | HeadOf h =>
      _ ← load p; modify (λ s, mkLists (l_nodes s) (<[h := v]> (l_heads s)))
  end.

(** ** The macros *)

Definition List_Remove (psNode : Z) : M lists unit :=
  n ← get_node psNode;
  store (ppsThis n) (psNext n);;
  n ← get_node psNode;
  if psNext n =? 0 then mret tt else set_ppsThis (psNext n) (ppsThis n).

Definition List_Insert (ppsHead : slot) (psNewNode : Z) : M lists unit :=
  set_ppsThis psNewNode ppsHead;;
  v ← load ppsHead;
  set_psNext psNewNode v;;
  store ppsHead psNewNode;;
  n ← get_node psNewNode;
  if psNext n =? 0 then mret tt else set_ppsThis (psNext n) (NextOf psNewNode).

(** The loop of [List_Reverse]: the new head. *)
Fixpoint reverse_loop (fuel : nat) (ppsHead : slot) (psTmpNode1 psCurNode : Z) : M lists Z :=
  if psCurNode =? 0 then mret psTmpNode1
  else
    match fuel with
    | O => out_of_fuel
    | S fuel =>
        n ← get_node psCurNode;
        let psTmpNode2 := psNext n in
        set_psNext psCurNode psTmpNode1;;
        set_ppsThis psCurNode (if negb (psTmpNode2 =? 0) then NextOf psTmpNode2 else ppsHead);;
        reverse_loop fuel ppsHead psCurNode psTmpNode2
    end.

(** A list has at most as many nodes as there are. *)
Definition node_count : M lists nat := gets (λ s, size (l_nodes s)).

Definition List_Reverse (ppsHead : slot) : M lists unit :=
  c ← load ppsHead;
  k ← node_count;
  r ← reverse_loop k ppsHead IMG_NULL c;
  store ppsHead r.

(** The traversals call back into a larger state. *)
Section iterate.
Context {S : Type} (on : ∀ A, M lists A → M S A).

(** [LIST_ANY], [LIST_ANY_VA] and their typed variants: [cont] tells the
    value that lets the walk go on. *)
Fixpoint any_loop {R} (fuel : nat) (cont : R → bool) (cb : Z → M S R) (result : R) (psHead : Z) : M S R :=
  if (psHead =? 0) || negb (cont result) then mret result
  else
    match fuel with
    | O => out_of_fuel
    | Datatypes.S fuel =>
        n ← on _ (get_node psHead);
        result ← cb psHead;
        any_loop fuel cont cb result (psNext n)
    end.

Definition List_Any_2 {R} (CONTINUE : R) (cont : R → bool) (psHead : Z) (cb : Z → M S R) : M S R :=
  k ← on _ node_count; any_loop k cont cb CONTINUE psHead.

Definition List_Any (psHead : Z) (cb : Z → M S Z) : M S Z :=
  List_Any_2 IMG_NULL (λ r, r =? IMG_NULL) psHead cb.

Fixpoint for_each_loop (fuel : nat) (cb : Z → M S unit) (psHead : Z) : M S unit :=
  if psHead =? 0 then mret tt
  else
    match fuel with
    | O => out_of_fuel
    | Datatypes.S fuel =>
        cb psHead;;
        n ← on _ (get_node psHead);
        for_each_loop fuel cb (psNext n)
    end.

Definition List_ForEach (psHead : Z) (cb : Z → M S unit) : M S unit :=
  k ← on _ node_count; for_each_loop k cb psHead.
End iterate.

(** ** Chains *)

Definition pps (s : lists) (n : Z) : option slot := ppsThis <$> l_nodes s !! n.

(** From the pointer at [p] the nodes [l] follow. *)
Fixpoint seg (s : lists) (p : slot) (l : list Z) : Prop :=
  match l with
  | [] => rd s p = Some 0
  | x :: r => rd s p = Some x ∧ x ≠ 0 ∧ pps s x = Some p ∧ seg s (NextOf x) r
  end.

(** The store holds these lists, each node in one of them at most. *)
Record lists_ok (s : lists) (m : gmap Z (list Z)) : Prop := {
  lo_seg h l : m !! h = Some l → seg s (HeadOf h) l ∧ NoDup l;
  lo_disj h h' l l' x : m !! h = Some l → m !! h' = Some l' → x ∈ l → x ∈ l' → h = h' }.

Lemma seg_ext s s' p l :
  rd s' p = rd s p → (∀ x, x ∈ l → rd s' (NextOf x) = rd s (NextOf x) ∧ pps s' x = pps s x) →
  seg s p l → seg s' p l.
Proof.
  revert p. induction l as [|x l IH]; intros p Hp Hx; simpl; [congruence|].
  intros (H1&H2&H3&H4). destruct (Hx x ltac:(by left)) as [Hr Hs].
  split_and!; [congruence|done|congruence|]. apply IH; [done| |done]. intros y Hy. apply Hx. by right.
Qed.

Lemma seg_head s p l : seg s p l → rd s p = Some (hd 0 l).
Proof. destruct l; simpl; tauto. Qed.

Lemma seg_nonzero s p l x : seg s p l → x ∈ l → x ≠ 0.
Proof.
  revert p. induction l as [|y l IH]; intros p; simpl; [by intros _ ?%elem_of_nil|].
  intros (_&?&_&?) [->|?]%elem_of_cons; eauto.
Qed.

Lemma seg_some s p l x : seg s p l → x ∈ l → is_Some (l_nodes s !! x).
Proof.
  revert p. induction l as [|y l IH]; intros p; simpl; [by intros _ ?%elem_of_nil|].
  intros (_&_&Hp&?) [->|?]%elem_of_cons; [|eauto]. unfold pps in Hp. destruct (l_nodes s !! y); [eauto|done].
Qed.

(** The suffix after a node. *)
Lemma seg_suffix s p l1 x l2 : seg s p (l1 ++ x :: l2) → seg s (NextOf x) l2 ∧ x ≠ 0.
Proof. revert p. induction l1 as [|y l1 IH]; intros p; simpl; [tauto|]. intros (_&_&_&?). eauto. Qed.

Lemma seg_length s p l : seg s p l → NoDup l → (length l ≤ size (l_nodes s))%nat.
Proof. intros Hs Hn. apply NoDup_keys_length; [done|]. intros x. by apply (seg_some s p). Qed.

(** ** Steps *)

Lemma wp_get_node n x Q s : l_nodes s !! n = Some x → Q x s → wp (get_node n) Q s.
Proof. intros Hn HQ. unfold get_node. wp_step. wp_step. rewrite Hn. by apply wp_ret. Qed.

Lemma wp_load p v Q s : rd s p = Some v → Q v s → wp (load p) Q s.
Proof. intros Hp HQ. unfold load. wp_step. wp_step. rewrite Hp. by apply wp_ret. Qed.

(** One pointer changed: every other read is as before. *)
Definition wrote (p : slot) (v : Z) (s s' : lists) : Prop :=
  (∀ q, rd s' q = if decide (q = p) then Some v else rd s q) ∧ (∀ n, pps s' n = pps s n) ∧
  (∀ n, is_Some (l_nodes s' !! n) ↔ is_Some (l_nodes s !! n)).

(** One back pointer changed. *)
Definition wrote_back (n : Z) (p : slot) (s s' : lists) : Prop :=
  (∀ q, rd s' q = rd s q) ∧ (∀ k, pps s' k = if decide (k = n) then Some p else pps s k) ∧
  (∀ k, is_Some (l_nodes s' !! k) ↔ is_Some (l_nodes s !! k)).

Lemma wp_store p v Q s :
  is_Some (rd s p) → (∀ s', wrote p v s s' → Q tt s') → wp (store p v) Q s.
Proof.
  intros [w Hw] HQ. destruct p as [n|h]; simpl.
  - unfold rd in Hw. destruct (l_nodes s !! n) as [x|] eqn:Hn; [|done].
    unfold set_psNext. wp_step. eapply wp_get_node; [done|]. unfold put_node. wp_step. apply HQ.
    split_and!.
    + intros [k|h]; unfold rd; simpl; [|done]. case_decide as Hk; [injection Hk as ->; by rewrite lookup_insert_eq|].
      rewrite lookup_insert_ne by congruence. done.
    + intros k. unfold pps. simpl. destruct (decide (k = n)) as [->|].
      * by rewrite lookup_insert_eq, Hn.
      * by rewrite lookup_insert_ne.
    + intros k. simpl. rewrite lookup_insert_is_Some'. naive_solver.
  - wp_step. eapply wp_load; [exact Hw|]. wp_step. apply HQ. split_and!; try done.
    intros [k|h']; unfold rd; simpl; [done|]. case_decide as Hk; [injection Hk as ->; by rewrite lookup_insert_eq|].
    rewrite lookup_insert_ne by congruence. done.
Qed.

Lemma wp_set_psNext n v Q s :
  is_Some (l_nodes s !! n) → (∀ s', wrote (NextOf n) v s s' → Q tt s') → wp (set_psNext n v) Q s.
Proof. intros [x Hx] HQ. apply (wp_store (NextOf n)); [|done]. unfold rd. rewrite Hx. simpl. eauto. Qed.

Lemma wp_set_ppsThis n p Q s :
  is_Some (l_nodes s !! n) → (∀ s', wrote_back n p s s' → Q tt s') → wp (set_ppsThis n p) Q s.
Proof.
  intros [x Hn] HQ. unfold set_ppsThis. wp_step. eapply wp_get_node; [done|]. unfold put_node. wp_step. apply HQ.
  split_and!.
  - intros [k|h]; unfold rd; simpl; [|done]. destruct (decide (k = n)) as [->|].
    + by rewrite lookup_insert_eq, Hn.
    + by rewrite lookup_insert_ne.
  - intros k. unfold pps. simpl. case_decide as Hk; [subst k; by rewrite lookup_insert_eq|].
    by rewrite lookup_insert_ne.
  - intros k. simpl. rewrite lookup_insert_is_Some'. naive_solver.
Qed.

(** A node that the store has, from its two fields. *)
Lemma node_fields s n v p : rd s (NextOf n) = Some v → pps s n = Some p → l_nodes s !! n = Some (mkNode v p).
Proof.
  unfold pps, rd. destruct (l_nodes s !! n) as [[]|]; simpl; [|done]. by intros [= ->] [= ->].
Qed.

(** ** Removing *)

(** The last slot of a chain. *)
Definition last_slot (p : slot) (l : list Z) : slot :=
  match last l with Some x => NextOf x | None => p end.

Lemma last_slot_cons p x l : last_slot p (x :: l) = last_slot (NextOf x) l.
Proof. unfold last_slot. rewrite last_cons. by destruct (last l). Qed.

Lemma seg_at s p l1 x l2 : seg s p (l1 ++ x :: l2) →
  rd s (last_slot p l1) = Some x ∧ x ≠ 0 ∧ pps s x = Some (last_slot p l1) ∧ seg s (NextOf x) l2.
Proof.
  revert p. induction l1 as [|y l1 IH]; intros p; simpl; [done|].
  intros (_&_&_&Hs). rewrite last_slot_cons. by apply IH.
Qed.

Lemma last_slot_in p l : last_slot p l = p ∨ ∃ x, x ∈ l ∧ last_slot p l = NextOf x.
Proof.
  unfold last_slot. destruct (last l) as [x|] eqn:Hl; [|by left]. right. exists x. split; [|done].
  apply last_Some in Hl as [l' ->]. set_solver.
Qed.

Lemma seg_drop s s' p l1 x l2 :
  seg s p (l1 ++ x :: l2) → NoDup (l1 ++ x :: l2) → (∀ y, y ∈ l1 ++ x :: l2 → p ≠ NextOf y) →
  (∀ q, rd s' q = if decide (q = last_slot p l1) then Some (hd 0 l2) else rd s q) →
  (∀ y, y ∈ l1 ++ l2 → pps s' y = if decide (y = hd 0 l2) then Some (last_slot p l1) else pps s y) →
  seg s' p (l1 ++ l2).
Proof.
  revert p. induction l1 as [|a l1 IH]; intros p Hs Hnd Hp Hr Hb; simpl in *.
  - change (last_slot p []) with p in *. destruct Hs as (_&_&_&Hs).
    apply NoDup_cons in Hnd as [Hx Hnd]. destruct l2 as [|y l2]; simpl in *.
    + by rewrite Hr, decide_True.
    + destruct Hs as (H1&H2&H3&H4). apply NoDup_cons in Hnd as [Hy Hnd].
      split_and!; [by rewrite Hr, decide_True|done|by rewrite Hb, decide_True by set_solver|].
      eapply seg_ext; [..|exact H4].
      * rewrite Hr, decide_False; [done|]. intros Heq. apply (Hp y); set_solver.
      * intros z Hz. rewrite Hr, decide_False by (intros Heq; apply (Hp z); set_solver).
        rewrite Hb, decide_False by set_solver. done.
  - rewrite last_slot_cons in *. destruct Hs as (H1&H2&H3&H4). apply NoDup_cons in Hnd as [Ha Hnd].
    assert (a ≠ hd 0 l2) as Hah.
    { intros ->. destruct l2 as [|y l2]; simpl in *; [done|]. set_solver. }
    split_and!; [|done|rewrite Hb by set_solver; by rewrite decide_False|].
    + rewrite Hr, decide_False; [done|]. intros Heq.
      destruct (last_slot_in (NextOf a) l1) as [Hl|(y&Hy&Hl)]; rewrite Hl in Heq; subst p.
      * by apply (Hp a); [left|].
      * apply (Hp y); [|done]. right. set_solver.
    + apply IH; try done.
      * intros y Hy [= ->]. done.
      * intros y Hy. apply Hb. by right.
Qed.

(** What every operation below changes: some list of the store. *)
Definition same_nodes (s s' : lists) : Prop := ∀ n, is_Some (l_nodes s' !! n) ↔ is_Some (l_nodes s !! n).

Lemma other_lists s s' m h l l' :
  lists_ok s m → m !! h = Some l → seg s' (HeadOf h) l' → NoDup l' →
  (∀ x h', x ∈ l' → h' ≠ h → ∀ k, m !! h' = Some k → x ∉ k) →
  (∀ h', h' ≠ h → rd s' (HeadOf h') = rd s (HeadOf h')) →
  (∀ x, x ∉ l → x ∉ l' → rd s' (NextOf x) = rd s (NextOf x) ∧ pps s' x = pps s x) →
  lists_ok s' (<[h := l']> m).
Proof.
  intros [H1 H2] Hh Hs Hnd Hnew Hhead Hother. split.
  - intros h' k [[<- <-]|[Hne Hk]]%lookup_insert_Some; [done|]. destruct (H1 _ _ Hk) as [Hs' Hnd'].
    split; [|done]. eapply seg_ext; [by apply Hhead| |exact Hs']. intros x Hx. apply Hother.
    + intros Hxl. by destruct (Hne (H2 _ _ _ _ _ Hh Hk Hxl Hx)).
    + intros Hxl. by apply (Hnew x h' Hxl (not_eq_sym Hne) k).
  - intros a b la lb x [[<- <-]|[Ha Hla]]%lookup_insert_Some [[<- <-]|[Hb Hlb]]%lookup_insert_Some Hxa Hxb; try done.
    + by destruct (Hnew x b Hxa (not_eq_sym Hb) lb Hlb).
    + by destruct (Hnew x a Hxb (not_eq_sym Ha) la Hla).
    + by apply (H2 a b la lb x).
Qed.

Theorem wp_List_Remove s m h l1 x l2 :
  lists_ok s m → m !! h = Some (l1 ++ x :: l2) →
  wp (List_Remove x) (λ _ s', lists_ok s' (<[h := l1 ++ l2]> m) ∧ same_nodes s s') s.
Proof.
  intros Hok Hh. destruct (lo_seg _ _ Hok _ _ Hh) as [Hs Hnd].
  destruct (seg_at _ _ _ _ _ Hs) as (Hrd&Hx0&Hpps&Hs2). set (q := last_slot (HeadOf h) l1) in *.
  pose proof (seg_head _ _ _ Hs2) as Hnext. pose proof (node_fields _ _ _ _ Hnext Hpps) as Hnode.
  assert (q ≠ NextOf x) as Hqx.
  { intros Hq. destruct (last_slot_in (HeadOf h) l1) as [Hl|(y&Hy&Hl)]; fold q in Hl; rewrite Hl in Hq; [done|].
    injection Hq as ->. apply NoDup_app in Hnd as (_&Hd&_). apply (Hd x Hy). by left. }
  unfold List_Remove. wp_step. eapply wp_get_node; [done|]. cbn [ppsThis psNext].
  wp_step. apply wp_store; [eauto|]. intros s1 (Hr1&Hb1&Hn1).
  assert (rd s1 (NextOf x) = Some (hd 0 l2)) as Hnext1 by (by rewrite Hr1, decide_False by done).
  assert (pps s1 x = Some q) as Hpps1 by (by rewrite Hb1).
  wp_step. eapply wp_get_node; [by apply node_fields|]. cbn [ppsThis psNext].
  assert (∀ s', (∀ r, rd s' r = rd s1 r) →
    (∀ y, y ∈ l1 ++ l2 → pps s' y = if decide (y = hd 0 l2) then Some q else pps s y) →
    (∀ y, y ∉ l2 → pps s' y = pps s y) → same_nodes s1 s' →
    lists_ok s' (<[h := l1 ++ l2]> m) ∧ same_nodes s s') as Hfin.
  { intros s' Hr' Hb' Hb2 Hn'. split; [|intros n; etrans; [apply Hn'|apply Hn1]].
    assert (NoDup (l1 ++ l2)) as Hnd'.
    { apply NoDup_app in Hnd as (?&Hd&[? ?]%NoDup_cons). apply NoDup_app. split_and!; [done| |done].
      intros y Hy. specialize (Hd y Hy). set_solver. }
    eapply other_lists; [exact Hok|exact Hh| |exact Hnd'|..].
    - eapply seg_drop; [exact Hs|exact Hnd|done| |exact Hb']. intros r. by rewrite Hr', Hr1.
    - intros y h' Hy Hne k Hk Hyk. apply Hne. eapply (lo_disj _ _ Hok); [exact Hk|exact Hh|exact Hyk|]. set_solver.
    - intros h' Hne. rewrite Hr', Hr1, decide_False; [done|]. intros Heq.
      destruct (last_slot_in (HeadOf h) l1) as [Hl|(y&_&Hl)]; fold q in Hl; rewrite Hl in Heq; congruence.
    - intros y Hy Hy'. split; [|apply Hb2; set_solver]. rewrite Hr', Hr1, decide_False; [done|]. intros Heq.
      destruct (last_slot_in (HeadOf h) l1) as [Hl|(z&Hz&Hl)]; fold q in Hl; rewrite Hl in Heq; [done|].
      injection Heq as ->. set_solver. }
  destruct l2 as [|y l2]; simpl.
  - wp_step. apply Hfin; [done| |by intros|done]. intros y Hy. rewrite decide_False, Hb1; [done|].
    intros ->. by apply (seg_nonzero _ _ _ 0 Hs); [set_solver|].
  - simpl in Hs2. destruct Hs2 as (_&Hy0&Hyp&_). rewrite (proj2 (Z.eqb_neq _ _)) by done.
    apply wp_set_ppsThis.
    { apply Hn1. unfold pps in Hyp. destruct (l_nodes s !! y); [eauto|done]. }
    intros s2 (Hr2&Hb2&Hn2). apply Hfin; [done| | |done].
    + intros z Hz. rewrite Hb2. simpl. by rewrite Hb1.
    + intros z Hz. rewrite Hb2, decide_False by set_solver. done.
Qed.

(** ** Inserting *)

Theorem wp_List_Insert s m h l x :
  lists_ok s m → m !! h = Some l → x ≠ 0 → is_Some (l_nodes s !! x) →
  (∀ h' k, m !! h' = Some k → x ∉ k) →
  wp (List_Insert (HeadOf h) x) (λ _ s', lists_ok s' (<[h := x :: l]> m) ∧ same_nodes s s') s.
Proof.
  intros Hok Hh Hx0 Hx Hnew. destruct (lo_seg _ _ Hok _ _ Hh) as [Hs Hnd].
  assert (x ∉ l) as Hxl by eauto. unfold List_Insert.
  wp_step. apply wp_set_ppsThis; [done|]. intros s1 (Hr1&Hb1&Hn1).
  wp_step. eapply wp_load; [rewrite Hr1; by eapply seg_head|].
  wp_step. apply wp_set_psNext; [by apply Hn1|]. intros s2 (Hr2&Hb2&Hn2).
  wp_step. apply wp_store; [rewrite Hr2, Hr1, decide_False by done; rewrite (seg_head _ _ _ Hs); eauto|].
  intros s3 (Hr3&Hb3&Hn3).
  assert (rd s3 (NextOf x) = Some (hd 0 l)) as Hnx by (rewrite Hr3, decide_False, Hr2, decide_True by done; done).
  assert (pps s3 x = Some (HeadOf h)) as Hpx by (rewrite Hb3, Hb2, Hb1, decide_True by done; done).
  wp_step. eapply wp_get_node; [by apply node_fields|]. cbn [psNext].
  assert (∀ s', (∀ r, rd s' r = rd s3 r) →
    (∀ y, y ∈ l → pps s' y = if decide (y = hd 0 l) then Some (NextOf x) else pps s y) →
    (∀ y, y ∉ l → pps s' y = pps s3 y) → same_nodes s3 s' →
    lists_ok s' (<[h := x :: l]> m) ∧ same_nodes s s') as Hfin.
  { intros s' Hr' Hb' Hbo Hn'.
    assert (∀ q, q ≠ NextOf x → q ≠ HeadOf h → rd s' q = rd s q) as Hrd.
    { intros q Hq1 Hq2. rewrite Hr', Hr3, decide_False, Hr2, decide_False by done. apply Hr1. }
    split; [|intros n; etrans; [apply Hn'|]; etrans; [apply Hn3|]; etrans; [apply Hn2|apply Hn1]].
    eapply other_lists; [exact Hok|exact Hh| |by constructor|..].
    - simpl. split_and!; [rewrite Hr', Hr3, decide_True by done; done|done|by rewrite Hbo|].
      destruct l as [|y l]; simpl in *; [by rewrite Hr'|].
      destruct Hs as (H1&H2&H3&H4). apply NoDup_cons in Hnd as [Hy Hnd].
      split_and!; [by rewrite Hr'|done|rewrite Hb' by set_solver; by rewrite decide_True|].
      eapply seg_ext; [..|exact H4].
      + apply Hrd; [|done]. intros [= ->]. set_solver.
      + intros z Hz. split; [apply Hrd; [|done]; intros [= ->]; set_solver|].
        rewrite Hb', decide_False by set_solver. done.
    - intros y h' [->|Hy]%elem_of_cons Hne k Hk; [eauto|]. intros Hyk. apply Hne.
      by apply (lo_disj _ _ Hok h' h k l y).
    - intros h' Hne. apply Hrd; [done|]. congruence.
    - intros y Hy [Hyx _]%not_elem_of_cons. split; [apply Hrd; [congruence|done]|].
      by rewrite Hbo, Hb3, Hb2, Hb1, decide_False by done. }
  destruct l as [|y l]; simpl.
  - wp_step. apply Hfin; [done|by intros ? ?%elem_of_nil|done|done].
  - simpl in Hs. destruct Hs as (_&Hy0&Hyp&_). rewrite (proj2 (Z.eqb_neq _ _)) by done.
    assert (x ≠ y) as Hxy by set_solver.
    apply wp_set_ppsThis.
    { apply Hn3, Hn2, Hn1. unfold pps in Hyp. destruct (l_nodes s !! y); [eauto|done]. }
    intros s4 (Hr4&Hb4&Hn4). apply Hfin; [done| | |done].
    + intros z Hz. rewrite Hb4. simpl. case_decide; [done|].
      rewrite Hb3, Hb2, Hb1, decide_False; [done|]. intros ->. done.
    + intros z Hz. rewrite Hb4, decide_False by set_solver. done.
Qed.

(** ** Reversing *)

(** A chain whose head pointer is not in the store. *)
Definition loose (s : lists) (p : slot) (l : list Z) : Prop :=
  match l with [] => True | x :: r => x ≠ 0 ∧ pps s x = Some p ∧ seg s (NextOf x) r end.

(** The nodes to come: only their [psNext] matters. *)
Fixpoint nexts (s : lists) (l : list Z) : Prop :=
  match l with [] => True | x :: r => x ≠ 0 ∧ rd s (NextOf x) = Some (hd 0 r) ∧ nexts s r end.

Lemma nexts_ext s s' l :
  (∀ x, x ∈ l → rd s' (NextOf x) = rd s (NextOf x)) → nexts s l → nexts s' l.
Proof.
  induction l as [|x l IH]; intros Hx; simpl; [done|]. intros (?&?&?).
  split_and!; [done|rewrite Hx by set_solver; done|]. apply IH; [set_solver|done].
Qed.

Lemma seg_nexts s p l : seg s p l → nexts s l.
Proof.
  revert p. induction l as [|x l IH]; intros p; simpl; [done|]. intros (_&?&_&Hs).
  split_and!; [done|by apply seg_head|eauto].
Qed.

(** Only nodes of [l] are touched. *)
Definition within (l : list Z) (s s' : lists) : Prop :=
  (∀ q, (∀ x, x ∈ l → q ≠ NextOf x) → rd s' q = rd s q) ∧ (∀ x, x ∉ l → pps s' x = pps s x) ∧ same_nodes s s'.

Lemma within_trans l s1 s2 s3 : within l s1 s2 → within l s2 s3 → within l s1 s3.
Proof.
  intros (A1&A2&A3) (B1&B2&B3). split_and!.
  - intros q Hq. by rewrite B1, A1.
  - intros x Hx. by rewrite B2, A2.
  - intros n. etrans; [apply B3|apply A3].
Qed.

Lemma wp_reverse_loop p b : ∀ f s a,
  NoDup (b ++ a) → (∀ x, x ∈ b → is_Some (l_nodes s !! x)) →
  loose s (match b with [] => p | x :: _ => NextOf x end) a → nexts s b → (length b ≤ f)%nat →
  wp (reverse_loop f p (hd 0 a) (hd 0 b)) (λ r s', r = hd 0 (rev b ++ a) ∧ loose s' p (rev b ++ a) ∧
      within b s s') s.
Proof.
  induction b as [|x b IH]; intros f s a Hnd Hsome Ha Hb Hf.
  - assert (reverse_loop f p (hd 0 a) (hd 0 []) = mret (hd 0 a)) as -> by (by destruct f).
    by apply wp_ret.
  - destruct f as [|f]; simpl in Hf; [lia|]. destruct Hb as (Hx0&Hnx&Hb). simpl.
    rewrite (proj2 (Z.eqb_neq _ _)) by done. apply NoDup_cons in Hnd as [Hx Hnd].
    destruct (Hsome x ltac:(by left)) as [n Hn]. assert (psNext n = hd 0 b) as Hnn.
    { unfold rd in Hnx. rewrite Hn in Hnx. by injection Hnx. }
    wp_step. eapply wp_get_node; [exact Hn|]. rewrite Hnn.
    wp_step. apply wp_set_psNext; [eauto|]. intros s1 (Hr1&Hb1&Hn1).
    wp_step. apply wp_set_ppsThis; [apply Hn1; eauto|]. intros s2 (Hr2&Hb2&Hn2).
    assert (∀ y, y ≠ x → rd s2 (NextOf y) = rd s (NextOf y) ∧ pps s2 y = pps s y) as Hsame.
    { intros y Hy. rewrite Hr2, Hb2, decide_False by done. rewrite Hr1, decide_False by congruence. done. }
    assert (within (x :: b) s s2) as Hw.
    { split_and!.
      - intros q Hq. rewrite Hr2, Hr1, decide_False; [done|]. apply Hq. by left.
      - intros y Hy. apply Hsame. set_solver.
      - intros k. etrans; [apply Hn2|apply Hn1]. }
    replace ((rev b ++ [x]) ++ a) with (rev b ++ x :: a) by (by rewrite <- (assoc_L app)).
    eapply wp_mono; [apply (IH f s2 (x :: a))|].
    + rewrite NoDup_app, NoDup_cons in *. set_solver.
    + intros y Hy. apply Hn2, Hn1, Hsome. by right.
    + split; [done|]. split.
      * rewrite Hb2, decide_True by done. destruct b as [|y b]; simpl; [done|].
        destruct Hb as [Hy _]. by rewrite (proj2 (Z.eqb_neq _ _)).
      * destruct a as [|y a]; simpl.
        -- rewrite Hr2, Hr1. by rewrite decide_True.
        -- destruct Ha as (Hy0&Hyp&Hs). assert (y ≠ x) by set_solver. destruct (Hsame y ltac:(done)) as [_ Hpy].
           split_and!; [rewrite Hr2, Hr1; by rewrite decide_True|done|congruence|].
           eapply seg_ext; [by apply Hsame| |exact Hs]. intros z Hz. apply Hsame. set_solver.
    + eapply nexts_ext; [|exact Hb]. intros y Hy. apply Hsame. set_solver.
    + lia.
    + intros r s' (->&Hl&Hw'). split_and!; [done|done|]. eapply within_trans; [exact Hw|].
      destruct Hw' as (W1&W2&W3). split_and!; [|..|done].
      * intros q Hq. apply W1. intros y Hy. apply Hq. by right.
      * intros y Hy. apply W2. set_solver.
Qed.

Theorem wp_List_Reverse s m h l :
  lists_ok s m → m !! h = Some l →
  wp (List_Reverse (HeadOf h)) (λ _ s', lists_ok s' (<[h := rev l]> m) ∧ same_nodes s s') s.
Proof.
  intros Hok Hh. destruct (lo_seg _ _ Hok _ _ Hh) as [Hs Hnd]. unfold List_Reverse.
  wp_step. eapply wp_load; [by eapply seg_head|]. wp_step. unfold node_count. wp_step. wp_step.
  eapply wp_mono; [apply (wp_reverse_loop (HeadOf h) l _ s [])|].
  - by rewrite app_nil_r.
  - intros x. by apply (seg_some s (HeadOf h)).
  - done.
  - by eapply seg_nexts.
  - by eapply seg_length.
  - intros r s1 (->&Hl&W1&W2&W3). rewrite app_nil_r in *. apply wp_store.
    { rewrite W1 by done. rewrite (seg_head _ _ _ Hs). eauto. }
    intros s2 (Hr2&Hb2&Hn2). split; [|intros n; etrans; [apply Hn2|apply W3]].
    assert (∀ x, rd s2 (NextOf x) = rd s1 (NextOf x)) as Hrn by (intros x; by rewrite Hr2, decide_False).
    eapply other_lists; [exact Hok|exact Hh| |by rewrite <- Permutation_rev|..].
    + destruct (rev l) as [|x r]; simpl in *; [by rewrite Hr2, decide_True|].
      destruct Hl as (Hx0&Hxp&Hsx). split_and!; [by rewrite Hr2, decide_True|done|by rewrite Hb2|].
      eapply seg_ext; [apply Hrn| |exact Hsx]. intros y _. split; [apply Hrn|apply Hb2].
    + intros y h' Hy Hne k Hk Hyk. apply Hne. rewrite list_elem_of_In, <- in_rev, <- list_elem_of_In in Hy.
      by apply (lo_disj _ _ Hok h' h k l y).
    + intros h' Hne. rewrite Hr2, decide_False by congruence. by rewrite W1.
    + intros y Hy _. rewrite Hrn, Hb2. split; [apply W1|by apply W2]. intros z Hz [= ->]. done.
Qed.

(** ** Walking *)

Section walk.
Context {S : Type} (on : ∀ A, M lists A → M S A) (get : S → lists).
Context (Hon : ∀ A (m : M lists A) Q s, wp m (λ a t, t = get s ∧ Q a s) (get s) → wp (on A m) Q s).

(** The first value that stops the walk, [cb] reading the state only. *)
Fixpoint first_of {R} (cont : R → bool) (f : Z → R) (r0 : R) (l : list Z) : R :=
  match l with
  | [] => r0
  | x :: l => if cont (f x) then first_of cont f (f x) l else f x
  end.

Lemma wp_any_loop {R} (cont : R → bool) (cb : Z → M S R) (f : Z → R) s l : ∀ k p r0,
  seg (get s) p l → cont r0 = true → (length l ≤ k)%nat →
  (∀ x Q, x ∈ l → Q (f x) s → wp (cb x) Q s) →
  wp (any_loop on k cont cb r0 (hd 0 l)) (λ r s', r = first_of cont f r0 l ∧ s' = s) s.
Proof.
  induction l as [|x l IH]; intros k p r0 Hs Hr Hk Hcb.
  - assert (any_loop on k cont cb r0 (hd 0 []) = mret r0) as -> by (by destruct k).
    by apply wp_ret.
  - destruct k as [|k]; simpl in Hk; [lia|]. destruct Hs as (H1&H2&H3&H4). simpl.
    rewrite Hr, (proj2 (Z.eqb_neq _ _)) by done. simpl.
    wp_step. apply Hon. eapply wp_get_node; [apply node_fields; [by apply seg_head|exact H3]|].
    split; [done|]. wp_step. apply Hcb; [by left|]. cbn [psNext].
    destruct (cont (f x)) eqn:Hc.
    + eapply IH; [exact H4|done|lia|]. intros y Q Hy. apply Hcb. by right.
    + assert (any_loop on k cont cb (f x) (hd 0 l) = mret (f x)) as ->.
      { destruct k; simpl; rewrite Hc; by rewrite orb_true_r. }
      by apply wp_ret.
Qed.

Lemma wp_List_Any_2 {R} (CONTINUE : R) (cont : R → bool) (cb : Z → M S R) (f : Z → R) s p l :
  seg (get s) p l → NoDup l → cont CONTINUE = true →
  (∀ x Q, x ∈ l → Q (f x) s → wp (cb x) Q s) →
  wp (List_Any_2 on CONTINUE cont (hd 0 l) cb) (λ r s', r = first_of cont f CONTINUE l ∧ s' = s) s.
Proof.
  intros Hs Hnd Hc Hcb. unfold List_Any_2. wp_step. apply Hon. unfold node_count. wp_step. split; [done|].
  eapply wp_any_loop; [exact Hs|done|by eapply seg_length|done].
Qed.

(** A callback that keeps [I], the list with it. *)
Lemma wp_for_each_loop (cb : Z → M S unit) (I : S → Prop) L l : ∀ k p s,
  seg L p l → (∀ t, I t → get t = L) → (∀ x t, x ∈ l → I t → wp (cb x) (λ _, I) t) → (length l ≤ k)%nat → I s →
  wp (for_each_loop on k cb (hd 0 l)) (λ _, I) s.
Proof.
  induction l as [|x l IH]; intros k p s Hs HL Hcb Hk HI.
  - assert (for_each_loop on k cb (hd 0 []) = mret tt) as -> by (by destruct k). by apply wp_ret.
  - destruct k as [|k]; simpl in Hk; [lia|]. destruct Hs as (H1&H2&H3&H4). simpl.
    rewrite (proj2 (Z.eqb_neq _ _)) by done. wp_step. eapply wp_mono; [by apply Hcb; [left|]|]. intros [] s1 HI1.
    wp_step. apply Hon. rewrite (HL s1 HI1). eapply wp_get_node; [apply node_fields; [by apply seg_head|exact H3]|].
    split; [done|]. cbn [psNext]. eapply IH; [exact H4|done| |lia|done]. intros y t Hy. apply Hcb. by right.
Qed.

Lemma wp_List_ForEach (cb : Z → M S unit) (I : S → Prop) s p l :
  seg (get s) p l → NoDup l → I s → (∀ t, I t → get t = get s) → (∀ x t, x ∈ l → I t → wp (cb x) (λ _, I) t) →
  wp (List_ForEach on (hd 0 l) cb) (λ _, I) s.
Proof.
  intros Hs Hnd HI HL Hcb. unfold List_ForEach. wp_step. apply Hon. unfold node_count. wp_step. split; [done|].
  eapply wp_for_each_loop; [exact Hs|done|done|by eapply seg_length|done].
Qed.
End walk.

(** ** The lists as a whole *)

Lemma filter_ne_id (i : Z) (l : list Z) : i ∉ l → filter (λ x, x ≠ i) l = l.
Proof.
  induction l as [|x l IH]; [done|]. intros [? ?]%not_elem_of_cons. rewrite filter_cons_True by done. by rewrite IH.
Qed.

Lemma filter_ne_mid (i : Z) (l1 l2 : list Z) : NoDup (l1 ++ i :: l2) → filter (λ x, x ≠ i) (l1 ++ i :: l2) = l1 ++ l2.
Proof.
  intros (_&Hd&[? _]%NoDup_cons)%NoDup_app. rewrite filter_app, filter_cons_False by (by intros []).
  rewrite !filter_ne_id; [done|done|]. intros Hi. apply (Hd i Hi). by left.
Qed.

(** Taking an item out of the one list it is in. *)
Lemma unlinked_owned s m c l1 i l2 : lists_ok s m → m !! c = Some (l1 ++ i :: l2) →
  filter (λ x, x ≠ i) <$> m = <[c := l1 ++ l2]> m.
Proof.
  intros Hok Hc. apply map_eq. intros c'. rewrite lookup_fmap. destruct (decide (c' = c)) as [->|Hne].
  - rewrite lookup_insert_eq, Hc. simpl. f_equal. apply filter_ne_mid. by apply (lo_seg _ _ Hok c).
  - rewrite lookup_insert_ne by done. destruct (m !! c') as [l|] eqn:Hl; [|done]. simpl. f_equal.
    apply filter_ne_id. intros Hi. apply Hne. apply (lo_disj _ _ Hok c' c l (l1 ++ i :: l2) i); [done|done|done|set_solver].
Qed.

Inductive list_op := LInsert (h x : Z) | LRemove (x : Z) | LReverse (h : Z).

Definition run_list_op (o : list_op) : M lists unit :=
  match o with
  | LInsert h x => List_Insert (HeadOf h) x
  | LRemove x => List_Remove x
  | LReverse h => List_Reverse (HeadOf h)
  end.

(** What the operation does to the lists, by their heads. *)
Definition list_spec (o : list_op) (m : gmap Z (list Z)) : gmap Z (list Z) :=
  match o with
  | LInsert h x => alter (cons x) h m
  | LRemove x => filter (λ y, y ≠ x) <$> m
  | LReverse h => alter (@rev Z) h m
  end.

(** [x] is a node that is in no list. *)
Definition idle (m : gmap Z (list Z)) (x : Z) : Prop := map_Forall (λ _ l, x ∉ l) m.

#[export] Instance idle_dec m x : Decision (idle m x).
Proof. unfold idle. apply _. Defined.

Definition list_pre (nodes : gset Z) (o : list_op) (m : gmap Z (list Z)) : Prop :=
  match o with
  | LInsert h x => is_Some (m !! h) ∧ x ≠ 0 ∧ x ∈ nodes ∧ idle m x
  | LRemove x => ¬ idle m x
  | LReverse h => is_Some (m !! h)
  end.

#[export] Instance list_pre_dec nodes o m : Decision (list_pre nodes o m).
Proof. destruct o; simpl; apply _. Defined.

Fixpoint lists_pre (nodes : gset Z) (ops : list list_op) (m : gmap Z (list Z)) : Prop :=
  match ops with [] => True | o :: ops => list_pre nodes o m ∧ lists_pre nodes ops (list_spec o m) end.

#[export] Instance lists_pre_dec nodes ops m : Decision (lists_pre nodes ops m).
Proof. revert m. induction ops as [|o ops IH]; intros m; simpl; apply _. Defined.

Fixpoint run_list_ops (ops : list list_op) : M lists unit :=
  match ops with [] => mret tt | o :: ops => run_list_op o;; run_list_ops ops end.

Fixpoint lists_spec (ops : list list_op) (m : gmap Z (list Z)) : gmap Z (list Z) :=
  match ops with [] => m | o :: ops => lists_spec ops (list_spec o m) end.

Lemma alter_some {A} (f : A → A) (m : gmap Z A) k x : m !! k = Some x → alter f k m = <[k := f x]> m.
Proof.
  intros Hk. apply map_eq. intros j. destruct (decide (j = k)) as [->|].
  - by rewrite lookup_alter_eq, lookup_insert_eq, Hk.
  - by rewrite lookup_alter_ne, lookup_insert_ne.
Qed.

Lemma not_idle m x : ¬ idle m x → ∃ h l, m !! h = Some l ∧ x ∈ l.
Proof.
  unfold idle. intros (h&l&Hl&Hx)%map_not_Forall; [|apply _]. exists h, l. split; [done|].
  by destruct (decide (x ∈ l)).
Qed.

Lemma wp_run_list_op s m o :
  lists_ok s m → list_pre (dom (l_nodes s)) o m →
  wp (run_list_op o) (λ _ s', lists_ok s' (list_spec o m) ∧ same_nodes s s') s.
Proof.
  intros Hok Hp. destruct o as [h x|x|h]; simpl in *.
  - destruct Hp as ([l Hl]&Hx&Hn%elem_of_dom&Hi). rewrite (alter_some _ _ _ _ Hl). by apply wp_List_Insert.
  - apply not_idle in Hp as (h&l&Hl&Hx). apply list_elem_of_split in Hx as (l1&l2&->).
    rewrite (unlinked_owned _ _ _ _ _ _ Hok Hl). by apply wp_List_Remove.
  - destruct Hp as [l Hl]. rewrite (alter_some _ _ _ _ Hl). by apply wp_List_Reverse.
Qed.

Lemma wp_run_list_ops ops : ∀ s m,
  lists_ok s m → lists_pre (dom (l_nodes s)) ops m →
  wp (run_list_ops ops) (λ _ s', lists_ok s' (lists_spec ops m)) s.
Proof.
  induction ops as [|o ops IH]; intros s m Hok Hp; simpl in *; [done|].
  destruct Hp as [Hp Hps]. wp_step. eapply wp_mono; [by apply wp_run_list_op|]. intros _ s1 [Hok1 Hn1].
  apply IH; [done|]. assert (dom (l_nodes s1) = dom (l_nodes s)) as ->; [|done].
  apply set_eq. intros n. rewrite !elem_of_dom. apply Hn1.
Qed.

Lemma first_of_hd f l : first_of (λ r, r =? 0) f 0 l = hd 0 (filter (λ y, y ≠ 0) (f <$> l)).
Proof.
  induction l as [|x l IH]; simpl; [done|]. destruct (Z.eqb_spec (f x) 0) as [Hf|Hf].
  - rewrite filter_cons_False by auto. by rewrite Hf.
  - by rewrite filter_cons_True by done.
Qed.

(** C16: any sequence of insertions, removals and reversals of the macros does
    to the linked structure what it does to plain lists, other lists being
    left alone: every node keeps its place and [ppsThis] leads back to the
    pointer that leads to it; and a traversal afterwards answers the first
    non-null answer of its callback, in the order of the list, and changes
    nothing. *)
Theorem lists_refine (s : lists) (m : gmap Z (list Z)) (ops : list list_op) (h : Z) (l : list Z) (f : Z → Z) :
  lists_ok s m → lists_pre (dom (l_nodes s)) ops m → lists_spec ops m !! h = Some l →
  wp (run_list_ops ops;;
      head ← load (HeadOf h);
      List_Any (λ A m, m) head (λ x, mret (f x)))
    (λ r s', lists_ok s' (lists_spec ops m) ∧ r = hd 0 (filter (λ y, y ≠ 0) (f <$> l))) s.
Proof.
  intros Hok Hp Hl. wp_step. eapply wp_mono; [by apply wp_run_list_ops|]. intros [] s1 Hok1.
  destruct (lo_seg _ _ Hok1 _ _ Hl) as [Hs Hnd]. wp_step. eapply wp_load; [by apply seg_head|].
  unfold List_Any. eapply wp_mono.
  - apply (wp_List_Any_2 (λ A m, m) (λ s, s)) with (f := f) (p := HeadOf h); [|exact Hs|exact Hnd|done|done].
    intros A c Q t Hc. eapply wp_mono; [exact Hc|]. intros a t' [Ht ?]. by rewrite Ht.
  - intros r s2 [Hr Hs2]. rewrite Hs2, Hr. split; [done|]. apply first_of_hd.
Qed.

(** Three nodes and two empty lists. *)
Definition demo_lists : lists :=
  mkLists (list_to_map ((λ n, (n, mkNode 0 (HeadOf 0))) <$> [11; 12; 13])) {[1 := 0; 2 := 0]}.

Lemma lists_refine_witness :
  wp (run_list_ops [LInsert 1 11; LInsert 1 12; LInsert 2 13; LReverse 1; LRemove 13; LInsert 1 13];;
      head ← load (HeadOf 1);
      List_Any (λ A m, m) head (λ x, mret (if x <? 13 then x + 1 else 0)))
    (λ r s', r = 12) demo_lists.
Proof.
  eapply wp_mono.
  - apply (lists_refine demo_lists {[1 := []; 2 := []]} [LInsert 1 11; LInsert 1 12; LInsert 2 13; LReverse 1; LRemove 13; LInsert 1 13]
      1 [13; 11; 12] (λ x, if x <? 13 then x + 1 else 0)).
    + split.
      * intros h l [[<- <-]|[_ [<- <-]%lookup_singleton_Some]]%lookup_insert_Some; by repeat constructor.
      * intros h1 h2 l1 l2 x [[<- <-]|[_ [<- <-]%lookup_singleton_Some]]%lookup_insert_Some _ []%elem_of_nil.
    + apply (bool_decide_unpack _). vm_compute. exact I.
    + reflexivity.
  - intros r s' [_ ->]. reflexivity.
Defined.
