(* ===== verification/ResMan.v ===== *)
(** * resman.c: the resource manager

    A context per process holds the list of the resources the process owns,
    each with the function that frees it; closing the context frees what is
    left, type by type.  A mutex protects the lists and is let go while a
    resource is being freed.  The lists are those of Lists.v: the
    items are the nodes of [rm_items], headed by the context's
    [psResItemList]; the contexts those of [rm_contexts], headed (as number
    0) by [gpsResList->psContextList].  Addresses are numbers never used
    again.  The DEBUG checks of the lists are not compiled in. *)

From S2P Require Import Prelude Lists.

(** ** Data *)

Definition RESMAN_TYPE_SHARED_PB_DESC : Z := 1.
Definition RESMAN_TYPE_SHARED_PB_DESC_CREATE_LOCK : Z := 2.
Definition RESMAN_TYPE_HW_RENDER_CONTEXT : Z := 3.
Definition RESMAN_TYPE_HW_TRANSFER_CONTEXT : Z := 4.
Definition RESMAN_TYPE_HW_2D_CONTEXT : Z := 5.
Definition RESMAN_TYPE_TRANSFER_CONTEXT : Z := 6.
Definition RESMAN_TYPE_DMA_CLIENT_FIFO_DATA : Z := 7.
Definition RESMAN_TYPE_DISPLAYCLASS_SWAPCHAIN_REF : Z := 8.
Definition RESMAN_TYPE_DISPLAYCLASS_DEVICE : Z := 9.
Definition RESMAN_TYPE_BUFFERCLASS_DEVICE : Z := 10.
Definition RESMAN_TYPE_OS_USERMODE_MAPPING : Z := 11.
Definition RESMAN_TYPE_DEVICEMEM_CONTEXT : Z := 12.
Definition RESMAN_TYPE_DEVICECLASSMEM_MAPPING : Z := 13.
Definition RESMAN_TYPE_DEVICEMEM_MAPPING : Z := 14.
Definition RESMAN_TYPE_DEVICEMEM_WRAP : Z := 15.
Definition RESMAN_TYPE_DEVICEMEM_ALLOCATION : Z := 16.
Definition RESMAN_TYPE_EVENT_OBJECT : Z := 17.
Definition RESMAN_TYPE_SHARED_MEM_INFO : Z := 18.
Definition RESMAN_TYPE_MODIFY_SYNC_OPS : Z := 19.
Definition RESMAN_TYPE_SYNC_INFO : Z := 20.
Definition RESMAN_TYPE_KERNEL_DEVICEMEM_ALLOCATION : Z := 21.

Definition RESMAN_CRITERIA_ALL : Z := 0.
Definition RESMAN_CRITERIA_RESTYPE : Z := 1.
Definition RESMAN_CRITERIA_PVOID_PARAM : Z := 2.
Definition RESMAN_CRITERIA_UI32_PARAM : Z := 4.

Definition CLEANUP_WITH_POLL : bool := false.
Definition FORCE_CLEANUP : bool := true.

(** [RESMAN_ITEM] but for its links. *)
Record RESMAN_ITEM := mkItem {
  ri_ui32Flags : Z;
  ri_ui32ResType : Z;
  ri_pvParam : Z;
  ri_ui32Param : Z;
  ri_pfnFreeResource : Z }.

(** A call of a free function: the function, its parameters. *)
Record free_call := mkCall { fc_fn : Z; fc_pvParam : Z; fc_ui32Param : Z; fc_bForceCleanup : bool }.

Record rm_st := mkRm {
  rm_os : os;
  rm_next : Z;                        (** the next address *)
  rm_locked : bool;                   (** the mutex *)
  rm_in_interrupt : bool;
  gpsResList : bool;                  (** whether it is allocated *)
  rm_item_data : gmap Z RESMAN_ITEM;
  rm_items : lists;
  rm_perproc : gmap Z Z;              (** [psPerProc] of each context *)
  rm_contexts : lists;
  rm_calls : list free_call }.        (** the calls made so far *)

(** What a fresh node's links hold. *)
Class FreshLinks := fresh_links : node.

(** The free functions: other parts of the driver, which may call back. *)
Class FreeFns := call_free : Z → Z → Z → bool → M rm_st PVRSRV_ERROR.

(** ** Access *)

Definition set_rm_os o (s : rm_st) := mkRm o (rm_next s) (rm_locked s) (rm_in_interrupt s)
  (gpsResList s) (rm_item_data s) (rm_items s) (rm_perproc s) (rm_contexts s) (rm_calls s).
Definition set_rm_locked b (s : rm_st) := mkRm (rm_os s) (rm_next s) b (rm_in_interrupt s)
  (gpsResList s) (rm_item_data s) (rm_items s) (rm_perproc s) (rm_contexts s) (rm_calls s).
Definition set_gpsResList b (s : rm_st) := mkRm (rm_os s) (rm_next s) (rm_locked s) (rm_in_interrupt s)
  b (rm_item_data s) (rm_items s) (rm_perproc s) (rm_contexts s) (rm_calls s).
Definition set_rm_items l (s : rm_st) := mkRm (rm_os s) (rm_next s) (rm_locked s) (rm_in_interrupt s)
  (gpsResList s) (rm_item_data s) l (rm_perproc s) (rm_contexts s) (rm_calls s).
Definition set_rm_contexts l (s : rm_st) := mkRm (rm_os s) (rm_next s) (rm_locked s) (rm_in_interrupt s)
  (gpsResList s) (rm_item_data s) (rm_items s) (rm_perproc s) l (rm_calls s).
Definition add_call c (s : rm_st) := mkRm (rm_os s) (rm_next s) (rm_locked s) (rm_in_interrupt s)
  (gpsResList s) (rm_item_data s) (rm_items s) (rm_perproc s) (rm_contexts s) (rm_calls s ++ [c]).

Definition with_rm_os {A} (m : M os A) : M rm_st A := zoom rm_os set_rm_os m.
Definition on_items A (m : M lists A) : M rm_st A := zoom rm_items set_rm_items m.
Definition on_contexts A (m : M lists A) : M rm_st A := zoom rm_contexts set_rm_contexts m.

Definition get_item (psItem : Z) : M rm_st RESMAN_ITEM :=
  o ← gets (λ s, rm_item_data s !! psItem); deref o.

(** Taking the mutex twice in a thread, letting go of one that is not held,
    and taking one in an interrupt ([BUG()]) are errors of the program. *)
Definition ACQUIRE_SYNC_OBJ : M rm_st unit :=
  s ← get;
  if rm_in_interrupt s || rm_locked s then fault else modify (set_rm_locked true).

Definition RELEASE_SYNC_OBJ : M rm_st unit :=
  s ← get; if rm_locked s then modify (set_rm_locked false) else fault.

Section resman.
Context {links : FreshLinks} {fns : FreeFns}.

(** [OSAllocMem] of an item or a context, whose address is [rm_next]. *)
Definition new_item (d : RESMAN_ITEM) : M rm_st Z :=
  s ← get;
  put (mkRm (rm_os s) (rm_next s + 1) (rm_locked s) (rm_in_interrupt s) (gpsResList s)
    (<[rm_next s := d]> (rm_item_data s))
    (mkLists (<[rm_next s := fresh_links]> (l_nodes (rm_items s))) (l_heads (rm_items s)))
    (rm_perproc s) (rm_contexts s) (rm_calls s));;
  mret (rm_next s).

Definition free_item (psItem : Z) : M rm_st unit :=
  _ ← get_item psItem;
  with_rm_os OSFreeMem;;
  modify (λ s, mkRm (rm_os s) (rm_next s) (rm_locked s) (rm_in_interrupt s) (gpsResList s)
    (delete psItem (rm_item_data s))
    (mkLists (delete psItem (l_nodes (rm_items s))) (l_heads (rm_items s)))
    (rm_perproc s) (rm_contexts s) (rm_calls s)).

(** A context, with an empty list of items. *)
Definition new_context (hPerProc : Z) : M rm_st Z :=
  s ← get;
  put (mkRm (rm_os s) (rm_next s + 1) (rm_locked s) (rm_in_interrupt s) (gpsResList s)
    (rm_item_data s) (mkLists (l_nodes (rm_items s)) (<[rm_next s := IMG_NULL]> (l_heads (rm_items s))))
    (<[rm_next s := hPerProc]> (rm_perproc s))
    (mkLists (<[rm_next s := fresh_links]> (l_nodes (rm_contexts s))) (l_heads (rm_contexts s)))
    (rm_calls s));;
  mret (rm_next s).

Definition free_context (psContext : Z) : M rm_st unit :=
  o ← gets (λ s, rm_perproc s !! psContext);
  _ ← deref o;
  with_rm_os OSFreeMem;;
  modify (λ s, mkRm (rm_os s) (rm_next s) (rm_locked s) (rm_in_interrupt s) (gpsResList s)
    (rm_item_data s) (mkLists (l_nodes (rm_items s)) (delete psContext (l_heads (rm_items s))))
    (delete psContext (rm_perproc s))
    (mkLists (delete psContext (l_nodes (rm_contexts s))) (l_heads (rm_contexts s)))
    (rm_calls s)).

(** ** Freeing *)

Definition FreeResourceByPtr (psItem : Z) (bExecuteCallback bForceCleanup : bool) :
    M rm_st PVRSRV_ERROR :=
  if psItem =? IMG_NULL then mret PVRSRV_ERROR_INVALID_PARAMS
  else
    on_items _ (List_Remove psItem);;
    RELEASE_SYNC_OBJ;;
    eError ← (if bExecuteCallback then
                it ← get_item psItem;
                modify (add_call (mkCall (ri_pfnFreeResource it) (ri_pvParam it) (ri_ui32Param it) bForceCleanup));;
                call_free (ri_pfnFreeResource it) (ri_pvParam it) (ri_ui32Param it) bForceCleanup
              else mret PVRSRV_OK);
    ACQUIRE_SYNC_OBJ;;
    free_item psItem;;
    mret eError.

(** Whether an item meets the criteria. *)
Definition meets (ui32SearchCriteria ui32ResType pvParam ui32Param : Z) (it : RESMAN_ITEM) : bool :=
  ((Z.land ui32SearchCriteria RESMAN_CRITERIA_RESTYPE =? 0) || (ri_ui32ResType it =? ui32ResType)) &&
  ((Z.land ui32SearchCriteria RESMAN_CRITERIA_PVOID_PARAM =? 0) || (ri_pvParam it =? pvParam)) &&
  ((Z.land ui32SearchCriteria RESMAN_CRITERIA_UI32_PARAM =? 0) || (ri_ui32Param it =? ui32Param)).

Definition FreeResourceByCriteria_AnyVaCb (ui32SearchCriteria ui32ResType pvParam ui32Param psCurItem : Z) :
    M rm_st Z :=
  it ← get_item psCurItem;
  mret (if meets ui32SearchCriteria ui32ResType pvParam ui32Param it then psCurItem else IMG_NULL).

(** The loop of [FreeResourceByCriteria]; the items bound its turns. *)
Fixpoint criteria_loop (fuel : nat) (psResManContext ui32SearchCriteria ui32ResType pvParam ui32Param : Z)
    (bExecuteCallback : bool) (eError : PVRSRV_ERROR) : M rm_st PVRSRV_ERROR :=
  head ← on_items _ (load (HeadOf psResManContext));
  psCurItem ← List_Any on_items head
    (FreeResourceByCriteria_AnyVaCb ui32SearchCriteria ui32ResType pvParam ui32Param);
  if negb (psCurItem =? IMG_NULL) && is_OK eError then
    match fuel with
    | O => out_of_fuel
    | S fuel =>
        eError ← FreeResourceByPtr psCurItem bExecuteCallback CLEANUP_WITH_POLL;
        criteria_loop fuel psResManContext ui32SearchCriteria ui32ResType pvParam ui32Param
          bExecuteCallback eError
    end
  else mret eError.

Definition FreeResourceByCriteria (psResManContext ui32SearchCriteria ui32ResType pvParam ui32Param : Z)
    (bExecuteCallback : bool) : M rm_st PVRSRV_ERROR :=
  n ← gets (λ s, size (rm_item_data s));
  criteria_loop n psResManContext ui32SearchCriteria ui32ResType pvParam ui32Param bExecuteCallback PVRSRV_OK.

(** ** The interface *)

Definition ResManInit : M rm_st PVRSRV_ERROR :=
  s ← get;
  if gpsResList s then mret PVRSRV_OK
  else
    ok ← with_rm_os OSAllocMem;
    if negb ok then mret PVRSRV_ERROR_OUT_OF_MEMORY
    else
      modify (set_gpsResList true);;
      modify (λ s, set_rm_contexts (mkLists (l_nodes (rm_contexts s)) (<[0 := IMG_NULL]> (l_heads (rm_contexts s)))) s);;
      mret PVRSRV_OK.

Definition ResManDeInit : M rm_st unit :=
  s ← get;
  if gpsResList s then
    with_rm_os OSFreeMem;;
    modify (set_gpsResList false);;
    modify (λ s, set_rm_contexts (mkLists (l_nodes (rm_contexts s)) (delete 0 (l_heads (rm_contexts s)))) s)
  else mret tt.

(** The answer carries [*phResManContext]. *)
Definition PVRSRVResManConnect (hPerProc : Z) : M rm_st (PVRSRV_ERROR * option Z) :=
  ACQUIRE_SYNC_OBJ;;
  ok ← with_rm_os OSAllocMem;
  if negb ok then RELEASE_SYNC_OBJ;; mret (PVRSRV_ERROR_OUT_OF_MEMORY, None)
  else
    psResManContext ← new_context hPerProc;
    on_contexts _ (List_Insert (HeadOf 0) psResManContext);;
    RELEASE_SYNC_OBJ;;
    mret (PVRSRV_OK, Some psResManContext).

(** The types in the order [PVRSRVResManDisconnect] frees them: up to the
    synchronisation operations, which are freed oldest first, and after. *)
Definition types_before : list Z :=
  [RESMAN_TYPE_OS_USERMODE_MAPPING; RESMAN_TYPE_DMA_CLIENT_FIFO_DATA; RESMAN_TYPE_EVENT_OBJECT].

Definition types_after : list Z :=
  [RESMAN_TYPE_HW_RENDER_CONTEXT; RESMAN_TYPE_HW_TRANSFER_CONTEXT; RESMAN_TYPE_HW_2D_CONTEXT;
   RESMAN_TYPE_TRANSFER_CONTEXT; RESMAN_TYPE_SHARED_PB_DESC_CREATE_LOCK; RESMAN_TYPE_SHARED_PB_DESC;
   RESMAN_TYPE_SYNC_INFO; RESMAN_TYPE_DEVICECLASSMEM_MAPPING; RESMAN_TYPE_DEVICEMEM_WRAP;
   RESMAN_TYPE_DEVICEMEM_MAPPING; RESMAN_TYPE_KERNEL_DEVICEMEM_ALLOCATION;
   RESMAN_TYPE_DEVICEMEM_ALLOCATION; RESMAN_TYPE_DEVICEMEM_CONTEXT; RESMAN_TYPE_SHARED_MEM_INFO;
   RESMAN_TYPE_DISPLAYCLASS_SWAPCHAIN_REF; RESMAN_TYPE_DISPLAYCLASS_DEVICE; RESMAN_TYPE_BUFFERCLASS_DEVICE].

Fixpoint free_types (psResManContext : Z) (types : list Z) : M rm_st unit :=
  match types with
  | [] => mret tt
  | t :: types =>
      _ ← FreeResourceByCriteria psResManContext RESMAN_CRITERIA_RESTYPE t 0 0 true;
      free_types psResManContext types
  end.

Definition PVRSRVResManDisconnect (psResManContext : Z) (bKernelContext : bool) : M rm_st unit :=
  ACQUIRE_SYNC_OBJ;;
  (if negb bKernelContext then
     free_types psResManContext types_before;;
     on_items _ (List_Reverse (HeadOf psResManContext));;
     _ ← FreeResourceByCriteria psResManContext RESMAN_CRITERIA_RESTYPE RESMAN_TYPE_MODIFY_SYNC_OPS 0 0 true;
     on_items _ (List_Reverse (HeadOf psResManContext));;
     free_types psResManContext types_after
   else mret tt);;
  on_contexts _ (List_Remove psResManContext);;
  free_context psResManContext;;
  RELEASE_SYNC_OBJ.

Definition ResManRegisterRes (psResManContext ui32ResType pvParam ui32Param pfnFreeResource : Z) : M rm_st Z :=
  if psResManContext =? IMG_NULL then mret IMG_NULL
  else
    ACQUIRE_SYNC_OBJ;;
    ok ← with_rm_os OSAllocMem;
    if negb ok then RELEASE_SYNC_OBJ;; mret IMG_NULL
    else
      psNewResItem ← new_item (mkItem 0 ui32ResType pvParam ui32Param pfnFreeResource);
      on_items _ (List_Insert (HeadOf psResManContext) psNewResItem);;
      RELEASE_SYNC_OBJ;;
      mret psNewResItem.

Definition ResManFreeResByPtr (psResItem : Z) (bForceCleanup : bool) : M rm_st PVRSRV_ERROR :=
  if psResItem =? IMG_NULL then mret PVRSRV_OK
  else
    ACQUIRE_SYNC_OBJ;;
    eError ← FreeResourceByPtr psResItem true bForceCleanup;
    RELEASE_SYNC_OBJ;;
    mret eError.

Definition ResManFreeResByCriteria (psResManContext ui32SearchCriteria ui32ResType pvParam ui32Param : Z) :
    M rm_st PVRSRV_ERROR :=
  ACQUIRE_SYNC_OBJ;;
  eError ← FreeResourceByCriteria psResManContext ui32SearchCriteria ui32ResType pvParam ui32Param true;
  RELEASE_SYNC_OBJ;;
  mret eError.

(** The mutex is not taken here. *)
Definition ResManDissociateRes (psResItem psNewResManContext : Z) : M rm_st PVRSRV_ERROR :=
  if psResItem =? IMG_NULL then mret PVRSRV_ERROR_INVALID_PARAMS
  else if negb (psNewResManContext =? IMG_NULL) then
    on_items _ (List_Remove psResItem);;
    on_items _ (List_Insert (HeadOf psNewResManContext) psResItem);;
    mret PVRSRV_OK
  else FreeResourceByPtr psResItem false CLEANUP_WITH_POLL.

Definition ResManFindResourceByPtr_AnyVaCb (psItem psCurItem : Z) : M rm_st bool :=
  mret (psCurItem =? psItem).

Definition ResManFindResourceByPtr (psResManContext psItem : Z) : M rm_st PVRSRV_ERROR :=
  if (psItem =? IMG_NULL) || (psResManContext =? IMG_NULL) then mret PVRSRV_ERROR_INVALID_PARAMS
  else
    ACQUIRE_SYNC_OBJ;;
    head ← on_items _ (load (HeadOf psResManContext));
    found ← List_Any_2 on_items false negb head (ResManFindResourceByPtr_AnyVaCb psItem);
    RELEASE_SYNC_OBJ;;
    mret (if found : bool then PVRSRV_OK else PVRSRV_ERROR_NOT_OWNER).
End resman.
