(* ===== verification/ResManRep.v ===== *)
(** * The resource manager as lists of owned items

    [rm_abs] is what the resource manager promises: the contexts, newest
    first, the items each of them owns, newest first, what is registered
    for each item, and the calls made.  [rep] relates the store of ResMan.v
    to it. *)

From S2P Require Import Prelude Lists ResMan.

(** ** The abstract state *)

Record rm_abs := mkAbs {
  ab_os : os;
  ab_next : Z;
  ab_ctx : list Z;
  ab_perproc : gmap Z Z;
  ab_owned : gmap Z (list Z);
  ab_data : gmap Z RESMAN_ITEM;
  ab_calls : list free_call }.

Definition linked (a : rm_abs) (i : Z) : Prop := ∃ c l, ab_owned a !! c = Some l ∧ i ∈ l.

Record wf (a : rm_abs) : Prop := {
  wf_next : 0 < ab_next a;
  wf_data i : is_Some (ab_data a !! i) → 0 < i < ab_next a;
  wf_perproc c : is_Some (ab_perproc a !! c) → 0 < c < ab_next a;
  wf_ctx c : c ∈ ab_ctx a ↔ is_Some (ab_perproc a !! c);
  wf_owned c : is_Some (ab_owned a !! c) ↔ is_Some (ab_perproc a !! c) }.

(** The store [s] is the abstract state [a]; [lk] is the mutex. *)
Record rep (lk : bool) (s : rm_st) (a : rm_abs) : Prop := {
  rep_os : rm_os s = ab_os a;
  rep_next : rm_next s = ab_next a;
  rep_lock : rm_locked s = lk;
  rep_int : rm_in_interrupt s = false;
  rep_list : gpsResList s = true;
  rep_data : rm_item_data s = ab_data a;
  rep_perproc : rm_perproc s = ab_perproc a;
  rep_calls : rm_calls s = ab_calls a;
  rep_items : lists_ok (rm_items s) (ab_owned a);
  rep_nodes i : is_Some (l_nodes (rm_items s) !! i) ↔ is_Some (ab_data a !! i);
  rep_ctxs : lists_ok (rm_contexts s) {[0 := ab_ctx a]};
  rep_cnodes c : is_Some (l_nodes (rm_contexts s) !! c) ↔ is_Some (ab_perproc a !! c);
  rep_wf : wf a }.

(** ** The abstract operations *)

Definition ab_set_owned m a := mkAbs (ab_os a) (ab_next a) (ab_ctx a) (ab_perproc a) m (ab_data a) (ab_calls a).
Definition ab_log c a := mkAbs (ab_os a) (ab_next a) (ab_ctx a) (ab_perproc a) (ab_owned a) (ab_data a) (ab_calls a ++ [c]).
Definition ab_set_os o a := mkAbs o (ab_next a) (ab_ctx a) (ab_perproc a) (ab_owned a) (ab_data a) (ab_calls a).

Definition freed_os (o : os) : os := {| os_script := os_script o; os_live := os_live o - 1 |}.

(** The item leaves the list it is in. *)
Definition unlink (i : Z) (a : rm_abs) : rm_abs :=
  ab_set_owned (filter (λ x, x ≠ i) <$> ab_owned a) a.

(** Its memory is given back. *)
Definition drop (i : Z) (a : rm_abs) : rm_abs :=
  mkAbs (freed_os (ab_os a)) (ab_next a) (ab_ctx a) (ab_perproc a) (ab_owned a) (delete i (ab_data a)) (ab_calls a).

Definition link (c i : Z) (a : rm_abs) : rm_abs :=
  ab_set_owned (alter (cons i) c (ab_owned a)) a.

Definition turn (c : Z) (a : rm_abs) : rm_abs := ab_set_owned (alter (@rev Z) c (ab_owned a)) a.

Definition register (c : Z) (d : RESMAN_ITEM) (a : rm_abs) : rm_abs :=
  mkAbs (ab_os a) (ab_next a + 1) (ab_ctx a) (ab_perproc a)
    (alter (cons (ab_next a)) c (ab_owned a)) (<[ab_next a := d]> (ab_data a)) (ab_calls a).

Definition connect (pp : Z) (a : rm_abs) : rm_abs :=
  mkAbs (ab_os a) (ab_next a + 1) (ab_next a :: ab_ctx a) (<[ab_next a := pp]> (ab_perproc a))
    (<[ab_next a := []]> (ab_owned a)) (ab_data a) (ab_calls a).

Definition close (c : Z) (a : rm_abs) : rm_abs :=
  mkAbs (freed_os (ab_os a)) (ab_next a) (filter (λ x, x ≠ c) (ab_ctx a)) (delete c (ab_perproc a))
    (delete c (ab_owned a)) (ab_data a) (ab_calls a).

(** What a free function does to the resource manager. *)
Class FreeSpec := acb : Z → Z → Z → bool → rm_abs → PVRSRV_ERROR * rm_abs.

(** The state only lost linked items; what is not linked is kept. *)
Record shrinks (a a' : rm_abs) : Prop := {
  sh_ctx : ab_ctx a' = ab_ctx a;
  sh_perproc : ab_perproc a' = ab_perproc a;
  sh_owned c l : ab_owned a !! c = Some l → ∃ l', ab_owned a' !! c = Some l' ∧ l' `sublist_of` l;
  sh_kept i : ¬ linked a i → ab_data a' !! i = ab_data a !! i;
  sh_linked i : linked a' i → ab_data a' !! i = ab_data a !! i }.

(** Free functions may use the resource manager, the mutex being free: they
    may free more resources, and neither open nor close a context nor
    register a resource. *)
Class FreeLaw {fns : FreeFns} {sp : FreeSpec} : Prop :=
  call_free_spec f p u b s a :
    rep false s a →
    wp (call_free f p u b) (λ e s', ∃ a', acb f p u b a = (e, a') ∧ rep false s' a' ∧ shrinks a a') s.

(** ** Facts about lists *)

Lemma lists_ok_agree s s' m :
  lists_ok s m → (∀ h l, m !! h = Some l → rd s' (HeadOf h) = rd s (HeadOf h)) →
  (∀ h l x, m !! h = Some l → x ∈ l → l_nodes s' !! x = l_nodes s !! x) → lists_ok s' m.
Proof.
  intros [H1 H2] Hh Hx. split; [|exact H2]. intros h l Hl. destruct (H1 h l Hl) as [Hs ?]. split; [|done].
  eapply seg_ext; [by eapply Hh| |exact Hs]. intros x Hin. unfold rd, pps. by rewrite (Hx h l x).
Qed.

Lemma lists_ok_some s m h l x : lists_ok s m → m !! h = Some l → x ∈ l → is_Some (l_nodes s !! x).
Proof. intros Hok Hm Hx. destruct (lo_seg _ _ Hok _ _ Hm) as [Hs _]. by eapply seg_some. Qed.

Lemma lists_ok_new_head s m h : lists_ok s m → m !! h = None →
  lists_ok (mkLists (l_nodes s) (<[h := 0]> (l_heads s))) (<[h := []]> m).
Proof.
  intros Hok Hh. split.
  - intros h' l [[<- <-]|[Hne Hl]]%lookup_insert_Some; simpl.
    + split; [unfold rd; simpl; by rewrite lookup_insert_eq|constructor].
    + destruct (lo_seg _ _ Hok _ _ Hl) as [Hs ?]. split; [|done]. eapply seg_ext; [| |exact Hs]; [|done].
      unfold rd. simpl. by rewrite lookup_insert_ne.
  - intros h1 h2 l1 l2 x [[<- <-]|[? H1]]%lookup_insert_Some [[<- <-]|[? H2]]%lookup_insert_Some Hx1 Hx2;
      [done|by apply elem_of_nil in Hx1|by apply elem_of_nil in Hx2|].
    by apply (lo_disj _ _ Hok h1 h2 l1 l2 x).
Qed.

Lemma lists_ok_drop_head s m h : lists_ok s m →
  lists_ok (mkLists (l_nodes s) (delete h (l_heads s))) (delete h m).
Proof.
  intros Hok. split.
  - intros h' l [Hne Hl]%lookup_delete_Some. destruct (lo_seg _ _ Hok _ _ Hl) as [Hs ?]. split; [|done].
    eapply seg_ext; [| |exact Hs]; [|done]. unfold rd. simpl. by rewrite lookup_delete_ne.
  - intros h1 h2 l1 l2 x [? H1]%lookup_delete_Some [? H2]%lookup_delete_Some. by apply (lo_disj _ _ Hok h1 h2 l1 l2 x).
Qed.

(** ** Steps *)

Lemma wp_acquire lk s a Q :
  rep lk s a → lk = false → (∀ s', rep true s' a → Q tt s') → wp ACQUIRE_SYNC_OBJ Q s.
Proof.
  intros Hr -> HQ. unfold ACQUIRE_SYNC_OBJ. wp_step. wp_step. rewrite (rep_int _ _ _ Hr), (rep_lock _ _ _ Hr). simpl.
  wp_step. apply HQ. by destruct Hr.
Qed.

Lemma wp_release_sync s a Q : rep true s a → (∀ s', rep false s' a → Q tt s') → wp RELEASE_SYNC_OBJ Q s.
Proof.
  intros Hr HQ. unfold RELEASE_SYNC_OBJ. wp_step. wp_step. rewrite (rep_lock _ _ _ Hr).
  wp_step. apply HQ. by destruct Hr.
Qed.

Lemma wp_get_item lk s a i d Q : rep lk s a → ab_data a !! i = Some d → Q d s → wp (get_item i) Q s.
Proof. intros Hr Hd HQ. unfold get_item. wp_step. wp_step. rewrite (rep_data _ _ _ Hr), Hd. by apply wp_ret. Qed.

(** A list operation on the items. *)
Lemma wp_on_items {A} lk s a (m : M lists A) (R : A → gmap Z (list Z) → Prop) Q :
  rep lk s a →
  wp m (λ x t, ∃ o, R x o ∧ lists_ok t o ∧ same_nodes (rm_items s) t) (rm_items s) →
  (∀ x o s', R x o → dom o = dom (ab_owned a) → rep lk s' (ab_set_owned o a) → Q x s') →
  (∀ x o, R x o → dom o = dom (ab_owned a)) →
  wp (on_items _ m) Q s.
Proof.
  intros Hr Hm HQ Hdom. unfold on_items. wp_step. eapply wp_mono; [exact Hm|]. intros x t (o&HR&Ht&Hsn).
  eapply HQ; [exact HR|by eapply Hdom|]. specialize (Hdom _ _ HR). destruct Hr as [? ? ? ? ? ? ? ? ? ? ? ? Hwf].
  split; try done.
  - intros i. simpl. by rewrite (Hsn i).
  - destruct Hwf. split; try done. simpl. intros c. by rewrite <- elem_of_dom, Hdom, elem_of_dom.
Qed.

Lemma linked_split s a i : lists_ok (rm_items s) (ab_owned a) → linked a i →
  ∃ c l1 l2, ab_owned a !! c = Some (l1 ++ i :: l2) ∧ unlink i a = ab_set_owned (<[c := l1 ++ l2]> (ab_owned a)) a.
Proof.
  intros Hok (c&l&Hc&Hi). apply list_elem_of_split in Hi as (l1&l2&->). exists c, l1, l2.
  split; [done|]. unfold unlink. f_equal. by eapply unlinked_owned.
Qed.

Lemma wp_unlink lk s a i Q :
  rep lk s a → linked a i → (∀ s', rep lk s' (unlink i a) → Q tt s') →
  wp (on_items _ (List_Remove i)) Q s.
Proof.
  intros Hr Hi HQ. destruct (linked_split s a i (rep_items _ _ _ Hr) Hi) as (c&l1&l2&Hc&Hu). rewrite Hu in HQ.
  eapply (wp_on_items _ _ _ _ (λ _ o, o = <[c := l1 ++ l2]> (ab_owned a))); [exact Hr|..].
  - eapply wp_mono; [by eapply wp_List_Remove; [apply (rep_items _ _ _ Hr)|]|]. naive_solver.
  - intros [] o s' -> _. apply HQ.
  - intros _ o ->. apply dom_insert_lookup_L. eauto.
Qed.

Lemma wp_link lk s a c i Q :
  rep lk s a → is_Some (ab_owned a !! c) → ¬ linked a i → is_Some (ab_data a !! i) →
  (∀ s', rep lk s' (link c i a) → Q tt s') →
  wp (on_items _ (List_Insert (HeadOf c) i)) Q s.
Proof.
  intros Hr [l Hc] Hi Hd HQ.
  eapply (wp_on_items _ _ _ _ (λ _ o, o = <[c := i :: l]> (ab_owned a))); [exact Hr|..].
  - eapply wp_mono; [eapply wp_List_Insert; [apply (rep_items _ _ _ Hr)|exact Hc|..]|naive_solver].
    + pose proof (wf_data _ (rep_wf _ _ _ Hr) i Hd). lia.
    + by apply (rep_nodes _ _ _ Hr).
    + intros c' l' Hc' Hin. apply Hi. by exists c', l'.
  - intros [] o s' -> _ Hs'. apply HQ. unfold link. by rewrite (alter_some _ _ _ _ Hc).
  - intros _ o ->. apply dom_insert_lookup_L. eauto.
Qed.

Lemma wp_turn lk s a c Q :
  rep lk s a → is_Some (ab_owned a !! c) → (∀ s', rep lk s' (turn c a) → Q tt s') →
  wp (on_items _ (List_Reverse (HeadOf c))) Q s.
Proof.
  intros Hr [l Hc] HQ.
  eapply (wp_on_items _ _ _ _ (λ _ o, o = <[c := rev l]> (ab_owned a))); [exact Hr|..].
  - eapply wp_mono; [by eapply wp_List_Reverse; [apply (rep_items _ _ _ Hr)|]|]. naive_solver.
  - intros [] o s' -> _ Hs'. apply HQ. unfold turn. by rewrite (alter_some _ _ _ _ Hc).
  - intros _ o ->. apply dom_insert_lookup_L. eauto.
Qed.

Lemma wp_load_head lk s a c l Q :
  rep lk s a → ab_owned a !! c = Some l → Q (hd 0 l) s → wp (on_items _ (load (HeadOf c))) Q s.
Proof.
  intros Hr Hc HQ. unfold on_items. wp_step. eapply wp_load.
  - destruct (lo_seg _ _ (rep_items _ _ _ Hr) _ _ Hc) as [Hs _]. by apply seg_head.
  - by destruct s.
Qed.
