(* ===== verification/ResManOps.v ===== *)
(** * The operations of the resource manager refine their abstract versions

    The abstract operations on [rm_abs], and for each operation of ResMan.v
    the lemma that it computes its abstract version. *)

From S2P Require Import Prelude Lists ResMan ResManRep.

(** ** The abstract operations *)

Definition call_of (force : bool) (it : RESMAN_ITEM) : free_call :=
  mkCall (ri_pfnFreeResource it) (ri_pvParam it) (ri_ui32Param it) force.

Section spec.
Context {sp : FreeSpec}.

(** Frees item [i], on which [it] is registered. *)
Definition sp_free (i : Z) (it : RESMAN_ITEM) (exec force : bool) (a : rm_abs) : PVRSRV_ERROR * rm_abs :=
  let r :=
    if exec then acb (ri_pfnFreeResource it) (ri_pvParam it) (ri_ui32Param it) force
                   (ab_log (call_of force it) (unlink i a))
    else (PVRSRV_OK, unlink i a) in
  (fst r, drop i (snd r)).

(** The items of the context that meet the criteria, newest first. *)
Definition matching (P : RESMAN_ITEM → bool) (a : rm_abs) (c : Z) : list Z :=
  filter (λ i, from_option P false (ab_data a !! i) = true)
    (default [] (ab_owned a !! c)).

(** Frees the newest item that meets the criteria, over and over, until there
    is none or a free function fails. *)
Inductive frees (P : RESMAN_ITEM → bool) (c : Z) (exec : bool) : rm_abs → PVRSRV_ERROR → rm_abs → Prop :=
| frees_none a : matching P a c = [] → frees P c exec a PVRSRV_OK a
| frees_err a i r it e a' :
    matching P a c = i :: r → ab_data a !! i = Some it →
    sp_free i it exec false a = (e, a') → e ≠ PVRSRV_OK → frees P c exec a e a'
| frees_step a i r it a' e a'' :
    matching P a c = i :: r → ab_data a !! i = Some it →
    sp_free i it exec false a = (PVRSRV_OK, a') → frees P c exec a' e a'' → frees P c exec a e a''.

Definition has_type (t : Z) (it : RESMAN_ITEM) : bool := ri_ui32ResType it =? t.

(** The types one after the other, whatever the free functions answer. *)
Inductive frees_types (c : Z) : list Z → rm_abs → rm_abs → Prop :=
| ft_nil a : frees_types c [] a a
| ft_cons t ts a e a' a'' :
    frees (has_type t) c true a e a' → frees_types c ts a' a'' → frees_types c (t :: ts) a a''.

Inductive disconnects (c : Z) : bool → rm_abs → rm_abs → Prop :=
| disc_kernel a : disconnects c true a (close c a)
| disc_user a a1 a2 a3 :
    frees_types c types_before a a1 →
    frees_types c [RESMAN_TYPE_MODIFY_SYNC_OPS] (turn c a1) a2 →
    frees_types c types_after (turn c a2) a3 →
    disconnects c false a (close c a3).
End spec.

(** ** Shrinking *)

Lemma shrinks_refl a : shrinks a a.
Proof. split; eauto. Qed.

Lemma shrinks_linked a a' i : wf a → wf a' → shrinks a a' → linked a' i → linked a i.
Proof.
  intros Hw Hw' Hs (c&l&Hc&Hi). assert (is_Some (ab_owned a !! c)) as [l0 Hl0].
  { apply (wf_owned _ Hw). rewrite <- (sh_perproc _ _ Hs). apply (wf_owned _ Hw'). eauto. }
  destruct (sh_owned _ _ Hs _ _ Hl0) as (l'&Hl'&Hsub). simplify_eq.
  exists c, l0. split; [done|]. by eapply elem_of_sublist.
Qed.

Lemma shrinks_trans a a' a'' : wf a → wf a' → wf a'' → shrinks a a' → shrinks a' a'' → shrinks a a''.
Proof.
  intros Hw Hw' Hw'' H1 H2. split.
  - by rewrite (sh_ctx _ _ H2), (sh_ctx _ _ H1).
  - by rewrite (sh_perproc _ _ H2), (sh_perproc _ _ H1).
  - intros c l Hl. destruct (sh_owned _ _ H1 _ _ Hl) as (l'&Hl'&Hs). destruct (sh_owned _ _ H2 _ _ Hl') as (l''&?&?).
    exists l''. split; [done|]. by etrans.
  - intros i Hi. assert (¬ linked a' i) by (intros Hl; by apply Hi, (shrinks_linked a a')).
    by rewrite (sh_kept _ _ H2), (sh_kept _ _ H1).
  - intros i Hi. rewrite (sh_linked _ _ H2) by done. apply (sh_linked _ _ H1). by apply (shrinks_linked a' a'').
Qed.

Lemma unlink_not_linked i a : ¬ linked (unlink i a) i.
Proof.
  intros (c&l&Hc&Hi). simpl in Hc. rewrite lookup_fmap_Some in Hc. destruct Hc as (l'&<-&_).
  by apply list_elem_of_filter in Hi as [? _].
Qed.

Lemma unlink_shrinks i a : shrinks a (unlink i a).
Proof.
  split; try done. intros c l Hc. exists (filter (λ x, x ≠ i) l). simpl. by rewrite lookup_fmap, Hc; split; [|apply sublist_filter].
Qed.

Lemma unlink_linked i x a : linked (unlink i a) x → linked a x ∧ x ≠ i.
Proof.
  intros (c&l&Hc&Hx). simpl in Hc. apply lookup_fmap_Some in Hc as (l'&<-&Hc).
  apply list_elem_of_filter in Hx as [? ?]. split; [by exists c, l'|done].
Qed.

(** ** Freeing *)

Section ops.
Context {links : FreshLinks} {fns : FreeFns} {sp : FreeSpec} {law : FreeLaw}.

Lemma wp_free_item s a i Q :
  rep true s a → ¬ linked a i → is_Some (ab_data a !! i) →
  (∀ s', rep true s' (drop i a) → Q tt s') → wp (free_item i) Q s.
Proof.
  intros Hr Hi [it Hit] HQ. unfold free_item. wp_step. eapply wp_get_item; [done|done|].
  unfold with_rm_os. wp_step. wp_step. apply wp_OSFreeMem. wp_step. apply HQ.
  destruct Hr as [? ? ? ? ? ? ? ? Hok Hn ? ? Hwf]. split; simpl; try congruence.
  - unfold freed_os. congruence.
  - eapply lists_ok_agree; [exact Hok|done|]. intros c l x Hc Hx. simpl.
    apply lookup_delete_ne. intros ->. apply Hi. by exists c, l.
  - intros j. rewrite !lookup_delete_is_Some, Hn. done.
  - done.
  - destruct Hwf. split; try done. simpl. intros j [? ?]%lookup_delete_is_Some. eauto.
Qed.

Lemma linked_data lk s a i : rep lk s a → linked a i → is_Some (ab_data a !! i).
Proof.
  intros Hr (c&l&Hc&Hi). apply (rep_nodes _ _ _ Hr). by eapply lists_ok_some; [apply (rep_items _ _ _ Hr)|..].
Qed.

Lemma rep_log lk s a c : rep lk s a → rep lk (add_call c s) (ab_log c a).
Proof. intros [? ? ? ? ? ? ? ? ? ? ? ? Hwf]. split; simpl; try done; [congruence|by destruct Hwf]. Qed.

Lemma wp_FreeResourceByPtr s a i it exec force :
  rep true s a → linked a i → ab_data a !! i = Some it →
  wp (FreeResourceByPtr i exec force)
    (λ e s', ∃ a', sp_free i it exec force a = (e, a') ∧ rep true s' a' ∧ shrinks a a') s.
Proof.
  intros Hr Hi Hit. unfold FreeResourceByPtr.
  pose proof (wf_data _ (rep_wf _ _ _ Hr) i ltac:(eauto)) as Hi0. rewrite (proj2 (Z.eqb_neq _ _)) by (unfold IMG_NULL; lia).
  wp_step. eapply wp_unlink; [exact Hr|exact Hi|]. intros s1 Hr1.
  wp_step. eapply wp_release_sync; [exact Hr1|]. intros s2 Hr2. wp_step.
  pose proof (rep_wf _ _ _ Hr2) as Hw1.
  assert (∀ e a2 s3, rep false s3 a2 → shrinks (unlink i a) a2 → (e, drop i a2) = sp_free i it exec force a →
    wp (ACQUIRE_SYNC_OBJ;; free_item i;; mret e)
      (λ e s', ∃ a', sp_free i it exec force a = (e, a') ∧ rep true s' a' ∧ shrinks a a') s3) as Hfin.
  { intros e a2 s3 Hr3 Hs Heq. pose proof (rep_wf _ _ _ Hr3) as Hw2.
    assert (¬ linked a2 i) as Hi2 by (intros H; by apply (unlink_not_linked i a), (shrinks_linked _ a2)).
    wp_step. eapply wp_acquire; [exact Hr3|done|]. intros s4 Hr4. wp_step.
    eapply wp_free_item; [exact Hr4|exact Hi2| |].
    { rewrite (sh_kept _ _ Hs) by apply unlink_not_linked. simpl. eauto. }
    intros s5 Hr5. wp_step. exists (drop i a2). split_and!; [done|done|].
    destruct Hs as [S1 S2 S3 S4 S5]. split; simpl; [done|done|..].
    - intros c l Hc. destruct (S3 c (filter (λ x, x ≠ i) l)) as (l'&?&?); [simpl; by rewrite lookup_fmap, Hc|].
      exists l'. split; [done|]. etrans; [done|apply sublist_filter].
    - intros j Hj. rewrite lookup_delete_ne by (intros ->; done). apply S4. intros Hl. by apply unlink_linked in Hl as [? _].
    - intros j Hj. assert (linked a2 j) as Hj2 by exact Hj. rewrite lookup_delete_ne by (intros ->; done). by apply S5. }
  unfold sp_free. destruct exec.
  - wp_step. eapply wp_get_item; [exact Hr2|exact Hit|]. wp_step. wp_step.
    eapply wp_mono; [apply law; by apply rep_log|]. intros e s3 (a2&Ha2&Hr3&Hs).
    apply (Hfin e a2); [done| |].
    + destruct Hs. by split.
    + unfold sp_free. unfold call_of. by rewrite Ha2.
  - wp_step. by apply (Hfin PVRSRV_OK (unlink i a)); [|apply shrinks_refl|].
Qed.

(** ** Searching *)

Lemma on_items_read A (m : M lists A) Q s :
  wp m (λ x t, t = rm_items s ∧ Q x s) (rm_items s) → wp (on_items A m) Q s.
Proof. intros Hm. unfold on_items. wp_step. eapply wp_mono; [exact Hm|]. intros x t [-> HQ]. by destruct s. Qed.

Lemma first_of_filter (P : Z → bool) l : (∀ x, x ∈ l → x ≠ 0) →
  first_of (λ r, r =? 0) (λ x, if P x then x else 0) 0 l = hd 0 (filter (λ x, P x = true) l).
Proof.
  induction l as [|x l IH]; intros H0; simpl; [done|]. destruct (P x) eqn:HP.
  - rewrite filter_cons_True by done. rewrite (proj2 (Z.eqb_neq _ _)); [done|]. apply H0. by left.
  - rewrite filter_cons_False by congruence. rewrite Z.eqb_refl. apply IH. intros y Hy. apply H0. by right.
Qed.

Lemma wp_search lk s a c l (sc ty p u : Z) Q :
  rep lk s a → ab_owned a !! c = Some l →
  Q (hd 0 (matching (meets sc ty p u) a c)) s →
  wp (head ← on_items _ (load (HeadOf c));
      List_Any on_items head (FreeResourceByCriteria_AnyVaCb sc ty p u)) Q s.
Proof.
  intros Hr Hc HQ. wp_step. eapply wp_load_head; [exact Hr|exact Hc|].
  destruct (lo_seg _ _ (rep_items _ _ _ Hr) _ _ Hc) as [Hs Hnd].
  eapply wp_mono.
  - unfold List_Any. apply (wp_List_Any_2 on_items rm_items on_items_read _ _ _
      (λ x, if from_option (meets sc ty p u) false (ab_data a !! x) then x else 0) s _ l Hs Hnd); [done|].
    intros x Q' Hx HQ'. unfold FreeResourceByCriteria_AnyVaCb.
    destruct (linked_data lk s a x Hr) as [it Hit]; [by exists c, l|].
    wp_step. eapply wp_get_item; [exact Hr|exact Hit|]. wp_step. rewrite Hit in HQ'. exact HQ'.
  - simpl. intros r s' [-> ->]. rewrite first_of_filter by (intros x; by apply (seg_nonzero _ _ _ _ Hs)).
    unfold matching in HQ. by rewrite Hc in HQ.
Qed.

Lemma matching_linked P a c i : i ∈ matching P a c → linked a i ∧ ∃ it, ab_data a !! i = Some it ∧ P it = true.
Proof.
  unfold matching. intros [HP Hi]%list_elem_of_filter. split.
  - destruct (ab_owned a !! c) as [l|] eqn:Hc; [|by apply elem_of_nil in Hi]. by exists c, l.
  - destruct (ab_data a !! i) as [it|]; [by exists it|done].
Qed.

(** The loop ends within as many turns as the context has items. *)
Lemma wp_criteria_loop c sc ty p u exec : ∀ n s a l,
  rep true s a → ab_owned a !! c = Some l → (length l ≤ n)%nat →
  wp (criteria_loop n c sc ty p u exec PVRSRV_OK)
    (λ e s', ∃ a', frees (meets sc ty p u) c exec a e a' ∧ rep true s' a' ∧ shrinks a a') s.
Proof.
  set (P := meets sc ty p u).
  assert (∀ n s a e, rep true s a → is_Some (ab_owned a !! c) → e ≠ PVRSRV_OK →
    wp (criteria_loop n c sc ty p u exec e) (λ e' s', e' = e ∧ s' = s) s) as Hstop.
  { intros n s a e Hr [l Hc] He. destruct n; cbn [criteria_loop].
    all: apply wp_bind_assoc; apply wp_bind; eapply wp_search; [exact Hr|exact Hc|].
    all: destruct (is_OK e) eqn:Hok; [by apply is_OK_true in Hok|]; rewrite andb_false_r; by apply wp_ret. }
  induction n as [|n IH]; intros s a l Hr Hc Hn; cbn [criteria_loop].
  all: apply wp_bind_assoc; apply wp_bind; eapply wp_search; [exact Hr|exact Hc|].
  all: fold P; destruct (matching P a c) as [|i r] eqn:Hm; simpl;
    [apply wp_ret; exists a; split_and!; [by constructor|done|apply shrinks_refl]|].
  all: destruct (matching_linked P a c i) as [Hi (it&Hit&HP)]; [rewrite Hm; by left|].
  - destruct l; [|simpl in Hn; lia]. unfold matching in Hm. by rewrite Hc in Hm.
  - pose proof (wf_data _ (rep_wf _ _ _ Hr) i ltac:(eauto)) as Hi0.
    rewrite (proj2 (Z.eqb_neq _ _)) by (unfold IMG_NULL; lia). simpl.
    wp_step. eapply wp_mono; [by eapply wp_FreeResourceByPtr|]. intros e s1 (a1&Hf&Hr1&Hs1).
    destruct (sh_owned _ _ Hs1 _ _ Hc) as (l1&Hl1&Hsub). destruct (decide (e = PVRSRV_OK)) as [->|He].
    + eapply wp_mono; [eapply (IH s1 a1 l1 Hr1 Hl1)|].
      * assert (i ∈ l) as Hil.
        { assert (i ∈ matching P a c) as H by (rewrite Hm; by left). unfold matching in H. rewrite Hc in H.
          by apply list_elem_of_filter in H as [_ ?]. }
        assert (i ∉ l1) as Hil1.
        { intros H. assert (linked a1 i) as Hl by (by exists c, l1).
          destruct (linked_data true s1 a1 i Hr1 Hl) as [it1 Hit1]. unfold sp_free in Hf. injection Hf as _ <-.
          simpl in Hit1. by rewrite lookup_delete_eq in Hit1. }
        assert (length (i :: l1) ≤ length l)%nat as Hlen; [|simpl in Hlen; lia].
        apply submseteq_length, NoDup_submseteq.
        { constructor; [done|]. by apply (lo_seg _ _ (rep_items _ _ _ Hr1) c). }
        intros x [->|Hx]%elem_of_cons; [done|]. by eapply elem_of_sublist.
      * intros e s2 (a2&Hf2&Hr2&Hs2). exists a2. split_and!; [by eapply frees_step|done|].
        eapply (shrinks_trans a a1 a2); [exact (rep_wf _ _ _ Hr)|exact (rep_wf _ _ _ Hr1)|exact (rep_wf _ _ _ Hr2)|done|done].
    + eapply wp_mono; [eapply Hstop; [exact Hr1|eauto|exact He]|]. intros e' s2 [-> ->].
      exists a1. split_and!; [by eapply frees_err|done|done].
Qed.

Lemma wp_FreeResourceByCriteria c sc ty p u exec s a :
  rep true s a → is_Some (ab_owned a !! c) →
  wp (FreeResourceByCriteria c sc ty p u exec)
    (λ e s', ∃ a', frees (meets sc ty p u) c exec a e a' ∧ rep true s' a' ∧ shrinks a a') s.
Proof.
  intros Hr [l Hc]. unfold FreeResourceByCriteria. wp_step. wp_step.
  eapply wp_criteria_loop; [exact Hr|exact Hc|]. rewrite (rep_data _ _ _ Hr). apply NoDup_keys_length.
  - by apply (lo_seg _ _ (rep_items _ _ _ Hr) c).
  - intros x Hx. eapply linked_data; [exact Hr|]. by exists c, l.
Qed.

Lemma frees_ext P P' c exec a e a' : (∀ it, P it = P' it) → frees P c exec a e a' → frees P' c exec a e a'.
Proof.
  intros HP. assert (∀ a, matching P a c = matching P' a c) as Hm.
  { intros b. unfold matching. apply list_filter_iff. intros i. destruct (ab_data b !! i); simpl; [by rewrite HP|done]. }
  induction 1; [apply frees_none|eapply frees_err|eapply frees_step]; rewrite <- ?Hm; done.
Qed.

Lemma meets_type t it : meets RESMAN_CRITERIA_RESTYPE t 0 0 it = has_type t it.
Proof. unfold meets, has_type. simpl. by rewrite !andb_true_r. Qed.

(** ** Disconnecting *)

Lemma shrinks_owned a a' c : shrinks a a' → is_Some (ab_owned a !! c) → is_Some (ab_owned a' !! c).
Proof. intros Hs [l Hl]. destruct (sh_owned _ _ Hs _ _ Hl) as (?&?&_). eauto. Qed.

Lemma wp_free_types c ts : ∀ s a,
  rep true s a → is_Some (ab_owned a !! c) →
  wp (free_types c ts)
    (λ _ s', ∃ a', frees_types c ts a a' ∧ rep true s' a' ∧ is_Some (ab_owned a' !! c) ∧ ab_perproc a' = ab_perproc a) s.
Proof.
  induction ts as [|t ts IH]; intros s a Hr Hc; simpl.
  - wp_step. exists a. split_and!; [constructor|done..].
  - wp_step. eapply wp_mono; [by apply wp_FreeResourceByCriteria|]. intros e s1 (a1&Hf&Hr1&Hs1).
    eapply wp_mono; [apply (IH s1 a1 Hr1); by eapply shrinks_owned|]. intros _ s2 (a2&Ht&Hr2&Hc2&Hp2).
    exists a2. split_and!; [|done|done|by rewrite Hp2, (sh_perproc _ _ Hs1)].
    eapply ft_cons; [|exact Ht]. eapply frees_ext; [|exact Hf]. apply meets_type.
Qed.

Lemma wp_close s a c Q :
  rep true s a → is_Some (ab_perproc a !! c) → (∀ s', rep true s' (close c a) → Q tt s') →
  wp (on_contexts _ (List_Remove c);; free_context c) Q s.
Proof.
  intros [? ? ? ? ? ? Hpp ? Hok Hn Hcx Hcn Hwf] Hc HQ.
  assert (c ∈ ab_ctx a) as Hin by by apply (wf_ctx _ Hwf). apply list_elem_of_split in Hin as (l1&l2&Hl).
  assert (NoDup (l1 ++ c :: l2)) as Hnd.
  { rewrite <- Hl. apply (lo_seg _ _ Hcx 0). apply lookup_singleton_eq. }
  unfold on_contexts. wp_step. wp_step. rewrite Hl in Hcx.
  eapply wp_mono; [eapply (wp_List_Remove _ _ 0 l1 c l2 Hcx); apply lookup_singleton_eq|].
  intros _ t [Ht Hsn]. unfold free_context. wp_step. wp_step. wp_step. simpl. rewrite Hpp.
  destruct Hc as [pp Hc]. rewrite Hc. apply wp_ret. wp_step. unfold with_rm_os. wp_step.
  apply wp_OSFreeMem. wp_step. apply HQ. rewrite insert_singleton_eq in Ht.
  assert (filter (λ x, x ≠ c) (ab_ctx a) = l1 ++ l2) as Hfl by (rewrite Hl; by apply filter_ne_mid).
  split; simpl; try done; try congruence.
  - unfold freed_os. congruence.
  - by apply lists_ok_drop_head.
  - rewrite Hfl. eapply lists_ok_agree; [exact Ht|done|]. intros h l x [<- <-]%lookup_singleton_Some Hx. simpl.
    apply lookup_delete_ne. intros <-. apply NoDup_app in Hnd as (_&Hd&[? _]%NoDup_cons).
    apply elem_of_app in Hx as [Hx|Hx]; [|done]. apply (Hd c Hx). by left.
  - intros d. rewrite !lookup_delete_is_Some. rewrite (Hsn d), Hcn. done.
  - destruct Hwf as [W1 W2 W3 W4 W5]. split; simpl; try done.
    + intros d [_ ?]%lookup_delete_is_Some. eauto.
    + intros d. rewrite list_elem_of_filter, lookup_delete_is_Some, W4. naive_solver.
    + intros d. rewrite !lookup_delete_is_Some, W5. done.
Qed.

Lemma turn_owned c d a : is_Some (ab_owned (turn c a) !! d) ↔ is_Some (ab_owned a !! d).
Proof. simpl. by rewrite lookup_alter_is_Some. Qed.

Lemma wp_PVRSRVResManDisconnect c k s a :
  rep false s a → is_Some (ab_perproc a !! c) →
  wp (PVRSRVResManDisconnect c k) (λ _ s', ∃ a', disconnects c k a a' ∧ rep false s' a' ∧
    ab_perproc a' = delete c (ab_perproc a)) s.
Proof.
  intros Hr Hc. unfold PVRSRVResManDisconnect.
  wp_step. eapply wp_acquire; [exact Hr|done|]. intros s1 Hr1. wp_step.
  assert (∀ s2 a2, rep true s2 a2 → ab_perproc a2 = ab_perproc a → disconnects c k a (close c a2) →
    wp (on_contexts _ (List_Remove c);; free_context c;; RELEASE_SYNC_OBJ)
      (λ _ s', ∃ a', disconnects c k a a' ∧ rep false s' a' ∧ ab_perproc a' = delete c (ab_perproc a)) s2) as Hend.
  { intros s2 a2 Hr2 Hp2 Hd. apply wp_bind_assoc. apply wp_bind.
    eapply wp_close; [exact Hr2|by rewrite Hp2|]. intros s3 Hr3. eapply wp_release_sync; [exact Hr3|].
    intros s4 Hr4. exists (close c a2). split_and!; [done..|]. simpl. by rewrite Hp2. }
  destruct k; simpl.
  - wp_step. apply (Hend s1 a); [done|done|constructor].
  - assert (is_Some (ab_owned a !! c)) as Hco by (by apply (wf_owned _ (rep_wf _ _ _ Hr))).
    wp_step. eapply wp_mono; [by apply (wp_free_types c types_before s1 a)|]. intros _ s2 (a1&Hf1&Hr2&Hc1&Hp1).
    wp_step. eapply wp_turn; [exact Hr2|exact Hc1|]. intros s3 Hr3.
    wp_step. eapply wp_mono; [apply (wp_FreeResourceByCriteria c _ _ _ _ _ s3 _ Hr3); by apply turn_owned|].
    intros e s4 (a2&Hf2&Hr4&Hs2). assert (is_Some (ab_owned a2 !! c)) as Hc2 by (eapply shrinks_owned; [exact Hs2|by apply turn_owned]).
    wp_step. eapply wp_turn; [exact Hr4|exact Hc2|]. intros s5 Hr5.
    eapply wp_mono; [apply (wp_free_types c types_after s5 _ Hr5); by apply turn_owned|]. intros _ s6 (a3&Hf3&Hr6&Hc3&Hp3).
    apply (Hend s6 a3 Hr6).
    + rewrite Hp3. simpl. rewrite (sh_perproc _ _ Hs2). simpl. by rewrite Hp1.
    + eapply disc_user; [exact Hf1| |exact Hf3]. eapply ft_cons; [|constructor]. eapply frees_ext; [|exact Hf2]. apply meets_type.
Qed.
End ops.
