(* ===== verification/ResManApi.v ===== *)
(** * The interface of the resource manager

    [run_rm] is an operation of resman.c as its callers see it, [rm_step]
    what it promises on the abstract state; each operation refines its step. *)

From S2P Require Import Prelude Lists ResMan ResManRep ResManOps.

Inductive rm_op :=
| RConnect (hPerProc : Z)
| RDisconnect (c : Z) (bKernelContext : bool)
| RRegister (c ty p u fn : Z)
| RFree (i : Z) (bForceCleanup : bool)
| RFreeByCriteria (c sc ty p u : Z)
| RDissociate (i c : Z)
| RFind (c i : Z).

Inductive rm_res := RUnit | RError (e : PVRSRV_ERROR) | RItem (i : Z) | RContext (e : PVRSRV_ERROR) (c : option Z).

Section api.
Context {links : FreshLinks} {fns : FreeFns}.

Definition run_rm (o : rm_op) : M rm_st rm_res :=
  match o with
  | RConnect pp => r ← PVRSRVResManConnect pp; mret (RContext (fst r) (snd r))
  | RDisconnect c k => PVRSRVResManDisconnect c k;; mret RUnit
  | RRegister c ty p u fn => i ← ResManRegisterRes c ty p u fn; mret (RItem i)
  | RFree i f => e ← ResManFreeResByPtr i f; mret (RError e)
  | RFreeByCriteria c sc ty p u => e ← ResManFreeResByCriteria c sc ty p u; mret (RError e)
  | RDissociate i c => e ← ResManDissociateRes i c; mret (RError e)
  | RFind c i => e ← ResManFindResourceByPtr c i; mret (RError e)
  end.

(** What a caller must see to: contexts are open, items are registered, and
    an item is only dissociated into a context. *)
Definition rm_pre (o : rm_op) (a : rm_abs) : Prop :=
  match o with
  | RConnect _ => True
  | RDisconnect c _ | RFreeByCriteria c _ _ _ _ => is_Some (ab_perproc a !! c)
  | RRegister c _ _ _ _ | RFind c _ => c = 0 ∨ is_Some (ab_perproc a !! c)
  | RFree i _ => i = 0 ∨ linked a i
  | RDissociate i c => i = 0 ∨ linked a i ∧ is_Some (ab_perproc a !! c)
  end.

(** The answer and what is left of the memory's script. *)
Definition take_block (o : os) : bool * os :=
  match OSAllocMem o with Done b o' => (b, o') | _ => (false, o) end.

Context {sp : FreeSpec}.

Inductive rm_step : rm_op → rm_abs → rm_res → rm_abs → Prop :=
| st_connect pp a o : take_block (ab_os a) = (true, o) →
    rm_step (RConnect pp) a (RContext PVRSRV_OK (Some (ab_next a))) (connect pp (ab_set_os o a))
| st_connect_fails pp a o : take_block (ab_os a) = (false, o) →
    rm_step (RConnect pp) a (RContext PVRSRV_ERROR_OUT_OF_MEMORY None) (ab_set_os o a)
| st_disconnect c k a a' : disconnects c k a a' → rm_step (RDisconnect c k) a RUnit a'
| st_register_null ty p u fn a : rm_step (RRegister 0 ty p u fn) a (RItem 0) a
| st_register c ty p u fn a o : c ≠ 0 → take_block (ab_os a) = (true, o) →
    rm_step (RRegister c ty p u fn) a (RItem (ab_next a)) (register c (mkItem 0 ty p u fn) (ab_set_os o a))
| st_register_fails c ty p u fn a o : c ≠ 0 → take_block (ab_os a) = (false, o) →
    rm_step (RRegister c ty p u fn) a (RItem 0) (ab_set_os o a)
| st_free_null f a : rm_step (RFree 0 f) a (RError PVRSRV_OK) a
| st_free i f it a e a' : linked a i → ab_data a !! i = Some it →
    sp_free i it true f a = (e, a') → rm_step (RFree i f) a (RError e) a'
| st_criteria c sc ty p u a e a' : frees (meets sc ty p u) c true a e a' →
    rm_step (RFreeByCriteria c sc ty p u) a (RError e) a'
| st_dissociate_null c a : rm_step (RDissociate 0 c) a (RError PVRSRV_ERROR_INVALID_PARAMS) a
| st_dissociate i c a : linked a i → rm_step (RDissociate i c) a (RError PVRSRV_OK) (link c i (unlink i a))
| st_find_null c i a : c = 0 ∨ i = 0 → rm_step (RFind c i) a (RError PVRSRV_ERROR_INVALID_PARAMS) a
| st_find c i a l : i ≠ 0 → ab_owned a !! c = Some l → i ∈ l → rm_step (RFind c i) a (RError PVRSRV_OK) a
| st_find_not c i a l : i ≠ 0 → ab_owned a !! c = Some l → i ∉ l →
    rm_step (RFind c i) a (RError PVRSRV_ERROR_NOT_OWNER) a.

Context {law : FreeLaw}.

Lemma rep_os_step lk s a o : rep lk s a → rep lk (set_rm_os o s) (ab_set_os o a).
Proof. intros [? ? ? ? ? ? ? ? ? ? ? ? Hwf]. split; simpl; try done. by destruct Hwf. Qed.

Lemma wp_take lk s a Q : rep lk s a →
  (∀ b o s', take_block (ab_os a) = (b, o) → rep lk s' (ab_set_os o a) → Q b s') →
  wp (with_rm_os OSAllocMem) Q s.
Proof.
  intros Hr HQ. unfold with_rm_os. wp_step. rewrite (rep_os _ _ _ Hr). unfold take_block in HQ.
  assert (∃ b o, OSAllocMem (ab_os a) = Done b o) as (b&o&Ho).
  { unfold OSAllocMem. destruct (os_script (ab_os a)) as [|[] r]; eauto. }
  unfold wp. rewrite Ho in *. eapply HQ; [done|]. by apply rep_os_step.
Qed.

Lemma context_pos a c : wf a → is_Some (ab_perproc a !! c) → (c =? IMG_NULL) = false.
Proof. intros Hw Hc. apply Z.eqb_neq. pose proof (wf_perproc _ Hw c Hc). unfold IMG_NULL. lia. Qed.

Lemma item_pos lk s a i : rep lk s a → linked a i → (i =? IMG_NULL) = false.
Proof.
  intros Hr Hi. apply Z.eqb_neq. pose proof (wf_data _ (rep_wf _ _ _ Hr) i (linked_data _ _ _ _ Hr Hi)).
  unfold IMG_NULL. lia.
Qed.

Lemma new_not_linked lk s a : rep lk s a → ¬ linked a (ab_next a).
Proof. intros Hr Hl. pose proof (wf_data _ (rep_wf _ _ _ Hr) _ (linked_data _ _ _ _ Hr Hl)). lia. Qed.

(** ** Registering *)

(** A new item, in no list yet. *)
Definition fresh_item (d : RESMAN_ITEM) (a : rm_abs) : rm_abs :=
  mkAbs (ab_os a) (ab_next a + 1) (ab_ctx a) (ab_perproc a) (ab_owned a) (<[ab_next a := d]> (ab_data a)) (ab_calls a).

Lemma wp_new_item lk s a d Q : rep lk s a →
  (∀ s', rep lk s' (fresh_item d a) → Q (ab_next a) s') → wp (new_item d) Q s.
Proof.
  intros Hr HQ. pose proof (new_not_linked _ _ _ Hr) as Hnew. unfold new_item. wp_step. wp_step. wp_step. wp_step. wp_step.
  destruct Hr as [? Hnx ? ? ? Hd ? ? Hok Hn ? ? Hwf]. rewrite Hnx. apply HQ. split; simpl; try done; try congruence.
  - eapply lists_ok_agree; [exact Hok|done|]. intros c l x Hc Hx. simpl. apply lookup_insert_ne. intros <-.
    apply Hnew. by exists c, l.
  - intros i. rewrite !lookup_insert_is_Some'. by rewrite Hn.
  - destruct Hwf as [W1 W2 W3 W4 W5]. split; simpl; try done; [lia|..].
    + intros i [<-|Hi]%lookup_insert_is_Some'; [lia|]. specialize (W2 i Hi). lia.
    + intros c Hc. specialize (W3 c Hc). lia.
Qed.

Lemma wp_ResManRegisterRes s a c ty p u fn :
  rep false s a → rm_pre (RRegister c ty p u fn) a →
  wp (ResManRegisterRes c ty p u fn)
    (λ i s', ∃ a', rm_step (RRegister c ty p u fn) a (RItem i) a' ∧ rep false s' a') s.
Proof.
  intros Hr [->|Hc]; unfold ResManRegisterRes.
  { apply wp_ret. exists a. split; [constructor|done]. }
  rewrite (context_pos a) by (done || apply Hr). assert (c ≠ 0) by (pose proof (wf_perproc _ (rep_wf _ _ _ Hr) c Hc); lia).
  wp_step. eapply wp_acquire; [exact Hr|done|]. intros s1 Hr1.
  wp_step. eapply wp_take; [exact Hr1|]. intros [] o s2 Ho Hr2; simpl.
  - wp_step. eapply wp_new_item; [exact Hr2|]. intros s3 Hr3. simpl. wp_step. eapply wp_link; [exact Hr3|..].
    + simpl. by apply (wf_owned _ (rep_wf _ _ _ Hr)).
    + apply (new_not_linked _ _ _ Hr2).
    + simpl. rewrite lookup_insert_eq. eauto.
    + intros s4 Hr4. wp_step. eapply wp_release_sync; [exact Hr4|]. intros s5 Hr5. apply wp_ret.
      exists (register c (mkItem 0 ty p u fn) (ab_set_os o a)). split; [by constructor|exact Hr5].
  - wp_step. eapply wp_release_sync; [exact Hr2|]. intros s3 Hr3. apply wp_ret. exists (ab_set_os o a). split; [by constructor|done].
Qed.

(** ** Connecting *)

Lemma wp_PVRSRVResManConnect s a pp :
  rep false s a →
  wp (PVRSRVResManConnect pp)
    (λ r s', ∃ a', rm_step (RConnect pp) a (RContext (fst r) (snd r)) a' ∧ rep false s' a') s.
Proof.
  intros Hr. unfold PVRSRVResManConnect.
  wp_step. eapply wp_acquire; [exact Hr|done|]. intros s1 Hr1.
  wp_step. eapply wp_take; [exact Hr1|]. intros [] o s2 Ho Hr2; simpl.
  2:{ wp_step. eapply wp_release_sync; [exact Hr2|]. intros s3 Hr3. apply wp_ret. exists (ab_set_os o a). split; [by constructor|done]. }
  unfold new_context, on_contexts. wp_steps.
  set (b := connect pp (ab_set_os o a)). destruct Hr2 as [? Hnx ? ? ? ? ? ? Hok Hn Hcx Hcn Hwf].
  assert (ab_perproc a !! ab_next a = None) as Hfree.
  { destruct (ab_perproc a !! ab_next a) eqn:Hp; [|done]. pose proof (wf_perproc _ Hwf (ab_next a) ltac:(simpl; eauto)). simpl in *. lia. }
  pose proof (wf_next _ Hwf) as Hpos. simpl in *. rewrite Hnx.
  eapply wp_mono; [eapply (wp_List_Insert _ {[0 := ab_ctx a]} 0 (ab_ctx a) (ab_next a))|].
  - simpl. eapply lists_ok_agree; [exact Hcx|done|]. intros h l x [<- <-]%lookup_singleton_Some Hx. simpl.
    apply lookup_insert_ne. intros <-. apply (wf_ctx _ Hwf) in Hx. simpl in Hx. by rewrite Hfree in Hx; destruct Hx.
  - by rewrite lookup_singleton_eq.
  - lia.
  - simpl. rewrite lookup_insert_eq. eauto.
  - intros h l [<- <-]%lookup_singleton_Some Hx. apply (wf_ctx _ Hwf) in Hx. simpl in Hx. by rewrite Hfree in Hx; destruct Hx.
  - intros [] t [Ht Hsn]. wp_step. apply (wp_release_sync _ b).
    + rewrite insert_singleton_eq in Ht. split; simpl; try done; try congruence.
      * apply lists_ok_new_head; [done|]. destruct (ab_owned a !! ab_next a) eqn:Hp; [|done].
        pose proof (proj1 (wf_owned _ Hwf (ab_next a)) ltac:(simpl; eauto)) as Hq. simpl in Hq. rewrite Hfree in Hq. by destruct Hq.
      * intros d. rewrite (Hsn d). simpl. rewrite !lookup_insert_is_Some'. by rewrite Hcn.
      * destruct Hwf as [W1 W2 W3 W4 W5]. split; simpl in *; try done; [lia|..].
        -- intros i Hi. specialize (W2 i Hi). lia.
        -- intros d [<-|Hd]%lookup_insert_is_Some'; [lia|]. specialize (W3 d Hd). lia.
        -- intros d. rewrite elem_of_cons, lookup_insert_is_Some', W4. naive_solver.
        -- intros d. rewrite !lookup_insert_is_Some', W5. done.
    + intros s3 Hr3. apply wp_ret. exists b. split; [by constructor|done].
Qed.

(** ** The rest *)

Lemma wp_ResManFreeResByPtr s a i f :
  rep false s a → rm_pre (RFree i f) a →
  wp (ResManFreeResByPtr i f) (λ e s', ∃ a', rm_step (RFree i f) a (RError e) a' ∧ rep false s' a') s.
Proof.
  intros Hr [->|Hi]; unfold ResManFreeResByPtr.
  { apply wp_ret. exists a. split; [constructor|done]. }
  rewrite (item_pos false s a) by done. destruct (linked_data _ _ _ _ Hr Hi) as [it Hit].
  wp_step. eapply wp_acquire; [exact Hr|done|]. intros s1 Hr1.
  wp_step. eapply wp_mono; [by eapply wp_FreeResourceByPtr|]. intros e s2 (a2&Hf&Hr2&_).
  wp_step. eapply wp_release_sync; [exact Hr2|]. intros s3 Hr3. apply wp_ret. exists a2. split; [by eapply st_free|done].
Qed.

Lemma wp_ResManFreeResByCriteria s a c sc ty p u :
  rep false s a → rm_pre (RFreeByCriteria c sc ty p u) a →
  wp (ResManFreeResByCriteria c sc ty p u)
    (λ e s', ∃ a', rm_step (RFreeByCriteria c sc ty p u) a (RError e) a' ∧ rep false s' a') s.
Proof.
  intros Hr Hc. unfold ResManFreeResByCriteria.
  wp_step. eapply wp_acquire; [exact Hr|done|]. intros s1 Hr1.
  wp_step. eapply wp_mono; [apply (wp_FreeResourceByCriteria c _ _ _ _ _ s1 _ Hr1); by apply (wf_owned _ (rep_wf _ _ _ Hr))|].
  intros e s2 (a2&Hf&Hr2&_).
  wp_step. eapply wp_release_sync; [exact Hr2|]. intros s3 Hr3. apply wp_ret. exists a2. split; [by constructor|done].
Qed.

Lemma wp_ResManDissociateRes s a i c :
  rep false s a → rm_pre (RDissociate i c) a →
  wp (ResManDissociateRes i c) (λ e s', ∃ a', rm_step (RDissociate i c) a (RError e) a' ∧ rep false s' a') s.
Proof.
  intros Hr [->|[Hi Hc]]; unfold ResManDissociateRes.
  { apply wp_ret. exists a. split; [constructor|done]. }
  rewrite (item_pos false s a), (context_pos a) by (done || apply Hr). simpl.
  wp_step. eapply wp_unlink; [exact Hr|exact Hi|]. intros s1 Hr1.
  wp_step. eapply wp_link; [exact Hr1|by apply (wf_owned _ (rep_wf _ _ _ Hr1))|apply unlink_not_linked| |].
  - simpl. by eapply linked_data.
  - intros s2 Hr2. apply wp_ret. exists (link c i (unlink i a)). split; [by constructor|done].
Qed.

Lemma first_of_mem i l : first_of negb (λ x, x =? i) false l = bool_decide (i ∈ l).
Proof.
  induction l as [|x l IH]; [done|]. cbn [first_of].
  destruct (Z.eqb_spec x i) as [->|Hx]; cbn [negb].
  - rewrite bool_decide_true; [done|]. by left.
  - rewrite IH. apply bool_decide_ext. rewrite elem_of_cons. naive_solver.
Qed.

Lemma wp_ResManFindResourceByPtr s a c i :
  rep false s a → rm_pre (RFind c i) a →
  wp (ResManFindResourceByPtr c i) (λ e s', ∃ a', rm_step (RFind c i) a (RError e) a' ∧ rep false s' a') s.
Proof.
  intros Hr Hc. unfold ResManFindResourceByPtr.
  destruct ((i =? IMG_NULL) || (c =? IMG_NULL)) eqn:H0.
  { apply orb_true_iff in H0 as [?%Z.eqb_eq|?%Z.eqb_eq]; apply wp_ret; exists a; (split; [|done]); constructor; auto. }
  apply orb_false_iff in H0 as [Hi0%Z.eqb_neq Hc0%Z.eqb_neq]. destruct Hc as [?|Hc]; [done|].
  apply (wf_owned _ (rep_wf _ _ _ Hr)) in Hc as [l Hl].
  wp_step. eapply wp_acquire; [exact Hr|done|]. intros s1 Hr1. wp_step. eapply wp_load_head; [exact Hr1|exact Hl|].
  destruct (lo_seg _ _ (rep_items _ _ _ Hr1) _ _ Hl) as [Hs Hnd].
  wp_step. eapply wp_mono.
  { apply (wp_List_Any_2 on_items rm_items on_items_read false negb _ (λ x, x =? i) s1 _ l Hs Hnd); [done|].
    intros x Q _ HQ. unfold ResManFindResourceByPtr_AnyVaCb. wp_step. exact HQ. }
  intros r s2 [-> ->]. rewrite first_of_mem. wp_step. eapply wp_release_sync; [exact Hr1|]. intros s3 Hr3. apply wp_ret.
  exists a. split; [|done]. case_bool_decide; [by eapply st_find|by eapply st_find_not].
Qed.

(** Every operation, from a state that is some abstract state. *)
Lemma run_rm_refines o s a :
  rep false s a → rm_pre o a → wp (run_rm o) (λ r s', ∃ a', rm_step o a r a' ∧ rep false s' a') s.
Proof.
  intros Hr Hp. destruct o; unfold run_rm; wp_step; eapply wp_mono.
  - by apply wp_PVRSRVResManConnect.
  - done.
  - by apply wp_PVRSRVResManDisconnect.
  - intros [] s' (a'&?&?&_). apply wp_ret. exists a'. split; [by constructor|done].
  - by apply wp_ResManRegisterRes.
  - done.
  - by apply wp_ResManFreeResByPtr.
  - done.
  - by apply wp_ResManFreeResByCriteria.
  - done.
  - by apply wp_ResManDissociateRes.
  - done.
  - by apply wp_ResManFindResourceByPtr.
  - done.
Qed.

(** ** Starting *)

Definition ab_empty (o : os) (n : Z) : rm_abs := mkAbs o n [] ∅ ∅ ∅ [].

Definition rm_boot (o : os) : rm_st :=
  mkRm o 1 false false false ∅ (mkLists ∅ ∅) ∅ (mkLists ∅ ∅) [].

Lemma wp_ResManInit o :
  wp ResManInit (λ e s, (e = PVRSRV_OK ∧ fst (take_block o) = true ∧ rep false s (ab_empty (snd (take_block o)) 1)) ∨
    (e = PVRSRV_ERROR_OUT_OF_MEMORY ∧ fst (take_block o) = false ∧ gpsResList s = false ∧ rm_os s = snd (take_block o))) (rm_boot o).
Proof.
  unfold ResManInit. wp_steps. simpl. wp_step. unfold with_rm_os. wp_step. simpl. unfold wp, take_block.
  assert (∃ b o', OSAllocMem o = Done b o') as (b&o'&Ho).
  { unfold OSAllocMem. destruct (os_script o) as [|[] r]; eauto. }
  rewrite Ho. destruct b; simpl; [left|right; done]. do 2 (split; [done|]). split; simpl; try done.
  - intros i. by rewrite !lookup_empty.
  - split.
    + intros h l [<- <-]%lookup_singleton_Some. split; [done|constructor].
    + intros h1 h2 l1 l2 x [<- <-]%lookup_singleton_Some [<- <-]%lookup_singleton_Some. done.
  - intros i. by rewrite !lookup_empty.
  - split; simpl; [lia|..]; intros c; rewrite ?lookup_empty; try (by intros [? ?]); [|done].
    split; [by intros ?%elem_of_nil|by intros [? ?]].
Qed.
End api.
