(* ===== verification/ResManQuiet.v ===== *)
(** * Free functions that leave the resource manager alone

    When the free functions only answer an error code, what freeing by
    criteria and closing a context do has a closed form: the items go in an
    order that is a function of the list. *)

From S2P Require Import Prelude Lists ResMan ResManRep ResManOps ResManApi.

(** Free functions that answer [ret] and call nothing back. *)
Section quiet.
Context (ret : free_call → PVRSRV_ERROR).

Definition quiet_fns : FreeFns := λ f p u b, mret (ret (mkCall f p u b)).
Definition quiet_spec : FreeSpec := λ f p u b a, (ret (mkCall f p u b), a).

Lemma quiet_law : @FreeLaw quiet_fns quiet_spec.
Proof. intros f p u b s a Hr. apply wp_ret. exists a. split_and!; [done|done|apply shrinks_refl]. Qed.

(** The items of the list up to the first whose function fails, and its error. *)
Fixpoint until_fail (data : gmap Z RESMAN_ITEM) (l : list Z) : list Z * PVRSRV_ERROR :=
  match l with
  | [] => ([], PVRSRV_OK)
  | i :: l =>
      let e := from_option (λ it, ret (call_of false it)) PVRSRV_OK (data !! i) in
      if is_OK e then let r := until_fail data l in (i :: fst r, snd r) else ([i], e)
  end.

(** The calls for the items [xs]. *)
Definition calls_for (data : gmap Z RESMAN_ITEM) (xs : list Z) : list free_call :=
  omap (λ i, call_of false <$> data !! i) xs.

(** The items [xs] freed one after the other. *)
Definition drop_all (xs : list Z) (a : rm_abs) : rm_abs :=
  mkAbs {| os_script := os_script (ab_os a); os_live := os_live (ab_os a) - Z.of_nat (length xs) |}
    (ab_next a) (ab_ctx a) (ab_perproc a) (filter (λ x, x ∉ xs) <$> ab_owned a)
    (filter (λ kv, kv.1 ∉ xs) (ab_data a)) (ab_calls a ++ calls_for (ab_data a) xs).

Lemma filter_none (l : list Z) (xs : list Z) : (∀ x, x ∈ l → x ∉ xs) → filter (λ x, x ∉ xs) l = l.
Proof.
  induction l as [|x l IH]; intros H; [done|]. rewrite filter_cons_True by (apply H; by left).
  rewrite IH; [done|]. intros y Hy. apply H. by right.
Qed.

Lemma drop_all_nil a : drop_all [] a = a.
Proof.
  destruct a as [[sc lv] nx cx pp ow da ca]. unfold drop_all. simpl. f_equal.
  - f_equal. lia.
  - apply map_eq. intros c. rewrite lookup_fmap. destruct (ow !! c) as [l|]; simpl; [|done]. f_equal.
    apply filter_none. intros x _. apply not_elem_of_nil.
  - apply map_filter_id. intros i x _. apply not_elem_of_nil.
  - by rewrite app_nil_r.
Qed.

Lemma data_kept a xs y : y ∉ xs → ab_data (drop_all xs a) !! y = ab_data a !! y.
Proof.
  intros Hy. simpl. destruct (ab_data a !! y) as [it|] eqn:H.
  - by apply map_lookup_filter_Some_2.
  - apply map_lookup_filter_None_2. by left.
Qed.

Lemma calls_for_ext d d' xs : (∀ x, x ∈ xs → d !! x = d' !! x) → calls_for d xs = calls_for d' xs.
Proof.
  induction xs as [|x xs IH]; intros H; [done|]. unfold calls_for in *. cbn. rewrite H by (by left).
  destruct (d' !! x); simpl; [f_equal|]; apply IH; intros y Hy; apply H; by right.
Qed.

Lemma drop_all_app xs ys a : (∀ y, y ∈ ys → y ∉ xs) → drop_all ys (drop_all xs a) = drop_all (xs ++ ys) a.
Proof.
  intros Hd. pose proof (calls_for_ext (ab_data (drop_all xs a)) (ab_data a) ys (λ y Hy, data_kept a xs y (Hd y Hy))) as Hc.
  unfold drop_all in *. simpl in *. rewrite Hc. f_equal.
  - rewrite length_app. f_equal. lia.
  - rewrite <- map_fmap_compose. apply map_fmap_ext. intros c l _. simpl. rewrite list_filter_filter.
    apply list_filter_iff. intros x. rewrite elem_of_app. tauto.
  - rewrite map_filter_filter. apply map_filter_ext. intros i x _. simpl. rewrite elem_of_app. tauto.
  - rewrite <- (assoc_L app). f_equal. unfold calls_for. by rewrite omap_app.
Qed.

Lemma sp_free_quiet i it a : ab_data a !! i = Some it →
  @sp_free quiet_spec i it true false a = (ret (call_of false it), drop_all [i] a).
Proof.
  intros Hit. unfold sp_free, acb, quiet_spec. simpl. f_equal. unfold drop, drop_all, unlink, ab_set_owned, ab_log, freed_os.
  simpl. f_equal.
  - apply map_fmap_ext. intros c l _. apply list_filter_iff. intros x. by rewrite list_elem_of_singleton.
  - apply map_eq. intros j. destruct (decide (j = i)) as [->|Hj].
    + rewrite lookup_delete_eq. symmetry. apply map_lookup_filter_None_2. right. intros x _ H. apply H. by apply list_elem_of_singleton.
    + rewrite lookup_delete_ne by done. symmetry. destruct (ab_data a !! j) eqn:H.
      * apply map_lookup_filter_Some_2; [done|]. simpl. by rewrite list_elem_of_singleton.
      * apply map_lookup_filter_None_2. by left.
  - unfold calls_for. cbn. by rewrite Hit.
Qed.

Lemma matching_drop_all P xs a c : matching P (drop_all xs a) c = filter (λ x, x ∉ xs) (matching P a c).
Proof.
  unfold matching.
  assert (default [] (ab_owned (drop_all xs a) !! c) = filter (λ x, x ∉ xs) (default [] (ab_owned a !! c))) as ->.
  { simpl. rewrite lookup_fmap. by destruct (ab_owned a !! c). }
  rewrite !list_filter_filter. apply list_filter_iff. intros x.
  split; intros [H1 H2].
  - by rewrite (data_kept a xs x H2) in H1.
  - by rewrite (data_kept a xs x H1).
Qed.

Lemma until_fail_sub d l : ∀ x, x ∈ fst (until_fail d l) → x ∈ l.
Proof.
  induction l as [|i l IH]; simpl; [done|]. destruct (is_OK _); simpl; intros x.
  - rewrite !elem_of_cons. naive_solver.
  - rewrite list_elem_of_singleton. intros ->. by left.
Qed.

Lemma until_fail_ext d d' l : (∀ x, x ∈ l → d !! x = d' !! x) → until_fail d l = until_fail d' l.
Proof.
  induction l as [|i l IH]; intros H; simpl; [done|]. rewrite <- (H i) by (by left).
  rewrite IH; [done|]. intros x Hx. apply H. by right.
Qed.

(** Freeing by criteria, in closed form. *)
Lemma frees_quiet P c a e a' :
  @frees quiet_spec P c true a e a' → NoDup (default [] (ab_owned a !! c)) →
  e = snd (until_fail (ab_data a) (matching P a c)) ∧
  a' = drop_all (fst (until_fail (ab_data a) (matching P a c))) a.
Proof.
  induction 1 as [a Hm|a i r it e a' Hm Hit Hf He|a i r it a' e a'' Hm Hit Hf Hr IH]; intros Hnd; rewrite Hm; cbn [until_fail].
  - by rewrite drop_all_nil.
  - rewrite (sp_free_quiet _ _ _ Hit) in Hf. injection Hf as <- <-. rewrite Hit. cbn [from_option].
    destruct (is_OK _) eqn:Hok; [by apply is_OK_true in Hok|]. done.
  - rewrite (sp_free_quiet _ _ _ Hit) in Hf. injection Hf as Hok <-. rewrite Hit. cbn [from_option]. rewrite Hok. simpl.
    assert (NoDup (i :: r)) as [Hi Hndr]%NoDup_cons by (rewrite <- Hm; by apply NoDup_filter).
    assert (matching P (drop_all [i] a) c = r) as Hm'.
    { rewrite matching_drop_all, Hm. rewrite filter_cons_False by (intros H; by apply H; left).
      apply filter_none. intros x Hx. rewrite list_elem_of_singleton. by intros ->. }
    assert (until_fail (ab_data (drop_all [i] a)) r = until_fail (ab_data a) r) as Hu.
    { apply until_fail_ext. intros x Hx. apply data_kept. rewrite list_elem_of_singleton. by intros ->. }
    destruct IH as [-> ->].
    { simpl. rewrite lookup_fmap. destruct (ab_owned a !! c); simpl; [by apply NoDup_filter|constructor]. }
    rewrite Hm', Hu. split; [done|]. apply (drop_all_app [i]).
    intros y Hy%until_fail_sub. rewrite list_elem_of_singleton. by intros ->.
Qed.

(** ** Closing a context *)

Definition of_type (a : rm_abs) (l : list Z) (t : Z) : list Z :=
  filter (λ i, from_option (has_type t) false (ab_data a !! i) = true) l.

(** The order in which a context's items are freed: by type; within a type
    the newest first, but for the synchronisation operations. *)
Definition teardown (a : rm_abs) (l : list Z) : list Z :=
  (types_before ≫= of_type a l) ++ rev (of_type a l RESMAN_TYPE_MODIFY_SYNC_OPS) ++ (types_after ≫= of_type a l).

Definition all_types : list Z := types_before ++ RESMAN_TYPE_MODIFY_SYNC_OPS :: types_after.

Lemma until_fail_none d l :
  (∀ i it, i ∈ l → d !! i = Some it → ret (call_of false it) = PVRSRV_OK) → until_fail d l = (l, PVRSRV_OK).
Proof.
  induction l as [|i l IH]; intros H; cbn [until_fail]; [done|].
  assert (is_OK (from_option (λ it, ret (call_of false it)) PVRSRV_OK (d !! i)) = true) as ->.
  { destruct (d !! i) as [it|] eqn:Hi; [|done]. cbn [from_option]. rewrite (H i it); [done|by left|done]. }
  rewrite IH; [done|]. intros j it Hj. apply H. by right.
Qed.

(** All the free functions of the context's items succeed. *)
Definition succeed (a : rm_abs) (c : Z) : Prop :=
  ∀ l i it, ab_owned a !! c = Some l → i ∈ l → ab_data a !! i = Some it → ret (call_of false it) = PVRSRV_OK.

Lemma of_type_disjoint a l l' t t' x : t ≠ t' → x ∈ of_type a l t → x ∉ of_type a l' t'.
Proof.
  intros Hne [H1 _]%list_elem_of_filter [H2 _]%list_elem_of_filter. destruct (ab_data a !! x); [|done]. simpl in *.
  unfold has_type in *. lia.
Qed.

Lemma succeed_drop xs a c : succeed a c → succeed (drop_all xs a) c.
Proof.
  intros H l i it Hl Hi Hit. simpl in Hl. apply lookup_fmap_Some in Hl as (l'&<-&Hl).
  apply list_elem_of_filter in Hi as [Hx Hi]. rewrite (data_kept a xs i Hx) in Hit. by eapply H.
Qed.

Lemma owned_drop xs a c l : ab_owned a !! c = Some l → ab_owned (drop_all xs a) !! c = Some (filter (λ x, x ∉ xs) l).
Proof. intros H. simpl. by rewrite lookup_fmap, H. Qed.

Lemma of_type_drop a l xs t : (∀ x, x ∈ xs → from_option (has_type t) false (ab_data a !! x) = false) →
  of_type (drop_all xs a) (filter (λ x, x ∉ xs) l) t = of_type a l t.
Proof.
  intros Hd. unfold of_type. rewrite list_filter_filter. apply list_filter_iff. intros x. split.
  - intros [H1 H2]. by rewrite (data_kept a _ x H2) in H1.
  - intros H1. assert (x ∉ xs) as Hx by (intros Hx; by rewrite (Hd x Hx) in H1).
    by rewrite (data_kept a _ x Hx).
Qed.

Lemma of_types_drop a l xs ts : (∀ x t, x ∈ xs → t ∈ ts → from_option (has_type t) false (ab_data a !! x) = false) →
  ts ≫= of_type (drop_all xs a) (filter (λ x, x ∉ xs) l) = ts ≫= of_type a l.
Proof.
  induction ts as [|t ts IH]; intros Hd; [done|]. cbn. f_equal.
  - apply of_type_drop. intros x Hx. apply Hd; [done|by left].
  - apply IH; intros x t' ? ?; apply Hd; [done|by right].
Qed.

Lemma frees_types_quiet c ts : ∀ a a' l,
  @frees_types quiet_spec c ts a a' → ab_owned a !! c = Some l → NoDup l → NoDup ts → succeed a c →
  a' = drop_all (ts ≫= of_type a l) a.
Proof.
  induction ts as [|t ts IH]; intros a a' l Hf Hl Hnd Hts Hok; inversion Hf as [|? ? ? e a1 ? Hf1 Hf2]; subst; simpl.
  { by rewrite drop_all_nil. }
  apply NoDup_cons in Hts as [Ht Hts]. apply frees_quiet in Hf1; [|by rewrite Hl].
  assert (matching (has_type t) a c = of_type a l t) as Hm by (unfold matching; by rewrite Hl).
  rewrite Hm, until_fail_none in Hf1; [|intros i it Hi; eapply Hok; [done|]; by apply list_elem_of_filter in Hi as [_ ?]].
  cbn [fst snd] in Hf1. destruct Hf1 as [_ ->]. eapply IH in Hf2; [|by apply owned_drop|by apply NoDup_filter|done|by apply succeed_drop].
  subst a'.
  rewrite of_types_drop.
  2:{ intros x t' [H1 _]%list_elem_of_filter Ht'. destruct (ab_data a !! x); [|done]. simpl in *. unfold has_type in *.
      apply Z.eqb_neq. apply Z.eqb_eq in H1 as ->. by intros ->. }
  apply drop_all_app. intros y (t'&Hy&Ht')%list_elem_of_bind. eapply of_type_disjoint; [|exact Hy]. by intros ->.
Qed.

Lemma filter_rev_list (P : Z → Prop) `{∀ x, Decision (P x)} l : filter P (rev l) = rev (filter P l).
Proof.
  induction l as [|x l IH]; [done|]. simpl. rewrite filter_app, IH, !filter_cons.
  case_decide; simpl; [done|]. by rewrite app_nil_r.
Qed.

Lemma of_type_rev a l t : of_type a (rev l) t = rev (of_type a l t).
Proof. apply filter_rev_list. Qed.

Lemma turn_drop_turn c xs a : turn c (drop_all xs (turn c a)) = drop_all xs a.
Proof.
  unfold turn, drop_all, ab_set_owned. simpl. f_equal. apply map_eq. intros d.
  destruct (decide (d = c)) as [->|Hd].
  - rewrite lookup_alter_eq, !lookup_fmap, lookup_alter_eq. destruct (ab_owned a !! c) as [l|]; simpl; [|done].
    by rewrite filter_rev_list, rev_involutive.
  - by rewrite lookup_alter_ne, !lookup_fmap, lookup_alter_ne.
Qed.

Lemma NoDup_filter_owned xs a c l : NoDup l → ab_owned a !! c = Some l →
  NoDup (default [] (ab_owned (drop_all xs a) !! c)).
Proof. intros Hnd Hl. rewrite (owned_drop xs a c l Hl). by apply NoDup_filter. Qed.

Lemma types_NoDup : NoDup types_before ∧ NoDup types_after.
Proof. split; [apply (bool_decide_unpack (NoDup types_before))|apply (bool_decide_unpack (NoDup types_after))]; by vm_compute. Qed.

Lemma of_type_other a l ts t x : (bool_decide (t ∈ ts) = false) → x ∈ ts ≫= of_type a l →
  from_option (has_type t) false (ab_data a !! x) = false.
Proof.
  intros Ht%bool_decide_eq_false (t'&Hx&Ht')%list_elem_of_bind. apply list_elem_of_filter in Hx as [Hx _].
  destruct (ab_data a !! x); [|done]. simpl in *. unfold has_type in *. apply Z.eqb_eq in Hx as ->.
  apply Z.eqb_neq. by intros ->.
Qed.

Lemma types_after_fresh t : t ∈ types_after → bool_decide (t ∈ types_before ++ [RESMAN_TYPE_MODIFY_SYNC_OPS]) = false.
Proof.
  intros Ht. assert (Forall (λ t, bool_decide (t ∈ types_before ++ [RESMAN_TYPE_MODIFY_SYNC_OPS]) = false) types_after) as H.
  { repeat constructor. }
  rewrite Forall_forall in H. by apply H.
Qed.

Lemma teardown_other a l t x : t ∈ types_after →
  x ∈ (types_before ≫= of_type a l) ++ rev (of_type a l RESMAN_TYPE_MODIFY_SYNC_OPS) →
  from_option (has_type t) false (ab_data a !! x) = false.
Proof.
  intros Ht%types_after_fresh Hx. apply (of_type_other a l _ _ _ Ht). rewrite bind_app, elem_of_app.
  apply elem_of_app in Hx as [Hx|Hx]; [by left|right]. cbn. rewrite app_nil_r.
  by rewrite list_elem_of_In, <- in_rev, <- list_elem_of_In in Hx.
Qed.

(** With the types of resman.h nothing is left behind. *)
Lemma teardown_perm a l : NoDup l →
  (∀ i, i ∈ l → ∃ it, ab_data a !! i = Some it ∧ ri_ui32ResType it ∈ all_types) → teardown a l ≡ₚ l.
Proof.
  intros Hnd Hty. assert (teardown a l ≡ₚ all_types ≫= of_type a l) as ->.
  { unfold teardown, all_types. rewrite bind_app. cbn [mbind list_bind]. by rewrite <- Permutation_rev. }
  assert (∀ t i, i ∈ of_type a l t ↔ i ∈ l ∧ ∃ it, ab_data a !! i = Some it ∧ ri_ui32ResType it = t) as Hof.
  { intros t i. unfold of_type. rewrite list_elem_of_filter. unfold has_type. destruct (ab_data a !! i) as [it|]; simpl.
    - rewrite Z.eqb_eq. naive_solver.
    - naive_solver. }
  apply NoDup_Permutation; [|done|].
  - apply NoDup_bind.
    + intros t t' i _ _ Hi Hi'. apply Hof in Hi as (_&it&Hit&<-). apply Hof in Hi' as (_&it'&Hit'&<-). congruence.
    + intros t _. by apply NoDup_filter.
    + apply (bool_decide_unpack (NoDup all_types)). by vm_compute.
  - intros i. rewrite list_elem_of_bind. split.
    + intros (t&Hi&_). by apply Hof in Hi as [? _].
    + intros Hi. destruct (Hty i Hi) as (it&Hit&Ht). exists (ri_ui32ResType it). split; [|done]. apply Hof. eauto.
Qed.

(** Closing a context whose free functions all succeed. *)
Lemma disconnects_quiet c a a' l :
  @disconnects quiet_spec c false a a' → ab_owned a !! c = Some l → NoDup l → succeed a c →
  a' = close c (drop_all (teardown a l) a).
Proof.
  intros Hd Hl Hnd Hok. inversion Hd as [|? a1 a2 a3 H1 H2 H3 Hk Ha]; subst. f_equal. destruct types_NoDup as [Nb Na].
  eapply frees_types_quiet in H1; [|exact Hl|exact Hnd|exact Nb|exact Hok]. subst a1.
  set (xs := types_before ≫= of_type a l) in *. set (l1 := filter (λ x, x ∉ xs) l).
  assert (ab_owned (turn c (drop_all xs a)) !! c = Some (rev l1)) as Hl1.
  { simpl. by rewrite lookup_alter_eq, lookup_fmap, Hl. }
  assert (NoDup l1) as Hnd1 by by apply NoDup_filter.
  eapply frees_types_quiet in H2; [|exact Hl1|by rewrite <- Permutation_rev|by apply NoDup_singleton|].
  2:{ intros k i it Hk1 Hi Hit. rewrite Hl1 in Hk1. injection Hk1 as <-.
      apply (succeed_drop xs a c Hok l1 i it); [by apply owned_drop| |exact Hit].
      by rewrite list_elem_of_In, <- in_rev, <- list_elem_of_In in Hi. }
  set (mid := rev (of_type a l RESMAN_TYPE_MODIFY_SYNC_OPS)).
  assert ([RESMAN_TYPE_MODIFY_SYNC_OPS] ≫= of_type (turn c (drop_all xs a)) (rev l1) = mid) as Hmid.
  { trans (of_type (drop_all xs a) (rev l1) RESMAN_TYPE_MODIFY_SYNC_OPS ++ []); [done|].
    rewrite app_nil_r, of_type_rev. unfold mid. f_equal. apply of_type_drop. intros x Hx.
    by apply (of_type_other a l types_before). }
  rewrite Hmid in H2. subst a2. rewrite turn_drop_turn in H3. rewrite drop_all_app in H3.
  2:{ intros y Hy Hx. unfold mid in Hy. rewrite list_elem_of_In, <- in_rev, <- list_elem_of_In in Hy.
      apply list_elem_of_filter in Hy as [Hy _].
      rewrite (of_type_other a l types_before RESMAN_TYPE_MODIFY_SYNC_OPS y) in Hy; [done|by vm_compute|done]. }
  eapply frees_types_quiet in H3; [|by apply owned_drop|by apply NoDup_filter|exact Na|by apply succeed_drop].
  subst a3. rewrite of_types_drop.
  - rewrite drop_all_app; [unfold teardown; by rewrite (assoc_L app)|].
    intros y Hy Hx. apply list_elem_of_bind in Hy as (t&Hy&Ht). apply list_elem_of_filter in Hy as [Hy _].
    rewrite (teardown_other a l t y) in Hy; done.
  - intros x t Hx Ht. by apply (teardown_other a l).
Qed.
End quiet.
