(* ===== verification/ResManProps.v ===== *)
(** * The resource manager: properties *)

From S2P Require Import Prelude Lists ResMan ResManRep ResManOps ResManApi ResManQuiet.

(** ** Refinement *)

Section runs.
Context {links : FreshLinks} {fns : FreeFns}.

Fixpoint run_rms (ops : list rm_op) : M rm_st (list rm_res) :=
  match ops with
  | [] => mret []
  | o :: ops => r ← run_rm o; rs ← run_rms ops; mret (r :: rs)
  end.

(** [ResManInit], then the operations; no answers when it fails. *)
Definition run_resman (ops : list rm_op) : M rm_st (option (list rm_res)) :=
  e ← ResManInit;
  if is_OK e then rs ← run_rms ops; mret (Some rs) else mret None.

Context {sp : FreeSpec}.

Inductive rm_steps : list rm_op → rm_abs → list rm_res → rm_abs → Prop :=
| rms_nil a : rm_steps [] a [] a
| rms_cons o ops a r a1 rs a2 :
    rm_step o a r a1 → rm_steps ops a1 rs a2 → rm_steps (o :: ops) a (r :: rs) a2.

(** The callers keep to what [rm_pre] asks. *)
Fixpoint good (ops : list rm_op) (a : rm_abs) : Prop :=
  match ops with
  | [] => True
  | o :: ops => rm_pre o a ∧ ∀ r a', rm_step o a r a' → good ops a'
  end.

Context {law : FreeLaw}.

Lemma run_rms_refines ops : ∀ s a, rep false s a → good ops a →
  wp (run_rms ops) (λ rs s', ∃ a', rm_steps ops a rs a' ∧ rep false s' a') s.
Proof.
  induction ops as [|o ops IH]; intros s a Hr Hg; simpl.
  - wp_step. exists a. split; [constructor|done].
  - destruct Hg as [Hp Hg]. wp_step. eapply wp_mono; [by apply run_rm_refines|]. intros r s1 (a1&H1&Hr1).
    wp_step. eapply wp_mono; [by eapply IH, Hg|]. intros rs s2 (a2&H2&Hr2). apply wp_ret.
    exists a2. split; [by econstructor|done].
Qed.
End runs.

(** C5: from [ResManInit] on, take any run of connections, registrations,
    frees, searches, dissociations and disconnections that keeps the rules
    of [rm_pre]: the contexts named are open (or null, for registering and
    searching), the items freed or dissociated are registered (or null), and
    an item is dissociated only into an open context, not into a null one
    ([resman_dissociate_unheld] shows what the code does then). Even when
    free functions free more resources in turn ([FreeLaw]), the resource
    manager never faults or loops, every operation answers and does what it
    does on the abstract lists of owned items, and the store holds exactly
    those lists, well linked, with the mutex free. *)
Theorem resman_refines (links : FreshLinks) (fns : FreeFns) (sp : FreeSpec) (law : FreeLaw) (o : os) (ops : list rm_op) :
  good ops (ab_empty (snd (take_block o)) 1) →
  wp (run_resman ops) (λ r s,
    match r with
    | Some rs => ∃ a, rm_steps ops (ab_empty (snd (take_block o)) 1) rs a ∧ rep false s a
    | None => fst (take_block o) = false ∧ gpsResList s = false
    end) (rm_boot o).
Proof.
  intros Hg. unfold run_resman. wp_step. eapply wp_mono; [apply wp_ResManInit|].
  intros e s [(->&_&Hr)|(->&Hb&Hl&_)]; simpl.
  - wp_step. eapply wp_mono; [by apply run_rms_refines|]. intros rs s' H. by apply wp_ret.
  - by apply wp_ret.
Qed.

(** ** Closing a context *)

(** C26: when the free functions of a context's items all succeed and call
    nothing back, closing the context calls the function of each of its
    items, polling, in the order of [teardown]: type by type, the newest
    first but for the synchronisation operations, which go oldest first. The
    context is gone and the rest is as before. When the items have types
    resman.h lists, every item of the context goes, exactly once, and the
    memory of them and of the context is given back. (When a function fails,
    items are left behind: [resman_disconnect_leaks].) *)
Theorem resman_disconnect_order (links : FreshLinks) (ret : free_call → PVRSRV_ERROR) (s : rm_st) (a : rm_abs) (c : Z) (l : list Z) :
  rep false s a → ab_owned a !! c = Some l → succeed ret a c →
  wp (@PVRSRVResManDisconnect (quiet_fns ret) c false) (λ _ s',
    rep false s' (close c (drop_all (teardown a l) a)) ∧
    rm_calls s' = rm_calls s ++ calls_for (rm_item_data s) (teardown a l) ∧
    ((∀ i it, i ∈ l → rm_item_data s !! i = Some it → ri_ui32ResType it ∈ all_types) →
     teardown a l ≡ₚ l ∧ (∀ i, i ∈ l → rm_item_data s' !! i = None) ∧
     os_live (rm_os s') = os_live (rm_os s) - Z.of_nat (length l) - 1)) s.
Proof.
  intros Hr Hl Hok. destruct (lo_seg _ _ (rep_items _ _ _ Hr) _ _ Hl) as [_ Hnd].
  eapply wp_mono.
  { apply (wp_PVRSRVResManDisconnect (sp := quiet_spec ret) (law := quiet_law ret) c false s a Hr).
    apply (wf_owned _ (rep_wf _ _ _ Hr)). eauto. }
  intros [] s' (a'&Hd&Hr'&_). eapply disconnects_quiet in Hd; [|done..]. subst a'.
  rewrite (rep_calls _ _ _ Hr), (rep_data _ _ _ Hr), (rep_os _ _ _ Hr).
  split_and!; [done|by rewrite (rep_calls _ _ _ Hr')|]. intros Hty.
  assert (teardown a l ≡ₚ l) as Hp.
  { apply teardown_perm; [done|]. intros i Hi. destruct (linked_data _ _ _ i Hr) as [it Hit]; [by exists c, l|].
    exists it. split; [done|by eapply Hty]. }
  split_and!; [done|..].
  - intros i Hi. rewrite (rep_data _ _ _ Hr'). simpl. apply map_lookup_filter_None_2. right. intros it _ H. apply H.
    simpl. by rewrite Hp.
  - rewrite (rep_os _ _ _ Hr'). simpl. rewrite (Permutation_length Hp). lia.
Qed.

(** ** Freeing by criteria *)

Lemma frees_ok_none `{sp : FreeSpec} P c exec a e a' : frees P c exec a e a' → e = PVRSRV_OK → matching P a' c = [].
Proof. by induction 1. Qed.

(** C27: freeing by criteria ends, whatever the free functions free in turn;
    when it answers OK the context has no item left that meets the
    criteria, and no context gained an item. *)
Theorem resman_criteria_complete (links : FreshLinks) (fns : FreeFns) (sp : FreeSpec) (law : FreeLaw)
    (s : rm_st) (a : rm_abs) (c sc ty p u : Z) :
  rep false s a → is_Some (rm_perproc s !! c) →
  wp (ResManFreeResByCriteria c sc ty p u) (λ e s', ∃ a', rep false s' a' ∧
    (e = PVRSRV_OK → ∀ l i it, ab_owned a' !! c = Some l → i ∈ l → rm_item_data s' !! i = Some it →
       meets sc ty p u it = false) ∧
    ∀ d l, ab_owned a !! d = Some l → ∃ l', ab_owned a' !! d = Some l' ∧ l' `sublist_of` l) s.
Proof.
  intros Hr Hc. rewrite (rep_perproc _ _ _ Hr) in Hc. unfold ResManFreeResByCriteria.
  wp_step. eapply wp_acquire; [exact Hr|done|]. intros s1 Hr1. wp_step. eapply wp_mono.
  { apply (wp_FreeResourceByCriteria c sc ty p u true s1 a Hr1). by apply (wf_owned _ (rep_wf _ _ _ Hr)). }
  intros e s2 (a2&Hf&Hr2&Hs2). wp_step. eapply wp_release_sync; [exact Hr2|]. intros s3 Hr3. apply wp_ret.
  exists a2. split_and!; [done| |apply (sh_owned _ _ Hs2)].
  intros He l i it Hl Hi Hit. apply (frees_ok_none _ _ _ _ _ _ Hf) in He. rewrite (rep_data _ _ _ Hr3) in Hit.
  destruct (meets sc ty p u it) eqn:Hm; [|done].
  assert (i ∈ matching (meets sc ty p u) a2 c) as H; [|by rewrite He in H; apply elem_of_nil in H].
  unfold matching. rewrite Hl. apply list_elem_of_filter. split; [|done]. by rewrite Hit.
Qed.

(** With free functions that call nothing back, freeing by criteria
    frees the items of the context that meet the criteria, newest first,
    up to and with the first whose function fails; its error is the answer,
    and the other items, and the other contexts, stay as they are. *)
Theorem resman_criteria_exact (links : FreshLinks) (ret : free_call → PVRSRV_ERROR) (s : rm_st) (a : rm_abs) (c sc ty p u : Z) :
  rep false s a → is_Some (rm_perproc s !! c) →
  wp (@ResManFreeResByCriteria (quiet_fns ret) c sc ty p u) (λ e s',
    let r := until_fail ret (rm_item_data s) (matching (meets sc ty p u) a c) in
    e = snd r ∧ rep false s' (drop_all (fst r) a)) s.
Proof.
  intros Hr Hc. rewrite (rep_perproc _ _ _ Hr) in Hc. eapply wp_mono.
  { apply (wp_ResManFreeResByCriteria (sp := quiet_spec ret) (law := quiet_law ret) s a c sc ty p u Hr Hc). }
  intros e s' (a'&Hst&Hr'). inversion Hst as [| | | | | | | |? ? ? ? ? ? ? ? Hf| | | | |]; subst.
  apply frees_quiet in Hf.
  - rewrite (rep_data _ _ _ Hr). destruct Hf as [-> ->]. done.
  - destruct (ab_owned a !! c) as [l|] eqn:Hl; [|constructor]. by apply (lo_seg _ _ (rep_items _ _ _ Hr) c).
Qed.

(** ** Errors of use *)

(** Dissociating an item from every context ([psNewResManContext] NULL,
    as mem.c does) unlocks the mutex that it never locked. *)
Theorem resman_dissociate_unheld (links : FreshLinks) (fns : FreeFns) (s : rm_st) (a : rm_abs) (i : Z) :
  rep false s a → linked a i → ResManDissociateRes i IMG_NULL s = Fault.
Proof.
  intros Hr Hi. unfold ResManDissociateRes, FreeResourceByPtr. rewrite (item_pos false s a) by done. simpl.
  pose proof (wp_unlink false s a i (λ _ s', rep false s' (unlink i a)) Hr Hi (λ s' H, H)) as Hw.
  apply wp_Done in Hw as ([]&s'&Hs'&Hr'). unfold mbind, M_bind. rewrite Hs'.
  unfold RELEASE_SYNC_OBJ, get, mbind, M_bind. by rewrite (rep_lock _ _ _ Hr').
Qed.

(** Two allocations of a process, whose free function fails. *)
Definition leak_program (links : FreshLinks) : M rm_st (Z * Z) :=
  let fns := quiet_fns (λ _, PVRSRV_ERROR_OTHER 1) in
  _ ← ResManInit;
  r ← PVRSRVResManConnect 7;
  let c := default 0 (snd r) in
  i ← ResManRegisterRes c RESMAN_TYPE_DEVICEMEM_ALLOCATION 100 0 9;
  j ← ResManRegisterRes c RESMAN_TYPE_DEVICEMEM_ALLOCATION 200 0 9;
  @PVRSRVResManDisconnect fns c false;;
  mret (i, j).

(** What is left: the calls, the items and the blocks; and whether the item
    can still be freed. *)
Definition leak_outcome (links : FreshLinks) : option (list Z * bool * Z * bool) :=
  match leak_program links (rm_boot os_plenty) with
  | Done (i, j) s =>
      Some (fc_pvParam <$> rm_calls s, bool_decide (is_Some (rm_item_data s !! i)), os_live (rm_os s),
            match @ResManFreeResByPtr (quiet_fns (λ _, PVRSRV_OK)) i true s with Done _ _ => true | _ => false end)
  | _ => None
  end.

(** Closing a context ignores the errors of the free functions: when the
    function of an allocation fails, those of the older ones are never
    called, their items stay allocated for good in a list whose head is
    freed with the context, and freeing such an item later writes to the
    freed context. *)
Theorem resman_disconnect_leaks (links : FreshLinks) : leak_outcome links = Some ([200], true, 2, false).
Proof. destruct links as [v p]. vm_compute. reflexivity. Qed.

(** ** Witnesses *)

#[local] Instance demo_links : FreshLinks := mkNode 0 (HeadOf 0).

(** A process with an event object, an allocation and two synchronisation
    operations: the items 2 to 5 of context 1. *)
Definition demo_ops : list rm_op :=
  [RConnect 7; RRegister 1 RESMAN_TYPE_EVENT_OBJECT 11 0 9; RRegister 1 RESMAN_TYPE_DEVICEMEM_ALLOCATION 12 0 9;
   RRegister 1 RESMAN_TYPE_MODIFY_SYNC_OPS 13 0 9; RRegister 1 RESMAN_TYPE_MODIFY_SYNC_OPS 14 0 9].

Definition demo_start : rm_abs := ab_empty (snd (take_block os_plenty)) 1.

Definition demo_item (ty p : Z) : RESMAN_ITEM := mkItem 0 ty p 0 9.

Definition more (a : rm_abs) : rm_abs := ab_set_os (snd (take_block (ab_os a))) a.

Definition demo_abs : rm_abs :=
  register 1 (demo_item RESMAN_TYPE_MODIFY_SYNC_OPS 14) (more
    (register 1 (demo_item RESMAN_TYPE_MODIFY_SYNC_OPS 13) (more
      (register 1 (demo_item RESMAN_TYPE_DEVICEMEM_ALLOCATION 12) (more
        (register 1 (demo_item RESMAN_TYPE_EVENT_OBJECT 11) (more
          (connect 7 (more demo_start))))))))).

Definition demo_fns : FreeFns := quiet_fns (λ _, PVRSRV_OK).

(** The state a program ends in. *)
Definition final {S A} (m : M S A) (s : S) : S := match m s with Done _ s' => s' | _ => s end.

Lemma wp_final {S A} (m : M S A) (P : S → Prop) s : wp m (λ _ s', P s') s → P (final m s).
Proof. unfold wp, final. by destruct (m s). Qed.

Definition demo_st : rm_st := final (@run_resman _ demo_fns demo_ops) (rm_boot os_plenty).

Lemma take_plenty o b o' : plenty o → take_block o = (b, o') → b = true ∧ o' = snd (take_block o).
Proof. unfold take_block, OSAllocMem, plenty. intros ->. by intros [= <- <-]. Qed.

Lemma connect_step `{sp : FreeSpec} pp a r a' :
  plenty (ab_os a) → rm_step (RConnect pp) a r a' → a' = connect pp (more a).
Proof. intros Hp H. inversion H as [? ? ? Ht|? ? ? Ht| | | | | | | | | | | |]; subst; by destruct (take_plenty _ _ _ Hp Ht) as [? ->]. Qed.

Lemma register_step `{sp : FreeSpec} c ty p u fn a r a' :
  plenty (ab_os a) → c ≠ 0 → rm_step (RRegister c ty p u fn) a r a' → a' = register c (mkItem 0 ty p u fn) (more a).
Proof.
  intros Hp Hc H. inversion H as [| | | |? ? ? ? ? ? ? ? Ht|? ? ? ? ? ? ? ? Ht| | | | | | | |]; subst; [done|..];
    by destruct (take_plenty _ _ _ Hp Ht) as [? ->].
Qed.

(** The steps of [demo_ops], one at a time. *)
Ltac demo_step :=
  match goal with
  | H : rm_step (RConnect _) _ _ _ |- _ => apply connect_step in H; [subst|reflexivity]
  | H : rm_step (RRegister _ _ _ _ _) _ _ _ |- _ => apply register_step in H; [subst|reflexivity|done]
  end.

Lemma demo_good `{sp : FreeSpec} ops :
  good ops demo_abs → good (demo_ops ++ ops) demo_start.
Proof.
  intros Hg. unfold demo_ops. cbn [app good].
  repeat (split; [first [exact I|right; eexists; vm_compute; reflexivity]|intros ? ? ?; demo_step]). exact Hg.
Qed.

Lemma demo_steps `{sp : FreeSpec} rs a : rm_steps demo_ops demo_start rs a → a = demo_abs.
Proof.
  intros H. unfold demo_ops in H.
  repeat (inversion H as [|? ? ? ? ? ? ? ? H']; clear H; rename H' into H; subst; demo_step).
  by inversion H.
Qed.

Lemma demo_rep : rep false demo_st demo_abs.
Proof.
  apply (wp_final _ (λ s, rep false s demo_abs)). unfold run_resman.
  wp_step. eapply wp_mono; [exact (wp_ResManInit os_plenty)|].
  intros e s [(->&_&Hr)|(?&Hb&_)]; [|done]. cbn [is_OK]. wp_step. eapply wp_mono.
  - eapply (run_rms_refines (sp := quiet_spec _) (law := quiet_law _)); [exact Hr|]. rewrite <- (app_nil_r demo_ops).
    by apply demo_good.
  - intros rs s' (a'&Hs&Hr'). apply wp_ret. by apply demo_steps in Hs as ->.
Qed.

Lemma resman_disconnect_order_witness :
  wp (@PVRSRVResManDisconnect (quiet_fns (λ _, PVRSRV_OK)) 1 false) (λ _ s', fc_pvParam <$> rm_calls s' = [11; 13; 14; 12]) demo_st.
Proof.
  eapply wp_mono.
  - apply (resman_disconnect_order _ (λ _, PVRSRV_OK) demo_st demo_abs 1 [5; 4; 3; 2]); [exact demo_rep|reflexivity|done].
  - intros _ s (_&->&_). vm_compute. reflexivity.
Defined.

Lemma resman_criteria_exact_witness :
  wp (@ResManFreeResByCriteria (quiet_fns (λ c, if fc_pvParam c =? 13 then PVRSRV_ERROR_OTHER 1 else PVRSRV_OK))
        1 RESMAN_CRITERIA_UI32_PARAM 0 0 0)
    (λ e s', e = PVRSRV_ERROR_OTHER 1 ∧ rep false s' (drop_all [5; 4] demo_abs)) demo_st.
Proof.
  eapply wp_mono.
  - apply (resman_criteria_exact _ _ demo_st demo_abs); [exact demo_rep|vm_compute; eauto].
  - intros e s H. exact H.
Defined.

Lemma resman_dissociate_unheld_witness : @ResManDissociateRes demo_fns 3 IMG_NULL demo_st = Fault.
Proof.
  apply (resman_dissociate_unheld _ _ demo_st demo_abs); [exact demo_rep|].
  exists 1, [5; 4; 3; 2]. split; [reflexivity|]. right. right. left.
Defined.

(** A free function that frees more: function 1 frees the items of the type
    [ui32Param] in the context [pvParam]. *)
Definition nested_fns : FreeFns := λ f p u b,
  if f =? 1 then
    s ← get;
    if decide (is_Some (rm_perproc s !! p)) then
      @ResManFreeResByCriteria demo_fns p RESMAN_CRITERIA_RESTYPE u 0 0
    else mret PVRSRV_OK
  else mret PVRSRV_OK.

Definition nested_spec : FreeSpec := λ f p u b a,
  if f =? 1 then
    if decide (is_Some (ab_perproc a !! p)) then
      let r := until_fail (λ _, PVRSRV_OK) (ab_data a) (matching (meets RESMAN_CRITERIA_RESTYPE u 0 0) a p) in
      (snd r, drop_all (fst r) a)
    else (PVRSRV_OK, a)
  else (PVRSRV_OK, a).

Lemma nested_law : @FreeLaw nested_fns nested_spec.
Proof.
  intros f p u b s a Hr. unfold call_free, nested_fns, acb, nested_spec.
  destruct (f =? 1); [|apply wp_ret; exists a; split_and!; [done|done|apply shrinks_refl]].
  wp_step. wp_step. rewrite (rep_perproc _ _ _ Hr).
  destruct (decide _) as [Hc|]; [|apply wp_ret; exists a; split_and!; [done|done|apply shrinks_refl]].
  assert (is_Some (ab_owned a !! p)) as Ho by (by apply (wf_owned _ (rep_wf _ _ _ Hr))).
  pose proof (quiet_law (λ _, PVRSRV_OK)) as law. unfold ResManFreeResByCriteria.
  wp_step. eapply wp_acquire; [exact Hr|done|]. intros s1 Hr1. wp_step.
  eapply wp_mono; [exact (wp_FreeResourceByCriteria (law := law) p RESMAN_CRITERIA_RESTYPE u 0 0 true s1 a Hr1 Ho)|].
  intros e s2 (a2&Hf&Hr2&Hs2). apply frees_quiet in Hf as [-> ->].
  - wp_step. eapply wp_release_sync; [exact Hr2|]. intros s3 Hr3. apply wp_ret. by eexists.
  - destruct Ho as [l Hl]. rewrite Hl. by apply (lo_seg _ _ (rep_items _ _ _ Hr) p).
Qed.

(** Item 6 is freed with function 1, which frees the event object 2. *)
Lemma resman_refines_witness :
  good (sp := nested_spec) (demo_ops ++ [RRegister 1 RESMAN_TYPE_SYNC_INFO 1 RESMAN_TYPE_EVENT_OBJECT 1; RFree 6 true])
    (ab_empty (snd (take_block os_plenty)) 1) ∧
  wp (@run_resman _ nested_fns (demo_ops ++ [RRegister 1 RESMAN_TYPE_SYNC_INFO 1 RESMAN_TYPE_EVENT_OBJECT 1; RFree 6 true]))
    (λ r s, ∃ a, rep false s a) (rm_boot os_plenty).
Proof.
  assert (good (sp := nested_spec) (demo_ops ++ [RRegister 1 RESMAN_TYPE_SYNC_INFO 1 RESMAN_TYPE_EVENT_OBJECT 1; RFree 6 true])
    (ab_empty (snd (take_block os_plenty)) 1)) as Hg.
  { apply demo_good. cbn [good]. split; [right; eexists; vm_compute; reflexivity|]. intros ? ? ?. demo_step.
    split; [|done]. right. exists 1, [6; 5; 4; 3; 2]. split; [reflexivity|]. left. }
  split; [exact Hg|]. eapply wp_mono; [exact (resman_refines _ nested_fns nested_spec nested_law os_plenty _ Hg)|].
  intros [rs|] s; [intros (a&_&Hr); by exists a|intros [H _]; discriminate H].
Defined.

Lemma resman_criteria_complete_witness :
  wp (@ResManFreeResByCriteria nested_fns 1 RESMAN_CRITERIA_RESTYPE RESMAN_TYPE_MODIFY_SYNC_OPS 0 0)
    (λ e s', ∃ a, rep false s' a) demo_st.
Proof.
  eapply wp_mono.
  - apply (resman_criteria_complete _ nested_fns nested_spec nested_law demo_st demo_abs); [exact demo_rep|vm_compute; eauto].
  - intros e s (a&Hr&_). by exists a.
Defined.
