(* ===== verification/PerProc.v ===== *)
(** * perproc.c: the processes connected to the driver

    A table from process ids to the data of each process: a count of its
    connections, its handle base, its resource manager context, its handle in
    the kernel's base and the data osperproc.c keeps for it.  The operations
    run on the hash table of Hash.v, the handle bases of Handle.v and the
    resource manager of ResMan.v, which share the kernel's memory.

    The structures, the private data and the handle bases have addresses,
    numbers never used again.  Of a process's private data only the block is
    modelled: the mmap offset structures that [LinuxMMapPerProcessDisconnect]
    drops and the /proc directory are no state of this development. *)

From S2P Require Import Prelude Hash Handle Lists ResMan.

(** ** Data *)

(** [PVRSRV_PER_PROCESS_DATA]: the members perproc.c uses. *)
Record PVRSRV_PER_PROCESS_DATA := mkPerProc {
  ui32PID : Z;
  hResManContext : Z;
  hPerProcData : Z;
  psHandleBase : Z;
  ui32RefCount : Z;
  hOsPrivateData : Z }.

Record pp_st := mkPP {
  pp_os : os;
  pp_next : Z;                                    (** the next address *)
  pp_tab : option HASH_TABLE;                     (** perproc.c's [psHashTab] *)
  pp_data : gmap Z PVRSRV_PER_PROCESS_DATA;
  pp_private : gset Z;                            (** the private data blocks *)
  pp_kernel : option PVRSRV_HANDLE_BASE;          (** [gpsKernelHandleBase] *)
  pp_bases : gmap Z PVRSRV_HANDLE_BASE;
  pp_rm : rm_st }.

Definition HASH_TAB_INIT_SIZE : Z := 32.
(** mmap.c, [0x7fffffffUL]. *)
Definition MAX_MMAP_HANDLE : Z := 2147483647.

(** ** Access *)

Definition set_pp_os o (s : pp_st) := mkPP o (pp_next s) (pp_tab s) (pp_data s) (pp_private s)
  (pp_kernel s) (pp_bases s) (pp_rm s).
Definition set_pp_tab t (s : pp_st) := mkPP (pp_os s) (pp_next s) t (pp_data s) (pp_private s)
  (pp_kernel s) (pp_bases s) (pp_rm s).
Definition set_pp_data d (s : pp_st) := mkPP (pp_os s) (pp_next s) (pp_tab s) d (pp_private s)
  (pp_kernel s) (pp_bases s) (pp_rm s).
Definition set_pp_private p (s : pp_st) := mkPP (pp_os s) (pp_next s) (pp_tab s) (pp_data s) p
  (pp_kernel s) (pp_bases s) (pp_rm s).
Definition set_pp_kernel k (s : pp_st) := mkPP (pp_os s) (pp_next s) (pp_tab s) (pp_data s) (pp_private s)
  k (pp_bases s) (pp_rm s).
Definition set_pp_bases b (s : pp_st) := mkPP (pp_os s) (pp_next s) (pp_tab s) (pp_data s) (pp_private s)
  (pp_kernel s) b (pp_rm s).
Definition set_pp_rm r (s : pp_st) := mkPP (pp_os s) (pp_next s) (pp_tab s) (pp_data s) (pp_private s)
  (pp_kernel s) (pp_bases s) r.

Definition on_memory {A} (m : M os A) : M pp_st A := zoom pp_os set_pp_os m.

Definition on_table {A} (m : M hash_st A) : M pp_st A :=
  zoom (λ s, mk_hash_st (pp_os s) (pp_tab s)) (λ t s, set_pp_os (hs_os t) (set_pp_tab (hs_tab t) s)) m.

(** [KERNEL_HANDLE_BASE] *)
Definition on_kernel {A} (m : M hb_st A) : M pp_st A :=
  zoom (λ s, mk_kernel (pp_os s) (pp_kernel s))
    (λ k s, set_pp_os (k_os k) (set_pp_kernel (gpsKernelHandleBase k) s)) (kernel_base m).

(** The handle base at an address. *)
Definition on_base {A} (psBase : Z) (m : M hb_st A) : M pp_st A :=
  o ← gets (λ s, pp_bases s !! psBase);
  b ← deref o;
  zoom (λ s, mk_hb (pp_os s) b)
    (λ t s, set_pp_os (hb_os t) (set_pp_bases (<[psBase := hb_base t]> (pp_bases s)) s)) m.

(** The resource manager, on the memory all share. *)
Definition on_resman {A} (m : M rm_st A) : M pp_st A :=
  zoom (λ s, set_rm_os (pp_os s) (pp_rm s)) (λ r s, set_pp_os (rm_os r) (set_pp_rm r s)) m.

Definition get_perproc (psPerProc : Z) : M pp_st PVRSRV_PER_PROCESS_DATA :=
  o ← gets (λ s, pp_data s !! psPerProc); deref o.

(** A write through the pointer. *)
Definition upd_perproc (psPerProc : Z) (f : PVRSRV_PER_PROCESS_DATA → PVRSRV_PER_PROCESS_DATA) : M pp_st unit :=
  p ← get_perproc psPerProc; modify (λ s, set_pp_data (<[psPerProc := f p]> (pp_data s)) s).

Definition set_ui32PID v (p : PVRSRV_PER_PROCESS_DATA) := mkPerProc v (hResManContext p) (hPerProcData p)
  (psHandleBase p) (ui32RefCount p) (hOsPrivateData p).
Definition set_hResManContext v (p : PVRSRV_PER_PROCESS_DATA) := mkPerProc (ui32PID p) v (hPerProcData p)
  (psHandleBase p) (ui32RefCount p) (hOsPrivateData p).
Definition set_hPerProcData v (p : PVRSRV_PER_PROCESS_DATA) := mkPerProc (ui32PID p) (hResManContext p) v
  (psHandleBase p) (ui32RefCount p) (hOsPrivateData p).
Definition set_psHandleBase v (p : PVRSRV_PER_PROCESS_DATA) := mkPerProc (ui32PID p) (hResManContext p)
  (hPerProcData p) v (ui32RefCount p) (hOsPrivateData p).
Definition set_ui32RefCount v (p : PVRSRV_PER_PROCESS_DATA) := mkPerProc (ui32PID p) (hResManContext p)
  (hPerProcData p) (psHandleBase p) v (hOsPrivateData p).
Definition set_hOsPrivateData v (p : PVRSRV_PER_PROCESS_DATA) := mkPerProc (ui32PID p) (hResManContext p)
  (hPerProcData p) (psHandleBase p) (ui32RefCount p) v.

(** The next address. *)
Definition new_address : M pp_st Z :=
  s ← get;
  put (mkPP (pp_os s) (pp_next s + 1) (pp_tab s) (pp_data s) (pp_private s) (pp_kernel s) (pp_bases s) (pp_rm s));;
  mret (pp_next s).

(** ** osperproc.c *)

(** The answer carries [*phOsPrivateData]; [LinuxMMapPerProcessConnect] does
    nothing. *)
Definition OSPerProcessPrivateDataInit : M pp_st (PVRSRV_ERROR * Z) :=
  ok ← on_memory OSAllocMem;
  if negb ok then mret (PVRSRV_ERROR_OUT_OF_MEMORY, IMG_NULL)
  else
    a ← new_address;
    modify (λ s, set_pp_private ({[a]} ∪ pp_private s) s);;
    mret (PVRSRV_OK, a).

Definition OSPerProcessPrivateDataDeInit (hOsPrivateData : Z) : M pp_st PVRSRV_ERROR :=
  if hOsPrivateData =? IMG_NULL then mret PVRSRV_OK
  else
    s ← get;
    if bool_decide (hOsPrivateData ∈ pp_private s) then
      on_memory OSFreeMem;;
      modify (λ s, set_pp_private (pp_private s ∖ {[hOsPrivateData]}) s);;
      mret PVRSRV_OK
    else fault.

Section perproc.
Context {heap : HeapContents} {links : FreshLinks} {fns : FreeFns}.

Definition LinuxMMapPerProcessHandleOptions (psHandleBase : Z) : M pp_st PVRSRV_ERROR :=
  on_base psHandleBase (PVRSRVSetMaxHandle MAX_MMAP_HANDLE).

Definition OSPerProcessSetHandleOptions (psHandleBase : Z) : M pp_st PVRSRV_ERROR :=
  LinuxMMapPerProcessHandleOptions psHandleBase.

(** ** Handle bases in memory *)

(** [PVRSRVAllocHandleBase(&psPerProc->psHandleBase)] *)
Definition AllocBase (psPerProc : Z) : M pp_st PVRSRV_ERROR :=
  '(eError, r) ← on_memory PVRSRVAllocHandleBase;
  match r with
  | Some b =>
      a ← new_address;
      modify (λ s, set_pp_bases (<[a := b]> (pp_bases s)) s);;
      upd_perproc psPerProc (set_psHandleBase a);;
      mret eError
  | None => mret eError
  end.

(** [PVRSRVFreeHandleBase], after which the base is gone. *)
Definition FreeBase (psBase : Z) : M pp_st PVRSRV_ERROR :=
  eError ← on_base psBase PVRSRVFreeHandleBase;
  (if is_OK eError then modify (λ s, set_pp_bases (delete psBase (pp_bases s)) s) else mret tt);;
  mret eError.

(** ** The processes *)

Definition FreePerProcessData (psPerProc : Z) : M pp_st PVRSRV_ERROR :=
  if psPerProc =? IMG_NULL then mret PVRSRV_ERROR_INVALID_PARAMS
  else
    p ← get_perproc psPerProc;
    _ ← on_table (HASH_Remove (ui32PID p));
    eError ← (if negb (psHandleBase p =? IMG_NULL) then FreeBase (psHandleBase p) else mret PVRSRV_OK);
    if negb (is_OK eError) then mret eError
    else
      eError ← (if negb (hPerProcData p =? IMG_NULL)
                then on_kernel (PVRSRVReleaseHandle (hPerProcData p) PVRSRV_HANDLE_TYPE_PERPROC_DATA)
                else mret PVRSRV_OK);
      if negb (is_OK eError) then mret eError
      else
        eError ← OSPerProcessPrivateDataDeInit (hOsPrivateData p);
        if negb (is_OK eError) then mret eError
        else
          on_memory OSFreeMem;;
          modify (λ s, set_pp_data (delete psPerProc (pp_data s)) s);;
          mret PVRSRV_OK.

Definition PVRSRVPerProcessData (ui32PID : Z) : M pp_st Z :=
  tab ← gets pp_tab; HASH_Retrieve tab ui32PID.

(** [goto failure] *)
Definition connect_failure (psPerProc : Z) (eError : PVRSRV_ERROR) : M pp_st (PVRSRV_ERROR * Z) :=
  _ ← FreePerProcessData psPerProc; mret (eError, psPerProc).

(** The data of a new process, its address with the answer; each part goes
    on with the next. *)
Definition connect_resman (psPerProc : Z) : M pp_st (PVRSRV_ERROR * Z) :=
  '(eError, c) ← on_resman (PVRSRVResManConnect psPerProc);
  match c with
  | Some c => upd_perproc psPerProc (set_hResManContext c)
  | None => mret tt
  end;;
  if negb (is_OK eError) then connect_failure psPerProc eError
  else mret (PVRSRV_OK, psPerProc).

Definition connect_base (psPerProc : Z) : M pp_st (PVRSRV_ERROR * Z) :=
  eError ← AllocBase psPerProc;
  if negb (is_OK eError) then connect_failure psPerProc eError
  else
    p ← get_perproc psPerProc;
    eError ← OSPerProcessSetHandleOptions (psHandleBase p);
    if negb (is_OK eError) then connect_failure psPerProc eError
    else connect_resman psPerProc.

Definition connect_handle (psPerProc : Z) : M pp_st (PVRSRV_ERROR * Z) :=
  '(eError, h) ← on_kernel (PVRSRVAllocHandle psPerProc PVRSRV_HANDLE_TYPE_PERPROC_DATA
                              PVRSRV_HANDLE_ALLOC_FLAG_NONE);
  upd_perproc psPerProc (set_hPerProcData h);;
  if negb (is_OK eError) then connect_failure psPerProc eError
  else connect_base psPerProc.

Definition connect_private (psPerProc : Z) : M pp_st (PVRSRV_ERROR * Z) :=
  '(eError, h) ← OSPerProcessPrivateDataInit;
  upd_perproc psPerProc (set_hOsPrivateData h);;
  if negb (is_OK eError) then connect_failure psPerProc eError
  else connect_handle psPerProc.

Definition new_process (ui32PID : Z) : M pp_st (PVRSRV_ERROR * Z) :=
  ok ← on_memory OSAllocMem;
  if negb ok then mret (PVRSRV_ERROR_OUT_OF_MEMORY, IMG_NULL)
  else
    psPerProc ← new_address;
    modify (λ s, set_pp_data (<[psPerProc := mkPerProc 0 0 0 0 0 0]> (pp_data s)) s);;
    inserted ← on_table (HASH_Insert ui32PID psPerProc);
    if negb inserted then connect_failure psPerProc PVRSRV_ERROR_INSERT_HASH_TABLE_DATA_FAILED
    else
      upd_perproc psPerProc (set_ui32PID ui32PID);;
      upd_perproc psPerProc (set_ui32RefCount 0);;
      connect_private psPerProc.

Definition PVRSRVPerProcessDataConnect (ui32PID : Z) : M pp_st PVRSRV_ERROR :=
  tab ← gets pp_tab;
  match tab with
  | None => mret PVRSRV_ERROR_INIT_FAILURE
  | Some _ =>
      psPerProc ← HASH_Retrieve tab ui32PID;
      '(eError, psPerProc) ← (if psPerProc =? IMG_NULL then new_process ui32PID
                               else mret (PVRSRV_OK, psPerProc));
      if negb (is_OK eError) then mret eError
      else
        upd_perproc psPerProc (λ p, set_ui32RefCount (u32 (ui32RefCount p + 1)) p);;
        mret eError
  end.

Definition PVRSRVPerProcessDataDisconnect (ui32PID : Z) : M pp_st unit :=
  tab ← gets pp_tab;
  psPerProc ← HASH_Retrieve tab ui32PID;
  (if psPerProc =? IMG_NULL then mret tt
   else
     upd_perproc psPerProc (λ p, set_ui32RefCount (u32 (ui32RefCount p - 1)) p);;
     p ← get_perproc psPerProc;
     if ui32RefCount p =? 0 then
       on_resman (PVRSRVResManDisconnect (hResManContext p) false);;
       _ ← FreePerProcessData psPerProc;
       mret tt
     else mret tt);;
  _ ← on_kernel PVRSRVPurgeHandles;
  mret tt.

Definition PVRSRVPerProcessDataInit : M pp_st PVRSRV_ERROR :=
  tab ← on_memory (HASH_Create HASH_TAB_INIT_SIZE);
  modify (set_pp_tab tab);;
  mret (match tab with None => PVRSRV_ERROR_UNABLE_TO_CREATE_HASH_TABLE | Some _ => PVRSRV_OK end).

Definition PVRSRVPerProcessDataDeInit : M pp_st PVRSRV_ERROR :=
  tab ← gets pp_tab;
  match tab with
  | Some _ => on_memory (HASH_Delete tab);; modify (set_pp_tab None)
  | None => mret tt
  end;;
  mret PVRSRV_OK.

(** ** pvr_bridge_k.c: whose call it is

    The beginning of [PVRSRV_BridgeDispatchKM], up to the command: the
    structure of the caller, or [None] for [-EFAULT].  The package, of which
    [bConnect] ([PVRSRV_BRIDGE_CONNECT_SERVICES]) and the handle are used,
    is read, and the mutex of the driver held. *)
Definition BridgeCaller (ui32PID : Z) (bConnect : bool) (hKernelServices : Z) : M pp_st (option Z) :=
  if negb bConnect then
    '(eError, o) ← on_kernel (PVRSRVLookupHandle hKernelServices PVRSRV_HANDLE_TYPE_PERPROC_DATA);
    if negb (is_OK eError) then mret None
    else
      psPerProc ← deref o;
      p ← get_perproc psPerProc;
      if negb (PerProc.ui32PID p =? ui32PID) then mret None else mret (Some psPerProc)
  else
    psPerProc ← PVRSRVPerProcessData ui32PID;
    if psPerProc =? IMG_NULL then mret None else mret (Some psPerProc).

(** bridged_pvr_bridge.c: what the command answers. *)
Definition PVRSRVConnectBW (psPerProc : Z) : M pp_st Z :=
  p ← get_perproc psPerProc; mret (hPerProcData p).

(** ** pvrsrv.c: where the driver starts and stops these parts *)

Definition on_handles {A} (m : M kernel_st A) : M pp_st A :=
  zoom (λ s, mk_kernel (pp_os s) (pp_kernel s))
    (λ k s, set_pp_os (k_os k) (set_pp_kernel (gpsKernelHandleBase k) s)) m.

(** In [PVRSRVDeInit]. *)
Definition deinit_processes : M pp_st unit :=
  _ ← on_handles PVRSRVHandleDeInit;
  _ ← PVRSRVPerProcessDataDeInit;
  on_resman ResManDeInit.

(** In [PVRSRVInit]; the exit is at the label [Error]. *)
Definition init_processes : M pp_st PVRSRV_ERROR :=
  let failed eError := deinit_processes;; mret eError in
  eError ← on_resman ResManInit;
  if negb (is_OK eError) then failed eError
  else
    eError ← PVRSRVPerProcessDataInit;
    if negb (is_OK eError) then failed eError
    else
      eError ← on_handles PVRSRVHandleInit;
      if negb (is_OK eError) then failed eError else mret PVRSRV_OK.
End perproc.
