(* ===== verification/PerProcRep.v ===== *)
(** * The connected processes: what the driver keeps for them

    [owns] says which blocks, handle bases, handles and contexts there are and
    to which structure of a process each belongs; the structures themselves
    are not mentioned, since while a process is connected or freed its
    structure and what it owns are out of step.  Then what making and freeing each
    of these does to what is owned. *)

From S2P Require Import Prelude Hash Handle HandleRep HandleInv HandleOps HandleFree HandleAlloc HandleTake.
From S2P Require Import HandleApi HandleLook HandleLife HandleSys HandlePurge HandleKernel Lists ResMan.
From S2P Require Import ResManRep ResManOps ResManApi PerProc.

(** ** Components on shared memory *)

Lemma implements_shift L o o' b s :
  implements L (mk_hb o b) s → implements (L + os_live o' - os_live o) (mk_hb o' b) s.
Proof.
  intros (kids&rk&fl&bl&km&[Hi ? ? ? ? ? ? ? ?]). exists kids, rk, fl, bl, km. split; try done.
  destruct Hi. split; try done. simpl in *. lia.
Qed.

(** [b] implements [s] and has [n] blocks of memory. *)
Definition base_rep (b : PVRSRV_HANDLE_BASE) (s : hspec) (n : Z) : Prop :=
  ∀ o, implements (os_live o - n + 3) (mk_hb o b) s.

Lemma base_rep_intro L o b s : implements L (mk_hb o b) s → base_rep b s (os_live o - L + 3).
Proof.
  intros Hi o'. replace (os_live o' - (os_live o - L + 3) + 3) with (L + os_live o' - os_live o) by lia.
  by apply implements_shift.
Qed.

Lemma kernel_shift L o o' kb s :
  kernel_ok L (mk_kernel o kb) s → kernel_ok (L + os_live o' - os_live o) (mk_kernel o' kb) s.
Proof.
  intros (b&Hb&Hu&Hm&km&[Hc Hf]). exists b. split; [done|]. split; [done|]. split; [done|]. exists km.
  split; [|done]. destruct Hc. split; simpl in *; try done. lia.
Qed.

(** ** Ownership *)

Record pp_own := mkOwn {
  o_tab : gmap Z Z;                    (** the structure of a process id *)
  o_priv : gmap Z Z;                   (** whose private data a block is *)
  o_base : gmap Z (Z * hspec * Z);     (** whose a base is, what it holds, its blocks *)
  o_kernel : hspec;                    (** the kernel's base *)
  o_rm : rm_abs;                       (** the resource manager, but for its memory *)
  o_live : Z }.                        (** the blocks but for what the kernel's base has besides its first three *)

Definition set_o_tab t (g : pp_own) := mkOwn t (o_priv g) (o_base g) (o_kernel g) (o_rm g) (o_live g).
Definition set_o_priv p (g : pp_own) := mkOwn (o_tab g) p (o_base g) (o_kernel g) (o_rm g) (o_live g).
Definition set_o_base b (g : pp_own) := mkOwn (o_tab g) (o_priv g) b (o_kernel g) (o_rm g) (o_live g).
Definition set_o_kernel k (g : pp_own) := mkOwn (o_tab g) (o_priv g) (o_base g) k (o_rm g) (o_live g).
Definition set_o_rm r (g : pp_own) := mkOwn (o_tab g) (o_priv g) (o_base g) (o_kernel g) r (o_live g).
Definition add_live d (g : pp_own) := mkOwn (o_tab g) (o_priv g) (o_base g) (o_kernel g) (o_rm g) (o_live g + d).

#[export] Instance pid_key_inj : Inj (=) (=) (λ pid : Z, [pid]).
Proof. by intros ?? [= ?]. Qed.

Definition by_pid : gmap Z Z → gmap (list Z) Z := kmap (λ pid, [pid]).

Lemma by_pid_lookup ids pid : by_pid ids !! [pid] = ids !! pid.
Proof. apply (lookup_kmap (λ pid, [pid])). Qed.
Lemma by_pid_insert ids pid x : by_pid (<[pid := x]> ids) = <[[pid] := x]> (by_pid ids).
Proof. apply (kmap_insert (λ pid, [pid])). Qed.
Lemma by_pid_delete ids pid : by_pid (delete pid ids) = delete [pid] (by_pid ids).
Proof. apply (kmap_delete (λ pid, [pid])). Qed.
Lemma by_pid_size ids : size (by_pid ids) = size ids.
Proof.
  induction ids as [|pid x ids Hp IH] using map_ind; [done|].
  rewrite by_pid_insert, !map_size_insert_None by (done || by rewrite by_pid_lookup). by rewrite IH.
Qed.

(** The hash table of a map from ids to structures. *)
Definition table_ok (t : option HASH_TABLE) (ids : gmap Z Z) : Prop :=
  ∃ tab, t = Some tab ∧ word_rep tab (by_pid ids).

Definition bases_ok (B : gmap Z PVRSRV_HANDLE_BASE) (G : gmap Z (Z * hspec * Z)) : Prop :=
  ∀ a, match B !! a, G !! a with
       | Some b, Some (_, sp, n) => base_rep b sp n
       | None, None => True
       | _, _ => False
       end.

Record owns (s : pp_st) (g : pp_own) : Prop := {
  w_next : 0 < pp_next s;
  w_tab : table_ok (pp_tab s) (o_tab g);
  w_priv : pp_private s = dom (o_priv g);
  w_priv_old a : is_Some (o_priv g !! a) → 0 < a < pp_next s;
  w_base : bases_ok (pp_bases s) (o_base g);
  w_base_old a : is_Some (o_base g !! a) → 0 < a < pp_next s;
  w_kernel : kernel_ok (o_live g) (mk_kernel (pp_os s) (pp_kernel s)) (o_kernel g);
  w_rm : rep false (set_rm_os (pp_os s) (pp_rm s)) (ab_set_os (pp_os s) (o_rm g)) }.

Lemma kernel_ok_live L L' k s : kernel_ok L k s → L = L' → kernel_ok L' k s.
Proof. by intros ? <-. Qed.

(** The memory changes. *)
Lemma owns_os s g d o' :
  owns s g → os_live o' = os_live (pp_os s) + d → owns (set_pp_os o' s) (add_live d g).
Proof.
  intros [H1 H2 H3 H4 H5 H6 Hk Hr] Hd. split; try done.
  - eapply kernel_ok_live; [exact (kernel_shift _ _ o' _ _ Hk)|]. simpl. lia.
  - apply (rep_os_step _ _ _ o') in Hr. exact Hr.
Qed.

Lemma owns_data s g d : owns s g → owns (set_pp_data d s) g.
Proof. by intros []. Qed.

Lemma owns_table s g tab ids :
  owns s g → word_rep tab (by_pid ids) → owns (set_pp_tab (Some tab) s) (set_o_tab ids g).
Proof. intros [] Ht. split; try done. by exists tab. Qed.

Lemma bases_insert B G a b x sp n :
  bases_ok B G → base_rep b sp n → bases_ok (<[a := b]> B) (<[a := (x, sp, n)]> G).
Proof.
  intros HB Hb c. destruct (decide (c = a)) as [->|]; [by rewrite !lookup_insert_eq|].
  rewrite !lookup_insert_ne by done. apply HB.
Qed.

Lemma bases_delete B G a : bases_ok B G → bases_ok (delete a B) (delete a G).
Proof.
  intros HB c. destruct (decide (c = a)) as [->|]; [by rewrite !lookup_delete_eq|].
  rewrite !lookup_delete_ne by done. apply HB.
Qed.

Lemma bases_lookup B G a x sp n : bases_ok B G → G !! a = Some (x, sp, n) → ∃ b, B !! a = Some b ∧ base_rep b sp n.
Proof. intros HB Ha. specialize (HB a). rewrite Ha in HB. destruct (B !! a) as [b|]; [by exists b|done]. Qed.

Lemma owns_bases s g o' B G d :
  owns s g → os_live o' = os_live (pp_os s) + d → bases_ok B G →
  (∀ a, is_Some (G !! a) → 0 < a < pp_next s) →
  owns (set_pp_os o' (set_pp_bases B s)) (add_live d (set_o_base G g)).
Proof. intros Ho Hd HB HG. by destruct (owns_os _ _ _ _ Ho Hd). Qed.

Lemma owns_kernel s g st k :
  owns s g → purge_ok (o_live g) st k →
  owns (set_pp_os (hb_os st) (set_pp_kernel (Some (hb_base st)) s)) (set_o_kernel k g).
Proof.
  intros [H1 H2 H3 H4 H5 H6 Hk Hr] Hp. split; try done.
  - by apply kernel_ok_intro.
  - by apply (rep_os_step _ _ _ (hb_os st)) in Hr.
Qed.

Lemma owns_resman s g r a :
  owns s g → rep false r a →
  owns (set_pp_os (rm_os r) (set_pp_rm r s)) (add_live (os_live (ab_os a) - os_live (pp_os s)) (set_o_rm a g)).
Proof.
  intros Ho Hr. rewrite <- (rep_os _ _ _ Hr).
  destruct (owns_os s g (os_live (rm_os r) - os_live (pp_os s)) (rm_os r) Ho ltac:(lia)). split; try done.
  by apply (rep_os_step _ _ _ (rm_os r)) in Hr.
Qed.

(** ** Steps *)

(** Structures stay as they are, addresses are not used again, and memory
    stays plentiful. *)
Definition calm (s s' : pp_st) : Prop :=
  pp_data s' = pp_data s ∧ pp_next s ≤ pp_next s' ∧ (plenty (pp_os s) → plenty (pp_os s')).

Lemma pp_calm_refl s : calm s s.
Proof. by split_and!. Qed.

Lemma wp_take_block s g : owns s g →
  wp (on_memory OSAllocMem) (λ b s', owns s' (add_live (Z.b2z b) g) ∧ calm s s' ∧
    pp_next s' = pp_next s ∧ (plenty (pp_os s) → b = true)) s.
Proof.
  intros Ho. unfold on_memory. wp_step. apply wp_OSAllocMem. intros b o' Hl Hp. split_and!; [|split_and!|done|].
  - apply owns_os; [done|]. destruct b; simpl; lia.
  - done.
  - simpl; lia.
  - simpl. naive_solver.
  - naive_solver.
Qed.

Lemma wp_give_block s g : owns s g →
  wp (on_memory OSFreeMem) (λ _ s', owns s' (add_live (-1) g) ∧ calm s s' ∧ pp_next s' = pp_next s) s.
Proof.
  intros Ho. unfold on_memory. wp_step. apply wp_OSFreeMem. split_and!; [|done..].
  apply owns_os; [done|]. simpl. lia.
Qed.

Lemma wp_new_address s g : owns s g →
  wp new_address (λ a s', a = pp_next s ∧ owns s' g ∧ calm s s' ∧ pp_next s' = pp_next s + 1 ∧
    pp_bases s' = pp_bases s) s.
Proof.
  intros []. unfold new_address. wp_steps. split_and!; [done| |split_and!; simpl; [done|lia|done]|done|done].
  split; try done; simpl; [lia|..]; intros a Ha; [specialize (w_priv_old0 a Ha)|specialize (w_base_old0 a Ha)]; lia.
Qed.

Lemma wp_get_perproc s x p Q : pp_data s !! x = Some p → Q p s → wp (get_perproc x) Q s.
Proof. intros Hx HQ. unfold get_perproc. wp_steps. by rewrite Hx. Qed.

Lemma wp_upd_perproc s x p f Q :
  pp_data s !! x = Some p → Q tt (set_pp_data (<[x := f p]> (pp_data s)) s) → wp (upd_perproc x f) Q s.
Proof. intros Hx HQ. unfold upd_perproc. wp_step. eapply wp_get_perproc; [done|]. by wp_step. Qed.

(** ** The process table *)

Lemma wp_tab_find s g pid : owns s g →
  wp (HASH_Retrieve (pp_tab s) pid) (λ x s', s' = s ∧ x = default 0 (o_tab g !! pid)) s.
Proof.
  intros [_ (tab&Ht&Hr) _ _ _ _ _ _]. rewrite Ht. eapply wp_mono.
  - apply wp_retrieve_map; [apply Hr|by eapply word_key].
  - intros x s' [-> ->]. split; [done|]. by rewrite by_pid_lookup.
Qed.

Lemma wp_tab_insert s g pid x :
  owns s g → o_tab g !! pid = None → Z.of_nat (size (o_tab g)) < 134217728 →
  wp (on_table (HASH_Insert pid x)) (λ b s',
    owns s' (if b then add_live 1 (set_o_tab (<[pid := x]> (o_tab g)) g) else g) ∧ calm s s' ∧
    pp_next s' = pp_next s ∧ (plenty (pp_os s) → b = true)) s.
Proof.
  intros Ho Hp Hsz. pose proof (w_tab _ _ Ho) as (tab&Ht&Hr). unfold on_table. wp_step. simpl. rewrite Ht.
  eapply wp_mono.
  { apply wp_insert_map; [apply Hr|by eapply word_key|by rewrite by_pid_lookup|by rewrite by_pid_size]. }
  intros b st' (tab'&o'&->&Hr'&Hsp&[Hl Hpl]&Hb). simpl. split_and!; [|split_and!; [done|simpl; lia|done]|done|done].
  pose proof (word_rep_params _ _ _ _ Hr Hr' Hsp) as Hw. destruct b.
  - rewrite <- by_pid_insert in Hw. pose proof (owns_table _ _ _ _ Ho Hw) as Ho'. by apply (owns_os _ _ 1 o') in Ho'.
  - pose proof (owns_table _ _ _ _ Ho Hw) as Ho'. apply (owns_os _ _ 0 o') in Ho'; [|done].
    destruct g. unfold add_live, set_o_tab in Ho'. simpl in Ho'. by rewrite Z.add_0_r in Ho'.
Qed.

Lemma wp_tab_remove s g pid : owns s g →
  wp (on_table (HASH_Remove pid)) (λ _ s',
    owns s' (add_live (match o_tab g !! pid with Some _ => -1 | None => 0 end)
      (set_o_tab (delete pid (o_tab g)) g)) ∧ calm s s' ∧ pp_next s' = pp_next s) s.
Proof.
  intros Ho. pose proof (w_tab _ _ Ho) as (tab&Ht&Hr). unfold on_table. wp_step. simpl. rewrite Ht.
  eapply wp_mono; [apply wp_remove_map; [apply Hr|by eapply word_key]|].
  intros r st' (tab'&o'&->&_&Hr'&Hsp&[Hl Hpl]). simpl. split_and!; [|split_and!; [done|simpl; lia|done]|done].
  pose proof (word_rep_params _ _ _ _ Hr Hr' Hsp) as Hw.
  rewrite <- by_pid_delete in Hw. rewrite by_pid_lookup in Hl.
  pose proof (owns_table _ _ _ _ Ho Hw) as Ho'. exact (owns_os _ _ _ o' Ho' Hl).
Qed.

(** ** Private data *)

Lemma wp_priv_init s g x : owns s g →
  wp OSPerProcessPrivateDataInit (λ r s', calm s s' ∧
    (r = (PVRSRV_OK, pp_next s) ∧ o_priv g !! pp_next s = None ∧
       owns s' (add_live 1 (set_o_priv (<[pp_next s := x]> (o_priv g)) g)) ∨
     r = (PVRSRV_ERROR_OUT_OF_MEMORY, IMG_NULL) ∧ owns s' (add_live 0 g) ∧ ¬ plenty (pp_os s))) s.
Proof.
  intros Ho. unfold OSPerProcessPrivateDataInit. wp_step. eapply wp_mono; [by apply wp_take_block|].
  intros b s1 (Ho1&[Hd1 [Hn1 Hp1]]&He1&Hb). destruct b; cbn [negb].
  2:{ wp_step. split; [done|]. right. split_and!; [done..|]. by intros ?%Hb. }
  wp_step. eapply wp_mono; [by apply wp_new_address|]. intros a s2 (->&Ho2&[Hd2 [Hn2 Hp2]]&He2&_). wp_steps.
  split; [split_and!; simpl; [congruence|lia|auto]|]. left.
  assert (o_priv g !! pp_next s = None) as Hnone.
  { destruct (o_priv g !! pp_next s) eqn:Hx; [|done]. pose proof (w_priv_old _ _ Ho (pp_next s) ltac:(eauto)). lia. }
  split; [by rewrite He1|]. split; [done|]. rewrite He1 in *. pose proof (w_next _ _ Ho).
  destruct Ho2 as [H1 H2 H3 H4 H5 H6 Hk Hr]. split; try done; simpl.
  - by rewrite H3, dom_insert_L.
  - intros a [<-|Ha]%lookup_insert_is_Some'; [lia|]. by apply H4.
Qed.

Lemma wp_priv_deinit s g a : owns s g → a = 0 ∨ is_Some (o_priv g !! a) →
  wp (OSPerProcessPrivateDataDeInit a) (λ r s', r = PVRSRV_OK ∧ calm s s' ∧
    owns s' (add_live (match o_priv g !! a with Some _ => -1 | None => 0 end)
      (set_o_priv (delete a (o_priv g)) g))) s.
Proof.
  intros Ho Ha. unfold OSPerProcessPrivateDataDeInit. destruct (Z.eqb_spec a IMG_NULL) as [->|Hn].
  - assert (o_priv g !! 0 = None) as H0.
    { destruct (o_priv g !! 0) eqn:Hx; [|done]. pose proof (w_priv_old _ _ Ho 0 ltac:(eauto)). lia. }
    wp_step. split; [done|]. split; [apply pp_calm_refl|]. unfold IMG_NULL. rewrite H0, delete_id by done.
    destruct Ho. split; try done. eapply kernel_ok_live; [done|]. simpl. lia.
  - destruct Ha as [->|Ha]; [done|]. wp_step. wp_step. rewrite bool_decide_true by (rewrite (w_priv _ _ Ho); by apply elem_of_dom).
    wp_step. eapply wp_mono; [by apply wp_give_block|]. intros _ s1 (Ho1&[Hd [Hnx Hp]]&_). wp_steps.
    split; [done|]. split; [split_and!; simpl; done|]. destruct Ha as [y Hy]. rewrite Hy.
    destruct Ho1 as [H1 H2 H3 H4 H5 H6 Hk Hr]. split; try done; simpl.
    + by rewrite H3, dom_delete_L.
    + intros b [_ Hb]%lookup_delete_is_Some. by apply H4.
Qed.

(** ** The kernel's base *)

Lemma wp_on_kernel {A} (m : M hb_st A) s g Q :
  owns s g →
  (∀ b, purge_ok (o_live g) (mk_hb (pp_os s) b) (o_kernel g) →
     wp m (λ a st, Q a (set_pp_os (hb_os st) (set_pp_kernel (Some (hb_base st)) s))) (mk_hb (pp_os s) b)) →
  wp (on_kernel m) Q s.
Proof.
  intros Ho Hm. destruct (w_kernel _ _ Ho) as (b&Hb&Hok). simpl in *.
  unfold on_kernel. wp_step. rewrite Hb. apply wp_kernel_base. by apply Hm.
Qed.

(** A handle in the kernel's base for the structure [x]. *)
Definition handle_of (k : hspec) (h x : Z) : Prop :=
  ∃ e, sp_handles k !! (h - 1) = Some e ∧ e_type e = PVRSRV_HANDLE_TYPE_PERPROC_DATA ∧ e_data e = x.

(** [x] has no handle, under the 64 bits of an address. *)
Definition no_handle (k : hspec) (x : Z) : Prop :=
  ∀ i e, ¬ key_entry (sp_handles k) (InitKey x PVRSRV_HANDLE_TYPE_PERPROC_DATA IMG_NULL) i e.

Section kernel.
Context {heap : HeapContents}.

Lemma wp_alloc_handle s g x : owns s g → Z.of_nat (size (sp_handles (o_kernel g))) < 134217728 →
  wp (on_kernel (PVRSRVAllocHandle x PVRSRV_HANDLE_TYPE_PERPROC_DATA PVRSRV_HANDLE_ALLOC_FLAG_NONE)) (λ r s', calm s s' ∧
    ((∃ i e, r = (PVRSRV_OK, i + 1) ∧ 0 ≤ i ∧ sp_handles (o_kernel g) !! i = None ∧
        e_type e = PVRSRV_HANDLE_TYPE_PERPROC_DATA ∧ e_data e = x ∧
        owns s' (set_o_kernel (with_handles (<[i := e]> (sp_handles (o_kernel g))) (o_kernel g)) g)) ∨
     r.1 ≠ PVRSRV_OK ∧ r.2 = IMG_NULL ∧ owns s' g ∧
       (no_handle (o_kernel g) x → full (o_kernel g) ∨ ¬ plenty (pp_os s)))) s.
Proof.
  intros Ho Hsz. eapply wp_on_kernel; [done|]. intros b Hok.
  eapply wp_mono; [by apply wp_kalloc|]. intros r st' ((k'&Hr&Hok')&Hwhy&Hpl).
  split; [split_and!; [done|simpl; lia|exact Hpl]|].
  pose proof (owns_kernel _ _ _ _ Ho Hok') as Ho'. pose proof (proj1 Hok) as Hu.
  destruct Hr as [i e _ _ Hsh|i e _ Hke _|i _ Hi Hir|err _ Herr]; rewrite ?(counted_unbatched 1) in Ho' by done.
  - exfalso. unfold is_shared in Hsh. change PVRSRV_HANDLE_ALLOC_FLAG_NONE with 0 in Hsh. by rewrite Z.land_0_r in Hsh.
  - right. split_and!; [done|done|by destruct g|]. intros Hno. by destruct (Hno _ _ Hke).
  - left. exists i, (new_ent (o_kernel g) x PVRSRV_HANDLE_TYPE_PERPROC_DATA PVRSRV_HANDLE_ALLOC_FLAG_NONE).
    split_and!; [done|lia|done..].
  - right. split_and!; [by destruct Herr as [->| ->]|done|by destruct g|]. intros _. apply Hwhy.
    destruct Herr as [->| ->]; [by left|by right].
Qed.

Lemma wp_release_handle s g h x : owns s g → handle_of (o_kernel g) h x →
  wp (on_kernel (PVRSRVReleaseHandle h PVRSRV_HANDLE_TYPE_PERPROC_DATA)) (λ r s', r = PVRSRV_OK ∧ calm s s' ∧
    owns s' (set_o_kernel (with_handles (delete (h - 1) (sp_handles (o_kernel g))) (o_kernel g)) g)) s.
Proof.
  intros Ho (e&He&Hty&_). eapply wp_on_kernel; [done|]. intros b Hok. pose proof Hok as (_&_&km&Hc&_).
  pose proof (q_plain _ _ _ _ Hc _ _ He) as [_ Hir]. pose proof (q_shape _ _ _ _ Hc) as (_&HN&Hmax&_).
  assert (get_spec (sp_handles (o_kernel g)) (ui32TotalHandCount b) h PVRSRV_HANDLE_TYPE_PERPROC_DATA = (PVRSRV_OK, h - 1)) as Hg.
  { replace h with (h - 1 + 1) at 1 by lia. eapply get_spec_live; [by eapply plain_live|done|simpl in *; lia|by right]. }
  eapply wp_mono; [by apply wp_krelease|]. unfold krelease_post. simpl. rewrite Hg. simpl.
  intros r st' (->&Hpl&Hok'). split; [done|]. split; [split_and!; [done|simpl; lia|exact Hpl]|].
  by apply owns_kernel.
Qed.

Lemma wp_purge_kernel s g : owns s g → wp (on_kernel PVRSRVPurgeHandles) (λ _ s', calm s s' ∧ owns s' g) s.
Proof.
  intros Ho. eapply wp_on_kernel; [done|]. intros b (Hu&Hm&km&Hi). eapply wp_mono; [by eapply wp_purge|].
  intros r st' (Hi'&Hpl&Hmx&_). split; [split_and!; [done|simpl; lia|exact Hpl]|].
  replace g with (set_o_kernel (o_kernel g) g) by (by destruct g). apply owns_kernel; [done|].
  split; [done|]. split; [simpl in *; congruence|by exists km].
Qed.

(** ** The bases of the processes *)

Lemma wp_on_base {A} (m : M hb_st A) s g a x sp n Q :
  owns s g → o_base g !! a = Some (x, sp, n) →
  (∀ b, pp_bases s !! a = Some b → base_rep b sp n →
     wp m (λ r st, Q r (set_pp_os (hb_os st) (set_pp_bases (<[a := hb_base st]> (pp_bases s)) s))) (mk_hb (pp_os s) b)) →
  wp (on_base a m) Q s.
Proof.
  intros Ho Ha Hm. destruct (bases_lookup _ _ _ _ _ _ (w_base _ _ Ho) Ha) as (b&Hb&Hr).
  unfold on_base. wp_steps. rewrite Hb. wp_step. wp_step. by apply Hm.
Qed.

Lemma wp_AllocBase s g x p : owns s g → pp_data s !! x = Some p →
  wp (AllocBase x) (λ r s', pp_next s ≤ pp_next s' ∧ (plenty (pp_os s) → plenty (pp_os s')) ∧
    ((∃ tab, r = PVRSRV_OK ∧ o_base g !! pp_next s = None ∧ pp_bases s' !! pp_next s = Some (fresh_base tab) ∧
       pp_data s' = <[x := set_psHandleBase (pp_next s) p]> (pp_data s) ∧
       owns s' (add_live 3 (set_o_base (<[pp_next s := (x, fresh_spec, 3)]> (o_base g)) g))) ∨
     r ≠ PVRSRV_OK ∧ pp_data s' = pp_data s ∧ owns s' (add_live 0 g) ∧ ¬ plenty (pp_os s))) s.
Proof.
  intros Ho Hx. unfold AllocBase, on_memory. wp_step. wp_step. eapply wp_mono; [apply wp_PVRSRVAllocHandleBase|].
  intros r o' (Hpl&[(tab&->&Him)|(Hr&Hl&Hno)]).
  - pose proof (base_rep_intro _ _ _ _ Him) as Hrep. pose proof Him as (kids&rk&fl&bl&km&Hb).
    pose proof (i_live _ _ _ _ _ _ _ _ (b_inv _ _ _ _ _ _ _ _ Hb)) as Hlv. simpl in Hlv.
    rewrite (keyed_empty _ (i_keyed _ _ _ _ _ _ _ _ (b_inv _ _ _ _ _ _ _ _ Hb))), map_size_empty in Hlv. change (array_blocks (fresh_base tab)) with 0 in Hlv.
    assert (os_live o' = os_live (pp_os s) + 3) as Hl by lia.
    replace (os_live o' - (os_live (pp_os s) + 3) + 3) with 3 in Hrep by lia.
    pose proof (owns_os _ _ _ _ Ho Hl) as Ho1.
    wp_step. eapply wp_mono; [by apply wp_new_address|]. intros a s2 (->&Ho2&[Hd2 [Hn2 Hp2]]&He2&Hb2). wp_steps.
    eapply wp_upd_perproc; [simpl; rewrite Hd2; exact Hx|]. wp_steps. simpl in *.
    assert (o_base g !! pp_next s = None) as Hnone.
    { destruct (o_base g !! pp_next s) eqn:Hy; [|done]. pose proof (w_base_old _ _ Ho (pp_next s) ltac:(eauto)). lia. }
    split; [lia|]. split; [auto|]. left. exists tab. split_and!; [done|done|by rewrite lookup_insert_eq|by rewrite Hd2|].
    pose proof (w_next _ _ Ho). destruct Ho2 as [H1 H2 H3 H4 H5 H6 Hk Hrm]. split; try done; simpl.
    + by apply bases_insert.
    + intros a [<-|Ha]%lookup_insert_is_Some'; [lia|]. by apply H6.
  - assert (r.2 = None ∧ r.1 ≠ PVRSRV_OK) as [Hr2 Hr1] by (by destruct Hr as [->| ->]).
    destruct r as [e o]. simpl in *. subst o. wp_step. split; [simpl; lia|]. split; [exact Hpl|]. right.
    split_and!; [done|done| |done]. apply owns_os; [done|lia].
Qed.

Lemma wp_set_options s g a x n tab :
  owns s g → o_base g !! a = Some (x, fresh_spec, n) → pp_bases s !! a = Some (fresh_base tab) →
  wp (OSPerProcessSetHandleOptions a) (λ r s', r = PVRSRV_OK ∧ calm s s' ∧ owns s' (add_live 0 g)) s.
Proof.
  intros Ho Ha Hb. unfold OSPerProcessSetHandleOptions, LinuxMMapPerProcessHandleOptions.
  eapply wp_on_base; [done..|]. intros b Hb' Hrep. simplify_eq.
  eapply wp_mono; [apply (wp_PVRSRVSetMaxHandle _ _ _ MAX_MMAP_HANDLE (Hrep (pp_os s))); by vm_compute|].
  intros r st' (->&Hos&Him). split; [done|]. simpl in Hos. rewrite Hos.
  split; [split_and!; [done|simpl; lia|done]|].
  replace (add_live 0 g) with (add_live 0 (set_o_base (<[a := (x, fresh_spec, n)]> (o_base g)) g))
    by (unfold add_live, set_o_base; by rewrite insert_id).
  apply owns_bases; [done|lia| |].
  - apply bases_insert; [apply Ho|]. destruct st' as [o b']. apply base_rep_intro in Him. simpl in Hos. subst o.
    by replace (os_live (pp_os s) - (os_live (pp_os s) - n + 3) + 3) with n in Him by lia.
  - intros c Hc. apply (w_base_old _ _ Ho). apply lookup_insert_is_Some' in Hc as [<-|Hc]; [by eexists|done].
Qed.

Lemma wp_FreeBase s g a x sp n : owns s g → o_base g !! a = Some (x, sp, n) →
  wp (FreeBase a) (λ r s', r = PVRSRV_OK ∧ calm s s' ∧
    owns s' (add_live (- n) (set_o_base (delete a (o_base g)) g))) s.
Proof.
  intros Ho Ha. unfold FreeBase. wp_step. eapply wp_on_base; [done..|]. intros b _ Hrep.
  eapply wp_mono; [apply (wp_FreeHandleBase _ _ _ (Hrep (pp_os s)))|]. intros r st' (->&Hl&Hpl). cbn [is_OK].
  wp_steps. split; [done|]. split; [split_and!; [done|simpl; lia|exact Hpl]|].
  unfold set_pp_bases, set_pp_os. simpl. rewrite delete_insert_eq. apply owns_bases; [done|simpl in *; lia| |].
  - apply bases_delete, Ho.
  - intros c [_ Hc]%lookup_delete_is_Some. by apply (w_base_old _ _ Ho).
Qed.
End kernel.

(** ** The resource manager *)

Lemma take_block_spec o b o' : take_block o = (b, o') →
  os_live o' = os_live o + Z.b2z b ∧ (plenty o → b = true ∧ plenty o').
Proof.
  unfold take_block, OSAllocMem, plenty. destruct (os_script o) as [|[] r]; intros [= <- <-]; simpl; (split; [lia|done]).
Qed.

Section resman.
Context {links : FreshLinks} {fns : FreeFns} {sp : FreeSpec} {law : FreeLaw}.

Lemma wp_on_resman {A} (m : M rm_st A) s Q :
  wp m (λ a r, Q a (set_pp_os (rm_os r) (set_pp_rm r s))) (set_rm_os (pp_os s) (pp_rm s)) → wp (on_resman m) Q s.
Proof. intros Hm. unfold on_resman. wp_step. exact Hm. Qed.

Lemma wp_rm_connect s g x : owns s g →
  wp (on_resman (PVRSRVResManConnect x)) (λ r s', calm s s' ∧
    (r = (PVRSRV_OK, Some (ab_next (o_rm g))) ∧ owns s' (add_live 1 (set_o_rm (connect x (o_rm g)) g)) ∨
     r = (PVRSRV_ERROR_OUT_OF_MEMORY, None) ∧ owns s' (add_live 0 g) ∧ ¬ plenty (pp_os s))) s.
Proof.
  intros Ho. apply wp_on_resman. eapply wp_mono; [by apply wp_PVRSRVResManConnect, w_rm|].
  intros [e c] r (a'&Hst&Hr). pose proof (owns_resman _ _ _ _ Ho Hr) as Ho'. pose proof (rep_os _ _ _ Hr) as Hos.
  simpl in Hst. inversion Hst as [? ? o Ht|? ? o Ht| | | | | | | | | | | |]; subst;
    apply take_block_spec in Ht as [Hl Hp]; simpl in *.
  - split; [split_and!; simpl; [done|lia|]|].
    { rewrite Hos. intros Hpl. by apply Hp. }
    left. split; [done|]. rewrite Hl in Ho'.
    replace (os_live (pp_os s) + 1 - os_live (pp_os s)) with 1 in Ho' by lia. by destruct Ho'.
  - split; [split_and!; simpl; [done|lia|]|].
    { rewrite Hos. intros Hpl. by apply Hp. }
    right. split; [done|]. rewrite Hl in Ho'.
    replace (os_live (pp_os s) + 0 - os_live (pp_os s)) with 0 in Ho' by lia. split; [by destruct Ho'|].
    by intros [? _]%Hp.
Qed.

Lemma wp_rm_disconnect s g c : owns s g → is_Some (ab_perproc (o_rm g) !! c) →
  wp (on_resman (PVRSRVResManDisconnect c false)) (λ _ s', ∃ a',
    disconnects c false (ab_set_os (pp_os s) (o_rm g)) a' ∧ ab_perproc a' = delete c (ab_perproc (o_rm g)) ∧
    pp_data s' = pp_data s ∧ pp_next s' = pp_next s ∧
    owns s' (add_live (os_live (ab_os a') - os_live (pp_os s)) (set_o_rm a' g))) s.
Proof.
  intros Ho Hc. apply wp_on_resman. eapply wp_mono; [apply wp_PVRSRVResManDisconnect; [by apply w_rm|done]|].
  intros _ r (a'&Hd&Hr&Hpp). exists a'. split_and!; [done..|]. by apply owns_resman.
Qed.

Lemma wp_rm_register s g c ty p u fn : owns s g → is_Some (ab_perproc (o_rm g) !! c) →
  wp (on_resman (ResManRegisterRes c ty p u fn)) (λ i s', ∃ a',
    rm_step (RRegister c ty p u fn) (ab_set_os (pp_os s) (o_rm g)) (RItem i) a' ∧
    ab_perproc a' = ab_perproc (o_rm g) ∧ pp_data s' = pp_data s ∧ pp_next s' = pp_next s ∧
    owns s' (add_live (os_live (ab_os a') - os_live (pp_os s)) (set_o_rm a' g))) s.
Proof.
  intros Ho Hc. apply wp_on_resman.
  eapply wp_mono; [apply wp_ResManRegisterRes; [by apply w_rm|by right]|].
  intros i r (a'&Hst&Hr). exists a'. split_and!; [done| |done..|by apply owns_resman].
  by inversion Hst.
Qed.
End resman.
