(* ===== verification/PerProcTop.v ===== *)
(** * The connected processes: connecting and freeing *)

From S2P Require Import Prelude Hash Handle HandleRep HandleInv HandleOps HandleFree HandleAlloc HandleTake.
From S2P Require Import HandleApi HandleLook HandleLife HandleSys HandlePurge HandleKernel.
From S2P Require Import Lists ResMan ResManRep ResManOps ResManApi PerProc PerProcRep.

(** What the structure [p] at [x] names is its own. *)
Record freeable (g : pp_own) (x : Z) (p : PVRSRV_PER_PROCESS_DATA) : Prop := {
  fr_base : psHandleBase p = 0 ∨ ∃ sp n, o_base g !! psHandleBase p = Some (x, sp, n);
  fr_handle : hPerProcData p = 0 ∨ handle_of (o_kernel g) (hPerProcData p) x;
  fr_priv : hOsPrivateData p = 0 ∨ is_Some (o_priv g !! hOsPrivateData p) }.

(** What it is made of besides its handle and its context. *)
Definition blocks (g : pp_own) (p : PVRSRV_PER_PROCESS_DATA) : Z :=
  1 + match o_tab g !! ui32PID p with Some _ => 1 | None => 0 end
  + match o_priv g !! hOsPrivateData p with Some _ => 1 | None => 0 end
  + match o_base g !! psHandleBase p with Some (_, _, n) => n | None => 0 end.

Definition drop_handle (h : Z) (k : hspec) : hspec := with_handles (delete (h - 1) (sp_handles k)) k.

(** What is owned without it. *)
Definition released (p : PVRSRV_PER_PROCESS_DATA) (g : pp_own) : pp_own :=
  mkOwn (delete (ui32PID p) (o_tab g)) (delete (hOsPrivateData p) (o_priv g))
    (delete (psHandleBase p) (o_base g)) (drop_handle (hPerProcData p) (o_kernel g)) (o_rm g)
    (o_live g - blocks g p).

Lemma owns_eq s g g' : owns s g → g = g' → owns s g'.
Proof. by intros ? <-. Qed.

(** Nothing is owned at the null pointer. *)
Lemma owns_null s g : owns s g →
  o_priv g !! 0 = None ∧ o_base g !! 0 = None ∧ sp_handles (o_kernel g) !! (0 - 1) = None.
Proof.
  intros Ho. split_and!.
  - destruct (o_priv g !! 0) eqn:Hx; [|done]. pose proof (w_priv_old _ _ Ho 0 ltac:(eauto)). lia.
  - destruct (o_base g !! 0) eqn:Hx; [|done]. pose proof (w_base_old _ _ Ho 0 ltac:(eauto)). lia.
  - destruct (sp_handles (o_kernel g) !! (0 - 1)) eqn:Hx; [|done].
    destruct (w_kernel _ _ Ho) as (b&_&_&_&km&Hc&_). pose proof (q_plain _ _ _ _ Hc _ _ Hx) as [_ Hr]. lia.
Qed.

Lemma drop_null s g : owns s g → drop_handle 0 (o_kernel g) = o_kernel g.
Proof. intros (_&_&H)%owns_null. unfold drop_handle. rewrite delete_id by done. by destruct (o_kernel g). Qed.

Lemma pp_calm_trans s s1 s2 : calm s s1 → calm s1 s2 → calm s s2.
Proof. intros (?&?&?) (?&?&?). split_and!; [congruence|lia|auto]. Qed.

Section free.
Context {heap : HeapContents}.

Lemma wp_FreePerProcessData s g x p :
  owns s g → pp_data s !! x = Some p → x ≠ 0 → freeable g x p →
  wp (FreePerProcessData x) (λ r s', r = PVRSRV_OK ∧ pp_data s' = delete x (pp_data s) ∧
    pp_next s ≤ pp_next s' ∧ (plenty (pp_os s) → plenty (pp_os s')) ∧ owns s' (released p g)) s.
Proof.
  intros Ho Hx Hx0 [Hb Hh Hpv]. unfold FreePerProcessData. rewrite (proj2 (Z.eqb_neq x IMG_NULL)) by done.
  wp_step. eapply wp_get_perproc; [exact Hx|]. wp_step.
  eapply wp_mono; [by apply wp_tab_remove|]. intros _ s1 (Ho1&Hc1&_). set (g1 := add_live _ _) in Ho1.
  wp_step. apply wp_mono with (Q := λ r s2, r = PVRSRV_OK ∧ calm s s2 ∧ owns s2
    (add_live (- match o_base g !! psHandleBase p with Some (_, _, n) => n | None => 0 end)
      (set_o_base (delete (psHandleBase p) (o_base g)) g1))).
  { destruct (Z.eqb_spec (psHandleBase p) IMG_NULL) as [He|Hne]; cbn [negb].
    - wp_step. split; [done|]. split; [done|]. pose proof (owns_null _ _ Ho) as (_&Hn&_). rewrite He. unfold IMG_NULL.
      rewrite Hn, delete_id by done. eapply owns_eq; [exact Ho1|]. unfold g1, add_live, set_o_base. simpl. f_equal. lia.
    - destruct Hb as [?|(sp&n&Hb)]; [done|]. rewrite Hb.
      eapply wp_mono; [by eapply (wp_FreeBase _ _ _ _ _ _ Ho1)|]. intros r s2 (->&Hc2&Ho2).
      split; [done|]. split; [by eapply pp_calm_trans|done]. }
  intros r s2 (->&Hc2&Ho2). set (g2 := add_live _ _) in Ho2. cbn [is_OK negb]. wp_step.
  apply wp_mono with (Q := λ r s3, r = PVRSRV_OK ∧ calm s s3 ∧
    owns s3 (set_o_kernel (drop_handle (hPerProcData p) (o_kernel g)) g2)).
  { destruct (Z.eqb_spec (hPerProcData p) IMG_NULL) as [He|Hne]; cbn [negb].
    - wp_step. split; [done|]. split; [done|]. rewrite He. unfold IMG_NULL. by erewrite drop_null.
    - destruct Hh as [?|Hh]; [done|]. eapply wp_mono; [by eapply (wp_release_handle _ _ _ _ Ho2)|].
      intros r s3 (->&Hc3&Ho3). split; [done|]. split; [by eapply pp_calm_trans|done]. }
  intros r s3 (->&Hc3&Ho3). set (g3 := set_o_kernel _ _) in Ho3. cbn [is_OK negb]. wp_step.
  eapply wp_mono; [by apply (wp_priv_deinit _ _ _ Ho3)|]. intros r s4 (->&Hc4&Ho4). cbn [is_OK negb].
  wp_step. eapply wp_mono; [by apply (wp_give_block _ _ Ho4)|]. intros _ s5 (Ho5&Hc5&_). wp_steps.
  pose proof (pp_calm_trans _ _ _ (pp_calm_trans _ _ _ Hc3 Hc4) Hc5) as (Hd&Hnx&Hpl).
  split_and!; [done|simpl; by rewrite Hd|done|done|]. apply owns_data.
  eapply owns_eq; [exact Ho5|]. unfold g3, g2, g1, released, blocks, add_live, set_o_priv. simpl. f_equal.
  destruct (o_tab g !! _), (o_priv g !! _), (o_base g !! _) as [[[]]|]; lia.
Qed.
End free.

(** ** Connecting a new process *)

(** Making the structure [x] of a process: giving back what it has so far
    leads back to what was owned in [s0]. *)
Record building (s0 : pp_st) (g0 : pp_own) (x : Z) (s : pp_st) (g : pp_own) (p : PVRSRV_PER_PROCESS_DATA) : Prop := {
  bu_owns : owns s g;
  bu_data : pp_data s = <[x := p]> (pp_data s0);
  bu_next : pp_next s0 ≤ pp_next s;
  bu_plenty : plenty (pp_os s0) → plenty (pp_os s);
  bu_free : freeable g x p;
  bu_released : released p g = g0 }.

Section connect.
Context {heap : HeapContents} {links : FreshLinks} {fns : FreeFns} {sp : FreeSpec} {law : FreeLaw}.
Context (s0 : pp_st) (g0 : pp_own) (x : Z) (Hx : x ≠ 0) (Hnew : pp_data s0 !! x = None).

Definition undone (r : PVRSRV_ERROR * Z) (s : pp_st) : Prop := r.1 ≠ PVRSRV_OK ∧ owns s g0 ∧ calm s0 s.

Lemma wp_connect_failure s g p e :
  building s0 g0 x s g p → e ≠ PVRSRV_OK → wp (connect_failure x e) undone s.
Proof using Hx Hnew.
  intros [Ho Hd Hn Hp Hf Hr] He. unfold connect_failure. wp_step.
  eapply wp_mono; [apply wp_FreePerProcessData; [exact Ho|by rewrite Hd, lookup_insert_eq|done|exact Hf]|].
  intros r s' (_&Hd'&Hn'&Hp'&Ho'). wp_step. split; [done|]. rewrite Hr in Ho'. split; [done|].
  split_and!; [|lia|auto]. by rewrite Hd', Hd, delete_insert_id.
Qed.

(** The structure is written to. *)
Lemma building_upd s g p f :
  building s0 g0 x s g p → freeable g x (f p) → released (f p) g = g0 →
  building s0 g0 x (set_pp_data (<[x := f p]> (pp_data s)) s) g (f p).
Proof.
  intros [Ho Hd Hn Hp _ _] Hf Hr. split; try done; [by apply owns_data|]. simpl. by rewrite Hd, insert_insert_eq.
Qed.
(** What was owned, the pieces of the new process first. *)
Definition built (pid a b i : Z) (e : ent) (n : nat) : pp_own :=
  mkOwn (<[pid := x]> (o_tab g0))
    (if (1 <=? n)%nat then <[a := x]> (o_priv g0) else o_priv g0)
    (if (3 <=? n)%nat then <[b := (x, fresh_spec, 3)]> (o_base g0) else o_base g0)
    (if (2 <=? n)%nat then with_handles (<[i := e]> (sp_handles (o_kernel g0))) (o_kernel g0) else o_kernel g0)
    (if (4 <=? n)%nat then connect x (o_rm g0) else o_rm g0)
    (o_live g0 + 2 + (if (1 <=? n)%nat then 1 else 0) + (if (3 <=? n)%nat then 3 else 0) + (if (4 <=? n)%nat then 1 else 0)).

Definition made (pid a b i : Z) (n : nat) : PVRSRV_PER_PROCESS_DATA :=
  mkPerProc pid (if (4 <=? n)%nat then ab_next (o_rm g0) else 0) (if (2 <=? n)%nat then i + 1 else 0)
    (if (3 <=? n)%nat then b else 0) 0 (if (1 <=? n)%nat then a else 0).

(** The names of the pieces are new. *)
Record new_names (pid a b i : Z) (e : ent) (n : nat) : Prop := {
  nn_pid : o_tab g0 !! pid = None;
  nn_priv : (1 ≤ n)%nat → o_priv g0 !! a = None ∧ a ≠ 0;
  nn_handle : (2 ≤ n)%nat → sp_handles (o_kernel g0) !! i = None ∧ 0 ≤ i ∧
    e_type e = PVRSRV_HANDLE_TYPE_PERPROC_DATA ∧ e_data e = x;
  nn_base : (3 ≤ n)%nat → o_base g0 !! b = None ∧ b ≠ 0 }.

Context (pid : Z) (H0 : owns s0 g0).

Record at_stage (n : nat) (a b i : Z) (e : ent) (s : pp_st) : Prop := {
  ag_names : new_names pid a b i e n;
  ag_owns : owns s (built pid a b i e n);
  ag_data : pp_data s = <[x := made pid a b i n]> (pp_data s0);
  ag_next : pp_next s0 ≤ pp_next s ∧ x < pp_next s;
  ag_plenty : plenty (pp_os s0) → plenty (pp_os s) }.

Lemma stage_building n a b i e s : (n ≤ 3)%nat → at_stage n a b i e s → building s0 g0 x s (built pid a b i e n) (made pid a b i n).
Proof using H0.
  intros Hn [[N1 N2 N3 N4] Ho Hd [Hnx _] Hp]. pose proof (owns_null _ _ H0) as (Z1&Z2&_). pose proof (drop_null _ _ H0) as Z3.
  assert (∀ k, drop_handle (i + 1) (with_handles (<[i := e]> (sp_handles k)) k) = with_handles (delete i (<[i := e]> (sp_handles k))) k) as Hk.
  { intros k. unfold drop_handle, with_handles. simpl. by rewrite Z.add_simpl_r. }
  split; try done.
  - assert (∀ k, (2 ≤ n)%nat → handle_of (with_handles (<[i := e]> (sp_handles k)) k) (i + 1) x) as Hh.
    { intros k H2. destruct (N3 H2) as (_&_&?&?). exists e. simpl. by rewrite Z.add_simpl_r, lookup_insert_eq. }
    destruct n as [|[|[|[|?]]]]; [..|lia]; split; simpl;
      first [by left | right; first [rewrite lookup_insert_eq; by eauto | by (apply Hh; lia)]].
  - unfold released, blocks, built, made. simpl. rewrite lookup_insert_eq, delete_insert_id by done.
    destruct g0 as [t pv bs k rm lv]; simpl in *.
    destruct n as [|[|[|[|?]]]]; simpl; try lia;
      rewrite ?Hk, ?lookup_insert_eq, ?Z1, ?Z2, ?(delete_id _ 0), ?Z3, ?delete_insert_id
        by first [done | apply N2; lia | apply N3; lia | apply N4; lia];
      try (f_equal; [|lia]; by destruct k); try (f_equal; lia).
Qed.

Definition connected (r : PVRSRV_ERROR * Z) (s : pp_st) : Prop :=
  (r = (PVRSRV_OK, x) ∧ ∃ a b i e, at_stage 4 a b i e s) ∨
  (undone r s ∧ (no_handle (o_kernel g0) x → full (o_kernel g0) ∨ ¬ plenty (pp_os s0))).

Lemma stage_lookup n a b i e s : at_stage n a b i e s → pp_data s !! x = Some (made pid a b i n).
Proof. intros Ha. by rewrite (ag_data _ _ _ _ _ _ Ha), lookup_insert_eq. Qed.

Lemma stage_data n a b i e s : at_stage n a b i e s → <[x := made pid a b i n]> (pp_data s) = pp_data s.
Proof. intros Ha. by rewrite insert_id by (by eapply stage_lookup). Qed.

Lemma wp_stage_fails n a b i e s err :
  (n ≤ 3)%nat → at_stage n a b i e s → err ≠ PVRSRV_OK →
  (no_handle (o_kernel g0) x → full (o_kernel g0) ∨ ¬ plenty (pp_os s0)) →
  wp (connect_failure x err) connected s.
Proof using All.
  intros Hn Ha He Hwhy. eapply wp_mono; [by eapply wp_connect_failure, He; [by apply stage_building|..]|].
  intros r s' Hu. by right.
Qed.

(** Quiet steps stay at a stage. *)
Lemma stage_calm n a b i e s s' :
  at_stage n a b i e s → calm s s' → owns s' (add_live 0 (built pid a b i e n)) → at_stage n a b i e s'.
Proof.
  intros [? ? Hd Hnx Hp] (Hd'&Hnx'&Hp') Ho. split; [done| |congruence|lia|auto].
  eapply owns_eq; [exact Ho|]. unfold add_live, built. simpl. f_equal. lia.
Qed.

Lemma wp_connect_resman a b i e s : at_stage 3 a b i e s → wp (connect_resman x) connected s.
Proof using All.
  intros Ha. unfold connect_resman. wp_step. eapply wp_mono; [apply wp_rm_connect, (ag_owns _ _ _ _ _ _ Ha)|].
  intros r s1 (Hc&[[-> Ho]|(->&Ho&Hno)]).
  - destruct Hc as (Hd1&Hn1&Hp1). wp_step. eapply wp_upd_perproc; [rewrite Hd1; by eapply stage_lookup|].
    cbn [is_OK negb]. wp_step. left. split; [done|]. exists a, b, i, e. destruct Ha as [[N1 N2 N3 N4] _ Hd Hnx Hp].
    split; simpl.
    + split; try done; intros _; [apply N2|apply N3|apply N4]; lia.
    + apply owns_data. eapply owns_eq; [exact Ho|]. unfold add_live, set_o_rm, built. simpl. f_equal. lia.
    + by rewrite Hd1, Hd, insert_insert_eq.
    + lia.
    + auto.
  - wp_steps. cbn [is_OK negb]. eapply (wp_stage_fails 3); [lia|by eapply stage_calm|done|].
    intros _. right. intros Hpl. apply Hno. by apply (ag_plenty _ _ _ _ _ _ Ha).
Qed.

Lemma wp_connect_base a b i e s : at_stage 2 a b i e s → wp (connect_base x) connected s.
Proof using All.
  intros Ha. pose proof (ag_owns _ _ _ _ _ _ Ha) as Ho. unfold connect_base. wp_step.
  eapply wp_mono; [by eapply wp_AllocBase; [|by eapply stage_lookup]|].
  intros r s1 (Hn1&Hp1&[(tab&->&Hnb&Hb&Hd1&Ho1)|(Hr&Hd1&Ho1&Hno)]).
  - cbn [is_OK negb]. assert (at_stage 3 a (pp_next s) i e s1) as Ha1.
    { destruct Ha as [[N1 N2 N3 N4] _ Hd Hnx Hp]. split.
      - split; try done; intros _; [apply N2; lia|apply N3; lia|]. split; [exact Hnb|]. pose proof (w_next _ _ Ho). lia.
      - eapply owns_eq; [exact Ho1|]. unfold add_live, set_o_base, built. simpl. f_equal. lia.
      - by rewrite Hd1, Hd, insert_insert_eq.
      - lia.
      - auto. }
    wp_step. eapply wp_get_perproc; [by eapply stage_lookup|]. wp_step.
    eapply wp_mono; [eapply wp_set_options; [apply (ag_owns _ _ _ _ _ _ Ha1)|apply lookup_insert_eq|exact Hb]|].
    intros r s2 (->&Hc2&Ho2). cbn [is_OK negb]. eapply wp_connect_resman. by eapply stage_calm.
  - assert (is_OK r = false) as -> by (by destruct r). cbn [negb].
    eapply (wp_stage_fails 2); [lia| |done|].
    + eapply stage_calm; [exact Ha|split_and!; done|exact Ho1].
    + intros _. right. intros Hpl. apply Hno. by apply (ag_plenty _ _ _ _ _ _ Ha).
Qed.

Lemma wp_connect_handle a b i e s :
  at_stage 1 a b i e s → Z.of_nat (size (sp_handles (o_kernel g0))) < 134217728 → wp (connect_handle x) connected s.
Proof using All.
  intros Ha Hsz. unfold connect_handle. wp_step.
  eapply wp_mono; [by apply (wp_alloc_handle _ _ x (ag_owns _ _ _ _ _ _ Ha))|]. intros [err h] s1 (Hc&Hr).
  pose proof Hc as (Hd1&Hn1&Hp1). wp_step. eapply wp_upd_perproc; [rewrite Hd1; by eapply stage_lookup|].
  destruct Hr as [(i'&e'&[= -> ->]&Hi0&Hi&Hty&Hda&Ho)|(He&Hh&Ho&Hwhy)].
  - cbn [is_OK negb]. apply (wp_connect_base a b i' e'). destruct Ha as [[N1 N2 N3 N4] _ Hd Hnx Hp]. split; simpl.
    + split; [done|intros _; apply N2; lia|intros _; exact (conj Hi (conj Hi0 (conj Hty Hda)))|lia].
    + apply owns_data. exact Ho.
    + by rewrite Hd1, Hd, insert_insert_eq.
    + lia.
    + auto.
  - simpl in He, Hh. subst h. assert (is_OK err = false) as -> by (by destruct err). cbn [negb].
    eapply (wp_stage_fails 1 a b i e); [lia| |done|].
    + change (set_hPerProcData IMG_NULL (made pid a b i 1)) with (made pid a b i 1).
      rewrite Hd1, (stage_data 1 a b i e) by done. destruct Ha as [Hnn _ Hd Hnx Hp].
      split; simpl; [done|by apply owns_data|done|lia|auto].
    + intros Hno. destruct (Hwhy Hno) as [?|Hpl]; [by left|right]. intros Hp0. apply Hpl. by apply (ag_plenty _ _ _ _ _ _ Ha).
Qed.

Lemma wp_connect_private a b i e s :
  at_stage 0 a b i e s → Z.of_nat (size (sp_handles (o_kernel g0))) < 134217728 → wp (connect_private x) connected s.
Proof using All.
  intros Ha Hsz. unfold connect_private. wp_step. pose proof (ag_owns _ _ _ _ _ _ Ha) as Ho0.
  eapply wp_mono; [by apply (wp_priv_init _ _ x Ho0)|]. intros r s1 (Hc&Hr).
  pose proof Hc as (Hd1&Hn1&Hp1). destruct Hr as [(->&Hnp&Ho)|(->&Ho&Hno)]; wp_step;
    (eapply wp_upd_perproc; [rewrite Hd1; by eapply stage_lookup|]); cbn [is_OK negb].
  - apply (wp_connect_handle (pp_next s) b i e); [|done]. destruct Ha as [[N1 N2 N3 N4] _ Hd Hnx Hp]. split; simpl.
    + split; try done; intros H; try lia. split; [exact Hnp|]. pose proof (w_next _ _ Ho0). lia.
    + apply owns_data. eapply owns_eq; [exact Ho|]. unfold add_live, set_o_priv, built. simpl. f_equal. lia.
    + by rewrite Hd1, Hd, insert_insert_eq.
    + lia.
    + auto.
  - eapply (wp_stage_fails 0 a b i e); [lia| |done|].
    + change (set_hOsPrivateData IMG_NULL (made pid a b i 0)) with (made pid a b i 0).
      rewrite Hd1, (stage_data 0 a b i e) by done. pose proof (stage_calm _ _ _ _ _ _ _ Ha Hc Ho) as [Hnn Ho' Hd Hnx Hp].
      split; simpl; [done|by apply owns_data|congruence|done|done].
    + intros _. right. intros Hp0. apply Hno. by apply (ag_plenty _ _ _ _ _ _ Ha).
Qed.
End connect.

Section new.
Context {heap : HeapContents} {links : FreshLinks} {fns : FreeFns} {sp : FreeSpec} {law : FreeLaw}.

(** A new process is made whole or leaves no trace. *)
Theorem wp_new_process s g pid :
  owns s g → pp_data s !! pp_next s = None → o_tab g !! pid = None → o_tab g !! 0 = None →
  Z.of_nat (size (o_tab g)) < 134217728 → Z.of_nat (size (sp_handles (o_kernel g))) < 134217728 →
  wp (new_process pid) (connected s g (pp_next s) pid) s.
Proof.
  intros Ho Hnew Hpid Hzero Hsz Hszk. pose proof (w_next _ _ Ho) as Hnx0. unfold new_process.
  wp_step. eapply wp_mono; [by apply wp_take_block|]. intros b s1 (Ho1&(Hd1&Hn1&Hp1)&He1&Hb).
  destruct b; cbn [negb].
  2:{ wp_step. right. split; [|intros _; right; by intros ?%Hb]. split; [done|]. split; [|done].
      eapply owns_eq; [exact Ho1|]. destruct g. unfold add_live. simpl. f_equal. lia. }
  wp_step. eapply wp_mono; [by apply wp_new_address|]. intros x s2 (->&Ho2&(Hd2&Hn2&Hp2)&He2&_).
  rewrite He1. set (x := pp_next s) in *. assert (x ≠ 0) as Hx by (unfold x; lia).
  wp_step. wp_step. set (s3 := set_pp_data _ s2).
  assert (owns s3 (add_live (Z.b2z true) g)) as Ho3 by (by apply owns_data).
  assert (pp_data s3 = <[x := mkPerProc 0 0 0 0 0 0]> (pp_data s)) as Hd3 by (simpl; congruence).
  wp_step. eapply wp_mono; [by apply (wp_tab_insert _ _ pid x Ho3)|]. intros b s4 (Ho4&(Hd4&Hn4&Hp4)&_&Hb4).
  simpl in Hn4, Hp4, Hb4. rewrite Hd3 in Hd4. destruct b; cbn [negb].
  - wp_step. eapply wp_upd_perproc; [by rewrite Hd4, lookup_insert_eq|]. wp_step. simpl.
    eapply wp_upd_perproc; [simpl; by rewrite lookup_insert_eq|].
    apply (wp_connect_private s g x Hx Hnew pid Ho 0 0 0 (mkEnt PVRSRV_HANDLE_TYPE_NONE 0 0 None false false)); [|done].
    split; simpl.
    + split; simpl; [done|lia..].
    + do 2 apply owns_data. eapply owns_eq; [exact Ho4|]. unfold add_live, set_o_tab, built. simpl. f_equal. lia.
    + by rewrite Hd4, !insert_insert_eq.
    + lia.
    + auto.
  - pose proof (owns_null _ _ Ho) as (Z1&Z2&_).
    eapply wp_mono; [eapply (wp_connect_failure s g x Hx Hnew s4 (add_live (Z.b2z true) g)); [|done]|].
    + split; [done|exact Hd4|lia|auto|split; by left|].
      unfold released, blocks, add_live. simpl. rewrite Hzero, Z1, Z2, !delete_id by done.
      erewrite drop_null by done. destruct g. simpl. f_equal. lia.
    + intros r s' Hu. right. split; [done|]. intros _. right. intros Hp. by discriminate (Hb4 (Hp2 (Hp1 Hp))).
Qed.
End new.
