(* ===== verification/PerProcApi.v ===== *)
(** * The connected processes: the abstract state and its steps

    [pp_abs] is what the driver promises its clients: which processes are
    connected, how often, and with which handles; next to it the kernel's own
    handle table, the resource manager and the memory of all others.
    [pp_rep] relates a state to it, and each operation makes its abstract step. *)

From S2P Require Import Prelude Hash Handle HandleRep HandleInv HandleOps HandleFree HandleAlloc HandleTake.
From S2P Require Import HandleApi HandleLook HandleLife HandleSys HandlePurge HandleKernel Lists ResMan.
From S2P Require Import ResManRep ResManOps ResManApi PerProc PerProcRep PerProcTop.

(** ** The abstract state *)

Record proc := mkProc {
  pr_data : Z;            (** the address of its structure *)
  pr_count : Z;
  pr_handle : Z;          (** its handle in the kernel's base *)
  pr_ctx : Z;             (** its resource manager context *)
  pr_base : Z;            (** its handle base *)
  pr_private : Z;
  pr_handles : hspec }.   (** what its base holds *)

Definition data_of (pid : Z) (pr : proc) : PVRSRV_PER_PROCESS_DATA :=
  mkPerProc pid (pr_ctx pr) (pr_handle pr) (pr_base pr) (pr_count pr) (pr_private pr).

Definition with_count n (pr : proc) : proc :=
  mkProc (pr_data pr) n (pr_handle pr) (pr_ctx pr) (pr_base pr) (pr_private pr) (pr_handles pr).
Definition with_table t (pr : proc) : proc :=
  mkProc (pr_data pr) (pr_count pr) (pr_handle pr) (pr_ctx pr) (pr_base pr) (pr_private pr) t.

Record pp_abs := mkPA {
  pa_procs : gmap Z proc;
  pa_kernel : hspec;
  pa_rm : rm_abs;
  pa_live : Z }.          (** the blocks of memory of everyone else *)

Definition with_procs m (A : pp_abs) : pp_abs := mkPA m (pa_kernel A) (pa_rm A) (pa_live A).

(** ** Representation *)

Record belongs (s : pp_st) (g : pp_own) (pid : Z) (pr : proc) : Prop := {
  be_tab : o_tab g !! pid = Some (pr_data pr);
  be_data : pp_data s !! pr_data pr = Some (data_of pid pr);
  be_priv : o_priv g !! pr_private pr = Some (pr_data pr);
  be_base : ∃ n, o_base g !! pr_base pr = Some (pr_data pr, pr_handles pr, n);
  be_handle : handle_of (o_kernel g) (pr_handle pr) (pr_data pr);
  be_ctx : ab_perproc (o_rm g) !! pr_ctx pr = Some (pr_data pr) }.

(** A process has the name [v] for its [f]. *)
Definition named (procs : gmap Z proc) (f : proc → Z) (v : Z) : Prop := ∃ pid pr, procs !! pid = Some pr ∧ f pr = v.

Record procs_ok (s : pp_st) (g : pp_own) (procs : gmap Z proc) : Prop := {
  po_zero : procs !! 0 = None;
  po_proc pid pr : procs !! pid = Some pr → belongs s g pid pr;
  po_tab pid : is_Some (o_tab g !! pid) → is_Some (procs !! pid);
  po_data x : is_Some (pp_data s !! x) → 0 < x < pp_next s ∧ named procs pr_data x;
  po_priv a : is_Some (o_priv g !! a) → named procs pr_private a;
  po_base a : is_Some (o_base g !! a) → named procs pr_base a;
  po_kernel i e : sp_handles (o_kernel g) !! i = Some e → e_type e = PVRSRV_HANDLE_TYPE_PERPROC_DATA →
    named procs pr_handle (i + 1) }.

(** The blocks of the processes: the structure, its entry in the table, the
    private data, and the base with its [n] blocks. *)
Definition of_bases (G : gmap Z (Z * hspec * Z)) : Z := map_fold (λ _ t acc, t.2 + 3 + acc) 0 G.

(** Six more blocks are those of the three components themselves: the list
    of contexts, the process table (2) and the empty kernel base (3). *)
Definition pp_rep (s : pp_st) (A : pp_abs) : Prop :=
  ∃ g, owns s g ∧ procs_ok s g (pa_procs A) ∧ o_kernel g = pa_kernel A ∧ o_rm g = pa_rm A ∧
    o_live g = pa_live A + 6 + of_bases (o_base g).

Lemma of_bases_insert G a t : G !! a = None → of_bases (<[a := t]> G) = t.2 + 3 + of_bases G.
Proof. intros Ha. unfold of_bases. rewrite map_fold_insert_L; [done| |done]. intros; lia. Qed.

Lemma of_bases_delete G a t : G !! a = Some t → of_bases G = t.2 + 3 + of_bases (delete a G).
Proof. intros Ha. unfold of_bases. rewrite (map_fold_delete_L _ _ a t G); [done| |done]. intros; lia. Qed.

Lemma of_bases_replace G a t t' : G !! a = Some t → of_bases (<[a := t']> G) = of_bases G + t'.2 - t.2.
Proof.
  intros Ha. rewrite (of_bases_delete G a t Ha), <- insert_delete_eq, of_bases_insert by apply lookup_delete_eq. lia.
Qed.

Lemma procs_tab s g procs pid : procs_ok s g procs → o_tab g !! pid = pr_data <$> procs !! pid.
Proof.
  intros Hok. destruct (procs !! pid) as [pr|] eqn:Hp; simpl; [by apply (be_tab _ _ _ _ (po_proc _ _ _ Hok _ _ Hp))|].
  destruct (o_tab g !! pid) eqn:Ht; [|done]. destruct (po_tab _ _ _ Hok pid ltac:(eauto)). congruence.
Qed.

(** What else changes does not matter. *)
Lemma procs_frame s s' g g' procs :
  procs_ok s g procs → pp_data s' = pp_data s → pp_next s ≤ pp_next s' → o_tab g' = o_tab g → o_priv g' = o_priv g →
  o_base g' = o_base g → o_kernel g' = o_kernel g → ab_perproc (o_rm g') = ab_perproc (o_rm g) → procs_ok s' g' procs.
Proof.
  intros [? HP ? HD ? ? ?] E1 E2 E3 E4 E5 E6 E7. split; rewrite ?E1, ?E3, ?E4, ?E5, ?E6; try done.
  - intros pid pr Hp. destruct (HP pid pr Hp). split; rewrite ?E1, ?E3, ?E4, ?E5, ?E6, ?E7; done.
  - intros x Hx. destruct (HD x Hx). split; [lia|done].
Qed.

Lemma procs_size s g procs : procs_ok s g procs → size (o_tab g) = size procs.
Proof.
  intros Hok. rewrite <- !size_dom. f_equal. apply set_eq. intros pid. rewrite !elem_of_dom.
  rewrite (procs_tab _ _ _ _ Hok). destruct (procs !! pid); simpl; split; by intros [].
Qed.

(** A handle of the kernel's base that is a process's is the one it knows. *)
Lemma procs_handle s g procs i e : procs_ok s g procs → sp_handles (o_kernel g) !! i = Some e →
  e_type e = PVRSRV_HANDLE_TYPE_PERPROC_DATA →
  ∃ pid pr, procs !! pid = Some pr ∧ pr_handle pr = i + 1 ∧ e_data e = pr_data pr.
Proof.
  intros Hok Hi He. destruct (po_kernel _ _ _ Hok i e Hi He) as (pid&pr&Hp&Hh). exists pid, pr. split; [done|]. split; [done|].
  destruct (be_handle _ _ _ _ (po_proc _ _ _ Hok _ _ Hp)) as (e'&Hi'&_&Hd). rewrite Hh, Z.add_simpl_r in Hi'. congruence.
Qed.

(** A structure, a private block and a base have one process. *)
Lemma procs_inj s g procs pid pid' pr pr' :
  procs_ok s g procs → procs !! pid = Some pr → procs !! pid' = Some pr' →
  pr_data pr = pr_data pr' ∨ pr_private pr = pr_private pr' ∨ pr_base pr = pr_base pr' → pid = pid'.
Proof.
  intros Hok [_ D1 P1 [n1 B1] _ _]%(po_proc _ _ _ Hok) [_ D2 P2 [n2 B2] _ _]%(po_proc _ _ _ Hok) Heq.
  assert (pr_data pr = pr_data pr') as Hd by (destruct Heq as [?|[He|He]]; [done|rewrite He in *; congruence..]).
  rewrite Hd in D1. unfold data_of in *. congruence.
Qed.

(** ** One process changes *)

Lemma named_keep procs pid pr pr' f v :
  procs !! pid = Some pr → f pr' = f pr → named procs f v → named (<[pid := pr']> procs) f v.
Proof.
  intros Hp Hf (q&pr0&Hq&<-). destruct (decide (q = pid)) as [->|Hne].
  - exists pid, pr'. rewrite lookup_insert_eq. split; [done|]. congruence.
  - exists q, pr0. by rewrite lookup_insert_ne.
Qed.

Lemma named_new procs pid pr f v : procs !! pid = None → f pr = v ∨ named procs f v → named (<[pid := pr]> procs) f v.
Proof.
  intros Hp [Hf|(q&pr0&Hq&<-)]; [exists pid, pr; by rewrite lookup_insert_eq|].
  exists q, pr0. rewrite lookup_insert_ne by congruence. done.
Qed.

Lemma procs_count s g procs pid pr n :
  procs_ok s g procs → procs !! pid = Some pr →
  procs_ok (set_pp_data (<[pr_data pr := data_of pid (with_count n pr)]> (pp_data s)) s) g
    (<[pid := with_count n pr]> procs).
Proof.
  intros Hok Hp. pose proof (po_proc _ _ _ Hok _ _ Hp) as [B1 B2 B3 B4 B5 B6].
  split; simpl.
  - rewrite lookup_insert_ne; [apply Hok|]. intros ->. by rewrite (po_zero _ _ _ Hok) in Hp.
  - intros q pr' [[<- <-]|[Hne Hq]]%lookup_insert_Some.
    + split; simpl; try done. by rewrite lookup_insert_eq.
    + destruct (po_proc _ _ _ Hok _ _ Hq) as [C1 C2 C3 C4 C5 C6]. split; try done. simpl. rewrite lookup_insert_ne; [done|].
      intros He. apply Hne. eapply procs_inj; [exact Hok|exact Hp|exact Hq|by left].
  - intros q Hq%(po_tab _ _ _ Hok). rewrite lookup_insert_is_Some'. by right.
  - intros x Hx. assert (is_Some (pp_data s !! x)) as Hx'.
    { apply lookup_insert_is_Some' in Hx as [<-|?]; eauto. }
    destruct (po_data _ _ _ Hok _ Hx') as [? ?]. split; [done|]. by eapply named_keep.
  - intros a Ha. eapply named_keep; [done|done|]. by apply (po_priv _ _ _ Hok).
  - intros a Ha. eapply named_keep; [done|done|]. by apply (po_base _ _ _ Hok).
  - intros i e Hi He. eapply named_keep; [done|done|]. by eapply (po_kernel _ _ _ Hok).
Qed.

Lemma procs_table s g procs pid pr sp n :
  procs_ok s g procs → procs !! pid = Some pr →
  procs_ok s (set_o_base (<[pr_base pr := (pr_data pr, sp, n)]> (o_base g)) g) (<[pid := with_table sp pr]> procs).
Proof.
  intros Hok Hp. pose proof (po_proc _ _ _ Hok _ _ Hp) as [B1 B2 B3 B4 B5 B6].
  split; simpl.
  - rewrite lookup_insert_ne; [apply Hok|]. intros ->. by rewrite (po_zero _ _ _ Hok) in Hp.
  - intros q pr' [[<- <-]|[Hne Hq]]%lookup_insert_Some.
    + split; simpl; try done. exists n. by rewrite lookup_insert_eq.
    + destruct (po_proc _ _ _ Hok _ _ Hq) as [C1 C2 C3 C4 C5 C6]. split; try done. simpl. rewrite lookup_insert_ne; [done|].
      intros He. apply Hne. eapply procs_inj; [exact Hok|exact Hp|exact Hq|by right; right].
  - intros q Hq%(po_tab _ _ _ Hok). rewrite lookup_insert_is_Some'. by right.
  - intros x Hx. destruct (po_data _ _ _ Hok _ Hx) as [? ?]. split; [done|]. by eapply named_keep.
  - intros a Ha. eapply named_keep; [done|done|]. by apply (po_priv _ _ _ Hok).
  - intros a Ha. eapply named_keep; [done|done|]. apply lookup_insert_is_Some' in Ha as [<-|?]; [by exists pid, pr|by apply (po_base _ _ _ Hok)].
  - intros i e Hi He. eapply named_keep; [done|done|]. by eapply (po_kernel _ _ _ Hok).
Qed.

(** A new process: what it is made of has no other owner. *)
Lemma procs_new s0 g0 procs x pid a b i e s :
  procs_ok s0 g0 procs → pid ≠ 0 → procs !! pid = None → pp_data s0 !! x = None → 0 < x < pp_next s → x ≠ 0 →
  at_stage s0 g0 x pid 4 a b i e s →
  (∀ y, is_Some (ab_perproc (o_rm g0) !! y) → y ≠ ab_next (o_rm g0)) →
  procs_ok s (built g0 x pid a b i e 4)
    (<[pid := mkProc x 0 (i + 1) (ab_next (o_rm g0)) b a fresh_spec]> procs).
Proof.
  intros Hok Hpid Hp Hx Hxr Hx0 [[N1 N2 N3 N4] _ Hd [Hnx _] _] Hrm.
  destruct (N2 ltac:(lia)) as [Ha Ha0], (N3 ltac:(lia)) as (Hi&Hi0&Hty&Hda), (N4 ltac:(lia)) as [Hb Hb0].
  split; simpl.
  - rewrite lookup_insert_ne by done. apply Hok.
  - intros q pr [[<- <-]|[Hne Hq]]%lookup_insert_Some.
    + split; simpl; rewrite ?Hd, ?lookup_insert_eq; try done; [by eexists|].
      exists e. simpl. by rewrite Z.add_simpl_r, lookup_insert_eq.
    + pose proof (po_proc _ _ _ Hok _ _ Hq) as [C1 C2 C3 [n C4] (e'&C5&Ht')  C6]. split; simpl.
      * by rewrite lookup_insert_ne.
      * rewrite Hd, lookup_insert_ne; [done|]. congruence.
      * rewrite lookup_insert_ne; [done|]. congruence.
      * exists n. rewrite lookup_insert_ne; [done|]. congruence.
      * exists e'. simpl. rewrite lookup_insert_ne; [done|]. congruence.
      * rewrite lookup_insert_ne; [done|]. intros He. by apply (Hrm (pr_ctx pr)); eauto.
  - intros q. rewrite !lookup_insert_is_Some'. intros [?|?]; [by left|right]. by apply (po_tab _ _ _ Hok).
  - intros y Hy. rewrite Hd in Hy. apply lookup_insert_is_Some' in Hy as [<-|Hy].
    + split; [done|]. apply named_new; [done|by left].
    + destruct (po_data _ _ _ Hok _ Hy) as [? ?]. split; [lia|]. apply named_new; [done|by right].
  - intros y Hy. apply named_new; [done|]. apply lookup_insert_is_Some' in Hy as [<-|Hy]; [by left|right].
    by apply (po_priv _ _ _ Hok).
  - intros y Hy. apply named_new; [done|]. apply lookup_insert_is_Some' in Hy as [<-|Hy]; [by left|right].
    by apply (po_base _ _ _ Hok).
  - intros j e' [[<- <-]|[_ Hj]]%lookup_insert_Some He'; apply named_new; [done|by left|done|right].
    by eapply (po_kernel _ _ _ Hok).
Qed.

(** A process goes. *)
Lemma named_delete procs pid pr f v :
  procs !! pid = Some pr → f pr ≠ v → named procs f v → named (delete pid procs) f v.
Proof.
  intros Hp Hf (q&pr0&Hq&Hv). exists q, pr0. rewrite lookup_delete_ne; [done|]. intros ->. congruence.
Qed.

Lemma procs_gone s g procs pid pr s' rm :
  procs_ok s g procs → procs !! pid = Some pr → pp_data s' = delete (pr_data pr) (pp_data s) → pp_next s ≤ pp_next s' →
  ab_perproc rm = delete (pr_ctx pr) (ab_perproc (o_rm g)) →
  procs_ok s' (released (data_of pid pr) (set_o_rm rm g)) (delete pid procs).
Proof.
  intros Hok Hp Hd Hnx Hrm. pose proof (po_proc _ _ _ Hok _ _ Hp) as [B1 B2 B3 [nb B4] (eb&B5&Bt) B6]. split; simpl.
  - rewrite lookup_delete_ne; [apply Hok|]. intros ->. by rewrite (po_zero _ _ _ Hok) in Hp.
  - intros q pr' [Hne Hq]%lookup_delete_Some.
    pose proof (po_proc _ _ _ Hok _ _ Hq) as [C1 C2 C3 [n C4] (e&C5&Ct) C6].
    assert (pr_data pr ≠ pr_data pr') as Hdn by (intros ?; apply Hne; eapply procs_inj; [exact Hok|exact Hp|exact Hq|by left]).
    split; simpl.
    + by rewrite lookup_delete_ne.
    + rewrite Hd, lookup_delete_ne; done.
    + rewrite lookup_delete_ne; [done|]. congruence.
    + exists n. rewrite lookup_delete_ne; [done|]. congruence.
    + exists e. split; [|done]. simpl. rewrite lookup_delete_ne; [done|]. intros He. rewrite He in *.
      assert (eb = e) as -> by congruence. by destruct Bt, Ct; congruence.
    + rewrite Hrm, lookup_delete_ne; [done|]. congruence.
  - intros q. rewrite !lookup_delete_is_Some. intros [? ?]. split; [done|]. by apply (po_tab _ _ _ Hok).
  - intros x Hx. rewrite Hd in Hx. apply lookup_delete_is_Some in Hx as [Hne Hx].
    destruct (po_data _ _ _ Hok _ Hx) as [? ?]. split; [lia|]. by eapply named_delete.
  - intros a [Hne Ha]%lookup_delete_is_Some. eapply named_delete; [done|done|]. by apply (po_priv _ _ _ Hok).
  - intros a [Hne Ha]%lookup_delete_is_Some. eapply named_delete; [done|done|]. by apply (po_base _ _ _ Hok).
  - intros i e [Hne Hi]%lookup_delete_Some He. eapply named_delete; [done|lia|]. by eapply (po_kernel _ _ _ Hok).
Qed.

(** ** Clients *)

(** A process connects and disconnects; asks for its handle to the services;
    calls with some handle to the services, to work on its handle base or to
    register an item in its resource manager context. *)
Inductive pp_op :=
| PConnect (pid : Z)
| PDisconnect (pid : Z)
| PServices (pid : Z)
| PHandle (pid h : Z) (op : hop)
| PRegister (pid h ty pv u fn : Z).

(** [PRefused] is [-EFAULT]. *)
Inductive pp_res :=
| PError (e : PVRSRV_ERROR) | PUnit | PRefused | PServed (h : Z) | PHandled (r : hres) | PItem (i : Z).

(** The calls on a base that need no more than their arguments: all but
    opening a batch. *)
Definition call_op (op : hop) : Prop :=
  match op with
  | HAlloc _ ty _ => ty ≠ PVRSRV_HANDLE_TYPE_NONE
  | HSub _ ty _ hp => ty ≠ PVRSRV_HANDLE_TYPE_NONE ∧ is_u32 hp
  | HNewBatch _ => False
  | _ => True
  end.

Definition pp_pre (op : pp_op) : Prop :=
  match op with
  | PConnect pid => pid ≠ 0
  | PHandle _ _ op => call_op op
  | _ => True
  end.

Section run.
Context {heap : HeapContents} {links : FreshLinks} {fns : FreeFns}.

(** A call, once its caller is known. *)
Definition in_process (pid : Z) (bConnect : bool) (h : Z) (f : Z → M pp_st pp_res) : M pp_st pp_res :=
  o ← BridgeCaller pid bConnect h;
  match o with None => mret PRefused | Some psPerProc => f psPerProc end.

Definition run_pop (op : pp_op) : M pp_st pp_res :=
  match op with
  | PConnect pid => e ← PVRSRVPerProcessDataConnect pid; mret (PError e)
  | PDisconnect pid => PVRSRVPerProcessDataDisconnect pid;; mret PUnit
  | PServices pid => in_process pid true 0 (λ x, h ← PVRSRVConnectBW x; mret (PServed h))
  | PHandle pid h op =>
      in_process pid false h (λ x, p ← get_perproc x; r ← on_base (psHandleBase p) (run_hop op); mret (PHandled r))
  | PRegister pid h ty pv u fn =>
      in_process pid false h (λ x, p ← get_perproc x;
        i ← on_resman (ResManRegisterRes (hResManContext p) ty pv u fn); mret (PItem i))
  end.

Fixpoint run_pops (ops : list pp_op) : M pp_st (list pp_res) :=
  match ops with
  | [] => mret []
  | op :: ops => r ← run_pop op; rs ← run_pops ops; mret (r :: rs)
  end.
End run.

(** ** The abstract system *)

Section spec.
Context {sp : FreeSpec}.

(** A process as it is when it first connects. *)
Record newcomer (A : pp_abs) (pr : proc) (i : Z) (e : ent) : Prop := {
  nc_count : pr_count pr = 1;
  nc_handles : pr_handles pr = fresh_spec;
  nc_ctx : pr_ctx pr = ab_next (pa_rm A);
  nc_handle : pr_handle pr = i + 1;
  nc_slot : sp_handles (pa_kernel A) !! i = None;
  nc_type : e_type e = PVRSRV_HANDLE_TYPE_PERPROC_DATA;
  nc_data : e_data e = pr_data pr;
  nc_new : ¬ named (pa_procs A) pr_data (pr_data pr) ∧ ¬ named (pa_procs A) pr_base (pr_base pr) ∧
    ¬ named (pa_procs A) pr_private (pr_private pr) ∧ ¬ named (pa_procs A) pr_ctx (pr_ctx pr) }.

(** The resource manager does something for [pr]. *)
Definition with_rm (o : os) (rm : rm_abs) (A : pp_abs) : pp_abs :=
  mkPA (pa_procs A) (pa_kernel A) rm (pa_live A + os_live (ab_os rm) - os_live o).

(** [h] is the handle to the services of the connected process [pid]; its
    upper 32 bits do not count. *)
Definition admitted (A : pp_abs) (pid h : Z) (pr : proc) : Prop :=
  pa_procs A !! pid = Some pr ∧ HANDLE_TO_INDEX h = pr_handle pr - 1.

Inductive pp_step (A : pp_abs) : pp_op → pp_res → pp_abs → Prop :=
| t_again pid pr : pa_procs A !! pid = Some pr →
    pp_step A (PConnect pid) (PError PVRSRV_OK)
      (with_procs (<[pid := with_count (u32 (pr_count pr + 1)) pr]> (pa_procs A)) A)
| t_new pid pr i e : pa_procs A !! pid = None → newcomer A pr i e →
    pp_step A (PConnect pid) (PError PVRSRV_OK)
      (mkPA (<[pid := pr]> (pa_procs A)) (with_handles (<[i := e]> (sp_handles (pa_kernel A))) (pa_kernel A))
        (connect (pr_data pr) (pa_rm A)) (pa_live A + 1))
| t_refused pid err : pa_procs A !! pid = None → err ≠ PVRSRV_OK → pp_step A (PConnect pid) (PError err) A
| t_unknown pid : pa_procs A !! pid = None → pp_step A (PDisconnect pid) PUnit A
| t_left pid pr : pa_procs A !! pid = Some pr → u32 (pr_count pr - 1) ≠ 0 →
    pp_step A (PDisconnect pid) PUnit
      (with_procs (<[pid := with_count (u32 (pr_count pr - 1)) pr]> (pa_procs A)) A)
| t_last pid pr o rm : pa_procs A !! pid = Some pr → u32 (pr_count pr - 1) = 0 →
    disconnects (pr_ctx pr) false (ab_set_os o (pa_rm A)) rm →
    pp_step A (PDisconnect pid) PUnit
      (mkPA (delete pid (pa_procs A)) (drop_handle (pr_handle pr) (pa_kernel A)) rm
        (pa_live A + os_live (ab_os rm) - os_live o))
| t_services pid pr : pa_procs A !! pid = Some pr → pp_step A (PServices pid) (PServed (pr_handle pr)) A
| t_no_services pid : pa_procs A !! pid = None → pp_step A (PServices pid) PRefused A
| t_handle pid pr h op r t : admitted A pid h pr → hstep (pr_handles pr) op r t →
    pp_step A (PHandle pid h op) (PHandled r) (with_procs (<[pid := with_table t pr]> (pa_procs A)) A)
| t_register pid pr h ty pv u fn o rm i : admitted A pid h pr →
    rm_step (RRegister (pr_ctx pr) ty pv u fn) (ab_set_os o (pa_rm A)) (RItem i) rm →
    pp_step A (PRegister pid h ty pv u fn) (PItem i) (with_rm o rm A)
| t_refuse_handle pid h op : (∀ pr, ¬ admitted A pid h pr) → pp_step A (PHandle pid h op) PRefused A
| t_refuse_register pid h ty pv u fn : (∀ pr, ¬ admitted A pid h pr) →
    pp_step A (PRegister pid h ty pv u fn) PRefused A.

Inductive pp_steps : pp_abs → list pp_op → list pp_res → pp_abs → Prop :=
| pp_steps_nil A : pp_steps A [] [] A
| pp_steps_cons A op r A1 ops rs A2 :
    pp_step A op r A1 → pp_steps A1 ops rs A2 → pp_steps A (op :: ops) (r :: rs) A2.
End spec.

(** No table has more than [n] entries. *)
Definition pp_small (n : Z) (A : pp_abs) : Prop :=
  Z.of_nat (size (pa_procs A)) ≤ n ∧ Z.of_nat (size (sp_handles (pa_kernel A))) ≤ n ∧
  ∀ pid pr, pa_procs A !! pid = Some pr → Z.of_nat (size (sp_handles (pr_handles pr))) ≤ n.

Lemma pp_small_S n A : pp_small n A → pp_small (n + 1) A.
Proof. intros (?&?&Hs). split_and!; [lia..|]. intros pid pr Hp. specialize (Hs pid pr Hp). lia. Qed.

Lemma size_delete_le {V} (i : Z) (m : gmap Z V) : (size (delete i m) ≤ size m)%nat.
Proof. rewrite map_size_delete. destruct (m !! i); simpl; lia. Qed.

(** One process changes, and nothing else grows. *)
Lemma pp_small_update n A pid pr' k rm l :
  pp_small n A → (size (sp_handles k) ≤ S (size (sp_handles (pa_kernel A))))%nat →
  Z.of_nat (size (sp_handles (pr_handles pr'))) ≤ n + 1 →
  pp_small (n + 1) (mkPA (<[pid := pr']> (pa_procs A)) k rm l).
Proof.
  intros (?&?&Hs) Hk Hp. split_and!; simpl; [|lia|].
  - rewrite map_size_insert. destruct (_ !! _); simpl; lia.
  - intros q pr [[<- <-]|[? Hq]]%lookup_insert_Some; [done|]. specialize (Hs _ _ Hq). lia.
Qed.

(** ** Representation and steps *)

Lemma rep_count s A pid pr n :
  pp_rep s A → pa_procs A !! pid = Some pr →
  pp_rep (set_pp_data (<[pr_data pr := data_of pid (with_count n pr)]> (pp_data s)) s)
    (with_procs (<[pid := with_count n pr]> (pa_procs A)) A).
Proof.
  intros (g&Ho&Hok&Hk&Hr&Hl) Hp. exists g. split; [by apply owns_data|]. split; [by apply procs_count|]. done.
Qed.

Lemma rep_pos s A pid pr : pp_rep s A → pa_procs A !! pid = Some pr → 0 < pr_data pr.
Proof.
  intros (g&_&Hok&_) Hp. destruct (po_proc _ _ _ Hok _ _ Hp) as [_ Hd _ _ _ _].
  destruct (po_data _ _ _ Hok (pr_data pr) ltac:(eauto)). lia.
Qed.

Lemma wp_find s A pid : pp_rep s A →
  wp (HASH_Retrieve (pp_tab s) pid) (λ x s', s' = s ∧ x = default 0 (pr_data <$> pa_procs A !! pid)) s.
Proof.
  intros (g&Ho&Hok&_). eapply wp_mono; [by apply wp_tab_find|]. intros x s' [-> ->]. by rewrite (procs_tab _ _ _ _ Hok).
Qed.

Lemma rep_struct s A pid pr : pp_rep s A → pa_procs A !! pid = Some pr → pp_data s !! pr_data pr = Some (data_of pid pr).
Proof. intros (g&_&Hok&_) Hp. apply (po_proc _ _ _ Hok _ _ Hp). Qed.

Section steps.
Context {heap : HeapContents} {links : FreshLinks} {fns : FreeFns} {sp : FreeSpec} {law : FreeLaw}.

(** ** Calls of a process *)

Lemma wp_kernel_lookup s A h : pp_rep s A →
  wp (on_kernel (PVRSRVLookupHandle h PVRSRV_HANDLE_TYPE_PERPROC_DATA)) (λ r s', pp_rep s' A ∧ pp_data s' = pp_data s ∧
    (r.1 ≠ PVRSRV_OK ∧ (∀ pid pr, pa_procs A !! pid = Some pr → HANDLE_TO_INDEX h ≠ pr_handle pr - 1) ∨
     ∃ pid pr, r = (PVRSRV_OK, Some (pr_data pr)) ∧ pa_procs A !! pid = Some pr ∧ HANDLE_TO_INDEX h = pr_handle pr - 1)) s.
Proof.
  intros (g&Ho&Hok&Hk&Hrm&Hl). eapply wp_on_kernel; [exact Ho|]. intros b Hp. pose proof Hp as (_&_&km&Hc&_).
  pose proof (pcore_readable _ _ _ _ Hc) as Hrd. eapply wp_mono; [by apply wp_lookup|]. intros r st' [-> ->].
  split; [|split; [done|]].
  { exists g. split; [|split; [|done]]; [|eapply procs_frame; [exact Hok|done|simpl; lia|done..]].
    pose proof (owns_kernel _ _ _ _ Ho Hp) as Ho'. by destruct g. }
  unfold lookup_spec. destruct (get_spec _ _ h _) as [e i] eqn:Hg. simpl. destruct (decide (e = PVRSRV_OK)) as [->|He].
  - right. apply get_spec_ok in Hg as (->&_&en&[Hi Hn]&[?|Hty]); [done|].
    destruct (procs_handle _ _ _ _ _ Hok Hi (eq_sym Hty)) as (pid&pr&Hpr&Hh&Hd). exists pid, pr.
    rewrite Hi. simpl. rewrite Hd. split_and!; [done..|lia].
  - assert (is_OK e = false) as -> by (by destruct e). left. split; [done|]. intros pid pr Hpr Hix. apply He.
    destruct (be_handle _ _ _ _ (po_proc _ _ _ Hok _ _ Hpr)) as (en&Hi&Hty&_).
    pose proof (q_plain _ _ _ _ Hc _ _ Hi) as [Hpl Hir]. simpl in Hir. unfold get_spec in Hg. rewrite Hix, Hi in Hg.
    rewrite (proj2 (Z.leb_gt _ _)) in Hg by (simpl; lia).
    rewrite is_NONE_false, Hty in Hg by apply Hpl. simpl in Hg. by injection Hg as <- _.
Qed.

(** Two processes have different handles. *)
Lemma rep_handle_inj s A pid pid' pr pr' : pp_rep s A → pa_procs A !! pid = Some pr → pa_procs A !! pid' = Some pr' →
  pr_handle pr = pr_handle pr' → pid = pid'.
Proof.
  intros (g&_&Hok&_) Hp Hp' Hh. pose proof (be_handle _ _ _ _ (po_proc _ _ _ Hok _ _ Hp)) as (e&He&_&Hd).
  pose proof (be_handle _ _ _ _ (po_proc _ _ _ Hok _ _ Hp')) as (e'&He'&_&Hd'). rewrite Hh in He.
  eapply procs_inj; [exact Hok|exact Hp|exact Hp'|left; congruence].
Qed.

(** A caller gets its own structure, and only with its own handle. *)
Lemma wp_BridgeCaller s A pid h : pp_rep s A →
  wp (BridgeCaller pid false h) (λ o s', pp_rep s' A ∧ pp_data s' = pp_data s ∧
    match o with
    | Some x => ∃ pr, admitted A pid h pr ∧ x = pr_data pr
    | None => ∀ pr, ¬ admitted A pid h pr
    end) s.
Proof.
  intros Hr. unfold BridgeCaller. cbn [negb]. wp_step. eapply wp_mono; [by apply wp_kernel_lookup|].
  intros [e o] s1 (Hr1&Hd1&[[He Hno]|(q&pr&[= -> ->]&Hp&Hix)]).
  - simpl in He. assert (is_OK e = false) as -> by (by destruct e). cbn [negb]. wp_step. split_and!; [done..|].
    intros pr [Hp Hix]. by apply (Hno _ _ Hp).
  - cbn [is_OK negb]. wp_step. wp_step. wp_step. eapply wp_get_perproc; [by eapply rep_struct|]. simpl.
    destruct (Z.eqb_spec q pid) as [->|Hne]; cbn [negb]; wp_step; (split_and!; [done..|]).
    + by exists pr.
    + intros pr' [Hp' Hix']. apply Hne. eapply rep_handle_inj; [exact Hr|exact Hp|exact Hp'|lia].
Qed.

Lemma wp_connect_caller s A pid h : pp_rep s A →
  wp (BridgeCaller pid true h) (λ o s', s' = s ∧ o = pr_data <$> pa_procs A !! pid) s.
Proof.
  intros Hr. unfold BridgeCaller, PVRSRVPerProcessData. cbn [negb]. wp_step. wp_step. wp_step.
  eapply wp_mono; [by apply wp_find|]. intros x s' [-> ->]. destruct (pa_procs A !! pid) as [pr|] eqn:Hp; simpl.
  - pose proof (rep_pos _ _ _ _ Hr Hp) as Hpos. rewrite (proj2 (Z.eqb_neq (pr_data pr) IMG_NULL)) by (unfold IMG_NULL; lia).
    by wp_step.
  - by wp_step.
Qed.

Lemma wp_in_process s A pid h f Q : pp_rep s A →
  (∀ s', pp_rep s' A → (∀ pr, ¬ admitted A pid h pr) → Q PRefused s') →
  (∀ s' pr, pp_rep s' A → admitted A pid h pr → wp (p ← get_perproc (pr_data pr); f p) Q s') →
  wp (in_process pid false h (λ x, p ← get_perproc x; f p)) Q s.
Proof.
  intros Hr Hn Hf. unfold in_process. wp_step. eapply wp_mono; [by apply wp_BridgeCaller|].
  intros [x|] s' (Hr'&_&Ho); [|wp_step; by apply Hn]. destruct Ho as (pr&Ha&->). by apply Hf.
Qed.

Lemma wp_call s A pid h op : pp_rep s A → call_op op →
  (∀ pr, pa_procs A !! pid = Some pr → Z.of_nat (size (sp_handles (pr_handles pr))) < 134217728) →
  wp (run_pop (PHandle pid h op)) (λ r s', ∃ A', pp_step A (PHandle pid h op) r A' ∧ pp_rep s' A' ∧
    ∀ n, pp_small n A → pp_small (n + 1) A') s.
Proof.
  intros Hr Hop Hsz. eapply wp_in_process; [exact Hr|..]; clear s Hr.
  { intros s Hr Hno. exists A. split_and!; [by constructor|done|]. intros n. apply pp_small_S. }
  intros s pr Hr Ha. pose proof Ha as [Hp _]. wp_step. eapply wp_get_perproc; [by eapply rep_struct|].
  destruct Hr as (g&Ho&Hok&Hk&Hrm&Hl). pose proof (po_proc _ _ _ Hok _ _ Hp) as [B1 B2 B3 [n B4] B5 B6].
  wp_step. simpl. eapply wp_on_base; [exact Ho|exact B4|]. intros b Hb Hrep.
  eapply wp_mono; [apply (wp_run_hop _ _ _ op (Hrep (pp_os s))); [by destruct op|by apply Hsz]|].
  intros r st' (t&Hst&Him&Hsz'). destruct st' as [o' b']. apply base_rep_intro in Him. wp_step. simpl.
  set (n' := os_live o' - (os_live (pp_os s) - n + 3) + 3) in Him.
  eexists. split_and!; [by eapply t_handle| |].
  - exists (add_live (os_live o' - os_live (pp_os s)) (set_o_base (<[pr_base pr := (pr_data pr, t, n')]> (o_base g)) g)).
    split; [|split; [|split_and!; [done|done|]]].
    + apply owns_bases; [done|simpl; lia|apply bases_insert; [apply Ho|done]|].
      intros a Ha'. apply (w_base_old _ _ Ho). apply lookup_insert_is_Some' in Ha' as [<-|?]; eauto.
    + pose proof (procs_table _ _ _ _ _ t n' Hok Hp) as Hok'.
      eapply procs_frame; [exact Hok'|done|simpl; lia|done..].
    + simpl. rewrite (of_bases_replace _ _ _ _ B4), Hl. simpl. unfold n'. lia.
  - intros m Hs. apply pp_small_update; [done|lia|]. pose proof (proj2 (proj2 Hs) _ _ Hp). simpl. lia.
Qed.

Lemma wp_register s A pid h ty pv u fn : pp_rep s A →
  wp (run_pop (PRegister pid h ty pv u fn)) (λ r s', ∃ A', pp_step A (PRegister pid h ty pv u fn) r A' ∧ pp_rep s' A' ∧
    ∀ n, pp_small n A → pp_small (n + 1) A') s.
Proof.
  intros Hr. eapply wp_in_process; [exact Hr|..]; clear s Hr.
  { intros s Hr Hno. exists A. split_and!; [by constructor|done|]. intros n. apply pp_small_S. }
  intros s pr Hr Ha. pose proof Ha as [Hp _]. wp_step. eapply wp_get_perproc; [by eapply rep_struct|].
  destruct Hr as (g&Ho&Hok&Hk&Hrm&Hl). pose proof (po_proc _ _ _ Hok _ _ Hp) as [B1 B2 B3 [n B4] B5 B6].
  wp_step. simpl. eapply wp_mono; [eapply wp_rm_register; [exact Ho|by eexists]|].
  intros i s' (rm&Hst&Hpp&Hd&Hn&Ho'). wp_step. rewrite Hrm in Hst. eexists. split_and!; [by eapply t_register| |].
  - eexists. split; [exact Ho'|]. split_and!; [|done|done|simpl; lia].
    eapply procs_frame; [exact Hok|done|lia|done..].
  - intros m Hs. apply pp_small_S in Hs. exact Hs.
Qed.

Lemma wp_services s A pid : pp_rep s A →
  wp (run_pop (PServices pid)) (λ r s', ∃ A', pp_step A (PServices pid) r A' ∧ pp_rep s' A' ∧
    ∀ n, pp_small n A → pp_small (n + 1) A') s.
Proof.
  intros Hr. simpl. unfold in_process. wp_step. eapply wp_mono; [by apply wp_connect_caller|]. intros o s' [-> ->].
  destruct (pa_procs A !! pid) as [pr|] eqn:Hp; simpl.
  - unfold PVRSRVConnectBW. wp_step. wp_step. eapply wp_get_perproc; [by eapply rep_struct|]. wp_steps.
    exists A. split_and!; [by eapply t_services|done|]. intros n. apply pp_small_S.
  - wp_step. exists A. split_and!; [by apply t_no_services|done|]. intros n. apply pp_small_S.
Qed.

(** ** Connecting *)

Lemma stage_newcomer s g A a b i e s' pid :
  pp_rep s A → owns s g → procs_ok s g (pa_procs A) → o_kernel g = pa_kernel A → o_rm g = pa_rm A →
  at_stage s g (pp_next s) pid 4 a b i e s' →
  newcomer A (mkProc (pp_next s) 1 (i + 1) (ab_next (pa_rm A)) b a fresh_spec) i e.
Proof.
  intros Hr Ho Hok Hk Hrm [[N1 N2 N3 N4] _ _ _ _].
  destruct (N2 ltac:(lia)) as [Ha Ha0], (N3 ltac:(lia)) as (Hi&Hi0&Hty&Hda), (N4 ltac:(lia)) as [Hb Hb0].
  split; simpl; try done; [by rewrite <- Hk|].
  split_and!; intros (q&pr&Hq&He); destruct (po_proc _ _ _ Hok _ _ Hq) as [C1 C2 C3 [n C4] C5 C6].
  - destruct (po_data _ _ _ Hok (pr_data pr) ltac:(eauto)). lia.
  - congruence.
  - congruence.
  - pose proof (wf_perproc _ (rep_wf _ _ _ (w_rm _ _ Ho)) (pr_ctx pr) ltac:(simpl; eauto)) as Hw. simpl in Hw.
    rewrite Hrm in Hw. lia.
Qed.

(** An address that is not used yet has no handle. *)
Lemma procs_no_handle s g procs : procs_ok s g procs → pp_next s < 18446744073709551616 → no_handle (o_kernel g) (pp_next s).
Proof.
  intros Hok H64 i e (Hi&_&Hkey). unfold ent_key, InitKey in Hkey. injection Hkey as Hu Hty _.
  apply (HANDLE_TYPE_code_inj _ PVRSRV_HANDLE_TYPE_PERPROC_DATA) in Hty. destruct (procs_handle _ _ _ _ _ Hok Hi Hty) as (pid&pr&Hp&_&Hd).
  pose proof (be_data _ _ _ _ (po_proc _ _ _ Hok _ _ Hp)) as Hx.
  destruct (po_data _ _ _ Hok (pr_data pr) ltac:(eauto)) as [Hr _]. unfold u64 in Hu. rewrite Hd, !Z.mod_small in Hu by lia. lia.
Qed.

(** A process that is not connected yet. *)
Lemma wp_connect_new s A pid : pp_rep s A → pid ≠ 0 → pa_procs A !! pid = None →
  Z.of_nat (size (pa_procs A)) < 134217728 → Z.of_nat (size (sp_handles (pa_kernel A))) < 134217728 →
  wp (new_process pid) (λ r s',
    (∃ pr i e, r = (PVRSRV_OK, pr_data pr) ∧ newcomer A pr i e ∧
      pp_rep s' (mkPA (<[pid := with_count 0 pr]> (pa_procs A)) (with_handles (<[i := e]> (sp_handles (pa_kernel A))) (pa_kernel A))
        (connect (pr_data pr) (pa_rm A)) (pa_live A + 1))) ∨
    r.1 ≠ PVRSRV_OK ∧ pp_rep s' A ∧
      (pp_next s < 18446744073709551616 → full (pa_kernel A) ∨ ¬ plenty (pp_os s))) s.
Proof.
  intros Hr Hpid Hp Hsz Hszk. pose proof Hr as (g&Ho&Hok&Hk&Hrm&Hl).
  assert (pp_data s !! pp_next s = None) as Hnew.
  { destruct (pp_data s !! pp_next s) eqn:Hx; [|done]. destruct (po_data _ _ _ Hok (pp_next s) ltac:(eauto)). lia. }
  assert (∀ q, pa_procs A !! q = None → o_tab g !! q = None) as Htab.
  { intros q Hq. by rewrite (procs_tab _ _ _ _ Hok), Hq. }
  eapply wp_mono.
  { apply (wp_new_process s g pid Ho Hnew (Htab _ Hp) (Htab _ (po_zero _ _ _ Hok))).
    - by rewrite (procs_size _ _ _ Hok).
    - by rewrite Hk. }
  intros r s' [(->&a&b&i&e&Hst)|((Hr1&Ho'&Hd&Hn&Hpl)&Hwhy)].
  - left. exists (mkProc (pp_next s) 1 (i + 1) (ab_next (pa_rm A)) b a fresh_spec), i, e.
    split; [done|]. split; [by eapply stage_newcomer|]. pose proof (ag_owns _ _ _ _ _ _ _ _ _ _ Hst) as Ho'.
    pose proof (w_next _ _ Ho). exists (built g (pp_next s) pid a b i e 4). split; [exact Ho'|].
    pose proof Hst as [[_ _ _ N4] _ Hd' Hn' _]. destruct (N4 ltac:(lia)) as [Hb _].
    split; [|split_and!; simpl; [by rewrite Hk|by rewrite Hrm|rewrite of_bases_insert by done; simpl; lia]].
    simpl. rewrite <- Hrm. eapply (procs_new s); try done; [|lia|].
    + lia.
    + intros y Hy ->. pose proof (wf_perproc _ (rep_wf _ _ _ (w_rm _ _ Ho)) _ Hy) as Hw. simpl in Hw. lia.
  - right. split; [done|]. split; [|intros H64; rewrite <- Hk; by eapply Hwhy, procs_no_handle]. exists g. split; [done|]. split; [|done].
    eapply procs_frame; [exact Hok|done|lia|done..].
Qed.

Definition tables_fit (A : pp_abs) : Prop := pp_small 134217727 A.

Lemma wp_connect s A pid : pp_rep s A → pid ≠ 0 → tables_fit A →
  wp (PVRSRVPerProcessDataConnect pid) (λ err s', ∃ A', pp_step A (PConnect pid) (PError err) A' ∧ pp_rep s' A' ∧
    (∀ n, pp_small n A → pp_small (n + 1) A') ∧
    (err ≠ PVRSRV_OK → pp_next s < 18446744073709551616 → full (pa_kernel A) ∨ ¬ plenty (pp_os s))) s.
Proof.
  intros Hr Hpid (Hs1&Hs2&_). unfold PVRSRVPerProcessDataConnect. wp_step. wp_step.
  destruct (pp_tab s) as [tab|] eqn:Ht; [|by destruct Hr as (g&[_ (?&Hx&_) _ _ _ _ _ _]&_); congruence].
  rewrite <- Ht. wp_step. eapply wp_mono; [by apply wp_find|]. intros x s1 [-> ->].
  destruct (pa_procs A !! pid) as [pr|] eqn:Hp; cbn [fmap option_fmap option_map default id].
  - pose proof (rep_pos _ _ _ _ Hr Hp) as Hpos. rewrite (proj2 (Z.eqb_neq (pr_data pr) IMG_NULL)) by (unfold IMG_NULL; lia).
    wp_step. wp_step. cbn [is_OK negb]. wp_step. eapply wp_upd_perproc; [by eapply rep_struct|]. wp_step.
    eexists. split_and!; [by apply t_again|by apply rep_count| |done].
    intros n Hs. apply pp_small_update; [done|lia|]. simpl. pose proof (proj2 (proj2 Hs) _ _ Hp). lia.
  - rewrite (proj2 (Z.eqb_eq _ _)) by done. wp_step. eapply wp_mono; [apply wp_connect_new; [done..|lia|lia]|].
    intros [err x] s1 [(pr&i&e&[= -> ->]&Hnc&Hr1)|(He&Hr1&Hwhy)].
    + cbn [is_OK negb]. wp_step.
      set (A1 := mkPA _ _ _ _) in Hr1. assert (pa_procs A1 !! pid = Some (with_count 0 pr)) as Hp1 by apply lookup_insert_eq.
      eapply wp_upd_perproc; [exact (rep_struct _ _ _ _ Hr1 Hp1)|]. wp_step.
      apply (rep_count _ _ _ _ (u32 (0 + 1)) Hr1) in Hp1. unfold with_procs, A1 in Hp1. simpl in Hp1.
      rewrite insert_insert_eq in Hp1.
      assert (with_count (u32 (0 + 1)) (with_count 0 pr) = pr) as Hpr.
      { destruct Hnc as [Hc _ _ _ _ _ _ _]. destruct pr. simpl in *. by subst. }
      change (with_count 1 (with_count 0 pr)) with (with_count (u32 (0 + 1)) (with_count 0 pr)) in Hp1. rewrite Hpr in Hp1.
      eexists. split_and!; [by eapply t_new| | |done].
      * change (set_ui32RefCount _ _) with (data_of pid (with_count (u32 (0 + 1)) (with_count 0 pr))). by rewrite Hpr.
      * intros n Hs. apply pp_small_update; [done| |].
        2:{ rewrite (nc_handles _ _ _ _ Hnc). change (sp_handles fresh_spec) with (∅ : gmap Z ent).
            rewrite map_size_empty. destruct Hs. lia. }
        simpl. rewrite map_size_insert_None by apply Hnc. lia.
    + simpl in He. assert (is_OK err = false) as -> by (by destruct err). cbn [negb]. wp_step.
      exists A. split_and!; [by apply t_refused|done| |done]. intros n. apply pp_small_S.
Qed.

(** ** Disconnecting *)

Lemma wp_purge_rep s A : pp_rep s A → wp (on_kernel PVRSRVPurgeHandles) (λ _ s', pp_rep s' A ∧ calm s s') s.
Proof.
  intros (g&Ho&Hok&Hx). eapply wp_mono; [by apply wp_purge_kernel|]. intros _ s' [Hc Ho']. split; [|done].
  destruct Hc as (Hd&Hn&_). exists g. split; [done|]. split; [|done]. eapply procs_frame; [exact Hok|done..].
Qed.

Lemma procs_freeable s g procs pid pr : procs_ok s g procs → procs !! pid = Some pr → freeable g (pr_data pr) (data_of pid pr).
Proof.
  intros Hok Hp. destruct (po_proc _ _ _ Hok _ _ Hp) as [B1 B2 B3 [n B4] B5 B6].
  split; right; simpl; [by eexists _, _|done|by eexists].
Qed.

(** The last connection of a process: its resources, then all it is made of. *)
Lemma wp_gone s A pid pr : pp_rep s A → pa_procs A !! pid = Some pr →
  wp (on_resman (PVRSRVResManDisconnect (pr_ctx pr) false);; FreePerProcessData (pr_data pr)) (λ r s', r = PVRSRV_OK ∧
    ∃ rm, disconnects (pr_ctx pr) false (ab_set_os (pp_os s) (pa_rm A)) rm ∧
      pp_rep s' (mkPA (delete pid (pa_procs A)) (drop_handle (pr_handle pr) (pa_kernel A)) rm
        (pa_live A + os_live (ab_os rm) - os_live (pp_os s)))) s.
Proof.
  intros Hr Hp. pose proof (rep_pos _ _ _ _ Hr Hp) as Hpos. destruct Hr as (g&Ho&Hok&Hk&Hrm&Hl).
  pose proof (po_proc _ _ _ Hok _ _ Hp) as [B1 B2 B3 [n B4] B5 B6].
  wp_step. eapply wp_mono; [eapply wp_rm_disconnect; [exact Ho|by eexists]|].
  intros _ s1 (rm&Hdis&Hpp&Hd1&Hn1&Ho1). eapply wp_mono.
  { eapply wp_FreePerProcessData; [exact Ho1|by rewrite Hd1|lia|].
    destruct (procs_freeable _ _ _ _ _ Hok Hp) as [F1 F2 F3]. by split. }
  intros r s2 (->&Hd2&Hn2&_&Ho2). split; [done|]. exists rm. rewrite <- Hrm. split; [done|].
  eexists. split; [exact Ho2|]. split_and!.
  - eapply procs_frame; [eapply (procs_gone s g _ pid pr s2 rm)|..]; simpl; try done; [congruence|lia].
  - simpl. by rewrite Hk.
  - done.
  - unfold released, blocks. simpl. rewrite B1, B3, B4, Hl, (of_bases_delete _ _ _ B4). simpl. lia.
Qed.

Lemma wp_disconnect s A pid : pp_rep s A →
  wp (PVRSRVPerProcessDataDisconnect pid) (λ _ s', ∃ A', pp_step A (PDisconnect pid) PUnit A' ∧ pp_rep s' A' ∧
    ∀ n, pp_small n A → pp_small (n + 1) A') s.
Proof.
  intros Hr. unfold PVRSRVPerProcessDataDisconnect. wp_step. wp_step. wp_step.
  eapply wp_mono; [by apply wp_find|]. intros x s1 [-> ->]. wp_step.
  apply wp_mono with (Q := λ _ s', ∃ A', pp_step A (PDisconnect pid) PUnit A' ∧ pp_rep s' A' ∧
    ∀ n, pp_small n A → pp_small (n + 1) A').
  2:{ intros _ s1 (A'&Hst&Hr'&Hs). wp_step. eapply wp_mono; [by apply wp_purge_rep|]. intros _ s2 [Hr2 _]. wp_step. eauto. }
  destruct (pa_procs A !! pid) as [pr|] eqn:Hp; cbn [fmap option_fmap option_map default id].
  2:{ rewrite (proj2 (Z.eqb_eq _ _)) by done. wp_step. exists A. split_and!; [by apply t_unknown|done|]. intros n. apply pp_small_S. }
  pose proof (rep_pos _ _ _ _ Hr Hp) as Hpos. rewrite (proj2 (Z.eqb_neq (pr_data pr) IMG_NULL)) by (unfold IMG_NULL; lia).
  set (c := u32 (pr_count pr - 1)). wp_step. eapply wp_upd_perproc; [by eapply rep_struct|].
  pose proof (rep_count _ _ _ _ c Hr Hp) as Hr1. simpl. change (set_ui32RefCount _ _) with (data_of pid (with_count c pr)).
  set (s1 := set_pp_data _ s) in *. set (A1 := with_procs _ A) in Hr1.
  assert (pa_procs A1 !! pid = Some (with_count c pr)) as Hp1 by apply lookup_insert_eq.
  wp_step. eapply wp_get_perproc; [exact (rep_struct _ _ _ _ Hr1 Hp1)|]. simpl.
  destruct (Z.eqb_spec c 0) as [Hc|Hc].
  - pose proof (wp_gone s1 A1 pid _ Hr1 Hp1) as Hg. apply wp_bind_inv in Hg. wp_step. eapply wp_mono; [exact Hg|].
    intros [] s2 Hg2. wp_step. eapply wp_mono; [exact Hg2|]. intros r s3 (_&rm&Hdis&Hr3). wp_step.
    unfold A1, with_procs in Hr3. simpl in Hr3. rewrite delete_insert_eq in Hr3.
    eexists. split_and!; [by eapply t_last|exact Hr3|].
    intros n (Hs1&Hs2&Hs3). split_and!; simpl.
    + pose proof (size_delete_le pid (pa_procs A)). lia.
    + pose proof (size_delete_le (pr_handle pr - 1) (sp_handles (pa_kernel A))). lia.
    + intros q pr' [_ Hq]%lookup_delete_Some. specialize (Hs3 q pr' Hq). lia.
  - wp_step. eexists. split_and!; [by eapply t_left|exact Hr1|].
    intros n Hs. apply pp_small_update; [done|lia|]. pose proof (proj2 (proj2 Hs) _ _ Hp). simpl. lia.
Qed.

(** ** Runs *)

Lemma wp_run_pop s A op : pp_rep s A → pp_pre op → tables_fit A →
  wp (run_pop op) (λ r s', ∃ A', pp_step A op r A' ∧ pp_rep s' A' ∧ ∀ n, pp_small n A → pp_small (n + 1) A') s.
Proof.
  intros Hr Hpre Hfit. destruct op as [pid|pid|pid|pid h op|pid h ty pv u fn].
  - simpl. wp_step. eapply wp_mono; [by apply wp_connect|]. intros e s' (A'&?&?&?&_). wp_step. eauto.
  - simpl. wp_step. eapply wp_mono; [by apply wp_disconnect|]. intros _ s' (A'&?&?&?). wp_step. eauto.
  - by apply wp_services.
  - apply wp_call; [done..|]. intros pr Hp. pose proof (proj2 (proj2 Hfit) _ _ Hp). lia.
  - by apply wp_register.
Qed.

Lemma wp_run_pops n ops s A : pp_rep s A → Forall pp_pre ops → pp_small n A → n + Z.of_nat (length ops) ≤ 134217728 →
  wp (run_pops ops) (λ rs s', ∃ A', pp_steps A ops rs A' ∧ pp_rep s' A') s.
Proof.
  intros Hr Hops. revert n s A Hr. induction Hops as [|op ops Hop _ IH]; intros n s A Hr Hsm Hlen; simpl in *.
  { wp_step. exists A. split; [constructor|done]. }
  assert (tables_fit A) as Hfit.
  { destruct Hsm as (?&?&Hs). split_and!; [lia..|]. intros pid pr Hp. specialize (Hs pid pr Hp). lia. }
  wp_step. eapply wp_mono; [by apply wp_run_pop|]. intros r s1 (A1&Hst&Hr1&Hs1). wp_step.
  eapply wp_mono; [apply (IH (n + 1) s1 A1 Hr1); [by apply Hs1|lia]|]. intros rs s2 (A2&Hst2&Hr2). wp_step.
  exists A2. split; [by econstructor|done].
Qed.
End steps.
