(* ===== verification/PerProcProps.v ===== *)
(** * The connected processes: from the start of the driver to its end, and properties *)

From S2P Require Import Prelude Hash Handle HandleRep HandleInv HandleOps HandleFree HandleAlloc HandleTake.
From S2P Require Import HandleApi HandleLook HandleLife HandleSys HandleProps HandlePurge HandleKernel Lists.
From S2P Require Import ResMan ResManRep ResManOps ResManApi ResManQuiet ResManProps PerProc PerProcRep.
From S2P Require Import PerProcTop PerProcApi.

(** Before [PVRSRVInit]. *)
Definition pp_boot (o : os) : pp_st := mkPP o 1 None ∅ ∅ None ∅ (rm_boot o).

Definition first_abs (o : os) : pp_abs := mkPA ∅ fresh_spec (ab_empty o 1) (os_live o).

(** The driver starts, its clients run, and it stops. *)
Definition run_driver {heap : HeapContents} {links : FreshLinks} {fns : FreeFns} (ops : list pp_op) :
    M pp_st (PVRSRV_ERROR * list pp_res) :=
  eError ← init_processes;
  if negb (is_OK eError) then mret (eError, [])
  else rs ← run_pops ops; deinit_processes;; mret (PVRSRV_OK, rs).

(** ** Stopping *)

Section stop.
Context {heap : HeapContents}.

Definition table_blocks (t : option HASH_TABLE) : Z := match t with Some _ => 2 | None => 0 end.

(** What is made so far of the three parts, and the blocks it has. *)
Definition started (s : pp_st) (L : Z) : Prop :=
  let others := L + table_blocks (pp_tab s) + (if gpsResList (pp_rm s) then 1 else 0) in
  match pp_kernel s with
  | Some _ => ∃ k, kernel_ok (others + 3) (mk_kernel (pp_os s) (pp_kernel s)) k
  | None => os_live (pp_os s) = others
  end.

Lemma wp_stop s L : started s L →
  wp deinit_processes (λ _ s', os_live (pp_os s') = L ∧ pp_data s' = pp_data s ∧ pp_private s' = pp_private s ∧
    pp_bases s' = pp_bases s) s.
Proof.
  intros Hk. unfold started in Hk. unfold deinit_processes. wp_step.
  apply wp_mono with (Q := λ _ s', os_live (pp_os s') = L + table_blocks (pp_tab s) + (if gpsResList (pp_rm s) then 1 else 0) ∧
    pp_tab s' = pp_tab s ∧ pp_rm s' = pp_rm s ∧ pp_data s' = pp_data s ∧ pp_private s' = pp_private s ∧ pp_bases s' = pp_bases s).
  { unfold on_handles. wp_step. destruct (pp_kernel s) as [b|] eqn:Hb.
    - destruct Hk as [k Hk]. eapply wp_mono; [by eapply wp_PVRSRVHandleDeInit|]. intros r k' (_&_&Hl&_). simpl.
      split_and!; [lia|done..].
    - unfold PVRSRVHandleDeInit. wp_steps. simpl. wp_step. simpl. by split_and!. }
  intros _ s1 (Hl&Ht&Hr&Hd&Hp&Hb). unfold PVRSRVPerProcessDataDeInit. wp_step. wp_step. wp_step. rewrite Ht. wp_step.
  apply wp_mono with (Q := λ _ s', os_live (pp_os s') = L + (if gpsResList (pp_rm s) then 1 else 0) ∧
    pp_rm s' = pp_rm s ∧ pp_data s' = pp_data s ∧ pp_private s' = pp_private s ∧ pp_bases s' = pp_bases s).
  { unfold table_blocks in Hl. destruct (pp_tab s) as [t|].
    - wp_step. unfold on_memory. wp_step. unfold HASH_Delete. wp_step. apply wp_OSFreeMem, wp_OSFreeMem. wp_step. simpl.
      split_and!; [lia|done..].
    - wp_step. split_and!; [lia|done..]. }
  intros _ s2 (Hl2&Hr2&Hd2&Hp2&Hb2). wp_step. unfold on_resman. wp_step. unfold ResManDeInit. wp_step. wp_step. simpl. rewrite Hr2.
  destruct (gpsResList (pp_rm s)); wp_steps; simpl.
  - unfold with_rm_os. wp_step. apply wp_OSFreeMem. wp_steps. simpl. split_and!; [lia|done..].
  - split_and!; [lia|done..].
Qed.

Lemma owns_started s g L : owns s g → o_live g = L + 6 → started s L.
Proof.
  intros Ho Hl. pose proof (w_kernel _ _ Ho) as Hker. pose proof (w_tab _ _ Ho) as (tab&Ht&_).
  pose proof (rep_list _ _ _ (w_rm _ _ Ho)) as Hrl. simpl in Hrl. unfold started. rewrite Ht, Hrl.
  destruct (pp_kernel s) as [b|]; [|by destruct Hker as (?&?&_)]. exists (o_kernel g).
  eapply kernel_ok_live; [exact Hker|]. simpl. lia.
Qed.

Lemma no_bases s g procs : procs_ok s g procs → procs = ∅ → of_bases (o_base g) = 0.
Proof.
  intros Hok ->. assert (o_base g = ∅) as ->; [|by unfold of_bases; rewrite map_fold_empty].
  apply map_empty. intros a. destruct (o_base g !! a) eqn:Ha; [|done].
  destruct (po_base _ _ _ Hok a ltac:(eauto)) as (q&pr&Hq&_). by rewrite lookup_empty in Hq.
Qed.

(** Stopping never faults; when nobody is connected it gives everything back. *)
Lemma wp_stop_any s A : pp_rep s A →
  wp deinit_processes (λ _ s', pa_procs A = ∅ → os_live (pp_os s') = pa_live A ∧ pp_data s' = pp_data s ∧
    pp_private s' = pp_private s ∧ pp_bases s' = pp_bases s) s.
Proof.
  intros (g&Ho&Hok&_&_&Hl).
  eapply wp_mono; [apply (wp_stop s (pa_live A + of_bases (o_base g)))|].
  - eapply owns_started; [exact Ho|lia].
  - intros _ s' (Hl'&?) Hp. split; [|done]. rewrite Hl', (no_bases _ _ _ Hok Hp). lia.
Qed.

(** Nothing is left of processes that are gone. *)
Lemma rep_nobody s A : pp_rep s A → pa_procs A = ∅ → pp_data s = ∅ ∧ pp_private s = ∅ ∧ pp_bases s = ∅.
Proof.
  intros (g&Ho&Hok&_) Hp. assert (∀ f v, ¬ named (pa_procs A) f v) as Hno.
  { intros f v (q&pr&Hq&_). by rewrite Hp in Hq. }
  split_and!.
  - apply map_empty. intros x. destruct (pp_data s !! x) eqn:Hx; [|done].
    destruct (po_data _ _ _ Hok x ltac:(eauto)) as [_ Hn]. by destruct (Hno _ _ Hn).
  - rewrite (w_priv _ _ Ho). apply dom_empty_iff_L, map_empty. intros x. destruct (o_priv g !! x) eqn:Hx; [|done].
    by destruct (Hno _ _ (po_priv _ _ _ Hok x ltac:(eauto))).
  - apply map_empty. intros x. pose proof (w_base _ _ Ho x) as Hb. destruct (pp_bases s !! x); [|done].
    destruct (o_base g !! x) eqn:Hx; [|done]. by destruct (Hno _ _ (po_base _ _ _ Hok x ltac:(eauto))).
Qed.

(** ** Starting *)

Context {links : FreshLinks} {fns : FreeFns}.

Lemma wp_failed s L err : err ≠ PVRSRV_OK → started s L →
  wp (deinit_processes;; mret err) (λ e s', e ≠ PVRSRV_OK ∧ os_live (pp_os s') = L) s.
Proof. intros He Hs. wp_step. eapply wp_mono; [by apply wp_stop|]. intros _ s' (Hl&_). by wp_step. Qed.

Lemma take_live o : os_live (snd (take_block o)) = os_live o + Z.b2z (fst (take_block o)) ∧
  (plenty o → fst (take_block o) = true ∧ plenty (snd (take_block o))).
Proof. apply take_block_spec. by destruct (take_block o). Qed.

(** The process table and the kernel's base, the resource manager being there. *)
Lemma wp_init_table s L : os_live (pp_os s) = L + 1 → pp_tab s = None → gpsResList (pp_rm s) = true → pp_kernel s = None →
  wp PVRSRVPerProcessDataInit (λ e s', started s' L ∧ (plenty (pp_os s) → e = PVRSRV_OK ∧ plenty (pp_os s')) ∧
    ∃ o t, s' = set_pp_tab t (set_pp_os o s) ∧ (e = PVRSRV_OK → os_live o = L + 3 ∧ table_ok t ∅)) s.
Proof.
  intros Hl Ht Hr Hk. unfold PVRSRVPerProcessDataInit, on_memory. wp_step. wp_step. eapply wp_mono.
  { apply (wp_HASH_Create_Extended HASH_TAB_INIT_SIZE sizeof_UINTPTR); [done|]. intros h _. apply comp_ok_default. }
  intros r o ([Ho Hp]&Hsome&Hh). wp_steps. unfold started, table_blocks. simpl. rewrite Hr, Hk. destruct r as [t|].
  - split; [lia|]. split; [auto|]. exists o, (Some t). split; [done|]. intros _. split; [lia|].
    destruct (Hh t eq_refl) as (Hwf&Hc&Hks). exists t. split; [done|]. split; [by apply hash_rep_empty|done].
  - split; [lia|]. split; [intros Hpl; by destruct (Hsome Hpl)|]. exists o, None. split; [done|discriminate].
Qed.

Lemma wp_init o :
  wp init_processes (λ e s, (e = PVRSRV_OK ∧ pp_rep s (first_abs o) ∧ (plenty o → plenty (pp_os s))) ∨
    e ≠ PVRSRV_OK ∧ os_live (pp_os s) = os_live o ∧ ¬ plenty o) (pp_boot o).
Proof.
  destruct (take_live o) as [Hl0 Hp0]. unfold init_processes. wp_step. unfold on_resman at 1. wp_step. simpl.
  eapply wp_mono; [apply (wp_ResManInit o)|]. intros e r [(->&Hb&Hr)|(->&Hb&Hlist&Hos)]; cbn [is_OK negb].
  2:{ eapply wp_mono; [apply (wp_failed _ (os_live o)); [done|]|].
      - unfold started, table_blocks. simpl. rewrite Hlist, Hos, Hl0, Hb. simpl. lia.
      - intros e s' [He Hl]. right. split_and!; [done..|]. intros Hp%Hp0. destruct Hp. congruence. }
  pose proof (rep_os _ _ _ Hr) as Hos. pose proof (rep_list _ _ _ Hr) as Hlist. simpl in Hos. rewrite Hb in Hl0, Hp0. simpl in Hl0.
  set (s1 := set_pp_os _ _). assert (pp_os s1 = snd (take_block o)) as Hs1 by done.
  wp_step. eapply wp_mono; [apply (wp_init_table s1 (os_live o)); try done; rewrite Hs1; lia|].
  rewrite Hs1. intros e s2 (Hst&Hpl2&o2&t&->&Htab). destruct (decide (e = PVRSRV_OK)) as [->|He].
  2:{ assert (is_OK e = false) as -> by (by destruct e). cbn [negb]. eapply wp_mono; [by apply (wp_failed _ (os_live o))|].
      intros e' s' [He' Hl]. right. split_and!; [done..|]. intros Hp. by destruct He, (Hpl2 (proj2 (Hp0 Hp))). }
  destruct (Htab eq_refl) as [Hl2 Ht]. cbn [is_OK negb]. wp_step. unfold on_handles. wp_step. simpl.
  eapply wp_mono; [apply wp_PVRSRVHandleInit|]. intros e k [(->&Hk&Hplk)|(He&Hk&Hlk&Hno)].
  2:{ assert (is_OK e = false) as -> by (by destruct e). cbn [negb]. eapply wp_mono; [apply (wp_failed _ (os_live o)); [done|]|].
      - destruct Ht as (tab&->&_). unfold started, table_blocks. simpl. rewrite Hk, Hlist. lia.
      - intros e' s' [He' Hl]. right. split_and!; [done..|]. intros Hp. apply Hno. by apply Hpl2, Hp0. }
  cbn [is_OK negb]. wp_step. left. split; [done|]. split; [|intros Hp; apply Hplk; by apply Hpl2, Hp0].
  exists (mkOwn ∅ ∅ ∅ fresh_spec (ab_empty o 1) (os_live o2 + 3)). split; [|split; [|split_and!; [done..|]]].
  - split; simpl; try done.
    + intros a [? Ha]. by rewrite lookup_empty in Ha.
    + intros a [? Ha]. by rewrite lookup_empty in Ha.
    + by apply (rep_os_step _ _ _ (k_os k)) in Hr.
  - split; simpl; try done; first [intros ? [? Hx]; by rewrite lookup_empty in Hx|intros ?? Hx; by rewrite lookup_empty in Hx].
  - simpl. unfold of_bases. rewrite map_fold_empty. lia.
Qed.

Context {sp : FreeSpec} {law : FreeLaw}.

(** A run of the driver. *)
Lemma wp_run_driver ops o : Forall pp_pre ops → Z.of_nat (length ops) ≤ 134217728 →
  wp (run_driver ops) (λ r s,
    (r.1 = PVRSRV_OK ∧ ∃ A, pp_steps (first_abs o) ops r.2 A ∧
      (pa_procs A = ∅ → os_live (pp_os s) = pa_live A ∧ pp_data s = ∅ ∧ pp_private s = ∅ ∧ pp_bases s = ∅)) ∨
    r.1 ≠ PVRSRV_OK ∧ ¬ plenty o ∧ r.2 = [] ∧ os_live (pp_os s) = os_live o) (pp_boot o).
Proof.
  intros Hops Hlen. unfold run_driver. wp_step. eapply wp_mono; [apply wp_init|].
  intros e s [(->&Hr&_)|(He&Hl&Hno)].
  2:{ assert (is_OK e = false) as -> by (by destruct e). cbn [negb]. wp_step. right. by split_and!. }
  cbn [is_OK negb]. wp_step. eapply wp_mono; [apply (wp_run_pops 0 ops s _ Hr Hops)|]; [|simpl; lia|].
  { split_and!; [done..|]. intros pid pr Hp. simpl in Hp. by rewrite lookup_empty in Hp. }
  intros rs s1 (A&Hst&Hr1). wp_step. eapply wp_mono.
  { apply (wp_stop_any s1 A Hr1). }
  intros [] s2 Hs2. wp_step. left. split; [done|]. exists A. split; [done|]. intros Hp.
  destruct (Hs2 Hp) as (Hl&->&->&->). split; [done|]. by apply (rep_nobody _ A).
Qed.
End stop.

(** ** A context without items *)

Section empty.
Context {sp : FreeSpec}.

Lemma frees_empty P c exec a e a' : ab_owned a !! c = Some [] → frees P c exec a e a' → a' = a.
Proof.
  intros Hc H. assert (matching P a c = []) as Hm by (unfold matching; by rewrite Hc).
  by destruct H as [a _|a i r it e a' Hx|a i r it a' e a'' Hx]; [|congruence..].
Qed.

Lemma frees_types_empty c ts a a' : ab_owned a !! c = Some [] → frees_types c ts a a' → a' = a.
Proof.
  intros Hc H. induction H as [a|t ts a e a1 a2 Hf _ IH]; [done|].
  apply frees_empty in Hf as ->; [|done]. by apply IH.
Qed.

Lemma turn_empty c a : ab_owned a !! c = Some [] → turn c a = a.
Proof.
  intros Hc. unfold turn, ab_set_owned. rewrite alter_id; [by destruct a|]. intros l Hl. by simplify_eq.
Qed.

Lemma disconnects_empty c a a' : ab_owned a !! c = Some [] → disconnects c false a a' → a' = close c a.
Proof.
  intros Hc H. inversion H as [|? a1 a2 a3 H1 H2 H3]; subst.
  apply frees_types_empty in H1 as ->; [|done]. rewrite turn_empty in H2 by done.
  apply frees_types_empty in H2 as ->; [|done]. rewrite turn_empty in H3 by done.
  by apply frees_types_empty in H3 as ->.
Qed.
End empty.

(** The next context is new. *)
Lemma rep_new_context s A : pp_rep s A → ab_owned (pa_rm A) !! ab_next (pa_rm A) = None.
Proof.
  intros (g&Ho&_&_&<-&_). pose proof (rep_wf _ _ _ (w_rm _ _ Ho)) as Hw.
  destruct (ab_owned (o_rm g) !! ab_next (o_rm g)) eqn:Hx; [|done].
  pose proof (wf_perproc _ Hw (ab_next (o_rm g)) (proj1 (wf_owned _ Hw _) ltac:(simpl; eauto))) as H. simpl in H. lia.
Qed.

(** ** Properties *)

Section props.
Context {heap : HeapContents} {links : FreshLinks} {fns : FreeFns} {sp : FreeSpec} {law : FreeLaw}.

(** C6: from [PVRSRVInit] to [PVRSRVDeInit], take processes with ids other
    than 0 that connect, disconnect, work on their handle bases (with
    handles of a type other than NONE and 32-bit parents, and without
    opening batches) and register in their resource manager contexts, at
    most 2^27 calls in all. Nothing faults or loops and every answer is that
    of the abstract system, where a call of a process touches only its own
    table. If nobody is connected in the end, no structure, private data or
    handle base is left, and of kernel memory exactly the blocks of
    [pa_live] are still taken: those taken before the start, and those that
    the closing of the processes' resource manager contexts did not give
    back (items left behind by a free function that fails, and what free
    functions take themselves). A driver that cannot start keeps nothing. *)
Theorem perproc_refines ops o :
  Forall pp_pre ops → Z.of_nat (length ops) ≤ 134217728 →
  wp (run_driver ops) (λ r s,
    (r.1 = PVRSRV_OK ∧ ∃ A, pp_steps (first_abs o) ops r.2 A ∧
      (pa_procs A = ∅ → os_live (pp_os s) = pa_live A ∧ pp_data s = ∅ ∧ pp_private s = ∅ ∧ pp_bases s = ∅)) ∨
    r.1 ≠ PVRSRV_OK ∧ ¬ plenty o ∧ r.2 = [] ∧ os_live (pp_os s) = os_live o) (pp_boot o).
Proof. apply wp_run_driver. Qed.

(** C40: a connection is all or nothing.  When it succeeds the process is
    connected and no other is touched; when it fails nothing has changed,
    the memory included, the process was not connected, and either the
    kernel's table is full or memory ran out. *)
Theorem perproc_connect s A pid :
  pp_rep s A → pid ≠ 0 → tables_fit A →
  wp (PVRSRVPerProcessDataConnect pid) (λ e s',
    (e = PVRSRV_OK → ∃ A' pr, pp_rep s' A' ∧ pa_procs A' = <[pid := pr]> (pa_procs A) ∧
       pr_count pr = match pa_procs A !! pid with Some pr0 => u32 (pr_count pr0 + 1) | None => 1 end) ∧
    (e ≠ PVRSRV_OK → pp_rep s' A ∧ pa_procs A !! pid = None ∧
       (pp_next s < 18446744073709551616 → full (pa_kernel A) ∨ ¬ plenty (pp_os s)))) s.
Proof.
  intros Hr Hpid Hfit. eapply wp_mono; [by apply wp_connect|]. intros e s' (A'&Hst&Hr'&_&Hwhy).
  inversion Hst as [? pr Hp|? pr i en Hp Hnc|? err Hp He| | | | | | | | |]; subst; (split; [intros He1|intros He1]); try done.
  - exists (with_procs (<[pid := with_count (u32 (pr_count pr + 1)) pr]> (pa_procs A)) A). eexists. split; [done|]. split; [done|].
    by rewrite Hp.
  - eexists _, pr. split; [exact Hr'|]. split; [done|]. rewrite Hp. apply Hnc.
  - split; [done|]. split; [done|]. by apply Hwhy.
Qed.

(** C14: a process that connects and disconnects leaves everything as it was:
    the other processes, the handles in the kernel's base and the memory. *)
Theorem perproc_connect_disconnect s A pid :
  pp_rep s A → pid ≠ 0 → tables_fit A → pa_procs A !! pid = None →
  wp (e ← PVRSRVPerProcessDataConnect pid; PVRSRVPerProcessDataDisconnect pid;; mret e) (λ _ s', ∃ A', pp_rep s' A' ∧
    pa_procs A' = pa_procs A ∧ sp_handles (pa_kernel A') = sp_handles (pa_kernel A) ∧ pa_live A' = pa_live A ∧
    ab_owned (pa_rm A') = ab_owned (pa_rm A) ∧ ab_data (pa_rm A') = ab_data (pa_rm A)) s.
Proof.
  intros Hr Hpid Hfit Hp. wp_step. eapply wp_mono; [by apply wp_connect|]. intros e s1 (A1&Hst&Hr1&_).
  wp_step. eapply wp_mono; [by apply wp_disconnect|]. intros _ s2 (A2&Hst2&Hr2&_). wp_step. exists A2. split; [done|].
  inversion Hst as [? pr Hp1|? pr i en Hp1 Hnc|? err Hp1 He| | | | | | | | |]; subst; [congruence| |].
  - assert (u32 (pr_count pr - 1) = 0) as Hc by (by rewrite (nc_count _ _ _ _ Hnc)).
    inversion Hst2 as [| | |? Hp2|? pr2 Hp2 Hne|? pr2 o rm Hp2 _ Hd| | | | | |]; subst; simpl in Hp2;
      rewrite lookup_insert_eq in Hp2; simplify_eq.
    apply disconnects_empty in Hd as ->; [|simpl; by rewrite (nc_ctx _ _ _ _ Hnc), lookup_insert_eq]. simpl.
    rewrite (nc_handle _ _ _ _ Hnc), (nc_ctx _ _ _ _ Hnc), Z.add_simpl_r, !delete_insert_id; try done.
    + split_and!; [done..|lia|done|done].
    + by eapply rep_new_context.
    + apply Hnc.
  - inversion Hst2 as [| | |? Hp2|? pr2 Hp2 Hne|? pr2 o rm Hp2 _ Hd| | | | | |]; subst; [done|congruence..].
Qed.
(** C10: whose call a command is. A command other than
    [PVRSRV_BRIDGE_CONNECT_SERVICES] runs for a process exactly when the low
    32 bits of the handle to the services it gives are those of the
    process's own handle, as [HANDLE_TO_INDEX] looks at no others; it then
    works on the process's own structure, and with any other handle, however
    made, it is refused. [PVRSRV_BRIDGE_CONNECT_SERVICES] looks at no
    handle: it runs for the caller's own structure, and is refused exactly
    when the caller is not connected. None of these changes anything. *)
Theorem perproc_access s A pid bConnect h :
  pp_rep s A →
  wp (BridgeCaller pid bConnect h) (λ o s', pp_rep s' A ∧ pp_data s' = pp_data s ∧
    match o with
    | Some x => ∃ pr, pa_procs A !! pid = Some pr ∧ (bConnect = true ∨ HANDLE_TO_INDEX h = pr_handle pr - 1) ∧
        x = pr_data pr ∧ pp_data s !! x = Some (data_of pid pr)
    | None => ∀ pr, pa_procs A !! pid = Some pr → bConnect = false ∧ HANDLE_TO_INDEX h ≠ pr_handle pr - 1
    end) s.
Proof.
  intros Hr. destruct bConnect.
  - eapply wp_mono; [by apply wp_connect_caller|]. intros o s' [-> ->]. split; [done|]. split; [done|].
    destruct (pa_procs A !! pid) as [pr|] eqn:Hp; [|done].
    exists pr. split_and!; [done|by left|done|by eapply rep_struct].
  - eapply wp_mono; [by apply wp_BridgeCaller|]. intros [x|] s' (Hr'&Hd&Ho); (split; [done|]); (split; [done|]).
    + destruct Ho as (pr&[Hp Hix]&->). exists pr. split_and!; [done|by right|done|by eapply rep_struct].
    + intros pr Hp. split; [done|]. intros Hix. by apply (Ho pr).
Qed.
End props.

(** ** Witnesses *)

#[local] Existing Instance junk_heap.
#[local] Instance pp_links : FreshLinks := mkNode 0 (HeadOf 0).
#[local] Instance pp_fns : FreeFns := quiet_fns (λ _, PVRSRV_OK).
#[local] Instance pp_spec : FreeSpec := quiet_spec (λ _, PVRSRV_OK).
#[local] Instance pp_law : FreeLaw := quiet_law (λ _, PVRSRV_OK).

(** Two processes; the first connects twice, makes a handle and registers an
    allocation, and its second disconnection frees both. *)
Definition pp_demo : list pp_op :=
  [PConnect 7; PConnect 8; PConnect 7; PServices 7; PServices 8;
   PHandle 7 1 (HAlloc 5 PVRSRV_HANDLE_TYPE_MEM_INFO PVRSRV_HANDLE_ALLOC_FLAG_NONE);
   PRegister 7 1 RESMAN_TYPE_DEVICEMEM_ALLOCATION 100 0 9; PHandle 8 2 (HRead ReadData 1 PVRSRV_HANDLE_TYPE_MEM_INFO);
   PHandle 8 1 (HRead ReadData 1 PVRSRV_HANDLE_TYPE_MEM_INFO); PDisconnect 7;
   PHandle 7 1 (HRead ReadData 1 PVRSRV_HANDLE_TYPE_MEM_INFO); PDisconnect 7;
   PHandle 7 1 (HRead ReadData 1 PVRSRV_HANDLE_TYPE_MEM_INFO); PDisconnect 8].

Lemma pp_demo_pre : Forall pp_pre pp_demo.
Proof. by repeat constructor. Qed.

Lemma perproc_refines_witness :
  wp (run_driver pp_demo) (λ r s,
    (r.1 = PVRSRV_OK ∧ ∃ A, pp_steps (first_abs os_plenty) pp_demo r.2 A ∧
      (pa_procs A = ∅ → os_live (pp_os s) = pa_live A ∧ pp_data s = ∅ ∧ pp_private s = ∅ ∧ pp_bases s = ∅)) ∨
    r.1 ≠ PVRSRV_OK ∧ ¬ plenty os_plenty ∧ r.2 = [] ∧ os_live (pp_os s) = os_live os_plenty) (pp_boot os_plenty).
Proof. apply (perproc_refines pp_demo os_plenty pp_demo_pre). vm_compute. discriminate. Defined.

(** What it answers, and that all memory is given back. *)
Example pp_demo_runs :
  match run_driver pp_demo (pp_boot os_plenty) with Done r s => Some (r.2, os_live (pp_os s)) | _ => None end =
  Some ([PError PVRSRV_OK; PError PVRSRV_OK; PError PVRSRV_OK; PServed 1; PServed 2; PHandled (PVRSRV_OK, [1]); PItem 3;
         PHandled (PVRSRV_ERROR_HANDLE_INDEX_OUT_OF_RANGE, []); PRefused; PUnit; PHandled (PVRSRV_OK, [5]); PUnit;
         PRefused; PUnit], 0).
Proof. vm_compute. reflexivity. Qed.

(** The state after the start. *)
Definition pp_up : pp_st := match init_processes (pp_boot os_plenty) with Done _ s => s | _ => pp_boot os_plenty end.

Lemma pp_up_rep : pp_rep pp_up (first_abs os_plenty).
Proof.
  pose proof (wp_init os_plenty) as Hw. unfold pp_up. apply wp_Done in Hw as (e&s&->&[(_&Hr&_)|(_&_&Hno)]); [done|].
  by destruct Hno.
Qed.

Lemma first_fits o : tables_fit (first_abs o).
Proof. split_and!; [vm_compute; discriminate..|]. intros pid pr Hp. simpl in Hp. by rewrite lookup_empty in Hp. Qed.

Lemma perproc_connect_witness :
  ∃ s A, pa_procs A !! 7 = None ∧
  wp (PVRSRVPerProcessDataConnect 7) (λ e s',
    (e = PVRSRV_OK → ∃ A' pr, pp_rep s' A' ∧ pa_procs A' = <[7 := pr]> (pa_procs A) ∧
       pr_count pr = match pa_procs A !! 7 with Some pr0 => u32 (pr_count pr0 + 1) | None => 1 end) ∧
    (e ≠ PVRSRV_OK → pp_rep s' A ∧ pa_procs A !! 7 = None ∧
       (pp_next s < 18446744073709551616 → full (pa_kernel A) ∨ ¬ plenty (pp_os s)))) s.
Proof.
  exists pp_up, (first_abs os_plenty). split; [reflexivity|].
  apply (perproc_connect pp_up (first_abs os_plenty) 7 pp_up_rep); [discriminate|apply first_fits].
Defined.

(** Process 7 connected, its handle being 1. *)
Definition pp_seven : pp_st := final (PVRSRVPerProcessDataConnect 7) pp_up.

Lemma pp_seven_rep : ∃ A, pp_rep pp_seven A.
Proof.
  unfold pp_seven. apply (wp_final _ (λ s, ∃ A, pp_rep s A)). eapply wp_mono.
  - apply (wp_connect pp_up _ 7 pp_up_rep); [discriminate|apply first_fits].
  - intros e s (A&_&Hr&_). by exists A.
Qed.

Lemma perproc_access_witness :
  ∃ A, (match BridgeCaller 7 false 1 pp_seven with Done o _ => o | _ => None end) = Some 1 ∧
  wp (BridgeCaller 7 false 1) (λ o s', pp_rep s' A ∧ pp_data s' = pp_data pp_seven ∧
    match o with
    | Some x => ∃ pr, pa_procs A !! 7 = Some pr ∧ (false = true ∨ HANDLE_TO_INDEX 1 = pr_handle pr - 1) ∧
        x = pr_data pr ∧ pp_data pp_seven !! x = Some (data_of 7 pr)
    | None => ∀ pr, pa_procs A !! 7 = Some pr → false = false ∧ HANDLE_TO_INDEX 1 ≠ pr_handle pr - 1
    end) pp_seven.
Proof.
  destruct pp_seven_rep as [A HA]. exists A. split; [vm_compute; reflexivity|apply (perproc_access pp_seven A 7 false 1 HA)].
Defined.

(** A failed insertion frees the structure while its process id is still 0,
    so it removes the entry of process 0 from the table: its structure stays,
    and cannot be found any more. *)
Example failed_insert_forgets_zero :
  match run_driver [PConnect 0; PConnect 5; PServices 0]
      (pp_boot {| os_script := replicate 17 true ++ [false]; os_live := 0 |}) with
  | Done r s => Some (r.2, size (pp_data s))
  | _ => None
  end = Some ([PError PVRSRV_OK; PError PVRSRV_ERROR_INSERT_HASH_TABLE_DATA_FAILED; PRefused], 1%nat).
Proof. vm_compute. reflexivity. Qed.

Lemma perproc_connect_disconnect_witness :
  ∃ s A, plenty (pp_os s) ∧
  wp (e ← PVRSRVPerProcessDataConnect 7; PVRSRVPerProcessDataDisconnect 7;; mret e) (λ _ s', ∃ A', pp_rep s' A' ∧
    pa_procs A' = pa_procs A ∧ sp_handles (pa_kernel A') = sp_handles (pa_kernel A) ∧ pa_live A' = pa_live A ∧
    ab_owned (pa_rm A') = ab_owned (pa_rm A) ∧ ab_data (pa_rm A') = ab_data (pa_rm A)) s.
Proof.
  exists pp_up, (first_abs os_plenty). split; [vm_compute; reflexivity|].
  apply (perproc_connect_disconnect pp_up (first_abs os_plenty) 7 pp_up_rep); [discriminate|apply first_fits|reflexivity].
Defined.
