(* ===== verification/Resource.v ===== *)
(** * osfunc.c: resource locks

    A [PVRSRV_RESOURCE] is a test-and-set lock that remembers the identifier
    of whoever took it.  A [PVRSRV_RESOURCE *] is the place of one in a larger
    state: how to read it and how to replace it. *)

From S2P Require Import Prelude.

Definition KERNEL_ID : Z := 4294967295.
Definition ISR_ID : Z := 4294967293.

Record PVRSRV_RESOURCE := mkResource { ui32Lock : Z; ui32ID : Z }.

Section resource.
Context {S : Type} (psResource : S → PVRSRV_RESOURCE) (set_psResource : PVRSRV_RESOURCE → S → S).

(** [OS_TAS] exchanges the lock word for 1. *)
Definition OSLockResource (ui32ID : Z) : M S PVRSRV_ERROR :=
  s ← get;
  if ui32Lock (psResource s) =? 0 then modify (set_psResource (mkResource 1 ui32ID));; mret PVRSRV_OK
  else mret PVRSRV_ERROR_UNABLE_TO_LOCK_RESOURCE.

Definition OSUnlockResource (id : Z) : M S PVRSRV_ERROR :=
  s ← get;
  if negb (ui32Lock (psResource s) =? 0) then
    if ui32ID (psResource s) =? id then modify (set_psResource (mkResource 0 0));; mret PVRSRV_OK
    else mret PVRSRV_ERROR_INVALID_LOCK_ID
  else mret PVRSRV_ERROR_RESOURCE_NOT_LOCKED.

Definition OSIsResourceLocked (id : Z) : M S bool :=
  gets (λ s, (ui32Lock (psResource s) =? 1) && (ui32ID (psResource s) =? id)).

Definition OSCreateResource : M S PVRSRV_ERROR :=
  modify (set_psResource (mkResource 0 0));; mret PVRSRV_OK.

(** Breaks the lock of whoever holds it. *)
Definition OSDestroyResource : M S PVRSRV_ERROR :=
  s ← get;
  (if negb (ui32Lock (psResource s) =? 0) then modify (set_psResource (mkResource 0 0)) else mret tt);;
  mret PVRSRV_OK.
End resource.
