(* ===== verification/Sim.v ===== *)
(** * Simulation of programs by programs on abstract states

    [sim R m sp]: from related states, whenever the abstract program [sp]
    ends with an answer, the program [m] ends with the same answer, in a
    related state.  A fault or an exhausted fuel of [m] is excluded wherever
    [sp] has an answer. *)

From S2P Require Import Prelude Lists.

Section sim.
Context {S A : Type} (R : S → A → Prop).

Definition sim {B} (m : M S B) (sp : M A B) : Prop :=
  ∀ s a b a', R s a → sp a = Done b a' → ∃ s', m s = Done b s' ∧ R s' a'.

Lemma sim_wp {B} (m : M S B) (sp : M A B) (Q : B → A → Prop) s a :
  sim m sp → R s a → wp sp Q a → wp m (λ b s', ∃ a', R s' a' ∧ Q b a') s.
Proof.
  intros Hm HR (b&a'&Hb&HQ)%wp_Done. destruct (Hm _ _ _ _ HR Hb) as (s'&Hs&HR').
  apply wp_Done. eauto 6.
Qed.

(** The form in which a simulation is proved by symbolic execution. *)
Lemma sim_intro {B} (m : M S B) (sp : M A B) :
  (∀ s a b a', R s a → sp a = Done b a' → wp m (λ b' s', b' = b ∧ R s' a') s) → sim m sp.
Proof.
  intros H s a b a' HR Hb. apply H with (1 := HR) in Hb. apply wp_Done in Hb as (b'&s'&Hs&->&HR'). eauto.
Qed.

Lemma sim_ret {B} (b : B) : sim (mret b) (mret b).
Proof. intros s a b' a' HR [= <- <-]. by exists s. Qed.

(** Programs may be replaced by ones that run alike. *)
Lemma sim_ext {B} (m m' : M S B) (sp sp' : M A B) :
  (∀ s, m s = m' s) → (∀ a, sp a = sp' a) → sim m' sp' → sim m sp.
Proof. intros Hm Hs H s a b a'. rewrite Hm, Hs. apply H. Qed.

Lemma bind_assoc {T B C D} (m : M T B) (k : B → M T C) (h : C → M T D) t :
  (x ← (y ← m; k y); h x) t = (y ← m; x ← k y; h x) t.
Proof. cbv [mbind M_bind]. by destruct (m t). Qed.

Lemma sim_gets {B} (f : S → B) (g : A → B) : (∀ s a, R s a → f s = g a) → sim (gets f) (gets g).
Proof. intros H s a b a' HR [= <- <-]. exists s. split; [|done]. unfold gets. by rewrite (H s a HR). Qed.

Lemma sim_modify (f : S → S) (g : A → A) : (∀ s a, R s a → R (f s) (g a)) → sim (modify f) (modify g).
Proof. intros H s a b a' HR [= <- <-]. exists (f s). split; [done|auto]. Qed.

Lemma sim_zoom {T B} (prj : S → T) upd (prj' : A → T) upd' (m : M T B) :
  (∀ s a, R s a → prj s = prj' a) → (∀ s a t, R s a → R (upd t s) (upd' t a)) →
  sim (zoom prj upd m) (zoom prj' upd' m).
Proof.
  intros Hp Hu s a b a' HR. unfold zoom. rewrite (Hp s a HR).
  destruct (m (prj' a)) as [c t| |]; intros Hb; [|done|done]. injection Hb as <- <-. eauto.
Qed.

(** From [R] into another relation. *)
Definition sim_to (R' : S → A → Prop) {B} (m : M S B) (sp : M A B) : Prop :=
  ∀ s a b a', R s a → sp a = Done b a' → ∃ s', m s = Done b s' ∧ R' s' a'.

Lemma sim_to_weaken (R' : S → A → Prop) {B} (m : M S B) sp : sim m sp → (∀ s a, R s a → R' s a) → sim_to R' m sp.
Proof. intros H HR s a b a' Hs Hb. destruct (H s a b a' Hs Hb) as (s'&?&?). eauto. Qed.

Lemma sim_to_bind (R' : S → A → Prop) {B C} (m : M S B) sp (k : B → M S C) (ks : B → M A C) :
  sim m sp → (∀ b, sim_to R' (k b) (ks b)) → sim_to R' (m ≫= k) (sp ≫= ks).
Proof.
  intros Hm Hk s a c a' HR Hb.
  change (match sp a with Done b a' => ks b a' | Fault => Fault | OutOfFuel => OutOfFuel end = Done c a') in Hb.
  destruct (sp a) as [b a1| |] eqn:Ha; [|done|done].
  destruct (Hm _ _ _ _ HR Ha) as (s1&Hs1&HR1). destruct (Hk _ _ _ _ _ HR1 Hb) as (s'&Hs'&HR').
  exists s'. split; [|done].
  change (match m s with Done b s' => k b s' | Fault => Fault | OutOfFuel => OutOfFuel end = Done c s').
  by rewrite Hs1.
Qed.

Lemma sim_bind {B C} (m : M S B) sp (k : B → M S C) (ks : B → M A C) :
  sim m sp → (∀ b, sim (k b) (ks b)) → sim (m ≫= k) (sp ≫= ks).
Proof. apply sim_to_bind. Qed.

Lemma sim_fault {B} (m : M S B) : sim m fault.
Proof. by intros s a b a' _ Hb. Qed.

Lemma sim_out_of_fuel {B} (m : M S B) : sim m out_of_fuel.
Proof. by intros s a b a' _ Hb. Qed.
End sim.

(** Through the common structure of both programs. *)
Ltac sim_step :=
  lazymatch goal with
  | |- sim _ (mret _) (mret _) => apply sim_ret
  | |- sim _ (_ ≫= _) (_ ≫= _) => apply sim_bind; [|intro]
  | |- sim _ (if decide ?b then _ else _) (if decide ?b then _ else _) => destruct (decide b)
  | |- sim _ (if ?b then _ else _) (if ?b then _ else _) => destruct b
  | |- sim _ fault fault => apply sim_fault
  | |- sim _ out_of_fuel out_of_fuel => apply sim_out_of_fuel
  end; cbn beta.
Ltac sim_steps := repeat sim_step.

(** ** Sequences

    Runs the programs in order until an answer that is not [cont]. *)
Fixpoint until {S R} (cont : R → bool) (r : R) (l : list (M S R)) : M S R :=
  match l with
  | [] => mret r
  | m :: l => if cont r then r ← m; until cont r l else mret r
  end.

(** A list walk whose callback runs one program per node; the callback keeps
    the links. *)
Section walk.
Context {S A : Type} (R : S → A → Prop).
Context (on : ∀ B, M lists B → M S B) (get : S → lists).
Context (Hon : ∀ B (m : M lists B) Q s, wp m (λ b t, t = get s ∧ Q b s) (get s) → wp (on B m) Q s).
Context (L : lists) (HL : ∀ s a, R s a → get s = L).

Lemma sim_any_loop {B} (cont : B → bool) (cb : Z → M S B) l : ∀ sps k p r,
  seg L p l → (length l ≤ k)%nat → Forall2 (λ x sp, sim R (cb x) sp) l sps →
  sim R (any_loop on k cont cb r (hd 0 l)) (until cont r sps).
Proof.
  induction l as [|x l IH]; intros sps k p r Hs Hk Hf; inversion Hf as [|? sp ? sps' Hcb Hf']; subst; simpl.
  - assert (any_loop on k cont cb r 0 = mret r) as -> by (by destruct k). apply sim_ret.
  - destruct k as [|k]; simpl in Hk; [lia|]. destruct Hs as (H1&H2&H3&H4). simpl.
    rewrite (proj2 (Z.eqb_neq _ _)) by done. simpl. destruct (cont r); simpl; [|apply sim_ret].
    intros s a b a' HR Hb.
    assert (wp (on _ (get_node x)) (λ n t, n = mkNode (hd 0 l) p ∧ t = s) s) as (n&s1&Hn&->&->)%wp_Done.
    { apply Hon. rewrite (HL s a HR). eapply wp_get_node; [apply node_fields; [by eapply seg_head|exact H3]|done]. }
    edestruct (sim_bind R (cb x) sp (λ r, any_loop on k cont cb r (hd 0 l)) (λ r, until cont r sps')) as (s'&Hs'&HR');
      [exact Hcb|intros r'; eapply IH; [exact H4|lia|done]|exact HR|exact Hb|].
    exists s'. split; [|done].
    change (match on _ (get_node x) s with Done n s1 => (result ← cb x; any_loop on k cont cb result (psNext n)) s1
      | Fault => Fault | OutOfFuel => OutOfFuel end = Done b s').
    by rewrite Hn.
Qed.

Lemma sim_List_Any_2 {B} (CONTINUE : B) (cont : B → bool) (cb : Z → M S B) l sps h :
  seg L (HeadOf h) l → NoDup l → Forall2 (λ x sp, sim R (cb x) sp) l sps →
  sim R (head ← on _ (load (HeadOf h)); List_Any_2 on CONTINUE cont head cb) (until cont CONTINUE sps).
Proof.
  intros Hs Hn Hf s a b a' HR Hb.
  destruct (sim_any_loop cont cb l sps (size (l_nodes L)) (HeadOf h) CONTINUE Hs (seg_length _ _ _ Hs Hn) Hf s a b a' HR Hb)
    as (s'&Hs'&HR'). exists s'. split; [|done].
  assert (wp (on _ (load (HeadOf h))) (λ n t, n = hd 0 l ∧ t = s) s) as (n&s1&Hn1&->&->)%wp_Done.
  { apply Hon. rewrite (HL s a HR). by eapply wp_load; [eapply seg_head|]. }
  assert (wp (on _ node_count) (λ n t, n = size (l_nodes L) ∧ t = s) s) as (k&s1&Hk1&->&->)%wp_Done.
  { apply Hon. rewrite (HL s a HR). unfold node_count. by wp_step. }
  change (match on _ (load (HeadOf h)) s with Done n s1 => (k ← on _ node_count; any_loop on k cont cb CONTINUE n) s1
      | Fault => Fault | OutOfFuel => OutOfFuel end = Done b s').
  rewrite Hn1.
  change (match on _ node_count s with Done k s1 => any_loop on k cont cb CONTINUE (hd 0 l) s1
      | Fault => Fault | OutOfFuel => OutOfFuel end = Done b s').
  by rewrite Hk1.
Qed.
End walk.
