(* ===== verification/Power.v ===== *)
(** * power.c: the power manager

    Devices register with the power manager; a system power transition takes
    all of them through a pre and a post stage, a device transition one of
    them.  Both run under the power lock, a resource that callers poll for.

    The state is the part of [SYS_DATA] power.c uses and a world [W] that
    belongs to the devices and the board.  [PowerEnv] is what power.c calls:
    the devices' functions, by address, the system layer, and what other
    threads do while a caller polls for the lock. *)

From S2P Require Import Prelude Lists Resource.

(** ** Data *)

Inductive PVRSRV_SYS_POWER_STATE :=
| PVRSRV_SYS_POWER_STATE_Unspecified
| PVRSRV_SYS_POWER_STATE_D0
| PVRSRV_SYS_POWER_STATE_D1
| PVRSRV_SYS_POWER_STATE_D2
| PVRSRV_SYS_POWER_STATE_D3
| PVRSRV_SYS_POWER_STATE_D4.

Inductive PVRSRV_DEV_POWER_STATE :=
| PVRSRV_DEV_POWER_STATE_DEFAULT
| PVRSRV_DEV_POWER_STATE_ON
| PVRSRV_DEV_POWER_STATE_IDLE
| PVRSRV_DEV_POWER_STATE_OFF.

Inductive PVRSRV_INIT_SERVER_STATE :=
| PVRSRV_INIT_SERVER_Unspecified
| PVRSRV_INIT_SERVER_RUNNING
| PVRSRV_INIT_SERVER_RAN
| PVRSRV_INIT_SERVER_SUCCESSFUL
| PVRSRV_INIT_SERVER_NUM.

#[export] Instance sys_power_state_eq_dec : EqDecision PVRSRV_SYS_POWER_STATE.
Proof. solve_decision. Defined.

#[export] Instance dev_power_state_eq_dec : EqDecision PVRSRV_DEV_POWER_STATE.
Proof. solve_decision. Defined.

(** The enumeration's values, which [_IsSystemStatePowered] compares. *)
Definition sys_power_value (e : PVRSRV_SYS_POWER_STATE) : Z :=
  match e with
  | PVRSRV_SYS_POWER_STATE_Unspecified => -1
  | PVRSRV_SYS_POWER_STATE_D0 => 0
  | PVRSRV_SYS_POWER_STATE_D1 => 1
  | PVRSRV_SYS_POWER_STATE_D2 => 2
  | PVRSRV_SYS_POWER_STATE_D3 => 3
  | PVRSRV_SYS_POWER_STATE_D4 => 4
  end.

(** [psNext] and [ppsThis] are in the list store. *)
Record PVRSRV_POWER_DEV := mkPowerDev {
  pfnPrePower : Z;
  pfnPostPower : Z;
  pfnPreClockSpeedChange : Z;
  pfnPostClockSpeedChange : Z;
  hDevCookie : Z;
  ui32DeviceIndex : Z;
  eDefaultPowerState : PVRSRV_DEV_POWER_STATE;
  pd_eCurrentPowerState : PVRSRV_DEV_POWER_STATE }.

(** The globals of power.c. *)
Record init_server := mkInitServer {
  gbInitServerRunning : bool; gbInitServerRan : bool; gbInitSuccessful : bool }.

Record pw_st (W : Type) := mkPw {
  pw_os : os;
  pw_next : Z;                                (** the next address *)
  pw_init : init_server;
  sPowerStateChangeResource : PVRSRV_RESOURCE;
  eCurrentPowerState : PVRSRV_SYS_POWER_STATE;
  eFailedPowerState : PVRSRV_SYS_POWER_STATE;
  psPowerDeviceList : lists;                  (** headed by number 0 *)
  pw_devs : gmap Z PVRSRV_POWER_DEV;
  pw_world : W }.
Arguments mkPw {W}.
Arguments pw_os {W}.
Arguments pw_next {W}.
Arguments pw_init {W}.
Arguments sPowerStateChangeResource {W}.
Arguments eCurrentPowerState {W}.
Arguments eFailedPowerState {W}.
Arguments psPowerDeviceList {W}.
Arguments pw_devs {W}.
Arguments pw_world {W}.

(** Functions are called with their address first. *)
Class PowerEnv (W : Type) := {
  pre_power : Z → Z → PVRSRV_DEV_POWER_STATE → PVRSRV_DEV_POWER_STATE → M W PVRSRV_ERROR;
  post_power : Z → Z → PVRSRV_DEV_POWER_STATE → PVRSRV_DEV_POWER_STATE → M W PVRSRV_ERROR;
  pre_clock : Z → Z → bool → PVRSRV_DEV_POWER_STATE → M W PVRSRV_ERROR;
  post_clock : Z → Z → bool → PVRSRV_DEV_POWER_STATE → M W PVRSRV_ERROR;
  SysDevicePrePowerState : Z → PVRSRV_DEV_POWER_STATE → PVRSRV_DEV_POWER_STATE → M W PVRSRV_ERROR;
  SysDevicePostPowerState : Z → PVRSRV_DEV_POWER_STATE → PVRSRV_DEV_POWER_STATE → M W PVRSRV_ERROR;
  SysSystemPrePowerState : PVRSRV_SYS_POWER_STATE → M W PVRSRV_ERROR;
  SysSystemPostPowerState : PVRSRV_SYS_POWER_STATE → M W PVRSRV_ERROR;
  schedule_callbacks : M W unit;              (** [PVRSRVScheduleDeviceCallbacks] *)
  power_wait : M (pw_st W) unit }.            (** during [OSWaitus(1)] *)

(** ** Access *)

Section access.
Context {W : Type}.
Implicit Types s : pw_st W.

Definition set_pw_os x s := mkPw x (pw_next s) (pw_init s) (sPowerStateChangeResource s) (eCurrentPowerState s)
  (eFailedPowerState s) (psPowerDeviceList s) (pw_devs s) (pw_world s).
Definition set_pw_next x s := mkPw (pw_os s) x (pw_init s) (sPowerStateChangeResource s) (eCurrentPowerState s)
  (eFailedPowerState s) (psPowerDeviceList s) (pw_devs s) (pw_world s).
Definition set_pw_init x s := mkPw (pw_os s) (pw_next s) x (sPowerStateChangeResource s) (eCurrentPowerState s)
  (eFailedPowerState s) (psPowerDeviceList s) (pw_devs s) (pw_world s).
Definition set_sPowerStateChangeResource x s := mkPw (pw_os s) (pw_next s) (pw_init s) x (eCurrentPowerState s)
  (eFailedPowerState s) (psPowerDeviceList s) (pw_devs s) (pw_world s).
Definition set_eCurrentPowerState x s := mkPw (pw_os s) (pw_next s) (pw_init s) (sPowerStateChangeResource s) x
  (eFailedPowerState s) (psPowerDeviceList s) (pw_devs s) (pw_world s).
Definition set_eFailedPowerState x s := mkPw (pw_os s) (pw_next s) (pw_init s) (sPowerStateChangeResource s)
  (eCurrentPowerState s) x (psPowerDeviceList s) (pw_devs s) (pw_world s).
Definition set_psPowerDeviceList x s := mkPw (pw_os s) (pw_next s) (pw_init s) (sPowerStateChangeResource s)
  (eCurrentPowerState s) (eFailedPowerState s) x (pw_devs s) (pw_world s).
Definition set_pw_devs x s := mkPw (pw_os s) (pw_next s) (pw_init s) (sPowerStateChangeResource s)
  (eCurrentPowerState s) (eFailedPowerState s) (psPowerDeviceList s) x (pw_world s).
Definition set_pw_world (x : W) s := mkPw (pw_os s) (pw_next s) (pw_init s) (sPowerStateChangeResource s)
  (eCurrentPowerState s) (eFailedPowerState s) (psPowerDeviceList s) (pw_devs s) x.

Definition with_pw_os {A} (m : M os A) : M (pw_st W) A := zoom pw_os set_pw_os m.
Definition on_powerdevs A (m : M lists A) : M (pw_st W) A := zoom psPowerDeviceList set_psPowerDeviceList m.
Definition world {A} (m : M W A) : M (pw_st W) A := zoom pw_world set_pw_world m.

Definition get_powerdev (psPowerDevice : Z) : M (pw_st W) PVRSRV_POWER_DEV :=
  o ← gets (λ s, pw_devs s !! psPowerDevice); deref o.

Definition set_pd_eCurrentPowerState (psPowerDevice : Z) (e : PVRSRV_DEV_POWER_STATE) : M (pw_st W) unit :=
  d ← get_powerdev psPowerDevice;
  modify (λ s, set_pw_devs (<[psPowerDevice := mkPowerDev (pfnPrePower d) (pfnPostPower d) (pfnPreClockSpeedChange d)
    (pfnPostClockSpeedChange d) (hDevCookie d) (ui32DeviceIndex d) (eDefaultPowerState d) e]> (pw_devs s)) s).
End access.

(** ** The state of the initialisation server *)

Section power.
Context {W : Type} {env : PowerEnv W}.

Definition PVRSRVSetInitServerState (eInitServerState : PVRSRV_INIT_SERVER_STATE) (bState : bool) : M (pw_st W) PVRSRV_ERROR :=
  s ← get;
  let i := pw_init s in
  match eInitServerState with
  | PVRSRV_INIT_SERVER_RUNNING =>
      put (set_pw_init (mkInitServer bState (gbInitServerRan i) (gbInitSuccessful i)) s);; mret PVRSRV_OK
  | PVRSRV_INIT_SERVER_RAN =>
      put (set_pw_init (mkInitServer (gbInitServerRunning i) bState (gbInitSuccessful i)) s);; mret PVRSRV_OK
  | PVRSRV_INIT_SERVER_SUCCESSFUL =>
      put (set_pw_init (mkInitServer (gbInitServerRunning i) (gbInitServerRan i) bState) s);; mret PVRSRV_OK
  | _ => mret PVRSRV_ERROR_UNKNOWN_INIT_SERVER_STATE
  end.

Definition PVRSRVGetInitServerState (eInitServerState : PVRSRV_INIT_SERVER_STATE) : M (pw_st W) bool :=
  i ← gets pw_init;
  mret match eInitServerState with
  | PVRSRV_INIT_SERVER_RUNNING => gbInitServerRunning i
  | PVRSRV_INIT_SERVER_RAN => gbInitServerRan i
  | PVRSRV_INIT_SERVER_SUCCESSFUL => gbInitSuccessful i
  | _ => false
  end.

(** ** The power lock *)

Definition _IsSystemStatePowered (eSystemPowerState : PVRSRV_SYS_POWER_STATE) : bool :=
  sys_power_value eSystemPowerState <? sys_power_value PVRSRV_SYS_POWER_STATE_D2.

(** Without [SYS_CUSTOM_POWERLOCK_WRAP]. *)
Definition OSPowerLockWrap (bTryLock : bool) : M (pw_st W) PVRSRV_ERROR := mret PVRSRV_OK.
Definition OSPowerLockUnwrap : M (pw_st W) unit := mret tt.

Definition PVRSRVPowerUnlock (ui32CallerID : Z) : M (pw_st W) unit :=
  _ ← OSUnlockResource sPowerStateChangeResource set_sPowerStateChangeResource ui32CallerID;
  OSPowerLockUnwrap.

Definition POWER_LOCK_TIMEOUT : Z := 1000000.

(** The polling loop of [PVRSRVPowerLock], with [ui32Timeout] turns left. *)
Fixpoint power_lock_loop (fuel : nat) (bTryLock : bool) (ui32CallerID ui32Timeout : Z) : M (pw_st W) PVRSRV_ERROR :=
  match fuel with
  | O => out_of_fuel
  | S fuel =>
      eError ← OSLockResource sPowerStateChangeResource set_sPowerStateChangeResource ui32CallerID;
      if is_OK eError then mret eError
      else if bTryLock then mret PVRSRV_ERROR_RETRY
      else
        power_wait;;
        let ui32Timeout := u32 (ui32Timeout - 1) in
        if 0 <? ui32Timeout then power_lock_loop fuel bTryLock ui32CallerID ui32Timeout else mret eError
  end.

Definition PVRSRVPowerLock (ui32CallerID : Z) (bSystemPowerEvent : bool) : M (pw_st W) PVRSRV_ERROR :=
  let bTryLock := ui32CallerID =? ISR_ID in
  eError ← OSPowerLockWrap bTryLock;
  if negb (is_OK eError) then mret eError
  else
    eError ← power_lock_loop (Z.to_nat POWER_LOCK_TIMEOUT) bTryLock ui32CallerID POWER_LOCK_TIMEOUT;
    (if negb (is_OK eError) then OSPowerLockUnwrap else mret tt);;
    cur ← gets eCurrentPowerState;
    if is_OK eError && negb bSystemPowerEvent && negb (_IsSystemStatePowered cur) then
      PVRSRVPowerUnlock ui32CallerID;;
      mret PVRSRV_ERROR_RETRY
    else mret eError.

(** ** Device transitions *)

(** Calling a null function pointer is an error. *)
Definition call {A} (pfn : Z) (f : Z → M W A) : M (pw_st W) A :=
  if pfn =? IMG_NULL then fault else world (f pfn).

Definition new_device_state (eNewPowerState : PVRSRV_DEV_POWER_STATE) (d : PVRSRV_POWER_DEV) : PVRSRV_DEV_POWER_STATE :=
  if decide (eNewPowerState = PVRSRV_DEV_POWER_STATE_DEFAULT) then eDefaultPowerState d else eNewPowerState.

(** The functions called do not touch the device's entry. *)
Definition PVRSRVDevicePrePowerStateKM_AnyVaCb (bAllDevices : bool) (index : Z)
    (eNewPowerState : PVRSRV_DEV_POWER_STATE) (psPowerDevice : Z) : M (pw_st W) PVRSRV_ERROR :=
  d ← get_powerdev psPowerDevice;
  if bAllDevices || (index =? ui32DeviceIndex d) then
    let eNewDevicePowerState := new_device_state eNewPowerState d in
    if decide (pd_eCurrentPowerState d ≠ eNewDevicePowerState) then
      eError ← (if negb (pfnPrePower d =? IMG_NULL) then
                  call (pfnPrePower d) (λ f, pre_power f (hDevCookie d) eNewDevicePowerState (pd_eCurrentPowerState d))
                else mret PVRSRV_OK);
      if negb (is_OK eError) then mret eError
      else
        eError ← world (SysDevicePrePowerState (ui32DeviceIndex d) eNewDevicePowerState (pd_eCurrentPowerState d));
        if negb (is_OK eError) then mret eError else mret PVRSRV_OK
    else mret PVRSRV_OK
  else mret PVRSRV_OK.

Definition PVRSRVDevicePrePowerStateKM (bAllDevices : bool) (index : Z)
    (eNewPowerState : PVRSRV_DEV_POWER_STATE) : M (pw_st W) PVRSRV_ERROR :=
  head ← on_powerdevs _ (load (HeadOf 0));
  List_Any_2 on_powerdevs PVRSRV_OK is_OK head (PVRSRVDevicePrePowerStateKM_AnyVaCb bAllDevices index eNewPowerState).

Definition PVRSRVDevicePostPowerStateKM_AnyVaCb (bAllDevices : bool) (index : Z)
    (eNewPowerState : PVRSRV_DEV_POWER_STATE) (psPowerDevice : Z) : M (pw_st W) PVRSRV_ERROR :=
  d ← get_powerdev psPowerDevice;
  if bAllDevices || (index =? ui32DeviceIndex d) then
    let eNewDevicePowerState := new_device_state eNewPowerState d in
    if decide (pd_eCurrentPowerState d ≠ eNewDevicePowerState) then
      eError ← world (SysDevicePostPowerState (ui32DeviceIndex d) eNewDevicePowerState (pd_eCurrentPowerState d));
      if negb (is_OK eError) then mret eError
      else
        eError ← (if negb (pfnPostPower d =? IMG_NULL) then
                    call (pfnPostPower d) (λ f, post_power f (hDevCookie d) eNewDevicePowerState (pd_eCurrentPowerState d))
                  else mret PVRSRV_OK);
        if negb (is_OK eError) then mret eError
        else set_pd_eCurrentPowerState psPowerDevice eNewDevicePowerState;; mret PVRSRV_OK
    else mret PVRSRV_OK
  else mret PVRSRV_OK.

Definition PVRSRVDevicePostPowerStateKM (bAllDevices : bool) (index : Z)
    (eNewPowerState : PVRSRV_DEV_POWER_STATE) : M (pw_st W) PVRSRV_ERROR :=
  head ← on_powerdevs _ (load (HeadOf 0));
  List_Any_2 on_powerdevs PVRSRV_OK is_OK head (PVRSRVDevicePostPowerStateKM_AnyVaCb bAllDevices index eNewPowerState).

(** Without [PDUMP]. *)
Definition PVRSRVSetDevicePowerStateKM (index : Z) (eNewPowerState : PVRSRV_DEV_POWER_STATE) (ui32CallerID : Z)
    (bRetainMutex : bool) : M (pw_st W) PVRSRV_ERROR :=
  eError ← PVRSRVPowerLock ui32CallerID false;
  if negb (is_OK eError) then mret eError
  else
    eError ← PVRSRVDevicePrePowerStateKM false index eNewPowerState;
    eError ← (if negb (is_OK eError) then mret eError
              else PVRSRVDevicePostPowerStateKM false index eNewPowerState);
    (if negb bRetainMutex || negb (is_OK eError) then PVRSRVPowerUnlock ui32CallerID else mret tt);;
    mret eError.

(** ** System transitions *)

Definition device_target (eNewSysPowerState : PVRSRV_SYS_POWER_STATE) : PVRSRV_DEV_POWER_STATE :=
  if _IsSystemStatePowered eNewSysPowerState then PVRSRV_DEV_POWER_STATE_DEFAULT else PVRSRV_DEV_POWER_STATE_OFF.

Definition PVRSRVSystemPrePowerStateKM (eNewSysPowerState : PVRSRV_SYS_POWER_STATE) : M (pw_st W) PVRSRV_ERROR :=
  let ErrorExit eError :=
    modify (set_eFailedPowerState eNewSysPowerState);; PVRSRVPowerUnlock KERNEL_ID;; mret eError in
  eError ← PVRSRVPowerLock KERNEL_ID true;
  if negb (is_OK eError) then mret eError
  else
    cur ← gets eCurrentPowerState;
    eError ← (if negb (eqb (_IsSystemStatePowered eNewSysPowerState) (_IsSystemStatePowered cur)) then
                PVRSRVDevicePrePowerStateKM true 0 (device_target eNewSysPowerState)
              else mret PVRSRV_OK);
    if negb (is_OK eError) then ErrorExit eError
    else
      cur ← gets eCurrentPowerState;
      eError ← (if decide (eNewSysPowerState ≠ cur) then world (SysSystemPrePowerState eNewSysPowerState)
                else mret eError);
      if negb (is_OK eError) then ErrorExit eError else mret eError.

Definition PVRSRVSystemPostPowerStateKM (eNewSysPowerState : PVRSRV_SYS_POWER_STATE) : M (pw_st W) PVRSRV_ERROR :=
  cur ← gets eCurrentPowerState;
  eError ← (if decide (eNewSysPowerState ≠ cur) then world (SysSystemPostPowerState eNewSysPowerState)
            else mret PVRSRV_OK);
  eError ← (if negb (is_OK eError) then mret eError
            else
              cur ← gets eCurrentPowerState;
              eError ← (if negb (eqb (_IsSystemStatePowered eNewSysPowerState) (_IsSystemStatePowered cur)) then
                          PVRSRVDevicePostPowerStateKM true 0 (device_target eNewSysPowerState)
                        else mret PVRSRV_OK);
              (if is_OK eError then modify (set_eCurrentPowerState eNewSysPowerState) else mret tt);;
              mret eError);
  PVRSRVPowerUnlock KERNEL_ID;;
  successful ← PVRSRVGetInitServerState PVRSRV_INIT_SERVER_SUCCESSFUL;
  (if _IsSystemStatePowered eNewSysPowerState && successful then world schedule_callbacks else mret tt);;
  mret eError.

Definition PVRSRVSetPowerStateKM (eNewSysPowerState : PVRSRV_SYS_POWER_STATE) : M (pw_st W) PVRSRV_ERROR :=
  let ErrorExit eError := modify (set_eFailedPowerState eNewSysPowerState);; mret eError in
  eError ← PVRSRVSystemPrePowerStateKM eNewSysPowerState;
  if negb (is_OK eError) then ErrorExit eError
  else
    eError ← PVRSRVSystemPostPowerStateKM eNewSysPowerState;
    if negb (is_OK eError) then ErrorExit eError
    else modify (set_eFailedPowerState PVRSRV_SYS_POWER_STATE_Unspecified);; mret PVRSRV_OK.

(** ** Registration *)

Definition MatchPowerDeviceIndex_AnyVaCb (index : Z) (psPowerDev : Z) : M (pw_st W) Z :=
  d ← get_powerdev psPowerDev;
  mret (if ui32DeviceIndex d =? index then psPowerDev else IMG_NULL).

Definition find_power_device (index : Z) : M (pw_st W) Z :=
  head ← on_powerdevs _ (load (HeadOf 0));
  List_Any on_powerdevs head (MatchPowerDeviceIndex_AnyVaCb index).

Definition PVRSRVRemovePowerDevice (index : Z) : M (pw_st W) PVRSRV_ERROR :=
  psPowerDev ← find_power_device index;
  (if negb (psPowerDev =? IMG_NULL) then
     on_powerdevs _ (List_Remove psPowerDev);;
     with_pw_os OSFreeMem;;
     modify (λ s, set_psPowerDeviceList (mkLists (delete psPowerDev (l_nodes (psPowerDeviceList s))) (l_heads (psPowerDeviceList s)))
       (set_pw_devs (delete psPowerDev (pw_devs s)) s))
   else mret tt);;
  mret PVRSRV_OK.

(** The links of the new device are not initialised. *)
Definition PVRSRVRegisterPowerDevice (index pre post prec postc hDevCookie : Z)
    (eCurrent eDefault : PVRSRV_DEV_POWER_STATE) : M (pw_st W) PVRSRV_ERROR :=
  if (pre =? IMG_NULL) && (post =? IMG_NULL) then PVRSRVRemovePowerDevice index
  else
    ok ← with_pw_os OSAllocMem;
    if negb ok then mret PVRSRV_ERROR_OUT_OF_MEMORY
    else
      s ← get;
      let psPowerDevice := pw_next s in
      put (set_pw_next (psPowerDevice + 1)
        (set_psPowerDeviceList (mkLists (<[psPowerDevice := mkNode 0 (HeadOf (-1))]> (l_nodes (psPowerDeviceList s))) (l_heads (psPowerDeviceList s)))
        (set_pw_devs (<[psPowerDevice := mkPowerDev pre post prec postc hDevCookie index eDefault eCurrent]> (pw_devs s)) s)));;
      on_powerdevs _ (List_Insert (HeadOf 0) psPowerDevice);;
      mret PVRSRV_OK.

Definition PVRSRVIsDevicePowered (index : Z) : M (pw_st W) bool :=
  kernel ← OSIsResourceLocked sPowerStateChangeResource KERNEL_ID;
  isr ← OSIsResourceLocked sPowerStateChangeResource ISR_ID;
  if kernel || isr then mret false
  else
    psPowerDevice ← find_power_device index;
    if psPowerDevice =? IMG_NULL then mret false
    else
      d ← get_powerdev psPowerDevice;
      mret (bool_decide (pd_eCurrentPowerState d = PVRSRV_DEV_POWER_STATE_ON)).

(** ** Clock speed changes *)

(** The guard is on the post function. *)
Definition PVRSRVDevicePreClockSpeedChange (index : Z) (bIdleDevice : bool) : M (pw_st W) PVRSRV_ERROR :=
  eError ← (if bIdleDevice then PVRSRVPowerLock KERNEL_ID false else mret PVRSRV_OK);
  if bIdleDevice && negb (is_OK eError) then mret eError
  else
    psPowerDevice ← find_power_device index;
    eError ← (if negb (psPowerDevice =? IMG_NULL) then
                d ← get_powerdev psPowerDevice;
                if negb (pfnPostClockSpeedChange d =? IMG_NULL) then
                  call (pfnPreClockSpeedChange d) (λ f, pre_clock f (hDevCookie d) bIdleDevice (pd_eCurrentPowerState d))
                else mret eError
              else mret eError);
    (if bIdleDevice && negb (is_OK eError) then PVRSRVPowerUnlock KERNEL_ID else mret tt);;
    mret eError.

Definition PVRSRVDevicePostClockSpeedChange (index : Z) (bIdleDevice : bool) : M (pw_st W) unit :=
  psPowerDevice ← find_power_device index;
  (if negb (psPowerDevice =? IMG_NULL) then
     d ← get_powerdev psPowerDevice;
     if negb (pfnPostClockSpeedChange d =? IMG_NULL) then
       _ ← call (pfnPostClockSpeedChange d) (λ f, post_clock f (hDevCookie d) bIdleDevice (pd_eCurrentPowerState d)); mret tt
     else mret tt
   else mret tt);;
  (if bIdleDevice then PVRSRVPowerUnlock KERNEL_ID else mret tt).
End power.
