(* ===== verification/PowerRep.v ===== *)
(** * The power manager as a list of devices

    [power_abs] is the power manager without its linked list: the devices in
    the order of the list, the holder of the power lock and the states.  The
    abstract operations say what a call does in these terms; [rep] relates
    both. *)

From S2P Require Import Prelude Lists Resource Sim Power.

Record power_abs (W : Type) := mkPa {
  pa_os : os;
  pa_init : init_server;
  pa_holder : option Z;
  pa_sys : PVRSRV_SYS_POWER_STATE;
  pa_failed : PVRSRV_SYS_POWER_STATE;
  pa_devs : list PVRSRV_POWER_DEV;
  pa_world : W }.
Arguments mkPa {W}.
Arguments pa_os {W}.
Arguments pa_init {W}.
Arguments pa_holder {W}.
Arguments pa_sys {W}.
Arguments pa_failed {W}.
Arguments pa_devs {W}.
Arguments pa_world {W}.

Section abs.
Context {W : Type}.
Implicit Types a : power_abs W.

Definition set_pa_os x a := mkPa x (pa_init a) (pa_holder a) (pa_sys a) (pa_failed a) (pa_devs a) (pa_world a).
Definition set_pa_init x a := mkPa (pa_os a) x (pa_holder a) (pa_sys a) (pa_failed a) (pa_devs a) (pa_world a).
Definition set_pa_holder x a := mkPa (pa_os a) (pa_init a) x (pa_sys a) (pa_failed a) (pa_devs a) (pa_world a).
Definition set_pa_sys x a := mkPa (pa_os a) (pa_init a) (pa_holder a) x (pa_failed a) (pa_devs a) (pa_world a).
Definition set_pa_failed x a := mkPa (pa_os a) (pa_init a) (pa_holder a) (pa_sys a) x (pa_devs a) (pa_world a).
Definition set_pa_devs x a := mkPa (pa_os a) (pa_init a) (pa_holder a) (pa_sys a) (pa_failed a) x (pa_world a).
Definition set_pa_world (x : W) a := mkPa (pa_os a) (pa_init a) (pa_holder a) (pa_sys a) (pa_failed a) (pa_devs a) x.

Definition in_world {A} (m : M W A) : M (power_abs W) A := zoom pa_world set_pa_world m.
Definition in_os {A} (m : M os A) : M (power_abs W) A := zoom pa_os set_pa_os m.

Definition pd_set (e : PVRSRV_DEV_POWER_STATE) (d : PVRSRV_POWER_DEV) : PVRSRV_POWER_DEV :=
  mkPowerDev (pfnPrePower d) (pfnPostPower d) (pfnPreClockSpeedChange d) (pfnPostClockSpeedChange d)
    (hDevCookie d) (ui32DeviceIndex d) (eDefaultPowerState d) e.

(** ** Locking *)

Definition a_take (id : Z) : M (power_abs W) bool :=
  h ← gets pa_holder;
  match h with None => modify (set_pa_holder (Some id));; mret true | Some _ => mret false end.

Definition a_release (id : Z) : M (power_abs W) unit :=
  modify (λ a, if decide (pa_holder a = Some id) then set_pa_holder None a else a).
End abs.

(** What other threads do while a caller polls, in terms of [power_abs]. *)
Class PowerWait (W : Type) := wait_spec : M (power_abs W) unit.

Section spec.
Context {W : Type} {env : PowerEnv W} {wait : PowerWait W}.

(** [n] attempts. *)
Fixpoint a_poll (n : nat) (id : Z) : M (power_abs W) PVRSRV_ERROR :=
  match n with
  | O => mret PVRSRV_ERROR_UNABLE_TO_LOCK_RESOURCE
  | S n =>
      ok ← a_take id;
      if ok : bool then mret PVRSRV_OK
      else if id =? ISR_ID then mret PVRSRV_ERROR_RETRY
      else wait_spec;; a_poll n id
  end.

Definition a_lock (id : Z) (event : bool) : M (power_abs W) PVRSRV_ERROR :=
  e ← a_poll (Z.to_nat POWER_LOCK_TIMEOUT) id;
  sys ← gets pa_sys;
  if is_OK e && negb (event || _IsSystemStatePowered sys) then a_release id;; mret PVRSRV_ERROR_RETRY
  else mret e.

(** ** Stages *)

(** [m], unless an error came before it. *)
Definition and_then (e : PVRSRV_ERROR) (m : M (power_abs W) PVRSRV_ERROR) : M (power_abs W) PVRSRV_ERROR :=
  if is_OK e then m else mret e.

Definition a_dev (i : nat) : M (power_abs W) PVRSRV_POWER_DEV := o ← gets (λ a, pa_devs a !! i); deref o.

(** The device a transition concerns changes its state. *)
Definition changes (sel : option Z) (target : PVRSRV_DEV_POWER_STATE) (d : PVRSRV_POWER_DEV) : bool :=
  match sel with None => true | Some index => index =? ui32DeviceIndex d end &&
  bool_decide (pd_eCurrentPowerState d ≠ new_device_state target d).

Definition pre_stage (target : PVRSRV_DEV_POWER_STATE) (d : PVRSRV_POWER_DEV) : M (power_abs W) PVRSRV_ERROR :=
  let e := new_device_state target d in
  r ← (if pfnPrePower d =? IMG_NULL then mret PVRSRV_OK
       else in_world (pre_power (pfnPrePower d) (hDevCookie d) e (pd_eCurrentPowerState d)));
  and_then r (in_world (SysDevicePrePowerState (ui32DeviceIndex d) e (pd_eCurrentPowerState d))).

Definition post_stage (target : PVRSRV_DEV_POWER_STATE) (i : nat) (d : PVRSRV_POWER_DEV) : M (power_abs W) PVRSRV_ERROR :=
  let e := new_device_state target d in
  r ← in_world (SysDevicePostPowerState (ui32DeviceIndex d) e (pd_eCurrentPowerState d));
  r ← and_then r (if pfnPostPower d =? IMG_NULL then mret PVRSRV_OK
                  else in_world (post_power (pfnPostPower d) (hDevCookie d) e (pd_eCurrentPowerState d)));
  and_then r (modify (λ a, set_pa_devs (<[i := pd_set e d]> (pa_devs a)) a);; mret PVRSRV_OK).

(** Every device that changes, in the order of the list, to the first error. *)
Definition each (sel : option Z) (target : PVRSRV_DEV_POWER_STATE)
    (stage : nat → PVRSRV_POWER_DEV → M (power_abs W) PVRSRV_ERROR) : M (power_abs W) PVRSRV_ERROR :=
  n ← gets (λ a, length (pa_devs a));
  until is_OK PVRSRV_OK
    ((λ i, d ← a_dev i; if changes sel target d then stage i d else mret PVRSRV_OK) <$> seq 0 n).

Definition a_pre (sel : option Z) (target : PVRSRV_DEV_POWER_STATE) := each sel target (λ _, pre_stage target).
Definition a_post (sel : option Z) (target : PVRSRV_DEV_POWER_STATE) := each sel target (post_stage target).

(** ** Operations *)

Definition a_set_device (index : Z) (target : PVRSRV_DEV_POWER_STATE) (id : Z) (retain : bool) :
    M (power_abs W) PVRSRV_ERROR :=
  e ← a_lock id false;
  if negb (is_OK e) then mret e
  else
    e ← a_pre (Some index) target;
    e ← and_then e (a_post (Some index) target);
    (if retain && is_OK e then mret tt else a_release id);;
    mret e.

(** The system leaves or enters the powered states. *)
Definition flips (new cur : PVRSRV_SYS_POWER_STATE) : bool :=
  negb (eqb (_IsSystemStatePowered new) (_IsSystemStatePowered cur)).

Definition a_sys_pre (new : PVRSRV_SYS_POWER_STATE) : M (power_abs W) PVRSRV_ERROR :=
  cur ← gets pa_sys;
  e ← (if flips new cur then a_pre None (device_target new) else mret PVRSRV_OK);
  cur ← gets pa_sys;
  and_then e (if decide (new ≠ cur) then in_world (SysSystemPrePowerState new) else mret PVRSRV_OK).

Definition a_sys_post (new : PVRSRV_SYS_POWER_STATE) : M (power_abs W) PVRSRV_ERROR :=
  cur ← gets pa_sys;
  e ← (if decide (new ≠ cur) then in_world (SysSystemPostPowerState new) else mret PVRSRV_OK);
  cur ← gets pa_sys;
  e ← and_then e (if flips new cur then a_post None (device_target new) else mret PVRSRV_OK);
  and_then e (modify (set_pa_sys new);; mret PVRSRV_OK).

Definition a_system_pre (new : PVRSRV_SYS_POWER_STATE) : M (power_abs W) PVRSRV_ERROR :=
  e ← a_lock KERNEL_ID true;
  if negb (is_OK e) then mret e
  else
    e ← a_sys_pre new;
    (if is_OK e then mret tt else modify (set_pa_failed new);; a_release KERNEL_ID);;
    mret e.

Definition a_system_post (new : PVRSRV_SYS_POWER_STATE) : M (power_abs W) PVRSRV_ERROR :=
  e ← a_sys_post new;
  a_release KERNEL_ID;;
  ok ← gets (λ a, gbInitSuccessful (pa_init a));
  (if _IsSystemStatePowered new && ok then in_world schedule_callbacks else mret tt);;
  mret e.

(** A failed transition is recorded, a successful one clears the record. *)
Definition a_set_power (new : PVRSRV_SYS_POWER_STATE) : M (power_abs W) PVRSRV_ERROR :=
  e ← a_system_pre new;
  e ← and_then e (a_system_post new);
  modify (set_pa_failed (if is_OK e then PVRSRV_SYS_POWER_STATE_Unspecified else new));;
  mret e.

(** The first device with an index. *)
Definition find_dev (index : Z) (l : list PVRSRV_POWER_DEV) : option nat :=
  fst <$> list_find (λ d, ui32DeviceIndex d = index) l.

Definition a_remove (index : Z) : M (power_abs W) PVRSRV_ERROR :=
  o ← gets (λ a, find_dev index (pa_devs a));
  match o with
  | Some i => in_os OSFreeMem;; modify (λ a, set_pa_devs (delete i (pa_devs a)) a)
  | None => mret tt
  end;;
  mret PVRSRV_OK.

Definition a_register (d : PVRSRV_POWER_DEV) : M (power_abs W) PVRSRV_ERROR :=
  if (pfnPrePower d =? IMG_NULL) && (pfnPostPower d =? IMG_NULL) then a_remove (ui32DeviceIndex d)
  else
    ok ← in_os OSAllocMem;
    if negb ok then mret PVRSRV_ERROR_OUT_OF_MEMORY
    else modify (λ a, set_pa_devs (d :: pa_devs a) a);; mret PVRSRV_OK.

Definition is_powered (index : Z) (a : power_abs W) : bool :=
  negb (bool_decide (pa_holder a = Some KERNEL_ID ∨ pa_holder a = Some ISR_ID)) &&
  match find_dev index (pa_devs a) ≫= (pa_devs a !!.) with
  | Some d => bool_decide (pd_eCurrentPowerState d = PVRSRV_DEV_POWER_STATE_ON)
  | None => false
  end.

(** The clock handlers run when the post handler is there. *)
Definition a_clock (index : Z) (f : PVRSRV_POWER_DEV → M (power_abs W) PVRSRV_ERROR) : M (power_abs W) PVRSRV_ERROR :=
  o ← gets (λ a, find_dev index (pa_devs a) ≫= (pa_devs a !!.));
  match o with
  | Some d => if pfnPostClockSpeedChange d =? IMG_NULL then mret PVRSRV_OK else f d
  | None => mret PVRSRV_OK
  end.

Definition a_pre_clock (index : Z) (idle : bool) : M (power_abs W) PVRSRV_ERROR :=
  e ← (if idle then a_lock KERNEL_ID false else mret PVRSRV_OK);
  if negb (is_OK e) then mret e
  else
    e ← a_clock index (λ d,
      if pfnPreClockSpeedChange d =? IMG_NULL then fault
      else in_world (pre_clock (pfnPreClockSpeedChange d) (hDevCookie d) idle (pd_eCurrentPowerState d)));
    (if idle && negb (is_OK e) then a_release KERNEL_ID else mret tt);;
    mret e.

Definition a_post_clock (index : Z) (idle : bool) : M (power_abs W) unit :=
  _ ← a_clock index (λ d, in_world (post_clock (pfnPostClockSpeedChange d) (hDevCookie d) idle (pd_eCurrentPowerState d)));
  if idle then a_release KERNEL_ID else mret tt.
End spec.

(** ** Representation *)

(** The links in [L] are the list [addrs]. *)
Record links (L : lists) (addrs : list Z) : Prop := {
  lk_ok : lists_ok L {[0 := addrs]};
  lk_dom x : is_Some (l_nodes L !! x) → x ∈ addrs }.

Definition holds (r : PVRSRV_RESOURCE) (h : option Z) : Prop :=
  match h with Some id => r = mkResource 1 id | None => r = mkResource 0 0 end.

Record rep_at {W} (L : lists) (addrs : list Z) (s : pw_st W) (a : power_abs W) : Prop := {
  pr_list : psPowerDeviceList s = L;
  pr_devs : Forall2 (λ x d, pw_devs s !! x = Some d) addrs (pa_devs a);
  pr_dom x : is_Some (pw_devs s !! x) → x ∈ addrs;
  pr_next x : x ∈ addrs → x < pw_next s;
  pr_pos : 0 < pw_next s;
  pr_lock : holds (sPowerStateChangeResource s) (pa_holder a);
  pr_os : pw_os s = pa_os a;
  pr_init : pw_init s = pa_init a;
  pr_sys : eCurrentPowerState s = pa_sys a;
  pr_failed : eFailedPowerState s = pa_failed a;
  pr_world : pw_world s = pa_world a }.

Definition rep {W} (s : pw_st W) (a : power_abs W) : Prop := ∃ L addrs, links L addrs ∧ rep_at L addrs s a.

(** The environment does what [wait_spec] says. *)
Class PowerWaitLaw {W} (env : PowerEnv W) (wait : PowerWait W) : Prop := wait_sim : sim rep power_wait wait_spec.
