(* ===== verification/PowerSim.v ===== *)
(** * The power manager simulates its list of devices

    Every routine of power.c simulates its abstract operation. *)

From S2P Require Import Prelude Lists Resource Sim Power PowerRep.

Section sims.
Context {W : Type} {env : PowerEnv W}.

Lemma sim_lift {B} (m : M (pw_st W) B) sp :
  (∀ L addrs, links L addrs → sim (rep_at L addrs) m sp) → sim rep m sp.
Proof.
  intros H s a b a' (L&addrs&HL&HR) Hb. destruct (H _ _ HL _ _ _ _ HR Hb) as (s'&Hs&HR').
  exists s'. split; [done|]. by exists L, addrs.
Qed.

Lemma rep_world L addrs s (a : power_abs W) w : rep_at L addrs s a → rep_at L addrs (set_pw_world w s) (set_pa_world w a).
Proof. intros []. by split. Qed.

Lemma power_rep_os L addrs s (a : power_abs W) o : rep_at L addrs s a → rep_at L addrs (set_pw_os o s) (set_pa_os o a).
Proof. intros []. by split. Qed.

Lemma rep_holder L addrs s (a : power_abs W) r h :
  rep_at L addrs s a → holds r h → rep_at L addrs (set_sPowerStateChangeResource r s) (set_pa_holder h a).
Proof. intros [] ?. by split. Qed.

Lemma rep_sys L addrs s (a : power_abs W) x : rep_at L addrs s a → rep_at L addrs (set_eCurrentPowerState x s) (set_pa_sys x a).
Proof. intros []. by split. Qed.

Lemma rep_failed L addrs s (a : power_abs W) x : rep_at L addrs s a → rep_at L addrs (set_eFailedPowerState x s) (set_pa_failed x a).
Proof. intros []. by split. Qed.

Lemma sim_world {B} L addrs (m : M W B) : sim (rep_at L addrs) (world m) (in_world m).
Proof. apply sim_zoom; [by intros s a []|]. intros s a t. apply rep_world. Qed.

Lemma sim_os {B} L addrs (m : M os B) : sim (rep_at (W := W) L addrs) (with_pw_os m) (in_os m).
Proof. apply sim_zoom; [by intros s a []|]. intros s a t. apply power_rep_os. Qed.

Lemma sim_cur L addrs : sim (rep_at L addrs) (gets (eCurrentPowerState (W := W))) (gets pa_sys).
Proof. apply sim_gets. by intros s a []. Qed.

(** The caller's identifier decides whether the lock goes. *)
Lemma sim_PVRSRVPowerUnlock L addrs id : sim (rep_at L addrs) (PVRSRVPowerUnlock (W := W) id) (a_release id).
Proof.
  apply sim_intro. intros s a b a' HR [= <- <-]. unfold PVRSRVPowerUnlock, OSUnlockResource, OSPowerLockUnwrap.
  wp_step. wp_step. wp_step. pose proof (pr_lock _ _ _ _ HR) as Hl.
  destruct (pa_holder a) as [h|] eqn:Hh; unfold holds in Hl; rewrite Hl; cbn.
  - destruct (Z.eqb_spec h id) as [->|Hne].
    + rewrite decide_True by done. wp_step. wp_step. wp_step. cbn. split; [done|]. by apply rep_holder.
    + rewrite decide_False by congruence. wp_step. done.
  - done.
Qed.

(** One attempt. *)
Lemma sim_try L addrs id (k : PVRSRV_ERROR → M (pw_st W) PVRSRV_ERROR) (ks : bool → M (power_abs W) PVRSRV_ERROR) :
  sim (rep_at L addrs) (k PVRSRV_OK) (ks true) → sim rep (k PVRSRV_ERROR_UNABLE_TO_LOCK_RESOURCE) (ks false) → links L addrs →
  ∀ s a b a', rep_at L addrs s a → (ok ← a_take id; ks ok) a = Done b a' →
  ∃ s', (e ← OSLockResource sPowerStateChangeResource set_sPowerStateChangeResource id; k e) s = Done b s' ∧ rep s' a'.
Proof.
  intros Hok Hno HL s a b a' HR Hb. pose proof (pr_lock _ _ _ _ HR) as Hl.
  assert (∀ e s1, OSLockResource sPowerStateChangeResource set_sPowerStateChangeResource id s = Done e s1 →
    (e ← OSLockResource sPowerStateChangeResource set_sPowerStateChangeResource id; k e) s = k e s1) as Hk.
  { intros e s1 He. change (match OSLockResource sPowerStateChangeResource set_sPowerStateChangeResource id s with
      Done e s1 => k e s1 | Fault => Fault | OutOfFuel => OutOfFuel end = k e s1). by rewrite He. }
  change (match a_take id a with Done ok a1 => ks ok a1 | Fault => Fault | OutOfFuel => OutOfFuel end = Done b a') in Hb.
  assert (a_take id a = match pa_holder a with None => Done true (set_pa_holder (Some id) a) | Some _ => Done false a end) as Ht.
  { cbv [a_take mbind M_bind mret M_ret gets modify]. by destruct (pa_holder a). }
  assert (OSLockResource sPowerStateChangeResource set_sPowerStateChangeResource id s =
    match pa_holder a with None => Done PVRSRV_OK (set_sPowerStateChangeResource (mkResource 1 id) s)
    | Some _ => Done PVRSRV_ERROR_UNABLE_TO_LOCK_RESOURCE s end) as Hs.
  { cbv [OSLockResource mbind M_bind mret M_ret get modify]. destruct (pa_holder a); unfold holds in Hl; by rewrite Hl. }
  rewrite Ht in Hb. destruct (pa_holder a) as [h|] eqn:Hh.
  - rewrite (Hk _ _ Hs). eapply Hno; [by exists L, addrs|exact Hb].
  - rewrite (Hk _ _ Hs). edestruct Hok as (s'&Hs'&HR'); [eapply rep_holder; [exact HR|]|exact Hb|]; [done|].
    exists s'. split; [done|]. by exists L, addrs.
Qed.

Context {wait : PowerWait W} {law : PowerWaitLaw env wait}.

Lemma sim_power_lock_loop id : ∀ n, is_u32 (Z.of_nat (S n)) →
  sim rep (power_lock_loop (S n) (id =? ISR_ID) id (Z.of_nat (S n))) (a_poll (S n) id).
Proof.
  induction n as [|n IH]; intros Hn s a b a' (L&addrs&HL&HR) Hb.
  - eapply (sim_try L addrs id (λ e, if is_OK e then mret e else if id =? ISR_ID then mret PVRSRV_ERROR_RETRY
      else power_wait;; if 0 <? u32 (1 - 1) then power_lock_loop 0 (id =? ISR_ID) id (u32 (1 - 1)) else mret e)
      (λ ok : bool, if ok then mret PVRSRV_OK else if id =? ISR_ID then mret PVRSRV_ERROR_RETRY else wait_spec;; a_poll 0 id));
      [apply sim_ret| |exact HL|exact HR|exact Hb].
    cbn [is_OK]. destruct (id =? ISR_ID); [apply sim_ret|]. apply sim_bind; [apply wait_sim|]. intros []. apply sim_ret.
  - eapply (sim_try L addrs id (λ e, if is_OK e then mret e else if id =? ISR_ID then mret PVRSRV_ERROR_RETRY
      else power_wait;; if 0 <? u32 (Z.of_nat (S (S n)) - 1) then power_lock_loop (S n) (id =? ISR_ID) id (u32 (Z.of_nat (S (S n)) - 1)) else mret e)
      (λ ok : bool, if ok then mret PVRSRV_OK else if id =? ISR_ID then mret PVRSRV_ERROR_RETRY else wait_spec;; a_poll (S n) id));
      [apply sim_ret| |exact HL|exact HR|exact Hb].
    cbn [is_OK]. destruct (id =? ISR_ID); [apply sim_ret|]. apply sim_bind; [apply wait_sim|]. intros [].
    assert (u32 (Z.of_nat (S (S n)) - 1) = Z.of_nat (S n)) as -> by (rewrite u32_small; unfold is_u32 in *; lia).
    rewrite (proj2 (Z.ltb_lt 0 (Z.of_nat (S n)))) by lia. apply IH. unfold is_u32 in *. lia.
Qed.

Lemma sim_PVRSRVPowerLock id event : sim rep (PVRSRVPowerLock (W := W) id event) (a_lock id event).
Proof.
  unfold PVRSRVPowerLock, a_lock, OSPowerLockWrap, OSPowerLockUnwrap.
  assert (∀ n, n = S (pred n) → is_u32 (Z.of_nat n) → sim rep (power_lock_loop n (id =? ISR_ID) id (Z.of_nat n)) (a_poll n id)) as Hl.
  { intros n -> Hn. by apply sim_power_lock_loop. }
  assert (Z.to_nat POWER_LOCK_TIMEOUT = S (pred (Z.to_nat POWER_LOCK_TIMEOUT))) as Hpos.
  { rewrite Nat.succ_pred; [done|]. unfold POWER_LOCK_TIMEOUT. intros H%(f_equal Z.of_nat). rewrite Z2Nat.id in H; lia. }
  specialize (Hl _ Hpos). rewrite Z2Nat.id in Hl by done. specialize (Hl ltac:(unfold is_u32, POWER_LOCK_TIMEOUT; lia)).
  generalize (Z.to_nat POWER_LOCK_TIMEOUT) Hl. clear Hl Hpos. intros n Hl s a b a' HR Hb.
  refine (sim_bind rep _ _ (λ e, (if negb (is_OK e) then mret tt else mret tt);; cur ← gets eCurrentPowerState;
    if is_OK e && negb event && negb (_IsSystemStatePowered cur) then PVRSRVPowerUnlock id;; mret PVRSRV_ERROR_RETRY else mret e) _ Hl _ s a b a' HR Hb).
  intros e. cbn beta. clear s a b a' HR Hb. intros s a b a' HR Hb.
  assert (sim (rep (W := W)) (cur ← gets eCurrentPowerState;
    if is_OK e && negb event && negb (_IsSystemStatePowered cur) then PVRSRVPowerUnlock id;; mret PVRSRV_ERROR_RETRY else mret e)
    (sys ← gets pa_sys; if is_OK e && negb (event || _IsSystemStatePowered sys) then a_release id;; mret PVRSRV_ERROR_RETRY else mret e)) as H.
  { apply sim_lift. intros L addrs HL. apply sim_bind; [apply sim_cur|]. intros cur.
    rewrite negb_orb, andb_assoc. sim_steps. apply sim_PVRSRVPowerUnlock. }
  destruct (H s a b a' HR Hb) as (s'&Hs'&HR'). exists s'. split; [|done]. rewrite <- Hs'. by destruct (negb (is_OK e)).
Qed.

(** ** Stages *)

Lemma sim_get_powerdev L addrs i x : addrs !! i = Some x → sim (rep_at (W := W) L addrs) (get_powerdev x) (a_dev i).
Proof.
  intros Hx. apply sim_intro. intros s a d a' HR Hd. destruct (Forall2_lookup_l _ _ _ _ _ (pr_devs _ _ _ _ HR) Hx) as (d'&Hd'&Hs).
  cbv [a_dev mbind M_bind gets deref mret M_ret] in Hd. rewrite Hd' in Hd. injection Hd as <- <-.
  unfold get_powerdev. wp_step. wp_step. rewrite Hs. by wp_step.
Qed.

Lemma sim_call {B} L addrs f (g : Z → M W B) : f ≠ IMG_NULL → sim (rep_at (W := W) L addrs) (call f g) (in_world (g f)).
Proof. intros Hf. unfold call. rewrite (proj2 (Z.eqb_neq _ _)) by done. apply sim_world. Qed.

Lemma sim_optional_call L addrs f (g : Z → M W PVRSRV_ERROR) :
  sim (rep_at (W := W) L addrs) (if negb (f =? IMG_NULL) then call f g else mret PVRSRV_OK)
    (if f =? IMG_NULL then mret PVRSRV_OK else in_world (g f)).
Proof. destruct (Z.eqb_spec f IMG_NULL); simpl; [apply sim_ret|by apply sim_call]. Qed.

Lemma sim_set_pd L addrs i x e d : addrs !! i = Some x →
  ∀ s a b a', rep_at (W := W) L addrs s a → pa_devs a !! i = Some d →
  modify (λ a, set_pa_devs (<[i := pd_set e d]> (pa_devs a)) a) a = Done b a' →
  NoDup addrs → ∃ s', set_pd_eCurrentPowerState x e s = Done b s' ∧ rep_at L addrs s' a'.
Proof.
  intros Hx s a b a' HR Hd [= <- <-] Hn. destruct (Forall2_lookup_l _ _ _ _ _ (pr_devs _ _ _ _ HR) Hx) as (d'&Hd'&Hs).
  rewrite Hd in Hd'. injection Hd' as <-.
  assert (wp (set_pd_eCurrentPowerState x e) (λ u s', u = tt ∧ rep_at L addrs s' (set_pa_devs (<[i := pd_set e d]> (pa_devs a)) a)) s) as Hw.
  { unfold set_pd_eCurrentPowerState, get_powerdev. wp_step. wp_step. wp_step. rewrite Hs. wp_step. wp_step.
    split; [done|]. pose proof (pr_devs _ _ _ _ HR) as HF. pose proof (pr_dom _ _ _ _ HR) as Hdom.
    destruct HR. split; try done; simpl.
    - apply Forall2_same_length_lookup_2; [by rewrite length_insert; eapply Forall2_length|].
      intros j y d2 Hy Hj. destruct (decide (j = i)) as [->|Hne].
      + assert (y = x) as -> by congruence. rewrite list_lookup_insert_eq in Hj by (by eapply lookup_lt_Some).
        injection Hj as <-. by rewrite lookup_insert_eq.
      + rewrite list_lookup_insert_ne in Hj by done. rewrite lookup_insert_ne.
        * by eapply (Forall2_lookup_lr _ _ _ _ _ _ HF).
        * intros <-. by apply Hne, (NoDup_lookup addrs j i x).
    - intros y [->|[_ Hy]]%lookup_insert_is_Some; [by eapply list_elem_of_lookup_2|auto]. }
  apply wp_Done in Hw as (?&s'&Hw&->&HR'). by exists s'.
Qed.

Definition selection (bAllDevices : bool) (index : Z) : option Z := if bAllDevices then None else Some index.

(** [d] is entry [i]. *)
Definition rep_dev (L : lists) (addrs : list Z) (i : nat) (d : PVRSRV_POWER_DEV) (s : pw_st W) (a : power_abs W) : Prop :=
  rep_at L addrs s a ∧ pa_devs a !! i = Some d.

Lemma sim_world_dev {B} L addrs i d (m : M W B) : sim (rep_dev L addrs i d) (world m) (in_world m).
Proof. apply sim_zoom; [by intros s a [[] _]|]. intros s a w [HR Hd]. split; [by apply rep_world|done]. Qed.

Lemma sim_call_dev L addrs i d f (g : Z → M W PVRSRV_ERROR) :
  sim (rep_dev L addrs i d) (if negb (f =? IMG_NULL) then call f g else mret PVRSRV_OK)
    (if f =? IMG_NULL then mret PVRSRV_OK else in_world (g f)).
Proof.
  destruct (f =? IMG_NULL) eqn:Hf; simpl; [apply sim_ret|]. unfold call. rewrite Hf. apply sim_world_dev.
Qed.

Lemma sim_guard L addrs (all : bool) index target i x (k : PVRSRV_POWER_DEV → M (pw_st W) PVRSRV_ERROR) ks :
  addrs !! i = Some x → (∀ d, sim_to (rep_dev L addrs i d) (rep_at L addrs) (k d) (ks d)) →
  sim (rep_at L addrs)
    (d ← get_powerdev x;
     if all || (index =? ui32DeviceIndex d) then
       if decide (pd_eCurrentPowerState d ≠ new_device_state target d) then k d else mret PVRSRV_OK
     else mret PVRSRV_OK)
    (d ← a_dev i; if changes (selection all index) target d then ks d else mret PVRSRV_OK).
Proof.
  intros Hx Hk s a b a' HR Hb. destruct (Forall2_lookup_l _ _ _ _ _ (pr_devs _ _ _ _ HR) Hx) as (d&Hd&Hs).
  cbv [a_dev get_powerdev mbind M_bind gets deref mret M_ret] in Hb |- *. rewrite Hd in Hb. rewrite Hs.
  unfold changes, selection in Hb.
  assert (all || (index =? ui32DeviceIndex d) = match (if all then None else Some index) with None => true | Some index => index =? ui32DeviceIndex d end) as Hsel by (by destruct all).
  rewrite Hsel. destruct (match _ with None => true | Some _ => _ end); simpl in Hb.
  - destruct (decide _) as [Hc|Hc].
    + rewrite bool_decide_true in Hb by done. by apply (Hk d s a).
    + rewrite bool_decide_false in Hb by done. injection Hb as <- <-. by exists s.
  - injection Hb as <- <-. by exists s.
Qed.

(** An error is passed on, [PVRSRV_OK] is answered otherwise. *)
Lemma is_OK_id (m : M (pw_st W) PVRSRV_ERROR) s : (e ← m; if negb (is_OK e) then mret e else mret PVRSRV_OK) s = m s.
Proof. cbv [mbind M_bind mret M_ret]. destruct (m s) as [[] s'| |]; done. Qed.

Lemma sim_pre_cb L addrs all index target i x : addrs !! i = Some x →
  sim (rep_at L addrs) (PVRSRVDevicePrePowerStateKM_AnyVaCb all index target x)
    (d ← a_dev i; if changes (selection all index) target d then pre_stage target d else mret PVRSRV_OK).
Proof.
  intros Hx. unfold PVRSRVDevicePrePowerStateKM_AnyVaCb. cbv zeta.
  refine (sim_guard L addrs all index target i x (λ d, _) _ Hx _).
  intros d. apply sim_to_weaken; [|by intros s a []]. unfold pre_stage.
  apply sim_bind; [apply sim_call_dev|]. intros e. unfold and_then. destruct (is_OK e); simpl; [|apply sim_ret].
  intros s a b a' HR Hb. destruct (sim_world_dev L addrs i d _ s a b a' HR Hb) as (s'&Hs'&HR'). exists s'. split; [|done].
  by rewrite is_OK_id.
Qed.

Lemma sim_post_cb L addrs all index target i x : NoDup addrs → addrs !! i = Some x →
  sim (rep_at L addrs) (PVRSRVDevicePostPowerStateKM_AnyVaCb all index target x)
    (d ← a_dev i; if changes (selection all index) target d then post_stage target i d else mret PVRSRV_OK).
Proof.
  intros Hn Hx. unfold PVRSRVDevicePostPowerStateKM_AnyVaCb. cbv zeta.
  refine (sim_guard L addrs all index target i x (λ d, _) _ Hx _).
  intros d. unfold post_stage.
  assert (∀ e : PVRSRV_ERROR, sim_to (rep_dev L addrs i d) (rep_at L addrs) (mret e) (mret e)) as Hret.
  { intros e. apply sim_to_weaken; [apply sim_ret|by intros s a []]. }
  apply sim_to_bind; [apply sim_world_dev|]. intros e. destruct (is_OK e) eqn:He; cbn [negb].
  - apply sim_to_bind; [unfold and_then; rewrite He; apply sim_call_dev|]. intros e2. unfold and_then.
    destruct (is_OK e2); cbn [negb]; [|apply Hret]. intros s a b a' [HR Hd] [= <- <-].
    edestruct (sim_set_pd L addrs i x (new_device_state target d) d Hx s a) as (s'&Hs'&HR'); [exact HR|exact Hd|reflexivity|exact Hn|].
    exists s'. split; [|exact HR']. cbv [mbind M_bind]. by rewrite Hs'.
  - intros s a b a' HR Hb. apply (Hret e s a b a' HR). destruct e; done.
Qed.

Lemma sim_each L addrs all index target stage (cb : Z → M (pw_st W) PVRSRV_ERROR) : links L addrs →
  (∀ i x, addrs !! i = Some x → sim (rep_at L addrs) (cb x)
     (d ← a_dev i; if changes (selection all index) target d then stage i d else mret PVRSRV_OK)) →
  sim (rep_at L addrs) (head ← on_powerdevs _ (load (HeadOf 0)); List_Any_2 on_powerdevs PVRSRV_OK is_OK head cb)
    (each (selection all index) target stage).
Proof.
  intros [Hok _] Hcb s a b a' HR Hb. destruct (lo_seg _ _ Hok 0 addrs (lookup_singleton_eq _ _)) as [Hs Hn].
  unfold each in Hb.
  change (until is_OK PVRSRV_OK ((λ i, d ← a_dev i; if changes (selection all index) target d then stage i d else mret PVRSRV_OK)
    <$> seq 0 (length (pa_devs a))) a = Done b a') in Hb.
  rewrite <- (Forall2_length _ _ _ (pr_devs _ _ _ _ HR)) in Hb. revert s a b a' HR Hb.
  refine (sim_List_Any_2 _ on_powerdevs psPowerDeviceList _ L _ PVRSRV_OK is_OK cb addrs _ 0 Hs Hn _).
  - intros B m Q s Hm. unfold on_powerdevs. apply wp_zoom. eapply wp_mono; [exact Hm|]. intros b t [-> HQ].
    destruct s; exact HQ.
  - by intros s a [].
  - apply Forall2_same_length_lookup_2; [by rewrite length_fmap, length_seq|].
    intros i x sp Hx Hsp. rewrite list_lookup_fmap in Hsp. destruct (seq 0 (length addrs) !! i) as [j|] eqn:Hj; [|done].
    apply lookup_seq in Hj as [-> _]. injection Hsp as <-. by apply Hcb.
Qed.

Lemma sim_PVRSRVDevicePrePowerStateKM all index target :
  sim rep (PVRSRVDevicePrePowerStateKM (W := W) all index target) (a_pre (selection all index) target).
Proof. apply sim_lift. intros L addrs HL. apply sim_each; [done|]. intros i x. apply sim_pre_cb. Qed.

Lemma sim_PVRSRVDevicePostPowerStateKM all index target :
  sim rep (PVRSRVDevicePostPowerStateKM (W := W) all index target) (a_post (selection all index) target).
Proof.
  apply sim_lift. intros L addrs HL. apply sim_each; [done|]. intros i x. apply sim_post_cb.
  by destruct (lo_seg _ _ (lk_ok _ _ HL) 0 addrs (lookup_singleton_eq _ _)).
Qed.
End sims.
