(* ===== verification/PowerOps.v ===== *)
(** * The operations of the power manager

    The device list's operations and the transitions simulate their abstract
    operations; sequences of calls follow. *)

From S2P Require Import Prelude Lists Resource Sim Power PowerRep PowerSim.

Section ops.
Context {W : Type} {env : PowerEnv W} {wait : PowerWait W} {law : PowerWaitLaw env wait}.

(** ** Finding a device *)

Lemma find_dev_cons index d l :
  find_dev index (d :: l) = if decide (ui32DeviceIndex d = index) then Some 0%nat else S <$> find_dev index l.
Proof.
  unfold find_dev. simpl. destruct (decide _) as [H|H]; [done|].
  by destruct (list_find (λ d, ui32DeviceIndex d = index) l) as [[]|].
Qed.

(** The address the code finds and the position. *)
Definition found (addrs : list Z) (x : Z) (o : option nat) : Prop :=
  match o with Some i => addrs !! i = Some x ∧ x ≠ 0 | None => x = 0 end.

Lemma first_of_find index (m : gmap Z PVRSRV_POWER_DEV) addrs devs :
  Forall2 (λ x d, m !! x = Some d) addrs devs → (∀ x, x ∈ addrs → x ≠ 0) →
  found addrs (first_of (λ r, r =? IMG_NULL)
    (λ x, if from_option (λ d, ui32DeviceIndex d =? index) false (m !! x) then x else IMG_NULL) IMG_NULL addrs)
    (find_dev index devs).
Proof.
  induction 1 as [|x d addrs devs Hx HF IH]; intros H0; [done|]. rewrite find_dev_cons. cbn [first_of]. rewrite Hx. simpl.
  destruct (Z.eqb_spec (ui32DeviceIndex d) index) as [He|He].
  - rewrite decide_True by done. rewrite (proj2 (Z.eqb_neq _ _)) by (apply H0; by left). simpl. split; [done|apply H0; by left].
  - rewrite decide_False by done. simpl. specialize (IH ltac:(intros y Hy; apply H0; by right)).
    unfold found in *. by destruct (find_dev index devs).
Qed.

Lemma wp_find_power_device L addrs index (s : pw_st W) a Q : links L addrs → rep_at L addrs s a →
  (∀ x, found addrs x (find_dev index (pa_devs a)) → Q x s) → wp (find_power_device index) Q s.
Proof.
  intros [Hok _] HR HQ. destruct (lo_seg _ _ Hok 0 addrs (lookup_singleton_eq _ _)) as [Hs Hn].
  assert (∀ B (m : M lists B) Q (s : pw_st W), wp m (λ b t, t = psPowerDeviceList s ∧ Q b s) (psPowerDeviceList s) → wp (on_powerdevs B m) Q s) as Hon.
  { intros B m Q' t Hm. unfold on_powerdevs. apply wp_zoom. eapply wp_mono; [exact Hm|]. intros b l [-> HQ']. by destruct t. }
  unfold find_power_device. wp_step. apply Hon. rewrite (pr_list _ _ _ _ HR). eapply wp_load; [by eapply seg_head|]. split; [done|].
  unfold List_Any. eapply wp_mono.
  - apply (wp_List_Any_2 on_powerdevs psPowerDeviceList Hon _ _ _
      (λ x, if from_option (λ d, ui32DeviceIndex d =? index) false (pw_devs s !! x) then x else IMG_NULL) s (HeadOf 0) addrs);
      [by rewrite (pr_list _ _ _ _ HR)|done|done|].
    intros x Q' [i Hx]%list_elem_of_lookup HQ'. destruct (Forall2_lookup_l _ _ _ _ _ (pr_devs _ _ _ _ HR) Hx) as (d&_&Hd).
    unfold MatchPowerDeviceIndex_AnyVaCb, get_powerdev. wp_step. wp_step. wp_step. rewrite Hd in HQ' |- *. by wp_step.
  - intros x s' [-> ->]. apply HQ. apply first_of_find; [by eapply pr_devs|]. intros y Hy. by apply (seg_nonzero L (HeadOf 0) addrs).
Qed.

(** A routine that starts by looking for a device. *)
Lemma sim_find {B} L addrs index (k : Z → M (pw_st W) B) (ks : option nat → M (power_abs W) B) : links L addrs →
  (∀ x o, found addrs x o → sim_to (λ s a, rep_at L addrs s a ∧ find_dev index (pa_devs a) = o) rep (k x) (ks o)) →
  sim_to (rep_at L addrs) rep (x ← find_power_device index; k x) (o ← gets (λ a, find_dev index (pa_devs a)); ks o).
Proof.
  intros HL Hk s a b a' HR Hb.
  assert (wp (find_power_device index) (λ x s', found addrs x (find_dev index (pa_devs a)) ∧ s' = s) s) as (x&s1&Hx&Hf&->)%wp_Done.
  { by eapply wp_find_power_device. }
  change (ks (find_dev index (pa_devs a)) a = Done b a') in Hb.
  destruct (Hk x _ Hf s a b a' ltac:(done) Hb) as (s'&Hs'&HR'). exists s'. split; [|done].
  cbv [mbind M_bind]. by rewrite Hx.
Qed.

(** ** Removing and registering *)

Lemma links_remove L addrs i x : links L addrs → addrs !! i = Some x →
  wp (List_Remove x) (λ _ L', links (mkLists (delete x (l_nodes L')) (l_heads L')) (delete i addrs)) L.
Proof.
  intros [Hok Hdom] Hx. destruct (list_elem_of_split_length _ _ _ Hx) as (l1&l2&Hl&Hi).
  assert (NoDup addrs) as Hn by (by destruct (lo_seg _ _ Hok 0 addrs (lookup_singleton_eq _ _))).
  rewrite Hl in Hok, Hn. eapply wp_mono; [eapply wp_List_Remove; [exact Hok|apply lookup_singleton_eq]|].
  intros [] L' [Hok' Hs]. rewrite insert_singleton_eq in Hok'.
  assert (delete i addrs = l1 ++ l2) as -> by (rewrite Hl, Hi; by rewrite delete_middle).
  assert (x ∉ l1 ++ l2) as Hxl.
  { apply NoDup_app in Hn as (_&Hd&Hn). apply NoDup_cons in Hn as [Hn _]. intros [H|H]%elem_of_app; [|done].
    apply (Hd x H). by left. }
  split.
  - split.
    + intros h l Hh. destruct (lo_seg _ _ Hok' h l Hh) as [Hseg Hnd]. split; [|done].
      apply lookup_singleton_Some in Hh as [<- <-]. eapply seg_ext; [| |exact Hseg]; [done|].
      intros y Hy. unfold rd, pps. simpl. rewrite lookup_delete_ne by (intros ->; done). done.
    + apply Hok'.
  - intros y. simpl. intros [z Hz]. apply lookup_delete_Some in Hz as [Hne Hz].
    assert (y ∈ addrs) as Hy by (apply Hdom, Hs; eauto). rewrite Hl in Hy. set_solver.
Qed.

Lemma rep_removed L addrs i x s (a : power_abs W) L' : NoDup addrs → addrs !! i = Some x → rep_at L addrs s a →
  rep_at L' (delete i addrs)
    (set_psPowerDeviceList L' (set_pw_devs (delete x (pw_devs s)) (set_pw_os {| os_script := os_script (pw_os s); os_live := os_live (pw_os s) - 1 |} s)))
    (set_pa_devs (delete i (pa_devs a)) (set_pa_os {| os_script := os_script (pa_os a); os_live := os_live (pa_os a) - 1 |} a)).
Proof.
  intros Hn Hx HR. pose proof (pr_devs _ _ _ _ HR) as HF. destruct (list_elem_of_split_length _ _ _ Hx) as (l1&l2&->&->).
  apply Forall2_app_inv_l in HF as (d1&d2'&HF1&HF2&Hd). apply Forall2_cons_inv_l in HF2 as (d&d2&_&HF2&->).
  assert (x ∉ l1 ++ l2) as Hxl.
  { apply NoDup_app in Hn as (_&Hd'&Hn). apply NoDup_cons in Hn as [Hn _]. intros [H|H]%elem_of_app; [|done].
    apply (Hd' x H). by left. }
  pose proof (pr_next _ _ _ _ HR) as Hnx. pose proof (pr_dom _ _ _ _ HR) as Hdom. pose proof (pr_os _ _ _ _ HR) as Hos.
  rewrite Hd, (Forall2_length _ _ _ HF1), delete_middle, <- (Forall2_length _ _ _ HF1), delete_middle.
  destruct HR. split; simpl; try done.
  - assert (Forall2 (λ x d, pw_devs s !! x = Some d) (l1 ++ l2) (d1 ++ d2)) as HF' by (by apply Forall2_app).
    apply Forall2_same_length_lookup_2; [by eapply Forall2_length|]. intros j y e Hy He. rewrite lookup_delete_ne.
    + by apply (Forall2_lookup_lr _ _ _ _ _ _ HF' Hy He).
    + intros ->. apply Hxl. by eapply list_elem_of_lookup_2.
  - intros y [z [Hne Hz]%lookup_delete_Some]. assert (y ∈ l1 ++ x :: l2) by eauto. set_solver.
  - intros y Hy. apply Hnx. set_solver.
  - by rewrite Hos.
Qed.

Lemma sim_PVRSRVRemovePowerDevice index : sim rep (PVRSRVRemovePowerDevice (W := W) index) (a_remove index).
Proof.
  intros s a b a' (L&addrs&HL&HR). revert s a b a' HR. unfold PVRSRVRemovePowerDevice, a_remove.
  apply sim_find; [done|]. intros x [i|] Hf.
  - destruct Hf as [Hx H0]. intros s a b a' [HR Hi] [= <- <-]. rewrite (proj2 (Z.eqb_neq x IMG_NULL)) by done. cbn [negb].
    assert (wp ((on_powerdevs _ (List_Remove x);; with_pw_os OSFreeMem;;
      modify (λ s, set_psPowerDeviceList (mkLists (delete x (l_nodes (psPowerDeviceList s))) (l_heads (psPowerDeviceList s)))
       (set_pw_devs (delete x (pw_devs s)) s)));; mret PVRSRV_OK)
      (λ e s', e = PVRSRV_OK ∧ rep s' (set_pa_devs (delete i (pa_devs a)) (set_pa_os {| os_script := os_script (pa_os a); os_live := os_live (pa_os a) - 1 |} a))) s) as H.
    { wp_step. wp_step. unfold on_powerdevs. wp_step. rewrite (pr_list _ _ _ _ HR). eapply wp_mono; [by eapply links_remove|].
      intros [] L' HL'. wp_step. unfold with_pw_os. wp_step. apply wp_OSFreeMem. wp_step. wp_step. split; [done|].
      eexists _, _. split; [exact HL'|].
      assert (NoDup addrs) as Hn by (by destruct (lo_seg _ _ (lk_ok _ _ HL) 0 addrs (lookup_singleton_eq _ _))).
      exact (rep_removed L addrs i x s a (mkLists (delete x (l_nodes L')) (l_heads L')) Hn Hx HR). }
    apply wp_Done in H as (e&s'&Hs'&->&HR'). by exists s'.
  - unfold found in Hf. subst x. apply sim_to_weaken; [apply sim_ret|]. intros s a [HR _]. by exists L, addrs.
Qed.

Lemma device_links_insert L addrs x : links L addrs → x ∉ addrs → x ≠ 0 →
  wp (List_Insert (HeadOf 0) x) (λ _ L', links L' (x :: addrs)) (mkLists (<[x := mkNode 0 (HeadOf (-1))]> (l_nodes L)) (l_heads L)).
Proof.
  intros [Hok Hdom] Hx H0. eapply wp_mono.
  - apply (wp_List_Insert _ {[0 := addrs]} 0 addrs); [|apply lookup_singleton_eq|done|simpl; rewrite lookup_insert_eq; eauto|].
    + split; [|apply Hok]. intros h l Hh. destruct (lo_seg _ _ Hok h l Hh) as [Hs Hn]. split; [|done].
      apply lookup_singleton_Some in Hh as [<- <-]. eapply seg_ext; [| |exact Hs]; [done|].
      intros y Hy. unfold rd, pps. simpl. rewrite lookup_insert_ne by (intros ->; done). done.
    + intros h' k [_ <-]%lookup_singleton_Some. done.
  - intros [] L' [Hok' Hs]. rewrite insert_singleton_eq in Hok'. split; [done|]. intros y [z Hz].
    assert (is_Some (<[x:=mkNode 0 (HeadOf (-1))]> (l_nodes L) !! y)) as [->|[_ Hy]]%lookup_insert_is_Some by (apply Hs; eauto).
    + by left.
    + right. by apply Hdom.
Qed.

Lemma rep_added L addrs x d s (a : power_abs W) L' : rep_at L addrs s a → x = pw_next s →
  rep_at L' (x :: addrs)
    (set_psPowerDeviceList L' (set_pw_devs (<[x := d]> (pw_devs s)) (set_pw_next (x + 1) s)))
    (set_pa_devs (d :: pa_devs a) a).
Proof.
  intros HR ->. pose proof (pr_devs _ _ _ _ HR) as HF. pose proof (pr_next _ _ _ _ HR) as Hnx. pose proof (pr_dom _ _ _ _ HR) as Hdom.
  pose proof (pr_pos _ _ _ _ HR) as Hp. destruct HR. split; simpl; try done.
  - constructor; [by rewrite lookup_insert_eq|]. apply Forall2_same_length_lookup_2; [by eapply Forall2_length|].
    intros j y e Hy He. rewrite lookup_insert_ne.
    + by apply (Forall2_lookup_lr _ _ _ _ _ _ HF Hy He).
    + intros <-. apply list_elem_of_lookup_2, Hnx in Hy. lia.
  - intros y [->|[_ Hy]]%lookup_insert_is_Some; [by left|right; auto].
  - intros y [->|Hy]%elem_of_cons; [lia|]. specialize (Hnx y Hy). lia.
  - lia.
Qed.

Definition device_of (index pre post prec postc cookie : Z) (cur def : PVRSRV_DEV_POWER_STATE) : PVRSRV_POWER_DEV :=
  mkPowerDev pre post prec postc cookie index def cur.

Lemma sim_PVRSRVRegisterPowerDevice index pre post prec postc cookie cur def :
  sim rep (PVRSRVRegisterPowerDevice (W := W) index pre post prec postc cookie cur def)
    (a_register (device_of index pre post prec postc cookie cur def)).
Proof.
  unfold PVRSRVRegisterPowerDevice, a_register. cbn [device_of pfnPrePower pfnPostPower ui32DeviceIndex].
  destruct ((pre =? IMG_NULL) && (post =? IMG_NULL)); [apply sim_PVRSRVRemovePowerDevice|].
  intros s a b a' (L&addrs&HL&HR). revert s a b a' HR. apply sim_to_bind; [apply sim_os|]. intros [] s a b a' HR [= <- <-].
  - assert (wp (s ← get;
        put (set_pw_next (pw_next s + 1)
        (set_psPowerDeviceList (mkLists (<[pw_next s := mkNode 0 (HeadOf (-1))]> (l_nodes (psPowerDeviceList s))) (l_heads (psPowerDeviceList s)))
        (set_pw_devs (<[pw_next s := mkPowerDev pre post prec postc cookie index def cur]> (pw_devs s)) s)));;
        on_powerdevs _ (List_Insert (HeadOf 0) (pw_next s));; mret PVRSRV_OK)
      (λ e s', e = PVRSRV_OK ∧ rep s' (set_pa_devs (mkPowerDev pre post prec postc cookie index def cur :: pa_devs a) a)) s) as H.
    { wp_step. wp_step. wp_step. wp_step. wp_step. unfold on_powerdevs. wp_step. simpl. rewrite (pr_list _ _ _ _ HR).
      pose proof (pr_next _ _ _ _ HR) as Hnx. pose proof (pr_pos _ _ _ _ HR) as Hp.
      eapply wp_mono; [apply (device_links_insert L addrs); [done|intros H; specialize (Hnx _ H); lia|lia]|].
      intros [] L' HL'. wp_step. split; [done|]. exists L', (pw_next s :: addrs). split; [done|].
      exact (rep_added L addrs (pw_next s) _ s a L' HR eq_refl). }
    apply wp_Done in H as (e&s'&Hs'&->&HR'). by exists s'.
  - exists s. split; [done|]. by exists L, addrs.
Qed.

(** ** Looking *)

Lemma find_dev_lookup index l i : find_dev index l = Some i → ∃ d, l !! i = Some d ∧ ui32DeviceIndex d = index.
Proof. unfold find_dev. intros H%fmap_Some. destruct H as ([j d]&(?&?&_)%list_find_Some&->). eauto. Qed.

Lemma found_dev L addrs x i s (a : power_abs W) index : rep_at L addrs s a → found addrs x (Some i) →
  find_dev index (pa_devs a) = Some i → ∃ d, pa_devs a !! i = Some d ∧ pw_devs s !! x = Some d ∧ x ≠ 0.
Proof.
  intros HR [Hx H0] (d&Hd&_)%find_dev_lookup.
  exists d. split; [done|]. split; [|done]. by apply (Forall2_lookup_lr _ _ _ _ _ _ (pr_devs _ _ _ _ HR) Hx Hd).
Qed.

Lemma sim_PVRSRVIsDevicePowered index : sim rep (PVRSRVIsDevicePowered (W := W) index) (gets (is_powered index)).
Proof.
  apply sim_intro. intros s a b a' (L&addrs&HL&HR) [= <- <-].
  unfold PVRSRVIsDevicePowered, OSIsResourceLocked. wp_step. wp_step. wp_step. wp_step.
  assert (((ui32Lock (sPowerStateChangeResource s) =? 1) && (ui32ID (sPowerStateChangeResource s) =? KERNEL_ID)
    || (ui32Lock (sPowerStateChangeResource s) =? 1) && (ui32ID (sPowerStateChangeResource s) =? ISR_ID)) =
    bool_decide (pa_holder a = Some KERNEL_ID ∨ pa_holder a = Some ISR_ID)) as ->.
  { pose proof (pr_lock _ _ _ _ HR) as Hl. apply eq_true_iff_eq.
    rewrite bool_decide_eq_true, orb_true_iff, !andb_true_iff, !Z.eqb_eq.
    destruct (pa_holder a) as [h|]; unfold holds in Hl; rewrite Hl; cbn [ui32Lock ui32ID]; naive_solver. }
  unfold is_powered. destruct (bool_decide _); simpl; [wp_step; split; [done|by exists L, addrs]|].
  wp_step. eapply wp_find_power_device; [done..|]. intros x Hf. destruct (find_dev index (pa_devs a)) as [i|] eqn:Hi; simpl.
  - destruct (found_dev L addrs x i s a index HR Hf Hi) as (d&Hd&Hx&H0). rewrite (proj2 (Z.eqb_neq _ _)), Hd by done.
    unfold get_powerdev. wp_step. wp_step. wp_step. rewrite Hx. wp_step. wp_step. split; [done|by exists L, addrs].
  - simpl in Hf. subst x. simpl. wp_step. split; [done|by exists L, addrs].
Qed.

(** ** Clock speed changes *)

Lemma sim_clock L addrs index (f : PVRSRV_POWER_DEV → M (pw_st W) PVRSRV_ERROR) g : links L addrs →
  (∀ d, pfnPostClockSpeedChange d ≠ IMG_NULL → sim (rep_at L addrs) (f d) (g d)) →
  sim (rep_at L addrs) (x ← find_power_device index;
    if negb (x =? IMG_NULL) then
      d ← get_powerdev x; if negb (pfnPostClockSpeedChange d =? IMG_NULL) then f d else mret PVRSRV_OK
    else mret PVRSRV_OK) (a_clock index g).
Proof.
  intros HL Hf s a b a' HR Hb.
  assert (wp (find_power_device index) (λ x s', found addrs x (find_dev index (pa_devs a)) ∧ s' = s) s) as (x&s1&Hx&Hfo&->)%wp_Done.
  { by eapply wp_find_power_device. }
  cbv [a_clock mbind M_bind gets] in Hb |- *. rewrite Hx. destruct (find_dev index (pa_devs a)) as [i|] eqn:Hi; simpl in Hb.
  - destruct (found_dev L addrs x i s a index HR Hfo Hi) as (d&Hd&Hxd&H0). rewrite (proj2 (Z.eqb_neq _ _)) by done. simpl.
    rewrite Hd in Hb. cbv [get_powerdev mbind M_bind gets deref]. rewrite Hxd. cbv [mret M_ret].
    destruct (Z.eqb_spec (pfnPostClockSpeedChange d) IMG_NULL) as [He|He]; cbn [negb].
    + injection Hb as <- <-. by exists s.
    + by apply (Hf d He s a).
  - simpl in Hfo. subst x. injection Hb as <- <-. by exists s.
Qed.

Lemma sim_pre_clock_body index idle :
  sim rep (x ← find_power_device (W := W) index;
    eError ← (if negb (x =? IMG_NULL) then
                d ← get_powerdev x;
                if negb (pfnPostClockSpeedChange d =? IMG_NULL) then
                  call (pfnPreClockSpeedChange d) (λ f, pre_clock f (hDevCookie d) idle (pd_eCurrentPowerState d))
                else mret PVRSRV_OK
              else mret PVRSRV_OK);
    (if idle && negb (is_OK eError) then PVRSRVPowerUnlock KERNEL_ID else mret tt);; mret eError)
   (e ← a_clock index (λ d,
      if pfnPreClockSpeedChange d =? IMG_NULL then fault
      else in_world (pre_clock (pfnPreClockSpeedChange d) (hDevCookie d) idle (pd_eCurrentPowerState d)));
    (if idle && negb (is_OK e) then a_release KERNEL_ID else mret tt);; mret e).
Proof.
  apply sim_lift. intros L addrs HL s a b a' HR Hb.
  assert (∀ (m : M (pw_st W) Z) (k : Z → M (pw_st W) PVRSRV_ERROR) (h : PVRSRV_ERROR → M (pw_st W) PVRSRV_ERROR) t,
    (x ← m; e ← k x; h e) t = (e ← (x ← m; k x); h e) t) as Has.
  { intros m k h t. cbv [mbind M_bind]. by destruct (m t). }
  rewrite Has. clear Has. revert s a b a' HR Hb.
  apply sim_bind; [apply sim_clock; [done|]|].
  - intros d _. unfold call. destruct (_ =? IMG_NULL); [apply sim_fault|apply sim_world].
  - intros e. sim_steps. apply sim_PVRSRVPowerUnlock.
Qed.

Lemma sim_PVRSRVDevicePreClockSpeedChange index idle :
  sim rep (PVRSRVDevicePreClockSpeedChange (W := W) index idle) (a_pre_clock index idle).
Proof.
  unfold PVRSRVDevicePreClockSpeedChange, a_pre_clock. destruct idle.
  - apply sim_bind; [apply sim_PVRSRVPowerLock|]. intros e. destruct (is_OK e) eqn:He; simpl; [|apply sim_ret].
    apply is_OK_true in He. subst e. apply (sim_pre_clock_body index true).
  - apply (sim_pre_clock_body index false).
Qed.

Lemma sim_PVRSRVDevicePostClockSpeedChange index idle :
  sim rep (PVRSRVDevicePostClockSpeedChange (W := W) index idle) (a_post_clock index idle).
Proof.
  apply sim_lift. intros L addrs HL. unfold PVRSRVDevicePostClockSpeedChange, a_post_clock.
  assert (sim (rep_at (W := W) L addrs) (x ← find_power_device index;
    if negb (x =? IMG_NULL) then
      d ← get_powerdev x; if negb (pfnPostClockSpeedChange d =? IMG_NULL) then
        call (pfnPostClockSpeedChange d) (λ f, post_clock f (hDevCookie d) idle (pd_eCurrentPowerState d)) else mret PVRSRV_OK
    else mret PVRSRV_OK)
    (a_clock index (λ d, in_world (post_clock (pfnPostClockSpeedChange d) (hDevCookie d) idle (pd_eCurrentPowerState d))))) as Hc.
  { apply sim_clock; [done|]. intros d Hd.
    by apply (sim_call L addrs _ (λ f, post_clock f (hDevCookie d) idle (pd_eCurrentPowerState d))). }
  intros s a b a' HR Hb.
  assert (sim (rep_at (W := W) L addrs) (if idle then PVRSRVPowerUnlock KERNEL_ID else mret tt)
    (if idle then a_release KERNEL_ID else mret tt)) as Hk by (sim_steps; apply sim_PVRSRVPowerUnlock).
  destruct (sim_bind _ _ _ (λ _ : PVRSRV_ERROR, if idle then PVRSRVPowerUnlock KERNEL_ID else mret tt)
    (λ _, if idle then a_release KERNEL_ID else mret tt) Hc (λ _, Hk) s a b a' HR Hb) as (s'&Hs'&HR').
  exists s'. split; [|done]. rewrite <- Hs'. cbv [mbind M_bind mret M_ret].
  destruct (find_power_device index s) as [x t| |]; [|done|done]. destruct (negb (x =? IMG_NULL)); [|done].
  destruct (get_powerdev x t) as [d t'| |]; [|done|done]. destruct (negb (pfnPostClockSpeedChange d =? IMG_NULL)); [|done].
  by destruct (call _ _ t').
Qed.

(** ** Transitions *)

Lemma sim_unlock id : sim rep (PVRSRVPowerUnlock (W := W) id) (a_release id).
Proof. apply sim_lift. intros. apply sim_PVRSRVPowerUnlock. Qed.

Lemma sim_rep_cur : sim rep (gets (eCurrentPowerState (W := W))) (gets pa_sys).
Proof. apply sim_lift. intros. apply sim_cur. Qed.

Lemma sim_rep_world {B} (m : M W B) : sim rep (world m) (in_world m).
Proof. apply sim_lift. intros. apply sim_world. Qed.

Lemma sim_set_sys x : sim rep (modify (set_eCurrentPowerState (W := W) x)) (modify (set_pa_sys x)).
Proof. apply sim_lift. intros L addrs HL. apply sim_modify. intros. by apply rep_sys. Qed.

Lemma sim_set_failed x : sim rep (modify (set_eFailedPowerState (W := W) x)) (modify (set_pa_failed x)).
Proof. apply sim_lift. intros L addrs HL. apply sim_modify. intros. by apply rep_failed. Qed.

#[local] Hint Resolve sim_unlock sim_rep_cur sim_rep_world sim_set_sys sim_set_failed sim_ret sim_PVRSRVPowerLock : power_sim.
#[local] Hint Extern 2 (sim rep (PVRSRVDevicePrePowerStateKM _ _ _) _) => apply sim_PVRSRVDevicePrePowerStateKM : power_sim.
#[local] Hint Extern 2 (sim rep (PVRSRVDevicePostPowerStateKM _ _ _) _) => apply sim_PVRSRVDevicePostPowerStateKM : power_sim.

Lemma sim_PVRSRVSetDevicePowerStateKM index target id retain :
  sim rep (PVRSRVSetDevicePowerStateKM (W := W) index target id retain) (a_set_device index target id retain).
Proof.
  unfold PVRSRVSetDevicePowerStateKM, a_set_device. apply sim_bind; [auto with power_sim|]. intros e.
  destruct (negb (is_OK e)); [apply sim_ret|]. apply sim_bind; [apply (sim_PVRSRVDevicePrePowerStateKM false)|]. intros e1.
  apply sim_bind.
  - unfold and_then. destruct (is_OK e1); simpl; [apply (sim_PVRSRVDevicePostPowerStateKM false)|apply sim_ret].
  - intros e2. apply sim_bind; [|intros; apply sim_ret].
    destruct retain, (is_OK e2); simpl; auto with power_sim.
Qed.

Lemma bind_mono {S A B} (m : M S A) (k k' : A → M S B) s : (∀ a s, k a s = k' a s) → (m ≫= k) s = (m ≫= k') s.
Proof. intros Hk. cbv [mbind M_bind]. destruct (m s); [apply Hk|done|done]. Qed.

Definition a_pre_exit (new : PVRSRV_SYS_POWER_STATE) (e : PVRSRV_ERROR) : M (power_abs W) PVRSRV_ERROR :=
  (if is_OK e then mret tt else modify (set_pa_failed new);; a_release KERNEL_ID);; mret e.

Lemma a_system_pre_stages new a : a_system_pre new a =
  (e ← a_lock KERNEL_ID true;
   if negb (is_OK e) then mret e
   else
     cur ← gets pa_sys;
     e ← (if flips new cur then a_pre None (device_target new) else mret PVRSRV_OK);
     if negb (is_OK e) then a_pre_exit new e
     else
       cur ← gets pa_sys;
       e ← (if decide (new ≠ cur) then in_world (SysSystemPrePowerState new) else mret PVRSRV_OK);
       a_pre_exit new e) a.
Proof.
  unfold a_system_pre. apply bind_mono. intros e b. destruct (negb (is_OK e)); [done|]. clear e.
  unfold a_sys_pre. rewrite bind_assoc. apply bind_mono. intros cur c. rewrite bind_assoc. apply bind_mono.
  intros e d. unfold and_then. destruct (is_OK e) eqn:He; cbn [negb]; [apply bind_assoc|].
  unfold a_pre_exit. rewrite He. rewrite bind_assoc. cbv [mbind M_bind gets mret M_ret]. by rewrite He.
Qed.

Lemma sim_PVRSRVSystemPrePowerStateKM new : sim rep (PVRSRVSystemPrePowerStateKM (W := W) new) (a_system_pre new).
Proof.
  eapply sim_ext; [done|apply a_system_pre_stages|]. unfold PVRSRVSystemPrePowerStateKM. cbv zeta.
  assert (∀ e : PVRSRV_ERROR, sim (rep (W := W)) (modify (set_eFailedPowerState new);; PVRSRVPowerUnlock KERNEL_ID;; mret e)
    ((modify (set_pa_failed new);; a_release KERNEL_ID);; mret e)) as Hexit.
  { intros e. eapply sim_ext; [done|apply bind_assoc|]. sim_steps; auto with power_sim. }
  apply sim_bind; [auto with power_sim|]. intros e. destruct (negb (is_OK e)); [apply sim_ret|].
  apply sim_bind; [auto with power_sim|]. intros cur. unfold flips. apply sim_bind.
  { destruct (negb _); [apply (sim_PVRSRVDevicePrePowerStateKM true)|apply sim_ret]. }
  intros e1. unfold a_pre_exit. destruct (is_OK e1) eqn:He1; cbn [negb]; [|apply Hexit].
  apply is_OK_true in He1. subst e1. apply sim_bind; [auto with power_sim|]. intros cur2. apply sim_bind.
  { destruct (decide _); auto with power_sim. }
  intros e2. destruct (is_OK e2); cbn [negb]; [apply sim_ret|apply Hexit].
Qed.

Definition a_post_exit (new : PVRSRV_SYS_POWER_STATE) (e : PVRSRV_ERROR) : M (power_abs W) PVRSRV_ERROR :=
  a_release KERNEL_ID;;
  ok ← gets (λ a, gbInitSuccessful (pa_init a));
  (if _IsSystemStatePowered new && ok then in_world schedule_callbacks else mret tt);;
  mret e.

Lemma sim_rep_successful : sim rep (PVRSRVGetInitServerState (W := W) PVRSRV_INIT_SERVER_SUCCESSFUL) (gets (λ a, gbInitSuccessful (pa_init a))).
Proof. intros s a b a' (L&addrs&HL&HR) [= <- <-]. exists s. split; [|by exists L, addrs]. by destruct HR as [_ _ _ _ _ _ _ <-]. Qed.

Lemma sim_PVRSRVSystemPostPowerStateKM new : sim rep (PVRSRVSystemPostPowerStateKM (W := W) new) (a_system_post new).
Proof.
  eapply (sim_ext rep _ _ _ (cur ← gets pa_sys;
    e ← (if decide (new ≠ cur) then in_world (SysSystemPostPowerState new) else mret PVRSRV_OK);
    e ← (if negb (is_OK e) then mret e
         else
           cur ← gets pa_sys;
           e ← (if flips new cur then a_post None (device_target new) else mret PVRSRV_OK);
           (if is_OK e then modify (set_pa_sys new) else mret tt);; mret e);
    a_post_exit new e)); [done| |].
  - intros a. unfold a_system_post, a_sys_post. rewrite bind_assoc. apply bind_mono. intros cur b.
    rewrite bind_assoc. apply bind_mono. intros e c. rewrite bind_assoc. unfold and_then.
    destruct (is_OK e) eqn:He; cbn [negb].
    + rewrite bind_assoc. apply bind_mono. intros cur2 d. rewrite !bind_assoc. apply bind_mono. intros e1 d2.
      cbv [mbind M_bind modify mret M_ret]. destruct (is_OK e1) eqn:He1; [|done]. apply is_OK_true in He1. by subst e1.
    + cbv [mbind M_bind gets mret M_ret]. by rewrite He.
  - unfold PVRSRVSystemPostPowerStateKM. apply sim_bind; [auto with power_sim|]. intros cur. apply sim_bind.
    { destruct (decide _); auto with power_sim. }
    intros e. apply sim_bind.
    + destruct (negb (is_OK e)); [apply sim_ret|]. apply sim_bind; [auto with power_sim|]. intros cur2. apply sim_bind.
      { unfold flips. destruct (negb _); [apply (sim_PVRSRVDevicePostPowerStateKM true)|apply sim_ret]. }
      intros e1. apply sim_bind; [destruct (is_OK e1); auto with power_sim|]. intros. apply sim_ret.
    + intros e1. unfold a_post_exit. apply sim_bind; [auto with power_sim|]. intros _. apply sim_bind; [apply sim_rep_successful|].
      intros ok. apply sim_bind; [|intros; apply sim_ret]. destruct (_ && ok); auto with power_sim.
Qed.

Lemma sim_PVRSRVSetPowerStateKM new : sim rep (PVRSRVSetPowerStateKM (W := W) new) (a_set_power new).
Proof.
  eapply (sim_ext rep _ _ _ (e ← a_system_pre new;
    if negb (is_OK e) then modify (set_pa_failed new);; mret e
    else
      e ← a_system_post new;
      if negb (is_OK e) then modify (set_pa_failed new);; mret e
      else modify (set_pa_failed PVRSRV_SYS_POWER_STATE_Unspecified);; mret PVRSRV_OK)); [done| |].
  - intros a. unfold a_set_power. apply bind_mono. intros e b. unfold and_then. destruct (is_OK e) eqn:He; cbn [negb].
    + apply bind_mono. intros e1 c. destruct (is_OK e1) eqn:He1; cbn [negb]; [|done]. apply is_OK_true in He1. by subst e1.
    + cbv [mbind M_bind mret M_ret]. by rewrite He.
  - unfold PVRSRVSetPowerStateKM. cbv zeta. apply sim_bind; [apply sim_PVRSRVSystemPrePowerStateKM|]. intros e.
    destruct (negb (is_OK e)); [sim_steps; auto with power_sim|].
    apply sim_bind; [apply sim_PVRSRVSystemPostPowerStateKM|]. intros e1. sim_steps; auto with power_sim.
Qed.
End ops.
