(* ===== verification/PowerTop.v ===== *)
(** * Clients of the power manager, and what its operations keep

    A client's calls in any order, and what they answer.  [PowerTotal] says
    that the functions power.c calls return; no device may have a post clock
    function without a pre clock function, since
    [PVRSRVDevicePreClockSpeedChange] would call a null pointer.  [keeps P m]: from
    a state with [P] the program [m] ends with an answer in a state with [P]. *)

From S2P Require Import Prelude Lists Resource Sim Power PowerRep PowerSim PowerOps.

Inductive power_op :=
| PSetInit (e : PVRSRV_INIT_SERVER_STATE) (b : bool)
| PGetInit (e : PVRSRV_INIT_SERVER_STATE)
| PRegister (index pre post prec postc cookie : Z) (cur def : PVRSRV_DEV_POWER_STATE)
| PRemove (index : Z)
| PLock (id : Z) (event : bool)
| PUnlock (id : Z)
| PSetDevice (index : Z) (target : PVRSRV_DEV_POWER_STATE) (id : Z) (retain : bool)
| PSetPower (new : PVRSRV_SYS_POWER_STATE)
| PIsPowered (index : Z)
| PPreClock (index : Z) (idle : bool)
| PPostClock (index : Z) (idle : bool).

Inductive power_answer := AError (e : PVRSRV_ERROR) | ABool (b : bool) | ANone.

Definition init_slot (e : PVRSRV_INIT_SERVER_STATE) (i : init_server) : option bool :=
  match e with
  | PVRSRV_INIT_SERVER_RUNNING => Some (gbInitServerRunning i)
  | PVRSRV_INIT_SERVER_RAN => Some (gbInitServerRan i)
  | PVRSRV_INIT_SERVER_SUCCESSFUL => Some (gbInitSuccessful i)
  | _ => None
  end.

Definition init_write (e : PVRSRV_INIT_SERVER_STATE) (b : bool) (i : init_server) : init_server :=
  match e with
  | PVRSRV_INIT_SERVER_RUNNING => mkInitServer b (gbInitServerRan i) (gbInitSuccessful i)
  | PVRSRV_INIT_SERVER_RAN => mkInitServer (gbInitServerRunning i) b (gbInitSuccessful i)
  | PVRSRV_INIT_SERVER_SUCCESSFUL => mkInitServer (gbInitServerRunning i) (gbInitServerRan i) b
  | _ => i
  end.

(** What [PVRSRVSystemPostPowerStateKM] and its pre stage do is one step. *)
Section top.
Context {W : Type} {env : PowerEnv W} {wait : PowerWait W}.

Definition run_power_op (o : power_op) : M (pw_st W) power_answer :=
  match o with
  | PSetInit e b => r ← PVRSRVSetInitServerState e b; mret (AError r)
  | PGetInit e => r ← PVRSRVGetInitServerState e; mret (ABool r)
  | PRegister i pre post prec postc c cur def =>
      r ← PVRSRVRegisterPowerDevice i pre post prec postc c cur def; mret (AError r)
  | PRemove i => r ← PVRSRVRemovePowerDevice i; mret (AError r)
  | PLock id event => r ← PVRSRVPowerLock id event; mret (AError r)
  | PUnlock id => PVRSRVPowerUnlock id;; mret ANone
  | PSetDevice i t id retain => r ← PVRSRVSetDevicePowerStateKM i t id retain; mret (AError r)
  | PSetPower new => r ← PVRSRVSetPowerStateKM new; mret (AError r)
  | PIsPowered i => r ← PVRSRVIsDevicePowered i; mret (ABool r)
  | PPreClock i idle => r ← PVRSRVDevicePreClockSpeedChange i idle; mret (AError r)
  | PPostClock i idle => PVRSRVDevicePostClockSpeedChange i idle;; mret ANone
  end.

Definition spec_power_op (o : power_op) : M (power_abs W) power_answer :=
  match o with
  | PSetInit e b =>
      modify (λ a, set_pa_init (init_write e b (pa_init a)) a);;
      mret (AError (if init_slot e (mkInitServer b b b) then PVRSRV_OK else PVRSRV_ERROR_UNKNOWN_INIT_SERVER_STATE))
  | PGetInit e => r ← gets (λ a, default false (init_slot e (pa_init a))); mret (ABool r)
  | PRegister i pre post prec postc c cur def => r ← a_register (device_of i pre post prec postc c cur def); mret (AError r)
  | PRemove i => r ← a_remove i; mret (AError r)
  | PLock id event => r ← a_lock id event; mret (AError r)
  | PUnlock id => a_release id;; mret ANone
  | PSetDevice i t id retain => r ← a_set_device i t id retain; mret (AError r)
  | PSetPower new => r ← a_set_power new; mret (AError r)
  | PIsPowered i => r ← gets (is_powered i); mret (ABool r)
  | PPreClock i idle => r ← a_pre_clock i idle; mret (AError r)
  | PPostClock i idle => a_post_clock i idle;; mret ANone
  end.

(** The calls in order, with their answers. *)
Fixpoint in_turn {S A B} (f : A → M S B) (l : list A) : M S (list B) :=
  match l with [] => mret [] | x :: l => r ← f x; rs ← in_turn f l; mret (r :: rs) end.

Lemma sim_in_turn {S A B C} (R : S → A → Prop) (f : C → M S B) (g : C → M A B) l :
  (∀ x, sim R (f x) (g x)) → sim R (in_turn f l) (in_turn g l).
Proof. intros H. induction l as [|x l IH]; simpl; sim_steps; auto. Qed.

Lemma sim_power_op {law : PowerWaitLaw env wait} o : sim rep (run_power_op o) (spec_power_op o).
Proof.
  destruct o; simpl.
  - intros s a b' a' (L&addrs&HL&HR) [= <- <-]. pose proof (pr_init _ _ _ _ HR) as Hi.
    assert (wp (r ← PVRSRVSetInitServerState e b; mret (AError r))
      (λ r s', r = AError (if init_slot e (mkInitServer b b b) then PVRSRV_OK else PVRSRV_ERROR_UNKNOWN_INIT_SERVER_STATE) ∧
         ∃ i, i = init_write e b (pw_init s) ∧ s' = set_pw_init i s) s) as (r&s'&Hs'&->&i&Hiw&->)%wp_Done.
    { unfold PVRSRVSetInitServerState. wp_step. wp_step. wp_step. destruct e; wp_steps; split; try done; eexists; (split; [reflexivity|by destruct s]). }
    eexists. split; [exact Hs'|]. exists L, addrs. split; [done|]. rewrite Hiw, Hi. by destruct HR.
  - intros s a b' a' (L&addrs&HL&HR) [= <- <-]. exists s. split; [|by exists L, addrs].
    cbv [PVRSRVGetInitServerState mbind M_bind gets mret M_ret]. rewrite (pr_init _ _ _ _ HR). by destruct e.
  - apply sim_bind; [apply sim_PVRSRVRegisterPowerDevice|intros; apply sim_ret].
  - apply sim_bind; [apply sim_PVRSRVRemovePowerDevice|intros; apply sim_ret].
  - apply sim_bind; [apply sim_PVRSRVPowerLock|intros; apply sim_ret].
  - apply sim_bind; [apply sim_unlock|intros; apply sim_ret].
  - apply sim_bind; [apply sim_PVRSRVSetDevicePowerStateKM|intros; apply sim_ret].
  - apply sim_bind; [apply sim_PVRSRVSetPowerStateKM|intros; apply sim_ret].
  - apply sim_bind; [apply sim_PVRSRVIsDevicePowered|intros; apply sim_ret].
  - apply sim_bind; [apply sim_PVRSRVDevicePreClockSpeedChange|intros; apply sim_ret].
  - apply sim_bind; [apply sim_PVRSRVDevicePostClockSpeedChange|intros; apply sim_ret].
Qed.
End top.

Definition keeps {S B} (P : S → Prop) (m : M S B) : Prop := ∀ s, P s → wp m (λ _, P) s.

Lemma keeps_ret {S B} (P : S → Prop) (b : B) : keeps P (mret b).
Proof. by intros s Hs. Qed.

Lemma keeps_bind {S B C} (P : S → Prop) (m : M S B) (k : B → M S C) :
  keeps P m → (∀ b, keeps P (k b)) → keeps P (m ≫= k).
Proof. intros Hm Hk s Hs. wp_step. eapply wp_mono; [by apply Hm|]. intros b s'. apply Hk. Qed.

Lemma keeps_gets {S B} (P : S → Prop) (f : S → B) : keeps P (gets f).
Proof. by intros s Hs. Qed.

Lemma keeps_modify {S} (P : S → Prop) (f : S → S) : (∀ s, P s → P (f s)) → keeps P (modify f).
Proof. intros H s Hs. by apply wp_modify, H. Qed.

Lemma keeps_until {S B} (P : S → Prop) (cont : B → bool) l : Forall (keeps P) l → ∀ r, keeps P (until cont r l).
Proof.
  induction 1 as [|m l Hm Hl IH]; intros r; simpl; [apply keeps_ret|].
  destruct (cont r); [|apply keeps_ret]. apply keeps_bind; [done|apply IH].
Qed.

(** Along the structure of a program; [tac] for its calls. *)
Ltac keeps_steps tac :=
  repeat lazymatch goal with
  | |- keeps _ (_ ≫= _) => apply keeps_bind; [|intro]
  | |- keeps _ (mret _) => apply keeps_ret
  | |- keeps _ (gets _) => apply keeps_gets
  | |- keeps _ (if ?b then _ else _) => destruct b
  | |- keeps _ _ => tac
  end.

(** A function of the world that returns. *)
Definition total {W B} (m : M W B) : Prop := ∀ w, ∃ b w', m w = Done b w'.

Class PowerTotal {W} (env : PowerEnv W) : Prop := {
  pre_power_total f c n o : total (pre_power f c n o);
  post_power_total f c n o : total (post_power f c n o);
  pre_clock_total f c i o : total (pre_clock f c i o);
  post_clock_total f c i o : total (post_clock f c i o);
  dev_pre_total i n o : total (SysDevicePrePowerState i n o);
  dev_post_total i n o : total (SysDevicePostPowerState i n o);
  sys_pre_total n : total (SysSystemPrePowerState n);
  sys_post_total n : total (SysSystemPostPowerState n);
  schedule_total : total schedule_callbacks }.

Lemma wp_in_world {W B} (m : M W B) (Q : B → power_abs W → Prop) a :
  total m → (∀ b w, Q b (set_pa_world w a)) → wp (in_world m) Q a.
Proof. intros Hm HQ. destruct (Hm (pa_world a)) as (b&w&Hw). apply wp_zoom. unfold wp. rewrite Hw. apply HQ. Qed.

Section keep.
Context {W : Type} {env : PowerEnv W} {wait : PowerWait W} {tot : PowerTotal env}.

(** A property of the devices, the system's state and the record of failures. *)
Context (P : power_abs W → Prop).
Context (Pworld : ∀ a w, P a → P (set_pa_world w a)) (Pos : ∀ a o, P a → P (set_pa_os o a)).
Context (Pholder : ∀ a h, P a → P (set_pa_holder h a)) (Pinit : ∀ a i, P a → P (set_pa_init i a)).
Context (Pwait : keeps P wait_spec).

Lemma keeps_world {B} (m : M W B) : total m → keeps P (in_world m).
Proof. intros Hm a Ha. apply wp_in_world; auto. Qed.

Lemma keeps_os {B} (m : M os B) : total m → keeps P (in_os m).
Proof. intros Hm a Ha. destruct (Hm (pa_os a)) as (b&w&Hw). apply wp_zoom. unfold wp. rewrite Hw. auto. Qed.

Lemma total_OSAllocMem : total OSAllocMem.
Proof. intros s. unfold OSAllocMem. destruct (os_script s) as [|[] ?]; eauto. Qed.

Lemma total_OSFreeMem : total OSFreeMem.
Proof. intros s. unfold OSFreeMem. eauto. Qed.

Lemma keeps_release id : keeps P (a_release id).
Proof. apply keeps_modify. intros a Ha. destruct (decide _); auto. Qed.

Lemma keeps_take id : keeps P (a_take id).
Proof.
  unfold a_take. apply keeps_bind; [apply keeps_gets|]. intros [h|]; [apply keeps_ret|].
  apply keeps_bind; [|intros; apply keeps_ret]. apply keeps_modify. auto.
Qed.

Lemma keeps_poll id n : keeps P (a_poll n id).
Proof.
  induction n as [|n IH]; simpl; [apply keeps_ret|]. apply keeps_bind; [apply keeps_take|]. intros [].
  - apply keeps_ret.
  - destruct (id =? ISR_ID); [apply keeps_ret|]. by apply keeps_bind; [|intros].
Qed.

Lemma keeps_lock id event : keeps P (a_lock id event).
Proof.
  unfold a_lock. apply keeps_bind; [apply keeps_poll|]. intros e. apply keeps_bind; [apply keeps_gets|]. intros sys.
  destruct (_ && _); [|apply keeps_ret]. apply keeps_bind; [apply keeps_release|]. intros. apply keeps_ret.
Qed.

Lemma keeps_and_then e m : keeps P m → keeps P (and_then e m).
Proof. intros H. unfold and_then. destruct (is_OK e); [done|apply keeps_ret]. Qed.

Lemma keeps_pre_stage target d : keeps P (pre_stage target d).
Proof.
  unfold pre_stage. apply keeps_bind.
  - destruct (_ =? _); [apply keeps_ret|apply keeps_world, pre_power_total].
  - intros e. apply keeps_and_then, keeps_world, dev_pre_total.
Qed.

(** A stage runs on an entry of the list. *)
Lemma keeps_each sel target stage :
  (∀ i d a, P a → pa_devs a !! i = Some d → changes sel target d = true →
     wp (stage i d) (λ _ a', P a' ∧ length (pa_devs a') = length (pa_devs a)) a) →
  keeps P (each sel target stage).
Proof.
  intros Hst a Ha. unfold each. wp_step. wp_step.
  assert (∀ l n r b, P b → length (pa_devs b) = n → Forall (λ i, i < n)%nat l →
    wp (until is_OK r ((λ i, d ← a_dev i; if changes sel target d then stage i d else mret PVRSRV_OK) <$> l)) (λ _, P) b) as Hl.
  { intros l n. induction l as [|i l IH]; intros r b Hb Hn Hl; simpl; [done|]. inversion Hl as [|? ? Hi Hl']; subst.
    destruct (is_OK r); [|done]. wp_step. wp_step. unfold a_dev. wp_step. wp_step.
    destruct (lookup_lt_is_Some_2 (pa_devs b) i Hi) as [d Hd]. rewrite Hd. wp_step.
    destruct (changes sel target d) eqn:Hc.
    - eapply wp_mono; [by apply Hst|]. intros r' b' [Hb' Hlen]. by apply IH.
    - by apply IH. }
  apply (Hl (seq 0 (length (pa_devs a))) (length (pa_devs a))); [done|done|]. apply Forall_seq. lia.
Qed.

Lemma keeps_pre sel target : keeps P (a_pre sel target).
Proof.
  apply keeps_each. intros i d a Ha Hd _. unfold pre_stage. wp_step.
  eapply (wp_mono _ (λ _ a', P a' ∧ pa_devs a' = pa_devs a)).
  - destruct (_ =? _); [by wp_step|]. apply wp_in_world; [apply pre_power_total|auto].
  - intros r b [Hb Hdb]. rewrite <- Hdb. unfold and_then. destruct (is_OK r); [|by wp_step].
    apply wp_in_world; [apply dev_pre_total|auto].
Qed.

(** [P] survives a device's change of state. *)
Lemma keeps_post sel target :
  (∀ a i d, P a → pa_devs a !! i = Some d → changes sel target d = true →
     P (set_pa_devs (<[i := pd_set (new_device_state target d) d]> (pa_devs a)) a)) →
  keeps P (a_post sel target).
Proof.
  intros HP. apply keeps_each. intros i d a Ha Hd Hc. unfold post_stage. wp_step.
  apply wp_in_world; [apply dev_post_total|]. intros r w. wp_step.
  eapply (wp_mono _ (λ _ a', P a' ∧ pa_devs a' = pa_devs a)).
  - unfold and_then. destruct (is_OK r); [|wp_step; auto]. destruct (_ =? _); [wp_step; auto|].
    apply wp_in_world; [apply post_power_total|auto].
  - intros r' b [Hb Hdb]. unfold and_then. destruct (is_OK r'); [|wp_step; by rewrite Hdb].
    wp_step. wp_step. wp_step. rewrite <- Hdb in Hd. split; [auto|]. simpl. by rewrite length_insert, Hdb.
Qed.

Lemma keeps_clock index f : (∀ a d, P a → d ∈ pa_devs a → pfnPostClockSpeedChange d ≠ IMG_NULL → wp (f d) (λ _, P) a) →
  keeps P (a_clock index f).
Proof.
  intros Hf a Ha. unfold a_clock. wp_step. wp_step. destruct (find_dev index (pa_devs a)) as [i|] eqn:Hi; simpl; [|by wp_step].
  destruct (pa_devs a !! i) as [d|] eqn:Hd; [|by wp_step]. destruct (Z.eqb_spec (pfnPostClockSpeedChange d) IMG_NULL); [by wp_step|].
  apply Hf; [done|by eapply list_elem_of_lookup_2|done].
Qed.
End keep.

(** ** Every call returns *)

(** A device with a post clock function has a pre clock function. *)
Definition paired (d : PVRSRV_POWER_DEV) : Prop := pfnPostClockSpeedChange d ≠ IMG_NULL → pfnPreClockSpeedChange d ≠ IMG_NULL.

Definition all_paired {W} (a : power_abs W) : Prop := Forall paired (pa_devs a).

Definition op_paired (o : power_op) : Prop :=
  match o with PRegister _ _ _ prec postc _ _ _ => postc ≠ IMG_NULL → prec ≠ IMG_NULL | _ => True end.

Section returns.
Context {W : Type} {env : PowerEnv W} {wait : PowerWait W} {tot : PowerTotal env}.
Context (Hwait : keeps (all_paired (W := W)) wait_spec).

Lemma keeps_set_power (P : power_abs W → Prop) (new : PVRSRV_SYS_POWER_STATE) :
  keeps P (a_lock KERNEL_ID true) → (∀ sel target, keeps P (a_pre sel target)) → (∀ sel target, keeps P (a_post sel target)) →
  (∀ a w, P a → P (set_pa_world w a)) → (∀ a h, P a → P (set_pa_holder h a)) → (∀ a x, P a → P (set_pa_sys x a)) →
  (∀ a x, P a → P (set_pa_failed x a)) → keeps P (a_set_power new).
Proof.
  intros Hl Hpre Hpost Hw Hh Hs Hf. assert (∀ id, keeps P (a_release id)) as Hr by (intros; by apply keeps_release).
  assert (∀ e m, keeps P m → keeps P (and_then e m)) as Hand by (intros e m Hm; unfold and_then; destruct (is_OK e); [done|apply keeps_ret]).
  assert (∀ {B} (m : M W B), total m → keeps P (in_world m)) as Hin by (intros B m Hm; by apply keeps_world).
  assert (∀ x, keeps P (modify (set_pa_sys x))) as Hms by (intros; apply keeps_modify; auto).
  assert (∀ x, keeps P (modify (set_pa_failed x))) as Hmf by (intros; apply keeps_modify; auto).
  unfold a_set_power, a_system_pre, a_sys_pre, a_system_post, a_sys_post.
  keeps_steps ltac:(idtac; lazymatch goal with
    | |- keeps _ (a_lock _ _) => exact Hl | |- keeps _ (a_pre _ _) => apply Hpre | |- keeps _ (a_post _ _) => apply Hpost
    | |- keeps _ (a_release _) => apply Hr | |- keeps _ (modify (set_pa_sys _)) => apply Hms
    | |- keeps _ (modify _) => apply Hmf | |- keeps _ (and_then _ _) => apply Hand
    | |- keeps _ (in_world (SysSystemPrePowerState _)) => apply Hin, sys_pre_total
    | |- keeps _ (in_world (SysSystemPostPowerState _)) => apply Hin, sys_post_total
    | |- keeps _ (in_world _) => apply Hin, schedule_total end).
Qed.

Lemma op_returns o : op_paired o → keeps (all_paired (W := W)) (spec_power_op o).
Proof.
  intros Ho. assert (∀ id ev, keeps (all_paired (W := W)) (a_lock id ev)) as Hl by (intros; apply keeps_lock; auto).
  assert (∀ sel t, keeps (all_paired (W := W)) (a_pre sel t)) as Hpre by (intros; apply keeps_pre; auto).
  assert (∀ sel t, keeps (all_paired (W := W)) (a_post sel t)) as Hpost.
  { intros. apply keeps_post; [auto..|]. intros a i d Ha Hd _. apply Forall_insert; [done|].
    exact (Forall_lookup_1 _ _ _ _ Ha Hd). }
  assert (∀ id, keeps (all_paired (W := W)) (a_release id)) as Hr by (intros; apply keeps_release; auto).
  assert (∀ i, keeps (all_paired (W := W)) (a_remove i)) as Hrem.
  { intros i. unfold a_remove. apply keeps_bind; [apply keeps_gets|]. intros [j|]; keeps_steps idtac.
    - apply keeps_os; [auto|apply total_OSFreeMem].
    - apply keeps_modify. intros a Ha. by apply Forall_delete. }
  assert (∀ i f, (∀ d : PVRSRV_POWER_DEV, paired d → pfnPostClockSpeedChange d ≠ IMG_NULL → keeps (all_paired (W := W)) (f d)) →
    keeps (all_paired (W := W)) (a_clock i f)) as Hc.
  { intros i f Hf. apply keeps_clock. intros a d Ha Hd Hp. apply Hf; [|done|done]. by eapply Forall_forall in Ha. }
  destruct o; simpl.
  - apply keeps_bind; [by apply keeps_modify|]. intros. apply keeps_ret.
  - apply keeps_bind; [apply keeps_gets|]. intros. apply keeps_ret.
  - apply keeps_bind; [|intros; apply keeps_ret]. unfold a_register. destruct (_ && _); [apply Hrem|].
    apply keeps_bind; [apply keeps_os; [auto|apply total_OSAllocMem]|]. intros [].
    + apply keeps_bind; [|intros; apply keeps_ret]. apply keeps_modify. intros a Ha. by constructor.
    + apply keeps_ret.
  - apply keeps_bind; [apply Hrem|]. intros. apply keeps_ret.
  - apply keeps_bind; [apply Hl|]. intros. apply keeps_ret.
  - apply keeps_bind; [apply Hr|]. intros. apply keeps_ret.
  - apply keeps_bind; [|intros; apply keeps_ret]. unfold a_set_device, and_then.
    keeps_steps ltac:(idtac; lazymatch goal with |- keeps _ (a_lock _ _) => apply Hl | |- keeps _ (a_pre _ _) => apply Hpre
      | |- keeps _ (a_post _ _) => apply Hpost | |- _ => apply Hr end).
  - apply keeps_bind; [|intros; apply keeps_ret]. apply keeps_set_power; auto.
  - apply keeps_bind; [apply keeps_gets|]. intros. apply keeps_ret.
  - apply keeps_bind; [|intros; apply keeps_ret]. unfold a_pre_clock.
    apply keeps_bind; [destruct idle; [apply Hl|apply keeps_ret]|]. intros e. destruct (negb (is_OK e)); [apply keeps_ret|].
    apply keeps_bind.
    + apply Hc. intros d Hd Hp. rewrite (proj2 (Z.eqb_neq _ _)) by auto. apply keeps_world; [auto|apply pre_clock_total].
    + intros e1. apply keeps_bind; [destruct (_ && _); [apply Hr|apply keeps_ret]|]. intros. apply keeps_ret.
  - apply keeps_bind; [|intros; apply keeps_ret]. unfold a_post_clock. apply keeps_bind.
    + apply Hc. intros d _ _. apply keeps_world; [auto|apply post_clock_total].
    + intros _. destruct idle; [apply Hr|apply keeps_ret].
Qed.

Lemma keeps_in_turn {S B C} (P : S → Prop) (f : C → M S B) l : Forall (λ x, keeps P (f x)) l → keeps P (in_turn f l).
Proof. induction 1; simpl; repeat (apply keeps_bind; [|intro]); auto using keeps_ret. Qed.
End returns.
