(* ===== verification/PowerStage.v ===== *)
(** * Transitions as sequences of calls

    A system transition calls the devices and the system layer in a fixed
    order and stops at the first error.  The calls are programs of the world;
    what becomes of the devices follows from how far they got. *)

From S2P Require Import Prelude Lists Resource Sim Power PowerRep PowerSim PowerOps PowerTop.

Section stage.
Context {W : Type} {env : PowerEnv W}.

(** ** The calls *)

Definition dev_pre_calls (target : PVRSRV_DEV_POWER_STATE) (d : PVRSRV_POWER_DEV) : list (M W PVRSRV_ERROR) :=
  (if pfnPrePower d =? IMG_NULL then []
   else [pre_power (pfnPrePower d) (hDevCookie d) (new_device_state target d) (pd_eCurrentPowerState d)]) ++
  [SysDevicePrePowerState (ui32DeviceIndex d) (new_device_state target d) (pd_eCurrentPowerState d)].

Definition dev_post_calls (target : PVRSRV_DEV_POWER_STATE) (d : PVRSRV_POWER_DEV) : list (M W PVRSRV_ERROR) :=
  SysDevicePostPowerState (ui32DeviceIndex d) (new_device_state target d) (pd_eCurrentPowerState d) ::
  (if pfnPostPower d =? IMG_NULL then []
   else [post_power (pfnPostPower d) (hDevCookie d) (new_device_state target d) (pd_eCurrentPowerState d)]).

Definition changing (sel : option Z) (target : PVRSRV_DEV_POWER_STATE) (l : list PVRSRV_POWER_DEV) : list PVRSRV_POWER_DEV :=
  filter (λ d, changes sel target d) l.

Definition pre_calls (new cur : PVRSRV_SYS_POWER_STATE) (l : list PVRSRV_POWER_DEV) : list (M W PVRSRV_ERROR) :=
  (if flips new cur then changing None (device_target new) l ≫= dev_pre_calls (device_target new) else []) ++
  (if decide (new ≠ cur) then [SysSystemPrePowerState new] else []).

(** The devices' post functions, and the devices afterwards: those before the
    one that failed have their new state. *)
Fixpoint post_devs (sel : option Z) (target : PVRSRV_DEV_POWER_STATE) (l : list PVRSRV_POWER_DEV) :
    M W (PVRSRV_ERROR * list PVRSRV_POWER_DEV) :=
  match l with
  | [] => mret (PVRSRV_OK, [])
  | d :: l =>
      if changes sel target d then
        e ← until is_OK PVRSRV_OK (dev_post_calls target d);
        if is_OK e then r ← post_devs sel target l; mret (r.1, pd_set (new_device_state target d) d :: r.2)
        else mret (e, d :: l)
      else r ← post_devs sel target l; mret (r.1, d :: r.2)
  end.

Definition post_run (new cur : PVRSRV_SYS_POWER_STATE) (l : list PVRSRV_POWER_DEV) : M W (PVRSRV_ERROR * list PVRSRV_POWER_DEV) :=
  e ← (if decide (new ≠ cur) then SysSystemPostPowerState new else mret PVRSRV_OK);
  if is_OK e then if flips new cur then post_devs None (device_target new) l else mret (PVRSRV_OK, l)
  else mret (e, l).

(** ** Sequences *)

Lemma until_app {S R} (cont : R → bool) l1 l2 r (s : S) :
  until cont r (l1 ++ l2) s = (r ← until cont r l1; until cont r l2) s.
Proof.
  revert r s. induction l1 as [|m l1 IH]; intros r s; simpl; [done|]. destruct (cont r) eqn:Hr.
  - rewrite bind_assoc. by apply bind_mono.
  - cbv [mbind M_bind mret M_ret]. destruct l2; simpl; [done|]. by rewrite Hr.
Qed.

Lemma until_stop {S R} (cont : R → bool) l r (s : S) : cont r = false → until cont r l s = Done r s.
Proof. intros Hr. destruct l; simpl; [done|]. by rewrite Hr. Qed.

Lemma until_one {S} (m : M S PVRSRV_ERROR) (s : S) : until is_OK PVRSRV_OK [m] s = m s.
Proof. cbv [until is_OK mbind M_bind mret M_ret]. destruct (m s) as [[] ?| |]; done. Qed.

Lemma wp_until_app {S R} (cont : R → bool) l1 l2 r (Q : R → S → Prop) s :
  wp (until cont r (l1 ++ l2)) Q s ↔ wp (until cont r l1) (λ r, wp (until cont r l2) Q) s.
Proof.
  unfold wp at 1. rewrite until_app. change (wp (r ← until cont r l1; until cont r l2) Q s ↔ wp (until cont r l1) (λ r, wp (until cont r l2) Q) s).
  cbv [wp mbind M_bind]. by destruct (until cont r l1 s).
Qed.

(** The program of the abstract state that only runs world programs. *)
Lemma wp_in_world_run {B} (m : M W B) (Q : B → power_abs W → Prop) a :
  wp m (λ b w, Q b (set_pa_world w a)) (pa_world a) → wp (in_world m) Q a.
Proof. intros H. by apply wp_zoom. Qed.

Lemma wp_until_one (m : M W PVRSRV_ERROR) Q w : wp (until is_OK PVRSRV_OK [m]) Q w → wp m Q w.
Proof. unfold wp. by rewrite until_one. Qed.

(** After an error nothing runs. *)
Lemma wp_until_stop {R} (cont : R → bool) l r (Q : R → W → Prop) w : cont r = false → wp (until cont r l) Q w → Q r w.
Proof. intros Hr. unfold wp. by rewrite until_stop. Qed.

Lemma wp_stage_world target d (l : list (M W PVRSRV_ERROR)) (Q : PVRSRV_ERROR → power_abs W → Prop) a :
  wp (until is_OK PVRSRV_OK (dev_pre_calls target d ++ l))
     (λ e w, Q e (set_pa_world w a)) (pa_world a) →
  wp (pre_stage target d) (λ e b, ∃ w, b = set_pa_world w a ∧ wp (until is_OK e l) (λ e w, Q e (set_pa_world w a)) w) a.
Proof.
  intros H. unfold dev_pre_calls in H. rewrite <- app_assoc in H. apply wp_until_app in H. unfold pre_stage. wp_step.
  eapply (wp_mono _ (λ e b, ∃ w, b = set_pa_world w a ∧ wp (until is_OK e ([SysDevicePrePowerState (ui32DeviceIndex d) (new_device_state target d) (pd_eCurrentPowerState d)] ++ l)) (λ e w, Q e (set_pa_world w a)) w)).
  - destruct (_ =? _).
    + wp_step. exists (pa_world a). split; [by destruct a|exact H].
    + apply wp_in_world_run. apply wp_until_one. eapply wp_mono; [exact H|]. intros e w Hw. eauto.
  - intros e b (w&->&Hw). unfold and_then. destruct (is_OK e) eqn:He.
    + apply is_OK_true in He. subst e. apply wp_until_app in Hw. apply wp_in_world_run. apply wp_until_one.
      eapply wp_mono; [exact Hw|]. intros e w' Hw'. exists w'. by destruct a.
    + wp_step. exists w. split; [done|]. apply (wp_until_stop _ _ _ _ _ He) in Hw. unfold wp. by rewrite until_stop.
Qed.

(** ** All devices *)

Definition visit (sel : option Z) (target : PVRSRV_DEV_POWER_STATE)
    (stage : nat → PVRSRV_POWER_DEV → M (power_abs W) PVRSRV_ERROR) (i : nat) : M (power_abs W) PVRSRV_ERROR :=
  d ← a_dev i; if changes sel target d then stage i d else mret PVRSRV_OK.

Lemma wp_visit sel target stage i d (Q : PVRSRV_ERROR → power_abs W → Prop) a : pa_devs a !! i = Some d →
  (if changes sel target d then wp (stage i d) Q a else Q PVRSRV_OK a) → wp (visit sel target stage i) Q a.
Proof.
  intros Hd H. unfold visit, a_dev. wp_step. wp_step. wp_step. rewrite Hd. wp_step. by destruct (changes sel target d).
Qed.

Lemma changing_cons sel target d l :
  changing sel target (d :: l) = if changes sel target d then d :: changing sel target l else changing sel target l.
Proof. unfold changing. rewrite filter_cons. destruct (changes sel target d); [by rewrite decide_True|by rewrite decide_False by naive_solver]. Qed.

Lemma wp_pre_all sel target l : ∀ k r (Q : PVRSRV_ERROR → power_abs W → Prop) a,
  (∀ j, pa_devs a !! (k + j)%nat = l !! j) →
  wp (until is_OK r (changing sel target l ≫= dev_pre_calls target)) (λ e w, Q e (set_pa_world w a)) (pa_world a) →
  wp (until is_OK r (visit sel target (λ _, pre_stage target) <$> seq k (length l))) Q a.
Proof.
  induction l as [|d l IH]; intros k r Q a Hl H; simpl.
  - wp_step. by destruct a.
  - destruct (is_OK r) eqn:Hr; [|wp_step; apply (wp_until_stop _ _ _ _ _ Hr) in H; by destruct a].
    assert (∀ e w, wp (until is_OK e (changing sel target l ≫= dev_pre_calls target)) (λ e w, Q e (set_pa_world w a)) w →
      wp (until is_OK e (visit sel target (λ _, pre_stage target) <$> seq (S k) (length l))) Q (set_pa_world w a)) as Hnext.
    { intros e w Hw. apply IH; [|exact Hw]. intros j. specialize (Hl (S j)). rewrite Nat.add_succ_r in Hl. exact Hl. }
    apply is_OK_true in Hr. subst r. wp_step. apply (wp_visit _ _ _ _ d); [rewrite <- (Nat.add_0_r k); apply Hl|].
    rewrite changing_cons in H. destruct (changes sel target d).
    + eapply wp_mono; [by apply wp_stage_world|]. intros e b (w&->&Hw). by apply Hnext.
    + specialize (Hnext PVRSRV_OK (pa_world a) H). by destruct a.
Qed.

Definition step_dev (sel : option Z) (target : PVRSRV_DEV_POWER_STATE) (d : PVRSRV_POWER_DEV) : PVRSRV_POWER_DEV :=
  if changes sel target d then pd_set (new_device_state target d) d else d.

Lemma post_devs_OK sel target l w e l' w' : post_devs sel target l w = Done (e, l') w' → e = PVRSRV_OK → l' = step_dev sel target <$> l.
Proof.
  intros H He. revert w l' w' H. induction l as [|d l IH]; intros w l' w' H; simpl in H |- *; [by injection H as _ <- _|].
  unfold step_dev at 1. destruct (changes sel target d).
  - change (match until is_OK PVRSRV_OK (dev_post_calls target d) w with
      | Done e w => (if is_OK e then r ← post_devs sel target l; mret (r.1, pd_set (new_device_state target d) d :: r.2)
          else mret (e, d :: l)) w | Fault => Fault | OutOfFuel => OutOfFuel end = Done (e, l') w') in H.
    destruct (until is_OK PVRSRV_OK (dev_post_calls target d) w) as [e1 w1| |]; [|done|done].
    destruct (is_OK e1) eqn:He1; [|injection H as -> _ _; by subst e].
    cbv [mbind M_bind] in H. destruct (post_devs sel target l w1) as [[e2 l2] w2| |] eqn:H2; [|done|done].
    injection H as Hx <- _. simpl in Hx. subst e2. simpl. by rewrite (IH _ _ _ H2).
  - cbv [mbind M_bind] in H. destruct (post_devs sel target l w) as [[e2 l2] w2| |] eqn:H2; [|done|done].
    injection H as Hx <- _. simpl in Hx. subst e2. simpl. by rewrite (IH _ _ _ H2).
Qed.

Lemma wp_post_stage target i d (Q : PVRSRV_ERROR → W → Prop) a :
  wp (until is_OK PVRSRV_OK (dev_post_calls target d)) Q (pa_world a) →
  wp (post_stage target i d) (λ e b, ∃ w, Q e w ∧
    b = if is_OK e then set_pa_devs (<[i := pd_set (new_device_state target d) d]> (pa_devs a)) (set_pa_world w a)
        else set_pa_world w a) a.
Proof.
  intros H. unfold dev_post_calls in H. change (?x :: ?y) with ([x] ++ y) in H. apply wp_until_app in H.
  unfold post_stage. wp_step. apply wp_in_world_run. apply wp_until_one in H. eapply wp_mono; [exact H|]. clear H.
  intros e w H. wp_step.
  eapply (wp_mono _ (λ e b, ∃ w, b = set_pa_world w a ∧ Q e w)).
  - unfold and_then. destruct (is_OK e) eqn:He.
    + apply is_OK_true in He. subst e. destruct (_ =? _).
      * wp_step. exists w. by split.
      * apply wp_in_world_run. apply wp_until_one in H. eapply wp_mono; [exact H|]. intros e w' H'. exists w'. by destruct a.
    + wp_step. exists w. split; [done|]. by apply (wp_until_stop _ _ _ _ _ He) in H.
  - clear. intros e b (w&->&H). unfold and_then. destruct (is_OK e) eqn:He.
    + apply is_OK_true in He. subst e. wp_step. wp_step. wp_step. exists w. done.
    + wp_step. exists w. by rewrite He.
Qed.

Lemma wp_post_all sel target l : ∀ front (Q : PVRSRV_ERROR → power_abs W → Prop) a,
  pa_devs a = front ++ l →
  wp (post_devs sel target l) (λ r w, Q r.1 (set_pa_devs (front ++ r.2) (set_pa_world w a))) (pa_world a) →
  wp (until is_OK PVRSRV_OK (visit sel target (post_stage target) <$> seq (length front) (length l))) Q a.
Proof.
  induction l as [|d l IH]; intros front Q a Hl H; simpl in H |- *.
  - wp_step. unfold wp in H. simpl in H. rewrite <- Hl in H. by destruct a.
  - wp_step. apply (wp_visit _ _ _ _ d); [by rewrite Hl, lookup_app_r, Nat.sub_diag|].
    assert (∀ d' w, wp (post_devs sel target l) (λ r w, Q r.1 (set_pa_devs (front ++ d' :: r.2) (set_pa_world w a))) w →
      wp (until is_OK PVRSRV_OK (visit sel target (post_stage target) <$> seq (S (length front)) (length l))) Q
        (set_pa_devs (front ++ d' :: l) (set_pa_world w a))) as Hnext.
    { intros d' w Hw. assert (S (length front) = length (front ++ [d'])) as -> by (rewrite length_app; simpl; lia).
      apply IH; [simpl; by rewrite <- app_assoc|]. eapply wp_mono; [exact Hw|]. intros r w' H'. by rewrite <- app_assoc. }
    destruct (changes sel target d).
    + apply wp_bind_inv in H. eapply wp_mono; [apply (wp_post_stage target (length front) d _ a H)|].
      intros e b (w&Hw&->). cbv beta in Hw. destruct (is_OK e) eqn:He.
      * apply is_OK_true in He. subst e. rewrite Hl, insert_app_r_alt by lia. rewrite Nat.sub_diag. simpl.
        apply Hnext. apply wp_bind_inv in Hw. eapply wp_mono; [exact Hw|]. by intros r w'.
      * unfold wp. rewrite until_stop by done. apply (proj1 (wp_Done _ _ _)) in Hw as (?&?&[= <- <-]&HQ).
        simpl in HQ. rewrite <- Hl in HQ. by destruct a.
    + specialize (Hnext d (pa_world a)). rewrite <- Hl in Hnext. destruct a. apply Hnext.
      apply wp_bind_inv in H. eapply wp_mono; [exact H|]. by intros r w'.
Qed.

Lemma wp_a_pre sel target (Q : PVRSRV_ERROR → power_abs W → Prop) a :
  wp (until is_OK PVRSRV_OK (changing sel target (pa_devs a) ≫= dev_pre_calls target)) (λ e w, Q e (set_pa_world w a)) (pa_world a) →
  wp (a_pre sel target) Q a.
Proof. intros H. unfold a_pre, each. wp_step. wp_step. by apply (wp_pre_all sel target (pa_devs a) 0). Qed.

Lemma wp_a_post sel target (Q : PVRSRV_ERROR → power_abs W → Prop) a :
  wp (post_devs sel target (pa_devs a)) (λ r w, Q r.1 (set_pa_devs r.2 (set_pa_world w a))) (pa_world a) →
  wp (a_post sel target) Q a.
Proof. intros H. unfold a_post, each. wp_step. wp_step. by apply (wp_post_all sel target (pa_devs a) []). Qed.

(** ** System transitions *)

(** What a transition does to the world and to the devices, when the lock is
    free. *)
Definition world_transition (new cur : PVRSRV_SYS_POWER_STATE) (l : list PVRSRV_POWER_DEV) (successful : bool) :
    M W (PVRSRV_ERROR * list PVRSRV_POWER_DEV) :=
  e ← until is_OK PVRSRV_OK (pre_calls new cur l);
  if is_OK e then
    r ← post_run new cur l;
    (if _IsSystemStatePowered new && successful then schedule_callbacks else mret tt);;
    mret r
  else mret (e, l).

Lemma wp_a_sys_pre new (Q : PVRSRV_ERROR → power_abs W → Prop) a :
  wp (until is_OK PVRSRV_OK (pre_calls new (pa_sys a) (pa_devs a))) (λ e w, Q e (set_pa_world w a)) (pa_world a) →
  wp (a_sys_pre new) Q a.
Proof.
  intros H. unfold pre_calls in H. apply wp_until_app in H. unfold a_sys_pre. wp_step. wp_step. wp_step.
  eapply (wp_mono _ (λ e b, ∃ w, b = set_pa_world w a ∧
    wp (until is_OK e (if decide (new ≠ pa_sys a) then [SysSystemPrePowerState new] else [])) (λ e w, Q e (set_pa_world w a)) w)).
  - destruct (flips new (pa_sys a)).
    + apply wp_a_pre. eapply wp_mono; [exact H|]. intros e w Hw. eauto.
    + wp_step. exists (pa_world a). split; [by destruct a|exact H].
  - clear H. intros e b (w&->&H). wp_step. wp_step. unfold and_then. destruct (is_OK e) eqn:He.
    + apply is_OK_true in He. subst e. destruct (decide (new ≠ pa_sys (set_pa_world w a))) as [Hc|Hc]; simpl in Hc.
      * rewrite decide_True in H by done. apply wp_until_one in H. apply wp_in_world_run. eapply wp_mono; [exact H|]. by destruct a.
      * rewrite decide_False in H by done. exact H.
    + wp_step. by apply (wp_until_stop _ _ _ _ _ He) in H.
Qed.

Lemma wp_a_sys_post new (Q : PVRSRV_ERROR → power_abs W → Prop) a :
  wp (post_run new (pa_sys a) (pa_devs a))
    (λ r w, Q r.1 (set_pa_sys (if is_OK r.1 then new else pa_sys a) (set_pa_devs r.2 (set_pa_world w a)))) (pa_world a) →
  wp (a_sys_post new) Q a.
Proof.
  intros H. unfold post_run in H. apply wp_bind_inv in H. unfold a_sys_post. wp_step. wp_step. wp_step.
  set (rest := λ e : PVRSRV_ERROR, if is_OK e then if flips new (pa_sys a) then post_devs None (device_target new) (pa_devs a)
    else mret (PVRSRV_OK, pa_devs a) else mret (e, pa_devs a)).
  eapply (wp_mono _ (λ e b, ∃ w, b = set_pa_world w a ∧ wp (rest e)
    (λ r w, Q r.1 (set_pa_sys (if is_OK r.1 then new else pa_sys a) (set_pa_devs r.2 (set_pa_world w a)))) w)).
  - destruct (decide (new ≠ pa_sys a)).
    + apply wp_in_world_run. eapply wp_mono; [exact H|]. intros e w Hw. exists w. by destruct a.
    + wp_step. exists (pa_world a). split; [by destruct a|exact H].
  - clear H. intros e b (w&->&H). unfold rest in H. wp_step. wp_step. unfold and_then. destruct (is_OK e) eqn:He.
    2:{ wp_step. wp_step. rewrite He. wp_step. apply (proj1 (wp_Done _ _ _)) in H as (?&?&[= <- <-]&HQ).
        simpl in HQ. rewrite He in HQ. by destruct a. }
    apply is_OK_true in He. subst e. change (pa_sys (set_pa_world w a)) with (pa_sys a). wp_step.
    eapply (wp_mono _ (λ e b, ∃ w l', b = set_pa_devs l' (set_pa_world w a) ∧
      Q e (set_pa_sys (if is_OK e then new else pa_sys a) (set_pa_devs l' (set_pa_world w a))))).
    + destruct (flips new (pa_sys a)).
      * apply wp_a_post. eapply wp_mono; [exact H|]. intros [e l'] w' H'. exists w', l'. split; [by destruct a|]. exact H'.
      * wp_step. exists w, (pa_devs a). split; [by destruct a|]. exact H.
    + intros e b (w'&l'&->&HQ). destruct (is_OK e) eqn:He.
      * apply is_OK_true in He. subst e. wp_step. wp_step. by wp_step.
      * wp_step. by destruct a.
Qed.

(** The lock is free: it is taken at the first attempt. *)
Lemma wp_a_lock_free {wait : PowerWait W} id event Q (a : power_abs W) : pa_holder a = None →
  (event = true ∨ _IsSystemStatePowered (pa_sys a) = true) →
  Q PVRSRV_OK (set_pa_holder (Some id) a) → wp (a_lock id event) Q a.
Proof.
  intros Hh Hev HQ. unfold a_lock. wp_step.
  assert (Z.to_nat POWER_LOCK_TIMEOUT = S (pred (Z.to_nat POWER_LOCK_TIMEOUT))) as ->.
  { rewrite Nat.succ_pred; [done|]. unfold POWER_LOCK_TIMEOUT. intros H%(f_equal Z.of_nat). rewrite Z2Nat.id in H; lia. }
  generalize (pred (Z.to_nat POWER_LOCK_TIMEOUT)). intros n. simpl. wp_step. unfold a_take. wp_step. wp_step. rewrite Hh.
  wp_step. wp_step. wp_step. wp_step. wp_step. wp_step. simpl.
  assert (event || _IsSystemStatePowered (pa_sys a) = true) as -> by (destruct Hev as [->| ->]; [done|apply orb_true_r]).
  simpl. by wp_step.
Qed.

Lemma wp_a_release id Q (a : power_abs W) : pa_holder a = Some id → Q tt (set_pa_holder None a) → wp (a_release id) Q a.
Proof. intros Hh HQ. unfold a_release. wp_step. by rewrite decide_True. Qed.

(** The state after a transition that answers [e], leaves the devices [l] and
    the world [w]. *)
Definition transitioned (new : PVRSRV_SYS_POWER_STATE) (a : power_abs W) (e : PVRSRV_ERROR) (l : list PVRSRV_POWER_DEV) (w : W) :
    power_abs W :=
  mkPa (pa_os a) (pa_init a) None (if is_OK e then new else pa_sys a)
    (if is_OK e then PVRSRV_SYS_POWER_STATE_Unspecified else new) l w.

Lemma wp_a_set_power {wait : PowerWait W} new (Q : PVRSRV_ERROR → power_abs W → Prop) a : pa_holder a = None →
  wp (world_transition new (pa_sys a) (pa_devs a) (gbInitSuccessful (pa_init a)))
    (λ r w, Q r.1 (transitioned new a r.1 r.2 w)) (pa_world a) →
  wp (a_set_power new) Q a.
Proof.
  intros Hh H. unfold world_transition in H. unfold a_set_power, a_system_pre. wp_step. wp_step.
  apply wp_a_lock_free; [done|by left|]. cbn [is_OK negb]. wp_step.
  apply wp_a_sys_pre. cbn [pa_sys set_pa_holder pa_devs pa_world].
  apply wp_bind_inv in H. eapply wp_mono; [exact H|]. clear H. intros e w H. cbv beta in H. destruct (is_OK e) eqn:He.
  - apply is_OK_true in He. subst e. wp_step. wp_step. wp_step. unfold and_then at 1. cbn [is_OK]. unfold a_system_post.
    wp_step. wp_step. apply wp_a_sys_post. cbn [pa_sys set_pa_holder set_pa_world pa_devs pa_world]. apply wp_bind_inv in H.
    eapply wp_mono; [exact H|]. clear H. intros [e l'] w' H. apply wp_bind_inv in H. cbn [fst snd].
    wp_step. apply wp_a_release; [done|]. wp_step. wp_step. wp_step.
    cbn [pa_init set_pa_holder set_pa_sys set_pa_devs set_pa_world].
    assert (∀ w2, Q e (transitioned new a e l' w2) →
      wp (mret e) (λ e a0, wp (modify (set_pa_failed (if is_OK e then PVRSRV_SYS_POWER_STATE_Unspecified else new));; mret e) Q a0)
        (mkPa (pa_os a) (pa_init a) None (if is_OK e then new else pa_sys a) (pa_failed a) l' w2)) as Hend.
    { intros w2 Hw2. wp_step. wp_step. wp_step. wp_step. exact Hw2. }
    destruct (_ && _).
    + apply wp_in_world_run. cbn [pa_world]. eapply wp_mono; [exact H|]. intros [] w2 Hw2. by apply Hend.
    + wp_step. by apply Hend.
  - wp_step. wp_step. wp_step. apply wp_a_release; [done|]. wp_step. unfold and_then. rewrite He. wp_step. wp_step. wp_step. wp_step. wp_step.
    rewrite He. apply (proj1 (wp_Done _ _ _)) in H as (?&?&[= <- <-]&HQ). simpl in HQ. unfold transitioned in HQ. by rewrite He in HQ.
Qed.
End stage.
