(* ===== verification/PowerQuiet.v ===== *)
(** * Unpowered systems have their devices off

    While the system is unpowered every registered device is off, provided
    devices register in the off state and no transition into a powered state
    has failed; polling gives up after [POWER_LOCK_TIMEOUT] attempts. *)

From S2P Require Import Prelude Lists Resource Sim Power PowerRep PowerSim PowerOps PowerTop PowerStage.

Section quiet.
Context {W : Type} {env : PowerEnv W} {wait : PowerWait W} {tot : PowerTotal env}.

(** ** Polling *)

Fixpoint waits (n : nat) : M (power_abs W) unit :=
  match n with O => mret tt | S n => wait_spec;; waits n end.

Lemma wp_poll_grant id n (a b : power_abs W) k : id ≠ ISR_ID → (k < n)%nat → waits k a = Done tt b →
  (∀ j c, (j < k)%nat → waits j a = Done tt c → pa_holder c ≠ None) → pa_holder b = None →
  a_poll n id a = Done PVRSRV_OK (set_pa_holder (Some id) b).
Proof.
  intros Hid. revert n a. induction k as [|k IH]; intros n a Hn Hw Hheld Hfree.
  - injection Hw as ->. destruct n as [|n]; [lia|]. simpl. cbv [a_take mbind M_bind gets]. by rewrite Hfree.
  - destruct n as [|n]; [lia|]. simpl. pose proof (Hheld 0%nat a ltac:(lia) eq_refl) as Ha.
    cbv [a_take mbind M_bind gets]. destruct (pa_holder a) as [h|] eqn:Hh; [|done]. cbv [mret M_ret].
    rewrite (proj2 (Z.eqb_neq _ _)) by done.
    change (match wait_spec a with Done _ a1 => waits k a1 | Fault => Fault | OutOfFuel => OutOfFuel end = Done tt b) in Hw.
    destruct (wait_spec a) as [[] a1| |] eqn:Hs; [|done|done]. apply IH; [lia|done| |done].
    intros j c Hj Hc. apply (Hheld (S j)); [lia|]. simpl. cbv [mbind M_bind]. by rewrite Hs.
Qed.

Lemma wp_poll_timeout id n (a b : power_abs W) : id ≠ ISR_ID → waits n a = Done tt b →
  (∀ j c, (j < n)%nat → waits j a = Done tt c → pa_holder c ≠ None) →
  a_poll n id a = Done PVRSRV_ERROR_UNABLE_TO_LOCK_RESOURCE b.
Proof.
  intros Hid. revert a. induction n as [|n IH]; intros a Hw Hheld.
  - by injection Hw as ->.
  - simpl. pose proof (Hheld 0%nat a ltac:(lia) eq_refl) as Ha.
    cbv [a_take mbind M_bind gets]. destruct (pa_holder a) as [h|] eqn:Hh; [|done]. cbv [mret M_ret].
    rewrite (proj2 (Z.eqb_neq _ _)) by done.
    change (match wait_spec a with Done _ a1 => waits n a1 | Fault => Fault | OutOfFuel => OutOfFuel end = Done tt b) in Hw.
    destruct (wait_spec a) as [[] a1| |] eqn:Hs; [|done|done]. apply IH; [done|].
    intros j c Hj Hc. apply (Hheld (S j)); [lia|]. simpl. cbv [mbind M_bind]. by rewrite Hs.
Qed.

(** The lock of an attempt. *)
Definition granted (id : Z) (event : bool) (a : power_abs W) (e : PVRSRV_ERROR) (b : power_abs W) : Prop :=
  match e with
  | PVRSRV_OK => pa_holder b = Some id ∧ (event = false → _IsSystemStatePowered (pa_sys b) = true)
  | PVRSRV_ERROR_RETRY =>
      id = ISR_ID ∧ pa_holder a ≠ None ∧ b = a ∨
      event = false ∧ _IsSystemStatePowered (pa_sys b) = false ∧ pa_holder b = None
  | PVRSRV_ERROR_UNABLE_TO_LOCK_RESOURCE => id ≠ ISR_ID
  | _ => False
  end.

Lemma wp_a_poll (P : power_abs W → Prop) id : keeps P wait_spec → (∀ a h, P a → P (set_pa_holder h a)) →
  ∀ n a, (0 < n)%nat → P a → wp (a_poll n id) (λ e b, P b ∧ (e = PVRSRV_OK ∧ pa_holder b = Some id ∨
    e = PVRSRV_ERROR_RETRY ∧ id = ISR_ID ∧ pa_holder a ≠ None ∧ b = a ∨ e = PVRSRV_ERROR_UNABLE_TO_LOCK_RESOURCE ∧ id ≠ ISR_ID)) a.
Proof.
  intros Hwait Hh. induction n as [|n IH]; intros c Hn Hc; [lia|]. simpl. wp_step. unfold a_take. wp_step. wp_step.
  destruct (pa_holder c) as [h|] eqn:Hc0; [|wp_steps; split; [auto|by left]]. wp_step. destruct (Z.eqb_spec id ISR_ID) as [Hi|Hi].
  - wp_step. split; [done|]. right. left. done.
  - wp_step. eapply wp_mono; [by apply Hwait|]. intros [] c' Hc'. destruct n as [|n]; [simpl; wp_step; auto|].
    eapply wp_mono; [apply IH; [lia|done]|]. intros e b [Hb [H|[(_&Hi'&_)|H]]]; (split; [done|]); [by left|by destruct Hi|by right; right].
Qed.

Lemma wp_a_lock (P : power_abs W → Prop) id event a : keeps P wait_spec → (∀ a h, P a → P (set_pa_holder h a)) →
  P a → wp (a_lock id event) (λ e b, P b ∧ granted id event a e b) a.
Proof.
  intros Hwait Hh Ha. unfold a_lock. wp_step. eapply wp_mono.
  { apply (wp_a_poll P); [done|done| |done]. apply Nat2Z.inj_lt. rewrite Z2Nat.id; unfold POWER_LOCK_TIMEOUT; lia. }
  intros e b [HP [[-> Hb]|[(->&Hi&Hn&->)|[-> Hi]]]]; wp_step; wp_step; simpl; [|wp_step; by split; [|left]|by wp_step].
  destruct event; simpl.
  - by wp_step.
  - destruct (_IsSystemStatePowered (pa_sys b)) eqn:Hs; simpl; [by wp_step|].
    wp_step. apply wp_a_release; [done|]. wp_step. split; [auto|]. by right.
Qed.

(** ** Programs of the world that return *)

Lemma total_until {R} (cont : R → bool) (l : list (M W R)) : Forall total l → ∀ r, total (until cont r l).
Proof.
  induction 1 as [|m l Hm Hl IH]; intros r w; simpl; [by exists r, w|]. destruct (cont r); [|by exists r, w].
  destruct (Hm w) as (r'&w'&Hw). cbv [mbind M_bind]. rewrite Hw. apply IH.
Qed.

Lemma total_wp {B} (m : M W B) (Q : B → W → Prop) w : total m → (∀ b w', m w = Done b w' → Q b w') → wp m Q w.
Proof. intros Hm HQ. destruct (Hm w) as (b&w'&Hw). apply wp_Done. eauto. Qed.

(** A property of every call. *)
Lemma pre_calls_forall (P : M W PVRSRV_ERROR → Prop) new cur l : (∀ f c n o, P (pre_power f c n o)) →
  (∀ i n o, P (SysDevicePrePowerState i n o)) → (∀ n, P (SysSystemPrePowerState n)) → Forall P (pre_calls new cur l).
Proof.
  intros H1 H2 H3. unfold pre_calls. apply Forall_app. split; [|destruct (decide _); constructor; auto].
  destruct (flips new cur); [|constructor]. induction (changing _ _ l) as [|d l' IH]; simpl; [constructor|].
  apply Forall_app. split; [|exact IH]. unfold dev_pre_calls. destruct (_ =? _); simpl; auto.
Qed.

Lemma pre_calls_total new cur l : Forall total (pre_calls new cur l).
Proof. apply pre_calls_forall; [apply pre_power_total|apply dev_pre_total|apply sys_pre_total]. Qed.

Lemma total_bind {B C} (m : M W B) (k : B → M W C) : total m → (∀ b, total (k b)) → total (m ≫= k).
Proof. intros Hm Hk w. destruct (Hm w) as (b&w'&Hw). cbv [mbind M_bind]. rewrite Hw. apply Hk. Qed.

Lemma total_ret {B} (b : B) : total (mret (M := M W) b).
Proof. intros w. by exists b, w. Qed.

Lemma post_devs_total sel target l : total (post_devs sel target l).
Proof.
  induction l as [|d l IH]; cbn [post_devs]; [apply total_ret|]. destruct (changes sel target d).
  - apply total_bind.
    + apply total_until. constructor; [apply dev_post_total|]. destruct (_ =? _); repeat constructor. apply post_power_total.
    + intros e. destruct (is_OK e); [|apply total_ret]. by apply total_bind; [|intros; apply total_ret].
  - by apply total_bind; [|intros; apply total_ret].
Qed.

Lemma post_run_total new cur l : total (post_run new cur l).
Proof.
  unfold post_run. apply total_bind; [destruct (decide _); [apply sys_post_total|apply total_ret]|]. intros e.
  destruct (is_OK e); [|apply total_ret]. destruct (flips new cur); [apply post_devs_total|apply total_ret].
Qed.

Lemma world_transition_total new cur l b : total (world_transition new cur l b).
Proof.
  unfold world_transition. apply total_bind; [apply total_until, pre_calls_total|]. intros e.
  destruct (is_OK e); [|apply total_ret]. apply total_bind; [apply post_run_total|]. intros r.
  apply total_bind; [destruct (_ && _); [apply schedule_total|apply total_ret]|]. intros. apply total_ret.
Qed.

(** On success every device has its new state. *)
Lemma post_run_OK new cur l w l' w' : post_run new cur l w = Done (PVRSRV_OK, l') w' →
  l' = if flips new cur then step_dev None (device_target new) <$> l else l.
Proof.
  unfold post_run. change (match (if decide (new ≠ cur) then SysSystemPostPowerState new else mret PVRSRV_OK) w with
    | Done e w => (if is_OK e then if flips new cur then post_devs None (device_target new) l else mret (M := M W) (PVRSRV_OK, l) else mret (M := M W) (e, l)) w
    | Fault => Fault | OutOfFuel => OutOfFuel end = Done (PVRSRV_OK, l') w' → l' = if flips new cur then step_dev None (device_target new) <$> l else l).
  lazymatch goal with |- match ?x with _ => _ end = _ → _ => destruct x as [e w1| |]; [|done|done] end. destruct (is_OK e) eqn:He; [|intros [= -> _ _]; done].
  destruct (flips new cur); [|by intros [= -> _]]. intros H. by eapply post_devs_OK.
Qed.

Lemma post_run_same new cur l w e l' w' : flips new cur = false → post_run new cur l w = Done (e, l') w' → l' = l.
Proof.
  intros Hf. unfold post_run. rewrite Hf. change (match (if decide (new ≠ cur) then SysSystemPostPowerState new else mret PVRSRV_OK) w with
    | Done e w => (if is_OK e then mret (M := M W) (PVRSRV_OK, l) else mret (M := M W) (e, l)) w
    | Fault => Fault | OutOfFuel => OutOfFuel end = Done (e, l') w' → l' = l).
  lazymatch goal with |- match ?x with _ => _ end = _ → _ => destruct x as [e1 w1| |]; [|done|done] end. destruct (is_OK e1); by intros [= _ -> _].
Qed.

(** ** The invariant *)

Definition quiet (a : power_abs W) : Prop :=
  _IsSystemStatePowered (pa_sys a) = false → Forall (λ d, pd_eCurrentPowerState d = PVRSRV_DEV_POWER_STATE_OFF) (pa_devs a).

(** The call neither registers a device that is not off nor fails to power
    the system. *)
Definition op_quiet (o : power_op) (r : power_answer) : Prop :=
  match o with
  | PRegister _ _ _ _ _ _ cur _ => cur = PVRSRV_DEV_POWER_STATE_OFF
  | PSetPower new => _IsSystemStatePowered new = true → r = AError PVRSRV_OK
  | _ => True
  end.

Lemma step_dev_off d : pd_eCurrentPowerState (step_dev None PVRSRV_DEV_POWER_STATE_OFF d) = PVRSRV_DEV_POWER_STATE_OFF.
Proof.
  unfold step_dev, changes. simpl. destruct (decide (pd_eCurrentPowerState d = PVRSRV_DEV_POWER_STATE_OFF)) as [H|H].
  - rewrite bool_decide_false; [done|]. unfold new_device_state. rewrite decide_False by done. by intros [].
  - by rewrite bool_decide_true.
Qed.

Lemma flips_off new cur : _IsSystemStatePowered new = false → flips new cur = _IsSystemStatePowered cur.
Proof. unfold flips. intros ->. by destruct (_IsSystemStatePowered cur). Qed.

Lemma quiet_sys_post new a : quiet a → wp (a_sys_post new)
  (λ e b, (_IsSystemStatePowered new = true → e = PVRSRV_OK) → quiet b) a.
Proof.
  intros Hq. apply wp_a_sys_post. apply total_wp; [apply post_run_total|]. intros [e l'] w Hrun He Hoff. simpl in He, Hoff |- *.
  destruct (is_OK e) eqn:Hok.
  - apply is_OK_true in Hok. subst e. apply post_run_OK in Hrun as ->. rewrite (flips_off _ _ Hoff).
    unfold device_target. rewrite Hoff. destruct (_IsSystemStatePowered (pa_sys a)) eqn:Ha; [|by apply Hq].
    apply Forall_fmap, Forall_true. intros d. apply step_dev_off.
  - destruct (_IsSystemStatePowered new) eqn:Hn; [specialize (He eq_refl); by subst e|].
    apply post_run_same in Hrun as ->; [by apply Hq|]. by rewrite (flips_off _ _ Hn).
Qed.

Context (Hwait : keeps quiet wait_spec).

Lemma keeps_quiet_lock id event : keeps quiet (a_lock id event).
Proof. apply keeps_lock; auto. Qed.

Lemma quiet_set_power new a : quiet a → wp (a_set_power new)
  (λ e b, (_IsSystemStatePowered new = true → e = PVRSRV_OK) → quiet b) a.
Proof.
  intros Hq. assert (∀ id, keeps quiet (a_release id)) as Hr by (intros; by apply keeps_release).
  unfold a_set_power, a_system_pre. wp_step. wp_step. eapply wp_mono; [by apply keeps_quiet_lock|]. intros e b Hb.
  destruct (is_OK e) eqn:He; cbn [negb].
  - wp_step. apply wp_a_sys_pre. apply total_wp; [apply total_until, pre_calls_total|]. intros e1 w _. wp_step.
    eapply (wp_mono _ (λ _, quiet)).
    { destruct (is_OK e1); [by wp_step|]. wp_step. wp_step. by apply Hr. }
    intros [] c Hc. wp_step. wp_step. unfold and_then. destruct (is_OK e1) eqn:He1.
    + unfold a_system_post. wp_step. eapply wp_mono; [by apply quiet_sys_post|]. intros e2 d Hd. wp_step.
      eapply (wp_mono _ (λ _ d, (_IsSystemStatePowered new = true → e2 = PVRSRV_OK) → quiet d)).
      { unfold a_release. wp_step. destruct (decide _); done. }
      clear d Hd. intros [] d Hd. wp_step. wp_step. wp_step.
      eapply (wp_mono _ (λ _ d, (_IsSystemStatePowered new = true → e2 = PVRSRV_OK) → quiet d)).
      { destruct (_ && _); [|by wp_step]. apply wp_in_world; [apply schedule_total|]. intros _ w1. exact Hd. }
      clear d Hd. intros [] d Hd. wp_step. wp_step. wp_step. wp_step. exact Hd.
    + wp_step. wp_step. wp_step. wp_step. done.
  - wp_step. wp_step. unfold and_then. rewrite He. wp_step. wp_step. wp_step. wp_step. done.
Qed.

Lemma quiet_set_device index target id retain a : quiet a → wp (a_set_device index target id retain) (λ _, quiet) a.
Proof.
  intros Hq. set (on := λ b : power_abs W, _IsSystemStatePowered (pa_sys b) = true).
  assert (∀ b, on b → quiet b) as Hon by (intros b Hb Hoff; unfold on in Hb; congruence).
  assert (∀ sel t, keeps on (a_pre sel t)) as Hpre by (intros; by apply keeps_pre).
  assert (∀ sel t, keeps on (a_post sel t)) as Hpost by (intros; by apply keeps_post).
  unfold a_set_device. wp_step. eapply wp_mono; [apply (wp_a_lock quiet); auto|]. intros e b [Hb Hg].
  destruct (is_OK e) eqn:He; cbn [negb]; [|by wp_step]. apply is_OK_true in He. subst e. destruct Hg as [_ Hg]. specialize (Hg eq_refl).
  eapply (wp_mono _ (λ _, on)); [|intros _ c; apply Hon].
  assert (∀ m e, keeps on m → keeps on (and_then e m)) as Hand by (intros m e Hm; unfold and_then; destruct (is_OK e); [done|apply keeps_ret]).
  revert b Hg Hb. assert (keeps on (e ← a_pre (Some index) target; e ← and_then e (a_post (Some index) target);
    (if retain && is_OK e then mret tt else a_release id);; mret e)) as H; [|auto].
  apply keeps_bind; [apply Hpre|]. intros e. apply keeps_bind; [apply Hand, Hpost|]. intros e1.
  apply keeps_bind; [|intros; apply keeps_ret]. destruct (_ && _); [apply keeps_ret|by apply keeps_release].
Qed.

Context (Hpaired : keeps all_paired wait_spec).

Lemma keeps_and {S B} (P Q : S → Prop) (m : M S B) : keeps P m → keeps Q m → keeps (λ s, P s ∧ Q s) m.
Proof. intros HP HQ s [Hp Hq]. specialize (HP s Hp). specialize (HQ s Hq). unfold wp in *. by destruct (m s). Qed.

Lemma quiet_op o a : all_paired a → quiet a → wp (spec_power_op o) (λ r b, op_quiet o r → quiet b) a.
Proof.
  intros Hpa Hq. assert (∀ {B} (m : M (power_abs W) B) (f : B → power_answer),
    keeps quiet m → wp (r ← m; mret (f r)) (λ r b, op_quiet o r → quiet b) a) as Hk.
  { intros B m f Hm. wp_step. eapply wp_mono; [by apply Hm|]. intros r b Hb. wp_step. done. }
  assert (∀ id, keeps quiet (a_release id)) as Hr by (intros; by apply keeps_release).
  assert (∀ i, keeps quiet (a_remove i)) as Hrem.
  { intros i. unfold a_remove. apply keeps_bind; [apply keeps_gets|]. intros [j|]; keeps_steps idtac.
    - apply keeps_os; [auto|apply total_OSFreeMem].
    - apply keeps_modify. intros c Hc Hoff. by apply Forall_delete, Hc. }
  set (qp := λ a, quiet a ∧ all_paired a).
  assert (∀ id, keeps qp (a_release id)) as Hrq by (intros; apply keeps_and; [done|apply keeps_release; auto]).
  assert (∀ i f, (∀ d, paired d → pfnPostClockSpeedChange d ≠ IMG_NULL → keeps qp (f d)) → keeps qp (a_clock i f)) as Hc.
  { intros i f Hf. apply keeps_clock. intros c d [Hb Hb'] Hd Hp. apply Hf; [|done|by split]. by eapply Forall_forall in Hb'. }
  assert (∀ {B} (m : M (power_abs W) B) (f : B → power_answer),
    keeps qp m → wp (r ← m; mret (f r)) (λ r b, op_quiet o r → quiet b) a) as Hk2.
  { intros B m f Hm. wp_step. eapply wp_mono; [by apply Hm|]. intros r c [Hb _]. wp_step. done. }
  assert (∀ id ev, keeps quiet (a_lock id ev)) as Hl by (intros; apply keeps_quiet_lock).
  destruct o as [e b| | | | | | |new| | |]; simpl.
  - wp_step. wp_step. wp_step. done.
  - wp_step. wp_step. wp_step. done.
  - unfold a_register. wp_step. destruct (_ && _).
    + eapply wp_mono; [by apply Hrem|]. intros r b Hb. by wp_step.
    + wp_step. eapply wp_mono; [apply (keeps_os quiet); [auto|apply total_OSAllocMem|exact Hq]|]. intros [] b Hb; simpl.
      * wp_step. wp_step. wp_step. wp_step. intros -> Hoff. constructor; [done|by apply Hb].
      * wp_step. by wp_step.
  - by apply Hk.
  - apply Hk, Hl.
  - by apply (Hk _ _ (λ _, ANone)).
  - apply Hk. intros c. apply quiet_set_device.
  - wp_step. eapply wp_mono; [by apply quiet_set_power|]. intros e b Hb. wp_step. intros He. apply Hb. intros Hn.
    specialize (He Hn). by injection He.
  - wp_step. wp_step. by wp_step.
  - apply Hk2. unfold a_pre_clock. apply keeps_bind.
    { destruct idle; [|apply keeps_ret]. apply keeps_and; [apply Hl|apply keeps_lock; auto]. }
    intros e. destruct (negb (is_OK e)); [apply keeps_ret|]. apply keeps_bind.
    + apply Hc. intros d Hd Hp. rewrite (proj2 (Z.eqb_neq _ _)) by auto. apply keeps_world; [|apply pre_clock_total]. intros c w Hcw. exact Hcw.
    + intros e1. apply keeps_bind; [destruct (_ && _); [apply Hrq|apply keeps_ret]|]. intros. apply keeps_ret.
  - apply (Hk2 _ _ (λ _, ANone)). unfold a_post_clock. apply keeps_bind.
    + apply Hc. intros d _ _. apply keeps_world; [|apply post_clock_total]. intros c w Hcw. exact Hcw.
    + intros _. destruct idle; [apply Hrq|apply keeps_ret].
Qed.
End quiet.
