(* ===== verification/PowerProps.v ===== *)
(** * Properties of the power manager

    First concrete environments, for the witnesses.  Their world is a log of calls.
    The function at address [bad], if there is one, fails, the others succeed;
    while a caller polls, the holder of the lock, process 7, gives it back. *)

From S2P Require Import Prelude Lists Resource Sim Power PowerRep PowerSim PowerOps PowerTop.
From S2P Require Import PowerStage PowerQuiet.

Inductive power_call :=
| CPrePower (f c : Z) (new old : PVRSRV_DEV_POWER_STATE)
| CPostPower (f c : Z) (new old : PVRSRV_DEV_POWER_STATE)
| CPreClock (f c : Z) (idle : bool) (cur : PVRSRV_DEV_POWER_STATE)
| CPostClock (f c : Z) (idle : bool) (cur : PVRSRV_DEV_POWER_STATE)
| CSysDevPre (i : Z) (new old : PVRSRV_DEV_POWER_STATE)
| CSysDevPost (i : Z) (new old : PVRSRV_DEV_POWER_STATE)
| CSysPre (new : PVRSRV_SYS_POWER_STATE)
| CSysPost (new : PVRSRV_SYS_POWER_STATE)
| CSchedule.

Definition call_log := list power_call.

Definition logged (bad : option Z) (f : Z) (c : power_call) : M call_log PVRSRV_ERROR := λ w,
  Done (if bool_decide (bad = Some f) then PVRSRV_ERROR_OUT_OF_MEMORY else PVRSRV_OK) (w ++ [c]).

Definition log_env (bad : option Z) : PowerEnv call_log := {|
  pre_power f c n o := logged bad f (CPrePower f c n o);
  post_power f c n o := logged bad f (CPostPower f c n o);
  pre_clock f c i o := logged bad f (CPreClock f c i o);
  post_clock f c i o := logged bad f (CPostClock f c i o);
  SysDevicePrePowerState i n o := logged None 0 (CSysDevPre i n o);
  SysDevicePostPowerState i n o := logged None 0 (CSysDevPost i n o);
  SysSystemPrePowerState n := logged None 0 (CSysPre n);
  SysSystemPostPowerState n := logged None 0 (CSysPost n);
  schedule_callbacks := (_ ← logged None 0 CSchedule; mret tt);
  power_wait := PVRSRVPowerUnlock 7 |}.

Lemma log_total bad : PowerTotal (log_env bad).
Proof. split; intros; intros w; eexists _, _; reflexivity. Qed.

Definition unlocking : PowerEnv call_log := log_env None.
Definition unlocking_wait : PowerWait call_log := a_release 7.

Lemma unlocking_law bad : PowerWaitLaw (log_env bad) unlocking_wait.
Proof. unfold PowerWaitLaw. apply sim_lift. intros L addrs _. apply (sim_PVRSRVPowerUnlock (W := call_log)). Qed.

Lemma unlocking_keeps (P : power_abs call_log → Prop) : (∀ a h, P a → P (set_pa_holder h a)) → keeps P (unlocking_wait).
Proof. intros H. by apply keeps_release. Qed.

(** A driver without power devices. *)
Definition pw_empty (sys : PVRSRV_SYS_POWER_STATE) (r : PVRSRV_RESOURCE) : pw_st call_log :=
  mkPw os_plenty 1 (mkInitServer false false false) r sys PVRSRV_SYS_POWER_STATE_Unspecified (mkLists ∅ {[0 := 0]}) ∅ [].

Definition pa_empty (sys : PVRSRV_SYS_POWER_STATE) (h : option Z) : power_abs call_log :=
  mkPa os_plenty (mkInitServer false false false) h sys PVRSRV_SYS_POWER_STATE_Unspecified [] [].

Lemma rep_empty sys r h : holds r h → rep (pw_empty sys r) (pa_empty sys h).
Proof.
  intros Hh. exists (mkLists ∅ {[0 := 0]}), []. split.
  - split.
    + split.
      * intros h' l [<- <-]%lookup_singleton_Some. split; [|constructor]. by unfold seg, rd.
      * intros h1 h2 l1 l2 x [<- <-]%lookup_singleton_Some [<- <-]%lookup_singleton_Some. done.
    + intros x. simpl. rewrite lookup_empty. by intros [].
  - split; simpl; try done.
    + intros x. rewrite lookup_empty. by intros [].
    + by intros x ?%elem_of_nil.
Qed.

(** The SGX and a display with a post function that fails. *)
Definition sgx_dev : PVRSRV_POWER_DEV := mkPowerDev 1 2 3 4 100 0 PVRSRV_DEV_POWER_STATE_OFF PVRSRV_DEV_POWER_STATE_OFF.
Definition lcd_dev (post : Z) : PVRSRV_POWER_DEV := mkPowerDev 5 post 0 0 200 1 PVRSRV_DEV_POWER_STATE_ON PVRSRV_DEV_POWER_STATE_OFF.

(** Two devices, at addresses 1 and 2. *)
Definition two_devices (sys : PVRSRV_SYS_POWER_STATE) (d1 d2 : PVRSRV_POWER_DEV) : pw_st call_log :=
  mkPw os_plenty 3 (mkInitServer false true true) (mkResource 0 0) sys PVRSRV_SYS_POWER_STATE_Unspecified
    (mkLists {[1 := mkNode 2 (HeadOf 0); 2 := mkNode 0 (NextOf 1)]} {[0 := 1]}) {[1 := d1; 2 := d2]} [].

Definition two_devices_abs (sys : PVRSRV_SYS_POWER_STATE) (d1 d2 : PVRSRV_POWER_DEV) : power_abs call_log :=
  mkPa os_plenty (mkInitServer false true true) None sys PVRSRV_SYS_POWER_STATE_Unspecified [d1; d2] [].

Lemma rep_two_devices sys d1 d2 : rep (two_devices sys d1 d2) (two_devices_abs sys d1 d2).
Proof.
  exists (psPowerDeviceList (two_devices sys d1 d2)), [1; 2]. split.
  - split.
    + split.
      * intros h l [<- <-]%lookup_singleton_Some. split; [|apply (bool_decide_unpack _); by vm_compute].
        split_and!; done.
      * intros h1 h2 l1 l2 x [<- <-]%lookup_singleton_Some [<- <-]%lookup_singleton_Some. done.
    + intros x. simpl. intros [n [[<- _]|[_ Hx]]%lookup_insert_Some]; [by left|].
      apply lookup_singleton_Some in Hx as [<- _]. by right; left.
  - split; simpl; try done.
    + by repeat constructor.
    + intros x [d [[<- _]|[_ Hx]]%lookup_insert_Some]; [by left|]. apply lookup_singleton_Some in Hx as [<- _]. by right; left.
    + intros x [->|[->|?%elem_of_nil]%elem_of_cons]%elem_of_cons; [lia..|done].
Qed.

Section props.
Context {W : Type} {env : PowerEnv W} {wait : PowerWait W}.

Lemma in_turn_returns ops (a : power_abs W) {tot : PowerTotal env} : keeps all_paired wait_spec → all_paired a → Forall op_paired ops →
  ∃ rs a', in_turn spec_power_op ops a = Done rs a' ∧ all_paired a'.
Proof.
  intros Hw Ha Ho. apply wp_Done. apply (keeps_in_turn all_paired); [|done].
  eapply Forall_impl; [exact Ho|]. intros o. by apply op_returns.
Qed.

Lemma quiet_in_turn {tot : PowerTotal env} : keeps all_paired wait_spec → keeps quiet wait_spec →
  ∀ ops (a : power_abs W), all_paired a → quiet a → Forall op_paired ops →
  wp (in_turn spec_power_op ops) (λ rs b, Forall2 op_quiet ops rs → quiet b) a.
Proof.
  intros Hp Hq. induction ops as [|o ops IH]; intros a Ha Hqa Ho; simpl; [by wp_step|].
  apply Forall_cons in Ho as [Ho Hops]. wp_step.
  assert (wp (spec_power_op o) (λ r b, all_paired b ∧ (op_quiet o r → quiet b)) a) as H.
  { pose proof (op_returns Hp o Ho a Ha) as H1. pose proof (quiet_op Hq Hp o a Ha Hqa) as H2.
    unfold wp in *. by destruct (spec_power_op o a). }
  eapply wp_mono; [exact H|]. clear H. intros r b [Hb Hr]. wp_step.
  destruct (in_turn_returns ops b Hp Hb Hops) as (rs&c&Hc&_). unfold wp at 1. rewrite Hc.
  apply wp_ret. intros [Hor Hors]%Forall2_cons. specialize (IH b Hb (Hr Hor) Hops). unfold wp in IH. rewrite Hc in IH. auto.
Qed.

Lemma code_PVRSRVSetPowerStateKM {law : PowerWaitLaw env wait} {tot : PowerTotal env} new s (a : power_abs W) :
  rep s a → pa_holder a = None →
  wp (PVRSRVSetPowerStateKM new) (λ e s', ∃ l w, rep s' (transitioned new a e l w) ∧
    world_transition new (pa_sys a) (pa_devs a) (gbInitSuccessful (pa_init a)) (pa_world a) = Done (e, l) w) s.
Proof.
  intros HR Hh.
  destruct (world_transition_total new (pa_sys a) (pa_devs a) (gbInitSuccessful (pa_init a)) (pa_world a)) as ([e l]&w&Hw).
  eapply wp_mono; [apply (sim_wp rep _ _ (λ e' b, e' = e ∧ b = transitioned new a e l w) _ _ (sim_PVRSRVSetPowerStateKM new) HR)|].
  - apply wp_a_set_power; [done|]. unfold wp. by rewrite Hw.
  - intros e' s' (b&HR'&->&->). by exists l, w.
Qed.
End props.

(** C7: the power manager behaves as a list of devices with a lock. When no
    device has a post-clock-change function without a pre-clock-change one
    (with such a device the code calls a null pointer:
    [power_clock_handlers]), nor is one registered by the clients or by the
    threads that run while a caller polls for the lock, and the functions of
    the devices and of the board return, succeed or fail as they may, then
    whatever calls the clients make (registration and removal, locking,
    device and system transitions, clock changes, queries, the
    initialisation server's flags), the code on the linked list answers what
    the abstract operations answer, and ends, without touching a dangling or
    null pointer. *)
Theorem power_refines {W} (env : PowerEnv W) (wait : PowerWait W) (law : PowerWaitLaw env wait) (tot : PowerTotal env)
  (s : pw_st W) (a : power_abs W) (ops : list power_op) :
  keeps all_paired (wait_spec (PowerWait := wait)) → rep s a → all_paired a → Forall op_paired ops →
  wp (in_turn run_power_op ops) (λ rs s', ∃ a', in_turn spec_power_op ops a = Done rs a' ∧ rep s' a') s.
Proof.
  intros Hk HR Ha Ho. destruct (in_turn_returns ops a Hk Ha Ho) as (rs&a'&Hrun&_).
  destruct (sim_in_turn rep run_power_op spec_power_op ops (λ o, sim_power_op o) s a rs a' HR Hrun) as (s'&Hs'&HR').
  unfold wp. rewrite Hs'. by exists a'.
Qed.

Lemma power_refines_witness :
  wp (in_turn (run_power_op (env := unlocking)) [PRegister 0 1 2 3 4 100 PVRSRV_DEV_POWER_STATE_OFF PVRSRV_DEV_POWER_STATE_OFF;
      PLock 7 false; PSetDevice 0 PVRSRV_DEV_POWER_STATE_ON KERNEL_ID false; PSetPower PVRSRV_SYS_POWER_STATE_D3; PPreClock 0 true])
    (λ rs s', ∃ a', in_turn (spec_power_op (env := unlocking) (wait := unlocking_wait)) [PRegister 0 1 2 3 4 100 PVRSRV_DEV_POWER_STATE_OFF PVRSRV_DEV_POWER_STATE_OFF;
      PLock 7 false; PSetDevice 0 PVRSRV_DEV_POWER_STATE_ON KERNEL_ID false; PSetPower PVRSRV_SYS_POWER_STATE_D3; PPreClock 0 true]
      (pa_empty PVRSRV_SYS_POWER_STATE_D0 None) = Done rs a' ∧ rep s' a') (pw_empty PVRSRV_SYS_POWER_STATE_D0 (mkResource 0 0)).
Proof.
  apply (power_refines unlocking unlocking_wait (unlocking_law _) (log_total _)).
  - by apply unlocking_keeps.
  - by apply rep_empty.
  - constructor.
  - repeat constructor; try done.
Defined.

(** C20: what [PVRSRVPowerLock] grants: [PVRSRV_OK] means that the lock is held
    under the caller's identifier and, unless the caller handles a system
    event, that the system is powered; the interrupt handler that finds the
    lock taken gives up at once and changes nothing; a caller that finds the
    system unpowered leaves the lock free; no other caller gives up but by
    timeout. *)
Theorem power_lock_grant {W} (env : PowerEnv W) (wait : PowerWait W) (law : PowerWaitLaw env wait)
  (s : pw_st W) (a : power_abs W) (id : Z) (event : bool) :
  keeps (λ _, True) (wait_spec (PowerWait := wait)) → rep s a →
  wp (PVRSRVPowerLock id event) (λ e s', match e with
    | PVRSRV_OK => sPowerStateChangeResource s' = mkResource 1 id ∧
        (event = false → _IsSystemStatePowered (eCurrentPowerState s') = true)
    | PVRSRV_ERROR_RETRY =>
        id = ISR_ID ∧ ui32Lock (sPowerStateChangeResource s) = 1 ∧ rep s' a ∨
        event = false ∧ _IsSystemStatePowered (eCurrentPowerState s') = false ∧ sPowerStateChangeResource s' = mkResource 0 0
    | PVRSRV_ERROR_UNABLE_TO_LOCK_RESOURCE => id ≠ ISR_ID
    | _ => False
    end) s.
Proof.
  intros Hk HR. eapply wp_mono.
  - apply (sim_wp rep _ _ (λ e b, True ∧ granted id event a e b) _ _ (sim_PVRSRVPowerLock id event) HR). by apply (wp_a_lock (λ _, True)).
  - intros e s' (b&(L&addrs&HL&HR')&_&Hg). pose proof (pr_lock _ _ _ _ HR') as Hl.
    destruct e; simpl in Hg; try done.
    + destruct Hg as [Hb Hs]. rewrite Hb in Hl. split; [done|]. intros He. by rewrite (pr_sys _ _ _ _ HR'), Hs.
    + destruct Hg as [(->&Ha&->)|(He&Hs&Hb)].
      * left. split; [done|]. split; [|by exists L, addrs]. destruct HR as (L0&addrs0&_&HR0).
        pose proof (pr_lock _ _ _ _ HR0) as Hl0. destruct (pa_holder a); unfold holds in Hl0; by rewrite Hl0.
      * right. rewrite Hb in Hl. split; [done|]. by rewrite (pr_sys _ _ _ _ HR').
Qed.

Lemma power_lock_grant_witness :
  wp (PVRSRVPowerLock (env := unlocking) KERNEL_ID false) (λ e s', match e with
    | PVRSRV_OK => sPowerStateChangeResource s' = mkResource 1 KERNEL_ID ∧
        (false = false → _IsSystemStatePowered (eCurrentPowerState s') = true)
    | PVRSRV_ERROR_RETRY =>
        KERNEL_ID = ISR_ID ∧ ui32Lock (mkResource 1 7) = 1 ∧ rep s' (pa_empty PVRSRV_SYS_POWER_STATE_D0 (Some 7)) ∨
        false = false ∧ _IsSystemStatePowered (eCurrentPowerState s') = false ∧ sPowerStateChangeResource s' = mkResource 0 0
    | PVRSRV_ERROR_UNABLE_TO_LOCK_RESOURCE => KERNEL_ID ≠ ISR_ID
    | _ => False
    end) (pw_empty PVRSRV_SYS_POWER_STATE_D0 (mkResource 1 7)).
Proof.
  apply (power_lock_grant unlocking unlocking_wait (unlocking_law _) (pw_empty PVRSRV_SYS_POWER_STATE_D0 (mkResource 1 7))).
  - by apply unlocking_keeps.
  - by apply rep_empty.
Defined.

(** C28: waiting for the power lock, for a caller other than the interrupt
    handler. When the [k]-th wait of the other threads is the first after
    which the lock is free, [k] is below a million and the system is powered
    then or the call is for a system power event, the caller gets the lock
    there, in the state the others left. When the lock is held throughout a
    million attempts, it gives up after the millionth wait, with the state
    the others left. So does power.c on every system: ce5300/sysconfig.h
    defines SYS_NO_POWER_LOCK_TIMEOUT and says that there is no such
    timeout, but no source file reads that macro. *)
Theorem power_lock_waits {W} (env : PowerEnv W) (wait : PowerWait W) (law : PowerWaitLaw env wait)
  (s : pw_st W) (a b : power_abs W) (id : Z) (event : bool) (k : nat) :
  rep s a → id ≠ ISR_ID → waits (wait := wait) k a = Done tt b →
  (∀ j c, (j < k)%nat → waits (wait := wait) j a = Done tt c → pa_holder c ≠ None) →
  Z.of_nat k < POWER_LOCK_TIMEOUT ∧ pa_holder b = None ∧ (event = true ∨ _IsSystemStatePowered (pa_sys b) = true) ∨
  Z.of_nat k = POWER_LOCK_TIMEOUT →
  wp (PVRSRVPowerLock id event) (λ e s',
    if decide (Z.of_nat k < POWER_LOCK_TIMEOUT) then e = PVRSRV_OK ∧ rep s' (set_pa_holder (Some id) b)
    else e = PVRSRV_ERROR_UNABLE_TO_LOCK_RESOURCE ∧ rep s' b) s.
Proof.
  intros HR Hid Hw Hheld Hcase.
  assert (∀ e b', a_lock (wait := wait) id event a = Done e b' → wp (PVRSRVPowerLock id event) (λ e' s', e' = e ∧ rep s' b') s) as Hsim.
  { intros e b' Hl. destruct (sim_PVRSRVPowerLock id event s a e b' HR Hl) as (s'&Hs'&HR'). unfold wp. by rewrite Hs'. }
  assert (∀ e c, a_poll (Z.to_nat POWER_LOCK_TIMEOUT) id a = Done e c →
    (is_OK e && negb (event || _IsSystemStatePowered (pa_sys c))) = false → a_lock (wait := wait) id event a = Done e c) as Hlock.
  { intros e c Hp Hb. unfold a_lock. cbv [mbind M_bind gets]. rewrite Hp, Hb. done. }
  destruct Hcase as [(Hk&Hfree&Hev)|Hk].
  - eapply wp_mono; [|intros e s' He; rewrite decide_True by done; exact He]. apply Hsim, Hlock.
    + apply wp_poll_grant with (k := k); [done| |done|done|done]. rewrite <- (Nat2Z.id k). apply Z2Nat.inj_lt; unfold POWER_LOCK_TIMEOUT in *; lia.
    + simpl. destruct Hev as [->| ->]; [done|by rewrite orb_true_r].
  - eapply wp_mono; [|intros e s' He; rewrite decide_False by lia; exact He]. apply Hsim, Hlock; [|done]. rewrite <- Hk, Nat2Z.id. by apply wp_poll_timeout.
Qed.

Lemma power_lock_waits_witness :
  wp (PVRSRVPowerLock (env := unlocking) KERNEL_ID false) (λ e s',
    if decide (Z.of_nat 1 < POWER_LOCK_TIMEOUT) then
      e = PVRSRV_OK ∧ rep s' (set_pa_holder (Some KERNEL_ID) (pa_empty PVRSRV_SYS_POWER_STATE_D0 None))
    else e = PVRSRV_ERROR_UNABLE_TO_LOCK_RESOURCE ∧ rep s' (pa_empty PVRSRV_SYS_POWER_STATE_D0 None))
    (pw_empty PVRSRV_SYS_POWER_STATE_D0 (mkResource 1 7)).
Proof.
  apply (power_lock_waits unlocking unlocking_wait (unlocking_law _) _ (pa_empty PVRSRV_SYS_POWER_STATE_D0 (Some 7))).
  - by apply rep_empty.
  - done.
  - reflexivity.
  - intros j c Hj. assert (j = 0%nat) as -> by lia. by intros [= <-].
  - left. split; [done|]. split; [done|]. by right.
Defined.

(** C18: a system transition, the lock being free: the calls that the world
    sees, their order and the answer are those of [world_transition], the
    devices' pre functions in the order of the list, the system's pre and post
    function, the devices' post functions, up to the first error, and then the
    completion callbacks.  A device whose post function ran has its new state
    and no other device changes.  The lock is free afterwards; on success the
    system has its new state and the record of failures is cleared, on an
    error the system keeps its state and the failure is recorded. *)
Theorem power_transition {W} (env : PowerEnv W) (wait : PowerWait W) (law : PowerWaitLaw env wait) (tot : PowerTotal env)
  (s : pw_st W) (a : power_abs W) (new : PVRSRV_SYS_POWER_STATE) :
  rep s a → pa_holder a = None →
  wp (PVRSRVSetPowerStateKM new) (λ e s', ∃ l w,
    world_transition new (pa_sys a) (pa_devs a) (gbInitSuccessful (pa_init a)) (pa_world a) = Done (e, l) w ∧
    rep s' (mkPa (pa_os a) (pa_init a) None (if is_OK e then new else pa_sys a)
      (if is_OK e then PVRSRV_SYS_POWER_STATE_Unspecified else new) l w)) s.
Proof.
  intros HR Hh. eapply wp_mono; [by apply (code_PVRSRVSetPowerStateKM (wait := wait))|].
  intros e s' (l&w&HR'&Hw). by exists l, w.
Qed.

Lemma power_transition_witness :
  wp (PVRSRVSetPowerStateKM (env := log_env (Some 66)) PVRSRV_SYS_POWER_STATE_D0) (λ e s', ∃ l w,
    world_transition (env := log_env (Some 66)) PVRSRV_SYS_POWER_STATE_D0 PVRSRV_SYS_POWER_STATE_D3 [lcd_dev 6; lcd_dev 66] true [] = Done (e, l) w ∧
    rep s' (mkPa os_plenty (mkInitServer false true true) None (if is_OK e then PVRSRV_SYS_POWER_STATE_D0 else PVRSRV_SYS_POWER_STATE_D3)
      (if is_OK e then PVRSRV_SYS_POWER_STATE_Unspecified else PVRSRV_SYS_POWER_STATE_D0) l w))
    (two_devices PVRSRV_SYS_POWER_STATE_D3 (lcd_dev 6) (lcd_dev 66)) ∧
  world_transition (env := log_env (Some 66)) PVRSRV_SYS_POWER_STATE_D0 PVRSRV_SYS_POWER_STATE_D3 [lcd_dev 6; lcd_dev 66] true [] =
    Done (PVRSRV_ERROR_OUT_OF_MEMORY, [pd_set PVRSRV_DEV_POWER_STATE_ON (lcd_dev 6); lcd_dev 66])
     [CPrePower 5 200 PVRSRV_DEV_POWER_STATE_ON PVRSRV_DEV_POWER_STATE_OFF; CSysDevPre 1 PVRSRV_DEV_POWER_STATE_ON PVRSRV_DEV_POWER_STATE_OFF;
      CPrePower 5 200 PVRSRV_DEV_POWER_STATE_ON PVRSRV_DEV_POWER_STATE_OFF; CSysDevPre 1 PVRSRV_DEV_POWER_STATE_ON PVRSRV_DEV_POWER_STATE_OFF;
      CSysPre PVRSRV_SYS_POWER_STATE_D0; CSysPost PVRSRV_SYS_POWER_STATE_D0;
      CSysDevPost 1 PVRSRV_DEV_POWER_STATE_ON PVRSRV_DEV_POWER_STATE_OFF; CPostPower 6 200 PVRSRV_DEV_POWER_STATE_ON PVRSRV_DEV_POWER_STATE_OFF;
      CSysDevPost 1 PVRSRV_DEV_POWER_STATE_ON PVRSRV_DEV_POWER_STATE_OFF; CPostPower 66 200 PVRSRV_DEV_POWER_STATE_ON PVRSRV_DEV_POWER_STATE_OFF;
      CSchedule].
Proof.
  split; [|reflexivity].
  apply (power_transition (log_env (Some 66)) unlocking_wait (unlocking_law _) (log_total _) _
    (two_devices_abs PVRSRV_SYS_POWER_STATE_D3 (lcd_dev 6) (lcd_dev 66))); [apply rep_two_devices|reflexivity].
Defined.

(** Every function power.c calls succeeds. *)
Definition succeeds {W} (m : M W PVRSRV_ERROR) : Prop := ∀ w, ∃ w', m w = Done PVRSRV_OK w'.

Class PowerSucceeds {W} (env : PowerEnv W) : Prop := {
  ps_total : PowerTotal env;
  ps_pre_power f c n o : succeeds (pre_power f c n o);
  ps_post_power f c n o : succeeds (post_power f c n o);
  ps_dev_pre i n o : succeeds (SysDevicePrePowerState i n o);
  ps_dev_post i n o : succeeds (SysDevicePostPowerState i n o);
  ps_sys_pre n : succeeds (SysSystemPrePowerState n);
  ps_sys_post n : succeeds (SysSystemPostPowerState n) }.

Section succeed.
Context {W : Type} {env : PowerEnv W} {ok : PowerSucceeds env}.

Lemma until_succeeds (l : list (M W PVRSRV_ERROR)) : Forall succeeds l → succeeds (until is_OK PVRSRV_OK l).
Proof.
  induction 1 as [|m l Hm Hl IH]; intros w; simpl; [by exists w|]. destruct (Hm w) as (w1&Hw1).
  destruct (IH w1) as (w2&Hw2). exists w2. cbv [mbind M_bind]. by rewrite Hw1.
Qed.

Lemma post_devs_succeeds sel target l w : ∃ l' w', post_devs sel target l w = Done (PVRSRV_OK, l') w'.
Proof.
  revert w. induction l as [|d l IH]; intros w; cbn [post_devs]; [by eexists _, _|].
  assert (succeeds (until is_OK PVRSRV_OK (dev_post_calls target d))) as Hc.
  { apply until_succeeds. constructor; [apply ps_dev_post|]. destruct (_ =? _); repeat constructor. apply ps_post_power. }
  destruct (changes sel target d); cbv [mbind M_bind].
  - destruct (Hc w) as (w1&Hw1). rewrite Hw1. destruct (IH w1) as (l'&w2&Hw2). cbn [is_OK]. rewrite Hw2. by eexists _, _.
  - destruct (IH w) as (l'&w2&Hw2). rewrite Hw2. by eexists _, _.
Qed.

Lemma transition_succeeds new cur l b w e l' w' : world_transition new cur l b w = Done (e, l') w' →
  e = PVRSRV_OK ∧ l' = if flips new cur then step_dev None (device_target new) <$> l else l.
Proof.
  assert (succeeds (until is_OK PVRSRV_OK (pre_calls new cur l))) as Hpre.
  { apply until_succeeds, pre_calls_forall; [apply ps_pre_power|apply ps_dev_pre|apply ps_sys_pre]. }
  destruct (Hpre w) as (w1&H1).
  assert (∃ l1 w2, post_run new cur l w1 = Done (PVRSRV_OK, l1) w2) as (l1&w2&H2).
  { unfold post_run. assert (succeeds (if decide (new ≠ cur) then SysSystemPostPowerState new else mret PVRSRV_OK)) as Hs.
    { destruct (decide _); [apply ps_sys_post|]. intros w3. by exists w3. }
    destruct (Hs w1) as (w3&H3). cbv [mbind M_bind]. rewrite H3. cbn [is_OK].
    destruct (flips new cur); [apply post_devs_succeeds|by eexists _, _]. }
  unfold world_transition. cbv [mbind M_bind]. rewrite H1. cbn [is_OK]. rewrite H2. apply post_run_OK in H2.
  lazymatch goal with |- match ?x with _ => _ end = _ → _ => destruct x as [[] ?| |]; [|done|done] end. by intros [= <- <- _].
Qed.
End succeed.

Lemma new_default d : new_device_state PVRSRV_DEV_POWER_STATE_DEFAULT d = eDefaultPowerState d.
Proof. unfold new_device_state. by rewrite decide_True. Qed.

Lemma step_dev_to target d : pd_eCurrentPowerState (step_dev None target d) = new_device_state target d ∧
  pd_set (new_device_state target d) d = step_dev None target d.
Proof.
  unfold step_dev, changes. simpl. destruct (decide (pd_eCurrentPowerState d = new_device_state target d)) as [H|H].
  - rewrite bool_decide_false by (intros Hn; by apply Hn). split; [done|]. rewrite <- H. by destruct d.
  - by rewrite bool_decide_true by done.
Qed.

(** C29: suspend and resume: when every function succeeds, suspending a powered
    system with a free lock turns every device off, and resuming brings every
    device to its default state, in the same list. *)
Theorem power_suspend_resume {W} (env : PowerEnv W) (wait : PowerWait W) (law : PowerWaitLaw env wait) (ok : PowerSucceeds env)
  (s : pw_st W) (a : power_abs W) :
  rep s a → pa_holder a = None → pa_sys a = PVRSRV_SYS_POWER_STATE_D0 →
  wp (PVRSRVSetPowerStateKM PVRSRV_SYS_POWER_STATE_D3) (λ e s1, e = PVRSRV_OK ∧
      (∃ b, rep s1 b ∧ pa_sys b = PVRSRV_SYS_POWER_STATE_D3 ∧ pa_devs b = pd_set PVRSRV_DEV_POWER_STATE_OFF <$> pa_devs a) ∧
      wp (PVRSRVSetPowerStateKM PVRSRV_SYS_POWER_STATE_D0) (λ e s2, e = PVRSRV_OK ∧
        ∃ b, rep s2 b ∧ pa_holder b = None ∧ pa_sys b = PVRSRV_SYS_POWER_STATE_D0 ∧ pa_failed b = PVRSRV_SYS_POWER_STATE_Unspecified ∧
          pa_devs b = (λ d, pd_set (eDefaultPowerState d) d) <$> pa_devs a) s1) s.
Proof.
  intros HR Hh Hs. pose proof ps_total as tot.
  eapply wp_mono; [by apply (code_PVRSRVSetPowerStateKM (wait := wait))|]. intros e s1 (l&w&HRb&Hw).
  apply transition_succeeds in Hw as [-> Hl]. split; [done|]. rewrite Hs in Hl.
  assert (l = pd_set PVRSRV_DEV_POWER_STATE_OFF <$> pa_devs a) as ->.
  { rewrite Hl. change (device_target PVRSRV_SYS_POWER_STATE_D3) with PVRSRV_DEV_POWER_STATE_OFF.
    apply list_fmap_ext. intros i d _. by destruct (step_dev_to PVRSRV_DEV_POWER_STATE_OFF d) as [_ <-]. }
  clear Hl. split; [eexists; by split; [exact HRb|]|].
  eapply wp_mono; [apply (code_PVRSRVSetPowerStateKM (wait := wait)); [exact HRb|done]|].
  intros e s2 (l'&w'&HRc&Hw'). apply transition_succeeds in Hw' as [-> Hl']. split; [done|]. eexists. split; [exact HRc|].
  split_and!; [done..|]. simpl in Hl' |- *. rewrite Hl', <- list_fmap_compose.
  change (device_target PVRSRV_SYS_POWER_STATE_D0) with PVRSRV_DEV_POWER_STATE_DEFAULT. apply list_fmap_ext. intros i d _. simpl.
  destruct (step_dev_to PVRSRV_DEV_POWER_STATE_DEFAULT (pd_set PVRSRV_DEV_POWER_STATE_OFF d)) as [_ <-]. by rewrite new_default.
Qed.

Lemma unlocking_succeeds : PowerSucceeds unlocking.
Proof. split; [apply log_total|..]; intros; intros w; eexists; reflexivity. Qed.

Lemma power_suspend_resume_witness :
  wp (PVRSRVSetPowerStateKM (env := unlocking) PVRSRV_SYS_POWER_STATE_D3) (λ e s1, e = PVRSRV_OK ∧
      (∃ b, rep s1 b ∧ pa_sys b = PVRSRV_SYS_POWER_STATE_D3 ∧ pa_devs b = pd_set PVRSRV_DEV_POWER_STATE_OFF <$> [lcd_dev 6; sgx_dev]) ∧
      wp (PVRSRVSetPowerStateKM (env := unlocking) PVRSRV_SYS_POWER_STATE_D0) (λ e s2, e = PVRSRV_OK ∧
        ∃ b, rep s2 b ∧ pa_holder b = None ∧ pa_sys b = PVRSRV_SYS_POWER_STATE_D0 ∧ pa_failed b = PVRSRV_SYS_POWER_STATE_Unspecified ∧
          pa_devs b = (λ d, pd_set (eDefaultPowerState d) d) <$> [lcd_dev 6; sgx_dev]) s1)
    (two_devices PVRSRV_SYS_POWER_STATE_D0 (lcd_dev 6) sgx_dev).
Proof.
  apply (power_suspend_resume unlocking unlocking_wait (unlocking_law _) unlocking_succeeds _
    (two_devices_abs PVRSRV_SYS_POWER_STATE_D0 (lcd_dev 6) sgx_dev)); [apply rep_two_devices|reflexivity|reflexivity].
Defined.

(** C19: in an unpowered system every registered device is off, after any
    calls in which devices register as off and no transition into a powered
    state fails. *)
Theorem power_unpowered_off {W} (env : PowerEnv W) (wait : PowerWait W) (law : PowerWaitLaw env wait) (tot : PowerTotal env)
  (s : pw_st W) (a : power_abs W) (ops : list power_op) :
  keeps all_paired (wait_spec (PowerWait := wait)) → keeps quiet (wait_spec (PowerWait := wait)) →
  rep s a → all_paired a → quiet a → Forall op_paired ops →
  wp (in_turn run_power_op ops) (λ rs s', Forall2 op_quiet ops rs → _IsSystemStatePowered (eCurrentPowerState s') = false →
    ∀ x d, pw_devs s' !! x = Some d → pd_eCurrentPowerState d = PVRSRV_DEV_POWER_STATE_OFF) s.
Proof.
  intros Hk1 Hk2 HR Ha Hq Ho.
  eapply wp_mono; [apply (sim_wp rep _ _ (λ rs b, Forall2 op_quiet ops rs → quiet b) _ _ (sim_in_turn rep _ _ ops (λ o, sim_power_op o)) HR)|].
  - by apply quiet_in_turn.
  - intros rs s' (b&(L&addrs&_&HRb)&Hb) Hrs Hoff x d Hd. rewrite (pr_sys _ _ _ _ HRb) in Hoff. specialize (Hb Hrs Hoff).
    destruct (list_elem_of_lookup_1 addrs x) as [i Hi]; [apply (pr_dom _ _ _ _ HRb); eauto|].
    destruct (Forall2_lookup_l _ _ _ _ _ (pr_devs _ _ _ _ HRb) Hi) as (d'&Hd'&Hx). rewrite Hx in Hd. injection Hd as ->.
    exact (Forall_lookup_1 _ _ _ _ Hb Hd').
Qed.

Lemma power_unpowered_off_witness :
  wp (in_turn (run_power_op (env := unlocking)) [PSetDevice 0 PVRSRV_DEV_POWER_STATE_ON KERNEL_ID false; PSetPower PVRSRV_SYS_POWER_STATE_D3])
    (λ rs s', Forall2 op_quiet [PSetDevice 0 PVRSRV_DEV_POWER_STATE_ON KERNEL_ID false; PSetPower PVRSRV_SYS_POWER_STATE_D3] rs →
      _IsSystemStatePowered (eCurrentPowerState s') = false →
      ∀ x d, pw_devs s' !! x = Some d → pd_eCurrentPowerState d = PVRSRV_DEV_POWER_STATE_OFF)
    (two_devices PVRSRV_SYS_POWER_STATE_D0 (mkPowerDev 5 6 0 0 200 1 PVRSRV_DEV_POWER_STATE_ON PVRSRV_DEV_POWER_STATE_ON) sgx_dev).
Proof.
  apply (power_unpowered_off unlocking unlocking_wait (unlocking_law _) (log_total _) _
    (two_devices_abs PVRSRV_SYS_POWER_STATE_D0 (mkPowerDev 5 6 0 0 200 1 PVRSRV_DEV_POWER_STATE_ON PVRSRV_DEV_POWER_STATE_ON) sgx_dev)).
  - by apply unlocking_keeps.
  - by apply unlocking_keeps.
  - apply rep_two_devices.
  - apply Forall_cons. split; [by intros []|]. apply Forall_cons. by split; [|constructor].
  - done.
  - repeat constructor.
Defined.

(** A resume that fails half way leaves the devices before the failing one
    on although the system counts as unpowered; the next suspend finds the
    system unpowered already, answers [PVRSRV_OK], clears the record of the
    failure and leaves them on: here a display whose neighbour does not
    resume. *)
Theorem power_failed_resume_leaks :
  wp (PVRSRVSetPowerStateKM (env := log_env (Some 66)) PVRSRV_SYS_POWER_STATE_D0) (λ e s1, e = PVRSRV_ERROR_OUT_OF_MEMORY ∧
    wp (PVRSRVSetPowerStateKM (env := log_env (Some 66)) PVRSRV_SYS_POWER_STATE_D3) (λ e s2, e = PVRSRV_OK ∧
      ∃ w, rep s2 (mkPa os_plenty (mkInitServer false true true) None PVRSRV_SYS_POWER_STATE_D3 PVRSRV_SYS_POWER_STATE_Unspecified
        [pd_set PVRSRV_DEV_POWER_STATE_ON (lcd_dev 6); lcd_dev 66] w)) s1)
    (two_devices PVRSRV_SYS_POWER_STATE_D3 (lcd_dev 6) (lcd_dev 66)).
Proof.
  pose proof (log_total (Some 66)) as tot. pose proof (unlocking_law (Some 66)) as law.
  eapply wp_mono; [apply (code_PVRSRVSetPowerStateKM (wait := unlocking_wait) _ _ _ (rep_two_devices _ _ _)); reflexivity|].
  intros e s1 (l&w&HR&Hw). vm_compute in Hw. injection Hw as <- <- <-. split; [done|].
  eapply wp_mono; [apply (code_PVRSRVSetPowerStateKM (wait := unlocking_wait) _ _ _ HR); reflexivity|].
  intros e s2 (l&w&HR2&Hw). vm_compute in Hw. injection Hw as <- <- <-. split; [done|]. eexists. exact HR2.
Qed.

(** The clock speed handlers: [PVRSRVDevicePreClockSpeedChange] looks at
    the post handler before it calls the pre handler, so that a device with a
    post handler only makes it call a null pointer, and a device with a pre
    handler only is not told at all; with both, the pre handler's answer is
    the answer. *)
Theorem power_clock_handlers {W} (env : PowerEnv W) (s : pw_st W) (a : power_abs W) (index : Z) (i : nat) (d : PVRSRV_POWER_DEV) :
  rep s a → find_dev index (pa_devs a) = Some i → pa_devs a !! i = Some d →
  (pfnPostClockSpeedChange d ≠ IMG_NULL → pfnPreClockSpeedChange d = IMG_NULL →
     PVRSRVDevicePreClockSpeedChange index false s = Fault) ∧
  (pfnPostClockSpeedChange d = IMG_NULL → PVRSRVDevicePreClockSpeedChange index false s = Done PVRSRV_OK s) ∧
  (pfnPostClockSpeedChange d ≠ IMG_NULL → pfnPreClockSpeedChange d ≠ IMG_NULL →
     PVRSRVDevicePreClockSpeedChange index false s =
       world (pre_clock (pfnPreClockSpeedChange d) (hDevCookie d) false (pd_eCurrentPowerState d)) s).
Proof.
  intros (L&addrs&HL&HR) Hi Hd.
  assert (wp (find_power_device index) (λ x s', found addrs x (find_dev index (pa_devs a)) ∧ s' = s) s) as (x&s1&Hx&Hf&->)%wp_Done.
  { by eapply wp_find_power_device. }
  rewrite Hi in Hf. destruct (found_dev L addrs x i s a index HR Hf Hi) as (d'&Hd'&Hxd&H0).
  rewrite Hd in Hd'. injection Hd' as <-.
  unfold PVRSRVDevicePreClockSpeedChange, get_powerdev, call. cbv [mbind M_bind mret M_ret gets andb]. rewrite Hx.
  rewrite (proj2 (Z.eqb_neq x IMG_NULL)) by done. cbn [negb deref]. rewrite Hxd. cbv [deref mret M_ret].
  split_and!.
  - intros Hpost ->. by rewrite (proj2 (Z.eqb_neq _ _)).
  - by intros ->.
  - intros Hpost Hpre. rewrite !(proj2 (Z.eqb_neq _ _)) by done. cbn [negb]. by destruct (world _ s).
Qed.

Lemma power_clock_handlers_witness :
  PVRSRVDevicePreClockSpeedChange (env := unlocking) 1 false
    (two_devices PVRSRV_SYS_POWER_STATE_D0 sgx_dev (mkPowerDev 5 6 0 7 200 1 PVRSRV_DEV_POWER_STATE_ON PVRSRV_DEV_POWER_STATE_OFF)) = Fault.
Proof.
  apply (power_clock_handlers unlocking _
    (two_devices_abs PVRSRV_SYS_POWER_STATE_D0 sgx_dev (mkPowerDev 5 6 0 7 200 1 PVRSRV_DEV_POWER_STATE_ON PVRSRV_DEV_POWER_STATE_OFF))
    1 1 (mkPowerDev 5 6 0 7 200 1 PVRSRV_DEV_POWER_STATE_ON PVRSRV_DEV_POWER_STATE_OFF));
    [apply rep_two_devices|reflexivity|reflexivity|done|reflexivity].
Defined.
