(* ===== verification/Queue.v ===== *)
(** * queue.c: command queues and synchronisation

    A command queue is a ring buffer in which commands wait for the
    synchronisation objects they read and write; PVRSRVProcessQueues hands
    those that are ready to the display driver, which calls
    PVRSRVCommandCompleteKM when they are done.

    A buffer holds cells, a command's header or a synchronisation object,
    by their offset; writing a cell destroys the cells it overlaps, and
    reading where there is no cell is an error.  A [PVRSRV_COMMAND *] is the
    offset in its queue's buffer.  [QueueEnv] is what runs elsewhere: the
    display driver's command function, the other device callbacks, and what
    happens while a routine sleeps. *)

From S2P Require Import Prelude Lists Resource.

(** ** Data *)

Definition PVRSRV_MAX_CMD_SIZE : Z := 1024.
Definition MAX_HW_TIME_US : Z := 500000.
Definition SYS_DEVICE_COUNT : Z := 3.
Definition DC_NUM_COMMANDS_PER_TYPE : Z := 1.
Definition DC_STATE_NO_FLUSH_COMMANDS : Z := 0.
Definition DC_STATE_FLUSH_COMMANDS : Z := 1.

Record PVRSRV_SYNC_DATA := mkSyncData {
  ui32WriteOpsPending : Z; ui32WriteOpsComplete : Z; ui32ReadOpsPending : Z; ui32ReadOpsComplete : Z }.

Record PVRSRV_SYNC_OBJECT := mkSyncObject {
  psKernelSyncInfoKM : Z; so_ui32WriteOpsPending : Z; so_ui32ReadOpsPending : Z }.

Record PVRSRV_COMMAND := mkCommand {
  uCmdSize : Z;
  ui32DevIndex : Z;
  CommandType : Z;
  ui32DstSyncCount : Z;
  ui32SrcSyncCount : Z;
  psDstSync : Z;
  psSrcSync : Z;
  uDataSize : Z;
  ui32ProcessID : Z;
  pvData : Z }.

(** [sizeof] on x86_64. *)
Definition sizeof_PVRSRV_COMMAND : Z := 56.
Definition sizeof_PVRSRV_SYNC_OBJECT : Z := 16.

Inductive cell := CCommand (c : PVRSRV_COMMAND) | CSync (o : PVRSRV_SYNC_OBJECT).

Definition cell_size (c : cell) : Z :=
  match c with CCommand _ => sizeof_PVRSRV_COMMAND | CSync _ => sizeof_PVRSRV_SYNC_OBJECT end.

Record PVRSRV_QUEUE_INFO := mkQueue {
  pvLinQueueKM : option (gmap Z cell);   (** the buffer, when allocated *)
  qi_capacity : Z;                       (** its bytes *)
  ui32ReadOffset : Z;
  ui32WriteOffset : Z;
  ui32QueueSize : Z;
  qi_ui32ProcessID : Z;
  psNextKM : Z }.

(** [psDstSync] is the start of [cd_sync], [psSrcSync] its element [cd_src]. *)
Record COMMAND_COMPLETE_DATA := mkComplete {
  bInUse : bool;
  cd_ui32DstSyncCount : Z;
  cd_ui32SrcSyncCount : Z;
  cd_sync : list PVRSRV_SYNC_OBJECT;
  cd_src : Z }.

(** One entry per command type; [apsCmdCompleteData] has
    [DC_NUM_COMMANDS_PER_TYPE], one, element. *)
Record DEVICE_COMMAND_DATA := mkDevCmd {
  pfnCmdProc : Z; apsCmdCompleteData : Z; ui32CCBOffset : Z }.

(** Of a device node, what queue.c reads. *)
Record device_node := mkDevNode {
  bReProcessDeviceCommandComplete : bool; pfnDeviceCommandComplete : Z }.

(** [bMISRInstalled], and whether the MISR is scheduled. *)
Inductive misr := MISR_NONE | MISR_IDLE | MISR_SCHEDULED.

Record q_st := mkQ {
  q_os : os;
  q_next : Z;                                  (** the next address *)
  q_time : Z;                                  (** the kernel's ticks, in microseconds *)
  q_pid : Z;                                   (** the current process *)
  q_queues : gmap Z PVRSRV_QUEUE_INFO;
  psQueueList : Z;
  sQProcessResource : PVRSRV_RESOURCE;
  q_syncs : gmap Z PVRSRV_SYNC_DATA;           (** by [PVRSRV_KERNEL_SYNC_INFO] *)
  apsDeviceCommandData : gmap Z Z;             (** by device; absent: null *)
  q_devcmds : gmap Z (list DEVICE_COMMAND_DATA);
  q_completes : gmap Z COMMAND_COMPLETE_DATA;
  q_devnodes : lists;                          (** headed by number 0 *)
  q_devdata : gmap Z device_node;
  q_misr : misr }.

Class QueueEnv := {
  cmd_proc : Z → Z → Z → Z → M q_st bool;      (** function, cookie, data size, data *)
  device_complete : Z → Z → M q_st unit;       (** function, device node *)
  PVRSRVSetDCState : Z → M q_st unit;
  sleep_env : M q_st unit }.

(** What [OSAllocMem] leaves in the pointers of a new [DEVICE_COMMAND_DATA]. *)
Class FreshPointer := fresh_pointer : Z.

(** ** Access *)

Definition set_q_os x s := mkQ x (q_next s) (q_time s) (q_pid s) (q_queues s) (psQueueList s) (sQProcessResource s)
  (q_syncs s) (apsDeviceCommandData s) (q_devcmds s) (q_completes s) (q_devnodes s) (q_devdata s) (q_misr s).
Definition set_q_next x s := mkQ (q_os s) x (q_time s) (q_pid s) (q_queues s) (psQueueList s) (sQProcessResource s)
  (q_syncs s) (apsDeviceCommandData s) (q_devcmds s) (q_completes s) (q_devnodes s) (q_devdata s) (q_misr s).
Definition set_q_time x s := mkQ (q_os s) (q_next s) x (q_pid s) (q_queues s) (psQueueList s) (sQProcessResource s)
  (q_syncs s) (apsDeviceCommandData s) (q_devcmds s) (q_completes s) (q_devnodes s) (q_devdata s) (q_misr s).
Definition set_q_queues x s := mkQ (q_os s) (q_next s) (q_time s) (q_pid s) x (psQueueList s) (sQProcessResource s)
  (q_syncs s) (apsDeviceCommandData s) (q_devcmds s) (q_completes s) (q_devnodes s) (q_devdata s) (q_misr s).
Definition set_psQueueList x s := mkQ (q_os s) (q_next s) (q_time s) (q_pid s) (q_queues s) x (sQProcessResource s)
  (q_syncs s) (apsDeviceCommandData s) (q_devcmds s) (q_completes s) (q_devnodes s) (q_devdata s) (q_misr s).
Definition set_sQProcessResource x s := mkQ (q_os s) (q_next s) (q_time s) (q_pid s) (q_queues s) (psQueueList s) x
  (q_syncs s) (apsDeviceCommandData s) (q_devcmds s) (q_completes s) (q_devnodes s) (q_devdata s) (q_misr s).
Definition set_q_syncs x s := mkQ (q_os s) (q_next s) (q_time s) (q_pid s) (q_queues s) (psQueueList s) (sQProcessResource s)
  x (apsDeviceCommandData s) (q_devcmds s) (q_completes s) (q_devnodes s) (q_devdata s) (q_misr s).
Definition set_apsDeviceCommandData x s := mkQ (q_os s) (q_next s) (q_time s) (q_pid s) (q_queues s) (psQueueList s) (sQProcessResource s)
  (q_syncs s) x (q_devcmds s) (q_completes s) (q_devnodes s) (q_devdata s) (q_misr s).
Definition set_q_devcmds x s := mkQ (q_os s) (q_next s) (q_time s) (q_pid s) (q_queues s) (psQueueList s) (sQProcessResource s)
  (q_syncs s) (apsDeviceCommandData s) x (q_completes s) (q_devnodes s) (q_devdata s) (q_misr s).
Definition set_q_completes x s := mkQ (q_os s) (q_next s) (q_time s) (q_pid s) (q_queues s) (psQueueList s) (sQProcessResource s)
  (q_syncs s) (apsDeviceCommandData s) (q_devcmds s) x (q_devnodes s) (q_devdata s) (q_misr s).
Definition set_q_devnodes x s := mkQ (q_os s) (q_next s) (q_time s) (q_pid s) (q_queues s) (psQueueList s) (sQProcessResource s)
  (q_syncs s) (apsDeviceCommandData s) (q_devcmds s) (q_completes s) x (q_devdata s) (q_misr s).
Definition set_q_misr x s := mkQ (q_os s) (q_next s) (q_time s) (q_pid s) (q_queues s) (psQueueList s) (sQProcessResource s)
  (q_syncs s) (apsDeviceCommandData s) (q_devcmds s) (q_completes s) (q_devnodes s) (q_devdata s) x.

Definition with_q_os {A} (m : M os A) : M q_st A := zoom q_os set_q_os m.
Definition on_devnodes A (m : M lists A) : M q_st A := zoom q_devnodes set_q_devnodes m.

Definition get_queue (psQueue : Z) : M q_st PVRSRV_QUEUE_INFO := o ← gets (λ s, q_queues s !! psQueue); deref o.

Definition put_queue (psQueue : Z) (q : PVRSRV_QUEUE_INFO) : M q_st unit :=
  modify (λ s, set_q_queues (<[psQueue := q]> (q_queues s)) s).

Definition upd_queue (psQueue : Z) (f : PVRSRV_QUEUE_INFO → PVRSRV_QUEUE_INFO) : M q_st unit :=
  q ← get_queue psQueue; put_queue psQueue (f q).

Definition set_pvLinQueueKM b q := mkQueue b (qi_capacity q) (ui32ReadOffset q) (ui32WriteOffset q)
  (ui32QueueSize q) (qi_ui32ProcessID q) (psNextKM q).
Definition set_ui32ReadOffset x q := mkQueue (pvLinQueueKM q) (qi_capacity q) x (ui32WriteOffset q)
  (ui32QueueSize q) (qi_ui32ProcessID q) (psNextKM q).
Definition set_ui32WriteOffset x q := mkQueue (pvLinQueueKM q) (qi_capacity q) (ui32ReadOffset q) x
  (ui32QueueSize q) (qi_ui32ProcessID q) (psNextKM q).
Definition set_psNextKM x q := mkQueue (pvLinQueueKM q) (qi_capacity q) (ui32ReadOffset q) (ui32WriteOffset q)
  (ui32QueueSize q) (qi_ui32ProcessID q) x.

Definition get_sync (psSyncInfo : Z) : M q_st PVRSRV_SYNC_DATA := o ← gets (λ s, q_syncs s !! psSyncInfo); deref o.

Definition upd_sync (psSyncInfo : Z) (f : PVRSRV_SYNC_DATA → PVRSRV_SYNC_DATA) : M q_st unit :=
  d ← get_sync psSyncInfo; modify (λ s, set_q_syncs (<[psSyncInfo := f d]> (q_syncs s)) s).

(** Cells outside [o, o + n). *)
Definition clear_cells (o n : Z) (m : gmap Z cell) : gmap Z cell :=
  filter (λ kc, kc.1 + cell_size kc.2 ≤ o ∨ o + n ≤ kc.1) m.

Definition read_cell (psQueue o : Z) : M q_st cell :=
  q ← get_queue psQueue; m ← deref (pvLinQueueKM q); deref (m !! o).

Definition write_cell (psQueue o : Z) (c : cell) : M q_st unit :=
  q ← get_queue psQueue;
  m ← deref (pvLinQueueKM q);
  if (0 <=? o) && (o + cell_size c <=? qi_capacity q) then
    put_queue psQueue (set_pvLinQueueKM (Some (<[o := c]> (clear_cells o (cell_size c) m))) q)
  else fault.

Definition get_command (psQueue psCommand : Z) : M q_st PVRSRV_COMMAND :=
  c ← read_cell psQueue psCommand;
  match c with CCommand c => mret c | CSync _ => fault end.

Definition get_sync_object (psQueue o : Z) : M q_st PVRSRV_SYNC_OBJECT :=
  c ← read_cell psQueue o;
  match c with CSync x => mret x | CCommand _ => fault end.

Definition get_complete (p : Z) : M q_st COMMAND_COMPLETE_DATA := o ← gets (λ s, q_completes s !! p); deref o.

Definition upd_complete (p : Z) (f : COMMAND_COMPLETE_DATA → COMMAND_COMPLETE_DATA) : M q_st unit :=
  d ← get_complete p; modify (λ s, set_q_completes (<[p := f d]> (q_completes s)) s).

Definition set_bInUse b d := mkComplete b (cd_ui32DstSyncCount d) (cd_ui32SrcSyncCount d) (cd_sync d) (cd_src d).
Definition set_cd_ui32DstSyncCount n d := mkComplete (bInUse d) n (cd_ui32SrcSyncCount d) (cd_sync d) (cd_src d).
Definition set_cd_ui32SrcSyncCount n d := mkComplete (bInUse d) (cd_ui32DstSyncCount d) n (cd_sync d) (cd_src d).

(** ** Arithmetic *)

Fixpoint NearestPower2_loop (fuel : nat) (ui32Temp ui32Result : Z) : Z :=
  if ui32Temp =? 0 then ui32Result
  else
    match fuel with
    | O => ui32Result
    | S fuel => NearestPower2_loop fuel (Z.shiftr ui32Temp 1) (u32 (Z.shiftl ui32Result 1))
    end.

(** [ui32Temp] has 32 bits, so 32 turns are enough. *)
Definition NearestPower2 (ui32Value : Z) : Z :=
  if ui32Value =? 0 then 0 else NearestPower2_loop 32 (ui32Value - 1) 1.

Definition GET_SPACE_IN_CMDQ (q : PVRSRV_QUEUE_INFO) : Z :=
  Z.land (u32 (u32 (ui32ReadOffset q - ui32WriteOffset q) + u32 (ui32QueueSize q - 1))) (u32 (ui32QueueSize q - 1)).

Definition UPDATE_QUEUE_WOFF (ui32Size : Z) (q : PVRSRV_QUEUE_INFO) : PVRSRV_QUEUE_INFO :=
  set_ui32WriteOffset (Z.land (u32 (ui32WriteOffset q + ui32Size)) (u32 (ui32QueueSize q - 1))) q.

Definition UPDATE_QUEUE_ROFF (ui32Size : Z) (q : PVRSRV_QUEUE_INFO) : PVRSRV_QUEUE_INFO :=
  set_ui32ReadOffset (Z.land (u32 (ui32ReadOffset q + ui32Size)) (u32 (ui32QueueSize q - 1))) q.

Definition SYNCOPS_STALE (ui32OpsComplete ui32OpsPending : Z) : bool := ui32OpsPending <=? ui32OpsComplete.

(** ** The environment *)

Definition OSClockus : M q_st Z := gets (λ s, u32 (q_time s)).

Section queue.
Context {env : QueueEnv} {fresh : FreshPointer}.

(** [OSSleepms]: time passes, and other threads run. *)
Definition OSSleepms (ui32Timems : Z) : M q_st unit :=
  modify (λ s, set_q_time (q_time s + 1000 * ui32Timems) s);; sleep_env.

(** [LOOP_UNTIL_TIMEOUT]: whether [body] broke out of the loop. *)
Fixpoint loop_until (fuel : nat) (TIMEOUT : Z) (body : M q_st bool)
    (uiOffset uiStart uiCurrent iNotLastLoop : Z) : M q_st bool :=
  let left := u32 (u32 (uiCurrent - uiStart) + uiOffset) <? TIMEOUT in
  let last := if left then iNotLastLoop else iNotLastLoop - 1 in
  if left || negb (iNotLastLoop =? 0) then
    match fuel with
    | O => out_of_fuel
    | S fuel =>
        done ← body;
        if done : bool then mret true
        else
          uiCurrent ← OSClockus;
          let uiOffset := if uiCurrent <? uiStart then 4294967295 - uiStart else uiOffset in
          let uiStart := if uiCurrent <? uiStart then 0 else uiStart in
          loop_until fuel TIMEOUT body uiOffset uiStart uiCurrent last
    end
  else mret false.

(** Every turn sleeps a millisecond. *)
Definition LOOP_UNTIL_TIMEOUT (TIMEOUT : Z) (body : M q_st bool) : M q_st bool :=
  uiStart ← OSClockus;
  loop_until (Z.to_nat (TIMEOUT / 1000) + 3) TIMEOUT body 0 uiStart (u32 (uiStart + 1)) 1.

(** ** Creating and destroying queues *)

Definition new_queue (q : PVRSRV_QUEUE_INFO) : M q_st Z :=
  s ← get;
  put (set_q_next (q_next s + 1) (set_q_queues (<[q_next s := q]> (q_queues s)) s));;
  mret (q_next s).

Definition free_queue (psQueueInfo : Z) : M q_st unit :=
  _ ← get_queue psQueueInfo;
  with_q_os OSFreeMem;;
  modify (λ s, set_q_queues (delete psQueueInfo (q_queues s)) s).

(** [ErrorExit] of [PVRSRVCreateCommandQueueKM]. *)
Definition create_fails (psQueueInfo : Z) (eError : PVRSRV_ERROR) : M q_st (PVRSRV_ERROR * option Z) :=
  q ← get_queue psQueueInfo;
  match pvLinQueueKM q with
  | Some _ => with_q_os OSFreeMem;; put_queue psQueueInfo (set_pvLinQueueKM None q)
  | None => mret tt
  end;;
  free_queue psQueueInfo;;
  mret (eError, None).

Definition PVRSRVCreateCommandQueueKM (ui32QueueSize : Z) : M q_st (PVRSRV_ERROR * option Z) :=
  let ui32Power2QueueSize := NearestPower2 ui32QueueSize in
  ok ← with_q_os OSAllocMem;
  if negb ok then mret (PVRSRV_ERROR_OUT_OF_MEMORY, None)
  else
    pid ← gets q_pid;
    psQueueInfo ← new_queue (mkQueue None 0 0 0 0 pid IMG_NULL);
    ok ← with_q_os OSAllocMem;
    if negb ok then create_fails psQueueInfo PVRSRV_ERROR_OUT_OF_MEMORY
    else
      put_queue psQueueInfo (mkQueue (Some ∅) (u32 (ui32Power2QueueSize + PVRSRV_MAX_CMD_SIZE)) 0 0
        ui32Power2QueueSize pid IMG_NULL);;
      s ← get;
      eError ← (if psQueueList s =? IMG_NULL then OSCreateResource set_sQProcessResource else mret PVRSRV_OK);
      if negb (is_OK eError) then create_fails psQueueInfo eError
      else
        eError ← OSLockResource sQProcessResource set_sQProcessResource KERNEL_ID;
        if negb (is_OK eError) then create_fails psQueueInfo eError
        else
          s ← get;
          upd_queue psQueueInfo (set_psNextKM (psQueueList s));;
          modify (set_psQueueList psQueueInfo);;
          eError ← OSUnlockResource sQProcessResource set_sQProcessResource KERNEL_ID;
          if negb (is_OK eError) then create_fails psQueueInfo eError
          else mret (PVRSRV_OK, Some psQueueInfo).

(** The queue and its buffer. *)
Definition free_queue_memory (psQueueInfo : Z) : M q_st unit :=
  with_q_os OSFreeMem;;
  upd_queue psQueueInfo (set_pvLinQueueKM None);;
  free_queue psQueueInfo.

(** The [while] of [PVRSRVDestroyCommandQueueKM]: whether the queue was found. *)
Fixpoint unlink_loop (fuel : nat) (psQueue psQueueInfo : Z) : M q_st bool :=
  if psQueue =? IMG_NULL then mret false
  else
    match fuel with
    | O => out_of_fuel
    | S fuel =>
        q ← get_queue psQueue;
        if psNextKM q =? psQueueInfo then
          i ← get_queue psQueueInfo;
          put_queue psQueue (set_psNextKM (psNextKM i) q);;
          free_queue_memory psQueueInfo;;
          mret true
        else unlink_loop fuel (psNextKM q) psQueueInfo
    end.

Definition PVRSRVDestroyCommandQueueKM (psQueueInfo : Z) : M q_st PVRSRV_ERROR :=
  psQueue ← gets psQueueList;
  empty ← LOOP_UNTIL_TIMEOUT MAX_HW_TIME_US (
    q ← get_queue psQueueInfo;
    if ui32ReadOffset q =? ui32WriteOffset q then mret true else OSSleepms 1;; mret false);
  if negb empty then mret PVRSRV_ERROR_CANNOT_FLUSH_QUEUE
  else
    eError ← OSLockResource sQProcessResource set_sQProcessResource KERNEL_ID;
    if negb (is_OK eError) then mret eError
    else
      found ← (if psQueue =? psQueueInfo then
                 q ← get_queue psQueueInfo;
                 modify (set_psQueueList (psNextKM q));;
                 free_queue_memory psQueueInfo;;
                 mret true
               else
                 n ← gets (λ s, size (q_queues s));
                 unlink_loop n psQueue psQueueInfo);
      if negb found then
        eError ← OSUnlockResource sQProcessResource set_sQProcessResource KERNEL_ID;
        if negb (is_OK eError) then mret eError else mret PVRSRV_ERROR_INVALID_PARAMS
      else
        eError ← OSUnlockResource sQProcessResource set_sQProcessResource KERNEL_ID;
        if negb (is_OK eError) then mret eError
        else
          s ← get;
          if psQueueList s =? IMG_NULL then OSDestroyResource sQProcessResource set_sQProcessResource else mret eError.

(** ** Inserting commands *)

(** The answer carries [*ppvSpace]. *)
Definition PVRSRVGetQueueSpaceKM (psQueue ui32ParamSize : Z) : M q_st (PVRSRV_ERROR * option Z) :=
  let ui32ParamSize := Z.land (u32 (ui32ParamSize + 3)) 4294967292 in
  if PVRSRV_MAX_CMD_SIZE <? ui32ParamSize then mret (PVRSRV_ERROR_CMD_TOO_BIG, None)
  else
    space ← LOOP_UNTIL_TIMEOUT MAX_HW_TIME_US (
      q ← get_queue psQueue;
      if ui32ParamSize <? GET_SPACE_IN_CMDQ q then mret true else OSSleepms 1;; mret false);
    if negb space then mret (PVRSRV_ERROR_CANNOT_GET_QUEUE_SPACE, None)
    else q ← get_queue psQueue; mret (PVRSRV_OK, Some (ui32WriteOffset q)).

Definition PVRSRVGetWriteOpsPending (psSyncInfo : Z) (bIsReadOp : bool) : M q_st Z :=
  d ← get_sync psSyncInfo;
  (if bIsReadOp then mret tt
   else upd_sync psSyncInfo (λ d, mkSyncData (u32 (ui32WriteOpsPending d + 1)) (ui32WriteOpsComplete d)
          (ui32ReadOpsPending d) (ui32ReadOpsComplete d)));;
  mret (ui32WriteOpsPending d).

Definition PVRSRVGetReadOpsPending (psSyncInfo : Z) (bIsReadOp : bool) : M q_st Z :=
  d ← get_sync psSyncInfo;
  (if bIsReadOp then
     upd_sync psSyncInfo (λ d, mkSyncData (ui32WriteOpsPending d) (ui32WriteOpsComplete d)
       (u32 (ui32ReadOpsPending d + 1)) (ui32ReadOpsComplete d))
   else mret tt);;
  mret (ui32ReadOpsPending d).

(** One of the two loops that fill the synchronisation objects, from offset [o] on. *)
Fixpoint insert_syncs (psQueue o : Z) (apsSync : list Z) (bIsReadOp : bool) : M q_st unit :=
  match apsSync with
  | [] => mret tt
  | psSync :: apsSync =>
      w ← PVRSRVGetWriteOpsPending psSync bIsReadOp;
      r ← PVRSRVGetReadOpsPending psSync bIsReadOp;
      write_cell psQueue o (CSync (mkSyncObject psSync w r));;
      insert_syncs psQueue (o + sizeof_PVRSRV_SYNC_OBJECT) apsSync bIsReadOp
  end.

(** The counts are the lengths of the arrays. *)
Definition PVRSRVInsertCommandKM (psQueue ui32DevIndex CommandType : Z) (apsDstSync apsSrcSync : list Z)
    (ui32DataByteSize : Z) : M q_st (PVRSRV_ERROR * option Z) :=
  let ui32DstSyncCount := Z.of_nat (length apsDstSync) in
  let ui32SrcSyncCount := Z.of_nat (length apsSrcSync) in
  let ui32DataByteSize := u32 (4 * ((ui32DataByteSize + 3) / 4)) in
  let ui32CommandSize := u32 (sizeof_PVRSRV_COMMAND +
    u32 (ui32DstSyncCount + ui32SrcSyncCount) * sizeof_PVRSRV_SYNC_OBJECT + ui32DataByteSize) in
  r ← PVRSRVGetQueueSpaceKM psQueue ui32CommandSize;
  match r with
  | (_, None) => mret r
  | (_, Some psCommand) =>
      pid ← gets q_pid;
      let psDstSync := psCommand + sizeof_PVRSRV_COMMAND in
      let psSrcSync := psDstSync + ui32DstSyncCount * sizeof_PVRSRV_SYNC_OBJECT in
      let pvData := psSrcSync + ui32SrcSyncCount * sizeof_PVRSRV_SYNC_OBJECT in
      write_cell psQueue psCommand (CCommand (mkCommand ui32CommandSize ui32DevIndex CommandType
        ui32DstSyncCount ui32SrcSyncCount psDstSync psSrcSync ui32DataByteSize pid pvData));;
      insert_syncs psQueue psDstSync apsDstSync false;;
      insert_syncs psQueue psSrcSync apsSrcSync true;;
      mret (PVRSRV_OK, Some psCommand)
  end.

Definition PVRSRVSubmitCommandKM (psQueue psCommand : Z) : M q_st PVRSRV_ERROR :=
  c ← get_command psQueue psCommand;
  q ← get_queue psQueue;
  let first := ui32WriteOffset q + sizeof_PVRSRV_COMMAND in
  let second := first + ui32DstSyncCount c * sizeof_PVRSRV_SYNC_OBJECT in
  write_cell psQueue psCommand (CCommand (mkCommand (uCmdSize c) (ui32DevIndex c) (CommandType c)
    (ui32DstSyncCount c) (ui32SrcSyncCount c)
    (if 0 <? ui32DstSyncCount c then first else psDstSync c)
    (if 0 <? ui32SrcSyncCount c then second else psSrcSync c)
    (uDataSize c) (ui32ProcessID c)
    (second + ui32SrcSyncCount c * sizeof_PVRSRV_SYNC_OBJECT)));;
  upd_queue psQueue (UPDATE_QUEUE_WOFF (uCmdSize c));;
  mret PVRSRV_OK.

(** ** Processing commands *)

(** One of the two walks over the synchronisation objects of a command:
    whether all are ready.  (The warning of the second is only a message.) *)
Fixpoint syncs_ready (psQueue psWalkerObj : Z) (count : nat) (bFlush : bool) : M q_st bool :=
  match count with
  | O => mret true
  | S count =>
      obj ← get_sync_object psQueue psWalkerObj;
      d ← get_sync (psKernelSyncInfoKM obj);
      if (negb (ui32WriteOpsComplete d =? so_ui32WriteOpsPending obj) ||
          negb (ui32ReadOpsComplete d =? so_ui32ReadOpsPending obj)) &&
         (negb bFlush || negb (SYNCOPS_STALE (ui32WriteOpsComplete d) (so_ui32WriteOpsPending obj)) ||
          negb (SYNCOPS_STALE (ui32ReadOpsComplete d) (so_ui32ReadOpsPending obj)))
      then mret false
      else syncs_ready psQueue (psWalkerObj + sizeof_PVRSRV_SYNC_OBJECT) count bFlush
  end.

(** Element [i] of the array of a [COMMAND_COMPLETE_DATA]. *)
Definition put_complete_sync (p : Z) (i : Z) (obj : PVRSRV_SYNC_OBJECT) : M q_st unit :=
  d ← get_complete p;
  if (0 <=? i) && (i <? Z.of_nat (length (cd_sync d))) then
    upd_complete p (λ d, mkComplete (bInUse d) (cd_ui32DstSyncCount d) (cd_ui32SrcSyncCount d)
      (<[Z.to_nat i := obj]> (cd_sync d)) (cd_src d))
  else fault.

(** Copies [count] objects from offset [o] on to the elements from [i] on. *)
Fixpoint copy_syncs (psQueue o p i : Z) (count : nat) : M q_st unit :=
  match count with
  | O => mret tt
  | S count =>
      obj ← get_sync_object psQueue o;
      put_complete_sync p i obj;;
      copy_syncs psQueue (o + sizeof_PVRSRV_SYNC_OBJECT) p (i + 1) count
  end.

Definition get_devcmd (p i : Z) : M q_st DEVICE_COMMAND_DATA :=
  o ← gets (λ s, q_devcmds s !! p);
  l ← deref o;
  if 0 <=? i then deref (l !! Z.to_nat i) else fault.

Definition upd_devcmd (p i : Z) (f : DEVICE_COMMAND_DATA → DEVICE_COMMAND_DATA) : M q_st unit :=
  x ← get_devcmd p i;
  modify (λ s, set_q_devcmds (alter (λ l, <[Z.to_nat i := f x]> l) p (q_devcmds s)) s).

Definition set_ui32CCBOffset n x := mkDevCmd (pfnCmdProc x) (apsCmdCompleteData x) n.

(** The element [ui32CCBOffset] of [apsCmdCompleteData]. *)
Definition complete_data_of (x : DEVICE_COMMAND_DATA) : M q_st Z :=
  if (0 <=? ui32CCBOffset x) && (ui32CCBOffset x <? DC_NUM_COMMANDS_PER_TYPE) then mret (apsCmdCompleteData x) else fault.

Definition PVRSRVProcessCommand (psQueue psCommand : Z) (bFlush : bool) : M q_st PVRSRV_ERROR :=
  c ← get_command psQueue psCommand;
  ready ← syncs_ready psQueue (psDstSync c) (Z.to_nat (ui32DstSyncCount c)) bFlush;
  if negb ready then mret PVRSRV_ERROR_FAILED_DEPENDENCIES
  else
    ready ← syncs_ready psQueue (psSrcSync c) (Z.to_nat (ui32SrcSyncCount c)) bFlush;
    if negb ready then mret PVRSRV_ERROR_FAILED_DEPENDENCIES
    else if SYS_DEVICE_COUNT <=? ui32DevIndex c then mret PVRSRV_ERROR_INVALID_PARAMS
    else
      o ← gets (λ s, apsDeviceCommandData s !! ui32DevIndex c);
      psDeviceCommandData ← deref o;
      x ← get_devcmd psDeviceCommandData (CommandType c);
      psCmdCompleteData ← complete_data_of x;
      d ← get_complete psCmdCompleteData;
      if bInUse d then mret PVRSRV_ERROR_FAILED_DEPENDENCIES
      else
        upd_complete psCmdCompleteData (set_bInUse true);;
        upd_complete psCmdCompleteData (set_cd_ui32DstSyncCount (ui32DstSyncCount c));;
        copy_syncs psQueue (psDstSync c) psCmdCompleteData 0 (Z.to_nat (ui32DstSyncCount c));;
        upd_complete psCmdCompleteData (set_cd_ui32SrcSyncCount (ui32SrcSyncCount c));;
        copy_syncs psQueue (psSrcSync c) psCmdCompleteData (cd_src d) (Z.to_nat (ui32SrcSyncCount c));;
        ok ← cmd_proc (pfnCmdProc x) psCmdCompleteData (uDataSize c) (pvData c);
        eError ← (if negb (ok : bool) then upd_complete psCmdCompleteData (set_bInUse false);; mret PVRSRV_ERROR_CMD_NOT_PROCESSED
                  else mret PVRSRV_OK);
        upd_devcmd psDeviceCommandData (CommandType c) (set_ui32CCBOffset ((ui32CCBOffset x + 1) mod DC_NUM_COMMANDS_PER_TYPE));;
        mret eError.

Definition get_devnode (n : Z) : M q_st device_node := o ← gets (λ s, q_devdata s !! n); deref o.

Definition PVRSRVProcessQueues_ForEachCb (psDeviceNode : Z) : M q_st unit :=
  d ← get_devnode psDeviceNode;
  if bReProcessDeviceCommandComplete d && negb (pfnDeviceCommandComplete d =? IMG_NULL)
  then device_complete (pfnDeviceCommandComplete d) psDeviceNode else mret tt.

(** The commands of one queue, up to one that is not processed. *)
Fixpoint process_queue (fuel : nat) (psQueue : Z) (bFlush : bool) : M q_st unit :=
  q ← get_queue psQueue;
  if ui32ReadOffset q =? ui32WriteOffset q then mret tt
  else
    match fuel with
    | O => out_of_fuel
    | S fuel =>
        let psCommand := ui32ReadOffset q in
        e ← PVRSRVProcessCommand psQueue psCommand bFlush;
        if is_OK e then
          c ← get_command psQueue psCommand;
          upd_queue psQueue (UPDATE_QUEUE_ROFF (uCmdSize c));;
          process_queue fuel psQueue bFlush
        else mret tt
    end.

(** Every queue of the list.  A command has a header, so a queue has at most
    as many as its size has bytes. *)
Fixpoint process_queues (fuel : nat) (psQueue : Z) (bFlush : bool) : M q_st unit :=
  if psQueue =? IMG_NULL then mret tt
  else
    match fuel with
    | O => out_of_fuel
    | S fuel =>
        q ← get_queue psQueue;
        process_queue (Z.to_nat (ui32QueueSize q)) psQueue bFlush;;
        q ← get_queue psQueue;
        process_queues fuel (psNextKM q) bFlush
    end.

(** The wait for the lock: as many sleeps as the caller allows for. *)
Fixpoint lock_loop (patience : nat) : M q_st unit :=
  e ← OSLockResource sQProcessResource set_sQProcessResource ISR_ID;
  if is_OK e then mret tt
  else match patience with O => out_of_fuel | S patience => OSSleepms 1;; lock_loop patience end.

Definition PVRSRVProcessQueues (patience : nat) (bFlush : bool) : M q_st PVRSRV_ERROR :=
  lock_loop patience;;
  psQueue ← gets psQueueList;
  (if bFlush then PVRSRVSetDCState DC_STATE_FLUSH_COMMANDS else mret tt);;
  n ← gets (λ s, size (q_queues s));
  process_queues n psQueue bFlush;;
  (if bFlush then PVRSRVSetDCState DC_STATE_NO_FLUSH_COMMANDS else mret tt);;
  head ← on_devnodes _ (load (HeadOf 0));
  List_ForEach on_devnodes head PVRSRVProcessQueues_ForEachCb;;
  _ ← OSUnlockResource sQProcessResource set_sQProcessResource ISR_ID;
  mret PVRSRV_OK.

(** ** Completing commands *)

Definition PVRSRVCommandCompleteCallbacks_ForEachCb (psDeviceNode : Z) : M q_st unit :=
  d ← get_devnode psDeviceNode;
  if negb (pfnDeviceCommandComplete d =? IMG_NULL)
  then device_complete (pfnDeviceCommandComplete d) psDeviceNode else mret tt.

Definition PVRSRVScheduleDeviceCallbacks : M q_st unit :=
  head ← on_devnodes _ (load (HeadOf 0));
  List_ForEach on_devnodes head PVRSRVCommandCompleteCallbacks_ForEachCb.

Definition OSScheduleMISR : M q_st unit :=
  s ← get;
  match q_misr s with MISR_NONE => mret tt | _ => modify (set_q_misr MISR_SCHEDULED) end.

Definition write_complete (d : PVRSRV_SYNC_DATA) : PVRSRV_SYNC_DATA :=
  mkSyncData (ui32WriteOpsPending d) (u32 (ui32WriteOpsComplete d + 1)) (ui32ReadOpsPending d) (ui32ReadOpsComplete d).

Definition read_complete (d : PVRSRV_SYNC_DATA) : PVRSRV_SYNC_DATA :=
  mkSyncData (ui32WriteOpsPending d) (ui32WriteOpsComplete d) (ui32ReadOpsPending d) (u32 (ui32ReadOpsComplete d + 1)).

(** One of the two loops: from element [i] of the array on. *)
Fixpoint complete_syncs (p : Z) (i : nat) (count : nat) (f : PVRSRV_SYNC_DATA → PVRSRV_SYNC_DATA) : M q_st unit :=
  match count with
  | O => mret tt
  | S count =>
      d ← get_complete p;
      obj ← deref (cd_sync d !! i);
      upd_sync (psKernelSyncInfoKM obj) f;;
      complete_syncs p (S i) count f
  end.

Definition PVRSRVCommandCompleteKM (hCmdCookie : Z) (bScheduleMISR : bool) : M q_st unit :=
  d ← get_complete hCmdCookie;
  complete_syncs hCmdCookie 0 (Z.to_nat (cd_ui32DstSyncCount d)) write_complete;;
  d ← get_complete hCmdCookie;
  complete_syncs hCmdCookie (Z.to_nat (cd_src d)) (Z.to_nat (cd_ui32SrcSyncCount d)) read_complete;;
  upd_complete hCmdCookie (set_bInUse false);;
  PVRSRVScheduleDeviceCallbacks;;
  if bScheduleMISR then OSScheduleMISR else mret tt.

(** ** Registering command functions *)

Definition new_devcmds (l : list DEVICE_COMMAND_DATA) : M q_st Z :=
  s ← get;
  put (set_q_next (q_next s + 1) (set_q_devcmds (<[q_next s := l]> (q_devcmds s)) s));;
  mret (q_next s).

Definition new_complete (d : COMMAND_COMPLETE_DATA) : M q_st Z :=
  s ← get;
  put (set_q_next (q_next s + 1) (set_q_completes (<[q_next s := d]> (q_completes s)) s));;
  mret (q_next s).

Definition free_complete (p : Z) : M q_st unit :=
  _ ← get_complete p;
  with_q_os OSFreeMem;;
  modify (λ s, set_q_completes (delete p (q_completes s)) s).

(** The loop of [PVRSRVRemoveCmdProcListKM], from type [i] on. *)
Fixpoint remove_complete_data (psDeviceCommandData : Z) (i : Z) (count : nat) : M q_st unit :=
  match count with
  | O => mret tt
  | S count =>
      x ← get_devcmd psDeviceCommandData i;
      (if negb (apsCmdCompleteData x =? IMG_NULL) then
         free_complete (apsCmdCompleteData x);;
         upd_devcmd psDeviceCommandData i (λ x, mkDevCmd (pfnCmdProc x) IMG_NULL (ui32CCBOffset x))
       else mret tt);;
      remove_complete_data psDeviceCommandData (i + 1) count
  end.

Definition PVRSRVRemoveCmdProcListKM (ui32DevIndex ui32CmdCount : Z) : M q_st PVRSRV_ERROR :=
  if SYS_DEVICE_COUNT <=? ui32DevIndex then mret PVRSRV_ERROR_INVALID_PARAMS
  else
    o ← gets (λ s, apsDeviceCommandData s !! ui32DevIndex);
    match o with
    | None => mret PVRSRV_OK
    | Some psDeviceCommandData =>
        remove_complete_data psDeviceCommandData 0 (Z.to_nat ui32CmdCount);;
        with_q_os OSFreeMem;;
        modify (λ s, set_q_devcmds (delete psDeviceCommandData (q_devcmds s)) s);;
        modify (λ s, set_apsDeviceCommandData (delete ui32DevIndex (apsDeviceCommandData s)) s);;
        mret PVRSRV_OK
    end.

(** The loop of [PVRSRVRegisterCmdProcListKM], from type [i] on: whether the
    memory was there.  [cmds] are the functions, with the greatest numbers
    of destinations and sources. *)
Fixpoint register_types (psDeviceCommandData : Z) (i : Z) (cmds : list (Z * (Z * Z))) : M q_st bool :=
  match cmds with
  | [] => mret true
  | (fn, (dst, src)) :: cmds =>
      upd_devcmd psDeviceCommandData i (λ x, mkDevCmd fn (apsCmdCompleteData x) 0);;
      ok ← with_q_os OSAllocMem;
      if negb ok then mret false
      else
        psCmdCompleteData ← new_complete (mkComplete false 0 0
          (replicate (Z.to_nat (u32 (dst + src))) (mkSyncObject 0 0 0)) dst);
        upd_devcmd psDeviceCommandData i (λ x, mkDevCmd (pfnCmdProc x) psCmdCompleteData (ui32CCBOffset x));;
        register_types psDeviceCommandData (i + 1) cmds
  end.

Definition PVRSRVRegisterCmdProcListKM (ui32DevIndex : Z) (cmds : list (Z * (Z * Z))) : M q_st PVRSRV_ERROR :=
  let ui32CmdCount := Z.of_nat (length cmds) in
  if SYS_DEVICE_COUNT <=? ui32DevIndex then mret PVRSRV_ERROR_INVALID_PARAMS
  else
    ok ← with_q_os OSAllocMem;
    if negb ok then
      _ ← PVRSRVRemoveCmdProcListKM ui32DevIndex ui32CmdCount;
      mret PVRSRV_ERROR_OUT_OF_MEMORY
    else
      psDeviceCommandData ← new_devcmds (replicate (length cmds) (mkDevCmd fresh_pointer fresh_pointer fresh_pointer));
      modify (λ s, set_apsDeviceCommandData (<[ui32DevIndex := psDeviceCommandData]> (apsDeviceCommandData s)) s);;
      ok ← register_types psDeviceCommandData 0 cmds;
      if ok : bool then mret PVRSRV_OK
      else
        _ ← PVRSRVRemoveCmdProcListKM ui32DevIndex ui32CmdCount;
        mret PVRSRV_ERROR_OUT_OF_MEMORY.
End queue.
