(* ===== verification/QueueRep.v ===== *)
(** * Command queues as lists of commands

    [q_abs] is what the queues promise: all the commands ever sent, in order,
    each waiting in a queue, running (at the display driver, under a cookie)
    or done.  Everything else is derived: the contents of a queue are its
    waiting commands, the counts of a synchronisation object are numbers of
    commands.  [qrep] relates the state of Queue.v to it. *)

From S2P Require Import Prelude Lists Resource Queue.

(** ** The abstract state *)

Inductive status := Waiting (q : Z) | Running (p : Z) | Completed.

#[export] Instance status_eq_dec : EqDecision status.
Proof. solve_decision. Defined.

Record command := mkCmd {
  ac_dev : Z;
  ac_type : Z;
  ac_dst : list Z;
  ac_src : list Z;
  ac_data : Z }.                                (** its data's bytes, rounded up *)

Record entry := mkEntry { en_cmd : command; en_status : status }.

(** What is registered for a command type: its function, its cookie, and the
    numbers of synchronisation objects there is room for. *)
Record slot_info := mkSlot { sl_fn : Z; sl_cookie : Z; sl_dst : Z; sl_src : Z }.

Record q_abs := mkQA {
  qa_log : list entry;
  qa_base : gmap Z (Z * Z);                     (** the counts to begin with *)
  qa_devs : gmap Z (list slot_info);
  qa_queues : list Z }.                         (** the queues, newest first *)

Definition cmd_at (a : q_abs) (i : nat) : option command := en_cmd <$> qa_log a !! i.
Definition status_at (a : q_abs) (i : nat) : option status := en_status <$> qa_log a !! i.

(** The commands waiting in a queue, oldest first. *)
Definition waiting (a : q_abs) (q : Z) : list nat :=
  filter (λ i, status_at a i = Some (Waiting q)) (seq 0 (length (qa_log a))).

Definition writes (x : Z) (l : list entry) : Z := Z.of_nat (length (filter (λ e, x ∈ ac_dst (en_cmd e)) l)).
Definition reads (x : Z) (l : list entry) : Z := Z.of_nat (length (filter (λ e, x ∈ ac_src (en_cmd e)) l)).

Definition done (a : q_abs) : list entry := filter (λ e, en_status e = Completed) (qa_log a).

(** The counts of [x] when command [i] was sent: what it waits for. *)
Definition ticket (a : q_abs) (i : nat) (x : Z) : Z * Z :=
  let b := default (0, 0) (qa_base a !! x) in
  (u32 (fst b + writes x (take i (qa_log a))), u32 (snd b + reads x (take i (qa_log a)))).

Definition sync_of (a : q_abs) (x : Z) : PVRSRV_SYNC_DATA :=
  let b := default (0, 0) (qa_base a !! x) in
  mkSyncData (u32 (fst b + writes x (qa_log a))) (u32 (fst b + writes x (done a)))
    (u32 (snd b + reads x (qa_log a))) (u32 (snd b + reads x (done a))).

Definition syncs (c : command) : list Z := ac_dst c ++ ac_src c.

Definition cmd_size (c : command) : Z :=
  sizeof_PVRSRV_COMMAND + Z.of_nat (length (syncs c)) * sizeof_PVRSRV_SYNC_OBJECT + ac_data c.

Definition slot_of (a : q_abs) (c : command) : option slot_info :=
  l ← qa_devs a !! ac_dev c; l !! Z.to_nat (ac_type c).

(** A command that may be sent. *)
Record cmd_ok (a : q_abs) (c : command) : Prop := {
  co_size : cmd_size c ≤ PVRSRV_MAX_CMD_SIZE;
  co_data : 0 ≤ ac_data c ∧ ac_data c mod 4 = 0;
  co_syncs x : x ∈ syncs c → is_Some (qa_base a !! x);
  co_nodup : NoDup (syncs c);
  co_dev : ac_dev c < SYS_DEVICE_COUNT;
  co_type : 0 ≤ ac_type c;
  co_slot : ∃ sl, slot_of a c = Some sl ∧ Z.of_nat (length (ac_dst c)) ≤ sl_dst sl ∧ Z.of_nat (length (ac_src c)) ≤ sl_src sl }.

(** ** The representation *)

(** The command in the buffer at offset [o]. *)
Definition header (c : command) (o pid : Z) : PVRSRV_COMMAND :=
  let d := o + sizeof_PVRSRV_COMMAND in
  let r := d + Z.of_nat (length (ac_dst c)) * sizeof_PVRSRV_SYNC_OBJECT in
  mkCommand (cmd_size c) (ac_dev c) (ac_type c) (Z.of_nat (length (ac_dst c))) (Z.of_nat (length (ac_src c)))
    d r (ac_data c) pid (r + Z.of_nat (length (ac_src c)) * sizeof_PVRSRV_SYNC_OBJECT).

Definition sync_offset (o : Z) (j : nat) : Z := o + sizeof_PVRSRV_COMMAND + Z.of_nat j * sizeof_PVRSRV_SYNC_OBJECT.

Definition sync_object (a : q_abs) (i : nat) (x : Z) : PVRSRV_SYNC_OBJECT :=
  mkSyncObject x (fst (ticket a i x)) (snd (ticket a i x)).

Record holds (m : gmap Z cell) (a : q_abs) (i : nat) (c : command) (o : Z) : Prop := {
  ho_header : ∃ pid, m !! o = Some (CCommand (header c o pid));
  ho_syncs j x : syncs c !! j = Some x → m !! sync_offset o j = Some (CSync (sync_object a i x)) }.

(** The commands [ids] follow from [u] bytes after the read offset [r] on,
    round the buffer. *)
Fixpoint ring (m : gmap Z cell) (a : q_abs) (r size u : Z) (ids : list nat) : Prop :=
  match ids with
  | [] => True
  | i :: ids => ∃ c, cmd_at a i = Some c ∧ holds m a i c ((r + u) mod size) ∧ ring m a r size (u + cmd_size c) ids
  end.

Definition bytes (a : q_abs) (ids : list nat) : Z :=
  foldr (λ i n, from_option cmd_size 0 (cmd_at a i) + n) 0 ids.

Record queue_ok (info : PVRSRV_QUEUE_INFO) (a : q_abs) (ids : list nat) : Prop := {
  qo_size : ∃ k, 0 ≤ k ≤ 31 ∧ ui32QueueSize info = 2 ^ k;
  qo_capacity : qi_capacity info = ui32QueueSize info + PVRSRV_MAX_CMD_SIZE;
  qo_read : 0 ≤ ui32ReadOffset info < ui32QueueSize info;
  qo_bytes : bytes a ids < ui32QueueSize info;
  qo_write : ui32WriteOffset info = (ui32ReadOffset info + bytes a ids) mod ui32QueueSize info;
  qo_ring : ∃ m, pvLinQueueKM info = Some m ∧ ring m a (ui32ReadOffset info) (ui32QueueSize info) 0 ids }.

(** The queues of the list that starts at [p]. *)
Fixpoint qchain (qs : gmap Z PVRSRV_QUEUE_INFO) (p : Z) (l : list Z) : Prop :=
  match l with
  | [] => p = 0
  | x :: l => p = x ∧ x ≠ 0 ∧ ∃ info, qs !! x = Some info ∧ qchain qs (psNextKM info) l
  end.

(** The cookie [p] as it is while command [i] runs under it. *)
Record runs (d : COMMAND_COMPLETE_DATA) (a : q_abs) (i : nat) (c : command) : Prop := {
  rn_dst : cd_ui32DstSyncCount d = Z.of_nat (length (ac_dst c));
  rn_src : cd_ui32SrcSyncCount d = Z.of_nat (length (ac_src c));
  rn_dsts j x : ac_dst c !! j = Some x → cd_sync d !! j = Some (sync_object a i x);
  rn_srcs j x : ac_src c !! j = Some x → cd_sync d !! (Z.to_nat (cd_src d) + j)%nat = Some (sync_object a i x) }.

Definition busy (a : q_abs) (p : Z) : Prop := ∃ i, status_at a i = Some (Running p).

Record wf (a : q_abs) : Prop := {
  wf_cmd i c : cmd_at a i = Some c → cmd_ok a c;
  wf_one i j p : status_at a i = Some (Running p) → status_at a j = Some (Running p) → i = j;
  wf_cookie i p : status_at a i = Some (Running p) →
    ∃ c sl, cmd_at a i = Some c ∧ slot_of a c = Some sl ∧ sl_cookie sl = p;
  wf_slots d t d' t' l l' sl sl' : qa_devs a !! d = Some l → l !! t = Some sl → qa_devs a !! d' = Some l' → l' !! t' = Some sl' →
    sl_cookie sl = sl_cookie sl' → d = d' ∧ t = t' }.

(** The device table and the cookies. *)
Record devs_ok (s : q_st) (a : q_abs) : Prop := {
  dv_table d l : qa_devs a !! d = Some l →
    ∃ p xs, apsDeviceCommandData s !! d = Some p ∧ q_devcmds s !! p = Some xs ∧
      xs = (λ sl, mkDevCmd (sl_fn sl) (sl_cookie sl) 0) <$> l;
  dv_cookie dv l t sl : qa_devs a !! dv = Some l → l !! t = Some sl → ∃ d,
    q_completes s !! sl_cookie sl = Some d ∧ 0 ≤ sl_dst sl ∧ 0 ≤ sl_src sl ∧
    length (cd_sync d) = Z.to_nat (sl_dst sl + sl_src sl) ∧ cd_src d = sl_dst sl ∧
    (bInUse d = true ↔ busy a (sl_cookie sl)) ∧
    ∀ i c, status_at a i = Some (Running (sl_cookie sl)) → cmd_at a i = Some c → runs d a i c }.

(** The state [s] is the abstract state [a], its queues holding [qc]. *)
Record qrep (s : q_st) (a : q_abs) (qc : gmap Z (list nat)) : Prop := {
  qr_queue q ids : qc !! q = Some ids → ∃ info, q_queues s !! q = Some info ∧ queue_ok info a ids;
  qr_list : qchain (q_queues s) (psQueueList s) (qa_queues a) ∧ NoDup (qa_queues a) ∧ ∀ q, q ∈ qa_queues a ↔ is_Some (qc !! q);
  qr_sync x : is_Some (qa_base a !! x) → q_syncs s !! x = Some (sync_of a x);
  qr_devs : devs_ok s a;
  qr_nodes : ∃ ns, lists_ok (q_devnodes s) {[0 := ns]} ∧ ∀ n, n ∈ ns → is_Some (q_devdata s !! n);
  qr_wf : wf a }.

(** ** Changing the abstract state *)

Definition send (q : Z) (c : command) (a : q_abs) : q_abs :=
  mkQA (qa_log a ++ [mkEntry c (Waiting q)]) (qa_base a) (qa_devs a) (qa_queues a).

Definition set_status (i : nat) (st : status) (a : q_abs) : q_abs :=
  mkQA (alter (λ e, mkEntry (en_cmd e) st) i (qa_log a)) (qa_base a) (qa_devs a) (qa_queues a).

Lemma cmd_at_set i st a j : cmd_at (set_status i st a) j = cmd_at a j.
Proof.
  unfold cmd_at. simpl. destruct (decide (j = i)) as [->|Hj].
  - rewrite list_lookup_alter_eq. by destruct (qa_log a !! i).
  - by rewrite list_lookup_alter_ne.
Qed.

Lemma status_at_set i st a j e : qa_log a !! i = Some e →
  status_at (set_status i st a) j = if decide (j = i) then Some st else status_at a j.
Proof.
  intros He. unfold status_at. simpl. case_decide as Hj; [subst j|].
  - by rewrite list_lookup_alter_eq, He.
  - by rewrite list_lookup_alter_ne.
Qed.

Lemma length_set i st a : length (qa_log (set_status i st a)) = length (qa_log a).
Proof. apply length_alter. Qed.

(** Counting ignores the status. *)
Lemma count_alter (P : command → Prop) `{∀ c, Decision (P c)} st l : ∀ i,
  length (filter (λ e, P (en_cmd e)) (alter (λ e, mkEntry (en_cmd e) st) i l)) = length (filter (λ e, P (en_cmd e)) l).
Proof.
  induction l as [|e l IH]; intros [|i]; try done.
  - change (alter (λ e, mkEntry (en_cmd e) st) 0%nat (e :: l)) with (mkEntry (en_cmd e) st :: l). rewrite !filter_cons. cbn [en_cmd]. by case_decide.
  - change (alter (λ e, mkEntry (en_cmd e) st) (S i) (e :: l)) with (e :: alter (λ e, mkEntry (en_cmd e) st) i l).
    rewrite !filter_cons. specialize (IH i). case_decide; cbn [length]; lia.
Qed.

Lemma writes_alter x st i l : writes x (alter (λ e, mkEntry (en_cmd e) st) i l) = writes x l.
Proof. unfold writes. f_equal. exact (@count_alter (λ c, x ∈ ac_dst c) (λ c, decide_rel (∈) x (ac_dst c)) st l i). Qed.

Lemma reads_alter x st i l : reads x (alter (λ e, mkEntry (en_cmd e) st) i l) = reads x l.
Proof. unfold reads. f_equal. exact (@count_alter (λ c, x ∈ ac_src c) (λ c, decide_rel (∈) x (ac_src c)) st l i). Qed.

Lemma take_alter_set {A} (f : A → A) n i (l : list A) : take n (alter f i l) = if decide (i < n)%nat then alter f i (take n l) else take n l.
Proof.
  revert n i. induction l as [|x l IH]; intros n i.
  - change (alter f i []) with (@nil A). rewrite !take_nil. by case_decide.
  - destruct n as [|n]; [by case_decide; [lia|]|]. destruct i as [|i]; [by case_decide; [|lia]|].
    change (alter f (S i) (x :: l)) with (x :: alter f i l). rewrite !firstn_cons, IH.
    repeat case_decide; (done || lia).
Qed.

Lemma ticket_set i st a j x : ticket (set_status i st a) j x = ticket a j x.
Proof.
  unfold ticket. simpl. rewrite take_alter_set. case_decide; [|done]. by rewrite writes_alter, reads_alter.
Qed.

Lemma ticket_send q c a j x : (j ≤ length (qa_log a))%nat → ticket (send q c a) j x = ticket a j x.
Proof. intros Hj. unfold ticket. simpl. by rewrite take_app_le. Qed.
