(* ===== verification/QueueMem.v ===== *)
(** * The ring buffer of a command queue

    Ring arithmetic, and what writing a command into the free part of a
    buffer keeps. *)

From S2P Require Import Prelude Lists Resource Queue QueueRep.

(** ** Arithmetic *)

Lemma land_mask k x : 0 ≤ k → Z.land x (2 ^ k - 1) = x mod 2 ^ k.
Proof. intros Hk. rewrite <- Z.land_ones by done. by rewrite Z.ones_equiv, <- Z.sub_1_r. Qed.

Lemma u32_mod_pow k x : 0 ≤ k ≤ 31 → u32 x mod 2 ^ k = x mod 2 ^ k.
Proof.
  intros Hk. unfold u32. replace 4294967296 with (2 ^ k * 2 ^ (32 - k)).
  - symmetry. rewrite (Z.div_mod x (2 ^ k * 2 ^ (32 - k))) at 1 by (apply Z.neq_mul_0; split; apply Z.pow_nonzero; lia).
    rewrite <- Z.mul_assoc, Z.mul_comm, Z.add_comm. by rewrite Z.mod_add by (apply Z.pow_nonzero; lia).
  - rewrite <- Z.pow_add_r by lia. by replace (k + (32 - k)) with 32 by lia.
Qed.

Lemma pow_bounds k : 0 ≤ k ≤ 31 → 1 ≤ 2 ^ k ≤ 2147483648.
Proof. intros Hk. split; [pose proof (Z.pow_pos_nonneg 2 k); lia|]. apply (Z.pow_le_mono_r 2 k 31); lia. Qed.

Lemma mask_u32 k : 0 ≤ k ≤ 31 → u32 (2 ^ k - 1) = 2 ^ k - 1.
Proof. intros Hk. apply u32_small. pose proof (pow_bounds k Hk). unfold is_u32. lia. Qed.

(** The free bytes, when [u] bytes are taken. *)
Lemma get_space info u :
  (∃ k, 0 ≤ k ≤ 31 ∧ ui32QueueSize info = 2 ^ k) → 0 ≤ ui32ReadOffset info < ui32QueueSize info →
  0 ≤ u < ui32QueueSize info →
  ui32WriteOffset info = (ui32ReadOffset info + u) mod ui32QueueSize info →
  GET_SPACE_IN_CMDQ info = ui32QueueSize info - 1 - u.
Proof.
  intros (k&Hk&Hs) Hr Hu Hw. unfold GET_SPACE_IN_CMDQ. rewrite Hs in *. rewrite mask_u32 by done.
  rewrite land_mask, u32_mod_pow by lia. pose proof (pow_bounds k Hk).
  rewrite Z.add_mod, u32_mod_pow by lia. rewrite <- Z.add_mod by lia. rewrite Hw.
  replace (ui32ReadOffset info - (ui32ReadOffset info + u) mod 2 ^ k + (2 ^ k - 1))
    with (ui32ReadOffset info + (2 ^ k - 1) - (ui32ReadOffset info + u) mod 2 ^ k) by lia.
  rewrite Zminus_mod_idemp_r.
  replace (ui32ReadOffset info + (2 ^ k - 1) - (ui32ReadOffset info + u)) with (2 ^ k - 1 - u) by lia.
  apply Z.mod_small. lia.
Qed.

Lemma advance k o n : 0 ≤ k ≤ 31 → Z.land (u32 (o + n)) (u32 (2 ^ k - 1)) = (o + n) mod 2 ^ k.
Proof. intros Hk. rewrite mask_u32 by done. rewrite land_mask by lia. by apply u32_mod_pow. Qed.

(** A command [uj] bytes after the read offset, of [sj] bytes, and [n] free
    bytes from [U] after it on do not meet in the buffer, whether or not
    they go past its end. *)
Lemma laps_disjoint r size uj sj U n :
  0 ≤ r < size → 0 ≤ uj → 0 ≤ sj → uj + sj ≤ U → 0 ≤ n → U + n < size →
  (r + uj) mod size + sj ≤ (r + U) mod size ∨ (r + U) mod size + n ≤ (r + uj) mod size.
Proof.
  intros Hr Huj Hsj HU Hn Hsize.
  assert (∀ v, 0 ≤ v < size → (r + v) mod size = r + v ∧ r + v < size ∨ (r + v) mod size = r + v - size ∧ size ≤ r + v) as Hmod.
  { intros v Hv. destruct (Z.lt_ge_cases (r + v) size).
    - left. split; [apply Z.mod_small; lia|done].
    - right. split; [|done]. symmetry. apply (Z.mod_unique _ _ 1); lia. }
  destruct (Hmod uj ltac:(lia)) as [[-> ?]|[-> ?]], (Hmod U ltac:(lia)) as [[-> ?]|[-> ?]]; lia.
Qed.

(** ** Cells *)

(** [m'] has all of [m] outside [o, o + n). *)
Definition kept (o n : Z) (m m' : gmap Z cell) : Prop :=
  ∀ k c, m !! k = Some c → k + cell_size c ≤ o ∨ o + n ≤ k → m' !! k = Some c.

Lemma kept_refl o n m : kept o n m m.
Proof. by intros k c ?. Qed.

Lemma kept_trans o n m1 m2 m3 : kept o n m1 m2 → kept o n m2 m3 → kept o n m1 m3.
Proof. intros H1 H2 k c Hk Hout. apply H2; [|done]. by apply H1. Qed.

Lemma kept_weaken o n o' n' m m' : o' ≤ o → o + n ≤ o' + n' → kept o n m m' → kept o' n' m m'.
Proof. intros H1 H2 H k c Hk Hout. apply H; [done|]. lia. Qed.

Lemma kept_write o c m : kept o (cell_size c) m (<[o := c]> (clear_cells o (cell_size c) m)).
Proof.
  intros k d Hk Hout. assert (0 < cell_size c ∧ 0 < cell_size d) as [Hc Hd] by (by destruct c, d).
  rewrite lookup_insert_ne by lia. unfold clear_cells. by apply map_lookup_filter_Some_2.
Qed.

Lemma cmd_size_cells c : 0 ≤ ac_data c → sizeof_PVRSRV_COMMAND + Z.of_nat (length (syncs c)) * sizeof_PVRSRV_SYNC_OBJECT ≤ cmd_size c.
Proof. unfold cmd_size. lia. Qed.

Lemma holds_kept o n m m' a i c p :
  kept o n m m' → 0 ≤ ac_data c → p + cmd_size c ≤ o ∨ o + n ≤ p → holds m a i c p → holds m' a i c p.
Proof.
  intros Hk Hd Hout [[pid Hh] Hs]. pose proof (cmd_size_cells c Hd) as Hsz. unfold sizeof_PVRSRV_COMMAND, sizeof_PVRSRV_SYNC_OBJECT in *.
  split.
  - exists pid. apply Hk; [done|]. unfold cell_size, sizeof_PVRSRV_COMMAND. lia.
  - intros j x Hj. apply Hk; [by apply Hs|]. apply lookup_lt_Some in Hj.
    unfold sync_offset, cell_size, sizeof_PVRSRV_COMMAND, sizeof_PVRSRV_SYNC_OBJECT. lia.
Qed.

(** ** The ring *)

Definition cmds_ok (a : q_abs) (ids : list nat) : Prop := ∀ i c, i ∈ ids → cmd_at a i = Some c → 0 ≤ ac_data c.

Lemma cmd_size_pos c : 0 ≤ ac_data c → 56 ≤ cmd_size c.
Proof. unfold cmd_size, sizeof_PVRSRV_COMMAND, sizeof_PVRSRV_SYNC_OBJECT. lia. Qed.

Lemma ids_bytes_cons a i ids : bytes a (i :: ids) = from_option cmd_size 0 (cmd_at a i) + bytes a ids.
Proof. done. Qed.

Lemma bytes_nonneg a ids : cmds_ok a ids → 0 ≤ bytes a ids.
Proof.
  induction ids as [|i ids IH]; intros H; [done|]. rewrite ids_bytes_cons.
  assert (0 ≤ from_option cmd_size 0 (cmd_at a i)).
  { destruct (cmd_at a i) as [c|] eqn:Hc; [|done]. simpl. pose proof (cmd_size_pos c (H i c ltac:(by left) Hc)). lia. }
  specialize (IH (λ j c Hj, H j c (list_elem_of_further _ _ _ Hj))). lia.
Qed.

Lemma ids_bytes_app a ids ids' : bytes a (ids ++ ids') = bytes a ids + bytes a ids'.
Proof. induction ids as [|i ids IH]; [done|]. rewrite <- app_comm_cons, !ids_bytes_cons, IH. lia. Qed.

Lemma ring_kept m m' a r size U n ids : ∀ u,
  kept ((r + U) mod size) n m m' → cmds_ok a ids →
  0 ≤ r < size → 0 ≤ u → u + bytes a ids ≤ U → 0 ≤ n → U + n < size →
  ring m a r size u ids → ring m' a r size u ids.
Proof.
  induction ids as [|i ids IH]; intros u Hk Hok Hr Hu Hb Hn HU; [done|]. intros (c&Hc&Hh&Hring).
  assert (0 ≤ ac_data c) as Hd by (by apply (Hok i); [left|]). pose proof (cmd_size_pos c Hd) as Hpos.
  assert (cmds_ok a ids) as Hok' by (intros j d Hj; apply Hok; by right).
  pose proof (bytes_nonneg a ids Hok'). rewrite ids_bytes_cons, Hc in Hb. cbn [from_option] in Hb.
  exists c. split_and!; [done| |].
  - eapply holds_kept; [exact Hk|exact Hd| |exact Hh]. apply laps_disjoint; lia.
  - apply (IH (u + cmd_size c)); try done; lia.
Qed.

Lemma ring_shift m a r size v ids : ∀ u, size ≠ 0 → ring m a r size (v + u) ids → ring m a ((r + v) mod size) size u ids.
Proof.
  induction ids as [|i ids IH]; intros u Hs; [done|]. intros (c&Hc&Hh&Hring). exists c. split_and!; [done| |].
  - rewrite Z.add_mod_idemp_l by done. by rewrite <- Z.add_assoc.
  - apply IH; [done|]. by rewrite Z.add_assoc.
Qed.

Lemma cmds_ring_app m a r size i ids c : ∀ u,
  ring m a r size u ids → cmd_at a i = Some c → holds m a i c ((r + (u + bytes a ids)) mod size) →
  ring m a r size u (ids ++ [i]).
Proof.
  induction ids as [|j ids IH]; intros u.
  - intros _ Hc Hh. simpl. exists c. split_and!; [done| |done]. unfold bytes in Hh. simpl in Hh. by rewrite Z.add_0_r in Hh.
  - intros (d&Hd&Hhd&Hring) Hc Hh. exists d. split_and!; [done..|]. apply IH; [done|done|].
    rewrite ids_bytes_cons, Hd in Hh. cbn [from_option] in Hh. by rewrite <- Z.add_assoc.
Qed.

(** ** The state of a command does not matter to the buffer *)

Lemma holds_set m a i c o j st : holds m a i c o → holds m (set_status j st a) i c o.
Proof.
  intros [Hh Hs]. split; [done|]. intros k x Hx. rewrite (Hs k x Hx). unfold sync_object. by rewrite ticket_set.
Qed.

Lemma ring_set m a r size j st ids : ∀ u, ring m a r size u ids → ring m (set_status j st a) r size u ids.
Proof.
  induction ids as [|i ids IH]; intros u; [done|]. intros (c&Hc&Hh&Hr). exists c.
  split_and!; [by rewrite cmd_at_set|by apply holds_set|by apply IH].
Qed.

Lemma bytes_set a j st ids : bytes (set_status j st a) ids = bytes a ids.
Proof. induction ids as [|i ids IH]; [done|]. by rewrite !ids_bytes_cons, cmd_at_set, IH. Qed.

Lemma queue_ok_set info a j st ids : queue_ok info a ids → queue_ok info (set_status j st a) ids.
Proof.
  intros [H1 H2 H3 H4 H5 (m&Hm&Hr)]. split; rewrite ?bytes_set; try done. exists m. split; [done|by apply ring_set].
Qed.

Lemma cmd_at_send q c a i : i ≠ length (qa_log a) → cmd_at (send q c a) i = cmd_at a i.
Proof.
  intros Hi. unfold cmd_at. simpl. destruct (decide (i < length (qa_log a))%nat).
  - by rewrite lookup_app_l.
  - rewrite !lookup_ge_None_2; [done|lia|]. rewrite length_app. simpl. lia.
Qed.

Lemma cmd_at_sent q c a : cmd_at (send q c a) (length (qa_log a)) = Some c.
Proof. unfold cmd_at. simpl. by rewrite list_lookup_middle. Qed.

Definition known (a : q_abs) (ids : list nat) : Prop := ∀ i, i ∈ ids → (i < length (qa_log a))%nat.

Lemma ring_send m a r size q c ids : ∀ u, known a ids → ring m a r size u ids → ring m (send q c a) r size u ids.
Proof.
  induction ids as [|i ids IH]; intros u Hk; [done|]. intros (d&Hd&Hh&Hr). exists d.
  assert (i < length (qa_log a))%nat by (apply Hk; by left). split_and!.
  - rewrite cmd_at_send by lia. done.
  - destruct Hh as [Hh Hs]. split; [done|]. intros k x Hx. rewrite (Hs k x Hx). unfold sync_object. by rewrite ticket_send by lia.
  - apply IH; [|done]. intros j Hj. apply Hk. by right.
Qed.

Lemma bytes_send a q c ids : known a ids → bytes (send q c a) ids = bytes a ids.
Proof.
  induction ids as [|i ids IH]; intros Hk; [done|]. rewrite !ids_bytes_cons.
  rewrite cmd_at_send by (pose proof (Hk i ltac:(by left)); lia). rewrite IH; [done|].
  intros j Hj. apply Hk. by right.
Qed.
