(* ===== verification/QueueInsert.v ===== *)
(** * Inserting a command into a queue, and waiting

    The command's header and synchronisation objects and the update of the write
    offset; and the wait for space: the clock of LOOP_UNTIL_TIMEOUT has 32 bits and
    wraps around every 72 minutes, but the loop ends all the same, and only gives
    up when the time is really over. *)

From S2P Require Import Prelude Lists Resource Queue QueueRep QueueMem.

(** ** Steps *)

Lemma wp_get_queue q info Q s : q_queues s !! q = Some info → Q info s → wp (get_queue q) Q s.
Proof. intros H HQ. unfold get_queue. wp_step. wp_step. rewrite H. by apply wp_ret. Qed.

Lemma wp_upd_queue q info f Q s :
  q_queues s !! q = Some info → Q tt (set_q_queues (<[q := f info]> (q_queues s)) s) → wp (upd_queue q f) Q s.
Proof. intros H HQ. unfold upd_queue. wp_step. eapply wp_get_queue; [done|]. unfold put_queue. by wp_step. Qed.

Lemma wp_get_sync x d Q s : q_syncs s !! x = Some d → Q d s → wp (get_sync x) Q s.
Proof. intros H HQ. unfold get_sync. wp_step. wp_step. rewrite H. by apply wp_ret. Qed.

Lemma wp_upd_sync x d f Q s :
  q_syncs s !! x = Some d → Q tt (set_q_syncs (<[x := f d]> (q_syncs s)) s) → wp (upd_sync x f) Q s.
Proof. intros H HQ. unfold upd_sync. wp_step. eapply wp_get_sync; [done|]. by wp_step. Qed.

Lemma wp_read_cell q info m o c Q s :
  q_queues s !! q = Some info → pvLinQueueKM info = Some m → m !! o = Some c → Q c s → wp (read_cell q o) Q s.
Proof.
  intros Hq Hm Hc HQ. unfold read_cell. wp_step. eapply wp_get_queue; [done|]. rewrite Hm. wp_step. wp_step.
  rewrite Hc. by apply wp_ret.
Qed.

Lemma wp_get_command q info m o c Q s :
  q_queues s !! q = Some info → pvLinQueueKM info = Some m → m !! o = Some (CCommand c) → Q c s → wp (get_command q o) Q s.
Proof. intros Hq Hm Hc HQ. unfold get_command. wp_step. eapply wp_read_cell; [done..|]. by apply wp_ret. Qed.

Lemma wp_get_sync_object q info m o x Q s :
  q_queues s !! q = Some info → pvLinQueueKM info = Some m → m !! o = Some (CSync x) → Q x s → wp (get_sync_object q o) Q s.
Proof. intros Hq Hm Hc HQ. unfold get_sync_object. wp_step. eapply wp_read_cell; [done..|]. by apply wp_ret. Qed.

(** The queue with the buffer [m]. *)
Definition with_buffer (q : Z) (info : PVRSRV_QUEUE_INFO) (m : gmap Z cell) (s : q_st) : q_st :=
  set_q_queues (<[q := set_pvLinQueueKM (Some m) info]> (q_queues s)) s.

Lemma wp_write_cell q info m o c Q s :
  q_queues s !! q = Some info → pvLinQueueKM info = Some m → 0 ≤ o → o + cell_size c ≤ qi_capacity info →
  Q tt (with_buffer q info (<[o := c]> (clear_cells o (cell_size c) m)) s) → wp (write_cell q o c) Q s.
Proof.
  intros Hq Hm Ho Hcap HQ. unfold write_cell. wp_step. eapply wp_get_queue; [done|]. rewrite Hm. wp_step. wp_step.
  rewrite (proj2 (Z.leb_le _ _)), (proj2 (Z.leb_le _ _)) by lia. simpl. unfold put_queue. by wp_step.
Qed.

(** ** The synchronisation objects *)

(** Taking a ticket. *)
Definition pend (rd : bool) (d : PVRSRV_SYNC_DATA) : PVRSRV_SYNC_DATA :=
  if rd then mkSyncData (ui32WriteOpsPending d) (ui32WriteOpsComplete d) (u32 (ui32ReadOpsPending d + 1)) (ui32ReadOpsComplete d)
  else mkSyncData (u32 (ui32WriteOpsPending d + 1)) (ui32WriteOpsComplete d) (ui32ReadOpsPending d) (ui32ReadOpsComplete d).

Lemma wp_ticket x rd d Q s (f : Z → Z → M q_st unit) :
  q_syncs s !! x = Some d →
  wp (f (ui32WriteOpsPending d) (ui32ReadOpsPending d)) Q (set_q_syncs (<[x := pend rd d]> (q_syncs s)) s) →
  wp (w ← PVRSRVGetWriteOpsPending x rd; r ← PVRSRVGetReadOpsPending x rd; f w r) Q s.
Proof.
  intros Hx HQ. unfold PVRSRVGetWriteOpsPending, PVRSRVGetReadOpsPending.
  wp_step. wp_step. eapply wp_get_sync; [done|]. destruct rd.
  - do 3 wp_step. wp_step. wp_step. eapply wp_get_sync; [done|]. wp_step. eapply wp_upd_sync; [done|]. wp_step. exact HQ.
  - wp_step. eapply wp_upd_sync; [done|]. wp_step. wp_step. wp_step. eapply wp_get_sync; [simpl; apply lookup_insert_eq|].
    do 3 wp_step. exact HQ.
Qed.

Definition object (x : Z) (d : PVRSRV_SYNC_DATA) : cell := CSync (mkSyncObject x (ui32WriteOpsPending d) (ui32ReadOpsPending d)).

(** What filling the objects [xs] from offset [o] on does. *)
Record filled (o : Z) (xs : list Z) (rd : bool) (m m' : gmap Z cell) (S S' : gmap Z PVRSRV_SYNC_DATA) : Prop := {
  fi_kept : kept o (Z.of_nat (length xs) * sizeof_PVRSRV_SYNC_OBJECT) m m';
  fi_syncs x : S' !! x = if decide (x ∈ xs) then pend rd <$> S !! x else S !! x;
  fi_cells j x d : xs !! j = Some x → S !! x = Some d → m' !! (o + Z.of_nat j * sizeof_PVRSRV_SYNC_OBJECT) = Some (object x d) }.

Lemma wp_insert_syncs q rd xs : ∀ o info m s,
  q_queues s !! q = Some info → pvLinQueueKM info = Some m → 0 ≤ o →
  o + Z.of_nat (length xs) * sizeof_PVRSRV_SYNC_OBJECT ≤ qi_capacity info →
  NoDup xs → (∀ x, x ∈ xs → is_Some (q_syncs s !! x)) →
  wp (insert_syncs q o xs rd) (λ _ s', ∃ m' S', filled o xs rd m m' (q_syncs s) S' ∧
    s' = set_q_syncs S' (with_buffer q info m' s)) s.
Proof.
  induction xs as [|x xs IH]; intros o info m s Hq Hm Ho Hcap Hnd Hx; simpl.
  - wp_step. exists m, (q_syncs s). split.
    + split; [apply kept_refl|intros x; by rewrite decide_False by apply not_elem_of_nil|done].
    + unfold with_buffer. replace (set_pvLinQueueKM (Some m) info) with info by (by destruct info; simpl in *; subst).
      rewrite insert_id by done. by destruct s.
  - apply NoDup_cons in Hnd as [Hxs Hnd]. destruct (Hx x ltac:(by left)) as [d Hd].
    unfold sizeof_PVRSRV_SYNC_OBJECT in *. cbn [length] in Hcap. rewrite Nat2Z.inj_succ in Hcap.
    eapply wp_ticket; [exact Hd|]. wp_step. eapply wp_write_cell; [exact Hq|exact Hm|done|simpl; unfold sizeof_PVRSRV_SYNC_OBJECT; lia|].
    set (m1 := <[o := _]> _). set (s1 := with_buffer _ _ _ _).
    eapply wp_mono; [apply (IH (o + 16) (set_pvLinQueueKM (Some m1) info) m1 s1)|].
    + simpl. apply lookup_insert_eq.
    + done.
    + lia.
    + simpl. lia.
    + done.
    + intros y Hy. simpl. apply lookup_insert_is_Some'. right. apply Hx. by right.
    + intros [] s' (m'&S'&[Hk Hsy Hce]&->). exists m', S'. split; [split|].
      * eapply (kept_trans _ _ m m1 m').
        -- eapply kept_weaken; [..|apply kept_write]; [lia|]. unfold cell_size, sizeof_PVRSRV_SYNC_OBJECT. cbn [length]. lia.
        -- eapply kept_weaken; [..|exact Hk]; unfold sizeof_PVRSRV_SYNC_OBJECT; cbn [length]; lia.
      * intros y. rewrite Hsy. simpl. destruct (decide (y = x)) as [->|Hyx].
        -- rewrite decide_False, decide_True by (done || by left). by rewrite lookup_insert_eq, Hd.
        -- rewrite lookup_insert_ne by done. destruct (decide (y ∈ xs)).
           ++ by rewrite decide_True by (by right).
           ++ rewrite decide_False; [done|]. by intros [?|?]%elem_of_cons.
      * intros [|j] y dy Hj Hdy.
        -- simpl in Hj. injection Hj as <-. rewrite Z.mul_0_l, Z.add_0_r. rewrite Hd in Hdy. injection Hdy as <-.
           apply Hk; [apply lookup_insert_eq|]. unfold object, cell_size, sizeof_PVRSRV_SYNC_OBJECT. lia.
        -- simpl in Hj. replace (o + Z.of_nat (S j) * sizeof_PVRSRV_SYNC_OBJECT) with (o + 16 + Z.of_nat j * sizeof_PVRSRV_SYNC_OBJECT)
             by (unfold sizeof_PVRSRV_SYNC_OBJECT; lia).
           apply Hce; [done|]. simpl. rewrite lookup_insert_ne; [done|]. intros ->. apply Hxs. by eapply list_elem_of_lookup_2.
      * unfold s1, with_buffer, set_q_syncs, set_q_queues. simpl. by rewrite insert_insert_eq.
Qed.

(** No single sleep lasts longer than this (in microseconds). *)
Definition MAX_SLEEP : Z := 1000000000.

Section wait.
Context (TIMEOUT : Z) (HT : 2 ≤ TIMEOUT ≤ 1000000000).
Context (I G : q_st → Prop) (body : M q_st bool).
Context (Hbody : ∀ s, I s → wp body (λ b s', I s' ∧
  if b : bool then G s' else q_time s + 1000 ≤ q_time s' ≤ q_time s + MAX_SLEEP) s).

(** What the loop's variables say of the time [x] gone by. *)
Inductive measured (T0 x uiOffset uiStart uiCurrent : Z) : Prop :=
| me_first : x = 0 → uiOffset = 0 → uiStart = u32 T0 → uiCurrent = u32 (uiStart + 1) → measured T0 x uiOffset uiStart uiCurrent
| me_plain : 0 ≤ x → uiOffset = 0 → uiStart = u32 T0 → uiCurrent = u32 (T0 + x) → measured T0 x uiOffset uiStart uiCurrent
| me_wrapped : 1 ≤ x → uiOffset = 4294967295 - u32 T0 → uiStart = 0 → uiCurrent = u32 (T0 + x) →
    measured T0 x uiOffset uiStart uiCurrent.

Definition elapsed (uiOffset uiStart uiCurrent : Z) : Z := u32 (u32 (uiCurrent - uiStart) + uiOffset).

Lemma measured_elapsed T0 x o st c : measured T0 x o st c →
  (x = 0 ∧ elapsed o st c = 1) ∨ (0 ≤ x ∧ elapsed o st c = u32 x) ∨ (1 ≤ x ∧ elapsed o st c = u32 (x - 1)).
Proof.
  unfold elapsed, u32. intros [Hx -> -> ->|Hx -> -> ->|Hx -> -> ->]; unfold u32.
  - left. split; [done|]. rewrite Z.add_0_r, Zmod_mod, Zminus_mod_idemp_l.
    by replace (T0 mod 4294967296 + 1 - T0 mod 4294967296) with 1 by lia.
  - right. left. split; [done|]. rewrite Z.add_0_r, Zmod_mod, Zminus_mod_idemp_l, Zminus_mod_idemp_r.
    by replace (T0 + x - T0) with x by lia.
  - right. right. split; [done|]. rewrite Z.sub_0_r, Zmod_mod, Z.add_mod_idemp_l by done.
    replace (T0 + x + (4294967295 - T0 mod 4294967296)) with (T0 + x + 4294967295 - T0 mod 4294967296) by lia.
    rewrite Zminus_mod_idemp_r. replace (T0 + x + 4294967295 - T0) with (x - 1 + 1 * 4294967296) by lia.
    by rewrite Z.mod_add.
Qed.

Lemma measured_next T0 x y o st c : measured T0 x o st c → x + 1 ≤ y →
  let c' := u32 (T0 + y) in
  measured T0 y (if c' <? st then 4294967295 - st else o) (if c' <? st then 0 else st) c'.
Proof.
  intros Hm Hy c'. pose proof (u32_range (T0 + y)) as Hc. fold c' in Hc. unfold is_u32 in Hc.
  destruct (Z.ltb_spec c' st) as [Hlt|Hge]; destruct Hm as [Hx -> -> Hcur|Hx -> -> Hcur|Hx -> -> Hcur]; try lia.
  1,2: apply me_wrapped; [lia|done..].
  1,2: apply me_plain; [lia|done..].
  apply me_wrapped; [lia|done..].
Qed.

(** The turns that are left. *)
Definition turns (x i : Z) : Z := Z.max 0 (TIMEOUT / 1000 + 1 - x / 1000) + i.

Lemma wp_loop_until T0 : ∀ fuel s o st c i,
  I s → 0 ≤ i ≤ 1 → measured T0 (q_time s - T0) o st c →
  q_time s - T0 ≤ TIMEOUT + (2 - i) * MAX_SLEEP → turns (q_time s - T0) i ≤ Z.of_nat fuel →
  wp (loop_until fuel TIMEOUT body o st c i) (λ b s', I s' ∧ if b : bool then G s' else T0 + TIMEOUT ≤ q_time s') s.
Proof.
  induction fuel as [|fuel IH]; intros s o st c i HI Hi Hm Hb Hf.
  all: pose proof (measured_elapsed _ _ _ _ _ Hm) as He; fold (elapsed o st c) in *; set (x := q_time s - T0) in *.
  all: assert (∀ v, v = x ∨ v = x - 1 → 0 ≤ v → u32 v = v) as Hsmall by
    (intros v Hv Hv0; apply u32_small; unfold is_u32, MAX_SLEEP in *; lia).
  all: assert (elapsed o st c < TIMEOUT → 0 ≤ x ≤ TIMEOUT) as Hleft by
    (intros Hl; destruct He as [[? He]|[[? He]|[? He]]]; rewrite ?Hsmall in He by lia; lia).
  all: assert (TIMEOUT ≤ elapsed o st c → TIMEOUT ≤ x) as Hout by
    (intros Hl; destruct He as [[? He]|[[? He]|[? He]]]; rewrite ?Hsmall in He by lia; lia).
  all: cbn [loop_until]; fold (elapsed o st c).
  all: destruct (Z.ltb_spec (elapsed o st c) TIMEOUT) as [Hl|Hl].
  - exfalso. specialize (Hleft Hl). unfold turns in Hf. pose proof (Z.div_le_mono x TIMEOUT 1000). lia.
  - assert (i = 0) as -> by (unfold turns in Hf; lia). simpl. apply wp_ret. split; [done|]. unfold x in Hout. lia.
  - simpl. wp_step. eapply wp_mono; [by apply Hbody|]. intros [] s' [HI' Ht]; [by apply wp_ret|].
    unfold OSClockus. wp_step. wp_step. specialize (Hleft Hl).
    replace (q_time s') with (T0 + (q_time s' - T0)) by lia.
    apply IH; [done|done| | |].
    + eapply measured_next; [exact Hm|]. lia.
    + unfold MAX_SLEEP, x in *. lia.
    + unfold turns in *. assert (x / 1000 + 1 ≤ (q_time s' - T0) / 1000).
      { replace (x / 1000 + 1) with ((x + 1 * 1000) / 1000) by (rewrite Z.div_add by done; lia). apply Z.div_le_mono; lia. }
      pose proof (Z.div_le_mono x TIMEOUT 1000). lia.
  - destruct (Z.eqb_spec i 0) as [->|Hi0]; simpl.
    + apply wp_ret. split; [done|]. unfold x in Hout. lia.
    + assert (i = 1) as -> by lia. wp_step. eapply wp_mono; [by apply Hbody|]. intros [] s' [HI' Ht]; [by apply wp_ret|].
      unfold OSClockus. wp_step. wp_step. replace (q_time s') with (T0 + (q_time s' - T0)) by lia.
      apply IH; [done|done| | |].
      * eapply measured_next; [exact Hm|]. lia.
      * unfold MAX_SLEEP, x in *. lia.
      * unfold turns in *. assert (x / 1000 ≤ (q_time s' - T0) / 1000) by (apply Z.div_le_mono; lia). lia.
Qed.

Lemma wp_LOOP_UNTIL_TIMEOUT s : I s →
  wp (LOOP_UNTIL_TIMEOUT TIMEOUT body) (λ b s', I s' ∧ if b : bool then G s' else q_time s + TIMEOUT ≤ q_time s') s.
Proof.
  intros HI. unfold LOOP_UNTIL_TIMEOUT, OSClockus. wp_step. wp_step. apply wp_loop_until; [done|done| |unfold MAX_SLEEP; lia|].
  - rewrite Z.sub_diag. by apply me_first.
  - rewrite Z.sub_diag. unfold turns. pose proof (Z.div_pos TIMEOUT 1000). rewrite Zdiv_0_l. rewrite Nat2Z.inj_add, Z2Nat.id by (apply Z.div_pos; lia). lia.
Qed.
End wait.
