(* ===== verification/QueueLaw.v ===== *)
(** * What the queues promise, and what they rely on

    The steps of the abstract state, and the laws of the code that runs
    elsewhere: the display driver and other threads. *)

From S2P Require Import Prelude Lists Resource Queue QueueRep QueueMem.

(** ** Steps *)

(** Whether the counts [d] let through a command with the ticket [t]. *)
Definition passes (bFlush : bool) (d : PVRSRV_SYNC_DATA) (t : Z * Z) : bool :=
  negb ((negb (ui32WriteOpsComplete d =? fst t) || negb (ui32ReadOpsComplete d =? snd t)) &&
        (negb bFlush || negb (SYNCOPS_STALE (ui32WriteOpsComplete d) (fst t)) ||
         negb (SYNCOPS_STALE (ui32ReadOpsComplete d) (snd t)))).

Definition ready (bFlush : bool) (a : q_abs) (i : nat) (c : command) : bool :=
  forallb (λ x, passes bFlush (sync_of a x) (ticket a i x)) (syncs c).

(** Command [i] may be handed to the driver under the cookie [p]. *)
Definition can_start (bFlush : bool) (a : q_abs) (i : nat) (p : Z) : Prop :=
  ∃ c sl, cmd_at a i = Some c ∧ slot_of a c = Some sl ∧ sl_cookie sl = p ∧ ¬ busy a p ∧ ready bFlush a i c = true.

(** The driver finishes a command. *)
Inductive completes : q_abs → q_abs → Prop :=
| cp_done a : completes a a
| cp_step a i p a' : status_at a i = Some (Running p) → completes (set_status i Completed a) a' → completes a a'.

Section law.
Context {env : QueueEnv}.

(** The commands a driver refuses for now, and whether other threads flush
    the queues (as the hardware recovery does). *)
Class Refusal := { refuses : Z → q_abs → nat → Prop; may_flush : bool }.
Context {refusal : Refusal}.

(** The commands of a queue, oldest first, until one cannot start. *)
Inductive drains (bFlush : bool) (q : Z) : q_abs → q_abs → Prop :=
| dr_empty a : waiting a q = [] → drains bFlush q a a
| dr_stop a i ids : waiting a q = i :: ids →
    (∀ p, ¬ can_start bFlush a i p) ∨ (∃ p fn, can_start bFlush a i p ∧ refuses fn (set_status i (Running p) a) i) →
    drains bFlush q a a
| dr_step a i ids p a1 a2 : waiting a q = i :: ids → can_start bFlush a i p →
    completes (set_status i (Running p) a) a1 → drains bFlush q a1 a2 → drains bFlush q a a2.

Inductive drains_all (bFlush : bool) : list Z → q_abs → q_abs → Prop :=
| da_nil a : drains_all bFlush [] a a
| da_cons q ql a a1 a2 : drains bFlush q a a1 → drains_all bFlush ql a1 a2 → drains_all bFlush (q :: ql) a a2.

(** What other threads do meanwhile: commands start and finish. *)
Inductive evolves : q_abs → q_abs → Prop :=
| ev_refl a : evolves a a
| ev_start bFlush q i ids p a a' : (bFlush = true → may_flush = true) → waiting a q = i :: ids → can_start bFlush a i p →
    evolves (set_status i (Running p) a) a' → evolves a a'
| ev_complete i p a a' : status_at a i = Some (Running p) → evolves (set_status i Completed a) a' → evolves a a'.

(** ** The whole state *)

(** The queues hold their waiting commands and the lock is free. *)
Record rep (s : q_st) (a : q_abs) : Prop := {
  rp_qc : ∃ qc, qrep s a qc ∧ (∀ q ids, qc !! q = Some ids → ids = waiting a q) ∧
    (∀ i q, status_at a i = Some (Waiting q) → is_Some (qc !! q)) ∧
    (∀ q, is_Some (q_queues s !! q) → is_Some (qc !! q) ∧ 0 < q < q_next s);
  rp_lock : ui32Lock (sQProcessResource s) = 0;
  rp_pos : 0 < q_next s }.

(** Callbacks leave the queues, the lock and the tables as they are. *)
Record same_queues (s s' : q_st) : Prop := {
  sq_queues : q_queues s' = q_queues s;
  sq_list : psQueueList s' = psQueueList s;
  sq_lock : sQProcessResource s' = sQProcessResource s;
  sq_nodes : q_devnodes s' = q_devnodes s;
  sq_data : q_devdata s' = q_devdata s;
  sq_devs : apsDeviceCommandData s' = apsDeviceCommandData s;
  sq_next : q_next s' = q_next s }.

(** The driver may finish commands at once, the one it is given included;
    a refused one it does not keep.  The other callbacks only look, and a
    sleep lets other threads process the queues. *)
Class QueueLaw : Prop := {
  law_cmd_proc fn p n d s a qc i : qrep s a qc → status_at a i = Some (Running p) →
    wp (cmd_proc fn p n d) (λ b s', ∃ a', completes a a' ∧ qrep s' a' qc ∧ same_queues s s' ∧
      (b = false → a' = a ∧ refuses fn a i)) s;
  law_device f n s a qc : qrep s a qc → wp (device_complete f n) (λ _ s', qrep s' a qc ∧ same_queues s s') s;
  law_dc_state st s a qc : qrep s a qc → wp (PVRSRVSetDCState st) (λ _ s', qrep s' a qc ∧ same_queues s s') s;
  law_sleep s a : rep s a → wp sleep_env (λ _ s', ∃ a', evolves a a' ∧ rep s' a' ∧
    q_time s ≤ q_time s' ≤ q_time s + 100000000 ∧ ∀ q, is_Some (q_queues s !! q) → is_Some (q_queues s' !! q)) s }.
End law.

(** ** What steps keep *)

Lemma completes_trans a a1 a2 : completes a a1 → completes a1 a2 → completes a a2.
Proof. induction 1; [done|]. intros. eapply cp_step; eauto. Qed.

Lemma evolves_trans `{Refusal} a a1 a2 : evolves a a1 → evolves a1 a2 → evolves a a2.
Proof. induction 1; [done|..]; intros; [eapply ev_start|eapply ev_complete]; eauto. Qed.

(** The statuses change, the rest of the log does not. *)
Record same_log (a a' : q_abs) : Prop := {
  sl_length : length (qa_log a') = length (qa_log a);
  sl_cmd i : cmd_at a' i = cmd_at a i;
  sl_base : qa_base a' = qa_base a;
  sl_devs : qa_devs a' = qa_devs a;
  sl_queues : qa_queues a' = qa_queues a }.

Lemma same_log_refl a : same_log a a.
Proof. done. Qed.

Lemma same_log_trans a a1 a2 : same_log a a1 → same_log a1 a2 → same_log a a2.
Proof. intros [] []. split; intros; congruence. Qed.

Lemma same_log_set i st a : same_log a (set_status i st a).
Proof. split; [apply length_set|intros; apply cmd_at_set|done..]. Qed.

Lemma completes_log a a' : completes a a' → same_log a a'.
Proof. induction 1; [done|]. eapply same_log_trans; [apply same_log_set|done]. Qed.

Lemma evolves_log `{Refusal} a a' : evolves a a' → same_log a a'.
Proof. induction 1; [done|..]; (eapply same_log_trans; [apply same_log_set|done]). Qed.

Lemma status_lookup a i st : status_at a i = Some st → ∃ e, qa_log a !! i = Some e ∧ en_status e = st.
Proof. unfold status_at. intros (e&He&Hst)%fmap_Some. eauto. Qed.

Lemma elem_of_waiting a q i : i ∈ waiting a q ↔ status_at a i = Some (Waiting q).
Proof.
  unfold waiting. rewrite list_elem_of_filter, elem_of_seq. split; [by intros [? _]|].
  intros H. split; [done|]. destruct (status_lookup _ _ _ H) as (e&He&_). apply lookup_lt_Some in He. lia.
Qed.

Lemma waiting_ext a a' q : length (qa_log a') = length (qa_log a) →
  (∀ i, status_at a i = Some (Waiting q) ↔ status_at a' i = Some (Waiting q)) → waiting a' q = waiting a q.
Proof. intros Hl H. unfold waiting. rewrite Hl. apply list_filter_iff. intros i. by rewrite H. Qed.

(** A command that was not waiting does not matter to the queues. *)
Lemma waiting_set a i p st q : status_at a i = Some (Running p) → st ≠ Waiting q →
  waiting (set_status i st a) q = waiting a q.
Proof.
  intros Hi Hst. destruct (status_lookup _ _ _ Hi) as (e&He&Hes). apply waiting_ext; [apply length_set|].
  intros j. rewrite (status_at_set _ _ _ _ _ He). case_decide as Hj; [subst j|done]. rewrite Hi. split; congruence.
Qed.

Lemma completes_waiting a a' q : completes a a' → waiting a' q = waiting a q.
Proof. induction 1; [done|]. rewrite IHcompletes. by eapply waiting_set. Qed.

Lemma completes_status a a' i q : completes a a' → status_at a' i = Some (Waiting q) → status_at a i = Some (Waiting q).
Proof. intros Hc H. apply elem_of_waiting. rewrite <- (completes_waiting _ _ _ Hc). by apply elem_of_waiting. Qed.

(** Starting the oldest command of a queue. *)
Lemma waiting_start a q i ids p : waiting a q = i :: ids → waiting (set_status i (Running p) a) q = ids.
Proof.
  intros Hw. assert (status_at a i = Some (Waiting q)) as Hi by (apply elem_of_waiting; rewrite Hw; by left).
  destruct (status_lookup _ _ _ Hi) as (e&He&Hes). unfold waiting. rewrite length_set.
  assert (filter (λ j, status_at (set_status i (Running p) a) j = Some (Waiting q)) (seq 0 (length (qa_log a))) =
    filter (λ j, j ≠ i) (waiting a q)) as ->.
  { unfold waiting. rewrite list_filter_filter. apply list_filter_iff. intros j. rewrite (status_at_set _ _ _ _ _ He).
    case_decide; [subst j|]; split; [congruence|by intros []|done|by intros []]. }
  rewrite Hw. assert (NoDup (i :: ids)) as [Hni _]%NoDup_cons by (rewrite <- Hw; apply NoDup_filter, NoDup_seq).
  rewrite filter_cons_False by (by intros []). clear Hw. induction ids as [|j ids IH]; [done|].
  apply not_elem_of_cons in Hni as [? ?]. rewrite filter_cons_True by done. by rewrite IH.
Qed.

Lemma waiting_start_other a q q' i ids p : waiting a q = i :: ids → q' ≠ q → waiting (set_status i (Running p) a) q' = waiting a q'.
Proof.
  intros Hw Hq. assert (status_at a i = Some (Waiting q)) as Hi by (apply elem_of_waiting; rewrite Hw; by left).
  destruct (status_lookup _ _ _ Hi) as (e&He&Hes). apply waiting_ext; [apply length_set|].
  intros j. rewrite (status_at_set _ _ _ _ _ He). case_decide as Hj; [subst j|done]. rewrite Hi. split; congruence.
Qed.

Lemma filter_ext_in {A} (P Q : A → Prop) `{∀ x, Decision (P x), ∀ x, Decision (Q x)} (l : list A) :
  (∀ x, x ∈ l → P x ↔ Q x) → filter P l = filter Q l.
Proof.
  induction l as [|x l IH]; intros H1; [done|]. rewrite !filter_cons, IH by (intros y Hy; apply H1; by right).
  pose proof (H1 x ltac:(by left)). repeat case_decide; tauto.
Qed.

Lemma status_at_send q c a i : status_at (send q c a) i =
  if decide (i = length (qa_log a)) then Some (Waiting q) else status_at a i.
Proof.
  unfold status_at. simpl. case_decide as Hi; [subst i; by rewrite list_lookup_middle|].
  destruct (decide (i < length (qa_log a))%nat); [by rewrite lookup_app_l|].
  rewrite !lookup_ge_None_2; [done|lia|rewrite length_app; simpl; lia].
Qed.

(** A command that is sent is the last of its queue. *)
Lemma waiting_send a q c q' : waiting (send q c a) q' = waiting a q' ++ (if decide (q' = q) then [length (qa_log a)] else []).
Proof.
  unfold waiting. cbn [qa_log send]. rewrite length_app, seq_app, filter_app. f_equal.
  - apply filter_ext_in. intros i [_ Hi]%elem_of_seq. rewrite status_at_send. case_decide; [lia|done].
  - cbn [length seq]. rewrite Nat.add_0_l.
    assert (status_at (send q c a) (length (qa_log a)) = Some (Waiting q)) as Hs by (by rewrite status_at_send, decide_True).
    destruct (decide (q' = q)) as [->|Hq]; [by rewrite filter_cons_True|].
    rewrite filter_cons_False; [done|]. rewrite Hs. congruence.
Qed.
