(* ===== verification/QueueSend.v ===== *)
(** * Sending a command

    Inserting a command and submitting it, as deviceclass.c does, appends it
    to its queue. *)

From S2P Require Import Prelude Lists Resource Queue QueueRep QueueMem QueueInsert.
From S2P Require Import QueueInsert QueueLaw.

(** ** The abstract state after sending *)

Lemma ring_known m a r size ids : ∀ u, ring m a r size u ids → known a ids.
Proof.
  induction ids as [|i ids IH]; intros u; [by intros _ ? ?%elem_of_nil|]. intros (c&Hc&_&Hr) j [->|Hj]%elem_of_cons.
  - unfold cmd_at in Hc. apply fmap_Some in Hc as (e&He&_). by eapply lookup_lt_Some.
  - by eapply IH.
Qed.

Lemma wf_cmds_ok a ids : wf a → cmds_ok a ids.
Proof. intros Hw i c _ Hc. by apply (co_data _ _ (wf_cmd _ Hw i c Hc)). Qed.

Lemma queue_ok_send info a q c ids : queue_ok info a ids → queue_ok info (send q c a) ids.
Proof.
  intros [H1 H2 H3 H4 H5 (m&Hm&Hr)]. pose proof (ring_known _ _ _ _ _ _ Hr) as Hk.
  split; rewrite ?bytes_send; try done. exists m. split; [done|by apply ring_send].
Qed.

Lemma done_send q c a : done (send q c a) = done a.
Proof. unfold done. simpl. rewrite filter_app, filter_cons_False by done. by rewrite app_nil_r. Qed.

Lemma writes_app x l l' : writes x (l ++ l') = writes x l + writes x l'.
Proof. unfold writes. rewrite filter_app, length_app. lia. Qed.

Lemma reads_app x l l' : reads x (l ++ l') = reads x l + reads x l'.
Proof. unfold reads. rewrite filter_app, length_app. lia. Qed.

Lemma writes_one x e : writes x [e] = if decide (x ∈ ac_dst (en_cmd e)) then 1 else 0.
Proof. unfold writes. rewrite filter_cons. by case_decide. Qed.

Lemma reads_one x e : reads x [e] = if decide (x ∈ ac_src (en_cmd e)) then 1 else 0.
Proof. unfold reads. rewrite filter_cons. by case_decide. Qed.

Lemma u32_add_l x y : u32 (u32 x + y) = u32 (x + y).
Proof. unfold u32. by rewrite Z.add_mod_idemp_l. Qed.

Lemma sync_of_send q c a x : NoDup (syncs c) → sync_of (send q c a) x =
  if decide (x ∈ ac_src c) then pend true (sync_of a x)
  else if decide (x ∈ ac_dst c) then pend false (sync_of a x) else sync_of a x.
Proof.
  intros Hnd. unfold sync_of. rewrite done_send. simpl. rewrite writes_app, reads_app, writes_one, reads_one. simpl.
  unfold syncs in Hnd. apply NoDup_app in Hnd as (_&Hd&_). destruct (decide (x ∈ ac_src c)) as [Hs|Hs].
  - rewrite (decide_False (P := x ∈ ac_dst c)) by (intros H; by apply (Hd x)). unfold pend. simpl. rewrite u32_add_l. f_equal; f_equal; lia.
  - destruct (decide (x ∈ ac_dst c)); unfold pend; simpl; rewrite ?u32_add_l; f_equal; f_equal; lia.
Qed.

Lemma ticket_sent a x : ticket a (length (qa_log a)) x = (ui32WriteOpsPending (sync_of a x), ui32ReadOpsPending (sync_of a x)).
Proof. unfold ticket, sync_of. simpl. by rewrite firstn_all. Qed.

Lemma slot_of_devs a a' c : qa_devs a' = qa_devs a → slot_of a' c = slot_of a c.
Proof. unfold slot_of. by intros ->. Qed.

Lemma cmd_ok_devs a a' c : qa_devs a' = qa_devs a → qa_base a' = qa_base a → cmd_ok a c → cmd_ok a' c.
Proof. intros Hd Hb []. split; rewrite ?Hb, ?(slot_of_devs a a') by done; done. Qed.

Lemma status_send_running q c a i p : status_at (send q c a) i = Some (Running p) ↔ status_at a i = Some (Running p).
Proof.
  rewrite status_at_send. case_decide as Hi; [|done]. subst i. split; [congruence|].
  intros (e&He&_)%status_lookup. apply lookup_lt_Some in He. lia.
Qed.

Lemma busy_send q c a p : busy (send q c a) p ↔ busy a p.
Proof. unfold busy. by setoid_rewrite status_send_running. Qed.

Lemma status_length a i st : status_at a i = Some st → (i < length (qa_log a))%nat.
Proof. intros (e&He&_)%status_lookup. by eapply lookup_lt_Some. Qed.

Lemma wf_send q c a : wf a → cmd_ok a c → wf (send q c a).
Proof.
  intros [H1 H2 H3 H4] Hc. split.
  - intros i d Hi. destruct (decide (i = length (qa_log a))) as [->|Hn].
    + rewrite cmd_at_sent in Hi. injection Hi as <-. by apply (cmd_ok_devs a).
    + rewrite cmd_at_send in Hi by done. by apply (cmd_ok_devs a), (H1 i).
  - intros i j p. rewrite !status_send_running. apply H2.
  - intros i p Hi%status_send_running. pose proof (status_length _ _ _ Hi). rewrite cmd_at_send by lia.
    destruct (H3 i p Hi) as (d&sl&?&?&?). exists d, sl. by rewrite (slot_of_devs a).
  - exact H4.
Qed.

Lemma runs_send d a i c q k : (i ≤ length (qa_log a))%nat → runs d a i c → runs d (send q k a) i c.
Proof.
  intros Hi [H1 H2 H3 H4]. split; [done|done|..]; intros j x Hx; unfold sync_object; rewrite ticket_send by done; [by apply H3|by apply H4].
Qed.

Lemma devs_send s s' q c a :
  apsDeviceCommandData s' = apsDeviceCommandData s → q_devcmds s' = q_devcmds s → q_completes s' = q_completes s →
  devs_ok s a → devs_ok s' (send q c a).
Proof.
  intros Ha Hd Hc [H1 H2]. split; rewrite ?Ha, ?Hd, ?Hc; [done|].
  intros dv l t sl Hl Ht. destruct (H2 dv l t sl Hl Ht) as (d&Hd'&?&?&?&?&Hb&Hr). exists d.
  split_and!; try done; [by rewrite busy_send|]. intros i k Hi%status_send_running Hk.
  pose proof (status_length _ _ _ Hi). rewrite cmd_at_send in Hk by lia. apply runs_send; [lia|]. by apply Hr.
Qed.

(** ** Chains of queues *)

Lemma qchain_upd qs q info info' l : ∀ p,
  qs !! q = Some info → psNextKM info' = psNextKM info → qchain qs p l → qchain (<[q := info']> qs) p l.
Proof.
  induction l as [|x l IH]; intros p Hq Hn; [done|]. intros (->&Hx&i&Hi&Hc). split_and!; [done|done|].
  destruct (decide (x = q)) as [->|Hxq].
  - exists info'. rewrite lookup_insert_eq. split; [done|]. rewrite Hn. rewrite Hq in Hi. injection Hi as ->. by apply IH.
  - exists i. rewrite lookup_insert_ne by done. split; [done|by apply IH].
Qed.

(** ** A command written into the buffer *)

Lemma kept_above o n m m' k c : kept o n m m' → m !! k = Some c → o + n ≤ k → m' !! k = Some c.
Proof. intros H Hk Hn. apply H; [done|by right]. Qed.

Lemma kept_below o n m m' k c : kept o n m m' → m !! k = Some c → k + cell_size c ≤ o → m' !! k = Some c.
Proof. intros H Hk Hn. apply H; [done|by left]. Qed.

(** The header, the destinations, the sources and the header again. *)
Lemma holds_written a c w pid m m1 m2 m3 m4 S1 S2 q :
  m1 = <[w := CCommand (header c w pid)]> (clear_cells w sizeof_PVRSRV_COMMAND m) →
  NoDup (syncs c) → 0 ≤ ac_data c →
  (∀ x, x ∈ syncs c → S1 !! x = Some (sync_of a x)) →
  filled (sync_offset w 0) (ac_dst c) false m1 m2 S1 S2 →
  (∃ S3, filled (sync_offset w (length (ac_dst c))) (ac_src c) true m2 m3 S2 S3) →
  m4 = <[w := CCommand (header c w pid)]> (clear_cells w sizeof_PVRSRV_COMMAND m3) →
  kept w (cmd_size c) m m4 ∧ holds m4 (send q c a) (length (qa_log a)) c w.
Proof.
  intros H1 Hnd Hd HS [K2 Y2 C2] (S3&[K3 Y3 C3]) H4. unfold syncs in *. apply NoDup_app in Hnd as (_&Hdis&_).
  pose proof (cmd_size_cells c Hd) as Hsz. unfold syncs in Hsz. rewrite length_app in Hsz.
  assert (kept w sizeof_PVRSRV_COMMAND m m1) as K1 by (rewrite H1; apply (kept_write w (CCommand (header c w pid)) m)).
  assert (kept w sizeof_PVRSRV_COMMAND m3 m4) as K4 by (rewrite H4; apply (kept_write w (CCommand (header c w pid)) m3)).
  unfold sync_offset, sizeof_PVRSRV_COMMAND, sizeof_PVRSRV_SYNC_OBJECT in *. split; [|split].
  - eapply (kept_trans _ _ m m1); [eapply kept_weaken; [..|exact K1]; lia|].
    eapply (kept_trans _ _ m1 m2); [eapply kept_weaken; [..|exact K2]; lia|].
    eapply (kept_trans _ _ m2 m3); [eapply kept_weaken; [..|exact K3]; lia|].
    eapply kept_weaken; [..|exact K4]; lia.
  - exists pid. rewrite H4. apply lookup_insert_eq.
  - intros j x Hj. unfold sync_offset, sizeof_PVRSRV_COMMAND, sizeof_PVRSRV_SYNC_OBJECT, sync_object.
    rewrite ticket_send, ticket_sent by done. cbn [fst snd]. unfold syncs in Hj.
    apply (kept_above _ _ _ _ _ _ K4); [|lia]. apply lookup_app_Some in Hj as [Hj|[Hlen Hj]].
    + pose proof (lookup_lt_Some _ _ _ Hj). assert (x ∈ ac_dst c) by (by eapply list_elem_of_lookup_2).
      apply (kept_below _ _ _ _ _ _ K3); [|unfold cell_size, sizeof_PVRSRV_SYNC_OBJECT; lia].
      specialize (C2 j x (sync_of a x) Hj (HS x ltac:(set_solver))).
      by replace (w + 56 + Z.of_nat j * 16) with (w + 56 + Z.of_nat 0 * 16 + Z.of_nat j * 16) by lia.
    + assert (x ∈ ac_src c) as Hx by (by eapply list_elem_of_lookup_2).
      assert (S2 !! x = Some (sync_of a x)) as Hs2.
      { rewrite Y2, decide_False by (intros H; by apply (Hdis x)). apply HS. set_solver. }
      specialize (C3 _ x (sync_of a x) Hj Hs2).
      replace (w + 56 + Z.of_nat j * 16) with (w + 56 + Z.of_nat (length (ac_dst c)) * 16 + Z.of_nat (j - length (ac_dst c)) * 16) by lia.
      exact C3.
Qed.

(** ** Writing a command *)

Section send.
Context {env : QueueEnv}.

(** What [PVRSRVInsertCommandKM] writes at the write offset, and what
    [PVRSRVSubmitCommandKM] does. *)
Definition write_command (q w : Z) (c : command) : M q_st PVRSRV_ERROR :=
  pid ← gets q_pid;
  write_cell q w (CCommand (header c w pid));;
  insert_syncs q (sync_offset w 0) (ac_dst c) false;;
  insert_syncs q (sync_offset w (length (ac_dst c))) (ac_src c) true;;
  PVRSRVSubmitCommandKM q w.

Lemma header_again c w pid :
  let h := header c w pid in
  let first := w + sizeof_PVRSRV_COMMAND in
  let second := first + ui32DstSyncCount h * sizeof_PVRSRV_SYNC_OBJECT in
  mkCommand (uCmdSize h) (ui32DevIndex h) (CommandType h) (ui32DstSyncCount h) (ui32SrcSyncCount h)
    (if 0 <? ui32DstSyncCount h then first else psDstSync h) (if 0 <? ui32SrcSyncCount h then second else psSrcSync h)
    (uDataSize h) (ui32ProcessID h) (second + ui32SrcSyncCount h * sizeof_PVRSRV_SYNC_OBJECT) = h.
Proof. simpl. unfold header. f_equal; by case_match. Qed.

Lemma wp_PVRSRVSubmitCommandKM q w c pid info m Q s :
  q_queues s !! q = Some info → pvLinQueueKM info = Some m → m !! w = Some (CCommand (header c w pid)) →
  w = ui32WriteOffset info → 0 ≤ w → w + sizeof_PVRSRV_COMMAND ≤ qi_capacity info →
  Q PVRSRV_OK (set_q_queues (<[q := UPDATE_QUEUE_WOFF (cmd_size c) (set_pvLinQueueKM
     (Some (<[w := CCommand (header c w pid)]> (clear_cells w sizeof_PVRSRV_COMMAND m))) info)]> (q_queues s)) s) →
  wp (PVRSRVSubmitCommandKM q w) Q s.
Proof.
  intros Hq Hm Hh Hw Hw0 Hcap HQ. unfold PVRSRVSubmitCommandKM. wp_step. eapply wp_get_command; [exact Hq|exact Hm|exact Hh|].
  wp_step. eapply wp_get_queue; [exact Hq|]. wp_step. rewrite <- Hw. rewrite (header_again c w pid).
  eapply wp_write_cell; [exact Hq|exact Hm|exact Hw0|exact Hcap|].
  wp_step. eapply wp_upd_queue; [apply lookup_insert_eq|]. wp_step. unfold with_buffer, set_q_queues in *. simpl in *.
  by rewrite insert_insert_eq.
Qed.

(** The state after a command was written and submitted. *)
Definition submitted (q : Z) (info : PVRSRV_QUEUE_INFO) (c : command) (m : gmap Z cell) (S : gmap Z PVRSRV_SYNC_DATA) (s : q_st) : q_st :=
  set_q_syncs S (set_q_queues (<[q := UPDATE_QUEUE_WOFF (cmd_size c) (set_pvLinQueueKM (Some m) info)]> (q_queues s)) s).

Lemma with_buffer_again q info m1 m2 s :
  with_buffer q (set_pvLinQueueKM (Some m1) info) m2 (with_buffer q info m1 s) = with_buffer q info m2 s.
Proof. unfold with_buffer, set_q_queues. simpl. by rewrite insert_insert_eq. Qed.

Lemma with_buffer_syncs q info m S s : with_buffer q info m (set_q_syncs S s) = set_q_syncs S (with_buffer q info m s).
Proof. done. Qed.

Lemma set_q_syncs_again S1 S2 s : set_q_syncs S2 (set_q_syncs S1 s) = set_q_syncs S2 s.
Proof. done. Qed.

Lemma submitted_buffer q info c m m1 S s :
  set_q_queues (<[q := UPDATE_QUEUE_WOFF (cmd_size c) (set_pvLinQueueKM (Some m) (set_pvLinQueueKM (Some m1) info))]>
    (q_queues (set_q_syncs S (with_buffer q info m1 s)))) (set_q_syncs S (with_buffer q info m1 s)) = submitted q info c m S s.
Proof. unfold submitted, with_buffer, set_q_syncs, set_q_queues. simpl. f_equal. by rewrite insert_insert_eq. Qed.

Lemma wp_write_command s a q c info m w :
  q_queues s !! q = Some info → pvLinQueueKM info = Some m → w = ui32WriteOffset info → 0 ≤ w →
  w + cmd_size c ≤ qi_capacity info → 0 ≤ ac_data c → NoDup (syncs c) →
  (∀ x, x ∈ syncs c → q_syncs s !! x = Some (sync_of a x)) →
  wp (write_command q w c) (λ e s', e = PVRSRV_OK ∧ ∃ m' S',
    s' = submitted q info c m' S' s ∧ kept w (cmd_size c) m m' ∧ holds m' (send q c a) (length (qa_log a)) c w ∧
    ∀ x, S' !! x = if decide (x ∈ ac_src c) then pend true <$> q_syncs s !! x
                   else if decide (x ∈ ac_dst c) then pend false <$> q_syncs s !! x else q_syncs s !! x) s.
Proof.
  intros Hq Hm Hw Hw0 Hcap Hd Hnd HS. pose proof (cmd_size_cells c Hd) as Hsz. unfold syncs in Hsz. rewrite length_app in Hsz.
  unfold write_command. wp_step. wp_step. set (pid := q_pid s). set (h := header c w pid).
  wp_step. eapply wp_write_cell; [exact Hq|exact Hm|done|unfold cell_size, sizeof_PVRSRV_COMMAND, sizeof_PVRSRV_SYNC_OBJECT in *; lia|].
  set (m1 := <[w := _]> _). set (s1 := with_buffer q info m1 s). pose proof Hnd as Hnd'. apply NoDup_app in Hnd' as (Hnd1&Hdis&Hnd2).
  wp_step. eapply wp_mono.
  { apply (wp_insert_syncs q false (ac_dst c) (sync_offset w 0) (set_pvLinQueueKM (Some m1) info) m1 s1).
    - apply lookup_insert_eq.
    - done.
    - unfold sync_offset, sizeof_PVRSRV_COMMAND, sizeof_PVRSRV_SYNC_OBJECT. lia.
    - unfold sync_offset, sizeof_PVRSRV_COMMAND, sizeof_PVRSRV_SYNC_OBJECT in *. simpl. lia.
    - done.
    - intros x Hx. simpl. rewrite (HS x); [eauto|set_solver]. }
  intros [] s2 (m2&S2&F2&->). change (q_syncs s1) with (q_syncs s) in F2. unfold s1. rewrite with_buffer_again. clear s1. set (s2 := set_q_syncs S2 (with_buffer q info m2 s)).
  assert (∀ x, x ∈ ac_src c → S2 !! x = q_syncs s !! x) as HS2.
  { intros x Hx. rewrite (fi_syncs _ _ _ _ _ _ _ F2), decide_False; [done|]. intros H. by apply (Hdis x). }
  wp_step. eapply wp_mono.
  { apply (wp_insert_syncs q true (ac_src c) (sync_offset w (length (ac_dst c))) (set_pvLinQueueKM (Some m2) info) m2 s2).
    - simpl. by rewrite lookup_insert_eq.
    - done.
    - unfold sync_offset, sizeof_PVRSRV_COMMAND, sizeof_PVRSRV_SYNC_OBJECT. lia.
    - unfold sync_offset, sizeof_PVRSRV_COMMAND, sizeof_PVRSRV_SYNC_OBJECT in *. simpl. lia.
    - done.
    - intros x Hx. simpl. rewrite HS2, (HS x) by set_solver. eauto. }
  intros [] s3 (m3&S3&F3&->). change (q_syncs s2) with S2 in F3. unfold s2. rewrite with_buffer_syncs, with_buffer_again, set_q_syncs_again. clear s2.
  assert (m3 !! w = Some (CCommand h)) as Hh.
  { destruct F2 as [K2 _ _], F3 as [K3 _ _]. unfold sync_offset, sizeof_PVRSRV_COMMAND, sizeof_PVRSRV_SYNC_OBJECT in *.
    apply (kept_below _ _ _ _ _ _ K3); [|unfold cell_size, sizeof_PVRSRV_COMMAND; lia].
    apply (kept_below _ _ _ _ _ _ K2); [|unfold cell_size, sizeof_PVRSRV_COMMAND; lia]. apply lookup_insert_eq. }
  eapply (wp_PVRSRVSubmitCommandKM q w c pid (set_pvLinQueueKM (Some m3) info) m3); [|done|exact Hh|exact Hw|exact Hw0| |].
  { simpl. by rewrite lookup_insert_eq. }
  { simpl. unfold sizeof_PVRSRV_COMMAND, sizeof_PVRSRV_SYNC_OBJECT in *. lia. }
  split; [done|]. eexists _, S3.
  destruct (holds_written a c w pid m m1 m2 m3 _ (q_syncs s) S2 q eq_refl Hnd Hd HS F2 (ex_intro _ S3 F3) eq_refl) as [Hk Hho].
  split_and!; [|exact Hk|exact Hho|].
  - apply submitted_buffer.
  - intros x. rewrite (fi_syncs _ _ _ _ _ _ _ F3). destruct (decide (x ∈ ac_src c)) as [Hx|Hx]; [by rewrite HS2|].
    by rewrite (fi_syncs _ _ _ _ _ _ _ F2).
Qed.

(** The command at the end of its queue. *)
Lemma queue_ok_append info a q c ids m m' :
  wf a → queue_ok info a ids → pvLinQueueKM info = Some m → cmd_ok a c → cmd_size c < GET_SPACE_IN_CMDQ info →
  kept (ui32WriteOffset info) (cmd_size c) m m' → holds m' (send q c a) (length (qa_log a)) c (ui32WriteOffset info) →
  queue_ok (UPDATE_QUEUE_WOFF (cmd_size c) (set_pvLinQueueKM (Some m') info)) (send q c a) (ids ++ [length (qa_log a)]).
Proof.
  intros Hwf [H1 H2 H3 H4 H5 (m0&Hm0&Hr)] Hm Hc Hspace Hk Hh. rewrite Hm in Hm0. injection Hm0 as <-.
  pose proof (ring_known _ _ _ _ _ _ Hr) as Hkn. pose proof (wf_cmds_ok a ids Hwf) as Hok. pose proof (bytes_nonneg a ids Hok) as Hb0.
  pose proof (cmd_size_pos c (proj1 (co_data _ _ Hc))) as Hpos.
  rewrite (get_space info (bytes a ids)) in Hspace by (done || lia). destruct H1 as (k&Hk31&Hk2).
  assert (bytes (send q c a) (ids ++ [length (qa_log a)]) = bytes a ids + cmd_size c) as Hbytes.
  { rewrite ids_bytes_app, bytes_send by done. rewrite ids_bytes_cons, cmd_at_sent. simpl. unfold bytes. simpl. lia. }
  split; rewrite ?Hbytes; simpl; [by exists k|done|done|lia|..].
  - rewrite Hk2, (advance k) by done. rewrite H5, Hk2, Z.add_mod_idemp_l; [f_equal; lia|]. pose proof (pow_bounds k Hk31). lia.
  - exists m'. split; [done|]. apply cmds_ring_app with (c := c).
    + apply ring_send; [done|]. eapply ring_kept; [rewrite H5 in Hk; exact Hk|done|done|lia|..|exact Hr]; lia.
    + apply cmd_at_sent.
    + rewrite bytes_send by done. by rewrite Z.add_0_l, <- H5.
Qed.

Lemma submitted_rep s a q c info m m' S' :
  rep s a → cmd_ok a c → q_queues s !! q = Some info → pvLinQueueKM info = Some m → cmd_size c < GET_SPACE_IN_CMDQ info →
  kept (ui32WriteOffset info) (cmd_size c) m m' → holds m' (send q c a) (length (qa_log a)) c (ui32WriteOffset info) →
  (∀ x, S' !! x = if decide (x ∈ ac_src c) then pend true <$> q_syncs s !! x
                  else if decide (x ∈ ac_dst c) then pend false <$> q_syncs s !! x else q_syncs s !! x) →
  rep (submitted q info c m' S' s) (send q c a).
Proof.
  intros [(qc&[R1 R2 R3 R4 R5 R6]&Hw&Hlive&Hdom) Hlock Hpos] Hc Hq Hm Hspace Hk Hh HS.
  destruct (Hdom q ltac:(eauto)) as [[ids Hids] _].
  destruct (R1 q ids Hids) as (info0&Hinfo0&Hqok). rewrite Hq in Hinfo0. injection Hinfo0 as <-.
  split; [|done|done]. exists (<[q := ids ++ [length (qa_log a)]]> qc). split_and!; [split|..].
  - intros q' ids' [[<- <-]|[Hne Hq']]%lookup_insert_Some; simpl.
    + eexists. rewrite lookup_insert_eq. split; [done|]. by eapply queue_ok_append.
    + destruct (R1 q' ids' Hq') as (i'&Hi'&Hok'). exists i'. rewrite lookup_insert_ne by done. split; [done|by apply queue_ok_send].
  - destruct R2 as (Hch&Hnd&Hin). simpl. split_and!; [by eapply qchain_upd|done|].
    intros q'. rewrite Hin, lookup_insert_is_Some'. naive_solver.
  - intros x Hx. simpl. rewrite HS, (R3 x Hx), sync_of_send by apply Hc. simpl.
    repeat case_decide; done.
  - by apply (devs_send s).
  - done.
  - by apply wf_send.
  - intros q' ids' [[<- <-]|[Hne Hq']]%lookup_insert_Some; rewrite waiting_send.
    + rewrite decide_True by done. by rewrite <- (Hw q ids).
    + rewrite decide_False by done. rewrite app_nil_r. by apply Hw.
  - intros i q'. rewrite status_at_send, lookup_insert_is_Some'. case_decide; [intros [= <-]; by left|]. intros Hi. right. by eapply Hlive.
  - intros q'. simpl. rewrite !lookup_insert_is_Some'. intros [<-|Hq'].
    + split; [by left|]. apply Hdom. eauto.
    + destruct (Hdom q' Hq'). split; [by right|done].
Qed.
End send.

(** ** Sending *)

(** The requested size, rounded up. *)
Lemma round_up y : is_u32 y → Z.land y 4294967292 = 4 * (y / 4).
Proof.
  intros Hy. apply Z.bits_inj'. intros n Hn. rewrite Z.land_spec.
  change 4294967292 with (Z.shiftl (Z.ones 30) 2). replace (4 * (y / 4)) with (Z.shiftl (Z.shiftr y 2) 2).
  2:{ rewrite Z.shiftl_mul_pow2, Z.shiftr_div_pow2 by done. change (2 ^ 2) with 4. lia. }
  rewrite !Z.shiftl_spec by done. destruct (Z.lt_ge_cases n 2).
  - rewrite !(Z.testbit_neg_r _ (n - 2)) by lia. by rewrite andb_false_r.
  - rewrite Z.shiftr_spec by lia. replace (n - 2 + 2) with n by lia. destruct (Z.lt_ge_cases n 32).
    + rewrite Z.ones_spec_low by lia. by rewrite andb_true_r.
    + assert (Z.testbit y n = false) as ->; [|done]. apply Z.bits_above_log2; [unfold is_u32 in Hy; lia|].
      destruct (Z.eq_dec y 0) as [->|Hy0]; [simpl; lia|]. apply Z.log2_lt_pow2; [unfold is_u32 in Hy; lia|].
      assert (2 ^ 32 ≤ 2 ^ n) by (apply Z.pow_le_mono_r; lia). unfold is_u32 in Hy. lia.
Qed.

Section send_command.
Context {env : QueueEnv} {refusal : Refusal} {law : QueueLaw}.

(** A command inserted and submitted; its data is [n] bytes. *)
Definition send_command (q dev type : Z) (dst src : list Z) (n : Z) : M q_st PVRSRV_ERROR :=
  r ← PVRSRVInsertCommandKM q dev type dst src n;
  match r with
  | (e, None) => mret e
  | (_, Some psCommand) => PVRSRVSubmitCommandKM q psCommand
  end.

(** What waiting keeps. *)
Definition waits (a : q_abs) (q : Z) (s : q_st) : Prop :=
  ∃ a', evolves a a' ∧ rep s a' ∧ is_Some (q_queues s !! q).

Lemma rep_time s a t : rep s a → rep (set_q_time t s) a.
Proof.
  intros [(qc&[R1 R2 R3 R4 R5 R6]&H1&H2&H3) HL HP]. split; [|done|done]. exists qc. split_and!; [split|..]; try done. by destruct R4.
Qed.

Lemma wp_sleep a q s : waits a q s →
  wp (OSSleepms 1) (λ _ s', waits a q s' ∧ q_time s + 1000 ≤ q_time s' ≤ q_time s + MAX_SLEEP) s.
Proof.
  intros (a1&He&Hr&Hq). unfold OSSleepms. wp_step. wp_step. eapply wp_mono.
  - apply (law_sleep _ a1). by apply rep_time.
  - simpl. intros [] s' (a2&He2&Hr2&Ht&Hqs). unfold MAX_SLEEP. split; [|lia]. exists a2. split_and!; [by eapply evolves_trans|done|].
    by apply Hqs.
Qed.

Lemma wp_wait_for_space a q n s :
  waits a q s →
  wp (LOOP_UNTIL_TIMEOUT MAX_HW_TIME_US (
        i ← get_queue q; if n <? GET_SPACE_IN_CMDQ i then mret true else OSSleepms 1;; mret false))
    (λ b s', waits a q s' ∧ if b : bool then ∃ info, q_queues s' !! q = Some info ∧ n < GET_SPACE_IN_CMDQ info
                            else q_time s + MAX_HW_TIME_US ≤ q_time s') s.
Proof.
  apply (wp_LOOP_UNTIL_TIMEOUT MAX_HW_TIME_US).
  - unfold MAX_HW_TIME_US. lia.
  - intros s1 Hw. pose proof Hw as (a1&He&Hr&[info Hq]). wp_step. eapply wp_get_queue; [exact Hq|].
    destruct (Z.ltb_spec n (GET_SPACE_IN_CMDQ info)).
    + wp_step. split; [done|]. by exists info.
    + wp_step. eapply wp_mono; [by apply (wp_sleep a q)|]. intros [] s2 [Hw2 Ht]. by apply wp_ret.
Qed.

Definition rounded (n : Z) : Z := 4 * ((n + 3) / 4).

Lemma rounded_mod n : rounded n mod 4 = 0.
Proof. unfold rounded. rewrite Z.mul_comm. by apply Z.mod_mul. Qed.

Lemma insert_size c n : ac_data c = rounded n → 0 ≤ n < 2147483648 → Z.of_nat (length (syncs c)) < 65536 →
  u32 (4 * ((n + 3) / 4)) = ac_data c ∧
  u32 (sizeof_PVRSRV_COMMAND + u32 (Z.of_nat (length (ac_dst c)) + Z.of_nat (length (ac_src c))) * sizeof_PVRSRV_SYNC_OBJECT + ac_data c)
    = cmd_size c ∧
  Z.land (u32 (cmd_size c + 3)) 4294967292 = cmd_size c.
Proof.
  intros Hd Hn Hl. assert (0 ≤ ac_data c ≤ n + 3) as Hb.
  { rewrite Hd. unfold rounded. pose proof (Z.mul_div_le (n + 3) 4 ltac:(lia)). pose proof (Z.div_pos (n + 3) 4 ltac:(lia) ltac:(lia)). lia. }
  assert (cmd_size c = 56 + Z.of_nat (length (syncs c)) * 16 + ac_data c) as Hs by done.
  assert (cmd_size c mod 4 = 0) as Hm.
  { rewrite Hs, Hd. unfold rounded. replace (56 + Z.of_nat (length (syncs c)) * 16 + 4 * ((n + 3) / 4))
      with ((14 + Z.of_nat (length (syncs c)) * 4 + (n + 3) / 4) * 4) by lia. by apply Z.mod_mul. }
  unfold syncs in *. rewrite length_app in *. split_and!.
  - fold (rounded n). rewrite <- Hd. apply u32_small. unfold is_u32. lia.
  - rewrite (u32_small (Z.of_nat (length (ac_dst c)) + _)) by (unfold is_u32; lia). rewrite u32_small.
    + rewrite Hs. unfold sizeof_PVRSRV_COMMAND, sizeof_PVRSRV_SYNC_OBJECT. lia.
    + unfold is_u32, sizeof_PVRSRV_COMMAND, sizeof_PVRSRV_SYNC_OBJECT. lia.
  - rewrite u32_small by (unfold is_u32; lia). rewrite round_up by (unfold is_u32; lia).
    clear -Hm. pose proof (Z.div_mod (cmd_size c) 4). pose proof (Z.div_mod (cmd_size c + 3) 4).
    pose proof (Z.mod_pos_bound (cmd_size c + 3) 4). lia.
Qed.

(** What is left of an insertion once there is space, and the submission. *)
Lemma wp_insert_tail q w c Q s :
  wp (write_command q w c) Q s →
  wp (pid ← gets q_pid;
      write_cell q w (CCommand (header c w pid));;
      insert_syncs q (w + sizeof_PVRSRV_COMMAND) (ac_dst c) false;;
      insert_syncs q (w + sizeof_PVRSRV_COMMAND + Z.of_nat (length (ac_dst c)) * sizeof_PVRSRV_SYNC_OBJECT) (ac_src c) true;;
      mret (PVRSRV_OK, Some w))
    (λ r, wp (match r with (e, None) => mret e | (_, Some psCommand) => PVRSRVSubmitCommandKM q psCommand end) Q) s.
Proof.
  unfold write_command. intros H. replace (sync_offset w 0) with (w + sizeof_PVRSRV_COMMAND) in H by (unfold sync_offset; lia).
  apply wp_bind_inv in H. wp_step. eapply wp_mono; [exact H|]. clear H. intros pid s1 H.
  apply wp_bind_inv in H. wp_step. eapply wp_mono; [exact H|]. clear H. intros [] s2 H.
  apply wp_bind_inv in H. wp_step. eapply wp_mono; [exact H|]. clear H. intros [] s3 H.
  apply wp_bind_inv in H. wp_step. eapply wp_mono; [exact H|]. clear H. intros [] s4 H.
  apply wp_ret. exact H.
Qed.

Lemma wp_send_command s a q c n :
  rep s a → is_Some (q_queues s !! q) → ac_data c = rounded n → 0 ≤ n < 2147483648 → Z.of_nat (length (syncs c)) < 65536 →
  (cmd_size c ≤ PVRSRV_MAX_CMD_SIZE → cmd_ok a c) →
  wp (send_command q (ac_dev c) (ac_type c) (ac_dst c) (ac_src c) n) (λ e s',
    (PVRSRV_MAX_CMD_SIZE < cmd_size c ∧ e = PVRSRV_ERROR_CMD_TOO_BIG ∧ s' = s) ∨
    ∃ a1, evolves a a1 ∧
      ((e = PVRSRV_OK ∧ cmd_ok a c ∧ rep s' (send q c a1)) ∨
       (e = PVRSRV_ERROR_CANNOT_GET_QUEUE_SPACE ∧ q_time s + MAX_HW_TIME_US ≤ q_time s' ∧ rep s' a1))) s.
Proof.
  intros Hr Hq Hd Hn Hl Hok. destruct (insert_size c n Hd Hn Hl) as (E1&E2&E3).
  unfold send_command, PVRSRVInsertCommandKM. rewrite E1, E2. wp_step. wp_step.
  unfold PVRSRVGetQueueSpaceKM. rewrite E3. destruct (Z.ltb_spec PVRSRV_MAX_CMD_SIZE (cmd_size c)) as [Hbig|Hsize].
  { wp_step. wp_step. wp_step. left. done. }
  specialize (Hok Hsize). wp_step. eapply wp_mono.
  { apply (wp_wait_for_space a q (cmd_size c)). exists a. split_and!; [constructor|done|done]. }
  intros [] s1 [(a1&He&Hr1&Hq1) Hb]; cbn [negb].
  - destruct Hb as (info&Hinfo&Hspace). pose proof (evolves_log _ _ He) as [_ _ Hbase Hdevs].
    assert (cmd_ok a1 c) as Hok1 by (by apply (cmd_ok_devs a)).
    destruct Hr1 as [(qc&HR&Hw1&Hlive&Hdom) HL HP]. destruct (Hdom q Hq1) as [[ids Hids] _].
    destruct (qr_queue _ _ _ HR q ids Hids) as (i0&Hi0&Hqok). rewrite Hinfo in Hi0. injection Hi0 as <-.
    destruct (qo_ring _ _ _ Hqok) as (m&Hm&_).
    assert (rep s1 a1) as Hr1 by (split; [exists qc; split_and!|..]; done).
    wp_step. eapply wp_get_queue; [exact Hinfo|]. wp_step. set (w := ui32WriteOffset info).
    assert (wp (write_command q w c) (λ e s', e = PVRSRV_OK ∧ rep s' (send q c a1)) s1) as Hwrite.
    { eapply wp_mono; [apply (wp_write_command s1 a1 q c info m w Hinfo Hm eq_refl)|].
      - destruct (qo_size _ _ _ Hqok) as (k&Hk&Hsz). pose proof (pow_bounds k Hk). unfold w. rewrite (qo_write _ _ _ Hqok).
        pose proof (Z.mod_pos_bound (ui32ReadOffset info + bytes a1 ids) (ui32QueueSize info)). lia.
      - rewrite (qo_capacity _ _ _ Hqok). unfold w. rewrite (qo_write _ _ _ Hqok). destruct (qo_size _ _ _ Hqok) as (k&Hk&Hsz).
        pose proof (pow_bounds k Hk). pose proof (Z.mod_pos_bound (ui32ReadOffset info + bytes a1 ids) (ui32QueueSize info)). lia.
      - apply Hok1.
      - apply Hok1.
      - intros x Hx. apply (qr_sync _ _ _ HR). by apply (co_syncs _ _ Hok1).
      - intros e s' (->&m'&S'&->&Hk&Hh&HS). split; [done|]. by eapply submitted_rep. }
    eapply wp_insert_tail, wp_mono; [exact Hwrite|]. intros e s' [-> Hr']. right. exists a1. split; [done|by left].
  - do 3 wp_step. right. exists a1. split; [done|]. by right.
Qed.
End send_command.
