(* ===== verification/QueueRun.v ===== *)
(** * Running and completing a command, abstractly

    The representation follows a command from waiting to running to
    completed. *)

From S2P Require Import Prelude Lists Resource Queue QueueRep QueueMem QueueInsert.
From S2P Require Import QueueInsert QueueLaw QueueSend.

(** ** Counting *)

Lemma count_done (P : command → Prop) `{∀ c, Decision (P c)} st l : ∀ i e,
  l !! i = Some e → en_status e ≠ Completed →
  length (filter (λ e, P (en_cmd e)) (filter (λ e, en_status e = Completed) (alter (λ e, mkEntry (en_cmd e) st) i l))) =
  (length (filter (λ e, P (en_cmd e)) (filter (λ e, en_status e = Completed) l)) +
   (if decide (st = Completed ∧ P (en_cmd e)) then 1 else 0))%nat.
Proof.
  induction l as [|x l IH]; intros [|i] e; [done|done|..].
  - intros [= ->] He. change (alter (λ e, mkEntry (en_cmd e) st) 0%nat (e :: l)) with (mkEntry (en_cmd e) st :: l).
    rewrite (filter_cons (λ e, en_status e = Completed) e), (decide_False (P := en_status e = Completed)) by done.
    rewrite filter_cons. cbn [en_status]. destruct (decide (st = Completed)) as [Hst|Hst].
    + rewrite filter_cons. cbn [en_cmd]. destruct (decide (P (en_cmd e))); cbn [length].
      * rewrite decide_True by done. lia.
      * rewrite decide_False by tauto. lia.
    + rewrite decide_False by tauto. lia.
  - intros Hi He. change (alter (λ e, mkEntry (en_cmd e) st) (S i) (x :: l)) with (x :: alter (λ e, mkEntry (en_cmd e) st) i l).
    specialize (IH i e Hi He). rewrite !(filter_cons (λ e, en_status e = Completed) x). destruct (decide (en_status x = Completed)); [|done].
    rewrite !filter_cons. destruct (decide (P (en_cmd x))); cbn [length]; rewrite IH; lia.
Qed.

Lemma writes_done x st i a e : qa_log a !! i = Some e → en_status e ≠ Completed →
  writes x (done (set_status i st a)) = writes x (done a) + (if decide (st = Completed ∧ x ∈ ac_dst (en_cmd e)) then 1 else 0).
Proof.
  intros He Hst. unfold writes, done. simpl.
  rewrite (@count_done (λ c, x ∈ ac_dst c) (λ c, decide_rel (∈) x (ac_dst c)) st _ i e He Hst).
  rewrite Nat2Z.inj_add. f_equal. repeat case_decide; tauto.
Qed.

Lemma reads_done x st i a e : qa_log a !! i = Some e → en_status e ≠ Completed →
  reads x (done (set_status i st a)) = reads x (done a) + (if decide (st = Completed ∧ x ∈ ac_src (en_cmd e)) then 1 else 0).
Proof.
  intros He Hst. unfold reads, done. simpl.
  rewrite (@count_done (λ c, x ∈ ac_src c) (λ c, decide_rel (∈) x (ac_src c)) st _ i e He Hst).
  rewrite Nat2Z.inj_add. f_equal. repeat case_decide; tauto.
Qed.

(** Starting, or taking back, leaves the counts. *)
Lemma sync_of_run i st0 st a x : status_at a i = Some st0 → st0 ≠ Completed → st ≠ Completed →
  sync_of (set_status i st a) x = sync_of a x.
Proof.
  intros (e&He&Hst)%status_lookup H0 H1. unfold sync_of. simpl.
  rewrite (writes_done x st i a e), (reads_done x st i a e) by (done || congruence).
  rewrite !decide_False by tauto. rewrite writes_alter, reads_alter, !Z.add_0_r. done.
Qed.

(** Completing counts its destinations as written, its sources as read. *)
Lemma sync_of_complete i p c a x : status_at a i = Some (Running p) → cmd_at a i = Some c → NoDup (syncs c) →
  sync_of (set_status i Completed a) x =
    if decide (x ∈ ac_src c) then read_complete (sync_of a x)
    else if decide (x ∈ ac_dst c) then write_complete (sync_of a x) else sync_of a x.
Proof.
  intros (e&He&Hst)%status_lookup Hc Hnd. unfold cmd_at in Hc. rewrite He in Hc. simpl in Hc. injection Hc as Hec. subst c.
  unfold sync_of. simpl. rewrite (writes_done x Completed i a e), (reads_done x Completed i a e) by (done || congruence).
  rewrite writes_alter, reads_alter. apply NoDup_app in Hnd as (_&Hd&_). destruct (decide (x ∈ ac_src (en_cmd e))) as [Hs|Hs].
  - rewrite (decide_False (P := Completed = Completed ∧ x ∈ ac_dst (en_cmd e))) by (intros [_ H]; by apply (Hd x)).
    rewrite decide_True by done. unfold read_complete. simpl. rewrite u32_add_l. f_equal; f_equal; lia.
  - rewrite (decide_False (P := Completed = Completed ∧ x ∈ ac_src (en_cmd e))) by tauto.
    destruct (decide (x ∈ ac_dst (en_cmd e))) as [Hw|Hw].
    + rewrite decide_True by done. unfold write_complete. simpl. rewrite u32_add_l. f_equal; f_equal; lia.
    + rewrite decide_False by tauto. by rewrite !Z.add_0_r.
Qed.

(** ** Well-formedness *)

Lemma wf_start a i q p : wf a → status_at a i = Some (Waiting q) → ¬ busy a p →
  (∃ c sl, cmd_at a i = Some c ∧ slot_of a c = Some sl ∧ sl_cookie sl = p) → wf (set_status i (Running p) a).
Proof.
  intros [H1 H2 H3 H4] Hi Hb Hc. destruct (status_lookup _ _ _ Hi) as (e&He&_). split.
  - intros j d. rewrite cmd_at_set. intros Hd. by apply (cmd_ok_devs a), (H1 j).
  - intros j k p'. rewrite !(status_at_set _ _ _ _ _ He). repeat case_decide; subst; try done.
    + intros [= <-] Hk. destruct Hb. by exists k.
    + intros Hj [= <-]. destruct Hb. by exists j.
    + apply H2.
  - intros j p'. rewrite (status_at_set _ _ _ _ _ He), cmd_at_set. case_decide; [subst j; intros [= <-]; exact Hc|]. apply H3.
  - exact H4.
Qed.

Lemma wf_stop a i p st : wf a → status_at a i = Some (Running p) → (∀ p', st ≠ Running p') → wf (set_status i st a).
Proof.
  intros [H1 H2 H3 H4] Hi Hst. destruct (status_lookup _ _ _ Hi) as (e&He&_). split.
  - intros j d. rewrite cmd_at_set. intros Hd. by apply (cmd_ok_devs a), (H1 j).
  - intros j k p'. rewrite !(status_at_set _ _ _ _ _ He). repeat case_decide; subst; try done; try (by intros [= ->]; destruct (Hst p')).
    + by intros _ [= ->]; destruct (Hst p').
    + apply H2.
  - intros j p'. rewrite (status_at_set _ _ _ _ _ He), cmd_at_set. case_decide; [intros [= ->]; by destruct (Hst p')|]. apply H3.
  - exact H4.
Qed.

Lemma busy_start a i q p p' : status_at a i = Some (Waiting q) → busy (set_status i (Running p) a) p' ↔ p' = p ∨ busy a p'.
Proof.
  intros Hi. destruct (status_lookup _ _ _ Hi) as (e&He&_). unfold busy. split.
  - intros (j&Hj). rewrite (status_at_set _ _ _ _ _ He) in Hj. case_decide; [left; congruence|right; eauto].
  - intros [->|(j&Hj)].
    + exists i. by rewrite (status_at_set _ _ _ _ _ He), decide_True.
    + exists j. rewrite (status_at_set _ _ _ _ _ He), decide_False; [done|]. intros ->. congruence.
Qed.

Lemma busy_stop a i p st p' : wf a → status_at a i = Some (Running p) → (∀ k, st ≠ Running k) →
  busy (set_status i st a) p' ↔ p' ≠ p ∧ busy a p'.
Proof.
  intros Hw Hi Hst. destruct (status_lookup _ _ _ Hi) as (e&He&_). unfold busy. split.
  - intros (j&Hj). rewrite (status_at_set _ _ _ _ _ He) in Hj. case_decide as Hji; [injection Hj as ->; by destruct (Hst p')|].
    split; [|eauto]. intros ->. apply Hji. by apply (wf_one _ Hw j i p).
  - intros (Hp&j&Hj). exists j. rewrite (status_at_set _ _ _ _ _ He), decide_False; [done|]. intros ->. congruence.
Qed.

Lemma runs_set d a i c j st : runs d a i c → runs d (set_status j st a) i c.
Proof. intros [H1 H2 H3 H4]. split; [done|done|..]; intros k x Hx; unfold sync_object; rewrite ticket_set; [by apply H3|by apply H4]. Qed.

(** ** The device tables *)

(** The cookie's data as the command starts. *)
Lemma devs_start s s' a i q c sl d d' :
  devs_ok s a → wf a → status_at a i = Some (Waiting q) → cmd_at a i = Some c → slot_of a c = Some sl → ¬ busy a (sl_cookie sl) →
  q_completes s !! sl_cookie sl = Some d → bInUse d' = true → length (cd_sync d') = length (cd_sync d) → cd_src d' = cd_src d →
  runs d' a i c →
  apsDeviceCommandData s' = apsDeviceCommandData s → q_devcmds s' = q_devcmds s →
  q_completes s' = <[sl_cookie sl := d']> (q_completes s) →
  devs_ok s' (set_status i (Running (sl_cookie sl)) a).
Proof.
  intros [H1 H2] Hw Hi Hc Hsl Hnb Hd Hu Hlen Hsrc Hrun Ea Ed Ec. destruct (status_lookup _ _ _ Hi) as (e&He&_).
  split; rewrite ?Ea, ?Ed, ?Ec; [done|]. intros dv l t sl' Hl Ht. destruct (H2 dv l t sl' Hl Ht) as (d1&Hd1&?&?&Hl1&Hs1&Hb1&Hr1).
  destruct (decide (sl_cookie sl' = sl_cookie sl)) as [Heq|Hne].
  - rewrite Heq in *. rewrite Hd in Hd1. injection Hd1 as <-. exists d'. rewrite lookup_insert_eq, Hlen, Hsrc.
    split_and!; try done.
    + rewrite Hu, busy_start by done. split; [by left|done].
    + intros j k. rewrite (status_at_set _ _ _ _ _ He), cmd_at_set. case_decide; [subst j|].
      * intros _ Hk. rewrite Hc in Hk. injection Hk as <-. by apply runs_set.
      * intros Hj. destruct Hnb. by exists j.
  - exists d1. rewrite lookup_insert_ne by done. split_and!; try done.
    + rewrite busy_start by done. rewrite Hb1. split; [by right|by intros [?|?]].
    + intros j k. rewrite (status_at_set _ _ _ _ _ He), cmd_at_set. case_decide; [intros [= Hp]; by rewrite Hp in Hne|].
      intros Hj Hk. apply runs_set. by apply Hr1.
Qed.

(** The cookie free again. *)
Lemma devs_stop s s' a i p st d :
  devs_ok s a → wf a → status_at a i = Some (Running p) → (∀ k, st ≠ Running k) →
  q_completes s !! p = Some d →
  apsDeviceCommandData s' = apsDeviceCommandData s → q_devcmds s' = q_devcmds s →
  q_completes s' = <[p := set_bInUse false d]> (q_completes s) →
  devs_ok s' (set_status i st a).
Proof.
  intros [H1 H2] Hw Hi Hst Hd Ea Ed Ec. destruct (status_lookup _ _ _ Hi) as (e&He&_).
  split; rewrite ?Ea, ?Ed, ?Ec; [done|]. intros dv l t sl Hl Ht. destruct (H2 dv l t sl Hl Ht) as (d1&Hd1&?&?&Hl1&Hs1&Hb1&Hr1).
  destruct (decide (sl_cookie sl = p)) as [Heq|Hne].
  - rewrite Heq in *. rewrite Hd in Hd1. injection Hd1 as <-. exists (set_bInUse false d). rewrite lookup_insert_eq. split_and!; try done.
    + rewrite (busy_stop a i p) by done. simpl. split; [done|]. by intros [? _].
    + intros j k Hj. destruct (proj1 (busy_stop a i p st p Hw Hi Hst) (ex_intro _ j Hj)) as [[] _]. done.
  - exists d1. rewrite lookup_insert_ne by done. split_and!; try done.
    + rewrite (busy_stop a i p) by done. rewrite Hb1. tauto.
    + intros j k. rewrite (status_at_set _ _ _ _ _ He), cmd_at_set. case_decide; [intros [= ->]; by destruct (Hst (sl_cookie sl))|].
      intros Hj Hk. apply runs_set. by apply Hr1.
Qed.

(** ** The whole representation *)

Lemma qrep_start s s' a qc i q c sl d d' :
  qrep s a qc → status_at a i = Some (Waiting q) → cmd_at a i = Some c → slot_of a c = Some sl → ¬ busy a (sl_cookie sl) →
  q_completes s !! sl_cookie sl = Some d → bInUse d' = true → length (cd_sync d') = length (cd_sync d) → cd_src d' = cd_src d →
  runs d' a i c → s' = set_q_completes (<[sl_cookie sl := d']> (q_completes s)) s →
  qrep s' (set_status i (Running (sl_cookie sl)) a) qc.
Proof.
  intros [R1 R2 R3 R4 R5 R6] Hi Hc Hsl Hnb Hd Hu Hlen Hsrc Hrun ->. split; try done.
  - intros q' ids Hq'. destruct (R1 q' ids Hq') as (info&?&?). exists info. split; [done|by apply queue_ok_set].
  - intros x Hx. rewrite (sync_of_run i (Waiting q)) by done. by apply R3.
  - by eapply (devs_start s _ a i q c sl d d').
  - eapply wf_start; [done|done|done|]. by exists c, sl.
Qed.

Lemma qrep_refuse s a qc i q p d :
  qrep s (set_status i (Running p) a) qc → status_at a i = Some (Waiting q) → wf a → q_completes s !! p = Some d →
  qrep (set_q_completes (<[p := set_bInUse false d]> (q_completes s)) s) a qc.
Proof.
  intros [R1 R2 R3 R4 R5 R6] Hi Hw Hd. destruct (status_lookup _ _ _ Hi) as (e&He&Hes).
  assert (set_status i (Waiting q) (set_status i (Running p) a) = a) as Hback.
  { unfold set_status. destruct a as [lg b dv]. simpl in *. f_equal. apply list_eq. intros j. destruct (decide (j = i)) as [->|Hj].
    - rewrite !list_lookup_alter_eq, He. simpl. f_equal. destruct e. simpl in *. by subst.
    - by rewrite !list_lookup_alter_ne. }
  assert (status_at (set_status i (Running p) a) i = Some (Running p)) as Hr by (by rewrite (status_at_set _ _ _ _ _ He), decide_True).
  split; try done.
  - intros q' ids Hq'. destruct (R1 q' ids Hq') as (info&?&Hok). exists info. split; [done|]. rewrite <- Hback. by apply queue_ok_set.
  - intros x Hx. simpl. rewrite (R3 x Hx). by rewrite (sync_of_run i (Waiting q)).
  - rewrite <- Hback. by eapply devs_stop.
Qed.
