(* ===== verification/QueueProcess.v ===== *)
(** * Processing and completing commands

    PVRSRVProcessCommand starts a command that is ready; PVRSRVProcessQueues
    drains the queues; PVRSRVCommandCompleteKM completes a running command. *)

From S2P Require Import Prelude Lists Resource Queue QueueRep QueueMem QueueInsert.
From S2P Require Import QueueInsert QueueLaw QueueSend QueueRun.

Section process.
Context {env : QueueEnv} {refusal : Refusal} {law : QueueLaw}.

(** ** Steps *)

Lemma wp_get_complete p d Q s : q_completes s !! p = Some d → Q d s → wp (get_complete p) Q s.
Proof. intros H HQ. unfold get_complete. wp_step. wp_step. rewrite H. by apply wp_ret. Qed.

Lemma wp_upd_complete p d f Q s :
  q_completes s !! p = Some d → Q tt (set_q_completes (<[p := f d]> (q_completes s)) s) → wp (upd_complete p f) Q s.
Proof. intros H HQ. unfold upd_complete. wp_step. eapply wp_get_complete; [done|]. by wp_step. Qed.

(** The objects of the list [xs] from offset [o] on. *)
Definition objects (m : gmap Z cell) (a : q_abs) (i : nat) (o : Z) (xs : list Z) : Prop :=
  ∀ j x, xs !! j = Some x → m !! (o + Z.of_nat j * sizeof_PVRSRV_SYNC_OBJECT) = Some (CSync (sync_object a i x)).

Lemma objects_tail m a i o x xs : objects m a i o (x :: xs) → objects m a i (o + sizeof_PVRSRV_SYNC_OBJECT) xs.
Proof.
  intros H j y Hj. specialize (H (S j) y Hj). rewrite Nat2Z.inj_succ, Z.mul_succ_l in H.
  by replace (o + sizeof_PVRSRV_SYNC_OBJECT + Z.of_nat j * sizeof_PVRSRV_SYNC_OBJECT)
    with (o + (Z.of_nat j * sizeof_PVRSRV_SYNC_OBJECT + sizeof_PVRSRV_SYNC_OBJECT)) by lia.
Qed.

Lemma objects_head m a i o x xs : objects m a i o (x :: xs) → m !! o = Some (CSync (sync_object a i x)).
Proof. intros H. specialize (H 0%nat x eq_refl). by rewrite Z.mul_0_l, Z.add_0_r in H. Qed.

Lemma wp_syncs_ready q info m a i fl s xs : ∀ o,
  q_queues s !! q = Some info → pvLinQueueKM info = Some m → objects m a i o xs →
  (∀ x, x ∈ xs → q_syncs s !! x = Some (sync_of a x)) →
  wp (syncs_ready q o (length xs) fl)
    (λ b s', b = forallb (λ x, passes fl (sync_of a x) (ticket a i x)) xs ∧ s' = s) s.
Proof.
  induction xs as [|x xs IH]; intros o Hq Hm Ho Hx; cbn [length syncs_ready]; [by apply wp_ret|].
  wp_step. eapply wp_get_sync_object; [exact Hq|exact Hm|by eapply objects_head|].
  wp_step. eapply wp_get_sync; [apply Hx; by left|]. cbn [sync_object so_ui32WriteOpsPending so_ui32ReadOpsPending forallb].
  unfold passes at 1. destruct (_ && _); simpl; [by apply wp_ret|].
  apply IH; [done|done|by eapply objects_tail|]. intros y Hy. apply Hx. by right.
Qed.

(** [d] with the objects [xs] in its array from element [k] on. *)
Definition copied (d d' : COMMAND_COMPLETE_DATA) (a : q_abs) (i k : nat) (xs : list Z) : Prop :=
  bInUse d' = bInUse d ∧ cd_ui32DstSyncCount d' = cd_ui32DstSyncCount d ∧ cd_ui32SrcSyncCount d' = cd_ui32SrcSyncCount d ∧
  cd_src d' = cd_src d ∧ length (cd_sync d') = length (cd_sync d) ∧
  (∀ j x, xs !! j = Some x → cd_sync d' !! (k + j)%nat = Some (sync_object a i x)) ∧
  (∀ j, (j < k ∨ k + length xs ≤ j)%nat → cd_sync d' !! j = cd_sync d !! j).

Lemma wp_copy_syncs q info m a i p xs : ∀ s o k d,
  q_queues s !! q = Some info → pvLinQueueKM info = Some m → objects m a i o xs →
  q_completes s !! p = Some d → (k + length xs ≤ length (cd_sync d))%nat →
  wp (copy_syncs q o p (Z.of_nat k) (length xs))
    (λ _ s', ∃ d', s' = set_q_completes (<[p := d']> (q_completes s)) s ∧ copied d d' a i k xs) s.
Proof.
  induction xs as [|x xs IH]; intros s o k d Hq Hm Ho Hd Hk; cbn [length copy_syncs] in *.
  - wp_step. exists d. rewrite insert_id by done. split; [by destruct s|]. by split_and!.
  - wp_step. eapply wp_get_sync_object; [exact Hq|exact Hm|by eapply objects_head|].
    wp_step. unfold put_complete_sync. wp_step. eapply wp_get_complete; [exact Hd|].
    rewrite (proj2 (Z.leb_le _ _)), (proj2 (Z.ltb_lt _ _)) by lia. simpl. rewrite Nat2Z.id.
    eapply wp_upd_complete; [exact Hd|]. set (d1 := mkComplete _ _ _ _ _).
    replace (Z.of_nat k + 1) with (Z.of_nat (S k)) by lia.
    eapply wp_mono; [eapply (IH _ (o + sizeof_PVRSRV_SYNC_OBJECT) (S k) d1)|].
    + exact Hq.
    + exact Hm.
    + by eapply objects_tail.
    + simpl. apply lookup_insert_eq.
    + simpl. rewrite length_insert. lia.
    + intros [] s' (d'&->&C1&C2&C3&C4&C5&C6&C7). exists d'. split.
      * simpl. by rewrite insert_insert_eq.
      * simpl in *. rewrite length_insert in C5. split_and!; try done.
        -- intros [|j] y Hj; simpl in Hj.
           ++ injection Hj as <-. rewrite Nat.add_0_r, C7 by lia. rewrite list_lookup_insert_eq; [done|lia].
           ++ replace (k + S j)%nat with (S k + j)%nat by lia. by apply C6.
        -- intros j Hj. cbn [length] in Hj. rewrite C7 by lia. rewrite list_lookup_insert_ne; [done|lia].
Qed.

(** The two lists of a command in the buffer. *)
Lemma holds_objects m a i c o pid : holds m a i c o → 
  objects m a i (psDstSync (header c o pid)) (ac_dst c) ∧ objects m a i (psSrcSync (header c o pid)) (ac_src c).
Proof.
  intros [_ H]. unfold syncs, sync_offset in H. split; intros j x Hj; simpl.
  - apply H. by apply lookup_app_l_Some.
  - replace (o + sizeof_PVRSRV_COMMAND + Z.of_nat (length (ac_dst c)) * sizeof_PVRSRV_SYNC_OBJECT + Z.of_nat j * sizeof_PVRSRV_SYNC_OBJECT)
      with (o + sizeof_PVRSRV_COMMAND + Z.of_nat (length (ac_dst c) + j) * sizeof_PVRSRV_SYNC_OBJECT) by lia.
    apply H. rewrite lookup_app_r by lia. by replace (length (ac_dst c) + j - length (ac_dst c))%nat with j by lia.
Qed.

(** ** Copying a command to its cookie *)

(** The data of the cookie when the driver is called, and what follows. *)
Lemma wp_fill_complete {B} q info m a i c o pid p d s (K : M q_st B) Q :
  q_queues s !! q = Some info → pvLinQueueKM info = Some m → holds m a i c o →
  q_completes s !! p = Some d → cd_src d = Z.of_nat (Z.to_nat (cd_src d)) →
  (length (ac_dst c) ≤ Z.to_nat (cd_src d))%nat → (Z.to_nat (cd_src d) + length (ac_src c) ≤ length (cd_sync d))%nat →
  (∀ d', bInUse d' = true → length (cd_sync d') = length (cd_sync d) → cd_src d' = cd_src d → runs d' a i c →
     wp K Q (set_q_completes (<[p := d']> (q_completes s)) s)) →
  let h := header c o pid in
  wp (upd_complete p (set_bInUse true);;
      upd_complete p (set_cd_ui32DstSyncCount (Z.of_nat (length (ac_dst c))));;
      copy_syncs q (psDstSync h) p 0 (length (ac_dst c));;
      upd_complete p (set_cd_ui32SrcSyncCount (Z.of_nat (length (ac_src c))));;
      copy_syncs q (psSrcSync h) p (cd_src d) (length (ac_src c));;
      K) Q s.
Proof.
  intros Hq Hm Hh Hd Hsrc Hl1 Hl2 HK h. destruct (holds_objects m a i c o pid Hh) as [O1 O2]. fold h in O1, O2.
  wp_step. eapply wp_upd_complete; [exact Hd|].
  wp_step. eapply wp_upd_complete; [simpl; apply lookup_insert_eq|].
  wp_step. change 0 with (Z.of_nat 0). eapply wp_mono.
  { eapply (wp_copy_syncs q info m a i p (ac_dst c)); [exact Hq|exact Hm|exact O1|simpl; apply lookup_insert_eq|simpl; lia]. }
  intros [] s1 (d1&->&C1&C2&C3&C4&C5&C6&C7). simpl in *.
  wp_step. eapply wp_upd_complete; [simpl; apply lookup_insert_eq|]. rewrite Hsrc.
  wp_step. eapply wp_mono.
  { eapply (wp_copy_syncs q info m a i p (ac_src c)); [exact Hq|exact Hm|exact O2|simpl; apply lookup_insert_eq|simpl; lia]. }
  intros [] s2 (d2&->&D1&D2&D3&D4&D5&D6&D7). simpl in *.
  unfold set_q_completes. simpl. rewrite !insert_insert_eq. apply HK.
  - by rewrite D1.
  - by rewrite D5.
  - rewrite D4, C4. done.
  - split; [by rewrite D2|by rewrite D3|..].
    + intros j x Hj. pose proof (lookup_lt_Some _ _ _ Hj). rewrite D7 by lia. by apply (C6 j).
    + intros j x Hj. rewrite D4, C4. by apply D6.
Qed.

(** ** Processing a command *)

Lemma slot_of_lookup a c sl : slot_of a c = Some sl → ∃ l, qa_devs a !! ac_dev c = Some l ∧ l !! Z.to_nat (ac_type c) = Some sl.
Proof. unfold slot_of. intros (l&?&?)%bind_Some. eauto. Qed.

Lemma wp_get_devcmd s a c sl l Q p :
  devs_ok s a → qa_devs a !! ac_dev c = Some l → l !! Z.to_nat (ac_type c) = Some sl → 0 ≤ ac_type c →
  apsDeviceCommandData s !! ac_dev c = Some p →
  Q (mkDevCmd (sl_fn sl) (sl_cookie sl) 0) s → wp (get_devcmd p (ac_type c)) Q s.
Proof.
  intros [H1 _] Hl Hsl Ht Hp HQ. destruct (H1 _ _ Hl) as (p'&xs&Hp'&Hxs&->). rewrite Hp in Hp'. injection Hp' as <-.
  unfold get_devcmd. wp_step. wp_step. rewrite Hxs. wp_step. wp_step. rewrite (proj2 (Z.leb_le _ _)) by done.
  rewrite list_lookup_fmap, Hsl. by apply wp_ret.
Qed.

(** Setting the offset of the only cookie of a type to 0 again. *)
Lemma wp_same_offset s a c sl l p Q :
  devs_ok s a → qa_devs a !! ac_dev c = Some l → l !! Z.to_nat (ac_type c) = Some sl → 0 ≤ ac_type c →
  apsDeviceCommandData s !! ac_dev c = Some p → Q tt s →
  wp (upd_devcmd p (ac_type c) (set_ui32CCBOffset ((0 + 1) mod DC_NUM_COMMANDS_PER_TYPE))) Q s.
Proof.
  intros Hdv Hl Hsl Ht Hp HQ. unfold upd_devcmd. wp_step. eapply wp_get_devcmd; [done|done|done|done|done|].
  wp_step.
  destruct (dv_table _ _ Hdv _ _ Hl) as (p'&xs&Hp'&Hxs&Heq). rewrite Hp in Hp'. injection Hp' as <-.
  assert (alter (λ l0, <[Z.to_nat (ac_type c) := set_ui32CCBOffset ((0 + 1) mod DC_NUM_COMMANDS_PER_TYPE)
    (mkDevCmd (sl_fn sl) (sl_cookie sl) 0)]> l0) p (q_devcmds s) = q_devcmds s) as Hal.
  { apply map_eq. intros k. destruct (decide (k = p)) as [->|Hk]; [|by rewrite lookup_alter_ne].
    rewrite lookup_alter_eq, Hxs. simpl. f_equal. rewrite list_insert_id; [done|]. by rewrite Heq, list_lookup_fmap, Hsl. }
  rewrite Hal. by destruct s.
Qed.

(** The outcome of processing command [i], the oldest of queue [q]. *)
Definition processed (fl : bool) (s : q_st) (a : q_abs) (qc : gmap Z (list nat)) (i : nat) (e : PVRSRV_ERROR) (s' : q_st) : Prop :=
  same_queues s s' ∧
  ((e ≠ PVRSRV_OK ∧ qrep s' a qc ∧
    ((∀ p, ¬ can_start fl a i p) ∨ (∃ p fn, can_start fl a i p ∧ refuses fn (set_status i (Running p) a) i))) ∨
   (e = PVRSRV_OK ∧ ∃ p a', can_start fl a i p ∧ completes (set_status i (Running p) a) a' ∧ qrep s' a' qc)).

Lemma same_queues_refl s : same_queues s s.
Proof. done. Qed.

Lemma same_queues_trans s1 s2 s3 : same_queues s1 s2 → same_queues s2 s3 → same_queues s1 s3.
Proof. intros [] []. split; congruence. Qed.

Lemma not_ready fl a i c : cmd_at a i = Some c → ready fl a i c = false → ∀ p, ¬ can_start fl a i p.
Proof. intros Hc Hr p (c'&sl&Hc'&_&_&_&Hr'). congruence. Qed.

Lemma wp_PVRSRVProcessCommand s a qc q i ids fl info c o pid m :
  qrep s a qc → qc !! q = Some (i :: ids) → status_at a i = Some (Waiting q) → cmd_at a i = Some c →
  q_queues s !! q = Some info → pvLinQueueKM info = Some m → holds m a i c o → m !! o = Some (CCommand (header c o pid)) →
  wp (PVRSRVProcessCommand q o fl) (processed fl s a qc i) s.
Proof.
  intros HR Hqc Hi Hc Hq Hm Hh Hhd. pose proof (wf_cmd _ (qr_wf _ _ _ HR) i c Hc) as Hok.
  destruct (holds_objects m a i c o pid Hh) as [O1 O2].
  assert (∀ x, x ∈ syncs c → q_syncs s !! x = Some (sync_of a x)) as Hsy.
  { intros x Hx. apply (qr_sync _ _ _ HR). by apply (co_syncs _ _ Hok). }
  unfold PVRSRVProcessCommand. wp_step. eapply wp_get_command; [exact Hq|exact Hm|exact Hhd|].
  set (h := header c o pid) in *. change (ui32DstSyncCount h) with (Z.of_nat (length (ac_dst c))).
  change (ui32SrcSyncCount h) with (Z.of_nat (length (ac_src c))).
  assert (∀ e, e ≠ PVRSRV_OK → (∀ p, ¬ can_start fl a i p) → processed fl s a qc i e s) as Hno.
  { intros e He Hcs. split; [done|]. left. split_and!; [done|done|by left]. }
  wp_step. rewrite Nat2Z.id. eapply wp_mono.
  { apply (wp_syncs_ready q info m a i fl s (ac_dst c)); [done|done|done|]. intros x Hx. apply Hsy. unfold syncs. set_solver. }
  intros b1 s1 [-> ->]. destruct (forallb _ (ac_dst c)) eqn:Hb1; cbn [negb].
  2:{ apply wp_ret, Hno; [done|]. eapply not_ready; [exact Hc|]. unfold ready, syncs. by rewrite forallb_app, Hb1. }
  wp_step. rewrite Nat2Z.id. eapply wp_mono.
  { apply (wp_syncs_ready q info m a i fl s (ac_src c)); [done|done|done|]. intros x Hx. apply Hsy. unfold syncs. set_solver. }
  intros b2 s2 [-> ->]. destruct (forallb _ (ac_src c)) eqn:Hb2; cbn [negb].
  2:{ apply wp_ret, Hno; [done|]. eapply not_ready; [exact Hc|]. unfold ready, syncs. by rewrite forallb_app, Hb1, Hb2. }
  assert (ready fl a i c = true) as Hready by (unfold ready, syncs; by rewrite forallb_app, Hb1, Hb2).
  change (ui32DevIndex h) with (ac_dev c). pose proof (co_dev _ _ Hok) as Hdev.
  rewrite (proj2 (Z.leb_gt _ _)) by done.
  destruct (co_slot _ _ Hok) as (sl&Hsl&Hmd&Hms). destruct (slot_of_lookup _ _ _ Hsl) as (l&Hl&Hlt).
  pose proof (qr_devs _ _ _ HR) as Hdv. destruct (dv_table _ _ Hdv _ _ Hl) as (pt&xs&Hpt&_&_).
  wp_step. wp_step. rewrite Hpt. wp_step. wp_step. change (CommandType h) with (ac_type c).
  wp_step. eapply wp_get_devcmd; [done|done|done|apply Hok|done|]. wp_step. unfold complete_data_of. cbn [ui32CCBOffset].
  change ((0 <=? 0) && (0 <? DC_NUM_COMMANDS_PER_TYPE)) with true. cbv iota. wp_step. cbn [apsCmdCompleteData pfnCmdProc].
  destruct (dv_cookie _ _ Hdv _ _ _ _ Hl Hlt) as (d&Hd&Hsd&Hss&Hlen&Hsrc&Hbusy&_).
  wp_step. eapply wp_get_complete; [exact Hd|]. destruct (bInUse d) eqn:Hu.
  { apply wp_ret, Hno; [done|]. intros p (c'&sl'&Hc'&Hsl'&<-&Hnb&_). rewrite Hc in Hc'. injection Hc' as <-.
    rewrite Hsl in Hsl'. injection Hsl' as <-. apply Hnb. by apply Hbusy. }
  assert (¬ busy a (sl_cookie sl)) as Hnb by (intros H; apply Hbusy in H; congruence).
  set (p := sl_cookie sl) in *. assert (can_start fl a i p) as Hcan by (exists c, sl; done).
  rewrite ?Nat2Z.id.
  eapply (wp_fill_complete q info m a i c o pid p d); [exact Hq|exact Hm|exact Hh|exact Hd|rewrite Hsrc; lia|rewrite Hsrc; lia| |].
  { rewrite Hsrc, Hlen. lia. }
  intros d' Hu' Hlen' Hsrc' Hrun. set (s3 := set_q_completes _ s).
  assert (qrep s3 (set_status i (Running p) a) qc) as HR3 by (by eapply (qrep_start s s3 a qc i q c sl d d')).
  assert (status_at (set_status i (Running p) a) i = Some (Running p)) as Hrun3.
  { destruct (status_lookup _ _ _ Hi) as (e&He&_). by rewrite (status_at_set _ _ _ _ _ He), decide_True. }
  wp_step. eapply wp_mono; [by eapply law_cmd_proc|]. intros b s4 (a4&Hcp&HR4&Hsq&Hb). wp_step.
  cbn [ui32CCBOffset].
  assert (qa_devs a4 = qa_devs a) as Hdevs by (apply (sl_devs _ _ (completes_log _ _ Hcp))).
  assert (∀ s5 a5 e, qrep s5 a5 qc → qa_devs a5 = qa_devs a → apsDeviceCommandData s5 !! ac_dev c = Some pt →
    processed fl s a qc i e s5 →
    wp (upd_devcmd pt (ac_type c) (set_ui32CCBOffset ((0 + 1) mod DC_NUM_COMMANDS_PER_TYPE));; mret e) (processed fl s a qc i) s5) as Hend.
  { intros s5 a5 e HR5 Hd5 Hp5 Hpr. wp_step. eapply wp_same_offset; [apply (qr_devs _ _ _ HR5)|by rewrite Hd5|exact Hlt|apply Hok|exact Hp5|].
    by apply wp_ret. }
  assert (apsDeviceCommandData s4 !! ac_dev c = Some pt) as Hpt4.
  { by rewrite (sq_devs _ _ Hsq). }
  destruct b; cbn [negb].
  - wp_step. apply (Hend s4 a4); [done|done|done|]. split; [by destruct Hsq; split|]. right. split; [done|]. exists p, a4. done.
  - destruct (Hb eq_refl) as [-> Href]. pose proof (qr_devs _ _ _ HR4) as Hdv4.
    destruct (dv_cookie _ _ Hdv4 (ac_dev c) l (Z.to_nat (ac_type c)) sl Hl Hlt) as (d4&Hd4&_). fold p in Hd4.
    wp_step. eapply wp_upd_complete; [exact Hd4|]. wp_step.
    assert (qrep (set_q_completes (<[p := set_bInUse false d4]> (q_completes s4)) s4) a qc) as HR5
      by (eapply qrep_refuse; [exact HR4|exact Hi|apply (qr_wf _ _ _ HR)|exact Hd4]).
    apply (Hend _ a); [exact HR5|done|exact Hpt4|]. split.
    + destruct Hsq. by split.
    + left. split_and!; [done|exact HR5|]. right. by exists p, (sl_fn sl).
Qed.

(** ** Draining a queue *)

(** [qc] is what the queues hold. *)
Record held (a : q_abs) (qc : gmap Z (list nat)) : Prop := {
  hd_ids q ids : qc !! q = Some ids → ids = waiting a q;
  hd_live i q : status_at a i = Some (Waiting q) → is_Some (qc !! q) }.

(** The shape of the list of queues does not change. *)
Record frame (s s' : q_st) : Prop := {
  fr_list : psQueueList s' = psQueueList s;
  fr_lock : sQProcessResource s' = sQProcessResource s;
  fr_next : q_next s' = q_next s;
  fr_links : (λ i, (psNextKM i, ui32QueueSize i)) <$> q_queues s' = (λ i, (psNextKM i, ui32QueueSize i)) <$> q_queues s }.

Lemma frame_refl s : frame s s.
Proof. done. Qed.

Lemma frame_trans s1 s2 s3 : frame s1 s2 → frame s2 s3 → frame s1 s3.
Proof. intros [] []. split; congruence. Qed.

Lemma frame_same s s' : same_queues s s' → frame s s'.
Proof. intros []. split; congruence. Qed.

Lemma frame_upd s q info info' : q_queues s !! q = Some info → psNextKM info' = psNextKM info → ui32QueueSize info' = ui32QueueSize info →
  frame s (set_q_queues (<[q := info']> (q_queues s)) s).
Proof.
  intros Hq Hn Hs. split; try done. simpl. apply map_eq. intros k. rewrite !lookup_fmap. destruct (decide (k = q)) as [->|].
  - rewrite lookup_insert_eq, Hq. simpl. by rewrite Hn, Hs.
  - by rewrite lookup_insert_ne.
Qed.

(** The read offset moves past the oldest command. *)
Lemma queue_ok_pop info a i ids c : wf a → queue_ok info a (i :: ids) → cmd_at a i = Some c →
  queue_ok (UPDATE_QUEUE_ROFF (cmd_size c) info) a ids.
Proof.
  intros Hw [H1 H2 H3 H4 H5 (m&Hm&Hr)] Hc. pose proof (bytes_nonneg a ids (wf_cmds_ok a ids Hw)) as Hb.
  rewrite ids_bytes_cons, Hc in *. cbn [from_option] in *. destruct Hr as (c'&Hc'&_&Hr). rewrite Hc in Hc'. injection Hc' as <-.
  pose proof (cmd_size_pos c (proj1 (co_data _ _ (wf_cmd _ Hw i c Hc)))) as Hpos. pose proof H1 as (k&Hk&Hs).
  pose proof (pow_bounds k Hk) as Hpow.
  assert (ui32ReadOffset (UPDATE_QUEUE_ROFF (cmd_size c) info) = (ui32ReadOffset info + cmd_size c) mod ui32QueueSize info) as Hread.
  { simpl. rewrite Hs. by apply advance. }
  split; rewrite ?Hread; simpl; try done.
  - apply Z.mod_pos_bound. lia.
  - lia.
  - rewrite H5, Z.add_mod_idemp_l by lia. f_equal. lia.
  - exists m. split; [done|]. apply ring_shift; [lia|]. by rewrite Z.add_0_r.
Qed.

Lemma waiting_known a q i : i ∈ waiting a q → ∃ c, cmd_at a i = Some c.
Proof. intros (e&He&_)%elem_of_waiting%status_lookup. exists (en_cmd e). unfold cmd_at. by rewrite He. Qed.

Lemma wp_process_queue q fl : ∀ fuel s a qc ids,
  qrep s a qc → held a qc → qc !! q = Some ids → (length ids ≤ fuel)%nat →
  wp (process_queue fuel q fl) (λ _ s', ∃ a' qc', drains fl q a a' ∧ qrep s' a' qc' ∧ held a' qc' ∧ dom qc' = dom qc ∧ frame s s') s.
Proof.
  induction fuel as [|fuel IH]; intros s a qc ids HR Hheld Hqc Hf.
  all: destruct (qr_queue _ _ _ HR q ids Hqc) as (info&Hinfo&Hok); pose proof (hd_ids _ _ Hheld _ _ Hqc) as Hids.
  all: assert (ids = [] → ui32ReadOffset info = ui32WriteOffset info) as Hempty by
    (intros ->; rewrite (qo_write _ _ _ Hok); unfold bytes; simpl; rewrite Z.add_0_r; symmetry; apply Z.mod_small, Hok).
  all: cbn [process_queue]; wp_step; eapply wp_get_queue; [exact Hinfo|].
  all: destruct ids as [|i ids];
    [rewrite Hempty, Z.eqb_refl by done; apply wp_ret; exists a, qc; split_and!; [by apply dr_empty|done..]|].
  { simpl in Hf. lia. }
  pose proof (qr_wf _ _ _ HR) as Hw. assert (i ∈ waiting a q) as Hin by (rewrite <- Hids; by left).
  destruct (waiting_known _ _ _ Hin) as (c&Hc). apply elem_of_waiting in Hin.
  pose proof (bytes_nonneg a ids (wf_cmds_ok a ids Hw)) as Hb.
  pose proof (cmd_size_pos c (proj1 (co_data _ _ (wf_cmd _ Hw i c Hc)))) as Hpos.
  destruct (qo_ring _ _ _ Hok) as (m&Hm&c'&Hc'&Hh&_). rewrite Hc in Hc'. injection Hc' as <-. rewrite Z.add_0_r in Hh.
  rewrite Z.mod_small in Hh by apply Hok. destruct (ho_header _ _ _ _ _ Hh) as [pid Hhd].
  assert (ui32ReadOffset info ≠ ui32WriteOffset info) as Hne.
  { pose proof (qo_bytes _ _ _ Hok) as Hlt. pose proof (qo_read _ _ _ Hok) as Hrd. rewrite (qo_write _ _ _ Hok).
    rewrite ids_bytes_cons, Hc in *. cbn [from_option] in *.
    destruct (Z.lt_ge_cases (ui32ReadOffset info + (cmd_size c + bytes a ids)) (ui32QueueSize info)).
    - rewrite Z.mod_small by lia. lia.
    - rewrite <- (Z.mod_unique _ (ui32QueueSize info) 1 (ui32ReadOffset info + (cmd_size c + bytes a ids) - ui32QueueSize info)); lia. }
  rewrite (proj2 (Z.eqb_neq _ _)) by done. wp_step. eapply wp_mono.
  { eapply (wp_PVRSRVProcessCommand s a qc q i ids fl info c (ui32ReadOffset info) pid m); done. }
  intros e s1 [Hsq [(He&HR1&Hstop)|(->&p&a1&Hcan&Hcp&HR1)]].
  - destruct (is_OK e) eqn:Hoke; [by apply is_OK_true in Hoke|]. apply wp_ret. exists a, qc.
    split_and!; [by eapply dr_stop|done|done|done|by apply frame_same].
  - cbn [is_OK]. assert (q_queues s1 !! q = Some info) as Hinfo1 by (by rewrite (sq_queues _ _ Hsq)).
    wp_step. eapply wp_get_command; [exact Hinfo1|exact Hm|exact Hhd|]. cbn [header uCmdSize].
    wp_step. eapply wp_upd_queue; [exact Hinfo1|]. set (s2 := set_q_queues _ s1).
    assert (same_log a a1) as Hlog by (eapply same_log_trans; [apply (same_log_set i (Running p))|by apply completes_log]).
    destruct (qr_queue _ _ _ HR1 q _ Hqc) as (info'&Hinfo'&Hok1). rewrite Hinfo1 in Hinfo'. injection Hinfo' as <-.
    assert (qrep s2 a1 (<[q := ids]> qc)) as HR2.
    { destruct HR1 as [R1 R2 R3 R4 R5 R6]. split; try done.
      - intros q' ids' [[<- <-]|[Hq' Hids']]%lookup_insert_Some; simpl.
        + eexists. rewrite lookup_insert_eq. split; [done|]. apply (queue_ok_pop _ _ i); [done|done|]. by rewrite (sl_cmd _ _ Hlog).
        + destruct (R1 q' ids' Hids') as (j&Hj&Hokj). exists j. by rewrite lookup_insert_ne.
      - destruct R2 as (Hch&Hnd&Hql). simpl. split_and!; [by eapply qchain_upd|done|].
        intros q'. rewrite Hql, lookup_insert_is_Some'. naive_solver.
      - by destruct R4. }
    assert (held a1 (<[q := ids]> qc)) as Hheld1.
    { split.
      - intros q' ids' [[<- <-]|[Hq' Hids']]%lookup_insert_Some; rewrite (completes_waiting _ _ _ Hcp).
        + symmetry. by apply (waiting_start a q i).
        + rewrite (waiting_start_other a q q' i ids) by done. by apply (hd_ids _ _ Hheld).
      - intros j q' Hj. apply lookup_insert_is_Some'. right. eapply completes_status in Hj; [|exact Hcp].
        destruct (status_lookup _ _ _ Hin) as (e&He&_). rewrite (status_at_set _ _ _ _ _ He) in Hj.
        case_decide; [done|]. by eapply hd_live. }
    eapply wp_mono; [apply (IH s2 a1 (<[q := ids]> qc) ids); [exact HR2|exact Hheld1|apply lookup_insert_eq|simpl in Hf; lia]|].
    intros [] s3 (a3&qc3&Hdr&HR3&Hh3&Hdom&Hfr). exists a3, qc3. split_and!; [|done|done| |].
    + eapply dr_step; [symmetry; exact Hids|exact Hcan|exact Hcp|exact Hdr].
    + rewrite Hdom. apply dom_insert_lookup_L. eauto.
    + eapply frame_trans; [|exact Hfr]. eapply frame_trans; [by apply frame_same|]. by eapply frame_upd.
Qed.

(** ** Every queue *)

Lemma frame_queue s s' q info : frame s s' → q_queues s !! q = Some info →
  ∃ info', q_queues s' !! q = Some info' ∧ psNextKM info' = psNextKM info ∧ ui32QueueSize info' = ui32QueueSize info.
Proof.
  intros [_ _ _ Hl] Hq. assert (Hl' := f_equal (lookup q) Hl). rewrite !lookup_fmap, Hq in Hl'. simpl in Hl'.
  apply fmap_Some in Hl' as (info'&Hi&Heq). exists info'. by split_and!; [|congruence|congruence].
Qed.

Lemma frame_chain s s' l : ∀ p, frame s s' → qchain (q_queues s) p l → qchain (q_queues s') p l.
Proof.
  induction l as [|x l IH]; intros p Hf; [done|]. intros (->&Hx&info&Hi&Hc). split_and!; [done|done|].
  destruct (frame_queue _ _ _ _ Hf Hi) as (info'&Hi'&Hn&_). exists info'. split; [done|]. rewrite Hn. by apply IH.
Qed.

Lemma length_bytes a ids : wf a → (∀ i, i ∈ ids → ∃ c, cmd_at a i = Some c) → 56 * Z.of_nat (length ids) ≤ bytes a ids.
Proof.
  intros Hw. induction ids as [|i ids IH]; intros H; [done|]. rewrite ids_bytes_cons. destruct (H i ltac:(by left)) as [c Hc].
  rewrite Hc. cbn [from_option length]. pose proof (cmd_size_pos c (proj1 (co_data _ _ (wf_cmd _ Hw i c Hc)))).
  specialize (IH (λ j Hj, H j (list_elem_of_further _ _ _ Hj))). lia.
Qed.

Lemma wp_process_queues fl ql : ∀ fuel p s a qc,
  qrep s a qc → held a qc → qchain (q_queues s) p ql → (∀ q, q ∈ ql → is_Some (qc !! q)) → (length ql ≤ fuel)%nat →
  wp (process_queues fuel p fl) (λ _ s', ∃ a' qc', drains_all fl ql a a' ∧ qrep s' a' qc' ∧ held a' qc' ∧ dom qc' = dom qc ∧ frame s s') s.
Proof.
  induction ql as [|q ql IH]; intros fuel p s a qc HR Hheld Hch Hql Hf.
  - simpl in Hch. subst p. assert (process_queues fuel 0 fl = mret tt) as -> by (by destruct fuel).
    apply wp_ret. exists a, qc. split_and!; [constructor|done..].
  - destruct fuel as [|fuel]; [simpl in Hf; lia|]. destruct Hch as (->&Hq0&info&Hinfo&Hch).
    destruct (Hql q ltac:(by left)) as [ids Hids]. destruct (qr_queue _ _ _ HR q ids Hids) as (info1&Hinfo1&Hok).
    rewrite Hinfo in Hinfo1. injection Hinfo1 as <-. cbn [process_queues]. rewrite (proj2 (Z.eqb_neq _ _)) by done.
    wp_step. eapply wp_get_queue; [exact Hinfo|]. wp_step. eapply wp_mono.
    { eapply (wp_process_queue q fl); [exact HR|exact Hheld|exact Hids|].
      assert (56 * Z.of_nat (length ids) ≤ bytes a ids).
      { apply length_bytes; [apply (qr_wf _ _ _ HR)|]. intros i Hi. rewrite (hd_ids _ _ Hheld _ _ Hids) in Hi. by eapply waiting_known. }
      pose proof (qo_bytes _ _ _ Hok). lia. }
    intros [] s1 (a1&qc1&Hdr&HR1&Hh1&Hdom1&Hfr1). destruct (frame_queue _ _ _ _ Hfr1 Hinfo) as (info1&Hinfo1&Hn1&_).
    wp_step. eapply wp_get_queue; [exact Hinfo1|]. rewrite Hn1. eapply wp_mono.
    { apply (IH fuel _ s1 a1 qc1 HR1 Hh1); [by eapply frame_chain| |simpl in Hf; lia].
      intros q' Hq'. rewrite <- elem_of_dom, Hdom1, elem_of_dom. apply Hql. by right. }
    intros [] s2 (a2&qc2&Hda&HR2&Hh2&Hdom2&Hfr2). exists a2, qc2. split_and!; [by econstructor|done|done|congruence|by eapply frame_trans].
Qed.
End process.
