(* ===== verification/QueueDrain.v ===== *)
(** * PVRSRVProcessQueues and PVRSRVCommandCompleteKM as a whole

    Both on a state that [rep]resents an abstract one, with the lock free. *)

From S2P Require Import Prelude Lists Resource Queue QueueRep QueueMem QueueInsert.
From S2P Require Import QueueInsert QueueLaw QueueSend QueueRun QueueProcess.

Section drain.
Context {env : QueueEnv} {refusal : Refusal} {law : QueueLaw}.

(** ** The device nodes *)

Lemma on_devnodes_reads A (m : M lists A) Q s :
  wp m (λ a t, t = q_devnodes s ∧ Q a s) (q_devnodes s) → wp (on_devnodes A m) Q s.
Proof. intros H. apply wp_zoom. eapply wp_mono; [exact H|]. intros a t [-> HQ]. by destruct s. Qed.

(** [s'] is [s] after callbacks that leave the abstract state alone. *)
Definition looked (s : q_st) (a : q_abs) (qc : gmap Z (list nat)) (s' : q_st) : Prop := qrep s' a qc ∧ same_queues s s'.

Lemma wp_device_nodes s a qc cb : qrep s a qc →
  (∀ n t, is_Some (q_devdata t !! n) → qrep t a qc → wp (cb n) (λ _, looked t a qc) t) →
  wp (head ← on_devnodes _ (load (HeadOf 0)); List_ForEach on_devnodes head cb) (λ _, looked s a qc) s.
Proof.
  intros HR Hcb. destruct (qr_nodes _ _ _ HR) as (ns&Hok&Hdata).
  destruct (lo_seg _ _ Hok 0 ns) as [Hseg Hnd]; [apply lookup_singleton_eq|].
  wp_step. apply on_devnodes_reads. eapply wp_load; [by eapply seg_head|]. split; [done|].
  eapply (wp_List_ForEach on_devnodes q_devnodes on_devnodes_reads); [exact Hseg|done|done|..].
  - intros t [_ Ht]. apply (sq_nodes _ _ Ht).
  - intros n t Hn [HRt Hst]. eapply wp_mono; [apply Hcb; [|done]|].
    + rewrite (sq_data _ _ Hst). by apply Hdata.
    + intros [] t' [HR' Hs']. split; [done|by eapply same_queues_trans].
Qed.

Lemma wp_get_devnode n d Q s : q_devdata s !! n = Some d → Q d s → wp (get_devnode n) Q s.
Proof. intros H HQ. unfold get_devnode. wp_step. wp_step. rewrite H. by apply wp_ret. Qed.

Lemma wp_PVRSRVProcessQueues_ForEachCb a qc n s : is_Some (q_devdata s !! n) → qrep s a qc →
  wp (PVRSRVProcessQueues_ForEachCb n) (λ _, looked s a qc) s.
Proof.
  intros [d Hd] HR. unfold PVRSRVProcessQueues_ForEachCb. wp_step. eapply wp_get_devnode; [exact Hd|].
  destruct (_ && _); [by apply law_device|by apply wp_ret].
Qed.

Lemma wp_PVRSRVScheduleDeviceCallbacks a qc s : qrep s a qc → wp PVRSRVScheduleDeviceCallbacks (λ _, looked s a qc) s.
Proof.
  intros HR. apply wp_device_nodes; [done|]. intros n t [d Hd] HRt. unfold PVRSRVCommandCompleteCallbacks_ForEachCb.
  wp_step. eapply wp_get_devnode; [exact Hd|]. destruct (negb _); [by apply law_device|by apply wp_ret].
Qed.

(** ** The lock *)

Lemma qrep_lock s a qc r : qrep s a qc → qrep (set_sQProcessResource r s) a qc.
Proof. intros [R1 R2 R3 [? ?] R5 R6]. by split. Qed.

Lemma wp_lock_loop n Q s : ui32Lock (sQProcessResource s) = 0 →
  Q tt (set_sQProcessResource (mkResource 1 ISR_ID) s) → wp (lock_loop n) Q s.
Proof.
  intros HL HQ. assert (wp (OSLockResource sQProcessResource set_sQProcessResource ISR_ID) (λ e s', e = PVRSRV_OK ∧ Q tt s') s) as H.
  { unfold OSLockResource. wp_step. wp_step. rewrite HL. cbn. wp_steps. done. }
  destruct n; simpl; (wp_step; eapply wp_mono; [exact H|]; intros e s' [-> HQ']; by apply wp_ret).
Qed.

(** ** PVRSRVProcessQueues *)

Lemma frame_lock s r : sQProcessResource (set_sQProcessResource r s) = r.
Proof. done. Qed.

(** What there is once the queues are drained. *)
Lemma rep_unlock s s' a a' qc' :
  rep s a → qrep s' a' qc' → held a' qc' →
  frame (set_sQProcessResource (mkResource 1 ISR_ID) s) s' → dom qc' = dom (q_queues s) →
  rep (set_sQProcessResource (mkResource 0 0) s') a'.
Proof.
  intros [(qc&HR&_&_&Hdom) HL HP] HR' [Hids Hlive] Hf Hd. pose proof (fr_next _ _ Hf) as Hn. simpl in Hn.
  split; [|done|simpl; by rewrite Hn]. exists qc'. split_and!; [by apply qrep_lock|done|done|]. simpl. rewrite Hn.
  intros q Hq. assert (is_Some (q_queues s !! q)) as Hq'.
  { pose proof (f_equal (lookup q) (fr_links _ _ Hf)) as Hl. rewrite !lookup_fmap in Hl. simpl in Hl.
    destruct Hq as [i Hi]. rewrite Hi in Hl. destruct (q_queues s !! q); [eauto|done]. }
  split; [|by apply Hdom]. apply elem_of_dom. rewrite Hd. by apply elem_of_dom.
Qed.

Lemma rep_dom s a qc : qrep s a qc → (∀ q, is_Some (q_queues s !! q) → is_Some (qc !! q) ∧ 0 < q < q_next s) →
  dom qc = dom (q_queues s).
Proof.
  intros HR Hdom. apply set_eq. intros q. rewrite !elem_of_dom. split; [|apply Hdom].
  intros [ids Hq]. destruct (qr_queue _ _ _ HR q ids Hq) as (i&Hi&_). eauto.
Qed.

Lemma wp_PVRSRVProcessQueues s a n fl : rep s a →
  wp (PVRSRVProcessQueues n fl) (λ e s', e = PVRSRV_OK ∧ ∃ a', drains_all fl (qa_queues a) a a' ∧ rep s' a') s.
Proof.
  intros Hrep. pose proof Hrep as [(qc&HR&Hids&Hlive&Hdom) HL HP]. unfold PVRSRVProcessQueues.
  wp_step. apply wp_lock_loop; [done|]. set (s0 := set_sQProcessResource _ s).
  assert (qrep s0 a qc) as HR0 by (by apply qrep_lock).
  assert (∀ st (b : bool) t b' c', qrep t b' c' → wp (if b then PVRSRVSetDCState st else mret tt) (λ _, looked t b' c') t) as Hdc.
  { intros st b t b' c' HRt. destruct b; [by apply law_dc_state|by apply wp_ret]. }
  wp_step. wp_step. wp_step. eapply wp_mono; [by apply Hdc|]. intros [] s1 [HR1 Hs1]. wp_step. wp_step.
  destruct (qr_list _ _ _ HR1) as (Hch&Hnd&Hql).
  wp_step. eapply wp_mono.
  { eapply (wp_process_queues fl (qa_queues a) (size (q_queues s1)) _ s1 a qc); [done|by split|..].
    - rewrite <- (sq_list _ _ Hs1). exact Hch.
    - intros q. by rewrite Hql.
    - apply NoDup_keys_length; [done|]. intros q Hq%Hql. destruct Hq as [ids Hq].
      destruct (qr_queue _ _ _ HR1 q ids Hq) as (info&Hi&_). eauto. }
  intros [] s2 (a2&qc2&Hda&HR2&Hheld&Hd2&Hf2).
  wp_step. eapply wp_mono; [by apply Hdc|]. intros [] s3 [HR3 Hs3].
  apply (wp_bind_assoc _ (λ head, List_ForEach on_devnodes head PVRSRVProcessQueues_ForEachCb)).
  wp_step. eapply wp_mono; [apply (wp_device_nodes s3 a2 qc2); [done|]|].
  { intros k t Hk HRt. by apply wp_PVRSRVProcessQueues_ForEachCb. }
  intros [] s4 [HR4 Hs4].
  assert (frame s0 s4) as Hf4.
  { eapply frame_trans; [by apply frame_same|]. eapply frame_trans; [exact Hf2|].
    eapply frame_trans; by apply frame_same. }
  wp_step. unfold OSUnlockResource. wp_step. wp_step. rewrite (fr_lock _ _ Hf4). cbn. wp_step. wp_step. wp_step. wp_step.
  split; [done|]. exists a2. split; [done|]. eapply rep_unlock; [exact Hrep|done|done|done|].
  rewrite Hd2. by eapply rep_dom.
Qed.

(** ** PVRSRVCommandCompleteKM *)

Lemma wp_complete_syncs p d f xs : ∀ k s,
  q_completes s !! p = Some d → NoDup xs →
  (∀ j x, xs !! j = Some x → ∃ o, cd_sync d !! (k + j)%nat = Some o ∧ psKernelSyncInfoKM o = x) →
  (∀ x, x ∈ xs → is_Some (q_syncs s !! x)) →
  wp (complete_syncs p k (length xs) f) (λ _ s', ∃ S', s' = set_q_syncs S' s ∧
    ∀ x, S' !! x = if decide (x ∈ xs) then f <$> q_syncs s !! x else q_syncs s !! x) s.
Proof.
  induction xs as [|x xs IH]; intros k s Hd Hnd Hk Hx; cbn [length complete_syncs].
  - wp_step. exists (q_syncs s). split; [by destruct s|done].
  - apply NoDup_cons in Hnd as [Hni Hnd]. destruct (Hk 0%nat x eq_refl) as (o&Ho&Hox). rewrite Nat.add_0_r in Ho.
    destruct (Hx x ltac:(by left)) as [v Hv].
    wp_step. eapply wp_get_complete; [exact Hd|]. rewrite Ho. wp_step. wp_step. wp_step. rewrite Hox. eapply wp_upd_sync; [exact Hv|].
    eapply wp_mono; [apply (IH (S k)); [exact Hd|done|..]|].
    + intros j y Hj. destruct (Hk (S j) y Hj) as (o'&Ho'&?). exists o'. by replace (S k + j)%nat with (k + S j)%nat by lia.
    + intros y Hy. simpl. apply lookup_insert_is_Some'. right. apply Hx. by right.
    + intros [] s' (S'&->&HS). exists S'. split; [apply set_q_syncs_again|]. intros y. rewrite HS. simpl.
      destruct (decide (y = x)) as [->|Hy].
      * rewrite (decide_False (P := x ∈ xs)), (decide_True (P := x ∈ x :: xs)) by (done || by left).
        by rewrite lookup_insert_eq, Hv.
      * rewrite lookup_insert_ne by done. assert (y ∈ x :: xs ↔ y ∈ xs) as Hiff by set_solver.
        by rewrite (decide_ext (y ∈ x :: xs) (y ∈ xs)).
Qed.

(** The counts of the synchronisation objects of command [i] step, and its cookie is free. *)
Lemma qrep_complete s a qc i p c d S' :
  qrep s a qc → status_at a i = Some (Running p) → cmd_at a i = Some c → q_completes s !! p = Some d →
  (∀ x, S' !! x = if decide (x ∈ ac_src c) then read_complete <$> q_syncs s !! x
                  else if decide (x ∈ ac_dst c) then write_complete <$> q_syncs s !! x else q_syncs s !! x) →
  qrep (set_q_completes (<[p := set_bInUse false d]> (q_completes s)) (set_q_syncs S' s)) (set_status i Completed a) qc.
Proof.
  intros [R1 R2 R3 R4 R5 R6] Hi Hc Hd HS. split; try done.
  - intros q' ids Hq'. destruct (R1 q' ids Hq') as (info&?&?). exists info. split; [done|by apply queue_ok_set].
  - intros x Hx. simpl. rewrite HS, (R3 x Hx), (sync_of_complete i p c) by (done || by apply (wf_cmd _ R6 i)).
    repeat case_decide; done.
  - eapply (devs_stop s); [exact R4|done|exact Hi|done|exact Hd|done..].
  - by eapply wf_stop.
Qed.

Lemma wp_complete s a qc i p b : qrep s a qc → status_at a i = Some (Running p) →
  wp (PVRSRVCommandCompleteKM p b)
    (λ _ s', qrep s' (set_status i Completed a) qc ∧ same_queues s s' ∧ (b = true → q_misr s' ≠ MISR_IDLE)) s.
Proof.
  intros HR Hi.
  destruct (wf_cookie _ (qr_wf _ _ _ HR) i p Hi) as (c&sl&Hc&Hsl&Hp). destruct (slot_of_lookup _ _ _ Hsl) as (l&Hl&Hlt).
  destruct (dv_cookie _ _ (qr_devs _ _ _ HR) _ _ _ _ Hl Hlt) as (d&Hd&Hsd&Hss&Hlen&Hsrc&_&Hruns). rewrite Hp in *.
  destruct (Hruns i c Hi Hc) as [N1 N2 N3 N4]. pose proof (wf_cmd _ (qr_wf _ _ _ HR) i c Hc) as Hok.
  pose proof (co_nodup _ _ Hok) as Hnd. apply NoDup_app in Hnd as (Hnd1&Hdis&Hnd2).
  assert (∀ x, x ∈ syncs c → is_Some (q_syncs s !! x)) as Hsy.
  { intros x Hx. rewrite (qr_sync _ _ _ HR); [eauto|]. by apply (co_syncs _ _ Hok). }
  unfold PVRSRVCommandCompleteKM. wp_step. eapply wp_get_complete; [exact Hd|]. rewrite N1, Nat2Z.id.
  wp_step. eapply wp_mono.
  { apply (wp_complete_syncs p d write_complete (ac_dst c) 0 s Hd Hnd1).
    - intros j x Hj. simpl. rewrite (N3 j x Hj). by eexists.
    - intros x Hx. apply Hsy. unfold syncs. set_solver. }
  intros [] s1 (S1&->&HS1). wp_step. eapply wp_get_complete; [exact Hd|]. rewrite N2, Nat2Z.id.
  wp_step. eapply wp_mono.
  { apply (wp_complete_syncs p d read_complete (ac_src c) (Z.to_nat (cd_src d))); [exact Hd|exact Hnd2|..].
    - intros j x Hj. rewrite (N4 j x Hj). by eexists.
    - intros x Hx. simpl. rewrite HS1, decide_False by (intros H; by apply (Hdis x)). apply Hsy. unfold syncs. set_solver. }
  intros [] s2 (S2&->&HS2). rewrite set_q_syncs_again. simpl in HS2.
  wp_step. eapply wp_upd_complete; [exact Hd|]. set (s3 := set_q_completes _ _).
  assert (qrep s3 (set_status i Completed a) qc) as HR3.
  { apply (qrep_complete s a qc i p c d S2); try done. intros x. rewrite HS2, HS1.
    destruct (decide (x ∈ ac_src c)); [|done]. by rewrite decide_False by (intros H; by apply (Hdis x)). }
  wp_step. eapply wp_mono; [by apply wp_PVRSRVScheduleDeviceCallbacks|]. intros [] s4 [HR4 Hs4].
  assert (same_queues s s4) as Hs by (eapply same_queues_trans; [|exact Hs4]; done).
  destruct b.
  - unfold OSScheduleMISR. do 2 wp_step.
    destruct (q_misr s4) eqn:Hm; [wp_step; split_and!; [done|done|by rewrite Hm]|..];
      (wp_step; split_and!; [destruct HR4 as [? ? ? [? ?] ? ?]; by split|by destruct Hs; split|done]).
  - wp_step. by split_and!.
Qed.

Lemma wp_PVRSRVCommandCompleteKM s a i p b : rep s a → status_at a i = Some (Running p) →
  wp (PVRSRVCommandCompleteKM p b) (λ _ s', rep s' (set_status i Completed a) ∧ (b = true → q_misr s' ≠ MISR_IDLE)) s.
Proof.
  intros [(qc&HR&Hids&Hlive&Hdom) HL HP] Hi. eapply wp_mono; [by eapply wp_complete|].
  intros [] s' (HR'&Hs&Hm). split; [|done]. destruct (status_lookup _ _ _ Hi) as (e&He&_).
  split; [|by rewrite (sq_lock _ _ Hs)|by rewrite (sq_next _ _ Hs)]. exists qc. split_and!; [done|..].
  - intros q ids Hq. rewrite (waiting_set a i p) by done. by apply Hids.
  - intros j q. rewrite (status_at_set _ _ _ _ _ He). case_decide; [done|]. by apply Hlive.
  - by rewrite (sq_queues _ _ Hs), (sq_next _ _ Hs).
Qed.
End drain.
