(* ===== verification/QueueCreate.v ===== *)
(** * Creating and destroying queues *)

From S2P Require Import Prelude Lists Resource Queue QueueRep QueueMem QueueInsert.
From S2P Require Import QueueInsert QueueLaw QueueSend QueueRun QueueProcess QueueDrain.

(** ** NearestPower2 *)

Definition bits (t : Z) : Z := if t =? 0 then 0 else Z.log2 t + 1.

Lemma bits_half t : 0 < t → bits t = 1 + bits (Z.shiftr t 1).
Proof.
  intros Ht. unfold bits. rewrite (proj2 (Z.eqb_neq t 0)) by lia. rewrite Z.shiftr_div_pow2 by done. change (2 ^ 1) with 2.
  destruct (Z.eqb_spec (t / 2) 0) as [H0|H0].
  - assert (t = 1) as -> by (pose proof (Z.div_mod t 2); pose proof (Z.mod_pos_bound t 2); lia). done.
  - pose proof (Z.log2_shiftr t 1) as H. rewrite Z.shiftr_div_pow2 in H by done. change (2 ^ 1) with 2 in H.
    assert (2 ≤ t) as Ht2.
    { destruct (Z.lt_ge_cases t 2); [|done]. by rewrite Z.div_small in H0 by lia. }
    rewrite H by lia. assert (1 ≤ Z.log2 t); [|lia]. apply (Z.log2_le_pow2 t 1); [lia|done].
Qed.

Lemma u32_double x : u32 (Z.shiftl (u32 x) 1) = u32 (2 * x).
Proof. rewrite Z.shiftl_mul_pow2 by done. change (2 ^ 1) with 2. unfold u32. rewrite Z.mul_comm, Zmult_mod_idemp_r. done. Qed.

Lemma NearestPower2_loop_spec fuel : ∀ t j, 0 ≤ t < 2 ^ Z.of_nat fuel → 0 ≤ j →
  NearestPower2_loop fuel t (u32 (2 ^ j)) = u32 (2 ^ (j + bits t)).
Proof.
  induction fuel as [|fuel IH]; intros t j Ht Hj; simpl NearestPower2_loop.
  - change (2 ^ Z.of_nat 0) with 1 in Ht. assert (t = 0) as -> by lia. simpl. by rewrite Z.add_0_r.
  - destruct (Z.eqb_spec t 0) as [->|H0]; [unfold bits; simpl; by rewrite Z.add_0_r|].
    rewrite u32_double. replace (2 * 2 ^ j) with (2 ^ (j + 1)) by (rewrite Z.pow_add_r by lia; lia).
    rewrite IH; [|split|lia].
    + rewrite (bits_half t) by lia. do 2 f_equal. lia.
    + apply Z.shiftr_nonneg. lia.
    + rewrite Z.shiftr_div_pow2 by done. change (2 ^ 1) with 2. rewrite Nat2Z.inj_succ, Z.pow_succ_r in Ht by lia.
      apply Z.div_lt_upper_bound; lia.
Qed.

Lemma NearestPower2_log2_up x : 1 ≤ x < 4294967296 → NearestPower2 x = u32 (2 ^ Z.log2_up x).
Proof.
  intros Hx. unfold NearestPower2. rewrite (proj2 (Z.eqb_neq x 0)) by lia.
  change 1 with (u32 (2 ^ 0)) at 2. rewrite NearestPower2_loop_spec; [|change (2 ^ Z.of_nat 32) with 4294967296; lia|done].
  rewrite Z.add_0_l. do 2 f_equal. unfold bits. destruct (Z.eqb_spec (x - 1) 0) as [H|H].
  - assert (x = 1) as -> by lia. done.
  - rewrite Z.log2_up_eqn by lia. rewrite <- Z.sub_1_r. lia.
Qed.

Lemma NearestPower2_pow x : 1 ≤ x ≤ 2147483648 → ∃ k, 0 ≤ k ≤ 31 ∧ NearestPower2 x = 2 ^ k.
Proof.
  intros Hx. exists (Z.log2_up x). rewrite NearestPower2_log2_up by lia.
  assert (0 ≤ Z.log2_up x ≤ 31) as Hk.
  { split; [apply Z.log2_up_nonneg|]. apply Z.log2_up_le_pow2; [lia|]. change (2 ^ 31) with 2147483648. lia. }
  split; [done|]. pose proof (pow_bounds _ Hk). by apply u32_small; unfold is_u32; lia.
Qed.

(** ** The list of queues *)

Definition set_queues (l : list Z) (a : q_abs) : q_abs := mkQA (qa_log a) (qa_base a) (qa_devs a) l.
Definition create_queue (q : Z) (a : q_abs) : q_abs := set_queues (q :: qa_queues a) a.
Definition destroy_queue (q : Z) (a : q_abs) : q_abs := set_queues (filter (λ x, x ≠ q) (qa_queues a)) a.

Lemma ring_queues m a r size l ids : ∀ u, ring m a r size u ids → ring m (set_queues l a) r size u ids.
Proof.
  induction ids as [|i ids IH]; intros u; simpl; [done|]. intros (c&Hc&[H1 H2]&Hr). exists c.
  split_and!; [done|by split|by apply IH].
Qed.

Lemma queue_ok_queues info a l n ids : queue_ok info a ids → queue_ok (set_psNextKM n info) (set_queues l a) ids.
Proof. intros [H1 H2 H3 H4 H5 (m&Hm&Hr)]. split; try done. exists m. split; [done|by apply ring_queues]. Qed.

Lemma wf_queues l a : wf a → wf (set_queues l a).
Proof. intros [H1 H2 H3 H4]. split; try done. intros i c Hc. by apply (cmd_ok_devs a), (H1 i). Qed.

Lemma devs_queues s s' l a : apsDeviceCommandData s' = apsDeviceCommandData s → q_devcmds s' = q_devcmds s →
  q_completes s' = q_completes s → devs_ok s a → devs_ok s' (set_queues l a).
Proof.
  intros E1 E2 E3 [H1 H2]. split; rewrite ?E1, ?E2, ?E3; [done|]. intros dv k t sl Hk Ht.
  destruct (H2 dv k t sl Hk Ht) as (d&?&?&?&?&?&?&Hr). exists d. split_and!; try done.
  intros i c Hi Hc. by destruct (Hr i c Hi Hc).
Qed.

Lemma qrep_ext s s' a qc : qrep s a qc → q_queues s' = q_queues s → psQueueList s' = psQueueList s → q_syncs s' = q_syncs s →
  apsDeviceCommandData s' = apsDeviceCommandData s → q_devcmds s' = q_devcmds s → q_completes s' = q_completes s →
  q_devnodes s' = q_devnodes s → q_devdata s' = q_devdata s → qrep s' a qc.
Proof.
  intros [R1 R2 R3 [D1 D2] R5 R6] E1 E2 E3 E4 E5 E6 E7 E8. split; rewrite ?E1, ?E2, ?E3, ?E7, ?E8; try done.
  split; rewrite ?E4, ?E5, ?E6; done.
Qed.

Lemma rep_ext s s' a : rep s a → q_queues s' = q_queues s → psQueueList s' = psQueueList s → q_syncs s' = q_syncs s →
  apsDeviceCommandData s' = apsDeviceCommandData s → q_devcmds s' = q_devcmds s → q_completes s' = q_completes s →
  q_devnodes s' = q_devnodes s → q_devdata s' = q_devdata s → ui32Lock (sQProcessResource s') = 0 → q_next s ≤ q_next s' → rep s' a.
Proof.
  intros [(qc&HR&Hw&Hlive&Hdom) HL HP] E1 E2 E3 E4 E5 E6 E7 E8 EL EN. split; [|done|lia].
  exists qc. split_and!; [by eapply qrep_ext|done|done|]. rewrite E1. intros q Hq. destruct (Hdom q Hq). split; [done|lia].
Qed.

Lemma wp_OSAllocMem_q Q s : (∀ b o, Q b (set_q_os o s)) → wp (with_q_os OSAllocMem) Q s.
Proof. intros H. apply wp_zoom, wp_OSAllocMem. intros b o _ _. apply H. Qed.

Lemma wp_OSFreeMem_q Q s : (∀ o, Q tt (set_q_os o s)) → wp (with_q_os OSFreeMem) Q s.
Proof. intros H. apply wp_zoom, wp_OSFreeMem. apply H. Qed.

Lemma wp_put_queue q i Q s : Q tt (set_q_queues (<[q := i]> (q_queues s)) s) → wp (put_queue q i) Q s.
Proof. intros H. unfold put_queue. by wp_step. Qed.

(** A queue that is in no list. *)
Lemma qchain_new qs q i l : ∀ p, q ∉ l → qchain qs p l → qchain (<[q := i]> qs) p l.
Proof.
  induction l as [|x l IH]; intros p Hq; [done|]. apply not_elem_of_cons in Hq as [Hxq Hq].
  intros (->&Hx&j&Hj&Hc). split_and!; [done|done|]. exists j. rewrite lookup_insert_ne by done. split; [done|by apply IH].
Qed.

(** ** Creating *)

(** [s'] is [s] with the queue [i] under the address [q], in no list. *)
Record allocated (s s' : q_st) (q : Z) (i : PVRSRV_QUEUE_INFO) : Prop := {
  al_queue : q = q_next s;
  al_state : ∃ o r, s' = set_q_next (q + 1) (set_q_queues (<[q := i]> (q_queues s)) (set_sQProcessResource r (set_q_os o s))) ∧
    ui32Lock r = 0 }.

Lemma create_fails_rep s a q i e s1 : rep s a → allocated s s1 q i →
  wp (create_fails q e) (λ r s', r = (e, None) ∧ rep s' a) s1.
Proof.
  intros Hrep [-> (o&r&->&Hr)].
  assert (q_queues s !! q_next s = None) as Hno.
  { destruct Hrep as [(qc&_&_&_&Hdom) _ _]. destruct (q_queues s !! q_next s) eqn:Hq; [|done].
    destruct (Hdom (q_next s)) as [_ ?]; [eauto|lia]. }
  assert (∀ j t, rep (set_q_queues (delete (q_next s) (<[q_next s := j]> (q_queues s))) 
    (set_q_next (q_next s + 1) (set_q_queues (<[q_next s := j]> (q_queues s)) (set_sQProcessResource r (set_q_os t s))))) a) as Hend.
  { intros j t. eapply rep_ext; [exact Hrep|..]; try done; simpl; [|lia].
    by rewrite delete_insert_eq, delete_id. }
  assert (∀ j t, wp (free_queue (q_next s);; mret (e, @None Z)) (λ r s', r = (e, None) ∧ rep s' a)
    (set_q_next (q_next s + 1) (set_q_queues (<[q_next s := j]> (q_queues s)) (set_sQProcessResource r (set_q_os t s))))) as Hfree.
  { intros j t. unfold free_queue. wp_step. wp_step. eapply wp_get_queue; [apply lookup_insert_eq|]. wp_step. apply wp_OSFreeMem_q.
    intros t'. wp_step. wp_step. split; [done|]. apply (Hend j t'). }
  unfold create_fails. wp_step. eapply wp_get_queue; [apply lookup_insert_eq|]. wp_step.
  destruct (pvLinQueueKM i); [|wp_step; apply Hfree]. wp_step. apply wp_OSFreeMem_q. intros t. apply wp_put_queue. simpl.
  specialize (Hfree (set_pvLinQueueKM None i) t). unfold set_q_next, set_q_queues, set_sQProcessResource, set_q_os in *. simpl in *.
  by rewrite insert_insert_eq.
Qed.

Lemma rep_created s a q i s' : rep s a → queue_ok i a [] → psNextKM i = psQueueList s → q = q_next s →
  (∃ o r, s' = set_psQueueList q (set_q_next (q + 1) (set_q_queues (<[q := i]> (q_queues s)) (set_sQProcessResource r (set_q_os o s)))) ∧
    ui32Lock r = 0) → q ∉ qa_queues a ∧ rep s' (create_queue q a).
Proof.
  intros [(qc&[R1 R2 R3 R4 R5 R6]&Hw&Hlive&Hdom) HL HP] Hi Hnext Hq (o&r&->&Hr).
  assert (qc !! q = None) as Hno.
  { destruct (qc !! q) as [ids|] eqn:Hids; [|done]. destruct (R1 q ids Hids) as (j&Hj&_). destruct (Hdom q); [eauto|lia]. }
  destruct R2 as (Hch&Hnd&Hql). assert (q ∉ qa_queues a) as Hni by (rewrite Hql, Hno; by intros []).
  split; [done|]. split; [|done|simpl; lia]. exists (<[q := []]> qc). split_and!; [split|..].
  - intros q' ids [[<- <-]|[Hne Hq']]%lookup_insert_Some; simpl.
    + exists i. rewrite lookup_insert_eq. split; [done|]. replace i with (set_psNextKM (psNextKM i) i) by (by destruct i).
      by apply queue_ok_queues.
    + destruct (R1 q' ids Hq') as (j&Hj&Hok). exists j. rewrite lookup_insert_ne by done. split; [done|].
      replace j with (set_psNextKM (psNextKM j) j) by (by destruct j). by apply queue_ok_queues.
  - simpl. split_and!; [done|lia|..].
    + exists i. rewrite lookup_insert_eq. split; [done|]. rewrite Hnext. by apply qchain_new.
    + by apply NoDup_cons.
    + intros x. rewrite elem_of_cons, lookup_insert_is_Some', Hql. naive_solver.
  - done.
  - by apply (devs_queues s).
  - done.
  - by apply wf_queues.
  - intros q' ids [[<- <-]|[Hne Hq']]%lookup_insert_Some; [|by apply Hw].
    change (waiting (create_queue q a) q) with (waiting a q).
    destruct (waiting a q) as [|j l] eqn:Hwq; [done|]. assert (status_at a j = Some (Waiting q)) as Hj.
    { apply elem_of_waiting. rewrite Hwq. by left. }
    apply Hlive in Hj. rewrite Hno in Hj. by destruct Hj.
  - intros j q' Hj. apply lookup_insert_is_Some'. right. by eapply Hlive.
  - intros q'. simpl. rewrite !lookup_insert_is_Some'. intros [<-|Hq']; [split; [by left|lia]|].
    destruct (Hdom q' Hq'). split; [by right|lia].
Qed.

Lemma wp_PVRSRVCreateCommandQueueKM s a n : rep s a → 1 ≤ n ≤ 2147483648 →
  wp (PVRSRVCreateCommandQueueKM n) (λ r s', (r = (PVRSRV_ERROR_OUT_OF_MEMORY, None) ∧ rep s' a) ∨
    ∃ q, r = (PVRSRV_OK, Some q) ∧ q ∉ qa_queues a ∧ rep s' (create_queue q a) ∧
      ∃ i, q_queues s' !! q = Some i ∧ ui32QueueSize i = NearestPower2 n) s.
Proof.
  intros Hrep Hn. destruct (NearestPower2_pow n Hn) as (k&Hk&Hpow). pose proof (pow_bounds k Hk).
  pose proof (rp_lock _ _ Hrep) as HL.
  unfold PVRSRVCreateCommandQueueKM. wp_step. apply wp_OSAllocMem_q. intros [] o; cbn [negb].
  2:{ wp_step. left. split; [done|]. by eapply rep_ext. }
  do 2 wp_step. unfold new_queue. do 6 wp_step. cbn [q_next q_queues set_q_os].
  set (q := q_next s). wp_step. apply wp_OSAllocMem_q. intros [] o1; cbn [negb].
  2:{ eapply wp_mono; [eapply (create_fails_rep s a q); [done|]|by left]. split; [done|]. exists o1, (sQProcessResource s). by destruct s. }
  wp_step. apply wp_put_queue. cbn [q_queues set_q_queues set_q_next set_q_os]. rewrite insert_insert_eq, Hpow. set (i := mkQueue _ _ _ _ _ _ _).
  assert (∀ t r, q_queues t = <[q := i]> (q_queues s) → psQueueList t = psQueueList s → ui32Lock r = 0 →
    (∃ o', t = set_q_next (q + 1) (set_q_queues (<[q := i]> (q_queues s)) (set_sQProcessResource r (set_q_os o' s)))) →
    wp (eError ← OSLockResource sQProcessResource set_sQProcessResource KERNEL_ID;
        if negb (is_OK eError) then create_fails q eError
        else
          s ← get;
          upd_queue q (set_psNextKM (psQueueList s));;
          modify (set_psQueueList q);;
          eError ← OSUnlockResource sQProcessResource set_sQProcessResource KERNEL_ID;
          if negb (is_OK eError) then create_fails q eError
          else mret (PVRSRV_OK, Some q))
      (λ r s', r = (PVRSRV_OK, Some q) ∧ q ∉ qa_queues a ∧ rep s' (create_queue q a) ∧
        ∃ i, q_queues s' !! q = Some i ∧ ui32QueueSize i = 2 ^ k) t) as Hlink.
  { intros t r Hqs Hql Hr (o'&->). wp_step. unfold OSLockResource at 1. do 2 wp_step. cbn [sQProcessResource set_q_next set_q_queues set_sQProcessResource].
    rewrite Hr. cbn. do 3 wp_step. cbn. do 3 wp_step. eapply wp_upd_queue; [apply lookup_insert_eq|]. do 3 wp_step. unfold OSUnlockResource. do 2 wp_step.
    cbn. do 3 wp_step.
    assert (queue_ok (set_psNextKM (psQueueList s) i) a []) as Hok.
    { split; simpl; try done; [by exists k|by apply u32_small; unfold is_u32, PVRSRV_MAX_CMD_SIZE in *; lia|lia|unfold bytes; simpl; lia|by exists ∅]. }
    eapply rep_created in Hok as [Hni Hr']; [..|done|done|]; [|exact Hrep|].
    - split_and!; [done|done|exact Hr'|]. eexists. split; [apply lookup_insert_eq|done].
    - exists o', (mkResource 0 0). by rewrite insert_insert_eq. }
  do 2 wp_step. cbn [psQueueList]. wp_step. destruct (_ =? IMG_NULL).
  - unfold OSCreateResource. do 3 wp_step. cbn. eapply wp_mono; [apply (Hlink _ (mkResource 0 0)); [done|done|done|]|].
    + exists o1. done.
    + intros r s' (->&?&?&?). right. by exists q.
  - wp_step. cbn. eapply wp_mono; [apply (Hlink _ (sQProcessResource s)); [done|done|done|]|].
    + exists o1. by destruct s.
    + intros r s' (->&?&?&?). right. by exists q.
Qed.

(** ** Destroying *)

Lemma qchain_hd qs p l : qchain qs p l → p = hd 0 l.
Proof. destruct l; [done|]. by intros [-> _]. Qed.

(** The queues [qs'] are [qs] but for [q] and the links. *)
Definition relinked (qs qs' : gmap Z PVRSRV_QUEUE_INFO) (q : Z) : Prop :=
  qs' !! q = None ∧ ∀ x, x ≠ q → ∃ f, qs' !! x = (λ i, set_psNextKM (f i) i) <$> qs !! x.

Lemma relinked_delete qs q : relinked qs (delete q qs) q.
Proof.
  split; [apply lookup_delete_eq|]. intros x Hx. exists psNextKM. rewrite lookup_delete_ne by done.
  destruct (qs !! x) as [[]|]; done.
Qed.

Lemma relinked_unlink qs q y n info : qs !! y = Some info → relinked qs (delete q (<[y := set_psNextKM n info]> qs)) q.
Proof.
  intros Hy. split; [apply lookup_delete_eq|]. intros x Hx. rewrite lookup_delete_ne by done. destruct (decide (x = y)) as [->|Hxy].
  - exists (λ _, n). by rewrite lookup_insert_eq, Hy.
  - exists psNextKM. rewrite lookup_insert_ne by done. destruct (qs !! x) as [[]|]; done.
Qed.

Lemma qchain_delete qs q l : ∀ p, q ∉ l → qchain qs p l → qchain (delete q qs) p l.
Proof.
  induction l as [|x l IH]; intros p Hq; [done|]. apply not_elem_of_cons in Hq as [Hxq Hq].
  intros (->&Hx&i&Hi&Hc). split_and!; [done|done|]. exists i. rewrite lookup_delete_ne by done. split; [done|by apply IH].
Qed.

Lemma qchain_unlink qs q y l2 info i l1 : ∀ p, qchain qs p (l1 ++ y :: q :: l2) → NoDup (l1 ++ y :: q :: l2) →
  qs !! y = Some info → qs !! q = Some i →
  qchain (delete q (<[y := set_psNextKM (psNextKM i) info]> qs)) p (l1 ++ y :: l2).
Proof.
  induction l1 as [|x l1 IH]; intros p; simpl.
  - intros (->&Hy&info'&Hinfo'&_&Hq&i'&Hi'&Hc) (Hny&Hnd)%NoDup_cons Hinfo Hi. apply NoDup_cons in Hnd as [Hnq Hnd].
    rewrite Hi in Hi'. injection Hi' as <-. apply not_elem_of_cons in Hny as [Hyq Hny].
    split_and!; [done|done|]. eexists. rewrite lookup_delete_ne, lookup_insert_eq by done. split; [done|]. simpl.
    apply qchain_delete; [done|]. by apply qchain_new.
  - intros (->&Hx&j&Hj&Hc) [Hnx Hnd]%NoDup_cons Hinfo Hi. split_and!; [done|done|]. exists j.
    assert (x ≠ q ∧ x ≠ y) as [Hxq Hxy] by set_solver. rewrite lookup_delete_ne, lookup_insert_ne by done.
    split; [done|by apply IH].
Qed.

Lemma wp_free_queue_memory q i Q s : q_queues s !! q = Some i →
  (∀ o, Q tt (set_q_queues (delete q (q_queues s)) (set_q_os o s))) → wp (free_queue_memory q) Q s.
Proof.
  intros Hq HQ. unfold free_queue_memory. wp_step. apply wp_OSFreeMem_q. intros o.
  wp_step. eapply wp_upd_queue; [exact Hq|]. unfold free_queue. wp_step. eapply wp_get_queue; [apply lookup_insert_eq|].
  wp_step. apply wp_OSFreeMem_q. intros o'. wp_step. simpl. rewrite delete_insert_eq. apply (HQ o').
Qed.

Lemma wp_unlink_loop q i y l2 s info l1 : ∀ fuel p,
  qchain (q_queues s) p (l1 ++ y :: q :: l2) → NoDup (l1 ++ y :: q :: l2) → q_queues s !! q = Some i → q_queues s !! y = Some info →
  (length l1 < fuel)%nat →
  wp (unlink_loop fuel p q) (λ b s', b = true ∧
    ∃ o, s' = set_q_queues (delete q (<[y := set_psNextKM (psNextKM i) info]> (q_queues s))) (set_q_os o s)) s.
Proof.
  induction l1 as [|x l1 IH]; intros [|fuel] p Hc Hnd Hi Hy Hf; simpl in Hf; try lia; destruct Hc as (->&Hx&j&Hj&Hc); simpl;
    rewrite (proj2 (Z.eqb_neq _ _)) by done; wp_step; (eapply wp_get_queue; [exact Hj|]).
  - destruct Hc as (->&_). rewrite Z.eqb_refl. rewrite Hj in Hy. injection Hy as <-.
    wp_step. eapply wp_get_queue; [exact Hi|]. wp_step. apply wp_put_queue. wp_step. 
    apply NoDup_cons in Hnd as [[Hyq _]%not_elem_of_cons _].
    eapply wp_free_queue_memory; [simpl; rewrite lookup_insert_ne by done; exact Hi|]. intros o. wp_step. split; [done|]. by exists o.
  - apply NoDup_cons in Hnd as [Hnx Hnd]. assert (psNextKM j ≠ q) as Hne.
    { apply qchain_hd in Hc. rewrite Hc. destruct l1 as [|z l1]; simpl.
      - intros ->. apply NoDup_cons in Hnd as [[] _]. by left.
      - intros ->. simpl in Hnd. apply NoDup_cons in Hnd as [[] _]. set_solver. }
    rewrite (proj2 (Z.eqb_neq _ _)) by done. apply IH; (done || lia).
Qed.

Lemma rep_destroyed s s' a q : rep s a → waiting a q = [] → relinked (q_queues s) (q_queues s') q →
  qchain (q_queues s') (psQueueList s') (filter (λ x, x ≠ q) (qa_queues a)) →
  (∃ o p r, s' = set_psQueueList p (set_sQProcessResource r (set_q_queues (q_queues s') (set_q_os o s))) ∧ ui32Lock r = 0) →
  rep s' (destroy_queue q a).
Proof.
  intros [(qc&[R1 R2 R3 R4 R5 R6]&Hw&Hlive&Hdom) HL HP] Hempty [Hq Hrel] Hch (o&p&r&Hs'&Hr). destruct R2 as (_&Hnd&Hql).
  assert (∀ (f : q_st → Prop), f (set_psQueueList p (set_sQProcessResource r (set_q_queues (q_queues s') (set_q_os o s)))) → f s') as Hs
    by (intros f; by rewrite <- Hs').
  split; [|by apply (Hs (λ t, ui32Lock (sQProcessResource t) = 0))|by apply (Hs (λ t, 0 < q_next t))].
  exists (delete q qc). split_and!; [split|..].
  - intros q' ids [Hne Hq']%lookup_delete_Some. destruct (R1 q' ids Hq') as (j&Hj&Hok). destruct (Hrel q' (not_eq_sym Hne)) as [f Hf].
    exists (set_psNextKM (f j) j). rewrite Hf, Hj. split; [done|by apply queue_ok_queues].
  - split_and!; [exact Hch|by apply NoDup_filter|]. intros x. simpl. rewrite list_elem_of_filter, Hql, lookup_delete_is_Some. naive_solver.
  - apply (Hs (λ t, ∀ x, is_Some (qa_base a !! x) → q_syncs t !! x = Some (sync_of a x))). done.
  - apply (Hs (λ t, devs_ok t _)). by apply (devs_queues s).
  - by apply (Hs (λ t, ∃ ns, lists_ok (q_devnodes t) {[0 := ns]} ∧ ∀ n, n ∈ ns → is_Some (q_devdata t !! n))).
  - by apply wf_queues.
  - intros q' ids [Hne Hq']%lookup_delete_Some. by apply Hw.
  - intros j q' Hj. apply lookup_delete_is_Some. split; [|by eapply Hlive]. intros <-.
    change (status_at a j = Some (Waiting q)) in Hj. apply elem_of_waiting in Hj. rewrite Hempty in Hj. by apply elem_of_nil in Hj.
  - intros q' Hq'. destruct (decide (q' = q)) as [->|Hne]; [rewrite Hq in Hq'; by destruct Hq'|].
    destruct (Hrel q' Hne) as [f Hf]. rewrite Hf in Hq'. apply fmap_is_Some in Hq'. destruct (Hdom q' Hq') as [? ?].
    split; [by apply lookup_delete_is_Some|]. by apply (Hs (λ t, 0 < q' < q_next t)).
Qed.

Lemma bytes_zero a ids : cmds_ok a ids → (∀ i, i ∈ ids → is_Some (cmd_at a i)) → bytes a ids = 0 → ids = [].
Proof.
  destruct ids as [|i ids]; intros Hok Hk; [done|]. rewrite ids_bytes_cons. destruct (Hk i ltac:(by left)) as [c Hc]. rewrite Hc.
  cbn [from_option]. pose proof (bytes_nonneg a ids) as Hb.
  assert (cmds_ok a ids) as Hok' by (intros j d Hj; apply Hok; by right). specialize (Hb Hok').
  pose proof (cmd_size_pos c (Hok i c ltac:(by left) Hc)). lia.
Qed.

(** Equal offsets: nothing waits. *)
Lemma offsets_equal s a q i : rep s a → q_queues s !! q = Some i → ui32ReadOffset i = ui32WriteOffset i → waiting a q = [].
Proof.
  intros [(qc&HR&Hw&_&Hdom) _ _] Hq He. destruct (Hdom q ltac:(eauto)) as [[ids Hids] _].
  rewrite <- (Hw q ids Hids). destruct (qr_queue _ _ _ HR q ids Hids) as (i'&Hi'&Hok). rewrite Hq in Hi'. injection Hi' as <-.
  pose proof (wf_cmds_ok a ids (qr_wf _ _ _ HR)) as Hc. pose proof (bytes_nonneg a ids Hc) as Hb.
  apply (bytes_zero a ids Hc).
  - intros j Hj. rewrite (Hw q ids Hids) in Hj. destruct (waiting_known _ _ _ Hj) as [c ->]. eauto.
  - rewrite (qo_write _ _ _ Hok) in He. pose proof (qo_read _ _ _ Hok). pose proof (qo_bytes _ _ _ Hok).
    destruct (Z.lt_ge_cases (ui32ReadOffset i + bytes a ids) (ui32QueueSize i)) as [Hlt|Hge].
    + rewrite Z.mod_small in He by lia. lia.
    + rewrite <- (Z.mod_unique _ (ui32QueueSize i) 1 (ui32ReadOffset i + bytes a ids - ui32QueueSize i)) in He; lia.
Qed.

Lemma rep_queue s a q : rep s a → q ∈ qa_queues a → ∃ i, q_queues s !! q = Some i.
Proof.
  intros [(qc&HR&_&_&_) _ _] Hq. apply (proj2 (proj2 (qr_list _ _ _ HR))) in Hq as [ids Hids].
  destruct (qr_queue _ _ _ HR q ids Hids) as (i&Hi&_). eauto.
Qed.

Lemma rep_head s a : rep s a → psQueueList s = hd 0 (qa_queues a).
Proof. intros [(qc&HR&_&_&_) _ _]. eapply qchain_hd, (qr_list _ _ _ HR). Qed.

Section destroy.
Context {env : QueueEnv} {refusal : Refusal} {law : QueueLaw}.

Lemma wp_wait_until_empty a q s :
  waits a q s →
  wp (LOOP_UNTIL_TIMEOUT MAX_HW_TIME_US (
        i ← get_queue q; if ui32ReadOffset i =? ui32WriteOffset i then mret true else OSSleepms 1;; mret false))
    (λ b s', waits a q s' ∧ if b : bool then ∃ i, q_queues s' !! q = Some i ∧ ui32ReadOffset i = ui32WriteOffset i
                            else q_time s + MAX_HW_TIME_US ≤ q_time s') s.
Proof.
  apply (wp_LOOP_UNTIL_TIMEOUT MAX_HW_TIME_US).
  - unfold MAX_HW_TIME_US. lia.
  - intros s1 Hw. pose proof Hw as (a1&He&Hr&[info Hq]). wp_step. eapply wp_get_queue; [exact Hq|].
    destruct (Z.eqb_spec (ui32ReadOffset info) (ui32WriteOffset info)).
    + wp_step. split; [done|]. by exists info.
    + wp_step. eapply wp_mono; [by apply (wp_sleep a q)|]. intros [] s2 [Hw2 Ht]. by apply wp_ret.
Qed.

(** The removal of an empty queue, under the lock. *)
Definition remove_queue (psQueue q : Z) : M q_st PVRSRV_ERROR :=
  found ← (if psQueue =? q then
             i ← get_queue q;
             modify (set_psQueueList (psNextKM i));;
             free_queue_memory q;;
             mret true
           else
             n ← gets (λ s, size (q_queues s));
             unlink_loop n psQueue q);
  if negb found then
    eError ← OSUnlockResource sQProcessResource set_sQProcessResource KERNEL_ID;
    if negb (is_OK eError) then mret eError else mret PVRSRV_ERROR_INVALID_PARAMS
  else
    eError ← OSUnlockResource sQProcessResource set_sQProcessResource KERNEL_ID;
    if negb (is_OK eError) then mret eError
    else
      s ← get;
      if psQueueList s =? IMG_NULL then OSDestroyResource sQProcessResource set_sQProcessResource else mret eError.

Lemma wp_unlocked s Q : sQProcessResource s = mkResource 1 KERNEL_ID → (Q PVRSRV_OK (set_sQProcessResource (mkResource 0 0) s)) →
  wp (eError ← OSUnlockResource sQProcessResource set_sQProcessResource KERNEL_ID;
      if negb (is_OK eError) then mret eError
      else s ← get; if psQueueList s =? IMG_NULL then OSDestroyResource sQProcessResource set_sQProcessResource else mret eError) Q s.
Proof.
  intros HL HQ. wp_step. unfold OSUnlockResource. do 2 wp_step. rewrite HL. cbn. do 3 wp_step. cbn. do 2 wp_step.
  destruct (_ =? IMG_NULL); [|by wp_step]. unfold OSDestroyResource. do 2 wp_step. cbn. do 3 wp_step. done.
Qed.

Lemma wp_remove_queue s a q : rep s a → q ∈ qa_queues a → waiting a q = [] →
  wp (remove_queue (hd 0 (qa_queues a)) q) (λ e s', e = PVRSRV_OK ∧ rep s' (destroy_queue q a))
    (set_sQProcessResource (mkResource 1 KERNEL_ID) s).
Proof.
  intros Hrep Hq Hempty. destruct (rep_queue _ _ _ Hrep Hq) as [i Hi]. pose proof Hrep as [(qc&HR&_&_&Hdom) HL HP].
  destruct (qr_list _ _ _ HR) as (Hch&Hnd&Hql). apply list_elem_of_split in Hq as (l1&l2&Hl). rewrite Hl in *.
  assert (filter (λ x, x ≠ q) (l1 ++ q :: l2) = l1 ++ l2) as Hfil by (by apply filter_ne_mid).
  unfold remove_queue. wp_step. destruct l1 as [|x l1]; simpl hd.
  - rewrite Z.eqb_refl. wp_step. eapply wp_get_queue; [exact Hi|]. do 3 wp_step. eapply wp_free_queue_memory; [exact Hi|]. intros o. wp_step.
    cbn [negb]. apply wp_unlocked; [done|]. split; [done|]. destruct Hch as (_&Hq0&i'&Hi'&Hch). rewrite Hi in Hi'. injection Hi' as <-.
    apply NoDup_cons in Hnd as [Hni Hnd].
    eapply rep_destroyed; [exact Hrep|done|apply relinked_delete|rewrite Hl, Hfil; by apply qchain_delete|].
    exists o, (psNextKM i), (mkResource 0 0). done.
  - assert (x ≠ q) as Hxq by (intros ->; simpl in Hnd; apply NoDup_cons in Hnd as [[] _]; set_solver).
    rewrite (proj2 (Z.eqb_neq _ _)) by done.
    destruct (exists_last (l := x :: l1) ltac:(done)) as (l0&y&Hly). rewrite Hly in *. rewrite <- (assoc_L (++)) in *. simpl in *.
    assert (∃ info, q_queues s !! y = Some info) as [info Hy].
    { eapply rep_queue; [exact Hrep|]. rewrite Hl. set_solver. }
    wp_step. wp_step. eapply wp_mono.
    { apply (wp_unlink_loop q i y l2 _ info l0); [|done|exact Hi|exact Hy|].
      - pose proof (qchain_hd _ _ _ Hch) as Hhd. rewrite Hhd in Hch.
        assert (hd 0 (l0 ++ y :: q :: l2) = x) as <-; [|done]. destruct l0; by injection Hly.
      - simpl. assert (length (l0 ++ y :: q :: l2) ≤ size (q_queues s))%nat as Hsz.
        { apply NoDup_keys_length; [done|]. intros z Hz. destruct (rep_queue s a z Hrep) as [j ->]; [by rewrite Hl|eauto]. }
        rewrite length_app in Hsz. simpl in Hsz. lia. }
    intros b t (->&o&->). cbn [negb]. apply wp_unlocked; [done|]. split; [done|].
    eapply rep_destroyed; [exact Hrep|done|by apply relinked_unlink|rewrite Hl, Hfil, <- (assoc_L (++)); by apply qchain_unlink|].
    exists o, (psQueueList s), (mkResource 0 0). by destruct s.
Qed.

Lemma wp_PVRSRVDestroyCommandQueueKM s a q : rep s a → q ∈ qa_queues a →
  wp (PVRSRVDestroyCommandQueueKM q) (λ e s', ∃ a1, evolves a a1 ∧
    ((e = PVRSRV_OK ∧ waiting a1 q = [] ∧ rep s' (destroy_queue q a1)) ∨
     (e = PVRSRV_ERROR_CANNOT_FLUSH_QUEUE ∧ q_time s + MAX_HW_TIME_US ≤ q_time s' ∧ rep s' a1))) s.
Proof.
  intros Hrep Hq. destruct (rep_queue _ _ _ Hrep Hq) as [i0 Hi0]. unfold PVRSRVDestroyCommandQueueKM. do 2 wp_step.
  wp_step. eapply wp_mono; [apply (wp_wait_until_empty a q)|].
  { exists a. split_and!; [constructor|done|eauto]. }
  intros [] s1 [(a1&He&Hr1&Hq1) Hb]; cbn [negb].
  - destruct Hb as (i&Hi&Hoff). pose proof (sl_queues _ _ (evolves_log _ _ He)) as Hqs.
    wp_step. unfold OSLockResource. do 2 wp_step. rewrite (rp_lock _ _ Hr1). cbn. do 3 wp_step. cbn.
    rewrite (rep_head _ _ Hrep), <- Hqs. eapply wp_mono; [apply (wp_remove_queue s1 a1 q Hr1)|].
    + by rewrite Hqs.
    + by eapply offsets_equal.
    + intros e s' [-> Hr']. exists a1. split; [done|]. left. split_and!; [done|by eapply offsets_equal|done].
  - wp_step. exists a1. split; [done|]. by right.
Qed.
End destroy.
