(* ===== verification/QueueTop.v ===== *)
(** * Clients of the command queues

    A client calls the queue operations one after the other, each call
    chosen by the answers to the earlier ones.  The answers and the states
    are those of the abstract queues. *)

From S2P Require Import Prelude Lists Resource Queue QueueRep QueueMem QueueInsert.
From S2P Require Import QueueInsert QueueLaw QueueSend QueueRun QueueProcess QueueDrain QueueCreate.

(** ** Operations *)

Inductive q_op :=
| QCreate (n : Z)                            (** [PVRSRVCreateCommandQueueKM] *)
| QDestroy (q : Z)                           (** [PVRSRVDestroyCommandQueueKM] *)
| QSend (q : Z) (c : command) (n : Z)        (** insert and submit a command with [n] bytes of data *)
| QProcess (patience : nat) (bFlush : bool)  (** [PVRSRVProcessQueues] *)
| QComplete (p : Z) (b : bool).              (** [PVRSRVCommandCompleteKM] *)

(** The error and, of a new queue, its address. *)
Definition q_reply : Type := PVRSRV_ERROR * option Z.

Section client.
Context {env : QueueEnv}.

Definition run_q_op (o : q_op) : M q_st q_reply :=
  match o with
  | QCreate n => PVRSRVCreateCommandQueueKM n
  | QDestroy q => e ← PVRSRVDestroyCommandQueueKM q; mret (e, None)
  | QSend q c n => e ← send_command q (ac_dev c) (ac_type c) (ac_dst c) (ac_src c) n; mret (e, None)
  | QProcess patience bFlush => e ← PVRSRVProcessQueues patience bFlush; mret (e, None)
  | QComplete p b => PVRSRVCommandCompleteKM p b;; mret (PVRSRV_OK, None)
  end.

(** When an operation may be called. *)
Definition q_pre (o : q_op) (a : q_abs) : Prop :=
  match o with
  | QCreate n => 1 ≤ n ≤ 2147483648
  | QDestroy q => q ∈ qa_queues a
  | QSend q c n => q ∈ qa_queues a ∧ ac_data c = rounded n ∧ 0 ≤ n < 2147483648 ∧ Z.of_nat (length (syncs c)) < 65536 ∧
      (cmd_size c ≤ PVRSRV_MAX_CMD_SIZE → cmd_ok a c)
  | QProcess _ _ => True
  | QComplete p _ => busy a p
  end.

Context {refusal : Refusal}.

(** What an operation answers, and does to the abstract queues. *)
Inductive q_spec : q_op → q_abs → q_reply → q_abs → Prop :=
| qs_create n q a : q ∉ qa_queues a → q_spec (QCreate n) a (PVRSRV_OK, Some q) (create_queue q a)
| qs_create_fails n a : q_spec (QCreate n) a (PVRSRV_ERROR_OUT_OF_MEMORY, None) a
| qs_destroy q a a1 : evolves a a1 → waiting a1 q = [] → q_spec (QDestroy q) a (PVRSRV_OK, None) (destroy_queue q a1)
| qs_destroy_busy q a a1 : evolves a a1 → q_spec (QDestroy q) a (PVRSRV_ERROR_CANNOT_FLUSH_QUEUE, None) a1
| qs_send q c n a a1 : cmd_ok a c → evolves a a1 → q_spec (QSend q c n) a (PVRSRV_OK, None) (send q c a1)
| qs_send_big q c n a : PVRSRV_MAX_CMD_SIZE < cmd_size c → q_spec (QSend q c n) a (PVRSRV_ERROR_CMD_TOO_BIG, None) a
| qs_send_full q c n a a1 : evolves a a1 → q_spec (QSend q c n) a (PVRSRV_ERROR_CANNOT_GET_QUEUE_SPACE, None) a1
| qs_process k fl a a1 : drains_all fl (qa_queues a) a a1 → q_spec (QProcess k fl) a (PVRSRV_OK, None) a1
| qs_complete p b a i : status_at a i = Some (Running p) → q_spec (QComplete p b) a (PVRSRV_OK, None) (set_status i Completed a).

(** ** Clients *)

Inductive q_client := QStop | QCall (o : q_op) (k : q_reply → q_client).

Fixpoint run_client (c : q_client) : M q_st (list q_reply) :=
  match c with
  | QStop => mret []
  | QCall o k => r ← run_q_op o; l ← run_client (k r); mret (r :: l)
  end.

(** The client calls an operation only when it may, whatever the answers. *)
Fixpoint client_ok (c : q_client) (a : q_abs) : Prop :=
  match c with
  | QStop => True
  | QCall o k => q_pre o a ∧ ∀ r a', q_spec o a r a' → client_ok (k r) a'
  end.

Fixpoint client_spec (c : q_client) (a : q_abs) (l : list q_reply) (a' : q_abs) : Prop :=
  match c with
  | QStop => l = [] ∧ a' = a
  | QCall o k => ∃ r l' a1, l = r :: l' ∧ q_spec o a r a1 ∧ client_spec (k r) a1 l' a'
  end.

Context {law : QueueLaw}.

Lemma wp_run_q_op o s a : rep s a → q_pre o a → wp (run_q_op o) (λ r s', ∃ a', q_spec o a r a' ∧ rep s' a') s.
Proof.
  intros Hrep. destruct o as [n|q|q c n|k fl|p b]; simpl.
  - intros Hn. eapply wp_mono; [by apply (wp_PVRSRVCreateCommandQueueKM s a)|].
    intros r s' [[-> Hr]|(q&->&Hq&Hr&_)]; (eexists; split; [by constructor|done]).
  - intros Hq. wp_step. eapply wp_mono; [by apply (wp_PVRSRVDestroyCommandQueueKM s a)|].
    intros e s' (a1&He&[(->&Hw&Hr)|(->&_&Hr)]); wp_step; (eexists; split; [by econstructor|done]).
  - intros (Hq&Hd&Hn&Hl&Hok). wp_step. destruct (rep_queue _ _ _ Hrep Hq) as [i Hi].
    eapply wp_mono; [by eapply (wp_send_command s a q c n)|].
    intros e s' [(Hbig&->&->)|(a1&He&[(->&Hc&Hr)|(->&_&Hr)])]; wp_step.
    + eexists. by split; [constructor|].
    + eexists. by split; [constructor|].
    + eexists. by split; [constructor|].
  - intros _. wp_step. eapply wp_mono; [by apply (wp_PVRSRVProcessQueues s a)|].
    intros e s' (->&a'&Hd&Hr). wp_step. eexists. by split; [constructor|].
  - intros [i Hi]. wp_step. eapply wp_mono; [by apply (wp_PVRSRVCommandCompleteKM s a i)|].
    intros [] s' [Hr _]. wp_step. eexists. by split; [constructor|].
Qed.

Lemma wp_run_client c : ∀ s a, rep s a → client_ok c a →
  wp (run_client c) (λ l s', ∃ a', client_spec c a l a' ∧ rep s' a') s.
Proof.
  induction c as [|o k IH]; intros s a Hrep Hok; simpl.
  - wp_step. by exists a.
  - destruct Hok as [Hpre Hok]. wp_step. eapply wp_mono; [by apply wp_run_q_op|]. intros r s1 (a1&Hs&Hr1).
    wp_step. eapply wp_mono; [by apply IH, Hok|]. intros l s2 (a2&Hc&Hr2). wp_step. exists a2. split; [|done]. by exists r, l, a1.
Qed.
End client.
