(* ===== verification/QueueSafe.v ===== *)
(** * Commands on one object run one at a time

    A command waits until the counts of its synchronisation objects are
    those it found when it was sent: until all the earlier commands on these
    objects are done, though the counts wrap around.  So commands that
    share an object run one after the other, in the order in which they were
    sent, and the oldest command outstanding never waits for another. *)

From S2P Require Import Prelude Lists Resource Queue QueueRep QueueMem QueueInsert.
From S2P Require Import QueueInsert QueueLaw QueueSend QueueRun QueueProcess QueueDrain QueueCreate QueueTop.

(** A command has started only when the earlier ones on its objects are done. *)
Definition serial (a : q_abs) : Prop := ∀ i j ei ej x, (i < j)%nat → qa_log a !! i = Some ei → qa_log a !! j = Some ej →
  x ∈ syncs (en_cmd ei) → x ∈ syncs (en_cmd ej) → (∀ q, en_status ej ≠ Waiting q) → en_status ei = Completed.

(** The commands that are not done. *)
Definition outstanding (l : list entry) : Z := Z.of_nat (length (filter (λ e, en_status e ≠ Completed) l)).

(** The commands that wait. *)
Definition is_waiting (e : entry) : bool := match en_status e with Waiting _ => true | _ => false end.
Definition pending (a : q_abs) : nat := length (filter (λ e, is_waiting e = true) (qa_log a)).

(** ** Counting *)

Section count.
Context (P : entry → Prop) `{∀ e, Decision (P e)}.

Definition count (l : list entry) : Z := Z.of_nat (length (filter P l)).
Definition completed (l : list entry) : list entry := filter (λ e, en_status e = Completed) l.

Lemma count_completed l : 0 ≤ count l - count (completed l) ≤ outstanding l.
Proof.
  unfold count, outstanding, completed. induction l as [|e l IH]; [done|]. rewrite !filter_cons.
  repeat (case_decide; try (by tauto)); rewrite ?filter_cons; repeat (case_decide; try (by tauto)); cbn [length]; lia.
Qed.

Lemma count_completed_eq l : count (completed l) = count l → ∀ e, e ∈ l → P e → en_status e = Completed.
Proof.
  induction l as [|e l IH]; intros Hc e' He' HP; [by apply elem_of_nil in He'|].
  pose proof (count_completed l) as Hb. unfold count, completed in *. rewrite !filter_cons in Hc.
  apply elem_of_cons in He' as [->|He'].
  - destruct (decide (en_status e = Completed)); [done|]. rewrite (decide_True (P := P e)) in Hc by done. cbn [length] in Hc. lia.
  - apply IH; [|done|done]. repeat case_decide; rewrite ?filter_cons in Hc; repeat (case_decide; try done); cbn [length] in *; lia.
Qed.

Lemma count_none l : (∀ e, e ∈ l → P e → en_status e ≠ Completed) → count (completed l) = 0.
Proof.
  unfold count, completed. induction l as [|e l IH]; intros Hn; [done|]. rewrite filter_cons.
  assert (Z.of_nat (length (filter P (filter (λ e, en_status e = Completed) l))) = 0) as Hl.
  { apply IH. intros e' He'. apply Hn. by right. }
  case_decide as Hs; [|done]. rewrite filter_cons. case_decide as HP; [|done]. by destruct (Hn e ltac:(by left) HP).
Qed.

Lemma count_app l l' : count (l ++ l') = count l + count l'.
Proof. unfold count. rewrite filter_app, length_app. lia. Qed.

Lemma completed_app l l' : completed (l ++ l') = completed l ++ completed l'.
Proof. apply filter_app. Qed.
End count.

Lemma writes_count x l : writes x l = count (λ e, x ∈ ac_dst (en_cmd e)) l.
Proof. done. Qed.

Lemma reads_count x l : reads x l = count (λ e, x ∈ ac_src (en_cmd e)) l.
Proof. done. Qed.

(** ** What a serial state says of a waiting command *)

Lemma serial_later a i c q : serial a → status_at a i = Some (Waiting q) → cmd_at a i = Some c →
  ∀ x, x ∈ syncs c → ∀ e, e ∈ drop i (qa_log a) → x ∈ syncs (en_cmd e) → en_status e ≠ Completed.
Proof.
  intros Hs Hi Hc x Hx e He Hxe Hst. destruct (status_lookup _ _ _ Hi) as (ei&Hei&Hsi).
  unfold cmd_at in Hc. rewrite Hei in Hc. injection Hc as <-.
  apply list_elem_of_lookup in He as [k Hk]. rewrite lookup_drop in Hk. destruct k as [|k].
  - rewrite Nat.add_0_r in Hk. congruence.
  - assert (en_status ei = Completed); [|congruence]. eapply (Hs i (i + S k)%nat); [lia|exact Hei|exact Hk|exact Hx|exact Hxe|].
    intros q'. congruence.
Qed.

Lemma done_split a i : done a = completed (take i (qa_log a)) ++ completed (drop i (qa_log a)).
Proof. unfold done, completed. by rewrite <- filter_app, take_drop. Qed.

(** The counts of an object of a waiting command are of the earlier commands. *)
Lemma serial_counts a i c q x : serial a → status_at a i = Some (Waiting q) → cmd_at a i = Some c → x ∈ syncs c →
  writes x (done a) = writes x (completed (take i (qa_log a))) ∧ reads x (done a) = reads x (completed (take i (qa_log a))).
Proof.
  intros Hs Hi Hc Hx. rewrite (done_split a i), !writes_count, !reads_count, !count_app.
  rewrite !(count_none _ (drop i (qa_log a))); [lia|..]; intros e He Hxe; eapply (serial_later a i c q Hs Hi Hc x Hx e He);
    unfold syncs; set_solver.
Qed.

Lemma u32_close x y : u32 x = u32 y → 0 ≤ y - x < 4294967296 → x = y.
Proof.
  unfold u32. intros H Hb. assert ((y - x) mod 4294967296 = 0) as Hm.
  { rewrite Zminus_mod, H, Z.sub_diag. done. }
  rewrite Z.mod_small in Hm by done. lia.
Qed.

Lemma outstanding_app l l' : outstanding (l ++ l') = outstanding l + outstanding l'.
Proof. unfold outstanding. rewrite filter_app, length_app. lia. Qed.

Lemma outstanding_nonneg l : 0 ≤ outstanding l.
Proof. unfold outstanding. lia. Qed.

Lemma outstanding_take i l : outstanding (take i l) ≤ outstanding l.
Proof.
  rewrite <- (take_drop i l) at 2. rewrite outstanding_app. pose proof (outstanding_nonneg (drop i l)). lia.
Qed.

(** Without flushing, the counts must be equal. *)
Lemma passes_equal d t : passes false d t = true → ui32WriteOpsComplete d = fst t ∧ ui32ReadOpsComplete d = snd t.
Proof. unfold passes. simpl. rewrite andb_true_r, negb_orb, !negb_involutive. intros [?%Z.eqb_eq ?%Z.eqb_eq]%andb_prop. done. Qed.

(** ** A command that may start *)

Lemma start_after a i c q p x e : serial a → outstanding (qa_log a) < 4294967296 →
  status_at a i = Some (Waiting q) → cmd_at a i = Some c → can_start false a i p →
  x ∈ syncs c → e ∈ take i (qa_log a) → x ∈ syncs (en_cmd e) → en_status e = Completed.
Proof.
  intros Hs Ho Hi Hc (c'&sl&Hc'&_&_&_&Hr) Hx He Hxe. rewrite Hc in Hc'. injection Hc' as <-.
  unfold ready in Hr. rewrite forallb_forall in Hr. specialize (Hr x (proj1 (list_elem_of_In _ _) Hx)).
  apply passes_equal in Hr as [Hw Hrd]. destruct (serial_counts a i c q x Hs Hi Hc Hx) as [Ew Er].
  unfold ticket in Hw, Hrd. simpl in Hw, Hrd. rewrite Ew in Hw. rewrite Er in Hrd. pose proof (outstanding_take i (qa_log a)) as Hot.
  pose proof (count_completed (λ e, x ∈ ac_dst (en_cmd e)) (take i (qa_log a))) as Bw.
  pose proof (count_completed (λ e, x ∈ ac_src (en_cmd e)) (take i (qa_log a))) as Br.
  rewrite <- !writes_count in Bw. rewrite <- !reads_count in Br.
  apply u32_close in Hw; [|lia]. apply u32_close in Hrd; [|lia].
  unfold syncs in Hxe. apply elem_of_app in Hxe as [Hxe|Hxe].
  - eapply (count_completed_eq (λ e, x ∈ ac_dst (en_cmd e))); [|exact He|exact Hxe]. rewrite <- !writes_count. lia.
  - eapply (count_completed_eq (λ e, x ∈ ac_src (en_cmd e))); [|exact He|exact Hxe]. rewrite <- !reads_count. lia.
Qed.

(** ** Steps *)

Lemma lookup_set_status i st a j e : qa_log a !! i = Some e →
  qa_log (set_status i st a) !! j = if decide (j = i) then Some (mkEntry (en_cmd e) st) else qa_log a !! j.
Proof.
  intros He. simpl. case_decide as Hj; [subst j; by rewrite list_lookup_alter_eq, He|]. by rewrite list_lookup_alter_ne.
Qed.

Lemma outstanding_alter f i l : (∀ e, l !! i = Some e → en_status e ≠ Completed) → outstanding (alter f i l) ≤ outstanding l.
Proof.
  unfold outstanding. revert i. induction l as [|e l IH]; intros i Hi; [done|]. destruct i as [|i].
  - change (alter f 0%nat (e :: l)) with (f e :: l). rewrite !filter_cons. rewrite (decide_True (P := en_status e ≠ Completed)) by by apply Hi.
    case_decide; cbn [length]; lia.
  - change (alter f (S i) (e :: l)) with (e :: alter f i l). rewrite !filter_cons. specialize (IH i Hi).
    case_decide; cbn [length]; lia.
Qed.

Definition orderly (a : q_abs) : Prop := serial a ∧ outstanding (qa_log a) < 4294967296.

Lemma orderly_set i st a st0 : orderly a → status_at a i = Some st0 → st0 ≠ Completed → serial (set_status i st a) → orderly (set_status i st a).
Proof.
  intros [_ Ho] Hi Hst Hs. split; [done|]. eapply Z.le_lt_trans; [apply outstanding_alter|exact Ho].
  intros e He. destruct (status_lookup _ _ _ Hi) as (e'&He'&<-). congruence.
Qed.

Lemma orderly_start a i q p : orderly a → status_at a i = Some (Waiting q) → can_start false a i p → orderly (set_status i (Running p) a).
Proof.
  intros Ha Hi Hcan. eapply orderly_set; [exact Ha|exact Hi|done|]. destruct Ha as [Hs Ho].
  pose proof Hcan as (c&_&Hc&_). destruct (status_lookup _ _ _ Hi) as (e&He&Hes).
  intros j k ej ek x Hjk. rewrite !(lookup_set_status _ _ _ _ _ He). unfold cmd_at in Hc. rewrite He in Hc. injection Hc as Hec.
  case_decide as Hji; [|case_decide as Hki].
  - rewrite decide_False by lia. subst j. intros [= <-] Hk Hx Hxk Hnw. simpl in Hx.
    rewrite (Hs i k e ek x Hjk He Hk Hx Hxk Hnw) in Hes. done.
  - subst k. intros Hj [= <-] Hxj Hx _. simpl in Hx. eapply (start_after a i c q p x ej Hs Ho Hi); [|exact Hcan|congruence| |exact Hxj].
    + unfold cmd_at. by rewrite He, <- Hec.
    + apply list_elem_of_lookup. exists j. rewrite lookup_take_lt; done.
  - by apply Hs.
Qed.

Lemma orderly_complete a i p : orderly a → status_at a i = Some (Running p) → orderly (set_status i Completed a).
Proof.
  intros Ha Hi. eapply orderly_set; [exact Ha|exact Hi|done|]. destruct Ha as [Hs _]. destruct (status_lookup _ _ _ Hi) as (e&He&Hes).
  intros j k ej ek x Hjk. rewrite !(lookup_set_status _ _ _ _ _ He). case_decide; [by intros [= <-]|]. case_decide.
  - intros Hj [= <-] Hxj Hx _. subst k. eapply (Hs j i ej e x); try done. rewrite Hes. done.
  - by apply Hs.
Qed.

Lemma orderly_completes a a' : completes a a' → orderly a → orderly a'.
Proof. induction 1 as [|a i p a' Hi _ IH]; [done|]. intros Ha. by eapply IH, orderly_complete. Qed.

Lemma serial_send q c a : serial a → serial (send q c a).
Proof.
  intros Hs i j ei ej x Hij Hi Hj Hxi Hxj Hnw. simpl in Hi, Hj.
  destruct (decide (j < length (qa_log a))%nat) as [Hl|Hl].
  - rewrite lookup_app_l in Hi, Hj by lia. by apply (Hs i j ei ej x).
  - rewrite lookup_app_r in Hj by lia. destruct (j - length (qa_log a))%nat as [|k]; [|done].
    injection Hj as <-. simpl in Hnw. by destruct (Hnw q).
Qed.

Section steps.
Context {refusal : Refusal}.

Lemma orderly_drains q a a' : drains false q a a' → orderly a → orderly a'.
Proof.
  induction 1 as [| |a i ids p a1 a2 Hw Hcan Hc _ IH]; [done|done|]. intros Ha. apply IH.
  eapply orderly_completes; [exact Hc|]. eapply (orderly_start a i q); [done| |done]. apply elem_of_waiting. rewrite Hw. by left.
Qed.

Lemma orderly_drains_all ql a a' : drains_all false ql a a' → orderly a → orderly a'.
Proof. induction 1 as [|q ql a a1 a2 Hd _ IH]; [done|]. intros Ha. by eapply IH, orderly_drains. Qed.

Lemma orderly_evolves a a' : may_flush = false → evolves a a' → orderly a → orderly a'.
Proof.
  intros Hm. induction 1 as [|fl q i ids p a a' Hfl Hw Hcan _ IH|i p a a' Hi _ IH]; intros Ha; [done|..]; apply IH.
  - destruct fl; [by rewrite Hfl in Hm|]. eapply (orderly_start a i q); [done| |done]. apply elem_of_waiting. rewrite Hw. by left.
  - by eapply orderly_complete.
Qed.

Lemma serial_q_spec o a r a' : may_flush = false → (∀ k, o ≠ QProcess k true) → q_spec o a r a' → orderly a → serial a'.
Proof.
  intros Hm Ho Hs Ha. destruct Hs as [n q a _|n a|q a a1 He _|q a a1 He|q c n a a1 _ He|q c n a _|q c n a a1 He|k fl a a1 Hd|p b a i Hi].
  - apply Ha.
  - apply Ha.
  - by eapply orderly_evolves in He as [? _].
  - by eapply orderly_evolves in He as [? _].
  - apply serial_send. by eapply orderly_evolves in He as [? _].
  - apply Ha.
  - by eapply orderly_evolves in He as [? _].
  - destruct fl; [by destruct (Ho k)|]. by eapply orderly_drains_all in Hd as [? _].
  - by eapply orderly_complete.
Qed.
End steps.

(** ** The oldest command outstanding *)

Lemma oldest_ready a i c q : serial a → status_at a i = Some (Waiting q) → cmd_at a i = Some c →
  (∀ e, e ∈ take i (qa_log a) → en_status e = Completed) → ready false a i c = true.
Proof.
  intros Hs Hi Hc Hold. unfold ready. apply forallb_forall. intros x Hx%list_elem_of_In.
  destruct (serial_counts a i c q x Hs Hi Hc Hx) as [Ew Er].
  assert (completed (take i (qa_log a)) = take i (qa_log a)) as Hall.
  { unfold completed. revert Hold. generalize (take i (qa_log a)). intros l. induction l as [|e l IH]; intros Hold; [done|].
    rewrite filter_cons_True by (apply Hold; by left). rewrite IH; [done|]. intros e' He'. apply Hold. by right. }
  rewrite Hall in Ew, Er. unfold passes, sync_of, ticket. simpl. by rewrite Ew, Er, !Z.eqb_refl.
Qed.

Lemma oldest_head a i q : status_at a i = Some (Waiting q) → (∀ e, e ∈ take i (qa_log a) → en_status e = Completed) →
  ∃ ids, waiting a q = i :: ids.
Proof.
  intros Hi Hold. pose proof (status_length _ _ _ Hi) as Hlen. unfold waiting.
  replace (length (qa_log a)) with (i + S (length (qa_log a) - i - 1))%nat by lia. rewrite seq_app, filter_app. simpl.
  rewrite (filter_cons_True _ i) by done. eexists.
  assert (filter (λ j, status_at a j = Some (Waiting q)) (seq 0 i) = []) as ->; [|done].
  destruct (filter _ (seq 0 i)) as [|j l] eqn:Hf; [done|]. exfalso.
  assert (j ∈ j :: l) as Hj by by left. rewrite <- Hf in Hj. apply list_elem_of_filter in Hj as [Hst Hj%elem_of_seq]. destruct (status_lookup _ _ _ Hst) as (e&He&Hes).
  rewrite (Hold e) in Hes; [done|]. apply list_elem_of_lookup. exists j. rewrite lookup_take_lt; [done|lia].
Qed.

Lemma oldest_exists l : (0 < outstanding l) → ∃ i e, l !! i = Some e ∧ en_status e ≠ Completed ∧ ∀ e', e' ∈ take i l → en_status e' = Completed.
Proof.
  unfold outstanding. induction l as [|e l IH]; intros Ho; [done|]. destruct (decide (en_status e = Completed)) as [He|He].
  - rewrite filter_cons_False in Ho by tauto. destruct (IH Ho) as (i&e'&Hi&Hst&Hall). exists (S i), e'.
    split_and!; [done|done|]. intros e0 [->|?]%elem_of_cons; [done|by apply Hall].
  - exists 0%nat, e. split_and!; [done|done|]. intros e' He'. by apply elem_of_nil in He'.
Qed.

(** With nothing running, the oldest command may start. *)
Lemma oldest_can_start a : serial a → wf a → (∀ p, ¬ busy a p) → (0 < pending a)%nat →
  ∃ q i ids p, waiting a q = i :: ids ∧ can_start false a i p.
Proof.
  intros Hs Hw Hidle Hp. destruct (oldest_exists (qa_log a)) as (i&e&He&Hst&Hold).
  { unfold pending, outstanding in *. revert Hp. generalize (qa_log a). intros l. induction l as [|e l IH]; simpl; [lia|].
    rewrite !filter_cons. assert (is_waiting e = true → en_status e ≠ Completed) as Hwc by (unfold is_waiting; by destruct (en_status e)).
    repeat case_decide; cbn [length]; (lia || naive_solver). }
  destruct (en_status e) as [q|p|] eqn:Hes; [|by destruct (Hidle p); exists i; unfold status_at; rewrite He; simpl; rewrite Hes|done].
  assert (status_at a i = Some (Waiting q)) as Hi by (unfold status_at; rewrite He; simpl; by rewrite Hes).
  assert (cmd_at a i = Some (en_cmd e)) as Hc by (unfold cmd_at; by rewrite He).
  destruct (co_slot _ _ (wf_cmd _ Hw i _ Hc)) as (sl&Hsl&_). destruct (oldest_head a i q Hi Hold) as [ids Hids].
  exists q, i, ids, (sl_cookie sl). split; [done|]. exists (en_cmd e), sl. split_and!; [done|done|done|apply Hidle|].
  by eapply oldest_ready.
Qed.

(** ** Progress *)

Lemma pending_alter f i l : 
  let n := λ l, length (filter (λ e, is_waiting e = true) l) in
  ∀ e, l !! i = Some e → is_waiting (f e) = false →
  n l = (n (alter f i l) + if is_waiting e then 1 else 0)%nat.
Proof.
  intros n e. revert i. induction l as [|e' l IH]; intros i Hi Hf; [done|]. destruct i as [|i].
  - injection Hi as ->. change (alter f 0%nat (e :: l)) with (f e :: l). unfold n. rewrite !filter_cons, Hf. 
    destruct (is_waiting e); simpl; lia.
  - change (alter f (S i) (e' :: l)) with (e' :: alter f i l). unfold n in *. rewrite !filter_cons. specialize (IH i Hi Hf).
    case_decide; cbn [length]; lia.
Qed.

Lemma pending_start a i q p : status_at a i = Some (Waiting q) → pending a = S (pending (set_status i (Running p) a)).
Proof.
  intros Hi. destruct (status_lookup _ _ _ Hi) as (e&He&Hes). unfold pending. simpl.
  rewrite (pending_alter (λ e, mkEntry (en_cmd e) (Running p)) i _ e He eq_refl). unfold is_waiting. rewrite Hes. lia.
Qed.

Lemma pending_complete a i p : status_at a i = Some (Running p) → pending (set_status i Completed a) = pending a.
Proof.
  intros Hi. destruct (status_lookup _ _ _ Hi) as (e&He&Hes). unfold pending. simpl.
  rewrite (pending_alter (λ e, mkEntry (en_cmd e) Completed) i (qa_log a) e He eq_refl). unfold is_waiting. rewrite Hes. lia.
Qed.

Lemma pending_completes a a' : completes a a' → pending a' = pending a.
Proof. induction 1 as [|a i p a' Hi _ IH]; [done|]. rewrite IH. by eapply pending_complete. Qed.

Section progress.
Context {refusal : Refusal}.

Lemma pending_drains fl q a a' : drains fl q a a' → (pending a' ≤ pending a)%nat.
Proof.
  induction 1 as [| |a i ids p a1 a2 Hw Hcan Hc _ IH]; [done|done|]. apply pending_completes in Hc.
  rewrite (pending_start a i q p); [lia|]. apply elem_of_waiting. rewrite Hw. by left.
Qed.

Lemma pending_drains_all fl ql a a' : drains_all fl ql a a' → (pending a' ≤ pending a)%nat.
Proof. induction 1 as [|q ql a a1 a2 Hd _ IH]; [done|]. apply pending_drains in Hd. lia. Qed.

Lemma drains_progress fl q i ids p ql a a' : (∀ fn b j, ¬ refuses fn b j) → drains_all fl ql a a' → q ∈ ql →
  waiting a q = i :: ids → can_start fl a i p → (pending a' < pending a)%nat.
Proof.
  intros Hno. induction 1 as [|q' ql a a1 a2 Hd Hda IH]; intros Hq Hw Hcan; [by apply elem_of_nil in Hq|].
  pose proof (pending_drains_all _ _ _ _ Hda) as Hle. destruct Hd as [b Hb|b j js Hb Hstop|b j js p' b1 b2 Hb Hcan' Hc Hd].
  - apply IH; [|done|done]. apply elem_of_cons in Hq as [->|?]; [congruence|done].
  - apply IH; [|done|done]. apply elem_of_cons in Hq as [->|?]; [|done]. rewrite Hw in Hb. injection Hb as <- <-.
    destruct Hstop as [Hn|(p'&fn&_&Hr)]; [by destruct (Hn p)|by destruct (Hno _ _ _ Hr)].
  - apply pending_drains in Hd. apply pending_completes in Hc. rewrite (pending_start b j q' p'); [lia|].
    apply elem_of_waiting. rewrite Hb. by left.
Qed.
End progress.

(** ** Clients *)

Fixpoint never_flushes (c : q_client) : Prop :=
  match c with
  | QStop => True
  | QCall o k => (∀ n, o ≠ QProcess n true) ∧ ∀ r, never_flushes (k r)
  end.

(** At no time 2^32 commands are outstanding. *)
Fixpoint client_bounded `{Refusal} (c : q_client) (a : q_abs) : Prop :=
  outstanding (qa_log a) < 4294967296 ∧
  match c with QStop => True | QCall o k => ∀ r a', q_spec o a r a' → client_bounded (k r) a' end.

Lemma client_serial `{Refusal} c : may_flush = false → ∀ a l a', never_flushes c → client_bounded c a → serial a →
  client_spec c a l a' → serial a'.
Proof.
  intros Hm. induction c as [|o k IH]; intros a l a' Hn Hb Hs; simpl; [by intros [_ ->]|].
  destruct Hn as [Ho Hn], Hb as [Hb Hk]. intros (r&l'&a1&_&Hr&Hl). eapply (IH r a1); [apply Hn|by apply Hk| |exact Hl].
  eapply serial_q_spec; [done|exact Ho|exact Hr|by split].
Qed.

Lemma outstanding_length l : outstanding l ≤ Z.of_nat (length l).
Proof. unfold outstanding. pose proof (length_filter (λ e, en_status e ≠ Completed) l). lia. Qed.

Lemma drains_log `{Refusal} fl q a a' : drains fl q a a' → same_log a a'.
Proof.
  induction 1 as [| |a i ids p a1 a2 Hw Hcan Hc _ IH]; [apply same_log_refl|apply same_log_refl|].
  eapply same_log_trans; [apply same_log_set|]. eapply same_log_trans; [by apply completes_log|done].
Qed.

Lemma drains_all_log `{Refusal} fl ql a a' : drains_all fl ql a a' → same_log a a'.
Proof. induction 1 as [|q ql a a1 a2 Hd _ IH]; [apply same_log_refl|]. eapply same_log_trans; [by eapply drains_log|done]. Qed.

Lemma q_spec_length `{Refusal} o a r a' : q_spec o a r a' → (length (qa_log a') ≤ S (length (qa_log a)))%nat.
Proof.
  destruct 1 as [n q a _|n a|q a a1 He _|q a a1 He|q c n a a1 _ He|q c n a _|q c n a a1 He|k fl a a1 Hd|p b a i Hi]; simpl; try lia.
  1-4: pose proof (sl_length _ _ (evolves_log _ _ He)); rewrite ?length_app; simpl; lia.
  - pose proof (sl_length _ _ (drains_all_log _ _ _ _ Hd)). lia.
  - rewrite length_alter. lia.
Qed.
