(* ===== verification/QueueReg.v ===== *)
(** * Registering command functions

    PVRSRVRegisterCmdProcListKM allocates a table and a cookie for each
    command type.  When a cookie cannot be allocated it leaves the clean-up
    to PVRSRVRemoveCmdProcListKM, which frees every pointer of the table
    that is not null: the memory of the table had better be zero. *)

From S2P Require Import Prelude Lists Resource Queue QueueRep QueueMem QueueInsert.
From S2P Require Import QueueInsert QueueLaw QueueSend QueueRun QueueProcess QueueCreate.

Lemma bind_runs {S A B} (m : M S A) (f : A → M S B) r s : wp m (λ a s', f a s' = r) s → (m ≫= f) s = r.
Proof.
  unfold wp. change ((m ≫= f) s) with (match m s with Done a s' => f a s' | Fault => Fault | OutOfFuel => OutOfFuel end).
  by destruct (m s).
Qed.

Lemma fault_bind {S A B} (m : M S A) (f : A → M S B) s : m s = Fault → (m ≫= f) s = Fault.
Proof.
  intros H. change ((m ≫= f) s) with (match m s with Done a s' => f a s' | Fault => Fault | OutOfFuel => OutOfFuel end).
  by rewrite H.
Qed.

Section register.
Context {fresh : FreshPointer}.

(** The cookies of a table, and the state [s] with its table, cookies and memory replaced. *)
Definition cookies (xs : list DEVICE_COMMAND_DATA) : list Z := apsCmdCompleteData <$> xs.

Definition retabled (pt : Z) (xs : list DEVICE_COMMAND_DATA) (C : gmap Z COMMAND_COMPLETE_DATA) (o : os) (nx : Z) (s : q_st) : q_st :=
  mkQ o nx (q_time s) (q_pid s) (q_queues s) (psQueueList s) (sQProcessResource s) (q_syncs s) (apsDeviceCommandData s)
    (<[pt := xs]> (q_devcmds s)) C (q_devnodes s) (q_devdata s) (q_misr s).

Lemma retabled_again pt xs C o nx xs' C' o' nx' s : retabled pt xs' C' o' nx' (retabled pt xs C o nx s) = retabled pt xs' C' o' nx' s.
Proof. unfold retabled. simpl. by rewrite insert_insert_eq. Qed.

Lemma retabled_id pt xs s : q_devcmds s !! pt = Some xs → s = retabled pt xs (q_completes s) (q_os s) (q_next s) s.
Proof. intros H. unfold retabled. simpl. rewrite insert_id by done. by destruct s. Qed.

Lemma cookies_update xs i f : cookies (<[i := f]> xs) = <[i := apsCmdCompleteData f]> (cookies xs).
Proof. apply list_fmap_insert. Qed.

Lemma cookies_at xs j p ps : drop j (cookies xs) = p :: ps → ∃ x, xs !! j = Some x ∧ apsCmdCompleteData x = p ∧ drop (S j) (cookies xs) = ps.
Proof.
  intros H. assert (cookies xs !! j = Some p) as Hj by (rewrite <- (Nat.add_0_r j), <- lookup_drop, H; done).
  unfold cookies in Hj. apply list_lookup_fmap_Some in Hj as (x&Hx&Hp). exists x. split_and!; [done|done|].
  rewrite <- Nat.add_1_r, <- drop_drop, H. done.
Qed.

Lemma wp_get_devcmd_at s pt xs i x Q : q_devcmds s !! pt = Some xs → xs !! i = Some x → Q x s → wp (get_devcmd pt (Z.of_nat i)) Q s.
Proof.
  intros Hpt Hx HQ. unfold get_devcmd. do 2 wp_step. rewrite Hpt. do 2 wp_step. rewrite (proj2 (Z.leb_le _ _)) by lia.
  rewrite Nat2Z.id, Hx. by apply wp_ret.
Qed.

Lemma wp_upd_devcmd_at s pt xs i x f Q : q_devcmds s !! pt = Some xs → xs !! i = Some x →
  Q tt (set_q_devcmds (<[pt := <[i := f x]> xs]> (q_devcmds s)) s) → wp (upd_devcmd pt (Z.of_nat i) f) Q s.
Proof.
  intros Hpt Hx HQ. unfold upd_devcmd. wp_step. eapply wp_get_devcmd_at; [done|done|]. wp_step. rewrite Nat2Z.id.
  assert (alter (λ l, <[i := f x]> l) pt (q_devcmds s) = <[pt := <[i := f x]> xs]> (q_devcmds s)) as ->; [|done].
  apply map_eq. intros k. destruct (decide (k = pt)) as [->|]; [by rewrite lookup_alter_eq, lookup_insert_eq, Hpt|].
  by rewrite lookup_alter_ne, lookup_insert_ne.
Qed.

(** ** Removing *)

(** The loop of PVRSRVRemoveCmdProcListKM, from type [j] on: [ps] were allocated, the [m] others are as they came. *)
Lemma wp_remove_loop pt ps m : fresh_pointer = 0 → ∀ s xs j,
  q_devcmds s !! pt = Some xs → drop j (cookies xs) = ps ++ replicate m fresh_pointer →
  NoDup ps → (∀ p, p ∈ ps → p ≠ 0 ∧ is_Some (q_completes s !! p)) →
  wp (remove_complete_data pt (Z.of_nat j) (length ps + m)) (λ _ s', ∃ xs' C,
    s' = retabled pt xs' C (Build_os (os_script (q_os s)) (os_live (q_os s) - Z.of_nat (length ps))) (q_next s) s ∧
    ∀ p, C !! p = if decide (p ∈ ps) then None else q_completes s !! p) s.
Proof.
  intros H0. induction ps as [|p ps IH]; cbn [length Nat.add app].
  - induction m as [|m IHm]; intros s xs j Hpt Hdr Hnd Hps.
    + cbn [remove_complete_data]. wp_step. exists xs, (q_completes s). split; [|done]. replace (os_live (q_os s) - Z.of_nat 0) with (os_live (q_os s)) by lia.
      rewrite (retabled_id pt xs s Hpt) at 1. by destruct (q_os s).
    + destruct (cookies_at _ _ _ _ Hdr) as (x&Hx&Hxp&Hdr'). cbn [remove_complete_data]. wp_step. eapply wp_get_devcmd_at; [done|done|].
      rewrite Hxp, H0. cbn. do 2 wp_step. replace (Z.of_nat j + 1) with (Z.of_nat (S j)) by lia. by apply (IHm s xs).
  - intros s xs j Hpt Hdr Hnd Hps. destruct (cookies_at _ _ _ _ Hdr) as (x&Hx&Hxp&Hdr'). cbn [remove_complete_data].
    destruct (Hps p ltac:(by left)) as [Hp0 [d Hd]]. apply NoDup_cons in Hnd as [Hni Hnd].
    wp_step. eapply wp_get_devcmd_at; [done|done|]. rewrite Hxp. rewrite (proj2 (Z.eqb_neq _ _)) by done. cbn [negb].
    wp_step. wp_step. unfold free_complete. wp_step. eapply wp_get_complete; [exact Hd|]. wp_step. unfold with_q_os. wp_step. apply wp_OSFreeMem.
    wp_step. eapply wp_upd_devcmd_at; [exact Hpt|exact Hx|]. replace (Z.of_nat j + 1) with (Z.of_nat (S j)) by lia.
    set (x' := mkDevCmd _ _ _). eapply wp_mono.
    + eapply (IH _ (<[j := x']> xs) (S j)).
      * apply lookup_insert_eq.
      * rewrite cookies_update, drop_insert_lt by lia. done.
      * done.
      * intros p' Hp'. simpl. destruct (Hps p' ltac:(by right)) as [? ?]. split; [done|]. by rewrite lookup_delete_ne by (by intros ->).
    + intros [] s' (xs'&C&->&HC). exists xs', C. split.
      * match goal with |- retabled _ _ _ _ _ ?t = _ =>
          change t with (retabled pt (<[j := x']> xs) (delete p (q_completes s)) (Build_os (os_script (q_os s)) (os_live (q_os s) - 1)) (q_next s) s) end.
        rewrite retabled_again. cbn [q_os retabled os_live os_script q_next].
        by replace (os_live (q_os s) - 1 - Z.of_nat (length ps)) with (os_live (q_os s) - Z.of_nat (S (length ps))) by lia.
      * intros p'. rewrite HC. simpl. destruct (decide (p' = p)) as [->|Hne].
        -- rewrite lookup_delete_eq, (decide_True (P := p ∈ p :: ps)) by by left. by case_decide.
        -- rewrite lookup_delete_ne by done. assert (p' ∈ p :: ps ↔ p' ∈ ps) as Hiff by set_solver. by rewrite (decide_ext (p' ∈ p :: ps) (p' ∈ ps)).
Qed.

(** With garbage in the table it frees what it does not own. *)
Lemma remove_loop_faults pt ps m : fresh_pointer ≠ 0 → ∀ s xs j,
  q_devcmds s !! pt = Some xs → drop j (cookies xs) = ps ++ replicate (S m) fresh_pointer →
  NoDup ps → (∀ p, p ∈ ps → p ≠ 0 ∧ is_Some (q_completes s !! p)) → q_completes s !! fresh_pointer = None →
  remove_complete_data pt (Z.of_nat j) (length ps + S m) s = Fault.
Proof.
  intros H0. induction ps as [|p ps IH]; cbn [length Nat.add app]; intros s xs j Hpt Hdr Hnd Hps Hwild;
    destruct (cookies_at _ _ _ _ Hdr) as (x&Hx&Hxp&Hdr'); cbn [remove_complete_data]; apply bind_runs; (eapply wp_get_devcmd_at; [done|done|]).
  - rewrite Hxp, (proj2 (Z.eqb_neq _ _)) by done. cbn [negb].
    do 2 apply fault_bind. unfold free_complete. do 1 apply fault_bind. unfold get_complete.
    apply bind_runs. wp_step. by rewrite Hwild.
  - destruct (Hps p ltac:(by left)) as [Hp0 [d Hd]]. apply NoDup_cons in Hnd as [Hni Hnd].
    rewrite Hxp, (proj2 (Z.eqb_neq _ _)) by done. cbn [negb]. apply bind_runs.
    wp_step. unfold free_complete. wp_step. eapply wp_get_complete; [exact Hd|]. wp_step. unfold with_q_os. wp_step. apply wp_OSFreeMem.
    wp_step. eapply wp_upd_devcmd_at; [exact Hpt|exact Hx|]. replace (Z.of_nat j + 1) with (Z.of_nat (S j)) by lia.
    set (x' := mkDevCmd _ _ _). eapply (IH _ (<[j := x']> xs) (S j)).
    + apply lookup_insert_eq.
    + rewrite cookies_update, drop_insert_lt by lia. done.
    + done.
    + intros p' Hp'. simpl. destruct (Hps p' ltac:(by right)) as [? ?]. split; [done|]. by rewrite lookup_delete_ne by (by intros ->).
    + simpl. rewrite lookup_delete_None. by right.
Qed.

(** ** Registering *)

Lemma wp_new_complete d Q s : 
  Q (q_next s) (set_q_next (q_next s + 1) (set_q_completes (<[q_next s := d]> (q_completes s)) s)) → wp (new_complete d) Q s.
Proof. intros H. unfold new_complete. by wp_steps. Qed.

(** The loop of PVRSRVRegisterCmdProcListKM when the [k]-th cookie from type [j] on cannot be allocated. *)
Lemma wp_register_loop pt rest k : ∀ cmds s xs j,
  (k < length cmds)%nat → q_devcmds s !! pt = Some xs → drop j (cookies xs) = replicate (length cmds) fresh_pointer →
  os_script (q_os s) = replicate k true ++ false :: rest →
  wp (register_types pt (Z.of_nat j) cmds) (λ b s', b = false ∧ ∃ xs' C,
    s' = retabled pt xs' C (Build_os rest (os_live (q_os s) + Z.of_nat k)) (q_next s + Z.of_nat k) s ∧
    take j (cookies xs') = take j (cookies xs) ∧
    drop j (cookies xs') = seqZ (q_next s) (Z.of_nat k) ++ replicate (length cmds - k) fresh_pointer ∧
    ∀ p, if decide (p ∈ seqZ (q_next s) (Z.of_nat k)) then is_Some (C !! p) else C !! p = q_completes s !! p) s.
Proof.
  induction k as [|k IH]; intros [|[fn [dst src]] cmds] s xs j Hk Hpt Hdr Hos; simpl in Hk; try lia;
    cbn [length replicate] in Hdr; destruct (cookies_at _ _ _ _ Hdr) as (x&Hx&Hxp&Hdr'); cbn [register_types]; wp_step;
    (eapply wp_upd_devcmd_at; [exact Hpt|exact Hx|]); set (x1 := mkDevCmd _ _ _); wp_step; unfold with_q_os; wp_step;
    unfold wp at 1, OSAllocMem; cbn [q_os set_q_devcmds]; rewrite Hos; cbn [replicate app negb].
  - wp_step. split; [done|]. exists (<[j := x1]> xs), (q_completes s). split_and!.
    + unfold retabled, set_q_os, set_q_devcmds. simpl. by rewrite !Z.add_0_r.
    + rewrite cookies_update. unfold x1. simpl. rewrite list_insert_id; [done|]. by apply list_lookup_fmap_Some; exists x.
    + rewrite cookies_update. unfold x1. simpl. rewrite list_insert_id; [|by apply list_lookup_fmap_Some; exists x]. by rewrite Hdr.
    + done.
  - set (s1 := set_q_os _ _). wp_step. apply wp_new_complete. set (d := mkComplete _ _ _ _ _).
    set (s2 := set_q_next _ _). wp_step. eapply wp_upd_devcmd_at; [simpl; apply lookup_insert_eq| |].
    { apply list_lookup_insert_eq. by apply lookup_lt_Some in Hx. }
    set (x2 := mkDevCmd _ _ _). set (xs2 := <[j := x2]> _). replace (Z.of_nat j + 1) with (Z.of_nat (S j)) by lia.
    eapply wp_mono; [eapply (IH cmds _ xs2 (S j))|].
    + lia.
    + simpl. apply lookup_insert_eq.
    + unfold xs2. rewrite !cookies_update, list_insert_insert_eq, drop_insert_lt by lia. exact Hdr'.
    + done.
    + assert (cookies xs2 = <[j := q_next s]> (cookies xs)) as Hc2.
      { unfold xs2. by rewrite !cookies_update, list_insert_insert_eq. }
      assert (j < length (cookies xs))%nat as Hlen by (unfold cookies; rewrite length_fmap; by apply lookup_lt_Some in Hx).
      intros b s' (->&xs'&C&->&Htk&Hdr2&HC). split; [done|]. exists xs', C. simpl in Hdr2, HC |- *.
      assert (seqZ (q_next s) (Z.of_nat (S k)) = q_next s :: seqZ (q_next s + 1) (Z.of_nat k)) as Hseq.
      { rewrite seqZ_cons by lia. f_equal; f_equal; lia. }
      split_and!.
      * unfold retabled. simpl. rewrite !insert_insert_eq. f_equal; [f_equal; lia|lia].
      * rewrite Hc2 in Htk. apply (f_equal (take j)) in Htk. rewrite !take_take, !Nat.min_l in Htk by lia.
        by rewrite take_insert_ge in Htk by lia.
      * rewrite Hseq. rewrite <- (take_drop (S j) (cookies xs')), Htk, Hdr2, Hc2. 
        rewrite (take_S_r _ _ (q_next s)) by by apply list_lookup_insert_eq.
        rewrite <- (assoc_L (++)), drop_app_length'; [done|]. rewrite length_take, length_insert. lia.
      * intros p. rewrite Hseq. specialize (HC p). destruct (decide (p = q_next s)) as [->|Hne].
        -- rewrite decide_True by by left. rewrite decide_False in HC.
           ++ rewrite HC, lookup_insert_eq. eauto.
           ++ rewrite elem_of_seqZ. lia.
        -- rewrite lookup_insert_ne in HC by done.
           assert (p ∈ q_next s :: seqZ (q_next s + 1) (Z.of_nat k) ↔ p ∈ seqZ (q_next s + 1) (Z.of_nat k)) as Hiff by set_solver.
           by rewrite (decide_ext (p ∈ q_next s :: seqZ (q_next s + 1) (Z.of_nat k)) (p ∈ seqZ (q_next s + 1) (Z.of_nat k))).
Qed.

(** No block has an address that is yet to be given out. *)
Definition fresh_blocks (s : q_st) : Prop := 0 < q_next s ∧ ∀ p, q_next s ≤ p → q_completes s !! p = None ∧ q_devcmds s !! p = None.

Lemma seqZ_new s k p : fresh_blocks s → p ∈ seqZ (q_next s + 1) k → p ≠ 0 ∧ q_completes s !! p = None.
Proof. intros [Hn Hf] Hp. apply elem_of_seqZ in Hp. split; [lia|]. apply Hf. lia. Qed.

(** The failing registration comes down to the clean-up. *)
Lemma register_cleanup d cmds s k rest :
  d < SYS_DEVICE_COUNT → (k < length cmds)%nat → fresh_blocks s → os_script (q_os s) = true :: replicate k true ++ false :: rest →
  ∃ xs C, let s' := retabled (q_next s) xs C (Build_os rest (os_live (q_os s) + 1 + Z.of_nat k)) (q_next s + 1 + Z.of_nat k)
      (set_apsDeviceCommandData (<[d := q_next s]> (apsDeviceCommandData s)) s) in
    cookies xs = seqZ (q_next s + 1) (Z.of_nat k) ++ replicate (length cmds - k) fresh_pointer ∧
    (∀ p, if decide (p ∈ seqZ (q_next s + 1) (Z.of_nat k)) then is_Some (C !! p) else C !! p = q_completes s !! p) ∧
    PVRSRVRegisterCmdProcListKM d cmds s =
      (_ ← PVRSRVRemoveCmdProcListKM d (Z.of_nat (length cmds)); mret PVRSRV_ERROR_OUT_OF_MEMORY) s'.
Proof.
  intros Hd Hk [Hn Hf] Hos. set (l := replicate (length cmds) (mkDevCmd fresh_pointer fresh_pointer fresh_pointer)).
  set (s1 := set_apsDeviceCommandData (<[d := q_next s]> (apsDeviceCommandData s)) (set_q_next (q_next s + 1)
    (set_q_devcmds (<[q_next s := l]> (q_devcmds s)) (set_q_os (Build_os (replicate k true ++ false :: rest) (os_live (q_os s) + 1)) s)))).
  assert (wp (register_types (q_next s) 0 cmds) (λ b s', b = false ∧ ∃ xs C,
    s' = retabled (q_next s) xs C (Build_os rest (os_live (q_os s) + 1 + Z.of_nat k)) (q_next s + 1 + Z.of_nat k) s1 ∧
    cookies xs = seqZ (q_next s + 1) (Z.of_nat k) ++ replicate (length cmds - k) fresh_pointer ∧
    (∀ p, if decide (p ∈ seqZ (q_next s + 1) (Z.of_nat k)) then is_Some (C !! p) else C !! p = q_completes s !! p)) s1) as Hreg.
  { change 0 with (Z.of_nat 0). eapply wp_mono.
    - eapply (wp_register_loop (q_next s) rest k cmds s1 l 0); [done|apply lookup_insert_eq| |done].
      unfold cookies, l. by rewrite fmap_replicate.
    - intros b s' (->&xs&C&->&_&Hdr&HC). split; [done|]. rewrite drop_0 in Hdr. by exists xs, C. }
  unfold wp in Hreg. destruct (register_types (q_next s) 0 cmds s1) as [b s2| |] eqn:Hrun; [|done..].
  destruct Hreg as (->&xs&C&->&Hck&HC). exists xs, C. split_and!; [done|done|].
  unfold PVRSRVRegisterCmdProcListKM. rewrite (proj2 (Z.leb_gt _ _)) by lia.
  apply bind_runs. unfold with_q_os. wp_step. unfold wp, OSAllocMem. rewrite Hos. cbn [negb].
  apply bind_runs. unfold new_devcmds. do 4 wp_step. cbn [q_next set_q_os]. apply bind_runs. wp_step. apply bind_runs. fold l.
  unfold wp. fold s1. change (set_apsDeviceCommandData (<[d:=q_next s]> (apsDeviceCommandData
    (set_q_next (q_next s + 1) (set_q_devcmds (<[q_next s:=l]> (q_devcmds (set_q_os (Build_os (replicate k true ++ false :: rest) (os_live (q_os s) + 1)) s)))
      (set_q_os (Build_os (replicate k true ++ false :: rest) (os_live (q_os s) + 1)) s))))) _) with s1.
  rewrite Hrun. f_equal. unfold retabled, s1. simpl. by rewrite insert_insert_eq.
Qed.

Lemma wp_remove_registered d n s pt xs C ps m rest :
  fresh_pointer = 0 → 0 ≤ d < SYS_DEVICE_COUNT → apsDeviceCommandData s !! d = Some pt → q_devcmds s !! pt = Some xs →
  cookies xs = ps ++ replicate m fresh_pointer → n = Z.of_nat (length ps + m) → NoDup ps → (∀ p, p ∈ ps → p ≠ 0) →
  q_completes s = C → (∀ p, p ∈ ps → is_Some (C !! p)) → q_os s = rest →
  wp (PVRSRVRemoveCmdProcListKM d n) (λ e s', e = PVRSRV_OK ∧ ∃ C',
    s' = mkQ (Build_os (os_script rest) (os_live rest - 1 - Z.of_nat (length ps))) (q_next s) (q_time s) (q_pid s) (q_queues s) (psQueueList s)
      (sQProcessResource s) (q_syncs s) (delete d (apsDeviceCommandData s)) (delete pt (q_devcmds s)) C' (q_devnodes s) (q_devdata s) (q_misr s) ∧
    ∀ p, C' !! p = if decide (p ∈ ps) then None else C !! p) s.
Proof.
  intros H0 Hd Hpt Hxs Hck -> Hnd Hnz <- Hall <-. unfold PVRSRVRemoveCmdProcListKM. rewrite (proj2 (Z.leb_gt _ _)) by lia.
  wp_step. wp_step. rewrite Hpt, Nat2Z.id. wp_step. change 0 with (Z.of_nat 0). eapply wp_mono.
  { eapply (wp_remove_loop pt ps m H0 s xs 0); [done|by rewrite drop_0|done|]. intros p Hp. split; [by apply Hnz|by apply Hall]. }
  intros [] s' (xs'&C'&->&HC). wp_step. unfold with_q_os. wp_step. apply wp_OSFreeMem. do 5 wp_step. split; [done|].
  exists C'. split; [|done]. unfold retabled, set_q_os, set_q_devcmds, set_apsDeviceCommandData. simpl.
  rewrite delete_insert_eq. f_equal. f_equal. lia.
Qed.
End register.
