(* ===== verification/QueueProps.v ===== *)
(** * Properties of the command queues

    First two display drivers that keep the laws of [QueueLaw], for the witnesses:
    one that never finishes a command by itself, one that finishes every command
    at once. *)

From S2P Require Import Prelude Lists Resource Queue QueueRep QueueMem QueueInsert QueueLaw.
From S2P Require Import QueueSend QueueRun QueueProcess QueueDrain QueueCreate QueueTop QueueSafe QueueReg.

(** Nothing is refused, no other thread flushes. *)
#[export] Instance willing : Refusal := {| refuses := λ _ _ _, False; may_flush := false |}.

(** A driver that takes every command and waits for its interrupt. *)
Definition patient_driver : QueueEnv := {|
  cmd_proc := λ _ _ _ _, mret true;
  device_complete := λ _ _, mret tt;
  PVRSRVSetDCState := λ _, mret tt;
  sleep_env := mret tt |}.

Lemma patient_law : @QueueLaw patient_driver willing.
Proof.
  split; simpl.
  - intros fn p n d s a qc i HR _. apply wp_ret. exists a. split_and!; [constructor|done|done|done].
  - intros f n s a qc HR. by apply wp_ret.
  - intros st s a qc HR. by apply wp_ret.
  - intros s a Hr. apply wp_ret. exists a. split_and!; [constructor|done|lia|lia|done].
Qed.

(** A driver that completes a command before it returns. *)
Definition instant_driver : QueueEnv := {|
  cmd_proc := λ _ p _ _, @PVRSRVCommandCompleteKM patient_driver p true;; mret true;
  device_complete := λ _ _, mret tt;
  PVRSRVSetDCState := λ _, mret tt;
  sleep_env := mret tt |}.

Lemma instant_law : @QueueLaw instant_driver willing.
Proof.
  split; simpl.
  - intros fn p n d s a qc i HR Hi. wp_step. eapply wp_mono; [by apply (@wp_complete _ _ patient_law)|].
    intros [] s' (HR'&Hs&_). apply wp_ret. exists (set_status i Completed a). split_and!; [by eapply cp_step; [|constructor]|done|done|done].
  - intros f n s a qc HR. by apply wp_ret.
  - intros st s a qc HR. by apply wp_ret.
  - intros s a Hr. apply wp_ret. exists a. split_and!; [constructor|done|lia|lia|done].
Qed.

(** ** An example

    One device with one command type for up to two destinations and two
    sources, three synchronisation objects, no queue yet. *)

Definition demo_slot : slot_info := mkSlot 500 2 2 2.

Definition demo_abs : q_abs := mkQA [] (list_to_map [(21, (0, 0)); (22, (0, 0)); (23, (4294967295, 0))]) {[0 := [demo_slot]]} [].

Definition demo_sync (w : Z) : PVRSRV_SYNC_DATA := mkSyncData w w 0 0.

Definition demo_state : q_st := mkQ os_plenty 100 0 7 ∅ 0 (mkResource 0 0)
  (list_to_map [(21, demo_sync 0); (22, demo_sync 0); (23, demo_sync 4294967295)])
  {[0 := 1]} {[1 := [mkDevCmd 500 2 0]]} {[2 := mkComplete false 0 0 (replicate 4 (mkSyncObject 0 0 0)) 2]}
  (mkLists ∅ {[0 := 0]}) ∅ MISR_IDLE.

Lemma demo_q_rep : rep demo_state demo_abs.
Proof.
  assert (∀ i st, status_at demo_abs i ≠ Some st) as Hno by (intros [|i] st; done).
  assert (∀ i c, cmd_at demo_abs i ≠ Some c) as Hnc by (intros [|i] c; done).
  split; [|done|done]. exists ∅. split_and!; [split|..].
  - done.
  - split_and!; [done|constructor|]. intros q. simpl. rewrite elem_of_nil. split; [done|by intros []].
  - intros x [b Hb]. unfold demo_state, demo_abs in *. simpl in *.
    repeat (apply lookup_insert_Some in Hb as [[<- <-]|[? Hb]]; [done|]). done.
  - assert (qa_devs demo_abs = {[0 := [demo_slot]]}) as Hdevs by done. split; rewrite Hdevs.
    + intros d l [<- <-]%lookup_singleton_Some. exists 1, [mkDevCmd 500 2 0]. done.
    + intros dv l t sl [<- <-]%lookup_singleton_Some Ht. destruct t; [|done]. injection Ht as <-.
      eexists. split; [done|]. split_and!; try done. split; [done|]. by intros [i ?%Hno].
  - exists []. split; [|by intros n ?%elem_of_nil]. split.
    + intros h l [<- <-]%lookup_singleton_Some. split; [done|constructor].
    + intros h h' l l' x [<- <-]%lookup_singleton_Some [<- <-]%lookup_singleton_Some. done.
  - split.
    + by intros i c ?%Hnc.
    + by intros i j p ?%Hno.
    + by intros i p ?%Hno.
    + unfold demo_abs. simpl. intros d t d' t' l l' sl sl' [<- <-]%lookup_singleton_Some Ht [<- <-]%lookup_singleton_Some Ht'. destruct t, t'; try done.
  - done.
  - by intros i q ?%Hno.
  - by intros q [].
Qed.

(** ** A client for the witnesses *)

Definition demo_cmd : command := mkCmd 0 0 [21] [22] 12.

Definition demo_client : q_client :=
  QCall (QCreate 4096) (λ r, match r with
    | (_, Some q) => QCall (QSend q demo_cmd 10) (λ _, QCall (QProcess 3 false) (λ _, QStop))
    | _ => QStop
    end).

Lemma demo_cmd_ok a : qa_devs a = qa_devs demo_abs → qa_base a = qa_base demo_abs → cmd_ok a demo_cmd.
Proof.
  intros Hd Hb. apply (cmd_ok_devs demo_abs); [done|done|]. split; try done.
  - intros x Hx. unfold syncs, demo_cmd in Hx. simpl in Hx. repeat (apply elem_of_cons in Hx as [->|Hx]; [by eexists|]). by apply elem_of_nil in Hx.
  - by apply (bool_decide_unpack _).
  - exists demo_slot. split_and!; [done|vm_compute; congruence..].
Qed.

Lemma demo_client_ok : client_ok demo_client demo_abs.
Proof.
  split; [simpl; lia|]. intros r a' Hs. inversion Hs as [n q a Hq|n a| | | | | | |]; subst; simpl; [|done].
  split_and!; [by left|done|lia|lia|lia|intros _; by apply demo_cmd_ok|]. intros r1 a1 _. by split.
Qed.

Lemma demo_client_bounded : client_bounded demo_client demo_abs.
Proof.
  assert (∀ a, (length (qa_log a) ≤ 3)%nat → outstanding (qa_log a) < 4294967296) as Hb.
  { intros a Ha. pose proof (outstanding_length (qa_log a)). lia. }
  split; [by apply Hb; simpl; lia|]. intros r a' Hs. pose proof (q_spec_length _ _ _ _ Hs) as L1. simpl in L1.
  inversion Hs as [n q a Hq|n a| | | | | | |]; subst; simpl; [|by split].
  split; [done|]. intros r1 a1 Hs1. pose proof (q_spec_length _ _ _ _ Hs1) as L2. simpl in L2.
  split; [apply Hb; lia|]. intros r2 a2 Hs2. pose proof (q_spec_length _ _ _ _ Hs2) as L3. split; [apply Hb; lia|done].
Qed.

(** ** Refinement *)

(** C4: a client of the queues that keeps the rules of [q_pre] creates
    queues of a size from 1 to 2^31 (above it, NearestPower2 is 0 and the
    code overruns its buffer), names queues that exist, sends commands of a
    registered type with less than 2^31 bytes of data, whose synchronisation
    objects are known, distinct, and no more than the type was registered
    with, and completes only commands that run; commands larger than the
    maximum may be sent and are refused. Whatever such a client does, and as
    long as display driver, device and the other threads keep their laws
    ([QueueLaw]), the C code neither faults nor loops, and its answers and
    states are those of the abstract queues: each queue is first in first
    out, a command starts only when its objects let it, and the counts of
    the synchronisation objects are numbers of commands. *)
Theorem queue_refines `{QueueEnv, Refusal, !QueueLaw} c s a :
  rep s a → client_ok c a → wp (run_client c) (λ l s', ∃ a', client_spec c a l a' ∧ rep s' a') s.
Proof. apply wp_run_client. Qed.

Lemma queue_refines_witness :
  rep demo_state demo_abs ∧ wp (@run_client instant_driver demo_client)
    (λ l s', ∃ a', client_spec demo_client demo_abs l a' ∧ rep s' a') demo_state.
Proof. split; [exact demo_q_rep|]. apply (@queue_refines instant_driver willing instant_law); [exact demo_q_rep|exact demo_client_ok]. Defined.

(** ** Safety *)

(** C11: without flushing, two commands that name the same synchronisation
    object never overtake each other: the later one has not left its queue
    unless the earlier one is done, even in different queues and although
    the 32-bit counts wrap around, provided fewer than 2^32 commands are
    outstanding at a time. *)
Theorem queue_serial `{QueueEnv, Refusal, !QueueLaw} c s a :
  rep s a → client_ok c a → serial a → may_flush = false → never_flushes c → client_bounded c a →
  wp (run_client c) (λ _ s', ∃ a', rep s' a' ∧ serial a') s.
Proof.
  intros Hr Hok Hs Hm Hn Hb. eapply wp_mono; [by apply wp_run_client|]. intros l s' (a'&Hl&Hr'). exists a'. split; [done|].
  by eapply client_serial.
Qed.

Lemma queue_serial_witness : serial demo_abs ∧ wp (@run_client patient_driver demo_client) (λ _ s', ∃ a', rep s' a' ∧ serial a') demo_state.
Proof.
  assert (serial demo_abs) as Hs by (intros [|i] j ei ej x Hij Hi; done). split; [exact Hs|].
  apply (@queue_serial patient_driver willing patient_law demo_client demo_state demo_abs);
    [exact demo_q_rep|exact demo_client_ok|exact Hs|reflexivity| |exact demo_client_bounded].
  split; [by intros n|]. intros [e [q|]]; [|done]. split; [by intros n|]. intros r. by split; [intros n|].
Defined.

(** ** Progress *)

(** C17: the queues do not deadlock: when commands wait and none is running,
    the driver refuses nothing, and on each synchronisation object commands
    have so far started only after the earlier ones were done ([serial],
    which [queue_serial] shows to hold as long as nothing is flushed and
    fewer than 2^32 commands are outstanding), then processing the queues
    starts at least one of them. *)
Theorem queue_progress `{QueueEnv, Refusal, !QueueLaw} s a n :
  rep s a → serial a → (∀ fn b i, ¬ refuses fn b i) → (∀ p, ¬ busy a p) → (0 < pending a)%nat →
  wp (PVRSRVProcessQueues n false) (λ e s', e = PVRSRV_OK ∧ ∃ a', rep s' a' ∧ (pending a' < pending a)%nat) s.
Proof.
  intros Hr Hs Hno Hidle Hp. pose proof Hr as [(qc&HR&_&Hlive&_) _ _].
  destruct (oldest_can_start a Hs (qr_wf _ _ _ HR) Hidle Hp) as (q&i&ids&p&Hw&Hcan).
  eapply wp_mono; [by apply wp_PVRSRVProcessQueues|]. intros e s' (->&a'&Hd&Hr'). split; [done|]. exists a'. split; [done|].
  eapply drains_progress; [exact Hno|exact Hd| |exact Hw|exact Hcan].
  apply (proj2 (proj2 (qr_list _ _ _ HR))). apply (Hlive i). apply elem_of_waiting. rewrite Hw. by left.
Qed.

(** A state in which a command waits. *)
Definition demo_sent : q_abs := send 100 demo_cmd (create_queue 100 demo_abs).

Definition demo_sender : q_client := QCall (QCreate 4096) (λ r, match r with
  | (_, Some q) => QCall (QSend q demo_cmd 10) (λ _, QStop)
  | _ => QStop
  end).

Definition replies {S A} (m : M S A) (s : S) : option A := match m s with Done a _ => Some a | _ => None end.

Lemma wp_replies {S A} (m : M S A) Q s l : wp m Q s → replies m s = Some l → ∃ s', Q l s'.
Proof. unfold wp, replies. destruct (m s) as [a s'| |]; [|done..]. intros HQ [= <-]. by exists s'. Qed.

Lemma demo_replies : replies (@run_client patient_driver demo_sender) demo_state = Some [(PVRSRV_OK, Some 100); (PVRSRV_OK, None)].
Proof. vm_compute. reflexivity. Qed.

Lemma evolves_idle `{Refusal} a a' : qa_log a = [] → evolves a a' → a' = a.
Proof.
  intros Ha. assert (∀ i st, status_at a i ≠ Some st) as Hno by (intros i st; unfold status_at; by rewrite Ha).
  destruct 1 as [|fl q i ids p a a' _ Hw|i p a a' Hi]; [done|..].
  - destruct (Hno i (Waiting q)). apply elem_of_waiting. rewrite Hw. by left.
  - by destruct (Hno i (Running p)).
Qed.

Lemma demo_sent_rep : ∃ s, rep s demo_sent.
Proof.
  assert (client_ok demo_sender demo_abs) as Hok.
  { split; [simpl; lia|]. intros r a' Hs. inversion Hs as [n q a Hq|n a| | | | | | |]; subst; simpl; [|done].
    split; [|done]. split_and!; [by left|done|lia|lia|lia|intros _; by apply demo_cmd_ok]. }
  destruct (wp_replies _ _ _ _ (@wp_run_client patient_driver willing patient_law demo_sender demo_state demo_abs demo_q_rep Hok) demo_replies)
    as (s&a'&Hc&Hr).
  exists s. destruct Hc as (r&l&a1&Hl&Hs1&Hc). injection Hl as <- <-.
  inversion Hs1 as [n q a Hq|n a| | | | | | |]; subst. destruct Hc as (r&l&a2&Hl&Hs2&Hl2&->). injection Hl as <- <-.
  inversion Hs2 as [| | | |q c n a a1 Hcok He| | | |]; subst. by apply evolves_idle in He as ->.
Qed.

Lemma queue_progress_witness : ∃ s, rep s demo_sent ∧
  wp (@PVRSRVProcessQueues instant_driver 0 false) (λ e s', e = PVRSRV_OK ∧ ∃ a', rep s' a' ∧ (pending a' < pending demo_sent)%nat) s.
Proof.
  destruct demo_sent_rep as [s Hs]. exists s. split; [exact Hs|].
  apply (@queue_progress instant_driver willing instant_law s demo_sent 0); [exact Hs| | | |].
  - intros i j ei ej x Hij Hi Hj. destruct j as [|[|j]]; [lia|done|done].
  - intros fn b i H. exact H.
  - intros p [[|[|i]] Hi]; done.
  - vm_compute. lia.
Defined.

(** ** Sizes *)

(** [NearestPower2] is the least power of two that is not smaller, and
    0 when there is none of 32 bits. *)
Theorem NearestPower2_least x : is_u32 x → 1 ≤ x →
  if x <=? 2147483648 then ∃ k, 0 ≤ k ≤ 31 ∧ NearestPower2 x = 2 ^ k ∧ x ≤ 2 ^ k ∧ ∀ j, 0 ≤ j → x ≤ 2 ^ j → k ≤ j
  else NearestPower2 x = 0.
Proof.
  unfold is_u32. intros Hx H1. rewrite NearestPower2_log2_up by lia. destruct (Z.leb_spec x 2147483648) as [Hle|Hgt].
  - assert (0 ≤ Z.log2_up x ≤ 31) as Hk.
    { split; [apply Z.log2_up_nonneg|]. apply Z.log2_up_le_pow2; [lia|]. change (2 ^ 31) with 2147483648. lia. }
    exists (Z.log2_up x). pose proof (pow_bounds _ Hk). split_and!; [lia|lia|by apply u32_small; unfold is_u32; lia|..].
    + destruct (Z.eq_dec x 1) as [->|]; [done|]. apply (Z.log2_up_spec x). lia.
    + intros j Hj Hxj. by apply Z.log2_up_le_pow2; [lia|].
  - assert (Z.log2_up x = 32) as ->; [|done]. apply (Z.log2_up_unique x 32); [lia|]. change (2 ^ Z.pred 32) with 2147483648. change (2 ^ 32) with 4294967296. lia.
Qed.

Lemma NearestPower2_least_witness : is_u32 1025 ∧ 1 ≤ 1025 ∧
  (∃ k, 0 ≤ k ≤ 31 ∧ NearestPower2 1025 = 2 ^ k ∧ 1025 ≤ 2 ^ k ∧ ∀ j, 0 ≤ j → 1025 ≤ 2 ^ j → k ≤ j).
Proof.
  assert (is_u32 1025) as H by (unfold is_u32; lia). assert (1 ≤ 1025) as H1 by lia. split_and!; [exact H|exact H1|].
  exact (NearestPower2_least 1025 H H1).
Defined.

(** ** Out of memory *)

(** When the table of [PVRSRVRegisterCmdProcListKM] is allocated but
    one of its cookies is not, the clean-up depends on what the table's
    memory held: were it zero, everything would be given back and the
    device not registered; as [OSAllocMem] does not clear it, the first
    wild pointer that is not a cookie is freed. *)
Theorem register_out_of_memory `{FreshPointer} d cmds s k rest :
  0 ≤ d < SYS_DEVICE_COUNT → (k < length cmds)%nat → fresh_blocks s →
  os_script (q_os s) = true :: replicate k true ++ false :: rest →
  if decide (fresh_pointer = 0) then
    wp (PVRSRVRegisterCmdProcListKM d cmds) (λ e s', e = PVRSRV_ERROR_OUT_OF_MEMORY ∧
      q_os s' = Build_os rest (os_live (q_os s)) ∧ apsDeviceCommandData s' = delete d (apsDeviceCommandData s) ∧
      q_devcmds s' = q_devcmds s ∧ q_completes s' = q_completes s) s
  else
    q_completes s !! fresh_pointer = None → fresh_pointer ∉ seqZ (q_next s + 1) (Z.of_nat k) →
    PVRSRVRegisterCmdProcListKM d cmds s = Fault.
Proof.
  intros Hd Hk Hf Hos. destruct (register_cleanup d cmds s k rest ltac:(lia) Hk Hf Hos) as (xs&C&Hck&HC&Hrun).
  set (ps := seqZ (q_next s + 1) (Z.of_nat k)) in *. assert (length ps = k) as Hps by (unfold ps; rewrite length_seqZ; lia).
  assert (∀ p, p ∈ ps → p ≠ 0 ∧ is_Some (C !! p)) as Hall.
  { intros p Hp. split; [by apply (seqZ_new s (Z.of_nat k) p Hf)|]. specialize (HC p). by rewrite decide_True in HC. }
  assert (NoDup ps) as Hnd by apply NoDup_seqZ. destruct (decide (fresh_pointer = 0)) as [H0|H0].
  - unfold wp. rewrite Hrun. match goal with |- match ?m ?t with _ => _ end => change (wp m (λ e s', e = PVRSRV_ERROR_OUT_OF_MEMORY ∧
      q_os s' = Build_os rest (os_live (q_os s)) ∧ apsDeviceCommandData s' = delete d (apsDeviceCommandData s) ∧
      q_devcmds s' = q_devcmds s ∧ q_completes s' = q_completes s) t) end.
    wp_step. eapply wp_mono.
    + eapply (wp_remove_registered d _ _ (q_next s) xs C ps (length cmds - k)); try done.
      * apply lookup_insert_eq.
      * apply lookup_insert_eq.
      * rewrite Hps. lia.
      * intros p Hp. by apply Hall.
      * intros p Hp. by apply Hall.
    + intros e s' (->&C'&->&HC'). wp_step. simpl. split_and!; [done|..].
      * rewrite Hps. f_equal. lia.
      * apply delete_insert_eq.
      * destruct Hf as [_ Hf]. rewrite delete_insert_eq. apply delete_id, Hf. lia.
      * apply map_eq. intros p. rewrite HC'. specialize (HC p). case_decide as Hp; [|done].
        by rewrite (proj2 (seqZ_new s (Z.of_nat k) p Hf Hp)).
  - intros Hwild Hni. rewrite Hrun. apply fault_bind. unfold PVRSRVRemoveCmdProcListKM. rewrite (proj2 (Z.leb_gt _ _)) by lia.
    apply bind_runs. wp_step. simpl. rewrite lookup_insert_eq. apply fault_bind. change 0 with (Z.of_nat 0).
    replace (Z.to_nat (Z.of_nat (length cmds))) with (length ps + S (length cmds - k - 1))%nat by lia.
    eapply remove_loop_faults; [done|simpl; apply lookup_insert_eq|rewrite drop_0; replace (S (length cmds - k - 1)) with (length cmds - k)%nat by lia; exact Hck|done|exact Hall|].
    specialize (HC fresh_pointer). rewrite decide_False in HC by done. simpl. by rewrite HC.
Qed.

Lemma register_out_of_memory_witness :
  let s := set_q_os (Build_os [true; true; false] 0) demo_state in
  fresh_blocks s ∧ @PVRSRVRegisterCmdProcListKM 48879 1 [(501, (1, 1)); (502, (2, 2))] s = Fault.
Proof.
  intros s. assert (fresh_blocks s) as Hf.
  { split; [done|]. intros p Hp. change (100 ≤ p) in Hp. split; apply lookup_singleton_ne; lia. }
  split; [exact Hf|].
  pose proof (@register_out_of_memory 48879 1 [(501, (1, 1)); (502, (2, 2))] s 1 [] ltac:(by split) ltac:(simpl; lia) Hf eq_refl) as H.
  rewrite decide_False in H by done. apply H; [done|]. intros [_ Hx]%elem_of_seqZ. by vm_compute in Hx.
Defined.
